(* ===== verification/_CoqProject ===== *)
-Q . S2P
Prelude.v
Pages.v
Friend.v
Log.v
Versions.v
Txn.v
SeeThru.v
Ioctl.v
GC.v
Recovery.v
ActiveMap.v
VersionCount.v
PageCopy.v
ChildWrite.v
ChildRead.v
Lifecycle.v
Families.v
Xattr.v
Clone.v
ChildOpen.v
Writeback.v
Mount.v
ExtStatus.v
ExtInsert.v
ExtRemove.v
ExtOps.v
ExtShrink.v
ExtRecover.v
SysZone.v
ExtTree.v
ExtPrecache.v
ExtMap.v
ExtLeaf.v
ExtEdit.v
ExtSplit.v
ExtSpace.v
ExtCheck.v
ExtStep.v
ExtCut.v
ExtZip.v
ExtCursor.v
ExtWalk.v
ExtGood.v
ExtFind.v
ExtPart.v
ExtPunch.v
HolePunch.v
ExtAlloc.v
ExtZero.v
Bytes.v
XattrLayout.v
XattrStore.v
XattrEntry.v
XattrSetEntry.v
XattrShare.v
XattrBlockSet.v
XattrHandle.v
XattrFs.v
