(* ===== verification/Prelude.v ===== *)
(** * Verification of FlexClone: file clones inside ext4

    FlexClone is a copy of the ext4 module ([src/ext4-module]) with a layer for
    clones of single files ([corw_sparse.c], [corw_sparse.h]) and calls to it
    from the file operations of ext4 ([file.c], [ioctl.c], [inode.c], [xattr.c])
    and from the page cache ([src/filemap.c]).  The
    development models the layer and its callers as functions on explicit
    states and proves what the layer promises to the files built on it.

    ** The program

    - A parent file has up to [SCORW_MAX_CHILDS] children.  A child starts as an
      empty file that stands for the content of the parent.  Its friend file has
      one bit per block, set when the child has a block of its own.
    - A write of a child first copies the blocks it covers in part
      ([scorw_write_child_blocks_begin]), then writes, then sets the bits
      ([scorw_write_child_blocks_end]).
    - A write to the parent keeps the old content for the children that have no
      copy yet: it puts a page copy on a list ([scorw_write_par_blocks]), and a
      thread copies the page to every child it is for
      ([scorw_page_copy_thread_fn]).  While a page of the parent is being
      replaced the block is locked against the readers of the children by an
      entry in the active map of every child ([scorw_read_barrier_begin]).
    - The bits of a friend file are written without a barrier.  A version count
      of the child and one of the friend tell at the next open whether the bits
      can be trusted; if not they are rebuilt from the extents of the child
      ([scorw_prepare_child_inode], [scorw_recover_friend_file]).
    - A see-through parent is never overwritten.  A write goes past the end of
      the file ([scorw_write_see_thru_ro]), and a record in the version log maps
      the blocks it replaces to the new ones.  A child reads through the map of
      the version it stands at ([scorw_read_from_parent],
      [scorw_lookup_physical_block]).  Transactions group writes into one version
      ([scorw_set_transaction]); blocks that no version in use resolves to are
      punched out ([scorw_gc_blocks]); after a crash the log is cut to what
      reached the disk ([scorw_do_recovery]).
    - A child is made by setting its parent attribute ([ext4_xattr_set]); what a
      family is, is kept in attributes of its files.  Opening a file of a family
      creates a scorw inode for the parent and every child ([scorw_get_inode]);
      reference counts, to which pending page copies add, decide when they go
      ([scorw_put_inode]).  The page cache holds a mutex of a parent while it is
      written back ([filemap_fdatawrite_wbc]), which keeps children from being
      made meanwhile.  Unmounting stops the thread, drops the page copies and
      brings the friends up to date ([scorw_exit]).
    - What ext4 knows of the blocks of a file is in its extent status tree
      ([extents_status.c]): written, unwritten, delayed and hole extents, with
      the reservations of delayed blocks and a shrinker.  It is a cache of the
      extent tree on the disk ([extents.c]), whose nodes are checked when they are
      read ([__ext4_ext_check]), also against the zones of the file system that no
      file may have ([block_validity.c]).  A block of a file is looked up in the
      status tree first and on the disk then ([ext4_map_blocks] of [inode.c]).  The
      recovery of a friend file walks the whole tree of the child
      ([ext4_ext_precache]) and reads the extents back from the status tree.  A
      range is taken out of a file by removing it from the extent tree from its end
      on ([ext4_ext_remove_space]).
    - The attributes of an inode, in which the layer keeps what a family is, are in
      the body of the inode and in one more block, which inodes with the same
      attributes share ([xattr.c]).  A block has a count of its inodes; a change
      copies it or goes to an equal block that the cache finds.

    ** The files

    - This file: integers at their C width, the outcome monad ([Ok], [Bug] for a
      kernel oops, [Hang] for a thread that never returns), tactics, the hint
      database [scorw], and lemmas on lists and integers.
    - [Pages]: a file as its size, page cache and disk blocks ([mapping]);
      [scorw_get_page], the write hooks of [inode.c], the byte writers and
      [scorw_internal_copy_blocks].
    - [Friend]: the friend file, its bits, its initialisation, rebuilding and
      recovery.
    - [Log]: the log record, the log file, appending, scanning and truncating.
    - [Versions]: the delta maps of versions with their FIFO of four
      ([scorw_get_or_create_version]), replay, lookup and [scorw_record_write].
    - [Txn]: the transaction lock, begin, commit and abort, [update_version].
    - [SeeThru]: [scorw_write_see_thru_ro], [scorw_generic_perform_write] of
      [file.c], the vectored write ioctl and the versioned read.  The page loop
      of [file.c] calls the parent side through the record [par_hooks].
    - [Ioctl]: the ioctls of the layer ([ext4_ioctl]), the abort at the release of a
      file, and histories of calls on an open file.
    - [GC]: versions in use, the scan for superseded blocks, the hole punch
      against an interface to the extent tree ([MapBlocks], [MapBlocksOk]).
    - [Recovery]: the first open after a mount and the roll-back of the log.
    - [ActiveMap]: the table of locked blocks of a child ([HashMin] stands for
      the hash function of the kernel) and the read barrier.
    - [VersionCount]: the version counts and the list of friends to catch up.
    - [PageCopy]: a family of a parent and its children, the page copies, the
      thread; [family_hooks] is the instance of [par_hooks] for it.
    - [ChildWrite]: the writes of a child, and a machine that interleaves the
      operations of a family ([fstep]) for the main theorems.
    - [ChildRead]: [ext4_file_read_iter], which serves a child from the pages of its
      parent.
    - [Lifecycle]: scorw inodes and inodes with their counts and mutexes; get,
      put, open, release, [special_open], unlink.  What preparing a child does to
      the version counts is the interface [ChildAttach] with the promise
      [ChildAttachOk].
    - [Families]: histories of a family against a counter, the instances of the
      interface by [VersionCount], and runs that go wrong.
    - [Xattr]: the attributes as bytes and their accessors.
    - [Clone]: making a child.
    - [ChildOpen]: what opening a child reads from its attributes.
    - [Writeback]: the hook in the writeback of the page cache.
    - [Mount]: [scorw_init], [scorw_exit] and the loop of the thread, on the world
      of [Lifecycle] with the counts of [VersionCount].
    - [ExtStatus]: extents, the tree, search, lookup and scan; [ExtInsert]: merging
      and [__es_insert_extent]; [ExtRemove]: reservations and
      [__es_remove_extent]; [ExtOps]: what the rest of ext4 calls, the pending
      reservations of clusters, the shrinker of one inode, and histories of
      operations; [ExtShrink]: [__es_shrink] over the list of inodes; [ExtRecover]:
      the recovery of a friend file through the tree.  The red-black tree is the
      interface [RbTree] with the law [RbTreeOk]: it may take any shape that has the
      nodes in order.
    - [SysZone]: the zones of the file system; its red-black tree is the interface
      [ZoneTree] with the law [ZoneTreeOk].
    - [ExtTree]: nodes of the extent tree on the disk as the slots the code
      indexes, the checks of a node, the reading of a block into the cache, the
      binary searches and the descent [ext4_find_extent].  What a block of the disk
      holds is the argument [ext_env].
    - [ExtPrecache]: the walk over the whole tree, its termination and what it puts
      into the status tree, and the recovery of a friend file through it.
    - [ExtMap]: the mapping of blocks without allocation, holes, and histories of
      lookups in which the cache fills and shrinks.
    - [ExtLeaf]: moving and merging the slots of a node; [ExtEdit]: the state of a
      change with its monad ([edit]), journal access, indexes, removing blocks from
      a leaf; [ExtSplit]: splitting and inserting an extent, new leaves, growing;
      [ExtSpace]: [ext4_ext_remove_space].  Answers of the journal, the block layer
      and the allocator are the argument [edit_env] and lists in the state.
      The proofs: [ExtCheck] (what a check says, and that it passes again),
      [ExtStep] (single steps, when all answers are good), [ExtCut] (a range taken
      out of a list of extents), [ExtZip] (shapes of trees, and a node with the
      [frame]s above it), [ExtCursor] and [ExtWalk] (the walk), [ExtGood] (from a
      tree that passes its checks to a shape and back), [ExtFind] (a found path as
      frames), [ExtPart] (splitting in a leaf), [ExtPunch] (the whole).
    - [HolePunch]: [scorw_punch_hole_range] on both trees.
    - [ExtAlloc]: allocation of blocks and conversion of unwritten extents, that is
      the rest of [ext4_ext_map_blocks] and all of [ext4_map_blocks]; what the
      allocator answers is in the argument [alloc_env]. [ExtZero]: a device that
      fails to zero a block leaves it as written in the extent status tree.
    - [Bytes]: buffers as lists of bytes with their reads, writes and moves;
      [XattrLayout]: entries and values in a buffer, the checks, search, hashes and
      [ext4_xattr_set_entry], and what a sound buffer is ([region]) and means
      ([attrs]); [XattrStore]: inodes and blocks, [ext4_xattr_get],
      [ext4_xattr_set_handle] and all they call, and what a sound store is
      ([store_sound], [attrs_apart]).
      [XattrEntry] and [XattrSetEntry] prove what changing an entry does,
      [XattrShare] sharing and freeing of blocks, [XattrBlockSet] changes of a body
      or a block, [XattrHandle] the whole call.  [XattrFs]: a file system of such
      inodes, a refinement of the maps of names to values that [Xattr] has.

    Names of definitions are those of the C functions where one function is one
    definition; the body of a loop, or a phase of a long function, has a name of
    its own.

    ** What the theorems show

    - Snapshots: under every interleaving of writes to the parent, writes of
      children, steps of the thread and page-cache traffic of [fstep] the pages of a
      snapshot are kept for its child ([kept]: in its file, a page copy or the
      parent; [snapshot_preserved]), as long as no
      block is written back before a pending page copy has read it
      ([cold_copy_lost_on_writeback] shows why this is needed); a write of a
      child changes exactly its bytes ([child_write_exact]).  That is what the code
      that copies provides; reads of a child use none of it: [ext4_file_read_iter]
      serves them from the pages of the parent, so that a child does not read its own
      writes ([child_reads_miss_its_writes]) and reads what was written to a parent in
      place ([child_reads_parent_written_in_place]).  For a see-through parent, which is not
      written in place, reads at a version are what the theorems are about: a
      see-through write changes what no existing version reads (where the end of the
      file was not page aligned, a read at the end may become longer), and reads back
      at the new one; [rewritten_tail_lost] is the case that does not.
    - Versions and log: lookups return what the records of the log say, however
      many versions are resident; recording a write is isolated; a record appended
      is read back, after a sync and a crash too; truncation keeps the committed prefix.
    - Space: garbage collection keeps every block a version in use resolves to,
      and collects the versions in use in a sorted array.
    - Crash and commit: recovery leaves a consistent log, version and file; a
      commit is durable; a transaction excludes the calls of other files, but for the
      vectored write ([writev_ignores_transaction]).
    - Locks: a reader and an exclusive copier never hold the same block.
    - Version counts: no update of a friend is lost; a pass over the list
      decides every request; the pass at unmount leaves none; an open repairs a
      friend that is behind.
    - Friend file: setting a bit changes one bit; a fresh file has none set; a
      recovered file agrees with the extents of the tree.
    - Life of a family: every history of opens, closes and page copies follows an
      abstract counter of open files and pending copies, and can be wound down to
      no scorw inode (not so once a child was made or unlinked under an open
      parent); unmounting a closed family returns and leaves nothing
      pending.
    - Making and opening: a new child takes the first free slot and no other, all
      attributes read back as asked for, opening it finds them; getters and
      setters of the attributes are inverse; the refusals are exactly two.
    - Writeback of a parent: under its mutex, every dirty page of the range tagged, the
      mutex released if the file is still a parent then; the batched scan of pages equals a single pass.
    - Extent status tree: it stands for a map of blocks ([block_map]), which an
      insertion, a removal and a lookup change and read as they should; delayed
      blocks are never lost, other blocks only for lack of memory or to the
      shrinker; reservations are given back block by block; in every history the
      tree is well typed, its cached node and counters right, and no [BUG_ON] is
      hit.  Recovery of a friend file agrees with the disk, if there was memory.
    - Extent tree on the disk: [file_map] is what a tree means.  The descent finds
      the extent that holds a block or the ones next to it, for trees of any depth; the
      walk ends and reads every extent, so a recovery through it rebuilds the
      friend from the disk; the mapping of a block agrees with [file_map] in
      every history of the cache, and with a hole in no more than the file
      lacks.  The zone check refuses exactly the blocks of a zone of another file.
    - Changes of it: removing a range, on a tree of any height, makes exactly the
      blocks of the range holes, frees exactly what they were mapped to and the nodes
      that became empty, and leaves a tree that is in order and passes every check
      when it is read again ([remove_space_exact]).  The hole punch of garbage
      collection on both trees refines the one on sets of blocks that [GC] has
      ([gc_punch_refines]).
    - Attributes on the disk: reading and setting refine a map of names to values
      for every inode, however they share blocks ([store_refines]); counts are
      exact and checksums right in every history, also when blocks cannot be allocated;
      an entry is changed alone, or
      refused exactly for lack of space.
    - Limits: the theorems of kind error state where the code falls short of its
      own intent, each with the exact condition: a torn log is scanned for ever,
      the 33rd version is refused, a write of an aborted transaction resurfaces,
      the unread last page of a log is wiped by an append, read-only ranges are
      not enforced past a block in no range, unlinking a child of an open parent
      deadlocks, an [fsync] of a parent without dirty pages keeps its mutex, a
      further child resets the versions of its parent, setting an attribute that
      fails may take effect, and the like.  Those that
      are single runs are theorems without a number.

    ** Bounds and fuel

    Integers are [Z], cut by [u8] to [s64] where the source assigns to a type of
    that width and the cut can matter.  A page and a block are 4096 bytes.  Loops
    whose recursion is not structural take fuel, and the result without fuel is
    [Hang]:
    - the log scans take [scan_fuel], one more than the number of records, since
      every iteration over a well-formed log consumes a record;
    - the page loop of a write and the block copier take the length of the
      buffer, since every iteration moves at least a byte;
    - the loop over an extent and the hole punch take the number of blocks;
    - [scorw_put_inode] takes [put_depth] = 3, since a put of a child puts its
      parent, which puts children, which put no parent;
    - the scan of tagged pages takes one more than the number of pages, dropping
      page copies the length of their list, and the thread that is told to stop
      two turns, one of them a pass that was due;
    - a removal from the extent status tree takes two passes, an insertion and a
      delayed insertion three, since after a failure the nodes it was for are
      allocated before the next pass;
    - the binary searches of a node take the number of its entries, the descent
      its depth, the walk over the tree [inode_cost], which counts every node and
      entry of it, the search for the size of a hole two turns, and the protection
      of a file the number of its blocks;
    - merging in a leaf takes its number of entries, removing from a leaf one more,
      the walk of a removal twice [walk_cost] (the nodes and entries of the tree) and
      two, its rounds one more than the answers of the journal; the conversion of a
      range the number of its blocks; a tree grows once
      before a new leaf fits, so that [ext4_ext_create_new_leaf] takes two rounds;
    - a walk over attributes takes one more than the bytes of the buffer, since every
      entry has some, and the search for a block with room for one more inode a
      round for every answer of the cache ([cached]).
    The lemmas on each loop prove that this is enough, so the theorems state
    results, not only partial correctness; [replay_torn_log_diverges] proves that
    for a torn log no fuel is.

    What ext4 and the block layer answer (which blocks are mapped, whether an
    allocation or a read fails, how many bytes a copy from user space moves) is an
    argument: [io_env], [wenv], [venv], [kio], [MapBlocks], [es_mem], [ext_env],
    [map_env], [edit_env], [alloc_env], [xenv].

    ** What is not modelled, and the plan

    Not modelled: ext4 itself (the allocator, journal, directories, mount),
    but for its extent status tree, the extent tree, the system zones and the
    attributes, which the layer calls and does not change; of the changes of the
    extent tree the truncation and [fallocate] of a file and the moving of extents; of
    the attributes the listing, the values in
    inodes of their own, quotas, and what happens when an inode grows or goes; the statistics of the shrinker and
    the nodes allocated before a pass, of which only their presence is; the tests
    of ext4, backups and generated files; the user programs of [test] and [utils];
    memory ordering; the sysfs variables; the batched read
    [scorw_follow_on_read_child_blocks], which nothing calls.  In the components
    on data an attribute is a field of the state; [Xattr] to [ChildOpen] have
    its bytes.

    For [ext4_es_insert_extent] and [ext4_es_remove_extent] the count of reservations is
    stated for clusters of one block; [retry_charges_twice] shows that it is wrong for
    larger ones when memory is short.  The theorems on attributes are for a journal,
    memory and reads that do not fail, and for values that are not in inodes of their
    own.  The machine [fstep] has children without ranges write, and operations that
    succeed.

    The theorem on [ext4_ext_remove_space] is for clusters of one block, a journal
    and a block layer that answer well, and room in the leaf where an extent has to
    be split; with a full leaf, and with errors, the definitions are executable and
    tried, without theorems.

    Next: the insertion into a full leaf; threads that wait for each
    other's mutexes as interleavings rather than as the deadlock of one; the count
    of reservations with larger clusters. *)

From Stdlib Require Export ZArith Lia.
From stdpp Require Export prelude list gmap.

#[global] Open Scope Z_scope.

(** ** C integers at their width *)

(** Conversion to an unsigned type of [w] bits, and to a signed one
    (two's complement). *)
Definition wrap (w z : Z) : Z := z mod 2 ^ w.
Definition swrap (w z : Z) : Z := (z + 2 ^ (w - 1)) mod 2 ^ w - 2 ^ (w - 1).

Definition u8 (z : Z) : Z := wrap 8 z.
Definition u16 (z : Z) : Z := wrap 16 z.
Definition u32 (z : Z) : Z := wrap 32 z.
Definition u64 (z : Z) : Z := wrap 64 z.
Definition s32 (z : Z) : Z := swrap 32 z.
Definition s64 (z : Z) : Z := swrap 64 z.

(** ** Outcomes of kernel code

    [Ok] is a normal return.  [Bug] is a kernel oops: a [BUG_ON] whose
    condition holds, or a dereference of a null or freed pointer.  [Hang] is a
    thread that does not return: it waits for a mutex that is held, or loops in
    a state that no longer changes. *)
Inductive outcome (A : Type) : Type :=
| Ok (a : A)
| Bug
| Hang.
Arguments Ok {A} _.
Arguments Bug {A}.
Arguments Hang {A}.

#[export] Instance outcome_ret : MRet outcome := fun A a => Ok a.
#[export] Instance outcome_bind : MBind outcome := fun A B f m =>
  match m with Ok a => f a | Bug => Bug | Hang => Hang end.
#[export] Instance outcome_eq_dec `{EqDecision A} : EqDecision (outcome A).
Proof. solve_decision. Defined.

(** [BUG_ON(c)]. *)
Definition BUG_ON (c : bool) : outcome unit := if c then Bug else Ok tt.

(** A [for] loop over the values [l] of its counter, threading the state and
    stopping at the first oops. *)
Fixpoint for_each {A S : Type} (l : list A) (body : A -> S -> outcome S)
    (s : S) : outcome S :=
  match l with
  | [] => Ok s
  | a :: l' => s' ← body a s; for_each l' body s'
  end.

(** ** Constants of [corw_sparse.h] and of the page cache *)
Definition PAGE_SHIFT : Z := 12.
Definition PAGE_SIZE : Z := 4096.
Definition PAGE_BYTES : Z := PAGE_SIZE.
Definition PAGE_BITS : Z := Z.shiftl PAGE_BYTES 3.
Definition PAGE_BLOCKS : Z := PAGE_BITS.
Definition SCORW_MAX_CHILDS : Z := 64.
Definition MAX_VERSIONS : Z := 32.
Definition MAX_RAM_VERSIONS : Z := 4.
Definition UNSET_TRANSACTION : Z := 0.
Definition SET_TRANSACTION : Z := 1.
Definition SET_NORMAL_WRITE : Z := 2.
Definition BLK_NOT_FOUND : Z := 2 ^ 64 - 1.

(** ** Error numbers *)
Definition EPERM : Z := 1.
Definition ENOENT : Z := 2.
Definition EIO : Z := 5.
Definition ENOMEM : Z := 12.
Definition EFAULT : Z := 14.
Definition EINVAL : Z := 22.

(** ** Ranges of integers *)

(** The integers of [[a, a + n)], as a list: the values of a counter that
    starts at [a] and runs [n] times. *)
Definition zseq (a : Z) (n : nat) : list Z := (fun k => a + Z.of_nat k) <$> seq 0 n.

(** The values of [for (i = a; i <= b; i++)]. *)
Definition zrange (a b : Z) : list Z := zseq a (Z.to_nat (b - a + 1)).

(** ** The rewriting and hint databases of the development *)
Create HintDb scorw discriminated.
Create Rewrite HintDb len.

#[export] Hint Rewrite @length_app @length_insert @length_replicate @length_take
  @length_drop @length_fmap @length_seq : len.

(** ** Tactics *)

(** Case analysis on the boolean tests and decisions of the goal, keeping
    them as hypotheses [lia] can use. *)
Ltac case_bools :=
  repeat first
    [ case_bool_decide
    | case_decide
    | match goal with
      | |- context [if ?b then _ else _] => destruct b eqn:?
      end ];
  repeat match goal with
    | H : (_ <? _) = true |- _ => apply Z.ltb_lt in H
    | H : (_ <? _) = false |- _ => apply Z.ltb_ge in H
    | H : (_ <=? _) = true |- _ => apply Z.leb_le in H
    | H : (_ <=? _) = false |- _ => apply Z.leb_gt in H
    | H : (_ =? _) = true |- _ => apply Z.eqb_eq in H
    | H : (_ =? _) = false |- _ => apply Z.eqb_neq in H
    end.

(** Arithmetic at machine width: unfold the conversions and call [lia] with
    its euclidean-division support. *)
Ltac wrap_lia :=
  unfold u8, u16, u32, u64, s32, s64, wrap, swrap in *;
  change (2 ^ 8) with 256 in *; change (2 ^ 16) with 65536 in *;
  change (2 ^ 32) with 4294967296 in *;
  change (2 ^ 64) with 18446744073709551616 in *;
  change (2 ^ (32 - 1)) with 2147483648 in *;
  change (2 ^ (64 - 1)) with 9223372036854775808 in *;
  Z.to_euclidean_division_equations; lia.

(** ** Lemmas on outcomes *)
Lemma bind_Ok_inv {A B} (m : outcome A) (f : A -> outcome B) (b : B) :
  (m ≫= f) = Ok b -> exists a, m = Ok a /\ f a = Ok b.
Proof. destruct m; simpl; intros H; try discriminate. eauto. Qed.

Lemma BUG_ON_Ok (c : bool) (u : unit) : BUG_ON c = Ok u -> c = false.
Proof. by destruct c. Qed.

(** Break a successful sequence of steps into its parts. *)
Ltac inv_Ok :=
  repeat match goal with
    | H : (_ ≫= _) = Ok _ |- _ =>
        let a := fresh "a" in let E := fresh "E" in
        apply bind_Ok_inv in H as (a & E & H)
    | H : Ok _ = Ok _ |- _ => injection H as H; subst
    | H : BUG_ON _ = Ok _ |- _ => apply BUG_ON_Ok in H
    | H : Bug = Ok _ |- _ => discriminate H
    | H : Hang = Ok _ |- _ => discriminate H
    end.

Lemma for_each_app {A S} (l1 l2 : list A) body (s : S) :
  for_each (l1 ++ l2) body s =
  (for_each l1 body s ≫= fun s' => for_each l2 body s').
Proof.
  revert s. induction l1 as [|a l1 IH]; intros s; simpl; [done|].
  destruct (body a s); simpl; auto.
Qed.

(** ** Lemmas on ranges *)
Lemma length_zseq a n : length (zseq a n) = n.
Proof. unfold zseq. by autorewrite with len. Qed.
#[export] Hint Rewrite length_zseq : len.

Lemma zseq_S a n : zseq a (S n) = a :: zseq (a + 1) n.
Proof.
  unfold zseq. simpl. f_equal; [lia|].
  rewrite <- fmap_S_seq, <- list_fmap_compose. apply list_fmap_ext.
  intros i x _. unfold compose. lia.
Qed.

Lemma zseq_app a n m : zseq a (n + m) = zseq a n ++ zseq (a + Z.of_nat n) m.
Proof.
  revert a. induction n as [|n IH]; intros a.
  - by rewrite Z.add_0_r.
  - rewrite Nat.add_succ_l, !zseq_S, IH, <- app_comm_cons.
    by replace (a + 1 + Z.of_nat n) with (a + Z.of_nat (S n)) by lia.
Qed.

Lemma zseq_snoc a n : zseq a (S n) = zseq a n ++ [a + Z.of_nat n].
Proof. by rewrite <- Nat.add_1_r, zseq_app, zseq_S. Qed.

Lemma elem_of_zseq x a n : x ∈ zseq a n <-> a <= x < a + Z.of_nat n.
Proof.
  revert a. induction n as [|n IH]; intros a.
  - unfold zseq. simpl. rewrite elem_of_nil. lia.
  - rewrite zseq_S, elem_of_cons, IH. lia.
Qed.

Lemma zrange_empty a b : b < a -> zrange a b = [].
Proof. intros H. unfold zrange. by replace (Z.to_nat _) with O by lia. Qed.

Lemma zrange_cons a b : a <= b -> zrange a b = a :: zrange (a + 1) b.
Proof.
  intros H. unfold zrange.
  replace (Z.to_nat (b - a + 1)) with (S (Z.to_nat (b - (a + 1) + 1))) by lia.
  apply zseq_S.
Qed.

(** ** Lemmas on machine integers *)
Lemma wrap_small w z : 0 <= z < 2 ^ w -> wrap w z = z.
Proof. apply Z.mod_small. Qed.

Lemma wrap_bound w z : 0 <= w -> 0 <= wrap w z < 2 ^ w.
Proof. intros. apply Z.mod_pos_bound. by apply Z.pow_pos_nonneg. Qed.

Lemma u32_small z : 0 <= z < 2 ^ 32 -> u32 z = z.
Proof. apply wrap_small. Qed.
Lemma u64_small z : 0 <= z < 2 ^ 64 -> u64 z = z.
Proof. apply wrap_small. Qed.
Lemma s32_idem z : s32 (s32 z) = s32 z.
Proof. wrap_lia. Qed.
Lemma s32_small z : - 2 ^ 31 <= z < 2 ^ 31 -> s32 z = z.
Proof. change (2 ^ 31) with 2147483648. intros. wrap_lia. Qed.
Lemma s64_small z : - 2 ^ 63 <= z < 2 ^ 63 -> s64 z = z.
Proof. change (2 ^ 63) with 9223372036854775808. intros. wrap_lia. Qed.

(** ** Lemmas on bits *)
Lemma testbit_single b n : 0 <= n -> Z.testbit (Z.shiftl 1 b) n = bool_decide (n = b).
Proof.
  intros Hn. destruct (Z.leb_spec 0 b).
  - rewrite Z.shiftl_mul_pow2, Z.mul_1_l by done.
    rewrite Z.pow2_bits_eqb by done. case_bool_decide.
    + subst. apply Z.eqb_refl.
    + apply Z.eqb_neq. congruence.
  - rewrite Z.shiftl_spec by done. rewrite bool_decide_false by lia.
    destruct (n - b) eqn:E; try lia. by destruct p.
Qed.

Lemma land_single_nonzero z b : 0 <= b -> (Z.land z (Z.shiftl 1 b) = 0) <-> Z.testbit z b = false.
Proof.
  intros Hb. split.
  - intros H. apply (f_equal (fun x => Z.testbit x b)) in H.
    rewrite Z.land_spec, testbit_single, Z.bits_0 in H by done.
    rewrite bool_decide_true in H by done. by rewrite andb_true_r in H.
  - intros H. apply Z.bits_inj'. intros n Hn.
    rewrite Z.land_spec, testbit_single, Z.bits_0 by done.
    case_bool_decide; [subst; by rewrite H|apply andb_false_r].
Qed.

#[export] Hint Rewrite @list_lookup_insert_ne using lia : len.

(** ** Lemmas on sets *)
Lemma size_list_to_set_le `{Countable A} (l : list A) :
  (size (list_to_set l : gset A) <= length l)%nat.
Proof.
  induction l as [|a l IH]; [done|simpl].
  pose proof (size_union_alt {[a]} (list_to_set l : gset A)) as ->. rewrite size_singleton.
  assert ((size ((list_to_set l : gset A) ∖ {[a]}) <= size (list_to_set l : gset A))%nat)
    by (apply subseteq_size; set_solver). lia.
Qed.
