(* ===== verification/Pages.v ===== *)
(** Files as the page cache and the disk hold them: the pages the module reads
    and writes, [scorw_get_page], the delayed-allocation write hooks and the
    byte-level writers built on them ([corw_sparse.c], [inode.c]).

    A file is its size, the up-to-date pages of its page cache and the blocks on
    disk; an index with neither is a hole and reads as zeros.  What the block
    layer and the allocator answer is an argument ([io_env]) of the operations
    that ask them. *)

From S2P Require Import Prelude.

Abbreviation page := (list Z).

Definition zero_page : page := replicate (Z.to_nat PAGE_SIZE) 0.

Record mapping := Mapping {
  i_size : Z;
  i_disksize : Z;
  cache : gmap Z page;
  disk : gmap Z page
}.

(** What [write_end] finds: does the folio have buffers, is it up to date, is the
    block that holds the new end of the file mapped on the disk, and the (negative)
    error of starting a handle of the journal, 0 when it starts. *)
Record end_env := EndEnv {
  end_buffers : bool;
  end_uptodate : bool;
  end_mapped : bool;
  end_journal : Z
}.
(** The block of an append is allocated when it is written back. *)
Definition end_ok : end_env := EndEnv true true false 0.

(** Answers of the environment to one call: does the page allocation succeed,
    does the read of a page from disk succeed, the (negative) error of
    [write_begin], 0 when it succeeds, whether a page of the cache has its buffers,
    and what [write_end] finds. *)
Record io_env := IoEnv {
  io_alloc : bool;
  io_read : bool;
  io_wbegin : Z;
  io_buffers : bool;
  io_end : end_env
}.
Definition io_ok : io_env := IoEnv true true 0 false end_ok.
(** Writing a page of the cache fails. *)
Definition io_full : io_env := IoEnv true true (-28) false end_ok.

(** The contents a page of the file has: the cached copy when there is one. *)
Definition disk_page (m : mapping) (idx : Z) : page := default zero_page (disk m !! idx).
Definition file_page (m : mapping) (idx : Z) : page := default (disk_page m idx) (cache m !! idx).

Definition set_page (m : mapping) (idx : Z) (p : page) : mapping :=
  Mapping (i_size m) (i_disksize m) (<[idx := p]> (cache m)) (disk m).
(** A folio that is not up to date is read from the disk again. *)
Definition drop_page (m : mapping) (idx : Z) : mapping :=
  Mapping (i_size m) (i_disksize m) (delete idx (cache m)) (disk m).
Definition i_size_write (m : mapping) (sz : Z) : mapping :=
  Mapping sz (i_disksize m) (cache m) (disk m).
Definition set_disksize (m : mapping) (sz : Z) : mapping :=
  Mapping (i_size m) sz (cache m) (disk m).

(** [memcpy] into and out of a mapped page. *)
Definition page_write (p : page) (off : Z) (bytes : list Z) : page :=
  take (Z.to_nat off) p ++ bytes ++ drop (Z.to_nat off + length bytes) p.
Definition page_read (p : page) (off : Z) (len : Z) : list Z :=
  take (Z.to_nat len) (drop (Z.to_nat off) p).

(** [scorw_get_page]: the page of the cache when it is up to date; otherwise a
    page is found or created, zero-filled when its index is not below
    [i_size >> PAGE_SHIFT], and read from disk otherwise.  [None] is the NULL
    the function returns when it has no page. *)
Definition scorw_get_page (io : io_env) (m : mapping) (lblk : Z) : option page * mapping :=
  let isize := i_size m in
  match cache m !! lblk with
  | Some p => (Some p, m)
  | None =>
      if negb (io_alloc io) then (None, m)
      else if Z.shiftr isize PAGE_SHIFT <=? lblk then
        (Some zero_page, set_page m lblk zero_page)
      else if negb (io_read io) then (None, m)
      else (Some (disk_page m lblk), set_page m lblk (disk_page m lblk))
  end.

(** [scorw_da_write_begin]: the folio that holds [pos], in the cache, or an
    error and no folio. *)
Definition scorw_da_write_begin (io : io_env) (m : mapping) (pos len : Z) : Z * option Z * mapping :=
  if io_wbegin io <? 0 then (io_wbegin io, None, m)
  else let index := Z.shiftr pos PAGE_SHIFT in
       (0, Some index, set_page m index (file_page m index)).

(** [scorw_da_write_end]: a short copy into a folio that is not up to date is
    rejected; a write that ends past the end of the file moves [i_size], and
    [i_disksize] too where the block is mapped; a change of [i_disksize], or a write
    that starts past the end, needs a handle.  The zeroing between the old end and
    such a write is of bytes that are zero already. *)
Definition scorw_da_write_end (io : io_env) (m : mapping) (pos len copied : Z) : Z * mapping :=
  let e := io_end io in
  if negb (end_buffers e) then (- EIO, m)
  else
    let rejected := (copied <? len) && negb (end_uptodate e) in
    let m0 := if rejected then drop_page m (Z.shiftr pos PAGE_SHIFT) else m in
    let copied := if rejected then 0 else copied in
    let new_i_size := pos + copied in
    let m1 := if i_size m <? new_i_size then i_size_write m0 new_i_size else m0 in
    let disksize_changed := (i_size m <? new_i_size) && negb (copied =? 0) && end_mapped e in
    let m2 := if disksize_changed then set_disksize m1 (Z.max (i_disksize m) new_i_size) else m1 in
    if (disksize_changed || (i_size m <? pos)) && (end_journal e <? 0) then (end_journal e, m2) else (copied, m2).

(** [scorw_create_zero_page]: write a page of zeros at page index [lblk]. *)
Definition scorw_create_zero_page (io : io_env) (m : mapping) (lblk : Z) : Z * mapping :=
  let pos := Z.shiftl lblk PAGE_SHIFT in
  match scorw_da_write_begin io m pos PAGE_SIZE with
  | (error, None, m1) => (error, m1)
  | (_, Some idx, m1) =>
      let m2 := set_page m1 idx zero_page in
      (0, snd (scorw_da_write_end io m2 pos PAGE_SIZE PAGE_SIZE))
  end.

(** [write_offset_log]: copy [len] bytes into the page that holds [offset] and
    move the end of the file.  A null page is given up silently; a failure to give
    a page without buffers its buffers is a [BUG_ON]. *)
Definition put_log_bytes (m : mapping) (offset : Z) (p : page) (bytes : list Z) : mapping :=
  let m2 := set_page m (offset / PAGE_BYTES) (page_write p (offset mod PAGE_SIZE) bytes) in
  let new_size := offset + Z.of_nat (length bytes) in
  if i_size m2 <? new_size then set_disksize (i_size_write m2 new_size) new_size
  else m2.
Definition write_offset_log (io : io_env) (m : mapping) (offset : Z) (bytes : list Z) : outcome mapping :=
  match scorw_get_page io m (offset / PAGE_BYTES) with
  | (None, m1) => Ok m1
  | (Some p, m1) => _ ← BUG_ON (negb (io_buffers io) && (io_wbegin io <? 0)); Ok (put_log_bytes m1 offset p bytes)
  end.

(** [scorw_write_kernel_data]: write a kernel buffer at [dest_pos]. *)
Definition scorw_write_kernel_data (io : io_env) (m : mapping) (dest_pos : Z) (kbuf : list Z) : Z * mapping :=
  let len := Z.of_nat (length kbuf) in
  match scorw_da_write_begin io m dest_pos len with
  | (error, None, m1) => (error, m1)
  | (_, Some idx, m1) =>
      let m2 := set_page m1 idx (page_write (file_page m1 idx) (dest_pos mod PAGE_SIZE) kbuf) in
      scorw_da_write_end io m2 dest_pos len len
  end.

(** [scorw_internal_copy_blocks]: copy [len] bytes inside the file, page by
    page.  [fuel] bounds the iterations; every iteration copies at least one
    byte, so [len] of them are enough. *)
Fixpoint scorw_internal_copy_blocks_loop (io : io_env) (fuel : nat) (m : mapping)
    (src_pos dest_pos len status : Z) : outcome (Z * mapping) :=
  if len <=? 0 then Ok (status, m)
  else match fuel with
  | O => Hang
  | S fuel' =>
      let dest_offset := Z.land dest_pos (PAGE_SIZE - 1) in
      let src_offset := Z.land src_pos (PAGE_SIZE - 1) in
      let bytes := Z.min len (PAGE_SIZE - dest_offset) in
      let src_index := Z.shiftr src_pos PAGE_SHIFT in
      if negb (io_read io) then Ok (- EIO, m)
      else
        let m1 := set_page m src_index (file_page m src_index) in
        match scorw_da_write_begin io m1 dest_pos bytes with
        | (status', None, m2) => Ok (status', m2)
        | (_, Some idx, m2) =>
            let data := page_read (file_page m2 src_index) src_offset bytes in
            let m3 := set_page m2 idx (page_write (file_page m2 idx) dest_offset data) in
            let (status', m4) := scorw_da_write_end io m3 dest_pos bytes bytes in
            if status' <? 0 then Ok (status', m4)
            else scorw_internal_copy_blocks_loop io fuel' m4
                   (src_pos + bytes) (dest_pos + bytes) (len - bytes) status'
        end
  end.

Definition scorw_internal_copy_blocks (io : io_env) (m : mapping)
    (src_pos dest_pos len : Z) : outcome (Z * mapping) :=
  scorw_internal_copy_blocks_loop io (Z.to_nat len) m src_pos dest_pos len 0.

(** [truncate_setsize] with the page cache it invalidates: pages past the new
    end leave the cache, and the bytes of the last page past it are zeroed. *)
Definition zero_tail (p : page) (n : Z) : page :=
  take (Z.to_nat n) p ++ replicate (length p - Z.to_nat n) 0.

Definition truncate_pages (m : mapping) (sz : Z) : gmap Z page :=
  filter (fun kv => kv.1 * PAGE_SIZE < sz) (cache m).

Definition truncate_setsize (m : mapping) (sz : Z) : mapping :=
  let off := sz mod PAGE_SIZE in
  Mapping sz (i_disksize m)
    (if off =? 0 then truncate_pages m sz
     else alter (fun p => zero_tail p off) (Z.shiftr sz PAGE_SHIFT) (truncate_pages m sz))
    (disk m).

(** [ext4_truncate], when it succeeds: the blocks past the end are freed, and what
    is past it in the last one is zeroed. *)
Definition ext4_truncate (m : mapping) : mapping :=
  let sz := i_size m in
  let idx := Z.shiftr sz PAGE_SHIFT in
  let held := bool_decide (is_Some (cache m !! idx)) || bool_decide (is_Some (disk m !! idx)) in
  let m1 := Mapping sz (i_disksize m) (cache m) (filter (fun kv : Z * page => kv.1 * PAGE_SIZE < sz) (disk m)) in
  if negb (sz mod PAGE_SIZE =? 0) && held then set_page m1 idx (zero_tail (file_page m1 idx) (sz mod PAGE_SIZE)) else m1.

(** ** Well-formed files *)

Definition byte_ok (b : Z) : Prop := 0 <= b < 256.

Record page_wf (p : page) : Prop := {
  page_len : length p = Z.to_nat PAGE_SIZE;
  page_bytes : Forall byte_ok p
}.

Record mapping_wf (m : mapping) : Prop := {
  wf_size : 0 <= i_size m;
  wf_cache : forall i p, cache m !! i = Some p -> page_wf p;
  wf_disk : forall i p, disk m !! i = Some p -> page_wf p
}.

Lemma zero_page_wf : page_wf zero_page.
Proof. split; [by unfold zero_page; autorewrite with len|by apply Forall_replicate]. Qed.

Lemma disk_page_wf m i : mapping_wf m -> page_wf (disk_page m i).
Proof.
  intros Hwf. unfold disk_page. destruct (disk m !! i) eqn:E; simpl.
  - eapply wf_disk; eauto.
  - apply zero_page_wf.
Qed.

Lemma file_page_wf m i : mapping_wf m -> page_wf (file_page m i).
Proof.
  intros Hwf. unfold file_page. destruct (cache m !! i) eqn:E; simpl.
  - eapply wf_cache; eauto.
  - by apply disk_page_wf.
Qed.

Lemma set_page_wf m i p : mapping_wf m -> page_wf p -> mapping_wf (set_page m i p).
Proof.
  intros Hwf Hp. split; simpl; [apply Hwf| |apply Hwf].
  intros j q. rewrite lookup_insert. case_decide; [by intros [= <-]|apply Hwf].
Qed.

Lemma i_size_write_wf m sz : mapping_wf m -> 0 <= sz -> mapping_wf (i_size_write m sz).
Proof. intros [] ?. by split. Qed.

#[export] Hint Resolve zero_page_wf disk_page_wf file_page_wf set_page_wf i_size_write_wf : scorw.

Lemma file_page_set_eq m i p : file_page (set_page m i p) i = p.
Proof. unfold file_page. simpl. by rewrite lookup_insert_eq. Qed.

Lemma file_page_set_ne m i j p : i <> j -> file_page (set_page m i p) j = file_page m j.
Proof. intros. unfold file_page, disk_page. simpl. by rewrite lookup_insert_ne. Qed.

Lemma file_page_set m i j p :
  file_page (set_page m i p) j = if decide (i = j) then p else file_page m j.
Proof. case_decide; [subst; apply file_page_set_eq|by apply file_page_set_ne]. Qed.

Lemma file_page_size m sz i : file_page (i_size_write m sz) i = file_page m i.
Proof. done. Qed.
Lemma file_page_disksize m sz i : file_page (set_disksize m sz) i = file_page m i.
Proof. done. Qed.
#[export] Hint Rewrite file_page_set_eq file_page_size file_page_disksize : len.

Lemma page_write_length p off bytes :
  (Z.to_nat off + length bytes <= length p)%nat -> length (page_write p off bytes) = length p.
Proof. intros. unfold page_write. autorewrite with len. lia. Qed.

Lemma page_write_wf p off bytes :
  page_wf p -> Forall byte_ok bytes ->
  (Z.to_nat off + length bytes <= Z.to_nat PAGE_SIZE)%nat -> page_wf (page_write p off bytes).
Proof.
  intros [Hl Hb] Hbs Hle. split.
  - rewrite page_write_length; lia.
  - unfold page_write. rewrite !Forall_app.
    auto using Forall_take, Forall_drop.
Qed.

Lemma zero_tail_wf p n : page_wf p -> page_wf (zero_tail p n).
Proof.
  intros [Hl Hb]. split; unfold zero_tail.
  - autorewrite with len. lia.
  - rewrite Forall_app. split; [by apply Forall_take|by apply Forall_replicate].
Qed.

(** What a page holds after a [memcpy]: the copied bytes at their place, the
    old ones elsewhere. *)
Lemma page_read_write_eq p off bytes :
  0 <= off -> (Z.to_nat off + length bytes <= length p)%nat ->
  page_read (page_write p off bytes) off (Z.of_nat (length bytes)) = bytes.
Proof.
  intros Hoff Hle. unfold page_read, page_write.
  rewrite drop_app_ge by (autorewrite with len; lia).
  autorewrite with len. replace (_ - _)%nat with O by lia.
  rewrite drop_0, Nat2Z.id, take_app_le by lia. by apply take_ge.
Qed.

Lemma page_read_write_before p off bytes off' len' :
  0 <= off' -> 0 <= len' -> off' + len' <= off -> (Z.to_nat off <= length p)%nat ->
  page_read (page_write p off bytes) off' len' = page_read p off' len'.
Proof.
  intros. unfold page_read, page_write.
  rewrite drop_app_le by (autorewrite with len; lia).
  rewrite take_app_le by (autorewrite with len; lia).
  rewrite !take_drop_commute, take_take. do 2 f_equal. lia.
Qed.

(** ** [scorw_get_page] *)

Lemma scorw_get_page_wf io m lblk p m' :
  mapping_wf m -> scorw_get_page io m lblk = (p, m') -> mapping_wf m'.
Proof.
  intros Hwf. unfold scorw_get_page. destruct (cache m !! lblk); [by intros [= _ <-]|].
  case_bools; intros [= _ <-]; auto with scorw.
Qed.

Lemma scorw_get_page_size io m lblk p m' :
  scorw_get_page io m lblk = (p, m') -> i_size m' = i_size m.
Proof.
  unfold scorw_get_page. destruct (cache m !! lblk); [by intros [= _ <-]|].
  case_bools; by intros [= _ <-].
Qed.

(** On a page that lies wholly below the end of the file (or is cached), the
    page returned is the file's page, and no page of the file changes. *)
Lemma scorw_get_page_full io m lblk p m' :
  lblk < Z.shiftr (i_size m) PAGE_SHIFT \/ is_Some (cache m !! lblk) ->
  scorw_get_page io m lblk = (Some p, m') ->
  p = file_page m lblk /\ forall i, file_page m' i = file_page m i.
Proof.
  intros Hlt. unfold scorw_get_page. destruct (cache m !! lblk) as [q|] eqn:E.
  { intros [= <- <-]. split; [|done]. unfold file_page. by rewrite E. }
  destruct Hlt as [Hlt|[? ?]]; [|done].
  case_bools; try lia; intros [= <- <-]. unfold file_page at 1. rewrite E. split; [done|].
  intros i. rewrite file_page_set. case_decide; [|done]. subst.
  unfold file_page. by rewrite E.
Qed.

(** With memory and a readable disk there is always a page. *)
Lemma scorw_get_page_ok m lblk : exists p m', scorw_get_page io_ok m lblk = (Some p, m').
Proof. unfold scorw_get_page. destruct (cache m !! lblk); [eauto|]. simpl. case_bools; eauto. Qed.

(** A hole past the end of the file is created as zeros, which is what it read
    as. *)
Lemma scorw_get_page_hole io m lblk p m' :
  cache m !! lblk = None -> disk m !! lblk = None ->
  scorw_get_page io m lblk = (Some p, m') ->
  p = zero_page /\ forall i, file_page m' i = file_page m i.
Proof.
  intros Hc Hd. unfold scorw_get_page, disk_page. rewrite Hc, Hd. simpl.
  case_bools; intros [= <- <-]; (split; [done|]); intros i; rewrite file_page_set;
    case_decide; try done; subst; unfold file_page, disk_page; by rewrite Hc, Hd.
Qed.

Lemma file_page_cached m lblk p : cache m !! lblk = Some p -> file_page m lblk = p.
Proof. intros H. unfold file_page. by rewrite H. Qed.

(** ** Files byte by byte *)

Definition byte_at (m : mapping) (q : Z) : Z := file_page m (q / PAGE_SIZE) !!! Z.to_nat (q mod PAGE_SIZE).

Lemma land_page off : Z.land off (PAGE_SIZE - 1) = off mod PAGE_SIZE.
Proof. change (PAGE_SIZE - 1) with (Z.ones 12). by rewrite Z.land_ones. Qed.
Lemma shiftr_page off : Z.shiftr off PAGE_SHIFT = off / PAGE_SIZE.
Proof. by rewrite Z.shiftr_div_pow2. Qed.
Lemma align_page z : Z.land z (Z.lnot (PAGE_SIZE - 1)) = z / PAGE_SIZE * PAGE_SIZE.
Proof.
  change (PAGE_SIZE - 1) with (Z.ones 12).
  rewrite <- Z.ldiff_land, Z.ldiff_ones_r by lia. rewrite Z.shiftl_mul_pow2, Z.shiftr_div_pow2 by lia. done.
Qed.

Lemma page_write_lookup (p : page) off (bytes : list Z) (k : nat) :
  0 <= off -> (Z.to_nat off + length bytes <= length p)%nat ->
  page_write p off bytes !!! k =
  if bool_decide (Z.to_nat off <= k < Z.to_nat off + length bytes)%nat then bytes !!! (k - Z.to_nat off)%nat else p !!! k.
Proof.
  intros Ho Hle. unfold page_write.
  assert (length (take (Z.to_nat off) p) = Z.to_nat off) as Hl by (autorewrite with len; lia).
  destruct (decide (k < Z.to_nat off)%nat) as [H1|H1].
  { rewrite bool_decide_false by lia. rewrite lookup_total_app_l by lia. rewrite lookup_total_take_lt by lia. done. }
  rewrite lookup_total_app_r by lia. rewrite Hl. case_bool_decide as H2.
  - rewrite lookup_total_app_l by lia. done.
  - rewrite lookup_total_app_r by lia. rewrite lookup_total_drop. f_equal. lia.
Qed.

(** The bytes of a file after a [memcpy] into one of its pages. *)
Lemma byte_at_page_write m pos (bytes : list Z) q :
  mapping_wf m -> 0 <= pos -> pos mod PAGE_SIZE + Z.of_nat (length bytes) <= PAGE_SIZE ->
  byte_at (set_page m (pos / PAGE_SIZE) (page_write (file_page m (pos / PAGE_SIZE)) (pos mod PAGE_SIZE) bytes)) q =
  if bool_decide (pos <= q < pos + Z.of_nat (length bytes)) then bytes !!! Z.to_nat (q - pos) else byte_at m q.
Proof.
  intros Hwf Hpos Hle. unfold byte_at. rewrite file_page_set.
  pose proof (page_len _ (file_page_wf m (pos / PAGE_SIZE) Hwf)) as Hlen. unfold PAGE_SIZE in *.
  case_decide as Hd.
  - rewrite page_write_lookup by (rewrite ?Hlen; Z.to_euclidean_division_equations; lia).
    rewrite Hd. repeat case_bool_decide; try done.
    + f_equal. Z.to_euclidean_division_equations; lia.
    + exfalso. Z.to_euclidean_division_equations; lia.
    + exfalso. Z.to_euclidean_division_equations; lia.
  - rewrite bool_decide_false; [done|]. Z.to_euclidean_division_equations; lia.
Qed.

(** ** [scorw_da_write_end], and the copy of one page inside a file *)

Lemma da_write_end_ok m pos len copied :
  scorw_da_write_end io_ok m pos len copied = (copied, if i_size m <? pos + copied then i_size_write m (pos + copied) else m).
Proof. unfold scorw_da_write_end. cbn. by rewrite !andb_false_r. Qed.
Lemma da_write_end_size m pos len copied :
  i_size (scorw_da_write_end io_ok m pos len copied).2 = Z.max (i_size m) (pos + copied).
Proof. rewrite da_write_end_ok. simpl. destruct (Z.ltb_spec (i_size m) (pos + copied)); simpl; lia. Qed.
Lemma da_write_end_page m pos len copied i :
  file_page (scorw_da_write_end io_ok m pos len copied).2 i = file_page m i.
Proof. rewrite da_write_end_ok. simpl. by destruct (_ <? _). Qed.
Lemma da_write_end_wf m pos len copied :
  mapping_wf m -> 0 <= pos + copied -> mapping_wf (scorw_da_write_end io_ok m pos len copied).2.
Proof. intros. rewrite da_write_end_ok. simpl. destruct (_ <? _); auto with scorw. Qed.

Lemma internal_copy_page m a b :
  mapping_wf m -> 0 <= b ->
  exists m', scorw_internal_copy_blocks io_ok m (a * PAGE_SIZE) (b * PAGE_SIZE) PAGE_SIZE = Ok (PAGE_SIZE, m') /\
    mapping_wf m' /\ i_size m' = Z.max (i_size m) (b * PAGE_SIZE + PAGE_SIZE) /\
    forall i, file_page m' i = if decide (b = i) then file_page m a else file_page m i.
Proof.
  intros Hwf Hb. unfold scorw_internal_copy_blocks.
  assert (exists n, Z.to_nat PAGE_SIZE = S n) as [n ->] by (exists 4095%nat; by vm_compute).
  cbn [scorw_internal_copy_blocks_loop]. change (PAGE_SIZE <=? 0) with false. cbv iota zeta.
  rewrite !land_page, !shiftr_page, !Z.div_mul, !Z.mod_mul by done. cbn [io_ok io_read negb].
  rewrite Z.sub_0_r, Z.min_id. unfold scorw_da_write_begin. cbn [io_wbegin io_ok].
  change (0 <? 0) with false. cbv iota zeta. rewrite shiftr_page, Z.div_mul by done.
  set (m1 := set_page m a (file_page m a)). set (m2 := set_page m1 b (file_page m1 b)).
  assert (forall i, file_page m2 i = file_page m i) as Hp2.
  { intros i. unfold m2, m1. rewrite !file_page_set. repeat case_decide; subst; done. }
  assert (page_write (file_page m2 b) 0 (page_read (file_page m2 a) 0 PAGE_SIZE) = file_page m a) as ->.
  { rewrite !Hp2. pose proof (page_len _ (file_page_wf m a Hwf)) as Ha. pose proof (page_len _ (file_page_wf m b Hwf)) as Hb'.
    unfold page_write, page_read. change (Z.to_nat 0) with O. rewrite take_0, drop_0, take_ge by lia.
    rewrite drop_ge by (cbn [Nat.add]; lia). simpl. apply app_nil_r. }
  set (m3 := set_page m2 b (file_page m a)).
  assert (mapping_wf m3) as Hw3 by (unfold m3, m2, m1; auto 8 with scorw).
  pose proof (da_write_end_size m3 (b * PAGE_SIZE) PAGE_SIZE PAGE_SIZE) as Hsz.
  pose proof (da_write_end_page m3 (b * PAGE_SIZE) PAGE_SIZE PAGE_SIZE) as Hpg.
  pose proof (da_write_end_wf m3 (b * PAGE_SIZE) PAGE_SIZE PAGE_SIZE Hw3) as Hwe.
  destruct (scorw_da_write_end io_ok m3 (b * PAGE_SIZE) PAGE_SIZE PAGE_SIZE) as [st m4] eqn:E.
  assert (st = PAGE_SIZE) as -> by (rewrite da_write_end_ok in E; congruence).
  cbn [snd] in *. change (PAGE_SIZE <? 0) with false. cbv iota. exists m4.
  split_and!; [destruct n; reflexivity| |done|].
  - apply Hwe. unfold PAGE_SIZE. lia.
  - intros i. rewrite Hpg. unfold m3. rewrite file_page_set. case_decide; [done|apply Hp2].
Qed.

(** Pages are determined by their bytes. *)
Lemma file_page_bytes m m' i :
  mapping_wf m -> mapping_wf m' -> 0 <= i ->
  (forall q, i * PAGE_SIZE <= q < i * PAGE_SIZE + PAGE_SIZE -> byte_at m' q = byte_at m q) ->
  file_page m' i = file_page m i.
Proof.
  intros Hw Hw' Hi H. pose proof (page_len _ (file_page_wf m i Hw)) as Hl.
  pose proof (page_len _ (file_page_wf m' i Hw')) as Hl'.
  apply (list_eq_same_length _ _ (Z.to_nat PAGE_SIZE)); [done|done|]. intros k x y Hk Hx Hy.
  specialize (H (i * PAGE_SIZE + Z.of_nat k)). unfold byte_at in H.
  replace ((i * PAGE_SIZE + Z.of_nat k) / PAGE_SIZE) with i in H
    by (unfold PAGE_SIZE in *; Z.to_euclidean_division_equations; lia).
  replace (Z.to_nat ((i * PAGE_SIZE + Z.of_nat k) mod PAGE_SIZE)) with k in H
    by (unfold PAGE_SIZE in *; Z.to_euclidean_division_equations; lia).
  rewrite (list_lookup_total_correct _ _ _ Hx), (list_lookup_total_correct _ _ _ Hy) in H.
  apply H. unfold PAGE_SIZE in *. lia.
Qed.
