(* ===== verification/Friend.v ===== *)
(** The friend file: one bit per block of a child, set when the child has its
    own copy of the block.  [scorw_set_bit], [scorw_is_block_copied],
    [scorw_set_block_copied], the 64-bit writer of the recovery path, and the
    initialisation, rebuilding and recovery of the whole file
    ([corw_sparse.c]), with the extent fields they read
    ([extents_status.h], [ext4_extents.h]). *)

From S2P Require Import Prelude Pages.

(** ** Single bits *)

(** [scorw_set_bit]: [orb] of the mask into the byte. *)
Definition scorw_set_bit (bitnum : Z) (p : Z) : outcome Z :=
  _ ← BUG_ON (7 <? bitnum);
  let bitmask := u8 (Z.shiftl 1 bitnum) in
  Ok (Z.lor p bitmask).

(** [scorw_is_block_copied]: non-zero when the bit of block [blk_num] is set,
    -1 when the page cannot be had.  The byte is read as a signed [char]. *)
Definition scorw_is_block_copied (io : io_env) (frnd : mapping) (blk_num : Z) : Z * mapping :=
  match scorw_get_page io frnd (blk_num / PAGE_BLOCKS) with
  | (None, m) => (-1, m)
  | (Some p, m) =>
      let blk_num := blk_num mod PAGE_BLOCKS in
      let byte_num := blk_num / 8 in
      let bit_num := blk_num mod 8 in
      let byte_value := swrap 8 (p !!! Z.to_nat byte_num) in
      (Z.land byte_value (Z.shiftl 1 bit_num), m)
  end.

(** [scorw_set_block_copied]: a missing page is dereferenced all the same, and
    a failure to give a page without buffers its buffers is a [BUG_ON]. *)
Definition scorw_set_block_copied (io : io_env) (frnd : mapping) (blk_num : Z) : outcome mapping :=
  match scorw_get_page io frnd (blk_num / PAGE_BLOCKS) with
  | (None, _) => Bug
  | (Some p, m) =>
      _ ← BUG_ON (negb (io_buffers io) && (io_wbegin io <? 0));
      let idx := blk_num / PAGE_BLOCKS in
      let blk_num := blk_num mod PAGE_BLOCKS in
      let byte_num := blk_num / 8 in
      let bit_num := blk_num mod 8 in
      b ← scorw_set_bit bit_num (p !!! Z.to_nat byte_num);
      Ok (set_page m idx (<[Z.to_nat byte_num := b]> p))
  end.

(** ** Initialisation *)

(** The number of pages a friend file needs for [child_copy_size] bytes. *)
Definition frnd_total_pages (child_copy_size : Z) : Z :=
  let per_page := Z.shiftl PAGE_BLOCKS PAGE_SHIFT in
  u32 (if child_copy_size mod per_page =? 0 then child_copy_size / per_page
       else child_copy_size / per_page + 1).

Definition zero_pages (io : io_env) (frnd : mapping) (total_pages : Z) : mapping :=
  foldl (fun m i => snd (scorw_create_zero_page io m i)) frnd (zseq 0 (Z.to_nat total_pages)).

(** [scorw_init_friend_file]: only an empty friend file is filled. *)
Definition scorw_init_friend_file (io : io_env) (frnd : mapping) (child_copy_size : Z) : mapping :=
  if i_size frnd =? 0 then zero_pages io frnd (frnd_total_pages child_copy_size) else frnd.

(** ** Rebuilding from the extents of the child *)

(** [struct extent_status]; the type of the extent lives in the high bits of
    [es_pblk]. *)
Record extent_status := ExtentStatus { es_lblk : Z; es_len : Z; es_pblk : Z }.
Definition ES_SHIFT : Z := 59.
Definition EXTENT_STATUS_WRITTEN : Z := 1.
Definition EXTENT_STATUS_UNWRITTEN : Z := 2.
Definition EXTENT_STATUS_DELAYED : Z := 4.
Definition EXTENT_STATUS_HOLE : Z := 8.
Definition ext4_es_status (es : extent_status) : Z := u32 (Z.shiftr (es_pblk es) ES_SHIFT).
Definition ext4_es_store_pblock_status (lblk len pb status : Z) : extent_status :=
  ExtentStatus lblk len
    (Z.lor (u64 (Z.shiftl status ES_SHIFT)) (Z.land pb (Z.ones ES_SHIFT))).

(** An extent of the inode body ([struct ext4_extent]). *)
Record ext4_extent := Ext4Extent { ee_block : Z; ee_len : Z; ee_start_hi : Z; ee_start_lo : Z }.
Definition EXT_INIT_MAX_LEN : Z := 2 ^ 15.
Definition ext4_ext_is_unwritten (ex : ext4_extent) : bool := EXT_INIT_MAX_LEN <? ee_len ex.
Definition ext4_ext_get_actual_len (ex : ext4_extent) : Z :=
  if ee_len ex <=? EXT_INIT_MAX_LEN then ee_len ex else ee_len ex - EXT_INIT_MAX_LEN.
Definition ext4_ext_pblock (ex : ext4_extent) : Z :=
  Z.lor (ee_start_lo ex) (u64 (Z.shiftl (Z.shiftl (ee_start_hi ex) 31) 1)).

(** [scorw_ext_precache_depth0]: the extents handed to [ext4_es_cache_extent],
    in order: each gap after a previous extent as a hole, then the extent. *)
Fixpoint scorw_ext_precache_depth0 (prev : Z) (exs : list ext4_extent) : list extent_status :=
  match exs with
  | [] => []
  | ex :: exs' =>
      let lblk := ee_block ex in
      let len := ext4_ext_get_actual_len ex in
      let status := if ext4_ext_is_unwritten ex then EXTENT_STATUS_UNWRITTEN
                    else EXTENT_STATUS_WRITTEN in
      let hole := if negb (prev =? 0) && negb (prev =? lblk)
                  then [ext4_es_store_pblock_status prev (u32 (lblk - prev)) (2 ^ 64 - 1) EXTENT_STATUS_HOLE]
                  else [] in
      hole ++ ext4_es_store_pblock_status lblk len (ext4_ext_pblock ex) status
        :: scorw_ext_precache_depth0 (u32 (lblk + len)) exs'
  end.

(** Or a 64-bit little-endian value into the eight bytes at [which_8bytes * 8]. *)
Definition le_byte (v j : Z) : Z := Z.land (Z.shiftr v (8 * j)) 255.
Definition or_8bytes (p : page) (which_8bytes v : Z) : page :=
  foldl (fun q j => alter (fun b => Z.lor b (le_byte v j)) (Z.to_nat (which_8bytes * 8 + j)) q)
    p (zseq 0 8).

(** [scorw_set_block_copied_8bytes]: [start_blk] is reduced modulo
    [PAGE_BLOCKS] before the position of [write_end] is computed from it. *)
Definition scorw_set_block_copied_8bytes (io : io_env) (frnd : mapping)
    (start_blk value_8bytes : Z) : mapping :=
  match scorw_da_write_begin io frnd (Z.shiftl (start_blk / PAGE_BLOCKS) PAGE_SHIFT) PAGE_SIZE with
  | (_, None, m) => m
  | (_, Some idx, m) =>
      let start_blk := start_blk mod PAGE_BLOCKS in
      let which_8bytes := start_blk / 64 in
      let m1 := set_page m idx (or_8bytes (file_page m idx) which_8bytes value_8bytes) in
      snd (scorw_da_write_end io m1 (Z.shiftl (start_blk / PAGE_BLOCKS) PAGE_SHIFT) PAGE_SIZE PAGE_SIZE)
  end.

(** The mask of one step: bits [start_blk % 64] up to, not including,
    [start_blk % 64 + n]. *)
Definition copy_mask (start_blk n : Z) : Z :=
  foldl (fun v copy_bit => Z.lor v (Z.shiftl 1 copy_bit)) 0
    (zseq (start_blk mod 64) (Z.to_nat n)).

(** The loop over one extent, 64 blocks at a time.  [fuel] bounds the
    iterations: each of them processes at least one block. *)
Fixpoint rebuild_extent (io : io_env) (fuel : nat) (frnd : mapping)
    (start_blk pending_extent_blks : Z) : outcome mapping :=
  if pending_extent_blks <=? 0 then Ok frnd
  else match fuel with
  | O => Hang
  | S fuel' =>
      let num_bits_to_process :=
        if 64 - start_blk mod 64 <? pending_extent_blks then 64 - start_blk mod 64
        else pending_extent_blks in
      let value_8bytes := copy_mask start_blk num_bits_to_process in
      let frnd' := scorw_set_block_copied_8bytes io frnd start_blk value_8bytes in
      rebuild_extent io fuel' frnd' (start_blk + num_bits_to_process)
        (pending_extent_blks - num_bits_to_process)
  end.

Definition es_has_data (es : extent_status) : bool :=
  negb (Z.land (ext4_es_status es) EXTENT_STATUS_WRITTEN =? 0)
  || negb (Z.land (ext4_es_status es) EXTENT_STATUS_UNWRITTEN =? 0)
  || negb (Z.land (ext4_es_status es) EXTENT_STATUS_DELAYED =? 0).

(** [scorw_rebuild_friend_file], over the extent status tree of the child in
    the order of [rb_first]/[rb_next]. *)
Definition scorw_rebuild_friend_file (io : io_env) (es_tree : list extent_status)
    (frnd : mapping) : outcome mapping :=
  for_each es_tree (fun es frnd =>
    if es_has_data es
    then rebuild_extent io (Z.to_nat (es_len es)) frnd (es_lblk es) (es_len es)
    else Ok frnd) frnd.

(** [scorw_recover_friend_file]: zero every page, then rebuild. *)
Definition scorw_recover_friend_file (io : io_env) (es_tree : list extent_status)
    (frnd : mapping) (child_copy_size : Z) : outcome mapping :=
  scorw_rebuild_friend_file io es_tree (zero_pages io frnd (frnd_total_pages child_copy_size)).

(** ** What a friend file means *)

(** The copied bit of block [b]. *)
Definition friend_bit (m : mapping) (b : Z) : bool :=
  Z.testbit (file_page m (b / PAGE_BLOCKS) !!! Z.to_nat (b mod PAGE_BLOCKS / 8)) (b mod 8).

(** A friend file is a whole number of pages, with nothing past its end on
    disk. *)
Record friend_wf (m : mapping) : Prop := {
  fw_mapping : mapping_wf m;
  fw_size : i_size m mod PAGE_SIZE = 0;
  fw_disk : forall i, Z.shiftr (i_size m) PAGE_SHIFT <= i -> disk m !! i = None
}.

(** ** Lemmas: pages of a friend file *)

Lemma friend_get_page io m i p m' :
  friend_wf m -> scorw_get_page io m i = (Some p, m') ->
  p = file_page m i /\ (forall j, file_page m' j = file_page m j).
Proof.
  intros Hwf Hg. destruct (cache m !! i) eqn:Hc.
  { eapply scorw_get_page_full; eauto. }
  destruct (Z.lt_ge_cases i (Z.shiftr (i_size m) PAGE_SHIFT)).
  - eapply scorw_get_page_full; eauto.
  - pose proof (fw_disk _ Hwf i) as Hd.
    destruct (scorw_get_page_hole io m i p m' Hc (Hd ltac:(lia)) Hg) as [-> Hp].
    split; [|done]. unfold file_page, disk_page. by rewrite Hc, Hd by lia.
Qed.

Lemma friend_get_page_wf io m i p m' :
  friend_wf m -> scorw_get_page io m i = (p, m') -> friend_wf m'.
Proof.
  intros Hwf Hg. pose proof (scorw_get_page_size _ _ _ _ _ Hg) as Hs.
  assert (disk m' = disk m) as Hd.
  { revert Hg. unfold scorw_get_page. destruct (cache m !! i); [by intros [= _ <-]|].
    case_bools; by intros [= _ <-]. }
  split; [eapply scorw_get_page_wf; [apply Hwf|eauto]| |]; rewrite Hs.
  - apply Hwf.
  - rewrite Hd. apply Hwf.
Qed.

Lemma friend_set_page_wf m i p : friend_wf m -> page_wf p -> friend_wf (set_page m i p).
Proof. intros [? ? ?] ?. split; simpl; auto with scorw. Qed.
#[export] Hint Resolve friend_set_page_wf : scorw.

Lemma friend_bit_ext m m' :
  (forall j, file_page m' j = file_page m j) -> forall b, friend_bit m' b = friend_bit m b.
Proof. intros H b. unfold friend_bit. by rewrite H. Qed.

Lemma byte_index_lt b : (Z.to_nat (b mod PAGE_BLOCKS / 8) < Z.to_nat PAGE_SIZE)%nat.
Proof.
  change PAGE_BLOCKS with 32768. change PAGE_SIZE with 4096.
  Z.to_euclidean_division_equations. lia.
Qed.

Lemma mod_blocks_mod8 b : b mod PAGE_BLOCKS mod 8 = b mod 8.
Proof. change PAGE_BLOCKS with 32768. Z.to_euclidean_division_equations. lia. Qed.

Lemma page_byte_ok p i : page_wf p -> (i < Z.to_nat PAGE_SIZE)%nat -> byte_ok (p !!! i).
Proof.
  intros Hp Hi. rewrite <- (page_len _ Hp) in Hi.
  apply lookup_lt_is_Some_2 in Hi as [b Hb].
  rewrite (list_lookup_total_correct _ _ _ Hb).
  eapply Forall_lookup_1; [apply Hp|done].
Qed.

(** Reading the byte as a signed [char] does not change its low bits. *)
Lemma testbit_schar x n : 0 <= n < 8 -> Z.testbit (swrap 8 x) n = Z.testbit x n.
Proof.
  intros Hn. unfold swrap. change (2 ^ (8 - 1)) with 128.
  rewrite <- (Z.mod_pow2_bits_low _ 8 n), <- (Z.mod_pow2_bits_low x 8 n) by lia.
  f_equal. change (2 ^ 8) with 256. Z.to_euclidean_division_equations. lia.
Qed.

(** ** Lemmas: reading and setting one bit *)

Lemma scorw_is_block_copied_spec io m b c m' :
  friend_wf m -> scorw_is_block_copied io m b = (c, m') -> c <> -1 ->
  (c =? 0) = negb (friend_bit m b) /\ friend_wf m' /\ (forall j, file_page m' j = file_page m j).
Proof.
  intros Hwf. unfold scorw_is_block_copied.
  destruct (scorw_get_page io m (b / PAGE_BLOCKS)) as [[p|] m1] eqn:Hg; [|by intros [= <- <-]].
  intros [= <- <-] _. destruct (friend_get_page _ _ _ _ _ Hwf Hg) as [-> Hp].
  split; [|eauto using friend_get_page_wf]. rewrite mod_blocks_mod8.
  assert (0 <= b mod 8 < 8) by (apply Z.mod_pos_bound; lia).
  unfold friend_bit. set (x := _ !!! _).
  destruct (Z.testbit x (b mod 8)) eqn:Hx; simpl.
  - apply Z.eqb_neq. rewrite land_single_nonzero by lia. rewrite testbit_schar by lia.
    by rewrite Hx.
  - apply Z.eqb_eq. rewrite land_single_nonzero by lia. by rewrite testbit_schar by lia.
Qed.

Lemma scorw_is_block_copied_ok m b :
  friend_wf m -> exists c m', scorw_is_block_copied io_ok m b = (c, m') /\ c <> -1.
Proof.
  intros Hwf. unfold scorw_is_block_copied.
  destruct (scorw_get_page_ok m (b / PAGE_BLOCKS)) as (p & m' & ->).
  eexists _, _. split; [done|]. intros Hc.
  assert (0 <= b mod PAGE_BLOCKS mod 8 < 8) as Hb by (apply Z.mod_pos_bound; lia).
  set (n := _ mod 8) in *.
  assert (0 <= Z.shiftl 1 n) as H1 by (apply Z.shiftl_nonneg; lia).
  set (x := swrap 8 _) in *. pose proof (proj2 (Z.land_nonneg x (Z.shiftl 1 n))). lia.
Qed.

Lemma scorw_set_bit_ok n x : 0 <= n < 8 -> scorw_set_bit n x = Ok (Z.lor x (Z.shiftl 1 n)).
Proof.
  intros Hn. unfold scorw_set_bit. replace (7 <? n) with false by (symmetry; apply Z.ltb_ge; lia).
  simpl. unfold u8. rewrite wrap_small; [done|].
  split; [apply Z.shiftl_nonneg; lia|]. rewrite Z.shiftl_mul_pow2, Z.mul_1_l by lia.
  apply Z.pow_lt_mono_r; lia.
Qed.

Lemma lor_byte_ok x y : byte_ok x -> byte_ok y -> byte_ok (Z.lor x y).
Proof.
  unfold byte_ok. intros Hx Hy. split; [apply Z.lor_nonneg; lia|].
  destruct (Z.eq_dec (Z.lor x y) 0) as [->|Hne]; [lia|].
  change 256 with (2 ^ 8). apply Z.log2_lt_pow2.
  { pose proof (proj2 (Z.lor_nonneg x y)). lia. }
  rewrite Z.log2_lor by lia.
  assert (forall z, 0 <= z < 256 -> Z.log2 z < 8) as Hl.
  { intros z Hz. destruct (Z.eq_dec z 0) as [->|]; [by compute|]. apply Z.log2_lt_pow2; lia. }
  pose proof (Hl x Hx). pose proof (Hl y Hy). lia.
Qed.

Lemma shiftl1_byte_ok n : 0 <= n < 8 -> byte_ok (Z.shiftl 1 n).
Proof.
  intros. unfold byte_ok. rewrite Z.shiftl_mul_pow2, Z.mul_1_l by lia.
  split; [lia|]. change 256 with (2 ^ 8). apply Z.pow_lt_mono_r; lia.
Qed.

Lemma page_insert_wf p i b : page_wf p -> byte_ok b -> page_wf (<[i := b]> p).
Proof.
  intros [Hl Hb] ?. split; [by rewrite length_insert|]. by apply Forall_insert.
Qed.

(** Setting the bit of [b] sets that bit and no other. *)
Lemma scorw_set_block_copied_spec io m b m' :
  friend_wf m -> 0 <= b -> scorw_set_block_copied io m b = Ok m' ->
  friend_wf m' /\ (forall b', 0 <= b' -> friend_bit m' b' = bool_decide (b' = b) || friend_bit m b').
Proof.
  intros Hwf Hb. unfold scorw_set_block_copied.
  destruct (scorw_get_page io m (b / PAGE_BLOCKS)) as [[p|] m1] eqn:Hg; [|done].
  intros H. inv_Ok. destruct (friend_get_page _ _ _ _ _ Hwf Hg) as [-> Hp].
  pose proof (friend_get_page_wf _ _ _ _ _ Hwf Hg) as Hwf1.
  rewrite mod_blocks_mod8 in E0. assert (0 <= b mod 8 < 8) as Hb8 by (apply Z.mod_pos_bound; lia).
  rewrite scorw_set_bit_ok in E0 by done. injection E0 as <-.
  pose proof (file_page_wf _ (b / PAGE_BLOCKS) (fw_mapping _ Hwf)) as Hpw.
  pose proof (byte_index_lt b) as Hlt.
  split.
  { apply friend_set_page_wf; [done|]. apply page_insert_wf; [done|].
    apply lor_byte_ok; [by apply page_byte_ok|by apply shiftl1_byte_ok]. }
  intros b' Hb'. unfold friend_bit. rewrite file_page_set. case_decide as Hidx.
  2: { rewrite Hp. rewrite bool_decide_false by congruence. done. }
  rewrite <- Hidx. destruct (decide (Z.to_nat (b mod PAGE_BLOCKS / 8) = Z.to_nat (b' mod PAGE_BLOCKS / 8))) as [Hby|Hby].
  - rewrite <- Hby.
    rewrite list_lookup_total_insert_eq by (rewrite (page_len _ Hpw); done).
    rewrite Z.lor_spec, testbit_single by (apply Z.mod_pos_bound; lia).
    rewrite orb_comm. f_equal. apply bool_decide_ext.
    change PAGE_BLOCKS with 32768 in *. revert Hidx Hby.
    Z.to_euclidean_division_equations. lia.
  - rewrite list_lookup_total_insert_ne by done.
    rewrite bool_decide_false; [done|]. congruence.
Qed.

(** ** Lemmas: fresh friend files *)

Lemma create_zero_page_wf m i :
  friend_wf m -> 0 <= i -> i_size m = Z.shiftl i PAGE_SHIFT \/ Z.shiftl (i + 1) PAGE_SHIFT <= i_size m ->
  let m' := snd (scorw_create_zero_page io_ok m i) in
  friend_wf m' /\ i_size m' = Z.max (i_size m) (Z.shiftl (i + 1) PAGE_SHIFT) /\
  (forall j, file_page m' j = if decide (j = i) then zero_page else file_page m j).
Proof.
  intros Hwf Hi Hsz. unfold scorw_create_zero_page, scorw_da_write_begin. cbn [io_wbegin io_ok].
  change (0 <? 0) with false. cbv iota zeta. rewrite da_write_end_ok. simpl.
  change PAGE_SHIFT with 12 in *. change PAGE_SIZE with 4096 in *.
  rewrite Z.shiftr_shiftl_r, Z.sub_diag, Z.shiftr_0_r by lia.
  assert (Z.shiftl (i + 1) 12 = Z.shiftl i 12 + 4096) as Hs
    by (rewrite !Z.shiftl_mul_pow2 by lia; lia).
  assert (friend_wf (set_page (set_page m i (file_page m i)) i zero_page)) as Hw2.
  { apply friend_set_page_wf; [apply friend_set_page_wf; [done|]|apply zero_page_wf].
    apply file_page_wf, Hwf. }
  assert (0 <= Z.shiftl i 12) by (apply Z.shiftl_nonneg; lia).
  case_bools; simpl in *; (split_and!; [|lia|]).
  - destruct Hw2 as [Hmw Hmod Hdisk]. split; [by apply i_size_write_wf; [|lia]| |]; simpl in *.
    + rewrite <- Hs, Z.shiftl_mul_pow2 by lia. by apply Z.mod_mul.
    + intros j Hj. apply Hdisk. unfold PAGE_SHIFT in *. rewrite Z.shiftr_div_pow2 in * by lia.
      change (2 ^ 12) with 4096 in *. Z.to_euclidean_division_equations. lia.
  - intros j. rewrite file_page_size, !file_page_set.
    repeat case_decide; subst; done.
  - done.
  - intros j. rewrite !file_page_set. repeat case_decide; subst; done.
Qed.

(** Zeroing [n] pages of a friend file that is empty or large enough. *)
Lemma zero_pages_spec m n :
  friend_wf m -> 0 <= n -> i_size m = 0 \/ Z.shiftl n PAGE_SHIFT <= i_size m ->
  let m' := zero_pages io_ok m n in
  friend_wf m' /\ i_size m' = Z.max (i_size m) (Z.shiftl n PAGE_SHIFT) /\
  (forall j, file_page m' j = if decide (0 <= j < n) then zero_page else file_page m j).
Proof.
  intros Hwf Hn Hsz. unfold zero_pages.
  assert (forall k, (k <= Z.to_nat n)%nat ->
    let m' := foldl (fun m i => snd (scorw_create_zero_page io_ok m i)) m (zseq 0 k) in
    friend_wf m' /\ i_size m' = Z.max (i_size m) (Z.shiftl (Z.of_nat k) PAGE_SHIFT) /\
    (forall j, file_page m' j = if decide (0 <= j < Z.of_nat k) then zero_page else file_page m j)) as H.
  { change PAGE_SHIFT with 12 in *.
    induction k as [|k IH]; intros Hk; cbv zeta.
    - simpl. split_and!; [done| |].
      + rewrite Z.shiftl_0_l. pose proof (wf_size _ (fw_mapping _ Hwf)). lia.
      + intros j. by rewrite decide_False by lia.
    - rewrite zseq_snoc, foldl_app, Z.add_0_l.
      destruct IH as (Hw & Hs & Hf); [lia|].
      cbn [foldl]. set (m1 := foldl _ _ _) in *.
      rewrite !Z.shiftl_mul_pow2 in * by lia.
      destruct (create_zero_page_wf m1 (Z.of_nat k) Hw) as (Hw' & Hs' & Hf'); [lia| |].
      { change PAGE_SHIFT with 12. rewrite !Z.shiftl_mul_pow2 by lia.
        destruct Hsz as [Hz|Hz]; [left|right]; rewrite Hs; nia. }
      split_and!; [done| |].
      + rewrite Hs', Hs. change PAGE_SHIFT with 12. rewrite Z.shiftl_mul_pow2 by lia.
        pose proof (wf_size _ (fw_mapping _ Hwf)). nia.
      + intros j. rewrite Hf', Hf. repeat case_decide; try done; lia. }
  specialize (H (Z.to_nat n)). rewrite Z2Nat.id in H by lia. apply H. lia.
Qed.

Lemma friend_bit_zero_page m b :
  file_page m (b / PAGE_BLOCKS) = zero_page -> friend_bit m b = false.
Proof.
  intros H. unfold friend_bit. rewrite H. unfold zero_page.
  rewrite lookup_total_replicate_2 by apply byte_index_lt. apply Z.bits_0.
Qed.

(** ** Lemmas: the 64-bit writer *)

Lemma length_foldl_alter v w js (p : page) :
  length (foldl (fun q j => alter (fun b => Z.lor b (le_byte v j)) (Z.to_nat (w + j)) q) p js) = length p.
Proof.
  revert p. induction js as [|j js IH]; intros p; simpl; [done|]. rewrite IH. apply length_alter.
Qed.

Lemma lookup_or_bytes v w n (p : page) k :
  0 <= w -> (k < length p)%nat ->
  foldl (fun q j => alter (fun b => Z.lor b (le_byte v j)) (Z.to_nat (w + j)) q) p (zseq 0 n) !!! k
  = Z.lor (p !!! k)
      (if decide (w <= Z.of_nat k < w + Z.of_nat n) then le_byte v (Z.of_nat k - w) else 0).
Proof.
  intros Hw Hk. induction n as [|n IH].
  - simpl. rewrite decide_False by lia. by rewrite Z.lor_0_r.
  - rewrite zseq_snoc, foldl_app, Z.add_0_l. cbn [foldl].
    destruct (decide (k = Z.to_nat (w + Z.of_nat n))) as [->|Hne].
    + rewrite list_lookup_total_alter_eq by (rewrite length_foldl_alter; lia).
      rewrite IH. rewrite decide_False by lia. rewrite decide_True by lia.
      rewrite Z.lor_0_r. do 2 f_equal. lia.
    + rewrite list_lookup_total_alter_ne by done. rewrite IH. f_equal.
      repeat case_decide; try done; lia.
Qed.

Lemma testbit_le_byte v j n : 0 <= j -> 0 <= n < 8 -> Z.testbit (le_byte v j) n = Z.testbit v (8 * j + n).
Proof.
  intros. unfold le_byte. change 255 with (Z.ones 8).
  rewrite Z.land_spec, Z.shiftr_spec, Z.ones_spec_low by lia.
  rewrite andb_true_r. f_equal. lia.
Qed.

Lemma le_byte_ok v j : byte_ok (le_byte v j).
Proof.
  unfold le_byte, byte_ok. change 255 with (Z.ones 8).
  rewrite Z.land_ones by lia. apply Z.mod_pos_bound. lia.
Qed.

Lemma or_8bytes_wf p w v : page_wf p -> page_wf (or_8bytes p w v).
Proof.
  unfold or_8bytes. generalize (zseq 0 8). intros js. revert p.
  induction js as [|j js IH]; intros p Hp; simpl; [done|]. apply IH.
  destruct Hp as [Hl Hb]. split; [by rewrite length_alter|].
  apply Forall_alter; [done|]. intros x _ Hx. apply lor_byte_ok; [done|apply le_byte_ok].
Qed.

(** The 64-bit writer or-s its value into the aligned group of 64 bits that
    holds [start_blk], and changes no other bit. *)
Lemma set_8bytes_spec m start v :
  friend_wf m -> 0 <= start -> PAGE_SIZE <= i_size m ->
  let m' := scorw_set_block_copied_8bytes io_ok m start v in
  friend_wf m' /\ i_size m' = i_size m /\
  (forall b, 0 <= b -> friend_bit m' b = friend_bit m b || (bool_decide (b / 64 = start / 64) && Z.testbit v (b mod 64))).
Proof.
  intros Hwf Hst Hsz. unfold scorw_set_block_copied_8bytes, scorw_da_write_begin. cbn [io_wbegin io_ok].
  change (0 <? 0) with false. cbv iota zeta. rewrite da_write_end_ok. simpl.
  rewrite Z.shiftr_shiftl_r, Z.sub_diag, Z.shiftr_0_r by (unfold PAGE_SHIFT; lia).
  rewrite (Z.div_small (start mod PAGE_BLOCKS)) by (apply Z.mod_pos_bound; by compute).
  rewrite Z.shiftl_0_l, Z.add_0_l.
  replace (i_size m <? PAGE_SIZE) with false by (symmetry; apply Z.ltb_ge; lia).
  rewrite file_page_set_eq. set (idx := start / PAGE_BLOCKS).
  pose proof (file_page_wf _ idx (fw_mapping _ Hwf)) as Hp.
  split_and!; [|done|].
  { auto using friend_set_page_wf, or_8bytes_wf. }
  intros b Hb. unfold friend_bit at 1. rewrite !file_page_set. case_decide as Hidx.
  - unfold or_8bytes. rewrite lookup_or_bytes.
    2: { change PAGE_BLOCKS with 32768. Z.to_euclidean_division_equations. lia. }
    2: { rewrite (page_len _ Hp). apply byte_index_lt. }
    rewrite Z.lor_spec. unfold friend_bit. rewrite <- Hidx. f_equal.
    rewrite Z2Nat.id by (change PAGE_BLOCKS with 32768; Z.to_euclidean_division_equations; lia).
    assert (0 <= b mod 8 < 8) by (apply Z.mod_pos_bound; lia).
    change (Z.of_nat 8) with 8. unfold idx in *. change PAGE_BLOCKS with 32768 in *.
    case_decide as Hin.
    + rewrite testbit_le_byte by (try lia; Z.to_euclidean_division_equations; lia).
      rewrite bool_decide_true by (revert Hidx Hin; Z.to_euclidean_division_equations; lia).
      simpl. f_equal. revert Hidx Hin. Z.to_euclidean_division_equations. lia.
    + rewrite Z.bits_0, bool_decide_false; [done|].
      revert Hidx Hin. Z.to_euclidean_division_equations. lia.
  - rewrite ?decide_False by done.
    rewrite bool_decide_false; [by rewrite orb_false_r|].
    unfold idx in *. change PAGE_BLOCKS with 32768 in *. revert Hidx.
    Z.to_euclidean_division_equations. lia.
Qed.

Lemma copy_mask_spec start n k :
  0 <= n -> 0 <= k ->
  Z.testbit (copy_mask start n) k = bool_decide (start mod 64 <= k < start mod 64 + n).
Proof.
  intros Hn Hk. unfold copy_mask.
  assert (0 <= start mod 64) as Hs by (apply Z.mod_pos_bound; lia).
  destruct (Z_of_nat_complete n Hn) as [c ->]. rewrite Nat2Z.id.
  clear Hn. induction c as [|c IH].
  - simpl. rewrite Z.bits_0, bool_decide_false by lia. done.
  - rewrite zseq_snoc, foldl_app. cbn [foldl]. rewrite Z.lor_spec, IH, testbit_single by done.
    rewrite <- bool_decide_or. apply bool_decide_ext. lia.
Qed.

(** ** Lemmas: rebuilding *)

(** One extent sets exactly the bits of its blocks. *)
Lemma rebuild_extent_spec fuel m start pending :
  friend_wf m -> 0 <= start -> 0 <= pending -> PAGE_SIZE <= i_size m -> (Z.to_nat pending <= fuel)%nat ->
  exists m', rebuild_extent io_ok fuel m start pending = Ok m' /\ friend_wf m' /\ i_size m' = i_size m /\
    (forall b, 0 <= b -> friend_bit m' b = friend_bit m b || bool_decide (start <= b < start + pending)).
Proof.
  revert m start pending. induction fuel as [|fuel IH]; intros m start pending Hwf Hst Hp Hsz Hf;
    unfold rebuild_extent; fold rebuild_extent.
  - rewrite (proj2 (Z.leb_le pending 0)) by lia. exists m. split_and!; auto.
    intros b _. rewrite bool_decide_false by lia. by rewrite orb_false_r.
  - destruct (Z.leb_spec pending 0).
    { exists m. split_and!; auto. intros b _. rewrite bool_decide_false by lia. by rewrite orb_false_r. }
    set (num := if _ <? _ then _ else _).
    assert (0 < num <= pending /\ start mod 64 + num <= 64) as [Hnum H64].
    { assert (0 <= start mod 64 < 64) by (apply Z.mod_pos_bound; lia).
      subst num. destruct (Z.ltb_spec (64 - start mod 64) pending); lia. }
    destruct (set_8bytes_spec m start (copy_mask start num) Hwf Hst Hsz) as (Hw' & Hs' & Hb').
    set (m1 := scorw_set_block_copied_8bytes _ _ _ _) in *.
    destruct (IH m1 (start + num) (pending - num)) as (m' & Hr & Hw2 & Hs2 & Hb2); try lia; [done|].
    exists m'. split_and!; [done|done|lia|]. intros b Hb.
    rewrite Hb2, Hb', copy_mask_spec, <- orb_assoc by (try apply Z.mod_pos_bound; lia).
    f_equal. rewrite <- bool_decide_and, <- bool_decide_or. apply bool_decide_ext.
    clear -Hst Hb Hnum H64. Z.to_euclidean_division_equations. lia.
Qed.

(** The blocks the extents of the child give data. *)
Definition es_covers (es_tree : list extent_status) (b : Z) : bool :=
  existsb (fun es => es_has_data es && bool_decide (es_lblk es <= b < es_lblk es + es_len es)) es_tree.

Lemma rebuild_spec es_tree m :
  friend_wf m -> PAGE_SIZE <= i_size m ->
  Forall (fun es => 0 <= es_lblk es /\ 0 <= es_len es) es_tree ->
  exists m', scorw_rebuild_friend_file io_ok es_tree m = Ok m' /\ friend_wf m' /\ i_size m' = i_size m /\
    (forall b, 0 <= b -> friend_bit m' b = friend_bit m b || es_covers es_tree b).
Proof.
  intros Hwf Hsz Hes. revert m Hwf Hsz. unfold scorw_rebuild_friend_file.
  induction Hes as [|es es_tree [Hlb Hln] Hes IH]; intros m Hwf Hsz;
    cbn [for_each es_covers existsb].
  { exists m. split_and!; auto. intros b _. by rewrite orb_false_r. }
  fold (es_covers es_tree). destruct (es_has_data es).
  - destruct (rebuild_extent_spec (Z.to_nat (es_len es)) m (es_lblk es) (es_len es))
      as (m1 & -> & Hw1 & Hs1 & Hb1); auto.
    cbn [mbind outcome_bind]. destruct (IH m1 Hw1 ltac:(lia)) as (m2 & -> & Hw2 & Hs2 & Hb2).
    exists m2. split_and!; [done|done|lia|]. intros b Hb. by rewrite Hb2, Hb1, orb_assoc.
  - apply IH; auto.
Qed.

Lemma frnd_total_pages_bound sz b :
  0 <= b -> 0 <= sz < 2 ^ 58 -> b * PAGE_SIZE < sz -> 0 <= b / PAGE_BLOCKS < frnd_total_pages sz.
Proof.
  unfold frnd_total_pages. change (Z.shiftl PAGE_BLOCKS PAGE_SHIFT) with 134217728.
  change PAGE_SIZE with 4096. change PAGE_BLOCKS with 32768. change (2 ^ 58) with 288230376151711744.
  intros. assert (forall z, 0 <= z <= 2147483648 -> u32 z = z) as Hu by (intros; apply u32_small; lia).
  destruct (Z.eqb_spec (sz mod 134217728) 0); rewrite Hu; Z.to_euclidean_division_equations; lia.
Qed.

Lemma frnd_total_pages_pos sz : 0 < sz < 2 ^ 58 -> 1 <= frnd_total_pages sz.
Proof. intros H. pose proof (frnd_total_pages_bound sz 0). change PAGE_SIZE with 4096 in *. lia. Qed.

Lemma init_friend_bits m sz :
  friend_wf m -> i_size m = 0 -> 0 < sz < 2 ^ 58 ->
  friend_wf (scorw_init_friend_file io_ok m sz) /\
  forall b, 0 <= b -> b * PAGE_SIZE < sz -> friend_bit (scorw_init_friend_file io_ok m sz) b = false.
Proof.
  intros Hwf H0 Hsz. unfold scorw_init_friend_file. rewrite H0. change (0 =? 0) with true. cbv iota.
  destruct (zero_pages_spec m (frnd_total_pages sz) Hwf) as (Hw & _ & Hf); auto; [pose proof (frnd_total_pages_pos sz); lia|].
  split; [done|]. intros b Hb Hlt. apply friend_bit_zero_page. rewrite Hf, decide_True; [done|]. apply frnd_total_pages_bound; lia.
Qed.

(** ** Properties *)

(** A fresh friend file marks no block of the child as copied: after
    [scorw_init_friend_file] on an empty friend file, [scorw_is_block_copied]
    answers 0 for every block of the copied size. *)
Theorem init_friend_nothing_copied (m : mapping) (sz b : Z) :
  friend_wf m -> i_size m = 0 -> 0 < sz < 2 ^ 58 -> 0 <= b -> b * PAGE_SIZE < sz ->
  exists m', scorw_is_block_copied io_ok (scorw_init_friend_file io_ok m sz) b = (0, m').
Proof.
  intros Hwf H0 Hsz Hb Hlt. destruct (init_friend_bits m sz Hwf H0 Hsz) as [Hw Hf].
  set (m1 := scorw_init_friend_file io_ok m sz) in *. destruct (scorw_is_block_copied_ok m1 b Hw) as (c & m' & Hc & Hne).
  destruct (scorw_is_block_copied_spec _ _ _ _ _ Hw Hc Hne) as [Hz _]. rewrite Hf in Hz by done. apply Z.eqb_eq in Hz. subst. eauto.
Qed.

Lemma scorw_set_block_copied_ok m b : exists m', scorw_set_block_copied io_ok m b = Ok m'.
Proof.
  unfold scorw_set_block_copied. destruct (scorw_get_page_ok m (b / PAGE_BLOCKS)) as (p & m1 & ->).
  cbn [io_wbegin io_ok io_buffers]. change (BUG_ON (negb false && (0 <? 0))) with (Ok tt). cbn [mbind outcome_bind].
  rewrite scorw_set_bit_ok by (apply Z.mod_pos_bound; lia). cbn [mbind outcome_bind]. eauto.
Qed.

(** Setting the copied bit of one block succeeds, keeps the friend file
    well formed, makes [scorw_is_block_copied] answer non-zero for that block,
    and leaves its answer for every other block what it was. *)
Theorem set_block_copied_exact (m : mapping) (b : Z) :
  friend_wf m -> 0 <= b ->
  exists m', scorw_set_block_copied io_ok m b = Ok m' /\ friend_wf m' /\
    forall b', 0 <= b' -> exists c c' m1 m2,
      scorw_is_block_copied io_ok m b' = (c, m1) /\
      scorw_is_block_copied io_ok m' b' = (c', m2) /\
      (c' =? 0) = (c =? 0) && negb (bool_decide (b' = b)).
Proof.
  intros Hwf Hb. destruct (scorw_set_block_copied_ok m b) as [m' Hs].
  destruct (scorw_set_block_copied_spec _ _ _ _ Hwf Hb Hs) as [Hw Hbit].
  exists m'. split_and!; [done|done|]. intros b' Hb'.
  destruct (scorw_is_block_copied_ok m b' Hwf) as (c & m1 & Hc & Hn).
  destruct (scorw_is_block_copied_ok m' b' Hw) as (c' & m2 & Hc' & Hn').
  exists c, c', m1, m2. split_and!; [done|done|].
  destruct (scorw_is_block_copied_spec _ _ _ _ _ Hwf Hc Hn) as [-> _].
  destruct (scorw_is_block_copied_spec _ _ _ _ _ Hw Hc' Hn') as [-> _].
  rewrite Hbit by done. rewrite negb_orb. apply andb_comm.
Qed.

Lemma recover_friend_spec es_tree m sz :
  friend_wf m -> 0 < sz < 2 ^ 58 ->
  i_size m = 0 \/ Z.shiftl (frnd_total_pages sz) PAGE_SHIFT <= i_size m ->
  Forall (fun es => 0 <= es_lblk es /\ 0 <= es_len es) es_tree ->
  exists m', scorw_recover_friend_file io_ok es_tree m sz = Ok m' /\
    (forall b, 0 <= b -> b * PAGE_SIZE < sz -> friend_bit m' b = es_covers es_tree b).
Proof.
  intros Hwf Hsz Hi Hes. unfold scorw_recover_friend_file.
  pose proof (frnd_total_pages_pos sz Hsz) as Hpos.
  destruct (zero_pages_spec m (frnd_total_pages sz) Hwf) as (Hw & Hs & Hf); auto; [lia|].
  set (m1 := zero_pages _ _ _) in *.
  assert (PAGE_SIZE <= i_size m1) as Hps.
  { rewrite Hs, Z.shiftl_mul_pow2 by (unfold PAGE_SHIFT; lia).
    change (2 ^ PAGE_SHIFT) with 4096. change PAGE_SIZE with 4096. lia. }
  destruct (rebuild_spec es_tree m1 Hw Hps Hes) as (m' & -> & _ & _ & Hb).
  exists m'. split; [done|]. intros b Hb0 Hlt. rewrite Hb by done.
  rewrite (friend_bit_zero_page m1); [done|].
  rewrite Hf, decide_True; [done|]. apply frnd_total_pages_bound; lia.
Qed.

(** Recovery makes the friend file agree with the extents of the child:
    [scorw_recover_friend_file] returns, and afterwards the copied bit of a
    block of the child is set exactly when a written, unwritten or delayed
    extent of the child covers the block, whatever the friend file said before
    the crash. *)
Theorem recover_friend_matches_extents (es_tree : list extent_status) (m : mapping) (sz : Z) :
  friend_wf m -> 0 < sz < 2 ^ 58 ->
  i_size m = 0 \/ Z.shiftl (frnd_total_pages sz) PAGE_SHIFT <= i_size m ->
  Forall (fun es => 0 <= es_lblk es /\ 0 <= es_len es) es_tree ->
  exists m', scorw_recover_friend_file io_ok es_tree m sz = Ok m' /\
    (forall b, 0 <= b -> b * PAGE_SIZE < sz -> friend_bit m' b = es_covers es_tree b).
Proof. apply recover_friend_spec. Qed.

(** ** Witnesses *)

Definition empty_friend : mapping := Mapping 0 0 ∅ ∅.

Lemma empty_friend_wf : friend_wf empty_friend.
Proof. by split; [split; simpl; [lia|by intros ?? ?%lookup_empty_Some..]| |]. Qed.

Lemma init_friend_nothing_copied_witness :
  exists m', scorw_is_block_copied io_ok (scorw_init_friend_file io_ok empty_friend 8192) 1 = (0, m').
Proof. apply init_friend_nothing_copied; [apply empty_friend_wf|by compute..]. Defined.

Lemma set_block_copied_exact_witness :
  exists m', scorw_set_block_copied io_ok empty_friend 5 = Ok m' /\ friend_wf m' /\
    forall b', 0 <= b' -> exists c c' m1 m2,
      scorw_is_block_copied io_ok empty_friend b' = (c, m1) /\
      scorw_is_block_copied io_ok m' b' = (c', m2) /\
      (c' =? 0) = (c =? 0) && negb (bool_decide (b' = 5)).
Proof. apply set_block_copied_exact; [apply empty_friend_wf|by compute]. Defined.

(** A child with a written extent of blocks 2 to 4. *)
Lemma recover_friend_matches_extents_witness :
  let tree := [ext4_es_store_pblock_status 2 3 100 EXTENT_STATUS_WRITTEN] in
  exists m', scorw_recover_friend_file io_ok tree empty_friend 40960 = Ok m' /\
    (forall b, 0 <= b -> b * PAGE_SIZE < 40960 -> friend_bit m' b = es_covers tree b).
Proof.
  apply recover_friend_matches_extents; [apply empty_friend_wf|by compute|by left|].
  by repeat constructor.
Defined.
