(* ===== verification/Log.v ===== *)
(** The version log: the on-disk record ([struct scorw_log_record]), the file
    that holds the records back to back, appending to it, and the page-by-page
    scans [scorw_replay_log_version], [scorw_gc_blocks] and
    [scorw_truncate_log_to_version] make over it ([corw_sparse.c],
    [corw_sparse.h]). *)

From S2P Require Import Prelude Pages Friend.

(** ** The record *)

(** [struct scorw_log_record]: six little-endian fields, 32 bytes. *)
Record scorw_log_record := LogRecord {
  version_num : Z;
  logical_start_blk : Z;
  physical_start_blk : Z;
  len_blks : Z;
  padding : Z;
  padding2 : Z
}.
Definition sizeof_record : Z := 32.

(** A little-endian integer of [n] bytes, and back. *)
Definition le_bytes (n : nat) (v : Z) : list Z := (fun j => le_byte v j) <$> zseq 0 n.
Fixpoint le_value (bs : list Z) : Z :=
  match bs with [] => 0 | b :: bs' => b + 256 * le_value bs' end.

Definition encode_record (r : scorw_log_record) : list Z :=
  le_bytes 4 (version_num r) ++ le_bytes 4 (logical_start_blk r) ++
  le_bytes 8 (physical_start_blk r) ++ le_bytes 4 (len_blks r) ++
  le_bytes 4 (padding r) ++ le_bytes 8 (padding2 r).

Definition decode_record (bs : list Z) : scorw_log_record :=
  LogRecord (le_value (take 4 bs)) (le_value (take 4 (drop 4 bs)))
    (le_value (take 8 (drop 8 bs))) (le_value (take 4 (drop 16 bs)))
    (le_value (take 4 (drop 20 bs))) (le_value (take 8 (drop 24 bs))).

(** The fields are in the range of their C types. *)
Record record_wf (r : scorw_log_record) : Prop := {
  rw_version : 0 <= version_num r < 2 ^ 32;
  rw_logical : 0 <= logical_start_blk r < 2 ^ 32;
  rw_physical : 0 <= physical_start_blk r < 2 ^ 64;
  rw_len : 0 <= len_blks r < 2 ^ 32;
  rw_padding : 0 <= padding r < 2 ^ 32;
  rw_padding2 : 0 <= padding2 r < 2 ^ 64
}.

(** ** Reading the log *)

(** [read_mapping_page]: the page of the file, which enters the page cache;
    [rd] says of which page indices the read succeeds. *)
Definition read_mapping_page (rd : Z -> bool) (m : mapping) (index : Z) : option page * mapping :=
  if rd index then (Some (file_page m index), set_page m index (file_page m index))
  else (None, m).

(** The records of the first [bytes_left] bytes of the page from [page_off]:
    those the loop [while (bytes_left >= sizeof(struct scorw_log_record))]
    visits. *)
Definition page_records (p : page) (page_off bytes_left : Z) : list scorw_log_record :=
  (fun k => decode_record (page_read p (page_off + sizeof_record * k) sizeof_record))
    <$> zseq 0 (Z.to_nat (bytes_left / sizeof_record)).

(** The scan that [scorw_replay_log_version] and [scorw_gc_blocks] share: page
    by page from [offset], [body] on every record, stopping at a page that
    cannot be read.  An iteration that finds less than a record leaves [offset]
    where it is. *)
Fixpoint scan_log {S : Type} (rd : Z -> bool) (body : scorw_log_record -> S -> S)
    (fuel : nat) (m : mapping) (log_size offset : Z) (s : S) : outcome (S * mapping) :=
  if log_size <=? offset then Ok (s, m)
  else match fuel with
  | O => Hang
  | S fuel' =>
      let index := Z.shiftr offset PAGE_SHIFT in
      let page_off := Z.land offset (PAGE_SIZE - 1) in
      let bytes_left := Z.min (PAGE_SIZE - page_off) (log_size - offset) in
      match read_mapping_page rd m index with
      | (None, m1) => Ok (s, m1)
      | (Some p, m1) =>
          let recs := page_records p page_off bytes_left in
          scan_log rd body fuel' m1 log_size (offset + sizeof_record * Z.of_nat (length recs))
            (foldl (fun s r => body r s) s recs)
      end
  end.

(** Enough iterations for a log of [log_size] bytes: one per record, and one
    for the partial record at its end. *)
Definition scan_fuel (log_size : Z) : nat := S (Z.to_nat (log_size / sizeof_record)).

(** ** Truncating the log to a committed version *)

(** The records before the first one of a version above [ver]: the inner loop
    of [scorw_truncate_log_to_version]. *)
Fixpoint take_valid (ver : Z) (recs : list scorw_log_record) : list scorw_log_record :=
  match recs with
  | [] => []
  | r :: recs' => if u32 ver <? version_num r then [] else r :: take_valid ver recs'
  end.

(** The scan of [scorw_truncate_log_to_version], up to [do_truncate]: the
    number of bytes to keep. *)
Fixpoint truncate_scan (rd : Z -> bool) (ver : Z) (fuel : nat) (m : mapping)
    (log_size offset valid_size : Z) : outcome (Z * mapping) :=
  if log_size <=? offset then Ok (valid_size, m)
  else match fuel with
  | O => Hang
  | S fuel' =>
      let index := Z.shiftr offset PAGE_SHIFT in
      let page_offset := Z.land offset (PAGE_SIZE - 1) in
      let bytes_to_read :=
        if log_size <? offset + (PAGE_SIZE - page_offset) then log_size - offset
        else PAGE_SIZE - page_offset in
      match read_mapping_page rd m index with
      | (None, m1) => Ok (valid_size, m1)
      | (Some p, m1) =>
          let recs := page_records p page_offset bytes_to_read in
          let n := Z.of_nat (length (take_valid ver recs)) in
          let valid_size' := valid_size + sizeof_record * n in
          if n <? Z.of_nat (length recs) then Ok (valid_size', m1)
          else
            let offset' := offset + sizeof_record * n in
            let bytes_left := bytes_to_read - sizeof_record * n in
            if (0 <? bytes_left) && (log_size <=? offset' + bytes_left) then Ok (valid_size', m1)
            else truncate_scan rd ver fuel' m1 log_size offset' valid_size'
      end
  end.

(** [scorw_truncate_log_to_version]; [None] is a parent without a log inode. *)
Definition scorw_truncate_log_to_version (rd : Z -> bool) (ver : Z) (log : option mapping) : outcome (option mapping) :=
  match log with
  | None => Ok None
  | Some m =>
      let log_size := i_size m in
      if log_size =? 0 then Ok (Some m)
      else
        r ← truncate_scan rd ver (scan_fuel log_size) m log_size 0 0;
        let '(valid_size, m1) := r in
        Ok (Some (if valid_size <? log_size then truncate_setsize m1 valid_size else m1))
  end.

(** ** What a log file means *)

(** The record at byte [off], and the records of the whole file. *)
Definition record_at (m : mapping) (off : Z) : scorw_log_record :=
  decode_record (page_read (file_page m (Z.shiftr off PAGE_SHIFT)) (Z.land off (PAGE_SIZE - 1)) sizeof_record).
Definition log_records (m : mapping) : list scorw_log_record :=
  (fun k => record_at m (sizeof_record * k)) <$> zseq 0 (Z.to_nat (i_size m / sizeof_record)).

(** A well-formed log holds a whole number of records. *)
Record log_wf (m : mapping) : Prop := {
  lw_mapping : mapping_wf m;
  lw_size : i_size m mod sizeof_record = 0
}.

(** The page the next record goes to is in the page cache, or the record opens
    a page that exists nowhere yet: what appending relies on. *)
Definition tail_ready (m : mapping) : Prop :=
  is_Some (cache m !! Z.shiftr (i_size m) PAGE_SHIFT) \/
  (i_size m mod PAGE_SIZE = 0 /\ disk m !! Z.shiftr (i_size m) PAGE_SHIFT = None).

(** ** Lemmas: the encoding *)

Lemma length_le_bytes n v : length (le_bytes n v) = n.
Proof. unfold le_bytes. by autorewrite with len. Qed.
#[export] Hint Rewrite length_le_bytes : len.

Lemma le_bytes_ok n v : Forall byte_ok (le_bytes n v).
Proof. unfold le_bytes. apply Forall_fmap, Forall_forall. intros j _. apply le_byte_ok. Qed.

Lemma length_encode r : length (encode_record r) = Z.to_nat sizeof_record.
Proof. unfold encode_record. by autorewrite with len. Qed.
#[export] Hint Rewrite length_encode : len.

Lemma encode_ok r : Forall byte_ok (encode_record r).
Proof. unfold encode_record. rewrite !Forall_app. split_and!; apply le_bytes_ok. Qed.

Lemma le_byte_shift v j : 0 <= j -> le_byte v (j + 1) = le_byte (v / 256) j.
Proof.
  intros. unfold le_byte. f_equal.
  change 256 with (2 ^ 8). rewrite <- Z.shiftr_div_pow2, Z.shiftr_shiftr by lia. f_equal. lia.
Qed.

Lemma le_bytes_S n v : le_bytes (S n) v = v mod 256 :: le_bytes n (v / 256).
Proof.
  unfold le_bytes. rewrite zseq_S, fmap_cons. f_equal.
  - unfold le_byte. rewrite Z.shiftr_0_r. change 255 with (Z.ones 8). by apply Z.land_ones.
  - unfold zseq. rewrite <- !list_fmap_compose. apply list_fmap_ext. intros i k Hk. simpl.
    rewrite <- le_byte_shift by lia. f_equal. lia.
Qed.

Lemma le_value_bytes n v : 0 <= v < 256 ^ Z.of_nat n -> le_value (le_bytes n v) = v.
Proof.
  revert v. induction n as [|n IH]; intros v Hv.
  - simpl. change (256 ^ Z.of_nat 0) with 1 in Hv. lia.
  - rewrite le_bytes_S. simpl. rewrite Nat2Z.inj_succ, Z.pow_succ_r in Hv by lia.
    rewrite IH; Z.to_euclidean_division_equations; nia.
Qed.

(** ** Lemmas: scanning *)

Lemma file_page_touch m i j : file_page (set_page m i (file_page m i)) j = file_page m j.
Proof. rewrite file_page_set. by case_decide; subst. Qed.
#[export] Hint Rewrite file_page_touch : len.

Lemma touch_wf m i : log_wf m -> log_wf (set_page m i (file_page m i)).
Proof. intros [? ?]. split; auto with scorw. Qed.

Lemma record_at_ext m m' off :
  (forall i, file_page m' i = file_page m i) -> record_at m' off = record_at m off.
Proof. intros H. unfold record_at. by rewrite H. Qed.

Lemma log_records_ext m m' :
  i_size m' = i_size m -> (forall i, file_page m' i = file_page m i) -> log_records m' = log_records m.
Proof.
  intros Hs H. unfold log_records. rewrite Hs. apply list_fmap_ext. intros. by apply record_at_ext.
Qed.

(** The records of one visit of the scan are consecutive records of the log. *)
Lemma page_records_at m k :
  0 <= k -> sizeof_record * k < i_size m ->
  let off := sizeof_record * k in
  let bytes := Z.min (PAGE_SIZE - Z.land off (PAGE_SIZE - 1)) (i_size m - off) in
  page_records (file_page m (Z.shiftr off PAGE_SHIFT)) (Z.land off (PAGE_SIZE - 1)) bytes =
  (fun j => record_at m (sizeof_record * j)) <$> zseq k (Z.to_nat (bytes / sizeof_record)).
Proof.
  intros Hk Hlt. cbv zeta. rewrite land_page. unfold page_records, zseq.
  rewrite <- !list_fmap_compose. apply list_fmap_ext. intros i j Hij. simpl.
  apply lookup_seq in Hij as [-> Hi]. unfold record_at. rewrite !shiftr_page, !land_page.
  unfold sizeof_record, PAGE_SIZE in *. do 2 f_equal.
  - f_equal. Z.to_euclidean_division_equations. lia.
  - Z.to_euclidean_division_equations. lia.
Qed.

(** The number of records one visit of a scan takes, from record [k] of a log
    of [size] bytes. *)
Definition visit_bytes (size k : Z) : Z :=
  Z.min (PAGE_SIZE - Z.land (sizeof_record * k) (PAGE_SIZE - 1)) (size - sizeof_record * k).
Definition visit (size k : Z) : nat := Z.to_nat (visit_bytes size k / sizeof_record).

(** A visit takes whole records, at most those that are left; it ends a page,
    or takes all the records that are left. *)
Lemma visit_arith size k :
  0 <= k -> sizeof_record * k < size ->
  let n := Z.of_nat (visit size k) in
  0 < visit_bytes size k /\ n <= size / sizeof_record - k /\
  (visit_bytes size k = sizeof_record * n /\ 0 < n \/
   n = size / sizeof_record - k /\ visit_bytes size k = size - sizeof_record * k /\
   sizeof_record * n < visit_bytes size k).
Proof.
  intros Hk Hlt. cbv zeta. unfold visit, visit_bytes. rewrite land_page. unfold sizeof_record, PAGE_SIZE in *.
  assert ((4096 - (32 * k) mod 4096) mod 32 = 0) as Hm by (Z.to_euclidean_division_equations; lia).
  pose proof (Z.mod_pos_bound (32 * k) 4096 ltac:(lia)) as Hp.
  set (a := 4096 - (32 * k) mod 4096) in *.
  rewrite Z2Nat.id by (Z.to_euclidean_division_equations; lia).
  destruct (Z.min_spec a (size - 32 * k)) as [[? ->]|[? ->]]; split_and!;
    try (Z.to_euclidean_division_equations; lia).
Qed.

Lemma visit_whole size k :
  0 <= k -> sizeof_record * k < size -> size mod sizeof_record = 0 -> 0 < Z.of_nat (visit size k).
Proof.
  intros Hk Hlt Hm. destruct (visit_arith size k Hk Hlt) as (H1 & H2 & H3). cbv zeta in *.
  destruct H3 as [|H3]; [tauto|]. unfold sizeof_record in *. Z.to_euclidean_division_equations. lia.
Qed.

(** A page other than the one visited, with records still to come, is reached
    by the rest of the scan. *)
Lemma visit_next size k i :
  0 <= k -> sizeof_record * k < size -> size mod sizeof_record = 0 ->
  i <> Z.shiftr (sizeof_record * k) PAGE_SHIFT ->
  sizeof_record * k <= i * PAGE_SIZE + (PAGE_SIZE - 1) -> i * PAGE_SIZE < size ->
  let k' := k + Z.of_nat (visit size k) in
  sizeof_record * k' <= i * PAGE_SIZE + (PAGE_SIZE - 1) /\ sizeof_record * k' < size.
Proof.
  intros Hk Hlt Hm Hi Hi1 Hi2. cbv zeta. unfold visit, visit_bytes. rewrite shiftr_page in Hi. rewrite land_page.
  unfold sizeof_record, PAGE_SIZE in *.
  assert ((4096 - (32 * k) mod 4096) mod 32 = 0) as Hm' by (Z.to_euclidean_division_equations; lia).
  pose proof (Z.mod_pos_bound (32 * k) 4096 ltac:(lia)) as Hp.
  assert (32 * k + (4096 - (32 * k) mod 4096) <= i * 4096) by (Z.to_euclidean_division_equations; lia).
  set (a := 4096 - (32 * k) mod 4096) in *.
  rewrite Z2Nat.id by (Z.to_euclidean_division_equations; lia).
  rewrite Z.min_l by lia. Z.to_euclidean_division_equations. lia.
Qed.

(** The records [k], ..., [k + n - 1] of the file. *)
Definition records_from (m : mapping) (k : Z) (n : nat) : list scorw_log_record :=
  (fun j => record_at m (sizeof_record * j)) <$> zseq k n.
Definition records_left (m : mapping) (k : Z) : list scorw_log_record :=
  records_from m k (Z.to_nat (i_size m / sizeof_record - k)).

Lemma length_records_from m k n : length (records_from m k n) = n.
Proof. unfold records_from. by autorewrite with len. Qed.
#[export] Hint Rewrite length_records_from : len.

Lemma records_from_ext m m' k n :
  (forall i, file_page m' i = file_page m i) -> records_from m' k n = records_from m k n.
Proof. intros. apply list_fmap_ext. intros. by apply record_at_ext. Qed.

Lemma records_left_ext m m' k :
  i_size m' = i_size m -> (forall i, file_page m' i = file_page m i) -> records_left m' k = records_left m k.
Proof. intros Hs ?. unfold records_left. rewrite Hs. by apply records_from_ext. Qed.

Lemma records_left_0 m : records_left m 0 = log_records m.
Proof. unfold records_left. by rewrite Z.sub_0_r. Qed.

Lemma records_left_visit m k :
  0 <= k -> sizeof_record * k < i_size m ->
  records_left m k = records_from m k (visit (i_size m) k) ++ records_left m (k + Z.of_nat (visit (i_size m) k)).
Proof.
  intros Hk Hlt. destruct (visit_arith _ _ Hk Hlt) as (_ & Hn & _). cbv zeta in *.
  unfold records_left, records_from. set (n := visit _ _) in *.
  replace (Z.to_nat (_ - k)) with (n + Z.to_nat (i_size m / sizeof_record - (k + Z.of_nat n)))%nat by lia.
  by rewrite zseq_app, fmap_app.
Qed.

Lemma records_left_nil m k : i_size m / sizeof_record <= k -> records_left m k = [].
Proof. intros. unfold records_left. by replace (Z.to_nat _) with O by lia. Qed.

Lemma div_le_record size k : 0 <= k -> size <= sizeof_record * k -> size / sizeof_record <= k.
Proof. intros. unfold sizeof_record in *. Z.to_euclidean_division_equations. lia. Qed.

Lemma log_records_nil m : log_wf m -> log_records m = [] -> i_size m = 0.
Proof.
  intros [Hw Hm] H. apply (f_equal length) in H. unfold log_records in H. autorewrite with len in H. simpl in H.
  pose proof (wf_size _ Hw). unfold sizeof_record in *. Z.to_euclidean_division_equations. lia.
Qed.

(** The records one visit decodes are those of the file. *)
Lemma page_records_visit m k :
  0 <= k -> sizeof_record * k < i_size m ->
  page_records (file_page m (Z.shiftr (sizeof_record * k) PAGE_SHIFT))
    (Z.land (sizeof_record * k) (PAGE_SIZE - 1)) (visit_bytes (i_size m) k) =
  records_from m k (visit (i_size m) k).
Proof. intros. by apply page_records_at. Qed.

(** A scan of a well-formed log from record [k] folds the body over the
    remaining records, in order, leaves the file as it was, and brings the
    pages it visits into the page cache. *)
Lemma scan_log_spec {S} (body : scorw_log_record -> S -> S) fuel m k s :
  log_wf m -> 0 <= k -> sizeof_record * k <= i_size m ->
  (Z.to_nat (i_size m / sizeof_record - k) <= fuel)%nat ->
  exists m', scan_log (fun _ => true) body fuel m (i_size m) (sizeof_record * k) s =
    Ok (foldl (fun s r => body r s) s (records_left m k), m') /\
    log_wf m' /\ i_size m' = i_size m /\ disk m' = disk m /\ (forall i, file_page m' i = file_page m i) /\
    (forall i, is_Some (cache m !! i) -> is_Some (cache m' !! i)) /\
    (forall i, sizeof_record * k <= i * PAGE_SIZE + (PAGE_SIZE - 1) -> i * PAGE_SIZE < i_size m ->
       sizeof_record * k < i_size m -> is_Some (cache m' !! i)).
Proof.
  revert m k s. induction fuel as [|fuel IH]; intros m k s Hwf Hk Hle Hf;
    unfold scan_log; fold (@scan_log S); pose proof (lw_size _ Hwf) as Hm;
    (destruct (Z.leb_spec (i_size m) (sizeof_record * k)) as [Hge|Hlt];
     [rewrite records_left_nil by (by apply div_le_record); exists m; split_and!; auto; lia|]);
    pose proof (visit_whole _ _ Hk Hlt Hm) as Hn0;
    destruct (visit_arith _ _ Hk Hlt) as (_ & Hn & _); cbv zeta in *; [lia|].
  unfold read_mapping_page. fold (visit_bytes (i_size m) k).
  rewrite page_records_visit by done. autorewrite with len.
  set (n := visit (i_size m) k) in *. set (m1 := set_page m _ _).
  rewrite <- Z.mul_add_distr_l.
  assert (forall i, file_page m1 i = file_page m i) as Hp1 by (intros; apply file_page_touch).
  destruct (IH m1 (k + Z.of_nat n) (foldl (fun s r => body r s) s (records_from m k n)))
    as (m' & Hr & Hw & Hs & Hd & Hp & Hc1 & Hc2).
  { by apply touch_wf. }
  { lia. }
  { simpl. unfold sizeof_record in *. Z.to_euclidean_division_equations. lia. }
  { simpl. lia. }
  change (i_size m1) with (i_size m) in *. exists m'. rewrite Hr. split_and!; auto.
  - rewrite (records_left_ext m m1), (records_left_visit m k), foldl_app by done. done.
  - intros i. by rewrite Hp.
  - intros i Hi. apply Hc1. simpl. rewrite lookup_insert. case_decide; [done|apply Hi].
  - intros i Hi1 Hi2 _. destruct (decide (i = Z.shiftr (sizeof_record * k) PAGE_SHIFT)) as [->|Hne].
    + apply Hc1. simpl. rewrite lookup_insert_eq. done.
    + destruct (visit_next (i_size m) k i Hk Hlt Hm Hne Hi1 Hi2) as [? ?]. by apply Hc2.
Qed.

(** ** Lemmas: truncation *)

Lemma take_valid_app ver l1 l2 :
  take_valid ver (l1 ++ l2) =
  if (length (take_valid ver l1) <? length l1)%nat then take_valid ver l1
  else l1 ++ take_valid ver l2.
Proof.
  induction l1 as [|r l1 IH]; simpl; [done|].
  destruct (u32 ver <? version_num r); simpl; [done|].
  rewrite IH. change (S ?a <? S ?b)%nat with (a <? b)%nat. by destruct (_ <? _)%nat.
Qed.

Lemma take_valid_all ver l : length (take_valid ver l) = length l -> take_valid ver l = l.
Proof.
  induction l as [|r l IH]; simpl; [done|]. destruct (_ <? _); simpl; [done|].
  intros H. f_equal. apply IH. lia.
Qed.

Lemma take_valid_length ver l : (length (take_valid ver l) <= length l)%nat.
Proof. induction l as [|r l IH]; simpl; [done|]. destruct (_ <? _); simpl; lia. Qed.

Lemma take_valid_Forall ver l : Forall (fun r => version_num r <= u32 ver) (take_valid ver l).
Proof.
  induction l as [|r l IH]; simpl; [constructor|].
  destruct (Z.ltb_spec (u32 ver) (version_num r)); constructor; [lia|done].
Qed.

Lemma take_valid_take ver l : take_valid ver l = take (length (take_valid ver l)) l.
Proof. induction l as [|r l IH]; simpl; [done|]. destruct (_ <? _); simpl; [done|]. by f_equal. Qed.

Lemma read_size_visit size k :
  let off := sizeof_record * k in
  (if size <? off + (PAGE_SIZE - Z.land off (PAGE_SIZE - 1)) then size - off
   else PAGE_SIZE - Z.land off (PAGE_SIZE - 1)) = visit_bytes size k.
Proof. unfold visit_bytes. cbv zeta. case_bools; lia. Qed.

Lemma truncate_scan_spec ver fuel m k :
  mapping_wf m -> 0 <= k -> sizeof_record * k <= i_size m ->
  (S (Z.to_nat (i_size m / sizeof_record - k)) <= fuel)%nat ->
  exists m', truncate_scan (fun _ => true) ver fuel m (i_size m) (sizeof_record * k) (sizeof_record * k) =
    Ok (sizeof_record * (k + Z.of_nat (length (take_valid ver (records_left m k)))), m') /\
    mapping_wf m' /\ i_size m' = i_size m /\ disk m' = disk m /\ (forall i, file_page m' i = file_page m i).
Proof.
  revert m k. induction fuel as [|fuel IH]; intros m k Hwf Hk Hle Hf; [lia|].
  unfold truncate_scan; fold truncate_scan.
  destruct (Z.leb_spec (i_size m) (sizeof_record * k)) as [Hge|Hlt].
  { exists m. rewrite records_left_nil by (by apply div_le_record). split_and!; auto. do 2 f_equal. simpl. lia. }
  unfold read_mapping_page. rewrite read_size_visit, page_records_visit, (records_left_visit m k) by done.
  rewrite take_valid_app. destruct (visit_arith _ _ Hk Hlt) as (Hb & Hn & Hcase). cbv zeta in *.
  set (n := visit (i_size m) k) in *. set (recs := records_from m k n). set (m1 := set_page m _ _).
  assert (length recs = n) as Hlen by (unfold recs; by autorewrite with len).
  assert (mapping_wf m1) by (subst m1; auto with scorw).
  assert (forall i, file_page m1 i = file_page m i) as Hp1 by (intros; apply file_page_touch).
  pose proof (take_valid_length ver recs) as Htl. rewrite Hlen in *.
  destruct (Z.ltb_spec (Z.of_nat (length (take_valid ver recs))) (Z.of_nat n)) as [Hs|Hs].
  { rewrite (proj2 (Nat.ltb_lt _ _)) by lia. exists m1. split_and!; auto. do 2 f_equal. lia. }
  rewrite (proj2 (Nat.ltb_ge _ _)) by lia.
  replace (length (take_valid ver recs)) with n by lia. rewrite length_app, Hlen.
  rewrite <- Z.mul_add_distr_l. destruct Hcase as [[Hb1 Hn1]|(Hn1 & Hb1 & Hb2)].
  2: { rewrite (proj2 (Z.ltb_lt _ _)), (proj2 (Z.leb_le _ _)) by lia. simpl.
       exists m1. rewrite records_left_nil by lia. split_and!; auto. do 2 f_equal. simpl. lia. }
  rewrite (proj2 (Z.ltb_ge _ _)) by lia. simpl andb. cbv iota.
  destruct (IH m1 (k + Z.of_nat n)) as (m' & Hr & Hw & Hsz & Hd & Hp); auto.
  { lia. }
  { change (i_size m1) with (i_size m). unfold visit_bytes in Hb1. lia. }
  { change (i_size m1) with (i_size m). lia. }
  change (i_size m1) with (i_size m) in *. exists m'. rewrite Hr, (records_left_ext m m1) by done.
  split_and!; auto.
  - do 2 f_equal. lia.
  - intros i. by rewrite Hp.
Qed.

(** ** Lemmas: the file after a truncation *)

Lemma page_read_zero_tail p n off len :
  0 <= off -> 0 <= len -> off + len <= n -> (Z.to_nat n <= length p)%nat ->
  page_read (zero_tail p n) off len = page_read p off len.
Proof.
  intros. unfold zero_tail.
  replace (replicate (length p - Z.to_nat n) 0) with
    (replicate (length p - Z.to_nat n) 0 ++ drop (Z.to_nat n + length (replicate (length p - Z.to_nat n) 0)) p)
    by (rewrite drop_ge by (autorewrite with len; lia); apply app_nil_r).
  by apply page_read_write_before.
Qed.

Lemma truncate_setsize_wf m sz : mapping_wf m -> 0 <= sz -> mapping_wf (truncate_setsize m sz).
Proof.
  intros Hwf Hsz. split; simpl; [done| |apply Hwf].
  assert (forall i p, truncate_pages m sz !! i = Some p -> page_wf p) as Hf.
  { intros i p Hl. apply map_lookup_filter_Some in Hl as [Hl _]. by eapply wf_cache. }
  intros i p. destruct (sz mod PAGE_SIZE =? 0); [apply Hf|].
  rewrite lookup_alter. case_decide; [|apply Hf]. intros Hl.
  apply fmap_Some in Hl as (q & Hq & ->). apply zero_tail_wf. by eapply Hf.
Qed.

(** Truncation keeps the bytes below the new end. *)
Lemma truncate_setsize_read m sz i off len :
  mapping_wf m -> 0 <= i -> 0 <= off -> 0 < len -> off + len <= PAGE_SIZE -> i * PAGE_SIZE + off + len <= sz ->
  page_read (file_page (truncate_setsize m sz) i) off len = page_read (file_page m i) off len.
Proof.
  intros Hwf Hi Ho Hl Hpg Hsz.
  assert (truncate_pages m sz !! i = cache m !! i) as Hk.
  { unfold truncate_pages. destruct (cache m !! i) eqn:E.
    - apply map_lookup_filter_Some. split; [done|]. simpl. lia.
    - apply map_lookup_filter_None. by left. }
  unfold file_page, disk_page, truncate_setsize. cbn [cache disk].
  destruct (Z.eqb_spec (sz mod PAGE_SIZE) 0) as [Hz|Hz]; [by rewrite Hk|].
  rewrite lookup_alter. case_decide as Hd; [|by rewrite Hk].
  rewrite Hd, Hk. destruct (cache m !! i) as [p|] eqn:E; simpl; [|done].
  apply page_read_zero_tail; try lia.
  - rewrite <- Hd, shiftr_page in *. unfold PAGE_SIZE in *. Z.to_euclidean_division_equations. lia.
  - rewrite (page_len p) by (by eapply wf_cache). unfold PAGE_SIZE.
    Z.to_euclidean_division_equations. lia.
Qed.

Lemma log_records_truncate m n :
  mapping_wf m -> 0 <= n -> sizeof_record * n <= i_size m ->
  log_records (truncate_setsize m (sizeof_record * n)) = take (Z.to_nat n) (log_records m).
Proof.
  intros Hwf Hn Hle. unfold log_records. rewrite <- fmap_take. simpl.
  rewrite (Z.mul_comm sizeof_record n), Z.div_mul by by compute.
  replace (take (Z.to_nat n) (zseq 0 (Z.to_nat (i_size m / sizeof_record)))) with (zseq 0 (Z.to_nat n)).
  2: { unfold sizeof_record in *. replace (Z.to_nat (i_size m / 32)) with
         (Z.to_nat n + Z.to_nat (i_size m / 32 - n))%nat
         by (Z.to_euclidean_division_equations; lia).
       rewrite zseq_app, take_app_le, take_ge by (rewrite length_zseq; lia). done. }
  apply list_fmap_ext. intros i k Hk.
  assert (0 <= k < n) as Hkn.
  { apply list_elem_of_lookup_2, elem_of_zseq in Hk. lia. }
  unfold record_at. f_equal. rewrite shiftr_page, land_page.
  unfold sizeof_record, PAGE_SIZE in *.
  apply truncate_setsize_read; unfold PAGE_SIZE; try done; Z.to_euclidean_division_equations; lia.
Qed.

(** ** Lemmas: appending a record *)

Lemma page_record_before p off bytes off' :
  0 <= off' -> off' + sizeof_record <= off -> (Z.to_nat off <= length p)%nat ->
  page_read (page_write p off bytes) off' sizeof_record = page_read p off' sizeof_record.
Proof. intros. apply page_read_write_before; unfold sizeof_record in *; lia. Qed.

Lemma decode_encode r : record_wf r -> decode_record (encode_record r) = r.
Proof.
  intros [H1 H2 H3 H4 H5 H6].
  transitivity (LogRecord (le_value (le_bytes 4 (version_num r))) (le_value (le_bytes 4 (logical_start_blk r)))
    (le_value (le_bytes 8 (physical_start_blk r))) (le_value (le_bytes 4 (len_blks r)))
    (le_value (le_bytes 4 (padding r))) (le_value (le_bytes 8 (padding2 r)))); [reflexivity|].
  change (2 ^ 32) with (256 ^ Z.of_nat 4) in *. change (2 ^ 64) with (256 ^ Z.of_nat 8) in *.
  rewrite !le_value_bytes by done. by destruct r.
Qed.

(** The tail page is what [scorw_get_page] hands out, and nothing else of the
    file moves. *)
Lemma get_tail_page m :
  tail_ready m ->
  exists m', scorw_get_page io_ok m (i_size m / PAGE_BYTES) =
    (Some (file_page m (i_size m / PAGE_SIZE)), m') /\
    (forall i, file_page m' i = file_page m i) /\ i_size m' = i_size m /\ disk m' = disk m.
Proof.
  change PAGE_BYTES with PAGE_SIZE. rewrite <- shiftr_page. intros Ht.
  destruct (scorw_get_page_ok m (Z.shiftr (i_size m) PAGE_SHIFT)) as (p & m' & Hg).
  exists m'. rewrite Hg. pose proof (scorw_get_page_size _ _ _ _ _ Hg).
  assert (disk m' = disk m) as Hd.
  { revert Hg. unfold scorw_get_page. destruct (cache m !! _); [by intros [= _ <-]|].
    case_bools; by intros [= _ <-]. }
  destruct Ht as [Hc|[_ Hn]].
  - destruct (scorw_get_page_full _ _ _ _ _ (or_intror Hc) Hg) as [-> Hp]. done.
  - destruct (cache m !! Z.shiftr (i_size m) PAGE_SHIFT) eqn:E.
    + destruct (scorw_get_page_full io_ok m (Z.shiftr (i_size m) PAGE_SHIFT) p m') as [-> Hp]; eauto.
    + destruct (scorw_get_page_hole _ _ _ _ _ E Hn Hg) as [-> Hp]. split_and!; auto.
      unfold file_page, disk_page. by rewrite E, Hn.
Qed.

(** The offset of the next record leaves room for it in its page. *)
Lemma tail_room m :
  log_wf m -> 0 <= i_size m mod PAGE_SIZE /\ i_size m mod PAGE_SIZE + sizeof_record <= PAGE_SIZE.
Proof.
  intros [Hwf Hsz]. pose proof (wf_size _ Hwf). unfold sizeof_record, PAGE_SIZE in *.
  Z.to_euclidean_division_equations. lia.
Qed.

(** What appending does to the file. *)
Lemma append_effect m r :
  log_wf m -> tail_ready m ->
  let idx := i_size m / PAGE_SIZE in
  exists m', write_offset_log io_ok m (i_size m) (encode_record r) = Ok m' /\
  i_size m' = i_size m + sizeof_record /\ disk m' = disk m /\ mapping_wf m' /\
  is_Some (cache m' !! idx) /\
  (forall i, file_page m' i = if decide (idx = i) then
     page_write (file_page m idx) (i_size m mod PAGE_SIZE) (encode_record r) else file_page m i).
Proof.
  intros Hl Ht. destruct (tail_room m Hl) as [Ho1 Ho2]. destruct Hl as [Hwf Hsz].
  cbv zeta. unfold write_offset_log.
  destruct (get_tail_page m Ht) as (m1 & -> & Hp & Hs1 & Hd1). eexists. split; [reflexivity|].
  unfold put_log_bytes. autorewrite with len. change PAGE_BYTES with PAGE_SIZE. change (Z.of_nat (Z.to_nat sizeof_record)) with sizeof_record.
  set (idx := i_size m / PAGE_SIZE). set (q := page_write (file_page m idx) _ _).
  pose proof (wf_size _ Hwf) as Hs0. cbn [i_size set_page].
  rewrite Hs1, (proj2 (Z.ltb_lt _ _)) by (unfold sizeof_record; lia).
  assert (page_wf q) as Hqw.
  { apply page_write_wf; [by apply file_page_wf|apply encode_ok|].
    autorewrite with len. unfold sizeof_record, PAGE_SIZE in *. lia. }
  assert (mapping_wf m1) as Hm1.
  { split; [lia| |rewrite Hd1; apply Hwf].
    intros i p' Hi. rewrite <- (file_page_cached _ _ _ Hi), Hp. by apply file_page_wf. }
  split_and!; [done|done| | |].
  - split; simpl; [unfold sizeof_record; lia| |apply Hm1].
    intros i p'. rewrite lookup_insert. case_decide; [by intros [= <-]|apply Hm1].
  - simpl. rewrite lookup_insert_eq. eauto.
  - intros i. rewrite file_page_disksize, file_page_size, file_page_set. case_decide; [done|apply Hp].
Qed.

Lemma record_at_appended m m' r :
  log_wf m -> record_wf r ->
  (forall i, file_page m' i = if decide (i_size m / PAGE_SIZE = i) then
     page_write (file_page m (i_size m / PAGE_SIZE)) (i_size m mod PAGE_SIZE) (encode_record r)
     else file_page m i) ->
  record_at m' (i_size m) = r /\
  forall k, 0 <= k < i_size m / sizeof_record -> record_at m' (sizeof_record * k) = record_at m (sizeof_record * k).
Proof.
  intros Hl Hr Hfp. destruct (tail_room m Hl) as [Ho1 Ho2]. destruct Hl as [Hwf Hsz].
  assert (page_wf (file_page m (i_size m / PAGE_SIZE))) as Hpw by by apply file_page_wf.
  split; [|intros k Hk]; unfold record_at; rewrite shiftr_page, land_page, Hfp.
  - rewrite decide_True by done. rewrite <- (decode_encode r Hr) at 2. f_equal.
    pose proof (page_read_write_eq (file_page m (i_size m / PAGE_SIZE)) (i_size m mod PAGE_SIZE) (encode_record r)) as Hrw.
    rewrite length_encode in Hrw. apply Hrw; [done|].
    rewrite (page_len _ Hpw). unfold sizeof_record, PAGE_SIZE in *. lia.
  - case_decide as Hd; [|done]. rewrite <- Hd. f_equal. apply page_record_before.
    + unfold sizeof_record, PAGE_SIZE in *. Z.to_euclidean_division_equations. lia.
    + unfold sizeof_record, PAGE_SIZE in *. Z.to_euclidean_division_equations. lia.
    + rewrite (page_len _ Hpw). unfold sizeof_record in *. lia.
Qed.

(** Appending a record at the end of a log whose tail page is ready adds that
    record and keeps the others. *)
Lemma append_record m r :
  log_wf m -> tail_ready m -> record_wf r ->
  (forall i, Z.shiftr (i_size m) PAGE_SHIFT < i -> disk m !! i = None) ->
  exists m', write_offset_log io_ok m (i_size m) (encode_record r) = Ok m' /\
  log_records m' = log_records m ++ [r] /\ log_wf m' /\ tail_ready m' /\
  i_size m' = i_size m + sizeof_record /\ disk m' = disk m.
Proof.
  intros Hl Ht Hr Hdisk. destruct (append_effect m r Hl Ht) as (m' & Hm' & Hs & Hd & Hw & Hc & Hfp).
  exists m'. split; [done|].
  destruct (record_at_appended m m' r Hl Hr Hfp) as [Hlast Hkeep].
  destruct Hl as [Hwf Hsz]. pose proof (wf_size _ Hwf).
  split_and!; [| split; [done|] | |done|done].
  - unfold log_records. rewrite Hs.
    replace (Z.to_nat ((i_size m + sizeof_record) / sizeof_record)) with (S (Z.to_nat (i_size m / sizeof_record))).
    2: { unfold sizeof_record in *. Z.to_euclidean_division_equations. lia. }
    rewrite zseq_snoc, fmap_app, Z.add_0_l. f_equal.
    + apply list_fmap_ext. intros i k Hk%list_elem_of_lookup_2%elem_of_zseq. apply Hkeep. lia.
    + simpl. f_equal. rewrite <- Hlast. f_equal.
      unfold sizeof_record in *. Z.to_euclidean_division_equations. lia.
  - rewrite Hs. unfold sizeof_record in *. Z.to_euclidean_division_equations. lia.
  - unfold tail_ready. rewrite Hs, Hd, !shiftr_page.
    destruct (decide ((i_size m + sizeof_record) mod PAGE_SIZE = 0)).
    + right. split; [done|]. apply Hdisk. rewrite shiftr_page.
      unfold sizeof_record, PAGE_SIZE in *. Z.to_euclidean_division_equations. lia.
    + left. replace ((i_size m + sizeof_record) / PAGE_SIZE) with (i_size m / PAGE_SIZE); [done|].
      unfold sizeof_record, PAGE_SIZE in *. Z.to_euclidean_division_equations. lia.
Qed.

(** ** Properties *)

Lemma le_bytes_value bs : Forall byte_ok bs -> le_bytes (length bs) (le_value bs) = bs.
Proof.
  induction 1 as [|b bs Hb Hbs IH]; [done|]. unfold byte_ok in Hb.
  cbn [length le_value]. rewrite le_bytes_S, (Z.mul_comm 256), Z.mod_add, Z.div_add by done.
  by rewrite Z.mod_small, Z.div_small, Z.add_0_l, IH.
Qed.

Lemma chunk_app (n k : nat) (bs : list Z) :
  take k (drop n bs) ++ drop (n + k) bs = drop n bs.
Proof. rewrite <- drop_drop. apply take_drop. Qed.

(** The record layout is a bijection: a record with fields in range is read
    back exactly from the 32 bytes [memcpy]'d to the log, and any 32 bytes are
    the encoding of the record they decode to. *)
Theorem log_record_roundtrip (r : scorw_log_record) (bs : list Z) :
  record_wf r -> Forall byte_ok bs -> length bs = 32%nat ->
  decode_record (encode_record r) = r /\ encode_record (decode_record bs) = bs.
Proof.
  intros Hr Hbs Hlen. split; [by apply decode_encode|].
  unfold encode_record, decode_record. cbn [version_num logical_start_blk physical_start_blk len_blks padding padding2].
  assert (forall n k, (n + k <= 32)%nat -> le_bytes k (le_value (take k (drop n bs))) = take k (drop n bs)) as H.
  { intros n k Hnk. rewrite <- (le_bytes_value (take k (drop n bs))) at 2.
    - f_equal. autorewrite with len. lia.
    - by apply Forall_take, Forall_drop. }
  pose proof (H 0%nat 4%nat ltac:(lia)) as H0. rewrite drop_0 in H0. rewrite H0.
  rewrite (H 4%nat 4%nat), (H 8%nat 8%nat), (H 16%nat 4%nat), (H 20%nat 4%nat), (H 24%nat 8%nat) by lia.
  replace (take 8 (drop 24 bs)) with (drop 24 bs) by (rewrite take_ge; [done|rewrite length_drop; lia]).
  by rewrite (chunk_app 20 4), (chunk_app 16 4), (chunk_app 8 8), (chunk_app 4 4), take_drop.
Qed.

(** What the truncation leaves. *)
Lemma truncate_log_spec m ver :
  mapping_wf m ->
  exists m', scorw_truncate_log_to_version (fun _ => true) ver (Some m) = Ok (Some m') /\
    log_wf m' /\ log_records m' = take_valid ver (log_records m).
Proof.
  intros Hwf. pose proof (wf_size _ Hwf) as H0.
  unfold scorw_truncate_log_to_version. destruct (Z.eqb_spec (i_size m) 0) as [Hz|Hz].
  { exists m. split_and!; [done|split; [done|by rewrite Hz]|]. unfold log_records. by rewrite Hz. }
  destruct (truncate_scan_spec ver (scan_fuel (i_size m)) m 0 Hwf) as (m1 & Hr & Hw & Hs & _ & Hp);
    [lia|unfold sizeof_record; lia|unfold scan_fuel; rewrite Z.sub_0_r; lia|].
  rewrite Z.mul_0_r, records_left_0, Z.add_0_l in Hr. rewrite Hr. cbn [mbind outcome_bind].
  pose proof (take_valid_length ver (log_records m)) as Hlen.
  assert (length (log_records m) = Z.to_nat (i_size m / sizeof_record)) as Hll
    by (unfold log_records; by autorewrite with len).
  set (n := Z.of_nat (length (take_valid ver (log_records m)))) in *.
  assert (sizeof_record * n <= i_size m).
  { unfold sizeof_record in *. Z.to_euclidean_division_equations. lia. }
  eexists. split; [done|]. destruct (Z.ltb_spec (sizeof_record * n) (i_size m)) as [Hlt|Hge].
  - split; [split|].
    + apply truncate_setsize_wf; [done|]. unfold sizeof_record. lia.
    + simpl. by rewrite Z.mul_comm, Z.mod_mul.
    + rewrite log_records_truncate by (try done; lia).
      rewrite (log_records_ext m m1) by done. rewrite (take_valid_take ver (log_records m)).
      f_equal. lia.
  - assert (i_size m = sizeof_record * n) as Heq by lia. split; [split; [done|]|].
    + by rewrite Hs, Heq, Z.mul_comm, Z.mod_mul.
    + rewrite (log_records_ext m m1) by done. symmetry. apply take_valid_all.
      rewrite Heq, Z.mul_comm, Z.div_mul in Hll by done. lia.
Qed.

(** [scorw_truncate_log_to_version] returns on every log, torn or not,
    and keeps exactly the records before the first one of a version newer than
    the committed one: afterwards the log is a whole number of records, all of
    a version at most the committed one, and they are a prefix of what was
    there. *)
Theorem truncate_log_keeps_committed_prefix (m : mapping) (ver : Z) :
  mapping_wf m ->
  exists m', scorw_truncate_log_to_version (fun _ => true) ver (Some m) = Ok (Some m') /\
    log_wf m' /\ log_records m' = take_valid ver (log_records m) /\
    Forall (fun r => version_num r <= u32 ver) (log_records m') /\
    log_records m' `prefix_of` log_records m.
Proof.
  intros Hwf. destruct (truncate_log_spec m ver Hwf) as (m' & Hr & Hw & Hl).
  exists m'. split_and!; auto; rewrite Hl; [apply take_valid_Forall|].
  rewrite take_valid_take. eexists. by rewrite take_drop.
Qed.

Lemma page_read_zero off len :
  0 <= off -> off + len <= PAGE_SIZE -> page_read zero_page off len = replicate (Z.to_nat len) 0.
Proof.
  intros. unfold page_read, zero_page. rewrite drop_replicate, take_replicate. f_equal. lia.
Qed.

(** Appending to a log whose last page is only partly used and not in the
    page cache wipes the records already on that page: [scorw_get_page] hands
    [write_offset_log] a zero-filled page instead of reading it, so every
    earlier record of the page reads back as zeros. *)
Theorem append_uncached_tail_wipes_page (m : mapping) (r : scorw_log_record) (k : Z) :
  log_wf m -> cache m !! (i_size m / PAGE_SIZE) = None ->
  i_size m / PAGE_SIZE * PAGE_SIZE <= sizeof_record * k < i_size m ->
  exists m', write_offset_log io_ok m (i_size m) (encode_record r) = Ok m' /\
    record_at m' (sizeof_record * k) = LogRecord 0 0 0 0 0 0.
Proof.
  intros [Hwf Hsz] Hc Hk. unfold write_offset_log, scorw_get_page.
  change PAGE_BYTES with PAGE_SIZE. rewrite Hc. simpl io_alloc. cbn [negb].
  rewrite shiftr_page, Z.leb_refl. eexists. split; [reflexivity|]. unfold put_log_bytes. change PAGE_BYTES with PAGE_SIZE.
  set (m1 := set_page (set_page _ _ _) _ _).
  assert (forall sz, file_page (set_disksize (i_size_write m1 sz) sz) (i_size m / PAGE_SIZE) =
    page_write zero_page (i_size m mod PAGE_SIZE) (encode_record r)) as Hf1.
  { intros. rewrite file_page_disksize, file_page_size. apply file_page_set_eq. }
  unfold record_at. rewrite shiftr_page, land_page.
  replace (sizeof_record * k / PAGE_SIZE) with (i_size m / PAGE_SIZE).
  2: { unfold PAGE_SIZE in *. Z.to_euclidean_division_equations. lia. }
  change (i_size m1) with (i_size m). rewrite length_encode.
  rewrite (proj2 (Z.ltb_lt _ _)), Hf1 by (unfold sizeof_record; lia).
  rewrite page_record_before, page_read_zero.
  - reflexivity.
  - apply Z.mod_pos_bound. by compute.
  - unfold sizeof_record, PAGE_SIZE in *. Z.to_euclidean_division_equations. lia.
  - apply Z.mod_pos_bound. by compute.
  - unfold sizeof_record, PAGE_SIZE in *. Z.to_euclidean_division_equations. lia.
  - rewrite (page_len _ zero_page_wf). unfold PAGE_SIZE. Z.to_euclidean_division_equations. lia.
Qed.

(** ** Witnesses *)

Lemma log_record_roundtrip_witness :
  decode_record (encode_record (LogRecord 3 100 200 8 0 77)) = LogRecord 3 100 200 8 0 77 /\
  encode_record (decode_record (replicate 32 255)) = replicate 32 255.
Proof. apply log_record_roundtrip; [by split|by apply Forall_replicate|done]. Defined.

(** A log of two records of version 0 and a torn third one. *)
Definition small_log : mapping := Mapping 72 72 ∅ ∅.
Lemma small_log_wf : mapping_wf small_log.
Proof. split; simpl; [lia|by intros ?? ?%lookup_empty_Some..]. Qed.

Lemma truncate_log_keeps_committed_prefix_witness :
  exists m', scorw_truncate_log_to_version (fun _ => true) 4 (Some small_log) = Ok (Some m') /\
    log_wf m' /\ log_records m' = take_valid 4 (log_records small_log) /\
    Forall (fun r => version_num r <= u32 4) (log_records m') /\
    log_records m' `prefix_of` log_records small_log.
Proof. apply truncate_log_keeps_committed_prefix, small_log_wf. Defined.

(** A log of one record, on disk only. *)
Definition disk_log (r : scorw_log_record) : mapping :=
  Mapping 32 32 ∅ {[0 := page_write zero_page 0 (encode_record r)]}.
Lemma disk_log_wf r : log_wf (disk_log r).
Proof.
  split; [|done]. split; simpl; [lia|by intros ?? ?%lookup_empty_Some|].
  intros i p [<- <-]%lookup_singleton_Some. apply page_write_wf; [apply zero_page_wf|apply encode_ok|].
  autorewrite with len. unfold PAGE_SIZE, sizeof_record. lia.
Qed.

Lemma append_uncached_tail_wipes_page_witness :
  record_at (disk_log (LogRecord 1 7 9 2 0 0)) 0 = LogRecord 1 7 9 2 0 0 /\
  exists m', write_offset_log io_ok (disk_log (LogRecord 1 7 9 2 0 0)) 32 (encode_record (LogRecord 2 8 10 1 0 0)) = Ok m' /\
    record_at m' (sizeof_record * 0) = LogRecord 0 0 0 0 0 0.
Proof.
  split; [by vm_compute|].
  apply (append_uncached_tail_wipes_page (disk_log (LogRecord 1 7 9 2 0 0))); [apply disk_log_wf|done|by compute].
Defined.
