(* ===== verification/Versions.v ===== *)
(** Versions of a parent file: the per-version delta maps kept in RAM with a
    four-entry FIFO ([scorw_get_or_create_version]), their reconstruction from
    the log ([scorw_replay_log_version]), the lookup of the block a version
    sees ([scorw_lookup_physical_block]) and the recording of a write
    ([scorw_record_write]), all of [corw_sparse.c]. *)

From S2P Require Import Prelude Pages Friend Log.

(** ** State *)

(** Values stored in an xarray ([xa_mk_value], [xa_to_value]). *)
Definition xa_mk_value (v : Z) : Z := u64 (Z.lor (Z.shiftl v 1) 1).
Definition xa_to_value (e : Z) : Z := Z.shiftr e 1.

(** The version fields of [struct scorw_inode]: the array [version_states] by
    index (the delta map of version [v] is at [v - 1]), the FIFO of loaded
    versions, the log inode, and the size attribute [PAR_ORGY] of the inode. *)
Record vstate := VState {
  version : Z;
  version_states : gmap Z (gmap Z Z);
  loaded_versions : list Z;
  loaded_version_count : Z;
  fifo_head : Z;
  i_log : option mapping;
  par_org : Z
}.

Definition set_version (s : vstate) (v : Z) : vstate :=
  VState v (version_states s) (loaded_versions s) (loaded_version_count s) (fifo_head s) (i_log s) (par_org s).
Definition set_states (s : vstate) (st : gmap Z (gmap Z Z)) : vstate :=
  VState (version s) st (loaded_versions s) (loaded_version_count s) (fifo_head s) (i_log s) (par_org s).
Definition set_log (s : vstate) (l : option mapping) : vstate :=
  VState (version s) (version_states s) (loaded_versions s) (loaded_version_count s) (fifo_head s) l (par_org s).
Definition set_fifo (s : vstate) (lv : list Z) (c h : Z) : vstate :=
  VState (version s) (version_states s) lv c h (i_log s) (par_org s).

(** What the environment answers: whether [kzalloc] succeeds, which pages of
    the log can be read, and the page cache of the log. *)
Record venv := VEnv { ve_kzalloc : bool; ve_rd : Z -> bool; ve_io : io_env }.
Definition venv_ok : venv := VEnv true (fun _ => true) io_ok.

(** ** Operations *)

(** The [xa_store] loop over the [len] blocks of an extent. *)
Definition store_blocks (key : Z -> Z) (physical len : Z) (dm : gmap Z Z) : gmap Z Z :=
  foldl (fun dm i => <[key i := xa_mk_value (u64 (physical + i))]> dm) dm (zseq 0 (Z.to_nat len)).

(** One record of the log seen by the replay of [target_version]. *)
Definition replay_record (target_version : Z) (r : scorw_log_record) (dm : gmap Z Z) : gmap Z Z :=
  if version_num r =? u32 target_version
  then store_blocks (fun i => u32 (logical_start_blk r + i)) (physical_start_blk r) (len_blks r) dm
  else dm.

(** [scorw_replay_log_version]. *)
Definition scorw_replay_log_version (e : venv) (s : vstate) (target_version : Z) : outcome vstate :=
  match i_log s with
  | None => Ok s
  | Some m =>
      let log_size := i_size m in
      r ← scan_log (ve_rd e) (fun rec v => replay_record target_version rec <$> v)
            (scan_fuel log_size) m log_size 0 (version_states s !! (target_version - 1));
      let '(v, m') := r in
      Ok (set_log (set_states s
            (partial_alter (fun _ => v) (target_version - 1) (version_states s))) (Some m'))
  end.

(** The FIFO part of [scorw_get_or_create_version]: evict the oldest loaded
    version when four are loaded, and enter [v_num]. *)
Definition fifo_enter (s : vstate) (v_num : Z) : vstate :=
  if loaded_version_count s =? MAX_RAM_VERSIONS then
    let evict_idx := fifo_head s in
    let evict_v_num := loaded_versions s !!! Z.to_nat evict_idx in
    set_fifo (set_states s (delete (evict_v_num - 1) (version_states s)))
      (<[Z.to_nat evict_idx := v_num]> (loaded_versions s)) (loaded_version_count s)
      ((fifo_head s + 1) mod MAX_RAM_VERSIONS)
  else
    set_fifo s (<[Z.to_nat (loaded_version_count s) := v_num]> (loaded_versions s))
      (loaded_version_count s + 1) (fifo_head s).

(** [scorw_get_or_create_version]; the boolean says whether the pointer
    returned is not NULL. *)
Definition scorw_get_or_create_version (e : venv) (s : vstate) (v_num : Z) : outcome (bool * vstate) :=
  let idx := v_num - 1 in
  if (idx <? 0) || (MAX_VERSIONS <=? idx) then Ok (false, s)
  else match version_states s !! idx with
  | Some _ => Ok (true, s)
  | None =>
      let s1 := fifo_enter s v_num in
      if negb (ve_kzalloc e) then Ok (false, s1)
      else
        let s2 := set_states s1 (<[idx := ∅]> (version_states s1)) in
        s3 ← scorw_replay_log_version e s2 v_num;
        Ok (true, s3)
  end.

(** The loop of [scorw_lookup_physical_block] from version [v] down to 1. *)
Fixpoint lookup_loop (e : venv) (v : nat) (source : vstate) (target_logical_blk : Z) : outcome (option Z * vstate) :=
  match v with
  | O => Ok (None, source)
  | S v' =>
      r ← scorw_get_or_create_version e source (Z.of_nat v);
      let '(sv, source') := r in
      match (if sv : bool then version_states source' !! (Z.of_nat v - 1) ≫= (fun dm => dm !! target_logical_blk)
             else None) with
      | Some found => Ok (Some (xa_to_value found), source')
      | None => lookup_loop e v' source' target_logical_blk
      end
  end.

(** [scorw_lookup_physical_block] for an inode at version [ver] whose versions
    are held by [source]: the inode itself for a parent, the inode of the parent
    for a child.  [None] is a child whose parent has no scorw inode. *)
Definition scorw_lookup_physical_block (e : venv) (ver : Z) (source : option vstate)
    (target_logical_blk : Z) : outcome (Z * option vstate) :=
  match source with
  | None => Ok (0, None)
  | Some src =>
      r ← lookup_loop e (Z.to_nat ver) src target_logical_blk;
      match r with
      | (Some p, src') => Ok (p, Some src')
      | (None, src') =>
          let logical_size := par_org src' / PAGE_SIZE in
          Ok (if target_logical_blk <? logical_size then target_logical_blk else BLK_NOT_FOUND, Some src')
      end
  end.

(** [scorw_record_write]; [pad2] is the [padding2] field, which the function
    leaves uninitialised. *)
Definition scorw_record_write (e : venv) (s : vstate) (logical_blk physical_blk len status pad2 : Z) : outcome (Z * vstate) :=
  let curr_version := if status =? SET_TRANSACTION then version s + 1 else version s in
  r ← scorw_get_or_create_version e s curr_version;
  let '(active_v, s1) := r in
  if negb active_v then Ok (- ENOMEM, s1)
  else
    let s2 := set_states s1 (alter (store_blocks (fun i => u64 (logical_blk + i)) physical_blk len)
                               (curr_version - 1) (version_states s1)) in
    match i_log s2 with
    | None => Ok (0, s2)
    | Some m =>
        let record := LogRecord (u32 curr_version) (u32 logical_blk) (u64 physical_blk) (u32 len) 0 pad2 in
        m' ← write_offset_log (ve_io e) m (i_size m) (encode_record record);
        Ok (0, set_log s2 (Some m'))
    end.

(** [scorw_cleanup_versions]: drop every delta map; the log inode goes to the
    list of logs to sync, or is released when that allocation fails. *)
Definition scorw_cleanup_versions (e : venv) (s : vstate) (pending_log_sync : list mapping) : vstate * list mapping :=
  let s1 := VState (version s) ∅ (loaded_versions s) 0 0 None (par_org s) in
  match i_log s with
  | None => (s1, pending_log_sync)
  | Some m => (s1, if ve_kzalloc e then pending_log_sync ++ [m] else pending_log_sync)
  end.

(** ** The specification: what the log says a version sees *)

(** The delta map of version [v], as the log defines it. *)
Definition replay_map (recs : list scorw_log_record) (v : Z) : gmap Z Z :=
  foldl (fun dm r => replay_record v r dm) ∅ recs.

(** The newest version at most [v] (and at most [MAX_VERSIONS]) whose delta map
    has the block decides. *)
Fixpoint spec_find (recs : list scorw_log_record) (v : nat) (blk : Z) : option Z :=
  match v with
  | O => None
  | S v' =>
      match (if bool_decide (Z.of_nat v <= MAX_VERSIONS) then replay_map recs (Z.of_nat v) !! blk else None) with
      | Some found => Some (xa_to_value found)
      | None => spec_find recs v' blk
      end
  end.

Definition spec_lookup (recs : list scorw_log_record) (orig v blk : Z) : Z :=
  match spec_find recs (Z.to_nat v) blk with
  | Some p => p
  | None => if blk <? orig / PAGE_SIZE then blk else BLK_NOT_FOUND
  end.

(** ** The invariant *)

(** Nothing of the log lies past its end on disk. *)
Definition log_disk_ok (m : mapping) : Prop :=
  forall i, i_size m <= i * PAGE_SIZE -> disk m !! i = None.

(** The log is whole; the FIFO accounts for every resident version; each
    resident delta map is the one the log defines; once a version has been
    loaded the page of the next record is at hand. *)
Record versions_wf (s : vstate) (m : mapping) : Prop := {
  vw_log : i_log s = Some m;
  vw_logwf : log_wf m;
  vw_len : length (loaded_versions s) = 4%nat;
  vw_count : 0 <= loaded_version_count s <= MAX_RAM_VERSIONS;
  vw_head : 0 <= fifo_head s < MAX_RAM_VERSIONS;
  vw_loaded : forall idx, is_Some (version_states s !! idx) ->
    exists k, (Z.of_nat k < loaded_version_count s) /\ loaded_versions s !! k = Some (idx + 1);
  vw_range : forall idx, is_Some (version_states s !! idx) -> 0 <= idx < MAX_VERSIONS;
  vw_coherent : forall idx dm, version_states s !! idx = Some dm -> dm = replay_map (log_records m) (idx + 1);
  vw_disk : log_disk_ok m;
  vw_ready : forall idx, is_Some (version_states s !! idx) -> tail_ready m
}.

(** Two files with the same contents. *)
Definition same_file (m m' : mapping) : Prop :=
  i_size m' = i_size m /\ disk m' = disk m /\ (forall i, file_page m' i = file_page m i).

Lemma same_file_refl m : same_file m m.
Proof. done. Qed.
Lemma same_file_trans m1 m2 m3 : same_file m1 m2 -> same_file m2 m3 -> same_file m1 m3.
Proof. intros (? & ? & H1) (? & ? & H2). split_and!; congruence. Qed.
Lemma same_file_records m m' : same_file m m' -> log_records m' = log_records m.
Proof. intros (? & ? & ?). by apply log_records_ext. Qed.
#[export] Hint Resolve same_file_refl same_file_trans : scorw.

(** An environment whose log is readable and whose page cache works; memory for
    a new delta map may be refused. *)
Definition venv_mem (k : bool) : venv := VEnv k (fun _ => true) io_ok.

(** ** Lemmas: xarray values *)

Lemma xa_value_roundtrip v : 0 <= v < 2 ^ 63 -> xa_to_value (xa_mk_value v) = v.
Proof.
  intros Hv. unfold xa_to_value, xa_mk_value.
  assert (Z.lor (Z.shiftl v 1) 1 = 2 * v + 1) as ->.
  { rewrite Z.shiftl_mul_pow2 by lia. change (2 ^ 1) with 2. rewrite Z.mul_comm.
    destruct v; [done|done|lia]. }
  change (2 ^ 63) with 9223372036854775808 in *.
  rewrite u64_small by (change (2 ^ 64) with 18446744073709551616; lia).
  rewrite Z.shiftr_div_pow2 by lia. change (2 ^ 1) with 2. Z.to_euclidean_division_equations. lia.
Qed.

(** ** Lemmas: delta maps *)

(** Storing an extent: the blocks of the extent get their physical block, the
    others keep what they had. *)
Lemma store_blocks_lookup (l p len : Z) dm b :
  store_blocks (fun i => l + i) p len dm !! b =
  if bool_decide (l <= b < l + len) then Some (xa_mk_value (u64 (p + (b - l)))) else dm !! b.
Proof.
  unfold store_blocks.
  assert (forall n, foldl (fun dm i => <[l + i := xa_mk_value (u64 (p + i))]> dm) dm (zseq 0 n) !! b =
    if bool_decide (l <= b < l + Z.of_nat n) then Some (xa_mk_value (u64 (p + (b - l)))) else dm !! b) as H.
  { induction n as [|n IH]; [rewrite bool_decide_false by lia; done|].
    rewrite zseq_snoc, foldl_app. cbn [foldl]. rewrite lookup_insert, IH, Z.add_0_l.
    destruct (decide (l + Z.of_nat n = b)) as [Hd|Hd]; [|repeat case_bool_decide; try done; lia].
    rewrite bool_decide_true by lia. do 3 f_equal. lia. }
  rewrite H. repeat case_bool_decide; try done; lia.
Qed.

Lemma store_blocks_key key1 key2 p len dm :
  (forall i, 0 <= i < len -> key1 i = key2 i) -> store_blocks key1 p len dm = store_blocks key2 p len dm.
Proof.
  intros H. unfold store_blocks.
  assert (forall i, i ∈ zseq 0 (Z.to_nat len) -> key1 i = key2 i) as H'.
  { intros i Hi%elem_of_zseq. apply H. lia. }
  revert dm H'. generalize (zseq 0 (Z.to_nat len)).
  induction l as [|a l IH]; intros dm H'; [done|]. simpl.
  rewrite (H' a) by apply list_elem_of_here. apply IH. intros i Hi. apply H'. by right.
Qed.

Lemma replay_map_snoc recs r v : replay_map (recs ++ [r]) v = replay_record v r (replay_map recs v).
Proof. unfold replay_map. by rewrite foldl_app. Qed.

(** What one more record does to the delta map of a version. *)
Lemma replay_map_append recs c l p len pad2 v b :
  0 <= c < 2 ^ 32 -> 0 <= v < 2 ^ 32 -> 0 <= l -> l + len <= 2 ^ 32 ->
  replay_map (recs ++ [LogRecord c l p len 0 pad2]) v !! b =
  if bool_decide (v = c /\ l <= b < l + len) then Some (xa_mk_value (u64 (p + (b - l))))
  else replay_map recs v !! b.
Proof.
  intros Hc Hv Hl Hb. rewrite replay_map_snoc. unfold replay_record. cbn [version_num logical_start_blk physical_start_blk len_blks].
  rewrite (u32_small v) by done. destruct (Z.eqb_spec c v) as [->|Hne].
  2: { rewrite bool_decide_false by naive_solver. done. }
  rewrite (store_blocks_key _ (fun i => l + i)) by (intros; apply u32_small; lia).
  rewrite store_blocks_lookup. by repeat case_bool_decide; naive_solver.
Qed.

(** ** Lemmas: replaying the log *)

Lemma foldl_fmap_Some {A B} (f : A -> B -> B) (l : list A) (b : B) :
  foldl (fun v a => f a <$> v) (Some b) l = Some (foldl (fun v a => f a v) b l).
Proof. revert b. induction l as [|a l IH]; intros b; [done|]. apply IH. Qed.

(** A replay folds the records of the version into its delta map, in order,
    leaves the log as it was, and brings its last page into the cache. *)
Lemma replay_spec k s m v dm :
  i_log s = Some m -> log_wf m -> log_disk_ok m -> version_states s !! (v - 1) = Some dm ->
  exists m', scorw_replay_log_version (venv_mem k) s v =
      Ok (set_log (set_states s (<[v - 1 := foldl (fun dm r => replay_record v r dm) dm (log_records m)]>
            (version_states s))) (Some m')) /\
    same_file m m' /\ log_wf m' /\ tail_ready m'.
Proof.
  intros Hl Hw Hd Hv. unfold scorw_replay_log_version. rewrite Hl, Hv. cbn [ve_rd venv_mem].
  pose proof (wf_size _ (lw_mapping _ Hw)) as H0.
  destruct (scan_log_spec (fun rec v0 => replay_record v rec <$> v0) (scan_fuel (i_size m)) m 0 (Some dm) Hw)
    as (m' & Hr & Hw' & Hs & Hdk & Hp & _ & Hc).
  { lia. }
  { unfold sizeof_record. lia. }
  { unfold scan_fuel. rewrite Z.sub_0_r. lia. }
  rewrite Z.mul_0_r in Hr. rewrite Hr, records_left_0, foldl_fmap_Some. cbn [mbind outcome_bind].
  exists m'. split_and!; [done|done|done|]. unfold tail_ready. rewrite Hs, Hdk, shiftr_page.
  destruct (decide (i_size m mod PAGE_SIZE = 0)) as [He|He].
  - right. split; [done|]. apply Hd. unfold PAGE_SIZE in *. Z.to_euclidean_division_equations. lia.
  - left. apply Hc; unfold PAGE_SIZE, sizeof_record in *; Z.to_euclidean_division_equations; lia.
Qed.

Lemma log_disk_same m m' : same_file m m' -> log_disk_ok m -> log_disk_ok m'.
Proof. intros (Hs & Hd & _) H i. rewrite Hs, Hd. apply H. Qed.

(** ** Lemmas: the FIFO *)

Lemma fifo_enter_log s v : i_log (fifo_enter s v) = i_log s /\ version (fifo_enter s v) = version s /\
  par_org (fifo_enter s v) = par_org s.
Proof. unfold fifo_enter. by destruct (_ =? _). Qed.

(** Entering a version keeps the invariant, and leaves a place for it. *)
Lemma fifo_enter_wf s m v :
  versions_wf s m -> versions_wf (fifo_enter s v) m /\
  exists k, Z.of_nat k < loaded_version_count (fifo_enter s v) /\ loaded_versions (fifo_enter s v) !! k = Some v.
Proof.
  intros []. unfold fifo_enter. unfold MAX_RAM_VERSIONS in *. destruct (Z.eqb_spec (loaded_version_count s) 4) as [Hc|Hc].
  - set (ev := loaded_versions s !!! Z.to_nat (fifo_head s)).
    assert (loaded_versions s !! Z.to_nat (fifo_head s) = Some ev) as Hev
      by (apply list_lookup_lookup_total_lt; lia).
    split.
    + split; simpl; auto.
      * by rewrite length_insert.
      * apply Z.mod_pos_bound. by compute.
      * intros idx Hi. destruct (decide (ev - 1 = idx)) as [<-|Hne]; [by rewrite lookup_delete_eq in Hi; destruct Hi|].
        rewrite lookup_delete_ne in Hi by done. destruct (vw_loaded0 idx Hi) as (k & Hk & Hlk).
        exists k. split; [done|]. rewrite list_lookup_insert_ne; [done|]. intros <-.
        rewrite Hev in Hlk. injection Hlk. lia.
      * intros idx [dm Hi]. apply lookup_delete_Some in Hi as [_ Hi]. eauto.
      * intros idx dm Hi. apply lookup_delete_Some in Hi as [_ Hi]. eauto.
      * intros idx [dm Hi]. apply lookup_delete_Some in Hi as [_ Hi]. eauto.
    + exists (Z.to_nat (fifo_head s)). cbn [loaded_version_count loaded_versions set_fifo set_states]. split; [lia|].
      apply list_lookup_insert_eq. lia.
  - split.
    + split; simpl; auto.
      * by rewrite length_insert.
      * unfold MAX_RAM_VERSIONS. lia.
      * intros idx Hi. destruct (vw_loaded0 idx Hi) as (k & Hk & Hlk).
        exists k. split; [lia|]. by rewrite list_lookup_insert_ne by lia.
    + exists (Z.to_nat (loaded_version_count s)). cbn [loaded_version_count loaded_versions set_fifo]. split; [lia|].
      apply list_lookup_insert_eq. lia.
Qed.

(** ** Lemmas: loading a version *)

(** The parts of the state that loading versions does not touch. *)
Definition same_versions (s s' : vstate) : Prop :=
  version s' = version s /\ par_org s' = par_org s.

Lemma load_wf s m m' v :
  versions_wf s m -> same_file m m' -> log_wf m' -> tail_ready m' -> 1 <= v <= MAX_VERSIONS ->
  (exists k, Z.of_nat k < loaded_version_count s /\ loaded_versions s !! k = Some v) ->
  versions_wf (set_log (set_states s (<[v - 1 := replay_map (log_records m) v]> (version_states s))) (Some m')) m'.
Proof.
  intros [] Hsame Hw' Ht' Hv Hk. pose proof (same_file_records _ _ Hsame) as Hr.
  split; simpl; auto.
  - intros idx. rewrite lookup_insert. case_decide; [|eauto]. subst. intros _.
    by replace (v - 1 + 1) with v by lia.
  - intros idx. rewrite lookup_insert. case_decide; [|eauto]. lia.
  - intros idx dm. rewrite lookup_insert, Hr. case_decide; [|eauto]. subst. intros [= <-].
    by replace (v - 1 + 1) with v by lia.
  - by eapply log_disk_same.
Qed.

Lemma get_or_create_spec k s m v :
  versions_wf s m ->
  exists b s' m', scorw_get_or_create_version (venv_mem k) s v = Ok (b, s') /\
    versions_wf s' m' /\ same_file m m' /\ same_versions s s' /\
    (b = true -> 1 <= v <= MAX_VERSIONS /\ version_states s' !! (v - 1) = Some (replay_map (log_records m) v)) /\
    (b = false -> 1 <= v <= MAX_VERSIONS -> k = false).
Proof.
  intros Hwf. unfold scorw_get_or_create_version.
  destruct (Z.ltb_spec (v - 1) 0) as [H1|H1]; simpl.
  { exists false, s, m. split_and!; auto with scorw; try done. lia. }
  destruct (Z.leb_spec MAX_VERSIONS (v - 1)) as [H2|H2].
  { exists false, s, m. split_and!; auto with scorw; try done. lia. }
  destruct (version_states s !! (v - 1)) as [dm|] eqn:Hv.
  { exists true, s, m. split_and!; auto with scorw; try done. intros _. split; [lia|].
    rewrite Hv, (vw_coherent _ _ Hwf _ _ Hv). by replace (v - 1 + 1) with v by lia. }
  destruct (fifo_enter_wf s m v Hwf) as [Hwf1 Hk]. destruct (fifo_enter_log s v) as (Hl & Hver & Hpo).
  set (s1 := fifo_enter s v) in *. destruct k; cbn [ve_kzalloc venv_mem negb].
  2: { exists false, s1, m. by split_and!; auto with scorw. }
  destruct (replay_spec true (set_states s1 (<[v - 1:=∅]> (version_states s1))) m v ∅) as (m' & Hr & Hsm & Hw' & Ht').
  { simpl. by rewrite Hl, (vw_log _ _ Hwf). }
  { apply Hwf. }
  { apply Hwf. }
  { simpl. apply lookup_insert_eq. }
  fold (venv_mem true). rewrite Hr. cbn [mbind outcome_bind]. unfold set_log, set_states. simpl.
  rewrite insert_insert_eq. fold (replay_map (log_records m) v).
  exists true. eexists _, m'. split_and!; [done| |done|done| |done].
  - by apply (load_wf s1 m m' v); try done; lia.
  - intros _. split; [lia|]. simpl. apply lookup_insert_eq.
Qed.

(** ** Lemmas: lookups *)

Lemma same_versions_trans s1 s2 s3 : same_versions s1 s2 -> same_versions s2 s3 -> same_versions s1 s3.
Proof. intros [] []. split; congruence. Qed.
#[export] Hint Resolve same_versions_trans : scorw.

Lemma lookup_loop_spec v s m b :
  versions_wf s m ->
  exists s' m', lookup_loop venv_ok v s b = Ok (spec_find (log_records m) v b, s') /\
    versions_wf s' m' /\ same_file m m' /\ same_versions s s'.
Proof.
  revert s m. induction v as [|v IH]; intros s m Hwf.
  { exists s, m. by split_and!; auto with scorw. }
  cbn [lookup_loop]. fold (venv_mem true). change venv_ok with (venv_mem true).
  destruct (get_or_create_spec true s m (Z.of_nat (S v)) Hwf) as (sv & s1 & m1 & -> & Hwf1 & Hs1 & Hv1 & Ht & Hf).
  cbn [mbind outcome_bind spec_find]. destruct (IH s1 m1 Hwf1) as (s' & m' & Hr & Hwf' & Hs' & Hv').
  rewrite (same_file_records _ _ Hs1) in Hr. change (venv_mem true) with venv_ok. destruct sv.
  - destruct Ht as [Hle Hst]; [done|]. rewrite Hst, bool_decide_true by lia. simpl.
    destruct (replay_map (log_records m) _ !! b) eqn:E; [by exists s1, m1|].
    exists s', m'. split_and!; eauto with scorw.
  - rewrite bool_decide_false by (intros ?; specialize (Hf eq_refl); lia || (discriminate Hf; lia)).
    exists s', m'. split_and!; eauto with scorw.
Qed.

(** ** Lemmas: recording a write *)

(** The version a write is recorded under. *)
Definition write_version (s : vstate) (status : Z) : Z :=
  if status =? SET_TRANSACTION then version s + 1 else version s.

(** The arguments of a write the encoding can hold: 32-bit logical blocks and
    63-bit physical ones. *)
Record write_args_ok (l p len pad2 : Z) : Prop := {
  wa_logical : 0 <= l;
  wa_len : 0 <= len;
  wa_lend : l + len < 2 ^ 32;
  wa_physical : 0 <= p;
  wa_pend : p + len < 2 ^ 63;
  wa_pad : 0 <= pad2 < 2 ^ 64
}.

Lemma write_record_wf c l p len pad2 :
  write_args_ok l p len pad2 -> 1 <= c <= MAX_VERSIONS -> record_wf (LogRecord c l p len 0 pad2).
Proof.
  unfold MAX_VERSIONS. intros [] ?.
  split; cbn [version_num logical_start_blk physical_start_blk len_blks padding padding2]; lia.
Qed.

(** Loading keeps the invariant when the log grows by the record whose blocks
    were stored. *)
Lemma record_wf_step s m m' c l p len pad2 :
  versions_wf s m -> write_args_ok l p len pad2 -> 1 <= c <= MAX_VERSIONS ->
  version_states s !! (c - 1) = Some (replay_map (log_records m) c) ->
  log_records m' = log_records m ++ [LogRecord c l p len 0 pad2] ->
  log_wf m' -> tail_ready m' -> log_disk_ok m' ->
  versions_wf (set_log (set_states s (alter (store_blocks (fun i => u64 (l + i)) p len) (c - 1)
    (version_states s))) (Some m')) m'.
Proof.
  intros [] Ha Hc Hst Hr Hw Ht Hd. pose proof (wa_logical _ _ _ _ Ha). pose proof (wa_lend _ _ _ _ Ha).
  assert (forall idx, is_Some (alter (store_blocks (fun i => u64 (l + i)) p len) (c - 1) (version_states s) !! idx) ->
    is_Some (version_states s !! idx)) as Hsome.
  { intros idx. rewrite lookup_alter. case_decide; subst; [by rewrite fmap_is_Some|done]. }
  split; simpl; auto. intros idx dm. rewrite lookup_alter, Hr, replay_map_snoc. case_decide as He.
  - subst idx. rewrite Hst. simpl. intros [= <-]. replace (c - 1 + 1) with c by lia.
    unfold replay_record. cbn [version_num logical_start_blk physical_start_blk len_blks].
    unfold MAX_VERSIONS in *. rewrite u32_small by lia. rewrite Z.eqb_refl. apply store_blocks_key.
    intros i Hi. rewrite u64_small, u32_small by lia. done.
  - intros Hi. rewrite (vw_coherent0 _ _ Hi). unfold replay_record. cbn [version_num].
    destruct (vw_range0 idx) as [? ?]; [by eexists|]. unfold MAX_VERSIONS in *. rewrite u32_small by lia.
    rewrite (proj2 (Z.eqb_neq _ _)) by lia. done.
Qed.

(** A write of a version that can be held appends one record, and keeps the
    delta maps coherent with the log. *)
Lemma record_write_spec s m l p len status pad2 :
  let c := write_version s status in
  versions_wf s m -> write_args_ok l p len pad2 -> 1 <= c <= MAX_VERSIONS ->
  exists s' m', scorw_record_write venv_ok s l p len status pad2 = Ok (0, s') /\
    versions_wf s' m' /\ same_versions s s' /\
    log_records m' = log_records m ++ [LogRecord c l p len 0 pad2].
Proof.
  cbv zeta. intros Hwf Ha Hc. unfold scorw_record_write. fold (write_version s status).
  set (c := write_version s status) in *. change venv_ok with (venv_mem true).
  destruct (get_or_create_spec true s m c Hwf) as (b & s1 & m1 & -> & Hwf1 & Hs1 & Hv1 & Ht & Hf).
  cbn [mbind outcome_bind]. destruct b; [|specialize (Hf eq_refl Hc); done]. cbn [negb].
  destruct Ht as [_ Hst]; [done|]. cbn [i_log set_states]. rewrite (vw_log _ _ Hwf1).
  pose proof (wa_logical _ _ _ _ Ha). pose proof (wa_lend _ _ _ _ Ha). pose proof (wa_len _ _ _ _ Ha).
  pose proof (write_record_wf c _ _ _ _ Ha Hc) as Hrw.
  pose proof (rw_physical _ Hrw) as Hp. cbn [physical_start_blk] in Hp.
  rewrite (u32_small c), (u32_small l), (u32_small len), (u64_small p) by (unfold MAX_VERSIONS in *; lia).
  destruct (append_record m1 _ (vw_logwf _ _ Hwf1) (vw_ready _ _ Hwf1 (c - 1) (mk_is_Some _ _ Hst)) Hrw)
    as (m' & Hm' & Hr & Hw' & Ht' & Hs' & Hd').
  { intros i Hi. apply (vw_disk _ _ Hwf1). rewrite shiftr_page in Hi. unfold PAGE_SIZE in *.
    Z.to_euclidean_division_equations. lia. }
  cbn [ve_io venv_mem]. rewrite Hm'. cbn [mbind outcome_bind].
  rewrite (same_file_records _ _ Hs1) in Hr.
  eexists _, m'. split_and!; [done| |done|done].
  apply (record_wf_step s1 m1 m' c l p len pad2); auto; rewrite ?(same_file_records _ _ Hs1); auto.
  intros i Hi. rewrite Hd'. apply (vw_disk _ _ Hwf1). unfold sizeof_record in *. lia.
Qed.

(** ** Lemmas: what a recorded write changes for readers *)

Lemma spec_find_append recs c l p len pad2 v b :
  write_args_ok l p len pad2 -> 1 <= c <= MAX_VERSIONS ->
  (Z.of_nat v < c \/ ~ l <= b < l + len) ->
  spec_find (recs ++ [LogRecord c l p len 0 pad2]) v b = spec_find recs v b.
Proof.
  intros Ha Hc Hor. destruct Ha. unfold MAX_VERSIONS in *. induction v as [|v IH]; [done|].
  cbn [spec_find]. rewrite IH by lia. unfold MAX_VERSIONS. case_bool_decide as Hv; [|done].
  rewrite replay_map_append by lia. by rewrite bool_decide_false by lia.
Qed.

Lemma spec_lookup_written recs orig c l p len pad2 b :
  write_args_ok l p len pad2 -> 1 <= c <= MAX_VERSIONS -> l <= b < l + len ->
  spec_lookup (recs ++ [LogRecord c l p len 0 pad2]) orig c b = p + (b - l).
Proof.
  intros Ha Hc Hb. destruct Ha. unfold spec_lookup, MAX_VERSIONS in *.
  destruct (Z.to_nat c) as [|v] eqn:Ev; [lia|]. cbn [spec_find].
  rewrite bool_decide_true by (unfold MAX_VERSIONS; lia).
  rewrite replay_map_append by lia. rewrite bool_decide_true by lia.
  change (2 ^ 63) with 9223372036854775808 in *.
  rewrite u64_small by (change (2 ^ 64) with 18446744073709551616; lia).
  apply xa_value_roundtrip. change (2 ^ 63) with 9223372036854775808. lia.
Qed.

Lemma lookup_physical_spec s m ver b :
  versions_wf s m ->
  exists s' m', scorw_lookup_physical_block venv_ok ver (Some s) b =
      Ok (spec_lookup (log_records m) (par_org s) ver b, Some s') /\
    versions_wf s' m' /\ same_file m m' /\ same_versions s s'.
Proof.
  intros Hwf. unfold scorw_lookup_physical_block, spec_lookup.
  destruct (lookup_loop_spec (Z.to_nat ver) s m b Hwf) as (s' & m' & -> & Hwf' & Hs & Hv & Hp).
  cbn [mbind outcome_bind]. exists s', m'. rewrite Hp.
  by destruct (spec_find _ _ _).
Qed.

(** ** Histories of version operations *)

(** The operations on the versions of an inode: looking a block up at some
    version, recording a write, and moving to another current version. *)
Inductive vstep : vstate -> vstate -> Prop :=
| step_lookup s ver b p s' :
    scorw_lookup_physical_block venv_ok ver (Some s) b = Ok (p, Some s') -> vstep s s'
| step_record s l p len status pad2 s' :
    write_args_ok l p len pad2 -> 1 <= write_version s status <= MAX_VERSIONS ->
    scorw_record_write venv_ok s l p len status pad2 = Ok (0, s') -> vstep s s'
| step_version s v : vstep s (set_version s v).

Lemma vstep_wf s m s' : versions_wf s m -> vstep s s' -> exists m', versions_wf s' m'.
Proof.
  intros Hwf Hs. destruct Hs as [s ver b p s' Hl|s l p len status pad2 s' Ha Hc Hr|s v].
  - destruct (lookup_physical_spec s m ver b Hwf) as (s1 & m1 & Hl' & Hwf1 & _).
    rewrite Hl' in Hl. injection Hl as <- <-. eauto.
  - destruct (record_write_spec s m l p len status pad2 Hwf Ha Hc) as (s1 & m1 & Hr' & Hwf1 & _).
    rewrite Hr' in Hr. injection Hr as <-. eauto.
  - exists m. by destruct Hwf.
Qed.

Lemma vsteps_wf s m s' : versions_wf s m -> rtc vstep s s' -> exists m', versions_wf s' m'.
Proof.
  intros Hwf Hr. revert m Hwf. induction Hr as [|x y z Hxy _ IH]; intros m Hwf; [eauto|].
  destruct (vstep_wf _ _ _ Hwf Hxy) as [m1 Hwf1]. eauto.
Qed.

Lemma resident_bound s m : versions_wf s m -> (size (version_states s) <= 4)%nat.
Proof.
  intros []. rewrite <- size_dom.
  transitivity (size (list_to_set (Z.pred <$> loaded_versions s) : gset Z)).
  - apply subseteq_size. intros idx Hi. apply elem_of_dom in Hi.
    destruct (vw_loaded0 _ Hi) as (k & _ & Hk). apply elem_of_list_to_set, list_elem_of_fmap.
    exists (idx + 1). split; [lia|]. by eapply list_elem_of_lookup_2.
  - etransitivity; [apply size_list_to_set_le|]. autorewrite with len. lia.
Qed.

(** A fresh inode: no version loaded. *)
Definition fresh_vstate (ver orig : Z) (m : mapping) : vstate :=
  VState ver ∅ (replicate 4 0) 0 0 (Some m) orig.

Lemma fresh_wf ver orig m : log_wf m -> log_disk_ok m -> versions_wf (fresh_vstate ver orig m) m.
Proof.
  intros ? ?. assert (forall idx : Z, ~ is_Some ((∅ : gmap Z (gmap Z Z)) !! idx)) as He.
  { intros idx. rewrite lookup_empty. by intros []. }
  split; simpl; try done.
  - intros idx Hi. by destruct (He idx).
  - intros idx Hi. by destruct (He idx).
  - intros idx Hi. by destruct (He idx).
Qed.

(** ** Properties *)

(** C5: A lookup refines the log: on a coherent inode
    [scorw_lookup_physical_block] returns, for every version and block, the
    block the newest record at or below that version assigns (found by the
    abstract [spec_lookup] on the records of the log), else the block itself
    inside the original size and [BLK_NOT_FOUND] past it; whatever versions it
    evicts and reloads on the way, the inode stays coherent and the log
    unchanged. *)
Theorem lookup_refines_log (s : vstate) (m : mapping) (ver blk : Z) :
  versions_wf s m ->
  exists s' m', scorw_lookup_physical_block venv_ok ver (Some s) blk =
      Ok (spec_lookup (log_records m) (par_org s) ver blk, Some s') /\
    versions_wf s' m' /\ log_records m' = log_records m.
Proof.
  intros Hwf. destruct (lookup_physical_spec s m ver blk Hwf) as (s' & m' & Hl & Hw & Hs & _).
  exists s', m'. split_and!; [done|done|]. by apply same_file_records.
Qed.

(** C8: Recording a write is isolated from older versions: it succeeds,
    appends exactly one log record, makes every block of the extent resolve to
    its new physical block at the version of the write, and leaves the
    resolution of every block at every older version, and of every block
    outside the extent at every version, as it was. *)
Theorem record_write_isolated (s : vstate) (m : mapping) (l p len status pad2 : Z) :
  versions_wf s m -> write_args_ok l p len pad2 -> 1 <= write_version s status <= MAX_VERSIONS ->
  exists s' m', scorw_record_write venv_ok s l p len status pad2 = Ok (0, s') /\ versions_wf s' m' /\
    length (log_records m') = S (length (log_records m)) /\
    (forall b, l <= b < l + len ->
       spec_lookup (log_records m') (par_org s') (write_version s status) b = p + (b - l)) /\
    (forall v b, v < write_version s status \/ ~ l <= b < l + len -> 0 <= v ->
       spec_lookup (log_records m') (par_org s') v b = spec_lookup (log_records m) (par_org s) v b).
Proof.
  intros Hwf Ha Hc. destruct (record_write_spec s m l p len status pad2 Hwf Ha Hc)
    as (s' & m' & Hr & Hw & [Hv Hpo] & Hrec).
  exists s', m'. rewrite Hrec, Hpo. split_and!; auto.
  - autorewrite with len. simpl. lia.
  - intros b Hb. by apply spec_lookup_written.
  - intros v b Hor Hv0. unfold spec_lookup. rewrite spec_find_append; auto. lia.
Qed.

(** C9: Starting from an inode with no version loaded, any sequence of
    lookups, recorded writes and version changes keeps the delta maps in RAM
    coherent with the log and never keeps more than [MAX_RAM_VERSIONS] of them
    resident. *)
Theorem resident_versions_bounded (ver orig : Z) (m : mapping) (s : vstate) :
  log_wf m -> log_disk_ok m -> rtc vstep (fresh_vstate ver orig m) s ->
  (Z.of_nat (size (version_states s)) <= MAX_RAM_VERSIONS) /\
  exists m', versions_wf s m'.
Proof.
  intros Hw Hd Hr. assert (exists m', versions_wf s m') as [m' Hm'].
  { eapply vsteps_wf; [|exact Hr]. by apply fresh_wf. }
  split; [|eauto]. pose proof (resident_bound _ _ Hm'). unfold MAX_RAM_VERSIONS. lia.
Qed.

(** Past [MAX_VERSIONS] versions a write cannot be recorded:
    [scorw_record_write] returns [-ENOMEM] and leaves the delta maps and the
    log as they were. *)
Theorem record_write_version_limit (e : venv) (s : vstate) (l p len status pad2 : Z) :
  MAX_VERSIONS < write_version s status ->
  scorw_record_write e s l p len status pad2 = Ok (- ENOMEM, s).
Proof.
  intros H. unfold scorw_record_write. fold (write_version s status).
  unfold scorw_get_or_create_version.
  rewrite (proj2 (Z.leb_le MAX_VERSIONS _)) by lia. by rewrite orb_true_r.
Qed.

Lemma scan_torn {S} (body : scorw_log_record -> S -> S) fuel m k (s : S) :
  0 <= k -> sizeof_record * k < i_size m -> i_size m mod sizeof_record <> 0 ->
  scan_log (fun _ => true) body fuel m (i_size m) (sizeof_record * k) s = Hang.
Proof.
  revert m k s. induction fuel as [|fuel IH]; intros m k s Hk Hlt Hm; unfold scan_log; fold (@scan_log S);
    rewrite (proj2 (Z.leb_gt _ _)) by done; [done|].
  unfold read_mapping_page. fold (visit_bytes (i_size m) k). rewrite page_records_visit by done.
  autorewrite with len. rewrite <- Z.mul_add_distr_l.
  destruct (visit_arith _ _ Hk Hlt) as (_ & Hn & _). cbv zeta in Hn.
  apply (IH (set_page m _ _) (k + Z.of_nat (visit (i_size m) k))); [lia| |done].
  cbn [i_size set_page]. unfold sizeof_record in *. Z.to_euclidean_division_equations. lia.
Qed.

(** The scan of a torn log (one whose size is not a whole number of
    records) never ends, whatever number of iterations it is given: the bytes
    of the partial record leave [offset] below the size for ever, so replaying
    any version of such a log hangs. *)
Theorem replay_torn_log_diverges (m : mapping) (s : vstate) (v : Z) (fuel : nat) :
  mapping_wf m -> i_size m mod sizeof_record <> 0 -> i_log s = Some m ->
  (forall dm : option (gmap Z Z), scan_log (fun _ => true) (fun rec d => replay_record v rec <$> d) fuel m (i_size m) 0 dm = Hang) /\
  scorw_replay_log_version venv_ok s v = Hang.
Proof.
  intros Hw Hm Hl. pose proof (wf_size _ Hw).
  assert (sizeof_record * 0 < i_size m).
  { unfold sizeof_record in *. destruct (decide (i_size m = 0)) as [E|]; [by rewrite E in Hm|lia]. }
  split.
  - intros dm. by apply (scan_torn _ fuel m 0).
  - unfold scorw_replay_log_version. rewrite Hl. cbn [ve_rd venv_ok].
    by rewrite (scan_torn (fun rec d => replay_record v rec <$> d) _ m 0 (version_states s !! (v - 1))).
Qed.

(** ** Witnesses *)

(** An empty log, and a log of one record and half of another. *)
Definition empty_log : mapping := Mapping 0 0 ∅ ∅.
Definition torn_log : mapping := Mapping 48 48 ∅ ∅.

Lemma empty_log_wf : log_wf empty_log.
Proof. split; [|done]. split; simpl; [lia|by intros ?? ?%lookup_empty_Some..]. Qed.
Lemma empty_log_disk : log_disk_ok empty_log.
Proof. intros i _. done. Qed.
Lemma torn_log_wf : mapping_wf torn_log.
Proof. split; simpl; [lia|by intros ?? ?%lookup_empty_Some..]. Qed.

Definition one_write : write_args_ok 3 9 2 0.
Proof. by split. Defined.

Lemma lookup_refines_log_witness :
  exists s' m', scorw_lookup_physical_block venv_ok 2 (Some (fresh_vstate 2 8192 empty_log)) 1 =
      Ok (1, Some s') /\ versions_wf s' m' /\ log_records m' = [].
Proof. apply (lookup_refines_log (fresh_vstate 2 8192 empty_log) empty_log 2 1), fresh_wf; [apply empty_log_wf|apply empty_log_disk]. Defined.

Lemma record_write_isolated_witness :
  exists s' m', scorw_record_write venv_ok (fresh_vstate 2 8192 empty_log) 3 9 2 SET_NORMAL_WRITE 0 = Ok (0, s') /\
    versions_wf s' m' /\ length (log_records m') = 1%nat /\
    (forall b, 3 <= b < 3 + 2 -> spec_lookup (log_records m') (par_org s') 2 b = 9 + (b - 3)) /\
    (forall v b, v < 2 \/ ~ 3 <= b < 3 + 2 -> 0 <= v ->
       spec_lookup (log_records m') (par_org s') v b = spec_lookup [] 8192 v b).
Proof.
  apply (record_write_isolated (fresh_vstate 2 8192 empty_log) empty_log 3 9 2 SET_NORMAL_WRITE 0);
    [apply fresh_wf; [apply empty_log_wf|apply empty_log_disk]|apply one_write|by compute].
Defined.

Lemma resident_versions_bounded_witness :
  Z.of_nat (size (version_states (set_version (fresh_vstate 2 8192 empty_log) 3))) <= MAX_RAM_VERSIONS /\
  exists m', versions_wf (set_version (fresh_vstate 2 8192 empty_log) 3) m'.
Proof.
  apply (resident_versions_bounded 2 8192 empty_log); [apply empty_log_wf|apply empty_log_disk|].
  apply rtc_once, step_version.
Defined.

Lemma record_write_version_limit_witness :
  scorw_record_write venv_ok (fresh_vstate 33 8192 empty_log) 3 9 2 SET_NORMAL_WRITE 0 =
  Ok (- ENOMEM, fresh_vstate 33 8192 empty_log).
Proof. apply (record_write_version_limit venv_ok). by compute. Defined.

Lemma replay_torn_log_diverges_witness :
  (forall dm : option (gmap Z Z), scan_log (fun _ => true) (fun rec d => replay_record 1 rec <$> d) 100 torn_log 48 0 dm = Hang) /\
  scorw_replay_log_version venv_ok (fresh_vstate 1 8192 torn_log) 1 = Hang.
Proof. apply (replay_torn_log_diverges torn_log); [apply torn_log_wf|by compute|done]. Defined.
