(* ===== verification/Txn.v ===== *)
(** Transactions on a parent file: the lock of [struct Transaction_locks] and
    its owner, beginning, committing and aborting a transaction
    ([scorw_set_transaction], [scorw_self_transaction_status],
    [scorw_set_transaction_error], [init_Transaction_locks]), moving a child to
    the version of its parent ([update_version]) ([corw_sparse.c]). *)

From S2P Require Import Prelude Pages Friend Log Versions.

(** ** State *)

(** [struct Transaction_locks]; [struct file] pointers are integers. *)
Record Transaction_locks := TLocks {
  transaction_lock : bool;
  owner : option Z;
  transaction : Z
}.

(** The part of a parent's [struct scorw_inode] transactions work on. *)
Record pinode := PInode { p_vs : vstate; t_locks : Transaction_locks }.

Definition set_locks (p : pinode) (t : Transaction_locks) : pinode := PInode (p_vs p) t.
Definition set_vs (p : pinode) (s : vstate) : pinode := PInode s (t_locks p).

(** ** Operations *)

Definition init_Transaction_locks (p : pinode) : pinode :=
  set_locks p (TLocks false None (-1)).

(** [scorw_self_transaction_status]; [None] is an inode without scorw inode. *)
Definition scorw_self_transaction_status (ino : option pinode) (file : Z) : Z :=
  match ino with
  | None => -1
  | Some p =>
      if negb (transaction_lock (t_locks p)) then -1
      else match owner (t_locks p) with
           | None => -1
           | Some f => if f =? file then transaction (t_locks p) else -1
           end
  end.

(** [filemap_write_and_wait] with [sync_inode_metadata]: the dirty pages below
    the end of the file and its size reach the disk. *)
Definition filemap_write_and_wait (m : mapping) : mapping :=
  Mapping (i_size m) (i_disksize m) (cache m)
    (filter (fun kv => kv.1 * PAGE_SIZE < i_size m) (cache m) ∪ disk m).

(** What a crash leaves of a file. *)
Definition crash (m : mapping) : mapping := Mapping (i_disksize m) (i_disksize m) ∅ (disk m).

(** [scorw_set_transaction].  The log inode is read through [scorw_inode]
    before it is tested for NULL.  [sig] says whether a signal arrives while
    the caller waits for the lock. *)
Definition scorw_set_transaction (sig : bool) (ino : option pinode) (file val : Z) : outcome (Z * option pinode) :=
  match ino with
  | None => Bug
  | Some p =>
      let tl := t_locks p in
      if (val =? SET_TRANSACTION) || (val =? SET_NORMAL_WRITE) then
        if scorw_self_transaction_status ino file =? val then Ok (-25, ino)
        else if transaction_lock tl then (if sig then Ok (-67, ino) else Hang)
        else Ok (0, Some (set_locks p (TLocks true (Some file) val)))
      else if val =? UNSET_TRANSACTION then
        if negb (transaction_lock tl) || negb (bool_decide (owner tl = Some file)) then Ok (-25, ino)
        else
          let vs' := if transaction tl =? SET_TRANSACTION
                     then set_log (set_version (p_vs p) (s32 (version (p_vs p) + 1)))
                            (filemap_write_and_wait <$> i_log (p_vs p))
                     else p_vs p in
          Ok (0, Some (PInode vs' (TLocks false None val)))
      else Ok (0, ino)
  end.

(** [scorw_set_transaction_error]: the abort of a transaction whose file is
    closed. *)
Definition scorw_set_transaction_error (ino : option pinode) (file : Z) : Z * option pinode :=
  match ino with
  | None => (- EINVAL, ino)
  | Some p =>
      if negb (transaction_lock (t_locks p)) then (- EPERM, ino)
      else if negb (bool_decide (owner (t_locks p) = Some file)) then (- EPERM, ino)
      else (0, Some (set_locks p (TLocks false None UNSET_TRANSACTION)))
  end.

(** A child's scorw inode, as [update_version] sees it: its version, and the
    [curr_version] attribute of the parent inode it is linked to. *)
Record cinode := CInode { c_version : Z; c_par_curr_version : option Z }.

Definition update_version (sci : option cinode) : Z * option cinode :=
  match sci with
  | None => (- EINVAL, None)
  | Some c =>
      match c_par_curr_version c with
      | None => (- ENOENT, Some c)
      | Some v => (0, Some (CInode (s32 v) (Some v)))
      end
  end.

(** ** Histories of lock operations *)

(** What a file can do to the lock: the ioctls that begin and end a transaction, the
    lock a write takes and releases, and the release of the file. *)
Inductive txn_call :=
| Begin
| Commit
| NormalWrite
| WriteDone
| Close.

Definition run_call (sig : bool) (ino : option pinode) (file : Z) (c : txn_call) : outcome (Z * option pinode) :=
  match c with
  | Begin => scorw_set_transaction sig ino file SET_TRANSACTION
  | Commit => scorw_set_transaction sig ino file UNSET_TRANSACTION
  | NormalWrite => scorw_set_transaction sig ino file SET_NORMAL_WRITE
  | WriteDone => scorw_set_transaction sig ino file UNSET_TRANSACTION
  | Close => Ok (if scorw_self_transaction_status ino file =? SET_TRANSACTION
                 then scorw_set_transaction_error ino file else (0, ino))
  end.

(** The lock is held exactly when it has an owner, and then for a transaction
    or for a write. *)
Record locks_wf (t : Transaction_locks) : Prop := {
  lk_held : transaction_lock t = true -> is_Some (owner t);
  lk_free : transaction_lock t = false -> owner t = None;
  lk_kind : transaction_lock t = true -> transaction t = SET_TRANSACTION \/ transaction t = SET_NORMAL_WRITE
}.

Lemma init_locks_wf p : locks_wf (t_locks (init_Transaction_locks p)).
Proof. by split. Qed.

Lemma set_transaction_wf sig p file val r p' :
  locks_wf (t_locks p) -> scorw_set_transaction sig (Some p) file val = Ok (r, Some p') -> locks_wf (t_locks p').
Proof.
  intros Hwf. unfold scorw_set_transaction.
  destruct (Z.eqb_spec val SET_TRANSACTION), (Z.eqb_spec val SET_NORMAL_WRITE); simpl;
    case_bools; try done; let E := fresh in intros E; injection E as <- <-; try done; split; simpl; by eauto.
Qed.

Lemma run_call_wf sig p file c r p' :
  locks_wf (t_locks p) -> run_call sig (Some p) file c = Ok (r, Some p') -> locks_wf (t_locks p').
Proof.
  intros Hwf. destruct c; cbn [run_call]; eauto using set_transaction_wf.
  unfold scorw_set_transaction_error. case_bools; let E := fresh in intros E; by injection E as <- <-.
Qed.

Lemma self_status_other p file :
  owner (t_locks p) <> Some file -> scorw_self_transaction_status (Some p) file = -1.
Proof.
  intros H. unfold scorw_self_transaction_status. destruct (negb _); [done|].
  destruct (owner (t_locks p)) as [f|]; [|done].
  destruct (Z.eqb_spec f file); congruence.
Qed.

(** A call by a file that does not own the held lock changes nothing. *)
Lemma run_call_not_owner sig p file c r p' :
  transaction_lock (t_locks p) = true -> owner (t_locks p) <> Some file ->
  run_call sig (Some p) file c = Ok (r, Some p') -> (c <> Close -> r <> 0) /\ p' = p.
Proof.
  intros Hl Ho. destruct c; cbn [run_call]; unfold scorw_set_transaction;
    rewrite ?self_status_other, ?Hl, ?(bool_decide_false (owner (t_locks p) = Some file)) by done;
    cbn; try destruct sig; try done; let E := fresh in intros E; by injection E as <- <-.
Qed.

(** ** Lemmas: durability of the log *)

Lemma file_page_crash_sync m i :
  0 <= i -> i * PAGE_SIZE < i_size m ->
  file_page (crash (filemap_write_and_wait m)) i = file_page m i.
Proof.
  intros Hi Hlt. unfold file_page, disk_page. simpl.
  destruct (cache m !! i) as [p|] eqn:E; simpl.
  - rewrite lookup_empty. simpl. erewrite lookup_union_Some_l; [done|].
    apply map_lookup_filter_Some. by split.
  - rewrite lookup_empty. simpl. rewrite lookup_union_r; [done|].
    apply map_lookup_filter_None. by left.
Qed.

(** After a sync, a crash loses no record. *)
Lemma sync_durable m :
  log_wf m -> i_disksize m = i_size m -> log_records (crash (filemap_write_and_wait m)) = log_records m.
Proof.
  intros Hwf Hd. unfold log_records. cbn [i_size crash filemap_write_and_wait i_disksize]. rewrite Hd.
  apply list_fmap_ext. intros j k Hk%list_elem_of_lookup_2%elem_of_zseq.
  unfold record_at. rewrite file_page_crash_sync; [done|..]; rewrite shiftr_page;
    unfold sizeof_record, PAGE_SIZE in *; Z.to_euclidean_division_equations; lia.
Qed.

Lemma sync_file_page m i : file_page (filemap_write_and_wait m) i = file_page m i.
Proof.
  unfold file_page, disk_page. simpl. destruct (cache m !! i) eqn:E; simpl; [done|].
  rewrite lookup_union_r; [done|]. apply map_lookup_filter_None. by left.
Qed.

Lemma sync_records m : log_records (filemap_write_and_wait m) = log_records m.
Proof. apply log_records_ext; [done|apply sync_file_page]. Qed.

Lemma sync_wf m : mapping_wf m -> mapping_wf (filemap_write_and_wait m).
Proof.
  intros []. split; simpl; auto. intros i p [Hl|[_ Hl]]%lookup_union_Some_raw; [|eauto].
  apply map_lookup_filter_Some in Hl as [Hl _]. eauto.
Qed.

Lemma sync_disk_none m i :
  i_size m <= i * PAGE_SIZE -> disk m !! i = None -> disk (filemap_write_and_wait m) !! i = None.
Proof.
  intros Hi Hn. simpl. apply lookup_union_None. split; [|done].
  apply map_lookup_filter_None. right. intros p _. simpl. lia.
Qed.

(** Syncing the log keeps the versions coherent. *)
Lemma sync_versions_wf s m v :
  versions_wf s m ->
  versions_wf (set_log (set_version s v) (filemap_write_and_wait <$> i_log s)) (filemap_write_and_wait m).
Proof.
  intros [Hlog Hlw Hlen Hcnt Hhead Hload Hrng Hcoh Hdsk Hrdy]. split; simpl; rewrite ?sync_records; eauto.
  - by rewrite Hlog.
  - destruct Hlw. split; [by apply sync_wf|done].
  - intros i Hi. apply sync_disk_none; [done|by apply Hdsk].
  - intros idx Hi. destruct (Hrdy idx Hi) as [Hc|[Hm Hn]]; [by left|right]. split; [done|].
    apply sync_disk_none; [|done]. simpl. rewrite shiftr_page. unfold PAGE_SIZE in *.
    Z.to_euclidean_division_equations. lia.
Qed.

(** ** Properties *)

(** C35: Committing a transaction is durable: on a coherent inode whose lock
    the file holds for a transaction, [scorw_set_transaction] with
    [UNSET_TRANSACTION] succeeds, releases the lock, moves the inode to the
    next version, keeps the versions coherent with an unchanged log, and after
    a crash the log still holds every record. *)
Theorem commit_durable (sig : bool) (p : pinode) (m : mapping) (file : Z) :
  versions_wf (p_vs p) m -> i_disksize m = i_size m ->
  t_locks p = TLocks true (Some file) SET_TRANSACTION -> 0 <= version (p_vs p) < 2 ^ 31 - 1 ->
  exists p' m', scorw_set_transaction sig (Some p) file UNSET_TRANSACTION = Ok (0, Some p') /\
    transaction_lock (t_locks p') = false /\ owner (t_locks p') = None /\
    version (p_vs p') = version (p_vs p) + 1 /\
    versions_wf (p_vs p') m' /\ log_records m' = log_records m /\ log_records (crash m') = log_records m.
Proof.
  intros Hwf Hd Hl Hv. unfold scorw_set_transaction. rewrite Hl. cbn. rewrite bool_decide_true by done.
  eexists _, (filemap_write_and_wait m). split_and!; [done|done|done| | | |].
  - cbn. apply s32_small. lia.
  - by apply sync_versions_wf.
  - apply sync_records.
  - apply sync_durable; [apply Hwf|done].
Qed.

(** Aborting does not undo: blocks written inside a transaction that is
    aborted (its file closed) stay in the delta map and the log under the next
    version, and become what that version resolves to as soon as an ordinary
    write to other blocks moves the inode to it. *)
Theorem aborted_write_resurfaces (p : pinode) (m : mapping) (file l q len pad l2 q2 len2 pad2 : Z) :
  let v := version (p_vs p) in
  versions_wf (p_vs p) m -> t_locks p = TLocks true (Some file) SET_TRANSACTION ->
  write_args_ok l q len pad -> write_args_ok l2 q2 len2 pad2 -> l + len <= l2 \/ l2 + len2 <= l ->
  0 <= v -> v + 1 <= MAX_VERSIONS ->
  exists s1 p2 s3 m3,
    scorw_record_write venv_ok (p_vs p) l q len SET_TRANSACTION pad = Ok (0, s1) /\
    run_call false (Some (set_vs p s1)) file Close = Ok (0, Some p2) /\ version (p_vs p2) = v /\
    scorw_record_write venv_ok (set_version (p_vs p2) (v + 1)) l2 q2 len2 SET_NORMAL_WRITE pad2 = Ok (0, s3) /\
    versions_wf s3 m3 /\ version s3 = v + 1 /\
    forall b, l <= b < l + len -> spec_lookup (log_records m3) (par_org s3) (v + 1) b = q + (b - l).
Proof.
  cbv zeta. intros Hwf Hl Ha1 Ha2 Hdis Hv0 Hv. set (v := version (p_vs p)) in *.
  destruct (record_write_spec (p_vs p) m l q len SET_TRANSACTION pad Hwf Ha1) as (s1 & m1 & Hr1 & Hwf1 & [Hv1 Hp1] & Hl1).
  { unfold write_version. cbn. fold v. lia. }
  assert (versions_wf (set_version s1 (v + 1)) m1) as Hwf2 by by destruct Hwf1.
  destruct (record_write_spec (set_version s1 (v + 1)) m1 l2 q2 len2 SET_NORMAL_WRITE pad2 Hwf2 Ha2)
    as (s3 & m3 & Hr3 & Hwf3 & [Hv3 Hp3] & Hl3).
  { unfold write_version. cbn. lia. }
  exists s1, (PInode s1 (TLocks false None UNSET_TRANSACTION)), s3, m3. split_and!; auto.
  - cbn [run_call]. unfold scorw_set_transaction_error, scorw_self_transaction_status. cbn [t_locks set_vs]. rewrite Hl.
    cbn. rewrite Z.eqb_refl, bool_decide_true by done. done.
  - intros b Hb. rewrite Hl3, Hl1.
    change (write_version (p_vs p) SET_TRANSACTION) with (v + 1).
    change (write_version (set_version s1 (v + 1)) SET_NORMAL_WRITE) with (v + 1).
    unfold spec_lookup. rewrite spec_find_append by (auto; lia). by apply spec_lookup_written; [|lia|].
Qed.

(** ** Witnesses *)

Definition txn_inode (ver : Z) (m : mapping) (t : Transaction_locks) : pinode := PInode (fresh_vstate ver 8192 m) t.

Lemma commit_durable_witness :
  let p := txn_inode 3 empty_log (TLocks true (Some 7) SET_TRANSACTION) in
  exists p' m', scorw_set_transaction false (Some p) 7 UNSET_TRANSACTION = Ok (0, Some p') /\
    transaction_lock (t_locks p') = false /\ owner (t_locks p') = None /\ version (p_vs p') = 4 /\
    versions_wf (p_vs p') m' /\ log_records m' = [] /\ log_records (crash m') = [].
Proof.
  apply (commit_durable false (txn_inode 3 empty_log (TLocks true (Some 7) SET_TRANSACTION)) empty_log 7); try done.
  apply fresh_wf; [apply empty_log_wf|apply empty_log_disk].
Defined.

Lemma two_writes : write_args_ok 3 9 2 0 /\ write_args_ok 0 11 1 0.
Proof. by split; split. Qed.

Lemma aborted_write_resurfaces_witness :
  let p := txn_inode 3 empty_log (TLocks true (Some 7) SET_TRANSACTION) in
  exists s1 p2 s3 m3,
    scorw_record_write venv_ok (p_vs p) 3 9 2 SET_TRANSACTION 0 = Ok (0, s1) /\
    run_call false (Some (set_vs p s1)) 7 Close = Ok (0, Some p2) /\ version (p_vs p2) = 3 /\
    scorw_record_write venv_ok (set_version (p_vs p2) 4) 0 11 1 SET_NORMAL_WRITE 0 = Ok (0, s3) /\
    versions_wf s3 m3 /\ version s3 = 4 /\
    forall b, 3 <= b < 3 + 2 -> spec_lookup (log_records m3) (par_org s3) 4 b = 9 + (b - 3).
Proof.
  apply (aborted_write_resurfaces (txn_inode 3 empty_log (TLocks true (Some 7) SET_TRANSACTION)) empty_log 7 3 9 2 0 0 11 1 0);
    try done; try apply two_writes; [|by right].
  apply fresh_wf; [apply empty_log_wf|apply empty_log_disk].
Defined.
