(* ===== verification/SeeThru.v ===== *)
(** Reads and writes of a see-through parent: the copy-on-write redirection of
    a write ([scorw_write_see_thru_ro]), the page-by-page writer it feeds
    ([scorw_generic_perform_write], [file.c]), the vectored write ioctl
    ([scorw_ioctl_see_thru_writev]) and the versioned read
    ([scorw_read_from_parent]; its caller is in [ChildRead]). *)

From S2P Require Import Prelude Pages Friend Log Versions Txn.

Definition EINTR : Z := 4.

(** ** State *)

(** A parent file: its scorw inode and its data. *)
Record sfile := SFile { sf_p : pinode; sf_m : mapping }.

(** What the writer calls on a parent for its children: the read barrier around
    the write, and the preservation of the old page, which is told the size of
    the parent, the position and length of the write, whether the page was up to
    date in the cache, and its contents.  [S] is the state of the children. *)
Record par_hooks (S : Type) := ParHooks {
  rb_begin : Z -> S -> outcome S;
  wr_par : Z -> Z -> Z -> bool -> page -> S -> outcome S;
  rb_end : Z -> S -> outcome S
}.
Arguments rb_begin {S}.
Arguments wr_par {S}.
Arguments rb_end {S}.

(** Answers of the environment to a write: the page cache, a fatal signal at a
    file position, and the bytes [copy_page_from_iter_atomic] copies. *)
Record wenv := WEnv { we_io : io_env; we_signal : Z -> bool; we_copied : Z -> Z -> Z }.
Definition wenv_ok : wenv := WEnv io_ok (fun _ => false) (fun _ bytes => bytes).

(** ** The page-by-page writer *)

(** The [do ... while] loop of [scorw_generic_perform_write] on a single user
    segment.  Every iteration that copies something shortens the buffer, so the
    length of the buffer is enough fuel. *)
Fixpoint perform_write_loop {S} (e : wenv) (h : par_hooks S) (write_to_par : bool) (fuel : nat)
    (m : mapping) (pos : Z) (buf : list Z) (written : Z) (st : S) : outcome (Z * mapping * S) :=
  match fuel with
  | O => Hang
  | Datatypes.S fuel' =>
      let finish status m st := Ok (if written =? 0 then status else written, m, st) in
      let offset := Z.land pos (PAGE_SIZE - 1) in
      let bytes := Z.min (PAGE_SIZE - offset) (Z.of_nat (length buf)) in
      if we_signal e pos then finish (- EINTR) m st
      else
        let blk_num := u32 (Z.shiftr offset PAGE_SHIFT) in
        let last_block_eligible_for_copy := u32 (Z.shiftr (i_size m - 1) PAGE_SHIFT) in
        let is_append_op := write_to_par && (last_block_eligible_for_copy <? blk_num) in
        let hooked := write_to_par && negb is_append_op in
        st1 ← (if hooked then rb_begin h blk_num st else Ok st);
        match scorw_da_write_begin (we_io e) m pos bytes with
        | (status, None, m1) => finish status m1 st1
        | (_, Some idx, m1) =>
            st2 ← (if hooked then wr_par h (i_size m1) pos bytes (bool_decide (is_Some (cache m !! idx))) (file_page m1 idx) st1 else Ok st1);
            let copied := we_copied e pos bytes in
            let m2 := set_page m1 idx (page_write (file_page m1 idx) offset (take (Z.to_nat copied) buf)) in
            let (status, m3) := scorw_da_write_end (we_io e) m2 pos bytes copied in
            st3 ← (if hooked then rb_end h blk_num st2 else Ok st2);
            if status <? 0 then finish status m3 st3
            else if status =? 0 then perform_write_loop e h write_to_par fuel' m3 pos buf written st3
            else
              let buf' := drop (Z.to_nat status) buf in
              if Z.of_nat (length buf') =? 0 then Ok (written + status, m3, st3)
              else perform_write_loop e h write_to_par fuel' m3 (pos + status) buf' (written + status) st3
        end
  end.

(** ** The redirection of a see-through write *)

(** [scorw_write_see_thru_ro] on the write of [count] bytes at [pos] by [file]:
    the position the data must go to.  [None] is a file without scorw inode,
    whose parent size is read before the pointer is tested. *)
Definition scorw_write_see_thru_ro (e : wenv) (ve : venv) (sig : bool) (f : option sfile)
    (file pos count pad2 : Z) : outcome (Z * option sfile) :=
  match f with
  | None => Bug
  | Some f =>
      let target_logical_blk := pos / PAGE_SIZE in
      let start_blk := s32 (pos / PAGE_SIZE) in
      let end_blk := s32 ((pos + count - 1) / PAGE_SIZE) in
      let logical_size := par_org (p_vs (sf_p f)) in
      let nr_blk := u32 (end_blk - start_blk + 1) in
      r0 ← (if scorw_self_transaction_status (Some (sf_p f)) file =? SET_TRANSACTION
            then Ok (0, Some (sf_p f), SET_TRANSACTION)
            else r ← scorw_set_transaction sig (Some (sf_p f)) file SET_NORMAL_WRITE;
                 Ok (r.1, r.2, SET_NORMAL_WRITE));
      match r0 with
      | (error, Some p1, status) =>
          if negb (error =? 0) then Ok (- EIO, Some (SFile p1 (sf_m f)))
          else
            let m := sf_m f in
            let append_pos := Z.land (i_size m + PAGE_SIZE - 1) (Z.lnot (PAGE_SIZE - 1)) in
            let appended_ext4_blk := append_pos / PAGE_SIZE in
            r1 ← scorw_lookup_physical_block ve (version (p_vs p1)) (Some (p_vs p1)) target_logical_blk;
            match r1 with
            | (to_write_block, Some vs1) =>
                let p2 := set_vs p1 vs1 in
                let start_page_idx := pos / PAGE_SIZE in
                let end_page_idx := (pos + count - 1) / PAGE_SIZE in
                let copy_helper := end_page_idx - start_page_idx in
                let copying := negb (to_write_block =? BLK_NOT_FOUND) || (pos <? logical_size) in
                r2 ← (if copying && (negb (pos mod PAGE_SIZE =? 0)
                                     || ((copy_helper =? 0) && negb ((pos + count) mod PAGE_SIZE =? 0)))
                      then scorw_internal_copy_blocks (we_io e) m (s64 (to_write_block * PAGE_SIZE)) append_pos PAGE_SIZE
                      else Ok (0, m));
                if r2.1 <? 0 then Ok (pos, Some (SFile p2 r2.2))
                else
                  r3 ← (if copying && negb ((pos + count) mod PAGE_SIZE =? 0) && (0 <? copy_helper)
                             && (end_page_idx * PAGE_SIZE <? logical_size)
                        then scorw_internal_copy_blocks (we_io e) r2.2 (end_page_idx * PAGE_SIZE)
                               (append_pos + copy_helper * PAGE_SIZE) PAGE_SIZE
                        else Ok (0, r2.2));
                  if r3.1 <? 0 then Ok (pos, Some (SFile p2 r3.2))
                  else
                    let vs2 := if status =? SET_NORMAL_WRITE
                               then set_version vs1 (s32 (version vs1 + 1)) else vs1 in
                    r4 ← scorw_record_write ve vs2 target_logical_blk appended_ext4_blk nr_blk status pad2;
                    let p3 := set_vs p2 r4.2 in
                    if status =? SET_NORMAL_WRITE then
                      r5 ← scorw_set_transaction sig (Some p3) file UNSET_TRANSACTION;
                      match r5 with
                      | (error, Some p4) =>
                          Ok (if error =? 0 then append_pos + pos mod PAGE_SIZE else - EIO, Some (SFile p4 r3.2))
                      | (_, None) => Bug
                      end
                    else Ok (append_pos + pos mod PAGE_SIZE, Some (SFile p3 r3.2))
            | (_, None) => Bug
            end
      | (_, None, _) => Bug
      end
  end.

(** [scorw_generic_perform_write] on a parent in see-through mode
    ([see_thru_ro]) or another file. *)
Definition scorw_generic_perform_write {S} (e : wenv) (ve : venv) (h : par_hooks S) (sig see_thru_ro write_to_par : bool)
    (f : sfile) (file pos : Z) (buf : list Z) (pad2 : Z) (st : S) : outcome (Z * sfile * S) :=
  r ← (if see_thru_ro
       then scorw_write_see_thru_ro e ve sig (Some f) file pos (Z.of_nat (length buf)) pad2
       else Ok (pos, Some f));
  match r with
  | (pos', Some f') =>
      if pos' <? 0 then Ok (pos', f', st)
      else
        w ← perform_write_loop e h write_to_par (Datatypes.S (length buf)) (sf_m f') pos' buf 0 st;
        let '(n, m', st') := w in
        Ok (n, SFile (sf_p f') m', st')
  | (_, None) => Bug
  end.

(** ** The versioned read *)

(** [generic_file_read_iter] of at most [count] bytes that do not cross a page
    boundary: nothing past the end of the file. *)
Definition generic_file_read_iter (m : mapping) (pos count : Z) : list Z * mapping :=
  if i_size m <=? pos then ([], m)
  else let idx := Z.shiftr pos PAGE_SHIFT in
       (page_read (file_page m idx) (Z.land pos (PAGE_SIZE - 1)) (Z.min count (i_size m - pos)),
        set_page m idx (file_page m idx)).

(** [scorw_read_from_parent] for a reader at version [ver]: the bytes read
    (their number is the return value and the advance of the position). *)
Definition scorw_read_from_parent (ve : venv) (ver : Z) (source : option vstate) (logical_size : Z) (m : mapping)
    (orig_pos orig_count : Z) : outcome (list Z * mapping * option vstate) :=
  let bytes_to_page_end := PAGE_SIZE - Z.land orig_pos (PAGE_SIZE - 1) in
  let count := if bytes_to_page_end <? orig_count then bytes_to_page_end else orig_count in
  r ← scorw_lookup_physical_block ve ver source (orig_pos / PAGE_SIZE);
  let '(target_phys_blk, source') := r in
  if negb (target_phys_blk =? BLK_NOT_FOUND) then
    let (bs, m') := generic_file_read_iter m
      (s64 (target_phys_blk * PAGE_SIZE) + Z.land orig_pos (PAGE_SIZE - 1)) count in
    Ok (bs, m', source')
  else if logical_size <=? orig_pos then Ok ([], m, source')
  else let (bs, m') := generic_file_read_iter m orig_pos count in Ok (bs, m', source').

(** ** The vectored write ioctl *)

(** [struct scorw_io_vec], with the user bytes it points to; [None] is a
    faulting buffer. *)
Record scorw_io_vec := IoVec { logical_offset : Z; vec_len : Z; vec_buf : option (list Z) }.

(** Phase 1 of [scorw_ioctl_see_thru_writev]: copy each target block to the
    end of the file and overlay the user's bytes. *)
Fixpoint writev_data (e : wenv) (m : mapping) (append_pos : Z) (vecs : list scorw_io_vec) : outcome (Z * mapping) :=
  match vecs with
  | [] => Ok (0, m)
  | v :: vecs' =>
      let target_logical_blk := logical_offset v / PAGE_SIZE in
      if PAGE_SIZE <? vec_len v then Ok (- EINVAL, m)
      else match vec_buf v with
      | None => Ok (- EFAULT, m)
      | Some kbuf =>
          r ← scorw_internal_copy_blocks (we_io e) m (target_logical_blk * PAGE_SIZE) append_pos PAGE_SIZE;
          if r.1 <? 0 then Ok (r.1, r.2)
          else
            let (ret, m2) := scorw_write_kernel_data (we_io e) r.2 (append_pos + logical_offset v mod PAGE_SIZE) kbuf in
            if ret <? 0 then Ok (ret, m2)
            else writev_data e m2 (append_pos + PAGE_SIZE) vecs'
      end
  end.

(** Phase 2: one delta-map entry and one log record per vector. *)
Fixpoint writev_log (ve : venv) (s : vstate) (new_version append_pos i : Z) (vecs : list scorw_io_vec) (pad2 : Z) : outcome vstate :=
  match vecs with
  | [] => Ok s
  | v :: vecs' =>
      let target_logical_blk := logical_offset v / PAGE_SIZE in
      let appended_ext4_blk := (append_pos + i * PAGE_SIZE) / PAGE_SIZE in
      let s1 := set_states s (alter (insert target_logical_blk (xa_mk_value appended_ext4_blk))
                                (new_version - 1) (version_states s)) in
      s2 ← match i_log s1 with
           | None => Ok s1
           | Some m =>
               let record := LogRecord (u32 new_version) (u32 target_logical_blk) (u64 appended_ext4_blk) 1 0 pad2 in
               m' ← write_offset_log (ve_io ve) m (i_size m) (encode_record record); Ok (set_log s1 (Some m'))
           end;
      writev_log ve s2 new_version append_pos (i + 1) vecs' pad2
  end.

(** [scorw_ioctl_see_thru_writev]; [None] for the inode is one without scorw
    inode or not in see-through mode, [None] for the vectors is a failing copy
    of the arguments. *)
Definition scorw_ioctl_see_thru_writev (e : wenv) (ve : venv) (f : sfile) (see_thru_ro : bool)
    (args : option (list scorw_io_vec)) (pad2 : Z) : outcome (Z * sfile) :=
  if negb see_thru_ro then Ok (- EINVAL, f)
  else match args with
  | None => Ok (- EFAULT, f)
  | Some vecs =>
      let count := Z.of_nat (length vecs) in
      if (count =? 0) || (1024 <? count) then Ok (- EINVAL, f)
      else if negb (ve_kzalloc ve) then Ok (- ENOMEM, f)
      else
        let align z := Z.land (z + PAGE_SIZE - 1) (Z.lnot (PAGE_SIZE - 1)) in
        let new_version := version (p_vs (sf_p f)) + 1 in
        r ← writev_data e (sf_m f) (align (i_size (sf_m f))) vecs;
        let f1 := SFile (sf_p f) r.2 in
        if r.1 <? 0 then Ok (r.1, f1)
        else
          let append_pos := align (i_size r.2) in
          r2 ← scorw_get_or_create_version ve (p_vs (sf_p f)) new_version;
          let '(active_v, s1) := r2 in
          if negb active_v then Ok (- ENOMEM, SFile (set_vs (sf_p f) s1) r.2)
          else
            s2 ← writev_log ve s1 new_version append_pos 0 vecs pad2;
            Ok (count, SFile (set_vs (sf_p f) (set_version s2 new_version)) r.2)
  end.

(** ** Lemmas: the page-by-page writer *)

(** The hooks of the children never fail. *)
Record hooks_total {S} (h : par_hooks S) : Prop := {
  ht_begin : forall b st, exists st', rb_begin h b st = Ok st';
  ht_wr : forall sz pos len up p st, exists st', wr_par h sz pos len up p st = Ok st';
  ht_end : forall b st, exists st', rb_end h b st = Ok st'
}.

Lemma hook_if {S} (b : bool) (o : outcome S) (st : S) :
  (exists st', o = Ok st') -> exists st', (if b then o else Ok st) = Ok st'.
Proof. destruct b; eauto. Qed.

(** One page of a write. *)
Lemma write_page_effect m pos (bs : list Z) :
  mapping_wf m -> 0 <= pos -> Forall byte_ok bs -> pos mod PAGE_SIZE + Z.of_nat (length bs) <= PAGE_SIZE ->
  let idx := pos / PAGE_SIZE in
  let m1 := set_page m idx (file_page m idx) in
  let m2 := set_page m1 idx (page_write (file_page m1 idx) (pos mod PAGE_SIZE) bs) in
  let m3 := (scorw_da_write_end io_ok m2 pos (Z.of_nat (length bs)) (Z.of_nat (length bs))).2 in
  mapping_wf m3 /\ i_size m3 = Z.max (i_size m) (pos + Z.of_nat (length bs)) /\
  forall q, byte_at m3 q =
    if bool_decide (pos <= q < pos + Z.of_nat (length bs)) then bs !!! Z.to_nat (q - pos) else byte_at m q.
Proof.
  intros Hwf Hpos Hbs Hle. cbv zeta. set (m1 := set_page m _ _).
  assert (mapping_wf m1) as Hw1 by (unfold m1; auto with scorw).
  assert (forall i, file_page m1 i = file_page m i) as Hp1 by (intros; apply file_page_touch).
  assert (page_wf (page_write (file_page m1 (pos / PAGE_SIZE)) (pos mod PAGE_SIZE) bs)) as Hpw.
  { apply page_write_wf; auto with scorw. unfold PAGE_SIZE in *. Z.to_euclidean_division_equations. lia. }
  split_and!.
  - apply da_write_end_wf; [auto with scorw|lia].
  - by rewrite da_write_end_size.
  - intros q. unfold byte_at at 1. rewrite da_write_end_page.
    fold (byte_at (set_page m1 (pos / PAGE_SIZE)
      (page_write (file_page m1 (pos / PAGE_SIZE)) (pos mod PAGE_SIZE) bs)) q).
    rewrite byte_at_page_write by done. case_bool_decide; [done|]. unfold byte_at. by rewrite Hp1.
Qed.

(** The writer puts the whole buffer at its place and touches nothing else. *)
Lemma perform_write_loop_spec {S} (h : par_hooks S) wp fuel m pos buf written st :
  hooks_total h -> mapping_wf m -> 0 <= pos -> Forall byte_ok buf -> buf <> [] -> (length buf <= fuel)%nat ->
  exists m' st', perform_write_loop wenv_ok h wp fuel m pos buf written st =
      Ok (written + Z.of_nat (length buf), m', st') /\
    mapping_wf m' /\ i_size m' = Z.max (i_size m) (pos + Z.of_nat (length buf)) /\
    forall q, byte_at m' q =
      if bool_decide (pos <= q < pos + Z.of_nat (length buf)) then buf !!! Z.to_nat (q - pos) else byte_at m q.
Proof.
  intros Hh. revert m pos buf written st. induction fuel as [|fuel IH]; intros m pos buf written st Hwf Hpos Hbs Hne Hf.
  { destruct buf; [done|simpl in Hf; lia]. }
  assert (0 < Z.of_nat (length buf)) as Hlen by (destruct buf; [done|simpl; lia]).
  cbn [perform_write_loop we_signal wenv_ok we_io we_copied]. rewrite land_page.
  unfold scorw_da_write_begin. cbn [io_wbegin io_ok]. change (0 <? 0) with false. cbv iota zeta. rewrite shiftr_page.
  set (hk := wp && _). destruct (hook_if hk (rb_begin h (u32 (Z.shiftr (pos mod PAGE_SIZE) PAGE_SHIFT)) st) st (ht_begin h Hh _ _)) as [st1 ->].
  cbn [mbind outcome_bind]. set (bytes := Z.min _ _).
  match goal with |- context [wr_par h ?sz pos bytes ?up ?p st1] =>
    destruct (hook_if hk (wr_par h sz pos bytes up p st1) st1 (ht_wr h Hh _ _ _ _ _ _)) as [st2 ->] end.
  cbn [mbind outcome_bind].
  assert (0 < bytes /\ pos mod PAGE_SIZE + bytes <= PAGE_SIZE /\ bytes <= Z.of_nat (length buf)) as (Hb1 & Hb2 & Hb3).
  { subst bytes. unfold PAGE_SIZE in *. Z.to_euclidean_division_equations. lia. }
  set (bs := take (Z.to_nat bytes) buf).
  assert (Z.of_nat (length bs) = bytes) as Hbl by (subst bs; autorewrite with len; lia).
  destruct (write_page_effect m pos bs Hwf Hpos) as (Hw3 & Hs3 & Hq3); [by apply Forall_take|lia|].
  cbv zeta in Hw3, Hs3, Hq3. rewrite Hbl in *. set (m2 := set_page (set_page _ _ _) _ _) in *.
  destruct (scorw_da_write_end io_ok m2 pos bytes bytes) as [status m3] eqn:E.
  assert (status = bytes) as -> by (rewrite da_write_end_ok in E; congruence). cbn [snd] in *.
  destruct (hook_if hk (rb_end h (u32 (Z.shiftr (pos mod PAGE_SIZE) PAGE_SHIFT)) st2) st2 (ht_end h Hh _ _)) as [st3 ->].
  cbn [mbind outcome_bind]. rewrite (proj2 (Z.ltb_ge bytes 0)), (proj2 (Z.eqb_neq bytes 0)) by lia.
  assert (Z.of_nat (length (drop (Z.to_nat bytes) buf)) = Z.of_nat (length buf) - bytes) as Hdl by (autorewrite with len; lia).
  rewrite Hdl. assert (forall k, (k < Z.to_nat bytes)%nat -> bs !!! k = buf !!! k) as Hbk
    by (intros; subst bs; by rewrite lookup_total_take_lt).
  destruct (Z.eqb_spec (Z.of_nat (length buf) - bytes) 0) as [Hz|Hz].
  - exists m3, st3. replace (Z.of_nat (length buf)) with bytes by lia. split_and!; auto.
    intros q. rewrite Hq3. case_bool_decide; [|done]. apply Hbk. lia.
  - destruct (IH m3 (pos + bytes) (drop (Z.to_nat bytes) buf) (written + bytes) st3) as (m' & st' & -> & Hw' & Hs' & Hq');
      [done|lia|by apply Forall_drop|intros Hn; rewrite Hn in Hdl; simpl in Hdl; lia|lia|].
    exists m', st'. rewrite Hdl in *. split_and!; auto; [do 3 f_equal; lia|lia|].
    intros q. rewrite Hq', Hq3. repeat case_bool_decide; try lia; try done.
    + rewrite lookup_total_drop. f_equal. lia.
    + apply Hbk. lia.
Qed.

(** ** Lemmas: the redirection *)

(** A write by [file] goes through when the lock is free, and then as an
    ordinary write, or when the file holds it for a transaction. *)
Inductive can_write (p : pinode) (file : Z) : Z -> Prop :=
| can_write_normal : transaction_lock (t_locks p) = false -> can_write p file SET_NORMAL_WRITE
| can_write_txn : t_locks p = TLocks true (Some file) SET_TRANSACTION -> can_write p file SET_TRANSACTION.

Lemma acquire_spec sig p file status :
  can_write p file status ->
  (if scorw_self_transaction_status (Some p) file =? SET_TRANSACTION
   then Ok (0, Some p, SET_TRANSACTION)
   else r ← scorw_set_transaction sig (Some p) file SET_NORMAL_WRITE; Ok (r.1, r.2, SET_NORMAL_WRITE)) =
  Ok (0, Some (set_locks p (TLocks true (Some file) status)), status).
Proof.
  intros [Hf|Ht].
  - unfold scorw_self_transaction_status at 1. rewrite Hf. cbn [negb]. change (-1 =? SET_TRANSACTION) with false.
    cbv iota. unfold scorw_set_transaction. rewrite Hf. unfold scorw_self_transaction_status. by rewrite Hf.
  - unfold scorw_self_transaction_status. rewrite Ht. cbn. rewrite Z.eqb_refl. cbn.
    unfold set_locks. rewrite <- Ht. by destruct p.
Qed.

Lemma release_spec sig p file :
  t_locks p = TLocks true (Some file) SET_NORMAL_WRITE ->
  scorw_set_transaction sig (Some p) file UNSET_TRANSACTION =
  Ok (0, Some (set_locks p (TLocks false None UNSET_TRANSACTION))).
Proof. intros Hl. unfold scorw_set_transaction. rewrite Hl. cbn. by rewrite bool_decide_true. Qed.

Lemma maybe_copy (cond : bool) m a b :
  mapping_wf m -> 0 <= b ->
  exists r m', (if cond then scorw_internal_copy_blocks io_ok m (a * PAGE_SIZE) (b * PAGE_SIZE) PAGE_SIZE else Ok (0, m)) =
      Ok (r, m') /\ (r <? 0) = false /\ mapping_wf m' /\
    i_size m <= i_size m' <= Z.max (i_size m) (b * PAGE_SIZE + PAGE_SIZE) /\
    (forall i, i <> b -> file_page m' i = file_page m i) /\
    (cond = true -> file_page m' b = file_page m a /\ b * PAGE_SIZE + PAGE_SIZE <= i_size m').
Proof.
  intros Hwf Hb. destruct cond.
  - destruct (internal_copy_page m a b Hwf Hb) as (m' & -> & Hw & Hs & Hp). exists PAGE_SIZE, m'.
    split_and!; auto; try lia.
    + intros i Hi. rewrite Hp. by rewrite decide_False by congruence.
    + intros _. rewrite Hp. split; [by rewrite decide_True|lia].
  - exists 0, m. split_and!; auto; try done; lia.
Qed.

(** Every block resolves to a block of the file, or to none. *)
Definition phys_ok (recs : list scorw_log_record) (orig size : Z) : Prop :=
  forall v b, 0 <= b -> spec_lookup recs orig v b = BLK_NOT_FOUND \/
    (0 <= spec_lookup recs orig v b /\ spec_lookup recs orig v b * PAGE_SIZE < size).

(** A parent file in order: coherent versions, well-formed data, and no block
    that resolves outside the file. *)
Record sf_wf (f : sfile) (lm : mapping) : Prop := {
  sw_versions : versions_wf (p_vs (sf_p f)) lm;
  sw_data : mapping_wf (sf_m f);
  sw_org : 0 <= par_org (p_vs (sf_p f)) <= i_size (sf_m f);
  sw_size : i_size (sf_m f) < 2 ^ 42;
  sw_version : 0 <= version (p_vs (sf_p f));
  sw_phys : phys_ok (log_records lm) (par_org (p_vs (sf_p f))) (i_size (sf_m f))
}.

(** The block a write is redirected to: the first one past the end of the file. *)
Definition append_blk (m : mapping) : Z := (i_size m + PAGE_SIZE - 1) / PAGE_SIZE.
Definition write_blks (pos count : Z) : Z := (pos + count - 1) / PAGE_SIZE - pos / PAGE_SIZE + 1.

(** The source of the first copy is a page: the block found, or the page before
    the first when none is. *)
Definition copy_src (t : Z) : Z := if t =? BLK_NOT_FOUND then -1 else t.

Lemma copy_source t size :
  (t = BLK_NOT_FOUND \/ 0 <= t /\ t * PAGE_SIZE < size) -> size < 2 ^ 42 ->
  s64 (t * PAGE_SIZE) = copy_src t * PAGE_SIZE.
Proof.
  intros [->|[H1 H2]] Hs; [by vm_compute|]. unfold copy_src.
  destruct (Z.eqb_spec t BLK_NOT_FOUND) as [->|_].
  - exfalso. unfold BLK_NOT_FOUND, PAGE_SIZE in *. lia.
  - apply s64_small. unfold PAGE_SIZE in *. lia.
Qed.

Lemma append_args_ok m pos count pad2 :
  mapping_wf m -> i_size m < 2 ^ 42 -> 0 <= pos -> 0 < count -> pos + count <= 2 ^ 42 -> 0 <= pad2 < 2 ^ 64 ->
  write_args_ok (pos / PAGE_SIZE) (append_blk m) (write_blks pos count) pad2 /\
  u32 (s32 ((pos + count - 1) / PAGE_SIZE) - s32 (pos / PAGE_SIZE) + 1) = write_blks pos count /\
  0 < write_blks pos count.
Proof.
  intros Hw Hs Hp Hc Hpc Hpad. pose proof (wf_size _ Hw). unfold append_blk, write_blks, PAGE_SIZE in *.
  assert (0 <= pos / 4096 <= (pos + count - 1) / 4096 /\ (pos + count - 1) / 4096 < 2 ^ 30) as [? ?]
    by (Z.to_euclidean_division_equations; lia).
  rewrite !s32_small by lia. rewrite u32_small by lia. split_and!; [|done|lia].
  split; Z.to_euclidean_division_equations; lia.
Qed.

(** Does the write cover only a part of its first block, or of its last one when
    that is another? *)
Definition head_partial (pos count : Z) : bool :=
  negb (pos mod PAGE_SIZE =? 0) || ((write_blks pos count =? 1) && negb ((pos + count) mod PAGE_SIZE =? 0)).
Definition tail_partial (pos count : Z) : bool := (1 <? write_blks pos count) && negb ((pos + count) mod PAGE_SIZE =? 0).
Definition last_blk (pos count : Z) : Z := (pos + count - 1) / PAGE_SIZE.

(** What the redirection leaves: the new record in the log under the next
    version, every page below the place of the copy as it was, and the pages
    copied when the write covers only a part of its first or of its last block. *)
Record redirected (f f' : sfile) (lm lm' : mapping) (status pos count pad2 : Z) : Prop := {
  rd_versions : versions_wf (p_vs (sf_p f')) lm';
  rd_log : log_records lm' = log_records lm ++
    [LogRecord (version (p_vs (sf_p f)) + 1) (pos / PAGE_SIZE) (append_blk (sf_m f)) (write_blks pos count) 0 pad2];
  rd_version : version (p_vs (sf_p f')) =
    if status =? SET_NORMAL_WRITE then version (p_vs (sf_p f)) + 1 else version (p_vs (sf_p f));
  rd_org : par_org (p_vs (sf_p f')) = par_org (p_vs (sf_p f));
  rd_locks : t_locks (sf_p f') = if status =? SET_NORMAL_WRITE then TLocks false None UNSET_TRANSACTION
                                 else t_locks (sf_p f);
  rd_data : mapping_wf (sf_m f');
  rd_size : i_size (sf_m f) <= i_size (sf_m f') <= (append_blk (sf_m f) + write_blks pos count) * PAGE_SIZE;
  rd_pages : forall i, i < append_blk (sf_m f) -> file_page (sf_m f') i = file_page (sf_m f) i;
  rd_copy : let t := spec_lookup (log_records lm) (par_org (p_vs (sf_p f))) (version (p_vs (sf_p f))) (pos / PAGE_SIZE) in
    t <> BLK_NOT_FOUND \/ pos < par_org (p_vs (sf_p f)) ->
    (head_partial pos count = true -> file_page (sf_m f') (append_blk (sf_m f)) = file_page (sf_m f) (copy_src t) /\
       append_blk (sf_m f) * PAGE_SIZE + PAGE_SIZE <= i_size (sf_m f')) /\
    (tail_partial pos count = true -> last_blk pos count * PAGE_SIZE < par_org (p_vs (sf_p f)) ->
       file_page (sf_m f') (append_blk (sf_m f) + (write_blks pos count - 1)) = file_page (sf_m f) (last_blk pos count) /\
       (append_blk (sf_m f) + write_blks pos count) * PAGE_SIZE <= i_size (sf_m f'))
}.

Lemma part_of_block pos count :
  0 <= pos -> 0 < count < PAGE_SIZE -> write_blks pos count = 1 -> head_partial pos count = true.
Proof.
  intros Hp Hc Hw. unfold head_partial. rewrite Hw. destruct (Z.eqb_spec (pos mod PAGE_SIZE) 0) as [H0|]; [|done]. simpl.
  rewrite (proj2 (Z.eqb_neq _ 0)); [done|]. unfold write_blks, PAGE_SIZE in *. Z.to_euclidean_division_equations. lia.
Qed.

(** A byte of the first or last block that the write leaves out. *)
Lemma left_out_head pos count q :
  0 <= pos -> 0 < count -> q / PAGE_SIZE = pos / PAGE_SIZE -> ~ pos <= q < pos + count -> head_partial pos count = true.
Proof.
  intros Hp Hc Hq Hout. unfold head_partial, write_blks. destruct (Z.eqb_spec (pos mod PAGE_SIZE) 0) as [H0|]; [|done]. simpl.
  rewrite andb_true_iff, Z.eqb_eq, negb_true_iff, Z.eqb_neq. unfold PAGE_SIZE in *. Z.to_euclidean_division_equations. lia.
Qed.
Lemma left_out_tail pos count q :
  0 <= pos -> 0 < count -> pos / PAGE_SIZE < last_blk pos count -> q / PAGE_SIZE = last_blk pos count -> pos + count <= q -> tail_partial pos count = true.
Proof.
  intros Hp Hc Hl Hq Hout. unfold tail_partial, write_blks, last_blk in *.
  rewrite andb_true_iff, Z.ltb_lt, negb_true_iff, Z.eqb_neq. unfold PAGE_SIZE in *. Z.to_euclidean_division_equations. lia.
Qed.

(** The part of the redirection that copies pages, with the outcome of its two
    guarded copies. *)
Lemma redirect_copies (c1 c2 : bool) m src1 src2 a n :
  mapping_wf m -> 0 <= a -> a = append_blk m -> 1 <= n -> (c2 = true -> 1 < n /\ src2 < a) ->
  exists r1 m1 r2 m2,
    (if c1 then scorw_internal_copy_blocks io_ok m (src1 * PAGE_SIZE) (a * PAGE_SIZE) PAGE_SIZE else Ok (0, m)) = Ok (r1, m1) /\
    (r1 <? 0) = false /\
    (if c2 then scorw_internal_copy_blocks io_ok m1 (src2 * PAGE_SIZE) ((a + (n - 1)) * PAGE_SIZE) PAGE_SIZE else Ok (0, m1)) = Ok (r2, m2) /\
    (r2 <? 0) = false /\ mapping_wf m2 /\
    i_size m <= i_size m2 <= (a + n) * PAGE_SIZE /\
    (forall i, i < a -> file_page m2 i = file_page m i) /\
    (c1 = true -> file_page m2 a = file_page m src1 /\ a * PAGE_SIZE + PAGE_SIZE <= i_size m2) /\
    (c2 = true -> file_page m2 (a + (n - 1)) = file_page m src2 /\ (a + n) * PAGE_SIZE <= i_size m2).
Proof.
  intros Hw Ha Hae Hn Hc2.
  destruct (maybe_copy c1 m src1 a Hw Ha) as (r1 & m1 & H1 & Hr1 & Hw1 & Hs1 & Hp1 & Hq1).
  destruct (maybe_copy c2 m1 src2 (a + (n - 1)) Hw1) as (r2 & m2 & H2 & Hr2 & Hw2 & Hs2 & Hp2 & Hq2); [lia|].
  assert (i_size m <= a * PAGE_SIZE).
  { pose proof (wf_size _ Hw). subst a. unfold append_blk, PAGE_SIZE. Z.to_euclidean_division_equations. lia. }
  exists r1, m1, r2, m2. split_and!; auto.
  - lia.
  - unfold PAGE_SIZE in *. lia.
  - intros i Hi. rewrite Hp2, Hp1 by lia. done.
  - intros E1. destruct (Hq1 E1) as [Hpa Hsa]. split; [|lia]. destruct c2; [|injection H2 as _ <-; done].
    rewrite Hp2 by (destruct (Hc2 eq_refl); lia). done.
  - intros E2. destruct (Hc2 E2), (Hq2 E2) as [Hpa Hsa]. split; [|lia]. rewrite Hpa. apply Hp1. lia.
Qed.

(** The version a write is recorded under, ordinary or in a transaction. *)
Lemma bump_spec p vs1 lm1 file status :
  can_write p file status -> versions_wf vs1 lm1 -> version vs1 = version (p_vs p) ->
  0 <= version (p_vs p) -> version (p_vs p) < MAX_VERSIONS ->
  let vs2 := if status =? SET_NORMAL_WRITE then set_version vs1 (s32 (version vs1 + 1)) else vs1 in
  versions_wf vs2 lm1 /\ par_org vs2 = par_org vs1 /\
  write_version vs2 status = version (p_vs p) + 1 /\
  version vs2 = (if status =? SET_NORMAL_WRITE then version (p_vs p) + 1 else version (p_vs p)).
Proof.
  intros Hcw Hv1 Hver1 H0 Hmax. cbv zeta. unfold MAX_VERSIONS in *.
  assert (s32 (version (p_vs p) + 1) = version (p_vs p) + 1) as Hs32 by (apply s32_small; lia).
  unfold write_version. destruct Hcw as [Hf|Ht]; cbn; rewrite ?Hver1, ?Hs32; split_and!; auto.
  by destruct Hv1.
Qed.

Lemma see_thru_spec sig f lm file status pos count pad2 :
  sf_wf f lm -> can_write (sf_p f) file status ->
  0 <= pos -> 0 < count -> pos + count <= 2 ^ 42 -> 0 <= pad2 < 2 ^ 64 ->
  version (p_vs (sf_p f)) < MAX_VERSIONS ->
  exists f' lm', scorw_write_see_thru_ro wenv_ok venv_ok sig (Some f) file pos count pad2 =
      Ok (append_blk (sf_m f) * PAGE_SIZE + pos mod PAGE_SIZE, Some f') /\
    redirected f f' lm lm' status pos count pad2.
Proof.
  intros Hwf Hcw Hpos Hc Hpc Hpad Hmax. pose proof Hwf as [Hv Hd Ho Hs Hver Hph].
  destruct (append_args_ok _ _ _ _ Hd Hs Hpos Hc Hpc Hpad) as (Hargs & Hnr & Hnr0).
  unfold scorw_write_see_thru_ro. rewrite Hnr, (acquire_spec sig _ _ _ Hcw). cbn [mbind outcome_bind].
  change (negb (0 =? 0)) with false. cbv iota. cbn [set_locks p_vs]. rewrite align_page.
  fold (append_blk (sf_m f)). rewrite Z.div_mul by done.
  destruct (lookup_physical_spec _ _ (version (p_vs (sf_p f))) (pos / PAGE_SIZE) Hv)
    as (vs1 & lm1 & -> & Hv1 & Hsame & Hver1 & Hpo1).
  cbn [mbind outcome_bind]. set (t := spec_lookup _ _ _ _). cbn [we_io wenv_ok].
  assert (0 <= pos / PAGE_SIZE) as Hb0 by (apply Z.div_pos; [done|by compute]).
  rewrite (copy_source t _ (Hph _ _ Hb0) Hs).
  set (copying := negb (t =? BLK_NOT_FOUND) || _).
  replace (append_blk (sf_m f) * PAGE_SIZE + ((pos + count - 1) / PAGE_SIZE - pos / PAGE_SIZE) * PAGE_SIZE)
    with ((append_blk (sf_m f) + (write_blks pos count - 1)) * PAGE_SIZE) by (unfold write_blks; lia).
  match goal with |- context [if ?a then scorw_internal_copy_blocks io_ok (sf_m f) _ _ _ else _] => set (c1 := a) end.
  match goal with |- context [if ?a then scorw_internal_copy_blocks io_ok _ ((_ / _) * _) _ _ else _] => set (c2 := a) end.
  destruct (redirect_copies c1 c2 (sf_m f) (copy_src t) ((pos + count - 1) / PAGE_SIZE)
    (append_blk (sf_m f)) (write_blks pos count) Hd) as (r1 & m1 & r2 & m2 & -> & Hr1 & H2 & Hr2 & Hw2 & Hs2 & Hp2 & Hq2 & Ht2).
  { apply (wa_physical _ _ _ _ Hargs). }
  { done. }
  { lia. }
  { subst c2. unfold write_blks in *. rewrite !andb_true_iff, !Z.ltb_lt. intros [[_ ?] ?]. split; [lia|].
    unfold append_blk, PAGE_SIZE in *. Z.to_euclidean_division_equations. lia. }
  cbn [mbind outcome_bind fst snd]. rewrite Hr1, H2. cbn [mbind outcome_bind fst snd]. rewrite Hr2.
  destruct (bump_spec _ vs1 lm1 file status Hcw Hv1 Hver1 Hver Hmax) as (Hv2 & Hpo2 & Hwv & Hver2).
  set (vs2 := if status =? SET_NORMAL_WRITE then _ else _) in *.
  destruct (record_write_spec vs2 lm1 (pos / PAGE_SIZE) (append_blk (sf_m f)) (write_blks pos count) status pad2 Hv2 Hargs)
    as (s3 & lm3 & -> & Hv3 & [Hver3 Hpo3] & Hl3); [rewrite Hwv; unfold MAX_VERSIONS in *; lia|].
  cbn [mbind outcome_bind fst snd]. rewrite Hwv, (same_file_records _ _ Hsame) in Hl3.
  assert (forall tl, tl = (if status =? SET_NORMAL_WRITE then TLocks false None UNSET_TRANSACTION else t_locks (sf_p f)) ->
    redirected f (SFile (PInode s3 tl) m2) lm lm3 status pos count pad2) as Hred.
  { intros tl Htl. split; cbn; auto; try congruence.
    intros Hnf. fold t in Hnf |- *.
    assert (copying = true) as Hcp.
    { subst copying. destruct (Z.eqb_spec t BLK_NOT_FOUND); [|done]. simpl. apply Z.ltb_lt. tauto. }
    split; [intros Hh; apply Hq2; subst c1|intros Hl Horg; apply Ht2; subst c2]; rewrite Hcp.
    - revert Hh. unfold head_partial, write_blks. rewrite orb_true_iff, andb_true_iff, Z.eqb_eq. intros [->|[E ->]]; [done|].
      rewrite (proj2 (Z.eqb_eq ((pos + count - 1) / PAGE_SIZE - pos / PAGE_SIZE) 0)) by lia. apply orb_true_r.
    - apply andb_true_iff in Hl as [Hl ->]. revert Hl. unfold write_blks. rewrite Z.ltb_lt. intros Hl.
      rewrite (proj2 (Z.ltb_lt 0 ((pos + count - 1) / PAGE_SIZE - pos / PAGE_SIZE))) by lia. by apply Z.ltb_lt. }
  destruct Hcw as [Hf|Ht].
  - change (SET_NORMAL_WRITE =? SET_NORMAL_WRITE) with true. cbv iota. rewrite release_spec by done.
    cbn. eexists _, lm3. split; [done|]. by apply Hred.
  - cbn. eexists _, lm3. split; [done|]. apply Hred. by rewrite Ht.
Qed.

(** ** Lemmas: reads *)

(** What a read at version [ver] returns, from the records of the log. *)
Definition spec_read (recs : list scorw_log_record) (orig ver : Z) (m : mapping) (pos count : Z) : list Z :=
  let n := Z.min (PAGE_SIZE - pos mod PAGE_SIZE) count in
  let t := spec_lookup recs orig ver (pos / PAGE_SIZE) in
  if t =? BLK_NOT_FOUND then (if orig <=? pos then [] else (generic_file_read_iter m pos n).1)
  else (generic_file_read_iter m (s64 (t * PAGE_SIZE) + pos mod PAGE_SIZE) n).1.

Lemma read_spec s lm ver m pos count :
  versions_wf s lm ->
  exists m' s', scorw_read_from_parent venv_ok ver (Some s) (par_org s) m pos count =
    Ok (spec_read (log_records lm) (par_org s) ver m pos count, m', Some s').
Proof.
  intros Hwf. unfold scorw_read_from_parent, spec_read.
  destruct (lookup_physical_spec s lm ver (pos / PAGE_SIZE) Hwf) as (s' & lm' & -> & _).
  cbn [mbind outcome_bind]. rewrite !land_page.
  replace (if PAGE_SIZE - pos mod PAGE_SIZE <? count then PAGE_SIZE - pos mod PAGE_SIZE else count)
    with (Z.min (PAGE_SIZE - pos mod PAGE_SIZE) count) by (case_bools; lia).
  set (t := spec_lookup _ _ _ _). destruct (t =? BLK_NOT_FOUND); cbn [negb].
  - destruct (_ <=? pos); [eauto|]. destruct (generic_file_read_iter _ _ _). eauto.
  - destruct (generic_file_read_iter _ _ _). eauto.
Qed.

Lemma page_read_prefix p off n n' : n <= n' -> page_read p off n `prefix_of` page_read p off n'.
Proof.
  intros Hn. unfold page_read. replace (Z.to_nat n) with (Z.to_nat n `min` Z.to_nat n')%nat by lia.
  rewrite <- take_take. apply prefix_take.
Qed.

(** A file that grew without changing a page still gives what a reader of that
    page got, and exactly that when its end was page-aligned. *)
Lemma grown_read m m' pos n :
  0 <= pos -> n <= PAGE_SIZE - pos mod PAGE_SIZE -> i_size m <= i_size m' ->
  file_page m' (pos / PAGE_SIZE) = file_page m (pos / PAGE_SIZE) ->
  (generic_file_read_iter m pos n).1 `prefix_of` (generic_file_read_iter m' pos n).1 /\
  (pos < i_size m -> i_size m mod PAGE_SIZE = 0 ->
   (generic_file_read_iter m' pos n).1 = (generic_file_read_iter m pos n).1).
Proof.
  intros Hp Hn Hs Hpg. unfold generic_file_read_iter. rewrite shiftr_page, land_page, Hpg.
  destruct (Z.leb_spec (i_size m) pos); [split; [apply prefix_nil|lia]|].
  rewrite (proj2 (Z.leb_gt (i_size m') pos)) by lia. cbn [fst]. split; [apply page_read_prefix; lia|].
  intros _ Hm. f_equal. assert (n <= i_size m - pos); [|lia].
  unfold PAGE_SIZE in *. Z.to_euclidean_division_equations. lia.
Qed.

Lemma block_pos t pos : 0 <= pos -> (t * PAGE_SIZE + pos mod PAGE_SIZE) / PAGE_SIZE = t /\
  (t * PAGE_SIZE + pos mod PAGE_SIZE) mod PAGE_SIZE = pos mod PAGE_SIZE.
Proof. intros. unfold PAGE_SIZE. split; Z.to_euclidean_division_equations; lia. Qed.

(** A reader whose blocks lie in the unchanged part of a grown file. *)
Lemma grown_spec_read recs orig ver m m' pos count :
  phys_ok recs orig (i_size m) -> i_size m < 2 ^ 42 -> orig <= i_size m -> 0 <= pos -> 0 <= i_size m ->
  i_size m <= i_size m' -> (forall i, 0 <= i < append_blk m -> file_page m' i = file_page m i) ->
  spec_read recs orig ver m pos count `prefix_of` spec_read recs orig ver m' pos count /\
  (i_size m mod PAGE_SIZE = 0 -> spec_read recs orig ver m' pos count = spec_read recs orig ver m pos count).
Proof.
  intros Hph Hs Ho Hp H0 Hg Hpg. unfold spec_read.
  assert (0 <= pos / PAGE_SIZE) as Hb0 by (apply Z.div_pos; [done|by compute]).
  destruct (Hph ver _ Hb0) as [Ht|[Ht0 Ht1]].
  - rewrite Ht, Z.eqb_refl. destruct (Z.leb_spec orig pos); [done|].
    destruct (grown_read m m' pos (Z.min (PAGE_SIZE - pos mod PAGE_SIZE) count)); auto; try lia.
    { apply Hpg. unfold append_blk, PAGE_SIZE in *. Z.to_euclidean_division_equations. lia. }
    split; auto with lia.
  - set (t := spec_lookup _ _ _ _) in *. rewrite (copy_source t (i_size m)) by auto.
    unfold copy_src. destruct (Z.eqb_spec t BLK_NOT_FOUND); [unfold BLK_NOT_FOUND, PAGE_SIZE in *; lia|].
    destruct (block_pos t pos Hp) as [Hb1 Hb2].
    destruct (grown_read m m' (t * PAGE_SIZE + pos mod PAGE_SIZE) (Z.min (PAGE_SIZE - pos mod PAGE_SIZE) count)) as [H1 H2];
      rewrite ?Hb1, ?Hb2; auto.
    { unfold PAGE_SIZE. Z.to_euclidean_division_equations. lia. }
    { lia. }
    { apply Hpg. unfold append_blk, PAGE_SIZE in *. Z.to_euclidean_division_equations. lia. }
    split; [done|]. intros Hm. apply H2; [|done]. unfold PAGE_SIZE in *. Z.to_euclidean_division_equations. lia.
Qed.

Lemma spec_read_ext recs recs' orig ver m pos count :
  (forall b, spec_lookup recs' orig ver b = spec_lookup recs orig ver b) ->
  spec_read recs' orig ver m pos count = spec_read recs orig ver m pos count.
Proof. intros H. unfold spec_read. by rewrite H. Qed.

(** Reading one byte. *)
Lemma read_one m pos :
  mapping_wf m -> 0 <= pos < i_size m -> (generic_file_read_iter m pos 1).1 = [byte_at m pos].
Proof.
  intros Hw Hp. unfold generic_file_read_iter. rewrite (proj2 (Z.leb_gt _ _)) by lia.
  rewrite shiftr_page, land_page, Z.min_l by lia. cbn [fst]. unfold byte_at, page_read.
  pose proof (page_len _ (file_page_wf m (pos / PAGE_SIZE) Hw)) as Hl.
  assert (Z.to_nat (pos mod PAGE_SIZE) < length (file_page m (pos / PAGE_SIZE)))%nat as Hlt.
  { rewrite Hl. unfold PAGE_SIZE. Z.to_euclidean_division_equations. lia. }
  apply lookup_lt_is_Some_2 in Hlt as [x Hx]. rewrite (list_lookup_total_correct _ _ _ Hx).
  change (Z.to_nat 1) with 1%nat. by rewrite (drop_S _ _ _ Hx).
Qed.

Lemma spec_find_append_cases recs c l p len pad2 v b :
  write_args_ok l p len pad2 -> 1 <= c <= MAX_VERSIONS ->
  let recs' := recs ++ [LogRecord c l p len 0 pad2] in
  spec_find recs' v b = spec_find recs v b \/ (l <= b < l + len /\ spec_find recs' v b = Some (p + (b - l))).
Proof.
  intros Ha Hc. cbv zeta. pose proof Ha as [? ? ? ? ? ?]. unfold MAX_VERSIONS in *. induction v as [|v IH]; [by left|].
  cbn [spec_find]. unfold MAX_VERSIONS. case_bool_decide as Hv; [|done].
  rewrite replay_map_append by lia. case_bool_decide as Hd.
  - right. split; [tauto|]. f_equal. rewrite u64_small by lia. apply xa_value_roundtrip. lia.
  - destruct (replay_map recs _ !! b); [by left|done].
Qed.

(** The resolution stays inside the file when it grows with the write. *)
Lemma phys_ok_append recs orig size size' c l p len pad2 :
  phys_ok recs orig size -> write_args_ok l p len pad2 -> 1 <= c <= MAX_VERSIONS ->
  size <= size' -> (p + len - 1) * PAGE_SIZE < size' ->
  phys_ok (recs ++ [LogRecord c l p len 0 pad2]) orig size'.
Proof.
  intros Hph Ha Hc Hs Hp v b Hb. specialize (Hph v b Hb). unfold spec_lookup in *.
  destruct (spec_find_append_cases recs c l p len pad2 (Z.to_nat v) b Ha Hc) as [->|[Hin ->]].
  - destruct Hph as [?|[? ?]]; [by left|right; lia].
  - right. destruct Ha. unfold PAGE_SIZE in *. lia.
Qed.

(** ** Lemmas: a whole see-through write *)

(** What a see-through write of [buf] at [pos] leaves. *)
Record see_thru_written (f f' : sfile) (lm lm' : mapping) (status pos : Z) (buf : list Z) (pad2 : Z) : Prop := {
  st_versions : versions_wf (p_vs (sf_p f')) lm';
  st_log : log_records lm' = log_records lm ++
    [LogRecord (version (p_vs (sf_p f)) + 1) (pos / PAGE_SIZE) (append_blk (sf_m f))
       (write_blks pos (Z.of_nat (length buf))) 0 pad2];
  st_version : version (p_vs (sf_p f')) =
    if status =? SET_NORMAL_WRITE then version (p_vs (sf_p f)) + 1 else version (p_vs (sf_p f));
  st_org : par_org (p_vs (sf_p f')) = par_org (p_vs (sf_p f));
  st_data : mapping_wf (sf_m f');
  st_size : i_size (sf_m f) <= i_size (sf_m f') /\
    append_blk (sf_m f) * PAGE_SIZE + pos mod PAGE_SIZE + Z.of_nat (length buf) <= i_size (sf_m f');
  st_pages : forall i, 0 <= i < append_blk (sf_m f) -> file_page (sf_m f') i = file_page (sf_m f) i;
  st_bytes : forall k, 0 <= k < Z.of_nat (length buf) ->
    byte_at (sf_m f') (append_blk (sf_m f) * PAGE_SIZE + pos mod PAGE_SIZE + k) = buf !!! Z.to_nat k;
  st_rest : let t := spec_lookup (log_records lm) (par_org (p_vs (sf_p f))) (version (p_vs (sf_p f))) (pos / PAGE_SIZE) in
    t <> BLK_NOT_FOUND \/ pos < par_org (p_vs (sf_p f)) ->
    (head_partial pos (Z.of_nat (length buf)) = true ->
       append_blk (sf_m f) * PAGE_SIZE + PAGE_SIZE <= i_size (sf_m f') /\
       forall off, 0 <= off < PAGE_SIZE -> ~ pos mod PAGE_SIZE <= off < pos mod PAGE_SIZE + Z.of_nat (length buf) ->
       byte_at (sf_m f') (append_blk (sf_m f) * PAGE_SIZE + off) = byte_at (sf_m f) (copy_src t * PAGE_SIZE + off)) /\
    (tail_partial pos (Z.of_nat (length buf)) = true -> last_blk pos (Z.of_nat (length buf)) * PAGE_SIZE < par_org (p_vs (sf_p f)) ->
       (append_blk (sf_m f) + write_blks pos (Z.of_nat (length buf))) * PAGE_SIZE <= i_size (sf_m f') /\
       forall off, (pos + Z.of_nat (length buf) - 1) mod PAGE_SIZE < off < PAGE_SIZE ->
       byte_at (sf_m f') ((append_blk (sf_m f) + (write_blks pos (Z.of_nat (length buf)) - 1)) * PAGE_SIZE + off) =
       byte_at (sf_m f) (last_blk pos (Z.of_nat (length buf)) * PAGE_SIZE + off))
}.

Lemma byte_at_page m i off : 0 <= off < PAGE_SIZE -> byte_at m (i * PAGE_SIZE + off) = file_page m i !!! Z.to_nat off.
Proof.
  intros H. unfold byte_at.
  replace ((i * PAGE_SIZE + off) / PAGE_SIZE) with i by (unfold PAGE_SIZE in *; Z.to_euclidean_division_equations; lia).
  by replace ((i * PAGE_SIZE + off) mod PAGE_SIZE) with off by (unfold PAGE_SIZE in *; Z.to_euclidean_division_equations; lia).
Qed.

Lemma see_thru_write_spec {S} (h : par_hooks S) sig wp f lm file status pos buf pad2 (st : S) :
  hooks_total h -> sf_wf f lm -> can_write (sf_p f) file status ->
  0 <= pos -> buf <> [] -> Forall byte_ok buf -> pos + Z.of_nat (length buf) <= 2 ^ 42 -> 0 <= pad2 < 2 ^ 64 ->
  version (p_vs (sf_p f)) < MAX_VERSIONS ->
  exists f' st' lm', scorw_generic_perform_write wenv_ok venv_ok h sig true wp f file pos buf pad2 st =
      Ok (Z.of_nat (length buf), f', st') /\
    see_thru_written f f' lm lm' status pos buf pad2.
Proof.
  intros Hh Hwf Hcw Hpos Hne Hbs Hpc Hpad Hmax.
  assert (0 < Z.of_nat (length buf)) as Hlen by (destruct buf; [done|simpl; lia]).
  destruct (see_thru_spec sig f lm file status pos (Z.of_nat (length buf)) pad2 Hwf Hcw Hpos Hlen Hpc Hpad Hmax)
    as (f1 & lm1 & Hst & [Rv Rl Rver Ro Rlk Rd Rs Rp Rc]).
  assert (0 <= append_blk (sf_m f)) as Ha.
  { pose proof (wf_size _ (sw_data _ _ Hwf)). unfold append_blk, PAGE_SIZE. Z.to_euclidean_division_equations. lia. }
  pose proof (Z.mod_pos_bound pos PAGE_SIZE ltac:(by compute)) as Hoff.
  unfold scorw_generic_perform_write. rewrite Hst. cbn [mbind outcome_bind].
  set (npos := append_blk (sf_m f) * PAGE_SIZE + pos mod PAGE_SIZE) in *.
  assert (0 <= npos) as Hnp by (unfold npos, PAGE_SIZE in *; lia). rewrite (proj2 (Z.ltb_ge npos 0)) by done.
  destruct (perform_write_loop_spec h wp (Datatypes.S (length buf)) (sf_m f1) npos buf 0 st Hh Rd Hnp Hbs Hne)
    as (m' & st' & -> & Hw' & Hs' & Hq'); [lia|].
  cbn [mbind outcome_bind]. rewrite Z.add_0_l. exists (SFile (sf_p f1) m'), st', lm1. split; [done|].
  split; cbn [sf_p sf_m]; auto.
  - lia.
  - intros i [Hi0 Hi]. rewrite <- (Rp i Hi). apply file_page_bytes; auto.
    intros q Hq. rewrite Hq'. rewrite bool_decide_false; [done|]. unfold npos, PAGE_SIZE in *. lia.
  - intros k Hk. rewrite Hq', bool_decide_true by lia. f_equal. lia.
  - intros Hnf. destruct (Rc Hnf) as [Rh Rt]. split.
    + intros Hhd. destruct (Rh Hhd) as [Rc1 Rc2]. split; [lia|]. intros off Hoff1 Hoff2.
      rewrite Hq', bool_decide_false by (unfold npos; lia). rewrite !byte_at_page by done. by f_equal.
    + intros Htl Horg. destruct (Rt Htl Horg) as [Rc1 Rc2]. split; [lia|]. intros off Hoff1.
      rewrite Hq', bool_decide_false. 2: { unfold npos, write_blks, PAGE_SIZE in *. Z.to_euclidean_division_equations. lia. }
      assert (0 <= off < PAGE_SIZE) by (unfold PAGE_SIZE in *; Z.to_euclidean_division_equations; lia).
      rewrite !byte_at_page by done. by f_equal.
Qed.

(** A parent file stays in order across a see-through write. *)
Lemma see_thru_written_wf f f' lm lm' status pos buf pad2 :
  sf_wf f lm -> see_thru_written f f' lm lm' status pos buf pad2 ->
  0 <= pos -> buf <> [] -> pos + Z.of_nat (length buf) <= 2 ^ 42 -> 0 <= pad2 < 2 ^ 64 ->
  version (p_vs (sf_p f)) < MAX_VERSIONS -> i_size (sf_m f') < 2 ^ 42 -> sf_wf f' lm'.
Proof.
  intros [Hv Hd Ho Hs Hver Hph] [Wv Wl Wver Wo Wd [Ws1 Ws2] Wp Wb Wr] Hpos Hne Hpc Hpad Hmax Hs'.
  assert (0 < Z.of_nat (length buf)) as Hlen by (destruct buf; [done|simpl; lia]).
  split; auto.
  - rewrite Wo. lia.
  - rewrite Wver. destruct (_ =? _); lia.
  - rewrite Wl, Wo. eapply phys_ok_append; [done| | |done|].
    + by apply append_args_ok.
    + lia.
    + unfold write_blks, PAGE_SIZE in *. Z.to_euclidean_division_equations. lia.
Qed.

(** ** Properties *)

(** C3: A see-through write leaves every snapshot alone: it writes all its
    bytes, keeps the parent file in order, and whatever a reader at the current
    or an older version reads at any position afterwards starts with exactly
    what it read before, and is exactly that when the end of the file was
    page-aligned. *)
Theorem see_thru_write_keeps_snapshots {S} (h : par_hooks S) (sig wp : bool) (f : sfile) (lm : mapping)
    (file status pos : Z) (buf : list Z) (pad2 : Z) (st : S) :
  hooks_total h -> sf_wf f lm -> can_write (sf_p f) file status ->
  0 <= pos -> buf <> [] -> Forall byte_ok buf -> pos + Z.of_nat (length buf) <= 2 ^ 42 -> 0 <= pad2 < 2 ^ 64 ->
  version (p_vs (sf_p f)) < MAX_VERSIONS ->
  exists f' st' lm', scorw_generic_perform_write wenv_ok venv_ok h sig true wp f file pos buf pad2 st =
      Ok (Z.of_nat (length buf), f', st') /\
    (i_size (sf_m f') < 2 ^ 42 -> sf_wf f' lm') /\
    forall ver rpos rcount, 0 <= ver <= version (p_vs (sf_p f)) -> 0 <= rpos ->
      exists bs m1 s1 bs' m2 s2,
        scorw_read_from_parent venv_ok ver (Some (p_vs (sf_p f))) (par_org (p_vs (sf_p f))) (sf_m f) rpos rcount =
          Ok (bs, m1, Some s1) /\
        scorw_read_from_parent venv_ok ver (Some (p_vs (sf_p f'))) (par_org (p_vs (sf_p f'))) (sf_m f') rpos rcount =
          Ok (bs', m2, Some s2) /\
        bs `prefix_of` bs' /\ (i_size (sf_m f) mod PAGE_SIZE = 0 -> bs' = bs).
Proof.
  intros Hh Hwf Hcw Hpos Hne Hbs Hpc Hpad Hmax.
  destruct (see_thru_write_spec h sig wp f lm file status pos buf pad2 st) as (f' & st' & lm' & Hr & Hw); auto.
  exists f', st', lm'. split_and!; [done|intros; by eapply see_thru_written_wf|].
  intros ver rpos rcount Hver Hrp. destruct Hwf as [Hv Hd Ho Hs Hver0 Hph].
  destruct (read_spec _ _ ver (sf_m f) rpos rcount Hv) as (m1 & s1 & Hr1).
  destruct (read_spec _ _ ver (sf_m f') rpos rcount (st_versions _ _ _ _ _ _ _ _ Hw)) as (m2 & s2 & Hr2).
  assert (0 < Z.of_nat (length buf)) as Hlen by (destruct buf; [done|simpl; lia]).
  assert (forall b, spec_lookup (log_records lm') (par_org (p_vs (sf_p f))) ver b =
    spec_lookup (log_records lm) (par_org (p_vs (sf_p f))) ver b) as Hsame.
  { intros b. unfold spec_lookup. rewrite (st_log _ _ _ _ _ _ _ _ Hw), spec_find_append; [done| |lia|lia].
    by apply append_args_ok. }
  destruct (grown_spec_read (log_records lm) (par_org (p_vs (sf_p f))) ver (sf_m f) (sf_m f') rpos rcount)
    as [Hg1 Hg2]; auto; try lia.
  { apply Hw. }
  { apply Hw. }
  do 6 eexists. split; [exact Hr1|]. split; [exact Hr2|]. rewrite (st_org _ _ _ _ _ _ _ _ Hw).
  by rewrite !(spec_read_ext _ _ _ _ _ _ _ Hsame).
Qed.

(** A read of one byte, resolved. *)
Lemma spec_read_one recs orig ver m pos t :
  mapping_wf m -> 0 <= pos -> spec_lookup recs orig ver (pos / PAGE_SIZE) = t -> 0 <= t ->
  t * PAGE_SIZE + pos mod PAGE_SIZE < i_size m -> i_size m < 2 ^ 62 ->
  spec_read recs orig ver m pos 1 = [byte_at m (t * PAGE_SIZE + pos mod PAGE_SIZE)].
Proof.
  intros Hw Hp Ht H0 Hlt Hs. unfold spec_read. rewrite Ht.
  pose proof (Z.mod_pos_bound pos PAGE_SIZE ltac:(by compute)) as Hoff.
  rewrite (proj2 (Z.eqb_neq t BLK_NOT_FOUND)) by (unfold BLK_NOT_FOUND, PAGE_SIZE in *; lia).
  rewrite s64_small by (unfold PAGE_SIZE in *; lia).
  rewrite Z.min_r by lia. apply read_one; [done|]. unfold PAGE_SIZE in *. lia.
Qed.

(** The blocks of a see-through write resolve to the appended ones. *)
Lemma see_thru_resolves f f' lm lm' status pos buf pad2 q :
  see_thru_written f f' lm lm' status pos buf pad2 ->
  sf_wf f lm -> 0 <= pos -> buf <> [] -> pos + Z.of_nat (length buf) <= 2 ^ 42 -> 0 <= pad2 < 2 ^ 64 ->
  version (p_vs (sf_p f)) < MAX_VERSIONS ->
  pos / PAGE_SIZE <= q / PAGE_SIZE <= (pos + Z.of_nat (length buf) - 1) / PAGE_SIZE ->
  spec_lookup (log_records lm') (par_org (p_vs (sf_p f'))) (version (p_vs (sf_p f)) + 1) (q / PAGE_SIZE) =
  append_blk (sf_m f) + (q / PAGE_SIZE - pos / PAGE_SIZE).
Proof.
  intros Hw [Hv Hd Ho Hs Hver Hph] Hpos Hne Hpc Hpad Hmax Hq.
  assert (0 < Z.of_nat (length buf)) as Hlen by (destruct buf; [done|simpl; lia]).
  rewrite (st_log _ _ _ _ _ _ _ _ Hw). apply spec_lookup_written; [by apply append_args_ok|lia|].
  unfold write_blks. lia.
Qed.

(** Where a byte of the write goes: its block moves, its place in the block
    stays. *)
Lemma written_pos a pos k :
  0 <= pos -> 0 <= k ->
  a * PAGE_SIZE + pos mod PAGE_SIZE + k =
  (a + ((pos + k) / PAGE_SIZE - pos / PAGE_SIZE)) * PAGE_SIZE + (pos + k) mod PAGE_SIZE.
Proof. intros. unfold PAGE_SIZE. Z.to_euclidean_division_equations. lia. Qed.

(** The bytes written read back. *)
Lemma written_read f f' lm lm' status pos buf pad2 k :
  see_thru_written f f' lm lm' status pos buf pad2 -> sf_wf f lm -> 0 <= pos -> buf <> [] ->
  pos + Z.of_nat (length buf) <= 2 ^ 42 -> 0 <= pad2 < 2 ^ 64 -> version (p_vs (sf_p f)) < MAX_VERSIONS -> i_size (sf_m f') < 2 ^ 62 ->
  0 <= k < Z.of_nat (length buf) ->
  exists m1 s1, scorw_read_from_parent venv_ok (version (p_vs (sf_p f)) + 1) (Some (p_vs (sf_p f'))) (par_org (p_vs (sf_p f))) (sf_m f') (pos + k) 1 =
    Ok ([buf !!! Z.to_nat k], m1, Some s1).
Proof.
  intros Hw Hwf Hpos Hne Hpc Hpad Hmax Hs' Hk. pose proof Hw as [Wv Wl Wver Wo Wd [Ws1 Ws2] Wp Wb _].
  assert (0 <= append_blk (sf_m f)) as Ha.
  { pose proof (wf_size _ (sw_data _ _ Hwf)). unfold append_blk, PAGE_SIZE. Z.to_euclidean_division_equations. lia. }
  destruct (read_spec _ _ (version (p_vs (sf_p f)) + 1) (sf_m f') (pos + k) 1 Wv) as (m1 & s1 & Hrd).
  rewrite Wo in Hrd. exists m1, s1. rewrite Hrd. do 3 f_equal.
  rewrite <- Wb by done. rewrite (written_pos (append_blk (sf_m f)) pos k) by lia.
  apply spec_read_one; auto; try lia.
  - rewrite <- Wo. eapply see_thru_resolves; eauto. unfold PAGE_SIZE in *. Z.to_euclidean_division_equations. lia.
  - unfold PAGE_SIZE in *. Z.to_euclidean_division_equations. lia.
  - rewrite <- written_pos by lia. lia.
Qed.

(** The copies behind the bytes that are left out. *)
Lemma left_out_head_copied f f' lm lm' status pos buf pad2 q t :
  see_thru_written f f' lm lm' status pos buf pad2 -> 0 <= pos -> buf <> [] -> 0 <= q -> q / PAGE_SIZE = pos / PAGE_SIZE ->
  ~ pos <= q < pos + Z.of_nat (length buf) ->
  spec_lookup (log_records lm) (par_org (p_vs (sf_p f))) (version (p_vs (sf_p f))) (q / PAGE_SIZE) = t -> t <> BLK_NOT_FOUND ->
  exists c, t * PAGE_SIZE + q mod PAGE_SIZE = c * PAGE_SIZE + q mod PAGE_SIZE /\
    let a := append_blk (sf_m f) + (q / PAGE_SIZE - pos / PAGE_SIZE) in a * PAGE_SIZE + PAGE_SIZE <= i_size (sf_m f') /\
    byte_at (sf_m f') (a * PAGE_SIZE + q mod PAGE_SIZE) = byte_at (sf_m f) (c * PAGE_SIZE + q mod PAGE_SIZE).
Proof.
  intros Hw Hpos Hne Hq0 Hq Hout Ht Hnf. assert (0 < Z.of_nat (length buf)) as Hl by (destruct buf; [done|simpl; lia]).
  exists t. split; [done|]. cbv zeta. rewrite Hq, Z.sub_diag, Z.add_0_r. rewrite Hq in Ht.
  destruct (st_rest _ _ _ _ _ _ _ _ Hw) as [Hh _]; [left; by rewrite Ht|].
  destruct Hh as [Hs Hb]; [by eapply left_out_head|]. split; [done|]. rewrite Hb.
  - rewrite Ht. unfold copy_src. by rewrite (proj2 (Z.eqb_neq _ _)).
  - apply Z.mod_pos_bound. by compute.
  - unfold PAGE_SIZE in *. Z.to_euclidean_division_equations. lia.
Qed.
Lemma left_out_tail_copied f f' lm lm' status pos buf pad2 q :
  see_thru_written f f' lm lm' status pos buf pad2 -> 0 <= pos -> buf <> [] ->
  pos / PAGE_SIZE < q / PAGE_SIZE <= last_blk pos (Z.of_nat (length buf)) -> ~ pos <= q < pos + Z.of_nat (length buf) ->
  last_blk pos (Z.of_nat (length buf)) * PAGE_SIZE < par_org (p_vs (sf_p f)) ->
  let a := append_blk (sf_m f) + (q / PAGE_SIZE - pos / PAGE_SIZE) in
  a * PAGE_SIZE + PAGE_SIZE <= i_size (sf_m f') /\
  byte_at (sf_m f') (a * PAGE_SIZE + q mod PAGE_SIZE) = byte_at (sf_m f) (last_blk pos (Z.of_nat (length buf)) * PAGE_SIZE + q mod PAGE_SIZE).
Proof.
  intros Hw Hpos Hne Hq Hout Horg. assert (0 < Z.of_nat (length buf)) as Hl by (destruct buf; [done|simpl; lia]).
  assert (q / PAGE_SIZE = last_blk pos (Z.of_nat (length buf)) /\ pos + Z.of_nat (length buf) <= q) as [He Hge].
  { unfold last_blk, PAGE_SIZE in *. Z.to_euclidean_division_equations. lia. }
  destruct (st_rest _ _ _ _ _ _ _ _ Hw) as [_ Ht]; [right; unfold last_blk, PAGE_SIZE in *; Z.to_euclidean_division_equations; lia|].
  destruct Ht as [Hs Hb]; [eapply left_out_tail; eauto; lia|done|]. cbv zeta.
  replace (append_blk (sf_m f) + (q / PAGE_SIZE - pos / PAGE_SIZE)) with (append_blk (sf_m f) + (write_blks pos (Z.of_nat (length buf)) - 1))
    by (rewrite He; unfold write_blks, last_blk; lia).
  split; [lia|]. apply Hb. unfold last_blk, PAGE_SIZE in *. Z.to_euclidean_division_equations. lia.
Qed.

(** What is read of a byte the write leaves out of its blocks, before and after: the
    byte of the block it resolved to, and the one that was copied. *)
Lemma left_out_read f f' lm lm' status pos buf pad2 q t c :
  see_thru_written f f' lm lm' status pos buf pad2 -> sf_wf f lm -> 0 <= pos -> buf <> [] ->
  pos + Z.of_nat (length buf) <= 2 ^ 42 -> 0 <= pad2 < 2 ^ 64 -> version (p_vs (sf_p f)) < MAX_VERSIONS -> i_size (sf_m f') < 2 ^ 62 -> 0 <= q ->
  pos / PAGE_SIZE <= q / PAGE_SIZE <= last_blk pos (Z.of_nat (length buf)) ->
  spec_lookup (log_records lm) (par_org (p_vs (sf_p f))) (version (p_vs (sf_p f))) (q / PAGE_SIZE) = t -> t <> BLK_NOT_FOUND ->
  t * PAGE_SIZE + q mod PAGE_SIZE < i_size (sf_m f) ->
  let a := append_blk (sf_m f) + (q / PAGE_SIZE - pos / PAGE_SIZE) in
  a * PAGE_SIZE + PAGE_SIZE <= i_size (sf_m f') -> byte_at (sf_m f') (a * PAGE_SIZE + q mod PAGE_SIZE) = byte_at (sf_m f) (c * PAGE_SIZE + q mod PAGE_SIZE) ->
  (exists m1 s1, scorw_read_from_parent venv_ok (version (p_vs (sf_p f))) (Some (p_vs (sf_p f))) (par_org (p_vs (sf_p f))) (sf_m f) q 1 =
     Ok ([byte_at (sf_m f) (t * PAGE_SIZE + q mod PAGE_SIZE)], m1, Some s1)) /\
  exists m2 s2, scorw_read_from_parent venv_ok (version (p_vs (sf_p f)) + 1) (Some (p_vs (sf_p f'))) (par_org (p_vs (sf_p f))) (sf_m f') q 1 =
     Ok ([byte_at (sf_m f) (c * PAGE_SIZE + q mod PAGE_SIZE)], m2, Some s2).
Proof.
  intros Hw Hwf Hpos Hne Hpc Hpad Hmax Hs' Hq0 Hq Ht Hnf Hlt a Ha Hb. pose proof Hw as [Wv Wl Wver Wo Wd _ _ _ _].
  pose proof (Z.mod_pos_bound q PAGE_SIZE ltac:(by compute)) as Hoff.
  assert (0 <= append_blk (sf_m f)).
  { pose proof (wf_size _ (sw_data _ _ Hwf)). unfold append_blk, PAGE_SIZE. Z.to_euclidean_division_equations. lia. }
  destruct (sw_phys _ _ Hwf (version (p_vs (sf_p f))) (q / PAGE_SIZE)) as [Hx|[Ht0 _]]; [by apply Z.div_pos|congruence|]. rewrite Ht in Ht0.
  destruct (read_spec _ _ (version (p_vs (sf_p f))) (sf_m f) q 1 (sw_versions _ _ Hwf)) as (m1 & s1 & Hr1).
  destruct (read_spec _ _ (version (p_vs (sf_p f)) + 1) (sf_m f') q 1 Wv) as (m2 & s2 & Hr2).
  rewrite Wo in Hr2. rewrite (spec_read_one _ _ _ (sf_m f) q t) in Hr1; [|apply Hwf|done|done|done|done|pose proof (sw_size _ _ Hwf); lia].
  rewrite (spec_read_one _ _ _ (sf_m f') q a) in Hr2; [|done|done| |lia|lia|done].
  2: { rewrite <- Wo. eapply see_thru_resolves; eauto. }
  rewrite Hb in Hr2. split; eauto.
Qed.


(** The rest of a last block that has been rewritten before is lost: the copy of the
    last block is taken from its first place in the file, not from the one the
    current version resolves it to, so at the new version it reads as it did
    before any write. *)
Theorem rewritten_tail_lost {S} (h : par_hooks S) (sig wp : bool) (f : sfile) (lm : mapping)
    (file status pos : Z) (buf : list Z) (pad2 : Z) (st : S) (q t : Z) :
  let v := version (p_vs (sf_p f)) in
  let orig := par_org (p_vs (sf_p f)) in
  let last := last_blk pos (Z.of_nat (length buf)) in
  hooks_total h -> sf_wf f lm -> can_write (sf_p f) file status ->
  0 <= pos -> buf <> [] -> Forall byte_ok buf -> pos + Z.of_nat (length buf) <= 2 ^ 42 -> 0 <= pad2 < 2 ^ 64 ->
  v < MAX_VERSIONS -> pos / PAGE_SIZE < last -> last * PAGE_SIZE < orig -> q / PAGE_SIZE = last -> pos + Z.of_nat (length buf) <= q ->
  spec_lookup (log_records lm) orig v last = t -> t <> BLK_NOT_FOUND -> t * PAGE_SIZE + q mod PAGE_SIZE < i_size (sf_m f) ->
  exists f' st', scorw_generic_perform_write wenv_ok venv_ok h sig true wp f file pos buf pad2 st = Ok (Z.of_nat (length buf), f', st') /\
    (i_size (sf_m f') < 2 ^ 62 -> exists m1 s1 m2 s2,
       scorw_read_from_parent venv_ok v (Some (p_vs (sf_p f))) orig (sf_m f) q 1 = Ok ([byte_at (sf_m f) (t * PAGE_SIZE + q mod PAGE_SIZE)], m1, Some s1) /\
       scorw_read_from_parent venv_ok (v + 1) (Some (p_vs (sf_p f'))) orig (sf_m f') q 1 = Ok ([byte_at (sf_m f) q], m2, Some s2)).
Proof.
  cbv zeta. intros Hh Hwf Hcw Hpos Hne Hbs Hpc Hpad Hmax Hl Horg Hq Hout Ht Hnf Hlt.
  destruct (see_thru_write_spec h sig wp f lm file status pos buf pad2 st) as (f' & st' & lm' & Hr & Hw); auto.
  exists f', st'. split; [done|]. intros Hs'.
  destruct (left_out_tail_copied f f' lm lm' status pos buf pad2 q Hw Hpos Hne) as [Ha Hb]; [lia|lia|done|].
  destruct (left_out_read f f' lm lm' status pos buf pad2 q t (last_blk pos (Z.of_nat (length buf)))) as [(m1 & s1 & H1) (m2 & s2 & H2)]; auto;
    [lia|lia|by rewrite Hq|].
  replace (last_blk pos (Z.of_nat (length buf)) * PAGE_SIZE + q mod PAGE_SIZE) with q in H2
    by (rewrite <- Hq; unfold PAGE_SIZE; Z.to_euclidean_division_equations; lia). eauto 10.
Qed.

(** Overwriting part of the last, partial block of the original file loses
    the rest of it: the lookup knows only whole blocks of the original size, so
    the copy is taken from the page before the first one, and at the new
    version every other original byte of the block reads as zero. *)
Theorem partial_tail_overwrite_loses_data {S} (h : par_hooks S) (sig wp : bool) (f : sfile) (lm : mapping)
    (file status pos : Z) (buf : list Z) (pad2 : Z) (st : S) (q : Z) :
  let v := version (p_vs (sf_p f)) in
  let orig := par_org (p_vs (sf_p f)) in
  hooks_total h -> sf_wf f lm -> can_write (sf_p f) file status ->
  0 <= pos -> buf <> [] -> Forall byte_ok buf -> pos + Z.of_nat (length buf) <= 2 ^ 42 -> 0 <= pad2 < 2 ^ 64 ->
  v < MAX_VERSIONS -> file_page (sf_m f) (-1) = zero_page ->
  spec_lookup (log_records lm) orig v (orig / PAGE_SIZE) = BLK_NOT_FOUND ->
  pos / PAGE_SIZE = orig / PAGE_SIZE -> pos < orig -> write_blks pos (Z.of_nat (length buf)) = 1 ->
  Z.of_nat (length buf) < PAGE_SIZE ->
  q / PAGE_SIZE = pos / PAGE_SIZE -> 0 <= q < orig -> ~ pos <= q < pos + Z.of_nat (length buf) ->
  exists f' st' m1 s1, scorw_generic_perform_write wenv_ok venv_ok h sig true wp f file pos buf pad2 st =
      Ok (Z.of_nat (length buf), f', st') /\
    scorw_read_from_parent venv_ok v (Some (p_vs (sf_p f))) orig (sf_m f) q 1 =
      Ok ([byte_at (sf_m f) q], m1, Some s1) /\
    (i_size (sf_m f') < 2 ^ 62 -> exists m2 s2,
      scorw_read_from_parent venv_ok (v + 1) (Some (p_vs (sf_p f'))) orig (sf_m f') q 1 = Ok ([0], m2, Some s2)).
Proof.
  cbv zeta. intros Hh Hwf Hcw Hpos Hne Hbs Hpc Hpad Hmax Hz Hnf Hblk Hlt H1 Hl Hq Hq0 Hout.
  destruct (see_thru_write_spec h sig wp f lm file status pos buf pad2 st) as (f' & st' & lm' & Hr & Hw); auto.
  pose proof Hw as [Wv Wl Wver Wo Wd [Ws1 Ws2] Wp Wb Wr]. rewrite Hblk, Hnf in Wr. pose proof Hwf as [Hv Hd Ho Hs Hver Hph].
  assert (0 < Z.of_nat (length buf)) as Hlen by (destruct buf; [done|simpl; lia]).
  destruct (Wr (or_intror Hlt)) as [Wh _]. destruct Wh as [Wsz Wr']; [by apply part_of_block|]. clear Wr.
  destruct (read_spec _ _ (version (p_vs (sf_p f))) (sf_m f) q 1 Hv) as (m1 & s1 & Hr1).
  exists f', st', m1, s1. split_and!; [done| |].
  - rewrite Hr1. do 3 f_equal. unfold spec_read. rewrite Hq, Hblk, Hnf, Z.eqb_refl.
    rewrite (proj2 (Z.leb_gt _ _)) by lia. rewrite Z.min_r.
    + apply read_one; [done|lia].
    + unfold PAGE_SIZE. Z.to_euclidean_division_equations. lia.
  - intros Hs62. destruct (read_spec _ _ (version (p_vs (sf_p f)) + 1) (sf_m f') q 1 Wv) as (m2 & s2 & Hr2).
    exists m2, s2. rewrite Wo in Hr2. rewrite Hr2. do 3 f_equal.
    pose proof (Z.mod_pos_bound q PAGE_SIZE ltac:(by compute)) as Hoff.
    rewrite (spec_read_one _ _ _ (sf_m f') q (append_blk (sf_m f))); auto; try lia.
    + rewrite Wr'; [|lia|unfold PAGE_SIZE in *; Z.to_euclidean_division_equations; lia].
      change (copy_src BLK_NOT_FOUND) with (-1). rewrite byte_at_page, Hz by lia.
      f_equal. apply lookup_total_replicate_2. unfold PAGE_SIZE in *. lia.
    + rewrite <- Wo. rewrite (see_thru_resolves _ _ _ _ _ _ _ _ q Hw); auto; [lia|].
      rewrite Hq. split; [done|]. apply Z.div_le_mono; [by compute|]. destruct buf; [done|simpl; lia].
    + unfold append_blk, PAGE_SIZE. Z.to_euclidean_division_equations. lia.
Qed.

(** ** The vectored write *)

Lemma writev_one_data m off buf :
  mapping_wf m -> 0 <= off -> Forall byte_ok buf -> off mod PAGE_SIZE + Z.of_nat (length buf) <= PAGE_SIZE ->
  exists m', writev_data wenv_ok m (append_blk m * PAGE_SIZE) [IoVec off (Z.of_nat (length buf)) (Some buf)] = Ok (0, m') /\
    mapping_wf m' /\ i_size m' = append_blk m * PAGE_SIZE + PAGE_SIZE /\
    forall k, 0 <= k < Z.of_nat (length buf) ->
      byte_at m' (append_blk m * PAGE_SIZE + off mod PAGE_SIZE + k) = buf !!! Z.to_nat k.
Proof.
  intros Hw Ho Hbs Hle. pose proof (wf_size _ Hw). pose proof (Z.mod_pos_bound off PAGE_SIZE ltac:(by compute)) as Hm.
  assert (0 <= append_blk m /\ i_size m <= append_blk m * PAGE_SIZE) as [Ha Hsz].
  { unfold append_blk, PAGE_SIZE. Z.to_euclidean_division_equations. lia. }
  cbn [writev_data vec_len vec_buf logical_offset]. rewrite (proj2 (Z.ltb_ge PAGE_SIZE _)) by lia.
  destruct (internal_copy_page m (off / PAGE_SIZE) (append_blk m) Hw Ha) as (m1 & Hc & Hw1 & Hs1 & Hp1).
  cbn [we_io wenv_ok]. rewrite Hc. cbn [mbind outcome_bind fst snd]. change (PAGE_SIZE <? 0) with false. cbv iota.
  set (npos := append_blk m * PAGE_SIZE + off mod PAGE_SIZE).
  assert (npos mod PAGE_SIZE = off mod PAGE_SIZE) as Hnm by (by apply block_pos).
  destruct (write_page_effect m1 npos buf Hw1) as (Hw3 & Hs3 & Hq3); [unfold npos, PAGE_SIZE in *; lia|done|lia|].
  cbv zeta in *. unfold scorw_write_kernel_data, scorw_da_write_begin. cbn [io_wbegin io_ok].
  change (0 <? 0) with false. cbv iota zeta. rewrite shiftr_page.
  destruct (scorw_da_write_end io_ok _ npos _ _) as [ret m3] eqn:E.
  assert (ret = Z.of_nat (length buf)) as -> by (rewrite da_write_end_ok in E; congruence). cbn [snd] in *.
  rewrite (proj2 (Z.ltb_ge _ 0)) by lia. exists m3. split_and!; auto.
  - unfold npos in *. lia.
  - intros k Hk. rewrite Hq3, bool_decide_true by lia. f_equal. lia.
Qed.

(** The log phase of a one-block vectored write is the recording of a write of
    one block. *)
Lemma writev_one_log s lm c v a pad2 :
  let l := logical_offset v / PAGE_SIZE in
  versions_wf s lm -> write_args_ok l a 1 pad2 -> 1 <= c <= MAX_VERSIONS ->
  version_states s !! (c - 1) = Some (replay_map (log_records lm) c) -> tail_ready lm ->
  exists s' lm', writev_log venv_ok s c (a * PAGE_SIZE) 0 [v] pad2 = Ok s' /\ versions_wf s' lm' /\
    log_records lm' = log_records lm ++ [LogRecord c l a 1 0 pad2].
Proof.
  cbv zeta. set (l := logical_offset v / PAGE_SIZE).
  intros Hwf Ha Hc Hst Ht. pose proof (write_record_wf c _ _ _ _ Ha Hc) as Hrw. destruct Hrw as [? ? Hp ? ? ?].
  cbn [version_num logical_start_blk physical_start_blk] in *.
  cbn [writev_log]. fold l. rewrite Z.mul_0_l, Z.add_0_r, !Z.div_mul by done.
  cbn [i_log set_states]. rewrite (vw_log _ _ Hwf). rewrite (u32_small c), (u32_small l), (u64_small a) by done.
  destruct (append_record lm (LogRecord c l a 1 0 pad2) (vw_logwf _ _ Hwf) Ht) as (m' & Hm' & Hr & Hw' & Ht' & Hs' & Hd').
  { by apply write_record_wf. }
  { intros i Hi. apply (vw_disk _ _ Hwf). rewrite shiftr_page in Hi. unfold PAGE_SIZE in *.
    Z.to_euclidean_division_equations. lia. }
  cbn [ve_io venv_ok]. rewrite Hm'. cbn [mbind outcome_bind]. eexists _, m'. split; [done|]. split; [|done].
  replace (alter (insert l (xa_mk_value a)) (c - 1) (version_states s)) with
    (alter (store_blocks (fun i => u64 (l + i)) a 1) (c - 1) (version_states s)).
  2: { apply alter_ext. intros dm _. unfold store_blocks. change (zseq 0 (Z.to_nat 1)) with [0]. cbn [foldl].
       rewrite !Z.add_0_r, !u64_small by lia. done. }
  apply (record_wf_step s lm m' c l a 1 pad2); auto.
  intros i Hi. rewrite Hd'. apply (vw_disk _ _ Hwf). unfold sizeof_record in *. lia.
Qed.

Lemma read_past_end recs orig ver m pos count t :
  spec_lookup recs orig ver (pos / PAGE_SIZE) = t -> i_size m <= t * PAGE_SIZE -> 0 <= t < 2 ^ 50 ->
  spec_read recs orig ver m pos count = [].
Proof.
  intros Ht Hs Hb. unfold spec_read. rewrite Ht.
  pose proof (Z.mod_pos_bound pos PAGE_SIZE ltac:(by compute)) as Hoff.
  rewrite (proj2 (Z.eqb_neq t BLK_NOT_FOUND)) by (unfold BLK_NOT_FOUND; lia).
  rewrite s64_small by (unfold PAGE_SIZE in *; lia).
  unfold generic_file_read_iter. by rewrite (proj2 (Z.leb_le _ _)) by lia.
Qed.

(** A vectored write loses its data: the ioctl reports success and moves
    to a new version, the bytes are in the file at the block that was appended,
    but the position of the blocks is computed again after the file has grown,
    so the new version resolves the target block to one past the end of the
    file, and reads nothing from it. *)
Theorem writev_data_unreachable (f : sfile) (lm : mapping) (off : Z) (buf : list Z) (pad2 : Z) :
  let v := version (p_vs (sf_p f)) in
  sf_wf f lm -> 0 <= off < 2 ^ 42 -> Forall byte_ok buf ->
  off mod PAGE_SIZE + Z.of_nat (length buf) <= PAGE_SIZE -> v < MAX_VERSIONS -> 0 <= pad2 < 2 ^ 64 ->
  exists f', scorw_ioctl_see_thru_writev wenv_ok venv_ok f true
      (Some [IoVec off (Z.of_nat (length buf)) (Some buf)]) pad2 = Ok (1, f') /\
    version (p_vs (sf_p f')) = v + 1 /\
    (forall k, 0 <= k < Z.of_nat (length buf) ->
       byte_at (sf_m f') (append_blk (sf_m f) * PAGE_SIZE + off mod PAGE_SIZE + k) = buf !!! Z.to_nat k) /\
    (forall q count, q / PAGE_SIZE = off / PAGE_SIZE -> exists m1 s1,
       scorw_read_from_parent venv_ok (v + 1) (Some (p_vs (sf_p f'))) (par_org (p_vs (sf_p f'))) (sf_m f') q count =
         Ok ([], m1, Some s1)).
Proof.
  cbv zeta. intros [Hv Hd Ho Hs Hver Hph] Hoff Hbs Hle Hmax Hpad. pose proof (wf_size _ Hd).
  unfold scorw_ioctl_see_thru_writev. cbn [negb length ve_kzalloc venv_ok]. change (Z.of_nat 1) with 1.
  change ((1 =? 0) || (1024 <? 1)) with false. cbv iota zeta. rewrite align_page. fold (append_blk (sf_m f)).
  destruct (writev_one_data (sf_m f) off buf Hd) as (m1 & -> & Hw1 & Hs1 & Hb1); [lia|done|done|].
  cbn [mbind outcome_bind fst snd]. change (0 <? 0) with false. cbv iota. change venv_ok with (venv_mem true).
  set (v := version (p_vs (sf_p f))) in *.
  destruct (get_or_create_spec true (p_vs (sf_p f)) lm (v + 1) Hv) as (b & s1 & lm1 & -> & Hv1 & Hsm & [Hver1 Hpo1] & Ht & Hf).
  cbn [mbind outcome_bind]. destruct b; [|discriminate (Hf eq_refl ltac:(lia))]. cbn [negb]. cbv iota.
  destruct (Ht eq_refl) as [_ Hst]. rewrite align_page, Hs1.
  replace ((append_blk (sf_m f) * PAGE_SIZE + PAGE_SIZE + PAGE_SIZE - 1) / PAGE_SIZE) with (append_blk (sf_m f) + 1)
    by (unfold PAGE_SIZE; Z.to_euclidean_division_equations; lia).
  destruct (writev_one_log s1 lm1 (v + 1) (IoVec off (Z.of_nat (length buf)) (Some buf)) (append_blk (sf_m f) + 1) pad2 Hv1)
    as (s2 & lm2 & Hlog & Hv2 & Hl2); rewrite ?(same_file_records _ _ Hsm); auto.
  { split; cbn [logical_offset]; unfold append_blk, PAGE_SIZE in *; Z.to_euclidean_division_equations; lia. }
  { lia. }
  { apply (vw_ready _ _ Hv1 (v + 1 - 1)). by eexists. }
  change (venv_mem true) with venv_ok in *. cbn [logical_offset] in Hl2.
  rewrite Hlog. cbn [mbind outcome_bind]. eexists. split; [done|]. cbn [sf_p sf_m p_vs set_vs version set_version].
  split_and!; [done|done|]. intros q count Hq.
  assert (versions_wf (set_version s2 (v + 1)) lm2) as Hv3 by by destruct Hv2.
  destruct (read_spec _ _ (v + 1) m1 q count Hv3) as (m3 & s3 & ->). exists m3, s3. do 3 f_equal.
  apply (read_past_end _ _ _ _ _ _ (append_blk (sf_m f) + 1)).
  - rewrite Hl2, Hq. rewrite spec_lookup_written; [lia| |lia|lia].
    split; unfold append_blk, PAGE_SIZE in *; Z.to_euclidean_division_equations; lia.
  - rewrite Hs1. lia.
  - unfold append_blk, PAGE_SIZE in *; Z.to_euclidean_division_equations; lia.
Qed.

(** ** Witnesses *)

Lemma spec_find_nil v b : spec_find [] v b = None.
Proof. induction v as [|v IH]; [done|]. cbn [spec_find]. rewrite IH. by case_bool_decide. Qed.

Lemma phys_ok_nil orig size : orig <= size -> phys_ok [] orig size.
Proof.
  intros Ho v b Hb. unfold spec_lookup. rewrite spec_find_nil.
  destruct (Z.ltb_spec b (orig / PAGE_SIZE)); [right|by left]. split; [done|].
  unfold PAGE_SIZE in *. Z.to_euclidean_division_equations. lia.
Qed.

(** A parent of [size] zero bytes at version 0 with an empty log, and children
    that need nothing. *)
Definition zero_parent (size : Z) : sfile :=
  SFile (PInode (fresh_vstate 0 size empty_log) (TLocks false None 0)) (Mapping size size ∅ ∅).
Definition no_hooks : par_hooks unit := ParHooks unit (fun _ _ => Ok tt) (fun _ _ _ _ _ _ => Ok tt) (fun _ _ => Ok tt).

Lemma no_hooks_total : hooks_total no_hooks.
Proof. split; eauto. Qed.

Lemma zero_parent_wf size : 0 <= size < 2 ^ 42 -> sf_wf (zero_parent size) empty_log.
Proof.
  intros Hs. split; simpl; try lia.
  - apply fresh_wf; [apply empty_log_wf|apply empty_log_disk].
  - split; simpl; [lia|by intros ?? ?%lookup_empty_Some..].
  - by apply phys_ok_nil.
Qed.

Lemma zero_parent_can_write size : can_write (sf_p (zero_parent size)) 7 SET_NORMAL_WRITE.
Proof. by constructor. Qed.

Definition three_bytes : list Z := [1; 2; 3].
Lemma three_bytes_ok : Forall byte_ok three_bytes.
Proof. by repeat constructor. Qed.

#[local] Hint Resolve no_hooks_total zero_parent_can_write three_bytes_ok : core.

Lemma see_thru_write_keeps_snapshots_witness :
  let f := zero_parent 8192 in
  exists f' st' lm', scorw_generic_perform_write wenv_ok venv_ok no_hooks false true true f 7 10 three_bytes 0 tt =
      Ok (3, f', st') /\
    (i_size (sf_m f') < 2 ^ 42 -> sf_wf f' lm') /\
    forall ver rpos rcount, 0 <= ver <= 0 -> 0 <= rpos ->
      exists bs m1 s1 bs' m2 s2,
        scorw_read_from_parent venv_ok ver (Some (p_vs (sf_p f))) 8192 (sf_m f) rpos rcount = Ok (bs, m1, Some s1) /\
        scorw_read_from_parent venv_ok ver (Some (p_vs (sf_p f'))) (par_org (p_vs (sf_p f'))) (sf_m f') rpos rcount =
          Ok (bs', m2, Some s2) /\
        bs `prefix_of` bs' /\ (i_size (sf_m f) mod PAGE_SIZE = 0 -> bs' = bs).
Proof.
  apply (see_thru_write_keeps_snapshots no_hooks false true (zero_parent 8192) empty_log 7 SET_NORMAL_WRITE 10 three_bytes 0 tt);
    auto; try done. by apply zero_parent_wf.
Defined.


Lemma rewritten_tail_lost_witness :
  let f := zero_parent 8192 in
  exists f' st', scorw_generic_perform_write wenv_ok venv_ok no_hooks false true true f 7 4095 three_bytes 0 tt = Ok (3, f', st') /\
    (i_size (sf_m f') < 2 ^ 62 -> exists m1 s1 m2 s2,
       scorw_read_from_parent venv_ok 0 (Some (p_vs (sf_p f))) 8192 (sf_m f) 8000 1 = Ok ([byte_at (sf_m f) (1 * PAGE_SIZE + 8000 mod PAGE_SIZE)], m1, Some s1) /\
       scorw_read_from_parent venv_ok 1 (Some (p_vs (sf_p f'))) 8192 (sf_m f') 8000 1 = Ok ([byte_at (sf_m f) 8000], m2, Some s2)).
Proof.
  apply (rewritten_tail_lost no_hooks false true (zero_parent 8192) empty_log 7 SET_NORMAL_WRITE 4095 three_bytes 0 tt 8000 1);
    auto; try done. by apply zero_parent_wf.
Defined.

(** Byte 8000 is written, at version 1, and then the bytes from 4095 on, at version
    2: what is read of byte 8000 at the two versions. *)
Definition lost_tail_run : outcome (list Z * list Z) :=
  w ← scorw_generic_perform_write wenv_ok venv_ok no_hooks false true true (zero_parent 8192) 7 8000 [9] 0 tt;
  w ← scorw_generic_perform_write wenv_ok venv_ok no_hooks false true true w.1.2 7 4095 three_bytes 0 tt;
  let f := w.1.2 in
  r1 ← scorw_read_from_parent venv_ok 1 (Some (p_vs (sf_p f))) 8192 (sf_m f) 8000 1;
  r2 ← scorw_read_from_parent venv_ok 2 (Some (p_vs (sf_p f))) 8192 (sf_m f) 8000 1;
  Ok (r1.1.1, r2.1.1).
Lemma lost_tail : lost_tail_run = Ok ([9], [0]).
Proof. by vm_compute. Qed.

Lemma partial_tail_overwrite_loses_data_witness :
  let f := zero_parent 5000 in
  exists f' st' m1 s1, scorw_generic_perform_write wenv_ok venv_ok no_hooks false true true f 7 4100 three_bytes 0 tt =
      Ok (3, f', st') /\
    scorw_read_from_parent venv_ok 0 (Some (p_vs (sf_p f))) 5000 (sf_m f) 4999 1 = Ok ([byte_at (sf_m f) 4999], m1, Some s1) /\
    (i_size (sf_m f') < 2 ^ 62 -> exists m2 s2,
      scorw_read_from_parent venv_ok 1 (Some (p_vs (sf_p f'))) 5000 (sf_m f') 4999 1 = Ok ([0], m2, Some s2)).
Proof.
  apply (partial_tail_overwrite_loses_data no_hooks false true (zero_parent 5000) empty_log 7 SET_NORMAL_WRITE 4100 three_bytes 0 tt 4999);
    auto; try done; [by apply zero_parent_wf|cbn; lia].
Defined.

Lemma writev_data_unreachable_witness :
  let f := zero_parent 8192 in
  exists f', scorw_ioctl_see_thru_writev wenv_ok venv_ok f true (Some [IoVec 10 3 (Some three_bytes)]) 0 = Ok (1, f') /\
    version (p_vs (sf_p f')) = 1 /\
    (forall k, 0 <= k < 3 -> byte_at (sf_m f') (8192 + 10 + k) = three_bytes !!! Z.to_nat k) /\
    (forall q count, q / PAGE_SIZE = 0 -> exists m1 s1,
       scorw_read_from_parent venv_ok 1 (Some (p_vs (sf_p f'))) (par_org (p_vs (sf_p f'))) (sf_m f') q count =
         Ok ([], m1, Some s1)).
Proof.
  apply (writev_data_unreachable (zero_parent 8192) empty_log 10 three_bytes 0); auto; try done. by apply zero_parent_wf.
Defined.
