(* ===== verification/Ioctl.v ===== *)
(** What a program does with an open file: the ioctls of the layer
    ([__ext4_ioctl], [ioctl.c]), a write in see-through mode, and the release of the
    file ([ext4_release_file], [file.c]); and what the transaction lock excludes. *)

From S2P Require Import Prelude Pages Friend Log Versions Txn SeeThru.

Definition ENOTTY : Z := 25.

(** The commands, with the vectors of [SCORW_IOC_WRITEV] ([None] when they cannot be
    copied from the user). *)
Inductive ioctl_cmd :=
| EXT4_UPDATE_VERSION
| SCORW_IOC_WRITEV (args : option (list scorw_io_vec))
| EXT4_BEGIN_TRANSACTION
| EXT4_END_TRANSACTION
| EXT4_COMMIT.

(** A result on the scorw inode of a file, put back into the file. *)
Definition on_inode (f : option sfile) (r : Z * option pinode) : Z * option sfile :=
  (r.1, match f, r.2 with Some f, Some p => Some (SFile p (sf_m f)) | _, _ => None end).

(** The commands of the layer in [__ext4_ioctl], on an inode with its scorw inode, if
    it has one; [par] is the [curr_version] attribute of the parent it is linked to,
    [None] for a parent.  [EXT4_COMMIT] falls through to the default. *)
Definition ext4_ioctl (e : wenv) (ve : venv) (sig see_thru_ro : bool) (par : option Z) (f : option sfile) (filp : Z)
    (cmd : ioctl_cmd) (pad2 : Z) : outcome (Z * option sfile) :=
  match cmd with
  | EXT4_UPDATE_VERSION =>
      let (r, c) := update_version ((fun f => CInode (version (p_vs (sf_p f))) par) <$> f) in
      Ok (r, match f, c with
             | Some f, Some c => Some (SFile (set_vs (sf_p f) (set_version (p_vs (sf_p f)) (c_version c))) (sf_m f))
             | _, _ => None
             end)
  | SCORW_IOC_WRITEV args =>
      match f with
      | None => Ok (- EINVAL, None)
      | Some f => r ← scorw_ioctl_see_thru_writev e ve f see_thru_ro args pad2; Ok (r.1, Some r.2)
      end
  | EXT4_BEGIN_TRANSACTION => r ← scorw_set_transaction sig (sf_p <$> f) filp SET_TRANSACTION; Ok (on_inode f r)
  | EXT4_END_TRANSACTION => r ← scorw_set_transaction sig (sf_p <$> f) filp UNSET_TRANSACTION; Ok (on_inode f r)
  | EXT4_COMMIT => Ok (- ENOTTY, f)
  end.

(** The calls on an open file of a parent: an ioctl, a write, and the part of the
    release that aborts a transaction left open. *)
Inductive file_call := Ioctl (cmd : ioctl_cmd) | Write (pos : Z) (buf : list Z) | Close.

Definition release_transaction (f : sfile) (filp : Z) : Z * option sfile :=
  if scorw_self_transaction_status (Some (sf_p f)) filp =? SET_TRANSACTION
  then
    let r := scorw_set_transaction_error (Some (sf_p f)) filp in
    on_inode (Some f) (if r.1 =? 0 then 0 else - 25, r.2)
  else (0, Some f).

Definition run_file_call {S} (e : wenv) (ve : venv) (h : par_hooks S) (sig see_thru_ro : bool) (par : option Z)
    (f : sfile) (filp : Z) (c : file_call) (pad2 : Z) (st : S) : outcome (Z * option sfile * S) :=
  match c with
  | Ioctl cmd => r ← ext4_ioctl e ve sig see_thru_ro par (Some f) filp cmd pad2; Ok (r, st)
  | Write pos buf =>
      r ← scorw_generic_perform_write e ve h sig see_thru_ro true f filp pos buf pad2 st;
      let '(n, f', st') := r in Ok (n, Some f', st')
  | Close => Ok (release_transaction f filp, st)
  end.

(** Histories: calls by any files, in any environment, and whatever the page cache
    does with the data. *)
Inductive file_step : sfile -> sfile -> Prop :=
| file_step_call S (h : par_hooks S) e ve sig see_thru_ro par f filp c pad2 st r f' st' :
    run_file_call e ve h sig see_thru_ro par f filp c pad2 st = Ok (r, Some f', st') -> file_step f f'
| file_step_data f m : file_step f (SFile (sf_p f) m).

(** ** Lemmas: the lock *)

Definition file_locks (f : sfile) : Transaction_locks := t_locks (sf_p f).

Lemma on_inode_wf f r n f' :
  (forall p, r.2 = Some p -> locks_wf (t_locks p)) -> on_inode f r = (n, Some f') -> locks_wf (file_locks f').
Proof. unfold on_inode. destruct f, r as [? [p|]]; cbn; intros H E; simplify_eq. by apply H. Qed.

(** What a write in see-through mode acquires. *)
Lemma acquire_wf sig p file err p1 status :
  locks_wf (t_locks p) ->
  (if scorw_self_transaction_status (Some p) file =? SET_TRANSACTION then Ok (0, Some p, SET_TRANSACTION)
   else r ← scorw_set_transaction sig (Some p) file SET_NORMAL_WRITE; Ok (r.1, r.2, SET_NORMAL_WRITE)) = Ok (err, Some p1, status) ->
  locks_wf (t_locks p1).
Proof.
  intros Hw. destruct (_ =? _); [by intros [= <- <- <-]|]. intros ([r p'] & Hs & E)%bind_Ok_inv. cbn in E. simplify_eq.
  by eapply set_transaction_wf.
Qed.

Lemma abort_wf p file r p' :
  locks_wf (t_locks p) -> scorw_set_transaction_error (Some p) file = (r, Some p') -> locks_wf (t_locks p').
Proof. intros Hw. unfold scorw_set_transaction_error. case_bools; intros E; simplify_eq; try done; by split. Qed.

Lemma see_thru_write_wf e ve sig f file pos count pad2 r f' :
  locks_wf (file_locks f) -> scorw_write_see_thru_ro e ve sig (Some f) file pos count pad2 = Ok (r, Some f') -> locks_wf (file_locks f').
Proof.
  unfold file_locks, scorw_write_see_thru_ro. intros Hw Hr. apply bind_Ok_inv in Hr as ([[err [p1|]] status] & Ha & Hr); [|done].
  apply acquire_wf in Ha; [|done]. revert Hr. cbv beta iota zeta. destruct (negb _); [by intros [= <- <-]|].
  intros ([t [vs1|]] & _ & Hr)%bind_Ok_inv; [|done]. revert Hr. cbv beta iota zeta.
  intros ([c1 m1] & _ & Hr)%bind_Ok_inv. revert Hr. cbn [fst snd]. destruct (c1 <? 0); [by intros [= <- <-]|].
  intros ([c2 m2] & _ & Hr)%bind_Ok_inv. revert Hr. cbn [fst snd]. destruct (c2 <? 0); [by intros [= <- <-]|].
  intros ([c3 vs3] & _ & Hr)%bind_Ok_inv. revert Hr. cbn [fst snd]. destruct (_ =? SET_NORMAL_WRITE); [|by intros [= <- <-]].
  intros ([err2 [p4|]] & Hs & Hr)%bind_Ok_inv; [|done]. apply set_transaction_wf in Hs; [|done]. by simplify_eq.
Qed.

Lemma perform_write_wf {S} e ve (h : par_hooks S) sig see wp f file pos buf pad2 st r f' st' :
  locks_wf (file_locks f) -> scorw_generic_perform_write e ve h sig see wp f file pos buf pad2 st = Ok (r, f', st') -> locks_wf (file_locks f').
Proof.
  unfold scorw_generic_perform_write. intros Hw ([pos' [f1|]] & Hr & E)%bind_Ok_inv; [|done].
  assert (locks_wf (file_locks f1)) as Hw1 by (destruct see; [by eapply see_thru_write_wf|by simplify_eq]).
  revert E. cbv beta iota zeta. destruct (pos' <? 0); [by intros [= <- <- <-]|].
  intros ([[n m'] s'] & _ & E)%bind_Ok_inv. by simplify_eq.
Qed.

Lemma writev_locks e ve f see args pad2 r f' :
  scorw_ioctl_see_thru_writev e ve f see args pad2 = Ok (r, f') -> file_locks f' = file_locks f.
Proof.
  unfold scorw_ioctl_see_thru_writev. destruct (negb see); [by intros [= <- <-]|]. destruct args as [vecs|]; [|by intros [= <- <-]].
  destruct (_ || _); [by intros [= <- <-]|]. destruct (negb _); [by intros [= <- <-]|].
  intros ([n m1] & _ & E)%bind_Ok_inv. revert E. cbn [fst snd]. destruct (n <? 0); [by intros [= <- <-]|].
  intros ([b s1] & _ & E)%bind_Ok_inv. revert E. cbn. destruct (negb b); [by intros [= <- <-]|].
  intros (s2 & _ & E)%bind_Ok_inv. by simplify_eq.
Qed.

Lemma release_wf f file r f' : locks_wf (file_locks f) -> release_transaction f file = (r, Some f') -> locks_wf (file_locks f').
Proof.
  unfold release_transaction. intros Hw. destruct (_ =? _); [|by intros [= <- <-]]. apply on_inode_wf. intros p.
  destruct (scorw_set_transaction_error _ _) as [n o] eqn:Ep. cbn. intros ->. by eapply abort_wf.
Qed.

Lemma file_call_wf {S} e ve (h : par_hooks S) sig see par f file c pad2 st r f' st' :
  locks_wf (file_locks f) -> run_file_call e ve h sig see par f file c pad2 st = Ok (r, Some f', st') -> locks_wf (file_locks f').
Proof.
  intros Hw. destruct c as [cmd|pos buf|]; cbn [run_file_call].
  - intros ([n o] & Hr & E)%bind_Ok_inv. simplify_eq. revert Hr. destruct cmd; cbn [ext4_ioctl fmap option_fmap option_map].
    + cbn [update_version c_par_curr_version]. destruct par; cbn; by intros [= <- <-].
    + intros ([m f1] & Hr & E)%bind_Ok_inv. cbn in E. simplify_eq. by rewrite (writev_locks _ _ _ _ _ _ _ _ Hr).
    + intros ([m [p|]] & Hr & E)%bind_Ok_inv; cbn in E; simplify_eq. by eapply set_transaction_wf.
    + intros ([m [p|]] & Hr & E)%bind_Ok_inv; cbn in E; simplify_eq. by eapply set_transaction_wf.
    + by intros [= <- <-].
  - intros ([[n f1] s1] & Hr & E)%bind_Ok_inv. simplify_eq. by eapply perform_write_wf.
  - intros E. injection E as E _. by eapply release_wf.
Qed.

Lemma file_steps_wf f f' : locks_wf (file_locks f) -> rtc file_step f f' -> locks_wf (file_locks f').
Proof. intros Hw Hr. induction Hr as [|f1 f2 f3 [] _ IH]; [done|apply IH; by eapply file_call_wf|by apply IH]. Qed.

(** A see-through write cannot take a lock that another file holds. *)
Lemma see_thru_write_blocked e ve sig f file pos count pad2 r f' :
  transaction_lock (file_locks f) = true -> owner (file_locks f) <> Some file ->
  scorw_write_see_thru_ro e ve sig (Some f) file pos count pad2 = Ok (r, f') -> r = - EIO /\ f' = Some f.
Proof.
  unfold file_locks, scorw_write_see_thru_ro. intros Hl Ho. rewrite self_status_other by done. change (-1 =? SET_TRANSACTION) with false.
  cbv iota zeta. unfold scorw_set_transaction. rewrite self_status_other, Hl by done. cbn. destruct sig; [|done]. cbn.
  intros [= <- <-]. by destruct f.
Qed.

(** ** Properties *)

(** C34: In every state that calls of any files lead to, the ioctl [SCORW_IOC_WRITEV]
    among them, in whatever environment: a transaction lock that is held has exactly
    one owner.  As long as it is held, the calls of every other file wait or leave
    the parent, its log and data untouched, and fail unless they are a close;
    the calls are the ioctls but [SCORW_IOC_WRITEV], writes of a file in see-through
    mode, and the release.  The vectored write is left out because it does not take
    the lock, as [writev_ignores_transaction] shows. *)
Theorem transaction_exclusive {S} (e : wenv) (ve : venv) (h : par_hooks S) (sig : bool) (p0 : pinode) (m0 : mapping) (f : sfile)
    (file other : Z) (c : file_call) (pad2 : Z) (st : S) (r : Z) (f' : option sfile) (st' : S) :
  rtc file_step (SFile (init_Transaction_locks p0) m0) f -> owner (file_locks f) = Some file -> other <> file ->
  (forall args, c <> Ioctl (SCORW_IOC_WRITEV args)) ->
  run_file_call e ve h sig true None f other c pad2 st = Ok (r, f', st') ->
  transaction_lock (file_locks f) = true /\ f' = Some f /\ st' = st /\ (c <> Close -> r < 0).
Proof.
  intros Hr Ho Hne Hv Hc. pose proof (file_steps_wf (SFile _ m0) f (init_locks_wf p0) Hr) as Hw.
  assert (transaction_lock (file_locks f) = true) as Hl.
  { destruct (transaction_lock (file_locks f)) eqn:E; [done|]. rewrite (lk_free _ Hw E) in Ho. done. }
  split; [done|]. assert (owner (file_locks f) <> Some other) as Hoth by congruence. unfold file_locks in *.
  destruct c as [cmd|pos buf|]; cbn [run_file_call] in Hc.
  - apply bind_Ok_inv in Hc as ([n o] & Hc & E). simplify_eq. destruct cmd; cbn [ext4_ioctl fmap option_fmap option_map] in Hc.
    + cbn in Hc. simplify_eq. destruct f as [[[] ?] ?]. done.
    + exfalso. by eapply Hv.
    + unfold scorw_set_transaction in Hc. rewrite self_status_other, Hl in Hc by done. cbn in Hc. destruct sig; [|done]. cbn in Hc.
      simplify_eq. by destruct f.
    + unfold scorw_set_transaction in Hc. rewrite Hl, bool_decide_false in Hc by done. cbn in Hc. simplify_eq. by destruct f.
    + by simplify_eq.
  - unfold scorw_generic_perform_write in Hc. apply bind_Ok_inv in Hc as ([[n f1] s1] & Hc & E). simplify_eq.
    apply bind_Ok_inv in Hc as ([p1 o] & Hw1 & E). apply see_thru_write_blocked in Hw1 as [-> ->]; [|done|done].
    cbv beta iota in E. change (- EIO <? 0) with true in E. cbv iota in E. by simplify_eq.
  - unfold release_transaction in Hc. rewrite self_status_other in Hc by done. cbn in Hc. by simplify_eq.
Qed.

(** The vectored write does not take the transaction lock: one of another file goes
    ahead in the middle of a transaction and moves the parent to the version the
    transaction is writing its records under. *)
Theorem writev_ignores_transaction (f : sfile) (lm : mapping) (par : option Z) (file other off : Z) (buf : list Z) (pad2 : Z) :
  let v := version (p_vs (sf_p f)) in
  sf_wf f lm -> file_locks f = TLocks true (Some file) SET_TRANSACTION -> other <> file -> 0 <= off < 2 ^ 42 -> Forall byte_ok buf ->
  off mod PAGE_SIZE + Z.of_nat (length buf) <= PAGE_SIZE -> v < MAX_VERSIONS -> 0 <= pad2 < 2 ^ 64 ->
  exists f', ext4_ioctl wenv_ok venv_ok false true par (Some f) other
      (SCORW_IOC_WRITEV (Some [IoVec off (Z.of_nat (length buf)) (Some buf)])) pad2 = Ok (1, Some f') /\
    version (p_vs (sf_p f')) = v + 1 /\ file_locks f' = file_locks f.
Proof.
  cbv zeta. intros Hf Hl Hne Ho Hb Hp Hv Hpad. destruct (writev_data_unreachable f lm off buf pad2) as (f' & Hr & Hver & _); try done.
  exists f'. cbn [ext4_ioctl]. rewrite Hr. cbn. split; [done|]. split; [done|]. by rewrite (writev_locks _ _ _ _ _ _ _ _ Hr).
Qed.

(** ** Witnesses *)

(** File 7 is in a transaction. *)
Definition in_transaction : sfile :=
  SFile (PInode (fresh_vstate 0 8192 empty_log) (TLocks true (Some 7) SET_TRANSACTION)) (Mapping 8192 8192 ∅ ∅).
Lemma reach_transaction :
  rtc file_step (SFile (init_Transaction_locks (PInode (fresh_vstate 0 8192 empty_log) (TLocks false None 0))) (Mapping 8192 8192 ∅ ∅)) in_transaction.
Proof.
  apply rtc_once.
  by apply (file_step_call unit no_hooks wenv_ok venv_ok false true None _ 7 (Ioctl EXT4_BEGIN_TRANSACTION) 0 tt 0 _ tt).
Qed.

Lemma transaction_exclusive_witness :
  transaction_lock (file_locks in_transaction) = true /\ Some in_transaction = Some in_transaction /\ tt = tt /\ (Write 10 [1; 2; 3] <> Close -> - EIO < 0).
Proof.
  apply (transaction_exclusive wenv_ok venv_ok no_hooks true (PInode (fresh_vstate 0 8192 empty_log) (TLocks false None 0)) (Mapping 8192 8192 ∅ ∅)
    in_transaction 7 8 (Write 10 [1; 2; 3]) 0 tt (- EIO)); [apply reach_transaction|done|done|done|by vm_compute].
Defined.

Lemma writev_ignores_transaction_witness :
  exists f', ext4_ioctl wenv_ok venv_ok false true None (Some in_transaction) 8
      (SCORW_IOC_WRITEV (Some [IoVec 10 (Z.of_nat (length [1; 2; 3])) (Some [1; 2; 3])])) 0 = Ok (1, Some f') /\
    version (p_vs (sf_p f')) = 0 + 1 /\ file_locks f' = file_locks in_transaction.
Proof.
  apply (writev_ignores_transaction in_transaction empty_log None 7 8 10 [1; 2; 3] 0); try done.
  - destruct (zero_parent_wf 8192) as [H1 H2 H3 H4 H5 H6]; [done|]. by split.
  - by repeat constructor.
Defined.
