(* ===== verification/GC.v ===== *)
(** Garbage collection of superseded blocks: collecting and sorting the versions
    in use, scanning the log for blocks no version in use resolves to, and
    punching them out of the parent ([scorw_gc_blocks],
    [scorw_gc_find_next_active], [scorw_punch_hole_range] of
    [corw_sparse.c]). *)

From stdpp Require Import sorting.
From S2P Require Import Prelude Pages Friend Log Versions.

(** ** Versions in use *)

(** A child slot of the parent: the inode number of the attribute (0 when
    empty), whether [ext4_iget] finds the inode, and its two version
    attributes. *)
Record gc_child := GcChild { gc_ino : Z; gc_iget : bool; gc_curr_version : Z; gc_child_version : Z }.

(** One turn of the collecting loop; [active_vers[k] == v] compares an [int]
    with an [unsigned long]. *)
Definition collect_child (active_vers : list Z) (c : gc_child) : list Z :=
  if (gc_ino c =? 0) || negb (gc_iget c) then active_vers
  else
    let v := if gc_curr_version c =? 0 then gc_child_version c else gc_curr_version c in
    if existsb (fun a => u64 a =? v) active_vers then active_vers else active_vers ++ [s32 v].

(** Versions 0, of the children of the first [SCORW_MAX_CHILDS] slots, and of
    the parent. *)
Definition collect_active (children : list gc_child) (parent_version : Z) : list Z :=
  let active_vers := foldl collect_child [0] (take (Z.to_nat SCORW_MAX_CHILDS) children) in
  if existsb (fun a => a =? parent_version) active_vers then active_vers else active_vers ++ [parent_version].

(** The inner loop of the sort: the element at [i] is carried over the elements
    after it and swapped with each smaller one. *)
Fixpoint exchange_pass (x : Z) (ys : list Z) : Z * list Z :=
  match ys with
  | [] => (x, [])
  | y :: ys' =>
      if y <? x then let (m, r) := exchange_pass y ys' in (m, x :: r)
      else let (m, r) := exchange_pass x ys' in (m, y :: r)
  end.

(** The outer loop; [n] is the number of elements. *)
Fixpoint selection_sort (n : nat) (l : list Z) : list Z :=
  match n, l with
  | S n', x :: ys => let (m, r) := exchange_pass x ys in m :: selection_sort n' r
  | _, _ => l
  end.

(** [scorw_gc_find_next_active]: the first version at least [target_ver]. *)
Fixpoint scorw_gc_find_next_active (target_ver : Z) (active_vers : list Z) : Z :=
  match active_vers with
  | [] => -1
  | a :: l => if target_ver <=? a then a else scorw_gc_find_next_active target_ver l
  end.

(** ** The scan *)

(** [state_map] and [garbage_blocks]. *)
Record gc_state := GcState { state_map : gmap Z (Z * Z); garbage_blocks : gset Z }.

(** One block of a record: logical block [L] moves to [P_new] at [ver].  [mem]
    says whether [kmalloc] succeeds. *)
Definition gc_block (mem : bool) (active_vers : list Z) (ver L P_new : Z) (s : gc_state) : gc_state :=
  let old_state := state_map s !! L in
  let v_prev := from_option fst 0 old_state in
  let p_prev := from_option snd L old_state in
  let a_next := scorw_gc_find_next_active v_prev active_vers in
  let garbage := if (a_next =? -1) || (ver <=? u32 a_next) then {[p_prev]} ∪ garbage_blocks s else garbage_blocks s in
  GcState (if bool_decide (is_Some old_state) || mem then <[L := (ver, P_new)]> (state_map s) else state_map s) garbage.

(** One record of the log. *)
Definition gc_record (mem : bool) (active_vers : list Z) (rec : scorw_log_record) (s : gc_state) : gc_state :=
  if 0 <? version_num rec then
    foldl (fun s k => gc_block mem active_vers (version_num rec) (u32 (logical_start_blk rec + k))
                        (u64 (physical_start_blk rec + k)) s)
      s (zseq 0 (Z.to_nat (len_blks rec)))
  else s.

(** The blocks to punch, in increasing order, and the log after the scan. *)
Definition gc_scan (mem : bool) (rd : Z -> bool) (active_vers : list Z) (log : mapping) : outcome (gc_state * mapping) :=
  scan_log rd (gc_record mem active_vers) (scan_fuel (i_size log)) log (i_size log) 0 (GcState ∅ ∅).

(** ** Punching holes *)

(** The mapped blocks of a file, and what [ext4_map_blocks] answers about
    [len] blocks from [lblk] on: the return value, [m_len], and whether the
    extent is mapped; [rm] is what removing a range returns. *)
Class MapBlocks := {
  map_blocks : gset Z -> Z -> Z -> Z * Z * bool;
  remove_space : gset Z -> Z -> Z -> Z
}.

Definition block_range (a n : Z) : gset Z := list_to_set (zseq a (Z.to_nat n)).

(** [scorw_punch_hole_range].  Every iteration advances by at least one block,
    so the number of blocks is enough fuel. *)
Fixpoint punch_loop `{MapBlocks} (fuel : nat) (blocks : gset Z) (cur end_ : Z) : outcome (gset Z) :=
  if negb (cur <? end_) then Ok blocks
  else match fuel with
  | O => Hang
  | S fuel' =>
      let '(ret, m_len, mapped) := map_blocks blocks cur (end_ - cur) in
      if ret <? 0 then Ok blocks
      else if (ret =? 0) || negb mapped then
        punch_loop fuel' blocks (cur + if m_len =? 0 then 1 else m_len) end_
      else if negb (remove_space blocks cur m_len =? 0) then Ok blocks
      else punch_loop fuel' (blocks ∖ block_range cur m_len) (cur + m_len) end_
  end.

Definition scorw_punch_hole_range `{MapBlocks} (blocks : gset Z) (start_lblk len_blks : Z) : outcome (gset Z) :=
  punch_loop (Z.to_nat len_blks) blocks start_lblk (start_lblk + len_blks).

(** [scorw_gc_blocks] on a parent with a log: the blocks of the parent left
    mapped.  [None] is an inode without log. *)
Definition scorw_gc_blocks `{MapBlocks} (mem : bool) (rd : Z -> bool) (children : list gc_child) (parent_version : Z)
    (log : option mapping) (blocks : gset Z) : outcome (gset Z * option mapping) :=
  match log with
  | None => Ok (blocks, None)
  | Some lm =>
      let active := collect_active children parent_version in
      r ← gc_scan mem rd (selection_sort (length active) active) lm;
      let '(s, lm') := r in
      blocks' ← for_each (merge_sort Z.le (elements (garbage_blocks s)))
                  (fun p_idx b => scorw_punch_hole_range b (u32 p_idx) 1) blocks;
      Ok (blocks', Some lm')
  end.

(** ** Lemmas: sorting *)

Lemma exchange_pass_spec x ys m r :
  exchange_pass x ys = (m, r) -> m :: r ≡ₚ x :: ys /\ Forall (fun y => m <= y) r /\ m <= x /\ length r = length ys.
Proof.
  revert x m r. induction ys as [|y ys IH]; intros x m r; simpl; [by intros [= <- <-]|].
  destruct (Z.ltb_spec y x) as [Hlt|Hge].
  - destruct (exchange_pass y ys) as [m' r'] eqn:E. intros [= <- <-].
    destruct (IH _ _ _ E) as (Hp & Hf & Hm & Hl). split_and!; [|constructor; [lia|done]|lia|simpl; lia].
    by rewrite Permutation_swap, Hp.
  - destruct (exchange_pass x ys) as [m' r'] eqn:E. intros [= <- <-].
    destruct (IH _ _ _ E) as (Hp & Hf & Hm & Hl). split_and!; [|constructor; [lia|done]|lia|simpl; lia].
    rewrite Permutation_swap, Hp. apply Permutation_swap.
Qed.

Lemma selection_sort_spec n l :
  length l = n -> selection_sort n l ≡ₚ l /\ StronglySorted Z.le (selection_sort n l).
Proof.
  revert l. induction n as [|n IH]; intros l Hl.
  { destruct l; [|done]. split; [done|constructor]. }
  destruct l as [|x ys]; [done|]. simpl. destruct (exchange_pass x ys) as [m r] eqn:E.
  destruct (exchange_pass_spec _ _ _ _ E) as (Hp & Hf & _ & Hlen).
  destruct (IH r) as [Hp' Hs]; [simpl in Hl; lia|]. split; [by rewrite Hp'|].
  constructor; [done|]. by rewrite Hp'.
Qed.

Lemma find_next_active_spec t l :
  StronglySorted Z.le l -> Forall (Z.le 0) l ->
  let a := scorw_gc_find_next_active t l in
  (a = -1 /\ Forall (fun x => x < t) l) \/ (a ∈ l /\ t <= a /\ Forall (fun x => t <= x -> a <= x) l).
Proof.
  intros Hs Hp. cbv zeta. induction Hs as [|x l Hs IH Hf]; [by left|].
  apply Forall_cons in Hp as [Hx Hp]. simpl. destruct (Z.leb_spec t x) as [Hle|Hgt].
  - right. split_and!; [by left|done|]. constructor; [lia|]. eapply Forall_impl; [exact Hf|]. simpl. lia.
  - destruct (IH Hp) as [[-> H]|(Hin & Ht & H)]; [left|right]; split_and!; auto.
    + by right.
    + constructor; [lia|done].
Qed.

Lemma collect_child_length l c : (length (collect_child l c) <= S (length l))%nat.
Proof. unfold collect_child. case_bools; autorewrite with len; simpl; lia. Qed.

Lemma collect_children_length cs l : (length (foldl collect_child l cs) <= length l + length cs)%nat.
Proof.
  revert l. induction cs as [|c cs IH]; intros l; simpl; [lia|].
  pose proof (IH (collect_child l c)). pose proof (collect_child_length l c). lia.
Qed.

Lemma collect_child_keeps l c x : x ∈ l -> x ∈ collect_child l c.
Proof. intros. unfold collect_child. case_bools; set_solver. Qed.
Lemma collect_children_keep cs l x : x ∈ l -> x ∈ foldl collect_child l cs.
Proof. revert l. induction cs as [|c cs IH]; intros l Hx; simpl; [done|]. by apply IH, collect_child_keeps. Qed.

(** The version a child slot is at. *)
Definition child_at (c : gc_child) : Z :=
  if gc_curr_version c =? 0 then gc_child_version c else gc_curr_version c.

Lemma collect_child_adds l c :
  gc_ino c <> 0 -> gc_iget c = true -> 0 <= child_at c < 2 ^ 31 -> Forall (fun a => 0 <= a < 2 ^ 31) l ->
  child_at c ∈ collect_child l c.
Proof.
  intros Hi Hg Hv Hl. unfold collect_child. rewrite (proj2 (Z.eqb_neq _ 0)), Hg by done. simpl.
  fold (child_at c). destruct (existsb _ l) eqn:E.
  - apply existsb_exists in E as (a & Ha & Heq). apply Z.eqb_eq in Heq. apply list_elem_of_In in Ha.
    rewrite Forall_forall in Hl. specialize (Hl a Ha). rewrite u64_small in Heq by lia. by subst.
  - rewrite s32_small by lia. set_solver.
Qed.

Lemma collect_child_range l c :
  0 <= child_at c < 2 ^ 31 -> Forall (fun a => 0 <= a < 2 ^ 31) l -> Forall (fun a => 0 <= a < 2 ^ 31) (collect_child l c).
Proof.
  intros Hc Hl. unfold collect_child. fold (child_at c). case_bools; try done.
  apply Forall_app. split; [done|]. constructor; [|done]. by rewrite s32_small by lia.
Qed.

(** ** The log as block moves *)

(** One block of one record: block [e_blk] moved to [e_phys] at version
    [e_ver]. *)
Record entry := Entry { e_blk : Z; e_ver : Z; e_phys : Z }.

Definition rec_entries (r : scorw_log_record) : list entry :=
  (fun k => Entry (logical_start_blk r + k) (version_num r) (physical_start_blk r + k)) <$> zseq 0 (Z.to_nat (len_blks r)).
Definition entries (recs : list scorw_log_record) : list entry := mjoin (rec_entries <$> recs).

(** Where version [a] finds block [b]: the last move of [b] at or below [a]. *)
Definition cur (a b : Z) (es : list entry) : Z :=
  foldl (fun c e => if bool_decide (e_blk e = b /\ e_ver e <= a) then e_phys e else c) b es.

(** Records as the writers produce them. *)
Record gc_record_ok (r : scorw_log_record) : Prop := {
  gr_version : 1 <= version_num r <= MAX_VERSIONS;
  gr_args : write_args_ok (logical_start_blk r) (physical_start_blk r) (len_blks r) (padding2 r);
  gr_padding : padding r = 0
}.

Definition gc_entry (active : list Z) (s : gc_state) (e : entry) : gc_state :=
  gc_block true active (e_ver e) (e_blk e) (e_phys e) s.

Lemma gc_record_entries active r s :
  gc_record_ok r -> gc_record true active r s = foldl (gc_entry active) s (rec_entries r).
Proof.
  intros [Hv [] _]. unfold gc_record, rec_entries. rewrite (proj2 (Z.ltb_lt 0 _)) by lia.
  assert (forall k, k ∈ zseq 0 (Z.to_nat (len_blks r)) -> 0 <= k < len_blks r) as Hk
    by (intros k ?%elem_of_zseq; lia).
  revert s Hk. induction (zseq 0 (Z.to_nat (len_blks r))) as [|k l IH]; intros s Hk; [done|].
  assert (0 <= k < len_blks r) by (apply Hk; by left). simpl.
  rewrite IH by (intros; apply Hk; by right). unfold gc_entry at 2. simpl.
  by rewrite u32_small, u64_small by lia.
Qed.

Lemma gc_scan_entries active lm :
  log_wf lm -> Forall gc_record_ok (log_records lm) ->
  exists lm', gc_scan true (fun _ => true) active lm =
    Ok (foldl (gc_entry active) (GcState ∅ ∅) (entries (log_records lm)), lm') /\ log_records lm' = log_records lm.
Proof.
  intros Hw Hr. pose proof (wf_size _ (lw_mapping _ Hw)). unfold gc_scan.
  destruct (scan_log_spec (gc_record true active) (scan_fuel (i_size lm)) lm 0 (GcState ∅ ∅) Hw)
    as (lm' & Hs & Hw' & Hsz & _ & Hp & _).
  { lia. }
  { unfold sizeof_record. lia. }
  { unfold scan_fuel. rewrite Z.sub_0_r. lia. }
  rewrite Z.mul_0_r, records_left_0 in Hs. exists lm'. split; [|by apply log_records_ext].
  rewrite Hs. do 2 f_equal. clear -Hr. unfold entries. generalize (GcState ∅ ∅).
  induction Hr as [|r l Hok Hl IH]; intros s; [done|]. simpl. rewrite foldl_app, <- IH.
  by rewrite gc_record_entries.
Qed.

(** ** Lemmas: soundness of the scan *)

Lemma cur_snoc a b es e :
  cur a b (es ++ [e]) = if bool_decide (e_blk e = b /\ e_ver e <= a) then e_phys e else cur a b es.
Proof. unfold cur. by rewrite foldl_app. Qed.

Lemma cur_cases a b es :
  (cur a b es = b /\ forall e, e ∈ es -> e_blk e = b -> e_ver e <= a -> False) \/
  exists v, v <= a /\ Entry b v (cur a b es) ∈ es.
Proof.
  induction es as [|e es IH] using rev_ind.
  { left. split; [done|]. by intros e ?%elem_of_nil. }
  rewrite cur_snoc. case_bool_decide as Hd.
  - right. exists (e_ver e). split; [tauto|]. destruct e, Hd as [<- _]. set_solver.
  - destruct IH as [[IH1 IH2]|(v & Hv & Hin)]; [left|right; exists v; set_solver].
    split; [done|]. intros e' [He| ->%list_elem_of_singleton]%elem_of_app; [by apply IH2|tauto].
Qed.

(** The facts about the versions in use the scan relies on. *)
Record active_ok (active : list Z) : Prop := {
  ao_sorted : StronglySorted Z.le active;
  ao_range : Forall (fun a => 0 <= a < 2 ^ 31) active;
  ao_zero : 0 ∈ active
}.

Lemma next_active_le active v a :
  active_ok active -> a ∈ active -> v <= a ->
  let n := scorw_gc_find_next_active v active in n <> -1 /\ v <= n <= a /\ u32 n = n.
Proof.
  intros [Hs Hr _] Ha Hv. cbv zeta.
  destruct (find_next_active_spec v active Hs) as [[_ Hf]|(Hin & Hn & Hf)].
  - eapply Forall_impl; [exact Hr|]. simpl. lia.
  - rewrite Forall_forall in Hf. specialize (Hf a Ha). lia.
  - rewrite Forall_forall in Hf, Hr. specialize (Hf a Ha Hv). specialize (Hr _ Hin).
    split_and!; try lia. apply u32_small. lia.
Qed.

(** The invariant of the scan after the moves [es]. *)
Record gc_inv (base : Z) (active : list Z) (es : list entry) (s : gc_state) : Prop := {
  gi_state : forall L v P, state_map s !! L = Some (v, P) -> Entry L v P ∈ es;
  gi_garbage : forall p, p ∈ garbage_blocks s -> p ∈ e_phys <$> es;
  gi_safe : forall a b, a ∈ active -> b < base \/ (exists e, e ∈ es /\ e_blk e = b /\ e_ver e <= a) ->
    cur a b es ∉ garbage_blocks s
}.

Lemma phys_inj es e1 e2 : NoDup (e_phys <$> es) -> e1 ∈ es -> e2 ∈ es -> e_phys e1 = e_phys e2 -> e1 = e2.
Proof.
  intros Hnd [i Hi]%list_elem_of_lookup [j Hj]%list_elem_of_lookup Hp.
  assert (i = j) as ->; [|congruence].
  eapply NoDup_lookup; [exact Hnd| |]; rewrite list_lookup_fmap; [by rewrite Hi|by rewrite Hj, Hp].
Qed.

(** The block a move supersedes is no block a version in use still finds. *)
Lemma superseded_unused base active es e s a b v0 p0 :
  active_ok active -> gc_inv base active es s -> NoDup (e_phys <$> es) -> Forall (fun e => base <= e_phys e) es ->
  state_map s !! e_blk e = Some (v0, p0) ->
  (scorw_gc_find_next_active v0 active =? -1) || (e_ver e <=? u32 (scorw_gc_find_next_active v0 active)) = true ->
  a ∈ active -> ~ (e_blk e = b /\ e_ver e <= a) ->
  b < base \/ (exists e', e' ∈ es /\ e_blk e' = b /\ e_ver e' <= a) -> cur a b es <> p0.
Proof.
  intros Hact Hinv Hnd Hbase Hst Hc Ha Hne Hb Heq. pose proof (gi_state _ _ _ _ Hinv _ _ _ Hst) as Hin0.
  destruct (cur_cases a b es) as [[Hcur Hno]|(v' & Hv' & Hin')].
  - destruct Hb as [Hb|(e' & He' & Hb1 & Hb2)]; [|by apply (Hno e')].
    rewrite Forall_forall in Hbase. specialize (Hbase _ Hin0). simpl in Hbase. lia.
  - rewrite Heq in Hin'. pose proof (phys_inj _ _ _ Hnd Hin0 Hin' eq_refl) as [= Hb1 Hv1]. subst v'.
    destruct (next_active_le active v0 a Hact Ha Hv') as (Hn1 & Hn2 & Hn3). rewrite Hn3 in Hc.
    apply orb_true_iff in Hc as [Hc|Hc]; [apply Z.eqb_eq in Hc; done|].
    apply Z.leb_le in Hc. apply Hne. split; [done|lia].
Qed.

Lemma gc_entry_inv base active es e s :
  active_ok active -> gc_inv base active es s -> 1 <= e_ver e ->
  NoDup (e_phys <$> (es ++ [e])) -> Forall (fun e => base <= e_phys e) es ->
  gc_inv base active (es ++ [e]) (gc_entry active s e).
Proof.
  intros Hact Hinv Hver Hnd Hbase. rewrite fmap_app in Hnd.
  apply NoDup_app in Hnd as (Hnd & Hfresh & _). unfold gc_entry, gc_block.
  set (old := state_map s !! e_blk e). set (n := scorw_gc_find_next_active _ _).
  set (c := (n =? -1) || _). rewrite orb_true_r.
  assert (c = true -> exists v0 p0, old = Some (v0, p0)) as Hold.
  { intros Hc. destruct old as [[v0 p0]|] eqn:E; [eauto|]. exfalso. simpl in n.
    destruct (next_active_le active 0 0 Hact (ao_zero _ Hact)) as (Hn1 & Hn2 & Hn3); [lia|]. fold n in Hn1, Hn2, Hn3.
    subst c. rewrite Hn3, orb_true_iff, Z.eqb_eq, Z.leb_le in Hc. lia. }
  assert (e_phys e ∉ e_phys <$> es) as Hpn by (intros Hx; apply (Hfresh _ Hx); set_solver).
  assert (forall p, p ∈ (if c then {[from_option snd (e_blk e) old]} ∪ garbage_blocks s else garbage_blocks s) ->
    p ∈ garbage_blocks s \/ (c = true /\ exists v0, old = Some (v0, p))) as Hg.
  { intros p. destruct c; [|by left]. destruct (Hold eq_refl) as (v0 & p0 & ->). simpl. set_solver. }
  assert (forall p, p ∈ (if c then {[from_option snd (e_blk e) old]} ∪ garbage_blocks s else garbage_blocks s) ->
    p ∈ e_phys <$> es) as Hg2.
  { intros p [Hp|[_ [v0 Hp]]]%Hg; [by eapply gi_garbage|].
    apply list_elem_of_fmap. eexists. split; [|by eapply gi_state]. done. }
  split; cbn [state_map garbage_blocks].
  - intros L v P. rewrite lookup_insert. case_decide as Hd.
    + intros [= <- <-]. subst L. destruct e. set_solver.
    + intros Hl. apply (gi_state _ _ _ _ Hinv) in Hl. set_solver.
  - intros p Hp%Hg2. rewrite fmap_app. set_solver.
  - intros a b Ha Hb. rewrite cur_snoc. case_bool_decide as Hd; [by intros ?%Hg2|].
    assert (b < base \/ exists e', e' ∈ es /\ e_blk e' = b /\ e_ver e' <= a) as Hb'.
    { destruct Hb as [?|(e' & [He'| ->%list_elem_of_singleton]%elem_of_app & Hb1 & Hb2)]; [by left|right; eauto|tauto]. }
    intros [Hin|[Hc [v0 Hp]]]%Hg; [by eapply gi_safe|].
    eapply (superseded_unused base active es e s a b); eauto. subst c n. by rewrite Hp in Hc.
Qed.

Lemma gc_fold_inv base active es :
  active_ok active -> Forall (fun e => 1 <= e_ver e) es -> NoDup (e_phys <$> es) ->
  Forall (fun e => base <= e_phys e) es -> gc_inv base active es (foldl (gc_entry active) (GcState ∅ ∅) es).
Proof.
  intros Hact. induction es as [|e es IH] using rev_ind; intros Hv Hnd Hb.
  { split; simpl.
    - intros L v P. by rewrite lookup_empty.
    - set_solver.
    - set_solver. }
  rewrite foldl_app. simpl. apply Forall_app in Hv as [Hv Hv1]. apply Forall_app in Hb as [Hb Hb1].
  apply gc_entry_inv; [done| | |done|done].
  - apply IH; auto. rewrite fmap_app in Hnd. by apply NoDup_app in Hnd as [? _].
  - apply Forall_cons in Hv1. tauto.
Qed.

(** ** Lemmas: block moves and lookups *)

Lemma entries_snoc recs r : entries (recs ++ [r]) = entries recs ++ rec_entries r.
Proof. unfold entries. rewrite fmap_app, join_app. simpl. by rewrite app_nil_r. Qed.

Lemma cur_rec a b es r :
  cur a b (es ++ rec_entries r) =
  if bool_decide (logical_start_blk r <= b < logical_start_blk r + len_blks r /\ version_num r <= a)
  then physical_start_blk r + (b - logical_start_blk r) else cur a b es.
Proof.
  unfold rec_entries.
  assert (forall n, cur a b (es ++ ((fun k => Entry (logical_start_blk r + k) (version_num r) (physical_start_blk r + k)) <$> zseq 0 n)) =
    if bool_decide (logical_start_blk r <= b < logical_start_blk r + Z.of_nat n /\ version_num r <= a)
    then physical_start_blk r + (b - logical_start_blk r) else cur a b es) as H.
  { induction n as [|n IH].
    - rewrite bool_decide_false by lia. simpl. by rewrite app_nil_r.
    - rewrite zseq_snoc, fmap_app, app_assoc. cbn [fmap list_fmap]. rewrite cur_snoc, IH. cbn [e_blk e_ver e_phys].
      repeat case_bool_decide; try lia. }
  rewrite H. repeat case_bool_decide; lia.
Qed.

Lemma replay_map_above recs v b :
  0 <= v < 2 ^ 32 -> Forall (fun r => version_num r < v) recs -> replay_map recs v !! b = None.
Proof.
  intros Hv Hf. induction recs as [|r recs IH] using rev_ind; [apply lookup_empty|].
  apply Forall_app in Hf as [Hf Hr]. apply Forall_cons in Hr as [Hr _]. rewrite replay_map_snoc.
  unfold replay_record. rewrite u32_small by done. rewrite (proj2 (Z.eqb_neq _ _)) by lia. by apply IH.
Qed.

Lemma spec_find_newest recs c l p len pad2 v b :
  write_args_ok l p len pad2 -> 1 <= c <= MAX_VERSIONS -> Forall (fun r => version_num r <= c) recs ->
  c <= Z.of_nat v -> l <= b < l + len ->
  spec_find (recs ++ [LogRecord c l p len 0 pad2]) v b = Some (p + (b - l)).
Proof.
  intros Ha Hc Hf Hv Hb. pose proof Ha as [? ? ? ? ? ?]. unfold MAX_VERSIONS in *. induction v as [|v IH]; [lia|].
  cbn [spec_find]. unfold MAX_VERSIONS. destruct (decide (Z.of_nat (S v) = c)) as [He|Hne].
  - rewrite bool_decide_true by lia. rewrite replay_map_append by lia. rewrite bool_decide_true by lia.
    f_equal. rewrite u64_small by lia. apply xa_value_roundtrip. lia.
  - case_bool_decide as Hle; [|apply IH; lia]. rewrite replay_map_append by lia. rewrite bool_decide_false by lia.
    rewrite replay_map_above; [apply IH; lia|lia|]. eapply Forall_impl; [exact Hf|]. simpl. lia.
Qed.

Lemma spec_find_cur recs a b :
  Forall gc_record_ok recs -> StronglySorted (fun r1 r2 => version_num r1 <= version_num r2) recs -> 0 <= a ->
  (spec_find recs (Z.to_nat a) b = Some (cur a b (entries recs)) /\
   exists e, e ∈ entries recs /\ e_blk e = b /\ e_ver e <= a) \/
  (spec_find recs (Z.to_nat a) b = None /\ cur a b (entries recs) = b).
Proof.
  intros Hok Hs Ha. induction recs as [|r recs IH] using rev_ind.
  { right. split; [|done]. clear. induction (Z.to_nat a) as [|v IH]; [done|]. cbn [spec_find]. rewrite IH.
    by case_bool_decide. }
  apply Forall_app in Hok as [Hok Hr]. apply Forall_cons in Hr as [[Hv Hargs Hp0] _].
  apply StronglySorted_app in Hs as (Hlt & Hs & _). rewrite entries_snoc, cur_rec.
  destruct r as [c l p len pad pad2].
  cbn [version_num logical_start_blk physical_start_blk len_blks padding padding2] in *. subst pad.
  assert (Forall (fun r' => version_num r' <= c) recs) as Hle.
  { apply Forall_forall. intros r' Hr'. apply (Hlt r' (LogRecord c l p len 0 pad2) Hr'). by left. }
  case_bool_decide as Hd.
  - left. split; [apply spec_find_newest; auto; lia|].
    exists (Entry b c (p + (b - l))). split_and!; [|done|tauto].
    apply elem_of_app. right. apply list_elem_of_fmap. exists (b - l).
    split; [cbn; f_equal; lia|]. apply elem_of_zseq. cbn. lia.
  - rewrite spec_find_append by (auto; lia).
    destruct (IH Hok Hs) as [[Hf (e & He & Hb)]|Hn]; [left|by right].
    split; [done|]. exists e. split; [|done]. apply elem_of_app. by left.
Qed.

(** ** Lemmas: punching *)

(** The documented behaviour of [ext4_map_blocks] without allocation, and of
    removing a range that is mapped. *)
Class MapBlocksOk `{MapBlocks} : Prop := {
  mb_mapped : forall bs l n ret len mp, 0 < n -> map_blocks bs l n = (ret, len, mp) ->
    0 <= ret /\ 0 <= len <= n /\ (ret <> 0 -> mp = true -> 0 < len);
  mb_hole : forall bs l n ret len mp, 0 < n -> map_blocks bs l n = (ret, len, mp) -> ret = 0 \/ mp = false ->
    forall b, l <= b < l + Z.max 1 len -> b ∉ bs;
  mb_remove : forall bs l n, remove_space bs l n = 0
}.

Lemma elem_of_block_range b a n : b ∈ block_range a n <-> a <= b < a + n.
Proof. unfold block_range. rewrite elem_of_list_to_set, elem_of_zseq. lia. Qed.

Lemma range_empty (bs : gset Z) a n : n <= 0 -> bs ∖ block_range a n = bs.
Proof. intros. apply set_eq. intros x. rewrite elem_of_difference, elem_of_block_range. intuition lia. Qed.

Lemma range_split (bs : gset Z) a k n :
  0 <= k <= n -> bs ∖ block_range a k ∖ block_range (a + k) (n - k) = bs ∖ block_range a n.
Proof. intros. apply set_eq. intros x. rewrite !elem_of_difference, !elem_of_block_range. intuition lia. Qed.

Lemma range_unmapped (bs : gset Z) a k : (forall b, a <= b < a + k -> b ∉ bs) -> bs ∖ block_range a k = bs.
Proof.
  intros H. apply set_eq. intros x. rewrite elem_of_difference, elem_of_block_range. specialize (H x). tauto.
Qed.

Lemma punch_loop_spec `{MapBlocksOk} fuel bs c e :
  (Z.to_nat (e - c) <= fuel)%nat -> punch_loop fuel bs c e = Ok (bs ∖ block_range c (e - c)).
Proof.
  revert bs c. induction fuel as [|fuel IH]; intros bs c Hf; cbn [punch_loop].
  { rewrite (proj2 (Z.ltb_ge c e)) by lia. simpl. by rewrite range_empty by lia. }
  destruct (Z.ltb_spec c e) as [Hlt|Hge]; simpl; [|by rewrite range_empty by lia].
  destruct (map_blocks bs c (e - c)) as [[ret len] mp] eqn:E.
  destruct (mb_mapped bs c (e - c) ret len mp ltac:(lia) E) as (Hr & Hlen & Hpos).
  rewrite (proj2 (Z.ltb_ge ret 0)) by lia.
  destruct ((ret =? 0) || negb mp) eqn:Eh.
  - assert (ret = 0 \/ mp = false) as Hor.
    { apply orb_true_iff in Eh as [->%Z.eqb_eq|Hmp]; [by left|right]. by destruct mp. }
    pose proof (mb_hole bs c (e - c) ret len mp ltac:(lia) E Hor) as Hh.
    replace (if len =? 0 then 1 else len) with (Z.max 1 len) by (case_bools; lia).
    rewrite IH by lia. rewrite <- (range_split bs c (Z.max 1 len) (e - c)) by lia.
    rewrite (range_unmapped bs c (Z.max 1 len)) by done. do 3 f_equal. lia.
  - apply orb_false_iff in Eh as [Hz%Z.eqb_neq Hmp]. destruct mp; [|done].
    rewrite mb_remove. simpl. rewrite IH by (specialize (Hpos Hz eq_refl); lia).
    rewrite <- (range_split bs c len (e - c)) by lia. do 3 f_equal. lia.
Qed.

Lemma punch_all_spec `{MapBlocksOk} (ps : list Z) bs :
  Forall (fun p => 0 <= p < 2 ^ 32) ps ->
  for_each ps (fun p b => scorw_punch_hole_range b (u32 p) 1) bs = Ok (bs ∖ list_to_set ps).
Proof.
  intros Hf. revert bs. induction Hf as [|p ps Hp Hps IH]; intros bs.
  { simpl. f_equal. set_solver. }
  cbn [for_each]. assert (scorw_punch_hole_range bs (u32 p) 1 = Ok (bs ∖ {[p]})) as ->.
  { unfold scorw_punch_hole_range. rewrite punch_loop_spec, u32_small by lia. f_equal. apply set_eq. intros x.
    rewrite !elem_of_difference, elem_of_block_range, elem_of_singleton. intuition lia. }
  cbn [mbind outcome_bind]. rewrite IH. f_equal. set_solver.
Qed.

Lemma active_ok_collected children pv :
  Forall (fun a => 0 <= a < 2 ^ 31) (collect_active children pv) ->
  let active := collect_active children pv in
  active_ok (selection_sort (length active) active) /\ selection_sort (length active) active ≡ₚ active.
Proof.
  intros Hr. cbv zeta. set (act := collect_active children pv) in *.
  destruct (selection_sort_spec (length act) act eq_refl) as [Hp Hs]. split; [|done].
  split; [done|by rewrite Hp|rewrite Hp].
  assert (0 ∈ foldl collect_child [0] (take (Z.to_nat SCORW_MAX_CHILDS) children)) as H0
    by (apply collect_children_keep; by left).
  subst act. unfold collect_active. destruct (existsb _ _); [done|]. apply elem_of_app. by left.
Qed.

Lemma rec_entries_Forall (P : entry -> Prop) recs :
  (forall r e, r ∈ recs -> e ∈ rec_entries r -> P e) -> Forall P (entries recs).
Proof.
  intros H. apply Forall_forall. intros e He. unfold entries in He.
  apply list_elem_of_join in He as (l & He & Hl). apply list_elem_of_fmap in Hl as (r & -> & Hr). eauto.
Qed.

(** ** Properties *)

(** C6: Collection never takes a block a version in use needs: on a whole log
    whose records have non-decreasing versions and move blocks to distinct
    places past the original file, [scorw_gc_blocks] returns, unmaps nothing
    but blocks of the parent it had, and every block that any version in use
    (the base, each child's, the parent's) resolves to is still mapped. *)
Theorem gc_keeps_versions_in_use `{MapBlocksOk} (children : list gc_child) (pv orig : Z) (lm : mapping) (blocks : gset Z) :
  log_wf lm -> Forall gc_record_ok (log_records lm) ->
  StronglySorted (fun r1 r2 => version_num r1 <= version_num r2) (log_records lm) ->
  NoDup (e_phys <$> entries (log_records lm)) ->
  Forall (fun e => orig / PAGE_SIZE <= e_phys e < 2 ^ 32) (entries (log_records lm)) -> 0 <= orig ->
  Forall (fun a => 0 <= a < 2 ^ 31) (collect_active children pv) ->
  exists blocks' lm', scorw_gc_blocks true (fun _ => true) children pv (Some lm) blocks = Ok (blocks', Some lm') /\
    log_records lm' = log_records lm /\ blocks' ⊆ blocks /\
    forall a b, a ∈ collect_active children pv -> 0 <= b ->
      spec_lookup (log_records lm) orig a b <> BLK_NOT_FOUND ->
      spec_lookup (log_records lm) orig a b ∈ blocks -> spec_lookup (log_records lm) orig a b ∈ blocks'.
Proof.
  intros Hw Hok Hs Hnd Hph Ho Hr. unfold scorw_gc_blocks.
  destruct (active_ok_collected children pv Hr) as [Hact Hperm]. set (act := selection_sort _ _) in *.
  destruct (gc_scan_entries act lm Hw Hok) as (lm' & -> & Hl'). cbn [mbind outcome_bind].
  set (es := entries (log_records lm)) in *. set (s := foldl _ _ _).
  assert (gc_inv (orig / PAGE_SIZE) act es s) as Hinv.
  { apply gc_fold_inv; [done| |done|].
    - apply rec_entries_Forall. intros r e Hin He. rewrite Forall_forall in Hok. specialize (Hok r Hin).
      apply list_elem_of_fmap in He as (k & -> & _). simpl. pose proof (gr_version _ Hok). lia.
    - eapply Forall_impl; [exact Hph|]. simpl. lia. }
  rewrite punch_all_spec.
  2: { apply Forall_forall. intros p Hp. rewrite merge_sort_Permutation, elem_of_elements in Hp.
       apply (gi_garbage _ _ _ _ Hinv), list_elem_of_fmap in Hp as (e & -> & He).
       rewrite Forall_forall in Hph. specialize (Hph e He). simpl in Hph.
       pose proof (Z.div_pos orig PAGE_SIZE Ho ltac:(by compute)). lia. }
  cbn [mbind outcome_bind]. exists (blocks ∖ list_to_set (merge_sort Z.le (elements (garbage_blocks s)))), lm'.
  split_and!; [done|done|set_solver|]. intros a b Ha Hb Hnf Hin. apply elem_of_difference. split; [done|].
  rewrite elem_of_list_to_set, merge_sort_Permutation, elem_of_elements. rewrite <- Hperm in Ha.
  assert (0 <= a). { pose proof (ao_range _ Hact) as Hrg. rewrite Forall_forall in Hrg. specialize (Hrg a Ha). lia. }
  unfold spec_lookup in *. destruct (spec_find_cur (log_records lm) a b Hok Hs) as [[-> He]|[Hn Hc]]; [done| |].
  - apply (gi_safe _ _ _ _ Hinv); auto.
  - rewrite Hn in *. destruct (Z.ltb_spec b (orig / PAGE_SIZE)); [|done].
    rewrite <- Hc at 1. apply (gi_safe _ _ _ _ Hinv); auto.
Qed.

(** C38: The versions in use are all found: the array holds at most
    [SCORW_MAX_CHILDS + 2] of them (its size), among them version 0, the
    parent's version and the version of every child whose inode can be read,
    and the sort leaves them in increasing order. *)
Theorem gc_active_complete (children : list gc_child) (pv : Z) (c : gc_child) :
  (length children <= Z.to_nat SCORW_MAX_CHILDS)%nat ->
  Forall (fun c => 0 <= child_at c < 2 ^ 31) children ->
  let active := collect_active children pv in
  let sorted := selection_sort (length active) active in
  (Z.of_nat (length active) <= SCORW_MAX_CHILDS + 2) /\
  StronglySorted Z.le sorted /\ sorted ≡ₚ active /\ 0 ∈ sorted /\ pv ∈ sorted /\
  (c ∈ children -> gc_ino c <> 0 -> gc_iget c = true -> child_at c ∈ sorted).
Proof.
  intros Hl Hf. cbv zeta. set (act := collect_active children pv).
  destruct (selection_sort_spec (length act) act eq_refl) as [Hp Hs].
  pose proof (collect_children_length (take (Z.to_nat SCORW_MAX_CHILDS) children) [0]) as Hlen.
  assert (forall x, x ∈ foldl collect_child [0] (take (Z.to_nat SCORW_MAX_CHILDS) children) -> x ∈ act) as Hin.
  { intros x Hx. subst act. unfold collect_active. destruct (existsb _ _); [done|]. apply elem_of_app. by left. }
  split_and!; [|done|done|rewrite Hp; apply Hin, collect_children_keep; by left|rewrite Hp|].
  - subst act. unfold collect_active. rewrite length_take in Hlen. cbn [length] in Hlen.
    destruct (existsb _ _); autorewrite with len; cbn [length]; unfold SCORW_MAX_CHILDS in *; lia.
  - subst act. unfold collect_active. destruct (existsb _ _) eqn:E; [|apply elem_of_app; right; by left].
    apply existsb_exists in E as (a & Ha & ->%Z.eqb_eq). by apply list_elem_of_In.
  - intros Hc Hi Hg. rewrite Hp. apply Hin. rewrite take_ge by done.
    assert (Forall (fun a => 0 <= a < 2 ^ 31) [0]) as H0 by (constructor; [lia|constructor]).
    clear -Hc Hi Hg Hf H0. revert H0. generalize [0]. induction children as [|c' cs IH]; intros l Hl.
    { by apply elem_of_nil in Hc. }
    apply Forall_cons in Hf as [Hf1 Hf2]. simpl. apply elem_of_cons in Hc as [<-|Hc].
    + apply collect_children_keep. by apply collect_child_adds.
    + apply IH; auto. by apply collect_child_range.
Qed.

(** ** Witnesses *)

(** A file system that maps one block at a time. *)
#[local] Instance one_by_one : MapBlocks := {
  map_blocks bs l n := if bool_decide (l ∈ bs) then (1, 1, true) else (0, 1, false);
  remove_space bs l n := 0
}.
#[local] Instance one_by_one_ok : MapBlocksOk.
Proof.
  split; simpl; try done.
  - intros bs l n ret len mp Hn. case_bool_decide; intros [= <- <- <-]; split_and!; lia.
  - intros bs l n ret len mp Hn. case_bool_decide; intros [= <- <- <-]; [by intros [?|?]|].
    intros _ b Hb. by replace b with l by lia.
Qed.

(** A log of two moves of block 0: to block 2 at version 1, to block 3 at
    version 2. *)
Definition two_moves : mapping :=
  Mapping 64 64 ∅ {[0 := page_write zero_page 0 (encode_record (LogRecord 1 0 2 1 0 0) ++ encode_record (LogRecord 2 0 3 1 0 0))]}.

Lemma two_moves_wf : log_wf two_moves.
Proof.
  split; [|done]. split; [by compute| |]; unfold two_moves; cbn [cache disk].
  { by intros ?? ?%lookup_empty_Some. }
  intros i p [<- <-]%lookup_singleton_Some. apply page_write_wf; [apply zero_page_wf| |].
  - apply Forall_app. split; apply encode_ok.
  - autorewrite with len. unfold PAGE_SIZE, sizeof_record. lia.
Qed.

Lemma two_moves_records : log_records two_moves = [LogRecord 1 0 2 1 0 0; LogRecord 2 0 3 1 0 0].
Proof. by vm_compute. Qed.

(** With the only child at version 2 block 2 is superseded and goes; block 3
    stays. *)
Lemma gc_keeps_versions_in_use_witness :
  exists blocks' lm', scorw_gc_blocks true (fun _ => true) [GcChild 5 true 2 0] 2 (Some two_moves) {[0; 1; 2; 3]} = Ok (blocks', Some lm') /\
    log_records lm' = log_records two_moves /\ blocks' ⊆ {[0; 1; 2; 3]} /\
    forall a b, a ∈ collect_active [GcChild 5 true 2 0] 2 -> 0 <= b ->
      spec_lookup (log_records two_moves) 8192 a b <> BLK_NOT_FOUND ->
      spec_lookup (log_records two_moves) 8192 a b ∈ ({[0; 1; 2; 3]} : gset Z) ->
      spec_lookup (log_records two_moves) 8192 a b ∈ blocks'.
Proof.
  apply (gc_keeps_versions_in_use [GcChild 5 true 2 0] 2 8192 two_moves {[0; 1; 2; 3]}); rewrite ?two_moves_records; try done.
  - apply two_moves_wf.
  - by repeat constructor.
  - by repeat constructor.
  - by apply (bool_decide_unpack _).
  - by repeat constructor.
  - by repeat constructor.
Defined.

Lemma gc_active_complete_witness :
  let active := collect_active [GcChild 5 true 2 0] 7 in
  let sorted := selection_sort (length active) active in
  (Z.of_nat (length active) <= SCORW_MAX_CHILDS + 2) /\
  StronglySorted Z.le sorted /\ sorted ≡ₚ active /\ 0 ∈ sorted /\ 7 ∈ sorted /\
  (GcChild 5 true 2 0 ∈ [GcChild 5 true 2 0] -> 5 <> 0 -> true = true -> 2 ∈ sorted).
Proof.
  apply (gc_active_complete [GcChild 5 true 2 0] 7 (GcChild 5 true 2 0)).
  - unfold SCORW_MAX_CHILDS. simpl. lia.
  - by repeat constructor.
Defined.
