(* ===== verification/Recovery.v ===== *)
(** Recovery of a parent after a crash: deciding that a file is opened for the
    first time after a mount, dropping log records above the stored version,
    rolling back versions whose blocks never reached the disk, trimming blocks
    no record accounts for ([scorw_is_opened_first_time], [scorw_do_recovery],
    [scorw_prepare_par_inode] of [corw_sparse.c]). *)

From stdpp Require Import sorting.
From S2P Require Import Prelude Pages Friend Log Versions Txn.

(** ** State *)

(** What recovery works on: the version in RAM, the [curr_version] and
    [last_open_time] attributes, the original size attribute, the log and the
    data of the parent. *)
Record rstate := RState {
  r_version : Z;
  r_curr_version : Z;
  r_last_open : Z;
  r_org : Z;
  r_log : option mapping;
  r_par : mapping
}.

Definition r_set_version (s : rstate) (v : Z) : rstate :=
  RState v v (r_last_open s) (r_org s) (r_log s) (r_par s).
Definition r_set_log (s : rstate) (l : option mapping) : rstate :=
  RState (r_version s) (r_curr_version s) (r_last_open s) (r_org s) l (r_par s).
Definition r_set_par (s : rstate) (m : mapping) : rstate :=
  RState (r_version s) (r_curr_version s) (r_last_open s) (r_org s) (r_log s) m.
Definition r_set_open (s : rstate) (t : Z) : rstate :=
  RState (r_version s) (r_curr_version s) t (r_org s) (r_log s) (r_par s).

(** ** First open after a mount *)

(** [scorw_is_opened_first_time]: [mtime] is the mount time of the superblock,
    [now] the current time. *)
Definition scorw_is_opened_first_time (now mtime : Z) (s : rstate) : bool * rstate :=
  let lopen := r_last_open s in
  if lopen =? 0 then (false, r_set_open s (u32 now)) else (lopen <? mtime, s).

(** ** The scans of [scorw_do_recovery] *)

(** The record at byte [offset], through [read_mapping_page]. *)
Definition read_record (rd : Z -> bool) (m : mapping) (offset : Z) : option scorw_log_record * mapping :=
  match read_mapping_page rd m (Z.shiftr offset PAGE_SHIFT) with
  | (None, m1) => (None, m1)
  | (Some p, m1) => (Some (decode_record (page_read p (Z.land offset (PAGE_SIZE - 1)) sizeof_record)), m1)
  end.

(** Step 2, from the last of the [k] records backwards.  [mapped b n] says that
    [ext4_map_blocks] finds block [b] (of at most [n]) mapped. *)
Fixpoint recovery_back_scan (rd : Z -> bool) (mapped : Z -> Z -> bool) (k : nat) (m : mapping)
    (rollback_version valid_log_end : Z) : Z * Z * mapping :=
  match k with
  | O => (rollback_version, valid_log_end, m)
  | S k' =>
      let offset := sizeof_record * Z.of_nat k' in
      match read_record rd m offset with
      | (None, m1) => (rollback_version, valid_log_end, m1)
      | (Some rec, m1) =>
          if (0 <? rollback_version) && (u32 rollback_version <=? version_num rec)
          then recovery_back_scan rd mapped k' m1 rollback_version offset
          else if mapped (u32 (physical_start_blk rec)) (len_blks rec)
          then (rollback_version, valid_log_end, m1)
          else recovery_back_scan rd mapped k' m1 (s32 (version_num rec)) offset
      end
  end.

Definition rec_end (rec : scorw_log_record) : Z :=
  s64 (Z.shiftl (s64 (u64 (physical_start_blk rec + len_blks rec))) PAGE_SHIFT).

(** A forward loop over the records below [valid_log_end], skipping those that
    cannot be read. *)
Definition recovery_fold {S} (rd : Z -> bool) (body : Z -> scorw_log_record -> S -> S)
    (m : mapping) (valid_log_end : Z) (s : S) : S * mapping :=
  foldl (fun (sm : S * mapping) k =>
           match read_record rd sm.2 (sizeof_record * k) with
           | (None, m1) => (sm.1, m1)
           | (Some rec, m1) => (body (sizeof_record * k) rec sm.1, m1)
           end) (s, m) (zseq 0 (Z.to_nat (valid_log_end / sizeof_record))).

(** Steps 3 and 4: the end of the parent the records account for, and the
    truncation of a longer parent (and of records that end past it). *)
Definition recovery_trim (rd : Z -> bool) (s1 : rstate) (m2 : mapping) (valid_log_end : Z) : rstate :=
  let (expected_end, m3) :=
    recovery_fold rd (fun _ rec e => if e <? rec_end rec then rec_end rec else e) m2 valid_log_end (r_org s1) in
  let s2 := r_set_log s1 (Some m3) in
  if expected_end <? i_size (r_par s2) then
    let '(trimmed, m4) :=
      recovery_fold rd (fun offset rec t =>
        if rec_end rec <=? expected_end then (offset + sizeof_record, version_num rec) else t)
        m3 valid_log_end (0, 0) in
    let s3 :=
      if trimmed.1 <? valid_log_end then
        let s' := r_set_log s2 (Some (truncate_setsize m4 trimmed.1)) in
        if 0 <? trimmed.2 then r_set_version s' trimmed.2 else s'
      else r_set_log s2 (Some m4) in
    r_set_par s3 (ext4_truncate (set_disksize (truncate_setsize (r_par s3) expected_end) expected_end))
  else s2.

(** [scorw_do_recovery]. *)
Definition scorw_do_recovery (rd : Z -> bool) (mapped : Z -> Z -> bool) (s : rstate) : rstate :=
  match r_log s with
  | None => s
  | Some m =>
      if i_size m =? 0 then s
      else
        let log_size := if i_size m mod sizeof_record =? 0 then i_size m
                        else i_size m / sizeof_record * sizeof_record in
        if log_size =? 0 then r_set_log s (Some (truncate_setsize m 0))
        else
          let '(rollback_version, valid_log_end, m1) :=
            recovery_back_scan rd mapped (Z.to_nat (log_size / sizeof_record)) m 0 log_size in
          let s1 :=
            if 0 <? rollback_version then
              let recovered := if rollback_version - 1 <? 1 then 1 else rollback_version - 1 in
              r_set_version (r_set_log s (Some (truncate_setsize m1 valid_log_end))) recovered
            else r_set_log s (Some m1) in
          recovery_trim rd s1 (default m1 (r_log s1)) valid_log_end
  end.

(** ** Preparing the scorw inode of a parent *)

(** [scorw_prepare_par_inode] with the attributes [see_thru_ro] and [log_ino]
    of the inode; [gc] is what the collection that ends the recovery does to
    the log and the data.  The prepared transaction locks come with it. *)
Definition scorw_prepare_par_inode (rd : Z -> bool) (mapped : Z -> Z -> bool) (gc : rstate -> outcome rstate)
    (now mtime see_thru_ro log_ino : Z) (s : rstate) : outcome (rstate * Transaction_locks) :=
  let (to_be_checked, s0) := scorw_is_opened_first_time now mtime s in
  let s1 := r_set_open s0 (u32 now) in
  _ ← BUG_ON (see_thru_ro =? -1);
  _ ← BUG_ON (log_ino =? 0);
  _ ← BUG_ON (s32 (r_curr_version s1) =? 0);
  _ ← BUG_ON (r_org s1 =? 0);
  let s2 := RState (s32 (r_curr_version s1)) (r_curr_version s1) (r_last_open s1) (r_org s1) (r_log s1) (r_par s1) in
  let locks := TLocks false None (-1) in
  if to_be_checked then
    l ← scorw_truncate_log_to_version rd (r_version s2) (r_log s2);
    s3 ← gc (scorw_do_recovery rd mapped (r_set_log s2 l));
    Ok (s3, locks)
  else Ok (s2, locks).

(** ** Lemmas: reading records *)

Lemma read_record_ok m k :
  read_record (fun _ => true) m (sizeof_record * k) =
  (Some (record_at m (sizeof_record * k)), set_page m (Z.shiftr (sizeof_record * k) PAGE_SHIFT)
     (file_page m (Z.shiftr (sizeof_record * k) PAGE_SHIFT))).
Proof. done. Qed.

Lemma same_touch m i : same_file m (set_page m i (file_page m i)).
Proof. split_and!; [done|done|]. intros. apply file_page_touch. Qed.

Lemma recovery_fold_spec {S} (body : Z -> scorw_log_record -> S -> S) m n (s : S) :
  mapping_wf m -> 0 <= n ->
  exists m', recovery_fold (fun _ => true) body m (sizeof_record * n) s =
    (foldl (fun s k => body (sizeof_record * k) (record_at m (sizeof_record * k)) s) s (zseq 0 (Z.to_nat n)), m') /\
    mapping_wf m' /\ same_file m m'.
Proof.
  intros Hw Hn. unfold recovery_fold. rewrite Z.mul_comm, Z.div_mul by done. clear Hn.
  induction (Z.to_nat n) as [|j IH]; [exists m; by split_and!; auto with scorw|].
  destruct IH as (m' & Hf & Hw' & Hs'). rewrite !zseq_snoc, !foldl_app, Hf. cbn [foldl fst snd].
  rewrite read_record_ok, (record_at_ext m m') by apply Hs'. eexists. split; [done|].
  split; [auto with scorw|]. eapply same_file_trans; [done|apply same_touch].
Qed.

(** ** Lemmas: rolling back *)

Definition is_mapped (mapped : Z -> Z -> bool) (r : scorw_log_record) : bool :=
  mapped (u32 (physical_start_blk r)) (len_blks r).

(** What the backward scan from record [k] finds: the number [j] of records to
    keep and the version to roll back. *)
Record rolled (mapped : Z -> Z -> bool) (rec : Z -> scorw_log_record) (k : nat) (rb rb' : Z) (j : nat) : Prop := {
  ro_le : (j <= k)%nat;
  ro_last : j = O \/ (is_mapped mapped (rec (Z.of_nat j - 1)) = true /\
    (0 < rb' -> version_num (rec (Z.of_nat j - 1)) < rb'));
  ro_keep : j = k -> rb' = rb;
  ro_drop : (j < k)%nat -> 0 < rb' /\ (rb = 0 -> exists i, Z.of_nat j <= i < Z.of_nat k /\ is_mapped mapped (rec i) = false)
}.

Lemma back_scan_spec mapped m k rb :
  mapping_wf m -> 0 <= rb < 2 ^ 31 ->
  (forall i, 0 <= i < Z.of_nat k -> 1 <= version_num (record_at m (sizeof_record * i)) < 2 ^ 31) ->
  exists rb' j m', recovery_back_scan (fun _ => true) mapped k m rb (sizeof_record * Z.of_nat k) =
      (rb', sizeof_record * Z.of_nat j, m') /\
    rolled mapped (fun i => record_at m (sizeof_record * i)) k rb rb' j /\ mapping_wf m' /\ same_file m m' /\ rb' < 2 ^ 31.
Proof.
  revert m rb. induction k as [|k IH]; intros m rb Hw Hrb Hv.
  { exists rb, O, m. split_and!; auto with scorw; [|lia]. split; try lia; by left. }
  cbn [recovery_back_scan]. rewrite read_record_ok. set (m1 := set_page m _ _).
  set (rk := record_at m (sizeof_record * Z.of_nat k)).
  assert (mapping_wf m1) as Hw1 by (unfold m1; auto with scorw).
  assert (same_file m m1) as Hs1 by apply same_touch.
  assert (forall i, record_at m1 (sizeof_record * i) = record_at m (sizeof_record * i)) as Hr1
    by (intros; apply record_at_ext, Hs1).
  assert (1 <= version_num rk < 2 ^ 31) as Hvk by (apply Hv; lia).
  assert (forall rb1, 0 <= rb1 < 2 ^ 31 -> exists rb' j m', recovery_back_scan (fun _ => true) mapped k m1 rb1 (sizeof_record * Z.of_nat k) =
      (rb', sizeof_record * Z.of_nat j, m') /\
    rolled mapped (fun i => record_at m (sizeof_record * i)) k rb1 rb' j /\ mapping_wf m' /\ same_file m m' /\ rb' < 2 ^ 31) as IH1.
  { intros rb1 Hrb1. destruct (IH m1 rb1 Hw1 Hrb1) as (rb' & j & m' & Hr & [H1 H2 H3 H4] & Hw' & Hs' & Hb).
    - intros i Hi. rewrite Hr1. apply Hv. lia.
    - exists rb', j, m'. split_and!; auto; [|by eapply same_file_trans]. split; auto.
      + by rewrite Hr1 in H2.
      + intros Hj. destruct (H4 Hj) as [H5 H6]. split; [done|]. intros H7. destruct (H6 H7) as (i & Hi & Hm).
        exists i. split; [done|]. by rewrite Hr1 in Hm. }
  clear IH. rewrite (u32_small rb) by lia.
  destruct ((0 <? rb) && (rb <=? version_num rk)) eqn:Eg.
  - apply andb_true_iff in Eg as [Eg1%Z.ltb_lt Eg2%Z.leb_le].
    destruct (IH1 rb Hrb) as (rb' & j & m' & -> & [H1 H2 H3 H4] & Hw' & Hs' & Hb).
    exists rb', j, m'. split_and!; auto. split; auto; [lia|]. intros _. split; [|lia].
    destruct (decide (j = k)) as [->|]; [rewrite H3 by done; lia|]. apply H4. lia.
  - fold (is_mapped mapped rk). destruct (is_mapped mapped rk) eqn:Em.
    + exists rb, (S k), m1. split_and!; auto; [|lia]. split; try lia. right.
      replace (Z.of_nat (S k) - 1) with (Z.of_nat k) by lia. split; [done|]. intros Hp.
      apply andb_false_iff in Eg as [Eg%Z.ltb_ge|Eg%Z.leb_gt]; [lia|done].
    + rewrite s32_small by lia. destruct (IH1 (version_num rk)) as (rb' & j & m' & -> & [H1 H2 H3 H4] & Hw' & Hs' & Hb); [lia|].
      exists rb', j, m'. split_and!; auto. split; auto; try lia. intros _.
      split; [destruct (decide (j = k)) as [->|]; [rewrite H3 by done; lia|apply H4; lia]|].
      intros _. exists (Z.of_nat k). split; [lia|done].
Qed.

(** ** Lemmas: the expected end of the parent *)

(** The end of the file the records account for. *)
Definition log_end (org : Z) (recs : list scorw_log_record) : Z :=
  foldl (fun e r => Z.max e ((physical_start_blk r + len_blks r) * PAGE_SIZE)) org recs.

Definition rec_small (r : scorw_log_record) : Prop :=
  0 <= physical_start_blk r /\ 0 <= len_blks r /\ physical_start_blk r + len_blks r < 2 ^ 50.

Lemma rec_end_small r : rec_small r -> rec_end r = (physical_start_blk r + len_blks r) * PAGE_SIZE.
Proof.
  intros (H1 & H2 & H3). unfold rec_end. rewrite (u64_small) by lia. rewrite (s64_small (_ + _)) by lia.
  rewrite Z.shiftl_mul_pow2 by (unfold PAGE_SHIFT; lia). change (2 ^ PAGE_SHIFT) with PAGE_SIZE.
  apply s64_small. unfold PAGE_SIZE. lia.
Qed.

Lemma expected_end_spec org recs :
  Forall rec_small recs ->
  foldl (fun e r => if e <? rec_end r then rec_end r else e) org recs = log_end org recs.
Proof.
  intros Hf. unfold log_end. revert org. induction Hf as [|r recs Hr Hf IH]; intros org; simpl; [done|].
  rewrite rec_end_small by done. rewrite IH. f_equal. case_bools; lia.
Qed.

Lemma log_end_ge org recs : org <= log_end org recs.
Proof.
  unfold log_end. revert org. induction recs as [|r recs IH]; intros org; simpl; [lia|].
  etransitivity; [|apply IH]. lia.
Qed.

Lemma log_end_rec org recs r : r ∈ recs -> (physical_start_blk r + len_blks r) * PAGE_SIZE <= log_end org recs.
Proof.
  unfold log_end. revert org. induction recs as [|r' recs IH]; intros org Hin; [by apply elem_of_nil in Hin|].
  apply elem_of_cons in Hin as [<-|Hin]; simpl; [|by apply IH].
  etransitivity; [|apply (log_end_ge _ recs)]. lia.
Qed.

(** The trimming scan keeps every record, since all of them end before the
    expected end. *)
Lemma trim_keeps_all (rec : Z -> scorw_log_record) E n :
  (forall k, 0 <= k < Z.of_nat n -> rec_end (rec k) <= E) ->
  (foldl (fun t k => if rec_end (rec k) <=? E then (sizeof_record * k + sizeof_record, version_num (rec k)) else t)
     (0, 0) (zseq 0 n)).1 = sizeof_record * Z.of_nat n.
Proof.
  intros H. destruct n as [|n]; [done|]. rewrite zseq_snoc, foldl_app. cbn [foldl].
  rewrite (proj2 (Z.leb_le _ _)) by (apply H; lia). cbn [fst]. lia.
Qed.

Lemma foldl_records {S} (f : scorw_log_record -> S -> S) m n (s : S) :
  foldl (fun s k => f (record_at m (sizeof_record * k)) s) s (zseq 0 n) = foldl (fun s r => f r s) s (records_from m 0 n).
Proof.
  unfold records_from. revert s. induction (zseq 0 n) as [|k l IH]; intros s; simpl; [done|]. apply IH.
Qed.

(** The whole pages below the new end survive a truncation. *)
Lemma truncate_keeps_page m sz i :
  mapping_wf m -> 0 <= i -> (i + 1) * PAGE_SIZE <= sz -> file_page (truncate_setsize m sz) i = file_page m i.
Proof.
  intros Hw Hi Hsz.
  pose proof (page_len _ (file_page_wf m i Hw)) as Hl.
  pose proof (page_len _ (file_page_wf (truncate_setsize m sz) i (truncate_setsize_wf m sz Hw ltac:(unfold PAGE_SIZE in *; lia)))) as Hl'.
  pose proof (truncate_setsize_read m sz i 0 PAGE_SIZE Hw Hi ltac:(lia) ltac:(by compute) ltac:(lia)) as H.
  unfold page_read in H. change (Z.to_nat 0) with O in H. rewrite !drop_0, !take_ge in H by lia.
  apply H. lia.
Qed.

Lemma ext4_truncate_keeps m i : 0 <= i -> (i + 1) * PAGE_SIZE <= i_size m -> file_page (ext4_truncate m) i = file_page m i.
Proof.
  intros Hi Hs. unfold ext4_truncate. set (m1 := Mapping _ _ _ _).
  assert (file_page m1 i = file_page m i) as Hm.
  { unfold file_page, disk_page, m1. cbn [cache disk]. f_equal. f_equal. destruct (disk m !! i) as [p|] eqn:E.
    - apply map_lookup_filter_Some. split; [done|]. cbn. unfold PAGE_SIZE in *. lia.
    - apply map_lookup_filter_None. by left. }
  destruct (_ && _); [|done]. rewrite file_page_set_ne; [done|]. rewrite shiftr_page.
  unfold PAGE_SIZE in *. Z.to_euclidean_division_equations. lia.
Qed.
Lemma ext4_truncate_frees m i : i_size m <= i * PAGE_SIZE -> disk (ext4_truncate m) !! i = None.
Proof.
  intros Hi. unfold ext4_truncate. destruct (_ && _); cbn; apply map_lookup_filter_None; right; intros p _; cbn; lia.
Qed.
Lemma ext4_truncate_size m : i_size (ext4_truncate m) = i_size m.
Proof. unfold ext4_truncate. by destruct (_ && _). Qed.

(** ** Lemmas: the whole recovery *)

(** The log after the rollback step. *)
Lemma rollback_log m m1 j :
  log_wf m -> mapping_wf m1 -> same_file m m1 -> (j <= length (log_records m))%nat ->
  let m2 := if decide (j < length (log_records m))%nat then truncate_setsize m1 (sizeof_record * Z.of_nat j) else m1 in
  log_wf m2 /\ log_records m2 = take j (log_records m) /\ i_size m2 = sizeof_record * Z.of_nat j.
Proof.
  intros [Hw Hm] Hw1 Hs Hj. pose proof (wf_size _ Hw). cbv zeta.
  assert (Z.of_nat (length (log_records m)) * sizeof_record = i_size m) as Hlen.
  { unfold log_records. autorewrite with len. unfold sizeof_record in *. Z.to_euclidean_division_equations. lia. }
  pose proof (same_file_records _ _ Hs) as Hr. destruct Hs as (Hsz & _ & _). case_decide as Hd.
  - split_and!; [|rewrite log_records_truncate, Hr, Nat2Z.id; [done|done|lia|unfold sizeof_record in *; lia]|done].
    split; [apply truncate_setsize_wf; [done|unfold sizeof_record; lia]|]. simpl. by rewrite Z.mul_comm, Z.mod_mul.
  - assert (j = length (log_records m)) as -> by lia. split_and!; [split; [done|by rewrite Hsz]| |lia].
    by rewrite take_ge, Hr.
Qed.

(** The two forward scans of a log of small records, and the end they find. *)
Lemma forward_scans m org :
  log_wf m -> Forall rec_small (log_records m) ->
  exists m3 m4 v, recovery_fold (fun _ => true) (fun _ rec e => if e <? rec_end rec then rec_end rec else e) m (i_size m) org =
      (log_end org (log_records m), m3) /\ log_wf m3 /\ same_file m m3 /\
    recovery_fold (fun _ => true) (fun offset rec t =>
      if rec_end rec <=? log_end org (log_records m) then (offset + sizeof_record, version_num rec) else t)
      m3 (i_size m) (0, 0) = ((i_size m, v), m4) /\ log_wf m4 /\ same_file m m4.
Proof.
  intros [Hw Hm] Hf. pose proof (wf_size _ Hw). set (n := i_size m / sizeof_record).
  assert (i_size m = sizeof_record * n /\ 0 <= n) as [Hn Hn0].
  { subst n. unfold sizeof_record in *. Z.to_euclidean_division_equations. lia. }
  assert (log_records m = records_from m 0 (Z.to_nat n)) as Hrec by done.
  destruct (recovery_fold_spec (fun _ rec e => if e <? rec_end rec then rec_end rec else e) m n org Hw Hn0)
    as (m3 & H3 & Hw3 & Hs3).
  destruct (recovery_fold_spec (fun offset rec (t : Z * Z) =>
      if rec_end rec <=? log_end org (log_records m) then (offset + sizeof_record, version_num rec) else t) m3 n (0, 0) Hw3 Hn0)
    as (m4 & H4 & Hw4 & Hs4).
  assert (same_file m m4) as Hs4' by by eapply same_file_trans.
  exists m3, m4. eexists. rewrite Hn, H3, H4. split_and!; [| | | | |done].
  - f_equal. rewrite foldl_records with (f := fun rec e => if e <? rec_end rec then rec_end rec else e).
    rewrite <- Hrec. by apply expected_end_spec.
  - split; [done|]. destruct Hs3 as (-> & _). done.
  - done.
  - f_equal. apply injective_projections; [|reflexivity]. cbn [fst]. rewrite (trim_keeps_all (fun k => record_at m3 (sizeof_record * k))); [by rewrite Z2Nat.id|].
    intros k Hk. rewrite (record_at_ext m m3) by apply Hs3.
    assert (record_at m (sizeof_record * k) ∈ log_records m) as Hin.
    { apply list_elem_of_fmap. exists k. split; [done|]. apply elem_of_zseq. fold n. lia. }
    rewrite Forall_forall in Hf. rewrite rec_end_small by by apply Hf. by apply log_end_rec.
  - split; [done|]. destruct Hs4' as (-> & _). done.
Qed.

(** Steps 3 and 4 on a log of small records drop no record, and cut the parent
    to the end the records account for. *)
Lemma recovery_trim_spec s1 m2 :
  r_log s1 = Some m2 -> log_wf m2 -> Forall rec_small (log_records m2) -> mapping_wf (r_par s1) -> 0 <= r_org s1 ->
  let s' := recovery_trim (fun _ => true) s1 m2 (i_size m2) in
  exists m', r_log s' = Some m' /\ log_wf m' /\ log_records m' = log_records m2 /\
    r_version s' = r_version s1 /\ r_curr_version s' = r_curr_version s1 /\
    i_size (r_par s') = Z.min (i_size (r_par s1)) (log_end (r_org s1) (log_records m2)) /\
    (forall i, 0 <= i -> (i + 1) * PAGE_SIZE <= i_size (r_par s') -> file_page (r_par s') i = file_page (r_par s1) i) /\
    (forall i, i_size (r_par s') < i_size (r_par s1) -> i_size (r_par s') <= i * PAGE_SIZE -> disk (r_par s') !! i = None).
Proof.
  cbv zeta. intros Hl Hw Hf Hp Ho. unfold recovery_trim.
  destruct (forward_scans m2 (r_org s1) Hw Hf) as (m3 & m4 & v & -> & Hw3 & Hs3 & H4 & Hw4 & Hs4).
  cbn [r_par r_set_log]. destruct (Z.ltb_spec (log_end (r_org s1) (log_records m2)) (i_size (r_par s1))) as [Hlt|Hge].
  - rewrite H4. cbn [fst snd]. rewrite Z.ltb_irrefl. exists m4.
    cbn [r_par r_set_par r_set_log r_log r_version r_curr_version].
    split_and!; [done|done|by apply same_file_records|done|done|rewrite ext4_truncate_size; simpl; lia| |].
    + intros i Hi. rewrite ext4_truncate_size. intros Hle. rewrite ext4_truncate_keeps, file_page_disksize by done. by apply truncate_keeps_page.
    + intros i _. rewrite ext4_truncate_size. by apply ext4_truncate_frees.
  - exists m3. split_and!; [done|done|by apply same_file_records|done|done|simpl; lia|done|]. intros i Hlt. cbn in Hlt. lia.
Qed.

Lemma log_records_lookup m i :
  0 <= i < Z.of_nat (length (log_records m)) -> log_records m !! Z.to_nat i = Some (record_at m (sizeof_record * i)).
Proof.
  unfold log_records. autorewrite with len. intros Hi. rewrite list_lookup_fmap.
  unfold zseq. rewrite list_lookup_fmap, lookup_seq_lt by lia. simpl. do 3 f_equal. lia.
Qed.

(** Every kept record is older than the version rolled back. *)
Lemma kept_versions recs (j : nat) rb :
  StronglySorted (fun r1 r2 => version_num r1 <= version_num r2) recs ->
  j = O \/ (0 < rb /\ exists r, recs !! (j - 1)%nat = Some r /\ version_num r < rb) ->
  Forall (fun r => version_num r <= if rb - 1 <? 1 then 1 else rb - 1) (take j recs).
Proof.
  intros Hs [->|(Hrb & r & Hr & Hv)]; [constructor|]. apply Forall_lookup. intros i x Hx.
  apply lookup_take_Some in Hx as [Hx Hi].
  assert (version_num x <= version_num r); [|case_bools; lia].
  destruct (decide (i = j - 1)%nat) as [->|]; [congruence || (rewrite Hr in Hx; injection Hx as <-; lia)|].
  rewrite <- (take_drop (j - 1) recs) in Hs. apply StronglySorted_app in Hs as (Hs & _ & _). apply Hs.
  - apply list_elem_of_lookup. exists i. apply lookup_take_Some. split; [done|lia].
  - apply list_elem_of_lookup. exists O. rewrite lookup_drop. by rewrite Nat.add_0_r.
Qed.

(** What the whole recovery does to a log of whole, small records. *)
Lemma do_recovery_spec (mapped : Z -> Z -> bool) (s : rstate) (m : mapping) :
  r_log s = Some m -> log_wf m -> log_records m <> [] -> mapping_wf (r_par s) -> 0 <= r_org s ->
  Forall (fun r => 1 <= version_num r < 2 ^ 31 /\ rec_small r) (log_records m) ->
  StronglySorted (fun r1 r2 => version_num r1 <= version_num r2) (log_records m) ->
  let s' := scorw_do_recovery (fun _ => true) mapped s in
  exists m' j, r_log s' = Some m' /\ log_wf m' /\ log_records m' = take j (log_records m) /\
    (forall r, last (log_records m') = Some r -> is_mapped mapped r = true) /\
    ((j < length (log_records m))%nat ->
       (exists r, r ∈ drop j (log_records m) /\ is_mapped mapped r = false) /\
       Forall (fun r => version_num r <= r_version s') (log_records m') /\ r_curr_version s' = r_version s') /\
    ((length (log_records m) <= j)%nat -> r_version s' = r_version s) /\
    i_size (r_par s') = Z.min (i_size (r_par s)) (log_end (r_org s) (log_records m')) /\
    (forall i, 0 <= i -> (i + 1) * PAGE_SIZE <= i_size (r_par s') -> file_page (r_par s') i = file_page (r_par s) i) /\
    (forall i, i_size (r_par s') < i_size (r_par s) -> i_size (r_par s') <= i * PAGE_SIZE -> disk (r_par s') !! i = None).
Proof.
  cbv zeta. intros Hl Hw Hne Hpw Horg Hf Hs. pose proof (lw_size _ Hw) as Hm.
  set (n := length (log_records m)) in *.
  assert (i_size m = sizeof_record * Z.of_nat n) as Hn.
  { pose proof (wf_size _ (lw_mapping _ Hw)). unfold n, log_records. autorewrite with len.
    unfold sizeof_record in *. Z.to_euclidean_division_equations. lia. }
  assert (0 < n)%nat as Hn0 by (unfold n; destruct (log_records m); [done|simpl; lia]).
  assert (forall i, 0 <= i < Z.of_nat n -> log_records m !! Z.to_nat i = Some (record_at m (sizeof_record * i))) as Hrec
    by (intros i Hi; by apply log_records_lookup).
  unfold scorw_do_recovery. rewrite Hl, Hm. rewrite (proj2 (Z.eqb_neq (i_size m) 0)) by (unfold sizeof_record in *; lia).
  cbn [Z.eqb]. rewrite (proj2 (Z.eqb_neq (i_size m) 0)) by (unfold sizeof_record in *; lia).
  rewrite Hn, (Z.mul_comm sizeof_record), Z.div_mul, Nat2Z.id, <- (Z.mul_comm sizeof_record) by done.
  rewrite Forall_forall in Hf.
  destruct (back_scan_spec mapped m n 0 (lw_mapping _ Hw)) as (rb & j & m1 & -> & [R1 R2 R3 R4] & Hw1 & Hs1 & Hrb); [lia| |].
  { intros i Hi. apply Hf. apply list_elem_of_lookup. eexists. by apply Hrec. }
  destruct (rollback_log m m1 j Hw Hw1 Hs1 R1) as (Hw2 & Hr2 & Hz2). fold n in Hw2, Hr2, Hz2.
  set (m2 := if decide (j < n)%nat then _ else m1) in *.
  set (s1 := if 0 <? rb then _ else _).
  assert (r_log s1 = Some m2 /\ r_par s1 = r_par s /\ r_org s1 = r_org s) as (Hl1 & Hp1 & Ho1).
  { subst s1 m2. destruct (decide (j < n)%nat).
    - rewrite (proj2 (Z.ltb_lt 0 rb)) by (apply R4; lia). done.
    - rewrite R3 by lia. done. }
  rewrite Hl1. change (default m1 (Some m2)) with m2. rewrite <- Hz2.
  destruct (recovery_trim_spec s1 m2) as (m' & H1 & H2 & H3 & H4 & H5 & H6 & H7 & H8); rewrite ?Hp1, ?Ho1; auto.
  { rewrite Hr2. apply Forall_take, Forall_forall. intros r Hr. apply Hf, Hr. }
  rewrite Hp1, Ho1 in *. exists m', j. rewrite H3, H4, H5. split_and!; auto.
  - intros r Hlast. rewrite Hr2 in Hlast. destruct R2 as [->|[R2 _]]; [done|].
    destruct j as [|j]; [done|]. rewrite (take_S_r _ _ (record_at m (sizeof_record * (Z.of_nat (S j) - 1)))) in Hlast.
    + rewrite last_snoc in Hlast. by injection Hlast as <-.
    + rewrite <- Hrec by lia. f_equal. lia.
  - intros Hj. destruct (R4 Hj) as [Hrb0 Hex]. destruct (Hex eq_refl) as (i & Hi & Hmp).
    assert (s1 = r_set_version (r_set_log s (Some m2)) (if rb - 1 <? 1 then 1 else rb - 1)) as ->.
    { subst s1 m2. rewrite (proj2 (Z.ltb_lt 0 rb)) by done. by rewrite decide_True by done. }
    split_and!; [|rewrite Hr2; cbn [r_version r_set_version]|done].
    + exists (record_at m (sizeof_record * i)). split; [|done]. apply list_elem_of_lookup.
      exists (Z.to_nat i - j)%nat. rewrite lookup_drop, <- Hrec by lia. f_equal. lia.
    + apply kept_versions; auto. destruct j as [|j']; [by left|right].
      destruct R2 as [|[_ R2]]; [done|]. split; [lia|].
      exists (record_at m (sizeof_record * (Z.of_nat (S j') - 1))). split; [|by apply R2].
      rewrite <- Hrec by lia. f_equal. lia.
  - intros Hj. subst s1. rewrite R3 by lia. done.
Qed.

Lemma prepare_par_discards (mapped : Z -> Z -> bool) (now mtime see_thru_ro log_ino : Z)
    (s : rstate) (m : mapping) :
  r_log s = Some m -> mapping_wf m -> mapping_wf (r_par s) ->
  Forall (fun r => 1 <= version_num r < 2 ^ 31 /\ rec_small r) (log_records m) ->
  StronglySorted (fun r1 r2 => version_num r1 <= version_num r2) (log_records m) ->
  0 < r_last_open s < mtime -> see_thru_ro <> -1 -> log_ino <> 0 -> 1 <= r_curr_version s < 2 ^ 31 -> 0 < r_org s ->
  exists s' m' locks, scorw_prepare_par_inode (fun _ => true) mapped (fun s => Ok s) now mtime see_thru_ro log_ino s =
      Ok (s', locks) /\
    r_log s' = Some m' /\ log_wf m' /\ log_records m' `prefix_of` log_records m /\
    Forall (fun r => version_num r <= r_curr_version s) (log_records m') /\
    transaction_lock locks = false.
Proof.
  intros Hl Hw Hp Hf Hs Ho Hst Hli Hc Horg. unfold scorw_prepare_par_inode, scorw_is_opened_first_time.
  rewrite (proj2 (Z.eqb_neq (r_last_open s) 0)), (proj2 (Z.ltb_lt (r_last_open s) mtime)) by lia.
  cbn [r_set_open r_curr_version r_org r_log r_par r_last_open r_version]. rewrite s32_small by lia.
  rewrite (proj2 (Z.eqb_neq see_thru_ro (-1))), (proj2 (Z.eqb_neq log_ino 0)), (proj2 (Z.eqb_neq (r_curr_version s) 0)),
    (proj2 (Z.eqb_neq (r_org s) 0)) by lia.
  cbn [BUG_ON mbind outcome_bind]. rewrite Hl.
  destruct (truncate_log_spec m (r_curr_version s) Hw) as (m1 & -> & Hw1 & Hr1). cbn [mbind outcome_bind].
  set (s2 := r_set_log _ (Some m1)).
  assert (log_records m1 `prefix_of` log_records m) as Hpre.
  { rewrite Hr1, take_valid_take. eexists. by rewrite take_drop. }
  assert (Forall (fun r => version_num r <= r_curr_version s) (log_records m1)) as Hle.
  { rewrite Hr1. pose proof (take_valid_Forall (r_curr_version s) (log_records m)) as Hx.
    by rewrite (u32_small (r_curr_version s)) in Hx by lia. }
  destruct (decide (log_records m1 = [])) as [He|Hne].
  - exists (scorw_do_recovery (fun _ => true) mapped s2), m1, (TLocks false None (-1)).
    split_and!; auto. unfold scorw_do_recovery. cbn [r_log s2 r_set_log].
    rewrite (proj2 (Z.eqb_eq (i_size m1) 0)); [done|]. by apply log_records_nil.
  - destruct (do_recovery_spec mapped s2 m1) as (m' & j & H1 & H2 & H3 & _); auto.
    + cbn. lia.
    + destruct Hpre as [k Hk]. rewrite Hk in Hf. by apply Forall_app in Hf as [? _].
    + destruct Hpre as [k Hk]. rewrite Hk in Hs. by apply StronglySorted_app in Hs as (_ & ? & _).
    + exists (scorw_do_recovery (fun _ => true) mapped s2), m', (TLocks false None (-1)).
      split_and!; auto; rewrite H3; [|by apply Forall_take].
      etransitivity; [|exact Hpre]. apply prefix_take.
Qed.

(** An append moves both sizes of the log. *)
Lemma append_disksize io m off bytes m' :
  write_offset_log io m off bytes = Ok m' -> i_size m < off + Z.of_nat (length bytes) ->
  io_alloc io = true -> io_read io = true -> i_disksize m' = i_size m'.
Proof.
  unfold write_offset_log. intros Hw Hlt Ha Hr. destruct (scorw_get_page io m (off / PAGE_BYTES)) as [[p|] m1] eqn:Hg.
  - apply scorw_get_page_size in Hg. apply bind_Ok_inv in Hw as (? & _ & Hw). simplify_eq. unfold put_log_bytes. cbn [i_size set_page].
    rewrite Hg, (proj2 (Z.ltb_lt _ _)) by done. done.
  - revert Hg. unfold scorw_get_page. destruct (cache m !! _); [done|]. rewrite Ha, Hr. cbn. by case_bools.
Qed.

Lemma read_at_index m k r :
  log_records m !! Z.to_nat k = Some r -> 0 <= k -> (read_record (fun _ => true) m (sizeof_record * k)).1 = Some r.
Proof.
  intros Hl Hk. rewrite read_record_ok. cbn. f_equal. assert (0 <= k < Z.of_nat (length (log_records m))) as Hr.
  { apply lookup_lt_Some in Hl. lia. }
  rewrite (log_records_lookup m k Hr) in Hl. congruence.
Qed.

(** ** Properties *)

(** C7: Recovery leaves a consistent parent: on a log of whole records it
    keeps a prefix of them, whose last one has its block on disk; when it drops
    any, some dropped record had no block, no kept record is newer than the
    version it sets, and that version is what the attribute holds.  When it drops
    none the version stays; it is then one no kept record exceeds if no record
    exceeded it before, as is the case once [scorw_truncate_log_to_version] has
    cut the log.  The parent is cut to the end the kept records (and the
    original size) account for, keeps every whole page below it, and its blocks
    past a new end are freed. *)
Theorem recovery_consistent (mapped : Z -> Z -> bool) (s : rstate) (m : mapping) :
  r_log s = Some m -> log_wf m -> log_records m <> [] -> mapping_wf (r_par s) -> 0 <= r_org s ->
  Forall (fun r => 1 <= version_num r < 2 ^ 31 /\ rec_small r) (log_records m) ->
  StronglySorted (fun r1 r2 => version_num r1 <= version_num r2) (log_records m) ->
  let s' := scorw_do_recovery (fun _ => true) mapped s in
  exists m' j, r_log s' = Some m' /\ log_wf m' /\ log_records m' = take j (log_records m) /\
    (forall r, last (log_records m') = Some r -> is_mapped mapped r = true) /\
    ((j < length (log_records m))%nat ->
       (exists r, r ∈ drop j (log_records m) /\ is_mapped mapped r = false) /\
       Forall (fun r => version_num r <= r_version s') (log_records m') /\ r_curr_version s' = r_version s') /\
    ((length (log_records m) <= j)%nat -> log_records m' = log_records m /\ r_version s' = r_version s) /\
    (Forall (fun r => version_num r <= r_version s) (log_records m) -> Forall (fun r => version_num r <= r_version s') (log_records m')) /\
    i_size (r_par s') = Z.min (i_size (r_par s)) (log_end (r_org s) (log_records m')) /\
    (forall i, 0 <= i -> (i + 1) * PAGE_SIZE <= i_size (r_par s') -> file_page (r_par s') i = file_page (r_par s) i) /\
    (forall i, i_size (r_par s') < i_size (r_par s) -> i_size (r_par s') <= i * PAGE_SIZE -> disk (r_par s') !! i = None).
Proof.
  cbv zeta. intros Hl Hw Hne Hp Ho Hf Hs.
  destruct (do_recovery_spec mapped s m) as (m' & j & H1 & H2 & H3 & H4 & H5 & H6 & H7 & H8 & H9); auto.
  assert ((length (log_records m) <= j)%nat -> log_records m' = log_records m) as Hall by (intros; by rewrite H3, take_ge).
  exists m', j. split_and!; auto. intros Hv. destruct (decide (j < length (log_records m))%nat) as [Hj|Hj]; [by apply H5|].
  rewrite Hall, H6 by lia. done.
Qed.

(** C33: A record appended to the log is read back.  To a log of whole records whose
    last page is in the page cache (or empty), [write_offset_log] adds it at the end;
    what recovery reads there is the record, and what it reads at every record before is
    what it read; the log is still one of whole records, ready for the next.  And
    once the log has been synced all that is true of what a crash leaves. *)
Theorem append_reads_back (m : mapping) (r : scorw_log_record) :
  log_wf m -> tail_ready m -> record_wf r -> (forall i, Z.shiftr (i_size m) PAGE_SHIFT < i -> disk m !! i = None) ->
  exists m', write_offset_log io_ok m (i_size m) (encode_record r) = Ok m' /\ log_wf m' /\ tail_ready m' /\ i_size m' = i_size m + sizeof_record /\
    forall l, l = m' \/ l = crash (filemap_write_and_wait m') ->
      (read_record (fun _ => true) l (i_size m)).1 = Some r /\
      forall k, 0 <= k < i_size m / sizeof_record ->
        (read_record (fun _ => true) l (sizeof_record * k)).1 = (read_record (fun _ => true) m (sizeof_record * k)).1.
Proof.
  intros Hl Ht Hr Hd. destruct (append_record m r Hl Ht Hr Hd) as (m' & Hm' & Hrec & Hw & Ht' & Hs & _).
  exists m'. split_and!; auto. intros l Hll. pose proof Hl as [[Hs0 _ _] Hmod].
  assert (log_records l = log_records m ++ [r]) as Hlr.
  { destruct Hll as [->| ->]; [done|]. rewrite sync_durable; [done|done|]. eapply (append_disksize io_ok m); eauto. rewrite length_encode. unfold sizeof_record. lia. }
  assert (Z.of_nat (length (log_records m)) = i_size m / sizeof_record) as Hlen.
  { unfold log_records. autorewrite with len. unfold sizeof_record in *. Z.to_euclidean_division_equations. lia. }
  split.
  - replace (i_size m) with (sizeof_record * (i_size m / sizeof_record)) by (unfold sizeof_record in *; Z.to_euclidean_division_equations; lia).
    apply read_at_index; [|apply Z.div_pos; [done|by compute]]. rewrite Hlr, lookup_app_r by lia.
    by replace (Z.to_nat (i_size m / sizeof_record) - length (log_records m))%nat with O by lia.
  - intros k Hk. rewrite (read_record_ok m k). cbn [fst]. apply read_at_index; [|lia].
    rewrite Hlr, lookup_app_l by lia. apply log_records_lookup. lia.
Qed.

(** Recovery undoes every commit since the version attribute was last
    written: when the file system was mounted after the last open,
    [scorw_prepare_par_inode] returns with a free lock and a log that is a
    prefix of the old one in which no record is newer than the [curr_version]
    attribute, so the records of a transaction committed later are gone however
    durable the log was. *)
Theorem recovery_discards_newer_commits (mapped : Z -> Z -> bool) (now mtime see_thru_ro log_ino : Z)
    (s : rstate) (m : mapping) :
  r_log s = Some m -> mapping_wf m -> mapping_wf (r_par s) ->
  Forall (fun r => 1 <= version_num r < 2 ^ 31 /\ rec_small r) (log_records m) ->
  StronglySorted (fun r1 r2 => version_num r1 <= version_num r2) (log_records m) ->
  0 < r_last_open s < mtime -> see_thru_ro <> -1 -> log_ino <> 0 -> 1 <= r_curr_version s < 2 ^ 31 -> 0 < r_org s ->
  exists s' m' locks, scorw_prepare_par_inode (fun _ => true) mapped (fun s => Ok s) now mtime see_thru_ro log_ino s =
      Ok (s', locks) /\
    r_log s' = Some m' /\ log_wf m' /\ log_records m' `prefix_of` log_records m /\
    Forall (fun r => version_num r <= r_curr_version s) (log_records m') /\
    transaction_lock locks = false.
Proof. apply prepare_par_discards. Qed.

(** ** Witnesses *)

(** A log with records of versions 1 and 2, the second of a block that is not
    on disk, and a parent with room for both. *)
Definition crash_log : mapping :=
  Mapping 64 64 ∅ {[0 := page_write zero_page 0 (encode_record (LogRecord 1 0 2 1 0 0) ++ encode_record (LogRecord 2 0 3 1 0 0))]}.
Definition crash_parent : mapping := Mapping 16384 16384 ∅ ∅.
Definition crash_state : rstate := RState 2 1 100 8192 (Some crash_log) crash_parent.
Definition crash_mapped (b n : Z) : bool := b <? 3.

Lemma crash_log_wf : log_wf crash_log.
Proof.
  split; [|done]. split; [by compute| |]; unfold crash_log; cbn [cache disk].
  { by intros ?? ?%lookup_empty_Some. }
  intros i p [<- <-]%lookup_singleton_Some. apply page_write_wf; [apply zero_page_wf| |].
  - apply Forall_app. split; apply encode_ok.
  - autorewrite with len. unfold PAGE_SIZE, sizeof_record. lia.
Qed.
Lemma crash_log_records : log_records crash_log = [LogRecord 1 0 2 1 0 0; LogRecord 2 0 3 1 0 0].
Proof. by vm_compute. Qed.
Lemma crash_parent_wf : mapping_wf crash_parent.
Proof. split; simpl; [lia|by intros ?? ?%lookup_empty_Some..]. Qed.
Lemma crash_records_ok :
  Forall (fun r => 1 <= version_num r < 2 ^ 31 /\ rec_small r) (log_records crash_log) /\
  StronglySorted (fun r1 r2 => version_num r1 <= version_num r2) (log_records crash_log).
Proof. rewrite crash_log_records. split; by repeat constructor. Qed.

Lemma recovery_consistent_witness :
  let s' := scorw_do_recovery (fun _ => true) crash_mapped crash_state in
  exists m' j, r_log s' = Some m' /\ log_wf m' /\ log_records m' = take j (log_records crash_log) /\
    (forall r, last (log_records m') = Some r -> is_mapped crash_mapped r = true) /\
    ((j < length (log_records crash_log))%nat ->
       (exists r, r ∈ drop j (log_records crash_log) /\ is_mapped crash_mapped r = false) /\
       Forall (fun r => version_num r <= r_version s') (log_records m') /\ r_curr_version s' = r_version s') /\
    ((length (log_records crash_log) <= j)%nat -> log_records m' = log_records crash_log /\ r_version s' = 2) /\
    (Forall (fun r => version_num r <= 2) (log_records crash_log) -> Forall (fun r => version_num r <= r_version s') (log_records m')) /\
    i_size (r_par s') = Z.min 16384 (log_end 8192 (log_records m')) /\
    (forall i, 0 <= i -> (i + 1) * PAGE_SIZE <= i_size (r_par s') -> file_page (r_par s') i = file_page crash_parent i) /\
    (forall i, i_size (r_par s') < 16384 -> i_size (r_par s') <= i * PAGE_SIZE -> disk (r_par s') !! i = None).
Proof.
  apply (recovery_consistent crash_mapped crash_state crash_log); try apply crash_records_ok;
    try apply crash_parent_wf; try apply crash_log_wf; done.
Defined.

Lemma append_reads_back_witness :
  exists m', write_offset_log io_ok empty_log 0 (encode_record (LogRecord 1 7 9 2 0 0)) = Ok m' /\ log_wf m' /\ tail_ready m' /\ i_size m' = 0 + sizeof_record /\
    forall l, l = m' \/ l = crash (filemap_write_and_wait m') ->
      (read_record (fun _ => true) l 0).1 = Some (LogRecord 1 7 9 2 0 0) /\
      forall k, 0 <= k < 0 / sizeof_record ->
        (read_record (fun _ => true) l (sizeof_record * k)).1 = (read_record (fun _ => true) empty_log (sizeof_record * k)).1.
Proof.
  apply (append_reads_back empty_log (LogRecord 1 7 9 2 0 0)); [apply empty_log_wf|right; by split|by split|done].
Defined.

Lemma recovery_discards_newer_commits_witness :
  exists s' m' locks, scorw_prepare_par_inode (fun _ => true) crash_mapped (fun s => Ok s) 300 200 1 12 crash_state =
      Ok (s', locks) /\
    r_log s' = Some m' /\ log_wf m' /\ log_records m' `prefix_of` log_records crash_log /\
    Forall (fun r => version_num r <= 1) (log_records m') /\ transaction_lock locks = false.
Proof.
  apply (recovery_discards_newer_commits crash_mapped 300 200 1 12 crash_state crash_log); try apply crash_records_ok;
    try apply crash_parent_wf; try apply crash_log_wf; done.
Defined.
