(* ===== verification/ActiveMap.v ===== *)
(** The active map of a child: the hash table of blocks being read or copied,
    with the compatibility of the kinds of processing, acquiring, releasing and
    removing an entry, and the read barrier a writer of the parent raises
    ([scorw_get_uncopied_block], [scorw_put_uncopied_block],
    [scorw_remove_uncopied_block], [scorw_read_barrier_begin] and
    [scorw_read_barrier_end] of [corw_sparse.c]). *)

From S2P Require Import Prelude.

(** ** Data *)

Definition NOP : Z := 0.
Definition READING : Z := 1.
Definition COPYING_EXCL : Z := 16.
Definition COPYING : Z := 256.

(** [struct uncopied_block]. *)
Record uncopied_block := UncopiedBlock {
  block_num : Z;
  processing_type : Z;
  num_readers : Z;
  num_waiting : Z
}.

Definition set_type (u : uncopied_block) (pt : Z) : uncopied_block :=
  UncopiedBlock (block_num u) pt (num_readers u) (num_waiting u).
Definition set_readers (u : uncopied_block) (n : Z) : uncopied_block :=
  UncopiedBlock (block_num u) (processing_type u) n (num_waiting u).
Definition set_waiting (u : uncopied_block) (n : Z) : uncopied_block :=
  UncopiedBlock (block_num u) (processing_type u) (num_readers u) n.

(** [hash_min(key, ilog2(size))]: the bucket of a key. *)
Class HashMin := { hash_min : Z -> nat; table_size : nat; hash_min_bound : forall k, (hash_min k < table_size)%nat }.

(** [i_uncopied_blocks_list]: the buckets of the hash table. *)
Abbreviation table := (list (list uncopied_block)).

Section active_map.
Context `{HashMin}.

(** ** Operations on the table *)

(** [scorw_find_uncopied_block_list]. *)
Definition scorw_find_uncopied_block_list (t : table) (key : Z) : option uncopied_block :=
  List.find (fun u => block_num u =? key) (t !!! hash_min key).

(** A store through the pointer the lookup returned. *)
Fixpoint bucket_store (key : Z) (f : uncopied_block -> uncopied_block) (l : list uncopied_block) : list uncopied_block :=
  match l with
  | [] => []
  | u :: l' => if block_num u =? key then f u :: l' else u :: bucket_store key f l'
  end.
Definition store (t : table) (key : Z) (f : uncopied_block -> uncopied_block) : table :=
  <[hash_min key := bucket_store key f (t !!! hash_min key)]> t.

(** [scorw_add_uncopied_blocks_list] and [scorw_remove_uncopied_blocks_list]. *)
Definition scorw_add_uncopied_blocks_list (t : table) (u : uncopied_block) : table :=
  <[hash_min (block_num u) := u :: t !!! hash_min (block_num u)]> t.
Fixpoint bucket_delete (key : Z) (l : list uncopied_block) : list uncopied_block :=
  match l with
  | [] => []
  | u :: l' => if block_num u =? key then l' else u :: bucket_delete key l'
  end.
Definition scorw_remove_uncopied_blocks_list (t : table) (key : Z) : table :=
  <[hash_min key := bucket_delete key (t !!! hash_min key)]> t.

(** ** Compatibility *)

Definition has_flag (pt f : Z) : bool := negb (Z.land pt f =? 0).

(** [scorw_is_compatible_processing_type]. *)
Definition scorw_is_compatible_processing_type (pt1 pt2 : Z) : bool :=
  if has_flag pt1 READING && has_flag pt2 COPYING then true
  else if has_flag pt1 COPYING && has_flag pt2 READING then true
  else if has_flag pt1 READING && has_flag pt2 READING then true
  else if pt1 =? NOP then true
  else if pt2 =? NOP then true
  else false.

(** ** Acquiring, releasing, removing *)

(** One critical section of [scorw_get_uncopied_block]: the block is acquired,
    or the caller counts itself as waiting and sleeps, or there is no memory
    for a new entry and NULL is returned. *)
Inductive get_result := Acquired (t : table) | MustWait (t : table) | NoMemory (t : table).

Definition join_type (pt : Z) (u : uncopied_block) : uncopied_block :=
  let u1 := set_type u (Z.lor (processing_type u) pt) in
  if pt =? READING then set_readers u1 (num_readers u1 + 1) else u1.

Definition new_block (b pt : Z) : uncopied_block :=
  UncopiedBlock b pt (if pt =? READING then 1 else 0) 0.

(** The first section: look the block up; join it when compatible, else wait;
    enter it when it is not there.  [mem] says whether the allocation works. *)
Definition get_first (mem : bool) (t : table) (b pt : Z) : get_result :=
  match scorw_find_uncopied_block_list t b with
  | Some u =>
      if scorw_is_compatible_processing_type (processing_type u) pt
      then Acquired (store t b (join_type pt))
      else MustWait (store t b (fun u => set_waiting u (num_waiting u + 1)))
  | None =>
      if mem then Acquired (scorw_add_uncopied_blocks_list t (new_block b pt)) else NoMemory t
  end.

(** A section after a wake-up: stop counting as waiting, test again. *)
Definition get_again (t : table) (b pt : Z) : get_result :=
  let t1 := store t b (fun u => set_waiting u (num_waiting u - 1)) in
  match scorw_find_uncopied_block_list t1 b with
  | Some u =>
      if scorw_is_compatible_processing_type (processing_type u) pt
      then Acquired (store t1 b (join_type pt))
      else MustWait (store t1 b (fun u => set_waiting u (num_waiting u + 1)))
  | None => MustWait t1
  end.

(** [scorw_put_uncopied_block]: -1 when the block is not in the table. *)
Definition scorw_put_uncopied_block (t : table) (key pt : Z) : Z * table :=
  match scorw_find_uncopied_block_list t key with
  | None => (-1, t)
  | Some u =>
      let clear u := set_type u (Z.land (Z.lnot pt) (processing_type u)) in
      if pt =? READING then
        if 0 <? num_readers u - 1 then (0, store t key (fun u => set_readers u (num_readers u - 1)))
        else (0, store t key (fun u => clear (set_readers u (num_readers u - 1))))
      else (0, store t key clear)
  end.

(** [scorw_remove_uncopied_block]. *)
Definition scorw_remove_uncopied_block (t : table) (key : Z) : table :=
  match scorw_find_uncopied_block_list t key with
  | None => t
  | Some u =>
      if (processing_type u =? NOP) && (num_waiting u =? 0)
      then scorw_remove_uncopied_blocks_list t key else t
  end.

(** ** The read barrier *)

(** A child as the barrier sees it: its active map, how many processes use it,
    and the slot of [uncopied_block[]] the writer keeps for it. *)
Record barrier_child := BarrierChild { bc_table : table; bc_usage : Z; bc_held : bool }.

(** The children of a parent and the read holds on its [i_lock]. *)
Record barrier_state := BarrierState { bs_children : list (option barrier_child); bs_lock_readers : Z }.

(** One child of [scorw_read_barrier_begin]; a block another thread processes
    makes the writer wait. *)
Definition barrier_child_begin (b : Z) (c : option barrier_child) : outcome (option barrier_child) :=
  match c with
  | None => Ok None
  | Some c =>
      if 1 <? bc_usage c then
        match get_first true (bc_table c) b COPYING_EXCL with
        | Acquired t => Ok (Some (BarrierChild t (bc_usage c) true))
        | MustWait _ => Hang
        | NoMemory t => Ok (Some (BarrierChild t (bc_usage c) false))
        end
      else Ok (Some (BarrierChild (bc_table c) (bc_usage c) false))
  end.

Fixpoint barrier_children (b : Z) (cs : list (option barrier_child)) : outcome (list (option barrier_child)) :=
  match cs with
  | [] => Ok []
  | c :: cs' => c' ← barrier_child_begin b c; r ← barrier_children b cs'; Ok (c' :: r)
  end.

Definition scorw_read_barrier_begin (b : Z) (s : barrier_state) : outcome barrier_state :=
  cs ← barrier_children b (bs_children s);
  Ok (BarrierState cs (bs_lock_readers s + 1)).

Definition barrier_child_end (b : Z) (c : option barrier_child) : option barrier_child :=
  (fun c => if bc_held c
            then BarrierChild (scorw_remove_uncopied_block (scorw_put_uncopied_block (bc_table c) b COPYING_EXCL).2 b)
                   (bc_usage c) (bc_held c)
            else c) <$> c.

Definition scorw_read_barrier_end (b : Z) (s : barrier_state) : outcome barrier_state :=
  Ok (BarrierState (barrier_child_end b <$> bs_children s) (bs_lock_readers s - 1)).

(** ** Threads *)

(** The table with what the threads hold and wait for. *)
Record amap := AMap { am_table : table; held : list (Z * Z); waiting : list (Z * Z) }.

Definition is_type (pt : Z) : Prop := pt = READING \/ pt = COPYING \/ pt = COPYING_EXCL.

Inductive astep : amap -> amap -> Prop :=
| astep_acquire mem t h w b pt t' :
    is_type pt -> get_first mem t b pt = Acquired t' -> astep (AMap t h w) (AMap t' ((b, pt) :: h) w)
| astep_wait mem t h w b pt t' :
    is_type pt -> get_first mem t b pt = MustWait t' -> astep (AMap t h w) (AMap t' h ((b, pt) :: w))
| astep_again_acquire t h w w' b pt t' :
    w ≡ₚ (b, pt) :: w' -> get_again t b pt = Acquired t' -> astep (AMap t h w) (AMap t' ((b, pt) :: h) w')
| astep_again_wait t h w b pt t' :
    (b, pt) ∈ w -> get_again t b pt = MustWait t' -> astep (AMap t h w) (AMap t' h w)
| astep_put t h h' w b pt :
    h ≡ₚ (b, pt) :: h' -> astep (AMap t h w) (AMap (scorw_put_uncopied_block t b pt).2 h' w)
| astep_remove t h w b :
    astep (AMap t h w) (AMap (scorw_remove_uncopied_block t b) h w).

Definition empty_amap : amap := AMap (replicate table_size []) [] [].

(** ** Lemmas: the hash table *)

(** Every block has at most one entry in its bucket, and buckets exist. *)
Record table_wf (t : table) : Prop := {
  tw_len : length t = table_size;
  tw_nodup : forall k, NoDup (block_num <$> t !!! hash_min k)
}.

Lemma find_bucket_store key f l k' :
  (forall u, block_num (f u) = block_num u) ->
  List.find (fun u => block_num u =? k') (bucket_store key f l) =
  if decide (key = k') then f <$> List.find (fun u => block_num u =? k') l
  else List.find (fun u => block_num u =? k') l.
Proof.
  intros Hf. induction l as [|u l IH]; simpl; [by case_decide|].
  destruct (Z.eqb_spec (block_num u) key) as [Hk|Hk]; simpl.
  - rewrite Hf. case_decide; subst; [by rewrite Z.eqb_refl|]. by rewrite (proj2 (Z.eqb_neq _ _)).
  - rewrite IH. destruct (Z.eqb_spec (block_num u) k'); case_decide; congruence || done.
Qed.

Lemma bucket_store_keys key f l :
  (forall u, block_num (f u) = block_num u) -> block_num <$> bucket_store key f l = block_num <$> l.
Proof.
  intros Hf. induction l as [|u l IH]; simpl; [done|]. destruct (_ =? _); simpl; [by rewrite Hf|by f_equal].
Qed.

Lemma insert_bucket t i j (l : list uncopied_block) :
  (i < length t)%nat -> <[i := l]> t !!! j = if decide (i = j) then l else t !!! j.
Proof. intros Hi. case_decide; [subst; by apply list_lookup_total_insert_eq|by apply list_lookup_total_insert_ne]. Qed.

Lemma store_find t key f k' :
  table_wf t -> (forall u, block_num (f u) = block_num u) ->
  scorw_find_uncopied_block_list (store t key f) k' =
  if decide (key = k') then f <$> scorw_find_uncopied_block_list t k' else scorw_find_uncopied_block_list t k'.
Proof.
  intros Hw Hf. unfold scorw_find_uncopied_block_list, store.
  rewrite insert_bucket by (rewrite (tw_len _ Hw); apply hash_min_bound). case_decide as Hh.
  - rewrite Hh. by apply find_bucket_store.
  - rewrite decide_False by congruence. done.
Qed.

Lemma store_wf t key f : table_wf t -> (forall u, block_num (f u) = block_num u) -> table_wf (store t key f).
Proof.
  intros [Hl Hn] Hf. split; [unfold store; by rewrite length_insert|]. intros k. unfold store.
  rewrite insert_bucket by (rewrite Hl; apply hash_min_bound). case_decide; [|done].
  by rewrite bucket_store_keys.
Qed.

Lemma add_find t u k' :
  table_wf t -> scorw_find_uncopied_block_list (scorw_add_uncopied_blocks_list t u) k' =
  if decide (block_num u = k') then Some u else scorw_find_uncopied_block_list t k'.
Proof.
  intros Hw. unfold scorw_find_uncopied_block_list, scorw_add_uncopied_blocks_list.
  rewrite insert_bucket by (rewrite (tw_len _ Hw); apply hash_min_bound). case_decide as Hh.
  - simpl. destruct (Z.eqb_spec (block_num u) k'); case_decide; try congruence; by rewrite ?Hh.
  - rewrite decide_False by congruence. done.
Qed.

Lemma find_none_keys l k : List.find (fun u => block_num u =? k) l = None <-> k ∉ block_num <$> l.
Proof.
  induction l as [|u l IH]; simpl; [split; [intros _; apply not_elem_of_nil|done]|].
  rewrite not_elem_of_cons. destruct (Z.eqb_spec (block_num u) k) as [->|]; [naive_solver|].
  rewrite IH. naive_solver.
Qed.

Lemma add_wf t u :
  table_wf t -> scorw_find_uncopied_block_list t (block_num u) = None -> table_wf (scorw_add_uncopied_blocks_list t u).
Proof.
  intros [Hl Hn] Hf. split; [unfold scorw_add_uncopied_blocks_list; by rewrite length_insert|]. intros k.
  unfold scorw_add_uncopied_blocks_list. rewrite insert_bucket by (rewrite Hl; apply hash_min_bound).
  case_decide as Hh; [|done]. simpl. constructor; [by apply find_none_keys|done].
Qed.

Lemma find_bucket_delete key l k' :
  NoDup (block_num <$> l) ->
  List.find (fun u => block_num u =? k') (bucket_delete key l) =
  if decide (key = k') then None else List.find (fun u => block_num u =? k') l.
Proof.
  induction l as [|u l IH]; simpl; intros Hn; [by case_decide|]. apply NoDup_cons in Hn as [Hn1 Hn2].
  destruct (Z.eqb_spec (block_num u) key) as [Hk|Hk]; simpl.
  - case_decide as Hd; [subst; by apply find_none_keys|]. by rewrite (proj2 (Z.eqb_neq _ _)) by congruence.
  - rewrite IH by done. destruct (Z.eqb_spec (block_num u) k'); case_decide; congruence || done.
Qed.

Lemma bucket_delete_sub key l : block_num <$> bucket_delete key l `sublist_of` block_num <$> l.
Proof.
  induction l as [|u l IH]; simpl; [done|]. destruct (_ =? _); simpl; [by apply sublist_cons|by apply sublist_skip].
Qed.

Lemma delete_find t key k' :
  table_wf t -> scorw_find_uncopied_block_list (scorw_remove_uncopied_blocks_list t key) k' =
  if decide (key = k') then None else scorw_find_uncopied_block_list t k'.
Proof.
  intros Hw. unfold scorw_find_uncopied_block_list, scorw_remove_uncopied_blocks_list.
  rewrite insert_bucket by (rewrite (tw_len _ Hw); apply hash_min_bound). case_decide as Hh.
  - rewrite Hh. apply find_bucket_delete. rewrite <- Hh. apply Hw.
  - rewrite decide_False by congruence. done.
Qed.

Lemma delete_wf t key : table_wf t -> table_wf (scorw_remove_uncopied_blocks_list t key).
Proof.
  intros [Hl Hn]. split; [unfold scorw_remove_uncopied_blocks_list; by rewrite length_insert|]. intros k.
  unfold scorw_remove_uncopied_blocks_list. rewrite insert_bucket by (rewrite Hl; apply hash_min_bound).
  case_decide; [|done]. eapply sublist_NoDup; [|apply bucket_delete_sub]. apply Hn.
Qed.

(** ** Lemmas: flags *)

Definition flags (r e c : bool) : Z :=
  (if r then READING else 0) + (if e then COPYING_EXCL else 0) + (if c then COPYING else 0).

(** When a request of each kind is let in. *)
Lemma compatible_flags r e c pt :
  is_type pt ->
  scorw_is_compatible_processing_type (flags r e c) pt =
  (if pt =? READING then r || c || negb e else if pt =? COPYING then r || negb (e || c) else negb (r || e || c)).
Proof. intros [->|[->| ->]]; by destruct r, e, c. Qed.

Lemma join_flags r e c pt :
  is_type pt -> Z.lor (flags r e c) pt = flags (r || (pt =? READING)) (e || (pt =? COPYING_EXCL)) (c || (pt =? COPYING)).
Proof. intros [->|[->| ->]]; by destruct r, e, c. Qed.

Lemma clear_flags r e c pt :
  is_type pt -> Z.land (Z.lnot pt) (flags r e c) =
  flags (r && negb (pt =? READING)) (e && negb (pt =? COPYING_EXCL)) (c && negb (pt =? COPYING)).
Proof. intros [->|[->| ->]]; by destruct r, e, c. Qed.

(** ** Lemmas: the invariant *)

(** How many threads hold block [b] for [pt]. *)
Definition holders (h : list (Z * Z)) (b pt : Z) : Z := Z.of_nat (length (filter (fun x => x = (b, pt)) h)).
Definition waiters (w : list (Z * Z)) (b : Z) : Z := Z.of_nat (length (filter (fun x => x.1 = b) w)).

Lemma holders_cons h b pt b' pt' :
  holders ((b, pt) :: h) b' pt' = (if decide ((b, pt) = (b', pt')) then 1 else 0) + holders h b' pt'.
Proof. unfold holders. rewrite filter_cons. case_decide; cbn [length]; lia. Qed.
Lemma waiters_cons w b pt b' : waiters ((b, pt) :: w) b' = (if decide (b = b') then 1 else 0) + waiters w b'.
Proof. unfold waiters. rewrite filter_cons. cbn [fst]. case_decide; cbn [length]; lia. Qed.
Lemma holders_nonneg h b pt : 0 <= holders h b pt.
Proof. unfold holders. lia. Qed.
Lemma holders_perm h h' b pt : h ≡ₚ h' -> holders h b pt = holders h' b pt.
Proof. intros Hp. unfold holders. by rewrite Hp. Qed.
Lemma waiters_perm w w' b : w ≡ₚ w' -> waiters w b = waiters w' b.
Proof. intros Hp. unfold waiters. by rewrite Hp. Qed.

(** The flags an entry must have for the [nr] readers and [ne] exclusive copiers
    of its block: exclusive copying is alone, and the copying flag is only ever
    too small (a second copier may have joined the readers). *)
Definition entry_ok (u : uncopied_block) (nr ne nw : Z) : Prop :=
  num_readers u = nr /\ num_waiting u = nw /\ ne <= 1 /\
  exists c, processing_type u = flags (0 <? nr) (0 <? ne) c /\ (0 < ne -> nr = 0 /\ c = false).

(** What the table says of block [b]. *)
Definition block_ok (t : table) (h w : list (Z * Z)) (b : Z) : Prop :=
  match scorw_find_uncopied_block_list t b with
  | Some u => entry_ok u (holders h b READING) (holders h b COPYING_EXCL) (waiters w b)
  | None => holders h b READING = 0 /\ holders h b COPYING_EXCL = 0 /\ waiters w b = 0
  end.

Record amap_wf (s : amap) : Prop := {
  aw_table : table_wf (am_table s);
  aw_block : forall b, block_ok (am_table s) (held s) (waiting s) b;
  aw_types : Forall (fun x => is_type x.2) (held s) /\ Forall (fun x => is_type x.2) (waiting s)
}.

Lemma empty_amap_wf : amap_wf empty_amap.
Proof.
  assert (forall i, replicate table_size ([] : list uncopied_block) !!! i = []) as Hr.
  { intros i. rewrite list_lookup_total_alt. destruct (replicate _ _ !! i) eqn:E; [|done].
    by apply lookup_replicate in E as [-> _]. }
  split; cbn [am_table held waiting empty_amap].
  - split; [by rewrite length_replicate|]. intros k. rewrite Hr. constructor.
  - intros b. unfold block_ok, scorw_find_uncopied_block_list. by rewrite Hr.
  - done.
Qed.

(** Joining a block in order. *)
Lemma join_entry_ok u pt nr ne nw :
  is_type pt -> 0 <= nr -> 0 <= ne -> entry_ok u nr ne nw ->
  scorw_is_compatible_processing_type (processing_type u) pt = true ->
  entry_ok (join_type pt u) (nr + if pt =? READING then 1 else 0) (ne + if pt =? COPYING_EXCL then 1 else 0) nw.
Proof.
  intros Ht Hr He (Hnr & Hnw & Hne & c & Hpt & Hex) Hc. rewrite Hpt, compatible_flags in Hc by done.
  unfold entry_ok, join_type.
  assert (processing_type (set_type u (Z.lor (processing_type u) pt)) =
    flags ((0 <? nr) || (pt =? READING)) ((0 <? ne) || (pt =? COPYING_EXCL)) (c || (pt =? COPYING))) as Hp'.
  { cbn [processing_type set_type]. by rewrite Hpt, join_flags. }
  destruct Ht as [->|[->| ->]]; cbn in Hc, Hp' |- *; rewrite ?orb_true_r, ?orb_false_r, ?Z.add_0_r in *.
  - split_and!; [lia|done|done|]. exists c. rewrite Hp'. split.
    + by rewrite (proj2 (Z.ltb_lt 0 (nr + 1))) by lia.
    + intros Hlt. destruct (Hex Hlt) as [-> ->]. rewrite (proj2 (Z.ltb_lt 0 ne)) in Hc by done. done.
  - split_and!; [done|done|done|]. exists true. split; [done|]. intros Hlt. destruct (Hex Hlt) as [-> ->].
    rewrite (proj2 (Z.ltb_lt 0 ne)) in Hc by done. done.
  - apply negb_true_iff, orb_false_iff in Hc as [[Hc1%Z.ltb_ge Hc2%Z.ltb_ge]%orb_false_iff ->].
    split_and!; [done|done|lia|]. exists false. rewrite Hp'. split.
    + by rewrite (proj2 (Z.ltb_lt 0 (ne + 1))) by lia.
    + intros _. split; [lia|done].
Qed.

Lemma new_entry_ok b pt :
  is_type pt -> entry_ok (new_block b pt) (if pt =? READING then 1 else 0) (if pt =? COPYING_EXCL then 1 else 0) 0.
Proof.
  intros [->|[->| ->]]; unfold entry_ok; cbn; split_and!; try done; [exists false|exists true|exists false]; by split.
Qed.

Lemma holders_type h b pt pt' :
  holders ((b, pt) :: h) b pt' = holders h b pt' + if pt =? pt' then 1 else 0.
Proof. rewrite holders_cons. destruct (Z.eqb_spec pt pt'); case_decide; try congruence; lia. Qed.

Lemma holders_other h b pt b' pt' : b <> b' -> holders ((b, pt) :: h) b' pt' = holders h b' pt'.
Proof. intros Hne. rewrite holders_cons. rewrite decide_False by congruence. lia. Qed.

(** The blocks a store does not touch. *)
Lemma block_ok_other t t' h h' w w' b' :
  scorw_find_uncopied_block_list t' b' = scorw_find_uncopied_block_list t b' ->
  holders h' b' READING = holders h b' READING -> holders h' b' COPYING_EXCL = holders h b' COPYING_EXCL ->
  waiters w' b' = waiters w b' -> block_ok t h w b' -> block_ok t' h' w' b'.
Proof. intros Hf Hr He Hw. unfold block_ok. by rewrite Hf, Hr, He, Hw. Qed.

Lemma join_type_key pt u : block_num (join_type pt u) = block_num u.
Proof. unfold join_type. by destruct (_ =? _). Qed.

(** Joining a block that is in the table. *)
Lemma join_wf t h w b pt u :
  amap_wf (AMap t h w) -> is_type pt -> scorw_find_uncopied_block_list t b = Some u ->
  scorw_is_compatible_processing_type (processing_type u) pt = true ->
  amap_wf (AMap (store t b (join_type pt)) ((b, pt) :: h) w).
Proof.
  intros [Hw Hb [Ht1 Ht2]] Ht Hf Hc. cbn [am_table held waiting] in *. pose proof (join_type_key pt) as Hk.
  split; cbn [am_table held waiting]; [by apply store_wf| |by split; [constructor|]].
  intros b'. destruct (decide (b = b')) as [<-|Hne].
  - specialize (Hb b). unfold block_ok in *. rewrite Hf in Hb. rewrite store_find, decide_True, Hf by done. cbn [fmap option_fmap option_map].
    rewrite !holders_type. apply join_entry_ok; auto using holders_nonneg.
  - eapply block_ok_other; [| | | |apply (Hb b')]; rewrite ?holders_other by done; try done.
    rewrite store_find by done. by rewrite decide_False.
Qed.

(** Counting one more or one less waiter. *)
Lemma waiting_wf t h w w' b d :
  amap_wf (AMap t h w) -> Forall (fun x => is_type x.2) w' ->
  (forall b', waiters w' b' = waiters w b' + if decide (b = b') then d else 0) ->
  is_Some (scorw_find_uncopied_block_list t b) ->
  amap_wf (AMap (store t b (fun u => set_waiting u (num_waiting u + d))) h w').
Proof.
  intros [Hw Hb [Ht1 Ht2]] Ht' Hd [u Hu]. cbn [am_table held waiting] in *.
  split; cbn [am_table held waiting]; [by apply store_wf| |done].
  intros b'. destruct (decide (b = b')) as [<-|Hne].
  - specialize (Hb b). specialize (Hd b). rewrite decide_True in Hd by done. unfold block_ok in *. rewrite Hu in Hb.
    rewrite store_find, decide_True, Hu by done. cbn [fmap option_fmap option_map].
    destruct Hb as (H1 & H2 & H3 & H4). split_and!; [done|cbn; lia|done|done].
  - eapply block_ok_other; [| | | |apply (Hb b')]; try done.
    + rewrite store_find by done. by rewrite decide_False.
    + rewrite Hd. rewrite decide_False by done. lia.
Qed.

(** Entering a block that is not in the table. *)
Lemma enter_wf t h w b pt :
  amap_wf (AMap t h w) -> is_type pt -> scorw_find_uncopied_block_list t b = None ->
  amap_wf (AMap (scorw_add_uncopied_blocks_list t (new_block b pt)) ((b, pt) :: h) w).
Proof.
  intros [Hw Hb [Ht1 Ht2]] Ht Hf. cbn [am_table held waiting] in *.
  split; cbn [am_table held waiting]; [by apply add_wf| |by split; [constructor|]].
  intros b'. destruct (decide (b = b')) as [<-|Hne].
  - specialize (Hb b). unfold block_ok in *. rewrite Hf in Hb. destruct Hb as (Hr & He & Hwt).
    rewrite add_find, decide_True by done. rewrite !holders_type, Hr, He, Hwt, !Z.add_0_l. by apply new_entry_ok.
  - eapply block_ok_other; [| | | |apply (Hb b')]; rewrite ?holders_other by done; try done.
    rewrite add_find by done. by rewrite decide_False.
Qed.

Lemma waited_present t h w w' b pt :
  amap_wf (AMap t h w) -> w ≡ₚ (b, pt) :: w' -> is_Some (scorw_find_uncopied_block_list t b).
Proof.
  intros [_ Hb _] Hp. specialize (Hb b). unfold block_ok in Hb. cbn [am_table held waiting] in Hb.
  destruct (scorw_find_uncopied_block_list t b); [done|]. destruct Hb as (_ & _ & Hb).
  rewrite (waiters_perm _ _ b Hp), waiters_cons, decide_True in Hb by done. unfold waiters in Hb. lia.
Qed.

(** A woken thread no longer counts as waiting. *)
Lemma woken_wf t h w w' b pt :
  amap_wf (AMap t h w) -> w ≡ₚ (b, pt) :: w' ->
  amap_wf (AMap (store t b (fun u => set_waiting u (num_waiting u - 1))) h w').
Proof.
  intros Hwf Hp. apply (waiting_wf t h w w' b (-1) Hwf).
  - pose proof (aw_types _ Hwf) as [_ Ht]. cbn [waiting] in Ht. rewrite Hp in Ht. by apply Forall_cons in Ht as [_ ?].
  - intros b'. rewrite (waiters_perm _ _ b' Hp), waiters_cons. case_decide; lia.
  - by eapply waited_present.
Qed.

Lemma waiting_more_wf t h w b pt :
  amap_wf (AMap t h w) -> is_type pt -> is_Some (scorw_find_uncopied_block_list t b) ->
  amap_wf (AMap (store t b (fun u => set_waiting u (num_waiting u + 1))) h ((b, pt) :: w)).
Proof.
  intros Hwf Ht Hs. apply (waiting_wf t h w _ b 1 Hwf); [| |done].
  - constructor; [done|]. apply (aw_types _ Hwf).
  - intros b'. rewrite waiters_cons. case_decide; lia.
Qed.

Lemma amap_wf_perm t h h' w w' : h ≡ₚ h' -> w ≡ₚ w' -> amap_wf (AMap t h w) -> amap_wf (AMap t h' w').
Proof.
  intros Hh Hw [Hwt Hb [Ht1 Ht2]]. cbn [am_table held waiting] in *. split; cbn [am_table held waiting]; [done| |].
  - intros b. specialize (Hb b). unfold block_ok in *.
    by rewrite <- (holders_perm _ _ b READING Hh), <- (holders_perm _ _ b COPYING_EXCL Hh), <- (waiters_perm _ _ b Hw).
  - by rewrite <- Hh, <- Hw.
Qed.

Lemma get_again_wf t h w w' b pt :
  amap_wf (AMap t h w) -> w ≡ₚ (b, pt) :: w' -> is_type pt ->
  match get_again t b pt with
  | Acquired t' => amap_wf (AMap t' ((b, pt) :: h) w')
  | MustWait t' | NoMemory t' => amap_wf (AMap t' h w)
  end.
Proof.
  intros Hwf Hp Ht. pose proof (woken_wf _ _ _ _ _ _ Hwf Hp) as Hwk. unfold get_again.
  destruct (waited_present _ _ _ _ _ _ Hwf Hp) as [u Hu].
  set (t1 := store t b _) in *.
  assert (is_Some (scorw_find_uncopied_block_list t1 b)) as [u1 Hu1].
  { subst t1. rewrite store_find, decide_True, Hu by (done || apply Hwf). by eexists. }
  rewrite Hu1. destruct (scorw_is_compatible_processing_type _ _) eqn:Hc; [by eapply join_wf|].
  eapply amap_wf_perm; [done|symmetry; exact Hp|]. by apply waiting_more_wf.
Qed.

(** Releasing. *)
Lemma put_entry_ok u pt nr ne nw :
  is_type pt -> 0 <= nr -> 0 <= ne ->
  entry_ok u (nr + if pt =? READING then 1 else 0) (ne + if pt =? COPYING_EXCL then 1 else 0) nw ->
  entry_ok (if pt =? READING then
              if 0 <? num_readers u - 1 then set_readers u (num_readers u - 1)
              else set_type (set_readers u (num_readers u - 1)) (Z.land (Z.lnot pt) (processing_type u))
            else set_type u (Z.land (Z.lnot pt) (processing_type u))) nr ne nw.
Proof.
  intros Ht Hr He (Hnr & Hnw & Hne & c & Hpt & Hex).
  pose proof (clear_flags (0 <? nr + if pt =? READING then 1 else 0) (0 <? ne + if pt =? COPYING_EXCL then 1 else 0) c pt Ht) as Hcl.
  rewrite <- Hpt in Hcl. rewrite Hnr. destruct Ht as [->|[->| ->]]; cbn in *;
    rewrite ?andb_true_r, ?andb_false_r, ?Z.add_0_r in *.
  - destruct (Z.ltb_spec 0 (nr + 1 - 1)) as [Hlt|Hge].
    + split_and!; [cbn; lia|done|done|]. exists c. cbn. rewrite Hpt. rewrite (proj2 (Z.ltb_lt 0 (nr + 1))), (proj2 (Z.ltb_lt 0 nr)) by lia.
      split; [done|]. intros Hlt2. destruct (Hex Hlt2). lia.
    + split_and!; [cbn; lia|done|done|]. exists c. cbn. rewrite Hcl. split; [|intros Hlt2; destruct (Hex Hlt2); lia].
      by rewrite (proj2 (Z.ltb_ge 0 nr)) by lia.
  - split_and!; [done|done|done|]. exists false. cbn. rewrite Hcl. split; [done|]. intros Hlt2. destruct (Hex Hlt2). done.
  - split_and!; [done|done|lia|]. exists c. cbn. rewrite Hcl. rewrite (proj2 (Z.ltb_ge 0 ne)) by lia. split; [done|lia].
Qed.

Lemma put_store t b pt u :
  scorw_find_uncopied_block_list t b = Some u ->
  (scorw_put_uncopied_block t b pt).2 = store t b (fun v =>
    if pt =? READING then
      if 0 <? num_readers u - 1 then set_readers v (num_readers v - 1)
      else set_type (set_readers v (num_readers v - 1)) (Z.land (Z.lnot pt) (processing_type v))
    else set_type v (Z.land (Z.lnot pt) (processing_type v))).
Proof.
  intros Hu. unfold scorw_put_uncopied_block. rewrite Hu. by destruct (pt =? READING), (0 <? num_readers u - 1).
Qed.

Lemma put_wf t h h' w b pt :
  amap_wf (AMap t h w) -> h ≡ₚ (b, pt) :: h' -> amap_wf (AMap (scorw_put_uncopied_block t b pt).2 h' w).
Proof.
  intros Hwf Hp. assert (amap_wf (AMap t ((b, pt) :: h') w)) as [Hw Hb [Ht1 Ht2]] by by eapply amap_wf_perm.
  clear Hwf Hp. cbn [am_table held waiting] in *. apply Forall_cons in Ht1 as [Ht Ht1]. cbn [snd] in Ht.
  destruct (scorw_find_uncopied_block_list t b) as [u|] eqn:Hu.
  - rewrite (put_store _ _ _ _ Hu). set (f := fun v : uncopied_block => _).
    assert (forall v, block_num (f v) = block_num v) as Hk by (intros v; subst f; cbn; case_bools; done).
    split; cbn [am_table held waiting]; [by apply store_wf| |done].
    intros b'. destruct (decide (b = b')) as [<-|Hne].
    + specialize (Hb b). unfold block_ok in *. rewrite Hu, !holders_type in Hb.
      rewrite store_find, decide_True, Hu by done. cbn [fmap option_fmap option_map]. subst f. cbv beta.
      apply put_entry_ok; auto using holders_nonneg.
    + specialize (Hb b'). eapply block_ok_other; [| | | |exact Hb]; rewrite ?holders_other by done; try done.
      rewrite store_find by done. by rewrite decide_False.
  - unfold scorw_put_uncopied_block. rewrite Hu. cbn [snd]. split; cbn [am_table held waiting]; [done| |done].
    intros b'. specialize (Hb b'). destruct (decide (b = b')) as [<-|Hne].
    + unfold block_ok in *. rewrite Hu, !holders_type in *. pose proof (holders_nonneg h' b READING).
      pose proof (holders_nonneg h' b COPYING_EXCL). destruct Hb as (Hb1 & Hb2 & Hb3). split_and!; [..|done];
        destruct (pt =? READING), (pt =? COPYING_EXCL); lia.
    + eapply block_ok_other; [| | | |exact Hb]; rewrite ?holders_other by done; done.
Qed.

Lemma remove_wf t h w b : amap_wf (AMap t h w) -> amap_wf (AMap (scorw_remove_uncopied_block t b) h w).
Proof.
  intros Hwf. unfold scorw_remove_uncopied_block. destruct (scorw_find_uncopied_block_list t b) as [u|] eqn:Hu; [|done].
  destruct ((processing_type u =? NOP) && (num_waiting u =? 0)) eqn:E; [|done].
  apply andb_true_iff in E as [E1%Z.eqb_eq E2%Z.eqb_eq]. destruct Hwf as [Hw Hb Ht]. cbn [am_table held waiting] in *.
  split; cbn [am_table held waiting]; [by apply delete_wf| |done]. intros b'. specialize (Hb b').
  unfold block_ok in *. rewrite delete_find by done. destruct (decide (b = b')) as [<-|Hne]; [|done].
  rewrite Hu in Hb. destruct Hb as (_ & Hb2 & Hb3 & c & Hb4 & _). rewrite E1 in Hb4.
  pose proof (holders_nonneg h b READING). pose proof (holders_nonneg h b COPYING_EXCL). unfold NOP in Hb4.
  destruct (Z.ltb_spec 0 (holders h b READING)), (Z.ltb_spec 0 (holders h b COPYING_EXCL)), c; try done. split_and!; lia.
Qed.

Lemma astep_wf s s' : amap_wf s -> astep s s' -> amap_wf s'.
Proof.
  intros Hwf Hs. destruct Hs as [mem t h w b pt t' Ht Hg|mem t h w b pt t' Ht Hg|t h w w' b pt t' Hp Hg|t h w b pt t' Hin Hg|t h h' w b pt Hp|t h w b].
  - unfold get_first in Hg. destruct (scorw_find_uncopied_block_list t b) as [u|] eqn:Hu.
    + destruct (scorw_is_compatible_processing_type _ _) eqn:Hc; [|done]. injection Hg as <-. by eapply join_wf.
    + destruct mem; [|done]. injection Hg as <-. by apply enter_wf.
  - unfold get_first in Hg. destruct (scorw_find_uncopied_block_list t b) as [u|] eqn:Hu.
    + destruct (scorw_is_compatible_processing_type _ _) eqn:Hc; [done|]. injection Hg as <-.
      apply waiting_more_wf; [done|done|by eexists].
    + by destruct mem.
  - assert (is_type pt) as Ht.
    { pose proof (aw_types _ Hwf) as [_ Ht]. cbn [waiting] in Ht. rewrite Hp in Ht. by apply Forall_cons in Ht as [? _]. }
    pose proof (get_again_wf _ _ _ _ _ _ Hwf Hp Ht) as Hga. by rewrite Hg in Hga.
  - apply elem_of_Permutation in Hin as [w' Hp].
    assert (is_type pt) as Ht.
    { pose proof (aw_types _ Hwf) as [_ Ht]. cbn [waiting] in Ht. rewrite Hp in Ht. by apply Forall_cons in Ht as [? _]. }
    pose proof (get_again_wf _ _ _ _ _ _ Hwf Hp Ht) as Hga. by rewrite Hg in Hga.
  - by eapply put_wf.
  - by apply remove_wf.
Qed.

Lemma asteps_wf s s' : amap_wf s -> rtc astep s s' -> amap_wf s'.
Proof. intros Hwf Hr. induction Hr as [|x y z Hxy _ IH]; [done|]. by eapply IH, astep_wf. Qed.

(** ** Properties *)

(** C10: Reading and exclusive copying of a block exclude each other: whatever
    sequence of acquisitions, waits, wake-ups, releases and removals the threads
    go through from an empty active map, no block is held for reading while it
    is held for exclusive copying, at most one thread holds it for exclusive
    copying, and the reader count of its entry is the number of its readers. *)
Theorem readers_exclude_exclusive_copier (s : amap) (b : Z) :
  rtc astep empty_amap s ->
  (0 < holders (held s) b COPYING_EXCL -> holders (held s) b READING = 0) /\
  holders (held s) b COPYING_EXCL <= 1 /\
  (forall u, scorw_find_uncopied_block_list (am_table s) b = Some u -> num_readers u = holders (held s) b READING).
Proof.
  intros Hr. pose proof (asteps_wf _ _ empty_amap_wf Hr) as [_ Hb _]. specialize (Hb b). unfold block_ok in Hb.
  destruct (scorw_find_uncopied_block_list (am_table s) b) as [u|].
  - destruct Hb as (H1 & H2 & H3 & c & H4 & H5). split_and!; [intros Hp; by destruct (H5 Hp)|done|].
    intros u' Hu'. by injection Hu' as <-.
  - destruct Hb as (H1 & H2 & H3). split_and!; [done|lia|done].
Qed.

End active_map.

(** ** The flaw of joining copiers *)

(** One bucket for every key. *)
#[local] Instance one_bucket : HashMin :=
  {| hash_min := fun _ => O; table_size := 1; hash_min_bound := fun _ => Nat.lt_0_1 |}.

Lemma readers_exclude_exclusive_copier_witness :
  let s := AMap [[new_block 5 READING]] [(5, READING)] [] in
  (0 < holders (held s) 5 COPYING_EXCL -> holders (held s) 5 READING = 0) /\
  holders (held s) 5 COPYING_EXCL <= 1 /\
  (forall u, scorw_find_uncopied_block_list (am_table s) 5 = Some u -> num_readers u = holders (held s) 5 READING).
Proof.
  apply (readers_exclude_exclusive_copier (AMap [[new_block 5 READING]] [(5, READING)] []) 5).
  apply rtc_once. apply (astep_acquire true [[]] [] [] 5 READING); [by left|done].
Defined.

(** Copying is not exclusive, although the comment of the compatibility
    test says that copying is not compatible with copying: once a reader and a
    copier share a block a second copier joins them, and after one of the
    copiers and the reader have left, an exclusive copier gets the block while
    the other copier still holds it. *)
Theorem copiers_not_exclusive :
  exists s1 s2, rtc astep empty_amap s1 /\ holders (held s1) 5 COPYING = 2 /\
    rtc astep s1 s2 /\ holders (held s2) 5 COPYING = 1 /\ holders (held s2) 5 COPYING_EXCL = 1.
Proof.
  exists (AMap [[UncopiedBlock 5 257 1 0]] [(5, COPYING); (5, COPYING); (5, READING)] []).
  exists (AMap [[UncopiedBlock 5 16 0 0]] [(5, COPYING_EXCL); (5, COPYING)] []).
  split_and!; [|done| |done|done].
  - eapply rtc_l; [by apply (astep_acquire true [[]] [] [] 5 READING); [left|]|].
    eapply rtc_l; [by apply (astep_acquire true _ _ _ 5 COPYING); [right; left|]|].
    apply rtc_once. by apply (astep_acquire true _ _ _ 5 COPYING); [right; left|].
  - eapply rtc_l; [by apply (astep_put _ _ [(5, COPYING); (5, READING)] _ 5 COPYING)|].
    eapply rtc_l; [by apply (astep_put _ _ [(5, COPYING)] _ 5 READING), Permutation_swap|].
    apply rtc_once. by apply (astep_acquire true _ _ _ 5 COPYING_EXCL); [right; right|].
Qed.
