(* ===== verification/VersionCount.v ===== *)
(** The version counts of a child and of its friend file, by which an open tells
    whether the friend file can be trusted: the increment on the first write
    ([scorw_child_version_cnt_inc]), the queue of friends whose count must catch
    up ([scorw_unprepare_child_inode],
    [scorw_process_pending_frnd_version_cnt_inc_list]) and the recovery an open
    triggers when the counts differ ([scorw_prepare_child_inode]), all of
    [corw_sparse.c]. *)

From S2P Require Import Prelude Pages Friend.

(** ** State *)

(** What these operations read and write of a child inode.  [has_scorw] is
    [i_scorw_inode != NULL] (the child is attached to a scorw inode), [dirty] is
    [i_state & I_DIRTY], [c_count] the references on the vfs inode. *)
Record cnode := CNode {
  c_frnd_ino : Z;
  cannot_update_child_version_cnt : bool;
  child_version : Z;
  has_scorw : bool;
  dirty : bool;
  c_count : Z;
  c_copy_size : Z;
  c_es_tree : list extent_status
}.

(** The same of a friend inode, with its file. *)
Record fnode := FNode { frnd_version : Z; can_sync_frnd : Z; f_count : Z; f_file : mapping }.

(** [struct pending_frnd_version_cnt_inc]. *)
Record pending_frnd_version_cnt_inc := Pending { rq_child : Z; rq_frnd : Z; iter_id : Z }.

(** [struct wait_for_commit]. *)
Record wait_for_commit := WaitForCommit { wc_frnd : Z; child_staged_for_commit : Z }.

(** The inodes, the two lists of the module, and the static [iter_id] of the
    list processing. *)
Record vworld := VWorld {
  vw_c : gmap Z cnode;
  vw_f : gmap Z fnode;
  vw_pending : list pending_frnd_version_cnt_inc;
  vw_commit : list wait_for_commit;
  vw_iter : Z
}.

Definition set_c (w : vworld) (ino : Z) (c : cnode) : vworld :=
  VWorld (<[ino := c]> (vw_c w)) (vw_f w) (vw_pending w) (vw_commit w) (vw_iter w).
Definition set_f (w : vworld) (ino : Z) (f : fnode) : vworld :=
  VWorld (vw_c w) (<[ino := f]> (vw_f w)) (vw_pending w) (vw_commit w) (vw_iter w).
Definition set_pending (w : vworld) (l : list pending_frnd_version_cnt_inc) : vworld :=
  VWorld (vw_c w) (vw_f w) l (vw_commit w) (vw_iter w).
Definition set_iter (w : vworld) (i : Z) : vworld :=
  VWorld (vw_c w) (vw_f w) (vw_pending w) (vw_commit w) i.
Definition add_commit (w : vworld) (r : wait_for_commit) : vworld :=
  VWorld (vw_c w) (vw_f w) (vw_pending w) (vw_commit w ++ [r]) (vw_iter w).

Definition c_set_flag (c : cnode) (b : bool) : cnode :=
  CNode (c_frnd_ino c) b (child_version c) (has_scorw c) (dirty c) (c_count c) (c_copy_size c) (c_es_tree c).
Definition c_set_version (c : cnode) (v : Z) : cnode :=
  CNode (c_frnd_ino c) (cannot_update_child_version_cnt c) v (has_scorw c) (dirty c) (c_count c) (c_copy_size c) (c_es_tree c).
Definition c_set_scorw (c : cnode) (b : bool) : cnode :=
  CNode (c_frnd_ino c) (cannot_update_child_version_cnt c) (child_version c) b (dirty c) (c_count c) (c_copy_size c) (c_es_tree c).
Definition c_set_dirty (c : cnode) (b : bool) : cnode :=
  CNode (c_frnd_ino c) (cannot_update_child_version_cnt c) (child_version c) (has_scorw c) b (c_count c) (c_copy_size c) (c_es_tree c).
Definition c_iput (c : cnode) : cnode :=
  CNode (c_frnd_ino c) (cannot_update_child_version_cnt c) (child_version c) (has_scorw c) (dirty c) (c_count c - 1) (c_copy_size c) (c_es_tree c).
Definition f_set_version (f : fnode) (v : Z) : fnode := FNode v (can_sync_frnd f) (f_count f) (f_file f).
Definition f_set_sync (f : fnode) (v : Z) : fnode := FNode (frnd_version f) v (f_count f) (f_file f).
Definition f_set_file (f : fnode) (m : mapping) : fnode := FNode (frnd_version f) (can_sync_frnd f) (f_count f) m.
Definition f_iput (f : fnode) : fnode := FNode (frnd_version f) (can_sync_frnd f) (f_count f - 1) (f_file f).

(** ** Operations *)

(** [scorw_child_version_cnt_inc]: on the first write since the friend caught
    up, the friend is barred from syncing, the version of the child grows, and
    the friend is queued for the commit that will let it sync again. *)
Definition scorw_child_version_cnt_inc (w : vworld) (ino : Z) : outcome vworld :=
  match vw_c w !! ino with
  | None => Bug
  | Some c =>
      if cannot_update_child_version_cnt c then Ok w
      else if negb (has_scorw c) then Bug
      else match vw_f w !! c_frnd_ino c with
      | None => Bug
      | Some f =>
          _ ← BUG_ON (child_version c =? 0);
          let c' := c_set_version (c_set_flag c true) (u64 (child_version c + 1)) in
          Ok (add_commit (set_f (set_c w ino c') (c_frnd_ino c) (f_set_sync f (-1)))
                (WaitForCommit (c_frnd_ino c) 0))
      end
  end.

(** The lists: [list_add_tail] and the test for a queued child. *)
Definition scorw_add_pending_frnd_version_cnt_inc_list (w : vworld) (r : pending_frnd_version_cnt_inc) : vworld :=
  set_pending w (vw_pending w ++ [r]).
Definition entry_found (w : vworld) (ino : Z) : bool :=
  existsb (fun r => rq_child r =? ino) (vw_pending w).

(** The version-count part of [scorw_unprepare_child_inode], with the detaching
    of the scorw inode by its caller: an unwritten child gives its references
    back, a written one is queued with them unless it is queued already. *)
Definition scorw_unprepare_child_inode (w : vworld) (ino : Z) : outcome vworld :=
  match vw_c w !! ino with
  | None => Bug
  | Some c =>
      match vw_f w !! c_frnd_ino c with
      | None => Bug
      | Some f =>
          let w0 := set_c w ino (c_set_scorw c false) in
          let put := set_f (set_c w ino (c_iput (c_set_scorw c false))) (c_frnd_ino c) (f_iput f) in
          if negb (cannot_update_child_version_cnt c) then Ok put
          else if entry_found w ino then Ok put
          else Ok (scorw_add_pending_frnd_version_cnt_inc_list w0 (Pending ino (c_frnd_ino c) 0))
      end
  end.

(** The version-count part of [scorw_prepare_child_inode], with the references
    it takes: the friend file is recovered from the extents of the child when no
    update is under way and the counts differ. *)
Definition scorw_prepare_child_inode (io : io_env) (w : vworld) (ino : Z) : outcome vworld :=
  match vw_c w !! ino with
  | None => Bug
  | Some c =>
      match vw_f w !! c_frnd_ino c with
      | None => Bug
      | Some f =>
          let c1 := CNode (c_frnd_ino c) (cannot_update_child_version_cnt c) (child_version c) true (dirty c)
                      (c_count c + 1) (c_copy_size c) (c_es_tree c) in
          let f1 := FNode (frnd_version f) (can_sync_frnd f) (f_count f + 1) (f_file f) in
          let attach f' := set_f (set_c w ino c1) (c_frnd_ino c) f' in
          if cannot_update_child_version_cnt c then Ok (attach f1)
          else
            _ ← BUG_ON ((child_version c =? 0) || (frnd_version f =? 0));
            if child_version c =? frnd_version f then Ok (attach f1)
            else
              m ← scorw_recover_friend_file io (c_es_tree c) (f_file f) (c_copy_size c);
              Ok (attach (f_set_version (f_set_file f1 m) (child_version c)))
      end
  end.

(** The friend catches up: its count becomes that of the child, the flags are
    reset and the references of the request given back. *)
Definition catch_up (w : vworld) (r : pending_frnd_version_cnt_inc) : outcome vworld :=
  match vw_c w !! rq_child r, vw_f w !! rq_frnd r with
  | Some c, Some f =>
      _ ← BUG_ON (child_version c =? 0);
      Ok (set_f (set_c w (rq_child r) (c_iput (c_set_flag c false))) (rq_frnd r)
            (f_iput (f_set_sync (f_set_version f (child_version c)) (-1))))
  | _, _ => Bug
  end.

(** One request, already taken off the head of the list and stamped. *)
Definition process_request (sync_child : bool) (w : vworld) (r : pending_frnd_version_cnt_inc) : outcome vworld :=
  match vw_c w !! rq_child r, vw_f w !! rq_frnd r with
  | Some c, Some f =>
      if sync_child then
        _ ← BUG_ON (has_scorw c);
        catch_up (set_c w (rq_child r) (c_set_dirty c false)) r
      else if has_scorw c then
        Ok (set_f (set_c w (rq_child r) (c_iput c)) (rq_frnd r) (f_iput f))
      else if dirty c || negb (can_sync_frnd f =? 1) then
        Ok (scorw_add_pending_frnd_version_cnt_inc_list w r)
      else catch_up w r
  | _, _ => Bug
  end.

(** The [list_for_each_entry_safe] loop: it stops at the end of the list or at
    the first request it stamped itself, so a pass visits every request once and
    the length of the list is enough fuel. *)
Fixpoint process_loop (fuel : nat) (sync_child : bool) (w : vworld) : outcome vworld :=
  match vw_pending w with
  | [] => Ok w
  | r :: l =>
      if iter_id r =? vw_iter w then Ok w
      else match fuel with
      | O => Hang
      | S fuel' =>
          w' ← process_request sync_child (set_pending w l) (Pending (rq_child r) (rq_frnd r) (vw_iter w));
          process_loop fuel' sync_child w'
      end
  end.

(** [scorw_process_pending_frnd_version_cnt_inc_list]. *)
Definition scorw_process_pending_frnd_version_cnt_inc_list (sync_child : bool) (w : vworld) : outcome vworld :=
  w' ← process_loop (length (vw_pending w)) sync_child w;
  Ok (set_iter w' (u64 (vw_iter w' + 1))).

(** ** What a pass decides for one request *)

(** The child, the friend and whether the request stays, after a pass. *)
Definition caught (c : cnode) (f : fnode) : cnode * fnode * bool :=
  (c_iput (c_set_flag c false), f_iput (f_set_sync (f_set_version f (child_version c)) (-1)), false).
Definition verdict (sync_child : bool) (c : cnode) (f : fnode) : cnode * fnode * bool :=
  if sync_child then caught (c_set_dirty c false) f
  else if has_scorw c then (c_iput c, f_iput f, false)
  else if dirty c || negb (can_sync_frnd f =? 1) then (c, f, true)
  else caught c f.

(** Whether a request stays in the list, and the stamp it gets. *)
Definition stays (sync_child : bool) (w : vworld) (r : pending_frnd_version_cnt_inc) : bool :=
  match vw_c w !! rq_child r, vw_f w !! rq_frnd r with
  | Some c, Some f => (verdict sync_child c f).2
  | _, _ => false
  end.
Definition stamp (i : Z) (r : pending_frnd_version_cnt_inc) : pending_frnd_version_cnt_inc :=
  Pending (rq_child r) (rq_frnd r) i.

(** A request a pass can process. *)
Definition processable (sync_child : bool) (w : vworld) (r : pending_frnd_version_cnt_inc) : Prop :=
  exists c f, vw_c w !! rq_child r = Some c /\ vw_f w !! rq_frnd r = Some f /\ child_version c <> 0 /\
    (sync_child = true -> has_scorw c = false).

(** ** Lemmas: a pass over the list *)

Lemma process_request_effect sync w r c f :
  vw_c w !! rq_child r = Some c -> vw_f w !! rq_frnd r = Some f -> child_version c <> 0 ->
  (sync = true -> has_scorw c = false) ->
  exists w', process_request sync w r = Ok w' /\
    vw_c w' = <[rq_child r := (verdict sync c f).1.1]> (vw_c w) /\
    vw_f w' = <[rq_frnd r := (verdict sync c f).1.2]> (vw_f w) /\
    vw_pending w' = vw_pending w ++ (if (verdict sync c f).2 then [r] else []) /\
    vw_commit w' = vw_commit w /\ vw_iter w' = vw_iter w.
Proof.
  intros Hc Hf Hv Hs. unfold process_request, verdict, catch_up. rewrite Hc, Hf.
  destruct sync.
  - rewrite Hs by done. cbn. rewrite lookup_insert_eq, Hf. cbn. rewrite (proj2 (Z.eqb_neq _ _)) by done.
    cbn. eexists. split; [done|]. cbn. by rewrite insert_insert_eq, app_nil_r.
  - destruct (has_scorw c); [eexists; split; [done|]; cbn; by rewrite app_nil_r|].
    destruct (dirty c || negb (can_sync_frnd f =? 1)).
    + eexists. split; [done|]. cbn. by rewrite !insert_id.
    + rewrite (proj2 (Z.eqb_neq _ _)) by done. cbn. eexists. split; [done|]. cbn. by rewrite app_nil_r.
Qed.

Lemma filter_stays_ext sync w w1 (l : list pending_frnd_version_cnt_inc) :
  (forall x, x ∈ l -> vw_c w1 !! rq_child x = vw_c w !! rq_child x /\ vw_f w1 !! rq_frnd x = vw_f w !! rq_frnd x) ->
  filter (stays sync w1) l = filter (stays sync w) l.
Proof.
  induction l as [|x l IH]; intros H; [done|]. rewrite !filter_cons.
  assert (stays sync w1 x = stays sync w x) as ->.
  { unfold stays. destruct (H x) as [-> ->]; [by left|done]. }
  rewrite IH; [done|]. intros y Hy. apply H. by right.
Qed.

Lemma process_loop_spec sync l acc w :
  vw_pending w = l ++ acc -> Forall (fun r => iter_id r <> vw_iter w) l -> Forall (fun r => iter_id r = vw_iter w) acc ->
  NoDup (rq_child <$> l) -> NoDup (rq_frnd <$> l) -> Forall (processable sync w) l ->
  exists w', process_loop (length l) sync w = Ok w' /\
    (forall r c f, r ∈ l -> vw_c w !! rq_child r = Some c -> vw_f w !! rq_frnd r = Some f ->
      vw_c w' !! rq_child r = Some (verdict sync c f).1.1 /\ vw_f w' !! rq_frnd r = Some (verdict sync c f).1.2) /\
    (forall i, i ∉ rq_child <$> l -> vw_c w' !! i = vw_c w !! i) /\
    (forall i, i ∉ rq_frnd <$> l -> vw_f w' !! i = vw_f w !! i) /\
    vw_pending w' = acc ++ (stamp (vw_iter w) <$> filter (stays sync w) l) /\
    vw_commit w' = vw_commit w /\ vw_iter w' = vw_iter w.
Proof.
  revert acc w. induction l as [|r l IH]; intros acc w Hp Hi Hacc Hnc Hnf Hok.
  - exists w. cbn in *. split_and!; auto; [|by intros ??? ?%elem_of_nil|by rewrite app_nil_r].
    destruct acc as [|a acc]; rewrite Hp; [done|]. apply Forall_cons in Hacc as [-> _]. by rewrite Z.eqb_refl.
  - apply Forall_cons in Hi as [Hi Hil]. apply Forall_cons in Hok as [(c & f & Hc & Hf & Hv & Hs) Hok].
    rewrite fmap_cons in Hnc, Hnf. apply NoDup_cons in Hnc as [Hnc1 Hnc2], Hnf as [Hnf1 Hnf2].
    cbn [length process_loop]. rewrite Hp. cbn [app]. rewrite (proj2 (Z.eqb_neq _ _)) by done.
    set (r' := Pending _ _ _).
    destruct (process_request_effect sync (set_pending w (l ++ acc)) r' c f Hc Hf Hv Hs)
      as (w1 & -> & Hc1 & Hf1 & Hp1 & Hm1 & Hi1). cbn [mbind outcome_bind].
    cbn [r' rq_child rq_frnd set_pending vw_c vw_f vw_pending vw_commit vw_iter] in *.
    assert (forall x, x ∈ l -> vw_c w1 !! rq_child x = vw_c w !! rq_child x) as Hcl.
    { intros x Hx. rewrite Hc1, lookup_insert_ne; [done|]. intros Heq. apply Hnc1. rewrite Heq.
      by apply list_elem_of_fmap_2. }
    assert (forall x, x ∈ l -> vw_f w1 !! rq_frnd x = vw_f w !! rq_frnd x) as Hfl.
    { intros x Hx. rewrite Hf1, lookup_insert_ne; [done|]. intros Heq. apply Hnf1. rewrite Heq.
      by apply list_elem_of_fmap_2. }
    destruct (IH (acc ++ if (verdict sync c f).2 then [r'] else []) w1) as (w' & -> & Hr' & Hc' & Hf' & Hp' & Hm' & Hi').
    + by rewrite Hp1, app_assoc.
    + by rewrite Hi1.
    + rewrite Hi1. apply Forall_app. split; [done|]. destruct (verdict sync c f).2; [by constructor|constructor].
    + done.
    + done.
    + rewrite Forall_forall in *. intros x Hx. destruct (Hok x Hx) as (cx & fx & ? & ? & ? & ?).
      exists cx, fx. rewrite Hcl, Hfl by done. done.
    + exists w'. split; [done|]. split_and!.
      * intros x cx fx Hx Hcx Hfx. apply elem_of_cons in Hx as [->|Hx].
        { rewrite Hc', Hf' by done. rewrite Hc1, Hf1, !lookup_insert_eq. simplify_eq. done. }
        apply Hr'; [done| |]; [by rewrite Hcl|by rewrite Hfl].
      * intros i. rewrite fmap_cons, not_elem_of_cons. intros [? ?].
        rewrite Hc', Hc1 by done. by rewrite lookup_insert_ne.
      * intros i. rewrite fmap_cons, not_elem_of_cons. intros [? ?].
        rewrite Hf', Hf1 by done. by rewrite lookup_insert_ne.
      * rewrite Hp', <- app_assoc, filter_cons. f_equal.
        assert (stays sync w r = (verdict sync c f).2) as Hst by (unfold stays; by rewrite Hc, Hf).
        assert (filter (stays sync w1) l = filter (stays sync w) l) as ->.
        { apply filter_stays_ext. intros x Hx. split; [by apply Hcl|by apply Hfl]. }
        rewrite Hi1, Hst. by destruct (verdict sync c f).2.
      * congruence.
      * congruence.
Qed.

(** ** The invariant of the protocol *)

Record vw_wf (w : vworld) : Prop := {
  vf_frnd : forall i c, vw_c w !! i = Some c -> is_Some (vw_f w !! c_frnd_ino c);
  vf_inj : forall i j ci cj, vw_c w !! i = Some ci -> vw_c w !! j = Some cj -> c_frnd_ino ci = c_frnd_ino cj -> i = j;
  vf_version : forall i c, vw_c w !! i = Some c -> 0 < child_version c < 2 ^ 64;
  vf_nodup : NoDup (rq_child <$> vw_pending w);
  vf_req : forall r, r ∈ vw_pending w -> exists c, vw_c w !! rq_child r = Some c /\ c_frnd_ino c = rq_frnd r /\
    cannot_update_child_version_cnt c = true /\ iter_id r < vw_iter w;
  vf_kept : forall i c, vw_c w !! i = Some c -> cannot_update_child_version_cnt c = true -> has_scorw c = false ->
    i ∈ rq_child <$> vw_pending w;
  vf_iter : 0 < vw_iter w
}.

(** The operations of the module and of its environment: writeback and reads
    change whether a child is dirty, a commit of the journal lets a friend
    sync. *)
Inductive vstep : vworld -> vworld -> Prop :=
| vs_first_write w i c w' :
    vw_c w !! i = Some c -> has_scorw c = true -> child_version c < 2 ^ 64 - 1 ->
    scorw_child_version_cnt_inc w i = Ok w' -> vstep w w'
| vs_close w i c w' :
    vw_c w !! i = Some c -> has_scorw c = true -> scorw_unprepare_child_inode w i = Ok w' -> vstep w w'
| vs_open io w i c w' :
    vw_c w !! i = Some c -> has_scorw c = false -> scorw_prepare_child_inode io w i = Ok w' -> vstep w w'
| vs_pass w w' :
    vw_iter w < 2 ^ 64 - 1 -> scorw_process_pending_frnd_version_cnt_inc_list false w = Ok w' -> vstep w w'
| vs_unmount w w' :
    vw_iter w < 2 ^ 64 - 1 -> (forall i c, vw_c w !! i = Some c -> has_scorw c = false) ->
    scorw_process_pending_frnd_version_cnt_inc_list true w = Ok w' -> vstep w w'
| vs_dirty w i c b : vw_c w !! i = Some c -> vstep w (set_c w i (c_set_dirty c b))
| vs_commit w i f v : vw_f w !! i = Some f -> vstep w (set_f w i (f_set_sync f v)).

(** Where the requests of a well-formed list point. *)
Lemma pending_frnds w :
  vw_wf w -> NoDup (rq_frnd <$> vw_pending w).
Proof.
  intros Hw. pose proof (vf_nodup _ Hw) as Hn. pose proof (vf_req _ Hw) as Hr. revert Hn Hr.
  induction (vw_pending w) as [|r l IH]; intros Hn Hr; [constructor|].
  rewrite fmap_cons in *. apply NoDup_cons in Hn as [Hn1 Hn2]. constructor.
  - intros Hin. apply list_elem_of_fmap_1 in Hin as (x & Hx & Hxl). apply Hn1.
    destruct (Hr r) as (c & Hc & Hcf & _); [by left|]. destruct (Hr x) as (cx & Hcx & Hcxf & _); [by right|].
    rewrite (vf_inj _ Hw _ _ _ _ Hc Hcx) by congruence. by apply list_elem_of_fmap_2.
  - apply IH; [done|]. intros x Hx. apply Hr. by right.
Qed.

Lemma verdict_frnd sync c f : c_frnd_ino (verdict sync c f).1.1 = c_frnd_ino c.
Proof. unfold verdict, caught. destruct sync; [done|]. destruct (has_scorw c); [done|]. by destruct (_ || _). Qed.
Lemma verdict_version sync c f : child_version (verdict sync c f).1.1 = child_version c.
Proof. unfold verdict, caught. destruct sync; [done|]. destruct (has_scorw c); [done|]. by destruct (_ || _). Qed.
Lemma verdict_scorw sync c f : has_scorw (verdict sync c f).1.1 = has_scorw c.
Proof. unfold verdict, caught. destruct sync; [done|]. destruct (has_scorw c) eqn:E; [done|]. by destruct (_ || _). Qed.
Lemma verdict_flag sync c f :
  cannot_update_child_version_cnt c = true -> has_scorw c = false ->
  cannot_update_child_version_cnt (verdict sync c f).1.1 = (verdict sync c f).2.
Proof. intros H1 H2. unfold verdict, caught. destruct sync; [done|]. rewrite H2. by destruct (_ || _). Qed.
Lemma verdict_stays sync c f :
  (verdict sync c f).2 = true -> (verdict sync c f).1 = (c, f).
Proof. unfold verdict, caught. destruct sync; [done|]. destruct (has_scorw c); [done|]. by destruct (_ || _). Qed.

(** A pass over the list of a well-formed world, in one statement. *)
Lemma process_list_spec sync w :
  vw_wf w -> vw_iter w < 2 ^ 64 - 1 ->
  (sync = true -> forall i c, vw_c w !! i = Some c -> has_scorw c = false) ->
  exists w', scorw_process_pending_frnd_version_cnt_inc_list sync w = Ok w' /\
    (forall r c f, r ∈ vw_pending w -> vw_c w !! rq_child r = Some c -> vw_f w !! rq_frnd r = Some f ->
      vw_c w' !! rq_child r = Some (verdict sync c f).1.1 /\ vw_f w' !! rq_frnd r = Some (verdict sync c f).1.2) /\
    (forall i, i ∉ rq_child <$> vw_pending w -> vw_c w' !! i = vw_c w !! i) /\
    (forall i, i ∉ rq_frnd <$> vw_pending w -> vw_f w' !! i = vw_f w !! i) /\
    vw_pending w' = stamp (vw_iter w) <$> filter (stays sync w) (vw_pending w) /\
    vw_iter w' = vw_iter w + 1.
Proof.
  intros Hw Hit Hs. pose proof (vf_iter _ Hw).
  destruct (process_loop_spec sync (vw_pending w) [] w) as (w' & Hl & H1 & H2 & H3 & H4 & _ & H6).
  - by rewrite app_nil_r.
  - apply Forall_forall. intros r Hr. destruct (vf_req _ Hw r Hr) as (_ & _ & _ & _ & ?). lia.
  - constructor.
  - apply Hw.
  - by apply pending_frnds.
  - apply Forall_forall. intros r Hr. destruct (vf_req _ Hw r Hr) as (c & Hc & Hcf & _).
    destruct (vf_frnd _ Hw _ _ Hc) as [f Hf]. rewrite Hcf in Hf. exists c, f. split_and!; auto.
    + pose proof (vf_version _ Hw _ _ Hc). lia.
    + intros Hst. by eapply Hs.
  - unfold scorw_process_pending_frnd_version_cnt_inc_list. rewrite Hl. cbn [mbind outcome_bind].
    eexists. split; [done|]. cbn. split_and!; auto. rewrite H6. apply u64_small. lia.
Qed.

Lemma stays_true sync w r c f :
  vw_c w !! rq_child r = Some c -> vw_f w !! rq_frnd r = Some f -> stays sync w r = (verdict sync c f).2.
Proof. intros Hc Hf. unfold stays. by rewrite Hc, Hf. Qed.

(** Every child after a pass comes from the one before. *)
Lemma process_list_children sync w w' :
  vw_wf w ->
  (forall r c f, r ∈ vw_pending w -> vw_c w !! rq_child r = Some c -> vw_f w !! rq_frnd r = Some f ->
      vw_c w' !! rq_child r = Some (verdict sync c f).1.1 /\ vw_f w' !! rq_frnd r = Some (verdict sync c f).1.2) ->
  (forall i, i ∉ rq_child <$> vw_pending w -> vw_c w' !! i = vw_c w !! i) ->
  forall i c', vw_c w' !! i = Some c' -> exists c, vw_c w !! i = Some c /\
    (((i ∉ (rq_child <$> vw_pending w)) /\ c' = c) \/
     (exists r f, r ∈ vw_pending w /\ rq_child r = i /\ vw_f w !! rq_frnd r = Some f /\ rq_frnd r = c_frnd_ino c /\
        c' = (verdict sync c f).1.1)).
Proof.
  intros Hw H1 H2 i c' Hc'. destruct (decide (i ∈ rq_child <$> vw_pending w)) as [Hin|Hin].
  - apply list_elem_of_fmap_1 in Hin as (r & -> & Hr). destruct (vf_req _ Hw r Hr) as (c & Hc & Hcf & _).
    destruct (vf_frnd _ Hw _ _ Hc) as [f Hf]. rewrite Hcf in Hf. exists c. split; [done|]. right.
    exists r, f. destruct (H1 r c f Hr Hc Hf) as [Hv _]. split_and!; auto. congruence.
  - exists c'. rewrite H2 in Hc' by done. auto.
Qed.

Lemma pass_wf sync w w' :
  vw_wf w -> vw_iter w < 2 ^ 64 - 1 ->
  (sync = true -> forall i c, vw_c w !! i = Some c -> has_scorw c = false) ->
  scorw_process_pending_frnd_version_cnt_inc_list sync w = Ok w' -> vw_wf w'.
Proof.
  intros Hw Hit Hs Hok. destruct (process_list_spec sync w Hw Hit Hs) as (w1 & Hok' & H1 & H2 & H3 & H4 & H5).
  rewrite Hok' in Hok. injection Hok as ->.
  pose proof (process_list_children sync w w' Hw H1 H2) as Hch.
  assert (forall i, is_Some (vw_f w !! i) -> is_Some (vw_f w' !! i)) as Hfs.
  { intros i Hi. destruct (decide (i ∈ rq_frnd <$> vw_pending w)) as [Hin|Hin]; [|by rewrite H3].
    apply list_elem_of_fmap_1 in Hin as (r & -> & Hr). destruct (vf_req _ Hw r Hr) as (c & Hc & Hcf & _).
    destruct Hi as [f Hf]. destruct (H1 r c f Hr Hc Hf) as [_ ->]. by eexists. }
  assert (forall i c', vw_c w' !! i = Some c' -> exists c, vw_c w !! i = Some c /\ c_frnd_ino c' = c_frnd_ino c /\
    child_version c' = child_version c) as Hfr.
  { intros i c' Hc'. destruct (Hch i c' Hc') as (c & Hc & [[_ ->]|(r & f & _ & _ & _ & _ & ->)]); exists c;
      rewrite ?verdict_frnd, ?verdict_version; done. }
  split.
  - intros i c' Hc'. destruct (Hfr i c' Hc') as (c & Hc & -> & _). apply Hfs. by eapply vf_frnd.
  - intros i j ci cj Hi Hj Heq. destruct (Hfr i ci Hi) as (c1 & Hc1 & He1 & _), (Hfr j cj Hj) as (c2 & Hc2 & He2 & _).
    eapply (vf_inj _ Hw); [done|done|congruence].
  - intros i c' Hc'. destruct (Hfr i c' Hc') as (c & Hc & _ & ->). by eapply vf_version.
  - rewrite H4, <- list_fmap_compose. eapply sublist_NoDup; [apply (vf_nodup _ Hw)|].
    change (compose rq_child (stamp (vw_iter w))) with rq_child. apply fmap_sublist, sublist_filter.
  - intros r' Hr'. rewrite H4 in Hr'. apply list_elem_of_fmap_1 in Hr' as (r & -> & Hr).
    apply list_elem_of_filter in Hr as [Hst Hr]. destruct (vf_req _ Hw r Hr) as (c & Hc & Hcf & Hfl & _).
    destruct (vf_frnd _ Hw _ _ Hc) as [f Hf]. rewrite Hcf in Hf. destruct (H1 r c f Hr Hc Hf) as [Hv _].
    rewrite (stays_true _ _ _ _ _ Hc Hf) in Hst. apply Is_true_true in Hst. rewrite (verdict_stays _ _ _ Hst) in Hv.
    exists c. cbn. split_and!; auto. lia.
  - intros i c' Hc' Hfl Hsc. destruct (Hch i c' Hc') as (c & Hc & [[Hn ->]|(r & f & Hr & <- & Hf & Hcf & ->)]).
    + exfalso. apply Hn. by eapply vf_kept.
    + rewrite verdict_scorw in Hsc. destruct (vf_req _ Hw r Hr) as (c0 & Hc0 & _ & Hfl0 & _). simplify_eq.
      rewrite verdict_flag in Hfl by done. rewrite H4, <- list_fmap_compose.
      apply (list_elem_of_fmap_2 (rq_child ∘ stamp (vw_iter w)) _ r), list_elem_of_filter. split; [|done].
      rewrite (stays_true _ _ _ _ _ Hc Hf). by apply Is_true_true.
  - rewrite H5. pose proof (vf_iter _ Hw). lia.
Qed.

(** ** Lemmas: the other steps *)

(** An update of one child and its friend that leaves the list alone. *)
Lemma update_wf w i c c' f' l :
  vw_wf w -> vw_c w !! i = Some c -> c_frnd_ino c' = c_frnd_ino c -> 0 < child_version c' < 2 ^ 64 ->
  (i ∈ rq_child <$> vw_pending w -> cannot_update_child_version_cnt c' = true) ->
  (cannot_update_child_version_cnt c' = true -> has_scorw c' = false -> i ∈ rq_child <$> vw_pending w) ->
  vw_wf (VWorld (<[i := c']> (vw_c w)) (<[c_frnd_ino c := f']> (vw_f w)) (vw_pending w) l (vw_iter w)).
Proof.
  intros Hw Hc Hcf Hv Hfl Hk. split; cbn.
  - intros j cj Hj. apply lookup_insert_is_Some. destruct (decide (c_frnd_ino c = c_frnd_ino cj)); [by left|right].
    split; [done|]. rewrite lookup_insert in Hj. case_decide; simplify_eq; by eapply vf_frnd.
  - intros j k cj ck Hj Hk' Heq. rewrite lookup_insert in Hj, Hk'.
    repeat case_decide; simplify_eq; try done; eapply (vf_inj _ Hw); eauto; congruence.
  - intros j cj Hj. rewrite lookup_insert in Hj. case_decide; simplify_eq; [done|by eapply vf_version].
  - apply Hw.
  - intros r Hr. destruct (vf_req _ Hw r Hr) as (cr & Hcr & Hrf & Hrl & Hri). rewrite lookup_insert. case_decide; subst.
    + exists c'. simplify_eq. split_and!; [done|congruence|apply Hfl; by apply list_elem_of_fmap_2|done].
    + by exists cr.
  - intros j cj Hj Hjf Hjs. rewrite lookup_insert in Hj. case_decide; simplify_eq; [by apply Hk|by eapply vf_kept].
  - apply Hw.
Qed.

Lemma entry_found_spec w i : entry_found w i = true <-> i ∈ rq_child <$> vw_pending w.
Proof.
  unfold entry_found. rewrite existsb_exists, list_elem_of_fmap. split.
  - intros (r & Hr & He). apply Z.eqb_eq in He. exists r. split; [done|by apply list_elem_of_In].
  - intros (r & -> & Hr). exists r. split; [by apply list_elem_of_In|apply Z.eqb_refl].
Qed.

Lemma first_write_wf w i c w' :
  vw_wf w -> vw_c w !! i = Some c -> child_version c < 2 ^ 64 - 1 -> scorw_child_version_cnt_inc w i = Ok w' -> vw_wf w'.
Proof.
  intros Hw Hc Hv. unfold scorw_child_version_cnt_inc. rewrite Hc.
  destruct (cannot_update_child_version_cnt c) eqn:Hf; [by intros [= <-]|].
  destruct (has_scorw c) eqn:Hs; [cbn [negb]|done]. destruct (vw_f w !! c_frnd_ino c); [|done]. intros H. inv_Ok.
  pose proof (vf_version _ Hw _ _ Hc). eapply (update_wf w i c); auto; cbn.
  - rewrite u64_small; lia.
  - by rewrite Hs.
Qed.

Lemma close_wf w i c w' :
  vw_wf w -> vw_c w !! i = Some c -> scorw_unprepare_child_inode w i = Ok w' -> vw_wf w'.
Proof.
  intros Hw Hc. unfold scorw_unprepare_child_inode. rewrite Hc. destruct (vw_f w !! c_frnd_ino c) as [f|] eqn:Hf; [|done].
  assert (i ∈ rq_child <$> vw_pending w -> cannot_update_child_version_cnt c = true) as Hq.
  { intros Hin. apply list_elem_of_fmap_1 in Hin as (r & -> & Hr). destruct (vf_req _ Hw r Hr) as (? & ? & _ & ? & _). congruence. }
  pose proof (vf_version _ Hw _ _ Hc).
  destruct (cannot_update_child_version_cnt c) eqn:Hfl; cbn [negb].
  2: { intros [= <-]. apply (update_wf w i c); auto; cbn; rewrite Hfl; [by intros Hin%Hq|done]. }
  destruct (entry_found w i) eqn:He.
  { apply entry_found_spec in He. intros [= <-]. by apply (update_wf w i c). }
  intros [= <-]. assert (i ∉ rq_child <$> vw_pending w) as Hn by (rewrite <- entry_found_spec; congruence).
  pose proof (vf_iter _ Hw). split; cbn; try rewrite fmap_app.
  - intros j cj Hj. rewrite lookup_insert in Hj. case_decide; simplify_eq; cbn; by eapply vf_frnd.
  - intros j k cj ck Hj Hk Heq. rewrite lookup_insert in Hj, Hk.
    repeat case_decide; simplify_eq; cbn in *; try done; eapply (vf_inj _ Hw); eauto.
  - intros j cj Hj. rewrite lookup_insert in Hj. case_decide; simplify_eq; [done|by eapply vf_version].
  - cbn. apply NoDup_app. split_and!; [apply Hw| |by apply NoDup_singleton].
    intros j Hj Hji. apply list_elem_of_singleton in Hji as ->. done.
  - intros r Hr. apply elem_of_app in Hr as [Hr|Hr%list_elem_of_singleton].
    + destruct (vf_req _ Hw r Hr) as (cr & Hcr & ? & ? & ?). rewrite lookup_insert_ne; [by exists cr|].
      intros ->. apply Hn. by apply list_elem_of_fmap_2.
    + subst. cbn. rewrite lookup_insert_eq. by eexists.
  - intros j cj Hj Hjf Hjs. rewrite elem_of_app. cbn. rewrite list_elem_of_singleton.
    rewrite lookup_insert in Hj. case_decide; simplify_eq; [by right|left; by eapply vf_kept].
  - done.
Qed.

Lemma open_wf io w i c w' :
  vw_wf w -> vw_c w !! i = Some c -> scorw_prepare_child_inode io w i = Ok w' -> vw_wf w'.
Proof.
  intros Hw Hc. unfold scorw_prepare_child_inode. rewrite Hc. destruct (vw_f w !! c_frnd_ino c) as [f|] eqn:Hf; [|done].
  assert (i ∈ rq_child <$> vw_pending w -> cannot_update_child_version_cnt c = true) as Hq.
  { intros Hin. apply list_elem_of_fmap_1 in Hin as (r & -> & Hr). destruct (vf_req _ Hw r Hr) as (? & ? & _ & ? & _). congruence. }
  pose proof (vf_version _ Hw _ _ Hc). intros Hok.
  assert (exists f', w' = set_f (set_c w i (CNode (c_frnd_ino c) (cannot_update_child_version_cnt c) (child_version c) true
    (dirty c) (c_count c + 1) (c_copy_size c) (c_es_tree c))) (c_frnd_ino c) f') as [f' ->].
  { destruct (cannot_update_child_version_cnt c); [inv_Ok; by eexists|]. inv_Ok.
    destruct (child_version c =? frnd_version f); inv_Ok; by eexists. }
  by apply (update_wf w i c).
Qed.

Lemma count_step_wf w w' : vw_wf w -> vstep w w' -> vw_wf w'.
Proof.
  intros Hw Hst. destruct Hst as [w1 i c w2 Hc Hs Hv Hok|w1 i c w2 Hc Hs Hok|io w1 i c w2 Hc Hs Hok|w1 w2 Hi Hok|w1 w2 Hi Hall Hok|w1 i c b Hc|w1 i f v Hf].
  - by eapply first_write_wf.
  - by eapply close_wf.
  - by eapply open_wf.
  - eapply (pass_wf false); [done|done|by intros ?|done].
  - eapply (pass_wf true); [done|done|by intros ?|done].
  - destruct (vf_frnd _ Hw _ _ Hc) as [f Hf]. pose proof (vf_version _ Hw _ _ Hc).
    assert (w1 = set_f w1 (c_frnd_ino c) f) as He by (destruct w1; unfold set_f; cbn in *; by rewrite insert_id).
    rewrite He at 1. apply (update_wf w1 i c); auto; cbn.
    + intros Hin. apply list_elem_of_fmap_1 in Hin as (r & -> & Hr).
      destruct (vf_req _ Hw r Hr) as (? & ? & _ & ? & _). congruence.
    + by apply (vf_kept _ Hw).
  - destruct Hw. split; cbn; auto. intros j cj Hj. apply lookup_insert_is_Some'. right. eauto.
Qed.

Lemma count_steps_wf w w' : vw_wf w -> rtc vstep w w' -> vw_wf w'.
Proof. intros Hw Hr. induction Hr as [|x y z Hxy _ IH]; [done|]. by eapply IH, count_step_wf. Qed.

Lemma pending_unique w r r' :
  vw_wf w -> r ∈ vw_pending w -> r' ∈ vw_pending w -> rq_child r = rq_child r' -> r = r'.
Proof.
  intros Hw Hr Hr' He. apply list_elem_of_lookup_1 in Hr as [i Hi], Hr' as [j Hj].
  assert (i = j) as ->; [|congruence].
  eapply NoDup_lookup; [apply (vf_nodup _ Hw)| |]; rewrite list_lookup_fmap; [by rewrite Hi|by rewrite Hj, He].
Qed.

Lemma unmount_pass (w : vworld) :
  vw_wf w -> vw_iter w < 2 ^ 64 - 1 -> (forall i c, vw_c w !! i = Some c -> has_scorw c = false) ->
  exists w', scorw_process_pending_frnd_version_cnt_inc_list true w = Ok w' /\ vw_pending w' = [] /\
    forall i c', vw_c w' !! i = Some c' -> cannot_update_child_version_cnt c' = false /\
      forall c, vw_c w !! i = Some c -> cannot_update_child_version_cnt c = true ->
        exists f', vw_f w' !! c_frnd_ino c' = Some f' /\ frnd_version f' = child_version c'.
Proof.
  intros Hw Hit Hall. destruct (process_list_spec true w Hw Hit) as (w' & Hok & H1 & H2 & _ & H4 & _); [done|].
  exists w'. split_and!; [done| |].
  - rewrite H4. replace (filter (stays true w) (vw_pending w)) with (@nil pending_frnd_version_cnt_inc); [done|].
    symmetry. apply elem_of_nil_inv. intros r [Hs _]%list_elem_of_filter. unfold stays in Hs.
    by destruct (vw_c w !! rq_child r), (vw_f w !! rq_frnd r).
  - intros i c' Hc'. destruct (process_list_children true w w' Hw H1 H2 i c' Hc') as (c & Hc & [[Hn ->]|(r & f & Hr & <- & Hf & Hcf & ->)]).
    + assert (cannot_update_child_version_cnt c = false) as Hfl.
      { destruct (cannot_update_child_version_cnt c) eqn:E; [|done]. destruct Hn. by apply (vf_kept _ Hw _ c), (Hall i c). }
      split; [done|]. intros c0 Hc0 Hfl0. congruence.
    + split; [done|]. intros _ _ _. destruct (H1 r c f Hr Hc Hf) as [_ Hf']. eexists. rewrite verdict_frnd, <- Hcf.
      by split.
Qed.

(** ** Properties *)

(** C40: A pending update of a friend is never lost and never queued twice:
    whatever sequence of first writes, opens, closes, list passes, unmounts,
    writebacks and commits happens, a child whose version has grown past its
    friend's and that is no longer open has exactly one request in the list,
    and that request names its friend. *)
Theorem pending_update_never_lost (w w' : vworld) (i : Z) (c : cnode) :
  vw_wf w -> rtc vstep w w' ->
  vw_c w' !! i = Some c -> cannot_update_child_version_cnt c = true -> has_scorw c = false ->
  exists r, r ∈ vw_pending w' /\ rq_child r = i /\ rq_frnd r = c_frnd_ino c /\
    forall r', r' ∈ vw_pending w' -> rq_child r' = i -> r' = r.
Proof.
  intros Hw Hr Hc Hfl Hs. pose proof (count_steps_wf _ _ Hw Hr) as Hw'.
  pose proof (vf_kept _ Hw' _ _ Hc Hfl Hs) as Hin. apply list_elem_of_fmap_1 in Hin as (r & -> & Hr0).
  exists r. destruct (vf_req _ Hw' r Hr0) as (c' & Hc' & Hcf & _). split_and!; auto; [congruence|].
  intros r' Hr1 He. by apply (pending_unique w').
Qed.

(** One pass of the asynchronous thread returns, and does for every queued
    request exactly what its state calls for: a closed, clean child whose
    version is committed gets its friend's count brought up to its own, its flag
    cleared and its references back, and leaves the list; a child opened again
    gets its references back and leaves the list with its flag still set; every
    other request stays, in order, with its inodes untouched. *)
Theorem pass_decides_every_request (w : vworld) :
  vw_wf w -> vw_iter w < 2 ^ 64 - 1 ->
  exists w', scorw_process_pending_frnd_version_cnt_inc_list false w = Ok w' /\
    rq_child <$> vw_pending w' = rq_child <$> filter (stays false w) (vw_pending w) /\
    forall r c f, r ∈ vw_pending w -> vw_c w !! rq_child r = Some c -> vw_f w !! rq_frnd r = Some f ->
      (has_scorw c = false -> dirty c = false -> can_sync_frnd f = 1 ->
        vw_c w' !! rq_child r = Some (c_iput (c_set_flag c false)) /\
        vw_f w' !! rq_frnd r = Some (FNode (child_version c) (-1) (f_count f - 1) (f_file f)) /\
        rq_child r ∉ rq_child <$> vw_pending w') /\
      (has_scorw c = true ->
        vw_c w' !! rq_child r = Some (c_iput c) /\ vw_f w' !! rq_frnd r = Some (f_iput f) /\
        rq_child r ∉ rq_child <$> vw_pending w') /\
      (has_scorw c = false -> dirty c = true \/ can_sync_frnd f <> 1 ->
        vw_c w' !! rq_child r = Some c /\ vw_f w' !! rq_frnd r = Some f /\ rq_child r ∈ rq_child <$> vw_pending w').
Proof.
  intros Hw Hit. destruct (process_list_spec false w Hw Hit) as (w' & Hok & H1 & _ & _ & H4 & _); [done|].
  assert (rq_child <$> vw_pending w' = rq_child <$> filter (stays false w) (vw_pending w)) as Hp.
  { rewrite H4, <- list_fmap_compose. done. }
  exists w'. split_and!; auto. intros r c f Hr Hc Hf. destruct (H1 r c f Hr Hc Hf) as [Hc' Hf'].
  pose proof (stays_true false w r c f Hc Hf) as Hst.
  assert ((rq_child r ∈ rq_child <$> vw_pending w') <-> stays false w r = true) as Hin.
  { rewrite Hp. rewrite list_elem_of_fmap. split.
    - intros (x & He & [Hs Hx]%list_elem_of_filter). rewrite (pending_unique w r x); auto. by apply Is_true_true.
    - intros Hs. exists r. split; [done|]. apply list_elem_of_filter. by rewrite Hs. }
  rewrite Hin, Hst. clear Hin Hst. unfold verdict, caught in *. split_and!.
  - intros Hs Hd Hy. rewrite Hs, Hd, Hy in *. by cbn in *.
  - intros Hs. rewrite Hs in *. by cbn in *.
  - intros Hs Hdy. rewrite Hs in *. replace (dirty c || negb (can_sync_frnd f =? 1)) with true in *; [by cbn in *|].
    destruct Hdy as [->|Hy]; [done|]. rewrite (proj2 (Z.eqb_neq _ _)) by done. symmetry. apply orb_true_r.
Qed.

(** The pass at unmount, when every file is closed, returns, empties the
    list and brings the friend of every queued child up to the count of the
    child, so that the next open needs no recovery. *)
Theorem unmount_empties_list (w : vworld) :
  vw_wf w -> vw_iter w < 2 ^ 64 - 1 -> (forall i c, vw_c w !! i = Some c -> has_scorw c = false) ->
  exists w', scorw_process_pending_frnd_version_cnt_inc_list true w = Ok w' /\ vw_pending w' = [] /\
    forall i c', vw_c w' !! i = Some c' -> cannot_update_child_version_cnt c' = false /\
      forall c, vw_c w !! i = Some c -> cannot_update_child_version_cnt c = true ->
        exists f', vw_f w' !! c_frnd_ino c' = Some f' /\ frnd_version f' = child_version c'.
Proof. apply unmount_pass. Qed.

(** Opening a child after a crash, when no update is under way, makes its
    friend trustworthy: the open returns, the two counts are equal afterwards,
    and when they differed the copied bits of the friend file are those of the
    extents of the child. *)
Theorem open_recovers_friend (w : vworld) (i : Z) (c : cnode) (f : fnode) :
  vw_c w !! i = Some c -> vw_f w !! c_frnd_ino c = Some f ->
  cannot_update_child_version_cnt c = false -> child_version c <> 0 -> frnd_version f <> 0 ->
  friend_wf (f_file f) -> 0 < c_copy_size c < 2 ^ 58 ->
  i_size (f_file f) = 0 \/ Z.shiftl (frnd_total_pages (c_copy_size c)) PAGE_SHIFT <= i_size (f_file f) ->
  Forall (fun es => 0 <= es_lblk es /\ 0 <= es_len es) (c_es_tree c) ->
  exists w' f', scorw_prepare_child_inode io_ok w i = Ok w' /\ vw_f w' !! c_frnd_ino c = Some f' /\
    frnd_version f' = child_version c /\
    (child_version c <> frnd_version f ->
      forall b, 0 <= b -> b * PAGE_SIZE < c_copy_size c -> friend_bit (f_file f') b = es_covers (c_es_tree c) b) /\
    (child_version c = frnd_version f -> f_file f' = f_file f).
Proof.
  intros Hc Hf Hfl Hv Hfv Hwf Hsz Hi Hes. unfold scorw_prepare_child_inode. rewrite Hc, Hf, Hfl.
  rewrite (proj2 (Z.eqb_neq _ _) Hv), (proj2 (Z.eqb_neq _ _) Hfv). cbn [orb BUG_ON mbind outcome_bind].
  destruct (Z.eqb_spec (child_version c) (frnd_version f)) as [He|He].
  - eexists _, _. split; [done|]. cbn. rewrite lookup_insert_eq. by split_and!.
  - destruct (recover_friend_spec (c_es_tree c) (f_file f) (c_copy_size c) Hwf Hsz Hi Hes) as (m & -> & Hb).
    eexists _, _. split; [done|]. cbn. rewrite lookup_insert_eq. by split_and!.
Qed.

(** ** Witnesses *)

(** Child 12 with friend 13: opened and unwritten, and written and closed. *)
Definition c12 (flag open : bool) (v : Z) : cnode := CNode 13 flag v open false 2 8192 [].
Definition f13 (v s : Z) : fnode := FNode v s 2 empty_friend.
Definition w12 (c : cnode) (f : fnode) (l : list pending_frnd_version_cnt_inc) (k : list wait_for_commit) : vworld :=
  VWorld {[12 := c]} {[13 := f]} l k 1.

Lemma w12_wf flag open v f :
  (flag = true -> open = true) -> 0 < v < 2 ^ 64 -> forall k, vw_wf (w12 (c12 flag open v) f [] k).
Proof.
  intros Hfo Hv k. split; cbn.
  - intros i c Hi. apply lookup_singleton_Some in Hi as [<- <-]. by eexists.
  - intros i j ci cj Hi Hj _. apply lookup_singleton_Some in Hi as [<- _], Hj as [<- _]. done.
  - intros i c Hi. by apply lookup_singleton_Some in Hi as [<- <-].
  - constructor.
  - by intros r Hr%elem_of_nil.
  - intros i c Hi. apply lookup_singleton_Some in Hi as [<- <-]. cbn. destruct flag, open; naive_solver.
  - lia.
Qed.

Lemma w12_queued_wf v f k : 0 < v < 2 ^ 64 -> vw_wf (w12 (c12 true false v) f [Pending 12 13 0] k).
Proof.
  intros Hv. split; cbn.
  - intros i c Hi. apply lookup_singleton_Some in Hi as [<- <-]. by eexists.
  - intros i j ci cj Hi Hj _. apply lookup_singleton_Some in Hi as [<- _], Hj as [<- _]. done.
  - intros i c Hi. by apply lookup_singleton_Some in Hi as [<- <-].
  - apply NoDup_singleton.
  - intros r Hr%list_elem_of_singleton. subst. exists (c12 true false v). by rewrite lookup_singleton_eq.
  - intros i c Hi _ _. apply lookup_singleton_Some in Hi as [<- _]. by left.
  - lia.
Qed.

(** The child is written, then closed. *)
Lemma pending_update_never_lost_witness :
  exists r, r ∈ [Pending 12 13 0] /\ rq_child r = 12 /\ rq_frnd r = 13 /\
    forall r', r' ∈ [Pending 12 13 0] -> rq_child r' = 12 -> r' = r.
Proof.
  apply (pending_update_never_lost (w12 (c12 false true 1) (f13 1 1) [] [])
    (w12 (c12 true false 2) (f13 1 (-1)) [Pending 12 13 0] [WaitForCommit 13 0]) 12 (c12 true false 2));
    [by apply w12_wf| |done|done|done].
  eapply rtc_l; [by apply (vs_first_write _ 12 (c12 false true 1))|].
  eapply rtc_l; [by apply (vs_close _ 12 (c12 true true 2))|]. apply rtc_refl.
Defined.

Lemma pass_decides_every_request_witness :
  let w := w12 (c12 true false 2) (f13 1 1) [Pending 12 13 0] [] in
  exists w', scorw_process_pending_frnd_version_cnt_inc_list false w = Ok w' /\
    rq_child <$> vw_pending w' = rq_child <$> filter (stays false w) (vw_pending w) /\
    forall r c f, r ∈ vw_pending w -> vw_c w !! rq_child r = Some c -> vw_f w !! rq_frnd r = Some f ->
      (has_scorw c = false -> dirty c = false -> can_sync_frnd f = 1 ->
        vw_c w' !! rq_child r = Some (c_iput (c_set_flag c false)) /\
        vw_f w' !! rq_frnd r = Some (FNode (child_version c) (-1) (f_count f - 1) (f_file f)) /\
        rq_child r ∉ rq_child <$> vw_pending w') /\
      (has_scorw c = true ->
        vw_c w' !! rq_child r = Some (c_iput c) /\ vw_f w' !! rq_frnd r = Some (f_iput f) /\
        rq_child r ∉ rq_child <$> vw_pending w') /\
      (has_scorw c = false -> dirty c = true \/ can_sync_frnd f <> 1 ->
        vw_c w' !! rq_child r = Some c /\ vw_f w' !! rq_frnd r = Some f /\ rq_child r ∈ rq_child <$> vw_pending w').
Proof. apply pass_decides_every_request; [by apply w12_queued_wf|done]. Defined.

Lemma unmount_empties_list_witness :
  let w := w12 (c12 true false 2) (f13 1 (-1)) [Pending 12 13 0] [] in
  exists w', scorw_process_pending_frnd_version_cnt_inc_list true w = Ok w' /\ vw_pending w' = [] /\
    forall i c', vw_c w' !! i = Some c' -> cannot_update_child_version_cnt c' = false /\
      forall c, vw_c w !! i = Some c -> cannot_update_child_version_cnt c = true ->
        exists f', vw_f w' !! c_frnd_ino c' = Some f' /\ frnd_version f' = child_version c'.
Proof.
  apply unmount_empties_list; [by apply w12_queued_wf|done|].
  intros i c Hi. cbn in Hi. by apply lookup_singleton_Some in Hi as [_ <-].
Defined.

Lemma open_recovers_friend_witness :
  exists w' f', scorw_prepare_child_inode io_ok (w12 (c12 false false 2) (f13 1 (-1)) [] []) 12 = Ok w' /\
    vw_f w' !! 13 = Some f' /\ frnd_version f' = 2 /\
    (2 <> 1 -> forall b, 0 <= b -> b * PAGE_SIZE < 8192 -> friend_bit (f_file f') b = es_covers [] b) /\
    (2 = 1 -> f_file f' = empty_friend).
Proof.
  apply (open_recovers_friend _ 12 (c12 false false 2) (f13 1 (-1)));
    first [done|apply empty_friend_wf|by left|constructor].
Defined.
