(* ===== verification/PageCopy.v ===== *)
(** Copy-on-write between a parent and its children, the parent's side: the
    state of a family, the ranges of a child, the page copies a write to the
    parent leaves for its children ([scorw_write_par_blocks] and the functions it
    calls) and the thread that hands them out ([scorw_page_copy_thread_fn]), all
    of [corw_sparse.c]; what is kept of its snapshot for a child, and the lemmas that a
    write to the parent and a run of the thread keep it. *)

From S2P Require Import Prelude Pages Friend SeeThru ActiveMap VersionCount.

(** ** Data *)

(** [WriteCh], with the values the comparisons use. *)
Inductive WriteCh :=
| SNAPX_FLAG_COW
| SNAPX_FLAG_COW_RO
| SNAPX_FLAG_SEE_TH
| SNAPX_FLAG_SEE_TH_RO
| SNAPX_FLAG_SHARED
| SNAPX_FLAG_SHARED_RO
| SNAPX_FLAG_MAX.
#[export] Instance WriteCh_eq_dec : EqDecision WriteCh.
Proof. solve_decision. Defined.
Definition WriteCh_val (w : WriteCh) : Z :=
  match w with
  | SNAPX_FLAG_COW => 0 | SNAPX_FLAG_COW_RO => 1 | SNAPX_FLAG_SEE_TH => 2 | SNAPX_FLAG_SEE_TH_RO => 3
  | SNAPX_FLAG_SHARED => 4 | SNAPX_FLAG_SHARED_RO => 5 | SNAPX_FLAG_MAX => 6
  end.

(** [struct child_range] and [struct sharing_range_info]. *)
Record child_range := ChildRange { cr_start : Z; cr_end : Z; snapx_behavior : WriteCh }.
Record sharing_range_info := SharingRangeInfo {
  shr_initialized : bool;
  shr_partial_cow : bool;
  shr_start_block : Z;
  shr_end_block : Z
}.

(** [struct page_copy]; [data_page] is [None] while [data_page_loaded] is 0. *)
Record page_copy := PageCopy {
  pc_block_num : Z;
  pc_par : Z;
  data_page : option page;
  is_target_child : list bool
}.

(** A flag of [is_target_child[]]. *)
Definition target_flag (pc : page_copy) (j : nat) : bool := default false (is_target_child pc !! j).

(** The scorw inode of a child, with its file and its friend file. *)
Record child := Child {
  ch_ino : Z;
  ch_at_index : Z;
  ch_copy_size : Z;
  ch_ranges : list child_range;
  ch_file : mapping;
  ch_frnd : mapping;
  ch_pending : Z
}.

(** A parent's scorw inode with its children up to [i_last_child_index] (the
    slots past it are NULL), their active maps and the readers of [i_lock], the
    list of page copies (oldest first), and the version counts.  The data of
    the parent is kept apart, where the writer has it. *)
Record family := Family {
  fa_ino : Z;
  fa_kids : list (option child);
  fa_locks : barrier_state;
  fa_copies : list page_copy;
  fa_vw : vworld;
  fa_added : Z;
  fa_removed : Z
}.

Definition ch_set_file (c : child) (m : mapping) : child :=
  Child (ch_ino c) (ch_at_index c) (ch_copy_size c) (ch_ranges c) m (ch_frnd c) (ch_pending c).
Definition ch_set_frnd (c : child) (m : mapping) : child :=
  Child (ch_ino c) (ch_at_index c) (ch_copy_size c) (ch_ranges c) (ch_file c) m (ch_pending c).
(** [scorw_dec_yet_to_copy_blocks_count] of one block. *)
Definition ch_dec_pending (c : child) : child :=
  Child (ch_ino c) (ch_at_index c) (ch_copy_size c) (ch_ranges c) (ch_file c) (ch_frnd c) (ch_pending c - 1).

Definition fa_set_kids (fam : family) (l : list (option child)) : family :=
  Family (fa_ino fam) l (fa_locks fam) (fa_copies fam) (fa_vw fam) (fa_added fam) (fa_removed fam).
Definition fa_set_kid (fam : family) (j : nat) (c : child) : family :=
  fa_set_kids fam (<[j := Some c]> (fa_kids fam)).
Definition fa_set_locks (fam : family) (l : barrier_state) : family :=
  Family (fa_ino fam) (fa_kids fam) l (fa_copies fam) (fa_vw fam) (fa_added fam) (fa_removed fam).
Definition fa_set_copies (fam : family) (l : list page_copy) : family :=
  Family (fa_ino fam) (fa_kids fam) (fa_locks fam) l (fa_vw fam) (fa_added fam) (fa_removed fam).
Definition fa_set_vw (fam : family) (w : vworld) : family :=
  Family (fa_ino fam) (fa_kids fam) (fa_locks fam) (fa_copies fam) w (fa_added fam) (fa_removed fam).
Definition fa_add_copy (fam : family) (pc : page_copy) : family :=
  Family (fa_ino fam) (fa_kids fam) (fa_locks fam) (fa_copies fam ++ [pc]) (fa_vw fam) (fa_added fam + 1) (fa_removed fam).

(** Answers of the environment to the calls an operation makes on the friend
    files, the parent and the child file, and on the allocator of active-map
    entries. *)
Record kio := Kio { k_frnd : io_env; k_par : io_env; k_child : io_env; k_mem : bool }.
Definition kio_ok : kio := Kio io_ok io_ok io_ok true.

Section page_copy.
Context `{HashMin}.

(** ** Ranges *)

Definition in_child_range (b : Z) (r : child_range) : bool := (cr_start r <=? b) && (b <=? cr_end r).

(** [snapx_get_range_info]: the behaviour of a block, with the range the caller
    remembers from the previous block. *)
Definition snapx_get_range_info (cr : option child_range) (ranges : list child_range) (blk_num : Z)
    : WriteCh * option child_range :=
  match ranges with
  | [] => (SNAPX_FLAG_COW, cr)
  | _ =>
      let stale := match cr with None => true | Some r => cr_end r <? blk_num end in
      let cr' := if stale
                 then match List.find (in_child_range blk_num) ranges with Some r => Some r | None => cr end
                 else cr in
      (match cr' with None => SNAPX_FLAG_COW | Some r => snapx_behavior r end, cr')
  end.

(** [scorw_is_in_range]: does a write of the parent to the block have to be
    kept from the child? *)
Definition scorw_is_in_range (ranges : list child_range) (blk_num : Z) : bool :=
  match List.find (in_child_range blk_num) ranges with
  | Some r => negb (WriteCh_val SNAPX_FLAG_COW_RO <? WriteCh_val (snapx_behavior r))
  | None => true
  end.

(** ** Page copies *)

(** The entry of the newest page copy that satisfies a test: [hash_add] puts a
    new one at the head of its bucket. *)
Fixpoint find_newest (t : page_copy -> bool) (l : list page_copy) : option nat :=
  match l with
  | [] => None
  | pc :: l' =>
      match find_newest t l' with
      | Some i => Some (S i)
      | None => if t pc then Some O else None
      end
  end.

Definition pc_matches (block_num par_ino_num child_index : Z) (pc : page_copy) : bool :=
  (block_num =? pc_block_num pc) && (par_ino_num =? pc_par pc) && (target_flag pc (Z.to_nat child_index)).

(** [scorw_find_page_copy]. *)
Definition scorw_find_page_copy (copies : list page_copy) (block_num par_ino_num child_index : Z) : outcome (option nat) :=
  if child_index =? -1 then Ok None
  else
    _ ← BUG_ON (negb ((0 <=? child_index) && (child_index <? SCORW_MAX_CHILDS)));
    Ok (find_newest (pc_matches block_num par_ino_num child_index) copies).

(** The block of the parent as [block_read_full_folio] reads it from disk:
    zeros past the last block of the file. *)
Definition read_block (par : mapping) (lblk : Z) : page :=
  if lblk <? Z.shiftr (i_size par + PAGE_SIZE - 1) PAGE_SHIFT then disk_page par lblk else zero_page.

(** [scorw_copy_page_from_page_copy]; the offset of the block is computed in 32
    bits when the length is, and in 64 bits when the position is. *)
Definition scorw_copy_page_from_page_copy (io : kio) (par : mapping) (pc : page_copy) (c : child)
    : outcome (Z * page_copy * child) :=
  let lblk := pc_block_num pc in
  let left := u64 (ch_copy_size c - u32 (Z.shiftl lblk PAGE_SHIFT)) in
  let len := if PAGE_SIZE <=? left then PAGE_SIZE else left in
  if len <=? 0 then Ok (0, pc, c)
  else
    data ← match data_page pc with
           | Some p => Ok p
           | None =>
               _ ← BUG_ON (negb (io_alloc (k_par io)));
               _ ← BUG_ON (negb (io_read (k_par io)));
               Ok (read_block par lblk)
           end;
    let pc' := PageCopy lblk (pc_par pc) (Some data) (is_target_child pc) in
    let pos := Z.shiftl lblk PAGE_SHIFT in
    match scorw_da_write_begin (k_child io) (ch_file c) pos len with
    | (error, None, m) => Ok (error, pc', ch_set_file c m)
    | (_, Some idx, m) =>
        let m1 := set_page m idx (zero_tail data len) in
        Ok (0, pc', ch_set_file c (scorw_da_write_end (k_child io) m1 pos len len).2)
    end.

(** ** Writing the parent *)

(** The loop of [scorw_write_par_blocks] that finds the children a page copy is
    for.  Looking at a friend file may bring a page of it into the cache. *)
Fixpoint find_targets (io : kio) (copies : list page_copy) (ino blk_num : Z) (kids : list (option child))
    : outcome (list (option child) * list bool) :=
  match kids with
  | [] => Ok ([], [])
  | k :: kids' =>
      r ← match k with
          | None => Ok (None, false)
          | Some c =>
              if negb (scorw_is_in_range (ch_ranges c) blk_num) then Ok (Some c, false)
              else
                existing_page_copy ← scorw_find_page_copy copies blk_num ino (ch_at_index c);
                match existing_page_copy with
                | Some _ => Ok (Some c, false)
                | None =>
                    let (copied, frnd) := scorw_is_block_copied (k_frnd io) (ch_frnd c) blk_num in
                    Ok (Some (ch_set_frnd c frnd), copied =? 0)
                end
          end;
      rs ← find_targets io copies ino blk_num kids';
      Ok (r.1 :: rs.1, r.2 :: rs.2)
  end.

(** [scorw_copy_page_to_page_copy]: the page is kept when it is up to date or
    only partly overwritten; otherwise the old contents are still on disk. *)
Definition scorw_copy_page_to_page_copy (io : kio) (is_4KB_write uptodate : bool) (par_data_page : page)
    : outcome (option page) :=
  if uptodate || negb is_4KB_write then
    _ ← BUG_ON (negb (io_alloc (k_par io)));
    Ok (Some par_data_page)
  else Ok None.

(** [scorw_prepare_page_copy]. *)
Definition scorw_prepare_page_copy (io : kio) (fam : family) (block_num : Z) (is_4KB_write uptodate : bool)
    (par_data_page : page) (targets : list bool) : outcome family :=
  data ← scorw_copy_page_to_page_copy io is_4KB_write uptodate par_data_page;
  Ok (fa_add_copy fam (PageCopy block_num (fa_ino fam) data
        (targets ++ replicate (Z.to_nat SCORW_MAX_CHILDS - length targets) false))).

(** [scorw_write_par_blocks]. *)
Definition scorw_write_par_blocks (io : kio) (par_size offset len : Z) (uptodate : bool) (par_data_page : page)
    (fam : family) : outcome family :=
  if len <=? 0 then Ok fam
  else
    let blk_num := u32 (Z.shiftr offset PAGE_SHIFT) in
    let last_block_eligible_for_copy := u32 (Z.shiftr (par_size - 1) PAGE_SHIFT) in
    if last_block_eligible_for_copy <? blk_num then Ok fam
    else
      r ← find_targets io (fa_copies fam) (fa_ino fam) blk_num (fa_kids fam);
      let fam1 := fa_set_kids fam r.1 in
      if negb (existsb id r.2) then Ok fam1
      else
        let is_4KB_write := (offset <=? Z.shiftl blk_num PAGE_SHIFT)
                            && (Z.shiftl blk_num PAGE_SHIFT + PAGE_SIZE <=? offset + len) in
        scorw_prepare_page_copy io fam1 blk_num is_4KB_write uptodate par_data_page r.2.

(** What the page-by-page writer calls on the children of a parent. *)
Definition family_hooks (io : kio) : par_hooks family := ParHooks family
  (fun b fam => l ← scorw_read_barrier_begin b (fa_locks fam); Ok (fa_set_locks fam l))
  (scorw_write_par_blocks io)
  (fun b fam => l ← scorw_read_barrier_end b (fa_locks fam); Ok (fa_set_locks fam l)).

(** ** Active maps *)

(** The active map of child [j]. *)
Definition kid_map (fam : family) (j : nat) : option barrier_child := mjoin (bs_children (fa_locks fam) !! j).
Definition set_kid_map (fam : family) (j : nat) (b : barrier_child) (t : table) : family :=
  fa_set_locks fam (BarrierState (<[j := Some (BarrierChild t (bc_usage b) (bc_held b))]> (bs_children (fa_locks fam)))
                      (bs_lock_readers (fa_locks fam))).

(** [scorw_get_uncopied_block] of a child; a block another thread processes in
    an incompatible way makes the caller wait. *)
Definition kid_get (io : kio) (fam : family) (j : nat) (b pt : Z) : outcome family :=
  match kid_map fam j with
  | None => Bug
  | Some bc =>
      match get_first (k_mem io) (bc_table bc) b pt with
      | Acquired t => Ok (set_kid_map fam j bc t)
      | MustWait _ => Hang
      | NoMemory t => Ok (set_kid_map fam j bc t)
      end
  end.

(** [scorw_put_uncopied_block], then [scorw_remove_uncopied_block]. *)
Definition kid_put (fam : family) (j : nat) (b pt : Z) : outcome family :=
  match kid_map fam j with
  | None => Bug
  | Some bc => Ok (set_kid_map fam j bc (scorw_remove_uncopied_block (scorw_put_uncopied_block (bc_table bc) b pt).2 b))
  end.

(** [scorw_is_block_copied] on the friend of child [j]. *)
Definition kid_copied (io : kio) (fam : family) (j : nat) (c : child) (b : Z) : Z * family * child :=
  let (copied, frnd) := scorw_is_block_copied (k_frnd io) (ch_frnd c) b in
  let c' := ch_set_frnd c frnd in (copied, fa_set_kid fam j c', c').

Definition kid (fam : family) (j : nat) : option child := mjoin (fa_kids fam !! j).

(** ** The page copy thread *)

(** What an iteration of [scorw_page_copy_thread_fn] does for child [j] of the
    page copy at the head of the list. *)
Definition page_copy_to_kid (io : kio) (par : mapping) (j : nat) (fam : family) : outcome family :=
  match fa_copies fam with
  | [] => Bug
  | pc :: rest =>
      match kid fam j with
      | None => Ok fam
      | Some c =>
          let block_num := s32 (pc_block_num pc) in
          if negb (target_flag pc j) then Ok fam
          else if Z.shiftr (ch_copy_size c - 1) PAGE_SHIFT <? block_num then Ok fam
          else
            fam1 ← kid_get io fam j (u32 block_num) COPYING_EXCL;
            let '(copied, fam2, c2) := kid_copied io fam1 j c (u32 block_num) in
            fam4 ← (if copied =? 0 then
                      w ← scorw_child_version_cnt_inc (fa_vw fam2) (ch_ino c2);
                      r ← scorw_copy_page_from_page_copy io par pc c2;
                      let '(ret, pc', c3) := r in
                      let fam3 := fa_set_copies (fa_set_vw fam2 w) (pc' :: rest) in
                      if ret =? 0 then
                        frnd ← scorw_set_block_copied (k_frnd io) (ch_frnd c3) (u32 block_num);
                        Ok (fa_set_kid fam3 j (ch_dec_pending (ch_set_frnd c3 frnd)))
                      else Ok (fa_set_kid fam3 j c3)
                    else Ok fam2);
            kid_put fam4 j (u32 block_num) COPYING_EXCL
      end
  end.

(** [scorw_unprepare_page_copy] of the head of the list, with the reference it
    gives back to the parent. *)
Definition scorw_unprepare_page_copy (fam : family) : family :=
  Family (fa_ino fam) (fa_kids fam) (fa_locks fam) (tail (fa_copies fam)) (fa_vw fam) (fa_added fam) (fa_removed fam + 1).

(** One iteration of [scorw_page_copy_thread_fn] that is neither a timeout nor
    the end of the thread. *)
Definition scorw_page_copy_thread_step (io : kio) (par : mapping) (fam : family) : outcome family :=
  match fa_copies fam with
  | [] => Ok fam
  | _ => fam' ← for_each (seq 0 (length (fa_kids fam))) (page_copy_to_kid io par) fam;
         Ok (scorw_unprepare_page_copy fam')
  end.

(** [scorw_free_all_page_copy], at unmount: the copies are dropped. *)
Definition scorw_free_all_page_copy (fam : family) : family :=
  Nat.iter (length (fa_copies fam)) scorw_unprepare_page_copy fam.

(** ** Lemmas: active maps *)

(** An active map no thread uses. *)
Definition map_free (t : table) : Prop := table_wf t /\ forall b, scorw_find_uncopied_block_list t b = None.

Lemma get_free t b pt :
  scorw_find_uncopied_block_list t b = None ->
  get_first true t b pt = Acquired (scorw_add_uncopied_blocks_list t (new_block b pt)).
Proof. intros Hf. unfold get_first. by rewrite Hf. Qed.

Lemma get_free_spec t b pt :
  table_wf t -> scorw_find_uncopied_block_list t b = None ->
  let t' := scorw_add_uncopied_blocks_list t (new_block b pt) in
  table_wf t' /\ forall b', scorw_find_uncopied_block_list t' b' =
    if decide (b = b') then Some (new_block b pt) else scorw_find_uncopied_block_list t b'.
Proof. intros Hw Hf. split; [by apply add_wf|]. intros b'. by rewrite add_find. Qed.

(** Releasing a block nobody else holds or waits for takes it out of the map. *)
Lemma put_remove t b pt :
  table_wf t -> is_type pt -> scorw_find_uncopied_block_list t b = Some (new_block b pt) ->
  let t' := scorw_remove_uncopied_block (scorw_put_uncopied_block t b pt).2 b in
  table_wf t' /\ forall b', scorw_find_uncopied_block_list t' b' =
    if decide (b = b') then None else scorw_find_uncopied_block_list t b'.
Proof.
  intros Hw Ht Hf. cbv zeta.
  assert (exists g, scorw_put_uncopied_block t b pt = (0, store t b g) /\ (forall u, block_num (g u) = block_num u) /\
    processing_type (g (new_block b pt)) = NOP /\ num_waiting (g (new_block b pt)) = 0) as (g & -> & Hg1 & Hg2 & Hg3).
  { unfold scorw_put_uncopied_block. rewrite Hf. destruct Ht as [->|[->| ->]]; cbn; eexists; (split; [reflexivity|by repeat split]). }
  cbn [snd]. unfold scorw_remove_uncopied_block. rewrite store_find, decide_True, Hf by done. cbn [fmap option_fmap option_map].
  rewrite Hg2, Hg3. cbn. split; [by apply delete_wf, store_wf|].
  intros b'. rewrite delete_find by (by apply store_wf). case_decide; [done|]. rewrite store_find by done. by rewrite decide_False.
Qed.

(** The active maps of a family, one per child, all unused. *)
Definition free_bar (o : option barrier_child) : Prop := from_option (fun bc => map_free (bc_table bc)) True o.
Definition kid_bar (k : option child) (o : option barrier_child) : Prop := (k = None <-> o = None) /\ free_bar o.
Definition locks_free (fam : family) : Prop := Forall2 kid_bar (fa_kids fam) (bs_children (fa_locks fam)).

Lemma barrier_child_round b o :
  free_bar o -> exists o', barrier_child_begin b o = Ok o' /\ (o' = None <-> o = None) /\
    free_bar (barrier_child_end b o') /\ (barrier_child_end b o' = None <-> o = None).
Proof.
  destruct o as [bc|]; [|intros _; exists None; by split_and!]. intros [Hw Hf]. cbn.
  destruct (1 <? bc_usage bc); [|eexists; split; [done|]; split; [done|]; by split].
  rewrite get_free by done. eexists. split; [done|]. cbn. split; [done|]. split; [|done].
  destruct (get_free_spec (bc_table bc) b COPYING_EXCL Hw (Hf b)) as [Hw1 Hf1].
  destruct (put_remove _ b COPYING_EXCL Hw1) as [Hw2 Hf2]; [by right; right|by rewrite Hf1, decide_True|].
  split; [done|]. intros b'. rewrite Hf2, Hf1. by case_decide.
Qed.

Lemma barrier_round b kids bars :
  Forall2 kid_bar kids bars ->
  exists bars', barrier_children b bars = Ok bars' /\ Forall2 kid_bar kids (barrier_child_end b <$> bars').
Proof.
  induction 1 as [|k o kids bars [Hk Hf] _ (bars' & Hb & IH)]; [by exists []|]. cbn.
  destruct (barrier_child_round b o Hf) as (o' & Ho & Hn & Hf' & Hn'). rewrite Ho. cbn. rewrite Hb. cbn.
  eexists. split; [done|]. cbn. constructor; [|done]. split; [by rewrite Hn'|done].
Qed.

(** The barrier around the write of a page comes up and goes down, and leaves
    the active maps unused. *)
Lemma family_barrier b fam :
  locks_free fam -> exists l, scorw_read_barrier_begin b (fa_locks fam) = Ok l /\
    forall kids, length kids = length (fa_kids fam) ->
      (forall j k, fa_kids fam !! j = Some k -> exists k', kids !! j = Some k' /\ (k' = None <-> k = None)) ->
      exists l', scorw_read_barrier_end b l = Ok l' /\ Forall2 kid_bar kids (bs_children l') /\
        bs_lock_readers l' = bs_lock_readers (fa_locks fam).
Proof.
  intros Hl. destruct (barrier_round b _ _ Hl) as (bars' & Hb & Hf).
  unfold scorw_read_barrier_begin. rewrite Hb. cbn. eexists. split; [done|]. intros kids Hlen Hk.
  eexists. split; [done|]. cbn. split; [|lia]. apply Forall2_same_length_lookup in Hf as [Hlen' Hf].
  apply Forall2_same_length_lookup. split; [lia|]. intros j k o Hkj Ho.
  destruct (fa_kids fam !! j) as [k0|] eqn:Hk0.
  - destruct (Hk j k0 Hk0) as (k' & Hk' & Hn). destruct (Hf j k0 o Hk0 Ho) as [Hn0 ?].
    split; [|done]. rewrite <- Hn0. simplify_eq. done.
  - apply lookup_ge_None in Hk0. apply lookup_lt_Some in Hkj. lia.
Qed.

(** ** What is kept for a child *)

(** The contents a page copy stands for, and those a block of the parent has
    for child [j]. *)
Definition pc_data (par : mapping) (pc : page_copy) : page := default (read_block par (pc_block_num pc)) (data_page pc).
Definition newest_copy (fam : family) (j : nat) (b : Z) : option page_copy :=
  k ← find_newest (pc_matches b (fa_ino fam) (Z.of_nat j)) (fa_copies fam); fa_copies fam !! k.
Definition src_page (par : mapping) (fam : family) (j : nat) (b : Z) : page :=
  from_option (pc_data par) (file_page par b) (newest_copy fam j b).

(** Where the layer has the page of a block of the snapshot of child [j]: in the
    child's own file when the friend file marks the block as copied; else in the page
    copy for the child that the code finds first; else in the parent.  What is taken
    from there goes to the child cut to the size of the parent when the child was
    made. *)
Inductive kept (par : mapping) (fam : family) (j : nat) (c : child) (b : Z) : page -> Prop :=
| kept_in_child : friend_bit (ch_frnd c) b = true -> kept par fam j c b (file_page (ch_file c) b)
| kept_in_copy pc : friend_bit (ch_frnd c) b = false -> newest_copy fam j b = Some pc ->
    kept par fam j c b (zero_tail (pc_data par pc) (ch_copy_size c - b * PAGE_SIZE))
| kept_in_parent : friend_bit (ch_frnd c) b = false -> newest_copy fam j b = None ->
    kept par fam j c b (zero_tail (file_page par b) (ch_copy_size c - b * PAGE_SIZE)).

(** There is one such page. *)
Definition kept_page (par : mapping) (fam : family) (j : nat) (c : child) (b : Z) : page :=
  if friend_bit (ch_frnd c) b then file_page (ch_file c) b
  else zero_tail (src_page par fam j b) (ch_copy_size c - b * PAGE_SIZE).

Lemma kept_iff par fam j c b p : kept par fam j c b p <-> p = kept_page par fam j c b.
Proof.
  unfold kept_page, src_page. split.
  - intros [->|pc -> ->| -> ->]; done.
  - intros ->. destruct (friend_bit (ch_frnd c) b) eqn:Hb; [by apply kept_in_child|].
    destruct (newest_copy fam j b) as [pc|] eqn:Hc; cbn; [by apply kept_in_copy|by apply kept_in_parent].
Qed.

(** A block the child was made with. *)
Definition in_snapshot (c : child) (b : Z) : Prop := 0 <= b /\ b * PAGE_SIZE < ch_copy_size c.

(** ** Well-formed families *)

Definition vc_ready (w : vworld) (ino : Z) : Prop :=
  exists c f, vw_c w !! ino = Some c /\ vw_f w !! c_frnd_ino c = Some f /\
    (cannot_update_child_version_cnt c = true \/ (has_scorw c = true /\ child_version c <> 0)).

Record kid_ok (par : mapping) (fam : family) (j : nat) (c : child) : Prop := {
  ko_index : ch_at_index c = Z.of_nat j;
  ko_frnd : friend_wf (ch_frnd c);
  ko_file : mapping_wf (ch_file c);
  ko_size : 0 < ch_copy_size c <= 2 ^ 32;
  ko_par : ch_copy_size c <= i_size par;
  ko_vw : vc_ready (fa_vw fam) (ch_ino c)
}.

Record pc_ok (par : mapping) (fam : family) (pc : page_copy) : Prop := {
  po_block : 0 <= pc_block_num pc < 2 ^ 31;
  po_par : pc_par pc = fa_ino fam;
  po_data : page_wf (pc_data par pc);
  po_cold : data_page pc = None -> pc_block_num pc < Z.shiftr (i_size par + PAGE_SIZE - 1) PAGE_SHIFT
}.

Record fam_ok (par : mapping) (fam : family) : Prop := {
  fo_par : mapping_wf par;
  fo_psize : i_size par <= 2 ^ 43;
  fo_len : (length (fa_kids fam) <= Z.to_nat SCORW_MAX_CHILDS)%nat;
  fo_kids : forall j c, kid fam j = Some c -> kid_ok par fam j c;
  fo_copies : forall k pc, fa_copies fam !! k = Some pc -> pc_ok par fam pc;
  fo_unique : forall k1 k2 pc1 pc2 j, fa_copies fam !! k1 = Some pc1 -> fa_copies fam !! k2 = Some pc2 ->
    pc_block_num pc1 = pc_block_num pc2 -> target_flag pc1 j = true -> target_flag pc2 j = true -> k1 = k2
}.

(** ** Lemmas: lookups *)

Lemma find_newest_Some t l k : find_newest t l = Some k -> exists pc, l !! k = Some pc /\ t pc = true.
Proof.
  revert k. induction l as [|pc l IH]; intros k Hk; [done|]. cbn in Hk. destruct (find_newest t l) as [i|].
  - injection Hk as <-. cbn. by apply IH.
  - destruct (t pc) eqn:E; [|done]. injection Hk as <-. by exists pc.
Qed.

Lemma find_newest_None t l : find_newest t l = None <-> forall k pc, l !! k = Some pc -> t pc = false.
Proof.
  induction l as [|pc l IH]; [by split|]. cbn. destruct (find_newest t l) as [i|] eqn:E.
  - split; [done|]. intros Hall. apply find_newest_Some in E as (pc' & Hi & Ht). by rewrite (Hall (S i) pc' Hi) in Ht.
  - destruct (t pc) eqn:Ht; (split; [|intros Hall; try by rewrite (Hall O pc eq_refl) in Ht]); try done.
    intros _ [|k] pc' Hk; [by simplify_eq/=|]. by eapply (proj1 IH eq_refl).
Qed.

Lemma find_newest_app t l pc : find_newest t (l ++ [pc]) = if t pc then Some (length l) else find_newest t l.
Proof. induction l as [|a l IH]; cbn; [by destruct (t pc)|]. rewrite IH. by destruct (t pc). Qed.

Lemma kid_lookup fam j c : kid fam j = Some c <-> fa_kids fam !! j = Some (Some c).
Proof. unfold kid. destruct (fa_kids fam !! j) as [[c'|]|]; cbn; naive_solver. Qed.

Lemma kid_set fam j c0 c j' :
  kid fam j = Some c0 -> kid (fa_set_kid fam j c) j' = if decide (j = j') then Some c else kid fam j'.
Proof.
  intros Hk. apply kid_lookup in Hk. apply lookup_lt_Some in Hk. unfold kid. cbn.
  case_decide; [subst; by rewrite list_lookup_insert_eq|by rewrite list_lookup_insert_ne].
Qed.

Lemma kid_index par fam j c :
  fam_ok par fam -> kid fam j = Some c -> 0 <= ch_at_index c < SCORW_MAX_CHILDS /\ ch_at_index c = Z.of_nat j.
Proof.
  intros Hok Hk. pose proof (ko_index _ _ _ _ (fo_kids _ _ Hok j c Hk)) as ->. pose proof (fo_len _ _ Hok) as Hl.
  apply kid_lookup, lookup_lt_Some in Hk. unfold SCORW_MAX_CHILDS in *. lia.
Qed.

Lemma find_page_copy_kid par fam j c b :
  fam_ok par fam -> kid fam j = Some c ->
  scorw_find_page_copy (fa_copies fam) b (fa_ino fam) (ch_at_index c) =
  Ok (find_newest (pc_matches b (fa_ino fam) (Z.of_nat j)) (fa_copies fam)).
Proof.
  intros Hok Hk. destruct (kid_index _ _ _ _ Hok Hk) as [Hr He]. unfold scorw_find_page_copy.
  rewrite (proj2 (Z.eqb_neq _ _)) by lia. rewrite (proj2 (Z.leb_le _ _)), (proj2 (Z.ltb_lt _ _)) by lia. cbn. by rewrite He.
Qed.

Lemma newest_copy_match fam j b pc :
  newest_copy fam j b = Some pc ->
  (exists k, fa_copies fam !! k = Some pc) /\ pc_block_num pc = b /\ pc_par pc = fa_ino fam /\ target_flag pc j = true.
Proof.
  unfold newest_copy. destruct (find_newest _ _) as [k|] eqn:E; [|done]. cbn. intros Hk.
  apply find_newest_Some in E as (pc' & Hk' & Hm). simplify_eq. unfold pc_matches in Hm. rewrite Nat2Z.id in Hm.
  apply andb_true_iff in Hm as [[Hb%Z.eqb_eq Hp%Z.eqb_eq]%andb_true_iff Ht]. eauto.
Qed.

(** The page copy of a block for a child is the only one there is. *)
Lemma newest_copy_intro par fam j b k pc :
  fam_ok par fam -> fa_copies fam !! k = Some pc -> pc_block_num pc = b -> target_flag pc j = true ->
  find_newest (pc_matches b (fa_ino fam) (Z.of_nat j)) (fa_copies fam) = Some k.
Proof.
  intros Hok Hk Hb Ht. destruct (find_newest _ _) as [k'|] eqn:E.
  - apply find_newest_Some in E as (pc' & Hk' & Hm). unfold pc_matches in Hm. rewrite Nat2Z.id in Hm.
    apply andb_true_iff in Hm as [[Hb'%Z.eqb_eq _]%andb_true_iff Ht']. f_equal.
    eapply (fo_unique _ _ Hok); eauto. congruence.
  - pose proof (proj1 (find_newest_None _ _) E k pc Hk) as Hf. unfold pc_matches in Hf.
    rewrite Nat2Z.id, Ht, Hb, Z.eqb_refl, (po_par _ _ _ (fo_copies _ _ Hok k pc Hk)), Z.eqb_refl in Hf. done.
Qed.

Lemma fam_ok_set_locks par fam l : fam_ok par fam -> fam_ok par (fa_set_locks fam l).
Proof.
  intros [? ? ? Hk Hc ?]. split; auto.
  - intros j c Hj. destruct (Hk j c Hj). by split.
  - intros k pc Hpc. destruct (Hc k pc Hpc). by split.
Qed.

(** ** Lemmas: version counts and pages *)

Lemma first_write_ready w ino :
  vc_ready w ino -> exists w', scorw_child_version_cnt_inc w ino = Ok w' /\ forall i, vc_ready w i -> vc_ready w' i.
Proof.
  intros (c & f & Hc & Hf & Hr). unfold scorw_child_version_cnt_inc. rewrite Hc.
  destruct (cannot_update_child_version_cnt c) eqn:Hfl; [by exists w|]. destruct Hr as [?|[Hs Hv]]; [done|].
  rewrite Hs, Hf, (proj2 (Z.eqb_neq _ _) Hv). cbn. eexists. split; [done|].
  intros i (ci & fi & Hci & Hfi & Hri). unfold vc_ready. cbn. rewrite lookup_insert. case_decide; subst.
  - exists (c_set_version (c_set_flag c true) (u64 (child_version c + 1))). cbn. rewrite lookup_insert_eq. eauto.
  - exists ci. rewrite Hci, lookup_insert. case_decide; eauto.
Qed.

(** Cutting at the page size or past it is no cut. *)
Lemma zero_tail_clip p n :
  page_wf p -> zero_tail p (if PAGE_SIZE <=? n then PAGE_SIZE else n) = zero_tail p n.
Proof.
  intros [Hl _]. destruct (Z.leb_spec PAGE_SIZE n); [|done]. unfold zero_tail.
  rewrite !take_ge by lia. do 2 f_equal. lia.
Qed.

(** ** Lemmas: the copies made for the children *)

(** What looking for the targets of a page copy finds for each child. *)
Definition target_of (fam : family) (b : Z) (j : nat) (c : child) : bool :=
  scorw_is_in_range (ch_ranges c) b
  && bool_decide (find_newest (pc_matches b (fa_ino fam) (Z.of_nat j)) (fa_copies fam) = None)
  && negb (friend_bit (ch_frnd c) b).

Definition looked_up (c c' : child) : Prop :=
  exists m, c' = ch_set_frnd c m /\ friend_wf m /\ forall b, friend_bit m b = friend_bit (ch_frnd c) b.

Lemma looked_up_refl c : friend_wf (ch_frnd c) -> looked_up c c.
Proof. intros Hw. exists (ch_frnd c). by destruct c. Qed.

Lemma block_copied_looked_up m b c :
  friend_wf m -> m = ch_frnd c ->
  exists x m', scorw_is_block_copied io_ok m b = (x, m') /\ (x =? 0) = negb (friend_bit m b) /\ looked_up c (ch_set_frnd c m').
Proof.
  intros Hw ->. destruct (scorw_is_block_copied_ok (ch_frnd c) b Hw) as (x & m' & Hx & Hn).
  destruct (scorw_is_block_copied_spec _ _ _ _ _ Hw Hx Hn) as (Hz & Hw' & Hp).
  exists x, m'. split_and!; auto. exists m'. split_and!; auto. by apply friend_bit_ext.
Qed.

Lemma find_targets_spec par fam b n kids :
  fam_ok par fam -> (forall i k, kids !! i = Some k -> fa_kids fam !! (n + i)%nat = Some k) ->
  exists kids' ts, find_targets kio_ok (fa_copies fam) (fa_ino fam) b kids = Ok (kids', ts) /\
    length kids' = length kids /\ length ts = length kids /\
    (forall i, kids !! i = Some None -> kids' !! i = Some None /\ ts !! i = Some false) /\
    (forall i c, kids !! i = Some (Some c) -> exists c', kids' !! i = Some (Some c') /\ looked_up c c' /\
      ts !! i = Some (target_of fam b (n + i) c)).
Proof.
  intros Hok. revert n. induction kids as [|k kids IH]; intros n Hk; [by exists [], []|].
  destruct (IH (S n)) as (kids' & ts & Hr & Hl1 & Hl2 & Hn & Hs).
  { intros i k' Hi. rewrite Nat.add_succ_comm. by apply (Hk (S i)). }
  assert (exists k' t, match k with
          | None => Ok (None, false)
          | Some c =>
              if negb (scorw_is_in_range (ch_ranges c) b) then Ok (Some c, false)
              else
                existing_page_copy ← scorw_find_page_copy (fa_copies fam) b (fa_ino fam) (ch_at_index c);
                match existing_page_copy with
                | Some _ => Ok (Some c, false)
                | None =>
                    let (copied, frnd) := scorw_is_block_copied (k_frnd kio_ok) (ch_frnd c) b in
                    Ok (Some (ch_set_frnd c frnd), copied =? 0)
                end
          end = Ok (k', t) /\ (k = None -> k' = None /\ t = false) /\
          (forall c, k = Some c -> exists c', k' = Some c' /\ looked_up c c' /\ t = target_of fam b n c)) as (k' & t & Hh & Hkn & Hks).
  { destruct k as [c|]; [|by exists None, false].
    assert (kid fam n = Some c) as Hkc by (apply kid_lookup; rewrite <- (Nat.add_0_r n); by apply (Hk O)).
    pose proof (ko_frnd _ _ _ _ (fo_kids _ _ Hok _ _ Hkc)) as Hw. unfold target_of.
    destruct (scorw_is_in_range (ch_ranges c) b) eqn:Hir; cbn [negb andb].
    2: { exists (Some c), false. split; [done|]. split; [done|]. intros ? [= <-].
      exists c. split_and!; [done|by apply looked_up_refl|by rewrite Hir, ?andb_false_r]. }
    rewrite (find_page_copy_kid par fam n c b Hok Hkc). cbn [mbind outcome_bind].
    destruct (find_newest _ _) eqn:Hfn.
    { exists (Some c), false. split; [done|]. split; [done|]. intros ? [= <-].
      exists c. split_and!; [done|by apply looked_up_refl|by rewrite Hir, ?andb_false_r]. }
    destruct (block_copied_looked_up (ch_frnd c) b c Hw eq_refl) as (x & m' & Hx & Hz & Hlk).
    cbn [k_frnd kio_ok]. rewrite Hx. eexists _, _. split; [done|]. split; [done|]. intros ? [= <-].
    eexists. split; [done|]. split; [done|]. by rewrite Hz, Hir. }
  cbn [find_targets]. rewrite Hh. cbn [mbind outcome_bind]. rewrite Hr. cbn [mbind outcome_bind fst snd].
  exists (k' :: kids'), (t :: ts). split_and!; [done|by cbn; f_equal|by cbn; f_equal| |].
  - intros [|i] Hi; cbn in *; [injection Hi as ->; destruct (Hkn eq_refl) as [-> ->]; done|by apply Hn].
  - intros [|i] c Hi; cbn in *.
    + injection Hi as ->. destruct (Hks c eq_refl) as (c' & -> & ? & ->). rewrite Nat.add_0_r. eauto.
    + rewrite <- Nat.add_succ_comm. by apply Hs.
Qed.

(** ** Lemmas: a write to the parent *)

(** The pages of the children that keep a static copy of the parent are the same in
    both states. *)
Definition snap_kept (par : mapping) (fam : family) (par' : mapping) (fam' : family) : Prop :=
  forall j c, kid fam j = Some c -> exists c', kid fam' j = Some c' /\
    ch_copy_size c' = ch_copy_size c /\ ch_ranges c' = ch_ranges c /\
    forall b, in_snapshot c b -> scorw_is_in_range (ch_ranges c) b = true ->
      kept_page par' fam' j c' b = kept_page par fam j c b.

Lemma snap_kept_refl par fam : snap_kept par fam par fam.
Proof. intros j c Hk. by exists c. Qed.

Lemma snap_kept_trans par1 fam1 par2 fam2 par3 fam3 :
  snap_kept par1 fam1 par2 fam2 -> snap_kept par2 fam2 par3 fam3 -> snap_kept par1 fam1 par3 fam3.
Proof.
  intros H1 H2 j c Hk. destruct (H1 j c Hk) as (c' & Hk' & Hs' & Hr' & Hv'). destruct (H2 j c' Hk') as (c'' & Hk'' & Hs'' & Hr'' & Hv'').
  exists c''. split_and!; [done|congruence|congruence|]. intros b Hb Hin. rewrite <- Hv' by done. apply Hv''; [|by rewrite Hr'].
  unfold in_snapshot in *. by rewrite Hs'.
Qed.

(** The children after a look at their friend files. *)
Definition kids_looked_up (fam fam' : family) : Prop :=
  length (fa_kids fam') = length (fa_kids fam) /\
  (forall j, fa_kids fam !! j = Some None -> fa_kids fam' !! j = Some None) /\
  (forall j c, kid fam j = Some c -> exists c', kid fam' j = Some c' /\ looked_up c c').

(** The page copies of a family after a write to block [idx]: none is new, or
    one, which holds the old page and is for children that had none. *)
Definition copies_grown (par : mapping) (idx : Z) (fam fam' : family) : Prop :=
  fa_copies fam' = fa_copies fam \/
  exists pc, fa_copies fam' = fa_copies fam ++ [pc] /\ pc_ok par fam pc /\ pc_block_num pc = idx /\ pc_data par pc = file_page par idx /\
    forall j, target_flag pc j = true -> find_newest (pc_matches idx (fa_ino fam) (Z.of_nat j)) (fa_copies fam) = None.

Lemma targets_lookup (ts : list bool) n j : default false ((ts ++ replicate n false) !! j) = default false (ts !! j).
Proof.
  destruct (Nat.lt_ge_cases j (length ts)).
  - by rewrite lookup_app_l.
  - rewrite lookup_app_r by done. rewrite (lookup_ge_None_2 ts j) by done. cbn.
    destruct (replicate n false !! _) eqn:E; [|done]. by apply lookup_replicate in E as [-> _].
Qed.

(** The result of [find_targets] on all children of a family. *)
Definition targets_found (fam : family) (idx : Z) (kids' : list (option child)) (ts : list bool) : Prop :=
  length kids' = length (fa_kids fam) /\ length ts = length (fa_kids fam) /\
  (forall j, fa_kids fam !! j = Some None -> kids' !! j = Some None /\ ts !! j = Some false) /\
  (forall j c, fa_kids fam !! j = Some (Some c) -> exists c', kids' !! j = Some (Some c') /\ looked_up c c' /\
    ts !! j = Some (target_of fam idx j c)).

Lemma targets_kids fam idx kids' ts : targets_found fam idx kids' ts -> kids_looked_up fam (fa_set_kids fam kids').
Proof.
  intros (Hl & _ & Hn & Hs). split_and!; [done|intros j Hj; by apply Hn|]. intros j c Hk%kid_lookup.
  destruct (Hs j c Hk) as (c' & Hc' & Hc'' & _). exists c'. split; [by apply kid_lookup|done].
Qed.

(** A child marked as a target has no page copy of the block yet. *)
Lemma target_fresh fam idx kids' ts j :
  targets_found fam idx kids' ts -> ts !! j = Some true ->
  (exists c, kid fam j = Some c) /\ find_newest (pc_matches idx (fa_ino fam) (Z.of_nat j)) (fa_copies fam) = None.
Proof.
  intros (_ & Hl & Hn & Hs) E. destruct (fa_kids fam !! j) as [[c|]|] eqn:Ek.
  - destruct (Hs j c Ek) as (_ & _ & _ & Ht). rewrite E in Ht. injection Ht as Ht. unfold target_of in Ht.
    symmetry in Ht. apply andb_true_iff in Ht as [[_ Hb%bool_decide_eq_true]%andb_true_iff _].
    split; [|done]. exists c. by apply kid_lookup.
  - destruct (Hn j Ek) as [_ ?]. congruence.
  - apply lookup_ge_None in Ek. apply lookup_lt_Some in E. lia.
Qed.

(** A child whose range keeps a copy has the block, a page copy of it, or is a
    target. *)
Lemma targets_cover fam idx kids' ts j c :
  targets_found fam idx kids' ts -> kid fam j = Some c -> scorw_is_in_range (ch_ranges c) idx = true ->
  friend_bit (ch_frnd c) idx = true \/ is_Some (newest_copy fam j idx) \/ ts !! j = Some true.
Proof.
  intros (_ & _ & _ & Hs) Hk%kid_lookup Hin. destruct (Hs j c Hk) as (_ & _ & _ & Ht). unfold target_of in Ht.
  rewrite Hin in Ht. destruct (friend_bit (ch_frnd c) idx); [by left|right]. unfold newest_copy.
  destruct (find_newest _ _) as [k|] eqn:E; [left|right; by rewrite Ht].
  apply find_newest_Some in E as (pc & Hpc & _). cbn. by exists pc.
Qed.

(** The data a page copy is prepared with, and that it stands for the page as
    it was. *)
Lemma prepared_data par idx is4 :
  exists data, scorw_copy_page_to_page_copy kio_ok is4 (bool_decide (is_Some (cache par !! idx))) (file_page par idx) = Ok data /\
    (data = Some (file_page par idx) \/ (data = None /\ cache par !! idx = None)).
Proof.
  unfold scorw_copy_page_to_page_copy. case_bool_decide as Hc; cbn; [by eexists; split; [|left]|].
  destruct is4; cbn; eexists; (split; [done|]); [|by left]. right. by apply eq_None_not_Some in Hc.
Qed.

Lemma new_copy_data par idx pp data ts :
  data = Some (file_page par idx) \/ (data = None /\ cache par !! idx = None) ->
  idx < Z.shiftr (i_size par + PAGE_SIZE - 1) PAGE_SHIFT -> pc_data par (PageCopy idx pp data ts) = file_page par idx.
Proof.
  intros Hd Hcold. unfold pc_data. cbn. destruct Hd as [->|[-> Hc]]; [done|]. cbn. unfold read_block, file_page.
  by rewrite (proj2 (Z.ltb_lt _ _) Hcold), Hc.
Qed.

(** Once the new page copy is in the list, every target has one. *)
Lemma new_copy_found fam fam' idx pc (ts : list bool) j :
  fa_copies fam' = fa_copies fam ++ [pc] -> fa_ino fam' = fa_ino fam -> pc_block_num pc = idx -> pc_par pc = fa_ino fam ->
  (forall i, target_flag pc i = default false (ts !! i)) ->
  is_Some (newest_copy fam j idx) \/ ts !! j = Some true -> is_Some (newest_copy fam' j idx).
Proof.
  intros Hc Hi Hb Hp Ht Hcase. unfold newest_copy. rewrite Hc, Hi, find_newest_app.
  destruct (pc_matches idx (fa_ino fam) (Z.of_nat j) pc) eqn:Em.
  - cbn. rewrite lookup_app_r, Nat.sub_diag by done. by exists pc.
  - destruct Hcase as [[pc' Hpc']|Hts].
    + unfold newest_copy in Hpc'. destruct (find_newest _ _) as [k|]; [|done]. cbn in *.
      exists pc'. by apply lookup_app_l_Some.
    + exfalso. unfold pc_matches in Em. rewrite Hb, Hp, !Z.eqb_refl, Nat2Z.id, Ht, Hts in Em. done.
Qed.

Lemma write_par_spec par fam pos len :
  fam_ok par fam -> 0 <= pos < 2 ^ 43 -> 0 < len ->
  let idx := pos / PAGE_SIZE in
  exists fam', scorw_write_par_blocks kio_ok (i_size par) pos len (bool_decide (is_Some (cache par !! idx))) (file_page par idx) fam = Ok fam' /\
    fa_locks fam' = fa_locks fam /\ fa_vw fam' = fa_vw fam /\ fa_ino fam' = fa_ino fam /\
    kids_looked_up fam fam' /\ copies_grown par idx fam fam' /\
    forall j c, kid fam j = Some c -> in_snapshot c idx -> scorw_is_in_range (ch_ranges c) idx = true ->
      friend_bit (ch_frnd c) idx = true \/ is_Some (newest_copy fam' j idx).
Proof.
  intros Hok Hpos Hlen idx. unfold scorw_write_par_blocks. rewrite (proj2 (Z.leb_gt len 0)) by lia.
  pose proof (fo_psize _ _ Hok) as Hps. change (2 ^ 43) with 8796093022208 in *.
  assert (0 <= idx < 2147483648) as Hidx by (subst idx; unfold PAGE_SIZE; Z.to_euclidean_division_equations; lia).
  rewrite !shiftr_page. fold idx. rewrite (u32_small idx) by (change (2 ^ 32) with 4294967296; lia).
  assert (forall j c, kid fam j = Some c -> u32 ((i_size par - 1) / PAGE_SIZE) = (i_size par - 1) / PAGE_SIZE /\ ch_copy_size c <= i_size par) as Hsz.
  { intros j c Hk. pose proof (fo_kids _ _ Hok _ _ Hk) as [_ _ _ Hs Hp _]. split; [|done]. apply u32_small.
    change (2 ^ 32) with 4294967296. unfold PAGE_SIZE in *. Z.to_euclidean_division_equations. lia. }
  destruct (Z.ltb_spec (u32 ((i_size par - 1) / PAGE_SIZE)) idx) as [Hap|Hap].
  { exists fam. do 4 (split; [done|]). split; [|split; [by left|]].
    - split_and!; auto. intros j c Hk. exists c. split; [done|]. eapply looked_up_refl, ko_frnd, fo_kids; eauto.
    - intros j c Hk [Hi0 Hi] _. exfalso. destruct (Hsz j c Hk) as [Hu Hle]. rewrite Hu in Hap.
      unfold PAGE_SIZE in *. Z.to_euclidean_division_equations. lia. }
  destruct (find_targets_spec par fam idx 0 (fa_kids fam) Hok) as (kids' & ts & -> & Htf); [done|].
  change (targets_found fam idx kids' ts) in Htf. cbn [mbind outcome_bind fst snd].
  pose proof (targets_kids _ _ _ _ Htf) as Hlk.
  destruct (existsb id ts) eqn:Hex; cbn [negb].
  2: { eexists. split; [done|]. split_and!; auto; [by left|]. intros j c Hk Hin Hir.
       destruct (targets_cover _ _ _ _ j c Htf Hk Hir) as [?|[?|Ht]]; [by left|by right|]. exfalso.
       assert (existsb id ts = true); [|congruence]. apply existsb_exists. exists true. split; [|done].
       apply list_elem_of_In. by eapply list_elem_of_lookup_2. }
  apply existsb_exists in Hex as (t & Ht & Htt). unfold id in Htt. subst t. apply list_elem_of_In, list_elem_of_lookup in Ht as [j0 Hj0].
  destruct (target_fresh _ _ _ _ _ Htf Hj0) as [[c0 Hk0] _]. destruct (Hsz _ _ Hk0) as [Hu _]. rewrite Hu in Hap.
  unfold scorw_prepare_page_copy. set (is4 := (pos <=? _) && _).
  destruct (prepared_data par idx is4) as (data & -> & Hd). cbn [mbind outcome_bind fa_set_kids fa_ino]. eexists. split; [done|].
  set (pc := PageCopy idx _ data _).
  assert (idx < Z.shiftr (i_size par + PAGE_SIZE - 1) PAGE_SHIFT) as Hcold
    by (rewrite shiftr_page; unfold PAGE_SIZE in *; Z.to_euclidean_division_equations; lia).
  pose proof (new_copy_data par idx (fa_ino fam) data (is_target_child pc) Hd Hcold : pc_data par pc = _) as Hpd.
  assert (forall i, target_flag pc i = default false (ts !! i)) as Htg by (intros i; unfold target_flag; cbn; apply targets_lookup).
  split_and!; auto.
  - right. exists pc. split_and!; auto.
    + split; [cbn; change (2 ^ 31) with 2147483648; lia|done|rewrite Hpd; apply file_page_wf, Hok|done].
    + intros j. rewrite Htg. destruct (ts !! j) as [[]|] eqn:E; [|done|done]. intros _. by eapply target_fresh.
  - intros j c Hk Hin Hir. destruct (targets_cover _ _ _ _ j c Htf Hk Hir) as [?|Hcase]; [by left|right].
    by eapply (new_copy_found fam _ idx pc ts).
Qed.

Lemma pc_data_kept par par' fam pc :
  pc_ok par fam pc -> disk par' = disk par -> i_size par <= i_size par' -> pc_data par' pc = pc_data par pc.
Proof.
  intros Hp Hd Hs. unfold pc_data. destruct (data_page pc) eqn:E; [done|]. cbn. unfold read_block, disk_page.
  pose proof (po_cold _ _ _ Hp E) as Hc. rewrite Hd, (proj2 (Z.ltb_lt _ _) Hc), (proj2 (Z.ltb_lt _ _)); [done|].
  rewrite shiftr_page in *. unfold PAGE_SIZE in *. Z.to_euclidean_division_equations. lia.
Qed.

Lemma pc_ok_kept par par' fam fam' pc :
  pc_ok par fam pc -> disk par' = disk par -> i_size par <= i_size par' -> fa_ino fam' = fa_ino fam -> pc_ok par' fam' pc.
Proof.
  intros Hp Hd Hs Hi. pose proof Hp as [Hb Hpar Hdata Hc]. split; [done|congruence|by rewrite (pc_data_kept par par' fam)|].
  intros E. specialize (Hc E). rewrite shiftr_page in *. unfold PAGE_SIZE in *. Z.to_euclidean_division_equations. lia.
Qed.

Lemma looked_up_kid_ok par par' fam fam' j c c' :
  kid_ok par fam j c -> looked_up c c' -> i_size par <= i_size par' ->
  (forall i, vc_ready (fa_vw fam) i -> vc_ready (fa_vw fam') i) -> kid_ok par' fam' j c'.
Proof. intros [? ? ? ? ? ?] (m & -> & Hm & _) Hs Hv. split; cbn; auto. lia. Qed.

(** A write of the parent's block [idx] behind its page copy. *)
Lemma par_page_kept par fam par' fam' idx :
  fam_ok par fam -> fa_vw fam' = fa_vw fam -> fa_ino fam' = fa_ino fam -> kids_looked_up fam fam' ->
  copies_grown par idx fam fam' ->
  (forall j c, kid fam j = Some c -> in_snapshot c idx -> scorw_is_in_range (ch_ranges c) idx = true ->
     friend_bit (ch_frnd c) idx = true \/ is_Some (newest_copy fam' j idx)) ->
  mapping_wf par' -> disk par' = disk par -> i_size par <= i_size par' <= 2 ^ 43 ->
  (forall i, i <> idx -> file_page par' i = file_page par i) ->
  fam_ok par' fam' /\ snap_kept par fam par' fam'.
Proof.
  intros Hok Hvw Hino (Hlen & Hnone & Hlk) Hgrow Hcov Hw Hd Hs Hpg.
  assert (forall j c', kid fam' j = Some c' -> exists c, kid fam j = Some c /\ looked_up c c') as Hback.
  { intros j c' Hk'. destruct (kid fam j) as [c|] eqn:Hk.
    - destruct (Hlk j c Hk) as (c1 & Hc1 & Hl1). simplify_eq. eauto.
    - unfold kid in Hk. destruct (fa_kids fam !! j) as [[c|]|] eqn:E; [done| |].
      + apply kid_lookup in Hk'. by rewrite (Hnone j E) in Hk'.
      + apply lookup_ge_None in E. apply kid_lookup, lookup_lt_Some in Hk'. lia. }
  assert (forall j b, newest_copy fam' j b = newest_copy fam j b \/
    (b = idx /\ newest_copy fam j b = None /\ exists pc, newest_copy fam' j b = Some pc /\ pc_ok par fam pc /\ pc_data par pc = file_page par idx)) as Hnew.
  { intros j b. unfold newest_copy. rewrite Hino. destruct Hgrow as [->|(pc & -> & Hpo & Hpb & Hpd & Hpt)]; [by left|].
    rewrite find_newest_app. destruct (pc_matches b (fa_ino fam) (Z.of_nat j) pc) eqn:Em.
    - right. unfold pc_matches in Em. rewrite Nat2Z.id in Em. apply andb_true_iff in Em as [[Eb%Z.eqb_eq _]%andb_true_iff Et].
      assert (b = idx) as -> by congruence. rewrite (Hpt j Et). split_and!; [done|done|]. exists pc.
      cbn. by rewrite lookup_app_r, Nat.sub_diag.
    - left. destruct (find_newest _ _) as [k|] eqn:E; [|done]. cbn. apply find_newest_Some in E as (pc' & Hk & _).
      rewrite Hk. by apply lookup_app_l_Some. }
  split.
  - split; [done|lia|by rewrite Hlen; apply Hok| | |].
    + intros j c' Hk'. destruct (Hback j c' Hk') as (c & Hk & Hl).
      eapply looked_up_kid_ok; [by eapply fo_kids|done|lia|by rewrite Hvw].
    + intros k pc Hk. destruct Hgrow as [Hg|(pc' & Hg & Hpo & _)]; rewrite Hg in Hk.
      * eapply pc_ok_kept; [by eapply fo_copies|done|lia|done].
      * apply lookup_app_Some in Hk as [Hk|[_ Hk]].
        -- eapply pc_ok_kept; [by eapply fo_copies|done|lia|done].
        -- apply list_lookup_singleton_Some in Hk as [_ ->]. eapply pc_ok_kept; [done|done|lia|done].
    + intros k1 k2 pc1 pc2 j H1 H2 Hb Ht1 Ht2. destruct Hgrow as [Hg|(pc' & Hg & Hpo & Hpb & _ & Hpt)]; rewrite Hg in H1, H2.
      { by eapply (fo_unique _ _ Hok). }
      assert (forall k pc, fa_copies fam !! k = Some pc -> pc_block_num pc = idx -> target_flag pc j = true -> target_flag pc' j = true -> False) as Hno.
      { intros k pc Hk Hpk Hpj Hpj'. specialize (Hpt j Hpj'). by rewrite (newest_copy_intro par fam j idx k pc) in Hpt. }
      apply lookup_app_Some in H1 as [H1|[Hl1 H1]], H2 as [H2|[Hl2 H2]].
      * by eapply (fo_unique _ _ Hok).
      * apply list_lookup_singleton_Some in H2 as [_ ->]. exfalso. eapply (Hno k1 pc1); eauto. congruence.
      * apply list_lookup_singleton_Some in H1 as [_ ->]. exfalso. eapply (Hno k2 pc2); eauto. congruence.
      * apply list_lookup_singleton_Some in H1 as [? _], H2 as [? _]. lia.
  - intros j c Hk. destruct (Hlk j c Hk) as (c' & Hk' & m & -> & Hm & Hbit). exists (ch_set_frnd c m). split_and!; [done|done|done|].
    intros b Hin Hir. unfold kept_page. cbn. rewrite Hbit. destruct (friend_bit (ch_frnd c) b) eqn:Hfb; [done|].
    f_equal. unfold src_page. destruct (Hnew j b) as [He|(-> & He & pc & He' & Hpo & Hpd)].
    + rewrite He. destruct (newest_copy fam j b) as [pc|] eqn:En; cbn.
      * apply newest_copy_match in En as ((k & Hpk) & _). eapply pc_data_kept; [by eapply fo_copies|done|lia].
      * apply Hpg. intros ->. destruct (Hcov j c Hk Hin Hir) as [?|[? ?]]; congruence.
    + rewrite He, He'. cbn. rewrite (pc_data_kept par par' fam pc); [done|done|done|lia].
Qed.

(** The parent after one page of a write. *)
Definition page_written (m : mapping) (pos : Z) (bs : list Z) : mapping :=
  let idx := pos / PAGE_SIZE in
  let m1 := set_page m idx (file_page m idx) in
  let m2 := set_page m1 idx (page_write (file_page m1 idx) (pos mod PAGE_SIZE) bs) in
  (scorw_da_write_end io_ok m2 pos (Z.of_nat (length bs)) (Z.of_nat (length bs))).2.

(** The writer on a parent preserves what the write of each page preserves, and
    returns.  The block it raises the barrier on is always 0: the page offset
    of the position is shifted, not the position. *)
Lemma perform_write_loop_hooked {S} (h : par_hooks S) (P : mapping -> S -> Prop) (bound : Z) fuel m pos buf written st :
  (forall m st pos bs, P m st -> 0 <= pos -> Forall byte_ok bs -> bs <> [] ->
     pos mod PAGE_SIZE + Z.of_nat (length bs) <= PAGE_SIZE -> pos + Z.of_nat (length bs) <= bound ->
     exists st1 st2 st3, rb_begin h 0 st = Ok st1 /\
       wr_par h (i_size m) pos (Z.of_nat (length bs)) (bool_decide (is_Some (cache m !! (pos / PAGE_SIZE))))
         (file_page m (pos / PAGE_SIZE)) st1 = Ok st2 /\
       rb_end h 0 st2 = Ok st3 /\ P (page_written m pos bs) st3) ->
  P m st -> 0 <= pos -> pos + Z.of_nat (length buf) <= bound -> Forall byte_ok buf -> buf <> [] -> (length buf <= fuel)%nat ->
  exists m' st', perform_write_loop wenv_ok h true fuel m pos buf written st = Ok (written + Z.of_nat (length buf), m', st') /\ P m' st'.
Proof.
  intros Hstep. revert m pos buf written st. induction fuel as [|fuel IH]; intros m pos buf written st HP Hpos Hbd Hbs Hne Hf.
  { destruct buf; [done|simpl in Hf; lia]. }
  assert (0 < Z.of_nat (length buf)) as Hlen by (destruct buf; [done|simpl; lia]).
  cbn [perform_write_loop we_signal wenv_ok we_io we_copied]. rewrite land_page.
  replace (u32 (Z.shiftr (pos mod PAGE_SIZE) PAGE_SHIFT)) with 0
    by (rewrite shiftr_page, Z.div_small by (apply Z.mod_pos_bound; done); done).
  replace (u32 (Z.shiftr (i_size m - 1) PAGE_SHIFT) <? 0) with false
    by (symmetry; apply Z.ltb_ge; unfold u32; apply wrap_bound; lia).
  cbn [andb negb]. unfold scorw_da_write_begin. cbn [io_wbegin io_ok]. change (0 <? 0) with false. cbv iota zeta. rewrite shiftr_page.
  set (bytes := Z.min _ _). set (bs := take (Z.to_nat bytes) buf).
  assert (0 < bytes /\ pos mod PAGE_SIZE + bytes <= PAGE_SIZE /\ bytes <= Z.of_nat (length buf)) as (Hb1 & Hb2 & Hb3).
  { subst bytes. unfold PAGE_SIZE in *. Z.to_euclidean_division_equations. lia. }
  assert (Z.of_nat (length bs) = bytes) as Hbl by (subst bs; autorewrite with len; lia).
  destruct (Hstep m st pos bs HP Hpos) as (st1 & st2 & st3 & E1 & E2 & E3 & HP3);
    [by apply Forall_take|intros Hn; rewrite Hn in Hbl; simpl in Hbl; lia|lia|lia|].
  rewrite E1. cbn [mbind outcome_bind]. rewrite file_page_set_eq.
  change (i_size (set_page m (pos / PAGE_SIZE) (file_page m (pos / PAGE_SIZE)))) with (i_size m). rewrite Hbl in E2. rewrite E2.
  cbn [mbind outcome_bind]. unfold page_written in HP3. cbv zeta in HP3. rewrite file_page_set_eq, Hbl in HP3.
  match goal with |- context [scorw_da_write_end io_ok ?M pos bytes bytes] =>
    destruct (scorw_da_write_end io_ok M pos bytes bytes) as [status m3] eqn:E end.
  assert (status = bytes) as -> by (rewrite da_write_end_ok in E; congruence).
  cbn [snd] in HP3.
  rewrite E3. cbn [mbind outcome_bind]. rewrite (proj2 (Z.ltb_ge bytes 0)), (proj2 (Z.eqb_neq bytes 0)) by lia.
  assert (Z.of_nat (length (drop (Z.to_nat bytes) buf)) = Z.of_nat (length buf) - bytes) as Hdl by (autorewrite with len; lia).
  rewrite Hdl. destruct (Z.eqb_spec (Z.of_nat (length buf) - bytes) 0) as [Hz|Hz].
  - exists m3, st3. split; [|done]. do 3 f_equal. lia.
  - destruct (IH m3 (pos + bytes) (drop (Z.to_nat bytes) buf) (written + bytes) st3) as (m' & st' & -> & HP');
      [done|lia|lia|by apply Forall_drop|intros Hn; rewrite Hn in Hdl; simpl in Hdl; lia|lia|].
    exists m', st'. split; [|done]. do 3 f_equal. lia.
Qed.

Lemma page_written_spec m pos bs :
  mapping_wf m -> 0 <= pos -> Forall byte_ok bs -> pos mod PAGE_SIZE + Z.of_nat (length bs) <= PAGE_SIZE ->
  mapping_wf (page_written m pos bs) /\ disk (page_written m pos bs) = disk m /\
  i_size (page_written m pos bs) = Z.max (i_size m) (pos + Z.of_nat (length bs)) /\
  (forall i, i <> pos / PAGE_SIZE -> file_page (page_written m pos bs) i = file_page m i).
Proof.
  intros Hw Hpos Hbs Hle. destruct (write_page_effect m pos bs Hw Hpos Hbs Hle) as (Hw3 & Hs3 & _). cbv zeta in *.
  split_and!; [done| |done|].
  - unfold page_written. rewrite da_write_end_ok. cbn. by destruct (_ <? _).
  - intros i Hi. unfold page_written. cbv zeta. by rewrite da_write_end_page, !file_page_set_ne.
Qed.

(** ** Properties of a write to the parent *)

(** What every write keeps. *)
Definition family_inv (par : mapping) (fam : family) : Prop := fam_ok par fam /\ locks_free fam.

Lemma parent_write_kept par fam pos buf :
  family_inv par fam -> 0 <= pos -> pos + Z.of_nat (length buf) <= 2 ^ 43 -> Forall byte_ok buf -> buf <> [] ->
  exists par' fam', perform_write_loop wenv_ok (family_hooks kio_ok) true (length buf) par pos buf 0 fam =
      Ok (Z.of_nat (length buf), par', fam') /\ family_inv par' fam' /\ snap_kept par fam par' fam'.
Proof.
  intros [Hok Hlk] Hpos Hbd Hbs Hne.
  destruct (perform_write_loop_hooked (family_hooks kio_ok) (fun m st => family_inv m st /\ snap_kept par fam m st)
    (2 ^ 43) (length buf) par pos buf 0 fam) as (par' & fam' & Hr & Hinv & Hk); auto; [|split; [done|apply snap_kept_refl]|].
  - clear pos buf Hpos Hbd Hbs Hne. intros m st pos bs [[Hm Hl] Hkept] Hpos Hbs Hne Hle Hbd.
    assert (0 < Z.of_nat (length bs)) by (destruct bs; [done|simpl; lia]).
    destruct (family_barrier 0 st Hl) as (l & Hb & He). cbn [family_hooks rb_begin rb_end wr_par]. rewrite Hb. cbn [mbind outcome_bind].
    set (st1 := fa_set_locks st l). pose proof (fam_ok_set_locks m st l Hm) as Hm1. fold st1 in Hm1.
    destruct (write_par_spec m st1 pos (Z.of_nat (length bs)) Hm1) as (st2 & Hwp & Hl2 & Hv2 & Hi2 & Hk2 & Hg2 & Hc2); [lia|lia|].
    destruct (He (fa_kids st2)) as (l' & Hel & Hfree & _).
    { apply Hk2. }
    { intros j k Hj. destruct k as [c|].
      - destruct Hk2 as (_ & _ & Hk2). destruct (Hk2 j c) as (c' & Hc' & _); [by apply kid_lookup|]. apply kid_lookup in Hc'.
        exists (Some c'). by split.
      - destruct Hk2 as (_ & Hk2 & _). exists None. split; [by apply Hk2|done]. }
    exists st1, st2, (fa_set_locks st2 l'). split; [done|]. split; [done|]. rewrite Hl2. cbn [fa_set_locks fa_locks st1].
    rewrite Hel. split; [done|].
    destruct (page_written_spec m pos bs (fo_par _ _ Hm) Hpos Hbs Hle) as (Hw' & Hd' & Hs' & Hp').
    pose proof (fo_psize _ _ Hm).
    destruct (par_page_kept m st1 (page_written m pos bs) (fa_set_locks st2 l') (pos / PAGE_SIZE)) as [Hok' Hk']; auto; [lia|].
    split; [split; [done|done]|]. eapply snap_kept_trans; [exact Hkept|]. exact Hk'.
  - exists par', fam'. done.
Qed.

(** ** Lemmas: the locks of one child *)

Definition same_shape (kids kids' : list (option child)) : Prop := Forall2 (fun k k' => k = None <-> k' = None) kids kids'.

(** The active map of a child in which exactly the blocks of [hs] are held. *)
Definition map_holds (pt : Z) (hs : Z -> bool) (t : table) : Prop :=
  table_wf t /\ forall b, scorw_find_uncopied_block_list t b = if hs b then Some (new_block b pt) else None.
Definition locks_hold (kids : list (option child)) (l : barrier_state) (j : nat) (pt : Z) (hs : Z -> bool) : Prop :=
  Forall2 (fun k o => k = None <-> o = None) kids (bs_children l) /\
  forall i bc, bs_children l !! i = Some (Some bc) -> if decide (i = j) then map_holds pt hs (bc_table bc) else map_free (bc_table bc).

Lemma locks_free_hold kids l j pt :
  Forall2 kid_bar kids (bs_children l) <-> locks_hold kids l j pt (fun _ => false).
Proof.
  split.
  - intros Hf. split; [eapply Forall2_impl; [exact Hf|by intros ?? [? _]]|]. intros i bc Hi.
    destruct (Forall2_lookup_r _ _ _ _ _ Hf Hi) as (k & _ & _ & Hfree). by case_decide.
  - intros [Hs Hf]. apply Forall2_same_length_lookup in Hs as [Hl Hs]. apply Forall2_same_length_lookup. split; [done|].
    intros i k o Hk Ho. split; [by eapply Hs|]. destruct o as [bc|]; [|done]. specialize (Hf i bc Ho). by case_decide.
Qed.

Lemma locks_hold_ext kids kids' l j pt hs hs' :
  locks_hold kids l j pt hs -> same_shape kids kids' -> (forall b, hs b = hs' b) -> locks_hold kids' l j pt hs'.
Proof.
  intros [Hs Hf] Hsh He. apply Forall2_same_length_lookup in Hs as [Hl Hs]. apply Forall2_same_length_lookup in Hsh as [Hl' Hsh]. split.
  - apply Forall2_same_length_lookup. split; [lia|]. intros i k o Hk Ho.
    destruct (lookup_lt_is_Some_2 kids i) as [k0 Hk0]; [rewrite Hl'; by eapply lookup_lt_Some|].
    rewrite <- (Hsh i k0 k Hk0 Hk). by eapply Hs.
  - intros i bc Hi. specialize (Hf i bc Hi). case_decide; [|done]. destruct Hf as [Hw Hf]. split; [done|]. intros b. by rewrite <- He.
Qed.

Lemma same_shape_refl kids : same_shape kids kids.
Proof. unfold same_shape. by apply Forall2_same_length_lookup; split; [|intros i k k' ??; simplify_eq]. Qed.

Lemma same_shape_set fam j c0 c : kid fam j = Some c0 -> same_shape (fa_kids fam) (<[j := Some c]> (fa_kids fam)).
Proof.
  intros Hk%kid_lookup. apply Forall2_same_length_lookup. split; [by rewrite length_insert|]. intros i k k' Hi Hi'.
  rewrite list_lookup_insert in Hi'. case_decide as Hd; [destruct Hd as [-> _]|]; by simplify_eq.
Qed.

Lemma hold_kid_map fam j c pt hs :
  locks_hold (fa_kids fam) (fa_locks fam) j pt hs -> kid fam j = Some c ->
  exists bc, kid_map fam j = Some bc /\ bs_children (fa_locks fam) !! j = Some (Some bc) /\ map_holds pt hs (bc_table bc).
Proof.
  intros [Hs Hf] Hk%kid_lookup. destruct (Forall2_lookup_l _ _ _ _ _ Hs Hk) as (o & Ho & Hn). destruct o as [bc|]; [|naive_solver].
  exists bc. unfold kid_map. rewrite Ho. split_and!; [done|done|]. specialize (Hf j bc Ho). by rewrite decide_True in Hf.
Qed.

Lemma hold_set_map fam j bc t pt hs hs' :
  locks_hold (fa_kids fam) (fa_locks fam) j pt hs -> bs_children (fa_locks fam) !! j = Some (Some bc) -> map_holds pt hs' t ->
  locks_hold (fa_kids fam) (fa_locks (set_kid_map fam j bc t)) j pt hs'.
Proof.
  intros [Hs Hf] Hj Hm. split; cbn.
  - apply Forall2_same_length_lookup in Hs as [Hl Hs]. apply Forall2_same_length_lookup.
    split; [by rewrite length_insert|]. intros i k o Hk Ho. rewrite list_lookup_insert in Ho.
    case_decide as Hd; [destruct Hd as [-> _]; simplify_eq; by rewrite (Hs i k _ Hk Hj)|by eapply Hs].
  - intros i b Hi. rewrite list_lookup_insert in Hi. case_decide as Hd.
    + destruct Hd as [-> _]. simplify_eq. by rewrite decide_True.
    + specialize (Hf i b Hi). case_decide as Hij; [|done]. subst. destruct Hd. split; [done|by eapply lookup_lt_Some].
Qed.

Lemma kid_get_hold fam j c b pt hs :
  locks_hold (fa_kids fam) (fa_locks fam) j pt hs -> kid fam j = Some c -> hs b = false ->
  exists l, kid_get kio_ok fam j b pt = Ok (fa_set_locks fam l) /\
    locks_hold (fa_kids fam) l j pt (fun x => bool_decide (x = b) || hs x).
Proof.
  intros Hl Hk Hb. destruct (hold_kid_map _ _ _ _ _ Hl Hk) as (bc & Hm & Hj & Hw & Hf). unfold kid_get. rewrite Hm.
  cbn [k_mem kio_ok]. rewrite get_free by (by rewrite Hf, Hb). eexists. split; [done|].
  eapply (hold_set_map fam); [done|done|]. destruct (get_free_spec (bc_table bc) b pt Hw) as [Hw' Hf']; [by rewrite Hf, Hb|].
  split; [done|]. intros x. rewrite Hf', Hf. case_decide; subst; [by rewrite bool_decide_true|by rewrite bool_decide_false by done].
Qed.

Lemma kid_put_hold fam j c b pt hs :
  is_type pt -> locks_hold (fa_kids fam) (fa_locks fam) j pt hs -> kid fam j = Some c -> hs b = true ->
  exists l, kid_put fam j b pt = Ok (fa_set_locks fam l) /\
    locks_hold (fa_kids fam) l j pt (fun x => negb (bool_decide (x = b)) && hs x).
Proof.
  intros Ht Hl Hk Hb. destruct (hold_kid_map _ _ _ _ _ Hl Hk) as (bc & Hm & Hj & Hw & Hf). unfold kid_put. rewrite Hm.
  eexists. split; [done|]. eapply (hold_set_map fam); [done|done|].
  destruct (put_remove (bc_table bc) b pt Hw Ht) as [Hw' Hf']; [by rewrite Hf, Hb|].
  split; [done|]. intros x. rewrite Hf', Hf. case_decide; subst; [by rewrite bool_decide_true|by rewrite bool_decide_false by done].
Qed.

(** ** Lemmas: handing out a page copy *)

(** The page of every block a child was made with is the same in both states. *)
Definition views_kept (par : mapping) (fam : family) (par' : mapping) (fam' : family) : Prop :=
  forall j c, kid fam j = Some c -> exists c', kid fam' j = Some c' /\
    ch_copy_size c' = ch_copy_size c /\ ch_ranges c' = ch_ranges c /\
    forall b, in_snapshot c b -> kept_page par' fam' j c' b = kept_page par fam j c b.

Lemma views_kept_snap par fam par' fam' : views_kept par fam par' fam' -> snap_kept par fam par' fam'.
Proof. intros Hv j c Hk. destruct (Hv j c Hk) as (c' & ? & ? & ? & ?). exists c'. split_and!; auto. Qed.

Lemma views_kept_trans par1 fam1 par2 fam2 par3 fam3 :
  views_kept par1 fam1 par2 fam2 -> views_kept par2 fam2 par3 fam3 -> views_kept par1 fam1 par3 fam3.
Proof.
  intros H1 H2 j c Hk. destruct (H1 j c Hk) as (c' & Hk' & Hs' & Hr' & Hv'). destruct (H2 j c' Hk') as (c'' & Hk'' & Hs'' & Hr'' & Hv'').
  exists c''. split_and!; [done|congruence|congruence|]. intros b Hb. rewrite <- Hv' by done. apply Hv''.
  unfold in_snapshot in *. by rewrite Hs'.
Qed.

(** A child file with a block written whole. *)
Definition block_put (m m' : mapping) (b : Z) (p : page) : Prop :=
  mapping_wf m' /\ forall i, file_page m' i = if decide (i = b) then p else file_page m i.

Lemma block_put_intro m b p len :
  mapping_wf m -> page_wf p -> 0 <= b -> 0 <= len ->
  let m1 := set_page (set_page m b (file_page m b)) b p in
  block_put m (scorw_da_write_end io_ok m1 (Z.shiftl b PAGE_SHIFT) len len).2 b p.
Proof.
  intros Hw Hp Hb Hl m1. split.
  - apply da_write_end_wf; [unfold m1; auto with scorw|].
    pose proof (proj2 (Z.shiftl_nonneg b PAGE_SHIFT) Hb). lia.
  - intros i. rewrite da_write_end_page. unfold m1. rewrite !file_page_set.
    destruct (decide (b = i)) as [->|Hne]; [by rewrite decide_True|by rewrite decide_False by congruence].
Qed.

Lemma copy_len c b :
  0 < ch_copy_size c <= 2 ^ 32 -> in_snapshot c b ->
  u32 (Z.shiftl b PAGE_SHIFT) = Z.shiftl b PAGE_SHIFT /\
  u64 (ch_copy_size c - Z.shiftl b PAGE_SHIFT) = ch_copy_size c - b * PAGE_SIZE /\ 0 < ch_copy_size c - b * PAGE_SIZE.
Proof.
  intros Hs [Hb Hlt]. change (2 ^ 32) with 4294967296 in *. rewrite Z.shiftl_mul_pow2 by done. change (2 ^ PAGE_SHIFT) with PAGE_SIZE.
  unfold PAGE_SIZE in *. rewrite u32_small by (change (2 ^ 32) with 4294967296; lia).
  rewrite u64_small by (change (2 ^ 64) with 18446744073709551616; lia). split_and!; lia.
Qed.

Lemma copy_from_page_copy_spec par fam pc j c :
  pc_ok par fam pc -> kid_ok par fam j c -> in_snapshot c (pc_block_num pc) ->
  exists m', scorw_copy_page_from_page_copy kio_ok par pc c =
      Ok (0, PageCopy (pc_block_num pc) (pc_par pc) (Some (pc_data par pc)) (is_target_child pc), ch_set_file c m') /\
    block_put (ch_file c) m' (pc_block_num pc) (zero_tail (pc_data par pc) (ch_copy_size c - pc_block_num pc * PAGE_SIZE)).
Proof.
  intros Hp Hk Hin. pose proof (ko_size _ _ _ _ Hk) as Hs. destruct (copy_len c _ Hs Hin) as (Hu & Hl & Hpos).
  unfold scorw_copy_page_from_page_copy. rewrite Hu, Hl. set (left := ch_copy_size c - pc_block_num pc * PAGE_SIZE) in *.
  set (len := if PAGE_SIZE <=? left then PAGE_SIZE else left).
  assert (0 < len) as Hlen by (subst len; by destruct (PAGE_SIZE <=? left)).
  rewrite (proj2 (Z.leb_gt len 0)) by done.
  assert (match data_page pc with
          | Some p => Ok p
          | None => _ ← BUG_ON (negb (io_alloc (k_par kio_ok))); _ ← BUG_ON (negb (io_read (k_par kio_ok))); Ok (read_block par (pc_block_num pc))
          end = Ok (pc_data par pc)) as -> by (unfold pc_data; by destruct (data_page pc)).
  cbn [mbind outcome_bind]. unfold scorw_da_write_begin. cbn [io_wbegin io_ok k_child kio_ok]. change (0 <? 0) with false. cbv iota zeta.
  rewrite Z.shiftr_shiftl_r, Z.sub_diag, Z.shiftr_0_r by done. eexists. split; [done|].
  replace (zero_tail (pc_data par pc) left) with (zero_tail (pc_data par pc) len) by (apply zero_tail_clip, Hp).
  apply block_put_intro; [apply Hk|apply zero_tail_wf, Hp|apply Hin|lia].
Qed.

(** ** Lemmas: updating one child *)

(** A page copy that has been loaded from disk at most. *)
Definition pc_same (par : mapping) (pc pc' : page_copy) : Prop :=
  pc_block_num pc' = pc_block_num pc /\ pc_par pc' = pc_par pc /\ is_target_child pc' = is_target_child pc /\
  pc_data par pc' = pc_data par pc /\ (data_page pc' = None -> data_page pc = None).

(** A parent of which pages have been brought into the cache at most. *)
Definition par_same (par par' : mapping) : Prop :=
  mapping_wf par' /\ i_size par' = i_size par /\ disk par' = disk par /\ forall i, file_page par' i = file_page par i.

Lemma par_same_refl par : mapping_wf par -> par_same par par.
Proof. done. Qed.

Lemma pc_same_refl par l : Forall2 (pc_same par) l l.
Proof. induction l; constructor; [|done]. by repeat split. Qed.

Lemma find_newest_same par t l l' :
  (forall pc pc', pc_same par pc pc' -> t pc' = t pc) -> Forall2 (pc_same par) l l' -> find_newest t l' = find_newest t l.
Proof. intros Ht. induction 1 as [|pc pc' l l' Hp _ IH]; [done|]. cbn. by rewrite IH, (Ht _ _ Hp). Qed.

Lemma pc_matches_same par b ino i pc pc' : pc_same par pc pc' -> pc_matches b ino i pc' = pc_matches b ino i pc.
Proof. intros (Hb & Hp & Ht & _). unfold pc_matches, target_flag. by rewrite Hb, Hp, Ht. Qed.

(** The identity of a child, which no operation changes. *)
Definition same_child (c c' : child) : Prop :=
  ch_ino c' = ch_ino c /\ ch_at_index c' = ch_at_index c /\ ch_copy_size c' = ch_copy_size c /\ ch_ranges c' = ch_ranges c.

Lemma src_page_update par fam par' fam' i b :
  fam_ok par fam -> par_same par par' -> fa_ino fam' = fa_ino fam -> Forall2 (pc_same par) (fa_copies fam) (fa_copies fam') ->
  src_page par' fam' i b = src_page par fam i b.
Proof.
  intros Hok (Hw & Hs & Hd & Hp) Hi Hc. unfold src_page, newest_copy. rewrite Hi.
  rewrite (find_newest_same par _ (fa_copies fam) (fa_copies fam')) by (eauto using pc_matches_same).
  destruct (find_newest _ _) as [k|] eqn:E; [|apply Hp]. cbn. apply find_newest_Some in E as (pc & Hk & _).
  destruct (Forall2_lookup_l _ _ _ _ _ Hc Hk) as (pc' & Hk' & Hsame). rewrite Hk, Hk'. cbn.
  destruct Hsame as (_ & _ & _ & Hdata & _). rewrite <- Hdata. unfold pc_data, read_block, disk_page. by rewrite Hs, Hd.
Qed.

Lemma family_update par fam j c par' fam' c' :
  fam_ok par fam -> kid fam j = Some c -> par_same par par' -> fa_kids fam' = <[j := Some c']> (fa_kids fam) ->
  fa_ino fam' = fa_ino fam -> Forall2 (pc_same par) (fa_copies fam) (fa_copies fam') ->
  (forall i, vc_ready (fa_vw fam) i -> vc_ready (fa_vw fam') i) ->
  same_child c c' -> friend_wf (ch_frnd c') -> mapping_wf (ch_file c') ->
  fam_ok par' fam'.
Proof.
  intros Hok Hk (Hw & Hs & Hd & Hp) Hkids Hi Hc Hv (E1 & E2 & E3 & E4) Hf Hm.
  assert (forall i, kid fam' i = if decide (j = i) then Some c' else kid fam i) as Hkid.
  { intros i. rewrite <- (kid_set fam j c c' i Hk). unfold kid. by rewrite Hkids. }
  split.
  - done.
  - rewrite Hs. apply Hok.
  - rewrite Hkids, length_insert. apply Hok.
  - intros i ci Hci. rewrite Hkid in Hci. case_decide; simplify_eq.
    + destruct (fo_kids _ _ Hok _ _ Hk). split; try congruence. rewrite E1. auto.
    + destruct (fo_kids _ _ Hok _ _ Hci). split; auto. by rewrite Hs.
  - intros k pc' Hpc'. destruct (Forall2_lookup_r _ _ _ _ _ Hc Hpc') as (pc & Hpc & Hb & Hpar & _ & Hdata & Hcold).
    destruct (fo_copies _ _ Hok _ _ Hpc). split.
    + by rewrite Hb.
    + congruence.
    + replace (pc_data par' pc') with (pc_data par pc') by (unfold pc_data, read_block, disk_page; by rewrite Hs, Hd). by rewrite Hdata.
    + intros E. rewrite Hb, Hs. auto.
  - intros k1 k2 pc1 pc2 i H1 H2 Hb Ht1 Ht2.
    destruct (Forall2_lookup_r _ _ _ _ _ Hc H1) as (q1 & Hq1 & Hb1 & _ & T1 & _), (Forall2_lookup_r _ _ _ _ _ Hc H2) as (q2 & Hq2 & Hb2 & _ & T2 & _).
    unfold target_flag in *. eapply (fo_unique _ _ Hok k1 k2 q1 q2 i); auto; unfold target_flag; congruence.
Qed.

(** A change of one child that keeps its view keeps every view. *)
Lemma views_update par fam j c par' fam' c' :
  fam_ok par fam -> kid fam j = Some c -> par_same par par' -> fa_kids fam' = <[j := Some c']> (fa_kids fam) ->
  fa_ino fam' = fa_ino fam -> Forall2 (pc_same par) (fa_copies fam) (fa_copies fam') -> same_child c c' ->
  (forall b, in_snapshot c b -> kept_page par' fam' j c' b = kept_page par fam j c b) ->
  views_kept par fam par' fam'.
Proof.
  intros Hok Hk Hp Hkids Hi Hc (E1 & E2 & E3 & E4) Hv i ci Hci.
  assert (kid fam' i = if decide (j = i) then Some c' else kid fam i) as Hkid.
  { rewrite <- (kid_set fam j c c' i Hk). unfold kid. by rewrite Hkids. }
  case_decide; subst.
  - simplify_eq. exists c'. by split_and!.
  - exists ci. rewrite Hkid. split_and!; auto. intros b _. unfold kept_page. by rewrite (src_page_update par fam).
Qed.

Lemma block_num_width pc par fam : pc_ok par fam pc -> s32 (pc_block_num pc) = pc_block_num pc /\ u32 (pc_block_num pc) = pc_block_num pc.
Proof.
  intros [Hb _ _ _]. change (2 ^ 31) with 2147483648 in Hb. split; [apply s32_small|apply u32_small].
  - change (2 ^ 31) with 2147483648. lia.
  - change (2 ^ 32) with 4294967296. lia.
Qed.

Lemma eligible_spec c b : 0 <= b -> (Z.shiftr (ch_copy_size c - 1) PAGE_SHIFT <? b) = false <-> in_snapshot c b.
Proof.
  intros Hb. rewrite Z.ltb_ge, shiftr_page. unfold in_snapshot, PAGE_SIZE. Z.to_euclidean_division_equations. lia.
Qed.

(** What the thread leaves of child [j]. *)
Record kid_served (par : mapping) (fam : family) (pc : page_copy) (rest : list page_copy) (j : nat) (fam' : family) : Prop := {
  ks_inv : family_inv par fam';
  ks_views : views_kept par fam par fam';
  ks_copies : exists pc', fa_copies fam' = pc' :: rest /\ pc_same par pc pc';
  ks_others : length (fa_kids fam') = length (fa_kids fam) /\ forall i, i <> j -> kid fam' i = kid fam i;
  ks_done : forall c', kid fam' j = Some c' -> target_flag pc j = true -> in_snapshot c' (pc_block_num pc) ->
    friend_bit (ch_frnd c') (pc_block_num pc) = true
}.

Lemma kid_served_idle par fam pc rest j :
  family_inv par fam -> fa_copies fam = pc :: rest ->
  (forall c, kid fam j = Some c -> target_flag pc j = true -> in_snapshot c (pc_block_num pc) -> False) ->
  kid_served par fam pc rest j fam.
Proof.
  intros Hinv Hc Hno. split; auto.
  - intros i c Hk. by exists c.
  - exists pc. split; [done|]. by repeat split.
  - intros c Hk Ht Hin. by destruct (Hno c Hk Ht Hin).
Qed.

(** Copying the block and marking it leaves the view of the child as it was. *)
Lemma copied_view par fam j pc rest c c' fam' m' :
  fam_ok par fam -> fa_copies fam = pc :: rest -> target_flag pc j = true -> kid fam j = Some c ->
  friend_bit (ch_frnd c) (pc_block_num pc) = false ->
  block_put (ch_file c) m' (pc_block_num pc) (zero_tail (pc_data par pc) (ch_copy_size c - pc_block_num pc * PAGE_SIZE)) ->
  ch_file c' = m' -> ch_copy_size c' = ch_copy_size c ->
  (forall b, 0 <= b -> friend_bit (ch_frnd c') b = bool_decide (b = pc_block_num pc) || friend_bit (ch_frnd c) b) ->
  (forall i b, src_page par fam' i b = src_page par fam i b) ->
  forall b, in_snapshot c b -> kept_page par fam' j c' b = kept_page par fam j c b.
Proof.
  intros Hok Hc Ht Hk Hfb [_ Hput] Hf Hs Hbit Hsrc b [Hb _]. unfold kept_page. rewrite Hbit by done.
  case_bool_decide as Hd; cbn [orb].
  - subst b. rewrite Hfb, Hf, Hput, decide_True by done. unfold src_page, newest_copy.
    rewrite (newest_copy_intro par fam j (pc_block_num pc) 0 pc Hok) by (by rewrite ?Hc). rewrite Hc. done.
  - rewrite Hf, Hput, decide_False, Hs, Hsrc by done. done.
Qed.

(** What is left once the block is done: release the lock. *)
Lemma kid_served_release par fam pc rest j c l1 fam4 c4 pc' :
  fam_ok par fam -> fa_copies fam = pc :: rest -> kid fam j = Some c ->
  locks_hold (fa_kids fam) l1 j COPYING_EXCL (fun y => bool_decide (y = pc_block_num pc) || false) ->
  fa_kids fam4 = <[j := Some c4]> (fa_kids fam) -> fa_locks fam4 = l1 -> fa_ino fam4 = fa_ino fam ->
  fa_copies fam4 = pc' :: rest -> pc_same par pc pc' -> (forall i, vc_ready (fa_vw fam) i -> vc_ready (fa_vw fam4) i) ->
  same_child c c4 -> friend_wf (ch_frnd c4) -> mapping_wf (ch_file c4) ->
  (forall b, in_snapshot c b -> kept_page par fam4 j c4 b = kept_page par fam j c b) ->
  friend_bit (ch_frnd c4) (pc_block_num pc) = true ->
  exists fam', kid_put fam4 j (pc_block_num pc) COPYING_EXCL = Ok fam' /\ kid_served par fam pc rest j fam'.
Proof.
  intros Hok Hc Hk Hl1 Hkids Hl4 Hi4 Hc4 Hpc4 Hv4 Hs4 Hf4 Hm4 Hview Hbit. set (blk := pc_block_num pc) in *.
  assert (same_shape (fa_kids fam) (fa_kids fam4)) as Hsh by (rewrite Hkids; by eapply same_shape_set).
  assert (forall i, kid fam4 i = if decide (j = i) then Some c4 else kid fam i) as Hkid.
  { intros i. rewrite <- (kid_set fam j c c4 i Hk). unfold kid. by rewrite Hkids. }
  assert (Forall2 (pc_same par) (fa_copies fam) (fa_copies fam4)) as Hcs
    by (rewrite Hc, Hc4; constructor; [done|apply pc_same_refl]).
  assert (locks_hold (fa_kids fam4) (fa_locks fam4) j COPYING_EXCL (fun y => bool_decide (y = blk) || false)) as Hl
    by (rewrite Hl4; by eapply locks_hold_ext).
  destruct (kid_put_hold fam4 j c4 blk COPYING_EXCL _ (or_intror (or_intror eq_refl)) Hl) as (l' & -> & Hl');
    [by rewrite Hkid, decide_True|by rewrite bool_decide_true|].
  eexists. split; [done|]. split.
  - split.
    + eapply (family_update par fam j c par _ c4); eauto. by apply par_same_refl, Hok.
    + apply (locks_free_hold _ _ j COPYING_EXCL). eapply locks_hold_ext; [exact Hl'|apply same_shape_refl|].
      intros y. cbv beta. by case_bool_decide.
  - eapply (views_update par fam j c par _ c4); eauto. by apply par_same_refl, Hok.
  - by exists pc'.
  - cbn. rewrite Hkids, length_insert. split; [done|]. intros i Hi. change (kid fam4 i = kid fam i). by rewrite Hkid, decide_False.
  - intros c' Hk' _ _. change (kid fam4 j = Some c') in Hk'. rewrite Hkid, decide_True in Hk' by done. by simplify_eq.
Qed.

Lemma page_copy_to_kid_spec par fam pc rest j :
  family_inv par fam -> fa_copies fam = pc :: rest ->
  exists fam', page_copy_to_kid kio_ok par j fam = Ok fam' /\ kid_served par fam pc rest j fam'.
Proof.
  intros [Hok Hfree] Hc. unfold page_copy_to_kid. rewrite Hc.
  assert (pc_ok par fam pc) as Hpc by (apply (fo_copies _ _ Hok O); by rewrite Hc).
  destruct (block_num_width pc par fam Hpc) as [-> ->]. pose proof (po_block _ _ _ Hpc) as Hblk.
  set (blk := pc_block_num pc) in *.
  destruct (kid fam j) as [c|] eqn:Hk.
  2: { eexists. split; [done|]. apply kid_served_idle; [done|done|]. intros c' Hk'. congruence. }
  destruct (target_flag pc j) eqn:Ht; cbn [negb].
  2: { eexists. split; [done|]. apply kid_served_idle; [done|done|]. intros. congruence. }
  destruct (Z.shiftr (ch_copy_size c - 1) PAGE_SHIFT <? blk) eqn:He.
  { eexists. split; [done|]. apply kid_served_idle; [done|done|]. intros c' Hk' _ Hin. simplify_eq.
    fold blk in Hin. apply eligible_spec in Hin; [congruence|lia]. }
  apply eligible_spec in He; [|lia]. pose proof (fo_kids _ _ Hok _ _ Hk) as Hko.
  apply (locks_free_hold _ _ j COPYING_EXCL) in Hfree.
  destruct (kid_get_hold fam j c blk COPYING_EXCL _ Hfree Hk eq_refl) as (l1 & -> & Hl1). cbn [mbind outcome_bind].
  unfold kid_copied. cbn [k_frnd kio_ok].
  destruct (block_copied_looked_up (ch_frnd c) blk c (ko_frnd _ _ _ _ Hko) eq_refl) as (x & m & -> & Hx & Hlk). rewrite Hx.
  destruct Hlk as (m0 & Hm0 & Hwm & Hbm). assert (m0 = m) as -> by (by injection Hm0 as ->). clear Hm0.
  set (c2 := ch_set_frnd c m). set (fam1 := fa_set_locks fam l1).
  assert (kid fam1 j = Some c) as Hk1 by done.
  pose proof (fun fam4 c4 pc' => kid_served_release par fam pc rest j c l1 fam4 c4 pc' Hok Hc Hk Hl1) as Hfinish.
  destruct (friend_bit (ch_frnd c) blk) eqn:Hfb; cbn [negb].
  - cbn [mbind outcome_bind]. apply (Hfinish _ c2 pc); auto; [by repeat split|by repeat split|apply Hko| |cbn; by rewrite Hbm].
    intros b _. unfold kept_page. cbn [c2 ch_frnd ch_set_frnd ch_file ch_copy_size]. rewrite Hbm. done.
  - destruct (first_write_ready (fa_vw fam) (ch_ino c)) as (w & Hw & Hwr); [apply Hko|].
    cbn [fa_set_kid fa_set_kids fa_vw fam1 fa_set_locks c2 ch_set_frnd ch_ino]. rewrite Hw. cbn [mbind outcome_bind].
    assert (kid_ok par fam j c2) as Hko2 by (destruct Hko; by split).
    destruct (copy_from_page_copy_spec par fam pc j c2 Hpc Hko2 He) as (m' & Hcp & Hput). fold c2. rewrite Hcp.
    cbn [mbind outcome_bind]. change (0 =? 0) with true. cbv iota. cbn [ch_frnd ch_set_file c2 ch_set_frnd].
    destruct (scorw_set_block_copied_ok m blk) as [m2 Hsb]. rewrite Hsb. cbn [mbind outcome_bind].
    destruct (scorw_set_block_copied_spec io_ok m blk m2 Hwm) as [Hw2 Hb2]; [lia|done|].
    eapply (Hfinish _ _ (PageCopy (pc_block_num pc) (pc_par pc) (Some (pc_data par pc)) (is_target_child pc))).
    + cbn. by rewrite list_insert_insert_eq.
    + done.
    + done.
    + done.
    + repeat split. done.
    + exact Hwr.
    + by repeat split.
    + done.
    + apply Hput.
    + eapply (copied_view par fam j pc rest c _ _ m'); eauto.
      * intros b Hb. cbn. rewrite Hb2 by done. by rewrite Hbm.
      * intros i b. apply src_page_update; auto; [by apply par_same_refl, Hok|]. cbn. rewrite Hc.
        constructor; [|apply pc_same_refl]. by repeat split.
    + cbn. rewrite Hb2 by lia. by rewrite bool_decide_true.
Qed.

Lemma pc_same_trans par pc1 pc2 pc3 : pc_same par pc1 pc2 -> pc_same par pc2 pc3 -> pc_same par pc1 pc3.
Proof. intros (? & ? & ? & ? & ?) (? & ? & ? & ? & ?). split_and!; try congruence. auto. Qed.

Lemma thread_loop_spec par fam pc rest n :
  family_inv par fam -> fa_copies fam = pc :: rest ->
  exists fam', for_each (seq 0 n) (page_copy_to_kid kio_ok par) fam = Ok fam' /\ family_inv par fam' /\
    views_kept par fam par fam' /\ (exists pc', fa_copies fam' = pc' :: rest /\ pc_same par pc pc') /\
    length (fa_kids fam') = length (fa_kids fam) /\
    (forall j c', (j < n)%nat -> kid fam' j = Some c' -> target_flag pc j = true -> in_snapshot c' (pc_block_num pc) ->
      friend_bit (ch_frnd c') (pc_block_num pc) = true).
Proof.
  intros Hinv Hc. induction n as [|n (fam1 & Hr & Hinv1 & Hv1 & (pc1 & Hc1 & Hs1) & Hl1 & Hd1)].
  - exists fam. split_and!; auto; [|by exists pc; split; [|by repeat split]|lia]. intros j c Hk. by exists c.
  - rewrite seq_S, for_each_app, Hr. cbn [Nat.add mbind outcome_bind for_each].
    destruct (page_copy_to_kid_spec par fam1 pc1 rest n Hinv1 Hc1) as (fam2 & -> & [Hinv2 Hv2 (pc2 & Hc2 & Hs2) [Hl2 Ho2] Hd2]).
    exists fam2. cbn [mbind outcome_bind]. pose proof Hs1 as (Hb1 & _ & Ht1 & _ & _).
    split_and!; auto; [by eapply views_kept_trans|exists pc2; split; [done|by eapply pc_same_trans]|lia|].
    intros j c' Hj Hk Ht Hin. destruct (decide (j = n)) as [->|Hne].
    + rewrite <- Hb1. apply Hd2; [done|unfold target_flag in *; by rewrite Ht1|by rewrite Hb1].
    + eapply (Hd1 j); auto; [lia|]. by rewrite <- Ho2.
Qed.

(** Dropping the page copy at the head once every child it is for has its block. *)
Lemma unprepare_kept par fam pc rest :
  family_inv par fam -> fa_copies fam = pc :: rest ->
  (forall j c, kid fam j = Some c -> target_flag pc j = true -> in_snapshot c (pc_block_num pc) ->
     friend_bit (ch_frnd c) (pc_block_num pc) = true) ->
  family_inv par (scorw_unprepare_page_copy fam) /\ views_kept par fam par (scorw_unprepare_page_copy fam).
Proof.
  intros [Hok Hl] Hc Hd. unfold scorw_unprepare_page_copy. rewrite Hc. cbn [tail]. split; [split|].
  - destruct Hok as [? ? ? Hk Hpc Hu]. split; cbn; auto.
    + intros j c Hj. destruct (Hk j c Hj). by split.
    + intros k pc' Hk'. destruct (Hpc (S k) pc'); [by rewrite Hc|]. by split.
    + intros k1 k2 pc1 pc2 j H1 H2 Hb Ht1 Ht2. assert (S k1 = S k2); [|lia].
      eapply (Hu (S k1) (S k2) pc1 pc2 j); auto; by rewrite Hc.
  - done.
  - intros j c Hk. exists c. split_and!; auto. intros b Hin. unfold kept_page.
    destruct (friend_bit (ch_frnd c) b) eqn:Hfb; [done|]. f_equal. unfold src_page, newest_copy. cbn. rewrite Hc. cbn.
    destruct (find_newest _ rest) as [k|] eqn:E; [done|]. destruct (pc_matches _ _ _ pc) eqn:Em; [|done].
    unfold pc_matches in Em. rewrite Nat2Z.id in Em. apply andb_true_iff in Em as [[Eb%Z.eqb_eq _]%andb_true_iff Et]. subst b.
    by rewrite (Hd j c Hk Et Hin) in Hfb.
Qed.

Lemma thread_step_kept par fam :
  family_inv par fam ->
  exists fam', scorw_page_copy_thread_step kio_ok par fam = Ok fam' /\ family_inv par fam' /\ views_kept par fam par fam' /\
    length (fa_copies fam') = pred (length (fa_copies fam)).
Proof.
  intros Hinv. unfold scorw_page_copy_thread_step. destruct (fa_copies fam) as [|pc rest] eqn:Hc.
  - exists fam. rewrite Hc. split_and!; auto. intros j c Hk. by exists c.
  - destruct (thread_loop_spec par fam pc rest (length (fa_kids fam)) Hinv Hc) as (fam1 & -> & Hinv1 & Hv1 & (pc1 & Hc1 & Hs1) & Hl1 & Hd1).
    cbn [mbind outcome_bind]. pose proof Hs1 as (Hb1 & _ & Ht1 & _ & _).
    destruct (unprepare_kept par fam1 pc1 rest Hinv1 Hc1) as [Hinv2 Hv2].
    { intros j c Hk Ht Hin. rewrite Hb1 in *. eapply Hd1; eauto.
      - apply kid_lookup, lookup_lt_Some in Hk. lia.
      - unfold target_flag in *. by rewrite <- Ht1. }
    eexists. split; [done|]. split_and!; [done|by eapply views_kept_trans|]. cbn. by rewrite Hc1.
Qed.

End page_copy.
