(* ===== verification/ChildWrite.v ===== *)
(** Copy-on-write between a parent and its children, the child's side: the
    preparation, the data and the end of a write of a child
    ([scorw_write_child_blocks_begin], [scorw_write_child_blocks_end],
    [scorw_copy_page] of [corw_sparse.c], the child branch of
    [ext4_buffered_write_iter] of [file.c]); and the properties of a family of
    files under all their operations. *)

From S2P Require Import Prelude Pages Friend SeeThru ActiveMap VersionCount PageCopy.

Section child_write.
Context `{HashMin}.

(** [scorw_copy_page]: copy a block of the parent to the child.  A missing page
    of the parent is dereferenced all the same. *)
Definition scorw_copy_page (io : kio) (par : mapping) (c : child) (lblk : Z) : outcome (Z * mapping * child) :=
  match scorw_get_page (k_par io) par lblk with
  | (None, _) => Bug
  | (Some p, par') =>
      let left := u64 (ch_copy_size c - Z.shiftl lblk PAGE_SHIFT) in
      let len := if PAGE_SIZE <=? left then PAGE_SIZE else left in
      let pos := Z.shiftl lblk PAGE_SHIFT in
      match scorw_da_write_begin (k_child io) (ch_file c) pos len with
      | (error, None, m) => Ok (error, par', ch_set_file c m)
      | (_, Some idx, m) =>
          let m1 := set_page m idx (zero_tail p len) in
          Ok (0, par', ch_set_file c (scorw_da_write_end (k_child io) m1 pos len len).2)
      end
  end.

(** ** Writing a child *)

(** The first loop of [scorw_write_child_blocks_begin]: [None] is the return of
    -1 on a read-only range, otherwise the sharing information and the last
    block to prepare. *)
Fixpoint range_loop (ranges : list child_range) (start_block : Z) (l : list Z) (cr : option child_range)
    (shr : sharing_range_info) (end_block : Z) : option (sharing_range_info * Z) :=
  match l with
  | [] => Some (shr, end_block)
  | i :: l' =>
      if bool_decide (cr = None) && negb (i =? start_block) then Some (shr, end_block)
      else
        let (snxb, cr') := snapx_get_range_info cr ranges i in
        if negb (bool_decide (snxb = SNAPX_FLAG_SHARED)) && shr_initialized shr then Some (shr, i - 1)
        else
          match snxb with
          | SNAPX_FLAG_COW_RO | SNAPX_FLAG_SEE_TH_RO | SNAPX_FLAG_SHARED_RO => None
          | SNAPX_FLAG_SHARED =>
              if negb (i =? start_block) && negb (shr_initialized shr) then
                Some (SharingRangeInfo (shr_initialized shr) true start_block (i - 1), i - 1)
              else if shr_initialized shr then
                range_loop ranges start_block l' cr'
                  (SharingRangeInfo true (shr_partial_cow shr) (shr_start_block shr) (u32 (shr_end_block shr + 1))) end_block
              else
                range_loop ranges start_block l' cr' (SharingRangeInfo true (shr_partial_cow shr) i i) end_block
          | _ => range_loop ranges start_block l' cr' shr end_block
          end
  end.

(** The blocks of a write: the first one, and the last one a copy is made for. *)
Definition write_start (offset : Z) : Z := u32 (Z.shiftr offset PAGE_SHIFT).
Definition last_eligible (c : child) : Z := u32 (Z.shiftr (ch_copy_size c - 1) PAGE_SHIFT).
Definition write_end (c : child) (offset len : Z) : Z :=
  let last_blk_num := u32 (Z.shiftr (u64 (offset + len - 1)) PAGE_SHIFT) in
  if last_blk_num <? last_eligible c then last_blk_num else last_eligible c.

(** Is the block one the write overwrites as a whole, by the tests of the
    second loop? *)
Definition fully_overwritten (start_block end_block offset len i : Z) : bool :=
  let head := offset mod PAGE_SIZE =? 0 in
  let tail := u64 (offset + len) mod PAGE_SIZE =? 0 in
  ((start_block =? end_block) && (i =? start_block) && head && tail)
  || (negb (start_block =? end_block) && (i =? start_block) && head)
  || (negb (start_block =? end_block) && (i =? end_block) && tail).

(** Its last step: bring block [i] to child [j] from the page copy made for it,
    or from the parent when there is none. *)
Definition copy_shared_block (io : kio) (j : nat) (i : Z) (c : child) (par : mapping) (fam : family) : outcome (mapping * family) :=
  page_copy ← scorw_find_page_copy (fa_copies fam) i (fa_ino fam) (ch_at_index c);
  match page_copy with
  | Some k =>
      match fa_copies fam !! k with
      | None => Bug
      | Some pc =>
          r ← scorw_copy_page_from_page_copy io par pc c;
          let '(_, pc', c') := r in
          Ok (par, fa_set_kid (fa_set_copies fam (<[k := pc']> (fa_copies fam))) j c')
      end
  | None =>
      r ← scorw_copy_page io par c i;
      let '(_, par', c') := r in
      Ok (par', fa_set_kid fam j c')
  end.

(** The body of the second loop, for child [j]. *)
Definition prepare_block (io : kio) (j : nat) (shared : bool) (start_block end_block offset len i : Z)
    (s : mapping * family) : outcome (mapping * family) :=
  let (par, fam) := s in
  fam1 ← kid_get io fam j i COPYING;
  if shared then Ok (par, fam1)
  else
    match kid fam1 j with
    | None => Bug
    | Some c =>
        let '(copied, fam2, c2) := kid_copied io fam1 j c i in
        if negb (copied =? 0) then fam3 ← kid_put fam2 j i COPYING; Ok (par, fam3)
        else
          w ← scorw_child_version_cnt_inc (fa_vw fam2) (ch_ino c2);
          let fam3 := fa_set_vw fam2 w in
          if fully_overwritten start_block end_block offset len i then Ok (par, fam3)
          else if (i =? start_block) || (i =? end_block) then copy_shared_block io j i c2 par fam3
          else Ok (par, fam3)
    end.

(** [scorw_write_child_blocks_begin] on child [j]. *)
Definition scorw_write_child_blocks_begin (io : kio) (par : mapping) (fam : family) (j : nat) (offset len : Z)
    (shr : sharing_range_info) : outcome (Z * mapping * family * sharing_range_info) :=
  match kid fam j with
  | None => Bug
  | Some c =>
      let start_block := write_start offset in
      if last_eligible c <? start_block then Ok (0, par, fam, shr)
      else
        match range_loop (ch_ranges c) start_block (zrange start_block (write_end c offset len)) None shr
                (write_end c offset len) with
        | None => Ok (-1, par, fam, shr)
        | Some (shr', end_block) =>
            s ← for_each (zrange start_block end_block)
                  (prepare_block io j (shr_initialized shr') start_block end_block offset len) (par, fam);
            Ok (0, s.1, s.2, shr')
        end
  end.

(** The body of the loop of [scorw_write_child_blocks_end]. *)
Definition finish_block (io : kio) (j : nat) (shared : bool) (i : Z) (fam : family) : outcome family :=
  match kid fam j with
  | None => Bug
  | Some c =>
      let '(copied, fam1, c1) := kid_copied io fam j c i in
      if negb (copied =? 0) then Ok fam1
      else
        c2 ← (if shared then Ok c1
              else frnd ← scorw_set_block_copied (k_frnd io) (ch_frnd c1) i; Ok (ch_set_frnd c1 frnd));
        kid_put (fa_set_kid fam1 j (ch_dec_pending c2)) j i COPYING
  end.

(** [scorw_write_child_blocks_end]. *)
Definition scorw_write_child_blocks_end (io : kio) (fam : family) (j : nat) (offset len : Z) (shared : bool) : outcome family :=
  match kid fam j with
  | None => Bug
  | Some c =>
      if last_eligible c <? write_start offset then Ok fam
      else for_each (zrange (write_start offset) (write_end c offset len)) (finish_block io j shared) fam
  end.

(** The child branch of [ext4_buffered_write_iter]: prepare the blocks, cut the
    write to a shared or unshared stretch, write the data to the child, or to
    the parent (one that is not in see-through mode) when the stretch is shared,
    and finish the blocks.  [buf] holds the bytes the checks on the write let
    through. *)
Definition child_buffered_write (io : kio) (e : wenv) (par : mapping) (fam : family) (j : nat) (offset : Z) (buf : list Z)
    : outcome (Z * mapping * family) :=
  let len := Z.of_nat (length buf) in
  r ← scorw_write_child_blocks_begin io par fam j offset len (SharingRangeInfo false false 0 0);
  let '(error, par1, fam1, shr) := r in
  if negb (error =? 0) then Ok (error, par1, fam1)
  else
    let last_offset_allowed := Z.shiftl (shr_end_block shr) PAGE_SHIFT + 4095 in
    let len' := if (shr_initialized shr || shr_partial_cow shr) && (last_offset_allowed <? offset + len - 1)
                then last_offset_allowed - offset + 1 else len in
    let buf' := take (Z.to_nat len') buf in
    match kid fam1 j with
    | None => Bug
    | Some c =>
        if shr_initialized shr then
          w ← perform_write_loop e no_hooks false (S (length buf')) par1 offset buf' 0 tt;
          let '(ret, par2, _) := w in
          fam3 ← scorw_write_child_blocks_end io fam1 j offset len' true;
          Ok (ret, par2, fam3)
        else
          w ← perform_write_loop e no_hooks false (S (length buf')) (ch_file c) offset buf' 0 tt;
          let '(ret, file, _) := w in
          fam3 ← scorw_write_child_blocks_end io (fa_set_kid fam1 j (ch_set_file c file)) j offset len' false;
          Ok (ret, par1, fam3)
    end.

(** ** Lemmas: preparing the blocks of a child's write *)

(** Every block the child was made with can be read from the parent: it lies
    below the last partial page of the parent, or is cached. *)
Definition par_readable (par : mapping) (c : child) : Prop :=
  forall b, in_snapshot c b -> b < Z.shiftr (i_size par) PAGE_SHIFT \/ is_Some (cache par !! b).

(** The blocks the preparation copies to the child. *)
Definition copied_first (c : child) (s e offset len b : Z) : bool :=
  negb (friend_bit (ch_frnd c) b) && negb (fully_overwritten s e offset len b) && ((b =? s) || (b =? e)).

(** The state after the blocks from [s] to [i] have been prepared. *)
Record prepared (par : mapping) (fam : family) (j : nat) (c : child) (s e offset len i : Z) (st : mapping * family) : Prop := {
  pr_par : par_same par st.1;
  pr_cache : forall x, is_Some (cache par !! x) -> is_Some (cache st.1 !! x);
  pr_ino : fa_ino st.2 = fa_ino fam;
  pr_copies : Forall2 (pc_same par) (fa_copies fam) (fa_copies st.2);
  pr_vw : forall x, vc_ready (fa_vw fam) x -> vc_ready (fa_vw st.2) x;
  pr_kid : exists c', fa_kids st.2 = <[j := Some c']> (fa_kids fam) /\ same_child c c' /\ friend_wf (ch_frnd c') /\
    (forall b, friend_bit (ch_frnd c') b = friend_bit (ch_frnd c) b) /\ mapping_wf (ch_file c') /\
    forall b, file_page (ch_file c') b =
      if decide (s <= b <= i /\ copied_first c s e offset len b = true)
      then zero_tail (src_page par fam j b) (ch_copy_size c - b * PAGE_SIZE) else file_page (ch_file c) b;
  pr_locks : locks_hold (fa_kids st.2) (fa_locks st.2) j COPYING
    (fun b => (s <=? b) && (b <=? i) && negb (friend_bit (ch_frnd c) b))
}.

Lemma pc_same_par par par' pc pc' : par_same par par' -> pc_same par' pc pc' -> pc_same par pc pc'.
Proof.
  intros (_ & Hs & Hd & _) (? & ? & ? & Hdata & ?). split_and!; auto. revert Hdata.
  unfold pc_data, read_block, disk_page. by rewrite Hs, Hd.
Qed.

Lemma pc_same_list_trans par l1 l2 l3 : Forall2 (pc_same par) l1 l2 -> Forall2 (pc_same par) l2 l3 -> Forall2 (pc_same par) l1 l3.
Proof.
  intros Ha Hb. apply Forall2_same_length_lookup in Ha as [Hl1 Ha]. apply Forall2_same_length_lookup in Hb as [Hl2 Hb].
  apply Forall2_same_length_lookup. split; [lia|]. intros i x z Hx Hz.
  destruct (lookup_lt_is_Some_2 l2 i) as [y Hy]; [rewrite Hl2; by eapply lookup_lt_Some|]. eapply pc_same_trans; eauto.
Qed.

Lemma par_same_trans m1 m2 m3 : par_same m1 m2 -> par_same m2 m3 -> par_same m1 m3.
Proof. intros (? & ? & ? & Ha) (? & ? & ? & Hb). split_and!; auto; congruence. Qed.

Lemma get_page_same m b p m' :
  mapping_wf m -> b < Z.shiftr (i_size m) PAGE_SHIFT \/ is_Some (cache m !! b) -> scorw_get_page io_ok m b = (Some p, m') ->
  p = file_page m b /\ par_same m m' /\ (forall i, is_Some (cache m !! i) -> is_Some (cache m' !! i)).
Proof.
  intros Hw Hb Hg. destruct (scorw_get_page_full _ _ _ _ _ Hb Hg) as [-> Hp]. split; [done|].
  split; [split_and!; [by eapply scorw_get_page_wf|by eapply scorw_get_page_size| |done]|];
    revert Hg; unfold scorw_get_page; destruct (cache m !! b); try (by intros [= _ <-]); case_bools; intros [= _ <-]; try done;
    intros i Hi; cbn; apply lookup_insert_is_Some'; by right.
Qed.

Lemma copy_page_spec par fam j c b :
  fam_ok par fam -> kid_ok par fam j c -> in_snapshot c b -> b < Z.shiftr (i_size par) PAGE_SHIFT \/ is_Some (cache par !! b) ->
  exists par' m', scorw_copy_page kio_ok par c b = Ok (0, par', ch_set_file c m') /\ par_same par par' /\
    (forall i, is_Some (cache par !! i) -> is_Some (cache par' !! i)) /\
    block_put (ch_file c) m' b (zero_tail (file_page par b) (ch_copy_size c - b * PAGE_SIZE)).
Proof.
  intros Hok Hko Hin Hb. unfold scorw_copy_page. cbn [k_par kio_ok].
  destruct (scorw_get_page_ok par b) as (p & par' & Hg). rewrite Hg.
  destruct (get_page_same par b p par' (fo_par _ _ Hok) Hb Hg) as (-> & Hsame & Hcache).
  destruct (copy_len c b (ko_size _ _ _ _ Hko) Hin) as (_ & -> & Hpos).
  set (left := ch_copy_size c - b * PAGE_SIZE) in *. set (len := if PAGE_SIZE <=? left then PAGE_SIZE else left).
  assert (0 < len) as Hlen by (subst len; by destruct (PAGE_SIZE <=? left)).
  unfold scorw_da_write_begin. cbn [io_wbegin io_ok k_child kio_ok]. change (0 <? 0) with false. cbv iota zeta.
  rewrite Z.shiftr_shiftl_r, Z.sub_diag, Z.shiftr_0_r by done. eexists _, _. do 3 (split; [done|]).
  pose proof (file_page_wf _ b (fo_par _ _ Hok)) as Hpw.
  replace (zero_tail (file_page par b) left) with (zero_tail (file_page par b) len) by (by apply zero_tail_clip).
  apply block_put_intro; [apply Hko|by apply zero_tail_wf|apply Hin|lia].
Qed.

Lemma prepared_ok par fam j c s e offset len i st :
  fam_ok par fam -> kid fam j = Some c -> prepared par fam j c s e offset len i st -> fam_ok st.1 st.2.
Proof.
  intros Hok Hk [Hp _ Hi Hc Hv (c' & Hkids & Hs & Hf & _ & Hm & _) _]. by eapply (family_update par fam j c _ _ c').
Qed.

Lemma prepared_start par fam j c s e offset len :
  family_inv par fam -> kid fam j = Some c -> prepared par fam j c s e offset len (s - 1) (par, fam).
Proof.
  intros [Hok Hl] Hk. pose proof (fo_kids _ _ Hok _ _ Hk) as Hko. split; cbn; auto.
  - by apply par_same_refl, Hok.
  - apply pc_same_refl.
  - exists c. apply kid_lookup in Hk. rewrite list_insert_id by done. split_and!; auto; [by repeat split|apply Hko|apply Hko|].
    intros b. rewrite decide_False; [done|]. lia.
  - apply (locks_free_hold _ _ j COPYING) in Hl. eapply locks_hold_ext; [done|apply same_shape_refl|]. intros b.
    destruct (Z.leb_spec s b), (Z.leb_spec b (s - 1)); try done. lia.
Qed.

Lemma prepared_kid fam fam' j c c1 :
  kid fam j = Some c -> fa_kids fam' = <[j := Some c1]> (fa_kids fam) -> kid fam' j = Some c1.
Proof. intros Hk Hkids. unfold kid. rewrite Hkids. apply kid_lookup, lookup_lt_Some in Hk. by rewrite list_lookup_insert_eq. Qed.

(** The step of the invariant, once the block is locked and, if it must be,
    copied. *)
Lemma prepared_next par fam j c s e offset len i st par' fam' c' :
  kid fam j = Some c -> s <= i + 1 -> prepared par fam j c s e offset len i st ->
  par_same st.1 par' -> (forall x, is_Some (cache st.1 !! x) -> is_Some (cache par' !! x)) ->
  fa_ino fam' = fa_ino st.2 -> Forall2 (pc_same st.1) (fa_copies st.2) (fa_copies fam') ->
  (forall x, vc_ready (fa_vw st.2) x -> vc_ready (fa_vw fam') x) ->
  fa_kids fam' = <[j := Some c']> (fa_kids st.2) -> same_child c c' -> friend_wf (ch_frnd c') ->
  (forall b, friend_bit (ch_frnd c') b = friend_bit (ch_frnd c) b) -> mapping_wf (ch_file c') ->
  (forall b c1, kid st.2 j = Some c1 -> file_page (ch_file c') b =
    if decide (b = i + 1 /\ copied_first c s e offset len b = true)
    then zero_tail (src_page par fam j b) (ch_copy_size c - b * PAGE_SIZE) else file_page (ch_file c1) b) ->
  locks_hold (fa_kids fam') (fa_locks fam') j COPYING (fun b => (s <=? b) && (b <=? i + 1) && negb (friend_bit (ch_frnd c) b)) ->
  prepared par fam j c s e offset len (i + 1) (par', fam').
Proof.
  intros Hk Hsi [Hp Hca Hi Hc Hv (c1 & Hkids & Hs & Hf & Hb & Hm & Hpg) Hl] Hp' Hca' Hi' Hc' Hv' Hkids' Hs' Hf' Hb' Hm' Hpg' Hl'.
  split; cbn; auto.
  - by eapply par_same_trans.
  - congruence.
  - eapply pc_same_list_trans; [done|]. eapply Forall2_impl; [done|]. intros. by eapply pc_same_par.
  - exists c'. rewrite Hkids', Hkids, list_insert_insert_eq. split_and!; auto. intros b.
    rewrite (Hpg' b c1 (prepared_kid _ _ _ _ _ Hk Hkids)), Hpg. destruct (copied_first c s e offset len b); repeat case_decide; try done; naive_solver lia.
Qed.

Lemma src_page_copy par fam j b k pc :
  find_newest (pc_matches b (fa_ino fam) (Z.of_nat j)) (fa_copies fam) = Some k -> fa_copies fam !! k = Some pc ->
  src_page par fam j b = pc_data par pc.
Proof. intros Hf Hk. unfold src_page, newest_copy. rewrite Hf. cbn. by rewrite Hk. Qed.

Lemma src_page_parent par fam j b :
  find_newest (pc_matches b (fa_ino fam) (Z.of_nat j)) (fa_copies fam) = None -> src_page par fam j b = file_page par b.
Proof. intros Hf. unfold src_page, newest_copy. by rewrite Hf. Qed.

(** Bringing a block in puts what the child saw of it into its file. *)
Lemma copy_shared_block_spec par fam j c b :
  fam_ok par fam -> kid fam j = Some c -> in_snapshot c b -> b < Z.shiftr (i_size par) PAGE_SHIFT \/ is_Some (cache par !! b) ->
  exists par' fam' m', copy_shared_block kio_ok j b c par fam = Ok (par', fam') /\ par_same par par' /\
    (forall x, is_Some (cache par !! x) -> is_Some (cache par' !! x)) /\ fa_ino fam' = fa_ino fam /\ fa_vw fam' = fa_vw fam /\
    fa_locks fam' = fa_locks fam /\ Forall2 (pc_same par) (fa_copies fam) (fa_copies fam') /\
    fa_kids fam' = <[j := Some (ch_set_file c m')]> (fa_kids fam) /\
    block_put (ch_file c) m' b (zero_tail (src_page par fam j b) (ch_copy_size c - b * PAGE_SIZE)).
Proof.
  intros Hok Hk Hin Hrd. unfold copy_shared_block. rewrite (find_page_copy_kid par fam j c b Hok Hk). cbn [mbind outcome_bind].
  pose proof (fo_kids _ _ Hok _ _ Hk) as Hko. destruct (find_newest _ _) as [k|] eqn:E.
  - pose proof E as Ef. apply find_newest_Some in E as (pc & Hpk & Hmt). rewrite Hpk, (src_page_copy par fam j b k pc Ef Hpk).
    unfold pc_matches in Hmt. apply andb_true_iff in Hmt as [[Hbk%Z.eqb_eq _]%andb_true_iff _].
    destruct (copy_from_page_copy_spec par fam pc j c) as (m' & -> & Hput); [by eapply fo_copies|done|by rewrite <- Hbk|].
    cbn [mbind outcome_bind]. rewrite <- Hbk in Hput. eexists _, _, m'. split; [done|].
    split; [by apply par_same_refl, Hok|]. do 4 (split; [done|]). split; [|done].
    apply Forall2_same_length_lookup. split; [by cbn; rewrite length_insert|].
    intros i' x y Hx Hy. cbn in Hy. rewrite list_lookup_insert in Hy. case_decide as Hd; [destruct Hd as [-> _]|]; simplify_eq; by repeat split.
  - rewrite (src_page_parent par fam j b E).
    destruct (copy_page_spec par fam j c b Hok Hko Hin Hrd) as (par' & m' & -> & Hps & Hpc & Hput).
    cbn [mbind outcome_bind]. eexists _, _, m'. split; [done|]. do 5 (split; [done|]). split; [apply pc_same_refl|done].
Qed.

(** The blocks held while block [i + 1] is prepared, and after it was found
    copied or not. *)
Lemma held_copied c s i b :
  friend_bit (ch_frnd c) (i + 1) = true ->
  negb (bool_decide (b = i + 1)) && (bool_decide (b = i + 1) || (s <=? b) && (b <=? i) && negb (friend_bit (ch_frnd c) b)) =
  (s <=? b) && (b <=? i + 1) && negb (friend_bit (ch_frnd c) b).
Proof.
  intros Hfb. case_bool_decide as Hd; cbn [negb andb orb]; [rewrite Hd, Hfb; by rewrite andb_false_r|].
  destruct (Z.leb_spec s b), (Z.leb_spec b i), (Z.leb_spec b (i + 1)); try done; lia.
Qed.

Lemma held_shared c s i b :
  friend_bit (ch_frnd c) (i + 1) = false -> s <= i + 1 ->
  bool_decide (b = i + 1) || (s <=? b) && (b <=? i) && negb (friend_bit (ch_frnd c) b) =
  (s <=? b) && (b <=? i + 1) && negb (friend_bit (ch_frnd c) b).
Proof.
  intros Hfb Hs. case_bool_decide as Hd.
  - rewrite Hd, Hfb, (proj2 (Z.leb_le s (i + 1))), (proj2 (Z.leb_le (i + 1) (i + 1))) by lia. done.
  - destruct (Z.leb_spec s b), (Z.leb_spec b i), (Z.leb_spec b (i + 1)); try done; lia.
Qed.

(** The step when nothing is copied: the friend file was looked at, and the
    version count may have grown. *)
Lemma prepared_skip par fam j c s e offset len i par1 fam1 fam' c1 c2 :
  fam_ok par1 fam1 -> kid fam j = Some c -> s <= i + 1 -> prepared par fam j c s e offset len i (par1, fam1) ->
  kid fam1 j = Some c1 -> copied_first c s e offset len (i + 1) = false ->
  fa_ino fam' = fa_ino fam1 -> fa_copies fam' = fa_copies fam1 -> (forall x, vc_ready (fa_vw fam1) x -> vc_ready (fa_vw fam') x) ->
  fa_kids fam' = <[j := Some c2]> (fa_kids fam1) -> same_child c c2 -> friend_wf (ch_frnd c2) ->
  (forall b, friend_bit (ch_frnd c2) b = friend_bit (ch_frnd c) b) -> mapping_wf (ch_file c1) -> ch_file c2 = ch_file c1 ->
  locks_hold (fa_kids fam') (fa_locks fam') j COPYING (fun b => (s <=? b) && (b <=? i + 1) && negb (friend_bit (ch_frnd c) b)) ->
  prepared par fam j c s e offset len (i + 1) (par1, fam').
Proof.
  intros Hok1 Hk Hsi Hpr Hk1 Hcf Hi Hc Hv Hkids Hs Hf Hb Hm Hfile Hl.
  eapply (prepared_next par fam j c s e offset len i (par1, fam1) _ _ c2); cbn; auto; try done.
  - by apply par_same_refl, Hok1.
  - rewrite Hc. apply pc_same_refl.
  - by rewrite Hfile.
  - intros b c1' Hk1'. simplify_eq. rewrite Hfile, decide_False; [done|]. intros [-> Hcf']. congruence.
Qed.

Lemma prepare_block_spec par fam j c s e offset len i st :
  fam_ok par fam -> kid fam j = Some c -> par_readable par c -> s <= i + 1 -> in_snapshot c (i + 1) ->
  prepared par fam j c s e offset len i st ->
  exists st', prepare_block kio_ok j false s e offset len (i + 1) st = Ok st' /\ prepared par fam j c s e offset len (i + 1) st'.
Proof.
  intros Hok Hk Hrd Hsi Hin Hpr. pose proof (prepared_ok _ _ _ _ _ _ _ _ _ _ Hok Hk Hpr) as Hok1.
  pose proof Hpr as [Hp Hca Hi Hc Hv (c1 & Hkids & Hs & Hf & Hb & Hm & Hpg) Hl].
  pose proof (prepared_kid _ _ _ _ _ Hk Hkids) as Hk1. destruct st as [par1 fam1]. cbn [fst snd] in *.
  pose proof (fo_kids _ _ Hok1 _ _ Hk1) as Hko1. pose proof Hs as (_ & _ & Hs3 & _). unfold prepare_block.
  destruct (kid_get_hold fam1 j c1 (i + 1) COPYING _ Hl Hk1) as (l1 & -> & Hl1).
  { replace (i + 1 <=? i) with false by (symmetry; apply Z.leb_gt; lia). by rewrite andb_false_r. }
  cbn [mbind outcome_bind]. change (kid (fa_set_locks fam1 l1) j) with (kid fam1 j). rewrite Hk1.
  unfold kid_copied. cbn [k_frnd kio_ok].
  destruct (block_copied_looked_up (ch_frnd c1) (i + 1) c1 Hf eq_refl) as (x & m & -> & Hx & m0 & Hm0 & Hwm & Hbm). rewrite Hx.
  assert (m0 = m) as -> by (by injection Hm0 as ->). clear Hm0. rewrite Hb. set (c2 := ch_set_frnd c1 m).
  set (fam2 := fa_set_kid (fa_set_locks fam1 l1) j c2).
  assert (forall b, friend_bit (ch_frnd c2) b = friend_bit (ch_frnd c) b) as Hb2 by (intros b; cbn; by rewrite Hbm).
  pose proof (same_shape_set fam1 j c1 c2 Hk1) as Hsh. change (<[j := Some c2]> (fa_kids fam1)) with (fa_kids fam2) in Hsh.
  assert (kid fam2 j = Some c2) as Hk2 by (unfold fam2; rewrite (kid_set _ j c1) by done; by rewrite decide_True).
  pose proof (locks_hold_ext _ _ _ _ _ _ _ Hl1 Hsh (fun b => eq_refl)) as Hl2.
  destruct (friend_bit (ch_frnd c) (i + 1)) eqn:Hfb; cbn [negb].
  { destruct (kid_put_hold fam2 j c2 (i + 1) COPYING _ (or_intror (or_introl eq_refl)) Hl2 Hk2) as (l3 & -> & Hl4); [by rewrite bool_decide_true|].
    cbn [mbind outcome_bind]. eexists. split; [done|]. eapply (prepared_skip _ _ _ _ _ _ _ _ _ _ fam1 _ c1 c2); auto; try done.
    - unfold copied_first. by rewrite Hfb.
    - eapply locks_hold_ext; [exact Hl4|apply same_shape_refl|]. intros b. by apply held_copied. }
  destruct (first_write_ready (fa_vw fam1) (ch_ino c1)) as (w & Hw & Hwr); [apply Hko1|].
  cbn [fa_vw fam2 fa_set_kid fa_set_kids fa_set_locks c2 ch_set_frnd ch_ino]. rewrite Hw. cbn [mbind outcome_bind]. fold c2. fold fam2.
  set (fam3 := fa_set_vw fam2 w).
  assert (locks_hold (fa_kids fam3) (fa_locks fam3) j COPYING (fun b => (s <=? b) && (b <=? i + 1) && negb (friend_bit (ch_frnd c) b))) as Hl3
    by (eapply locks_hold_ext; [exact Hl2|apply same_shape_refl|]; intros b; by apply held_shared).
  destruct (copied_first c s e offset len (i + 1)) eqn:Hcf; unfold copied_first in Hcf; rewrite Hfb in Hcf; cbn [negb andb] in Hcf.
  2: { exists (par1, fam3). split; [by destruct (fully_overwritten _ _ _ _ _), ((i + 1 =? s) || (i + 1 =? e))|].
    eapply (prepared_skip _ _ _ _ _ _ _ _ _ _ fam1 _ c1 c2); auto; try done. unfold copied_first. by rewrite Hfb. }
  apply andb_true_iff in Hcf as [Hfo%negb_true_iff Hse]. rewrite Hfo, Hse.
  assert (fam_ok par1 fam3) as Hok3
    by (eapply (family_update par1 fam1 j c1 par1 fam3 c2); auto; try done; [by apply par_same_refl, Hok1|apply pc_same_refl]).
  destruct (copy_shared_block_spec par1 fam3 j c2 (i + 1) Hok3 Hk2) as (par2 & fam4 & m' & -> & Hps & Hpc & Hi4 & Hv4 & Hl4 & Hc4 & Hk4 & Hput).
  { unfold in_snapshot in *. cbn. by rewrite Hs3. }
  { destruct Hp as (_ & Hps & _). rewrite Hps. destruct (Hrd (i + 1) Hin); auto. }
  rewrite (src_page_update par fam par1 fam3) in Hput by done. eexists. split; [done|].
  eapply (prepared_next par fam j c s e offset len i (par1, fam1) _ _ (ch_set_file c2 m')); cbn; auto; try done.
  - by rewrite Hv4.
  - rewrite Hk4. cbn. by rewrite list_insert_insert_eq.
  - apply Hput.
  - intros b c1' Hk1'. simplify_eq. destruct Hput as [_ Hput]. rewrite Hput. case_decide as Hd.
    + subst b. rewrite decide_True; [do 2 f_equal; cbn; lia|]. split; [done|]. unfold copied_first. by rewrite Hfb, Hfo, Hse.
    + rewrite decide_False by naive_solver. done.
  - rewrite Hl4, Hk4. eapply locks_hold_ext; [exact Hl3|by apply (same_shape_set fam3 j c2)|done].
Qed.

Lemma prepare_blocks_spec par fam j c s e offset len :
  family_inv par fam -> kid fam j = Some c -> par_readable par c -> 0 <= s <= e -> in_snapshot c e ->
  exists st, for_each (zrange s e) (prepare_block kio_ok j false s e offset len) (par, fam) = Ok st /\
    prepared par fam j c s e offset len e st.
Proof.
  intros Hinv Hk Hrd Hse Hin.
  assert (forall n, s - 1 + Z.of_nat n <= e -> exists st, for_each (zseq s n) (prepare_block kio_ok j false s e offset len) (par, fam) = Ok st /\
    prepared par fam j c s e offset len (s - 1 + Z.of_nat n) st) as Hn.
  { induction n as [|n IH]; intros Hle.
    - exists (par, fam). split; [done|]. rewrite Z.add_0_r. by apply prepared_start.
    - destruct IH as (st & Hst & Hpr); [lia|]. rewrite zseq_snoc, for_each_app, Hst. cbn [mbind outcome_bind for_each].
      destruct (prepare_block_spec par fam j c s e offset len (s - 1 + Z.of_nat n) st) as (st' & Hst' & Hpr');
        [apply Hinv|done|done|lia| |done|].
      { unfold in_snapshot, PAGE_SIZE in *. lia. }
      replace (s - 1 + Z.of_nat n + 1) with (s + Z.of_nat n) in Hst', Hpr' by lia. rewrite Hst'. cbn.
      exists st'. split; [done|]. by replace (s - 1 + Z.of_nat (S n)) with (s + Z.of_nat n) by lia. }
  destruct (Hn (Z.to_nat (e - s + 1))) as (st & Hst & Hpr); [lia|]. exists st. split; [done|].
  by replace (s - 1 + Z.of_nat (Z.to_nat (e - s + 1))) with e in Hpr by lia.
Qed.

(** ** Lemmas: finishing the blocks *)

(** The state after the blocks from [s] to [i] have been finished, from a family
    [fam] in which the blocks of the write without a copy are locked. *)
Record finished (fam : family) (j : nat) (c : child) (s e i : Z) (fam' : family) : Prop := {
  fi_ino : fa_ino fam' = fa_ino fam;
  fi_copies : fa_copies fam' = fa_copies fam;
  fi_vw : fa_vw fam' = fa_vw fam;
  fi_kid : exists c', fa_kids fam' = <[j := Some c']> (fa_kids fam) /\ same_child c c' /\ ch_file c' = ch_file c /\
    friend_wf (ch_frnd c') /\
    forall b, 0 <= b -> friend_bit (ch_frnd c') b = bool_decide (s <= b <= i) || friend_bit (ch_frnd c) b;
  fi_locks : locks_hold (fa_kids fam') (fa_locks fam') j COPYING
    (fun b => (i <? b) && (b <=? e) && negb (friend_bit (ch_frnd c) b) && (s <=? b))
}.

Lemma finish_block_spec fam j c s e i fam1 :
  kid fam j = Some c -> 0 <= s <= i + 1 -> i + 1 <= e -> finished fam j c s e i fam1 ->
  exists fam2, finish_block kio_ok j false (i + 1) fam1 = Ok fam2 /\ finished fam j c s e (i + 1) fam2.
Proof.
  intros Hk Hs He [Hi Hc Hv (c1 & Hkids & Hsc & Hfile & Hw & Hbits) Hl]. set (n := i + 1) in *.
  assert (kid fam1 j = Some c1) as Hk1.
  { unfold kid. rewrite Hkids. apply kid_lookup, lookup_lt_Some in Hk. by rewrite list_lookup_insert_eq. }
  unfold finish_block. rewrite Hk1. unfold kid_copied. cbn [k_frnd kio_ok].
  destruct (block_copied_looked_up (ch_frnd c1) n c1 Hw eq_refl) as (x & m & -> & Hx & m0 & Hm0 & Hwm & Hbm). rewrite Hx.
  assert (m0 = m) as -> by (by injection Hm0 as ->). clear Hm0. rewrite Hbits, bool_decide_false by lia. cbn [orb].
  set (c2 := ch_set_frnd c1 m). assert (same_child c c2) as Hsc2 by done.
  destruct (friend_bit (ch_frnd c) n) eqn:Hfb; cbn [negb].
  - eexists. split; [done|]. split; cbn; auto.
    + exists c2. rewrite Hkids, list_insert_insert_eq. split_and!; auto. intros b Hb. cbn. rewrite Hbm, Hbits by done.
      destruct (decide (b = n)) as [->|]; [rewrite Hfb; by rewrite !orb_true_r|]. f_equal. apply bool_decide_ext. lia.
    + eapply locks_hold_ext; [exact Hl|by apply (same_shape_set fam1 j c1)|]. intros b. cbv beta.
      destruct (decide (b = n)) as [->|]; [rewrite Hfb; by rewrite !andb_false_r|].
      destruct (Z.ltb_spec i b), (Z.ltb_spec n b); try done; lia.
  - destruct (scorw_set_block_copied_ok m n) as [m2 Hsb]. cbn [c2 ch_frnd ch_set_frnd]. rewrite Hsb. cbn [mbind outcome_bind].
    destruct (scorw_set_block_copied_spec io_ok m n m2 Hwm) as [Hw2 Hb2]; [lia|done|].
    set (c3 := ch_dec_pending _). set (fam3 := fa_set_kid _ _ c3).
    assert (fa_kids fam3 = <[j := Some c3]> (fa_kids fam)) as Hkids3 by (cbn; by rewrite Hkids, !list_insert_insert_eq).
    assert (kid fam3 j = Some c3) as Hk3.
    { unfold kid. rewrite Hkids3. apply kid_lookup, lookup_lt_Some in Hk. by rewrite list_lookup_insert_eq. }
    destruct (kid_put_hold fam3 j c3 n COPYING
      (fun b => (i <? b) && (b <=? e) && negb (friend_bit (ch_frnd c) b) && (s <=? b)) (or_intror (or_introl eq_refl))) as (l & -> & Hl').
    { eapply locks_hold_ext; [exact Hl| |done]. cbn. rewrite list_insert_insert_eq. by apply (same_shape_set fam1 j c1). }
    { done. }
    { rewrite Hfb, (proj2 (Z.ltb_lt i n)), (proj2 (Z.leb_le n e)), (proj2 (Z.leb_le s n)) by lia. done. }
    eexists. split; [done|]. split; auto.
    + exists c3. split_and!; auto. intros b Hb. cbn. rewrite Hb2, Hbm, Hbits by done. rewrite orb_assoc. f_equal.
      rewrite <- bool_decide_or. apply bool_decide_ext. lia.
    + eapply locks_hold_ext; [exact Hl'|apply same_shape_refl|]. intros b. cbv beta.
      case_bool_decide as Hd; cbn [negb andb].
      * subst b. rewrite Z.ltb_irrefl. done.
      * destruct (Z.ltb_spec i b), (Z.ltb_spec n b); try done; lia.
Qed.

Lemma finish_blocks_spec fam j c s e :
  kid fam j = Some c -> friend_wf (ch_frnd c) -> 0 <= s <= e ->
  locks_hold (fa_kids fam) (fa_locks fam) j COPYING (fun b => (s <=? b) && (b <=? e) && negb (friend_bit (ch_frnd c) b)) ->
  exists fam', for_each (zrange s e) (finish_block kio_ok j false) fam = Ok fam' /\ finished fam j c s e e fam'.
Proof.
  intros Hk Hw Hse Hl.
  assert (forall n, s - 1 + Z.of_nat n <= e -> exists fam', for_each (zseq s n) (finish_block kio_ok j false) fam = Ok fam' /\
    finished fam j c s e (s - 1 + Z.of_nat n) fam') as Hn.
  { induction n as [|n IH]; intros Hle.
    - exists fam. split; [done|]. rewrite Z.add_0_r. split; auto.
      + exists c. rewrite list_insert_id by (by apply kid_lookup). split_and!; auto; [by repeat split|].
        intros b Hb. by rewrite bool_decide_false by lia.
      + eapply locks_hold_ext; [exact Hl|apply same_shape_refl|]. intros b. cbv beta.
        destruct (Z.leb_spec s b), (Z.ltb_spec (s - 1) b), (b <=? e), (friend_bit (ch_frnd c) b); try done; lia.
    - destruct IH as (fam1 & Hst & Hpr); [lia|]. rewrite zseq_snoc, for_each_app, Hst. cbn [mbind outcome_bind for_each].
      destruct (finish_block_spec fam j c s e (s - 1 + Z.of_nat n) fam1) as (fam2 & Hst' & Hpr'); [done|lia|lia|done|].
      replace (s - 1 + Z.of_nat n + 1) with (s + Z.of_nat n) in Hst', Hpr' by lia. rewrite Hst'. cbn.
      exists fam2. split; [done|]. by replace (s - 1 + Z.of_nat (S n)) with (s + Z.of_nat n) by lia. }
  destruct (Hn (Z.to_nat (e - s + 1))) as (fam' & Hst & Hpr); [lia|]. exists fam'. split; [done|].
  by replace (s - 1 + Z.of_nat (Z.to_nat (e - s + 1))) with e in Hpr by lia.
Qed.

(** ** Lemmas: the write of a child *)

(** The blocks of the snapshot a write touches. *)
Definition touched (c : child) (offset len b : Z) : bool :=
  (offset / PAGE_SIZE <=? b) && (b <=? Z.min ((offset + len - 1) / PAGE_SIZE) ((ch_copy_size c - 1) / PAGE_SIZE)).

(** What a write of child [j] leaves in its own file and its friend file: the bytes
    written, the rest of the blocks it touched as they were kept, and all other
    bytes as before; and the touched blocks are marked as copied. *)
Record own_file_written (par : mapping) (fam : family) (j : nat) (c : child) (offset : Z) (buf : list Z) (c' : child) : Prop := {
  ow_bytes : forall q, 0 <= q -> byte_at (ch_file c') q =
    if bool_decide (offset <= q < offset + Z.of_nat (length buf)) then buf !!! Z.to_nat (q - offset)
    else if touched c offset (Z.of_nat (length buf)) (q / PAGE_SIZE) then kept_page par fam j c (q / PAGE_SIZE) !!! Z.to_nat (q mod PAGE_SIZE)
    else byte_at (ch_file c) q;
  ow_bits : forall b, 0 <= b -> friend_bit (ch_frnd c') b = touched c offset (Z.of_nat (length buf)) b || friend_bit (ch_frnd c) b
}.

Lemma range_loop_no_ranges s l shr e :
  shr_initialized shr = false -> range_loop [] s l None shr e = Some (shr, e).
Proof.
  intros Hi. revert shr Hi. induction l as [|i l IH]; intros shr Hi; [done|]. cbn [range_loop snapx_get_range_info].
  destruct (_ && _); [done|]. rewrite Hi, andb_false_r. by apply IH.
Qed.

(** The blocks of a write, without the conversions to machine words. *)
Lemma write_blocks c offset len :
  0 < ch_copy_size c <= 2 ^ 32 -> 0 <= offset -> 0 < len -> offset + len <= 2 ^ 43 ->
  write_start offset = offset / PAGE_SIZE /\
  last_eligible c = (ch_copy_size c - 1) / PAGE_SIZE /\
  write_end c offset len = Z.min ((offset + len - 1) / PAGE_SIZE) ((ch_copy_size c - 1) / PAGE_SIZE) /\
  u64 (offset + len) = offset + len.
Proof.
  intros Hs Ho Hl Hb. unfold write_end, write_start, last_eligible. rewrite !shiftr_page.
  change (2 ^ 43) with 8796093022208 in *. change (2 ^ 32) with 4294967296 in *.
  rewrite !(u64_small (offset + len)), !(u64_small (offset + len - 1)) by (change (2 ^ 64) with 18446744073709551616; lia).
  unfold PAGE_SIZE. assert (forall z, 0 <= z < 8796093022208 -> u32 (z / 4096) = z / 4096) as Hu.
  { intros z Hz. apply u32_small. change (2 ^ 32) with 4294967296. Z.to_euclidean_division_equations. lia. }
  rewrite !Hu by lia. split_and!; auto.
  destruct (Z.ltb_spec ((offset + len - 1) / 4096) ((ch_copy_size c - 1) / 4096)); lia.
Qed.

(** A block that was not copied first is overwritten as a whole. *)
Lemma not_copied_overwritten c offset len b q :
  0 <= offset -> 0 < len -> u64 (offset + len) = offset + len ->
  let s := offset / PAGE_SIZE in
  let e := Z.min ((offset + len - 1) / PAGE_SIZE) ((ch_copy_size c - 1) / PAGE_SIZE) in
  s <= b <= e -> friend_bit (ch_frnd c) b = false -> copied_first c s e offset len b = false ->
  q / PAGE_SIZE = b -> offset <= q < offset + len.
Proof.
  intros Ho Hl Hu s e Hb Hfb Hcf Hq. unfold copied_first, fully_overwritten in Hcf. rewrite Hfb, Hu in Hcf. cbn [negb andb] in Hcf.
  subst s e. unfold PAGE_SIZE in *.
  destruct (Z.eqb_spec (offset / 4096) (Z.min ((offset + len - 1) / 4096) ((ch_copy_size c - 1) / 4096))),
    (Z.eqb_spec b (offset / 4096)), (Z.eqb_spec b (Z.min ((offset + len - 1) / 4096) ((ch_copy_size c - 1) / 4096))),
    (Z.eqb_spec (offset mod 4096) 0), (Z.eqb_spec ((offset + len) mod 4096) 0);
    cbn in Hcf; try done; Z.to_euclidean_division_equations; lia.
Qed.

(** The bytes of a child after its blocks have been prepared and written. *)
Lemma child_bytes_written par fam j c s e offset buf c1 file q :
  let len := Z.of_nat (length buf) in
  0 <= offset -> 0 < len -> offset + len <= 2 ^ 43 ->
  s = offset / PAGE_SIZE -> e = Z.min ((offset + len - 1) / PAGE_SIZE) ((ch_copy_size c - 1) / PAGE_SIZE) ->
  (forall b, file_page (ch_file c1) b =
      if decide (s <= b <= e /\ copied_first c s e offset len b = true)
      then zero_tail (src_page par fam j b) (ch_copy_size c - b * PAGE_SIZE) else file_page (ch_file c) b) ->
  (forall q, byte_at file q = if bool_decide (offset <= q < offset + len) then buf !!! Z.to_nat (q - offset) else byte_at (ch_file c1) q) ->
  byte_at file q = if bool_decide (offset <= q < offset + len) then buf !!! Z.to_nat (q - offset)
    else if touched c offset len (q / PAGE_SIZE) then kept_page par fam j c (q / PAGE_SIZE) !!! Z.to_nat (q mod PAGE_SIZE)
    else byte_at (ch_file c) q.
Proof.
  intros len Ho Hl Hbd -> -> Hpg Hfile. rewrite Hfile. case_bool_decide as Hw; [done|]. unfold byte_at at 1. rewrite Hpg.
  unfold touched, kept_page. set (s := offset / PAGE_SIZE) in *. set (e := Z.min _ _) in *. set (b := q / PAGE_SIZE) in *.
  destruct (Z.leb_spec s b), (Z.leb_spec b e); cbn [andb]; try (rewrite decide_False by lia; done).
  destruct (friend_bit (ch_frnd c) b) eqn:Hfb.
  - rewrite decide_False; [done|]. intros [_ Hcf]. unfold copied_first in Hcf. by rewrite Hfb in Hcf.
  - destruct (copied_first c s e offset len b) eqn:Hcf; [by rewrite decide_True by done|]. exfalso. apply Hw.
    eapply (not_copied_overwritten c offset len b q); eauto. apply u64_small. change (2 ^ 43) with 8796093022208 in *.
    change (2 ^ 64) with 18446744073709551616. lia.
Qed.

(** What the write of child [j] leaves. *)
Record child_written (par : mapping) (fam : family) (j : nat) (c : child) (offset : Z) (buf : list Z) (par' : mapping) (fam' : family) : Prop := {
  cw_inv : family_inv par' fam';
  cw_par : par_same par par';
  cw_kid : exists c', kid fam' j = Some c' /\ same_child c c' /\ own_file_written par fam j c offset buf c';
  cw_others : forall i ci, i <> j -> kid fam i = Some ci -> kid fam' i = Some ci /\
    forall b, kept_page par' fam' i ci b = kept_page par fam i ci b
}.

(** From an updated child to the whole family. *)
Lemma child_written_intro par fam j c offset buf par' fam' c' :
  fam_ok par fam -> kid fam j = Some c -> par_same par par' -> fa_ino fam' = fa_ino fam ->
  Forall2 (pc_same par) (fa_copies fam) (fa_copies fam') -> (forall x, vc_ready (fa_vw fam) x -> vc_ready (fa_vw fam') x) ->
  fa_kids fam' = <[j := Some c']> (fa_kids fam) -> same_child c c' -> friend_wf (ch_frnd c') -> mapping_wf (ch_file c') ->
  locks_free fam' ->
  own_file_written par fam j c offset buf c' -> child_written par fam j c offset buf par' fam'.
Proof.
  intros Hok Hk Hp Hi Hc Hv Hkids Hs Hf Hm Hl Hq.
  assert (forall i, kid fam' i = if decide (j = i) then Some c' else kid fam i) as Hkid.
  { intros i. rewrite <- (kid_set fam j c c' i Hk). unfold kid. by rewrite Hkids. }
  split.
  - split; [by eapply (family_update par fam j c par' fam' c')|done].
  - done.
  - exists c'. rewrite Hkid, decide_True by done. done.
  - intros i ci Hne Hci. rewrite Hkid, decide_False by done. split; [done|]. intros b. unfold kept_page. by rewrite (src_page_update par fam).
Qed.

Lemma write_child_file c offset buf :
  mapping_wf (ch_file c) -> 0 <= offset -> Forall byte_ok buf -> buf <> [] ->
  exists file, perform_write_loop wenv_ok no_hooks false (S (length buf)) (ch_file c) offset buf 0 tt = Ok (Z.of_nat (length buf), file, tt) /\
    mapping_wf file /\
    forall q, byte_at file q = if bool_decide (offset <= q < offset + Z.of_nat (length buf)) then buf !!! Z.to_nat (q - offset) else byte_at (ch_file c) q.
Proof.
  intros Hw Ho Hb Hne. destruct (perform_write_loop_spec no_hooks false (S (length buf)) (ch_file c) offset buf 0 tt) as (m & [] & Hr & Hm & _ & Hq);
    auto; [apply no_hooks_total|]. exists m. rewrite Z.add_0_l in Hr. done.
Qed.

Lemma child_append par fam j c offset buf :
  family_inv par fam -> kid fam j = Some c -> 0 <= offset -> offset + Z.of_nat (length buf) <= 2 ^ 43 ->
  Forall byte_ok buf -> buf <> [] -> last_eligible c < write_start offset ->
  exists fam', child_buffered_write kio_ok wenv_ok par fam j offset buf = Ok (Z.of_nat (length buf), par, fam') /\
    child_written par fam j c offset buf par fam'.
Proof.
  intros [Hok Hl] Hk Ho Hbd Hb Hne Hap. pose proof (fo_kids _ _ Hok _ _ Hk) as Hko.
  unfold child_buffered_write, scorw_write_child_blocks_begin. rewrite Hk, (proj2 (Z.ltb_lt _ _) Hap). cbn [mbind outcome_bind].
  change (negb (0 =? 0)) with false. cbn [shr_initialized shr_partial_cow orb andb].
  rewrite Hk, Nat2Z.id, take_ge by done.
  destruct (write_child_file c offset buf (ko_file _ _ _ _ Hko) Ho Hb Hne) as (file & -> & Hm & Hq). cbn [mbind outcome_bind].
  set (c1 := ch_set_file c file). unfold scorw_write_child_blocks_end. rewrite (kid_set fam j c c1 j Hk), decide_True by done.
  change (last_eligible c1) with (last_eligible c). rewrite (proj2 (Z.ltb_lt _ _) Hap). cbn [mbind outcome_bind].
  eexists. split; [done|]. assert (0 < Z.of_nat (length buf)) by (destruct buf; [done|simpl; lia]).
  destruct (write_blocks c offset (Z.of_nat (length buf)) (ko_size _ _ _ _ Hko) Ho) as (Hws & Hle & _ & _); [done|done|].
  apply (child_written_intro par fam j c offset buf par _ c1); auto; try done.
  - by apply par_same_refl, Hok.
  - apply pc_same_refl.
  - apply Hko.
  - apply (locks_free_hold _ _ j COPYING). eapply locks_hold_ext; [by apply (locks_free_hold _ _ j COPYING)| |done].
    by eapply same_shape_set.
  - assert (forall b, touched c offset (Z.of_nat (length buf)) b = false) as Ht.
    { intros b. unfold touched. rewrite Hws, Hle in Hap. destruct (Z.leb_spec (offset / PAGE_SIZE) b); [|done]. cbn [andb]. apply Z.leb_gt. lia. }
    split; cbn [c1 ch_set_file ch_file ch_frnd]; intros; rewrite Ht; [apply Hq|done].
Qed.

Lemma child_overwrite par fam j c offset buf :
  family_inv par fam -> kid fam j = Some c -> ch_ranges c = [] -> par_readable par c -> 0 <= offset ->
  offset + Z.of_nat (length buf) <= 2 ^ 43 -> Forall byte_ok buf -> buf <> [] -> write_start offset <= last_eligible c ->
  exists par' fam', child_buffered_write kio_ok wenv_ok par fam j offset buf = Ok (Z.of_nat (length buf), par', fam') /\
    child_written par fam j c offset buf par' fam'.
Proof.
  intros Hinv Hk Hrg Hrd Ho Hbd Hb Hne Hap. pose proof Hinv as [Hok Hl]. pose proof (fo_kids _ _ Hok _ _ Hk) as Hko.
  set (len := Z.of_nat (length buf)) in *. assert (0 < len) as Hlen by (subst len; destruct buf; [done|simpl; lia]).
  destruct (write_blocks c offset len (ko_size _ _ _ _ Hko) Ho Hlen Hbd) as (Hws & Hle & Hwe & _).
  unfold child_buffered_write, scorw_write_child_blocks_begin. fold len. rewrite Hk, (proj2 (Z.ltb_ge _ _) Hap), Hrg.
  rewrite range_loop_no_ranges by done. set (s := write_start offset) in *. set (e := write_end c offset len) in *.
  assert (0 <= s <= e /\ in_snapshot c e) as [Hse Hin].
  { pose proof (ko_size _ _ _ _ Hko). rewrite Hws, Hwe. rewrite Hws, Hle in Hap. unfold in_snapshot, PAGE_SIZE in *.
    Z.to_euclidean_division_equations. lia. }
  cbn [shr_initialized].
  destruct (prepare_blocks_spec par fam j c s e offset len Hinv Hk Hrd Hse Hin) as ([par1 fam1] & -> & Hpr).
  cbn [mbind outcome_bind fst snd shr_initialized shr_partial_cow orb andb]. change (negb (0 =? 0)) with false. cbv iota.
  unfold len. rewrite Nat2Z.id, take_ge by done. fold len.
  pose proof Hpr as [Hp Hca Hi Hc Hv (c1 & Hkids & Hs & Hf & Hbits & Hm & Hpg) Hl1]. cbn [fst snd] in *.
  assert (kid fam1 j = Some c1) as Hk1.
  { unfold kid. rewrite Hkids. pose proof Hk as Hk'. apply kid_lookup, lookup_lt_Some in Hk'. by rewrite list_lookup_insert_eq. }
  rewrite Hk1. destruct (write_child_file c1 offset buf Hm Ho Hb Hne) as (file & -> & Hmf & Hqf). cbn [mbind outcome_bind].
  set (c2 := ch_set_file c1 file). unfold scorw_write_child_blocks_end. rewrite (kid_set fam1 j c1 c2 j Hk1), decide_True by done.
  assert (last_eligible c2 = last_eligible c /\ write_end c2 offset len = e) as [-> ->].
  { subst e. unfold last_eligible, write_end, last_eligible. cbn. destruct Hs as (_ & _ & -> & _). done. }
  fold s. rewrite (proj2 (Z.ltb_ge _ _) Hap).
  destruct (finish_blocks_spec (fa_set_kid fam1 j c2) j c2 s e) as (fam2 & -> & [Hi2 Hc2 Hv2 (c' & Hkids2 & Hs2 & Hfile2 & Hw2 & Hbits2) Hl2]).
  { by rewrite (kid_set fam1 j c1 c2 j Hk1), decide_True. }
  { done. }
  { done. }
  { eapply locks_hold_ext; [exact Hl1|by apply (same_shape_set fam1 j c1)|]. intros b. cbn. by rewrite Hbits. }
  cbn [mbind outcome_bind]. eexists par1, fam2. split; [done|].
  assert (same_child c c') as Hsc by (destruct Hs as (?&?&?&?), Hs2 as (?&?&?&?); cbn in *; split_and!; congruence).
  assert (forall b, src_page par1 fam2 j b = src_page par fam j b) as Hsrc.
  { intros b. apply src_page_update; auto; [by rewrite Hi2|by rewrite Hc2]. }
  apply (child_written_intro par fam j c offset buf par1 fam2 c'); auto.
  - by rewrite Hi2.
  - by rewrite Hc2.
  - by rewrite Hv2.
  - rewrite Hkids2. cbn. by rewrite Hkids, !list_insert_insert_eq.
  - by rewrite Hfile2.
  - apply (locks_free_hold _ _ j COPYING). eapply locks_hold_ext; [exact Hl2|apply same_shape_refl|]. intros b. cbv beta.
    destruct (Z.ltb_spec e b), (Z.leb_spec b e); try done. lia.
  - split.
    + intros q _. rewrite Hfile2. cbn. eapply (child_bytes_written par fam j c s e offset buf c1 file); auto; done.
    + intros b Hb0. rewrite Hbits2 by done. cbn. rewrite Hbits. f_equal. unfold touched. fold len. rewrite <- Hws, <- Hwe. fold s e.
      destruct (Z.leb_spec s b), (Z.leb_spec b e); case_bool_decide; done || lia.
Qed.

Lemma child_write_spec par fam j c offset buf :
  family_inv par fam -> kid fam j = Some c -> ch_ranges c = [] -> par_readable par c -> 0 <= offset ->
  offset + Z.of_nat (length buf) <= 2 ^ 43 -> Forall byte_ok buf -> buf <> [] ->
  exists par' fam', child_buffered_write kio_ok wenv_ok par fam j offset buf = Ok (Z.of_nat (length buf), par', fam') /\
    child_written par fam j c offset buf par' fam'.
Proof.
  intros Hinv Hk Hrg Hrd Ho Hbd Hb Hne. destruct (Z.lt_ge_cases (last_eligible c) (write_start offset)) as [Hlt|Hge].
  - destruct (child_append par fam j c offset buf) as (fam' & ? & ?); auto. by exists par, fam'.
  - by apply (child_overwrite par fam j c offset buf).
Qed.

(** ** The family as a state machine *)

(** Writeback of a block of the parent, and the eviction of a clean page. *)
Definition writeback (par : mapping) (b : Z) : mapping :=
  Mapping (i_size par) (i_disksize par) (cache par) (<[b := file_page par b]> (disk par)).
Definition evict (par : mapping) (b : Z) : mapping :=
  Mapping (i_size par) (i_disksize par) (delete b (cache par)) (disk par).

(** The steps that are not writes of child [j]: writes to the parent, the page
    copy thread, writes of the other children, and the page cache, which must
    not write back a block whose old contents a page copy has yet to read. *)
Inductive fstep (j : nat) : mapping * family -> mapping * family -> Prop :=
| fs_parent_write par fam pos buf n par' fam' :
    0 <= pos -> pos + Z.of_nat (length buf) <= 2 ^ 43 -> Forall byte_ok buf -> buf <> [] ->
    perform_write_loop wenv_ok (family_hooks kio_ok) true (length buf) par pos buf 0 fam = Ok (n, par', fam') ->
    fstep j (par, fam) (par', fam')
| fs_thread par fam fam' :
    scorw_page_copy_thread_step kio_ok par fam = Ok fam' -> fstep j (par, fam) (par, fam')
| fs_child_write i c par fam offset buf n par' fam' :
    i <> j -> kid fam i = Some c -> ch_ranges c = [] -> par_readable par c -> 0 <= offset ->
    offset + Z.of_nat (length buf) <= 2 ^ 43 -> Forall byte_ok buf -> buf <> [] ->
    child_buffered_write kio_ok wenv_ok par fam i offset buf = Ok (n, par', fam') -> fstep j (par, fam) (par', fam')
| fs_writeback par fam b :
    (forall k pc, fa_copies fam !! k = Some pc -> pc_block_num pc = b -> data_page pc <> None) ->
    fstep j (par, fam) (writeback par b, fam)
| fs_evict par fam b :
    file_page par b = disk_page par b -> fstep j (par, fam) (evict par b, fam).

(** Steps of the page cache that change no page and no pending copy. *)
Lemma page_cache_kept par par' fam :
  family_inv par fam -> mapping_wf par' -> i_size par' = i_size par -> (forall i, file_page par' i = file_page par i) ->
  (forall k pc, fa_copies fam !! k = Some pc -> data_page pc = None -> disk_page par' (pc_block_num pc) = disk_page par (pc_block_num pc)) ->
  family_inv par' fam /\ views_kept par fam par' fam.
Proof.
  intros [Hok Hl] Hw Hs Hp Hd.
  assert (forall k pc, fa_copies fam !! k = Some pc -> pc_data par' pc = pc_data par pc) as Hdata.
  { intros k pc Hk. unfold pc_data. destruct (data_page pc) eqn:E; [done|]. cbn. unfold read_block. by rewrite Hs, (Hd k pc). }
  split; [split; [|done]|].
  - destruct Hok as [? ? ? Hkid Hpc Hu]. split; auto.
    + by rewrite Hs.
    + intros j c Hj. destruct (Hkid j c Hj). split; auto. by rewrite Hs.
    + intros k pc Hk. destruct (Hpc k pc Hk). split; auto; [by rewrite (Hdata k pc)|by rewrite Hs].
  - intros j c Hk. exists c. split_and!; auto. intros b _. unfold kept_page. destruct (friend_bit _ _); [done|]. f_equal.
    unfold src_page. destruct (newest_copy fam j b) as [pc|] eqn:E; cbn; [|apply Hp].
    apply newest_copy_match in E as ((k & Hpc) & _). by eapply Hdata.
Qed.

Lemma writeback_kept par fam b :
  family_inv par fam -> (forall k pc, fa_copies fam !! k = Some pc -> pc_block_num pc = b -> data_page pc <> None) ->
  family_inv (writeback par b) fam /\ views_kept par fam (writeback par b) fam.
Proof.
  intros Hinv Hno. pose proof (fo_par _ _ (proj1 Hinv)) as Hw. apply page_cache_kept; auto.
  - split; cbn; [apply Hw|apply Hw|]. intros i p. rewrite lookup_insert. case_decide; [intros [= <-]; by apply file_page_wf|apply Hw].
  - intros i. unfold file_page, disk_page. cbn. destruct (cache par !! i) eqn:E; [done|]. cbn. rewrite lookup_insert.
    case_decide; [subst; cbn; unfold file_page, disk_page; by rewrite E|done].
  - intros k pc Hk Hc. unfold disk_page. cbn. rewrite lookup_insert_ne; [done|]. intros Heq. by apply (Hno k pc Hk (eq_sym Heq)).
Qed.

Lemma evict_kept par fam b :
  family_inv par fam -> file_page par b = disk_page par b -> family_inv (evict par b) fam /\ views_kept par fam (evict par b) fam.
Proof.
  intros Hinv Hcl. pose proof (fo_par _ _ (proj1 Hinv)) as Hw. apply page_cache_kept; auto.
  - split; cbn; [apply Hw| |apply Hw]. intros i p [_ Hi]%lookup_delete_Some. by eapply wf_cache.
  - intros i. unfold file_page at 1. cbn. rewrite lookup_delete. case_decide; [subst; by rewrite Hcl|done].
Qed.

Lemma fstep_kept j par fam par' fam' :
  family_inv par fam -> fstep j (par, fam) (par', fam') ->
  family_inv par' fam' /\ forall c, kid fam j = Some c -> exists c', kid fam' j = Some c' /\
    ch_copy_size c' = ch_copy_size c /\ ch_ranges c' = ch_ranges c /\
    forall b, in_snapshot c b -> scorw_is_in_range (ch_ranges c) b = true -> kept_page par' fam' j c' b = kept_page par fam j c b.
Proof.
  intros Hinv Hst. inversion Hst as [? ? pos buf n ? ? Hp Hbd Hb Hne Hr|? ? ? Hr|i ci ? ? off buf n ? ? Hij Hk Hrg Hrd Ho Hbd Hb Hne Hr|? ? b Hno|? ? b Hcl]; subst.
  - destruct (parent_write_kept par fam pos buf Hinv Hp Hbd Hb Hne) as (p2 & f2 & Hr2 & Hinv2 & Hk2).
    rewrite Hr2 in Hr. simplify_eq. split; [done|]. intros c Hk. exact (Hk2 j c Hk).
  - destruct (thread_step_kept par' fam Hinv) as (f2 & Hr2 & Hinv2 & Hv2 & _). rewrite Hr2 in Hr. simplify_eq.
    split; [done|]. intros c Hk. exact (views_kept_snap _ _ _ _ Hv2 j c Hk).
  - destruct (child_write_spec par fam i ci off buf) as (p2 & f2 & Hr2 & [Hinv2 _ _ Hot]); auto.
    rewrite Hr2 in Hr. simplify_eq. split; [done|]. intros c Hkc. destruct (Hot j c (not_eq_sym Hij) Hkc) as [? ?]. exists c. by split_and!.
  - destruct (writeback_kept par fam' b Hinv Hno) as [? Hv]. split; [done|]. intros c Hk. exact (views_kept_snap _ _ _ _ Hv j c Hk).
  - destruct (evict_kept par fam' b Hinv Hcl) as [? Hv]. split; [done|]. intros c Hk. exact (views_kept_snap _ _ _ _ Hv j c Hk).
Qed.

(** ** Properties *)

(** What a child that keeps static copies has of every block it was made with, in
    a range where it keeps them, it has in the other state too. *)
Definition copies_kept (par : mapping) (fam : family) (par' : mapping) (fam' : family) : Prop :=
  forall j c b p, kid fam j = Some c -> in_snapshot c b -> scorw_is_in_range (ch_ranges c) b = true -> kept par fam j c b p ->
    exists c', kid fam' j = Some c' /\ kept par' fam' j c' b p.

Lemma snap_copies_kept par fam par' fam' : snap_kept par fam par' fam' -> copies_kept par fam par' fam'.
Proof.
  intros Hs j c b p Hk Hb Hr Hp. destruct (Hs j c Hk) as (c' & Hk' & _ & _ & Hv). exists c'. split; [done|].
  apply kept_iff. rewrite Hv by done. by apply kept_iff.
Qed.

Lemma fsteps_kept j c par par' fam fam' b :
  family_inv par fam -> kid fam j = Some c -> rtc (fstep j) (par, fam) (par', fam') ->
  in_snapshot c b -> scorw_is_in_range (ch_ranges c) b = true ->
  exists c', kid fam' j = Some c' /\ kept_page par' fam' j c' b = kept_page par fam j c b.
Proof.
  intros Hinv Hk Hr Hin Hir. remember (par, fam) as st eqn:Es. remember (par', fam') as st' eqn:Es'.
  revert par fam c Es Hinv Hk Hin Hir. induction Hr as [st|st [p1 f1] st2 Hst _ IH]; intros par fam c -> Hinv Hk Hin Hir.
  - simplify_eq. by exists c.
  - destruct (fstep_kept j par fam p1 f1 Hinv Hst) as [Hinv1 Hk1]. destruct (Hk1 c Hk) as (c1 & Hc1 & Hs1 & Hr1 & Hv1).
    destruct (IH Es' p1 f1 c1 eq_refl Hinv1 Hc1) as (c' & Hc' & Hv'); [unfold in_snapshot in *; by rewrite Hs1|by rewrite Hr1|].
    exists c'. split; [done|]. rewrite Hv'. by apply Hv1.
Qed.

Lemma no_copies fam j b : fa_copies fam = [] -> newest_copy fam j b = None.
Proof. intros Hno. unfold newest_copy. by rewrite Hno. Qed.


(** C2: A write of a child without ranges to itself, whose blocks can be read from the parent, lands
    exactly where it should.  It returns its length.  In the file of the child every
    byte it covers is as written; every other byte of a block of the snapshot that it touches is that of
    the page kept for the child, be that in the child, a page copy or the parent; all
    other bytes are as before.  The blocks of the snapshot that it touches are marked as copied, and
    no others.  The pages of the parent stay as they are, and so do the other
    children and what is kept for them; and no active-map entry is left behind. *)
Theorem child_write_exact (par : mapping) (fam : family) (j : nat) (c : child) (offset : Z) (buf : list Z) :
  let len := Z.of_nat (length buf) in
  family_inv par fam -> kid fam j = Some c -> ch_ranges c = [] -> par_readable par c -> 0 <= offset ->
  offset + len <= 2 ^ 43 -> Forall byte_ok buf -> buf <> [] ->
  exists par' fam' c', child_buffered_write kio_ok wenv_ok par fam j offset buf = Ok (len, par', fam') /\
    family_inv par' fam' /\ kid fam' j = Some c' /\
    (forall q, offset <= q < offset + len -> byte_at (ch_file c') q = buf !!! Z.to_nat (q - offset)) /\
    (forall q p, 0 <= q -> ~ offset <= q < offset + len -> touched c offset len (q / PAGE_SIZE) = true -> kept par fam j c (q / PAGE_SIZE) p ->
       byte_at (ch_file c') q = p !!! Z.to_nat (q mod PAGE_SIZE)) /\
    (forall q, 0 <= q -> ~ offset <= q < offset + len -> touched c offset len (q / PAGE_SIZE) = false -> byte_at (ch_file c') q = byte_at (ch_file c) q) /\
    (forall b, 0 <= b -> friend_bit (ch_frnd c') b = touched c offset len b || friend_bit (ch_frnd c) b) /\
    (forall i, file_page par' i = file_page par i) /\
    (forall i ci b p, i <> j -> kid fam i = Some ci -> kid fam' i = Some ci /\ (kept par fam i ci b p -> kept par' fam' i ci b p)).
Proof.
  cbv zeta. intros Hinv Hk Hrg Hrd Ho Hbd Hb Hne.
  destruct (child_write_spec par fam j c offset buf) as (par' & fam' & Hr & [Hi Hp (c' & Hc' & _ & [Hq Hbits]) Hot]); auto.
  exists par', fam', c'. split_and!; auto; [| | |apply Hp|].
  - intros q Hw. rewrite Hq, bool_decide_true by lia. done.
  - intros q p Hq0 Hw Ht Hpk%kept_iff. by rewrite Hq, bool_decide_false, Ht, Hpk by done.
  - intros q Hq0 Hw Ht. by rewrite Hq, bool_decide_false, Ht by done.
  - intros i ci b p Hij Hci. destruct (Hot i ci Hij Hci) as [? Hv]. split; [done|]. rewrite !kept_iff. by rewrite Hv.
Qed.

(** C39: A write to the parent returns its length and loses no static copy of any
    child: what was kept for it is still in its file, a page copy or the parent.  Nor
    does the page copy thread, which returns and takes the oldest page copy off its
    list. *)
Theorem parent_write_and_thread_total (par : mapping) (fam : family) (pos : Z) (buf : list Z) :
  family_inv par fam -> 0 <= pos -> pos + Z.of_nat (length buf) <= 2 ^ 43 -> Forall byte_ok buf -> buf <> [] ->
  exists par' fam' fam'', perform_write_loop wenv_ok (family_hooks kio_ok) true (length buf) par pos buf 0 fam =
      Ok (Z.of_nat (length buf), par', fam') /\ copies_kept par fam par' fam' /\
    scorw_page_copy_thread_step kio_ok par' fam' = Ok fam'' /\ copies_kept par fam par' fam'' /\
    length (fa_copies fam'') = pred (length (fa_copies fam')) /\ family_inv par' fam''.
Proof.
  intros Hinv Hp Hbd Hb Hne. destruct (parent_write_kept par fam pos buf) as (par' & fam' & Hr & Hinv' & Hk); auto.
  destruct (thread_step_kept par' fam' Hinv') as (fam'' & Hr' & Hinv'' & Hv & Hl). exists par', fam', fam''.
  split_and!; auto; apply snap_copies_kept; [done|]. eapply snap_kept_trans; [done|by apply views_kept_snap].
Qed.

(** ** Properties of the ranges *)

Definition read_only (w : WriteCh) : bool :=
  match w with SNAPX_FLAG_COW_RO | SNAPX_FLAG_SEE_TH_RO | SNAPX_FLAG_SHARED_RO => true | _ => false end.

(** A write of a child that starts in one of its read-only ranges is refused
    with -1 before anything has changed. *)
Theorem read_only_range_refused (io : kio) (e : wenv) (par : mapping) (fam : family) (j : nat) (c : child) (r : child_range)
    (offset : Z) (buf : list Z) :
  kid fam j = Some c -> 0 < ch_copy_size c <= 2 ^ 32 -> 0 <= offset -> offset + Z.of_nat (length buf) <= 2 ^ 43 -> buf <> [] ->
  offset < ch_copy_size c ->
  List.find (in_child_range (offset / PAGE_SIZE)) (ch_ranges c) = Some r -> read_only (snapx_behavior r) = true ->
  child_buffered_write io e par fam j offset buf = Ok (-1, par, fam).
Proof.
  intros Hk Hs Ho Hbd Hne Hlt Hf Hro. set (len := Z.of_nat (length buf)) in *.
  assert (0 < len) as Hlen by (subst len; destruct buf; [done|simpl; lia]).
  destruct (write_blocks c offset len Hs Ho Hlen Hbd) as (Hws & Hle & Hwe & _).
  unfold child_buffered_write, scorw_write_child_blocks_begin. fold len. rewrite Hk, Hwe, Hws, Hle.
  rewrite (proj2 (Z.ltb_ge _ _)) by (apply Z.div_le_mono; [by compute|lia]).
  rewrite zrange_cons by (apply Z.min_glb; apply Z.div_le_mono; [by compute|lia|by compute|lia]).
  cbn [range_loop]. rewrite Z.eqb_refl. cbn [andb negb]. rewrite andb_false_r. unfold snapx_get_range_info.
  destruct (ch_ranges c) as [|r0 rs] eqn:Er; [done|]. rewrite Hf. cbn [shr_initialized]. rewrite andb_false_r.
  destruct (snapx_behavior r); cbn in Hro; done.
Qed.

(** Read-only ranges are not enforced past the first block: when the first
    block of a write lies in no range of the child, the preparation looks at no
    other block, so it goes on whatever the behaviour of the blocks that
    follow. *)
Theorem read_only_range_bypassed (io : kio) (par : mapping) (fam : family) (j : nat) (c : child) (offset len : Z) :
  kid fam j = Some c -> write_start offset <= last_eligible c ->
  List.find (in_child_range (write_start offset)) (ch_ranges c) = None ->
  let shr := SharingRangeInfo false false 0 0 in
  scorw_write_child_blocks_begin io par fam j offset len shr =
  (s ← for_each (zrange (write_start offset) (write_end c offset len))
        (prepare_block io j false (write_start offset) (write_end c offset len) offset len) (par, fam);
   Ok (0, s.1, s.2, shr)).
Proof.
  intros Hk Hle Hf shr. unfold scorw_write_child_blocks_begin. rewrite Hk, (proj2 (Z.ltb_ge _ _) Hle).
  assert (range_loop (ch_ranges c) (write_start offset) (zrange (write_start offset) (write_end c offset len)) None shr
    (write_end c offset len) = Some (shr, write_end c offset len)) as ->; [|done].
  assert (snapx_get_range_info None (ch_ranges c) (write_start offset) = (SNAPX_FLAG_COW, None)) as Hg.
  { unfold snapx_get_range_info. destruct (ch_ranges c); [done|]. by rewrite Hf. }
  destruct (Z.le_gt_cases (write_start offset) (write_end c offset len)); [|by rewrite zrange_empty].
  rewrite zrange_cons by done. cbn [range_loop]. rewrite Z.eqb_refl, andb_false_r, Hg. cbn.
  destruct (Z.le_gt_cases (write_start offset + 1) (write_end c offset len)); [|by rewrite zrange_empty].
  rewrite zrange_cons by done. cbn [range_loop]. rewrite (proj2 (Z.eqb_neq _ _)) by lia. done.
Qed.

(** ** A failing write of the parent *)

Lemma barrier_begin_bars b bars :
  Forall free_bar bars -> exists bars', barrier_children b bars = Ok bars' /\ length bars' = length bars /\
    forall j bc, bars !! j = Some (Some bc) -> 1 < bc_usage bc ->
      exists bc', bars' !! j = Some (Some bc') /\ scorw_find_uncopied_block_list (bc_table bc') b = Some (new_block b COPYING_EXCL).
Proof.
  induction 1 as [|o bars Hf _ (bars' & Hb & Hl & IH)]; [by exists []|].
  assert (exists o', barrier_child_begin b o = Ok o' /\ forall bc, o = Some bc -> 1 < bc_usage bc -> exists bc', o' = Some bc' /\
    scorw_find_uncopied_block_list (bc_table bc') b = Some (new_block b COPYING_EXCL)) as (o' & Ho & Hos).
  { destruct o as [bc|]; [|by exists None]. destruct Hf as [Hw Hf]. cbn. destruct (Z.ltb_spec 1 (bc_usage bc)).
    - rewrite get_free by done. eexists. split; [done|]. intros _ _ _. eexists. split; [done|]. cbn.
      destruct (get_free_spec (bc_table bc) b COPYING_EXCL Hw (Hf b)) as [_ Hf1]. by rewrite Hf1, decide_True.
    - eexists. split; [done|]. intros ? [= <-]. lia. }
  cbn. rewrite Ho. cbn. rewrite Hb. cbn. eexists. split; [done|]. split; [by cbn; rewrite Hl|].
  intros [|j] bc Hj Hu; cbn in *; [|by eapply IH]. injection Hj as ->. destruct (Hos bc eq_refl Hu) as (bc' & -> & ?). by exists bc'.
Qed.

(** When the page cache cannot give the page of a write to the parent, the
    error is returned but the read barrier stays up: the read hold on the
    parent's lock is kept, and block 0 of every child in use stays held for
    exclusive copying, so that the next write of such a child to its first block
    waits for ever. *)
Theorem failed_parent_write_leaks_barrier (io : kio) (e : wenv) (par : mapping) (fam : family) (pos : Z) (buf : list Z) :
  locks_free fam -> io_wbegin (we_io e) < 0 -> we_signal e pos = false ->
  exists fam', perform_write_loop e (family_hooks io) true (S (length buf)) par pos buf 0 fam = Ok (io_wbegin (we_io e), par, fam') /\
    bs_lock_readers (fa_locks fam') = bs_lock_readers (fa_locks fam) + 1 /\
    forall j bc, kid_map fam j = Some bc -> 1 < bc_usage bc -> kid_get io fam' j 0 COPYING = Hang.
Proof.
  intros Hl Hw Hs. cbn [perform_write_loop]. rewrite Hs, land_page.
  replace (u32 (Z.shiftr (pos mod PAGE_SIZE) PAGE_SHIFT)) with 0
    by (rewrite shiftr_page, Z.div_small by (apply Z.mod_pos_bound; done); done).
  replace (u32 (Z.shiftr (i_size par - 1) PAGE_SHIFT) <? 0) with false
    by (symmetry; apply Z.ltb_ge; unfold u32; apply wrap_bound; lia).
  cbn [andb negb family_hooks rb_begin]. unfold scorw_read_barrier_begin, scorw_da_write_begin.
  destruct (barrier_begin_bars 0 (bs_children (fa_locks fam))) as (bars' & -> & _ & Hb).
  { apply Forall_lookup. intros i o Ho. destruct (Forall2_lookup_r _ _ _ _ _ Hl Ho) as (k & _ & _ & Hf). done. }
  cbn [mbind outcome_bind]. rewrite (proj2 (Z.ltb_lt _ _) Hw). eexists. split; [done|]. cbn. split; [done|].
  intros j bc Hj Hu. unfold kid_map in Hj. destruct (bs_children (fa_locks fam) !! j) as [[bc0|]|] eqn:Ej; [|done|done].
  cbn in Hj. injection Hj as ->. destruct (Hb j bc Ej Hu) as (bc' & Hj' & Hf'). unfold kid_get, kid_map. cbn. rewrite Hj'. cbn.
  unfold get_first. by rewrite Hf'.
Qed.

End child_write.

(** ** A concrete family *)

(** One bucket for every key. *)
#[local] Instance one_map : HashMin :=
  {| hash_min := fun _ => O; table_size := 1; hash_min_bound := fun _ => Nat.lt_0_1 |}.

Definition full_page (x : Z) : page := replicate (Z.to_nat PAGE_SIZE) x.

(** A parent of two blocks on disk, none of them cached, and children of the
    same size that have copied nothing. *)
Definition demo_par : mapping := Mapping 8192 8192 ∅ (<[0 := full_page 1]> {[1 := full_page 2]}).
Definition demo_child (j : Z) (ranges : list child_range) : child := Child (12 + 10 * j) j 8192 ranges empty_friend empty_friend 2.
Definition demo_fam (kids : list (option child)) : family :=
  Family 11 kids (BarrierState (option_map (fun _ : child => BarrierChild [[]] 2 false) <$> kids) 0) []
    (w12 (c12 false true 1) (f13 1 1) [] []) 0 0.

(** The page kept for child [j] of block 0 before and after a run of operations. *)
Definition view_change (j : nat) (before after : mapping * family) : outcome (page * page) :=
  match kid before.2 j, kid after.2 j with
  | Some c, Some c' => Ok (kept_page before.1 before.2 j c 0, kept_page after.1 after.2 j c' 0)
  | _, _ => Bug
  end.

(** Overwrite block 0 of the parent as a whole, write it back, then let the page
    copy thread run. *)
Definition cold_run : outcome (page * page) :=
  let fam := demo_fam [Some (demo_child 0 [])] in
  w ← perform_write_loop wenv_ok (family_hooks kio_ok) true 4096 demo_par 0 (full_page 7) 0 fam;
  let '(_, par1, fam1) := w in
  fam2 ← scorw_page_copy_thread_step kio_ok (writeback par1 0) fam1;
  view_change 0 (demo_par, fam) (writeback par1 0, fam2).

(** Without the ordering of writebacks, which is commented out in
    [filemap.c], a snapshot is lost: when a block of the parent that is not
    cached is overwritten as a whole and written back before the page copy
    thread has read the old block from disk, the new contents are copied to the child. *)
Theorem cold_copy_lost_on_writeback : cold_run = Ok (full_page 1, full_page 7).
Proof. by vm_compute. Qed.

(** Overwrite part of block 0 of the parent, then let the page copy thread run
    while the child file cannot be given a page. *)
Definition failing_run : outcome (page * page * nat) :=
  let fam := demo_fam [Some (demo_child 0 [])] in
  w ← perform_write_loop wenv_ok (family_hooks kio_ok) true 4096 demo_par 0 [7; 7; 7] 0 fam;
  let '(_, par1, fam1) := w in
  fam2 ← scorw_page_copy_thread_step (Kio io_ok io_ok io_full true) par1 fam1;
  v ← view_change 0 (demo_par, fam) (par1, fam2);
  Ok (v, length (fa_copies fam2)).

(** A failure to write a block to a child loses its snapshot: the page copy
    thread drops the page copy whether or not the block has reached the child,
    for which only the parent's new contents are left. *)
Theorem failed_copy_drops_snapshot : failing_run = Ok (full_page 1, page_write (full_page 1) 0 [7; 7; 7], O).
Proof. by vm_compute. Qed.

(** Child 0, which shares block 0 with the parent, writes it; child 1 keeps a
    static copy. *)
Definition shared_run : outcome (page * page) :=
  let fam := demo_fam [Some (demo_child 0 [ChildRange 0 0 SNAPX_FLAG_SHARED]); Some (demo_child 1 [])] in
  w ← child_buffered_write kio_ok wenv_ok demo_par fam 0 0 [7; 7; 7];
  let '(_, par1, fam1) := w in view_change 1 (demo_par, fam) (par1, fam1).

(** A write through a shared range goes to the parent without a page copy
    for the other children: for a sibling that keeps a static copy of the block
    only the new contents are left. *)
Theorem shared_write_breaks_sibling : shared_run = Ok (full_page 1, page_write (full_page 1) 0 [7; 7; 7]).
Proof. by vm_compute. Qed.

(** ** Witnesses *)

Definition demo (ranges : list child_range) : family := demo_fam [Some (demo_child 0 ranges)].

Lemma full_page_wf x : byte_ok x -> page_wf (full_page x).
Proof. intros Hx. unfold full_page. split; [by autorewrite with len|by apply Forall_replicate]. Qed.

Lemma demo_par_wf : mapping_wf demo_par.
Proof.
  split; [done|cbn; by intros i p ?%lookup_empty_Some|]. intros i p. cbn. rewrite lookup_insert.
  case_decide; [intros [= <-]; by apply full_page_wf|]. intros [_ <-]%lookup_singleton_Some. by apply full_page_wf.
Qed.

Lemma demo_kid ranges j c : kid (demo ranges) j = Some c -> j = O /\ c = demo_child 0 ranges.
Proof. intros Hk. destruct j as [|[|j]]; cbn in Hk; by simplify_eq. Qed.

Lemma demo_inv ranges : family_inv demo_par (demo ranges).
Proof.
  split.
  - split; [apply demo_par_wf|by compute|unfold SCORW_MAX_CHILDS; cbn [demo demo_fam fa_kids length]; lia| |done|done].
    intros j c Hk. apply demo_kid in Hk as [-> ->].
    split; [done|apply empty_friend_wf|apply empty_friend_wf|by compute|by compute|].
    exists (c12 false true 1), (f13 1 1). split_and!; [done|done|by right].
  - constructor; [|constructor]. split; [done|]. cbn. split; [|done]. split; [done|]. intros k. constructor.
Qed.

Definition sevens : list Z := [7; 7; 7].
Lemma sevens_ok : Forall byte_ok sevens.
Proof. repeat constructor; by compute. Qed.

(** Three bytes of the parent are overwritten. *)
Lemma demo_kept : kept demo_par (demo []) 0 (demo_child 0 []) 0 (full_page 1).
Proof. apply kept_iff. by vm_compute. Qed.

Lemma demo_readable ranges : par_readable demo_par (demo_child 0 ranges).
Proof. intros b [_ Hb]. left. cbn in Hb. unfold PAGE_SIZE in Hb. change (Z.shiftr (i_size demo_par) PAGE_SHIFT) with 2. lia. Qed.

(** The child overwrites three bytes across its two blocks. *)
Lemma child_write_exact_witness :
  exists par' fam' c', child_buffered_write kio_ok wenv_ok demo_par (demo []) 0 4095 sevens = Ok (3, par', fam') /\
    family_inv par' fam' /\ kid fam' 0 = Some c' /\
    (forall q, 4095 <= q < 4095 + 3 -> byte_at (ch_file c') q = sevens !!! Z.to_nat (q - 4095)) /\
    (forall q p, 0 <= q -> ~ 4095 <= q < 4095 + 3 -> touched (demo_child 0 []) 4095 3 (q / PAGE_SIZE) = true -> kept demo_par (demo []) 0 (demo_child 0 []) (q / PAGE_SIZE) p ->
       byte_at (ch_file c') q = p !!! Z.to_nat (q mod PAGE_SIZE)) /\
    (forall q, 0 <= q -> ~ 4095 <= q < 4095 + 3 -> touched (demo_child 0 []) 4095 3 (q / PAGE_SIZE) = false ->
       byte_at (ch_file c') q = byte_at (ch_file (demo_child 0 [])) q) /\
    (forall b, 0 <= b -> friend_bit (ch_frnd c') b = touched (demo_child 0 []) 4095 3 b || friend_bit (ch_frnd (demo_child 0 [])) b) /\
    (forall i, file_page par' i = file_page demo_par i) /\
    (forall i ci b p, i <> O -> kid (demo []) i = Some ci -> kid fam' i = Some ci /\ (kept demo_par (demo []) i ci b p -> kept par' fam' i ci b p)).
Proof.
  apply (child_write_exact demo_par (demo []) 0 (demo_child 0 []) 4095 sevens);
    [apply demo_inv|done|done|apply demo_readable|done|by compute|apply sevens_ok|done].
Defined.

Lemma parent_write_and_thread_total_witness :
  exists par' fam' fam'', perform_write_loop wenv_ok (family_hooks kio_ok) true 3 demo_par 0 sevens 0 (demo []) = Ok (3, par', fam') /\
    copies_kept demo_par (demo []) par' fam' /\
    scorw_page_copy_thread_step kio_ok par' fam' = Ok fam'' /\ copies_kept demo_par (demo []) par' fam'' /\
    length (fa_copies fam'') = pred (length (fa_copies fam')) /\ family_inv par' fam''.
Proof.
  apply (parent_write_and_thread_total demo_par (demo []) 0 sevens); [apply demo_inv|done|by compute|apply sevens_ok|done].
Defined.

Lemma read_only_range_refused_witness :
  child_buffered_write kio_ok wenv_ok demo_par (demo [ChildRange 1 1 SNAPX_FLAG_COW_RO]) 0 4096 sevens =
  Ok (-1, demo_par, demo [ChildRange 1 1 SNAPX_FLAG_COW_RO]).
Proof.
  by apply (read_only_range_refused kio_ok wenv_ok demo_par (demo [ChildRange 1 1 SNAPX_FLAG_COW_RO]) 0
    (demo_child 0 [ChildRange 1 1 SNAPX_FLAG_COW_RO]) (ChildRange 1 1 SNAPX_FLAG_COW_RO) 4096 sevens).
Defined.

(** A write of both blocks, the second of which is read-only. *)
Lemma read_only_range_bypassed_witness :
  let fam := demo [ChildRange 1 1 SNAPX_FLAG_COW_RO] in
  scorw_write_child_blocks_begin kio_ok demo_par fam 0 0 8192 (SharingRangeInfo false false 0 0) =
  (s ← for_each (zrange 0 1) (prepare_block kio_ok 0 false 0 1 0 8192) (demo_par, fam);
   Ok (0, s.1, s.2, SharingRangeInfo false false 0 0)).
Proof.
  by apply (read_only_range_bypassed kio_ok demo_par (demo [ChildRange 1 1 SNAPX_FLAG_COW_RO]) 0
    (demo_child 0 [ChildRange 1 1 SNAPX_FLAG_COW_RO]) 0 8192).
Defined.

Lemma failed_parent_write_leaks_barrier_witness :
  let e := WEnv io_full (fun _ => false) (fun _ bytes => bytes) in
  exists fam', perform_write_loop e (family_hooks kio_ok) true 4 demo_par 0 sevens 0 (demo []) = Ok (-28, demo_par, fam') /\
    bs_lock_readers (fa_locks fam') = 0 + 1 /\
    forall j bc, kid_map (demo []) j = Some bc -> 1 < bc_usage bc -> kid_get kio_ok fam' j 0 COPYING = Hang.
Proof.
  apply (failed_parent_write_leaks_barrier kio_ok (WEnv io_full (fun _ => false) (fun _ bytes => bytes))
    demo_par (demo []) 0 sevens); [apply demo_inv|done|done].
Defined.
