(* ===== verification/ChildRead.v ===== *)
(** Reading a file: [ext4_file_read_iter] ([file.c]), which sends the reads of a child
    and of a parent with a log to [scorw_read_from_parent]; and what that means for
    a child that writes, or whose parent is written in place. *)

From S2P Require Import Prelude Pages Friend Log Versions Txn SeeThru ActiveMap VersionCount PageCopy ChildWrite.

(** The file a reader has open: a child, with its version, the scorw inode of its
    parent (after the attempt to get one), the original size attribute of the
    parent, the data of the parent and its own; a parent, or another file with a
    scorw inode, whose log inode is that of its versions; and any other file. *)
Inductive read_file :=
| ReadChild (ver : Z) (source : option vstate) (org : Z) (par own : mapping)
| ReadParent (s : vstate) (m : mapping)
| ReadOther (m : mapping).

(** [generic_file_read_iter] of any range. *)
Definition generic_read (m : mapping) (pos count : Z) : list Z :=
  if i_size m <=? pos then [] else byte_at m <$> zseq pos (Z.to_nat (Z.min count (i_size m - pos))).

(** [ext4_file_read_iter]: an error or the bytes read.  [shutdown] and [direct] are
    [ext4_forced_shutdown] and [IOCB_DIRECT]. *)
Definition ext4_file_read_iter (ve : venv) (shutdown direct : bool) (f : read_file) (pos count : Z) : outcome (Z + list Z) :=
  let versioned ver source org m :=
    if direct then Ok (inr []) else r ← scorw_read_from_parent ve ver source org m pos count; Ok (inr r.1.1) in
  if shutdown then Ok (inl (- EIO))
  else if count =? 0 then Ok (inr [])
  else match f with
  | ReadChild ver source org par own => versioned ver source org par
  | ReadParent s m => match i_log s with Some _ => versioned (version s) (Some s) (par_org s) m | None => Ok (inr (generic_read m pos count)) end
  | ReadOther m => Ok (inr (generic_read m pos count))
  end.

(** ** Lemmas *)

Lemma generic_read_same m m' pos count :
  i_size m' = i_size m -> (forall i, file_page m' i = file_page m i) -> (generic_file_read_iter m' pos count).1 = (generic_file_read_iter m pos count).1.
Proof. intros Hs Hp. unfold generic_file_read_iter. rewrite Hs, !Hp. by destruct (_ <=? pos). Qed.

(** What a child reads depends on the pages of the parent only. *)
Lemma child_read_same ve shutdown direct ver source org par own par' own' pos count :
  i_size par' = i_size par -> (forall i, file_page par' i = file_page par i) ->
  ext4_file_read_iter ve shutdown direct (ReadChild ver source org par' own') pos count =
  ext4_file_read_iter ve shutdown direct (ReadChild ver source org par own) pos count.
Proof.
  intros Hs Hp. unfold ext4_file_read_iter, scorw_read_from_parent. destruct shutdown; [done|]. destruct (count =? 0); [done|]. destruct direct; [done|].
  destruct (scorw_lookup_physical_block _ _ _ _) as [[t s1]| |]; cbn [mbind outcome_bind]; [|done|done].
  set (a := s64 (t * PAGE_SIZE) + _). set (n := if _ <? count then _ else _).
  pose proof (generic_read_same par par' a n Hs Hp) as H1. pose proof (generic_read_same par par' pos n Hs Hp) as H2.
  destruct (negb _).
  - destruct (generic_file_read_iter par a n), (generic_file_read_iter par' a n). cbn in *. by subst.
  - destruct (org <=? pos); [done|]. destruct (generic_file_read_iter par pos n), (generic_file_read_iter par' pos n). cbn in *. by subst.
Qed.

(** ** Properties *)

(** C36: A child does not read what it writes: its write succeeds, and its file holds the
    bytes; but a read of the child, of any range, at any version, returns
    what it returned before the write, since it is served from the pages of the parent, which the
    write leaves alone.  (For a child without ranges, whose blocks can be read from the
    parent.) *)
Theorem child_reads_miss_its_writes `{HashMin} (par : mapping) (fam : family) (j : nat) (c : child) (offset : Z) (buf : list Z) :
  let len := Z.of_nat (length buf) in
  family_inv par fam -> kid fam j = Some c -> ch_ranges c = [] -> par_readable par c -> 0 <= offset ->
  offset + len <= 2 ^ 43 -> Forall byte_ok buf -> buf <> [] ->
  exists par' fam' c', child_buffered_write kio_ok wenv_ok par fam j offset buf = Ok (len, par', fam') /\ kid fam' j = Some c' /\
    (forall q, offset <= q < offset + len -> byte_at (ch_file c') q = buf !!! Z.to_nat (q - offset)) /\
    forall ve shutdown direct ver source org pos count,
      ext4_file_read_iter ve shutdown direct (ReadChild ver source org par' (ch_file c')) pos count =
      ext4_file_read_iter ve shutdown direct (ReadChild ver source org par (ch_file c)) pos count.
Proof.
  cbv zeta. intros Hinv Hk Hrg Hrd Ho Hbd Hb Hne.
  destruct (child_write_spec par fam j c offset buf) as (par' & fam' & Hr & [_ (_ & Hs & _ & Hp) (c' & Hc' & _ & [Hq _]) _]); auto.
  exists par', fam', c'. split_and!; [done|done| |].
  - intros q Hw. rewrite Hq, bool_decide_true by lia. done.
  - intros. by apply child_read_same.
Qed.

(** ** Witnesses *)

#[local] Existing Instance one_map.

Lemma child_reads_miss_its_writes_witness :
  exists par' fam' c', child_buffered_write kio_ok wenv_ok demo_par (demo []) 0 4095 sevens = Ok (3, par', fam') /\ kid fam' 0 = Some c' /\
    (forall q, 4095 <= q < 4095 + 3 -> byte_at (ch_file c') q = sevens !!! Z.to_nat (q - 4095)) /\
    forall ve shutdown direct ver source org pos count,
      ext4_file_read_iter ve shutdown direct (ReadChild ver source org par' (ch_file c')) pos count =
      ext4_file_read_iter ve shutdown direct (ReadChild ver source org demo_par (ch_file (demo_child 0 []))) pos count.
Proof.
  apply (child_reads_miss_its_writes demo_par (demo []) 0 (demo_child 0 []) 4095 sevens);
    [apply demo_inv|done|done|apply demo_readable|done|by compute|apply sevens_ok|done].
Defined.

(** A parent that is not in see-through mode is written in place.  The layer keeps the
    old page for the child, but the child reads the new bytes. *)
Definition in_place_run : outcome (Z + list Z) :=
  w ← perform_write_loop wenv_ok (family_hooks kio_ok) true 4096 demo_par 0 sevens 0 (demo []);
  let '(_, par1, fam1) := w in
  match kid fam1 0 with
  | None => Bug
  | Some c => ext4_file_read_iter venv_ok false false (ReadChild 0 (Some (fresh_vstate 0 8192 empty_log)) 8192 par1 (ch_file c)) 0 4
  end.
Theorem child_reads_parent_written_in_place : in_place_run = Ok (inr [7; 7; 7; 1]).
Proof. by vm_compute. Qed.
