(* ===== verification/Lifecycle.v ===== *)
(** The life cycle of scorw inodes: opening and closing a parent or a child
    ([ext4_file_open], [ext4_release_file] of [file.c]), the reference counts
    behind it ([scorw_get_inode], [scorw_put_inode]), attaching a new child to an
    open parent ([special_open]) and unlinking a child
    ([scorw_unlink_child_file], [corw_sparse.c]).

    Mutexes are flags of the inodes: taking one that is held is [Hang], since the
    thread that holds it is the one that waits.  What preparing and unpreparing a
    child does to the version counts and the friend file is an interface,
    [ChildAttach]; [VersionCount] implements it. *)

From S2P Require Import Prelude Pages Friend GC VersionCount PageCopy.

(** ** State *)

(** What the life cycle reads and writes of [struct scorw_inode].  Inodes are
    named by their number, 0 is NULL; [si_kids] is [i_child_scorw_inode],
    [si_added] and [si_removed] count page copies, [si_pending] is
    [i_pending_copy_pages]. *)
Record sinode := SInode {
  si_par : Z;
  si_usage : Z;
  si_index : Z;
  si_unlinked : bool;
  si_kids : list Z;
  si_last : Z;
  si_added : Z;
  si_removed : Z;
  si_version : Z;
  si_pending : Z
}.

(** An inode: its scorw inode, [i_vfs_inode_lock], [i_vfs_inode_open_close_lock],
    [i_vfs_inode_open_count], and the attributes of the layer: the parent, the
    children by slot, the current version, the blocks a child has still to copy.
    [vi_refs] counts the references the
    layer holds on it for its scorw inodes as the parent side ([ext4_iget] of
    [scorw_prepare_par_inode] and of the parent in
    [scorw_prepare_child_inode]). *)
Record vinode := VInode {
  vi_scorw : option sinode;
  vi_lock : bool;
  vi_oc_lock : bool;
  vi_open_count : Z;
  vi_refs : Z;
  at_parent : Z;
  at_children : list Z;
  at_version : Z;
  at_blocks : Z
}.

(** All inodes, [frnd_version_cnt_lock], the list of scorw inodes, the list of
    page copies, and the state of the version counts. *)
Record lworld (V : Type) := LWorld {
  lw_inodes : gmap Z vinode;
  lw_frnd_lock : bool;
  lw_list : list Z;
  lw_copies : list page_copy;
  lw_v : V
}.
Arguments LWorld {V}.
Arguments lw_inodes {V}.
Arguments lw_frnd_lock {V}.
Arguments lw_list {V}.
Arguments lw_copies {V}.
Arguments lw_v {V}.

(** Preparing and unpreparing the scorw inode of a child. *)
Class ChildAttach (V : Type) := {
  prepare_child : V -> Z -> outcome V;
  unprepare_child : V -> Z -> outcome V
}.

(** What the environment answers: memory for a scorw inode; whether an inode
    number can be read; the version a parent has after
    [scorw_prepare_par_inode]; whether ending the transaction of a closing file
    fails. *)
Record lenv := LEnv {
  le_mem : bool;
  le_iget : Z -> bool;
  le_prepare_par : Z -> Z -> outcome Z;
  le_abort_fails : bool
}.

(** ** Updates *)

Definition si_set_usage (s : sinode) (n : Z) : sinode :=
  SInode (si_par s) n (si_index s) (si_unlinked s) (si_kids s) (si_last s) (si_added s) (si_removed s) (si_version s) (si_pending s).
Definition si_set_index (s : sinode) (i : Z) : sinode :=
  SInode (si_par s) (si_usage s) i (si_unlinked s) (si_kids s) (si_last s) (si_added s) (si_removed s) (si_version s) (si_pending s).
Definition si_set_unlinked (s : sinode) (b : bool) : sinode :=
  SInode (si_par s) (si_usage s) (si_index s) b (si_kids s) (si_last s) (si_added s) (si_removed s) (si_version s) (si_pending s).
Definition si_set_kids (s : sinode) (l : list Z) (last : Z) : sinode :=
  SInode (si_par s) (si_usage s) (si_index s) (si_unlinked s) l last (si_added s) (si_removed s) (si_version s) (si_pending s).
Definition si_set_copies (s : sinode) (a r : Z) : sinode :=
  SInode (si_par s) (si_usage s) (si_index s) (si_unlinked s) (si_kids s) (si_last s) a r (si_version s) (si_pending s).

Definition vi_set_scorw (v : vinode) (s : option sinode) : vinode :=
  VInode s (vi_lock v) (vi_oc_lock v) (vi_open_count v) (vi_refs v) (at_parent v) (at_children v) (at_version v) (at_blocks v).
Definition vi_set_lock (v : vinode) (b : bool) : vinode :=
  VInode (vi_scorw v) b (vi_oc_lock v) (vi_open_count v) (vi_refs v) (at_parent v) (at_children v) (at_version v) (at_blocks v).
Definition vi_set_oc_lock (v : vinode) (b : bool) : vinode :=
  VInode (vi_scorw v) (vi_lock v) b (vi_open_count v) (vi_refs v) (at_parent v) (at_children v) (at_version v) (at_blocks v).
Definition vi_add_open (v : vinode) (n : Z) : vinode :=
  VInode (vi_scorw v) (vi_lock v) (vi_oc_lock v) (vi_open_count v + n) (vi_refs v) (at_parent v) (at_children v) (at_version v) (at_blocks v).
Definition vi_add_refs (v : vinode) (n : Z) : vinode :=
  VInode (vi_scorw v) (vi_lock v) (vi_oc_lock v) (vi_open_count v) (vi_refs v + n) (at_parent v) (at_children v) (at_version v) (at_blocks v).
Definition vi_set_children (v : vinode) (l : list Z) : vinode :=
  VInode (vi_scorw v) (vi_lock v) (vi_oc_lock v) (vi_open_count v) (vi_refs v) (at_parent v) l (at_version v) (at_blocks v).
Definition vi_set_version (v : vinode) (n : Z) : vinode :=
  VInode (vi_scorw v) (vi_lock v) (vi_oc_lock v) (vi_open_count v) (vi_refs v) (at_parent v) (at_children v) n (at_blocks v).
Definition vi_set_blocks (v : vinode) (n : Z) : vinode :=
  VInode (vi_scorw v) (vi_lock v) (vi_oc_lock v) (vi_open_count v) (vi_refs v) (at_parent v) (at_children v) (at_version v) n.

Section operations.
Context {V : Type} `{ChildAttach V}.

Definition lw_upd (w : lworld V) (i : Z) (f : vinode -> vinode) : lworld V :=
  LWorld (alter f i (lw_inodes w)) (lw_frnd_lock w) (lw_list w) (lw_copies w) (lw_v w).
Definition lw_set_frnd_lock (w : lworld V) (b : bool) : lworld V :=
  LWorld (lw_inodes w) b (lw_list w) (lw_copies w) (lw_v w).
Definition lw_set_list (w : lworld V) (l : list Z) : lworld V :=
  LWorld (lw_inodes w) (lw_frnd_lock w) l (lw_copies w) (lw_v w).
Definition lw_set_copies (w : lworld V) (l : list page_copy) : lworld V :=
  LWorld (lw_inodes w) (lw_frnd_lock w) (lw_list w) l (lw_v w).
Definition lw_set_v (w : lworld V) (v : V) : lworld V :=
  LWorld (lw_inodes w) (lw_frnd_lock w) (lw_list w) (lw_copies w) v.

Definition scorw_find_inode (w : lworld V) (i : Z) : option sinode := lw_inodes w !! i ≫= vi_scorw.
Definition upd_scorw (w : lworld V) (i : Z) (f : sinode -> sinode) : lworld V :=
  lw_upd w i (fun v => vi_set_scorw v (f <$> vi_scorw v)).

(** The mutexes. *)
Definition lock_inode (w : lworld V) (i : Z) : outcome (lworld V) :=
  match lw_inodes w !! i with
  | None => Bug
  | Some v => if vi_lock v then Hang else Ok (lw_upd w i (fun v => vi_set_lock v true))
  end.
Definition unlock_inode (w : lworld V) (i : Z) : lworld V := lw_upd w i (fun v => vi_set_lock v false).
Definition lock_open_close (w : lworld V) (i : Z) : outcome (lworld V) :=
  match lw_inodes w !! i with
  | None => Bug
  | Some v => if vi_oc_lock v then Hang else Ok (lw_upd w i (fun v => vi_set_oc_lock v true))
  end.
Definition unlock_open_close (w : lworld V) (i : Z) : lworld V := lw_upd w i (fun v => vi_set_oc_lock v false).
Definition lock_frnd (w : lworld V) : outcome (lworld V) :=
  if lw_frnd_lock w then Hang else Ok (lw_set_frnd_lock w true).

(** ** Attributes and kinds of files *)

Definition parent_attr (w : lworld V) (i : Z) : Z := from_option at_parent 0 (lw_inodes w !! i).
Definition child_i_attr (w : lworld V) (i : Z) (child_i : nat) : Z :=
  default 0 (lw_inodes w !! i ≫= fun v => at_children v !! child_i).
Definition remove_child_i_attr (w : lworld V) (i : Z) (child_i : nat) : lworld V :=
  lw_upd w i (fun v => vi_set_children v (<[child_i := 0]> (at_children v))).
Definition set_version_attr (w : lworld V) (i val : Z) : lworld V :=
  lw_upd w i (fun v => vi_set_version v val).

Definition scorw_is_child_file (w : lworld V) (i : Z) (consult : bool) : bool :=
  match scorw_find_inode w i with
  | Some s => negb (si_par s =? 0)
  | None => consult && (0 <? parent_attr w i)
  end.
Definition scorw_is_par_file (w : lworld V) (i : Z) (consult : bool) : bool :=
  match scorw_find_inode w i with
  | Some s => si_par s =? 0
  | None => consult && existsb (fun j => negb (child_i_attr w i j =? 0)) (seq 0 (Z.to_nat SCORW_MAX_CHILDS))
  end.

(** ** Getting a scorw inode *)

(** The first branch of [scorw_get_inode]: there is a scorw inode already.  A
    child counts for its parent too. *)
Definition get_existing (w : lworld V) (i : Z) (s : sinode) (is_child_inode : bool) : lworld V * bool :=
  if is_child_inode && si_unlinked s then (w, false)
  else
    let w1 := upd_scorw w i (fun s => si_set_usage s (si_usage s + 1)) in
    match scorw_find_inode w1 (si_par s) with
    | Some _ => if si_par s =? 0 then (w1, true) else (upd_scorw w1 (si_par s) (fun s => si_set_usage s (si_usage s + 1)), true)
    | None => (w1, true)
    end.

(** [scorw_get_inode] on a child; the boolean says whether the pointer returned
    is not NULL.  [scorw_thread] is NULL throughout. *)
Definition scorw_get_child_inode (e : lenv) (w : lworld V) (i : Z) : outcome (lworld V * bool) :=
  w1 ← lock_inode w i;
  match scorw_find_inode w1 i with
  | Some s => let (w2, r) := get_existing w1 i s true in Ok (unlock_inode w2 i, r)
  | None =>
      if negb (le_mem e) then Ok (unlock_inode w1 i, false)
      else
        let p := parent_attr w1 i in
        let ver := s32 (from_option at_version 0 (lw_inodes w1 !! i)) in
        let blocks := u32 (from_option at_blocks 0 (lw_inodes w1 !! i)) in
        _ ← BUG_ON (p =? 0);
        _ ← BUG_ON (ver =? 0);
        v ← prepare_child (lw_v w1) i;
        let w2 := lw_upd (lw_set_v w1 v) p (fun x => vi_add_refs x 1) in
        let w3 := lw_upd w2 i (fun x => vi_set_scorw x (Some (SInode p 1 (-1) false [] 0 0 0 ver blocks))) in
        Ok (unlock_inode (lw_set_list w3 (lw_list w3 ++ [i])) i, true)
  end.

(** An iteration of the loop in which a parent creates the scorw inodes of its
    children. *)
Definition get_child_slot (e : lenv) (i : Z) (k : nat) (w : lworld V) : outcome (lworld V) :=
  let c := child_i_attr w i k in
  if c =? 0 then Ok (upd_scorw w i (fun s => si_set_kids s (<[k := 0]> (si_kids s)) (si_last s)))
  else if negb (le_iget e c) || negb (scorw_is_child_file w c true) then Ok (remove_child_i_attr w i k)
  else
    r ← scorw_get_child_inode e w c;
    let w1 := r.1 in
    let w2 := upd_scorw w1 i (fun s => si_set_kids s (<[k := if r.2 : bool then c else 0]> (si_kids s)) (Z.of_nat k)) in
    Ok (if r.2 then upd_scorw w2 c (fun s => si_set_index s (Z.of_nat k)) else w2).

(** [scorw_get_inode] on a parent. *)
Definition scorw_get_inode (e : lenv) (w : lworld V) (i : Z) : outcome (lworld V * bool) :=
  w1 ← lock_inode w i;
  match scorw_find_inode w1 i with
  | Some s => let (w2, r) := get_existing w1 i s false in Ok (unlock_inode w2 i, r)
  | None =>
      if negb (le_mem e) then Ok (unlock_inode w1 i, false)
      else
        ver ← le_prepare_par e i (from_option at_version 0 (lw_inodes w1 !! i));
        let s := SInode 0 1 (-1) false (replicate (Z.to_nat SCORW_MAX_CHILDS) 0) 0 0 0 ver 0 in
        let w2 := lw_upd w1 i (fun x => vi_add_refs (vi_set_scorw x (Some s)) 1) in
        w3 ← for_each (seq 0 (Z.to_nat SCORW_MAX_CHILDS)) (get_child_slot e i) w2;
        Ok (unlock_inode (lw_set_list w3 (lw_list w3 ++ [i])) i, true)
  end.

(** ** Putting a scorw inode *)

(** Detaching an unlinked child: it is a target of no page copy any more, its
    slot of an open parent is cleared, the index of the last child recomputed,
    and its attribute of the parent removed. *)
Definition last_child_below (kids : list Z) (k : nat) : Z :=
  foldl (fun last q => if default 0 (kids !! q) =? 0 then last else Z.of_nat q) (-1) (seq 0 k).

Definition clear_target (k : nat) (pc : page_copy) : page_copy :=
  PageCopy (pc_block_num pc) (pc_par pc) (data_page pc) (<[k := false]> (is_target_child pc)).

Definition clear_slot (k : nat) (s : sinode) : sinode :=
  let kids := <[k := 0]> (si_kids s) in
  si_set_kids s kids (if Z.of_nat k =? si_last s then last_child_below kids k else si_last s).

Definition remove_child_attr (w : lworld V) (p c : Z) : lworld V :=
  match list_find (fun j => child_i_attr w p j = c) (seq 0 (Z.to_nat SCORW_MAX_CHILDS)) with
  | Some (_, j) => remove_child_i_attr w p j
  | None => w
  end.

Definition detach_unlinked (w : lworld V) (i : Z) (s : sinode) : outcome (lworld V) :=
  w1 ← (if si_index s =? -1 then Ok w
        else match scorw_find_inode w (si_par s) with
        | None => Bug
        | Some _ =>
            let k := Z.to_nat (si_index s) in
            Ok (upd_scorw (lw_set_copies w (clear_target k <$> lw_copies w)) (si_par s) (clear_slot k))
        end);
  Ok (remove_child_attr w1 (si_par s) i).

(** [scorw_child_copy_completion_cleanup]: the number of blocks left to copy is
    stored unless it is 0. *)
Definition scorw_child_copy_completion_cleanup (w : lworld V) (i : Z) (s : sinode) : lworld V :=
  if 0 <? si_pending s then lw_upd w i (fun v => vi_set_blocks v (u32 (si_pending s))) else w.

(** The end of a child: detached if it was unlinked, its counts stored, its
    references given back. *)
Definition end_child (w : lworld V) (i : Z) (s : sinode) : outcome (lworld V) :=
  w1 ← (if si_unlinked s then detach_unlinked w i s else Ok w);
  let w2 := set_version_attr (scorw_child_copy_completion_cleanup w1 i s) i (si_version s) in
  v ← unprepare_child (lw_v w2) i;
  Ok (lw_upd (lw_set_v w2 v) (si_par s) (fun x => vi_add_refs x (-1))).

(** [scorw_unprepare_par_inode]. *)
Definition scorw_unprepare_par_inode (w : lworld V) (i : Z) (s : sinode) : lworld V :=
  lw_upd (set_version_attr w i (si_version s)) i (fun x => vi_add_refs x (-1)).

(** The end of [scorw_put_inode]: a scorw inode that no file uses and that has no
    page copy left is freed; a parent puts its children by [put] then. *)
Definition free_if_unused (put : Z -> lworld V -> outcome (lworld V)) (w : lworld V) (i : Z) (is_child_inode : bool)
    : outcome (lworld V) :=
  match scorw_find_inode w i with
  | None => Bug
  | Some s =>
      if (si_usage s =? 0) && (si_added s =? si_removed s) then
        w1 ← (if is_child_inode then end_child w i s else Ok w);
        let w2 := lw_upd (lw_set_list w1 (filter (fun x => x <> i) (lw_list w1))) i (fun x => vi_set_scorw x None) in
        if is_child_inode then Ok w2
        else
          w3 ← for_each (si_kids s)
                 (fun c w => if c =? 0 then Ok w
                             else match scorw_find_inode w c with None => Bug | Some _ => put c w end) w2;
          Ok (scorw_unprepare_par_inode w3 i s)
      else Ok w
  end.

(** [scorw_put_inode].  The recursion goes from a child to its parent and from a
    parent to its children; [fuel] bounds its depth. *)
Fixpoint scorw_put_inode (fuel : nat) (w : lworld V) (i : Z) (is_child_inode is_thread_putting is_par_putting : bool)
    : outcome (lworld V) :=
  match fuel with
  | O => Hang
  | S fuel =>
      w1 ← (if is_child_inode then lock_frnd w else Ok w);
      w2 ← lock_inode w1 i;
      w3 ← match scorw_find_inode w2 i with
           | None => Ok w2
           | Some s0 =>
               let w3 := set_version_attr w2 i (si_version s0) in
               w4 ← (if is_thread_putting then
                       Ok (upd_scorw w3 i (fun s => si_set_copies s (si_added s) (si_removed s + 1)))
                     else
                       _ ← BUG_ON (si_usage s0 <=? 0);
                       let w4 := upd_scorw w3 i (fun s => si_set_usage s (si_usage s - 1)) in
                       if is_child_inode && negb (si_par s0 =? 0) && bool_decide (is_Some (scorw_find_inode w4 (si_par s0)))
                          && negb is_par_putting
                       then scorw_put_inode fuel w4 (si_par s0) false false true
                       else Ok w4);
               free_if_unused (fun c w => scorw_put_inode fuel w c true false is_par_putting) w4 i is_child_inode
           end;
      let w4 := unlock_inode w3 i in
      Ok (if is_child_inode then lw_set_frnd_lock w4 false else w4)
  end.

(** A put made from outside nests a child in a parent in a child at most. *)
Definition put_depth : nat := 3.

(** ** File operations *)

(** The layer's part of [ext4_file_open]. *)
Definition ext4_file_open (e : lenv) (w : lworld V) (i : Z) : outcome (lworld V) :=
  let opened p :=
    w1 ← lock_open_close w i;
    let w2 := lw_upd w1 i (fun v => vi_add_open v 1) in
    r ← (if le_iget e p then scorw_get_inode e w2 p else Bug);
    Ok (unlock_open_close r.1 i) in
  if scorw_is_child_file w i true then opened (s32 (parent_attr w i))
  else if scorw_is_par_file w i true then opened i
  else Ok w.

(** The layer's part of [ext4_release_file]; [in_txn] says that the file closed
    has a transaction under way. *)
Definition ext4_release_file (e : lenv) (w : lworld V) (i : Z) (in_txn : bool) : outcome (lworld V) :=
  if scorw_is_child_file w i false then
    w1 ← lock_open_close w i;
    let w2 := lw_upd w1 i (fun v => vi_add_open v (-1)) in
    w3 ← scorw_put_inode put_depth w2 (from_option si_par 0 (scorw_find_inode w2 i)) false false false;
    Ok (unlock_open_close w3 i)
  else if scorw_is_par_file w i false then
    w1 ← lock_open_close w i;
    let w2 := lw_upd w1 i (fun v => vi_add_open v (-1)) in
    if in_txn && le_abort_fails e then Ok w2
    else
      w3 ← scorw_put_inode put_depth w2 i false false false;
      Ok (unlock_open_close w3 i)
  else Ok w.

(** [special_open], with the lock of the parent held by the caller. *)
Definition special_open (e : lenv) (w : lworld V) (par child : Z) (index : nat) : outcome (lworld V) :=
  match scorw_find_inode w par with
  | Some _ =>
      r ← scorw_get_child_inode e w child;
      if negb r.2 then Bug
      else
        let w1 := upd_scorw r.1 par (fun s => si_set_kids s (<[index := child]> (si_kids s))
                                                (if si_last s <? Z.of_nat index then Z.of_nat index else si_last s)) in
        let w2 := upd_scorw w1 child (fun s => si_set_index s (Z.of_nat index)) in
        r' ← scorw_get_child_inode e w2 child;
        Ok r'.1
  | None =>
      let n := from_option vi_open_count 0 (lw_inodes w !! par) in
      if 1 <? n then
        w1 ← for_each (seq 0 (Z.to_nat n)) (fun _ w => r ← scorw_get_inode e w par; Ok r.1) (unlock_inode w par);
        w2 ← lock_inode w1 par;
        r ← scorw_get_child_inode e w2 child;
        Ok r.1
      else Ok w
  end.

(** [scorw_unlink_child_file]. *)
Definition scorw_unlink_child_file (e : lenv) (w : lworld V) (c : Z) : outcome (Z * lworld V) :=
  w1 ← lock_open_close w c;
  let p := parent_attr w1 c in
  if negb (le_iget e p) then Ok (-1, unlock_open_close w1 c)
  else
    w2 ← lock_open_close w1 p;
    w3 ← (if bool_decide (is_Some (scorw_find_inode w2 c)) then
            let w3 := unlock_open_close (upd_scorw w2 c (fun s => si_set_unlinked s true)) c in
            if bool_decide (is_Some (scorw_find_inode w2 p)) then scorw_put_inode put_depth w3 c true false false
            else Ok w3
          else Ok (unlock_open_close (remove_child_attr w2 p c) c));
    Ok (0, unlock_open_close w3 p).

(** A page copy made for a parent, and one the thread is done with. *)
Definition page_copy_added (w : lworld V) (i : Z) : lworld V :=
  upd_scorw w i (fun s => si_set_copies s (si_added s + 1) (si_removed s)).
Definition page_copy_done (w : lworld V) (i : Z) : outcome (lworld V) := scorw_put_inode put_depth w i false true false.

End operations.

(** ** The promise of the version counts *)

(** A child that is ready can be prepared when it is not, and unprepared when it
    is, and neither touches another child. *)
Class ChildAttachOk (V : Type) `{ChildAttach V} := {
  attached : V -> Z -> bool;
  child_ready : V -> Z -> Prop;
  prepare_child_ok v c : child_ready v c -> attached v c = false ->
    exists v', prepare_child v c = Ok v' /\ (forall d, attached v' d = if decide (d = c) then true else attached v d) /\
      forall d, child_ready v d -> child_ready v' d;
  unprepare_child_ok v c : child_ready v c -> attached v c = true ->
    exists v', unprepare_child v c = Ok v' /\ (forall d, attached v' d = if decide (d = c) then false else attached v d) /\
      forall d, child_ready v d -> child_ready v' d
}.

(** ** Specification: a counter per family *)

(** What the life cycle amounts to: a family is closed, or open with the number
    of its open files, of page copies made and of page copies done. *)
Inductive fstate := Closed | Opened (usage added removed : Z).
#[export] Instance fstate_eq_dec : EqDecision fstate.
Proof. solve_decision. Defined.

Definition get_spec (st : fstate) : fstate :=
  match st with Closed => Opened 1 0 0 | Opened u a r => Opened (u + 1) a r end.
Definition settle (st : fstate) : fstate :=
  match st with Opened u a r => if (u =? 0) && (a =? r) then Closed else st | Closed => Closed end.
Definition put_spec (st : fstate) : fstate :=
  match st with Closed => Closed | Opened u a r => settle (Opened (u - 1) a r) end.
Definition done_spec (st : fstate) : fstate :=
  match st with Closed => Closed | Opened u a r => settle (Opened u a (r + 1)) end.

(** The number of children among the slots. *)
Definition nz (cs : list Z) : Z := Z.of_nat (length (filter (fun c => c <> 0) cs)).

(** An environment in which memory and reads do not fail. *)
Record env_ok (e : lenv) : Prop := {
  eo_mem : le_mem e = true;
  eo_iget : forall i, le_iget e i = true;
  eo_par : forall i v, s32 v <> 0 -> exists v', le_prepare_par e i v = Ok v' /\ s32 v' <> 0
}.

(** A family: parent [p] with children [cs] by slot. *)
Record family_shape (p : Z) (cs : list Z) : Prop := {
  fs_p : 0 < p < 2 ^ 31;
  fs_len : length cs = Z.to_nat SCORW_MAX_CHILDS;
  fs_out : p ∉ cs;
  fs_some : exists k c, cs !! k = Some c /\ c <> 0;
  fs_inj : forall j k c, cs !! j = Some c -> cs !! k = Some c -> c <> 0 -> j = k
}.

Section lemmas.
Context {V : Type} `{ChildAttachOk V}.
Implicit Types (w : lworld V) (p c : Z) (cs : list Z).

(** ** Lemmas: states of a family *)

(** The scorw inode of the child in slot [k]. *)
Definition kid_sinode (p : Z) (k : nat) (s : sinode) : Prop :=
  si_par s = p /\ si_usage s = 1 /\ si_index s = Z.of_nat k /\ si_unlinked s = false /\ si_added s = si_removed s /\
  s32 (si_version s) <> 0.

Definition kid_state (p : Z) (att : bool) (k : nat) (c : Z) (w : lworld V) : Prop :=
  exists v, lw_inodes w !! c = Some v /\ vi_lock v = false /\ at_parent v = p /\ s32 (at_version v) <> 0 /\
    (if att then exists s, vi_scorw v = Some s /\ kid_sinode p k s else vi_scorw v = None) /\
    attached (lw_v w) c = att /\ child_ready (lw_v w) c.

(** The state between two operations on children: [pl] is the lock of the
    parent, [sp] its scorw inode, [att] the slots whose child is attached. *)
Record lc_core (p : Z) (cs : list Z) (w : lworld V) (pl : bool) (sp : option sinode) (att : nat -> bool) (refs : Z) : Prop := {
  lc_p : exists v, lw_inodes w !! p = Some v /\ vi_lock v = pl /\ vi_scorw v = sp /\ at_parent v = 0 /\ at_children v = cs /\
    s32 (at_version v) <> 0 /\ vi_refs v = refs;
  lc_kids : forall k c, cs !! k = Some c -> c <> 0 -> kid_state p (att k) k c w;
  lc_frnd : lw_frnd_lock w = false
}.

(** The parts of an inode that getting and putting scorw inodes leave alone. *)
Definition file_side (v : vinode) : bool * Z := (vi_oc_lock v, vi_open_count v).
Definition quiet (w w' : lworld V) : Prop :=
  forall i, file_side <$> lw_inodes w' !! i = file_side <$> lw_inodes w !! i.

Lemma quiet_refl w : quiet w w.
Proof. done. Qed.
Lemma quiet_trans w1 w2 w3 : quiet w1 w2 -> quiet w2 w3 -> quiet w1 w3.
Proof. intros H1 H2 i. by rewrite H2. Qed.

Lemma upd_lookup w i f j : lw_inodes (lw_upd w i f) !! j = if decide (i = j) then f <$> lw_inodes w !! j else lw_inodes w !! j.
Proof. cbn. rewrite lookup_alter. case_decide; by subst. Qed.

Lemma quiet_upd w i f : (forall v, file_side (f v) = file_side v) -> quiet w (lw_upd w i f).
Proof. intros Hf j. rewrite upd_lookup. case_decide; [|done]. destruct (lw_inodes w !! j); [|done]. cbn. by rewrite Hf. Qed.

Lemma lock_unlock v : vi_lock v = false -> vi_set_lock (vi_set_lock v true) false = v.
Proof. by destruct v; cbn; intros ->. Qed.

(** Taking and giving back the mutex of an inode around a change. *)
Lemma lock_inode_ok w i v :
  lw_inodes w !! i = Some v -> vi_lock v = false -> lock_inode w i = Ok (lw_upd w i (fun v => vi_set_lock v true)).
Proof. intros Hv Hl. unfold lock_inode. by rewrite Hv, Hl. Qed.

Lemma find_upd w i f j : (forall v, vi_scorw (f v) = vi_scorw v) -> scorw_find_inode (lw_upd w i f) j = scorw_find_inode w j.
Proof.
  intros Hf. unfold scorw_find_inode. rewrite upd_lookup. case_decide; [|done]. destruct (lw_inodes w !! j); [|done]. cbn. apply Hf.
Qed.

(** Getting the scorw inode of a child that has none. *)
Lemma get_child_new e w p c v :
  env_ok e -> lw_inodes w !! c = Some v -> vi_lock v = false -> vi_scorw v = None -> at_parent v = p -> p <> 0 -> p <> c ->
  s32 (at_version v) <> 0 -> child_ready (lw_v w) c -> attached (lw_v w) c = false ->
  exists w' s, scorw_get_child_inode e w c = Ok (w', true) /\
    si_par s = p /\ si_usage s = 1 /\ si_unlinked s = false /\ si_added s = si_removed s /\ si_version s = s32 (at_version v) /\
    (forall j, lw_inodes w' !! j = if decide (j = c) then Some (vi_set_scorw v (Some s))
                                  else if decide (j = p) then (fun x => vi_add_refs x 1) <$> lw_inodes w !! j else lw_inodes w !! j) /\
    lw_frnd_lock w' = lw_frnd_lock w /\ (forall d, attached (lw_v w') d = if decide (d = c) then true else attached (lw_v w) d) /\
    (forall d, child_ready (lw_v w) d -> child_ready (lw_v w') d).
Proof.
  intros He Hv Hl Hs Hp Hp0 Hpc Hver Hrd Hat. unfold scorw_get_child_inode. rewrite (lock_inode_ok _ _ _ Hv Hl). cbn [mbind outcome_bind].
  rewrite find_upd by done. unfold scorw_find_inode. rewrite Hv. cbn [mbind option_bind]. rewrite Hs, (eo_mem _ He). cbn [negb].
  unfold parent_attr. rewrite upd_lookup, decide_True, Hv by done. cbn [fmap option_fmap option_map from_option vi_set_lock at_parent at_version at_blocks].
  rewrite Hp, (proj2 (Z.eqb_neq _ _) Hp0), (proj2 (Z.eqb_neq _ _) Hver). cbn [BUG_ON mbind outcome_bind].
  change (lw_v (lw_upd w c _)) with (lw_v w). destruct (prepare_child_ok (lw_v w) c Hrd Hat) as (v' & -> & Ha & Hr).
  cbn [mbind outcome_bind]. eexists _, (SInode p 1 (-1) false [] 0 0 0 (s32 (at_version v)) (u32 (at_blocks v))).
  split; [done|]. do 5 (split; [done|]). split_and!; [|done|done|done].
  intros j. unfold unlock_inode, lw_set_list, lw_set_v. rewrite !upd_lookup. cbn [lw_inodes lw_upd]. rewrite !lookup_alter.
  repeat case_decide; subst; try congruence. rewrite Hv. cbn. f_equal. by destruct v; cbn in *; subst.
Qed.

(** A change of the parent and of the child in one slot. *)
Definition par_state (p : Z) (cs : list Z) (w : lworld V) (pl : bool) (sp : option sinode) (refs : Z) : Prop :=
  exists v, lw_inodes w !! p = Some v /\ vi_lock v = pl /\ vi_scorw v = sp /\ at_parent v = 0 /\ at_children v = cs /\
    s32 (at_version v) <> 0 /\ vi_refs v = refs.

Lemma lc_core_slot p cs w pl sp att r w' pl' sp' att' r' k c :
  family_shape p cs -> lc_core p cs w pl sp att r -> cs !! k = Some c -> c <> 0 ->
  par_state p cs w' pl' sp' r' -> kid_state p (att' k) k c w' ->
  (forall j, j <> p -> j <> c -> lw_inodes w' !! j = lw_inodes w !! j) -> (forall j, j <> k -> att' j = att j) ->
  (forall d, d <> c -> attached (lw_v w') d = attached (lw_v w) d) -> (forall d, child_ready (lw_v w) d -> child_ready (lw_v w') d) ->
  lw_frnd_lock w' = false -> lc_core p cs w' pl' sp' att' r'.
Proof.
  intros Hsh Hc Hk Hc0 Hp' Hkid Hin Hatt Ha Hr Hf. split; [done| |done]. intros j d Hj Hd.
  destruct (decide (j = k)) as [->|Hne]; [by simplify_eq|].
  assert (d <> c) as Hdc by (intros ->; by apply Hne, (fs_inj _ _ Hsh j k c)).
  assert (d <> p) as Hdp by (intros ->; apply (fs_out _ _ Hsh); by eapply list_elem_of_lookup_2).
  destruct (lc_kids _ _ _ _ _ _ _ Hc j d Hj Hd) as (v & Hv & Hl & Hpar & Hver & Hs & Hat & Hrd).
  exists v. rewrite Hin, Ha, Hatt by done. split_and!; auto.
Qed.

(** A change of the parent alone. *)
Lemma lc_core_par p cs w pl sp att r w' pl' sp' att' r' :
  family_shape p cs -> lc_core p cs w pl sp att r -> par_state p cs w' pl' sp' r' ->
  (forall j, j <> p -> lw_inodes w' !! j = lw_inodes w !! j) -> (forall k c, cs !! k = Some c -> c <> 0 -> att' k = att k) ->
  lw_v w' = lw_v w -> lw_frnd_lock w' = false -> lc_core p cs w' pl' sp' att' r'.
Proof.
  intros Hsh Hc Hp' Hin Hatt Hv Hf. split; [done| |done]. intros j d Hj Hd.
  assert (d <> p) as Hdp by (intros ->; apply (fs_out _ _ Hsh); by eapply list_elem_of_lookup_2).
  destruct (lc_kids _ _ _ _ _ _ _ Hc j d Hj Hd) as (v & Hv' & Hl & Hpar & Hver & Hs & Hat & Hrd).
  exists v. rewrite Hin, (Hatt j d), Hv by done. split_and!; auto.
Qed.

Lemma slot_ne p cs k c : family_shape p cs -> cs !! k = Some c -> c <> p.
Proof. intros Hsh Hk ->. apply (fs_out _ _ Hsh). by eapply list_elem_of_lookup_2. Qed.

(** One slot of the loop in which a parent gets its children. *)
Lemma get_slot_spec e p cs w s k c r :
  env_ok e -> family_shape p cs -> cs !! k = Some c -> lc_core p cs w true (Some s) (fun j => bool_decide (j < k)%nat) r ->
  exists w' last, get_child_slot e p k w = Ok w' /\ quiet w w' /\
    lc_core p cs w' true (Some (si_set_kids s (<[k := c]> (si_kids s)) last)) (fun j => bool_decide (j < S k)%nat) (r + nz [c]).
Proof.
  intros He Hsh Hk Hc. pose proof (lc_p _ _ _ _ _ _ _ Hc) as (vp & Hp & Hpl & Hps & Hpp & Hpc & Hpv & Hpr).
  unfold get_child_slot. unfold child_i_attr. rewrite Hp. cbn [mbind option_bind]. rewrite Hpc, Hk. cbn [from_option id].
  destruct (Z.eqb_spec c 0) as [->|Hc0].
  - eexists _, (si_last s). split; [done|]. split; [by apply quiet_upd|]. rewrite Z.add_0_r.
    eapply lc_core_par; [done|done| | | |done|apply Hc].
    + eexists. split; [unfold upd_scorw; by rewrite upd_lookup, decide_True, Hp|]. cbn. by rewrite Hps.
    + intros j Hj. unfold upd_scorw. by rewrite upd_lookup, decide_False.
    + intros j d Hj Hd. apply bool_decide_ext. split; [|lia]. intros ?. assert (j <> k) by (intros ->; congruence). lia.
  - destruct (lc_kids _ _ _ _ _ _ _ Hc k c Hk Hc0) as (v & Hv & Hl & Hpar & Hver & Hs & Hat & Hrd).
    rewrite bool_decide_false in Hs, Hat by lia. pose proof (slot_ne _ _ _ _ Hsh Hk) as Hcp. pose proof (fs_p _ _ Hsh) as Hp0.
    rewrite (eo_iget _ He). unfold scorw_is_child_file, scorw_find_inode at 1. rewrite Hv. cbn [mbind option_bind]. rewrite Hs.
    unfold parent_attr. rewrite Hv. cbn [from_option]. rewrite Hpar, (proj2 (Z.ltb_lt 0 p)) by lia. cbn [negb orb andb].
    destruct (get_child_new e w p c v) as (w1 & sc & -> & S1 & S2 & S3 & S4 & S5 & Hin & Hfl & Ha & Hr); auto; [lia|].
    cbn [mbind outcome_bind fst snd]. eexists _, (Z.of_nat k). split; [done|].
    assert (nz [c] = 1) as -> by (unfold nz; by rewrite filter_cons_True).
    split.
    + eapply quiet_trans; [|by apply quiet_upd]. eapply quiet_trans; [|by apply quiet_upd].
      intros j. rewrite Hin. destruct (decide (j = c)) as [->|]; [by rewrite Hv|].
      destruct (decide (j = p)) as [->|]; [by rewrite Hp|done].
    + eapply (lc_core_slot p cs w _ _ _ _ _ _ _ _ _ k c); eauto.
      * eexists. unfold upd_scorw. rewrite !upd_lookup, decide_False, decide_True, Hin, decide_False, decide_True, Hp by done.
        split; [done|]. cbn. rewrite Hps, Hpr. done.
      * rewrite bool_decide_true by lia. eexists. unfold upd_scorw. rewrite !upd_lookup, decide_True, decide_False, Hin, decide_True by done.
        split; [done|]. cbn. split_and!; auto; [|by rewrite Ha, decide_True].
        eexists. split; [done|]. unfold kid_sinode. cbn. split_and!; auto. rewrite S5. by rewrite s32_idem.
      * intros j Hjp Hjc. unfold upd_scorw. by rewrite !upd_lookup, !decide_False, Hin, !decide_False by done.
      * intros j Hj. apply bool_decide_ext. lia.
      * intros d Hd. cbn. by rewrite Ha, decide_False.
      * cbn. rewrite Hfl. apply Hc.
Qed.

Lemma nz_cons c cs : nz (c :: cs) = nz [c] + nz cs.
Proof. unfold nz. rewrite !filter_cons. case_decide; cbn [length filter]; cbn; lia. Qed.

Lemma get_slots_spec e p cs n k w s r :
  env_ok e -> family_shape p cs -> (k + n = length cs)%nat -> length (si_kids s) = length cs ->
  lc_core p cs w true (Some s) (fun j => bool_decide (j < k)%nat) r ->
  exists w' l last, for_each (seq k n) (get_child_slot e p) w = Ok w' /\ quiet w w' /\ length l = length cs /\
    (forall j, l !! j = if decide (k <= j)%nat then cs !! j else si_kids s !! j) /\
    lc_core p cs w' true (Some (si_set_kids s l last)) (fun j => bool_decide (j < k + n)%nat) (r + nz (drop k cs)).
Proof.
  intros He Hsh. revert k w s r. induction n as [|n IH]; intros k w s r Hkn Hlen Hc.
  - exists w, (si_kids s), (si_last s). split; [done|]. split; [done|]. split; [done|]. split.
    + intros j. case_decide; [|done]. rewrite !lookup_ge_None_2 by lia. done.
    + rewrite drop_ge by lia. rewrite Nat.add_0_r, Z.add_0_r. by destruct s.
  - destruct (lookup_lt_is_Some_2 cs k) as [c Hk]; [lia|].
    destruct (get_slot_spec e p cs w s k c r He Hsh Hk Hc) as (w1 & last & Hr & Hq & Hc1). cbn [seq for_each]. rewrite Hr. cbn [mbind outcome_bind].
    destruct (IH (S k) w1 (si_set_kids s (<[k := c]> (si_kids s)) last) (r + nz [c])) as (w2 & l & last2 & Hr2 & Hq2 & Hl2 & Hlk & Hc2);
      [lia|cbn; by rewrite length_insert|done|].
    exists w2, l, last2. split; [done|]. split; [by eapply quiet_trans|]. split; [done|]. split.
    + intros j. rewrite Hlk. cbn [si_kids si_set_kids]. destruct (decide (k = j)) as [<-|Hne].
      * rewrite decide_False, decide_True, list_lookup_insert_eq by lia. done.
      * rewrite list_lookup_insert_ne by done. repeat case_decide; try done; lia.
    + rewrite (drop_S cs c k Hk), nz_cons, Z.add_assoc, <- Nat.add_succ_comm. exact Hc2.
Qed.

(** The states of a family between operations. *)
Definition lc_state (p : Z) (cs : list Z) (r0 : Z) (w : lworld V) (st : fstate) : Prop :=
  match st with
  | Closed => lc_core p cs w false None (fun _ => false) r0
  | Opened u a r => exists s, lc_core p cs w false (Some s) (fun _ => true) (r0 + 1 + nz cs) /\ si_par s = 0 /\ si_usage s = u /\
      si_added s = a /\ si_removed s = r /\ si_kids s = cs /\ s32 (si_version s) <> 0
  end.

Lemma get_par_spec e p cs r0 w st :
  env_ok e -> family_shape p cs -> lc_state p cs r0 w st ->
  exists w', scorw_get_inode e w p = Ok (w', true) /\ lc_state p cs r0 w' (get_spec st) /\ quiet w w'.
Proof.
  intros He Hsh Hst. unfold scorw_get_inode. destruct st as [|u a r].
  - pose proof Hst as [(vp & Hp & Hpl & Hps & Hpp & Hpc & Hpv & Hpr) Hkids Hf].
    rewrite (lock_inode_ok _ _ _ Hp Hpl). cbn [mbind outcome_bind]. rewrite find_upd by done. unfold scorw_find_inode. rewrite Hp. cbn [mbind option_bind].
    rewrite Hps, (eo_mem _ He), upd_lookup, decide_True, Hp by done. cbn [negb fmap option_fmap option_map from_option vi_set_lock at_version].
    destruct (eo_par _ He p _ Hpv) as (ver & -> & Hver). cbn [mbind outcome_bind].
    set (s := SInode 0 1 _ _ _ _ _ _ _ _). set (w2 := lw_upd (lw_upd w p _) p _).
    assert (quiet w w2) as Hq2 by (eapply quiet_trans; by apply quiet_upd).
    assert (lc_core p cs w2 true (Some s) (fun j => bool_decide (j < 0)%nat) (r0 + 1)) as Hc2.
    { eapply (lc_core_par p cs w); [done|exact Hst| | |done|done|done].
      - eexists. unfold w2. rewrite !upd_lookup, !decide_True, Hp by done. split; [done|]. cbn. by rewrite Hpr.
      - intros j Hj. unfold w2. by rewrite !upd_lookup, !decide_False. }
    rewrite <- (fs_len _ _ Hsh).
    destruct (get_slots_spec e p cs (length cs) 0 w2 s (r0 + 1) He Hsh eq_refl) as (w3 & l & last & -> & Hq3 & Hl & Hlk & Hc3); [|done|].
    { cbn. by rewrite length_replicate, (fs_len _ _ Hsh). }
    cbn [mbind outcome_bind]. eexists. split; [done|]. split; [|eapply quiet_trans; [exact Hq2|]; eapply quiet_trans; [exact Hq3|]; by apply (quiet_upd (lw_set_list w3 _))].
    exists (si_set_kids s l last). split; [|split_and!; try done; cbn; apply list_eq; intros j; by rewrite Hlk].
    pose proof (lc_p _ _ _ _ _ _ _ Hc3) as (v3 & Hv3 & Hl3 & Hs3 & Hp3 & Hcs3 & Hver3 & Hr3).
    eapply lc_core_par; [done|exact Hc3| | | |done|apply Hc3].
    + eexists. unfold unlock_inode. rewrite upd_lookup, decide_True by done. cbn [lw_inodes lw_set_list]. rewrite Hv3. split; [done|]. cbn. by split_and!.
    + intros j Hj. unfold unlock_inode. by rewrite upd_lookup, decide_False.
    + intros j c Hj _. cbv beta. rewrite bool_decide_true; [done|]. by eapply lookup_lt_Some.
  - destruct Hst as (s & Hc & S1 & S2 & S3 & S4 & S5 & S6). pose proof Hc as [(vp & Hp & Hpl & Hps & Hpp & Hpc & Hpv & Hpr) Hkids Hf].
    rewrite (lock_inode_ok _ _ _ Hp Hpl). cbn [mbind outcome_bind]. rewrite find_upd by done. unfold scorw_find_inode at 1. rewrite Hp. cbn [mbind option_bind].
    rewrite Hps. unfold get_existing. cbn [andb]. rewrite S1. rewrite Z.eqb_refl.
    assert (forall (o : option sinode) (x : lworld V), match o with Some _ => (x, true) | None => (x, true) end = (x, true)) as -> by (by intros []).
    eexists. split; [done|]. split; [|eapply quiet_trans; [|by apply quiet_upd]; eapply quiet_trans; by apply quiet_upd].
    exists (si_set_usage s (u + 1)). split; [|by split_and!]. eapply lc_core_par; [done|exact Hc| | |done|done|done].
    + eexists. unfold unlock_inode, upd_scorw. rewrite !upd_lookup, !decide_True, Hp by done. split; [done|]. cbn. rewrite Hps. cbn. by rewrite S2.
    + intros j Hj. unfold unlock_inode, upd_scorw. by rewrite !upd_lookup, !decide_False.
Qed.

Lemma find_upd_ne w i f j : i <> j -> scorw_find_inode (lw_upd w i f) j = scorw_find_inode w j.
Proof. intros Hne. unfold scorw_find_inode. by rewrite upd_lookup, decide_False. Qed.
Lemma find_upd_eq w i f v : lw_inodes w !! i = Some v -> scorw_find_inode (lw_upd w i f) i = vi_scorw (f v).
Proof. intros Hv. unfold scorw_find_inode. by rewrite upd_lookup, decide_True, Hv. Qed.

Lemma completion_lookup w i s j :
  lw_inodes (scorw_child_copy_completion_cleanup w i s) !! j =
  if decide (i = j) then (fun v => if 0 <? si_pending s then vi_set_blocks v (u32 (si_pending s)) else v) <$> lw_inodes w !! j
  else lw_inodes w !! j.
Proof.
  unfold scorw_child_copy_completion_cleanup. destruct (0 <? si_pending s); [apply upd_lookup|].
  case_decide; [|done]. by destruct (lw_inodes w !! j).
Qed.

Lemma completion_v w i s : lw_v (scorw_child_copy_completion_cleanup w i s) = lw_v w.
Proof. unfold scorw_child_copy_completion_cleanup. by destruct (0 <? _). Qed.

(** Putting the scorw inode of a child on behalf of its parent, which is going
    away: the child goes too. *)
Lemma put_kid_spec fuel w p c k v s ipp :
  lw_inodes w !! c = Some v -> vi_lock v = false -> vi_scorw v = Some s -> kid_sinode p k s -> p <> c ->
  scorw_find_inode w p = None -> lw_frnd_lock w = false -> child_ready (lw_v w) c -> attached (lw_v w) c = true ->
  exists w' v', scorw_put_inode (S fuel) w c true false ipp = Ok w' /\
    vi_scorw v' = None /\ vi_lock v' = false /\ at_parent v' = at_parent v /\ at_version v' = si_version s /\ file_side v' = file_side v /\
    (forall j, lw_inodes w' !! j = if decide (j = c) then Some v'
                                  else if decide (j = p) then (fun x => vi_add_refs x (-1)) <$> lw_inodes w !! j else lw_inodes w !! j) /\
    lw_frnd_lock w' = false /\ (forall d, attached (lw_v w') d = if decide (d = c) then false else attached (lw_v w) d) /\
    (forall d, child_ready (lw_v w) d -> child_ready (lw_v w') d).
Proof.
  intros Hv Hl Hs (K1 & K2 & K3 & K4 & K5 & K6) Hpc Hnp Hf Hrd Hat. cbn [scorw_put_inode]. unfold lock_frnd. rewrite Hf. cbn [mbind outcome_bind].
  rewrite (lock_inode_ok (lw_set_frnd_lock w true) c v Hv Hl). cbn [mbind outcome_bind].
  assert (lw_inodes (lw_set_frnd_lock w true) !! c = Some v) as Hv1 by done.
  rewrite (find_upd_eq _ _ _ v Hv1). cbn [vi_scorw vi_set_lock]. rewrite Hs, K2. change (1 <=? 0) with false. cbn [BUG_ON mbind outcome_bind].
  unfold set_version_attr, upd_scorw. rewrite K1, !find_upd_ne by done.
  replace (scorw_find_inode (lw_set_frnd_lock w true) p) with (@None sinode) by (symmetry; exact Hnp).
  rewrite (bool_decide_false (is_Some None)) by (by intros []). rewrite andb_false_r. cbn [andb mbind outcome_bind].
  unfold free_if_unused, scorw_find_inode. rewrite !upd_lookup, !decide_True by done. cbn [lw_inodes lw_set_frnd_lock]. rewrite Hv. cbn [fmap option_fmap option_map mbind option_bind].
  cbn [vi_scorw vi_set_scorw vi_set_version vi_set_lock]. rewrite Hs. cbn [fmap option_fmap option_map].
  cbn [si_usage si_set_usage si_added si_removed]. rewrite K2, K5. change (1 - 1 =? 0) with true. rewrite Z.eqb_refl. cbn [andb].
  unfold end_child. cbn [si_unlinked si_set_usage si_version]. rewrite K4. cbn [mbind outcome_bind].
  unfold set_version_attr. cbn [lw_v lw_upd]. rewrite completion_v. cbn [lw_v lw_upd lw_set_frnd_lock].
  destruct (unprepare_child_ok (lw_v w) c Hrd Hat) as (vv & -> & Ha & Hr). cbn [mbind outcome_bind].
  eexists _, (vi_set_scorw (vi_set_version (if 0 <? si_pending s then vi_set_blocks v (u32 (si_pending s)) else v) (si_version s)) None).
  split; [done|]. do 5 (split; [by destruct (0 <? si_pending s)|]). split; [|by split_and!].
  intros j. unfold unlock_inode, lw_set_frnd_lock, lw_set_list, lw_set_v. cbn [lw_inodes lw_upd si_par si_set_usage]. rewrite !lookup_alter, !completion_lookup.
  cbn [lw_inodes lw_upd]. rewrite !lookup_alter, K1.
  repeat case_decide; subst; try congruence. cbn [si_pending si_set_usage]. rewrite Hv. cbn. f_equal.
  destruct v; cbn in *; subst. by destruct (0 <? si_pending s).
Qed.

(** The loop in which a parent puts its children. *)
Definition put_slot (put : Z -> lworld V -> outcome (lworld V)) (c : Z) (w : lworld V) : outcome (lworld V) :=
  if c =? 0 then Ok w else match scorw_find_inode w c with None => Bug | Some _ => put c w end.

Lemma put_slot_spec fuel ipp p cs w k c r :
  family_shape p cs -> cs !! k = Some c -> lc_core p cs w true None (fun j => bool_decide (k <= j)%nat) r ->
  exists w', put_slot (fun c w => scorw_put_inode (S fuel) w c true false ipp) c w = Ok w' /\ quiet w w' /\ lc_core p cs w' true None (fun j => bool_decide (S k <= j)%nat) (r - nz [c]).
Proof.
  intros Hsh Hk Hc. pose proof (lc_p _ _ _ _ _ _ _ Hc) as (vp & Hp & Hpl & Hps & Hpp & Hpc & Hpv & Hpr).
  unfold put_slot. destruct (Z.eqb_spec c 0) as [->|Hc0].
  - exists w. split; [done|]. split; [done|]. rewrite Z.sub_0_r. eapply lc_core_par; [done|done| |done| |done|apply Hc].
    + by exists vp.
    + intros j d Hj Hd. apply bool_decide_ext. split; [lia|]. intros ?. assert (j <> k) by (intros ->; congruence). lia.
  - destruct (lc_kids _ _ _ _ _ _ _ Hc k c Hk Hc0) as (v & Hv & Hl & Hpar & Hver & Hs & Hat & Hrd).
    rewrite bool_decide_true in Hs, Hat by lia. destruct Hs as (s & Hs & Hks). pose proof (slot_ne _ _ _ _ Hsh Hk) as Hcp.
    unfold scorw_find_inode at 1. rewrite Hv. cbn [mbind option_bind]. rewrite Hs.
    destruct (put_kid_spec fuel w p c k v s ipp) as (w' & v' & -> & V1 & V2 & V3 & V4 & V5 & Hin & Hfl & Ha & Hr); auto.
    { unfold scorw_find_inode. by rewrite Hp. }
    { apply Hc. }
    exists w'. split; [done|]. assert (nz [c] = 1) as -> by (unfold nz; by rewrite filter_cons_True). split.
    + intros j. rewrite Hin. destruct (decide (j = c)) as [->|]; [rewrite Hv; cbn; by rewrite V5|].
      destruct (decide (j = p)) as [->|]; [by rewrite Hp|done].
    + eapply (lc_core_slot p cs w _ _ _ _ _ _ _ _ _ k c); eauto.
      * eexists. rewrite Hin, decide_False, decide_True, Hp by done. split; [done|]. cbn. rewrite Hpr. split_and!; auto. 
      * rewrite bool_decide_false by lia. exists v'. rewrite Hin, decide_True by done. split_and!; auto.
        -- by rewrite V3.
        -- rewrite V4. apply Hks.
        -- by rewrite Ha, decide_True.
      * intros j Hjp Hjc. by rewrite Hin, !decide_False by done.
      * intros j Hj. apply bool_decide_ext. lia.
      * intros d Hd. by rewrite Ha, decide_False.
Qed.

Lemma put_slots_spec fuel ipp p cs n k w r :
  family_shape p cs -> (k + n = length cs)%nat -> lc_core p cs w true None (fun j => bool_decide (k <= j)%nat) r ->
  exists w', for_each (drop k cs) (put_slot (fun c w => scorw_put_inode (S fuel) w c true false ipp)) w = Ok w' /\ quiet w w' /\
    lc_core p cs w' true None (fun j => bool_decide (length cs <= j)%nat) (r - nz (drop k cs)).
Proof.
  intros Hsh. revert k w r. induction n as [|n IH]; intros k w r Hkn Hc.
  - exists w. rewrite drop_ge by lia. split; [done|]. split; [done|]. rewrite Z.sub_0_r, <- Hkn, Nat.add_0_r. done.
  - destruct (lookup_lt_is_Some_2 cs k) as [c Hk]; [lia|].
    destruct (put_slot_spec fuel ipp p cs w k c r Hsh Hk Hc) as (w1 & Hr & Hq & Hc1).
    destruct (IH (S k) w1 (r - nz [c])) as (w2 & Hr2 & Hq2 & Hc2); [lia|done|].
    exists w2. rewrite (drop_S cs c k Hk). cbn [for_each]. rewrite Hr. cbn [mbind outcome_bind]. split; [done|]. split; [by eapply quiet_trans|].
    rewrite nz_cons, Z.sub_add_distr. exact Hc2.
Qed.

(** A parent with nothing left to count is freed with its children. *)
Lemma free_par_spec fuel ipp p cs r0 w s :
  family_shape p cs -> lc_core p cs w true (Some s) (fun _ => true) (r0 + 1 + nz cs) -> si_kids s = cs -> s32 (si_version s) <> 0 ->
  exists w', free_if_unused (fun c w => scorw_put_inode (S fuel) w c true false ipp) w p false = Ok w' /\ quiet w w' /\
    if (si_usage s =? 0) && (si_added s =? si_removed s) then lc_core p cs w' true None (fun _ => false) r0
    else lc_core p cs w' true (Some s) (fun _ => true) (r0 + 1 + nz cs).
Proof.
  intros Hsh Hc Hk Hver. pose proof (lc_p _ _ _ _ _ _ _ Hc) as (vp & Hp & Hpl & Hps & Hpp & Hpc & Hpv & Hpr).
  unfold free_if_unused, scorw_find_inode at 1. rewrite Hp. cbn [mbind option_bind]. rewrite Hps.
  destruct ((si_usage s =? 0) && (si_added s =? si_removed s)); [|by exists w].
  cbn [mbind outcome_bind]. rewrite Hk. set (w2 := lw_upd (lw_set_list w _) p _).
  assert (lc_core p cs w2 true None (fun j => bool_decide (0 <= j)%nat) (r0 + 1 + nz cs)) as Hc2.
  { eapply lc_core_par; [done|exact Hc| | | |done|apply Hc].
    - eexists. unfold w2. rewrite upd_lookup, decide_True by done. cbn [lw_inodes lw_set_list]. rewrite Hp. split; [done|]. by split_and!.
    - intros j Hj. unfold w2. by rewrite upd_lookup, decide_False.
    - intros j c Hj _. apply bool_decide_true. lia. }
  destruct (put_slots_spec fuel ipp p cs (length cs) 0 w2 _ Hsh eq_refl Hc2) as (w3 & Hr & Hq3 & Hc3). rewrite drop_0 in Hr, Hc3.
  change (for_each cs _ w2) with (for_each cs (put_slot (fun c w => scorw_put_inode (S fuel) w c true false ipp)) w2). rewrite Hr.
  cbn [mbind outcome_bind]. eexists. split; [done|]. split.
  { eapply quiet_trans; [|eapply quiet_trans; [exact Hq3|]]; [by apply (quiet_upd (lw_set_list w _))|].
    eapply quiet_trans; by apply quiet_upd. }
  pose proof (lc_p _ _ _ _ _ _ _ Hc3) as (v3 & Hv3 & Hl3 & Hs3 & Hp3 & Hcs3 & Hver3 & Hr3).
  eapply lc_core_par; [done|exact Hc3| | | |done|apply Hc3]; unfold scorw_unprepare_par_inode, set_version_attr.
  - eexists. rewrite !upd_lookup, !decide_True, Hv3 by done. split; [done|]. cbn. split_and!; auto. lia.
  - intros j Hj. by rewrite !upd_lookup, !decide_False.
  - intros j c Hj _. symmetry. apply bool_decide_false. apply lookup_lt_Some in Hj. lia.
Qed.

(** The first half of putting a parent: a count goes down. *)
Definition count_down (thr : bool) (s : sinode) : sinode :=
  if thr then si_set_copies s (si_added s) (si_removed s + 1) else si_set_usage s (si_usage s - 1).

Lemma put_par_unfold fuel ipp p w v s thr :
  lw_inodes w !! p = Some v -> vi_lock v = false -> vi_scorw v = Some s -> (thr = false -> 0 < si_usage s) ->
  exists w4, scorw_put_inode (S fuel) w p false thr ipp =
      (w3 ← free_if_unused (fun c w => scorw_put_inode fuel w c true false ipp) w4 p false; Ok (unlock_inode w3 p)) /\
    (forall j, lw_inodes w4 !! j =
       if decide (p = j) then (fun x => vi_set_scorw (vi_set_version (vi_set_lock x true) (si_version s)) (Some (count_down thr s))) <$> lw_inodes w !! j
       else lw_inodes w !! j) /\
    lw_v w4 = lw_v w /\ lw_frnd_lock w4 = lw_frnd_lock w.
Proof.
  intros Hv Hl Hs Hu. cbn [scorw_put_inode mbind outcome_bind]. rewrite (lock_inode_ok _ _ _ Hv Hl). cbn [mbind outcome_bind].
  rewrite (find_upd_eq _ _ _ v Hv). cbn [vi_scorw vi_set_lock]. rewrite Hs.
  destruct thr; cbn [andb].
  - eexists. split; [done|]. split; [|done]. intros j. unfold upd_scorw, set_version_attr. rewrite !upd_lookup.
    case_decide; [subst j; rewrite Hv; cbn; by rewrite Hs|done].
  - rewrite (proj2 (Z.leb_gt _ 0)) by auto. cbn [BUG_ON mbind outcome_bind]. eexists. split; [done|]. split; [|done]. intros j.
    unfold upd_scorw, set_version_attr. rewrite !upd_lookup. case_decide; [subst j; rewrite Hv; cbn; by rewrite Hs|done].
Qed.

(** Putting a parent: the counter moves, and at its end the family closes. *)
Lemma put_par_spec fuel ipp p cs r0 w u a r thr :
  family_shape p cs -> lc_state p cs r0 w (Opened u a r) -> (thr = false -> 0 < u) ->
  exists w', scorw_put_inode (S (S fuel)) w p false thr ipp = Ok w' /\ quiet w w' /\
    lc_state p cs r0 w' (settle (if thr then Opened u a (r + 1) else Opened (u - 1) a r)).
Proof.
  intros Hsh (s & Hc & S1 & S2 & S3 & S4 & S5 & S6) Hu. pose proof Hc as [(vp & Hp & Hpl & Hps & Hpp & Hpc & Hpv & Hpr) Hkids Hf].
  destruct (put_par_unfold (S fuel) ipp p w vp s thr Hp Hpl Hps) as (w4 & -> & Hin & Hv4 & Hf4); [by rewrite S2|].
  set (s' := count_down thr s) in *.
  assert (si_kids s' = cs /\ s32 (si_version s') <> 0 /\ si_par s' = 0) as (K1 & K2 & K3) by (by destruct thr).
  assert (lc_core p cs w4 true (Some s') (fun _ => true) (r0 + 1 + nz cs)) as Hc4.
  { eapply lc_core_par; [done|exact Hc| | |done|done|by rewrite Hf4].
    - eexists. rewrite Hin, decide_True, Hp by done. split; [done|]. cbn. by split_and!.
    - intros j Hj. by rewrite Hin, decide_False. }
  destruct (free_par_spec fuel ipp p cs r0 w4 s' Hsh Hc4 K1 K2) as (w5 & -> & Hq5 & Hc5). cbn [mbind outcome_bind].
  eexists. split; [done|]. split.
  { eapply quiet_trans; [|eapply quiet_trans; [exact Hq5|by apply quiet_upd]]. intros j. rewrite Hin. case_decide; [|done]. by destruct (lw_inodes w !! j). }
  assert (forall sp att rf, lc_core p cs w5 true sp att rf -> lc_core p cs (unlock_inode w5 p) false sp att rf) as Hun.
  { intros sp att rf H5. pose proof (lc_p _ _ _ _ _ _ _ H5) as (v5 & Hv5 & ? & ? & ? & ? & ? & ?).
    eapply lc_core_par; [done|exact H5| | |done|done|apply H5].
    - eexists. unfold unlock_inode. rewrite upd_lookup, decide_True, Hv5 by done. split; [done|]. by split_and!.
    - intros j Hj. unfold unlock_inode. by rewrite upd_lookup, decide_False. }
  unfold settle. destruct thr; cbn [s' count_down si_usage si_added si_removed si_set_copies si_set_usage] in Hc5; rewrite ?S2, ?S3, ?S4 in Hc5.
  - destruct ((u =? 0) && (a =? r + 1)); [by apply Hun|]. eexists. split; [apply Hun; exact Hc5|]. by split_and!.
  - destruct ((u - 1 =? 0) && (a =? r)); [by apply Hun|]. eexists. split; [apply Hun; exact Hc5|]. by split_and!.
Qed.

End lemmas.
