(* ===== verification/Families.v ===== *)
(** Histories of a family: any sequence of opens and closes of a parent and its
    children, of page copies made and done, against an abstract counter; unlinking
    a child of an open parent; the version counts as an implementation of the
    interface the life cycle relies on. *)

From S2P Require Import Prelude Pages Friend GC VersionCount PageCopy Lifecycle.

(** ** Histories *)

(** The operations on the files of a family, and the abstract machine: the
    counter of the family and the number of times each file is open. *)
Inductive lop := LOpen (i : Z) | LClose (i : Z) (in_txn : bool) | LCopy | LDone.

Definition astate : Type := fstate * (Z -> Z).
Definition bump (o : Z -> Z) (i d : Z) : Z -> Z := fun j => if decide (j = i) then o j + d else o j.

Definition spec_op (p : Z) (cs : list Z) (op : lop) (a : astate) : option astate :=
  let (st, o) := a in
  match op with
  | LOpen i => if bool_decide (i <> 0 /\ i ∈ p :: cs) then Some (get_spec st, bump o i 1) else None
  | LClose i _ => if bool_decide (i <> 0 /\ i ∈ p :: cs /\ 0 < o i) then Some (put_spec st, bump o i (-1)) else None
  | LCopy => match st with
             | Opened u a r => if 0 <? u then Some (Opened u (a + 1) r, o) else None
             | Closed => None
             end
  | LDone => match st with
             | Opened u a r => if r <? a then Some (done_spec st, o) else None
             | Closed => None
             end
  end.

Fixpoint spec_run (p : Z) (cs : list Z) (ops : list lop) (a : astate) : option astate :=
  match ops with
  | [] => Some a
  | op :: ops => a' ← spec_op p cs op a; spec_run p cs ops a'
  end.

(** The open files of the family. *)
Fixpoint open_files (o : Z -> Z) (l : list Z) : Z :=
  match l with [] => 0 | i :: l => (if i =? 0 then 0 else o i) + open_files o l end.

Section histories.
Context {V : Type} `{ChildAttachOk V}.
Implicit Types (w : lworld V).

Definition run_op (e : lenv) (p : Z) (op : lop) (w : lworld V) : outcome (lworld V) :=
  match op with
  | LOpen i => ext4_file_open e w i
  | LClose i in_txn => ext4_release_file e w i in_txn
  | LCopy => Ok (page_copy_added w p)
  | LDone => page_copy_done w p
  end.
Definition run_ops (e : lenv) (p : Z) (ops : list lop) (w : lworld V) : outcome (lworld V) := for_each ops (run_op e p) w.

(** The file side of the inodes of the family: no lock held, and so many opens. *)
Definition files_are (l : list Z) (o : Z -> Z) (w : lworld V) : Prop :=
  forall i, i <> 0 -> i ∈ l -> file_side <$> lw_inodes w !! i = Some (false, o i).

(** The abstract state: the counter is the number of open files, and a family is
    closed exactly when it has none and no page copy is under way. *)
Definition counted (l : list Z) (a : astate) : Prop :=
  (forall i, 0 <= a.2 i) /\
  match a.1 with
  | Closed => open_files a.2 l = 0
  | Opened u x y => open_files a.2 l = u /\ y <= x /\ (u = 0 -> y < x)
  end.

Lemma files_quiet l o w w' : files_are l o w -> quiet w w' -> files_are l o w'.
Proof. intros Hf Hq i Hi Hl. rewrite Hq. by apply Hf. Qed.

Lemma open_files_nonneg o l : (forall i, 0 <= o i) -> 0 <= open_files o l.
Proof. intros Ho. induction l as [|i l IH]; cbn [open_files]; [lia|]. specialize (Ho i). destruct (i =? 0); lia. Qed.

Lemma open_files_le o l i : (forall j, 0 <= o j) -> i <> 0 -> i ∈ l -> o i <= open_files o l.
Proof.
  intros Ho Hi. induction l as [|j l IH]; intros Hin; [by apply elem_of_nil in Hin|]. cbn [open_files].
  pose proof (open_files_nonneg o l Ho). pose proof (Ho j). apply elem_of_cons in Hin as [<-|Hin].
  - rewrite (proj2 (Z.eqb_neq _ _) Hi). lia.
  - specialize (IH Hin). destruct (j =? 0); lia.
Qed.

Lemma open_files_other o l i d : i ∉ l -> open_files (bump o i d) l = open_files o l.
Proof.
  induction l as [|j l IH]; intros Hin; [done|]. apply not_elem_of_cons in Hin as [Hj Hin]. cbn [open_files]. rewrite IH by done.
  unfold bump. by rewrite decide_False by done.
Qed.

Lemma open_files_bump o l i d :
  (forall j k c, l !! j = Some c -> l !! k = Some c -> c <> 0 -> j = k) -> i <> 0 -> i ∈ l ->
  open_files (bump o i d) l = open_files o l + d.
Proof.
  intros Hinj Hi. induction l as [|j l IH]; intros Hin; [by apply elem_of_nil in Hin|]. cbn [open_files].
  destruct (decide (i = j)) as [<-|Hne].
  - rewrite open_files_other; [rewrite (proj2 (Z.eqb_neq _ _) Hi); unfold bump; rewrite decide_True by done; lia|].
    intros Hl. apply list_elem_of_lookup in Hl as [k Hk]. by discriminate (Hinj 0%nat (S k) i eq_refl Hk Hi).
  - apply elem_of_cons in Hin as [|Hin]; [done|]. rewrite IH; [|intros a b c Ha Hb Hc; by injection (Hinj (S a) (S b) c Ha Hb Hc)|done].
    unfold bump. rewrite decide_False by done. lia.
Qed.

(** Changes of the file side alone. *)
Definition file_only (f : vinode -> vinode) : Prop :=
  forall v, vi_lock (f v) = vi_lock v /\ vi_scorw (f v) = vi_scorw v /\ at_parent (f v) = at_parent v /\
    at_children (f v) = at_children v /\ at_version (f v) = at_version v /\ vi_refs (f v) = vi_refs v.

Lemma lc_core_file p cs w i f pl sp att r : file_only f -> lc_core p cs w pl sp att r -> lc_core p cs (lw_upd w i f) pl sp att r.
Proof.
  intros Hf [(v & Hv & Hp) Hk Hl]. split; [| |done].
  - rewrite upd_lookup, Hv. case_decide; [|by exists v]. exists (f v). destruct (Hf v) as (-> & -> & -> & -> & -> & ->). by split.
  - intros k c Hc H0'. destruct (Hk k c Hc H0') as (x & Hx & Hr). unfold kid_state. rewrite upd_lookup, Hx.
    case_decide; [|by exists x]. exists (f x). destruct (Hf x) as (-> & -> & -> & _ & -> & _). by split.
Qed.

Lemma lc_state_file p cs r0 w i f st : file_only f -> lc_state p cs r0 w st -> lc_state p cs r0 (lw_upd w i f) st.
Proof.
  intros Hf. destruct st as [|u a r]; [by apply lc_core_file|]. intros (s & Hc & ?). exists s. split; [by apply lc_core_file|done].
Qed.

(** The scorw inodes of a family in each state, and what the tests on its files
    say. *)
Lemma find_par p cs r0 w st :
  lc_state p cs r0 w st -> match st with Closed => scorw_find_inode w p = None
                           | Opened _ _ _ => exists s, scorw_find_inode w p = Some s /\ si_par s = 0 end.
Proof.
  destruct st as [|u a r].
  - intros [(v & Hv & _ & Hs & _) _ _]. unfold scorw_find_inode. by rewrite Hv.
  - intros (s & [(v & Hv & _ & Hs & _) _ _] & Hp & _). exists s. unfold scorw_find_inode. by rewrite Hv.
Qed.

Lemma find_kid p cs r0 w st k c :
  lc_state p cs r0 w st -> cs !! k = Some c -> c <> 0 ->
  parent_attr w c = p /\
  match st with Closed => scorw_find_inode w c = None
  | Opened _ _ _ => exists s, scorw_find_inode w c = Some s /\ kid_sinode p k s end.
Proof.
  intros Hst Hk Hc. unfold parent_attr, scorw_find_inode. destruct st as [|u a r].
  - destruct (lc_kids _ _ _ _ _ _ _ Hst k c Hk Hc) as (v & Hv & _ & Hp & _ & Hs & _). by rewrite Hv.
  - destruct Hst as (s & Hst & _). destruct (lc_kids _ _ _ _ _ _ _ Hst k c Hk Hc) as (v & Hv & _ & Hp & _ & (s' & Hs & Hks) & _).
    rewrite Hv. split; [done|]. by exists s'.
Qed.

Lemma par_tests p cs r0 w st :
  family_shape p cs -> lc_state p cs r0 w st ->
  (forall b, scorw_is_child_file w p b = false) /\ scorw_is_par_file w p true = true /\ (st <> Closed -> scorw_is_par_file w p false = true).
Proof.
  intros Hsh Hst. pose proof (find_par _ _ _ _ _ Hst) as Hf. unfold scorw_is_child_file, scorw_is_par_file. destruct st as [|u a r].
  - rewrite Hf. destruct Hst as [(v & Hv & _ & _ & Hp & Hcs & _) _ _]. unfold parent_attr, child_i_attr.
    rewrite Hv. cbn [from_option mbind option_bind]. rewrite Hp, Hcs. split; [by intros []|]. split; [|done]. cbn [andb].
    destruct (fs_some _ _ Hsh) as (k & c & Hk & Hc). apply existsb_exists. exists k. rewrite Hk. split; [|by apply negb_true_iff, Z.eqb_neq].
    apply list_elem_of_In, elem_of_seq. apply lookup_lt_Some in Hk. rewrite (fs_len _ _ Hsh) in Hk. lia.
  - destruct Hf as (s & -> & ->). done.
Qed.

Lemma kid_tests p cs r0 w st k c :
  family_shape p cs -> lc_state p cs r0 w st -> cs !! k = Some c -> c <> 0 ->
  scorw_is_child_file w c true = true /\ (st <> Closed -> scorw_is_child_file w c false = true /\ from_option si_par 0 (scorw_find_inode w c) = p).
Proof.
  intros Hsh Hst Hk Hc. destruct (find_kid _ _ _ _ _ k c Hst Hk Hc) as [Hp Hf]. pose proof (fs_p _ _ Hsh). unfold scorw_is_child_file.
  destruct st as [|u a r].
  - rewrite Hf, Hp. split; [|done]. apply Z.ltb_lt. lia.
  - destruct Hf as (s & -> & Hps & _). rewrite Hps, (proj2 (Z.eqb_neq p 0)) by lia. done.
Qed.

(** The frame of opening and closing a file: the lock of its file side and the
    number of its opens. *)
Definition entered (w : lworld V) (i d : Z) : lworld V :=
  lw_upd (lw_upd w i (fun v => vi_set_oc_lock v true)) i (fun v => vi_add_open v d).

Lemma enter_ok l o w i : files_are l o w -> i <> 0 -> i ∈ l -> lock_open_close w i = Ok (lw_upd w i (fun v => vi_set_oc_lock v true)).
Proof.
  intros Hf Hi Hl. specialize (Hf i Hi Hl). unfold lock_open_close. destruct (lw_inodes w !! i) as [v|]; [|done].
  injection Hf as Hb _. by rewrite Hb.
Qed.

Lemma entered_state p cs r0 w i d st : lc_state p cs r0 w st -> lc_state p cs r0 (entered w i d) st.
Proof. intros Hst. apply lc_state_file; [done|]. by apply lc_state_file. Qed.

Lemma leave_ok l o w i d w' :
  files_are l o w -> i <> 0 -> i ∈ l -> quiet (entered w i d) w' -> files_are l (bump o i d) (unlock_open_close w' i).
Proof.
  intros Hf Hi Hl Hq j Hj Hjl. specialize (Hf j Hj Hjl). specialize (Hq j). unfold entered in Hq. rewrite !upd_lookup in Hq.
  unfold unlock_open_close, bump. rewrite upd_lookup. destruct (lw_inodes w !! j) as [v|]; [|done]. injection Hf as Hb Ho.
  destruct (decide (i = j)) as [->|Hne]; (destruct (lw_inodes w' !! j) as [v'|]; [|done]); cbn in Hq |- *.
  - rewrite decide_True by done. injection Hq as _ Hc. unfold file_side. cbn. by rewrite Hc, Ho.
  - rewrite decide_False by congruence. rewrite Hq. unfold file_side. by rewrite Hb, Ho.
Qed.

Lemma open_spec e p cs r0 w st o i :
  env_ok e -> family_shape p cs -> lc_state p cs r0 w st -> files_are (p :: cs) o w -> i <> 0 -> i ∈ p :: cs ->
  exists w', ext4_file_open e w i = Ok w' /\ lc_state p cs r0 w' (get_spec st) /\ files_are (p :: cs) (bump o i 1) w'.
Proof.
  intros He Hsh Hst Hf Hi Hin. unfold ext4_file_open.
  destruct (get_par_spec e p cs r0 (entered w i 1) st He Hsh) as (w' & Hg & Hst' & Hq); [by apply entered_state|].
  assert (exists w2, (w1 ← lock_open_close w i; r ← (if le_iget e p then scorw_get_inode e (lw_upd w1 i (fun v => vi_add_open v 1)) p else Bug);
    Ok (unlock_open_close r.1 i)) = Ok w2 /\ lc_state p cs r0 w2 (get_spec st) /\ files_are (p :: cs) (bump o i 1) w2) as Hopened.
  { rewrite (enter_ok _ _ _ _ Hf Hi Hin), (eo_iget _ He). cbn [mbind outcome_bind]. fold (entered w i 1). rewrite Hg. cbn [mbind outcome_bind fst].
    eexists. split; [done|]. split; [by apply lc_state_file|by apply (leave_ok _ _ w)]. }
  apply elem_of_cons in Hin as [->|Hin].
  - destruct (par_tests p cs r0 w st Hsh Hst) as (-> & -> & _). exact Hopened.
  - apply list_elem_of_lookup in Hin as [k Hk]. destruct (kid_tests p cs r0 w st k i Hsh Hst Hk Hi) as [-> _].
    destruct (find_kid _ _ _ _ _ k i Hst Hk Hi) as [-> _]. rewrite s32_small; [exact Hopened|]. pose proof (fs_p _ _ Hsh). lia.
Qed.

Lemma close_spec e p cs r0 w u a r o i in_txn :
  le_abort_fails e = false -> family_shape p cs -> lc_state p cs r0 w (Opened u a r) -> 0 < u ->
  files_are (p :: cs) o w -> i <> 0 -> i ∈ p :: cs ->
  exists w', ext4_release_file e w i in_txn = Ok w' /\ lc_state p cs r0 w' (put_spec (Opened u a r)) /\ files_are (p :: cs) (bump o i (-1)) w'.
Proof.
  intros He Hsh Hst Hu Hf Hi Hin. unfold ext4_release_file.
  destruct (put_par_spec 1 false p cs r0 (entered w i (-1)) u a r false Hsh) as (w' & Hg & Hq & Hst'); [by apply entered_state|done|].
  assert (exists w2, (w3 ← scorw_put_inode put_depth (entered w i (-1)) p false false false; Ok (unlock_open_close w3 i)) = Ok w2 /\
    lc_state p cs r0 w2 (put_spec (Opened u a r)) /\ files_are (p :: cs) (bump o i (-1)) w2) as Hclosed.
  { unfold put_depth. rewrite Hg. cbn [mbind outcome_bind]. eexists. split; [done|]. split; [by apply lc_state_file|by apply (leave_ok _ _ w)]. }
  rewrite (enter_ok _ _ _ _ Hf Hi Hin). cbn [mbind outcome_bind]. fold (entered w i (-1)). rewrite He, andb_false_r.
  apply elem_of_cons in Hin as [->|Hin].
  - destruct (par_tests p cs r0 w _ Hsh Hst) as (-> & _ & ->); [exact Hclosed|done].
  - apply list_elem_of_lookup in Hin as [k Hk]. destruct (kid_tests p cs r0 w _ k i Hsh Hst Hk Hi) as [_ [-> _]]; [done|].
    destruct (kid_tests p cs r0 (entered w i (-1)) (Opened u a r) k i Hsh (entered_state _ _ _ _ _ _ _ Hst) Hk Hi) as [_ [_ ->]]; [done|exact Hclosed].
Qed.

Lemma copy_spec p cs r0 w u a r :
  family_shape p cs -> lc_state p cs r0 w (Opened u a r) -> lc_state p cs r0 (page_copy_added w p) (Opened u (a + 1) r).
Proof.
  intros Hsh (s & Hc & S1 & S2 & S3 & S4 & S5 & S6). pose proof (lc_p _ _ _ _ _ _ _ Hc) as (v & Hv & ? & Hs & ? & ? & ? & ?).
  exists (si_set_copies s (si_added s + 1) (si_removed s)). split; [|cbn; by rewrite S3].
  eapply lc_core_par; [done|exact Hc| | |done|done|apply Hc].
  - eexists. unfold page_copy_added, upd_scorw. rewrite upd_lookup, decide_True, Hv by done. split; [done|]. cbn. rewrite Hs. by split_and!.
  - intros j Hj. unfold page_copy_added, upd_scorw. by rewrite upd_lookup, decide_False.
Qed.

Lemma family_inj p cs : family_shape p cs -> forall j k c, (p :: cs) !! j = Some c -> (p :: cs) !! k = Some c -> c <> 0 -> j = k.
Proof.
  intros Hsh [|j] [|k] c Hj Hk Hc; cbn in *; [done| | |f_equal; by eapply fs_inj]; simplify_eq; exfalso; apply (fs_out _ _ Hsh);
    by eapply list_elem_of_lookup_2.
Qed.

Lemma bump_nonneg o i d : (forall j, 0 <= o j) -> 0 <= o i + d -> forall j, 0 <= bump o i d j.
Proof. intros Ho Hi j. unfold bump. case_decide; [by subst|done]. Qed.

Lemma settle_counted l o u x y : (forall i, 0 <= o i) -> open_files o l = u -> y <= x -> counted l (settle (Opened u x y), o).
Proof.
  intros Ho Hu Hxy. split; [done|]. cbn. destruct (Z.eqb_spec u 0), (Z.eqb_spec x y); cbn; lia.
Qed.

Lemma spec_op_counted p cs op a a' :
  family_shape p cs -> counted (p :: cs) a -> spec_op p cs op a = Some a' -> counted (p :: cs) a'.
Proof.
  intros Hsh [Ho Hst] Hop. pose proof (family_inj p cs Hsh) as Hinj. pose proof (open_files_nonneg a.2 (p :: cs) Ho) as Hnn. destruct a as [st o], op as [i|i t| |]; cbn [spec_op run_op fst snd] in *.
  - case_bool_decide as Hd; [|done]. destruct Hd as [Hi Hin]. injection Hop as <-. split.
    + apply bump_nonneg; [done|]. specialize (Ho i). lia.
    + cbn [fst snd]. rewrite (open_files_bump o (p :: cs)) by done. destruct st; cbn [get_spec fst snd] in *; lia.
  - case_bool_decide as Hd; [|done]. destruct Hd as (Hi & Hin & Hpos). injection Hop as <-.
    pose proof (open_files_le o (p :: cs) i Ho Hi Hin). destruct st as [|u x y]; [lia|].
    apply settle_counted; [apply bump_nonneg; [done|lia]|rewrite (open_files_bump o (p :: cs)) by done; lia|lia].
  - destruct st as [|u x y]; [done|]. destruct (Z.ltb_spec 0 u); [|done]. injection Hop as <-. split; [done|]. cbn [fst snd]. lia.
  - destruct st as [|u x y]; [done|]. destruct (Z.ltb_spec y x); [|done]. injection Hop as <-. apply settle_counted; [done|lia|lia].
Qed.

(** One operation of the machine follows the abstract one. *)
Lemma op_simulated e p cs r0 w op a a' :
  env_ok e -> le_abort_fails e = false -> family_shape p cs -> counted (p :: cs) a ->
  lc_state p cs r0 w a.1 -> files_are (p :: cs) a.2 w -> spec_op p cs op a = Some a' ->
  exists w', run_op e p op w = Ok w' /\ lc_state p cs r0 w' a'.1 /\ files_are (p :: cs) a'.2 w'.
Proof.
  intros He Hab Hsh [Ho Hct] Hst Hf Hop. destruct a as [st o], op as [i|i t| |]; cbn [spec_op run_op fst snd] in *.
  - case_bool_decide as Hd; [|done]. destruct Hd as [Hi Hin]. injection Hop as <-. by apply open_spec.
  - case_bool_decide as Hd; [|done]. destruct Hd as (Hi & Hin & Hpos). injection Hop as <-.
    pose proof (open_files_le o (p :: cs) i Ho Hi Hin). destruct st as [|u x y]; [lia|]. apply close_spec; auto. lia.
  - destruct st as [|u x y]; [done|]. destruct (0 <? u); [|done]. injection Hop as <-. eexists. split; [done|].
    split; [by apply copy_spec|]. eapply files_quiet; [done|by apply quiet_upd].
  - destruct st as [|u x y]; [done|]. destruct (y <? x); [|done]. injection Hop as <-.
    destruct (put_par_spec 1 false p cs r0 w u x y true Hsh Hst) as (w' & Hr & Hq & Hst'); [done|]. exists w'.
    split; [exact Hr|]. split; [done|]. by eapply files_quiet.
Qed.

Lemma ops_simulated e p cs r0 ops w a a' :
  env_ok e -> le_abort_fails e = false -> family_shape p cs -> counted (p :: cs) a ->
  lc_state p cs r0 w a.1 -> files_are (p :: cs) a.2 w -> spec_run p cs ops a = Some a' ->
  exists w', run_ops e p ops w = Ok w' /\ lc_state p cs r0 w' a'.1 /\ files_are (p :: cs) a'.2 w' /\ counted (p :: cs) a'.
Proof.
  intros He Hab Hsh. revert w a. induction ops as [|op ops IH]; intros w a Hct Hst Hf Hr; cbn [spec_run] in Hr.
  - injection Hr as <-. by exists w.
  - apply bind_Some in Hr as (a1 & Ha1 & Hr). destruct (op_simulated e p cs r0 w op a a1) as (w1 & Hw1 & Hst1 & Hf1); auto.
    destruct (IH w1 a1) as (w' & Hw' & Hrest); auto; [by eapply spec_op_counted|]. exists w'. split; [|done].
    unfold run_ops. cbn [for_each]. by rewrite Hw1.
Qed.

(** Closing what is open and finishing what is pending. *)
Definition winds_down (op : lop) : Prop := match op with LClose _ _ | LDone => True | _ => False end.

Lemma open_files_pos o l : 0 < open_files o l -> exists i, i <> 0 /\ i ∈ l /\ 0 < o i.
Proof.
  induction l as [|j l IH]; cbn [open_files]; [lia|]. intros Hp. destruct (Z.eqb_spec j 0).
  - destruct IH as (i & ? & ? & ?); [lia|]. exists i. set_solver.
  - destruct (Z.lt_ge_cases 0 (o j)); [exists j; set_solver|]. destruct IH as (i & ? & ? & ?); [lia|]. exists i. set_solver.
Qed.

Lemma spec_drains p cs n a :
  family_shape p cs -> counted (p :: cs) a ->
  match a.1 with Closed => True | Opened u x y => (Z.to_nat (u + (x - y)) <= n)%nat end ->
  exists ops o, spec_run p cs ops a = Some (Closed, o) /\ Forall winds_down ops.
Proof.
  intros Hsh. revert a. induction n as [|n IH]; intros [st o] Hct Hn.
  - destruct st as [|u x y]; [exists [], o; by split|]. destruct Hct as (Ho & Hu & Hxy & Hlt). cbn [fst snd] in *.
    pose proof (open_files_nonneg o (p :: cs) Ho). lia.
  - destruct st as [|u x y]; [exists [], o; by split|]. pose proof Hct as (Ho & Hu & Hxy & Hlt). cbn [fst snd] in *.
    assert (forall op a1, spec_op p cs op (Opened u x y, o) = Some a1 -> winds_down op ->
      match a1.1 with Closed => True | Opened u x y => (Z.to_nat (u + (x - y)) <= n)%nat end ->
      exists ops o', spec_run p cs ops (Opened u x y, o) = Some (Closed, o') /\ Forall winds_down ops) as Hgo.
    { intros op a1 Ha1 Hw Hm. destruct (IH a1) as (ops & o' & Hr & Hf); [by eapply spec_op_counted|done|].
      exists (op :: ops), o'. cbn [spec_run]. rewrite Ha1. by split; [|constructor]. }
    pose proof (open_files_nonneg o (p :: cs) Ho). destruct (Z.eqb_spec u 0) as [Hu0|Hu0].
    + apply (Hgo LDone (done_spec (Opened u x y), o)); [cbn; by rewrite (proj2 (Z.ltb_lt y x)) by auto|done|].
      cbn. destruct (_ && _); cbn; [done|]. lia.
    + destruct (open_files_pos o (p :: cs)) as (i & Hi & Hin & Hpos); [lia|].
      apply (Hgo (LClose i false) (put_spec (Opened u x y), bump o i (-1))); [cbn; by rewrite bool_decide_true|done|].
      cbn. destruct (_ && _); cbn; [done|]. lia.
Qed.

(** ** Lemmas: unlinking under an open parent *)

Lemma for_each_hang (cs : list Z) (f : Z -> lworld V -> outcome (lworld V)) w :
  (exists k c, cs !! k = Some c /\ c <> 0) -> f 0 w = Ok w -> (forall c, c ∈ cs -> c <> 0 -> f c w = Hang) -> for_each cs f w = Hang.
Proof.
  intros Hex H0' Hh. induction cs as [|c cs IH]; [by destruct Hex as (? & ? & ? & _)|]. cbn [for_each].
  destruct (decide (c = 0)) as [->|Hc]; [|rewrite Hh; [done|by left|done]]. rewrite H0'. cbn [mbind outcome_bind]. apply IH.
  - destruct Hex as ([|k] & c & Hk & Hc); [by injection Hk|]. by exists k, c.
  - intros c Hc. apply Hh. by right.
Qed.

(** Putting a parent that is at its end while [frnd_version_cnt_lock] is held. *)
Lemma put_par_hang fuel ipp p cs w s v :
  family_shape p cs -> lw_inodes w !! p = Some v -> vi_lock v = false -> vi_scorw v = Some s -> si_usage s = 1 -> si_added s = si_removed s ->
  si_kids s = cs -> (forall k c, cs !! k = Some c -> c <> 0 -> is_Some (scorw_find_inode w c)) -> lw_frnd_lock w = true ->
  scorw_put_inode (S (S fuel)) w p false false ipp = Hang.
Proof.
  intros Hsh Hv Hl Hs Hu Ha Hk Hf Hfl.
  destruct (put_par_unfold (S fuel) ipp p w v s false Hv Hl Hs) as (w4 & -> & Hin & _ & Hf4); [intros; lia|].
  unfold free_if_unused, scorw_find_inode at 1. rewrite Hin, decide_True, Hv by done.
  cbn [fmap option_fmap option_map mbind option_bind vi_scorw vi_set_scorw count_down si_usage si_added si_removed si_kids si_set_usage].
  rewrite Hu, Ha, (Z.eqb_refl (si_removed s)), Hk. change (1 - 1 =? 0) with true. cbn [andb mbind outcome_bind].
  rewrite for_each_hang; [reflexivity|apply Hsh|done|]. intros c Hc Hc0. rewrite (proj2 (Z.eqb_neq c 0) Hc0). apply list_elem_of_lookup in Hc as [k Hc].
  pose proof (slot_ne _ _ _ _ Hsh Hc) as Hcp. rewrite find_upd_ne by done. unfold scorw_find_inode, lw_set_list. cbn [lw_inodes].
  rewrite Hin, decide_False by done. destruct (Hf k c Hc Hc0) as [sc Hsc]. unfold scorw_find_inode in Hsc. rewrite Hsc.
  cbn [scorw_put_inode]. unfold lock_frnd. cbn [lw_frnd_lock lw_upd]. by rewrite Hf4, Hfl.
Qed.

Lemma put_child_hang n p (cs : list Z) w c vc sc vp sp :
  (forall w' v, lw_inodes w' !! p = Some v -> vi_lock v = false -> vi_scorw v = Some sp ->
     (forall (k : nat) d, cs !! k = Some d -> d <> 0 -> is_Some (scorw_find_inode w' d)) -> lw_frnd_lock w' = true ->
     scorw_put_inode n w' p false false true = Hang) ->
  p <> 0 -> c <> p -> lw_inodes w !! c = Some vc -> vi_lock vc = false -> vi_scorw vc = Some sc -> si_par sc = p -> si_usage sc = 1 ->
  lw_inodes w !! p = Some vp -> vi_lock vp = false -> vi_scorw vp = Some sp ->
  (forall (k : nat) d, cs !! k = Some d -> d <> 0 -> is_Some (scorw_find_inode w d)) -> lw_frnd_lock w = false ->
  scorw_put_inode (S n) w c true false false = Hang.
Proof.
  intros Hput Hp0 Hcp Hc Hcl Hcs Hpar Hu Hp Hpl Hps Hk Hfl. cbn [scorw_put_inode]. unfold lock_frnd. rewrite Hfl. cbn [mbind outcome_bind].
  rewrite (lock_inode_ok (lw_set_frnd_lock w true) c vc Hc Hcl). cbn [mbind outcome_bind].
  rewrite (find_upd_eq (lw_set_frnd_lock w true) _ _ vc Hc). cbn [vi_scorw vi_set_lock]. rewrite Hcs, Hu, Hpar. change (1 <=? 0) with false.
  cbn [BUG_ON mbind outcome_bind]. rewrite (proj2 (Z.eqb_neq p 0) Hp0). cbn [negb andb].
  match goal with |- context [scorw_put_inode n ?x p false false true] => set (w4 := x) end.
  assert (scorw_find_inode w4 p = Some sp) as Hfp.
  { unfold w4, upd_scorw, set_version_attr. rewrite !find_upd_ne by done. unfold scorw_find_inode. cbn [lw_inodes lw_set_frnd_lock]. by rewrite Hp. }
  rewrite Hfp, bool_decide_true by done. cbn [andb]. rewrite (Hput w4 vp); auto.
  - unfold w4, upd_scorw, set_version_attr. by rewrite !upd_lookup, !decide_False by done.
  - intros k d Hkd Hd. unfold w4, upd_scorw, set_version_attr, scorw_find_inode. rewrite !upd_lookup.
    specialize (Hk k d Hkd Hd). unfold scorw_find_inode in Hk. case_decide; [|done]. subst d. cbn [lw_inodes lw_set_frnd_lock].
    rewrite Hc. cbn. by rewrite Hcs.
Qed.

(** ** Properties *)

(** C11: The reference counts of a family do what they are for: every history of
    opens and closes of its files, of page copies made and of page copies done
    runs to its end as the abstract counter says; the family has its scorw
    inodes, one for every child, exactly while a file of it is open or a page
    copy is under way, holds one reference on the parent for itself and one for
    each child, and no lock is left held. *)
Theorem family_refines_counter (e : lenv) (p : Z) (cs : list Z) (r0 : Z) (w : lworld V) (ops : list lop) (a : astate) :
  env_ok e -> le_abort_fails e = false -> family_shape p cs -> lc_state p cs r0 w Closed -> files_are (p :: cs) (fun _ => 0) w ->
  spec_run p cs ops (Closed, fun _ => 0) = Some a ->
  exists w', run_ops e p ops w = Ok w' /\ lc_state p cs r0 w' a.1 /\ files_are (p :: cs) a.2 w' /\ counted (p :: cs) a.
Proof.
  intros He Hab Hsh Hst Hf Hr. apply (ops_simulated e p cs r0 ops w (Closed, fun _ => 0) a); auto. split; [done|]. cbn [fst snd].
  clear. induction (p :: cs) as [|i l IH]; cbn [open_files]; [done|]. rewrite IH. by destruct (i =? 0).
Qed.

(** C30: A family can always be wound down: from every state that opens and closes of
    its files and page copies lead to, where memory is to be had, inodes are found,
    the version of the parent is one, and no abort fails ([family_refines_counter] leads to such states),
    closing the open files and finishing the page copies ends with no scorw
    inode and no reference left.  A child made or unlinked while the parent is open is not among
    those steps: [clone_under_open_parent_leaks] and [unlink_under_open_parent_hangs]
    show what happens then. *)
Theorem family_drains (e : lenv) (p : Z) (cs : list Z) (r0 : Z) (w : lworld V) (a : astate) :
  env_ok e -> le_abort_fails e = false -> family_shape p cs -> counted (p :: cs) a -> lc_state p cs r0 w a.1 -> files_are (p :: cs) a.2 w ->
  exists ops w', Forall winds_down ops /\ run_ops e p ops w = Ok w' /\ lc_state p cs r0 w' Closed.
Proof.
  intros He Hab Hsh Hct Hst Hf.
  destruct (spec_drains p cs (match a.1 with Closed => O | Opened u x y => Z.to_nat (u + (x - y)) end) a Hsh Hct) as (ops & o & Hr & Hw);
    [by destruct a.1|].
  destruct (ops_simulated e p cs r0 ops w a (Closed, o)) as (w' & Hw' & Hst' & _); auto. by exists ops, w'.
Qed.

(** Unlinking a child while its parent is open once, with no page copy
    under way, never returns: the put of the child puts the parent, which puts
    its children, and waits for the lock its caller holds. *)
Theorem unlink_under_open_parent_hangs (e : lenv) (p : Z) (cs : list Z) (r0 : Z) (w : lworld V) (x : Z) (o : Z -> Z) (k : nat) (c : Z) :
  env_ok e -> family_shape p cs -> lc_state p cs r0 w (Opened 1 x x) -> files_are (p :: cs) o w -> cs !! k = Some c -> c <> 0 ->
  scorw_unlink_child_file e w c = Hang.
Proof.
  intros He Hsh Hst Hf Hk Hc. pose proof (slot_ne _ _ _ _ Hsh Hk) as Hcp. pose proof (fs_p _ _ Hsh) as Hp0.
  unfold scorw_unlink_child_file. rewrite (enter_ok _ _ _ _ Hf Hc) by (right; by eapply list_elem_of_lookup_2). cbn [mbind outcome_bind].
  set (w1 := lw_upd w c _). assert (lc_state p cs r0 w1 (Opened 1 x x)) as Hst1 by (by apply lc_state_file).
  destruct (find_kid _ _ _ _ _ k c Hst1 Hk Hc) as [-> (s1 & Hs1 & _)]. rewrite (eo_iget _ He). cbn [negb].
  assert (lock_open_close w1 p = Ok (lw_upd w1 p (fun v => vi_set_oc_lock v true))) as ->.
  { specialize (Hf p ltac:(lia) ltac:(by left)). unfold lock_open_close, w1. rewrite upd_lookup, decide_False by done.
    destruct (lw_inodes w !! p); [|done]. injection Hf as Hb _. by rewrite Hb. }
  cbn [mbind outcome_bind]. set (w2 := lw_upd w1 p _). assert (lc_state p cs r0 w2 (Opened 1 x x)) as Hst2 by (by apply lc_state_file).
  destruct (find_kid _ _ _ _ _ k c Hst2 Hk Hc) as [_ (s2 & Hs2 & Hks2)]. destruct (find_par _ _ _ _ _ Hst2) as (sp & Hsp & _).
  rewrite (bool_decide_true (is_Some (scorw_find_inode w2 c))), (bool_decide_true (is_Some (scorw_find_inode w2 p))) by done.
  destruct Hst2 as (s & Hc2 & S1 & S2 & S3 & S4 & S5 & S6). pose proof Hc2 as [(vp & Hvp & Hpl & Hps & _) Hkids Hfl].
  destruct (Hkids k c Hk Hc) as (vc & Hvc & Hcl & _ & _ & (sc & Hcs & K1 & K2 & _) & _).
  rewrite (put_child_hang 2 p cs _ c (vi_set_oc_lock (vi_set_scorw vc (Some (si_set_unlinked sc true))) false) (si_set_unlinked sc true) vp s);
    [done| |lia|done| |done|done|done|done| |done|done| |done].
  - intros w' v Hv Hl Hsv Hall Hlk. eapply put_par_hang; eauto; congruence.
  - unfold unlock_open_close, upd_scorw. rewrite !upd_lookup, !decide_True, Hvc by done. cbn. by rewrite Hcs.
  - unfold unlock_open_close, upd_scorw. by rewrite !upd_lookup, !decide_False.
  - intros j d Hj Hd. destruct (Hkids j d Hj Hd) as (vd & Hvd & _ & _ & _ & (sd & Hsd & _) & _).
    unfold unlock_open_close, upd_scorw, scorw_find_inode. rewrite !upd_lookup, Hvd. case_decide; cbn; rewrite Hsd; by eexists.
Qed.

End histories.

(** ** The version counts keep the promise *)

#[export] Instance version_counts (io : io_env) : ChildAttach vworld := {
  prepare_child := scorw_prepare_child_inode io;
  unprepare_child := scorw_unprepare_child_inode
}.

(** A child that can be opened: its friend exists, and is up to date, or being
    brought up to date, or can be recovered. *)
Definition frnd_usable (io : io_env) (c : cnode) (f : fnode) : Prop :=
  cannot_update_child_version_cnt c = true \/
  (child_version c <> 0 /\ frnd_version f <> 0 /\
   (child_version c = frnd_version f \/ exists m, scorw_recover_friend_file io (c_es_tree c) (f_file f) (c_copy_size c) = Ok m)).
Definition openable (io : io_env) (w : vworld) (i : Z) : Prop :=
  vw_wf w /\ exists c f, vw_c w !! i = Some c /\ vw_f w !! c_frnd_ino c = Some f /\ frnd_usable io c f.

(** A change of a child and its friend keeps the others openable. *)
Lemma openable_update io w w' i c c' f' :
  vw_wf w -> vw_wf w' -> vw_c w !! i = Some c -> vw_c w' = <[i := c']> (vw_c w) -> c_frnd_ino c' = c_frnd_ino c ->
  vw_f w' !! c_frnd_ino c = Some f' -> (forall j, j <> c_frnd_ino c -> vw_f w' !! j = vw_f w !! j) -> frnd_usable io c' f' ->
  forall d, openable io w d -> openable io w' d.
Proof.
  intros Hw Hw' Hc Hcs Hfi Hf Hfs Hu d [_ (cd & fd & Hcd & Hfd & Hud)]. split; [done|]. rewrite Hcs, lookup_insert. case_decide as Hd.
  - exists c', f'. by rewrite Hfi.
  - exists cd, fd. split; [done|]. rewrite Hfs; [done|]. intros Heq. apply Hd. by eapply (vf_inj _ Hw).
Qed.

Lemma prepare_openable io w i :
  openable io w i -> exists w', scorw_prepare_child_inode io w i = Ok w' /\
    (forall d, from_option has_scorw false (vw_c w' !! d) = if decide (d = i) then true else from_option has_scorw false (vw_c w !! d)) /\
    forall d, openable io w d -> openable io w' d.
Proof.
  intros [Hw (c & f & Hc & Hf & Hu)]. set (c1 := CNode (c_frnd_ino c) (cannot_update_child_version_cnt c) (child_version c) true (dirty c)
    (c_count c + 1) (c_copy_size c) (c_es_tree c)).
  assert (exists f', scorw_prepare_child_inode io w i = Ok (set_f (set_c w i c1) (c_frnd_ino c) f') /\ frnd_usable io c1 f') as (f' & Hr & Hu').
  { unfold scorw_prepare_child_inode. rewrite Hc, Hf. fold c1. unfold frnd_usable in Hu |- *. cbn [c1 cannot_update_child_version_cnt child_version].
    destruct (cannot_update_child_version_cnt c); [eexists; split; [done|by left]|]. destruct Hu as [|(Hv & Hfv & Hrec)]; [done|].
    rewrite (proj2 (Z.eqb_neq _ _) Hv), (proj2 (Z.eqb_neq _ _) Hfv). cbn [orb BUG_ON mbind outcome_bind].
    destruct (Z.eqb_spec (child_version c) (frnd_version f)) as [He|He].
    - eexists. split; [done|]. right. split_and!; auto.
    - destruct Hrec as [|[m ->]]; [done|]. cbn [mbind outcome_bind]. eexists. split; [done|]. right. split_and!; auto. }
  eexists. split; [exact Hr|]. split.
  - intros d. cbn. rewrite lookup_insert. repeat case_decide; subst; done.
  - eapply (openable_update io w _ i c c1 f'); auto; [by eapply open_wf|cbn; by rewrite lookup_insert_eq|].
    intros j Hj. cbn. by rewrite lookup_insert_ne.
Qed.

Lemma unprepare_openable io w i :
  openable io w i -> exists w', scorw_unprepare_child_inode w i = Ok w' /\
    (forall d, from_option has_scorw false (vw_c w' !! d) = if decide (d = i) then false else from_option has_scorw false (vw_c w !! d)) /\
    forall d, openable io w d -> openable io w' d.
Proof.
  intros [Hw (c & f & Hc & Hf & Hu)].
  assert (exists w' c' f', scorw_unprepare_child_inode w i = Ok w' /\ vw_c w' = <[i := c']> (vw_c w) /\ has_scorw c' = false /\
    c_frnd_ino c' = c_frnd_ino c /\ vw_f w' !! c_frnd_ino c = Some f' /\ (forall j, j <> c_frnd_ino c -> vw_f w' !! j = vw_f w !! j) /\
    frnd_usable io c' f') as (w' & c' & f' & Hr & Hcs & Hs & Hfi & Hf' & Hfs & Hu').
  { unfold scorw_unprepare_child_inode. rewrite Hc, Hf.
    assert (frnd_usable io (c_iput (c_set_scorw c false)) (f_iput f)) as Hu1 by done.
    destruct (cannot_update_child_version_cnt c); cbn [negb]; [destruct (entry_found w i)|].
    - eexists _, _, _. split; [done|]. cbn. split_and!; [done..|by rewrite lookup_insert_eq|intros j Hj; by rewrite lookup_insert_ne|done].
    - eexists _, _, f. split; [done|]. cbn. split_and!; done.
    - eexists _, _, _. split; [done|]. cbn. split_and!; [done..|by rewrite lookup_insert_eq|intros j Hj; by rewrite lookup_insert_ne|done]. }
  eexists. split; [exact Hr|]. split.
  - intros d. rewrite Hcs, lookup_insert. repeat case_decide; subst; done.
  - eapply (openable_update io w _ i c c' f'); auto. by eapply close_wf.
Qed.

#[export] Instance version_counts_ok (io : io_env) : @ChildAttachOk vworld (version_counts io).
Proof.
  unshelve refine (Build_ChildAttachOk _ _ (fun w i => from_option has_scorw false (vw_c w !! i)) (openable io) _ _).
  - intros w i Hr _. by apply prepare_openable.
  - intros w i Hr _. by apply unprepare_openable.
Defined.

(** ** Runs that go wrong *)

(** Parent 11 with child 12, whose friend is 13; 14 with friend 15 is a file that
    becomes the second child. *)
Definition demo_slots : list Z := 12 :: replicate 63 0.
Definition demo_par : vinode := VInode None false false 0 0 0 demo_slots 1 0.
Definition demo_kid (p : Z) : vinode := VInode None false false 0 0 p [] 1 2.
Definition demo_counts : vworld :=
  VWorld {[12 := c12 false false 1; 14 := CNode 15 false 1 false false 2 8192 []]} {[13 := f13 1 1; 15 := f13 1 1]} [] [] 1.
Definition demo_world : lworld vworld :=
  LWorld {[11 := demo_par; 12 := demo_kid 11; 14 := demo_kid 0]} false [] [] demo_counts.
Definition demo_env : lenv := LEnv true (fun _ => true) (fun _ v => Ok v) false.

#[local] Instance demo_attach : ChildAttach vworld := version_counts io_ok.

(** What is left of an inode: how often it is open, and the count of its scorw
    inode. *)
Definition left_of (w : lworld vworld) (i : Z) : option (Z * option Z) :=
  (fun v => (vi_open_count v, si_usage <$> vi_scorw v)) <$> lw_inodes w !! i.

(** The parent is open twice, its child is unlinked, the parent is closed
    once. *)
Definition unlink_run : outcome (option (Z * option Z)) :=
  w ← run_ops demo_env 11 [LOpen 11; LOpen 11] demo_world;
  r ← scorw_unlink_child_file demo_env w 12;
  w' ← run_op demo_env 11 (LClose 11 false) r.2;
  Ok (left_of w' 11).

(** Unlinking a child takes a reference of the parent that belongs to an
    open file: the parent loses its scorw inode while it is still open, so
    writes to it no longer keep the snapshots of its children. *)
Theorem unlink_takes_reference_of_open_file : unlink_run = Ok (Some (1, None)).
Proof. vm_compute. reflexivity. Qed.

(** A second child is attached while the parent is open, as setting the parent
    attribute does: the attributes, then [special_open] under the lock of the
    parent; then both files are closed. *)
Definition clone_run : outcome (option (Z * option Z) * option (Z * option Z)) :=
  w ← run_ops demo_env 11 [LOpen 11] demo_world;
  let w1 := lw_upd w 11 (fun v => vi_set_lock (vi_set_children v (<[1%nat := 14]> (at_children v))) true) in
  let w2 := lw_upd w1 14 (fun v => VInode (vi_scorw v) (vi_lock v) (vi_oc_lock v) 1 (vi_refs v) 11 [] 1 2) in
  w3 ← special_open demo_env w2 11 14 1;
  w4 ← run_ops demo_env 11 [LClose 14 false; LClose 11 false] (unlock_inode w3 11);
  Ok (left_of w4 11, left_of w4 14).

(** Attaching a child to an open parent leaks a reference: after all files
    are closed the child still has its scorw inode. *)
Theorem clone_under_open_parent_leaks : clone_run = Ok (Some (0, None), Some (0, Some 1)).
Proof. vm_compute. reflexivity. Qed.

(** Parent 21 has a page copy under way for its child in slot 0 when the child in
    slot 0 of parent 11 is unlinked. *)
Definition foreign_run : outcome (list (list bool)) :=
  w ← run_ops demo_env 11 [LOpen 11; LOpen 11] (lw_set_copies demo_world [PageCopy 5 21 None [true; false]]);
  r ← scorw_unlink_child_file demo_env w 12;
  Ok (is_target_child <$> lw_copies r.2).

(** Unlinking a child drops the page copies under way for the children in the
    same slot of every other parent. *)
Theorem unlink_drops_foreign_copies : foreign_run = Ok [[false; false]].
Proof. vm_compute. reflexivity. Qed.

(** ** Witnesses *)

Lemma demo_env_ok : env_ok demo_env.
Proof. split; [done|done|]. intros i v Hv. by exists v. Qed.

Lemma demo_shape : family_shape 11 demo_slots.
Proof.
  assert (forall k c, demo_slots !! k = Some c -> c <> 0 -> k = O /\ c = 12) as Hk.
  { intros [|k] c Hk Hc; [by injection Hk|]. exfalso. apply lookup_replicate in Hk as [-> _]. done. }
  split; [lia|done| |by exists O, 12|].
  - intros Hin. apply list_elem_of_lookup in Hin as [k Hin]. destruct (Hk k 11 Hin); done.
  - intros j k c Hj Hk' Hc. by destruct (Hk j c Hj Hc) as [-> _], (Hk k c Hk' Hc) as [-> _].
Qed.

Lemma demo_counts_wf : vw_wf demo_counts.
Proof.
  split; cbn.
  - intros i c Hi. apply lookup_insert_Some in Hi as [[<- <-]|[_ Hi]]; [by eexists|]. apply lookup_singleton_Some in Hi as [<- <-]. by eexists.
  - intros i j ci cj Hi Hj He. apply lookup_insert_Some in Hi as [[<- <-]|[_ Hi]], Hj as [[<- <-]|[_ Hj]];
      try apply lookup_singleton_Some in Hi as [<- <-]; try apply lookup_singleton_Some in Hj as [<- <-]; done.
  - intros i c Hi. apply lookup_insert_Some in Hi as [[<- <-]|[_ Hi]]; [done|]. by apply lookup_singleton_Some in Hi as [<- <-].
  - constructor.
  - by intros r Hr%elem_of_nil.
  - intros i c Hi. apply lookup_insert_Some in Hi as [[<- <-]|[_ Hi]]; [done|]. by apply lookup_singleton_Some in Hi as [<- <-].
  - lia.
Qed.

Lemma demo_state : lc_state 11 demo_slots 0 demo_world Closed.
Proof.
  split; [by eexists| |done]. intros [|k] c Hk Hc; [|exfalso; apply lookup_replicate in Hk as [-> _]; done]. injection Hk as <-.
  exists (demo_kid 11). do 5 (split; [done|]). split; [done|]. split; [apply demo_counts_wf|].
  exists (c12 false false 1), (f13 1 1). split; [done|]. split; [done|]. right. split_and!; [done|done|by left].
Qed.

Lemma demo_files : files_are (11 :: demo_slots) (fun _ => 0) demo_world.
Proof.
  intros i Hi Hin. apply elem_of_cons in Hin as [->|Hin]; [done|]. apply elem_of_cons in Hin as [->|Hin]; [done|].
  by apply elem_of_replicate in Hin as [-> _].
Qed.

(** Both files are opened, a page copy is made, the files are closed, and the
    page copy is done last. *)
Definition demo_history : list lop := [LOpen 12; LOpen 11; LCopy; LClose 11 false; LClose 12 false; LDone].

Lemma family_refines_counter_witness :
  exists a w', spec_run 11 demo_slots demo_history (Closed, fun _ => 0) = Some a /\ run_ops demo_env 11 demo_history demo_world = Ok w' /\
    lc_state 11 demo_slots 0 w' a.1 /\ files_are (11 :: demo_slots) a.2 w' /\ counted (11 :: demo_slots) a.
Proof.
  destruct (spec_run 11 demo_slots demo_history (Closed, fun _ => 0)) as [a|] eqn:Ha; [|vm_compute in Ha; discriminate].
  destruct (family_refines_counter demo_env 11 demo_slots 0 demo_world demo_history a demo_env_ok eq_refl demo_shape demo_state demo_files Ha) as (w' & H).
  exists a, w'. split; [reflexivity|exact H].
Defined.

Lemma family_drains_witness :
  exists ops w', Forall winds_down ops /\ run_ops demo_env 11 ops demo_world = Ok w' /\ lc_state 11 demo_slots 0 w' Closed.
Proof.
  apply (family_drains demo_env 11 demo_slots 0 demo_world (Closed, fun _ => 0));
    [exact demo_env_ok|done|exact demo_shape| |exact demo_state|exact demo_files]. split; [done|]. vm_compute. reflexivity.
Defined.

Lemma demo_opened : exists w, run_ops demo_env 11 [LOpen 11] demo_world = Ok w /\
  lc_state 11 demo_slots 0 w (Opened 1 0 0) /\ files_are (11 :: demo_slots) (bump (fun _ => 0) 11 1) w.
Proof.
  edestruct (open_spec demo_env 11 demo_slots 0 demo_world Closed (fun _ => 0) 11) as (w & Hw & Hst & Hf);
    [exact demo_env_ok|exact demo_shape|exact demo_state|exact demo_files|done|by left|].
  exists w. split; [|by split]. unfold run_ops. cbn [for_each run_op]. by rewrite Hw.
Qed.

Lemma unlink_under_open_parent_hangs_witness :
  exists w, run_ops demo_env 11 [LOpen 11] demo_world = Ok w /\ scorw_unlink_child_file demo_env w 12 = Hang.
Proof.
  destruct demo_opened as (w & Hw & Hst & Hf). exists w. split; [exact Hw|].
  apply (unlink_under_open_parent_hangs demo_env 11 demo_slots 0 w 0 (bump (fun _ => 0) 11 1) O 12);
    [exact demo_env_ok|exact demo_shape|exact Hst|exact Hf|reflexivity|discriminate].
Defined.
