(* ===== verification/Xattr.v ===== *)
(** The extended attributes of the layer: names, values as the bytes stored, and
    the accessors of [corw_sparse.c] on top of [ext4_xattr_get] and
    [ext4_xattr_set] ([xattr.c]).

    Where an accessor reads into an uninitialised local variable, the bytes the
    variable holds before are an argument. *)

From stdpp Require Import strings pretty.
From S2P Require Import Prelude Pages Friend Log GC PageCopy.

(** ** The store of an inode *)

Abbreviation xattrs := (gmap string (list Z)).

Definition ENODATA : Z := 61.
Definition ERANGE : Z := 34.

(** [ext4_xattr_get]: the return value, and the bytes copied to the buffer. *)
Definition ext4_xattr_get (m : xattrs) (name : string) (buffer_size : nat) : Z * list Z :=
  if (255 <? String.length name)%nat then (- ERANGE, [])
  else match m !! name with
       | None => (- ENODATA, [])
       | Some v => if (buffer_size <? length v)%nat then (- ERANGE, []) else (Z.of_nat (length v), v)
       end.

(** [ext4_xattr_set] of an attribute of the layer: a value, or none to remove it.
    [ok] says whether the attribute can be stored; the callers ignore it. *)
Definition ext4_xattr_set (ok : string -> bool) (m : xattrs) (name : string) (value : option (list Z)) : xattrs :=
  if ok name then match value with Some v => <[name := v]> m | None => delete name m end else m.

(** Reading into a local variable with contents [var]; a value longer than the
    variable, but not than the size passed, is written past its end. *)
Definition read_var (var : list Z) (size : nat) (m : xattrs) (name : string) : outcome (Z * list Z) :=
  let (r, v) := ext4_xattr_get m name size in
  if r <? 0 then Ok (r, var)
  else if (length var <? length v)%nat then Bug
  else Ok (r, v ++ drop (length v) var).

(** The common shape of the getters: the variable if anything was read, else
    0. *)
Definition get_val (var : list Z) (size : nat) (m : xattrs) (name : string) : outcome Z :=
  r ← read_var var size m name;
  Ok (if 0 <? r.1 then le_value r.2 else 0).

(** ** Names *)

Definition scorw_child : string := "c_".
Definition scorw_range_start : string := "r_start_".
Definition scorw_range_end : string := "r_end_".
Definition scorw_child_frnd : string := "SCORW_CHILD".
Definition scorw_parent : string := "SCORW_PARENT".
Definition scorw_friend : string := "SCORW_FRIEND".
Definition copy_size : string := "COPY_SIZE".
Definition blocks_to_copy : string := "BLOCKS_TO_COPY".
Definition num_ranges : string := "NUM_RANGES".
Definition version_attr : string := "v".
Definition curr_version_attr : string := "curr_version".
Definition par_org_attr : string := "PAR_ORGY".
Definition see_thru_ro : string := "SEE_THRU_RO".
Definition last_open_time : string := "LAST_OPEN_TIME".
Definition scorw_log : string := "SCORW_LOG".

(** [sprintf(name, "%s%d", prefix, i)]. *)
Definition numbered (prefix : string) (i : nat) : string := prefix +:+ pretty i.

Definition MAX_RANGES_SUPPORTED : nat := 4.

(** ** Getters *)

Definition scorw_get_parent_attr_val (g : list Z) (m : xattrs) : outcome Z := get_val g 8 m scorw_parent.
Definition scorw_get_friend_attr_val (g : list Z) (m : xattrs) : outcome Z := get_val g 8 m scorw_friend.
Definition scorw_get_log_attr_val (g : list Z) (m : xattrs) : outcome Z := get_val g 8 m scorw_log.
Definition scorw_get_copy_size_attr_val (g : list Z) (m : xattrs) : outcome Z := v ← get_val g 8 m copy_size; Ok (s64 v).
Definition scorw_get_blocks_to_copy_attr_val (g : list Z) (m : xattrs) : outcome Z := get_val g 4 m blocks_to_copy.
Definition scorw_get_curr_version_attr_val (g : list Z) (m : xattrs) : outcome Z := get_val g 8 m curr_version_attr.
Definition scorw_get_original_parent_size (g : list Z) (m : xattrs) : outcome Z := get_val g 8 m par_org_attr.
Definition scorw_get_child_version_attr_val (g : list Z) (m : xattrs) : outcome Z := get_val g 8 m version_attr.
Definition scorw_get_frnd_version_attr_val (g : list Z) (m : xattrs) : outcome Z := get_val g 8 m version_attr.
Definition scorw_get_num_ranges_attr_val (g : list Z) (m : xattrs) : outcome Z := v ← get_val g 4 m num_ranges; Ok (s32 v).
Definition scorw_get_last_open_time (g : list Z) (m : xattrs) : outcome Z := get_val g 4 m last_open_time.

(** An [int] read with the size of a [long]. *)
Definition scorw_get_see_thru_attr_val (g : list Z) (m : xattrs) : outcome Z := v ← get_val g 8 m see_thru_ro; Ok (s32 v).

Definition scorw_get_child_i_attr_val (g : list Z) (m : xattrs) (child_i : nat) : outcome Z :=
  if (Z.to_nat SCORW_MAX_CHILDS <=? child_i)%nat then Ok 0 else get_val g 8 m (numbered scorw_child child_i).

(** The variables of these two start as 0. *)
Definition scorw_get_range_i_start_attr_val (m : xattrs) (index : nat) : outcome Z :=
  if (MAX_RANGES_SUPPORTED <=? index)%nat then Ok 0 else get_val (le_bytes 4 0) 4 m (numbered scorw_range_start index).
Definition scorw_get_range_i_end_attr_val (m : xattrs) (index : nat) : outcome Z :=
  if (MAX_RANGES_SUPPORTED <=? index)%nat then Ok 0 else get_val (le_bytes 4 0) 4 m (numbered scorw_range_end index).

(** [struct child_range_xattr], ten bytes. *)
Record child_range_xattr := ChildRangeXattr { crx_start : Z; crx_end : Z; snap_behavior : Z }.
Definition encode_crx (x : child_range_xattr) : list Z :=
  le_bytes 4 (crx_start x) ++ le_bytes 4 (crx_end x) ++ le_bytes 2 (snap_behavior x).
Definition decode_crx (bs : list Z) : child_range_xattr :=
  ChildRangeXattr (le_value (take 4 bs)) (le_value (take 4 (drop 4 bs))) (le_value (take 2 (drop 8 bs))).

(** The return value and the structure read into. *)
Definition scorw_get_range_attr_val (g : list Z) (m : xattrs) (index : nat) : outcome (Z * child_range_xattr) :=
  if (MAX_RANGES_SUPPORTED <=? index)%nat then Ok (0, decode_crx g)
  else r ← read_var g 10 m (numbered scorw_range_start index); Ok (r.1, decode_crx r.2).

(** ** Setters *)

Definition scorw_set_curr_version_attr_val (ok : string -> bool) (m : xattrs) (val : Z) : xattrs :=
  ext4_xattr_set ok m curr_version_attr (Some (le_bytes 8 val)).
Definition scorw_set_frnd_version_attr_val (ok : string -> bool) (m : xattrs) (version_val : Z) : xattrs :=
  ext4_xattr_set ok m version_attr (Some (le_bytes 8 version_val)).
Definition scorw_set_child_version_attr_val (ok : string -> bool) (m : xattrs) (version_val : Z) : xattrs :=
  ext4_xattr_set ok m version_attr (Some (le_bytes 8 version_val)).
Definition scorw_set_blocks_to_copy_attr_val (ok : string -> bool) (m : xattrs) (blocks_count : Z) : xattrs :=
  ext4_xattr_set ok m blocks_to_copy (Some (le_bytes 4 blocks_count)).
Definition scorw_set_last_open_time (ok : string -> bool) (now : Z) (m : xattrs) : xattrs :=
  ext4_xattr_set ok m last_open_time (Some (le_bytes 4 (u32 now))).
Definition scorw_remove_child_i_attr (ok : string -> bool) (m : xattrs) (child_i : nat) : xattrs :=
  ext4_xattr_set ok m (numbered scorw_child child_i) None.

(** The store of the version in [scorw_put_inode]: the four bytes of the [int]. *)
Definition put_curr_version (ok : string -> bool) (m : xattrs) (ver : Z) : xattrs :=
  ext4_xattr_set ok m curr_version_attr (Some (le_bytes 4 (u32 ver))).

(** ** Lemmas *)

Lemma le_value_app a b : le_value (a ++ b) = le_value a + 256 ^ Z.of_nat (length a) * le_value b.
Proof.
  induction a as [|x a IH]; [cbn [app le_value length]; lia|]. cbn [app le_value length]. rewrite IH, Nat2Z.inj_succ, Z.pow_succ_r by lia. lia.
Qed.

Lemma pow256_8 : 256 ^ Z.of_nat 8 = 2 ^ 64.
Proof. done. Qed.
Lemma pow256_4 : 256 ^ Z.of_nat 4 = 2 ^ 32.
Proof. done. Qed.

(** Reading an attribute that is stored and fits. *)
Lemma read_stored g size (m : xattrs) name bs :
  m !! name = Some bs -> (String.length name <= 255)%nat -> (length bs <= size)%nat -> (length bs <= length g)%nat ->
  read_var g size m name = Ok (Z.of_nat (length bs), bs ++ drop (length bs) g).
Proof.
  intros Hm Hn Hs Hl. unfold read_var, ext4_xattr_get. rewrite Hm.
  rewrite (proj2 (Nat.ltb_ge 255 _)), (proj2 (Nat.ltb_ge size _)) by lia.
  by rewrite (proj2 (Z.ltb_ge _ 0)), (proj2 (Nat.ltb_ge (length g) _)) by lia.
Qed.

Lemma get_stored g size (m : xattrs) name bs :
  m !! name = Some bs -> (String.length name <= 255)%nat -> (length bs <= size)%nat -> (0 < length bs <= length g)%nat ->
  get_val g size m name = Ok (le_value (bs ++ drop (length bs) g)).
Proof.
  intros Hm Hn Hs Hl. unfold get_val. rewrite (read_stored _ _ _ _ bs) by (auto; lia). cbn [mbind outcome_bind fst snd].
  by rewrite (proj2 (Z.ltb_lt 0 _)) by lia.
Qed.

(** A value that fills the variable reads back whatever was in it. *)
Lemma get_stored_full g n size (m : xattrs) name v :
  m !! name = Some (le_bytes n v) -> (String.length name <= 255)%nat -> (0 < n <= size)%nat -> length g = n -> 0 <= v < 256 ^ Z.of_nat n ->
  get_val g size m name = Ok v.
Proof.
  intros Hm Hn Hp Hg Hv. rewrite (get_stored _ _ _ _ _ Hm) by (rewrite ?length_le_bytes; auto; lia).
  rewrite length_le_bytes, drop_ge, app_nil_r, le_value_bytes by (auto; lia). done.
Qed.

Lemma set_stored ok (m : xattrs) name bs : ok name = true -> ext4_xattr_set ok m name (Some bs) !! name = Some bs.
Proof. intros Hok. unfold ext4_xattr_set. by rewrite Hok, lookup_insert_eq. Qed.

Lemma get_set_full ok m g n name v :
  ok name = true -> (String.length name <= 255)%nat -> (0 < n)%nat -> length g = n -> 0 <= v < 256 ^ Z.of_nat n ->
  get_val g n (ext4_xattr_set ok m name (Some (le_bytes n v))) name = Ok v.
Proof. intros Hok Hn Hp Hg Hv. apply (get_stored_full _ n); auto; try lia. by apply set_stored. Qed.

Lemma xattr_get_other ok m name name' value size :
  name' <> name -> ext4_xattr_get (ext4_xattr_set ok m name value) name' size = ext4_xattr_get m name' size.
Proof.
  intros Hne. unfold ext4_xattr_get, ext4_xattr_set. destruct (ok name); [|done]. destruct value; [by rewrite lookup_insert_ne|by rewrite lookup_delete_ne].
Qed.

Lemma get_set_other ok m g size name name' value :
  name' <> name -> get_val g size (ext4_xattr_set ok m name value) name' = get_val g size m name'.
Proof. intros Hne. unfold get_val, read_var. by rewrite xattr_get_other. Qed.

Lemma read_set_other ok m g size name name' value :
  name' <> name -> read_var g size (ext4_xattr_set ok m name value) name' = read_var g size m name'.
Proof. intros Hne. unfold read_var. by rewrite xattr_get_other. Qed.

Lemma numbered_inj prefix i j : numbered prefix i = numbered prefix j -> i = j.
Proof. unfold numbered. intros H%(inj (String.append prefix)). by apply (inj pretty). Qed.

Lemma numbered_ne prefix i j : i <> j -> numbered prefix i <> numbered prefix j.
Proof. intros Hne H. by apply Hne, (numbered_inj prefix). Qed.

(** The names that occur fit the buffers they are built in. *)
Lemma numbered_length prefix i :
  prefix = scorw_child \/ prefix = scorw_range_start -> (i < Z.to_nat SCORW_MAX_CHILDS)%nat ->
  (String.length (numbered prefix i) <= 10)%nat.
Proof.
  intros Hp Hi. assert (forallb (fun k => (String.length (numbered scorw_child k) <=? 10) && (String.length (numbered scorw_range_start k) <=? 10))%nat
    (seq 0 (Z.to_nat SCORW_MAX_CHILDS)) = true) as Hall by (vm_compute; reflexivity).
  rewrite forallb_forall in Hall. specialize (Hall i). rewrite andb_true_iff, !Nat.leb_le in Hall.
  destruct Hall as [? ?]; [apply list_elem_of_In, elem_of_seq; lia|]. by destruct Hp as [-> | ->].
Qed.

(** ** Properties *)

(** C37: What a setter of the layer stores its getter returns, whatever the
    uninitialised variable of the getter holds; the version that closing a file
    stores in four bytes reads back as the same [int] though the getter reads
    eight; a removed slot reads as 0. *)
Theorem attr_roundtrip (ok : string -> bool) (m : xattrs) (g8 g4 : list Z) :
  (forall name, ok name = true) -> length g8 = 8%nat -> length g4 = 4%nat ->
  (forall v, 0 <= v < 2 ^ 64 ->
     scorw_get_curr_version_attr_val g8 (scorw_set_curr_version_attr_val ok m v) = Ok v /\
     scorw_get_frnd_version_attr_val g8 (scorw_set_frnd_version_attr_val ok m v) = Ok v /\
     scorw_get_child_version_attr_val g8 (scorw_set_child_version_attr_val ok m v) = Ok v) /\
  (forall v, 0 <= v < 2 ^ 32 -> scorw_get_blocks_to_copy_attr_val g4 (scorw_set_blocks_to_copy_attr_val ok m v) = Ok v) /\
  (forall now, scorw_get_last_open_time g4 (scorw_set_last_open_time ok now m) = Ok (u32 now)) /\
  (forall v, - 2 ^ 31 <= v < 2 ^ 31 -> exists x, scorw_get_curr_version_attr_val g8 (put_curr_version ok m v) = Ok x /\ s32 x = v) /\
  (forall i, scorw_get_child_i_attr_val g8 (scorw_remove_child_i_attr ok m i) i = Ok 0).
Proof.
  intros Hok H8 H4. pose proof pow256_8 as E8. pose proof pow256_4 as E4. split_and!.
  - intros v Hv. split_and!; apply get_set_full; auto; rewrite ?E8; try done; cbn; lia.
  - intros v Hv. apply get_set_full; auto; rewrite ?E4; try done; cbn; lia.
  - intros now. apply get_set_full; auto; rewrite ?E4; try (cbn; lia). apply wrap_bound. lia.
  - intros v Hv. eexists. split.
    + apply get_stored; [apply set_stored; auto|..]; rewrite ?length_le_bytes; cbn; lia.
    + rewrite length_le_bytes, le_value_app, length_le_bytes, le_value_bytes by (rewrite E4; apply wrap_bound; lia).
      rewrite E4. generalize (le_value (drop 4 g8)). intros y. change (2 ^ 31) with 2147483648 in Hv. wrap_lia.
  - intros i. unfold scorw_get_child_i_attr_val, scorw_remove_child_i_attr. destruct (_ <=? i)%nat; [done|].
    unfold get_val, read_var, ext4_xattr_get, ext4_xattr_set. rewrite Hok. cbv iota. rewrite lookup_delete_eq. by destruct (255 <? _)%nat.
Qed.

(** ** Witnesses *)

Lemma attr_roundtrip_witness :
  scorw_get_curr_version_attr_val (le_bytes 8 (2 ^ 63 + 5)) (scorw_set_curr_version_attr_val (fun _ => true) ∅ 7) = Ok 7 /\
  exists x, scorw_get_curr_version_attr_val (le_bytes 8 (2 ^ 63 + 5)) (put_curr_version (fun _ => true) ∅ 7) = Ok x /\ s32 x = 7.
Proof.
  destruct (attr_roundtrip (fun _ => true) ∅ (le_bytes 8 (2 ^ 63 + 5)) (le_bytes 4 0)) as (H1 & _ & _ & H2 & _); [reflexivity..|].
  split; [apply H1; lia|apply H2; lia].
Defined.
