(* ===== verification/Clone.v ===== *)
(** Making a child: setting the parent attribute of a file ([ext4_xattr_set] of
    [xattr.c], the branch of the layer), which finds a free slot of the parent
    and writes the attributes of the parent, the child and the friend file; and
    what the functions that open the files read of them. *)

From stdpp Require Import strings pretty sorting.
From S2P Require Import Prelude Pages Friend Log Versions Txn GC Recovery PageCopy Xattr.

(** ** State *)

(** The attributes of the inodes, their sizes, and the friend files. *)
Record cfs := Cfs { cf_x : gmap Z xattrs; cf_size : Z -> Z; cf_frnd : Z -> mapping }.

Definition x_of (st : cfs) (i : Z) : xattrs := default ∅ (cf_x st !! i).

(** [struct helper_inodes]: what the user passes as the value. *)
Record helper_inodes := HelperInodes {
  p_inode_num : Z;
  f_inode_num : Z;
  l_inode_num : Z;
  h_num_ranges : Z;
  h_range : list child_range
}.

Definition SCORW_ERR_MAX_CHILDS_ALREADY_SET : Z := -8000.
Definition SCORW_PARENT_ERROR : Z := -8004.

(** ** Operations *)

(** The loop over the slots of the parent; [num] is [scorw_child_inode_num], of
    four bytes, [n] the slots left. *)
Fixpoint find_slot (m : xattrs) (num : Z) (i n : nat) : option nat :=
  match n with
  | O => None
  | S n =>
      let (r, v) := ext4_xattr_get m (numbered scorw_child i) 8 in
      let num' := if r <? 0 then num else u32 (le_value (v ++ drop (length v) (le_bytes 4 num))) in
      if (r <? 0) || (num' =? 0) then Some i else find_slot m num' (S i) n
  end.

(** A write of an attribute: the inode, the name and the bytes. *)
Definition xwrite : Type := Z * string * list Z.
Definition apply_write (ok : string -> bool) (x : gmap Z xattrs) (w : xwrite) : gmap Z xattrs :=
  let '(i, name, v) := w in <[i := ext4_xattr_set ok (default ∅ (x !! i)) name (Some v)]> x.
Definition apply_writes (ok : string -> bool) (x : gmap Z xattrs) (l : list xwrite) : gmap Z xattrs :=
  foldl (apply_write ok) x l.

(** The original size of the parent, rounded up to blocks. *)
Definition parent_original_size (size : Z) : Z :=
  if negb (size mod 4096 =? 0) then size + (4096 - size mod 4096) else size.

Definition crx_of (r : child_range) : child_range_xattr :=
  ChildRangeXattr (u32 (cr_start r)) (u32 (cr_end r)) (WriteCh_val (snapx_behavior r)).

Definition is_see_thru (l : list child_range) : Z :=
  if existsb (fun r => bool_decide (snapx_behavior r = SNAPX_FLAG_SEE_TH_RO)) l then 1 else 0.

(** The attribute of range [j], if the value the user passed has it. *)
Definition range_write (c : Z) (h : helper_inodes) (j : nat) : outcome xwrite :=
  match h_range h !! j with
  | Some r => Ok (c, numbered scorw_range_start j, encode_crx (crx_of r))
  | None => Bug
  end.
Fixpoint range_writes (c : Z) (h : helper_inodes) (js : list nat) : outcome (list xwrite) :=
  match js with
  | [] => Ok []
  | j :: js => w ← range_write c h j; l ← range_writes c h js; Ok (w :: l)
  end.

(** The attributes in the order they are written, but for the parent attribute
    itself; [size] is the size of the parent. *)
Definition clone_writes (c : Z) (h : helper_inodes) (slot : nat) (size : Z) (ranges : list xwrite) : list xwrite :=
  let p := p_inode_num h in
  let f := f_inode_num h in
  [(p, numbered scorw_child slot, le_bytes 8 c);
   (c, copy_size, le_bytes 8 size);
   (c, blocks_to_copy, le_bytes 4 (u32 (Z.shiftr (size - 1) PAGE_SHIFT + 1)));
   (c, scorw_friend, le_bytes 8 f);
   (f, scorw_child_frnd, le_bytes 8 c);
   (c, version_attr, le_bytes 8 1);
   (f, version_attr, le_bytes 8 1);
   (p, scorw_log, le_bytes 8 (l_inode_num h));
   (c, curr_version_attr, le_bytes 8 1);
   (p, curr_version_attr, le_bytes 8 1);
   (p, par_org_attr, le_bytes 8 (parent_original_size size));
   (c, num_ranges, le_bytes 4 (u32 (h_num_ranges h)))] ++ ranges ++
  [(c, see_thru_ro, le_bytes 4 (is_see_thru (take (Z.to_nat (h_num_ranges h)) (h_range h))));
   (p, see_thru_ro, le_bytes 4 (is_see_thru (take (Z.to_nat (h_num_ranges h)) (h_range h))))].

(** Setting the parent attribute of child [c]: the return value, the state, and
    the slot [special_open] is called with, if it is.  [error] is what storing
    the parent attribute itself returns. *)
Definition scorw_set_parent (ok : string -> bool) (error : Z) (st : cfs) (c : Z) (h : helper_inodes)
    : outcome (Z * cfs * option nat) :=
  let p := p_inode_num h in
  let f := f_inode_num h in
  let size := cf_size st p in
  if size =? 0 then Ok (SCORW_PARENT_ERROR, st, None)
  else
    match find_slot (x_of st p) 0 0 (Z.to_nat SCORW_MAX_CHILDS) with
    | None => Ok (SCORW_ERR_MAX_CHILDS_ALREADY_SET, st, None)
    | Some slot =>
        ranges ← range_writes c h (seq 0 (Z.to_nat (h_num_ranges h)));
        let x := apply_writes ok (cf_x st) (clone_writes c h slot size ranges) in
        let sizes := fun i => if decide (i = c) then size else cf_size st i in
        if negb (error =? 0) then Ok (error, Cfs x sizes (cf_frnd st), None)
        else
          let x' := apply_write (fun _ => true) x (c, scorw_parent, le_bytes 8 p) in
          let frnd := fun i => if decide (i = f) then scorw_init_friend_file io_ok (cf_frnd st f) size else cf_frnd st i in
          Ok (0, Cfs x' sizes frnd, Some slot)
    end.

(** ** Lemmas: what a list of writes leaves *)

Lemma apply_write_eq ok x i name v :
  apply_write ok x (i, name, v) = <[i := ext4_xattr_set ok (default ∅ (x !! i)) name (Some v)]> x.
Proof. done. Qed.

Lemma apply_writes_out ok x l i name :
  (i, name) ∉ l.*1 -> default ∅ (apply_writes ok x l !! i) !! name = default ∅ (x !! i) !! name.
Proof.
  revert x. induction l as [|[[j n] v] l IH]; intros x Hin; [done|]. cbn in Hin. apply not_elem_of_cons in Hin as [Hne Hin].
  cbn [apply_writes foldl]. fold (apply_writes ok (apply_write ok x (j, n, v)) l). rewrite IH, apply_write_eq by done.
  destruct (decide (i = j)) as [->|Hij]; [|by rewrite lookup_insert_ne]. rewrite lookup_insert_eq. cbn [default from_option id].
  unfold ext4_xattr_set. destruct (ok n); [|done]. rewrite lookup_insert_ne; [done|congruence].
Qed.

Lemma apply_writes_in ok x l i name v :
  (forall n, ok n = true) -> NoDup l.*1 -> (i, name, v) ∈ l -> default ∅ (apply_writes ok x l !! i) !! name = Some v.
Proof.
  intros Hok. revert x. induction l as [|[[j n] u] l IH]; intros x Hnd Hin; [by apply elem_of_nil in Hin|].
  cbn in Hnd. apply NoDup_cons in Hnd as [Hout Hnd]. cbn [apply_writes foldl]. fold (apply_writes ok (apply_write ok x (j, n, u)) l).
  apply elem_of_cons in Hin as [[= -> -> ->]|Hin]; [|by apply IH].
  rewrite apply_writes_out by done. rewrite apply_write_eq, lookup_insert_eq. cbn [default from_option id]. by apply set_stored.
Qed.

(** ** Lemmas: the slots of the parent *)

(** What the attribute of a slot holds: nothing, or the number of an inode. *)
Definition slots_ok (m : xattrs) : Prop :=
  forall j, m !! numbered scorw_child j = None \/ exists v, 0 <= v < 2 ^ 32 /\ m !! numbered scorw_child j = Some (le_bytes 8 v).

(** The child a slot holds, 0 for none. *)
Definition slot_child (m : xattrs) (j : nat) : Z :=
  match m !! numbered scorw_child j with Some v => le_value v | None => 0 end.

Lemma slot_read m g j :
  slots_ok m -> (j < Z.to_nat SCORW_MAX_CHILDS)%nat -> length g = 8%nat -> scorw_get_child_i_attr_val g m j = Ok (slot_child m j).
Proof.
  intros Hok Hj Hg. unfold scorw_get_child_i_attr_val, slot_child. rewrite (proj2 (Nat.leb_gt _ _)) by lia.
  pose proof (numbered_length scorw_child j (or_introl eq_refl) Hj) as Hlen. destruct (Hok j) as [Hn|(v & Hv & Hs)].
  - rewrite Hn. unfold get_val, read_var, ext4_xattr_get. rewrite Hn. by rewrite (proj2 (Nat.ltb_ge 255 _)) by lia.
  - rewrite Hs, (le_value_bytes 8) by (rewrite pow256_8; lia). apply (get_stored_full _ 8); auto; rewrite ?pow256_8; lia.
Qed.

Lemma le_bytes_app n k v : le_bytes (n + k) v = le_bytes n v ++ le_bytes k (v / 256 ^ Z.of_nat n).
Proof.
  revert v. induction n as [|n IH]; intros v; [cbn [Nat.add app]; change (256 ^ Z.of_nat 0) with 1; by rewrite Z.div_1_r|].
  cbn [Nat.add]. rewrite !le_bytes_S, IH. cbn [app]. rewrite Nat2Z.inj_succ, Z.pow_succ_r, Zdiv_Zdiv by lia. done.
Qed.

(** The loop finds the first free slot. *)
Lemma find_slot_spec m n i num :
  slots_ok m -> (i + n <= Z.to_nat SCORW_MAX_CHILDS)%nat ->
  match find_slot m num i n with
  | Some k => (i <= k < i + n)%nat /\ slot_child m k = 0 /\ forall j, (i <= j < k)%nat -> slot_child m j <> 0
  | None => forall j, (i <= j < i + n)%nat -> slot_child m j <> 0
  end.
Proof.
  intros Hok. revert i num. induction n as [|n IH]; intros i num Hle; [cbn; lia|]. cbn [find_slot].
  pose proof (numbered_length scorw_child i (or_introl eq_refl) ltac:(lia)) as Hlen.
  unfold ext4_xattr_get. rewrite (proj2 (Nat.ltb_ge 255 _)) by lia. destruct (Hok i) as [Hn|(v & Hv & Hs)].
  - rewrite Hn. cbn. split_and!; try lia. unfold slot_child. by rewrite Hn.
  - rewrite Hs, length_le_bytes. change (8 <? 8)%nat with false. cbv iota. change (Z.of_nat 8 <? 0) with false.
    rewrite drop_ge, app_nil_r, le_value_bytes by (rewrite ?length_le_bytes; rewrite ?pow256_8; lia).
    rewrite (wrap_small 32) by lia. cbn [orb].
    assert (slot_child m i = v) as Hsv by (unfold slot_child; rewrite Hs; apply le_value_bytes; rewrite ?pow256_8; lia).
    destruct (Z.eqb_spec v 0) as [->|Hne]; [split_and!; try lia; done|].
    specialize (IH (S i) v ltac:(lia)). destruct (find_slot m v (S i) n) as [k|].
    + destruct IH as (? & ? & IH). split_and!; try lia. intros j Hj. destruct (decide (j = i)) as [->|]; [lia|apply IH; lia].
    + intros j Hj. destruct (decide (j = i)) as [->|]; [lia|apply IH; lia].
Qed.

(** ** Lemmas: the attributes of a new child *)

(** What a clone writes, in order. *)
Definition all_writes (c : Z) (h : helper_inodes) (slot : nat) (size : Z) (ranges : list xwrite) : list xwrite :=
  clone_writes c h slot size ranges ++ [(c, scorw_parent, le_bytes 8 (p_inode_num h))].

Definition range_key (c : Z) (j : nat) : Z * string := (c, numbered scorw_range_start j).

Lemma range_writes_ok c h js :
  (forall j, j ∈ js -> is_Some (h_range h !! j)) ->
  exists l, range_writes c h js = Ok l /\ l.*1 = range_key c <$> js /\
    forall j r, j ∈ js -> h_range h !! j = Some r -> (range_key c j, encode_crx (crx_of r)) ∈ l.
Proof.
  induction js as [|j js IH]; intros Hr; [exists []; split_and!; [done..|intros ? ? Hin; by apply elem_of_nil in Hin]|].
  destruct IH as (l & E & Hk & Hl); [intros; apply Hr; by right|]. destruct (Hr j ltac:(by left)) as [r Er].
  cbn [range_writes]. unfold range_write. rewrite Er, E. cbn [mbind outcome_bind]. eexists. split; [done|]. split; [cbn; by rewrite Hk|].
  intros j' r' Hin Hr'. apply elem_of_cons in Hin as [-> |Hin]; [|right; auto]. rewrite Er in Hr'. injection Hr' as <-. left.
Qed.

Ltac key_ne := let H := fresh in intros H; repeat first [rewrite elem_of_cons in H|rewrite elem_of_app in H|rewrite list_elem_of_fmap in H]; destruct_or?; destruct_and?;
  repeat match goal with
  | K : exists _, _ |- _ => destruct K
  | K : _ /\ _ |- _ => destruct K
  | K : _ ∈ [] |- _ => by apply elem_of_nil in K
  | K : (_, _) = (_, _) |- _ => injection K; clear K; intros; first [discriminate|congruence]
  | K : (_, _) = range_key _ _ |- _ => unfold range_key in K
  | K : range_key _ _ = (_, _) |- _ => unfold range_key in K
  end.

Lemma clone_keys_nodup c h slot size ranges js :
  p_inode_num h <> c -> p_inode_num h <> f_inode_num h -> c <> f_inode_num h ->
  NoDup js -> ranges.*1 = range_key c <$> js -> NoDup (all_writes c h slot size ranges).*1.
Proof.
  intros Hpc Hpf Hcf Hjs Hk. unfold all_writes, clone_writes. rewrite !fmap_app, Hk.
  cbn [fmap list_fmap fst app]. rewrite <- app_assoc.
  repeat (apply NoDup_cons; split; [key_ne|]).
  apply NoDup_app. split_and!.
  - apply NoDup_fmap_2; [|done]. intros i j [= E]. by apply (inj (String.append _)), (inj pretty) in E.
  - intros k Hin. apply list_elem_of_fmap in Hin as (j & -> & Hj). unfold range_key. key_ne.
  - repeat (apply NoDup_cons; split; [key_ne|]). constructor.
Qed.

(** What the writes leave alone. *)
Lemma other_slot_untouched c h slot size ranges js j :
  p_inode_num h <> c -> p_inode_num h <> f_inode_num h -> j <> slot -> ranges.*1 = range_key c <$> js ->
  (p_inode_num h, numbered scorw_child j) ∉ (all_writes c h slot size ranges).*1.
Proof.
  intros Hpc Hpf Hj Hk. unfold all_writes, clone_writes. rewrite !fmap_app, Hk. cbn [fmap list_fmap fst app].
  apply not_elem_of_cons. split; [intros [= E]; by apply (inj (String.append _)), (inj pretty) in E|key_ne].
Qed.

Lemma other_inode_untouched c h slot size ranges js i name :
  i <> p_inode_num h -> i <> c -> i <> f_inode_num h -> ranges.*1 = range_key c <$> js ->
  (i, name) ∉ (all_writes c h slot size ranges).*1.
Proof.
  intros Hp Hc Hf Hk. unfold all_writes, clone_writes. rewrite !fmap_app, Hk. cbn [fmap list_fmap fst app]. key_ne.
Qed.

Lemma crx_roundtrip r : decode_crx (encode_crx (crx_of r)) = crx_of r.
Proof.
  destruct r as [s e b]. unfold crx_of, encode_crx. cbn [cr_start cr_end snapx_behavior crx_start crx_end snap_behavior].
  transitivity (ChildRangeXattr (le_value (le_bytes 4 (u32 s))) (le_value (le_bytes 4 (u32 e))) (le_value (le_bytes 2 (WriteCh_val b)))); [done|].
  rewrite !(le_value_bytes 4) by (rewrite pow256_4; apply wrap_bound; lia). rewrite le_value_bytes; [done|]. destruct b; done.
Qed.

Lemma set_parent_eq ok st c h k ranges :
  (forall n, ok n = true) -> cf_size st (p_inode_num h) <> 0 ->
  find_slot (x_of st (p_inode_num h)) 0 0 (Z.to_nat SCORW_MAX_CHILDS) = Some k ->
  range_writes c h (seq 0 (Z.to_nat (h_num_ranges h))) = Ok ranges ->
  let size := cf_size st (p_inode_num h) in
  scorw_set_parent ok 0 st c h =
    Ok (0, Cfs (apply_writes ok (cf_x st) (all_writes c h k size ranges)) (fun i => if decide (i = c) then size else cf_size st i)
             (fun i => if decide (i = f_inode_num h) then scorw_init_friend_file io_ok (cf_frnd st (f_inode_num h)) size else cf_frnd st i), Some k).
Proof.
  intros Hok Hsz Hk Hr size. unfold scorw_set_parent. fold size. rewrite (proj2 (Z.eqb_neq _ _)), Hk, Hr by done. cbn [mbind outcome_bind].
  change (negb (0 =? 0)) with false. cbv iota. do 4 f_equal. unfold all_writes, apply_writes. rewrite foldl_app. cbn [foldl].
  rewrite !apply_write_eq. unfold ext4_xattr_set. by rewrite Hok.
Qed.

(** A request to make [c] a child that can succeed: three different files, a
    parent with contents and a free slot, an empty friend file, and at most as
    many ranges as are passed. *)
Definition clone_request (st : cfs) (c : Z) (h : helper_inodes) : Prop :=
  p_inode_num h <> c /\ p_inode_num h <> f_inode_num h /\ c <> f_inode_num h /\
  Forall (fun i => 0 <= i < 2 ^ 32) [p_inode_num h; f_inode_num h; l_inode_num h; c] /\
  0 <= h_num_ranges h <= Z.of_nat (length (h_range h)) /\ (length (h_range h) <= MAX_RANGES_SUPPORTED)%nat /\
  0 < cf_size st (p_inode_num h) <= 2 ^ 43 /\
  slots_ok (x_of st (p_inode_num h)) /\ (exists j, (j < Z.to_nat SCORW_MAX_CHILDS)%nat /\ slot_child (x_of st (p_inode_num h)) j = 0) /\
  friend_wf (cf_frnd st (f_inode_num h)) /\ i_size (cf_frnd st (f_inode_num h)) = 0.

(** The result of such a request: the slot, and the writes. *)
Lemma clone_succeeds st c h :
  clone_request st c h ->
  exists k ranges, (k < Z.to_nat SCORW_MAX_CHILDS)%nat /\ slot_child (x_of st (p_inode_num h)) k = 0 /\
    (forall j, (j < k)%nat -> slot_child (x_of st (p_inode_num h)) j <> 0) /\
    find_slot (x_of st (p_inode_num h)) 0 0 (Z.to_nat SCORW_MAX_CHILDS) = Some k /\
    range_writes c h (seq 0 (Z.to_nat (h_num_ranges h))) = Ok ranges /\
    NoDup (all_writes c h k (cf_size st (p_inode_num h)) ranges).*1 /\
    ranges.*1 = range_key c <$> seq 0 (Z.to_nat (h_num_ranges h)) /\
    forall j r, (j < Z.to_nat (h_num_ranges h))%nat -> h_range h !! j = Some r -> (range_key c j, encode_crx (crx_of r)) ∈ ranges.
Proof.
  intros (Hpc & Hpf & Hcf & _ & Hn & Hm & Hsz & Hslots & (j & Hj & Hfree) & _).
  pose proof (find_slot_spec _ (Z.to_nat SCORW_MAX_CHILDS) 0 0 Hslots ltac:(lia)) as Hf.
  destruct (find_slot _ 0 0 _) as [k|]; [|exfalso; apply (Hf j); [lia|done]]. destruct Hf as (Hk & Hk0 & Hkj).
  destruct (range_writes_ok c h (seq 0 (Z.to_nat (h_num_ranges h)))) as (l & Hl & Hkeys & Hin).
  { intros i Hi. apply lookup_lt_is_Some. apply elem_of_seq in Hi. lia. }
  exists k, l. split_and!; auto; try lia.
  - intros i Hi. apply Hkj. lia.
  - apply (clone_keys_nodup c h k _ l (seq 0 (Z.to_nat (h_num_ranges h)))); auto. apply NoDup_seq.
  - intros i r Hi. apply Hin, elem_of_seq. lia.
Qed.

(** What a read of the attributes finds: the parts of a family as the functions
    that open the files see them.  [g8], [g4], [g10] are the contents of the
    variables read into. *)
Definition parent_reads (g8 g4 : list Z) (m : xattrs) (k : nat) (c : Z) (h : helper_inodes) (size : Z) : Prop :=
  scorw_get_child_i_attr_val g8 m k = Ok c /\
  scorw_get_log_attr_val g8 m = Ok (l_inode_num h) /\
  scorw_get_curr_version_attr_val g8 m = Ok 1 /\
  scorw_get_original_parent_size g8 m = Ok (parent_original_size size) /\
  scorw_get_see_thru_attr_val g4 m = Ok (is_see_thru (take (Z.to_nat (h_num_ranges h)) (h_range h))).

Definition child_reads (g8 g4 g10 : list Z) (m : xattrs) (h : helper_inodes) (size : Z) : Prop :=
  scorw_get_parent_attr_val g8 m = Ok (p_inode_num h) /\
  scorw_get_friend_attr_val g8 m = Ok (f_inode_num h) /\
  scorw_get_copy_size_attr_val g8 m = Ok size /\
  scorw_get_blocks_to_copy_attr_val g4 m = Ok ((size + PAGE_SIZE - 1) / PAGE_SIZE) /\
  scorw_get_child_version_attr_val g8 m = Ok 1 /\
  scorw_get_curr_version_attr_val g8 m = Ok 1 /\
  scorw_get_num_ranges_attr_val g4 m = Ok (h_num_ranges h) /\
  scorw_get_see_thru_attr_val g4 m = Ok (is_see_thru (take (Z.to_nat (h_num_ranges h)) (h_range h))) /\
  forall j r, (j < Z.to_nat (h_num_ranges h))%nat -> h_range h !! j = Some r -> scorw_get_range_attr_val g10 m j = Ok (10, crx_of r).

Lemma is_see_thru_bound l : 0 <= is_see_thru l <= 1.
Proof. unfold is_see_thru. destruct (existsb _ l); lia. Qed.

Lemma parent_original_size_spec size : 0 < size -> size <= parent_original_size size < size + 4096 /\ parent_original_size size mod 4096 = 0.
Proof. intros H. unfold parent_original_size. destruct (Z.eqb_spec (size mod 4096) 0); cbn [negb]; Z.to_euclidean_division_equations; lia. Qed.

Lemma blocks_count_eq size : 0 < size <= 2 ^ 43 ->
  u32 (Z.shiftr (size - 1) PAGE_SHIFT + 1) = (size + PAGE_SIZE - 1) / PAGE_SIZE /\ 0 <= (size + PAGE_SIZE - 1) / PAGE_SIZE < 2 ^ 32.
Proof.
  intros H. rewrite Z.shiftr_div_pow2 by done. unfold PAGE_SHIFT, PAGE_SIZE. change (2 ^ 12) with 4096.
  assert ((size - 1) / 4096 + 1 = (size + 4096 - 1) / 4096 /\ 0 <= (size + 4096 - 1) / 4096 < 2 ^ 32) as [E B]
    by (change (2 ^ 43) with 8796093022208 in H; change (2 ^ 32) with 4294967296; Z.to_euclidean_division_equations; lia).
  rewrite E. split; [apply wrap_small; done|done].
Qed.

Ltac one_of := first [reflexivity|left; one_of|right; one_of].
Ltac in_writes := unfold all_writes, clone_writes; rewrite !elem_of_app, !elem_of_cons; one_of.

Section Reads.
Context (x : gmap Z xattrs) (c : Z) (h : helper_inodes) (k : nat) (size : Z) (ranges : list xwrite) (g8 g4 g10 : list Z).
Context (H8 : length g8 = 8%nat) (H4 : length g4 = 4%nat) (H10 : length g10 = 10%nat).
Context (Hinodes : Forall (fun i => 0 <= i < 2 ^ 32) [p_inode_num h; f_inode_num h; l_inode_num h; c]).
Context (Hsize : 0 < size <= 2 ^ 43) (Hk : (k < Z.to_nat SCORW_MAX_CHILDS)%nat).
Context (Hnr : 0 <= h_num_ranges h <= Z.of_nat (length (h_range h))) (Hmax : (length (h_range h) <= MAX_RANGES_SUPPORTED)%nat).
Context (Hin : forall j r, (j < Z.to_nat (h_num_ranges h))%nat -> h_range h !! j = Some r -> (range_key c j, encode_crx (crx_of r)) ∈ ranges).
Context (Hst : forall i name v, (i, name, v) ∈ all_writes c h k size ranges -> default ∅ (x !! i) !! name = Some v).

Lemma read8 i name v : (i, name, le_bytes 8 v) ∈ all_writes c h k size ranges -> (String.length name <= 255)%nat -> 0 <= v < 2 ^ 64 ->
  get_val g8 8 (default ∅ (x !! i)) name = Ok v.
Proof. intros Hw Hn Hv. apply (get_stored_full _ 8); auto; rewrite ?pow256_8; lia. Qed.

Lemma read4 i name size' v : (4 <= size')%nat -> (i, name, le_bytes 4 v) ∈ all_writes c h k size ranges -> (String.length name <= 255)%nat -> 0 <= v < 2 ^ 32 ->
  get_val g4 size' (default ∅ (x !! i)) name = Ok v.
Proof. intros Hs Hw Hn Hv. apply (get_stored_full _ 4); auto; rewrite ?pow256_4; lia. Qed.

Lemma child_reads_ok : child_reads g8 g4 g10 (default ∅ (x !! c)) h size.
Proof.
  destruct (blocks_count_eq size Hsize) as [Eb Bb]. pose proof (is_see_thru_bound (take (Z.to_nat (h_num_ranges h)) (h_range h))) as Bs.
  rewrite !Forall_cons in Hinodes. destruct Hinodes as (Bp & Bf & Bl & Bc & _). change (2 ^ 43) with 8796093022208 in Hsize.
  unfold MAX_RANGES_SUPPORTED in Hmax. unfold child_reads. split_and!.
  1-2: apply read8; [in_writes|cbn; lia..].
  - unfold scorw_get_copy_size_attr_val. rewrite (read8 _ _ size); [|in_writes|cbn; lia|lia]. cbn [mbind outcome_bind]. f_equal. wrap_lia.
  - rewrite <- Eb in *. apply read4; [lia|in_writes|cbn; lia|lia].
  - apply read8; [in_writes|cbn; lia..].
  - apply read8; [in_writes|cbn; lia..].
  - unfold scorw_get_num_ranges_attr_val. rewrite (read4 _ _ _ (u32 (h_num_ranges h))); [|lia|in_writes|cbn; lia|apply wrap_bound; lia].
    cbn [mbind outcome_bind]. f_equal. wrap_lia.
  - unfold scorw_get_see_thru_attr_val. rewrite (read4 _ _ _ (is_see_thru (take (Z.to_nat (h_num_ranges h)) (h_range h)))); [|lia|in_writes|cbn; lia|lia]. cbn [mbind outcome_bind]. f_equal. wrap_lia.
  - intros j r Hj Hr. unfold scorw_get_range_attr_val. rewrite (proj2 (Nat.leb_gt _ _)) by (unfold MAX_RANGES_SUPPORTED; lia).
    assert (length (encode_crx (crx_of r)) = 10%nat) as El by (unfold encode_crx; rewrite !length_app, !length_le_bytes; done).
    rewrite (read_stored _ _ _ _ (encode_crx (crx_of r))); try lia.
    + cbn [mbind outcome_bind fst snd]. rewrite El, drop_ge, app_nil_r, crx_roundtrip by lia. done.
    + apply Hst. unfold all_writes, clone_writes. rewrite !elem_of_app. left. right. left. by apply (Hin j).
    + pose proof (numbered_length scorw_range_start j (or_intror eq_refl) ltac:(change (Z.to_nat SCORW_MAX_CHILDS) with 64%nat; lia)). lia.
Qed.

Lemma parent_reads_ok : parent_reads g8 g4 (default ∅ (x !! p_inode_num h)) k c h size.
Proof.
  pose proof (is_see_thru_bound (take (Z.to_nat (h_num_ranges h)) (h_range h))) as Bs.
  rewrite !Forall_cons in Hinodes. destruct Hinodes as (Bp & Bf & Bl & Bc & _). change (2 ^ 43) with 8796093022208 in Hsize.
  pose proof (parent_original_size_spec size ltac:(lia)) as [Bo _]. unfold parent_reads. split_and!.
  - unfold scorw_get_child_i_attr_val. rewrite (proj2 (Nat.leb_gt _ _)) by lia. apply read8; [in_writes| |lia].
    pose proof (numbered_length scorw_child k (or_introl eq_refl) Hk). lia.
  - apply read8; [in_writes|cbn; lia..].
  - apply read8; [in_writes|cbn; lia..].
  - apply read8; [in_writes|cbn; lia..].
  - unfold scorw_get_see_thru_attr_val. rewrite (read4 _ _ _ (is_see_thru (take (Z.to_nat (h_num_ranges h)) (h_range h)))); [|lia|in_writes|cbn; lia|lia]. cbn [mbind outcome_bind]. f_equal. wrap_lia.
Qed.

Lemma friend_reads_ok : scorw_get_frnd_version_attr_val g8 (default ∅ (x !! f_inode_num h)) = Ok 1.
Proof. apply read8; [in_writes|cbn; lia..]. Qed.
End Reads.

Lemma clone_family (ok : string -> bool) (st : cfs) (c : Z) (h : helper_inodes) (g8 g4 g10 : list Z) :
  (forall n, ok n = true) -> length g8 = 8%nat -> length g4 = 4%nat -> length g10 = 10%nat -> clone_request st c h ->
  let p := p_inode_num h in let f := f_inode_num h in let size := cf_size st p in
  exists k st', scorw_set_parent ok 0 st c h = Ok (0, st', Some k) /\
    slot_child (x_of st p) k = 0 /\ (forall j, (j < k)%nat -> slot_child (x_of st p) j <> 0) /\
    (forall j, j <> k -> scorw_get_child_i_attr_val g8 (x_of st' p) j = scorw_get_child_i_attr_val g8 (x_of st p) j) /\
    parent_reads g8 g4 (x_of st' p) k c h size /\
    child_reads g8 g4 g10 (x_of st' c) h size /\
    scorw_get_frnd_version_attr_val g8 (x_of st' f) = Ok 1 /\
    (forall b, 0 <= b -> b * PAGE_SIZE < size -> friend_bit (cf_frnd st' f) b = false) /\
    cf_size st' c = size /\
    (forall i, i <> p -> i <> c -> i <> f -> forall name, x_of st' i !! name = x_of st i !! name).
Proof.
  intros Hok H8 H4 H10 Hreq p f size. destruct (clone_succeeds st c h Hreq) as (k & l & Hk & Hfree & Hlow & Hfind & Hl & Hnd & Hkeys & Hin).
  destruct Hreq as (Hpc & Hpf & Hcf & Hino & Hn & Hmax & Hsz & Hslots & _ & Hwf & H0).
  rewrite (set_parent_eq ok st c h k l) by (auto; lia). eexists k, _. split; [done|]. unfold x_of. cbn [cf_x cf_size cf_frnd]. fold p f size.
  assert (forall i name v, (i, name, v) ∈ all_writes c h k size l ->
    default ∅ (apply_writes ok (cf_x st) (all_writes c h k size l) !! i) !! name = Some v) as Hst by (intros; by apply apply_writes_in).
  split_and!; auto.
  - intros j Hj. unfold scorw_get_child_i_attr_val. destruct (_ <=? j)%nat; [done|]. unfold get_val, read_var, ext4_xattr_get.
    rewrite apply_writes_out; [done|]. by apply other_slot_untouched with (js := seq 0 (Z.to_nat (h_num_ranges h))).
  - by eapply parent_reads_ok.
  - by eapply child_reads_ok.
  - by eapply friend_reads_ok.
  - intros b Hb Hlt. rewrite decide_True by done. apply init_friend_bits; auto. fold p size in Hsz. lia.
  - by rewrite decide_True.
  - intros i Hip Hic Hif name. apply apply_writes_out. by apply other_inode_untouched with (js := seq 0 (Z.to_nat (h_num_ranges h))).
Qed.

(** ** Properties *)

(** C13: Making a child succeeds on every proper request and leaves a complete
    family: the child is entered in the first free slot of the parent, no slot
    in use is touched, whatever the functions that open the files read of the
    parent, the child and the friend is what the request says, nothing is marked
    as copied, and no other inode changes. *)
Theorem clone_complete (ok : string -> bool) (st : cfs) (c : Z) (h : helper_inodes) (g8 g4 g10 : list Z) :
  (forall n, ok n = true) -> length g8 = 8%nat -> length g4 = 4%nat -> length g10 = 10%nat -> clone_request st c h ->
  let p := p_inode_num h in let f := f_inode_num h in let size := cf_size st p in
  exists k st', scorw_set_parent ok 0 st c h = Ok (0, st', Some k) /\
    slot_child (x_of st p) k = 0 /\ (forall j, (j < k)%nat -> slot_child (x_of st p) j <> 0) /\
    (forall j, j <> k -> scorw_get_child_i_attr_val g8 (x_of st' p) j = scorw_get_child_i_attr_val g8 (x_of st p) j) /\
    parent_reads g8 g4 (x_of st' p) k c h size /\
    child_reads g8 g4 g10 (x_of st' c) h size /\
    scorw_get_frnd_version_attr_val g8 (x_of st' f) = Ok 1 /\
    (forall b, 0 <= b -> b * PAGE_SIZE < size -> friend_bit (cf_frnd st' f) b = false) /\
    cf_size st' c = size /\
    (forall i, i <> p -> i <> c -> i <> f -> forall name, x_of st' i !! name = x_of st i !! name).
Proof. apply clone_family. Qed.

(** Making a child is refused, without changing anything, when the parent is
    empty and when all its slots are taken; and these are the only refusals. *)
Theorem clone_refused (ok : string -> bool) (error : Z) (st : cfs) (c : Z) (h : helper_inodes) :
  slots_ok (x_of st (p_inode_num h)) ->
  let full := forall j, (j < Z.to_nat SCORW_MAX_CHILDS)%nat -> slot_child (x_of st (p_inode_num h)) j <> 0 in
  (cf_size st (p_inode_num h) = 0 -> scorw_set_parent ok error st c h = Ok (SCORW_PARENT_ERROR, st, None)) /\
  (cf_size st (p_inode_num h) <> 0 -> full -> scorw_set_parent ok error st c h = Ok (SCORW_ERR_MAX_CHILDS_ALREADY_SET, st, None)) /\
  (cf_size st (p_inode_num h) <> 0 -> ~ full -> forall ret st' k, scorw_set_parent ok error st c h = Ok (ret, st', k) -> ret = error).
Proof.
  intros Hslots full. unfold scorw_set_parent. pose proof (find_slot_spec _ (Z.to_nat SCORW_MAX_CHILDS) 0 0 Hslots ltac:(lia)) as Hf. split_and!.
  - by intros ->.
  - intros Hsz Hfull. rewrite (proj2 (Z.eqb_neq _ _)) by done. destruct (find_slot _ 0 0 _) as [k|]; [|done].
    destruct Hf as (Hk & H0 & _). by destruct (Hfull k ltac:(lia)).
  - intros Hsz Hfull ret st' k. rewrite (proj2 (Z.eqb_neq _ _)) by done. destruct (find_slot _ 0 0 _) as [slot|]; [|destruct Hfull; intros j Hj; apply Hf; lia].
    destruct (range_writes c h _); cbn [mbind outcome_bind]; [|done..]. destruct (Z.eqb_spec error 0) as [-> |]; cbn [negb]; congruence.
Qed.

(** Making a further child sets the version attribute of the parent back to 1 and
    its original size to the present one.  If the machine stops before the scorw inode
    of the parent is closed, which would store the version again, or there is none,
    then the first open after the next mount cuts the log down to the records of
    version 1, whatever had been committed. *)
Theorem clone_discards_history (ok : string -> bool) (st : cfs) (c : Z) (h : helper_inodes) (g8 g4 g10 : list Z)
    (mapped : Z -> Z -> bool) (now mtime lopen : Z) (log par : mapping) :
  (forall n, ok n = true) -> length g8 = 8%nat -> length g4 = 4%nat -> length g10 = 10%nat -> clone_request st c h ->
  mapping_wf log -> mapping_wf par ->
  Forall (fun r => 1 <= version_num r < 2 ^ 31 /\ rec_small r) (log_records log) ->
  StronglySorted (fun r1 r2 => version_num r1 <= version_num r2) (log_records log) ->
  l_inode_num h <> 0 -> 0 < lopen < mtime ->
  exists k st' v org see_thru log_ino, scorw_set_parent ok 0 st c h = Ok (0, st', Some k) /\
    scorw_get_curr_version_attr_val g8 (x_of st' (p_inode_num h)) = Ok v /\
    scorw_get_original_parent_size g8 (x_of st' (p_inode_num h)) = Ok org /\
    scorw_get_see_thru_attr_val g4 (x_of st' (p_inode_num h)) = Ok see_thru /\
    scorw_get_log_attr_val g8 (x_of st' (p_inode_num h)) = Ok log_ino /\
    exists s' log' locks,
      scorw_prepare_par_inode (fun _ => true) mapped (fun s => Ok s) now mtime see_thru log_ino (RState 0 v lopen org (Some log) par) = Ok (s', locks) /\
      r_log s' = Some log' /\ Forall (fun r => version_num r <= 1) (log_records log').
Proof.
  intros Hok H8 H4 H10 Hreq Hlw Hpw Hrecs Hsort Hl0 Ho.
  destruct (clone_family ok st c h g8 g4 g10) as (k & st' & E & _ & _ & _ & (_ & Rl & Rv & Ro & Rs) & _); auto.
  destruct Hreq as (_ & _ & _ & _ & _ & _ & Hsz & _).
  pose proof (parent_original_size_spec (cf_size st (p_inode_num h)) ltac:(lia)) as [Bo _].
  pose proof (is_see_thru_bound (take (Z.to_nat (h_num_ranges h)) (h_range h))) as Bs.
  eexists k, st', _, _, _, _. do 5 (split; [eassumption|]).
  destruct (prepare_par_discards mapped now mtime (is_see_thru (take (Z.to_nat (h_num_ranges h)) (h_range h))) (l_inode_num h)
    (RState 0 1 lopen (parent_original_size (cf_size st (p_inode_num h))) (Some log) par) log) as (s' & m' & locks & E' & Hm' & _ & _ & Hle & _);
    cbn [r_log r_par r_last_open r_curr_version r_org]; auto; try lia.
  eauto 10.
Qed.

(** ** Witnesses *)

(** A see-through parent at version 5 with one child in slot 0. *)
Definition family_attrs : xattrs := <[curr_version_attr := le_bytes 8 5]> {[numbered scorw_child 0 := le_bytes 8 12]}.
Definition family_fs : cfs := Cfs {[11 := family_attrs]} (fun i => if i =? 11 then 6000 else 0) (fun _ => empty_friend).
Definition family_request : helper_inodes := HelperInodes 11 14 15 1 [ChildRange 0 1 SNAPX_FLAG_SEE_TH_RO].

Lemma family_slots : slots_ok family_attrs.
Proof.
  intros j. unfold family_attrs. rewrite lookup_insert_ne by (intros; discriminate). destruct (decide (j = 0%nat)) as [->|Hj].
  - right. exists 12. split; [lia|]. by rewrite lookup_singleton_eq.
  - left. apply lookup_singleton_ne. intros E. by apply numbered_inj in E.
Qed.

Lemma family_request_ok : clone_request family_fs 13 family_request.
Proof.
  unfold clone_request. cbn [family_request p_inode_num f_inode_num l_inode_num h_num_ranges h_range family_fs cf_size cf_frnd].
  split_and!; try done; try (unfold MAX_RANGES_SUPPORTED; cbn; lia).
  - repeat constructor; lia.
  - apply family_slots.
  - exists 1%nat. split; [unfold SCORW_MAX_CHILDS; lia|by vm_compute].
Qed.

Lemma clone_complete_witness : exists k st',
  scorw_set_parent (fun _ => true) 0 family_fs 13 family_request = Ok (0, st', Some k) /\ slot_child (x_of family_fs 11) k = 0 /\
  scorw_get_parent_attr_val (le_bytes 8 0) (x_of st' 13) = Ok 11.
Proof.
  destruct (clone_complete (fun _ => true) family_fs 13 family_request (le_bytes 8 0) (le_bytes 4 0) (le_bytes 10 0))
    as (k & st' & E & Hk & _ & _ & _ & (Hp & _) & _); [done..|apply family_request_ok|]. exists k, st'. split_and!; [exact E|exact Hk|exact Hp].
Defined.

Lemma clone_refused_witness : scorw_set_parent (fun _ => true) 0 family_fs 13 (HelperInodes 12 14 15 0 []) = Ok (SCORW_PARENT_ERROR, family_fs, None).
Proof. apply (clone_refused (fun _ => true) 0 family_fs 13 (HelperInodes 12 14 15 0 [])); [intros j; by left|reflexivity]. Defined.

Lemma clone_discards_history_witness : exists k st' v org see_thru log_ino,
  scorw_set_parent (fun _ => true) 0 family_fs 13 family_request = Ok (0, st', Some k) /\
  scorw_get_curr_version_attr_val (le_bytes 8 0) (x_of st' 11) = Ok v /\
  scorw_get_original_parent_size (le_bytes 8 0) (x_of st' 11) = Ok org /\
  scorw_get_see_thru_attr_val (le_bytes 4 0) (x_of st' 11) = Ok see_thru /\
  scorw_get_log_attr_val (le_bytes 8 0) (x_of st' 11) = Ok log_ino /\
  exists s' log' locks,
    scorw_prepare_par_inode (fun _ => true) crash_mapped (fun s => Ok s) 300 200 see_thru log_ino (RState 0 v 100 org (Some crash_log) crash_parent) = Ok (s', locks) /\
    r_log s' = Some log' /\ Forall (fun r => version_num r <= 1) (log_records log').
Proof.
  apply (clone_discards_history (fun _ => true) family_fs 13 family_request (le_bytes 8 0) (le_bytes 4 0) (le_bytes 10 0) crash_mapped 300 200 100 crash_log crash_parent);
    [done..|apply family_request_ok|apply crash_log_wf|apply crash_parent_wf|apply crash_records_ok|apply crash_records_ok|done|lia].
Defined.
