(* ===== verification/ChildOpen.v ===== *)
(** Opening a child: the fields of its scorw inode that
    [scorw_prepare_child_inode] ([corw_sparse.c]) reads from the attributes, and
    that what making the child stored is what opening it finds.  Its recovery of
    the friend file is in [VersionCount]. *)

From stdpp Require Import strings pretty.
From S2P Require Import Prelude Pages Friend Log Versions PageCopy Xattr Clone.

(** ** State *)

(** The fields set from the attributes; a range keeps the number of its
    behaviour. *)
Record child_fields := ChildFields {
  cx_version : Z;
  cx_ino_num : Z;
  cx_par : Z;
  cx_frnd : Z;
  cx_copy_size : Z;
  cx_pending_copy_pages : Z;
  cx_at_index : Z;
  cx_num_ranges : Z;
  cx_range : list child_range_xattr;
  cx_is_see_thru_ro : Z;
  cx_hash_table_size : Z
}.

Definition MIN_HASH_TABLE_SIZE : Z := 16.

(** ** Operations *)

(** The loop over the ranges; [g] is what the local structure of an iteration
    holds.  The flag is that of a see-through range. *)
Fixpoint load_ranges (g : list Z) (m : xattrs) (js : list nat) (see_thru : Z) : outcome (list child_range_xattr * Z) :=
  match js with
  | [] => Ok ([], see_thru)
  | j :: js =>
      r ← scorw_get_range_attr_val g m j;
      _ ← BUG_ON (r.1 =? 0);
      r' ← load_ranges g m js (if snap_behavior r.2 =? WriteCh_val SNAPX_FLAG_SEE_TH_RO then 1 else see_thru);
      Ok (r.2 :: r'.1, r'.2)
  end.

Definition hash_table_size : Z :=
  let temp := 128 in
  let temp := if MIN_HASH_TABLE_SIZE <? temp then temp else MIN_HASH_TABLE_SIZE in
  Z.shiftl 1 (Z.log2 temp).

(** [g8], [g4] and [g10] are the contents of the variables the getters read into,
    [mem] says whether the two tables can be allocated. *)
Definition prepare_child_fields (g8 g4 g10 : list Z) (mem : bool) (m : xattrs) (ino : Z) : outcome child_fields :=
  p_ino_num ← scorw_get_parent_attr_val g8 m;
  _ ← BUG_ON (p_ino_num =? 0);
  f_ino_num ← scorw_get_friend_attr_val g8 m;
  _ ← BUG_ON (f_ino_num =? 0);
  v ← scorw_get_curr_version_attr_val g8 m;
  let curr_version := s32 v in
  _ ← BUG_ON (curr_version =? 0);
  size ← scorw_get_copy_size_attr_val g8 m;
  pending ← scorw_get_blocks_to_copy_attr_val g4 m;
  n ← scorw_get_num_ranges_attr_val g4 m;
  r ← load_ranges g10 m (seq 0 (Z.to_nat n)) 0;
  _ ← BUG_ON (negb mem);
  Ok (ChildFields curr_version ino p_ino_num f_ino_num size pending (-1) n r.1 r.2 hash_table_size).

(** ** Lemmas *)

Lemma see_thru_val b : (WriteCh_val b =? WriteCh_val SNAPX_FLAG_SEE_TH_RO) = bool_decide (b = SNAPX_FLAG_SEE_TH_RO).
Proof. by destruct b. Qed.

Lemma load_ranges_ok g m l n k st :
  (forall j r, l !! j = Some r -> scorw_get_range_attr_val g m (k + j) = Ok (n, crx_of r)) -> n <> 0 ->
  load_ranges g m (seq k (length l)) st = Ok (crx_of <$> l, if existsb (fun r => bool_decide (snapx_behavior r = SNAPX_FLAG_SEE_TH_RO)) l then 1 else st).
Proof.
  intros Hl Hn. revert k st Hl. induction l as [|r l IH]; intros k st Hl; [done|]. cbn [length seq load_ranges].
  pose proof (Hl 0%nat r eq_refl) as E. rewrite Nat.add_0_r in E. rewrite E. cbn [mbind outcome_bind fst snd].
  rewrite (proj2 (Z.eqb_neq n 0)) by done. cbn [BUG_ON mbind outcome_bind]. rewrite IH by (intros j r' Hj; rewrite Nat.add_succ_comm; by apply Hl).
  cbn [mbind outcome_bind fst snd crx_of snap_behavior existsb]. rewrite see_thru_val. do 2 f_equal.
  destruct (bool_decide _); [by destruct (existsb _ l)|done].
Qed.

Lemma take_ranges_lookup h j r :
  take (Z.to_nat (h_num_ranges h)) (h_range h) !! j = Some r -> (j < Z.to_nat (h_num_ranges h))%nat /\ h_range h !! j = Some r.
Proof. rewrite lookup_take_Some. tauto. Qed.

(** ** Properties *)

(** C29: Opening a child finds what making it was asked for: after a proper
    request the child is prepared with its parent, its friend, version 1, the
    size of the parent at the time, as many blocks to copy as that has, and the
    ranges of the request; and the flag it computes from the ranges is the one
    stored as an attribute. *)
Theorem clone_then_open (ok : string -> bool) (st : cfs) (c : Z) (h : helper_inodes) (g8 g4 g10 : list Z) :
  (forall n, ok n = true) -> length g8 = 8%nat -> length g4 = 4%nat -> length g10 = 10%nat -> clone_request st c h ->
  p_inode_num h <> 0 -> f_inode_num h <> 0 ->
  let size := cf_size st (p_inode_num h) in
  let ranges := take (Z.to_nat (h_num_ranges h)) (h_range h) in
  exists k st' see, scorw_set_parent ok 0 st c h = Ok (0, st', Some k) /\
    scorw_get_see_thru_attr_val g4 (x_of st' c) = Ok see /\
    prepare_child_fields g8 g4 g10 true (x_of st' c) c =
      Ok (ChildFields 1 c (p_inode_num h) (f_inode_num h) size ((size + PAGE_SIZE - 1) / PAGE_SIZE) (-1) (h_num_ranges h) (crx_of <$> ranges) see 128).
Proof.
  intros Hok H8 H4 H10 Hreq Hp Hf size ranges.
  destruct (clone_family ok st c h g8 g4 g10) as (k & st' & E & _ & _ & _ & _ & (Rp & Rf & Rs & Rb & _ & Rv & Rn & Rt & Rr) & _); auto.
  destruct Hreq as (_ & _ & _ & _ & Hn & _). exists k, st', (is_see_thru ranges). split_and!; [done|done|].
  unfold prepare_child_fields. rewrite Rp, Rf, Rv, Rs, Rb, Rn. cbn [mbind outcome_bind].
  rewrite !(proj2 (Z.eqb_neq _ 0)) by done. change (s32 1 =? 0) with false. cbn [BUG_ON mbind outcome_bind].
  assert (length ranges = Z.to_nat (h_num_ranges h)) as <- by (unfold ranges; rewrite length_take; lia).
  rewrite (load_ranges_ok _ _ ranges 10) by (done || (intros j r Hj; apply take_ranges_lookup in Hj as [? ?]; by apply Rr)).
  cbn [mbind outcome_bind fst snd BUG_ON negb]. done.
Qed.

(** A range whose attribute cannot be read is not noticed: the check only
    catches a return value of 0, an error is negative, and the child is opened
    with a range made of whatever the local variable held. *)
Theorem unreadable_range_unnoticed (g8 g4 g10 : list Z) (m : xattrs) (ino p f v size pending : Z) :
  scorw_get_parent_attr_val g8 m = Ok p -> p <> 0 -> scorw_get_friend_attr_val g8 m = Ok f -> f <> 0 ->
  scorw_get_curr_version_attr_val g8 m = Ok v -> s32 v <> 0 -> scorw_get_copy_size_attr_val g8 m = Ok size ->
  scorw_get_blocks_to_copy_attr_val g4 m = Ok pending -> scorw_get_num_ranges_attr_val g4 m = Ok 1 ->
  m !! numbered scorw_range_start 0 = None ->
  exists s, prepare_child_fields g8 g4 g10 true m ino = Ok s /\ cx_num_ranges s = 1 /\ cx_range s = [decode_crx g10].
Proof.
  intros Rp Hp Rf Hf Rv Hv Rs Rb Rn Hm. unfold prepare_child_fields. rewrite Rp, Rf, Rv, Rs, Rb, Rn. cbn [mbind outcome_bind].
  rewrite !(proj2 (Z.eqb_neq _ 0)) by done. cbn [BUG_ON mbind outcome_bind]. change (seq 0 (Z.to_nat 1)) with [0%nat].
  cbn [load_ranges]. unfold scorw_get_range_attr_val, read_var, ext4_xattr_get. rewrite Hm.
  change (255 <? String.length (numbered scorw_range_start 0))%nat with false. cbn [mbind outcome_bind]. eexists. split; [done|]. done.
Qed.

(** ** Witnesses *)

Lemma clone_then_open_witness : exists k st' see,
  scorw_set_parent (fun _ => true) 0 family_fs 13 family_request = Ok (0, st', Some k) /\
  prepare_child_fields (le_bytes 8 0) (le_bytes 4 0) (le_bytes 10 0) true (x_of st' 13) 13 =
    Ok (ChildFields 1 13 11 14 6000 2 (-1) 1 [crx_of (ChildRange 0 1 SNAPX_FLAG_SEE_TH_RO)] see 128).
Proof.
  destruct (clone_then_open (fun _ => true) family_fs 13 family_request (le_bytes 8 0) (le_bytes 4 0) (le_bytes 10 0)) as (k & st' & see & H1 & _ & H2);
    [done..|apply family_request_ok|done|done|]. exists k, st', see. split; [exact H1|exact H2].
Defined.

Definition torn_child : xattrs :=
  <[scorw_parent := le_bytes 8 11]> (<[scorw_friend := le_bytes 8 14]> (<[curr_version_attr := le_bytes 8 1]>
    (<[copy_size := le_bytes 8 4096]> (<[blocks_to_copy := le_bytes 4 1]> {[num_ranges := le_bytes 4 1]})))).

Lemma unreadable_range_unnoticed_witness :
  exists s, prepare_child_fields (le_bytes 8 0) (le_bytes 4 0) (le_bytes 10 77) true torn_child 13 = Ok s /\ cx_num_ranges s = 1 /\
    cx_range s = [ChildRangeXattr 77 0 0].
Proof.
  destruct (unreadable_range_unnoticed (le_bytes 8 0) (le_bytes 4 0) (le_bytes 10 77) torn_child 13 11 14 1 4096 1) as (s & H1 & H2 & H3);
    [vm_compute; reflexivity || lia..|].
  exists s. split_and!; [exact H1|exact H2|exact H3].
Defined.
