(* ===== verification/Writeback.v ===== *)
(** Writeback of a file: the change the layer makes to the writeback of the page
    cache ([filemap_fdatawrite_wbc] of [filemap.c]), which holds
    [i_vfs_inode_writeback_sync_lock] of a parent while its pages are written,
    and the functions that lead to it; making a child takes the same lock
    ([ext4_xattr_set] of [xattr.c]).

    A mutex is a flag; taking one that is held is [Hang].  A folio is one page. *)

From stdpp Require Import strings sorting.
From S2P Require Import Prelude Pages Friend Log PageCopy Xattr Clone.

(** ** State *)

(** An inode as writeback sees it: whether it is of this file system, its number,
    whether [scorw_is_par_file(inode, 1)] holds, the mutex, whether the mapping
    can be written back, the indices of the cached pages, those tagged dirty and
    those tagged for writing, and the error flags of the mapping. *)
Record wb_inode := WbInode {
  wi_ext4_module : bool;
  wi_ino : Z;
  wi_par : bool;
  wi_sync_lock : bool;
  wi_can_writeback : bool;
  wi_pages : gset Z;
  wi_dirty : gset Z;
  wi_towrite : gset Z;
  wi_AS_EIO : bool;
  wi_AS_ENOSPC : bool
}.

(** [struct writeback_control]. *)
Record writeback_control := Wbc {
  sync_mode : Z;
  range_start : Z;
  range_end : Z;
  tagged_writepages : bool;
  is_attached_to_parent_file : bool
}.

Definition WB_SYNC_ALL : Z := 1.
Definition ENOSPC : Z := 28.

Definition wi_set_lock (i : wb_inode) (b : bool) : wb_inode :=
  WbInode (wi_ext4_module i) (wi_ino i) (wi_par i) b (wi_can_writeback i) (wi_pages i) (wi_dirty i) (wi_towrite i) (wi_AS_EIO i) (wi_AS_ENOSPC i).
Definition wi_set_towrite (i : wb_inode) (s : gset Z) : wb_inode :=
  WbInode (wi_ext4_module i) (wi_ino i) (wi_par i) (wi_sync_lock i) (wi_can_writeback i) (wi_pages i) (wi_dirty i) s (wi_AS_EIO i) (wi_AS_ENOSPC i).
Definition wi_set_par (i : wb_inode) (b : bool) : wb_inode :=
  WbInode (wi_ext4_module i) (wi_ino i) b (wi_sync_lock i) (wi_can_writeback i) (wi_pages i) (wi_dirty i) (wi_towrite i) (wi_AS_EIO i) (wi_AS_ENOSPC i).
Definition wi_set_pages (i : wb_inode) (dirty towrite : gset Z) (eio enospc : bool) : wb_inode :=
  WbInode (wi_ext4_module i) (wi_ino i) (wi_par i) (wi_sync_lock i) (wi_can_writeback i) (wi_pages i) dirty towrite eio enospc.

(** What the kernel provides: the size of a folio batch, [do_writepages] with
    what it returns and leaves of the tags and error flags, whether the file is a
    parent when it has returned (children are made and unlinked meanwhile), what
    waiting for the pages leaves of the error flags, and what
    [file_check_and_advance_wb_err] returns. *)
Record wb_env := WbEnv {
  PAGEVEC_SIZE : nat;
  do_writepages : wb_inode -> writeback_control -> Z * gset Z * gset Z * bool * bool;
  par_after : wb_inode -> bool;
  fdatawait : wb_inode -> bool * bool;
  advance_wb_err : wb_inode -> Z
}.

(** ** Finding tagged folios *)

(** The pages tagged for writing from [start] to [end_], in the order
    [find_get_entry] returns them. *)
Definition tagged_from (towrite : gset Z) (start end_ : Z) : list Z :=
  merge_sort Z.le (elements (filter (fun i => start <= i <= end_) towrite)).

(** The loop of [filemap_get_folios_tag]: [room] is the room left in the batch;
    the batch, and the value of [start] when the batch is full. *)
Fixpoint fill_batch (found : list Z) (room : nat) : list Z * option Z :=
  match found, room with
  | [], _ => ([], None)
  | f :: _, S O => ([f], Some (f + 1))
  | f :: found, S room => let (b, s) := fill_batch found room in (f :: b, s)
  | _, O => ([], None)
  end.

(** The folios found and the new value of [start]. *)
Definition filemap_get_folios_tag (size : nat) (towrite : gset Z) (start end_ : Z) : list Z * Z :=
  let (b, s) := fill_batch (tagged_from towrite start end_) size in
  (b, default (if end_ =? 2 ^ 64 - 1 then 2 ^ 64 - 1 else end_ + 1) s).

(** The loop over the folios chosen for writeback: the pages it goes through. *)
Fixpoint scan_tagged (fuel size : nat) (towrite : gset Z) (index end_ : Z) : outcome (list Z) :=
  match fuel with
  | O => Hang
  | S fuel =>
      if index <=? end_ then
        let (b, index') := filemap_get_folios_tag size towrite index end_ in
        match b with
        | [] => Ok []
        | _ => l ← scan_tagged fuel size towrite index' end_; Ok (b ++ l)
        end
      else Ok []
  end.

(** ** Writeback *)

(** [tag_pages_for_writeback] *)
Definition tag_pages_for_writeback (i : wb_inode) (start end_ : Z) : wb_inode :=
  wi_set_towrite i (wi_towrite i ∪ filter (fun k => start <= k <= end_) (wi_dirty i)).

(** The test of the hook, made before the pages are written and again after;
    [is_par_inode] is set from mount to unmount. *)
Definition is_parent_file (i : wb_inode) : bool := wi_ext4_module i && negb (wi_ino i =? 0) && wi_par i.

(** What the hook does for a parent before the pages are written. *)
Definition scorw_before_writeback (e : wb_env) (i : wb_inode) (wbc : writeback_control) : outcome (wb_inode * writeback_control) :=
  if wi_sync_lock i then Hang
  else
    let start_block_num := u32 (Z.shiftr (range_start wbc) PAGE_SHIFT) in
    let end_block_num := u32 (Z.shiftr (range_end wbc) PAGE_SHIFT) in
    let i1 := tag_pages_for_writeback (wi_set_lock i true) start_block_num end_block_num in
    _ ← scan_tagged (S (size (wi_towrite i1))) (PAGEVEC_SIZE e) (wi_towrite i1) start_block_num end_block_num;
    Ok (i1, Wbc (sync_mode wbc) (range_start wbc) (range_end wbc) true true).

Definition filemap_fdatawrite_wbc (e : wb_env) (i : wb_inode) (wbc : writeback_control) : outcome (Z * wb_inode) :=
  r ← (if is_parent_file i then scorw_before_writeback e i wbc else Ok (i, wbc));
  let '(i1, wbc1) := r in
  if negb (wi_can_writeback i1) || bool_decide (wi_dirty i1 = ∅) then Ok (0, i1)
  else
    let '(ret, dirty, towrite, eio, enospc) := do_writepages e i1 wbc1 in
    let i2 := wi_set_par (wi_set_pages i1 dirty towrite eio enospc) (par_after e i1) in
    Ok (ret, if is_parent_file i2 then wi_set_lock i2 false else i2).

Definition __filemap_fdatawrite_range (e : wb_env) (i : wb_inode) (start end_ mode : Z) : outcome (Z * wb_inode) :=
  filemap_fdatawrite_wbc e i (Wbc mode start end_ false false).

Definition mapping_needs_writeback (i : wb_inode) : bool := bool_decide (wi_pages i <> ∅).

Definition filemap_check_errors (i : wb_inode) : Z * wb_inode :=
  (if wi_AS_EIO i then - EIO else if wi_AS_ENOSPC i then - ENOSPC else 0, wi_set_pages i (wi_dirty i) (wi_towrite i) false false).

Definition wait_range (e : wb_env) (i : wb_inode) : wb_inode :=
  let (eio, enospc) := fdatawait e i in wi_set_pages i (wi_dirty i) (wi_towrite i) eio enospc.

(** Writing out and waiting, as [filemap_write_and_wait_range],
    [file_write_and_wait_range] and [scorw_inode_write_and_wait_range] share it. *)
Definition write_out (e : wb_env) (i : wb_inode) (lstart lend : Z) : outcome (Z * wb_inode) :=
  if mapping_needs_writeback i then
    r ← __filemap_fdatawrite_range e i lstart lend WB_SYNC_ALL;
    let (err, i1) := r : Z * wb_inode in
    Ok (err, if negb (err =? - EIO) then wait_range e i1 else i1)
  else Ok (0, i).

Definition filemap_write_and_wait_range (e : wb_env) (i : wb_inode) (lstart lend : Z) : outcome (Z * wb_inode) :=
  if lend <? lstart then Ok (0, i)
  else
    r ← write_out e i lstart lend;
    let (err, i1) := r : Z * wb_inode in
    let (err2, i2) := filemap_check_errors i1 in
    Ok (if err =? 0 then err2 else err, i2).

Definition file_write_and_wait_range (e : wb_env) (i : wb_inode) (lstart lend : Z) : outcome (Z * wb_inode) :=
  if lend <? lstart then Ok (0, i)
  else
    r ← write_out e i lstart lend;
    let (err, i1) := r : Z * wb_inode in
    Ok (if err =? 0 then advance_wb_err e i1 else err, wi_set_pages i1 (wi_dirty i1) (wi_towrite i1) false false).

Definition scorw_inode_write_and_wait_range (e : wb_env) (i : wb_inode) (lstart lend : Z) : outcome (Z * wb_inode) :=
  write_out e i lstart lend.

(** Making a child holds the same mutex of the parent [i]. *)
Definition set_parent_locked (i : wb_inode) (ok : string -> bool) (error : Z) (st : cfs) (c : Z) (h : helper_inodes)
    : outcome (Z * cfs * option nat) :=
  if wi_sync_lock i then Hang else scorw_set_parent ok error st c h.

(** ** Lemmas: the scan goes through every tagged page *)

Lemma elem_of_tagged s a e k : k ∈ tagged_from s a e <-> k ∈ s /\ a <= k <= e.
Proof.
  unfold tagged_from. rewrite (merge_sort_Permutation Z.le). rewrite elem_of_elements, elem_of_filter. tauto.
Qed.

Lemma tagged_nodup s a e : NoDup (tagged_from s a e).
Proof. unfold tagged_from. rewrite (merge_sort_Permutation Z.le). apply NoDup_elements. Qed.

Lemma tagged_sorted s a e : StronglySorted Z.le (tagged_from s a e).
Proof. apply (StronglySorted_merge_sort Z.le). Qed.

(** What is left after the part up to [x]. *)
Lemma tagged_split s a e l1 x l2 : tagged_from s a e = l1 ++ x :: l2 -> tagged_from s (x + 1) e = l2.
Proof.
  intros E. pose proof (tagged_sorted s a e) as Hs. pose proof (tagged_nodup s a e) as Hn. rewrite E in Hs, Hn.
  apply StronglySorted_app in Hs as (Hle1 & _ & Hs). apply NoDup_app in Hn as (_ & _ & Hn). apply NoDup_cons in Hn as [Hx Hn].
  apply StronglySorted_inv in Hs as [Hs Hle2]. rewrite Forall_forall in Hle2.
  assert (forall k, k ∈ s /\ a <= k <= e <-> k ∈ l1 ++ x :: l2) as Hin by (intros k; by rewrite <- E, elem_of_tagged).
  apply (StronglySorted_unique Z.le); [apply tagged_sorted|done|].
  apply NoDup_Permutation; [apply tagged_nodup|done|]. intros k. rewrite elem_of_tagged. specialize (Hin k) as Hk.
  assert (a <= x) by (apply Hin; set_solver). rewrite elem_of_app, elem_of_cons in Hk. split.
  - intros [Hks Hb]. destruct (proj1 Hk ltac:(split; [done|lia])) as [H1|[->|H2]]; [|lia|done].
    pose proof (Hle1 k x H1 ltac:(left)). lia.
  - intros H2. destruct (proj2 Hk ltac:(auto)) as [Hks Hb]. pose proof (Hle2 k H2). assert (x <> k) by (intros ->; done). split; [done|lia].
Qed.

Lemma fill_batch_spec n l :
  match fill_batch l (S n) with
  | (b, None) => b = l
  | (b, Some s) => exists l1 x l2, b = l1 ++ [x] /\ l = l1 ++ x :: l2 /\ s = x + 1
  end.
Proof.
  revert n. induction l as [|f l IH]; intros n; [done|]. cbn [fill_batch]. destruct n as [|n]; [exists [], f, l; done|].
  specialize (IH n). destruct (fill_batch l (S n)) as [b [s|]].
  - destruct IH as (l1 & x & l2 & -> & -> & ->). exists (f :: l1), x, l2. done.
  - by rewrite IH.
Qed.

Lemma scan_tagged_spec fuel n s index e :
  e <> 2 ^ 64 - 1 -> (length (tagged_from s index e) < fuel)%nat -> scan_tagged fuel (S n) s index e = Ok (tagged_from s index e).
Proof.
  intros He. revert index. induction fuel as [|fuel IH]; intros index Hl; [lia|]. cbn [scan_tagged].
  destruct (Z.leb_spec index e) as [Hle|Hgt].
  2: { f_equal. symmetry. destruct (tagged_from s index e) as [|k l] eqn:E; [done|].
       assert (k ∈ tagged_from s index e) as Hk by (rewrite E; left). apply elem_of_tagged in Hk. lia. }
  unfold filemap_get_folios_tag. pose proof (fill_batch_spec n (tagged_from s index e)) as Hf.
  destruct (fill_batch _ (S n)) as [b [st|]]; cbn [default from_option id].
  - destruct Hf as (l1 & x & l2 & -> & E & ->). rewrite E in *. rewrite length_app in Hl. cbn [length] in Hl.
    pose proof (tagged_split _ _ _ _ _ _ E) as E2. rewrite IH, E2 by (rewrite ?E2; lia). cbn [mbind outcome_bind].
    destruct (l1 ++ [x]) as [|y l] eqn:Ey; [by destruct l1|]. rewrite <- Ey, <- app_assoc. done.
  - subst b. rewrite (proj2 (Z.eqb_neq e _)) by done. destruct (tagged_from s index e) as [|k l] eqn:E; [done|].
    destruct fuel as [|fuel]; [cbn in Hl; lia|]. cbn [scan_tagged]. rewrite (proj2 (Z.leb_gt _ _)) by lia. cbn [mbind outcome_bind]. by rewrite app_nil_r.
Qed.

Lemma tagged_length s a e : (length (tagged_from s a e) <= size s)%nat.
Proof.
  unfold tagged_from. rewrite (merge_sort_Permutation Z.le). change (length (elements ?x)) with (size x). apply subseteq_size. set_solver.
Qed.

Lemma u32_not_max z : u32 z <> 2 ^ 64 - 1.
Proof. pose proof (wrap_bound 32 z ltac:(lia)) as H. unfold u32. lia. Qed.

(** What the hook hands to the writers: the lock held, every dirty page of the
    range tagged. *)
Definition held_for_writing (i : wb_inode) (wbc : writeback_control) : wb_inode :=
  tag_pages_for_writeback (wi_set_lock i true) (u32 (Z.shiftr (range_start wbc) PAGE_SHIFT)) (u32 (Z.shiftr (range_end wbc) PAGE_SHIFT)).

Lemma before_writeback_ok e i wbc :
  (0 < PAGEVEC_SIZE e)%nat -> wi_sync_lock i = false ->
  scorw_before_writeback e i wbc = Ok (held_for_writing i wbc, Wbc (sync_mode wbc) (range_start wbc) (range_end wbc) true true).
Proof.
  intros Hn Hl. unfold scorw_before_writeback. rewrite Hl. fold (held_for_writing i wbc).
  destruct (PAGEVEC_SIZE e) as [|n] eqn:En; [lia|]. rewrite scan_tagged_spec; [done|apply u32_not_max|].
  pose proof (tagged_length (wi_towrite (held_for_writing i wbc)) (u32 (Z.shiftr (range_start wbc) PAGE_SHIFT)) (u32 (Z.shiftr (range_end wbc) PAGE_SHIFT))). lia.
Qed.

Lemma locked_writeback_hangs e i wbc : is_parent_file i = true -> wi_sync_lock i = true -> filemap_fdatawrite_wbc e i wbc = Hang.
Proof. intros Hp Hl. unfold filemap_fdatawrite_wbc, scorw_before_writeback. by rewrite Hp, Hl. Qed.

Lemma locked_write_out_hangs e i a b :
  is_parent_file i = true -> wi_sync_lock i = true -> wi_pages i <> ∅ -> write_out e i a b = Hang.
Proof.
  intros Hp Hl Hpg. unfold write_out, mapping_needs_writeback, __filemap_fdatawrite_range.
  by rewrite bool_decide_eq_true_2, locked_writeback_hangs.
Qed.

Lemma clean_write_out e i a b :
  (0 < PAGEVEC_SIZE e)%nat -> is_parent_file i = true -> wi_sync_lock i = false -> wi_pages i <> ∅ -> wi_dirty i = ∅ ->
  write_out e i a b = Ok (0, wait_range e (held_for_writing i (Wbc WB_SYNC_ALL a b false false))).
Proof.
  intros Hn Hp Hl Hpg Hd. unfold write_out, mapping_needs_writeback, __filemap_fdatawrite_range, filemap_fdatawrite_wbc.
  rewrite bool_decide_eq_true_2, Hp, before_writeback_ok by done. cbn [mbind outcome_bind].
  rewrite (bool_decide_eq_true_2 (wi_dirty _ = ∅)) by done. rewrite orb_true_r. done.
Qed.

(** ** Properties *)

(** Scanning the pages tagged for writing in batches ends, and goes through
    the same pages in the same order as one pass over the range would, whatever
    the size of a batch. *)
Theorem batched_scan_equiv (size : nat) (towrite : gset Z) (start end_ : Z) :
  (0 < size)%nat -> end_ <> 2 ^ 64 - 1 ->
  scan_tagged (S (base.size towrite)) size towrite start end_ = Ok (tagged_from towrite start end_) /\
  (forall k, k ∈ tagged_from towrite start end_ <-> k ∈ towrite /\ start <= k <= end_) /\
  StronglySorted Z.le (tagged_from towrite start end_).
Proof.
  intros Hn He. destruct size as [|n]; [lia|]. split_and!; [|apply elem_of_tagged|apply tagged_sorted].
  apply scan_tagged_spec; [done|]. pose proof (tagged_length towrite start end_). lia.
Qed.

(** C32: Writeback of a parent that has dirty pages runs the writers with the
    mutex held, every dirty page of the range (its page numbers cut to 32 bits)
    tagged for writing and the request marked as one of a parent, and returns
    what they return; it leaves the mutex free if the file is a parent when they
    return, and held if it is no longer one, so that the next writeback after it
    has become a parent again waits for ever.  Writeback of any other file does
    not take the mutex, and leaves it as it is unless the file has become a
    parent meanwhile, whose mutex it frees. *)
Theorem parent_writeback_exclusive (e : wb_env) (i : wb_inode) (wbc : writeback_control) :
  (0 < PAGEVEC_SIZE e)%nat -> wi_can_writeback i = true -> wi_dirty i <> ∅ ->
  (is_parent_file i = true -> wi_sync_lock i = false ->
     exists i1 wbc1 ret i2,
       (do_writepages e i1 wbc1).1.1.1.1 = ret /\
       wi_sync_lock i1 = true /\ is_attached_to_parent_file wbc1 = true /\ tagged_writepages wbc1 = true /\
       (forall k, u32 (Z.shiftr (range_start wbc) PAGE_SHIFT) <= k <= u32 (Z.shiftr (range_end wbc) PAGE_SHIFT) ->
          k ∈ wi_dirty i -> k ∈ wi_towrite i1) /\
       filemap_fdatawrite_wbc e i wbc = Ok (ret, i2) /\
       wi_par i2 = par_after e i1 /\ wi_sync_lock i2 = negb (par_after e i1) /\
       (par_after e i1 = false -> forall wbc', filemap_fdatawrite_wbc e (wi_set_par i2 true) wbc' = Hang)) /\
  (is_parent_file i = false ->
     exists i2, filemap_fdatawrite_wbc e i wbc = Ok ((do_writepages e i wbc).1.1.1.1, i2) /\
       (is_parent_file i2 = false -> wi_sync_lock i2 = wi_sync_lock i) /\ (is_parent_file i2 = true -> wi_sync_lock i2 = false)).
Proof.
  intros Hn Hc Hd. split.
  - intros Hp Hl. pose proof Hp as Hb. unfold is_parent_file in Hb. apply andb_true_iff in Hb as [Hb _].
    exists (held_for_writing i wbc), (Wbc (sync_mode wbc) (range_start wbc) (range_end wbc) true true).
    destruct (do_writepages e _ _) as [[[[ret dirty] towrite] eio] enospc] eqn:E. exists ret.
    set (i2 := wi_set_par (wi_set_pages (held_for_writing i wbc) dirty towrite eio enospc) (par_after e (held_for_writing i wbc))).
    assert (is_parent_file i2 = par_after e (held_for_writing i wbc)) as Hp2.
    { unfold is_parent_file. change (wi_ext4_module i2) with (wi_ext4_module i). change (wi_ino i2) with (wi_ino i). by rewrite Hb. }
    exists (if is_parent_file i2 then wi_set_lock i2 false else i2). rewrite Hp2. split_and!; auto.
    + intros k Hk Hin. cbn. apply elem_of_union_r, elem_of_filter. done.
    + unfold filemap_fdatawrite_wbc. rewrite Hp, before_writeback_ok by done. cbn [mbind outcome_bind].
      rewrite (bool_decide_eq_false_2 (wi_dirty _ = ∅)) by done. change (wi_can_writeback (held_for_writing i wbc)) with (wi_can_writeback i).
      rewrite Hc, E. cbn [negb orb]. fold i2. by rewrite Hp2.
    + by destruct (par_after _ _).
    + by destruct (par_after _ _).
    + intros Hf wbc'. rewrite Hf. apply locked_writeback_hangs; [|done]. unfold is_parent_file.
      change (wi_ext4_module (wi_set_par i2 true)) with (wi_ext4_module i). change (wi_ino (wi_set_par i2 true)) with (wi_ino i). by rewrite Hb.
  - intros Hp. unfold filemap_fdatawrite_wbc. rewrite Hp. cbn [mbind outcome_bind]. rewrite (bool_decide_eq_false_2 _ Hd), Hc. cbn [negb orb].
    destruct (do_writepages e i wbc) as [[[[ret dirty] towrite] eio] enospc]. eexists. split; [done|].
    set (i2 := wi_set_par _ _). destruct (is_parent_file i2) eqn:E; [|by rewrite E].
    change (is_parent_file (wi_set_lock i2 false)) with (is_parent_file i2). by rewrite E.
Qed.

(** C31: An [fsync] of a parent with cached pages none of which is dirty returns
    with the mutex still held, so that every later [fsync] or writeback of the
    parent, and making a further child, waits for ever. *)
Theorem fsync_of_clean_parent_hangs (e : wb_env) (i : wb_inode) (a b : Z) :
  (0 < PAGEVEC_SIZE e)%nat -> is_parent_file i = true -> wi_sync_lock i = false -> wi_pages i <> ∅ -> wi_dirty i = ∅ -> a <= b ->
  exists ret i', file_write_and_wait_range e i a b = Ok (ret, i') /\
    (forall a' b', a' <= b' -> file_write_and_wait_range e i' a' b' = Hang /\ filemap_write_and_wait_range e i' a' b' = Hang /\
       scorw_inode_write_and_wait_range e i' a' b' = Hang) /\
    (forall wbc, filemap_fdatawrite_wbc e i' wbc = Hang) /\
    (forall ok error st c h, set_parent_locked i' ok error st c h = Hang).
Proof.
  intros Hn Hp Hl Hpg Hd Hab. unfold file_write_and_wait_range at 1. rewrite (proj2 (Z.ltb_ge _ _)), clean_write_out by done.
  cbn [mbind outcome_bind]. eexists _, _. split; [done|]. unfold wait_range. destruct (fdatawait e _) as [eio enospc].
  set (i' := wi_set_pages _ _ _ false false).
  assert (is_parent_file i' = true /\ wi_sync_lock i' = true /\ wi_pages i' <> ∅) as (Hp' & Hl' & Hpg') by done. split_and!.
  - intros a' b' Hab'. unfold file_write_and_wait_range, filemap_write_and_wait_range, scorw_inode_write_and_wait_range.
    by rewrite (proj2 (Z.ltb_ge b' a')), !locked_write_out_hangs.
  - intros wbc. by apply locked_writeback_hangs.
  - intros. unfold set_parent_locked. by rewrite Hl'.
Qed.

(** ** Witnesses *)

(** Writers that write everything, batches of fifteen. *)
Definition good_writers : wb_env := WbEnv 15 (fun _ _ => (0, ∅, ∅, false, false)) wi_par (fun _ => (false, false)) (fun _ => 0).
Definition synced_parent (dirty : gset Z) : wb_inode := WbInode true 11 true false true {[0; 1; 2]} dirty ∅ false false.

Lemma batched_scan_equiv_witness : scan_tagged 4 2 {[5; 1; 9]} 1 8 = Ok (tagged_from {[5; 1; 9]} 1 8) /\ 5 ∈ tagged_from {[5; 1; 9]} 1 8.
Proof.
  destruct (batched_scan_equiv 2 {[5; 1; 9]} 1 8) as (H1 & H2 & _); [lia..|]. split; [exact H1|]. apply H2. split; [set_solver|lia].
Defined.

Lemma parent_writeback_exclusive_witness :
  exists ret i2, filemap_fdatawrite_wbc good_writers (synced_parent {[1]}) (Wbc WB_SYNC_ALL 0 8192 false false) = Ok (ret, i2) /\
    wi_sync_lock i2 = negb (wi_par i2).
Proof.
  destruct (parent_writeback_exclusive good_writers (synced_parent {[1]}) (Wbc WB_SYNC_ALL 0 8192 false false)) as [H _];
    [cbn; lia|reflexivity|cbn; set_solver|].
  destruct H as (i1 & wbc1 & ret & i2 & _ & _ & _ & _ & _ & H & Hp & Hl & _); [reflexivity..|].
  exists ret, i2. split; [exact H|]. rewrite Hp. exact Hl.
Defined.

Lemma fsync_of_clean_parent_hangs_witness :
  exists ret i', file_write_and_wait_range good_writers (synced_parent ∅) 0 8192 = Ok (ret, i') /\
    file_write_and_wait_range good_writers i' 0 8192 = Hang.
Proof.
  destruct (fsync_of_clean_parent_hangs good_writers (synced_parent ∅) 0 8192) as (ret & i' & H1 & H2 & _); [cbn; lia|reflexivity|reflexivity|cbn; set_solver|reflexivity|lia|].
  exists ret, i'. split; [exact H1|]. apply H2. lia.
Defined.
