(* ===== verification/Mount.v ===== *)
(** Mounting and unmounting: [scorw_init], [scorw_exit], the start, the loop and
    the stop of the page copy thread, and the list of logs to sync
    ([corw_sparse.c]), on the world of [Lifecycle] with the version counts of
    [VersionCount].

    While [scorw_exit] waits for the thread only the thread runs, so the wait is
    a run of the thread to its end; [Hang] if it has none. *)

From S2P Require Import Prelude Pages Friend GC VersionCount PageCopy Lifecycle Families.

(** ** State *)

(** The function pointers the module hands to the kernel; [true] is set. *)
Record hooks := Hooks {
  hk_is_par_inode : bool;
  hk_is_child_inode : bool;
  hk_get_child_i_attr_val : bool;
  hk_get_friend_attr_val : bool;
  hk_is_block_copied : bool;
  hk_find_page_copy : bool;
  hk_scorw_exit : bool;
  hk_is_child_file : bool;
  hk_is_par_file : bool;
  hk_unlink_child_file : bool;
  hk_unlink_par_file : bool
}.

(** The inodes and lists, [page_copy_thread] and whether there is a thread behind
    it, [stop_page_copy_thread], [last_process_time_jiffies] of the thread,
    whether the slab cache of page copies exists, [pending_log_sync_list] with
    the log inode of an entry (0 is NULL), the logs flushed and put, and the
    pointers. *)
Record mstate := MState {
  ms_w : lworld vworld;
  ms_thread : bool;
  ms_running : bool;
  ms_stop : Z;
  ms_last : Z;
  ms_slab : bool;
  ms_logs : list Z;
  ms_synced : list Z;
  ms_hooks : hooks
}.

Definition ms_set_w (s : mstate) (w : lworld vworld) : mstate :=
  MState w (ms_thread s) (ms_running s) (ms_stop s) (ms_last s) (ms_slab s) (ms_logs s) (ms_synced s) (ms_hooks s).
Definition ms_set_stop (s : mstate) (n : Z) : mstate :=
  MState (ms_w s) (ms_thread s) (ms_running s) n (ms_last s) (ms_slab s) (ms_logs s) (ms_synced s) (ms_hooks s).
Definition ms_set_last (s : mstate) (n : Z) : mstate :=
  MState (ms_w s) (ms_thread s) (ms_running s) (ms_stop s) n (ms_slab s) (ms_logs s) (ms_synced s) (ms_hooks s).
Definition ms_set_thread (s : mstate) (thread running slab : bool) : mstate :=
  MState (ms_w s) thread running (ms_stop s) (ms_last s) slab (ms_logs s) (ms_synced s) (ms_hooks s).

Section mount.
Context (io : io_env).
#[local] Instance attach_io : ChildAttach vworld := version_counts io.

(** What one turn of the thread does for the page copy at the head of the list;
    [PageCopy] has it. *)
Context (HZ : Z) (serve : lworld vworld -> outcome (lworld vworld)).

(** ** The page copy thread *)

(** [scorw_free_all_page_copy]: the head of the list is taken out, its reference
    to the parent given back, and its memory to the slab cache. *)
Fixpoint free_all_page_copy (fuel : nat) (slab : bool) (w : lworld vworld) : outcome (lworld vworld) :=
  match lw_copies w with
  | [] => Ok w
  | pc :: l =>
      match fuel with
      | O => Hang
      | S fuel =>
          w1 ← page_copy_done (lw_set_copies w l) (pc_par pc);
          _ ← BUG_ON (negb slab);
          free_all_page_copy fuel slab w1
      end
  end.
Definition free_copies (slab : bool) (w : lworld vworld) : outcome (lworld vworld) :=
  free_all_page_copy (length (lw_copies w)) slab w.

Definition timeout_jiffies : Z := 5 * HZ.
Definition time_after_eq (a b : Z) : bool := 0 <=? s64 (a - b).

(** A turn of [scorw_page_copy_thread_fn] after its wait: [now] is [jiffies]
    then, [after] is [jiffies] after a pass over the pending list.  The flag says
    whether the thread ended. *)
Definition thread_turn (now after : Z) (s : mstate) : outcome (mstate * bool) :=
  let w := ms_w s in
  if time_after_eq now (u64 (ms_last s + timeout_jiffies)) then
    v ← scorw_process_pending_frnd_version_cnt_inc_list false (lw_v w);
    Ok (ms_set_last (ms_set_w s (lw_set_v w v)) after, false)
  else if ms_stop s =? 1 then
    w' ← free_copies (ms_slab s) w;
    Ok (ms_set_stop (ms_set_w s w') 2, true)
  else
    w' ← serve w;
    Ok (ms_set_w s w', false).

(** The thread, turn by turn; [clock] gives [now] and [after] of each. *)
Fixpoint run_thread (fuel : nat) (clock : nat -> Z * Z) (s : mstate) : outcome mstate :=
  match fuel with
  | O => Hang
  | S fuel =>
      r ← thread_turn (clock O).1 (clock O).2 s;
      if (r.2 : bool) then Ok r.1 else run_thread fuel (fun n => clock (S n)) r.1
  end.

(** [scorw_page_copy_thread_init].  [cache] and [spawn] say whether the slab cache
    and the thread can be made; [kthread_run] does not return NULL when it
    fails. *)
Definition scorw_page_copy_thread_init (cache spawn : bool) (jiffies : Z) (s : mstate) : Z * mstate :=
  if negb cache then (-1, ms_set_thread s (ms_thread s) (ms_running s) false)
  else (0, ms_set_last (ms_set_thread s true spawn true) jiffies).

Definition scorw_page_copy_thread_exit (fuel : nat) (clock : nat -> Z * Z) (s : mstate) : outcome mstate :=
  s' ← (if ms_thread s then
          let s1 := ms_set_stop s 1 in
          s2 ← (if ms_running s then run_thread fuel clock s1 else Hang);
          Ok (ms_set_thread s2 false false (ms_slab s2))
        else Ok s);
  Ok (ms_set_thread s' (ms_thread s') (ms_running s') false).

(** ** The logs to sync *)

Definition scorw_process_pending_log_sync_list (s : mstate) : mstate :=
  MState (ms_w s) (ms_thread s) (ms_running s) (ms_stop s) (ms_last s) (ms_slab s) []
    (ms_synced s ++ filter (fun i => i <> 0) (ms_logs s)) (ms_hooks s).

(** ** Mount and unmount *)

Definition scorw_init (cache spawn : bool) (jiffies : Z) (s : mstate) : mstate :=
  let s1 := (scorw_page_copy_thread_init cache spawn jiffies s).2 in
  MState (ms_w s1) (ms_thread s1) (ms_running s1) (ms_stop s1) (ms_last s1) (ms_slab s1) (ms_logs s1) (ms_synced s1)
    (Hooks true true true true true true true true true true true).

Definition reset_hooks (h : hooks) : hooks :=
  Hooks (hk_is_par_inode h) (hk_is_child_inode h) (hk_get_child_i_attr_val h) (hk_get_friend_attr_val h) (hk_is_block_copied h)
    (hk_find_page_copy h) (hk_scorw_exit h) false false false false.

Definition scorw_exit (fuel : nat) (clock : nat -> Z * Z) (s : mstate) : outcome mstate :=
  s1 ← scorw_page_copy_thread_exit fuel clock s;
  w ← free_copies (ms_slab s1) (ms_w s1);
  v ← scorw_process_pending_frnd_version_cnt_inc_list true (lw_v w);
  let s2 := scorw_process_pending_log_sync_list (ms_set_w s1 (lw_set_v w v)) in
  Ok (MState (ms_w s2) (ms_thread s2) (ms_running s2) (ms_stop s2) (ms_last s2) (ms_slab s2) (ms_logs s2) (ms_synced s2)
        (reset_hooks (ms_hooks s2))).


(** ** Lemmas: what putting a scorw inode keeps *)

(** A property of the world that the steps of [scorw_put_inode] keep. *)
Record put_closed {V : Type} `{ChildAttach V} (I : lworld V -> Prop) : Prop := {
  pi_upd : forall w i f, I w -> I (lw_upd w i f);
  pi_frnd : forall w b, I w -> I (lw_set_frnd_lock w b);
  pi_list : forall w l, I w -> I (lw_set_list w l);
  pi_copies : forall w k, I w -> I (lw_set_copies w (clear_target k <$> lw_copies w));
  pi_counts : forall w c v, I w -> unprepare_child (lw_v w) c = Ok v -> I (lw_set_v w v)
}.

Section put_kept.
Context {V : Type} `{ChildAttach V} (I : lworld V -> Prop) (HI : put_closed I).

Ltac kept := repeat first [done|apply (pi_upd _ HI)|apply (pi_frnd _ HI)|apply (pi_list _ HI)|apply (pi_copies _ HI)].

Lemma for_each_kept (l : list Z) (f : Z -> lworld V -> outcome (lworld V)) w w' :
  (forall c w w', I w -> f c w = Ok w' -> I w') -> I w -> for_each l f w = Ok w' -> I w'.
Proof.
  intros Hf. revert w. induction l as [|c l IH]; intros w Hw Hr; cbn [for_each] in Hr; [by injection Hr as <-|].
  destruct (f c w) as [w1| |] eqn:E; cbn [mbind outcome_bind] in Hr; [|done..]. eauto.
Qed.

Lemma detach_kept w i s w' : I w -> detach_unlinked w i s = Ok w' -> I w'.
Proof.
  intros Hw. unfold detach_unlinked.
  assert (forall w p c, I w -> I (remove_child_attr w p c)) as Hrm
    by (intros; unfold remove_child_attr; destruct (list_find _ _) as [[]|]; [unfold remove_child_i_attr; by kept|done]).
  destruct (si_index s =? -1); cbn [mbind outcome_bind]; [intros [= <-]; auto|].
  destruct (scorw_find_inode w (si_par s)); cbn [mbind outcome_bind]; [|done]. intros [= <-]. apply Hrm. unfold upd_scorw. by kept.
Qed.

Lemma end_child_kept w i s w' : I w -> end_child w i s = Ok w' -> I w'.
Proof.
  intros Hw. unfold end_child. destruct (if si_unlinked s then detach_unlinked w i s else Ok w) as [w1| |] eqn:E; cbn [mbind outcome_bind]; [|done..].
  assert (I w1) as H1 by (destruct (si_unlinked s); [by eapply detach_kept|congruence]).
  set (w2 := set_version_attr _ _ _).
  assert (I w2) as H2 by (unfold w2, set_version_attr, scorw_child_copy_completion_cleanup; destruct (0 <? si_pending s); by kept).
  destruct (unprepare_child (lw_v w2) i) as [v| |] eqn:Eu; cbn [mbind outcome_bind]; [|done..]. intros [= <-]. kept. by eapply pi_counts.
Qed.

Lemma free_kept put w i is_child w' :
  (forall c w w', I w -> put c w = Ok w' -> I w') -> I w -> free_if_unused put w i is_child = Ok w' -> I w'.
Proof.
  intros Hput Hw. unfold free_if_unused. destruct (scorw_find_inode w i) as [s|]; [|done].
  destruct (_ && _); [|intros [= <-]; done].
  destruct (if is_child then end_child w i s else Ok w) as [w1| |] eqn:E; cbn [mbind outcome_bind]; [|done..].
  assert (I w1) as H1 by (destruct is_child; [by eapply end_child_kept|congruence]).
  destruct is_child; [intros [= <-]; by kept|].
  destruct (for_each _ _ _) as [w3| |] eqn:Ef; cbn [mbind outcome_bind]; [|done..]. intros [= <-].
  unfold scorw_unprepare_par_inode, set_version_attr. kept. eapply for_each_kept; [| |exact Ef]; [|by kept].
  intros c w4 w5 H4. cbv beta. destruct (c =? 0); [intros E5; congruence|]. destruct (scorw_find_inode w4 c); [eauto|done].
Qed.

Lemma put_kept fuel w i is_child thr ipp w' : I w -> scorw_put_inode fuel w i is_child thr ipp = Ok w' -> I w'.
Proof.
  revert w i is_child thr ipp w'. induction fuel as [|fuel IH]; intros w i is_child thr ipp w' Hw; [done|]. cbn [scorw_put_inode].
  destruct (if is_child then lock_frnd w else Ok w) as [w1| |] eqn:E1; cbn [mbind outcome_bind]; [|done..].
  assert (I w1) as H1.
  { destruct is_child; [|congruence]. unfold lock_frnd in E1. destruct (lw_frnd_lock w); [done|]. injection E1 as <-. by kept. }
  unfold lock_inode. destruct (lw_inodes w1 !! i) as [v|]; [|done]. destruct (vi_lock v); [done|]. cbn [mbind outcome_bind].
  set (w2 := lw_upd w1 i _). assert (I w2) as H2 by (unfold w2; by kept).
  match goal with |- (mbind _ ?m = _ -> _) => destruct m as [w3| |] eqn:E3 end; cbn [mbind outcome_bind]; [|done..].
  assert (I w3) as H3; [|intros [= <-]; destruct is_child; unfold unlock_inode; by kept].
  destruct (scorw_find_inode w2 i) as [s0|]; [|congruence].
  match type of E3 with (mbind _ ?m = _) => destruct m as [w4| |] eqn:E4 end; cbn [mbind outcome_bind] in E3; [|done..].
  eapply (free_kept (fun c w => scorw_put_inode fuel w c true false ipp) w4); [intros c w5 w6 H5; by apply IH| |exact E3].
  destruct thr; [injection E4 as <-; unfold upd_scorw, set_version_attr; by kept|].
  destruct (BUG_ON _); cbn [mbind outcome_bind] in E4; [|done..].
  destruct (_ && _ && _ && _); [|injection E4 as <-; unfold upd_scorw, set_version_attr; by kept].
  eapply IH; [|exact E4]. unfold upd_scorw, set_version_attr. by kept.
Qed.
End put_kept.

(** ** Lemmas: unmounting a family no file of which is open *)

#[local] Instance attach_io_ok : ChildAttachOk vworld := version_counts_ok io.

Definition attached_in (v : vworld) (d : Z) : bool := from_option has_scorw false (vw_c v !! d).

Lemma unprepare_counts w i w' :
  scorw_unprepare_child_inode w i = Ok w' ->
  vw_iter w' = vw_iter w /\ forall d, attached_in w' d = if decide (d = i) then false else attached_in w d.
Proof.
  unfold scorw_unprepare_child_inode, attached_in. destruct (vw_c w !! i) as [c|]; [|done]. destruct (vw_f w !! c_frnd_ino c) as [f|]; [|done].
  destruct (negb _); [|destruct (entry_found w i)]; intros [= <-]; (split; [done|]); intros d; cbn; rewrite lookup_insert; by repeat case_decide; subst.
Qed.

(** What closing a family does not touch: the counts stay in order, only its own
    children are attached, and the page copies stay in the list. *)
Definition untouched (cs : list Z) (it : Z) (pars : list Z) (w : lworld vworld) : Prop :=
  vw_wf (lw_v w) /\ vw_iter (lw_v w) = it /\ (forall d, d = 0 \/ d ∉ cs -> attached_in (lw_v w) d = false) /\ pc_par <$> lw_copies w = pars.

Lemma untouched_closed cs it pars : put_closed (untouched cs it pars).
Proof.
  split; try done.
  - intros w k (H1 & H2 & H3 & H4). split_and!; auto. cbn. by rewrite <- list_fmap_compose.
  - intros w c v (H1 & H2 & H3 & H4) Hu. destruct (unprepare_counts _ _ _ Hu) as [Hi Ha]. split_and!; cbn; auto.
    + unfold unprepare_child in Hu. cbn in Hu. destruct (vw_c (lw_v w) !! c) as [n|] eqn:En.
      * by eapply close_wf.
      * unfold scorw_unprepare_child_inode in Hu. by rewrite En in Hu.
    + congruence.
    + intros d Hd. rewrite Ha. case_decide; auto.
Qed.

Lemma lc_state_copies p cs r0 w st l : lc_state p cs r0 w st -> lc_state p cs r0 (lw_set_copies w l) st.
Proof.
  assert (forall pl sp att refs, lc_core p cs w pl sp att refs -> lc_core p cs (lw_set_copies w l) pl sp att refs) as Hcore by (intros ? ? ? ? []; by split).
  destruct st as [|u a r]; [apply Hcore|]. intros (s & Hc & Hrest). exists s. split; [by apply Hcore|done].
Qed.

(** Dropping the pending page copies of a closed parent closes the family. *)
Lemma free_all_spec n p cs r0 it w a r :
  family_shape p cs -> lc_state p cs r0 w (settle (Opened 0 a r)) -> a - r = Z.of_nat n -> untouched cs it (replicate n p) w ->
  exists w', free_all_page_copy n true w = Ok w' /\ lc_state p cs r0 w' Closed /\ untouched cs it [] w'.
Proof.
  intros Hsh. revert w r. induction n as [|n IH]; intros w r Hst Hn Hu.
  - assert (settle (Opened 0 a r) = Closed) as E by (cbn; by rewrite (proj2 (Z.eqb_eq a r)) by lia). rewrite E in Hst.
    exists w. destruct Hu as (? & ? & ? & Hc). cbn [replicate] in Hc. apply fmap_nil_inv in Hc as Hc'. cbn [free_all_page_copy]. rewrite Hc'. split_and!; auto. by split_and!.
  - assert (settle (Opened 0 a r) = Opened 0 a r) as E by (cbn; by rewrite (proj2 (Z.eqb_neq a r)) by lia). rewrite E in Hst.
    destruct Hu as (H1 & H2 & H3 & Hc). cbn [replicate] in Hc. apply fmap_cons_inv in Hc as (pc & l & Ep & Hl & Ec). cbn [free_all_page_copy]. rewrite Ec, <- Ep.
    destruct (put_par_spec 1 false p cs r0 (lw_set_copies w l) 0 a r true Hsh) as (w1 & Hw1 & _ & Hst1); [by apply lc_state_copies|done|].
    unfold page_copy_done, put_depth. rewrite Hw1. cbn [mbind outcome_bind negb BUG_ON].
    assert (untouched cs it (replicate n p) w1) as Hu1.
    { eapply (put_kept _ (untouched_closed cs it _)); [|exact Hw1]. by split_and!. }
    destruct (IH w1 (r + 1)) as (w' & Hw' & Hst' & Hu'); auto; [lia|]. eauto.
Qed.

(** A pass over the pending list while the family is open. *)
Lemma pass_openable v v' :
  vw_wf v -> vw_iter v < 2 ^ 64 - 1 -> scorw_process_pending_frnd_version_cnt_inc_list false v = Ok v' ->
  vw_wf v' /\ vw_iter v' = vw_iter v + 1 /\ (forall d, attached_in v' d = attached_in v d) /\ forall d, openable io v d -> openable io v' d.
Proof.
  intros Hw Hit Hok. assert (vw_wf v') as Hw' by (eapply pass_wf; eauto; done).
  destruct (process_list_spec false v Hw Hit) as (v1 & Hok' & H1 & H2 & H3 & _ & H5); [done|].
  rewrite Hok' in Hok. injection Hok as ->.
  assert (forall d c f, vw_c v !! d = Some c -> vw_f v !! c_frnd_ino c = Some f ->
    exists c' f', vw_c v' !! d = Some c' /\ vw_f v' !! c_frnd_ino c = Some f' /\
      ((c' = c /\ f' = f) \/ (c' = (verdict false c f).1.1 /\ f' = (verdict false c f).1.2))) as Hall.
  { intros d c f Hc Hf. destruct (decide (d ∈ rq_child <$> vw_pending v)) as [Hin|Hin].
    - apply list_elem_of_fmap_1 in Hin as (r & -> & Hr). destruct (vf_req _ Hw r Hr) as (c0 & Hc0 & Hcf & _).
      rewrite Hc in Hc0. injection Hc0 as <-. rewrite Hcf in Hf |- *. destruct (H1 r c f Hr Hc Hf) as [Ha Hb]. eauto 10.
    - exists c, f. rewrite H2, H3; auto. intros Hinf. apply list_elem_of_fmap_1 in Hinf as (r & Ef & Hr).
      destruct (vf_req _ Hw r Hr) as (c0 & Hc0 & Hcf & _). apply Hin. replace d with (rq_child r); [by apply list_elem_of_fmap_2|].
      eapply (vf_inj _ Hw); eauto. congruence. }
  split_and!; auto.
  - intros d. unfold attached_in. destruct (vw_c v !! d) as [c|] eqn:Hc.
    + destruct (vf_frnd _ Hw _ _ Hc) as [f Hf]. destruct (Hall d c f Hc Hf) as (c' & f' & -> & _ & [[-> _]|[-> _]]); [done|]. apply (verdict_scorw false).
    + destruct (vw_c v' !! d) as [c'|] eqn:Hc'; [|done]. destruct (process_list_children false v v' Hw H1 H2 d c' Hc') as (c & Hcc & _). congruence.
  - intros d [_ (c & f & Hc & Hf & Hu)]. split; [done|]. destruct (Hall d c f Hc Hf) as (c' & f' & Hc' & Hf' & Hcase).
    exists c', f'. split; [done|]. destruct Hcase as [[-> ->]|[-> ->]]; [done|]. rewrite verdict_frnd. split; [done|].
    pose proof (vf_version _ Hw _ _ Hc). unfold verdict. destruct (has_scorw c); [exact Hu|]. destruct (_ || _); [exact Hu|].
    right. cbn. split_and!; auto; lia.
Qed.

Lemma lc_state_counts p cs r0 w st v' :
  (forall d, attached_in v' d = attached_in (lw_v w) d) -> (forall d, openable io (lw_v w) d -> openable io v' d) ->
  lc_state p cs r0 w st -> lc_state p cs r0 (lw_set_v w v') st.
Proof.
  intros Ha Ho Hst. assert (forall pl sp att refs, lc_core p cs w pl sp att refs -> lc_core p cs (lw_set_v w v') pl sp att refs) as Hcore.
  { intros pl sp att refs [H1 H2 H3]. split; auto. intros k c Hk Hc. destruct (H2 k c Hk Hc) as (x & ? & ? & ? & ? & ? & Hx & Hr).
    exists x. do 5 (split; [done|]). split; [change (attached_in v' c = att k); by rewrite Ha|by apply Ho]. }
  destruct st as [|u a r]; [by apply Hcore|]. destruct Hst as (s & Hc & Hrest). exists s. split; [by apply Hcore|done].
Qed.

(** The thread ends after it was told to stop: at once, or after the pass over
    the pending list that was due. *)
Definition on_time (clock : nat -> Z * Z) (s : mstate) : Prop :=
  time_after_eq (clock 0%nat).1 (u64 (ms_last s + timeout_jiffies)) = false \/
  time_after_eq (clock 1%nat).1 (u64 ((clock 0%nat).2 + timeout_jiffies)) = false.

Lemma run_thread_spec p cs r0 clock s a r n :
  family_shape p cs -> ms_stop s = 1 -> ms_slab s = true -> on_time clock s ->
  lc_state p cs r0 (ms_w s) (settle (Opened 0 a r)) -> a - r = Z.of_nat n -> vw_iter (lw_v (ms_w s)) < 2 ^ 64 - 2 ->
  untouched cs (vw_iter (lw_v (ms_w s))) (replicate n p) (ms_w s) ->
  exists w' last, run_thread 2 clock s =
      Ok (ms_set_last (ms_set_stop (ms_set_w s w') 2) last) /\
    lc_state p cs r0 w' Closed /\ exists it, it < 2 ^ 64 - 1 /\ untouched cs it [] w'.
Proof.
  intros Hsh Hstop Hslab Htime Hst Hn Hit Hu.
  assert (forall w it, lc_state p cs r0 w (settle (Opened 0 a r)) -> untouched cs it (replicate n p) w ->
    exists w', free_copies true w = Ok w' /\ lc_state p cs r0 w' Closed /\ untouched cs it [] w') as Hfree.
  { intros w it Hw Huw. unfold free_copies. assert (length (lw_copies w) = n) as ->.
    { destruct Huw as (_ & _ & _ & Hc). apply (f_equal length) in Hc. by rewrite length_fmap, length_replicate in Hc. }
    by eapply free_all_spec. }
  cbn [run_thread]. unfold thread_turn. destruct (time_after_eq (clock 0%nat).1 (u64 (ms_last s + timeout_jiffies))) eqn:E0.
  - destruct Htime as [Ht|Ht]; [congruence|]. destruct Hu as (H1 & _ & H3 & H4).
    destruct (process_list_spec false (lw_v (ms_w s)) H1) as (v' & Hv & _ & _ & _ & _ & Hi'); [lia|done|].
    rewrite Hv. cbn [mbind outcome_bind fst snd]. cbn [ms_set_last ms_set_w ms_last ms_stop ms_w ms_slab].
    destruct (pass_openable _ _ H1 ltac:(lia) Hv) as (Hw' & _ & Ha & Ho). rewrite Ht, Hstop, Hslab. change (1 =? 1) with true. cbv iota.
    destruct (Hfree (lw_set_v (ms_w s) v') (vw_iter v')) as (w' & Ew & Hst' & Hu'); [by apply lc_state_counts|by split_and!; auto; intros d Hd; rewrite Ha; auto|].
    rewrite Ew. cbn [mbind outcome_bind fst snd]. exists w', (clock 0%nat).2. split; [done|]. split; [done|]. exists (vw_iter v'). split; [lia|done].
  - rewrite Hstop, Hslab. change (1 =? 1) with true. cbv iota. destruct (Hfree _ _ Hst Hu) as (w' & Ew & Hst' & Hu').
    rewrite Ew. cbn [mbind outcome_bind fst snd]. exists w', (ms_last s). split; [by destruct s|]. split; [done|]. eexists. split; [|exact Hu']. lia.
Qed.

End mount.

(** ** Properties *)

(** C12: Unmounting after every file of a family was closed returns, whatever
    page copies are still pending, provided a pass over the pending list is not
    followed by another five seconds before the thread looks at its flag: the
    thread ends, no page copy and no scorw inode of the family is left, every
    request to bring a friend up to date is done, and every log waiting to be
    synced has been. *)
Theorem unmount_completes (io : io_env) (HZ : Z) (serve : lworld vworld -> outcome (lworld vworld)) (p : Z) (cs : list Z) (r0 : Z)
    (clock : nat -> Z * Z) (s : mstate) (a r : Z) (n : nat) :
  family_shape p cs -> ms_thread s = true -> ms_running s = true -> ms_slab s = true -> on_time HZ clock s ->
  @lc_state vworld (version_counts io) (version_counts_ok io) p cs r0 (ms_w s) (settle (Opened 0 a r)) -> a - r = Z.of_nat n ->
  vw_iter (lw_v (ms_w s)) < 2 ^ 64 - 2 -> untouched cs (vw_iter (lw_v (ms_w s))) (replicate n p) (ms_w s) ->
  exists s', scorw_exit io HZ serve 2 clock s = Ok s' /\ ms_thread s' = false /\ ms_running s' = false /\ ms_stop s' = 2 /\
    lw_copies (ms_w s') = [] /\ (forall i, i <> 0 -> i ∈ p :: cs -> scorw_find_inode (ms_w s') i = None) /\
    vw_pending (lw_v (ms_w s')) = [] /\
    (forall i c, vw_c (lw_v (ms_w s')) !! i = Some c -> cannot_update_child_version_cnt c = false) /\
    ms_logs s' = [] /\ (forall i, i <> 0 -> i ∈ ms_logs s -> i ∈ ms_synced s').
Proof.
  intros Hsh Ht Hrun Hslab Htime Hst Hn Hit Hu. unfold scorw_exit, scorw_page_copy_thread_exit. rewrite Ht, Hrun.
  destruct (run_thread_spec io HZ serve p cs r0 clock (ms_set_stop s 1) a r n) as (w' & last & Hr & Hst' & it & Hit' & Hu'); auto.
  rewrite Hr. cbn [mbind outcome_bind ms_set_thread ms_w ms_slab ms_set_last ms_set_stop ms_set_w].
  destruct Hu' as (Hw & Hi & Ha & Hc). apply fmap_nil_inv in Hc as Hc'. unfold free_copies. rewrite Hc'. cbn [length free_all_page_copy]. rewrite Hc'.
  cbn [mbind outcome_bind]. pose proof Hst' as [(vp & Hp & _ & Hps & _) Hkids _].
  destruct (unmount_pass (lw_v w') Hw) as (v & Hv & Hpend & Hflag); [lia| |].
  { intros i c Hic. assert (attached_in (lw_v w') i = false) as Hat; [|by unfold attached_in in Hat; rewrite Hic in Hat].
    destruct (decide (i = 0 \/ i ∉ cs)) as [Hout|Hin]; [by apply Ha|].
    destruct (decide (i ∈ cs)) as [Hics|]; [|tauto]. apply list_elem_of_lookup in Hics as [k Hk].
    destruct (Hkids k i Hk) as (x & _ & _ & _ & _ & _ & Hx & _); [tauto|done]. }
  rewrite Hv. cbn [mbind outcome_bind]. eexists. split; [done|]. cbn. rewrite Hc'. split_and!; auto.
  - intros i Hi0 Hin. apply elem_of_cons in Hin as [->|Hin]; unfold scorw_find_inode; cbn; [by rewrite Hp|].
    apply list_elem_of_lookup in Hin as [k Hk]. destruct (Hkids k i Hk Hi0) as (x & -> & _ & _ & _ & Hx & _). done.
  - intros i c Hic. by apply (Hflag i c).
  - intros i Hi0 Hin. apply elem_of_app. right. apply list_elem_of_filter. done.
Qed.

(** A mount whose page copy thread cannot be started cannot be unmounted:
    the start takes the error pointer of [kthread_run] for a thread, and
    [scorw_exit] waits for it to end. *)
Theorem failed_start_blocks_unmount (io : io_env) (HZ : Z) (serve : lworld vworld -> outcome (lworld vworld)) (fuel : nat)
    (clock : nat -> Z * Z) (jiffies : Z) (s : mstate) :
  (scorw_page_copy_thread_init true false jiffies s).1 = 0 /\
  scorw_exit io HZ serve fuel clock (scorw_init true false jiffies s) = Hang.
Proof. done. Qed.


Lemma run_thread_hooks io HZ serve fuel clock s s' : run_thread io HZ serve fuel clock s = Ok s' -> ms_hooks s' = ms_hooks s.
Proof.
  revert clock s. induction fuel as [|fuel IH]; intros clock s Hr; [done|]. cbn [run_thread] in Hr. inv_Ok. destruct a as [s1 b]. cbn [fst snd] in *.
  assert (ms_hooks s1 = ms_hooks s) as <-.
  { unfold thread_turn in E. destruct (time_after_eq _ _); [|destruct (ms_stop s =? 1)]; inv_Ok; simplify_eq; done. }
  destruct b; [by simplify_eq|by eapply IH].
Qed.

(** Unmounting resets four of the pointers; the one the writeback of the page
    cache tests stays set. *)
Theorem exit_leaves_pointers io HZ serve fuel clock s s' :
  scorw_exit io HZ serve fuel clock s = Ok s' -> ms_hooks s' = reset_hooks (ms_hooks s) /\
  hk_is_par_inode (ms_hooks s') = hk_is_par_inode (ms_hooks s).
Proof.
  intros He. assert (ms_hooks s' = reset_hooks (ms_hooks s)) as ->; [|done]. unfold scorw_exit in He. inv_Ok. cbn. f_equal.
  unfold scorw_page_copy_thread_exit in E. inv_Ok. cbn. destruct (ms_thread s); [|by simplify_eq]. destruct (ms_running s); [|done].
  inv_Ok. cbn. match goal with H : run_thread _ _ _ _ _ _ = _ |- _ => apply run_thread_hooks in H; rewrite H end. done.
Qed.

(** ** Witnesses *)

(** Parent 11 was opened, written, so that a page copy is pending, and closed; the
    log 15 waits to be synced. *)
Definition pending_copy : page_copy := PageCopy 0 11 None (replicate 64 true).
Definition demo_mount (w : lworld vworld) : mstate :=
  MState (lw_set_copies w [pending_copy]) true true 0 0 true [0; 15] [] (Hooks true true true true true true true true true true true).

Lemma demo_closed : exists w, @run_ops vworld (version_counts io_ok) demo_env 11 [LOpen 11; LCopy; LClose 11 false] demo_world = Ok w /\
  @lc_state vworld (version_counts io_ok) (version_counts_ok io_ok) 11 demo_slots 0 w (Opened 0 1 0) /\ vw_iter (lw_v w) = 1 /\
  untouched demo_slots 1 [11] (lw_set_copies w [pending_copy]).
Proof.
  destruct (@ops_simulated vworld (version_counts io_ok) (version_counts_ok io_ok) demo_env 11 demo_slots 0 [LOpen 11; LCopy; LClose 11 false]
    demo_world (Closed, fun _ => 0) (Opened 0 1 0, bump (bump (fun _ => 0) 11 1) 11 (-1))) as (w & Hw & Hst & _);
    [exact demo_env_ok|done|exact demo_shape|split; [done|by vm_compute]|exact demo_state|exact demo_files|by vm_compute|].
  exists w. split; [exact Hw|]. split; [exact Hst|].
  assert (match @run_ops vworld (version_counts io_ok) demo_env 11 [LOpen 11; LCopy; LClose 11 false] demo_world with
    | Ok w => (vw_iter (lw_v w), has_scorw <$> vw_c (lw_v w)) | _ => (0, ∅) end = (1, {[12 := true; 14 := false]})) as Hc by (vm_compute; reflexivity).
  rewrite Hw in Hc. injection Hc as Hi Hc. split; [done|]. destruct Hst as (s & Hcore & _).
  destruct (lc_kids _ _ _ _ _ _ _ Hcore O 12 eq_refl ltac:(done)) as (x & _ & _ & _ & _ & _ & _ & [Hwf _]).
  split_and!; [exact Hwf|exact Hi| |done]. intros d Hd. unfold attached_in.
  assert (from_option (fun b : bool => b) false (has_scorw <$> vw_c (lw_v w) !! d) = false) as Hf; [|by cbn; destruct (vw_c (lw_v w) !! d)].
  rewrite <- lookup_fmap. change (lw_v (lw_set_copies w _)) with (lw_v w). rewrite Hc, lookup_insert. case_decide as H12.
  - subst. exfalso. destruct Hd as [|Hd]; [done|]. apply Hd. by left.
  - destruct (decide (d = 14)) as [->|]; [done|]. by rewrite lookup_singleton_ne.
Qed.

Lemma unmount_completes_witness : exists w s',
  scorw_exit io_ok 250 (fun w => Ok w) 2 (fun n => if Nat.eqb n 0 then (5000, 5001) else (5002, 5002)) (demo_mount w) = Ok s' /\ ms_thread s' = false /\
  lw_copies (ms_w s') = [] /\ 15 ∈ ms_synced s'.
Proof.
  destruct demo_closed as (w & _ & Hst & Hi & Hu). exists w.
  destruct (unmount_completes io_ok 250 (fun w => Ok w) 11 demo_slots 0 (fun n => if Nat.eqb n 0 then (5000, 5001) else (5002, 5002)) (demo_mount w) 1 0 1)
    as (s' & H1 & H2 & _ & _ & H5 & _ & _ & _ & _ & H10).
  - exact demo_shape.
  - reflexivity.
  - reflexivity.
  - reflexivity.
  - right. vm_compute. reflexivity.
  - apply lc_state_copies. exact Hst.
  - reflexivity.
  - change (vw_iter (lw_v w) < 2 ^ 64 - 2). rewrite Hi. lia.
  - change (untouched demo_slots (vw_iter (lw_v w)) [11] (lw_set_copies w [pending_copy])). rewrite Hi. exact Hu.
  - exists s'. split_and!; [exact H1|exact H2|exact H5|]. apply H10; [lia|]. right. left.
Defined.
