(* ===== verification/ExtStatus.v ===== *)
(** The extent status tree of an inode ([extents_status.c], [extents_status.h]):
    what ext4 knows of the blocks of a file, which the recovery of a friend file
    reads.  This file has extents, the tree, the searches in it, and what a tree
    says of a block ([block_map]); the operations that change it are in
    [ExtInsert], [ExtRemove] and [ExtOps].

    A node of the tree is an [extent_status]; a pointer to a node is the first
    block of its extent.  The red-black tree of the kernel decides the shape a
    tree has after a node was linked or erased: [RbTree].  Whether memory for a
    node can be had without waiting is an argument of the operations. *)

From stdpp Require Import sorting.
From S2P Require Import Prelude Pages Friend.

(** ** Extents *)

Definition EXTENT_STATUS_REFERENCED : Z := 16.
Definition ES_TYPE_MASK : Z := 15.
Definition ES_MASK : Z := Z.shiftl 31 ES_SHIFT.
Definition EXT_MAX_BLOCKS : Z := 4294967295.

Definition ext4_es_type (es : extent_status) : Z := Z.land (Z.shiftr (es_pblk es) ES_SHIFT) ES_TYPE_MASK.
Definition ext4_es_is_written (es : extent_status) : bool := negb (Z.land (ext4_es_type es) EXTENT_STATUS_WRITTEN =? 0).
Definition ext4_es_is_unwritten (es : extent_status) : bool := negb (Z.land (ext4_es_type es) EXTENT_STATUS_UNWRITTEN =? 0).
Definition ext4_es_is_delayed (es : extent_status) : bool := negb (Z.land (ext4_es_type es) EXTENT_STATUS_DELAYED =? 0).
Definition ext4_es_is_hole (es : extent_status) : bool := negb (Z.land (ext4_es_type es) EXTENT_STATUS_HOLE =? 0).
Definition ext4_es_is_mapped (es : extent_status) : bool := ext4_es_is_written es || ext4_es_is_unwritten es.
Definition ext4_es_is_referenced (es : extent_status) : bool := negb (Z.land (ext4_es_status es) EXTENT_STATUS_REFERENCED =? 0).
Definition ext4_es_pblock (es : extent_status) : Z := Z.land (es_pblk es) (Z.ones ES_SHIFT).

Definition ext4_es_set_referenced (es : extent_status) : extent_status :=
  ExtentStatus (es_lblk es) (es_len es) (Z.lor (es_pblk es) (Z.shiftl EXTENT_STATUS_REFERENCED ES_SHIFT)).
Definition ext4_es_clear_referenced (es : extent_status) : extent_status :=
  ExtentStatus (es_lblk es) (es_len es) (Z.land (es_pblk es) (u64 (Z.lnot (Z.shiftl EXTENT_STATUS_REFERENCED ES_SHIFT)))).
Definition ext4_es_store_pblock (es : extent_status) (pb : Z) : extent_status :=
  ExtentStatus (es_lblk es) (es_len es) (Z.lor (Z.land pb (Z.ones ES_SHIFT)) (Z.land (es_pblk es) ES_MASK)).

Definition es_set_range (es : extent_status) (lblk len : Z) : extent_status := ExtentStatus lblk len (es_pblk es).
Definition es_grow (es : extent_status) (n : Z) : extent_status := ExtentStatus (es_lblk es) (u32 (es_len es + n)) (es_pblk es).

Definition ext4_es_end (es : extent_status) : outcome Z :=
  _ ← BUG_ON (u32 (es_lblk es + es_len es) <? es_lblk es);
  Ok (u32 (es_lblk es + es_len es - 1)).

(** An entry that has to be kept. *)
Definition ext4_es_must_keep (es : extent_status) : bool := ext4_es_is_delayed es.

Definition ext4_es_can_be_merged (es1 es2 : extent_status) : bool :=
  if negb (ext4_es_type es1 =? ext4_es_type es2) then false
  else if EXT_MAX_BLOCKS <? es_len es1 + es_len es2 then false
  else if negb (es_lblk es1 + es_len es1 =? es_lblk es2) then false
  else if (ext4_es_is_written es1 || ext4_es_is_unwritten es1) && (u64 (ext4_es_pblock es1 + es_len es1) =? ext4_es_pblock es2) then true
  else if ext4_es_is_hole es1 then true
  else ext4_es_is_delayed es1.

(** ** The tree *)

Inductive es_tree := Leaf | Node (l : es_tree) (e : extent_status) (r : es_tree).
Fixpoint inorder (t : es_tree) : list extent_status :=
  match t with Leaf => [] | Node l e r => inorder l ++ e :: inorder r end.

Fixpoint tree_map (f : extent_status -> extent_status) (t : es_tree) : es_tree :=
  match t with Leaf => Leaf | Node l e r => Node (tree_map f l) (f e) (tree_map f r) end.

(** The shape the red-black tree [t] has when its nodes are made to be those of
    the list. *)
Class RbTree := rb_shape : es_tree -> list extent_status -> es_tree.
Class RbTreeOk `{RbTree} := rb_shape_inorder t l : inorder (rb_shape t l) = l.

(** Nodes in order: the one at a block, its neighbours, changing and erasing it,
    linking a new one. *)
Definition node_at (l : list extent_status) (k : Z) : option extent_status := snd <$> list_find (fun e => es_lblk e = k) l.
Fixpoint rb_next (l : list extent_status) (k : Z) : option extent_status :=
  match l with [] => None | e :: l => if es_lblk e =? k then head l else rb_next l k end.
Definition rb_prev (l : list extent_status) (k : Z) : option extent_status := rb_next (reverse l) k.
Definition rb_erase (l : list extent_status) (k : Z) : list extent_status := filter (fun e => es_lblk e <> k) l.
Fixpoint rb_link (l : list extent_status) (n : extent_status) : list extent_status :=
  match l with [] => [n] | e :: l' => if es_lblk n <? es_lblk e then n :: l else e :: rb_link l' n end.
(** The nodes from the one at [k] on, and those up to it, last first. *)
Fixpoint nodes_from (l : list extent_status) (k : Z) : list extent_status :=
  match l with [] => [] | e :: l' => if es_lblk e =? k then l else nodes_from l' k end.
Definition nodes_before (l : list extent_status) (k : Z) : list extent_status := nodes_from (reverse l) k.

(** The part of the inode the tree belongs to: the tree, the node last used, the
    numbers of nodes and of those that may be dropped, whether the inode is in
    the list of the shrinker, where the shrinker goes on, and the clusters with a
    pending reservation. *)
Record es_info := EsInfo {
  es_root : es_tree;
  cache_es : option Z;
  i_es_all_nr : Z;
  i_es_shk_nr : Z;
  i_es_listed : bool;
  i_es_shrink_lblk : Z;
  i_pending : gset Z
}.
(** The file system: [s_cluster_bits], delayed allocation, replay of the fast
    commit log. *)
Record es_sb := EsSb { s_cluster_bits : Z; s_delalloc : bool; s_fc_replay : bool }.
Definition s_cluster_ratio (sb : es_sb) : Z := 2 ^ s_cluster_bits sb.

Definition nodes (i : es_info) : list extent_status := inorder (es_root i).
Definition set_root (i : es_info) (t : es_tree) : es_info :=
  EsInfo t (cache_es i) (i_es_all_nr i) (i_es_shk_nr i) (i_es_listed i) (i_es_shrink_lblk i) (i_pending i).
(** A change of one node in place. *)
Definition set_node (i : es_info) (k : Z) (f : extent_status -> extent_status) : es_info :=
  set_root i (tree_map (fun e => if es_lblk e =? k then f e else e) (es_root i)).
Definition set_cache (i : es_info) (c : option Z) : es_info :=
  EsInfo (es_root i) c (i_es_all_nr i) (i_es_shk_nr i) (i_es_listed i) (i_es_shrink_lblk i) (i_pending i).
Definition set_counts (i : es_info) (all shk : Z) (listed : bool) : es_info :=
  EsInfo (es_root i) (cache_es i) all shk listed (i_es_shrink_lblk i) (i_pending i).
Definition set_shrink (i : es_info) (b : Z) : es_info :=
  EsInfo (es_root i) (cache_es i) (i_es_all_nr i) (i_es_shk_nr i) (i_es_listed i) b (i_pending i).
Definition set_pending (i : es_info) (s : gset Z) : es_info :=
  EsInfo (es_root i) (cache_es i) (i_es_all_nr i) (i_es_shk_nr i) (i_es_listed i) (i_es_shrink_lblk i) s.

(** ** Searching *)

(** The descent: whether it hit an extent that holds the block, and the last
    node seen. *)
Fixpoint es_walk (t : es_tree) (lblk : Z) (last : option extent_status) : outcome (bool * option extent_status) :=
  match t with
  | Leaf => Ok (false, last)
  | Node l e r =>
      if lblk <? es_lblk e then es_walk l lblk (Some e)
      else
        end_ ← ext4_es_end e;
        if end_ <? lblk then es_walk r lblk (Some e) else Ok (true, Some e)
  end.

Definition __es_tree_search (t : es_tree) (lblk : Z) : outcome (option extent_status) :=
  r ← es_walk t lblk None;
  match r with
  | (true, e) => Ok e
  | (false, None) => Ok None
  | (false, Some e) =>
      if lblk <? es_lblk e then Ok (Some e)
      else end_ ← ext4_es_end e; Ok (if end_ <? lblk then rb_next (inorder t) (es_lblk e) else None)
  end.

Definition in_range (b : Z) (es : extent_status) : bool := (es_lblk es <=? b) && (b <? es_lblk es + es_len es).

(** The cached node, if it holds the block. *)
Definition cached (i : es_info) (lblk : Z) : option extent_status :=
  es ← (cache_es i ≫= node_at (nodes i)); if in_range lblk es then Some es else None.

(** The loop of [__es_find_extent_range] over the nodes that follow. *)
Fixpoint find_match (matching_fn : extent_status -> bool) (end_ : Z) (l : list extent_status) (es1 : extent_status) : option extent_status :=
  match l with
  | [] => Some es1
  | e :: l => if end_ <? es_lblk e then None else if matching_fn e then Some e else find_match matching_fn end_ l e
  end.

Definition __es_find_extent_range (i : es_info) (matching_fn : extent_status -> bool) (lblk end_ : Z)
    : outcome (option extent_status * es_info) :=
  found ← (match cached i lblk with Some es => Ok (Some es) | None => __es_tree_search (es_root i) lblk end);
  let es1 := es ← found; if matching_fn es then Some es else find_match matching_fn end_ (tail (nodes_from (nodes i) (es_lblk es))) es in
  match es1 with
  | Some es => if matching_fn es then Ok (Some es, set_cache i (Some (es_lblk es))) else Ok (None, i)
  | None => Ok (None, i)
  end.

Definition __es_scan_range (i : es_info) (matching_fn : extent_status -> bool) (start end_ : Z) : outcome (bool * es_info) :=
  r ← __es_find_extent_range i matching_fn start end_;
  Ok (match r.1 with
      | None => false
      | Some es =>
          if es_len es =? 0 then false
          else if (es_lblk es <=? start) && (start <? u32 (es_lblk es + es_len es)) then true
          else (start <=? es_lblk es) && (es_lblk es <=? end_)
      end, r.2).

Definition EXT4_B2C (sb : es_sb) (b : Z) : Z := Z.shiftr b (s_cluster_bits sb).
Definition EXT4_LBLK_CMASK (sb : es_sb) (b : Z) : Z := Z.ldiff b (s_cluster_ratio sb - 1).
Definition EXT4_LBLK_CFILL (sb : es_sb) (b : Z) : Z := Z.lor b (s_cluster_ratio sb - 1).
Definition EXT4_LBLK_COFF (sb : es_sb) (b : Z) : Z := Z.land b (s_cluster_ratio sb - 1).

Definition __es_scan_clu (sb : es_sb) (i : es_info) (matching_fn : extent_status -> bool) (lblk : Z) : outcome (bool * es_info) :=
  let lblk_start := EXT4_LBLK_CMASK sb lblk in
  __es_scan_range i matching_fn lblk_start (u32 (lblk_start + s_cluster_ratio sb - 1)).

(** Looking up a block: the extent found and, if asked for, the first block of
    the next extent; the extent is marked as referenced. *)
Definition ext4_es_lookup_extent (sb : es_sb) (i : es_info) (lblk : Z) : outcome (option (extent_status * Z) * es_info) :=
  if s_fc_replay sb then Ok (None, i)
  else
    found ← (match cached i lblk with
             | Some es => Ok (Some es)
             | None => r ← es_walk (es_root i) lblk None; Ok (if (r.1 : bool) then r.2 else None)
             end);
    match found with
    | None => Ok (None, i)
    | Some es =>
        let i' := if ext4_es_is_referenced es then i else set_node i (es_lblk es) ext4_es_set_referenced in
        Ok (Some (es, from_option es_lblk 0 (rb_next (nodes i) (es_lblk es))), i')
    end.

(** * Lemmas *)

(** ** The bits of [es_pblk] *)

Lemma shift59 n : 0 <= n -> (n + 59 <? 59) = false.
Proof. intros. apply Z.ltb_ge. lia. Qed.

Lemma es_mask_bit n : 0 <= n -> Z.testbit ES_MASK n = (59 <=? n) && (n <? 64).
Proof.
  intros Hn. unfold ES_MASK. rewrite Z.shiftl_spec by done. change 31 with (Z.ones 5). unfold ES_SHIFT.
  destruct (Z.leb_spec 59 n).
  - rewrite Z.testbit_ones_nonneg by lia. destruct (Z.ltb_spec (n - 59) 5), (Z.ltb_spec n 64); lia || done.
  - rewrite Z.testbit_neg_r by lia. done.
Qed.

Ltac es_bits :=
  unfold ext4_es_pblock, ext4_es_type, ext4_es_store_pblock, ext4_es_set_referenced, ext4_es_clear_referenced, ext4_es_store_pblock_status;
  cbn [es_pblk es_lblk es_len];
  apply Z.bits_inj'; intros n Hn;
  unfold u64, wrap; change ES_TYPE_MASK with (Z.ones 4); change EXTENT_STATUS_REFERENCED with (Z.shiftl 1 4);
  repeat first
    [ rewrite Z.land_spec | rewrite Z.lor_spec | rewrite Z.shiftr_spec by lia | rewrite Z.shiftl_spec by lia
    | rewrite es_mask_bit by (unfold ES_SHIFT; lia) | rewrite Z.testbit_ones_nonneg by (unfold ES_SHIFT; lia)
    | rewrite Z.mod_pow2_bits_high by (unfold ES_SHIFT; lia)
    | rewrite Z.mod_pow2_bits_low by (unfold ES_SHIFT; lia)
    | rewrite testbit_single by (unfold ES_SHIFT; lia) | rewrite Z.lnot_spec by (unfold ES_SHIFT; lia) ];
  unfold ES_SHIFT.

Lemma pblock_store es pb : ext4_es_pblock (ext4_es_store_pblock es pb) = Z.land pb (Z.ones ES_SHIFT).
Proof. es_bits. destruct (Z.ltb_spec n 59), (Z.leb_spec 59 n); try lia; by rewrite ?andb_true_r, ?andb_false_r, ?orb_false_r. Qed.
Lemma type_store es pb : ext4_es_type (ext4_es_store_pblock es pb) = ext4_es_type es.
Proof.
  es_bits. rewrite shift59 by done. destruct (Z.leb_spec 59 (n + 59)); [|lia].
  destruct (Z.ltb_spec (n + 59) 64), (Z.ltb_spec n 4); try lia; by rewrite ?andb_false_r, ?andb_true_r, ?orb_false_l.
Qed.
Lemma pblock_referenced es : ext4_es_pblock (ext4_es_set_referenced es) = ext4_es_pblock es.
Proof.
  es_bits. destruct (Z.ltb_spec n 59); [|by rewrite !andb_false_r].
  rewrite (Z.testbit_neg_r _ (n - 59)) by lia. by rewrite orb_false_r.
Qed.
Lemma type_referenced es : ext4_es_type (ext4_es_set_referenced es) = ext4_es_type es.
Proof.
  es_bits. destruct (Z.ltb_spec n 4); [|by rewrite !andb_false_r].
  rewrite !Z.shiftl_spec, (Z.testbit_neg_r _ (n + 59 - 59 - 4)) by lia. by rewrite orb_false_r.
Qed.

(** The mask of [ext4_es_clear_referenced]. *)
Lemma clear_mask_bit n : 0 <= n ->
  Z.testbit (u64 (Z.lnot (Z.shiftl EXTENT_STATUS_REFERENCED ES_SHIFT))) n = (n <? 64) && negb (n =? 63).
Proof.
  intros Hn. unfold u64, wrap, EXTENT_STATUS_REFERENCED, ES_SHIFT. change (Z.shiftl 16 59) with (Z.shiftl 1 63).
  destruct (Z.ltb_spec n 64); [|by rewrite Z.mod_pow2_bits_high by lia].
  rewrite Z.mod_pow2_bits_low, Z.lnot_spec, testbit_single by lia.
  rewrite andb_true_l. f_equal. destruct (Z.eqb_spec n 63); case_bool_decide; done.
Qed.
Lemma pblock_cleared es : ext4_es_pblock (ext4_es_clear_referenced es) = ext4_es_pblock es.
Proof.
  unfold ext4_es_pblock, ext4_es_clear_referenced. cbn [es_pblk]. apply Z.bits_inj'. intros n Hn.
  rewrite !Z.land_spec, clear_mask_bit, Z.testbit_ones_nonneg by (unfold ES_SHIFT; lia). unfold ES_SHIFT.
  destruct (Z.ltb_spec n 59), (Z.ltb_spec n 64), (Z.eqb_spec n 63); try lia; by rewrite ?andb_false_r, ?andb_true_r.
Qed.
Lemma type_cleared es : ext4_es_type (ext4_es_clear_referenced es) = ext4_es_type es.
Proof.
  unfold ext4_es_type, ext4_es_clear_referenced. cbn [es_pblk]. change ES_TYPE_MASK with (Z.ones 4). apply Z.bits_inj'. intros n Hn.
  rewrite !Z.land_spec, !Z.shiftr_spec, Z.land_spec, clear_mask_bit, Z.testbit_ones_nonneg by (unfold ES_SHIFT; lia). unfold ES_SHIFT.
  destruct (Z.ltb_spec n 4), (Z.ltb_spec (n + 59) 64), (Z.eqb_spec (n + 59) 63); try lia; by rewrite ?andb_false_r, ?andb_true_r.
Qed.

Lemma pblock_new lblk len pb st : 0 <= st -> ext4_es_pblock (ext4_es_store_pblock_status lblk len pb st) = Z.land pb (Z.ones ES_SHIFT).
Proof.
  intros. es_bits. destruct (Z.ltb_spec n 59); [|by rewrite !andb_false_r].
  rewrite Z.mod_pow2_bits_low, Z.shiftl_spec, (Z.testbit_neg_r _ (n - 59)) by lia. by rewrite orb_false_l, !andb_true_r.
Qed.
Lemma type_new lblk len pb st : 0 <= st -> ext4_es_type (ext4_es_store_pblock_status lblk len pb st) = Z.land st ES_TYPE_MASK.
Proof.
  intros. es_bits. destruct (Z.ltb_spec n 4); [|by rewrite !andb_false_r].
  rewrite Z.mod_pow2_bits_low, Z.shiftl_spec, shift59 by lia. replace (n + 59 - 59) with n by lia. by rewrite andb_false_r, orb_false_r.
Qed.

(** The value stays one of 64 bits. *)
Definition u64_range (z : Z) : Prop := 0 <= z < 2 ^ 64.
Lemma u64_range_bits z : u64_range z <-> 0 <= z /\ forall n, 64 <= n -> Z.testbit z n = false.
Proof.
  unfold u64_range. split; [intros [H1 H2]; split; [done|]; intros n Hn|intros [H1 H2]].
  - rewrite Z.bits_above_log2; [done|done|]. destruct (Z.eq_dec z 0) as [->|]; [change (Z.log2 0) with 0; lia|].
    assert (Z.log2 z < 64) by (apply Z.log2_lt_pow2; lia). lia.
  - assert (z mod 2 ^ 64 = z) as <-; [|apply Z.mod_pos_bound; lia].
    apply Z.bits_inj'. intros n Hn. destruct (Z.lt_ge_cases n 64).
    + by rewrite Z.mod_pow2_bits_low by lia.
    + rewrite Z.mod_pow2_bits_high by lia. by rewrite H2.
Qed.
Lemma u64_lor a b : u64_range a -> u64_range b -> u64_range (Z.lor a b).
Proof.
  rewrite !u64_range_bits. intros [? Ha] [? Hb]. split; [by apply Z.lor_nonneg|]. intros. by rewrite Z.lor_spec, Ha, Hb.
Qed.
Lemma u64_land a b : u64_range a -> 0 <= b -> u64_range (Z.land a b).
Proof.
  rewrite !u64_range_bits. intros [? Ha] ?. split; [apply Z.land_nonneg; by left|]. intros. by rewrite Z.land_spec, Ha.
Qed.
Lemma u64_land_r a b : u64_range b -> u64_range (Z.land a b).
Proof.
  rewrite !u64_range_bits. intros [? Ha]. split; [apply Z.land_nonneg; by right|]. intros. by rewrite Z.land_spec, Ha, andb_false_r.
Qed.
#[local] Hint Resolve u64_lor u64_land u64_land_r : core.
Lemma ones59_range : u64_range (Z.ones ES_SHIFT).
Proof. by compute. Qed.
#[local] Hint Resolve ones59_range : core.

Lemma range_store es pb : u64_range (es_pblk es) -> u64_range (es_pblk (ext4_es_store_pblock es pb)).
Proof. intros. cbn. apply u64_lor; [auto|apply u64_land; [done|by compute]]. Qed.
Lemma range_referenced es : u64_range (es_pblk es) -> u64_range (es_pblk (ext4_es_set_referenced es)).
Proof. intros. cbn. apply u64_lor; [auto|by compute]. Qed.
Lemma range_cleared es : u64_range (es_pblk es) -> u64_range (es_pblk (ext4_es_clear_referenced es)).
Proof. intros. cbn. apply u64_land; [done|by compute]. Qed.
Lemma range_new lblk len pb st : u64_range (es_pblk (ext4_es_store_pblock_status lblk len pb st)).
Proof. cbn. apply u64_lor; [apply Z.mod_pos_bound; by compute|auto]. Qed.

(** ** Well-formed extents and lists of extents *)

Record ext_ok (e : extent_status) : Prop := {
  eo_lblk : 0 <= es_lblk e;
  eo_len : 0 < es_len e;
  eo_end : es_lblk e + es_len e <= EXT_MAX_BLOCKS;
  eo_range : u64_range (es_pblk e);
  eo_type : ext4_es_type e ∈ [EXTENT_STATUS_WRITTEN; EXTENT_STATUS_UNWRITTEN; EXTENT_STATUS_DELAYED; EXTENT_STATUS_HOLE];
  eo_pblk : ext4_es_is_mapped e = true -> ext4_es_pblock e + es_len e <= 2 ^ ES_SHIFT
}.
Definition before (a b : extent_status) : Prop := es_lblk a + es_len a <= es_lblk b.
Definition list_ok (l : list extent_status) : Prop := Forall ext_ok l /\ StronglySorted before l.

(** What a tree says of a block: the type and, for a mapped block, where it is
    on the disk. *)
Definition content (e : extent_status) (b : Z) : Z * Z :=
  (ext4_es_type e, if ext4_es_is_mapped e then ext4_es_pblock e + (b - es_lblk e) else 0).
Fixpoint block_map (l : list extent_status) (b : Z) : option (Z * Z) :=
  match l with [] => None | e :: l => if in_range b e then Some (content e b) else block_map l b end.

Lemma in_range_spec b e : in_range b e = true <-> es_lblk e <= b < es_lblk e + es_len e.
Proof. unfold in_range. rewrite andb_true_iff, Z.leb_le, Z.ltb_lt. done. Qed.
Lemma in_range_false b e : in_range b e = false <-> ~ es_lblk e <= b < es_lblk e + es_len e.
Proof. rewrite <- in_range_spec. by destruct (in_range b e). Qed.

Lemma es_end_ok e : ext_ok e -> ext4_es_end e = Ok (es_lblk e + es_len e - 1).
Proof.
  intros [? ? He _ _ _]. unfold EXT_MAX_BLOCKS in He. unfold ext4_es_end. rewrite !u32_small by lia.
  destruct (Z.ltb_spec (es_lblk e + es_len e) (es_lblk e)); [lia|done].
Qed.

Lemma block_map_app l1 l2 b : block_map (l1 ++ l2) b = block_map l1 b ∪ block_map l2 b.
Proof. induction l1 as [|e l1 IH]; cbn; [by rewrite (left_id_L None (∪))|]. destruct (in_range b e); [by destruct (block_map l2 b)|done]. Qed.
Lemma block_map_Some l b c : block_map l b = Some c -> exists e, e ∈ l /\ in_range b e = true /\ c = content e b.
Proof.
  induction l as [|e l IH]; cbn; [done|]. destruct (in_range b e) eqn:E; [intros [= <-]|].
  - exists e. split_and!; [left|done|done].
  - intros (e' & ? & ? & ?)%IH. exists e'. split_and!; [by right|done|done].
Qed.
Lemma block_map_None l b : block_map l b = None <-> Forall (fun e => in_range b e = false) l.
Proof.
  induction l as [|e l IH]; cbn; [done|]. rewrite Forall_cons, <- IH. destruct (in_range b e); split; [done|by intros [? _]|done|by intros [_ ?]].
Qed.

(** Lists in order. *)
Lemma list_ok_app l1 l2 : list_ok (l1 ++ l2) <-> list_ok l1 /\ list_ok l2 /\ forall a b, a ∈ l1 -> b ∈ l2 -> before a b.
Proof.
  unfold list_ok. rewrite Forall_app, StronglySorted_app. tauto.
Qed.
Lemma list_ok_cons e l : list_ok (e :: l) <-> ext_ok e /\ list_ok l /\ Forall (before e) l.
Proof. unfold list_ok. rewrite Forall_cons, StronglySorted_cons. tauto. Qed.
Lemma list_ok_nil : list_ok [].
Proof. split; constructor. Qed.
Lemma before_lt a b : ext_ok a -> before a b -> es_lblk a < es_lblk b.
Proof. intros [_ ? _ _ _ _] H. unfold before in H. lia. Qed.

(** A list in order around one of its nodes. *)
Lemma list_ok_mid l1 e l2 : list_ok (l1 ++ e :: l2) <->
  list_ok l1 /\ ext_ok e /\ list_ok l2 /\ Forall (fun a => before a e) l1 /\ Forall (before e) l2 /\ (forall a b, a ∈ l1 -> b ∈ l2 -> before a b).
Proof.
  rewrite list_ok_app, list_ok_cons, !Forall_forall. split.
  - intros (? & (? & ? & ?) & Hb). split_and!; auto; intros; apply Hb; auto; [by left|by right].
  - intros (? & ? & ? & Ha & ? & Hb). split_and!; auto. intros a b Hi [->|Hj]%elem_of_cons; auto.
Qed.
Definition off (k : Z) (l : list extent_status) : Prop := Forall (fun a => es_lblk a <> k) l.
Lemma list_ok_off l1 e l2 : list_ok (l1 ++ e :: l2) -> off (es_lblk e) l1 /\ off (es_lblk e) l2.
Proof.
  intros (H1 & He & H2 & Ha & Hb & _)%list_ok_mid. destruct H1 as [Hf _]. unfold off. rewrite !Forall_forall in *. split; intros x Hx.
  - pose proof (before_lt x e (Hf x Hx) (Ha x Hx)). lia.
  - pose proof (before_lt e x He (Hb x Hx)). lia.
Qed.

Lemma node_at_mid l1 e l2 : off (es_lblk e) l1 -> node_at (l1 ++ e :: l2) (es_lblk e) = Some e.
Proof.
  intros Ho. unfold node_at. rewrite list_find_app_r.
  - cbn. by rewrite decide_True.
  - apply list_find_None. eapply Forall_impl; [exact Ho|]. done.
Qed.
Lemma rb_next_mid l1 e l2 : off (es_lblk e) l1 -> rb_next (l1 ++ e :: l2) (es_lblk e) = head l2.
Proof. induction 1 as [|a l1 Ha _ IH]; cbn; [by rewrite Z.eqb_refl|]. destruct (Z.eqb_spec (es_lblk a) (es_lblk e)); done. Qed.
Lemma rb_prev_mid l1 e l2 : off (es_lblk e) l2 -> rb_prev (l1 ++ e :: l2) (es_lblk e) = last l1.
Proof.
  intros Ho. unfold rb_prev. rewrite reverse_app, reverse_cons, <- app_assoc. cbn [app].
  rewrite rb_next_mid; [apply head_reverse|by apply Forall_reverse].
Qed.
Lemma nodes_from_mid l1 e l2 : off (es_lblk e) l1 -> nodes_from (l1 ++ e :: l2) (es_lblk e) = e :: l2.
Proof. induction 1 as [|a l1 Ha _ IH]; cbn; [by rewrite Z.eqb_refl|]. destruct (Z.eqb_spec (es_lblk a) (es_lblk e)); done. Qed.
Lemma filter_off k l : off k l -> filter (fun e => es_lblk e <> k) l = l.
Proof. induction 1 as [|a l Ha _ IH]; [done|]. rewrite filter_cons_True by done. by f_equal. Qed.
Lemma rb_erase_mid l1 e l2 : off (es_lblk e) l1 -> off (es_lblk e) l2 -> rb_erase (l1 ++ e :: l2) (es_lblk e) = l1 ++ l2.
Proof.
  intros H1 H2. unfold rb_erase. rewrite filter_app, filter_cons_False by auto. f_equal; by apply filter_off.
Qed.
Lemma inorder_map f t : inorder (tree_map f t) = f <$> inorder t.
Proof. induction t as [|l IHl e r IHr]; cbn; [done|]. by rewrite IHl, IHr, fmap_app. Qed.
Lemma upd_off k f l : off k l -> (fun e => if es_lblk e =? k then f e else e) <$> l = l.
Proof. induction 1 as [|a l Ha _ IH]; cbn; [done|]. rewrite IH. destruct (Z.eqb_spec (es_lblk a) k); done. Qed.
Lemma set_node_mid i l1 e l2 f : nodes i = l1 ++ e :: l2 -> off (es_lblk e) l1 -> off (es_lblk e) l2 -> nodes (set_node i (es_lblk e) f) = l1 ++ f e :: l2.
Proof.
  intros Hn H1 H2. unfold nodes, set_node, set_root in *. cbn [es_root]. rewrite inorder_map, Hn, fmap_app, fmap_cons.
  by rewrite !upd_off, Z.eqb_refl by done.
Qed.

(** ** The search *)

(** What [__es_tree_search] is for: the first extent that ends at or after the
    block. *)
Definition first_from (lblk : Z) (l : list extent_status) : option extent_status :=
  head (filter (fun e => lblk < es_lblk e + es_len e) l).

Definition ends_before (lblk : Z) (l : list extent_status) : Prop := Forall (fun e => es_lblk e + es_len e <= lblk) l.
Definition starts_after (lblk : Z) (l : list extent_status) : Prop := Forall (fun e => lblk < es_lblk e) l.

Lemma first_from_app lblk l1 l2 : ends_before lblk l1 -> first_from lblk (l1 ++ l2) = first_from lblk l2.
Proof. unfold first_from. induction 1 as [|e l1 He _ IH]; [done|]. cbn [app]. by rewrite filter_cons_False by lia. Qed.
Lemma first_from_cons lblk e l : lblk < es_lblk e + es_len e -> first_from lblk (e :: l) = Some e.
Proof. intros. unfold first_from. by rewrite filter_cons_True. Qed.
Lemma first_from_skip lblk e l : es_lblk e + es_len e <= lblk -> first_from lblk (e :: l) = first_from lblk l.
Proof. intros. unfold first_from. by rewrite filter_cons_False by lia. Qed.
Lemma first_from_split lblk l e : first_from lblk l = Some e -> exists l1 l2, l = l1 ++ e :: l2 /\ ends_before lblk l1 /\ lblk < es_lblk e + es_len e.
Proof.
  induction l as [|a l IH]; [done|]. destruct (decide (lblk < es_lblk a + es_len a)).
  - rewrite first_from_cons by done. intros [= <-]. exists [], l. split_and!; [done|constructor|done].
  - rewrite first_from_skip by lia. intros (l1 & l2 & -> & ? & ?)%IH.
    exists (a :: l1), l2. split_and!; [done|constructor; [lia|done]|done].
Qed.
Lemma first_from_none lblk l : first_from lblk l = None -> ends_before lblk l.
Proof.
  induction l as [|a l IH]; [by constructor|]. destruct (decide (lblk < es_lblk a + es_len a)).
  - by rewrite first_from_cons by done.
  - rewrite first_from_skip by lia. intros ?%IH. constructor; [cbn; lia|done].
Qed.

(** Where the descent ends: at an extent that holds the block, or between the
    extents before the block and those after it, next to the last node seen. *)
Inductive walk_end (lblk : Z) (l : list extent_status) : bool * option extent_status -> Prop :=
| walk_hit l1 e l2 : l = l1 ++ e :: l2 -> ends_before lblk l1 -> in_range lblk e = true -> walk_end lblk l (true, Some e)
| walk_empty : l = [] -> walk_end lblk l (false, None)
| walk_left l1 e l2 : l = (l1 ++ [e]) ++ l2 -> ends_before lblk (l1 ++ [e]) -> starts_after lblk l2 -> walk_end lblk l (false, Some e)
| walk_right l1 e l2 : l = l1 ++ e :: l2 -> ends_before lblk l1 -> starts_after lblk (e :: l2) -> walk_end lblk l (false, Some e).

(** The node above a subtree is next to it. *)
Inductive parent_of (L R : list extent_status) : option extent_status -> Prop :=
| parent_none : L = [] -> R = [] -> parent_of L R None
| parent_left e L' : L = L' ++ [e] -> parent_of L R (Some e)
| parent_right e R' : R = e :: R' -> parent_of L R (Some e).

Lemma es_walk_spec lblk t L R p :
  list_ok (L ++ inorder t ++ R) -> ends_before lblk L -> starts_after lblk R -> parent_of L R p ->
  exists r, es_walk t lblk p = Ok r /\ walk_end lblk (L ++ inorder t ++ R) r.
Proof.
  revert L R p. induction t as [|l IHl e r IHr]; intros L R p Hok HL HR Hp; cbn [es_walk inorder app] in *.
  - exists (false, p). split; [done|]. destruct Hp as [-> ->|e L' ->|e R' ->].
    + by apply walk_empty.
    + by apply (walk_left _ _ L' e R).
    + by apply (walk_right _ _ L e R').
  - rewrite <- app_assoc in *. cbn [app] in *. rewrite (app_assoc L) in Hok. pose proof Hok as Hok'.
    apply list_ok_mid in Hok' as (H1 & He & H2 & Ha & Hb & _). pose proof He as [H0 Hl0 _ _ _ _].
    apply Forall_app in Ha as [_ Ha]. apply Forall_app in Hb as [Hb _].
    destruct (Z.ltb_spec lblk (es_lblk e)).
    + rewrite <- app_assoc in Hok. apply IHl; auto.
      * constructor; [done|]. apply Forall_app; split; [|done]. eapply Forall_impl; [exact Hb|]. unfold before. intros x Hx. cbn in Hx. lia.
      * by apply (parent_right _ _ e (inorder r ++ R)).
    + rewrite es_end_ok by done. cbn [mbind outcome_bind].
      assert (ends_before lblk (L ++ inorder l)) as HL'.
      { apply Forall_app; split; [done|]. eapply Forall_impl; [exact Ha|]. unfold before. intros x Hx. cbn in Hx. lia. }
      rewrite (app_assoc L). destruct (Z.ltb_spec (es_lblk e + es_len e - 1) lblk).
      * change (e :: inorder r ++ R) with ([e] ++ inorder r ++ R) in *. rewrite (app_assoc (L ++ inorder l)) in *. apply IHr; auto.
        -- apply Forall_app; split; [done|]. constructor; [lia|constructor].
        -- by apply (parent_left _ _ e (L ++ inorder l)).
      * eexists; split; [done|]. apply (walk_hit _ _ (L ++ inorder l) e (inorder r ++ R)); [done|done|]. apply in_range_spec. lia.
Qed.

Lemma es_walk_root lblk t : list_ok (inorder t) -> exists r, es_walk t lblk None = Ok r /\ walk_end lblk (inorder t) r.
Proof.
  intros H. destruct (es_walk_spec lblk t [] [] None) as (r & Hr & He); [by rewrite app_nil_r|constructor..|by constructor|].
  rewrite app_nil_r in He. eauto.
Qed.

Lemma es_tree_search_spec t lblk : list_ok (inorder t) -> __es_tree_search t lblk = Ok (first_from lblk (inorder t)).
Proof.
  intros Hok. unfold __es_tree_search. destruct (es_walk_root lblk t Hok) as (r & -> & He). cbn [mbind outcome_bind].
  destruct He as [l1 e l2 Hl H1 Hin|Hl|l1 e l2 Hl H1 H2|l1 e l2 Hl H1 H2].
  - apply in_range_spec in Hin. by rewrite Hl, first_from_app, first_from_cons by (done || lia).
  - by rewrite Hl.
  - pose proof Hok as [Hf _]. rewrite Hl, !Forall_app, Forall_singleton in Hf. destruct Hf as [[_ He] Hf2].
    pose proof He as [? ? _ _ _ _]. pose proof H1 as [_ Hend]%Forall_app. rewrite Forall_singleton in Hend.
    destruct (Z.ltb_spec lblk (es_lblk e)); [lia|]. rewrite es_end_ok by done. cbn [mbind outcome_bind].
    destruct (Z.ltb_spec (es_lblk e + es_len e - 1) lblk); [|lia]. f_equal. rewrite Hl, first_from_app by done.
    rewrite Hl in Hok. rewrite <- app_assoc in *. apply list_ok_off in Hok as [Ho _]. cbn [app]. rewrite rb_next_mid by done.
    destruct l2 as [|a l2]; [done|]. apply Forall_cons in H2 as [Ha _]. apply Forall_cons in Hf2 as [[? ? _ _ _ _] _].
    symmetry. apply first_from_cons. lia.
  - apply Forall_cons in H2 as [Ha _]. pose proof Hok as [Hf _]. rewrite Hl, Forall_app, Forall_cons in Hf. destruct Hf as (_ & [? ? _ _ _ _] & _).
    destruct (Z.ltb_spec lblk (es_lblk e)); [|lia]. by rewrite Hl, first_from_app, first_from_cons by (done || lia).
Qed.

(** ** The tree of an inode *)

Definition may_drop (e : extent_status) : bool := negb (ext4_es_must_keep e).
Definition shrinkable (l : list extent_status) : list extent_status := filter (fun e => may_drop e = true) l.

(** The counters count the extents and those that may be dropped, and the inode
    is in the list of the shrinker when there are some of these. *)
Record counts (i : es_info) (l : list extent_status) : Prop := {
  co_all : i_es_all_nr i = Z.of_nat (length l);
  co_shk : i_es_shk_nr i = Z.of_nat (length (shrinkable l));
  co_listed : i_es_listed i = negb (i_es_shk_nr i =? 0)
}.
(** The extents are well formed, in order and disjoint, and counted. *)
Record tree_ok (i : es_info) : Prop := { tk_list : list_ok (nodes i); tk_counts : counts i (nodes i) }.
(** And the cached node is in the tree. *)
Record es_ok (i : es_info) : Prop := {
  ek_tree : tree_ok i;
  ek_cache : forall k, cache_es i = Some k -> exists e, e ∈ nodes i /\ es_lblk e = k
}.
Lemma ek_list i : es_ok i -> list_ok (nodes i).
Proof. by intros [[? _] _]. Qed.

Lemma holder_split l e b : list_ok l -> e ∈ l -> in_range b e = true -> exists l1 l2, l = l1 ++ e :: l2 /\ ends_before b l1 /\ starts_after b l2.
Proof.
  intros Hok (l1 & l2 & ->)%list_elem_of_split Hin%in_range_spec. exists l1, l2. split; [done|].
  apply list_ok_mid in Hok as (_ & _ & _ & Ha & Hb & _). unfold before in *.
  split; eapply Forall_impl; [exact Ha| |exact Hb|]; intros x Hx; cbn in Hx |- *; lia.
Qed.
Lemma ends_before_map b l : ends_before b l -> block_map l b = None.
Proof. intros H. apply block_map_None. eapply Forall_impl; [exact H|]. intros e He. apply in_range_false. cbn in He. lia. Qed.
Lemma starts_after_map b l : starts_after b l -> block_map l b = None.
Proof. intros H. apply block_map_None. eapply Forall_impl; [exact H|]. intros e He. apply in_range_false. cbn in He. lia. Qed.
Lemma holder_map l e b : list_ok l -> e ∈ l -> in_range b e = true -> block_map l b = Some (content e b).
Proof.
  intros Hok He Hin. destruct (holder_split l e b Hok He Hin) as (l1 & l2 & -> & H1 & H2).
  rewrite block_map_app, ends_before_map by done. cbn. by rewrite Hin.
Qed.
Lemma holder_first l e b : list_ok l -> e ∈ l -> in_range b e = true -> first_from b l = Some e.
Proof.
  intros Hok He Hin. destruct (holder_split l e b Hok He Hin) as (l1 & l2 & -> & H1 & H2). apply in_range_spec in Hin.
  rewrite first_from_app, first_from_cons by (done || lia). done.
Qed.

(** A cached node that holds the block is the one the tree would give. *)
Lemma cached_spec i b e : es_ok i -> cached i b = Some e -> e ∈ nodes i /\ in_range b e = true.
Proof.
  intros [[Hok _] Hc]. unfold cached. destruct (cache_es i) as [k|] eqn:Ek; [|done].
  destruct (Hc k eq_refl) as (a & Ha & <-). apply list_elem_of_split in Ha as (l1 & l2 & Hl).
  cbn [mbind option_bind]. rewrite Hl in *. destruct (list_ok_off _ _ _ Hok) as [Ho _]. rewrite node_at_mid by done. cbn.
  destruct (in_range b a) eqn:E; [|done]. intros [= <-]. split; [set_solver|done].
Qed.
Lemma cached_first i b e : es_ok i -> cached i b = Some e -> first_from b (nodes i) = Some e.
Proof. intros Hi Hc. destruct (cached_spec i b e Hi Hc). apply holder_first; [apply Hi|done..]. Qed.

Lemma set_cache_ok i e : es_ok i -> e ∈ nodes i -> es_ok (set_cache i (Some (es_lblk e))).
Proof. intros [[? [? ? ?]] ?] He. split; [done|]. cbn. intros k [= <-]. eauto. Qed.

(** Marking a node as referenced, or not, changes nothing the tree says. *)
Record same_extent (f : extent_status -> extent_status) : Prop := {
  sm_lblk e : es_lblk (f e) = es_lblk e;
  sm_len e : es_len (f e) = es_len e;
  sm_type e : ext4_es_type (f e) = ext4_es_type e;
  sm_pblock e : ext4_es_pblock (f e) = ext4_es_pblock e;
  sm_range e : u64_range (es_pblk e) -> u64_range (es_pblk (f e))
}.
Lemma same_referenced : same_extent ext4_es_set_referenced.
Proof. split; auto using type_referenced, pblock_referenced, range_referenced. Qed.
Lemma same_cleared : same_extent ext4_es_clear_referenced.
Proof. split; auto using type_cleared, pblock_cleared, range_cleared. Qed.

Lemma same_mapped f e : same_extent f -> ext4_es_is_mapped (f e) = ext4_es_is_mapped e.
Proof. intros Hf. unfold ext4_es_is_mapped, ext4_es_is_written, ext4_es_is_unwritten. by rewrite (sm_type f). Qed.
Lemma same_drop f e : same_extent f -> may_drop (f e) = may_drop e.
Proof. intros Hf. unfold may_drop, ext4_es_must_keep, ext4_es_is_delayed. by rewrite (sm_type f). Qed.
Lemma same_ext_ok f e : same_extent f -> ext_ok e -> ext_ok (f e).
Proof.
  intros Hf [? ? ? ? ? ?]. split; rewrite ?(same_mapped f), ?(sm_lblk f), ?(sm_len f), ?(sm_type f), ?(sm_pblock f) by done; auto. by apply Hf.
Qed.
Lemma same_in_range f b e : same_extent f -> in_range b (f e) = in_range b e.
Proof. intros Hf. unfold in_range. by rewrite (sm_lblk f), (sm_len f). Qed.
Lemma same_content f e b : same_extent f -> content (f e) b = content e b.
Proof. intros Hf. unfold content. by rewrite (same_mapped f), (sm_type f), (sm_pblock f), (sm_lblk f). Qed.

Lemma mid_same_ok f l1 e l2 : same_extent f -> list_ok (l1 ++ e :: l2) -> list_ok (l1 ++ f e :: l2).
Proof.
  intros Hf. rewrite !list_ok_mid. intros (? & ? & ? & Ha & Hb & ?). split_and!; auto using same_ext_ok.
  - eapply Forall_impl; [exact Ha|]. intros x. unfold before. by rewrite (sm_lblk f).
  - eapply Forall_impl; [exact Hb|]. intros x. unfold before. by rewrite (sm_lblk f), (sm_len f).
Qed.
Lemma mid_same_map f l1 e l2 b : same_extent f -> block_map (l1 ++ f e :: l2) b = block_map (l1 ++ e :: l2) b.
Proof. intros Hf. rewrite !block_map_app. cbn. by rewrite same_in_range, same_content. Qed.
Lemma shrinkable_app l1 l2 : shrinkable (l1 ++ l2) = shrinkable l1 ++ shrinkable l2.
Proof. apply filter_app. Qed.
Lemma shrinkable_cons e l : shrinkable (e :: l) = if may_drop e then e :: shrinkable l else shrinkable l.
Proof.
  unfold shrinkable. destruct (may_drop e) eqn:E; [by rewrite filter_cons_True|rewrite filter_cons_False; [done|by rewrite E]].
Qed.

(** Other nodes of the same number. *)
Lemma counts_same i i' l l' :
  counts i l -> i_es_all_nr i' = i_es_all_nr i -> i_es_shk_nr i' = i_es_shk_nr i -> i_es_listed i' = i_es_listed i ->
  length l' = length l -> length (shrinkable l') = length (shrinkable l) -> counts i' l'.
Proof. intros [? ? ?] ? ? ? ? ?. split; congruence. Qed.
Lemma mid_same_counts i i' l1 e e' l2 :
  counts i (l1 ++ e :: l2) -> i_es_all_nr i' = i_es_all_nr i -> i_es_shk_nr i' = i_es_shk_nr i -> i_es_listed i' = i_es_listed i ->
  may_drop e' = may_drop e -> counts i' (l1 ++ e' :: l2).
Proof.
  intros Hc ? ? ? Hd. apply (counts_same i _ _ _ Hc); auto; [by rewrite !length_app|].
  rewrite !shrinkable_app, !shrinkable_cons, Hd. by destruct (may_drop e); rewrite !length_app.
Qed.
Lemma set_node_same_ok f i e : same_extent f -> es_ok i -> e ∈ nodes i ->
  es_ok (set_node i (es_lblk e) f) /\ forall b, block_map (nodes (set_node i (es_lblk e) f)) b = block_map (nodes i) b.
Proof.
  intros Hf Hi (l1 & l2 & Hl)%list_elem_of_split. pose proof (ek_list i Hi) as Hok. rewrite Hl in Hok.
  destruct (list_ok_off _ _ _ Hok) as [H1 H2]. pose proof (set_node_mid i l1 e l2 f Hl H1 H2) as Hn.
  split; [|intros b; rewrite Hn, Hl; by apply mid_same_map]. destruct Hi as [[_ Hc] Hk]. split; [split; rewrite Hn|].
  - by apply mid_same_ok.
  - rewrite Hl in Hc. apply (mid_same_counts i _ _ e); auto. by apply same_drop.
  - intros k Ek. destruct (Hk k Ek) as (a & Ha & <-). rewrite Hl, elem_of_app, elem_of_cons in Ha. rewrite Hn.
    destruct Ha as [?|[->|?]]; [exists a|exists (f e)|exists a]; split; set_solver || apply Hf.
Qed.

(** ** Lookup and scan *)

Lemma walk_end_map b l r : list_ok l -> walk_end b l r ->
  match r with (true, Some e) => e ∈ l /\ in_range b e = true | (true, None) => False | (false, _) => block_map l b = None end.
Proof.
  intros Hok [l1 e l2 -> ? ?| -> |l1 e l2 -> ? ?|l1 e l2 -> ? ?].
  - split; [set_solver|done].
  - done.
  - by rewrite block_map_app, ends_before_map, starts_after_map.
  - by rewrite block_map_app, ends_before_map, starts_after_map.
Qed.

(** The extent a lookup finds, or that there is none. *)
Definition lookup_found (i : es_info) (b : Z) : outcome (option extent_status) :=
  match cached i b with
  | Some es => Ok (Some es)
  | None => r ← es_walk (es_root i) b None; Ok (if (r.1 : bool) then r.2 else None)
  end.
Lemma lookup_found_ok i b : es_ok i -> exists r, lookup_found i b = Ok r /\
  match r with Some e => e ∈ nodes i /\ in_range b e = true | None => block_map (nodes i) b = None end.
Proof.
  intros Hi. unfold lookup_found. destruct (cached i b) as [e|] eqn:Ec.
  - exists (Some e). split; [done|]. by apply (cached_spec i).
  - destruct (es_walk_root b (es_root i) (ek_list i Hi)) as (r & -> & He). cbn [mbind outcome_bind].
    eexists; split; [done|]. apply walk_end_map in He; [|apply Hi]. by destruct r as [[] [e|]].
Qed.

Lemma lookup_spec sb i b :
  es_ok i -> s_fc_replay sb = false ->
  exists r i', ext4_es_lookup_extent sb i b = Ok (r, i') /\ es_ok i' /\ (forall c, block_map (nodes i') c = block_map (nodes i) c) /\
    match r with
    | Some (e, next) => e ∈ nodes i /\ in_range b e = true /\ block_map (nodes i) b = Some (content e b) /\
        next = from_option es_lblk 0 (rb_next (nodes i) (es_lblk e))
    | None => block_map (nodes i) b = None
    end.
Proof.
  intros Hi Hr. unfold ext4_es_lookup_extent. rewrite Hr. fold (lookup_found i b).
  destruct (lookup_found_ok i b Hi) as (r & -> & H). cbn [mbind outcome_bind]. destruct r as [e|]; [|by eauto 6].
  destruct H as [He Hb]. pose proof (holder_map _ _ _ (ek_list i Hi) He Hb) as Hm.
  destruct (set_node_same_ok _ i e same_referenced Hi He) as [Hok Hmap].
  eexists _, _. split; [done|]. destruct (ext4_es_is_referenced e); split_and!; auto.
Qed.

(** What an operation leaves alone. *)
Definition same_rest (i i' : es_info) : Prop := i_pending i' = i_pending i /\ i_es_shrink_lblk i' = i_es_shrink_lblk i.

(** An extent meets a range of blocks. *)
Definition meets (start end_ : Z) (e : extent_status) : Prop := es_lblk e <= end_ /\ start < es_lblk e + es_len e.

Lemma find_match_spec m end_ l e : StronglySorted before l -> Forall ext_ok l -> m e = false ->
  match find_match m end_ l e with
  | Some a => if m a then a ∈ l /\ es_lblk a <= end_ else Forall (fun x => m x = false) l
  | None => Forall (fun x => m x = true -> end_ < es_lblk x) l
  end.
Proof.
  intros Hs Hf. revert e. induction Hs as [|x l Hs IH Hx]; intros e He; cbn [find_match]; [by rewrite He|].
  apply Forall_cons in Hf as [Hox Hf]. destruct (Z.ltb_spec end_ (es_lblk x)).
  - constructor; [done|]. eapply Forall_impl; [exact Hx|]. intros y Hy%before_lt _; [lia|done].
  - destruct (m x) eqn:Ex; [rewrite Ex; split; [by left|lia]|]. specialize (IH Hf x Ex). destruct (find_match m end_ l x) as [a|].
    + destruct (m a); [destruct IH; split; [by right|done]|by constructor].
    + by constructor; [rewrite Ex|].
Qed.

Lemma find_range_spec i m start end_ : es_ok i -> start <= end_ ->
  exists r i', __es_find_extent_range i m start end_ = Ok (r, i') /\ es_ok i' /\ nodes i' = nodes i /\ same_rest i i' /\
    match r with
    | Some e => e ∈ nodes i /\ m e = true /\ start < es_lblk e + es_len e /\ (meets start end_ e \/ forall x, x ∈ nodes i -> meets start end_ x -> m x = false)
    | None => forall x, x ∈ nodes i -> meets start end_ x -> m x = false
    end.
Proof.
  intros Hi Hse. unfold __es_find_extent_range.
  assert (match cached i start with Some es => Ok (Some es) | None => __es_tree_search (es_root i) start end = Ok (first_from start (nodes i))) as ->.
  { destruct (cached i start) eqn:Ec; [by rewrite (cached_first i start _ Hi Ec)|]. apply es_tree_search_spec, Hi. }
  cbn [mbind outcome_bind]. pose proof (ek_list i Hi) as Hok. destruct (first_from start (nodes i)) as [e|] eqn:Ef.
  2:{ cbn. apply first_from_none in Ef. eexists _, _. split_and!; [done..|]. intros x Hx [_ ?].
      unfold ends_before in Ef. rewrite Forall_forall in Ef. specialize (Ef x Hx). cbn in Ef. lia. }
  apply first_from_split in Ef as (l1 & l2 & Hl & H1 & He). rewrite Hl in Hok. pose proof (list_ok_off _ _ _ Hok) as [Ho _].
  apply list_ok_mid in Hok as (_ & Hoe & [Hf2 Hs2] & _ & Hb & _). cbn [mbind option_bind].
  assert (forall x, x ∈ nodes i -> meets start end_ x -> x = e \/ x ∈ l2) as Hin.
  { intros x. rewrite Hl, elem_of_app, elem_of_cons. intros [Hx|?]; [|tauto]. intros [_ ?].
    unfold ends_before in H1. rewrite Forall_forall in H1. specialize (H1 x Hx). cbn in H1. lia. }
  destruct (m e) eqn:Em.
  - rewrite Em. eexists _, _. assert (e ∈ nodes i) by (rewrite Hl; set_solver). split; [done|]. split_and!; try done; [by apply set_cache_ok|].
    destruct (Z.le_gt_cases (es_lblk e) end_); [left; by split|right]. intros x Hx Hm. destruct (Hin x Hx Hm) as [->|Hx2]; [destruct Hm; lia|].
    rewrite Forall_forall in Hb. specialize (Hb x Hx2). apply before_lt in Hb; [|done]. destruct Hm. lia.
  - rewrite Hl, nodes_from_mid by done. cbn [tail]. pose proof (find_match_spec m end_ l2 e Hs2 Hf2 Em) as H.
    assert (forall P : extent_status -> Prop, Forall P l2 -> (P e) -> forall x, x ∈ nodes i -> meets start end_ x -> P x) as Hall.
    { intros P HP ? x Hx Hm. destruct (Hin x Hx Hm) as [->|?]; [done|]. rewrite Forall_forall in HP. auto. }
    destruct (find_match m end_ l2 e) as [a|].
    + destruct (m a) eqn:Ea.
      * destruct H as [Ha ?]. assert (a ∈ nodes i) by (rewrite Hl; set_solver). rewrite Forall_forall in Hb, Hf2. specialize (Hb a Ha). specialize (Hf2 a Ha). destruct Hf2.
        unfold before in Hb. eexists _, _. split; [done|]. split_and!; try done; try lia; [by apply set_cache_ok|by rewrite <- Hl|]. left. split; lia.
      * eexists _, _. split; [done|]. split_and!; [done..|]. rewrite <- Hl. by apply (Hall _ H).
    + eexists _, _. split; [done|]. split_and!; [done..|]. rewrite <- Hl. intros x Hx Hm. apply not_true_is_false. intros Ht.
      pose proof (Hall _ H ltac:(congruence) x Hx Hm Ht). cbn in *. destruct Hm. lia.
Qed.

Lemma scan_range_spec i m start end_ : es_ok i -> 0 <= start <= end_ ->
  exists r i', __es_scan_range i m start end_ = Ok (r, i') /\ es_ok i' /\ nodes i' = nodes i /\ same_rest i i' /\
    (r = true <-> exists e, e ∈ nodes i /\ m e = true /\ meets start end_ e).
Proof.
  intros Hi [H0 Hse]. unfold __es_scan_range. destruct (find_range_spec i m start end_ Hi Hse) as (r & i' & -> & Hi' & Hn & Hsr & Hr).
  cbn [mbind outcome_bind fst snd]. eexists _, i'. split; [done|]. split_and!; [done..|]. destruct r as [e|].
  2:{ split; [done|]. intros (x & Hx & Hm & Hx2). by rewrite (Hr x Hx Hx2) in Hm. }
  destruct Hr as (He & Hm & Hs & Hr). assert (ext_ok e) as [? ? Hend _ _ _] by (eapply Forall_forall; [apply (ek_list i Hi)|done]).
  unfold EXT_MAX_BLOCKS in Hend. rewrite u32_small by lia. destruct (Z.eqb_spec (es_len e) 0); [lia|].
  destruct (Z.leb_spec (es_lblk e) start), (Z.ltb_spec start (es_lblk e + es_len e)); try lia; cbn [andb].
  - split; [|done]. intros _. exists e. split_and!; [done..|]. split; lia.
  - rewrite andb_true_iff, !Z.leb_le. split.
    + intros [? ?]. exists e. split_and!; [done..|]. by split.
    + intros (x & Hx & Hmx & Hx2). destruct Hr as [[? ?]|Hr]; [lia|]. by rewrite (Hr x Hx Hx2) in Hmx.
Qed.

(** ** Properties *)

(** A lookup finds what the tree says of a block: [ext4_es_lookup_extent]
    returns the extent that holds the block, as it was before the call, and the
    first block of the next extent, or finds nothing when the tree says nothing
    of the block; whatever node is cached, the answer is that of the tree, no
    block changes its meaning, and the tree stays well formed. *)
Theorem es_lookup_exact (sb : es_sb) (i : es_info) (b : Z) :
  es_ok i -> s_fc_replay sb = false ->
  exists r i', ext4_es_lookup_extent sb i b = Ok (r, i') /\ es_ok i' /\ (forall c, block_map (nodes i') c = block_map (nodes i) c) /\
    match r with
    | Some (e, next) => e ∈ nodes i /\ in_range b e = true /\ block_map (nodes i) b = Some (content e b) /\
        next = from_option es_lblk 0 (rb_next (nodes i) (es_lblk e))
    | None => block_map (nodes i) b = None
    end.
Proof. apply lookup_spec. Qed.

(** A scan of a range for extents of a kind answers whether one meets the
    range. *)
Theorem es_scan_exact (i : es_info) (m : extent_status -> bool) (start end_ : Z) :
  es_ok i -> 0 <= start <= end_ ->
  exists r i', __es_scan_range i m start end_ = Ok (r, i') /\ es_ok i' /\ nodes i' = nodes i /\
    (r = true <-> exists e, e ∈ nodes i /\ m e = true /\ meets start end_ e).
Proof.
  intros Hi Hr. destruct (scan_range_spec i m start end_ Hi Hr) as (r & i' & H & ? & ? & _ & ?). exists r, i'. auto.
Qed.

(** ** Witnesses *)

(** A tree that leans to the right. *)
Definition list_shape : RbTree := fun _ l => foldr (fun e t => Node Leaf e t) Leaf l.
Lemma list_shape_ok : @RbTreeOk list_shape.
Proof. intros t l. unfold rb_shape, list_shape. induction l as [|e l IH]; cbn; [done|by rewrite IH]. Qed.

Definition demo_sb : es_sb := EsSb 0 true false.
(** Blocks 2 to 7 are delayed, 10 to 13 written. *)
Definition demo_delayed : extent_status := ext4_es_store_pblock_status 2 6 (2 ^ 64 - 1) EXTENT_STATUS_DELAYED.
Definition demo_written : extent_status := ext4_es_store_pblock_status 10 4 500 EXTENT_STATUS_WRITTEN.
Definition demo_info : es_info := EsInfo (Node (Node Leaf demo_delayed Leaf) demo_written Leaf) (Some 2) 2 1 true 0 ∅.

Lemma demo_ok : es_ok demo_info.
Proof.
  split; [split; [|by split]|].
  - assert (ext_ok demo_delayed /\ ext_ok demo_written) as [? ?].
    { split; split; try (by compute); unfold u64_range; cbn; try lia; [by right; right; left|by left]. }
    split; [by repeat constructor|]. repeat constructor. by compute.
  - intros k [= <-]. exists demo_delayed. split; [left|done].
Qed.

Lemma es_lookup_exact_witness :
  exists r i', ext4_es_lookup_extent demo_sb demo_info 11 = Ok (r, i') /\ es_ok i' /\ (forall c, block_map (nodes i') c = block_map (nodes demo_info) c) /\
    match r with
    | Some (e, next) => e ∈ nodes demo_info /\ in_range 11 e = true /\ block_map (nodes demo_info) 11 = Some (content e 11) /\
        next = from_option es_lblk 0 (rb_next (nodes demo_info) (es_lblk e))
    | None => block_map (nodes demo_info) 11 = None
    end.
Proof. apply es_lookup_exact; [apply demo_ok|reflexivity]. Defined.
