(* ===== verification/ExtInsert.v ===== *)
(** Putting an extent into the extent status tree ([extents_status.c]): the
    counters of the shrinker, merging with a neighbour, [__es_insert_extent] and
    [ext4_es_cache_extent]; and that they add the extent to the block map. *)

From stdpp Require Import sorting.
From S2P Require Import Prelude Pages Friend ExtStatus.

Section insert.
Context `{Hrb : RbTree}.

(** ** Nodes of the tree *)

Definition erase_node (i : es_info) (k : Z) : es_info := set_root i (rb_shape (es_root i) (rb_erase (nodes i) k)).
Definition link_node (i : es_info) (n : extent_status) : es_info := set_root i (rb_shape (es_root i) (rb_link (nodes i) n)).

(** The counters of a new extent: the inode enters the list of the shrinker with
    the first extent that may be dropped. *)
Definition ext4_es_init_extent (i : es_info) (es : extent_status) : es_info :=
  let all := u32 (i_es_all_nr i + 1) in
  if ext4_es_must_keep es then set_counts i all (i_es_shk_nr i) (i_es_listed i)
  else set_counts i all (u32 (i_es_shk_nr i + 1)) (if i_es_shk_nr i =? 0 then true else i_es_listed i).

Definition ext4_es_free_extent (i : es_info) (es : extent_status) : outcome es_info :=
  let all := u32 (i_es_all_nr i - 1) in
  if ext4_es_must_keep es then Ok (set_counts i all (i_es_shk_nr i) (i_es_listed i))
  else
    _ ← BUG_ON (i_es_shk_nr i =? 0);
    let shk := u32 (i_es_shk_nr i - 1) in
    Ok (set_counts i all shk (if shk =? 0 then false else i_es_listed i)).

(** [es] grown by the blocks of [es1], which it is merged with. *)
Definition es_merge (es es1 : extent_status) : extent_status :=
  let es' := es_grow es (es_len es1) in if ext4_es_is_referenced es1 then ext4_es_set_referenced es' else es'.

Definition ext4_es_try_to_merge_left (i : es_info) (es : extent_status) : outcome (extent_status * es_info) :=
  match rb_prev (nodes i) (es_lblk es) with
  | None => Ok (es, i)
  | Some es1 =>
      if ext4_es_can_be_merged es1 es
      then
        let es1' := es_merge es1 es in
        let i := set_node i (es_lblk es1) (fun _ => es1') in
        let i := erase_node i (es_lblk es) in
        i ← ext4_es_free_extent i es; Ok (es1', i)
      else Ok (es, i)
  end.

Definition ext4_es_try_to_merge_right (i : es_info) (es : extent_status) : outcome (extent_status * es_info) :=
  match rb_next (nodes i) (es_lblk es) with
  | None => Ok (es, i)
  | Some es1 =>
      if ext4_es_can_be_merged es es1
      then
        let es' := es_merge es es1 in
        let i := set_node i (es_lblk es) (fun _ => es') in
        let i := erase_node i (es_lblk es1) in
        i ← ext4_es_free_extent i es1; Ok (es', i)
      else Ok (es, i)
  end.

(** The descent of [__es_insert_extent]: it stops at a node the new extent can be
    merged with, or at the place of a new node; an overlap is a bug. *)
Inductive insert_at := MergeBefore (es : extent_status) | MergeAfter (es : extent_status) | Attach.
Fixpoint insert_walk (t : es_tree) (newes : extent_status) : outcome insert_at :=
  match t with
  | Leaf => Ok Attach
  | Node l es r =>
      if es_lblk newes <? es_lblk es
      then if ext4_es_can_be_merged newes es then Ok (MergeBefore es) else insert_walk l newes
      else
        end_ ← ext4_es_end es;
        if end_ <? es_lblk newes
        then if ext4_es_can_be_merged es newes then Ok (MergeAfter es) else insert_walk r newes
        else Bug
  end.

(** [es] with [newes] put in front of it. *)
Definition es_prepend (newes es : extent_status) : extent_status :=
  let es' := es_set_range es (es_lblk newes) (u32 (es_len es + es_len newes)) in
  if ext4_es_is_written es' || ext4_es_is_unwritten es' then ext4_es_store_pblock es' (es_pblk newes) else es'.

(** [prealloc]: a node was allocated before; [mem]: one can be had without
    waiting. *)
Definition __es_insert_extent (i : es_info) (newes : extent_status) (prealloc mem : bool) : outcome (Z * es_info) :=
  w ← insert_walk (es_root i) newes;
  match w with
  | MergeBefore es =>
      let es' := es_prepend newes es in
      r ← ext4_es_try_to_merge_left (set_node i (es_lblk es) (fun _ => es')) es';
      Ok (0, set_cache r.2 (Some (es_lblk r.1)))
  | MergeAfter es =>
      let es' := es_grow es (es_len newes) in
      r ← ext4_es_try_to_merge_right (set_node i (es_lblk es) (fun _ => es')) es';
      Ok (0, set_cache r.2 (Some (es_lblk r.1)))
  | Attach =>
      if prealloc || mem
      then Ok (0, set_cache (link_node (ext4_es_init_extent i newes) newes) (Some (es_lblk newes)))
      else Ok (- ENOMEM, i)
  end.

(** [ext4_es_cache_extent], of an extent already made: it is inserted only if the
    tree has nothing of the range. *)
Definition es_cache (sb : es_sb) (i : es_info) (mem : bool) (newes : extent_status) : outcome es_info :=
  let lblk := es_lblk newes in
  let end_ := u32 (lblk + es_len newes - 1) in
  if s_fc_replay sb then Ok i
  else if es_len newes =? 0 then Ok i
  else
    _ ← BUG_ON (end_ <? lblk);
    es ← __es_tree_search (es_root i) lblk;
    if match es with None => true | Some es => end_ <? es_lblk es end
    then r ← __es_insert_extent i newes false mem; Ok r.2
    else Ok i.
Definition ext4_es_cache_extent (sb : es_sb) (i : es_info) (mem : bool) (lblk len pblk status : Z) : outcome es_info :=
  es_cache sb i mem (ext4_es_store_pblock_status lblk len pblk status).

(** * Lemmas *)

Context {Hrbok : RbTreeOk}.

Lemma nodes_set_root i t : nodes (set_root i t) = inorder t.
Proof. done. Qed.
Lemma nodes_set_cache i c : nodes (set_cache i c) = nodes i.
Proof. done. Qed.
Lemma nodes_erase i k : nodes (erase_node i k) = rb_erase (nodes i) k.
Proof. unfold erase_node. rewrite nodes_set_root. apply rb_shape_inorder. Qed.
Lemma nodes_link i n : nodes (link_node i n) = rb_link (nodes i) n.
Proof. unfold link_node. rewrite nodes_set_root. apply rb_shape_inorder. Qed.
Lemma rb_link_mid l1 n l2 : Forall (fun e => before e n) l1 -> Forall ext_ok l1 -> ext_ok n -> Forall (before n) l2 -> rb_link (l1 ++ l2) n = l1 ++ n :: l2.
Proof.
  intros H1 Hf Hn H2. induction H1 as [|e l1 He _ IH]; cbn.
  - destruct H2 as [|a l2 Ha H2]; cbn; [done|]. apply before_lt in Ha; [|done]. destruct (Z.ltb_spec (es_lblk n) (es_lblk a)); [done|lia].
  - apply Forall_cons in Hf as [Hoe Hf]. apply before_lt in He; [|done]. destruct (Z.ltb_spec (es_lblk n) (es_lblk e)); [lia|]. by rewrite IH.
Qed.

(** ** The counters *)

Lemma list_len_bound l : list_ok l -> Z.of_nat (length l) <= EXT_MAX_BLOCKS.
Proof.
  intros Hl. enough (forall lo, Forall (fun e => lo <= es_lblk e) l -> lo <= EXT_MAX_BLOCKS -> Z.of_nat (length l) <= EXT_MAX_BLOCKS - lo) as H.
  { specialize (H 0). rewrite Z.sub_0_r in H. apply H; [|by compute]. destruct Hl as [Hf _]. eapply Forall_impl; [exact Hf|]. by intros e [? _ _ _ _ _]. }
  induction l as [|e l IH]; intros lo Hlo Hm; [cbn; lia|]. apply list_ok_cons in Hl as ([? ? ? _ _ _] & Hl & Hb). apply Forall_cons in Hlo as [He _].
  specialize (IH Hl (es_lblk e + es_len e)). cbn [length]. rewrite Nat2Z.inj_succ. enough (Z.of_nat (length l) <= EXT_MAX_BLOCKS - (es_lblk e + es_len e)) by lia.
  apply IH; [exact Hb|done].
Qed.
Lemma shrinkable_le l : (length (shrinkable l) <= length l)%nat.
Proof. apply length_filter. Qed.

Lemma init_counts i l1 n l2 : counts i (l1 ++ l2) -> list_ok (l1 ++ n :: l2) -> counts (ext4_es_init_extent i n) (l1 ++ n :: l2).
Proof.
  intros [Ha Hs Hl] Hok. pose proof (list_len_bound _ Hok) as Hb. pose proof (shrinkable_le (l1 ++ l2)).
  rewrite !length_app in *. cbn [length] in *. unfold EXT_MAX_BLOCKS in Hb.
  unfold ext4_es_init_extent. destruct (ext4_es_must_keep n) eqn:E; split; cbn; rewrite ?u32_small by lia.
  all: rewrite ?shrinkable_app, ?shrinkable_cons; unfold may_drop; rewrite ?E, ?length_app in *; cbn [length negb]; try lia.
  - by rewrite <- length_app, <- shrinkable_app.
  - done.
  - rewrite Hs, shrinkable_app, length_app. lia.
  - destruct (Z.eqb_spec (i_es_shk_nr i) 0), (Z.eqb_spec (i_es_shk_nr i + 1) 0); done || lia.
Qed.
Lemma free_counts i l1 e l2 : counts i (l1 ++ e :: l2) -> list_ok (l1 ++ e :: l2) ->
  exists i', ext4_es_free_extent i e = Ok i' /\ counts i' (l1 ++ l2) /\ es_root i' = es_root i /\ cache_es i' = cache_es i /\
    i_pending i' = i_pending i /\ i_es_shrink_lblk i' = i_es_shrink_lblk i.
Proof.
  intros [Ha Hs Hl] Hok. pose proof (list_len_bound _ Hok) as Hb. pose proof (shrinkable_le (l1 ++ e :: l2)).
  rewrite shrinkable_app, shrinkable_cons in *. rewrite !length_app in *. cbn [length] in *. unfold EXT_MAX_BLOCKS in Hb.
  unfold ext4_es_free_extent, may_drop in *. destruct (ext4_es_must_keep e) eqn:E; cbn [negb] in *.
  - eexists; split; [done|]. split_and!; try done. split; cbn; rewrite ?shrinkable_app, ?length_app, ?u32_small by lia; [lia|lia|done].
  - cbn [length] in *. destruct (Z.eqb_spec (i_es_shk_nr i) 0); [lia|]. cbn [BUG_ON mbind outcome_bind].
    eexists; split; [done|]. split_and!; try done. split; cbn; rewrite ?shrinkable_app, ?length_app, ?u32_small by lia; [lia|lia|].
    destruct (Z.eqb_spec (i_es_shk_nr i - 1) 0); done.
Qed.

(** ** Merging *)

(** [c] holds the blocks of [a] and of [b], which follow each other. *)
Record joins (a b c : extent_status) : Prop := {
  jo_ok : ext_ok c;
  jo_lblk : es_lblk c = es_lblk a;
  jo_len : es_len c = es_len a + es_len b;
  jo_next : es_lblk b = es_lblk a + es_len a;
  jo_drop_l : may_drop c = may_drop a;
  jo_drop_r : may_drop c = may_drop b;
  jo_left x : content c x = content a x;
  jo_right x : content c x = content b x
}.

Lemma type_cases e : ext_ok e ->
  (ext4_es_type e = 1 /\ ext4_es_is_mapped e = true /\ ext4_es_is_hole e = false /\ ext4_es_is_delayed e = false) \/
  (ext4_es_type e = 2 /\ ext4_es_is_mapped e = true /\ ext4_es_is_hole e = false /\ ext4_es_is_delayed e = false) \/
  (ext4_es_type e = 4 /\ ext4_es_is_mapped e = false /\ ext4_es_is_hole e = false /\ ext4_es_is_delayed e = true) \/
  (ext4_es_type e = 8 /\ ext4_es_is_mapped e = false /\ ext4_es_is_hole e = true /\ ext4_es_is_delayed e = false).
Proof.
  intros [_ _ _ _ Ht _]. unfold ext4_es_is_mapped, ext4_es_is_written, ext4_es_is_unwritten, ext4_es_is_hole, ext4_es_is_delayed.
  rewrite !elem_of_cons in Ht. destruct Ht as [-> |[-> |[-> |[-> |[]%elem_of_nil]]]]; tauto.
Qed.
Lemma type_mapped a b : ext4_es_type a = ext4_es_type b -> ext4_es_is_mapped a = ext4_es_is_mapped b.
Proof. intros H. unfold ext4_es_is_mapped, ext4_es_is_written, ext4_es_is_unwritten. by rewrite H. Qed.
Lemma type_drop a b : ext4_es_type a = ext4_es_type b -> may_drop a = may_drop b.
Proof. intros H. unfold may_drop, ext4_es_must_keep, ext4_es_is_delayed. by rewrite H. Qed.
Lemma pblock_nonneg e : 0 <= ext4_es_pblock e < 2 ^ ES_SHIFT.
Proof. unfold ext4_es_pblock. rewrite Z.land_ones by (unfold ES_SHIFT; lia). apply Z.mod_pos_bound. by compute. Qed.

(** An extent as it is made. *)
Lemma new_ext_ok lblk len pb st : 0 <= lblk -> 0 < len -> lblk + len <= EXT_MAX_BLOCKS ->
  st ∈ [EXTENT_STATUS_WRITTEN; EXTENT_STATUS_UNWRITTEN; EXTENT_STATUS_DELAYED; EXTENT_STATUS_HOLE] ->
  (st = EXTENT_STATUS_WRITTEN \/ st = EXTENT_STATUS_UNWRITTEN -> 0 <= pb /\ pb + len <= 2 ^ ES_SHIFT) ->
  ext_ok (ext4_es_store_pblock_status lblk len pb st) /\ ext4_es_type (ext4_es_store_pblock_status lblk len pb st) = st.
Proof.
  intros ? ? ? Hst Hpb. set (e := ext4_es_store_pblock_status lblk len pb st).
  assert (0 <= st /\ Z.land st ES_TYPE_MASK = st) as [Hs Hm].
  { rewrite !elem_of_cons in Hst. destruct Hst as [-> |[-> |[-> |[-> |[]%elem_of_nil]]]]; by compute. }
  assert (ext4_es_type e = st) as Ht by (unfold e; by rewrite type_new). split; [|done].
  split; try done; [by apply (range_new lblk len)|by rewrite Ht|]. intros Hmap.
  assert (st = EXTENT_STATUS_WRITTEN \/ st = EXTENT_STATUS_UNWRITTEN) as Hwu.
  { unfold ext4_es_is_mapped, ext4_es_is_written, ext4_es_is_unwritten in Hmap. rewrite Ht in Hmap. rewrite !elem_of_cons in Hst.
    destruct Hst as [-> |[-> |[-> |[-> |[]%elem_of_nil]]]]; [by left|by right|done|done]. }
  destruct (Hpb Hwu) as [? ?]. unfold e. rewrite pblock_new by done. cbn [es_len ext4_es_store_pblock_status].
  rewrite Z.land_ones by (by compute). rewrite Z.mod_small; lia.
Qed.

Lemma can_merge_inv a b : ext_ok a -> ext_ok b -> ext4_es_can_be_merged a b = true ->
  ext4_es_type a = ext4_es_type b /\ es_lblk b = es_lblk a + es_len a /\
  (ext4_es_is_mapped a = true -> ext4_es_pblock b = ext4_es_pblock a + es_len a).
Proof.
  intros Ha Hb. unfold ext4_es_can_be_merged. destruct (Z.eqb_spec (ext4_es_type a) (ext4_es_type b)); [|done]. cbn [negb].
  destruct (EXT_MAX_BLOCKS <? _); [done|]. destruct (Z.eqb_spec (es_lblk a + es_len a) (es_lblk b)); [|done]. cbn [negb].
  fold (ext4_es_is_mapped a). intros H. split_and!; [done..|]. intros Hm. rewrite Hm in H.
  destruct (type_cases a Ha) as [H'|[H'|[H'|H']]]; destruct H' as (_ & Hm' & Hh & Hd); try congruence.
  all: rewrite Hh, Hd in H; cbn [andb] in H; destruct (Z.eqb_spec (u64 (ext4_es_pblock a + es_len a)) (ext4_es_pblock b)) as [He|]; [|done].
  all: pose proof (eo_pblk a Ha Hm); pose proof (eo_len a Ha); pose proof (pblock_nonneg a).
  all: rewrite u64_small in He; [done|]; change (2 ^ ES_SHIFT) with 576460752303423488 in *; lia.
Qed.

(** An extent over the blocks of both with the address of the first. *)
Lemma joins_intro a b c :
  ext_ok a -> ext_ok b -> ext4_es_can_be_merged a b = true ->
  es_lblk c = es_lblk a -> es_len c = es_len a + es_len b -> ext4_es_type c = ext4_es_type a ->
  (ext4_es_is_mapped a = true -> ext4_es_pblock c = ext4_es_pblock a) -> u64_range (es_pblk c) -> joins a b c.
Proof.
  intros Ha Hb Hm Hl Hn Ht Hp Hr. destruct (can_merge_inv a b Ha Hb Hm) as (Htab & Hnext & Hpab).
  pose proof Ha as [? ? ? ? ? ?]. pose proof Hb as [? ? ? ? ? Hpb].
  assert (ext4_es_is_mapped c = ext4_es_is_mapped a) as Hmc by (by apply type_mapped).
  assert (ext4_es_is_mapped a = ext4_es_is_mapped b) as Hmb by (by apply type_mapped).
  split; try done; try lia.
  - split; try lia; [done|by rewrite Ht|]. rewrite Hmc. intros Hma. specialize (Hp Hma). specialize (Hpab Hma). rewrite Hma in Hmb. specialize (Hpb (eq_sym Hmb)). lia.
  - by apply type_drop.
  - apply type_drop. congruence.
  - intros x. unfold content. rewrite Ht, Hmc, Hl. destruct (ext4_es_is_mapped a); [by rewrite Hp|done].
  - intros x. unfold content. rewrite Ht, Hmc, Hl, Htab, <- Hmb. destruct (ext4_es_is_mapped a); [|done].
    rewrite Hp, Hpab, Hnext by done. f_equal. lia.
Qed.

Lemma es_grow_joins a b : ext_ok a -> ext_ok b -> ext4_es_can_be_merged a b = true -> joins a b (es_grow a (es_len b)).
Proof.
  intros Ha Hb Hm. destruct (can_merge_inv a b Ha Hb Hm) as (_ & Hnext & _). pose proof Ha as [? ? ? ? _ _]. pose proof Hb as [? ? He _ _ _].
  unfold EXT_MAX_BLOCKS in He. apply joins_intro; auto. cbn. by rewrite u32_small by lia.
Qed.
Lemma es_merge_joins a b : ext_ok a -> ext_ok b -> ext4_es_can_be_merged a b = true -> joins a b (es_merge a b).
Proof.
  intros Ha Hb Hm. unfold es_merge. pose proof (es_grow_joins a b Ha Hb Hm) as Hj. destruct (ext4_es_is_referenced b); [|done].
  destruct (same_referenced). apply joins_intro; auto.
  - apply Hj.
  - by rewrite type_referenced.
  - intros _. by rewrite pblock_referenced.
  - apply range_referenced, Ha.
Qed.
Lemma es_prepend_joins n e : ext_ok n -> ext_ok e -> ext4_es_can_be_merged n e = true -> joins n e (es_prepend n e).
Proof.
  intros Hn He Hm. destruct (can_merge_inv n e Hn He Hm) as (Ht & Hnext & _). pose proof Hn as [? ? _ ? _ _]. pose proof He as [? ? Hend Hr _ _].
  unfold EXT_MAX_BLOCKS in Hend. unfold es_prepend. rewrite u32_small by lia. set (e' := es_set_range _ _ _).
  assert (ext4_es_type e' = ext4_es_type n) as Ht' by (by rewrite Ht). fold (ext4_es_is_mapped e'). rewrite (type_mapped e' n Ht').
  destruct (ext4_es_is_mapped n) eqn:Em.
  - apply joins_intro; auto; cbn; [lia|by rewrite type_store| |by apply range_store].
    intros _. rewrite pblock_store. done.
  - apply joins_intro; auto; cbn; [lia|congruence].
Qed.

Lemma joins_list l1 a b c l2 : joins a b c -> list_ok (l1 ++ a :: b :: l2) -> list_ok (l1 ++ c :: l2).
Proof.
  intros [? Hl Hn Hx _ _ _ _]. rewrite !list_ok_mid, list_ok_cons, Forall_cons. intros (? & ? & (? & ? & Hb) & Ha & _ & Hab). split_and!; auto.
  - eapply Forall_impl; [exact Ha|]. unfold before. intros y. by rewrite Hl.
  - eapply Forall_impl; [exact Hb|]. unfold before. intros y. cbn. lia.
  - intros x y Hi Hj. apply Hab; [done|by right].
Qed.
Lemma joins_map l1 a b c l2 x : joins a b c -> ext_ok a -> ext_ok b -> block_map (l1 ++ c :: l2) x = block_map (l1 ++ a :: b :: l2) x.
Proof.
  intros Hj [? ? _ _ _ _] [? ? _ _ _ _]. rewrite !block_map_app. f_equal. cbn. rewrite <- (jo_left a b c Hj), <- (jo_right a b c Hj).
  assert (in_range x c = in_range x a || in_range x b) as ->.
  { apply eq_true_iff_eq. rewrite orb_true_iff, !in_range_spec. destruct Hj. lia. }
  by destruct (in_range x a).
Qed.

(** The effect of a merge of two neighbours, from either side. *)
Lemma merge_step i l1 a b l2 :
  tree_ok i -> nodes i = l1 ++ a :: b :: l2 -> ext4_es_can_be_merged a b = true ->
  exists i', ext4_es_free_extent (erase_node (set_node i (es_lblk a) (fun _ => es_merge a b)) (es_lblk b)) b = Ok i' /\
    tree_ok i' /\ nodes i' = l1 ++ es_merge a b :: l2 /\ same_rest i i' /\ (forall x, block_map (nodes i') x = block_map (nodes i) x).
Proof.
  intros [Hok Hc] Hl Hm. rewrite Hl in Hok, Hc. pose proof Hok as (_ & Ha & (Hb & _ & _)%list_ok_cons & _)%list_ok_mid.
  pose proof (es_merge_joins a b Ha Hb Hm) as Hj. destruct (list_ok_off _ _ _ Hok) as [Ho1 Ho2].
  pose proof (set_node_mid i l1 a (b :: l2) (fun _ => es_merge a b) Hl Ho1 Ho2) as Hn. set (i1 := set_node _ _ _) in *.
  assert (list_ok ((l1 ++ [a]) ++ b :: l2)) as Hok2 by (by rewrite <- app_assoc).
  destruct (list_ok_off _ _ _ Hok2) as [[Ho3 Ho4]%Forall_app Ho5].
  assert (off (es_lblk b) (l1 ++ [es_merge a b])) as Ho6.
  { apply Forall_app; split; [done|]. constructor; [|constructor]. rewrite (jo_lblk a b _ Hj). by inversion_clear Ho4. }
  assert (nodes (erase_node i1 (es_lblk b)) = l1 ++ es_merge a b :: l2) as He.
  { rewrite nodes_erase, Hn. change (es_merge a b :: b :: l2) with ([es_merge a b] ++ b :: l2). rewrite app_assoc, rb_erase_mid by done. by rewrite <- app_assoc. }
  assert (counts i1 ((l1 ++ [a]) ++ b :: l2)) as Hc1 by (rewrite <- app_assoc; by apply (counts_same i _ _ _ Hc)).
  destruct (free_counts (erase_node i1 (es_lblk b)) (l1 ++ [a]) b l2) as (i' & Hf & Hci & Hr & Hcache & Hp); [|done|].
  { destruct Hc1. by split. }
  exists i'. split; [done|]. assert (nodes i' = l1 ++ es_merge a b :: l2) as Hn' by (unfold nodes; by rewrite Hr).
  split_and!; [|done|done|].
  - split; rewrite Hn'; [by apply (joins_list _ a b)|]. rewrite <- app_assoc in Hci. apply (mid_same_counts i' _ _ a); auto. apply Hj.
  - intros x. rewrite Hn', Hl. by apply joins_map.
Qed.

(** What a merge or an insertion must do: the tree stays well formed, with a
    node to cache. *)
Definition merged (i : es_info) (r : outcome (extent_status * es_info)) : Prop :=
  exists e i', r = Ok (e, i') /\ tree_ok i' /\ e ∈ nodes i' /\ same_rest i i' /\ forall x, block_map (nodes i') x = block_map (nodes i) x.

Lemma merged_id i e : tree_ok i -> e ∈ nodes i -> merged i (Ok (e, i)).
Proof. intros. exists e, i. by split_and!. Qed.
Lemma merged_step i l1 a b l2 : tree_ok i -> nodes i = l1 ++ a :: b :: l2 -> ext4_es_can_be_merged a b = true ->
  merged i (i' ← ext4_es_free_extent (erase_node (set_node i (es_lblk a) (fun _ => es_merge a b)) (es_lblk b)) b; Ok (es_merge a b, i')).
Proof.
  intros Hi Hl Hm. destruct (merge_step i l1 a b l2 Hi Hl Hm) as (i' & -> & ? & Hn & ? & ?). cbn [mbind outcome_bind].
  exists (es_merge a b), i'. split_and!; [done..| |done|done]. rewrite Hn. set_solver.
Qed.

Lemma merge_left_ok i l1 e l2 : tree_ok i -> nodes i = l1 ++ e :: l2 -> merged i (ext4_es_try_to_merge_left i e).
Proof.
  intros Hi Hl. pose proof (tk_list i Hi) as Hok. rewrite Hl in Hok. destruct (list_ok_off _ _ _ Hok) as [Ho1 Ho2].
  unfold ext4_es_try_to_merge_left. assert (rb_prev (nodes i) (es_lblk e) = last l1) as -> by (rewrite Hl; by apply rb_prev_mid).
  assert (e ∈ nodes i) by (rewrite Hl; set_solver). destruct l1 as [|a l1 _] using rev_ind; [by apply merged_id|]. rewrite last_snoc.
  destruct (ext4_es_can_be_merged a e) eqn:Em; [|by apply merged_id]. rewrite <- app_assoc in Hl. by apply (merged_step i l1 a e l2).
Qed.
Lemma merge_right_ok i l1 e l2 : tree_ok i -> nodes i = l1 ++ e :: l2 -> merged i (ext4_es_try_to_merge_right i e).
Proof.
  intros Hi Hl. pose proof (tk_list i Hi) as Hok. rewrite Hl in Hok. destruct (list_ok_off _ _ _ Hok) as [Ho1 Ho2].
  unfold ext4_es_try_to_merge_right. assert (rb_next (nodes i) (es_lblk e) = head l2) as -> by (rewrite Hl; by apply rb_next_mid).
  assert (e ∈ nodes i) by (rewrite Hl; set_solver). destruct l2 as [|a l2]; cbn [head]; [by apply merged_id|].
  destruct (ext4_es_can_be_merged e a) eqn:Em; [|by apply merged_id]. by apply (merged_step i l1 e a l2).
Qed.

(** ** Insertion *)

Inductive insert_end (n : extent_status) (l : list extent_status) : insert_at -> Prop :=
| insert_before l1 e l2 : l = l1 ++ e :: l2 -> Forall (fun a => before a n) l1 -> before n e -> ext4_es_can_be_merged n e = true -> insert_end n l (MergeBefore e)
| insert_after l1 e l2 : l = l1 ++ e :: l2 -> before e n -> Forall (before n) l2 -> ext4_es_can_be_merged e n = true -> insert_end n l (MergeAfter e)
| insert_attach l1 l2 : l = l1 ++ l2 -> Forall (fun a => before a n) l1 -> Forall (before n) l2 -> insert_end n l Attach.

Lemma before_trans a b c : ext_ok b -> before a b -> before b c -> before a c.
Proof. intros [_ ? _ _ _ _]. unfold before. lia. Qed.
Lemma before_all_l n e l : ext_ok e -> Forall (fun a => before a e) l -> before e n -> Forall (fun a => before a n) l.
Proof. intros He Hl Hn. eapply Forall_impl; [exact Hl|]. intros a Ha. by apply (before_trans a e n). Qed.
Lemma before_all_r n e l : ext_ok e -> Forall (before e) l -> before n e -> Forall (before n) l.
Proof. intros He Hl Hn. eapply Forall_impl; [exact Hl|]. intros a Ha. by apply (before_trans n e a). Qed.

Definition apart (n e : extent_status) : Prop := before e n \/ before n e.

(** Nothing fits between extents that follow each other. *)
Lemma no_room_before n e a : ext_ok n -> ext_ok e -> ext_ok a -> ext4_es_can_be_merged n e = true -> before a e -> apart n a -> before a n.
Proof.
  intros Hn He Ha Hm Hae [?|Hna]; [done|]. destruct (can_merge_inv n e Hn He Hm) as (_ & Hx & _). apply before_lt in Hae; [|done].
  unfold before in Hna. lia.
Qed.
Lemma no_room_after n e a : ext_ok n -> ext_ok e -> ext_ok a -> ext4_es_can_be_merged e n = true -> before e a -> apart n a -> before n a.
Proof.
  intros Hn He Ha Hm Hae [Hna|?]; [|done]. destruct (can_merge_inv e n He Hn Hm) as (_ & Hx & _). apply before_lt in Hna; [|done].
  unfold before in *. lia.
Qed.

Lemma insert_walk_spec n t L R : ext_ok n ->
  list_ok (L ++ inorder t ++ R) -> Forall (fun a => before a n) L -> Forall (before n) R -> Forall (apart n) (inorder t) ->
  exists r, insert_walk t n = Ok r /\ insert_end n (L ++ inorder t ++ R) r.
Proof.
  intros Hn. revert L R. induction t as [|l IHl e r IHr]; intros L R Hok HL HR Hap; cbn [insert_walk inorder app] in *.
  - exists Attach. split; [done|]. by apply (insert_attach _ _ L R).
  - rewrite <- app_assoc in *. cbn [app] in *. rewrite (app_assoc L) in Hok. pose proof Hok as Hok'.
    apply list_ok_mid in Hok' as ([Hfl _] & He & [Hfr _] & Ha & Hb & _). apply Forall_app in Hap as [Hapl [Hae Hapr]%Forall_cons].
    pose proof (eo_len n Hn). pose proof (eo_len e He). destruct (Z.ltb_spec (es_lblk n) (es_lblk e)).
    + assert (before n e) as Hbe by (destruct Hae as [Hx|Hx]; [unfold before in Hx; lia|done]). pose proof (before_all_r n e _ He Hb Hbe) as Hr'.
      destruct (ext4_es_can_be_merged n e) eqn:Em.
      * eexists; split; [done|]. rewrite app_assoc. apply (insert_before _ _ (L ++ inorder l) e (inorder r ++ R)); auto.
        apply Forall_app; split; [done|]. apply Forall_app in Ha as [_ Ha]. apply Forall_app in Hfl as [_ Hfl]. rewrite Forall_forall in *.
        intros a Hi. apply (no_room_before n e a); auto.
      * rewrite <- app_assoc in Hok. apply IHl; auto.
    + assert (before e n) as Hbe by (destruct Hae as [Hx|Hx]; [done|unfold before in Hx; lia]). pose proof (before_all_l n e _ He Ha Hbe) as Hl'.
      rewrite es_end_ok by done. cbn [mbind outcome_bind]. destruct (Z.ltb_spec (es_lblk e + es_len e - 1) (es_lblk n)); [|unfold before in Hbe; lia].
      rewrite (app_assoc L). destruct (ext4_es_can_be_merged e n) eqn:Em.
      * eexists; split; [done|]. apply (insert_after _ _ (L ++ inorder l) e (inorder r ++ R)); auto.
        apply Forall_app; split; [|done]. apply Forall_app in Hb as [Hb _]. apply Forall_app in Hfr as [Hfr _]. rewrite Forall_forall in *.
        intros a Hi. apply (no_room_after n e a); auto.
      * change (e :: inorder r ++ R) with ([e] ++ inorder r ++ R) in *. rewrite (app_assoc (L ++ inorder l)) in *. apply IHr; auto.
        apply Forall_app; split; [done|]. by constructor.
Qed.

(** The block map with the blocks of [n] set. *)
Definition map_with (i : es_info) (n : extent_status) (b : Z) : option (Z * Z) :=
  if in_range b n then Some (content n b) else block_map (nodes i) b.

Lemma before_no_map l n b : Forall (fun a => before a n) l -> in_range b n = true -> block_map l b = None.
Proof. intros H Hb%in_range_spec. apply ends_before_map. eapply Forall_impl; [exact H|]. unfold before. intros a Ha. cbn in *. lia. Qed.
Lemma mid_map_with i l1 n l2 b : nodes i = l1 ++ l2 -> Forall (fun a => before a n) l1 -> block_map (l1 ++ n :: l2) b = map_with i n b.
Proof.
  intros Hl H1. unfold map_with. rewrite Hl, !block_map_app. cbn. destruct (in_range b n) eqn:E; [by rewrite (before_no_map l1 n b)|done].
Qed.

(** What [__es_insert_extent] must do. *)
Definition inserted (i : es_info) (n : extent_status) (i' : es_info) : Prop :=
  es_ok i' /\ same_rest i i' /\ forall b, block_map (nodes i') b = map_with i n b.

Lemma merged_inserted i i1 n r : merged i1 r -> same_rest i i1 -> (forall b, block_map (nodes i1) b = map_with i n b) ->
  exists i', (r ≫= fun r => Ok (0, set_cache r.2 (Some (es_lblk r.1)))) = Ok (0, i') /\ inserted i n i'.
Proof.
  intros (e & i2 & -> & Ht & He & [? ?] & Hm) [? ?] Hm1. cbn [mbind outcome_bind fst snd]. eexists; split; [done|]. split_and!.
  - split; [by destruct Ht as [? [? ? ?]]|]. cbn. intros k [= <-]. eauto.
  - split; cbn; congruence.
  - intros b. by rewrite nodes_set_cache, Hm, Hm1.
Qed.

(** A node replaced by what it makes with the new extent. *)
Lemma set_node_joined i l1 e e' l2 :
  tree_ok i -> nodes i = l1 ++ e :: l2 -> list_ok (l1 ++ e' :: l2) -> may_drop e' = may_drop e ->
  tree_ok (set_node i (es_lblk e) (fun _ => e')) /\ nodes (set_node i (es_lblk e) (fun _ => e')) = l1 ++ e' :: l2.
Proof.
  intros [Hok Hc] Hl Hok' Hd. rewrite Hl in Hok, Hc. destruct (list_ok_off _ _ _ Hok) as [H1 H2].
  pose proof (set_node_mid i l1 e l2 (fun _ => e') Hl H1 H2) as Hn. split; [|done].
  split; rewrite Hn; [done|]. by apply (mid_same_counts i _ _ e).
Qed.

Lemma list_ok_put l1 n l2 : list_ok (l1 ++ l2) -> ext_ok n -> Forall (fun a => before a n) l1 -> Forall (before n) l2 -> list_ok (l1 ++ n :: l2).
Proof. rewrite list_ok_app, list_ok_mid. intros (? & ? & ?) ? ? ?. split_and!; auto. Qed.

Lemma insert_ok i n prealloc mem : tree_ok i -> ext_ok n -> Forall (apart n) (nodes i) ->
  (exists i', __es_insert_extent i n prealloc mem = Ok (0, i') /\ inserted i n i') \/
  (prealloc || mem = false /\ __es_insert_extent i n prealloc mem = Ok (- ENOMEM, i)).
Proof.
  intros Hi Hn Hap. pose proof (tk_list i Hi) as Hok. unfold __es_insert_extent.
  destruct (insert_walk_spec n (es_root i) [] []) as (r & -> & He); [done|by rewrite app_nil_r|constructor..|done|].
  rewrite app_nil_r in He. cbn [app mbind outcome_bind] in *.
  destruct He as [l1 e l2 Hl H1 H2 Hm|l1 e l2 Hl H1 H2 Hm|l1 l2 Hl H1 H2]; fold (nodes i) in Hl; rewrite Hl in Hok.
  - left. pose proof Hok as (_ & He & _ & _ & Hb & _)%list_ok_mid. pose proof (es_prepend_joins n e Hn He Hm) as Hj.
    assert (list_ok (l1 ++ n :: e :: l2)) as Hok'.
    { apply list_ok_put; auto. constructor; [done|]. by apply (before_all_r n e). }
    destruct (set_node_joined i l1 e (es_prepend n e) l2 Hi Hl) as [Hi1 Hl1]; [by apply (joins_list _ n e)|apply Hj|].
    apply (merged_inserted i (set_node i (es_lblk e) (fun _ => es_prepend n e))); [by apply (merge_left_ok _ l1 _ l2)|done|].
    intros b. rewrite Hl1, (joins_map _ n e) by done. by apply mid_map_with.
  - left. pose proof Hok as (_ & He & _ & Ha & _ & _)%list_ok_mid. pose proof (es_grow_joins e n He Hn Hm) as Hj.
    assert (Forall (fun a => before a n) (l1 ++ [e])) as H1'.
    { apply Forall_app; split; [by apply (before_all_l n e)|by constructor]. }
    assert (nodes i = (l1 ++ [e]) ++ l2) as Hl' by (by rewrite <- app_assoc).
    assert (list_ok ((l1 ++ [e]) ++ n :: l2)) as Hok' by (apply list_ok_put; auto; by rewrite <- Hl', Hl).
    pose proof (fun b => mid_map_with i (l1 ++ [e]) n l2 b Hl' H1') as Hmap. rewrite <- app_assoc in Hok'. cbn [app] in Hok'.
    destruct (set_node_joined i l1 e (es_grow e (es_len n)) l2 Hi Hl) as [Hi1 Hl1]; [by apply (joins_list _ e n)|apply Hj|].
    apply (merged_inserted i (set_node i (es_lblk e) (fun _ => es_grow e (es_len n)))); [by apply (merge_right_ok _ l1 _ l2)|done|].
    intros b. rewrite Hl1, (joins_map _ e n) by done. rewrite <- Hmap. by rewrite <- app_assoc.
  - destruct (prealloc || mem); [left|right; done]. eexists; split; [done|]. pose proof (list_ok_put l1 n l2 Hok Hn H1 H2) as Hok'.
    set (i1 := ext4_es_init_extent i n). assert (nodes i1 = nodes i) as Hn1 by (unfold i1, ext4_es_init_extent; by destruct (ext4_es_must_keep n)).
    assert (same_rest i i1) as Hr1 by (unfold i1, ext4_es_init_extent; by destruct (ext4_es_must_keep n)).
    assert (nodes (link_node i1 n) = l1 ++ n :: l2) as Hn2.
    { rewrite nodes_link, Hn1, Hl. apply rb_link_mid; auto. by apply list_ok_app in Hok as [[? _] _]. }
    split_and!.
    + split; [split; rewrite nodes_set_cache, Hn2; [done|]|].
      * destruct Hi as [_ Hc]. rewrite Hl in Hc. pose proof (init_counts i l1 n l2 Hc Hok') as [? ? ?]. by split.
      * intros k [= <-]. exists n. split; [|done]. rewrite nodes_set_cache, Hn2. set_solver.
    + done.
    + intros b. rewrite nodes_set_cache, Hn2. by apply mid_map_with.
Qed.

(** Nothing of the range is in the tree. *)
Definition nothing_in (i : es_info) (lblk len : Z) : Prop := forall b, lblk <= b < lblk + len -> block_map (nodes i) b = None.

Lemma nothing_apart i n : es_ok i -> ext_ok n -> nothing_in i (es_lblk n) (es_len n) -> Forall (apart n) (nodes i).
Proof.
  intros Hi Hn Hno. apply Forall_forall. intros e He. pose proof (ek_list i Hi) as Hok. assert (ext_ok e) as Hoe by (by eapply Forall_forall; [apply Hok|]).
  destruct (Z.le_gt_cases (es_lblk e + es_len e) (es_lblk n)); [by left|]. destruct (Z.le_gt_cases (es_lblk n + es_len n) (es_lblk e)); [by right|].
  exfalso. pose proof (eo_len n Hn). pose proof (eo_len e Hoe). set (b := Z.max (es_lblk n) (es_lblk e)).
  assert (in_range b e = true) as Hb by (apply in_range_spec; lia). specialize (Hno b ltac:(lia)). by rewrite (holder_map _ e b Hok He Hb) in Hno.
Qed.

(** The search that guards [ext4_es_cache_extent]. *)
Lemma cache_guard i lblk len : es_ok i -> 0 < len ->
  match first_from lblk (nodes i) with None => true | Some es => lblk + len - 1 <? es_lblk es end = true <-> nothing_in i lblk len.
Proof.
  intros Hi Hlen. pose proof (ek_list i Hi) as Hok. destruct (first_from lblk (nodes i)) as [e|] eqn:Ef.
  - apply first_from_split in Ef as (l1 & l2 & Hl & H1 & He). rewrite Hl in Hok. pose proof Hok as (_ & Hoe & _ & _ & Hb & _)%list_ok_mid.
    rewrite Z.ltb_lt. unfold nothing_in. rewrite Hl. split.
    + intros Hlt b Hr. rewrite block_map_app, ends_before_map, starts_after_map; [done| |eapply Forall_impl; [exact H1|]; intros a Ha; cbn in *; lia].
      constructor; [lia|]. eapply Forall_impl; [exact Hb|]. intros a Ha%before_lt; [cbn; lia|done].
    + intros Hno. destruct (Z.lt_ge_cases (lblk + len - 1) (es_lblk e)); [done|]. exfalso. pose proof (eo_len e Hoe). specialize (Hno (Z.max lblk (es_lblk e)) ltac:(lia)).
      rewrite (holder_map _ e) in Hno; [done|done|set_solver|]. apply in_range_spec. lia.
  - apply first_from_none in Ef. split; [|done]. intros _ b Hr. apply ends_before_map. eapply Forall_impl; [exact Ef|]. intros a Ha. cbn in *. lia.
Qed.

Lemma cache_ok sb i mem n :
  es_ok i -> s_fc_replay sb = false -> ext_ok n ->
  exists i', es_cache sb i mem n = Ok i' /\ es_ok i' /\ same_rest i i' /\
    ((nothing_in i (es_lblk n) (es_len n) /\ (mem = true -> inserted i n i') /\ (mem = false -> inserted i n i' \/ i' = i)) \/
     (~ nothing_in i (es_lblk n) (es_len n) /\ i' = i)).
Proof.
  intros Hi Hr Hn. pose proof Hn as [H0 Hl Hend _ _ _]. unfold EXT_MAX_BLOCKS in Hend. set (lblk := es_lblk n) in *. set (len := es_len n) in *.
  unfold es_cache. fold lblk len. rewrite Hr, u32_small by lia. destruct (Z.eqb_spec len 0); [lia|].
  destruct (Z.ltb_spec (lblk + len - 1) lblk); [lia|]. cbn [BUG_ON mbind outcome_bind]. rewrite es_tree_search_spec by (apply Hi). cbn [mbind outcome_bind].
  pose proof (cache_guard i lblk len Hi Hl) as Hg. change (inorder (es_root i)) with (nodes i).
  destruct (match first_from lblk (nodes i) with None => true | Some es => _ end).
  2:{ exists i. split_and!; try done. right. split; [|done]. by intros ?%Hg. }
  assert (nothing_in i lblk len) as Hno by (by apply Hg).
  destruct (insert_ok i n false mem (ek_tree i Hi) Hn (nothing_apart i n Hi Hn Hno)) as [(i' & -> & Hins)|[Hm ->]]; cbn [mbind outcome_bind snd].
  - exists i'. destruct Hins as (? & ? & ?). split_and!; try done. left. split_and!; [done|by intros _|by left].
  - exists i. split_and!; try done. left. cbn in Hm. subst mem. split_and!; [done|done|by right].
Qed.
End insert.
