(* ===== verification/ExtRemove.v ===== *)
(** Taking a range of blocks out of the extent status tree ([extents_status.c]):
    counting the reservations of delayed blocks, [__es_remove_extent] and
    [ext4_es_remove_extent]; what they leave in the tree and release. *)

From stdpp Require Import sorting.
From S2P Require Import Prelude Pages Friend ExtStatus ExtInsert.

(** ** Reservations of delayed blocks *)

(** [left_es] points to a node. *)
Record rsvd_count := Rsvd {
  ndelayed : Z;
  first_do_lblk_found : bool;
  first_do_lblk : Z;
  last_do_lblk : Z;
  left_es : option Z;
  partial : bool;
  lclu : Z
}.
Definition rc_count (rc : rsvd_count) (n : Z) : rsvd_count :=
  Rsvd (s32 (ndelayed rc + n)) (first_do_lblk_found rc) (first_do_lblk rc) (last_do_lblk rc) (left_es rc) (partial rc) (lclu rc).
Definition rc_seen (rc : rsvd_count) (first last : Z) : rsvd_count :=
  Rsvd (ndelayed rc) true (if first_do_lblk_found rc then first_do_lblk rc else first) last (left_es rc) (partial rc) (lclu rc).
Definition rc_partial (rc : rsvd_count) (p : bool) (c : Z) : rsvd_count :=
  Rsvd (ndelayed rc) (first_do_lblk_found rc) (first_do_lblk rc) (last_do_lblk rc) (left_es rc) p c.

(** The fields only large clusters use start as zero. *)
Definition init_rsvd (sb : es_sb) (i : es_info) (lblk : Z) (es : extent_status) : rsvd_count :=
  if 1 <? s_cluster_ratio sb
  then Rsvd 0 false 0 0 (if es_lblk es <? lblk then Some (es_lblk es) else es_lblk <$> rb_prev (nodes i) (es_lblk es)) false 0
  else Rsvd 0 false 0 0 None false 0.

Definition count_rsvd (sb : es_sb) (lblk len : Z) (es : extent_status) (rc : rsvd_count) : outcome rsvd_count :=
  if negb (ext4_es_is_delayed es) then Ok rc
  else if s_cluster_ratio sb =? 1 then Ok (rc_count rc (s32 len))
  else
    let i := if lblk <? es_lblk es then es_lblk es else lblk in
    let end_ := u32 (lblk + u32 len - 1) in
    es_end ← ext4_es_end es;
    let end_ := if es_end <? end_ then es_end else end_ in
    let rc := rc_seen rc i end_ in
    let rc := if partial rc && negb (lclu rc =? EXT4_B2C sb i) then rc_partial (rc_count rc 1) false (lclu rc) else rc in
    let first_full := negb (EXT4_LBLK_COFF sb i =? 0) && (EXT4_LBLK_CFILL sb i <=? end_) in
    let rc := if first_full then rc_partial (rc_count rc 1) false (lclu rc) else rc in
    let i := if first_full then u32 (EXT4_LBLK_CFILL sb i + 1) else i in
    let whole := u32 (i + s_cluster_ratio sb - 1) <=? end_ in
    let nclu := Z.shiftr (u32 (end_ - i + 1)) (s_cluster_bits sb) in
    let rc := if whole then rc_count rc nclu else rc in
    let i := if whole then u32 (i + Z.shiftl nclu (s_cluster_bits sb)) else i in
    Ok (if negb (partial rc) && (i <=? end_) then rc_partial rc true (EXT4_B2C sb i) else rc).

(** The loops of [get_rsvd] over the neighbours of the range: is there a delayed
    extent in the cluster of its first, or of its last, delayed block? *)
Fixpoint left_scan (first_blk : Z) (l : list extent_status) : outcome bool :=
  match l with
  | [] => Ok false
  | es :: l =>
      es_end ← ext4_es_end es;
      if first_blk <=? es_end then if ext4_es_is_delayed es then Ok true else left_scan first_blk l else Ok false
  end.
Fixpoint right_scan (last_blk : Z) (l : list extent_status) : bool :=
  match l with
  | [] => false
  | es :: l => if es_lblk es <=? last_blk then if ext4_es_is_delayed es then true else right_scan last_blk l else false
  end.

(** The nodes from a pointer on. *)
Definition nodes_at (i : es_info) (p : option Z) : list extent_status := from_option (nodes_from (nodes i)) [] p.

Definition get_rsvd (sb : es_sb) (i : es_info) (end_ : Z) (right_es : option Z) (rc : rsvd_count) : outcome (Z * es_info) :=
  if 1 <? s_cluster_ratio sb
  then
    let rc := if partial rc then rc_count rc 1 else rc in
    if ndelayed rc =? 0 then Ok (0, i)
    else
      let first_lclu := EXT4_B2C sb (first_do_lblk rc) in
      let last_lclu := EXT4_B2C sb (last_do_lblk rc) in
      left_delayed ← left_scan (EXT4_LBLK_CMASK sb (first_do_lblk rc)) (from_option (nodes_before (nodes i)) [] (left_es rc));
      let rc := if left_delayed : bool then rc_count rc (-1) else rc in
      right_delayed ←
        (match nodes_at i right_es with
         | [] => Ok false
         | es :: l =>
             if negb left_delayed || negb (first_lclu =? last_lclu)
             then es_end ← ext4_es_end es; Ok (right_scan (EXT4_LBLK_CFILL sb (last_do_lblk rc)) (if end_ <? es_end then es :: l else l))
             else Ok false
         end);
      let rc := if right_delayed : bool then rc_count rc (-1) else rc in
      let same := first_lclu =? last_lclu in
      let first_lclu := if negb same && left_delayed then u32 (first_lclu + 1) else first_lclu in
      let last_lclu := if negb same && right_delayed then u32 (last_lclu - 1) else last_lclu in
      let count_pending := if same then negb (left_delayed || right_delayed) else first_lclu <=? last_lclu in
      let found := filter (fun c => first_lclu <= c <= last_lclu) (i_pending i) in
      if count_pending
      then Ok (s32 (ndelayed rc - Z.of_nat (size found)), set_pending i (i_pending i ∖ found))
      else Ok (ndelayed rc, i)
  else Ok (ndelayed rc, i).

(** ** Removal *)

Section remove.
Context `{Hrb : RbTree}.

(** An extent cut to the blocks after [end_]. *)
Definition es_cut (es : extent_status) (end_ len : Z) : extent_status :=
  let es' := es_set_range es (u32 (end_ + 1)) len in
  if ext4_es_is_written es' || ext4_es_is_unwritten es' then ext4_es_store_pblock es' (u64 (es_pblk es + es_len es - len)) else es'.
(** A new extent for them. *)
Definition es_tail (es : extent_status) (end_ len : Z) : extent_status :=
  let block := if ext4_es_is_written es || ext4_es_is_unwritten es then u64 (ext4_es_pblock es + es_len es - len) else 0x7FDEADBEEF in
  ext4_es_store_pblock_status (u32 (end_ + 1)) len block (ext4_es_status es).

(** [count_rsvd] where the reservations are counted. *)
Definition if_counted (count_reserved : bool) (sb : es_sb) (lblk len : Z) (es : extent_status) (rc : rsvd_count) : outcome rsvd_count :=
  if count_reserved then count_rsvd sb lblk len es rc else Ok rc.

(** The loop that erases the extents that end in the range, from the first of
    [l] on; it gives the pointer to the extent it stops at. *)
Fixpoint erase_loop (count_reserved : bool) (sb : es_sb) (end_ : Z) (l : list extent_status) (i : es_info) (rc : rsvd_count)
    : outcome (option extent_status * es_info * rsvd_count) :=
  match l with
  | [] => Ok (None, i, rc)
  | es :: l =>
      es_end ← ext4_es_end es;
      if es_end <=? end_
      then
        rc ← if_counted count_reserved sb (es_lblk es) (es_len es) es rc;
        i ← ext4_es_free_extent (erase_node i (es_lblk es)) es;
        erase_loop count_reserved sb end_ l i rc
      else Ok (Some es, i, rc)
  end.

(** The end of [__es_remove_extent]. *)
Definition out_get_reserved (count_reserved : bool) (sb : es_sb) (i : es_info) (end_ : Z) (es : option Z) (rc : rsvd_count)
    : outcome (Z * option Z * es_info) :=
  if count_reserved then r ← get_rsvd sb i end_ es rc; Ok (0, Some r.1, r.2) else Ok (0, None, i).

(** The range is inside the extent: a node for the blocks after it.  Without
    memory the node is given up, unless it has to be kept. *)
Definition remove_inside (count_reserved : bool) (sb : es_sb) (i : es_info) (es : extent_status) (end_ len1 len2 : Z) (rc : rsvd_count) (prealloc mem : bool)
    : outcome (Z * option Z * es_info) :=
  let newes := es_tail es end_ len2 in
  r ← __es_insert_extent i newes prealloc mem;
  if negb (r.1 =? 0)
  then
    if negb (ext4_es_must_keep newes) then Ok (0, None, r.2)
    else Ok (r.1, None, set_node r.2 (es_lblk es) (fun e => es_set_range e (es_lblk es) (es_len es)))
  else
    rc ← if_counted count_reserved sb (u32 (es_lblk es + len1)) (u32 (es_len es - len1 - len2)) es rc;
    out_get_reserved count_reserved sb r.2 end_ (Some (es_lblk es)) rc.

(** The range takes the front of the extent. *)
Definition remove_front (count_reserved : bool) (sb : es_sb) (i : es_info) (es : extent_status) (end_ len1 len2 : Z) (rc : rsvd_count)
    : outcome (Z * option Z * es_info) :=
  let i := set_node i (es_lblk es) (fun _ => es_cut es end_ len2) in
  rc ← if_counted count_reserved sb (u32 (es_lblk es + len1)) (u32 (es_len es - len1 - len2)) es rc;
  out_get_reserved count_reserved sb i end_ (Some (u32 (end_ + 1))) rc.

(** The extents that end in the range, and the front of the one after them. *)
Definition remove_rest (count_reserved : bool) (sb : es_sb) (i : es_info) (l : list extent_status) (end_ : Z) (rc : rsvd_count)
    : outcome (Z * option Z * es_info) :=
  r ← erase_loop count_reserved sb end_ l i rc;
  match r with
  | (None, i, rc) => out_get_reserved count_reserved sb i end_ None rc
  | (Some es, i, rc) =>
      if es_lblk es <? u32 (end_ + 1)
      then
        es_end ← ext4_es_end es;
        let len1 := u32 (es_end - end_) in
        rc ← if_counted count_reserved sb (es_lblk es) (u32 (es_len es - len1)) es rc;
        let i := set_node i (es_lblk es) (fun _ => es_cut es end_ len1) in
        out_get_reserved count_reserved sb i end_ (Some (u32 (end_ + 1))) rc
      else out_get_reserved count_reserved sb i end_ (Some (es_lblk es)) rc
  end.

(** The result: the error, what is stored in [reserved], and the inode.
    [reserved]: the caller wants the count. *)
Definition __es_remove_extent (sb : es_sb) (i : es_info) (lblk end_ : Z) (reserved prealloc mem : bool)
    : outcome (Z * option Z * es_info) :=
  let count_reserved := reserved && s_delalloc sb in
  found ← __es_tree_search (es_root i) lblk;
  match found with
  | None => Ok (0, None, i)
  | Some es =>
      if end_ <? es_lblk es then Ok (0, None, i)
      else
        let i := set_cache i None in
        let rc := init_rsvd sb i lblk es in
        es_end ← ext4_es_end es;
        let len1 := if es_lblk es <? lblk then u32 (lblk - es_lblk es) else 0 in
        let len2 := if end_ <? es_end then u32 (es_end - end_) else 0 in
        let i := if 0 <? len1 then set_node i (es_lblk es) (fun e => es_set_range e (es_lblk e) len1) else i in
        if 0 <? len2
        then
          if 0 <? len1
          then remove_inside count_reserved sb i es end_ len1 len2 rc prealloc mem
          else remove_front count_reserved sb i es end_ len1 len2 rc
        else
          rc ← (if 0 <? len1 then if_counted count_reserved sb lblk (u32 (es_len es - len1)) es rc else Ok rc);
          let from := nodes_from (nodes i) (es_lblk es) in
          remove_rest count_reserved sb i (if 0 <? len1 then tail from else from) end_ rc
  end.

(** [ext4_es_remove_extent]: after a failure the node is allocated first, and the
    removal is tried again.  [mem] says of each try whether memory can be had.
    The result has the reservations to release. *)
Fixpoint remove_retry (fuel : nat) (sb : es_sb) (i : es_info) (lblk end_ : Z) (prealloc : bool) (mem : nat -> bool) (reserved : Z)
    : outcome (Z * es_info) :=
  match fuel with
  | O => Hang
  | S fuel =>
      r ← __es_remove_extent sb i lblk end_ true prealloc (mem fuel);
      let reserved := default reserved r.1.2 in
      if negb (r.1.1 =? 0) then remove_retry fuel sb r.2 lblk end_ true mem reserved else Ok (reserved, r.2)
  end.
Definition ext4_es_remove_extent (sb : es_sb) (i : es_info) (mem : nat -> bool) (lblk len : Z) : outcome (Z * es_info) :=
  if s_fc_replay sb then Ok (0, i)
  else if len =? 0 then Ok (0, i)
  else
    let end_ := u32 (lblk + len - 1) in
    _ ← BUG_ON (end_ <? lblk);
    remove_retry 2 sb i lblk end_ false mem 0.


(** * Lemmas *)

Context {Hrbok : RbTreeOk}.

(** ** Parts of an extent *)

(** [c] says of the [n] blocks from [a] on what [e] says of them. *)
Record part (e : extent_status) (a n : Z) (c : extent_status) : Prop := {
  pa_ok : ext_ok c;
  pa_lblk : es_lblk c = a;
  pa_len : es_len c = n;
  pa_type : ext4_es_type c = ext4_es_type e;
  pa_content x : content c x = content e x
}.
Lemma part_intro e a n c :
  ext_ok e -> es_lblk e <= a -> 0 < n -> a + n <= es_lblk e + es_len e -> es_lblk c = a -> es_len c = n ->
  ext4_es_type c = ext4_es_type e -> u64_range (es_pblk c) ->
  (ext4_es_is_mapped e = true -> ext4_es_pblock c = ext4_es_pblock e + (a - es_lblk e)) -> part e a n c.
Proof.
  intros [? ? ? ? Hty Hp] Ha Hn Hend Hl Hle Ht Hr Hpb. assert (ext4_es_is_mapped c = ext4_es_is_mapped e) as Hm by (by apply type_mapped).
  split; try done.
  - split; try lia; [done|by rewrite Ht|]. rewrite Hm. intros Hme. rewrite (Hpb Hme). specialize (Hp Hme). lia.
  - intros x. unfold content. rewrite Ht, Hm, Hl. destruct (ext4_es_is_mapped e); [|done]. rewrite Hpb by done. f_equal. lia.
Qed.

Lemma part_head e n : ext_ok e -> 0 < n <= es_len e -> part e (es_lblk e) n (es_set_range e (es_lblk e) n).
Proof. intros He Hn. pose proof He as [? ? ? ? _ _]. apply part_intro; auto; cbn; try lia. intros _. change (ext4_es_pblock (es_set_range e (es_lblk e) n)) with (ext4_es_pblock e). lia. Qed.

(** The address of a block of [e], as the cut computes it. *)
Lemma cut_address e x d : ext_ok e -> ext4_es_is_mapped e = true -> 0 <= d < es_len e -> x mod 2 ^ 59 = ext4_es_pblock e ->
  Z.land (u64 (x + d)) (Z.ones ES_SHIFT) = ext4_es_pblock e + d.
Proof.
  intros He Hm Hd Hx. pose proof (eo_pblk e He Hm). pose proof (pblock_nonneg e). rewrite Z.land_ones by (by compute). unfold u64, wrap, ES_SHIFT in *.
  change (2 ^ 64) with (2 ^ 59 * 32). replace ((x + d) mod (2 ^ 59 * 32) mod 2 ^ 59) with ((x + d) mod 2 ^ 59).
  - rewrite <- Z.add_mod_idemp_l, Hx, Z.mod_small by lia. done.
  - rewrite Z.mod_mod_divide; [done|]. exists 32. lia.
Qed.

Lemma part_cut e end_ : ext_ok e -> es_lblk e <= end_ < es_lblk e + es_len e - 1 ->
  part e (end_ + 1) (es_lblk e + es_len e - 1 - end_) (es_cut e end_ (es_lblk e + es_len e - 1 - end_)).
Proof.
  intros He Hend. pose proof He as [? ? Hmax ? _ _]. unfold EXT_MAX_BLOCKS in Hmax. unfold es_cut. rewrite (u32_small (end_ + 1)) by lia.
  set (e' := es_set_range _ _ _). fold (ext4_es_is_mapped e'). rewrite (type_mapped e' e) by done. destruct (ext4_es_is_mapped e) eqn:Em.
  - apply part_intro; auto; cbn; try lia; [by rewrite type_store|by apply range_store|]. intros _. rewrite pblock_store.
    replace (es_pblk e + es_len e - _) with (es_pblk e + (end_ + 1 - es_lblk e)) by lia. apply cut_address; auto; [lia|].
    unfold ext4_es_pblock. by rewrite Z.land_ones by (by compute).
  - apply part_intro; auto; cbn; try lia. congruence.
Qed.
Lemma part_tail e end_ : ext_ok e -> es_lblk e <= end_ < es_lblk e + es_len e - 1 ->
  part e (end_ + 1) (es_lblk e + es_len e - 1 - end_) (es_tail e end_ (es_lblk e + es_len e - 1 - end_)).
Proof.
  intros He Hend. pose proof He as [? ? Hmax Hr _ _]. unfold EXT_MAX_BLOCKS in Hmax. unfold es_tail. rewrite (u32_small (end_ + 1)) by lia.
  fold (ext4_es_is_mapped e). assert (0 <= ext4_es_status e) by (apply wrap_bound; lia).
  assert (Z.land (ext4_es_status e) ES_TYPE_MASK = ext4_es_type e) as Ht.
  { unfold ext4_es_status, ext4_es_type. rewrite u32_small; [done|]. rewrite Z.shiftr_div_pow2 by (by compute). unfold u64_range, ES_SHIFT in *. Z.to_euclidean_division_equations. lia. }
  apply part_intro; auto; cbn; try lia; [by rewrite type_new|apply (range_new (end_ + 1) (es_len e))|]. intros Em. rewrite Em, pblock_new by done.
  replace (ext4_es_pblock e + es_len e - _) with (ext4_es_pblock e + (end_ + 1 - es_lblk e)) by lia. apply cut_address; auto; [lia|].
  pose proof (pblock_nonneg e). by rewrite Z.mod_small.
Qed.

(** ** What is removed *)

(** The list without the blocks of the range. *)
Definition removed (lblk end_ : Z) (l l' : list extent_status) : Prop :=
  forall b, block_map l' b = if (lblk <=? b) && (b <=? end_) then None else block_map l b.

Lemma removed_app lblk end_ l1 l1' l2 l2' : removed lblk end_ l1 l1' -> removed lblk end_ l2 l2' -> removed lblk end_ (l1 ++ l2) (l1' ++ l2').
Proof. intros H1 H2 b. rewrite !block_map_app, H1, H2. by destruct ((lblk <=? b) && (b <=? end_)). Qed.
Lemma removed_trans lblk end_ l1 l2 l3 : removed lblk end_ l1 l2 -> removed lblk end_ l2 l3 -> removed lblk end_ l1 l3.
Proof. intros H1 H2 b. rewrite H2, H1. by destruct ((lblk <=? b) && (b <=? end_)). Qed.
Lemma removed_none lblk end_ l : (forall b, lblk <= b <= end_ -> block_map l b = None) -> removed lblk end_ l l.
Proof. intros H b. destruct (Z.leb_spec lblk b), (Z.leb_spec b end_); cbn; auto. Qed.
Lemma removed_before lblk end_ l : ends_before lblk l -> removed lblk end_ l l.
Proof. intros H. apply removed_none. intros b Hb. apply ends_before_map. eapply Forall_impl; [exact H|]. intros e He. cbn in *. lia. Qed.
Lemma removed_after lblk end_ l : starts_after end_ l -> removed lblk end_ l l.
Proof. intros H. apply removed_none. intros b Hb. apply starts_after_map. eapply Forall_impl; [exact H|]. intros e He. cbn in *. lia. Qed.
Lemma removed_inside lblk end_ e : lblk <= es_lblk e -> es_lblk e + es_len e <= end_ + 1 -> removed lblk end_ [e] [].
Proof.
  intros Hl He b. cbn. destruct (in_range b e) eqn:E; [|by destruct ((lblk <=? b) && (b <=? end_))]. apply in_range_spec in E.
  destruct (Z.leb_spec lblk b), (Z.leb_spec b end_); done || lia.
Qed.
(** A part that keeps the blocks of [e] that are not in the range. *)
Lemma removed_part lblk end_ e a n c : part e a n c ->
  (forall b, a <= b < a + n <-> es_lblk e <= b < es_lblk e + es_len e /\ ~ lblk <= b <= end_) -> removed lblk end_ [e] [c].
Proof.
  intros [_ Hl Hn _ Hc] H b. cbn. rewrite Hc. assert (in_range b c = in_range b e && negb ((lblk <=? b) && (b <=? end_))) as ->.
  { apply eq_true_iff_eq. rewrite andb_true_iff, negb_true_iff, !in_range_spec, Hl, Hn, H, andb_false_iff, Z.leb_gt, Z.leb_gt. lia. }
  by destruct (in_range b e), ((lblk <=? b) && (b <=? end_)).
Qed.

(** ** What is counted *)

(** The delayed blocks of the range. *)
Definition overlap (lblk end_ : Z) (e : extent_status) : Z := Z.max 0 (Z.min (end_ + 1) (es_lblk e + es_len e) - Z.max lblk (es_lblk e)).
Definition delayed_blocks (lblk end_ : Z) (e : extent_status) : Z := if ext4_es_is_delayed e then overlap lblk end_ e else 0.
Definition delayed_in (lblk end_ : Z) (l : list extent_status) : Z := foldr (fun e n => delayed_blocks lblk end_ e + n) 0 l.

Lemma delayed_in_app lblk end_ l1 l2 : delayed_in lblk end_ (l1 ++ l2) = delayed_in lblk end_ l1 + delayed_in lblk end_ l2.
Proof. unfold delayed_in. induction l1 as [|e l1 IH]; cbn; [done|]. rewrite IH. lia. Qed.
Lemma delayed_in_none lblk end_ l : Forall (fun e => overlap lblk end_ e = 0) l -> delayed_in lblk end_ l = 0.
Proof. unfold delayed_in. induction 1 as [|e l He _ IH]; cbn; [done|]. unfold delayed_blocks at 1. rewrite He, IH. by destruct (ext4_es_is_delayed e). Qed.
Lemma delayed_in_before lblk end_ l : ends_before lblk l -> delayed_in lblk end_ l = 0.
Proof. intros H. apply delayed_in_none. eapply Forall_impl; [exact H|]. intros e He. cbn in He. unfold overlap. lia. Qed.
Lemma delayed_in_after lblk end_ l : starts_after end_ l -> delayed_in lblk end_ l = 0.
Proof. intros H. apply delayed_in_none. eapply Forall_impl; [exact H|]. intros e He. cbn in He. unfold overlap. lia. Qed.

(** The count so far: of the delayed blocks where a cluster is a block, and
    nothing before the first of them. *)
Definition rc_sum (sb : es_sb) (rc : rsvd_count) (n : Z) : Prop :=
  0 <= n /\ (s_cluster_ratio sb = 1 -> ndelayed rc = s32 n) /\ (n = 0 -> partial rc = false /\ ndelayed rc = 0).

Lemma s32_add a b : s32 (s32 a + s32 b) = s32 (a + b).
Proof. wrap_lia. Qed.

Lemma counted_ok c sb lblk len es rc n : ext_ok es -> 0 < len -> (c = true -> rc_sum sb rc n) ->
  exists rc', if_counted c sb lblk len es rc = Ok rc' /\ (c = true -> rc_sum sb rc' (n + if ext4_es_is_delayed es then len else 0)).
Proof.
  intros He Hlen Hrc. unfold if_counted. destruct c; [|by exists rc]. specialize (Hrc eq_refl). unfold count_rsvd.
  destruct (ext4_es_is_delayed es); cbn [negb]; [|exists rc; split; [done|]; intros _; by rewrite Z.add_0_r].
  destruct Hrc as (H0 & H1 & _). destruct (Z.eqb_spec (s_cluster_ratio sb) 1) as [E|E].
  - eexists; split; [done|]. intros _. split_and!; [lia|intros _|lia]. cbn. rewrite (H1 E). apply s32_add.
  - rewrite es_end_ok by done. cbn [mbind outcome_bind]. eexists; split; [done|]. intros _. split_and!; [lia|done|lia].
Qed.
Lemma init_rsvd_sum sb i lblk es : rc_sum sb (init_rsvd sb i lblk es) 0.
Proof. unfold init_rsvd. split_and!; [done|intros E; by rewrite E|]. by destruct (1 <? _). Qed.

Lemma left_scan_ok b l : Forall ext_ok l -> exists r, left_scan b l = Ok r.
Proof.
  induction 1 as [|e l He _ [r IH]]; cbn; [by eauto|]. rewrite es_end_ok by done. cbn [mbind outcome_bind].
  destruct (b <=? _); [|by eauto]. destruct (ext4_es_is_delayed e); eauto.
Qed.
Lemma nodes_from_ok l k : Forall ext_ok l -> Forall ext_ok (nodes_from l k).
Proof. induction 1 as [|e l He Hl IH]; cbn; [done|]. destruct (es_lblk e =? k); [by constructor|done]. Qed.

(** The tree and its cache, whatever is pending. *)
Definition same_tree (i i' : es_info) : Prop :=
  es_root i' = es_root i /\ cache_es i' = cache_es i /\ i_es_all_nr i' = i_es_all_nr i /\ i_es_shk_nr i' = i_es_shk_nr i /\ i_es_listed i' = i_es_listed i /\
  i_es_shrink_lblk i' = i_es_shrink_lblk i.

Lemma get_rsvd_ok sb i end_ p rc : Forall ext_ok (nodes i) ->
  exists n i', get_rsvd sb i end_ p rc = Ok (n, i') /\ same_tree i i' /\ (s_cluster_ratio sb = 1 -> n = ndelayed rc /\ i' = i) /\
    (partial rc = false -> ndelayed rc = 0 -> i' = i).
Proof.
  intros Hf. unfold get_rsvd. destruct (Z.ltb_spec 1 (s_cluster_ratio sb)) as [H1|H1]; [|by exists (ndelayed rc), i].
  set (rc1 := if partial rc then _ else rc). destruct (Z.eqb_spec (ndelayed rc1) 0) as [|H0]; [eexists _, _; split_and!; [done..|lia|done]|].
  assert (partial rc = false -> ndelayed rc <> 0) as Hq by (unfold rc1 in H0; intros E; by rewrite E in H0).
  destruct (left_scan_ok (EXT4_LBLK_CMASK sb (first_do_lblk rc1)) (from_option (nodes_before (nodes i)) [] (left_es rc1))) as [ld ->].
  { destruct (left_es rc1); cbn; [|constructor]. by apply nodes_from_ok, Forall_reverse. }
  cbn [mbind outcome_bind].
  assert (Forall ext_ok (nodes_at i p)) as Hp by (destruct p; cbn; [by apply nodes_from_ok|constructor]).
  match goal with |- context [match nodes_at i p with [] => _ | _ => _ end] => set (rdm := match nodes_at i p with [] => _ | _ => _ end) end.
  assert (exists rd, rdm = Ok rd) as [rd Hrd].
  { unfold rdm. destruct Hp as [|e l He _]; [by eauto|]. destruct (negb ld || _); [|by eauto]. rewrite es_end_ok by done. cbn. by eauto. }
  rewrite Hrd. cbn [mbind outcome_bind]. match goal with |- context [if ?c then Ok (s32 _, _) else _] => destruct c end.
  all: eexists _, _; split_and!; [done|done|lia|intros E E0; by destruct (Hq E)].
Qed.

(** ** The steps of the removal *)

Lemma erase_step i L e l : tree_ok i -> nodes i = L ++ e :: l ->
  exists i', ext4_es_free_extent (erase_node i (es_lblk e)) e = Ok i' /\ tree_ok i' /\ nodes i' = L ++ l /\ cache_es i' = cache_es i /\ same_rest i i'.
Proof.
  intros [Hok Hc] Hl. rewrite Hl in Hok, Hc. destruct (list_ok_off _ _ _ Hok) as [H1 H2].
  destruct (free_counts (erase_node i (es_lblk e)) L e l) as (i' & Hf & Hci & Hr & Hcache & Hp & Hsh); [by destruct Hc|done|].
  exists i'. assert (nodes i' = L ++ l) as Hn by (unfold nodes; rewrite Hr; fold (nodes (erase_node i (es_lblk e))); by rewrite nodes_erase, Hl, rb_erase_mid).
  split_and!; try done. split; rewrite Hn; [|done]. apply list_ok_app. apply list_ok_mid in Hok as (? & _ & ? & _ & _ & ?). auto.
Qed.

Lemma delayed_whole lblk end_ e : ext_ok e -> lblk <= es_lblk e -> es_lblk e + es_len e <= end_ + 1 ->
  (if ext4_es_is_delayed e then es_len e else 0) = delayed_blocks lblk end_ e.
Proof. intros [? ? _ _ _ _] ? ?. unfold delayed_blocks, overlap. destruct (ext4_es_is_delayed e); lia. Qed.

Lemma erase_loop_ok c sb end_ lblk L l i rc n :
  tree_ok i -> cache_es i = None -> nodes i = L ++ l -> Forall (fun e => lblk <= es_lblk e) l -> (c = true -> rc_sum sb rc n) ->
  exists d r i' rc', erase_loop c sb end_ l i rc = Ok (head r, i', rc') /\ l = d ++ r /\ nodes i' = L ++ r /\
    tree_ok i' /\ cache_es i' = None /\ same_rest i i' /\ removed lblk end_ d [] /\
    (c = true -> rc_sum sb rc' (n + delayed_in lblk end_ d)) /\ (forall e, head r = Some e -> end_ < es_lblk e + es_len e - 1).
Proof.
  revert i rc n. induction l as [|e l IH]; intros i rc n Hi Hcache Hl Hlo Hrc; cbn [erase_loop].
  { exists [], [], i, rc. split_and!; try done; [|by intros; rewrite Z.add_0_r; auto]. intros b. by destruct ((lblk <=? b) && _). }
  apply Forall_cons in Hlo as [Hle Hlo]. assert (ext_ok e) as He.
  { pose proof (tk_list i Hi) as Hok. rewrite Hl in Hok. by apply list_ok_mid in Hok as (_ & ? & _). }
  rewrite es_end_ok by done. cbn [mbind outcome_bind]. destruct (Z.leb_spec (es_lblk e + es_len e - 1) end_).
  - destruct (counted_ok c sb (es_lblk e) (es_len e) e rc n He (eo_len e He) Hrc) as (rc1 & -> & Hrc1). cbn [mbind outcome_bind].
    destruct (erase_step i L e l Hi Hl) as (i1 & -> & Hi1 & Hl1 & Hc1 & [? ?]). cbn [mbind outcome_bind].
    destruct (IH i1 rc1 _ Hi1 ltac:(congruence) Hl1 Hlo Hrc1) as (d & r & i' & rc' & -> & -> & Hn & Hi' & Hc' & [? ?] & Hrem & Hrc' & Hr).
    exists (e :: d), r, i', rc'. split_and!; try done; [split; congruence|..].
    + apply (removed_app lblk end_ [e] [] d []); [apply removed_inside; lia|done].
    + intros Hc. specialize (Hrc' Hc). cbn. rewrite <- (delayed_whole lblk end_ e), Z.add_assoc by (done || lia). done.
  - exists [], (e :: l), i, rc. split_and!; try done; [intros b; by destruct ((lblk <=? b) && _)|by intros; rewrite Z.add_0_r; auto|].
    intros ? [= <-]. done.
Qed.

Lemma same_tree_ok i i' : same_tree i i' -> (tree_ok i -> tree_ok i') /\ nodes i' = nodes i.
Proof.
  intros (Hr & _ & ? & ? & ? & _). assert (nodes i' = nodes i) as Hn by (unfold nodes; by rewrite Hr). split; [|done].
  intros [? Hc]. split; rewrite Hn; [done|]. by apply (counts_same i _ _ _ Hc).
Qed.

(** What a removal must do. *)
Definition removal (c : bool) (sb : es_sb) (i : es_info) (lblk end_ : Z) (rsv : option Z) (i' : es_info) : Prop :=
  es_ok i' /\ i_es_shrink_lblk i' = i_es_shrink_lblk i /\
  (s_cluster_ratio sb = 1 -> i_pending i' = i_pending i /\ (c = true -> default 0 rsv = s32 (delayed_in lblk end_ (nodes i)))) /\
  (delayed_in lblk end_ (nodes i) = 0 -> i_pending i' = i_pending i).

Lemma out_ok c sb i0 i lblk end_ p rc n :
  tree_ok i -> (forall k, cache_es i = Some k -> exists e, e ∈ nodes i /\ es_lblk e = k) -> same_rest i0 i ->
  (c = true -> rc_sum sb rc n) -> n = delayed_in lblk end_ (nodes i0) ->
  exists rsv i', out_get_reserved c sb i end_ p rc = Ok (0, rsv, i') /\ removal c sb i0 lblk end_ rsv i' /\ nodes i' = nodes i.
Proof.
  intros Hi Hk [Hp Hsh] Hrc ->. unfold out_get_reserved, removal. destruct c.
  2:{ eexists _, i. split_and!; [done|by split|done|by intros _|done|done]. }
  destruct (Hrc eq_refl) as (_ & Hrc1 & Hrc0). destruct (get_rsvd_ok sb i end_ p rc) as (n & i' & -> & Hst & H1 & Hq); [apply Hi|]. cbn [mbind outcome_bind fst snd].
  destruct (same_tree_ok i i' Hst) as [Ht Hn]. destruct Hst as (_ & Hc & _ & _ & _ & Hs). eexists _, i'. split; [done|]. split; [|done]. split_and!.
  - split; [auto|]. rewrite Hc, Hn. exact Hk.
  - congruence.
  - intros E. destruct (H1 E) as [-> ->]. split; [done|]. intros _. by apply Hrc1.
  - intros E. destruct (Hrc0 E) as [Hpa Hnd]. by rewrite (Hq Hpa Hnd).
Qed.

(** A node replaced by a part of it. *)
Lemma set_node_part i l1 e l2 f a n : tree_ok i -> nodes i = l1 ++ e :: l2 -> part e a n (f e) -> es_lblk e <= a -> a + n <= es_lblk e + es_len e ->
  tree_ok (set_node i (es_lblk e) f) /\ nodes (set_node i (es_lblk e) f) = l1 ++ f e :: l2.
Proof.
  intros [Hok Hc] Hl [Hpo Hpl Hpn Hpt Hpc] Ha Hn. rewrite Hl in Hok, Hc. destruct (list_ok_off _ _ _ Hok) as [H1 H2].
  pose proof (set_node_mid i l1 e l2 f Hl H1 H2) as Hnd. split; [|done]. split; rewrite Hnd.
  - apply list_ok_mid in Hok as (? & ? & ? & Hx & Hy & ?). apply list_ok_mid. split_and!; auto.
    + eapply Forall_impl; [exact Hx|]. unfold before. intros x. cbn. lia.
    + eapply Forall_impl; [exact Hy|]. unfold before. intros x. cbn. lia.
  - apply (mid_same_counts i _ _ e); auto. by apply type_drop.
Qed.

(** Where the removal starts. *)
Record at_start (i0 : es_info) (lblk end_ : Z) (l1 : list extent_status) (e : extent_status) (l2 : list extent_status) : Prop := {
  as_ok : es_ok i0;
  as_nodes : nodes i0 = l1 ++ e :: l2;
  as_before : ends_before lblk l1;
  as_range : 0 <= lblk <= end_;
  as_end : end_ < EXT_MAX_BLOCKS;
  as_hit : lblk < es_lblk e + es_len e;
  as_meet : es_lblk e <= end_
}.

(** The range is inside [e]: nothing else is in it. *)
Lemma inside_delayed i0 lblk end_ l1 e l2 : at_start i0 lblk end_ l1 e l2 -> end_ < es_lblk e + es_len e ->
  delayed_in lblk end_ (nodes i0) = delayed_blocks lblk end_ e /\ starts_after end_ l2.
Proof.
  intros [Hi Hl Hb ? ? ? ?] Hin. pose proof (ek_list i0 Hi) as Hok. rewrite Hl in *. apply list_ok_mid in Hok as (_ & He & _ & _ & Ha & _).
  assert (starts_after end_ l2) as Hs by (eapply Forall_impl; [exact Ha|]; unfold before; intros x Hx; cbn in *; lia). split; [|done].
  rewrite delayed_in_app, delayed_in_before by done. change (delayed_in lblk end_ (e :: l2)) with (delayed_blocks lblk end_ e + delayed_in lblk end_ l2).
  rewrite (delayed_in_after lblk end_ l2) by done. lia.
Qed.

(** The blocks a removal without memory may also lose are not delayed. *)
Definition forgot (lblk end_ : Z) (l l' : list extent_status) : Prop := forall b,
  block_map l' b = (if (lblk <=? b) && (b <=? end_) then None else block_map l b) \/
  (block_map l' b = None /\ forall t p, block_map l b = Some (t, p) -> t <> EXTENT_STATUS_DELAYED).
Lemma removed_forgot lblk end_ l l' : removed lblk end_ l l' -> forgot lblk end_ l l'.
Proof. intros H b. left. apply H. Qed.

Definition remove_result (c : bool) (sb : es_sb) (i0 : es_info) (lblk end_ : Z) (have_mem : bool) (r : outcome (Z * option Z * es_info)) : Prop :=
  exists err rsv i', r = Ok (err, rsv, i') /\
    ((err = 0 /\ removal c sb i0 lblk end_ rsv i' /\ forgot lblk end_ (nodes i0) (nodes i') /\ (have_mem = true -> removed lblk end_ (nodes i0) (nodes i'))) \/
     (err = - ENOMEM /\ have_mem = false /\ rsv = None /\ es_ok i' /\ nodes i' = nodes i0 /\ same_rest i0 i' /\
       exists p, block_map (nodes i0) lblk = Some (EXTENT_STATUS_DELAYED, p))).

Lemma remove_result_ok c sb i0 lblk end_ m r rsv i' :
  r = Ok (0, rsv, i') -> removal c sb i0 lblk end_ rsv i' -> removed lblk end_ (nodes i0) (nodes i') -> remove_result c sb i0 lblk end_ m r.
Proof. intros -> H Hr. exists 0, rsv, i'. split; [done|]. left. split_and!; auto using removed_forgot. Qed.

Lemma cache_none_ok i : es_ok i -> tree_ok (set_cache i None).
Proof. by intros [[? [? ? ?]] _]. Qed.

Lemma remove_front_ok c sb i0 lblk end_ l1 e l2 rc m :
  at_start i0 lblk end_ l1 e l2 -> lblk <= es_lblk e -> end_ < es_lblk e + es_len e - 1 -> (c = true -> rc_sum sb rc 0) ->
  remove_result c sb i0 lblk end_ m (remove_front c sb (set_cache i0 None) e end_ 0 (es_lblk e + es_len e - 1 - end_) rc).
Proof.
  intros Hs Hlo Hhi Hrc. destruct (inside_delayed i0 lblk end_ l1 e l2 Hs) as [Hd Hafter]; [lia|]. destruct Hs as [Hi Hl Hb Hr Hmax Hhit Hmeet].
  assert (ext_ok e) as He by (pose proof (ek_list i0 Hi) as Hok; rewrite Hl in Hok; by apply list_ok_mid in Hok as (_ & ? & _)).
  pose proof He as [? ? Hend _ _ _]. unfold EXT_MAX_BLOCKS in *. pose proof (part_cut e end_ He ltac:(lia)) as Hp.
  set (len2 := es_lblk e + es_len e - 1 - end_) in *. unfold remove_front.
  destruct (set_node_part (set_cache i0 None) l1 e l2 (fun _ => es_cut e end_ len2) _ _ (cache_none_ok i0 Hi) Hl Hp) as [Ht Hn]; [lia..|].
  set (i := set_node _ _ _) in *.
  destruct (counted_ok c sb (u32 (es_lblk e + 0)) (u32 (es_len e - 0 - len2)) e rc 0 He ltac:(unfold len2; rewrite u32_small; lia) Hrc) as (rc' & -> & Hrc'). cbn [mbind outcome_bind].
  destruct (out_ok c sb i0 i lblk end_ (Some (u32 (end_ + 1))) rc' (0 + if ext4_es_is_delayed e then u32 (es_len e - 0 - len2) else 0) Ht) as (rsv & i' & Ho & Hrm & Hn'); [done|done|exact Hrc'| |].
  { rewrite Hd, u32_small by lia. unfold delayed_blocks, overlap. destruct (ext4_es_is_delayed e); lia. }
  apply (remove_result_ok _ _ _ _ _ _ _ _ _ Ho Hrm). rewrite Hn', Hn, Hl. apply removed_app; [by apply removed_before|].
  apply (removed_app lblk end_ [e] [es_cut e end_ len2]); [|by apply removed_after]. apply (removed_part _ _ _ _ _ _ Hp). lia.
Qed.

(** Both ends of an extent, without what is between them. *)
Lemma removed_ends lblk end_ e c1 c2 : es_lblk e < lblk -> lblk <= end_ -> end_ < es_lblk e + es_len e - 1 ->
  part e (es_lblk e) (lblk - es_lblk e) c1 -> part e (end_ + 1) (es_lblk e + es_len e - 1 - end_) c2 -> removed lblk end_ [e] [c1; c2].
Proof.
  intros ? ? ? [_ Hl1 Hn1 _ Hc1] [_ Hl2 Hn2 _ Hc2] b. cbn. rewrite Hc1, Hc2.
  assert (in_range b c1 || in_range b c2 = in_range b e && negb ((lblk <=? b) && (b <=? end_))) as Hin.
  { apply eq_true_iff_eq. rewrite orb_true_iff, andb_true_iff, negb_true_iff, !in_range_spec, Hl1, Hn1, Hl2, Hn2, andb_false_iff, Z.leb_gt, Z.leb_gt. lia. }
  destruct (in_range b c1), (in_range b c2), (in_range b e), ((lblk <=? b) && (b <=? end_)); done.
Qed.

(** The nodes once the extent ends before the range. *)
Record trimmed (i0 : es_info) (lblk end_ : Z) (l1 : list extent_status) (e : extent_status) (l2 : list extent_status) (i : es_info) (h tl : extent_status) : Prop := {
  tr_tree : tree_ok i;
  tr_nodes : nodes i = (l1 ++ [h]) ++ l2;
  tr_cache : cache_es i = None;
  tr_pblk : es_pblk h = es_pblk e;
  tr_rest : same_rest i0 i;
  tr_head : part e (es_lblk e) (lblk - es_lblk e) h;
  tr_tail : part e (end_ + 1) (es_lblk e + es_len e - 1 - end_) tl;
  tr_before : Forall (fun a => before a tl) (l1 ++ [h]);
  tr_after : Forall (before tl) l2
}.
Lemma trim_ok i0 lblk end_ l1 e l2 :
  at_start i0 lblk end_ l1 e l2 -> es_lblk e < lblk -> end_ < es_lblk e + es_len e - 1 ->
  let f := fun e0 => es_set_range e0 (es_lblk e0) (lblk - es_lblk e) in
  trimmed i0 lblk end_ l1 e l2 (set_node (set_cache i0 None) (es_lblk e) f) (f e) (es_tail e end_ (es_lblk e + es_len e - 1 - end_)).
Proof.
  intros [Hi Hl Hb Hr Hmax Hhit Hmeet] Hlo Hhi f.
  pose proof (ek_list i0 Hi) as Hok. rewrite Hl in Hok. apply list_ok_mid in Hok as (Hok1 & He & Hok2 & Hb1 & Hb2 & _).
  pose proof He as [? ? Hend _ _ _]. pose proof (part_tail e end_ He ltac:(lia)) as Hpt. pose proof (part_head e (lblk - es_lblk e) He ltac:(lia)) as Hph.
  destruct (set_node_part (set_cache i0 None) l1 e l2 f _ _ (cache_none_ok i0 Hi) Hl Hph) as [Ht Hn]; [lia..|].
  split; try done; [by rewrite <- app_assoc|..]; destruct Hpt as [_ Hpl Hpn _ _]; unfold before in *; rewrite ?Hpl, ?Hpn.
  - apply Forall_app; split; [|constructor; [cbn; lia|constructor]]. eapply Forall_impl; [exact Hb1|]. intros x. cbn. lia.
  - eapply Forall_impl; [exact Hb2|]. intros x. cbn. lia.
Qed.
Lemma trimmed_removed i0 lblk end_ l1 e l2 i h tl :
  at_start i0 lblk end_ l1 e l2 -> es_lblk e < lblk -> end_ < es_lblk e + es_len e - 1 -> trimmed i0 lblk end_ l1 e l2 i h tl ->
  forall b, map_with i tl b = if (lblk <=? b) && (b <=? end_) then None else block_map (nodes i0) b.
Proof.
  intros Hs Hlo Hhi [Ht Hn _ _ _ Hh Htl Hb1 Hb2] b. destruct (inside_delayed i0 lblk end_ l1 e l2 Hs) as [_ Hafter]; [lia|]. destruct Hs.
  rewrite <- (mid_map_with i (l1 ++ [h]) tl l2) by done. rewrite <- app_assoc, as_nodes0. cbn [app].
  apply (removed_app lblk end_ l1 l1 (e :: l2) (h :: tl :: l2)); [by apply removed_before|].
  apply (removed_app lblk end_ [e] [h; tl] l2 l2); [|by apply removed_after]. by apply removed_ends; [|lia|..].
Qed.

(** Without memory for the blocks after the range. *)
Lemma trimmed_forgot i0 lblk end_ l1 e l2 i h tl :
  at_start i0 lblk end_ l1 e l2 -> es_lblk e < lblk -> end_ < es_lblk e + es_len e - 1 -> trimmed i0 lblk end_ l1 e l2 i h tl ->
  ext4_es_type e <> EXTENT_STATUS_DELAYED -> forgot lblk end_ (nodes i0) (nodes i).
Proof.
  intros Hs Hlo Hhi Htr Hd b. pose proof (trimmed_removed i0 lblk end_ l1 e l2 i h tl Hs Hlo Hhi Htr b) as Hm. unfold map_with in Hm.
  destruct (in_range b tl) eqn:Eb; [right|by left]. destruct Htr as [Ht Hn _ _ _ Hh Htl Hb1 Hb2]. destruct Hs as [Hi Hl _ Hr _ _ _].
  split.
  - rewrite Hn, block_map_app, (before_no_map _ tl) by done. apply in_range_spec in Eb. rewrite starts_after_map; [done|].
    eapply Forall_impl; [exact Hb2|]. unfold before. intros x Hx. cbn in *. lia.
  - intros t p. rewrite (holder_map _ e b); [|apply (ek_list i0 Hi)|rewrite Hl; apply elem_of_app; right; left|].
    { intros Heq. apply (inj Some) in Heq. apply (f_equal fst) in Heq. cbn [content fst] in Heq. rewrite <- Heq. exact Hd. }
    apply in_range_spec in Eb. destruct Htl as [_ Hx Hy _ _]. apply in_range_spec. lia.
Qed.

Lemma delayed_is e : ext_ok e -> ext4_es_is_delayed e = true -> ext4_es_type e = EXTENT_STATUS_DELAYED.
Proof. intros He Hd. destruct (type_cases e He) as [H|[H|[H|H]]]; destruct H as (Ht & _ & _ & Hx); congruence || exact Ht. Qed.

Lemma remove_inside_ok c sb i0 lblk end_ l1 e l2 i h rc prealloc mem :
  let len2 := es_lblk e + es_len e - 1 - end_ in
  at_start i0 lblk end_ l1 e l2 -> es_lblk e < lblk -> end_ < es_lblk e + es_len e - 1 -> (c = true -> rc_sum sb rc 0) ->
  trimmed i0 lblk end_ l1 e l2 i h (es_tail e end_ len2) ->
  remove_result c sb i0 lblk end_ (prealloc || mem) (remove_inside c sb i e end_ (lblk - es_lblk e) len2 rc prealloc mem).
Proof.
  intros len2 Hs Hlo Hhi Hrc Htr. destruct (inside_delayed i0 lblk end_ l1 e l2 Hs) as [Hd _]; [lia|].
  pose proof (trimmed_removed _ _ _ _ _ _ _ _ _ Hs Hlo Hhi Htr) as Hrem. pose proof (trimmed_forgot _ _ _ _ _ _ _ _ _ Hs Hlo Hhi Htr) as Hforg.
  unfold remove_inside. set (tl := es_tail e end_ len2) in *. pose proof Htr as [Ht Hn Hcn Hpb [Hr1 Hr2] Hh Htl Hb1 Hb2].
  assert (ext_ok e) as He by (destruct Hs as [Hi Hl _ _ _ _ _]; pose proof (ek_list i0 Hi) as Hok; rewrite Hl in Hok; by apply list_ok_mid in Hok as (_ & ? & _)).
  pose proof He as [? ? Hend _ _ _]. destruct Hs as [Hi Hl Hb Hr Hmax Hhit Hmeet]. unfold EXT_MAX_BLOCKS in *.
  assert (ext4_es_must_keep tl = ext4_es_is_delayed e) as Hkeep by (unfold ext4_es_must_keep, ext4_es_is_delayed; by rewrite (pa_type _ _ _ _ Htl)).
  destruct (insert_ok i tl prealloc mem Ht (pa_ok _ _ _ _ Htl)) as [(i' & -> & Hok' & [Hr1' Hr2'] & Hmap)|[Hm ->]]; cbn [mbind outcome_bind fst snd].
  - rewrite Hn. apply Forall_app; split; [eapply Forall_impl; [exact Hb1|]; by left|eapply Forall_impl; [exact Hb2|]; by right].
  - change (negb (0 =? 0)) with false. cbv iota.
    destruct (counted_ok c sb (u32 (es_lblk e + (lblk - es_lblk e))) (u32 (es_len e - (lblk - es_lblk e) - len2)) e rc 0 He ltac:(unfold len2; rewrite u32_small; lia) Hrc) as (rc' & -> & Hrc'). cbn [mbind outcome_bind].
    destruct (out_ok c sb i0 i' lblk end_ (Some (es_lblk e)) rc' (0 + if ext4_es_is_delayed e then u32 (es_len e - (lblk - es_lblk e) - len2) else 0) (ek_tree i' Hok') (ek_cache i' Hok'))
      as (rsv & i'' & Ho & Hrm & Hn'); [split; congruence|exact Hrc'| |].
    { rewrite Hd, u32_small by lia. unfold delayed_blocks, overlap. destruct (ext4_es_is_delayed e); lia. }
    apply (remove_result_ok _ _ _ _ _ _ _ _ _ Ho Hrm). intros b. by rewrite Hn', Hmap.
  - rewrite Hm. change (negb (- ENOMEM =? 0)) with true. cbv iota. rewrite Hkeep. destruct (ext4_es_is_delayed e) eqn:Ed; cbn [negb].
    + eexists _, _, _. split; [done|]. right. rewrite <- app_assoc in Hn. cbn [app] in Hn.
      pose proof (tk_list i Ht) as Hok. rewrite Hn in Hok. destruct (list_ok_off _ _ _ Hok) as [Ho1 Ho2].
      pose proof (set_node_mid i l1 h l2 (fun e0 => es_set_range e0 (es_lblk e) (es_len e)) Hn Ho1 Ho2) as Hn'. rewrite (pa_lblk _ _ _ _ Hh) in Hn'.
      assert (es_set_range h (es_lblk e) (es_len e) = e) as Hback by (destruct e; unfold es_set_range; cbn in *; by rewrite Hpb).
      rewrite Hback, <- Hl in Hn'. split_and!; try done; try (cbn; congruence).
      2:{ rewrite (holder_map _ e lblk); [unfold content; rewrite (delayed_is e He Ed); by eexists|apply (ek_list i0 Hi)|rewrite Hl; apply elem_of_app; right; left|apply in_range_spec; lia]. }
      split; [|cbn; by rewrite Hcn]. split; rewrite Hn'; [apply (ek_list i0 Hi)|]. rewrite Hl. apply (mid_same_counts i _ _ h); try done.
      * rewrite <- Hn. apply Ht.
      * symmetry. apply type_drop, (pa_type _ _ _ _ Hh).
    + eexists _, _, _. split; [done|]. left. split_and!; [done|..|done].
      * split_and!; [split; [done|by rewrite Hcn]|done| |done]. intros E1. split; [done|]. intros _. rewrite Hd. unfold delayed_blocks. by rewrite Ed.
      * apply Hforg. intros Hx. unfold ext4_es_is_delayed in Ed. by rewrite Hx in Ed.
Qed.

Lemma after_first end_ e l : list_ok (e :: l) -> end_ < es_lblk e + es_len e -> starts_after end_ l.
Proof.
  intros (He & _ & Hb)%list_ok_cons Hend. eapply Forall_impl; [exact Hb|]. unfold before. intros x Hx. cbn in *. lia.
Qed.

Lemma no_cache i : cache_es i = None -> forall k, cache_es i = Some k -> exists e, e ∈ nodes i /\ es_lblk e = k.
Proof. by intros ->. Qed.

(** The extents of [M] are already treated: they are now those of [L]. *)
Lemma remove_rest_ok c sb i0 lblk end_ M L l i rc m :
  tree_ok i -> cache_es i = None -> same_rest i0 i -> nodes i = L ++ l -> nodes i0 = M ++ l -> 0 <= lblk <= end_ -> end_ < EXT_MAX_BLOCKS ->
  Forall (fun e => lblk <= es_lblk e) l -> removed lblk end_ M L -> (c = true -> rc_sum sb rc (delayed_in lblk end_ M)) ->
  remove_result c sb i0 lblk end_ m (remove_rest c sb i l end_ rc).
Proof.
  intros Hi Hcn [Hr1 Hr2] Hl Hl0 Hr Hmax Hlo Hrem Hrc. unfold remove_rest, EXT_MAX_BLOCKS in *.
  destruct (erase_loop_ok c sb end_ lblk L l i rc _ Hi Hcn Hl Hlo Hrc) as (d & r & i1 & rc1 & -> & -> & Hn1 & Hi1 & Hc1 & [Hr1' Hr2'] & Hd & Hrc1 & Hend).
  cbn [mbind outcome_bind]. assert (same_rest i0 i1) as Hrest by (split; congruence).
  assert (removed lblk end_ (M ++ d) L) as HL by (rewrite <- (app_nil_r L); by apply removed_app).
  rewrite app_assoc in Hl0. rewrite <- delayed_in_app in Hrc1.
  destruct r as [|e r]; cbn [head].
  { destruct (out_ok c sb i0 i1 lblk end_ None rc1 (delayed_in lblk end_ (M ++ d)) Hi1 (no_cache i1 Hc1) Hrest Hrc1) as (rsv & i' & Ho & Hrm & Hn'); [by rewrite Hl0, app_nil_r|].
    apply (remove_result_ok _ _ _ _ _ _ _ _ _ Ho Hrm). by rewrite Hn', Hn1, Hl0, !app_nil_r. }
  specialize (Hend e eq_refl). pose proof (tk_list i1 Hi1) as Hok. rewrite Hn1 in Hok. apply list_ok_app in Hok as (_ & Hok & _).
  pose proof Hok as (He & _ & _)%list_ok_cons. pose proof He as [? ? Hmx _ _ _]. unfold EXT_MAX_BLOCKS in Hmx.
  pose proof (after_first end_ e r Hok ltac:(lia)) as Hafter. rewrite (u32_small (end_ + 1)) by lia. destruct (Z.ltb_spec (es_lblk e) (end_ + 1)).
  - rewrite es_end_ok by done. cbn [mbind outcome_bind]. rewrite (u32_small (es_lblk e + es_len e - 1 - end_)) by lia.
    set (len1 := es_lblk e + es_len e - 1 - end_). pose proof (part_cut e end_ He ltac:(lia)) as Hp. fold len1 in Hp.
    destruct (counted_ok c sb (es_lblk e) (u32 (es_len e - len1)) e rc1 _ He ltac:(unfold len1; rewrite u32_small; lia) Hrc1) as (rc2 & -> & Hrc2). cbn [mbind outcome_bind].
    destruct (set_node_part i1 L e r (fun _ => es_cut e end_ len1) _ _ Hi1 Hn1 Hp) as [Ht Hn]; [lia..|].
    destruct (out_ok c sb i0 _ lblk end_ (Some (end_ + 1)) rc2 _ Ht (no_cache (set_node i1 _ _) Hc1) Hrest Hrc2) as (rsv & i' & Ho & Hrm & Hn').
    { rewrite Hl0, (delayed_in_app _ _ (M ++ d)). change (delayed_in lblk end_ (e :: r)) with (delayed_blocks lblk end_ e + delayed_in lblk end_ r).
      rewrite (delayed_in_after _ _ r), u32_small by (done || lia). apply Forall_app in Hlo as [_ [Hle _]%Forall_cons].
      unfold delayed_blocks, overlap. destruct (ext4_es_is_delayed e); lia. }
    apply (remove_result_ok _ _ _ _ _ _ _ _ _ Ho Hrm). rewrite Hn', Hn, Hl0. apply removed_app; [done|].
    apply (removed_app lblk end_ [e] [_] r r); [|by apply removed_after]. apply (removed_part _ _ _ _ _ _ Hp).
    apply Forall_app in Hlo as [_ [Hle _]%Forall_cons]. lia.
  - assert (starts_after end_ (e :: r)) as Hafter' by (constructor; [cbn; lia|done]).
    destruct (out_ok c sb i0 i1 lblk end_ (Some (es_lblk e)) rc1 (delayed_in lblk end_ (M ++ d)) Hi1 (no_cache i1 Hc1) Hrest Hrc1) as (rsv & i' & Ho & Hrm & Hn').
    { rewrite Hl0, (delayed_in_app _ _ (M ++ d)), (delayed_in_after _ _ (e :: r)) by done. lia. }
    apply (remove_result_ok _ _ _ _ _ _ _ _ _ Ho Hrm). rewrite Hn', Hn1, Hl0. apply removed_app; [done|by apply removed_after].
Qed.

Lemma remove_ok sb i lblk end_ reserved prealloc mem :
  es_ok i -> 0 <= lblk <= end_ -> end_ < EXT_MAX_BLOCKS ->
  remove_result (reserved && s_delalloc sb) sb i lblk end_ (prealloc || mem) (__es_remove_extent sb i lblk end_ reserved prealloc mem).
Proof.
  intros Hi Hr Hmax. pose proof (ek_list i Hi) as Hok. unfold __es_remove_extent. set (c := reserved && s_delalloc sb).
  rewrite es_tree_search_spec by done. cbn [mbind outcome_bind]. change (inorder (es_root i)) with (nodes i).
  assert (forall b, removed lblk end_ (nodes i) (nodes i) -> delayed_in lblk end_ (nodes i) = 0 -> remove_result c sb i lblk end_ b (Ok (0, None, i))) as Hnone.
  { intros b Hrem Hd. apply (remove_result_ok _ _ _ _ _ _ _ _ _ eq_refl); [|done]. split_and!; try done. intros _. by rewrite Hd. }
  destruct (first_from lblk (nodes i)) as [e|] eqn:Ef.
  2:{ apply first_from_none in Ef. apply Hnone; [by apply removed_before|by apply delayed_in_before]. }
  apply first_from_split in Ef as (l1 & l2 & Hl & Hb & Hhit). pose proof Hok as Hok2. rewrite Hl in Hok2. apply list_ok_mid in Hok2 as (_ & He & Hok2 & _ & Ha & _).
  pose proof He as [? ? Hmx _ _ _]. unfold EXT_MAX_BLOCKS in *. destruct (Z.ltb_spec end_ (es_lblk e)).
  { assert (starts_after end_ (e :: l2)) as Hs.
    { constructor; [done|]. eapply Forall_impl; [exact Ha|]. unfold before. intros x Hx. cbn in *. lia. }
    apply Hnone; rewrite Hl.
    - apply removed_app; [by apply removed_before|by apply removed_after].
    - by rewrite delayed_in_app, delayed_in_before, delayed_in_after. }
  assert (at_start i lblk end_ l1 e l2) as Hs by (split; unfold EXT_MAX_BLOCKS; done || lia).
  rewrite es_end_ok by done. cbn [mbind outcome_bind]. set (rc := init_rsvd _ _ _ _).
  assert (c = true -> rc_sum sb rc 0) as Hrc by (intros _; apply init_rsvd_sum).
  assert (Forall (fun x => lblk <= es_lblk x) l2) as Hlo2 by (eapply Forall_impl; [exact Ha|]; unfold before; intros x Hx; cbn in *; lia).
  destruct (Z.ltb_spec (es_lblk e) lblk) as [Hlo|Hlo], (Z.ltb_spec end_ (es_lblk e + es_len e - 1)) as [Hhi|Hhi];
    rewrite ?(u32_small (lblk - es_lblk e)), ?(u32_small (es_lblk e + es_len e - 1 - end_)) by lia.
  - destruct (Z.ltb_spec 0 (lblk - es_lblk e)); [|lia]. destruct (Z.ltb_spec 0 (es_lblk e + es_len e - 1 - end_)); [|lia].
    eapply remove_inside_ok; try done. by apply trim_ok.
  - destruct (Z.ltb_spec 0 (lblk - es_lblk e)); [|lia]. change (0 <? 0) with false. cbv iota.
    set (f := fun e0 => es_set_range e0 (es_lblk e0) (lblk - es_lblk e)). pose proof (part_head e (lblk - es_lblk e) He ltac:(lia)) as Hph.
    destruct (set_node_part (set_cache i None) l1 e l2 f _ _ (cache_none_ok i Hi) Hl Hph) as [Ht Hn]; [lia..|].
    destruct (counted_ok c sb lblk (u32 (es_len e - (lblk - es_lblk e))) e rc 0 He ltac:(rewrite u32_small; lia) Hrc) as (rc' & -> & Hrc'). cbn [mbind outcome_bind].
    pose proof (tk_list _ Ht) as Hok'. rewrite Hn in Hok'. destruct (list_ok_off _ _ _ Hok') as [Ho1 _].
    assert (tail (nodes_from (nodes (set_node (set_cache i None) (es_lblk e) f)) (es_lblk e)) = l2) as ->.
    { rewrite Hn. exact (f_equal tail (nodes_from_mid l1 (f e) l2 Ho1)). }
    apply (remove_rest_ok c sb i lblk end_ (l1 ++ [e]) (l1 ++ [f e])); try done; try lia; [by rewrite <- app_assoc..| |].
    + apply removed_app; [by apply removed_before|]. apply (removed_part _ _ _ _ _ _ Hph). lia.
    + intros Hc. rewrite delayed_in_app, delayed_in_before by done. cbn. rewrite Z.add_0_r. rewrite u32_small in Hrc' by lia.
      replace (delayed_blocks lblk end_ e) with (if ext4_es_is_delayed e then es_len e - (lblk - es_lblk e) else 0); [by apply Hrc'|].
      unfold delayed_blocks, overlap. destruct (ext4_es_is_delayed e); lia.
  - change (0 <? 0) with false. cbv iota. destruct (Z.ltb_spec 0 (es_lblk e + es_len e - 1 - end_)); [|lia]. by apply (remove_front_ok c sb i lblk end_ l1 e l2).
  - change (0 <? 0) with false. cbv iota. cbn [mbind outcome_bind]. rewrite nodes_set_cache, Hl. rewrite Hl in Hok. destruct (list_ok_off _ _ _ Hok) as [Ho1 _].
    rewrite nodes_from_mid by done. apply (remove_rest_ok c sb i lblk end_ l1 l1); try done; try lia.
    + by apply cache_none_ok.
    + by constructor.
    + by apply removed_before.
    + by rewrite delayed_in_before.
Qed.
End remove.
