(* ===== verification/ExtOps.v ===== *)
(** The operations of the rest of ext4 on the extent status tree
    ([extents_status.c]): [ext4_es_insert_extent], [ext4_es_insert_delayed_extent],
    [ext4_es_remove_extent], the pending reservations of clusters, and the
    shrinker ([es_reclaim_extents], [ext4_clear_inode_es]). *)

From stdpp Require Import sorting.
From S2P Require Import Prelude Pages Friend ExtStatus ExtInsert ExtRemove.

(** ** Pending reservations

    The tree of pending reservations is the set of their clusters. *)

Definition __get_pending (i : es_info) (lclu : Z) : bool := bool_decide (lclu ∈ i_pending i).

(** The result: 1 for a new reservation, whether the preallocated one is left. *)
Definition __insert_pending (sb : es_sb) (i : es_info) (lblk : Z) (prealloc mem : bool) : Z * bool * es_info :=
  let lclu := EXT4_B2C sb lblk in
  if __get_pending i lclu then (0, prealloc, i)
  else if prealloc then (1, false, set_pending i ({[ lclu ]} ∪ i_pending i))
  else if mem then (1, false, set_pending i ({[ lclu ]} ∪ i_pending i))
  else (- ENOMEM, false, i).
Definition __remove_pending (sb : es_sb) (i : es_info) (lblk : Z) : es_info := set_pending i (i_pending i ∖ {[ EXT4_B2C sb lblk ]}).
Definition ext4_is_pending (sb : es_sb) (i : es_info) (lblk : Z) : bool := __get_pending i (EXT4_B2C sb lblk).

(** A reservation is made if the blocks from [start] to [last] of the cluster
    have a delayed one. *)
Definition scan_delayed (need : bool) (i : es_info) (start last : Z) : outcome (bool * es_info) :=
  if need then __es_scan_range i ext4_es_is_delayed start last else Ok (false, i).

Definition __revise_pending (sb : es_sb) (i : es_info) (lblk len : Z) (prealloc mem1 mem2 : bool) : outcome (Z * bool * es_info) :=
  let end_ := u32 (lblk + len - 1) in
  if len =? 0 then Ok (0, prealloc, i)
  else
    let first := EXT4_LBLK_CMASK sb lblk in
    let last := u32 (EXT4_LBLK_CMASK sb end_ + s_cluster_ratio sb - 1) in
    f ← scan_delayed (negb (first =? lblk)) i first (u32 (lblk - 1));
    if EXT4_B2C sb lblk =? EXT4_B2C sb end_
    then
      if (f.1 : bool)
      then let p := __insert_pending sb f.2 first prealloc mem1 in Ok p
      else
        l ← scan_delayed (negb (last =? end_)) f.2 (u32 (end_ + 1)) last;
        if (l.1 : bool) then Ok (__insert_pending sb l.2 last prealloc mem1) else Ok (0, prealloc, __remove_pending sb l.2 last)
    else
      let p := if (f.1 : bool) then __insert_pending sb f.2 first prealloc mem1 else (0, prealloc, __remove_pending sb f.2 first) in
      if p.1.1 <? 0 then Ok p
      else
        l ← scan_delayed (negb (last =? end_)) p.2 (u32 (end_ + 1)) last;
        if (l.1 : bool)
        then
          let q := __insert_pending sb l.2 last p.1.2 mem2 in
          Ok (if q.1.1 <? 0 then q else (p.1.1 + q.1.1, q.1.2, q.2))
        else Ok (p.1.1, p.1.2, __remove_pending sb l.2 last).

Section ops.
Context `{Hrb : RbTree}.

(** ** Inserting *)

(** What memory can be had without waiting in one pass. *)
Record es_mem := EsMem { m_split : bool; m_new : bool; m_pend1 : bool; m_pend2 : bool }.

(** The variables of [ext4_es_insert_extent] that outlive a pass, the numbers
    given to [ext4_da_update_reserve_space], and the inode. *)
Record insert_state := InsertState {
  is_err1 : Z; is_err2 : Z; is_err3 : Z;
  is_es1 : bool; is_es2 : bool; is_pr : bool;
  resv_used : Z; pending : Z;
  is_charged : list Z;
  is_inode : es_info
}.

(** The end of a pass, at the label [error]. *)
Definition pass_end (s : insert_state) : insert_state :=
  let used := s32 (resv_used s + pending s) in
  InsertState (is_err1 s) (is_err2 s) (is_err3 s) (is_es1 s) (is_es2 s) (is_pr s) used (pending s)
    (if used =? 0 then is_charged s else is_charged s ++ [used]) (is_inode s).

Definition insert_pass (sb : es_sb) (newes : extent_status) (lblk len end_ : Z) (revise_pending : bool) (m : es_mem) (s : insert_state)
    : outcome insert_state :=
  let again := negb (is_err1 s =? 0) || negb (is_err2 s =? 0) in
  let es1 := is_es1 s || negb (is_err1 s =? 0) in
  let es2 := is_es2 s || again in
  let pr := is_pr s || (again || (is_err3 s <? 0)) && revise_pending in
  r ← __es_remove_extent sb (is_inode s) lblk end_ true es1 (m_split m);
  let resv := default (resv_used s) r.1.2 in
  if negb (r.1.1 =? 0)
  then Ok (pass_end (InsertState r.1.1 (is_err2 s) (is_err3 s) es1 es2 pr resv (pending s) (is_charged s) r.2))
  else
    ins ← __es_insert_extent r.2 newes es2 (m_new m);
    let err2 := if (ins.1 =? - ENOMEM) && negb (ext4_es_must_keep newes) then 0 else ins.1 in
    if negb (err2 =? 0)
    then Ok (pass_end (InsertState 0 err2 (is_err3 s) false es2 pr resv (pending s) (is_charged s) ins.2))
    else if revise_pending
    then
      p ← __revise_pending sb ins.2 lblk len pr (m_pend1 m) (m_pend2 m);
      if p.1.1 <? 0
      then Ok (pass_end (InsertState 0 0 p.1.1 false false p.1.2 resv (pending s) (is_charged s) p.2))
      else Ok (pass_end (InsertState 0 0 p.1.1 false false false resv p.1.1 (is_charged s) p.2))
    else Ok (pass_end (InsertState 0 0 (is_err3 s) false false pr resv (pending s) (is_charged s) ins.2)).

Definition pass_failed (s : insert_state) : bool := negb (is_err1 s =? 0) || negb (is_err2 s =? 0) || (is_err3 s <? 0).

(** The passes, at most [fuel]; [mem] says of each what memory there is. *)
Fixpoint insert_retry (fuel : nat) (pass : es_mem -> insert_state -> outcome insert_state) (mem : nat -> es_mem) (s : insert_state) : outcome insert_state :=
  match fuel with
  | O => Hang
  | S fuel => s ← pass (mem fuel) s; if pass_failed s then insert_retry fuel pass mem s else Ok s
  end.

Definition first_pass (i : es_info) : insert_state := InsertState 0 0 0 false false false 0 0 [] i.

Definition ext4_es_insert_extent (fuel : nat) (sb : es_sb) (i : es_info) (mem : nat -> es_mem) (lblk len pblk status : Z)
    : outcome (list Z * es_info) :=
  let end_ := u32 (lblk + len - 1) in
  if s_fc_replay sb then Ok ([], i)
  else if len =? 0 then Ok ([], i)
  else
    _ ← BUG_ON (end_ <? lblk);
    let newes := ext4_es_store_pblock_status lblk len pblk status in
    let revise_pending := (1 <? s_cluster_ratio sb) && s_delalloc sb && negb (Z.land status (Z.lor EXTENT_STATUS_WRITTEN EXTENT_STATUS_UNWRITTEN) =? 0) in
    s ← insert_retry fuel (insert_pass sb newes lblk len end_ revise_pending) mem (first_pass i);
    Ok (is_charged s, is_inode s).

(** The variables of [ext4_es_insert_delayed_extent] that outlive a pass, and the
    inode; no reservation is counted. *)
Record delayed_state := DelayedState {
  ds_err1 : Z; ds_err2 : Z; ds_err3 : Z;
  ds_es1 : bool; ds_es2 : bool; ds_pr1 : bool; ds_pr2 : bool;
  ds_inode : es_info
}.

Definition delayed_pass (sb : es_sb) (newes : extent_status) (lblk end_ : Z) (lclu_allocated end_allocated : bool) (m : es_mem) (s : delayed_state)
    : outcome delayed_state :=
  let again := negb (ds_err1 s =? 0) || negb (ds_err2 s =? 0) in
  let es1 := ds_es1 s || negb (ds_err1 s =? 0) in
  let es2 := ds_es2 s || again in
  let pr1 := ds_pr1 s || (again || (ds_err3 s <? 0)) && lclu_allocated in
  let pr2 := ds_pr2 s || (again || (ds_err3 s <? 0)) && end_allocated in
  r ← __es_remove_extent sb (ds_inode s) lblk end_ false es1 (m_split m);
  if negb (r.1.1 =? 0) then Ok (DelayedState r.1.1 (ds_err2 s) (ds_err3 s) es1 es2 pr1 pr2 r.2)
  else
    ins ← __es_insert_extent r.2 newes es2 (m_new m);
    if negb (ins.1 =? 0) then Ok (DelayedState 0 ins.1 (ds_err3 s) false es2 pr1 pr2 ins.2)
    else
      let p := if lclu_allocated then __insert_pending sb ins.2 lblk pr1 (m_pend1 m) else (ds_err3 s, pr1, ins.2) in
      if lclu_allocated && (p.1.1 <? 0) then Ok (DelayedState 0 0 p.1.1 false false p.1.2 pr2 p.2)
      else
        let q := if end_allocated then __insert_pending sb p.2 end_ pr2 (m_pend2 m) else (p.1.1, pr2, p.2) in
        if end_allocated && (q.1.1 <? 0) then Ok (DelayedState 0 0 q.1.1 false false false q.1.2 q.2)
        else Ok (DelayedState 0 0 q.1.1 false false false false q.2).

Definition delayed_failed (s : delayed_state) : bool := negb (ds_err1 s =? 0) || negb (ds_err2 s =? 0) || (ds_err3 s <? 0).
Fixpoint delayed_retry (fuel : nat) (pass : es_mem -> delayed_state -> outcome delayed_state) (mem : nat -> es_mem) (s : delayed_state) : outcome delayed_state :=
  match fuel with
  | O => Hang
  | S fuel => s ← pass (mem fuel) s; if delayed_failed s then delayed_retry fuel pass mem s else Ok s
  end.

Definition ext4_es_insert_delayed_extent (fuel : nat) (sb : es_sb) (i : es_info) (mem : nat -> es_mem) (lblk len : Z) (lclu_allocated end_allocated : bool)
    : outcome es_info :=
  let end_ := u32 (lblk + len - 1) in
  if s_fc_replay sb then Ok i
  else if len =? 0 then Ok i
  else
    let newes := ext4_es_store_pblock_status lblk len (2 ^ 64 - 1) EXTENT_STATUS_DELAYED in
    s ← delayed_retry fuel (delayed_pass sb newes lblk end_ lclu_allocated end_allocated) mem (DelayedState 0 0 0 false false false false i);
    Ok (ds_inode s).

(** ** The shrinker *)

Record scan := Scan { nr_to_scan : Z; nr_shrunk : Z }.

(** The loop over the nodes from the first of [l] on: 1 when the number to scan
    is used up. *)
Fixpoint reclaim_loop (end_ : Z) (l : list extent_status) (i : es_info) (c : scan) : outcome (Z * es_info * scan) :=
  match l with
  | [] => Ok (0, set_shrink i 0, c)
  | es :: l =>
      if nr_to_scan c <=? 0 then Ok (1, set_shrink i (es_lblk es), c)
      else if end_ <? es_lblk es then Ok (0, set_shrink i (u32 (end_ + 1)), c)
      else
        let c := Scan (nr_to_scan c - 1) (nr_shrunk c) in
        if ext4_es_must_keep es then reclaim_loop end_ l i c
        else if ext4_es_is_referenced es then reclaim_loop end_ l (set_node i (es_lblk es) ext4_es_clear_referenced) c
        else
          i ← ext4_es_free_extent (erase_node i (es_lblk es)) es;
          reclaim_loop end_ l i (Scan (nr_to_scan c) (nr_shrunk c + 1))
  end.

Definition es_do_reclaim_extents (i : es_info) (end_ : Z) (c : scan) : outcome (Z * es_info * scan) :=
  found ← __es_tree_search (es_root i) (i_es_shrink_lblk i);
  match found with
  | None => Ok (0, set_shrink i 0, c)
  | Some es => reclaim_loop end_ (nodes_from (nodes i) (es_lblk es)) i c
  end.

(** The result: the number of extents dropped and what is left to scan. *)
Definition es_reclaim_extents (i : es_info) (nr : Z) : outcome (Z * Z * es_info) :=
  let start := i_es_shrink_lblk i in
  if i_es_shk_nr i =? 0 then Ok (0, nr, i)
  else
    r ← es_do_reclaim_extents i EXT_MAX_BLOCKS (Scan nr 0);
    r ← (if (r.1.1 =? 0) && negb (start =? 0) then es_do_reclaim_extents r.1.2 (u32 (start - 1)) r.2 else Ok r);
    Ok (nr_shrunk r.2, nr_to_scan r.2, set_cache r.1.2 None).

Fixpoint clear_loop (l : list extent_status) (i : es_info) : outcome es_info :=
  match l with
  | [] => Ok i
  | es :: l =>
      if negb (ext4_es_must_keep es)
      then i ← ext4_es_free_extent (erase_node i (es_lblk es)) es; clear_loop l i
      else clear_loop l i
  end.
Definition ext4_clear_inode_es (i : es_info) : outcome es_info := let i := set_cache i None in clear_loop (nodes i) i.


(** * Lemmas *)

Context {Hrbok : RbTreeOk}.

(** ** Clusters *)

Definition sb_ok (sb : es_sb) : Prop := 0 <= s_cluster_bits sb <= 31.

Lemma cluster_ratio_pos sb : sb_ok sb -> 0 < s_cluster_ratio sb /\ exists k, 0 < k /\ 2 ^ 32 = s_cluster_ratio sb * k.
Proof.
  intros [? ?]. unfold s_cluster_ratio. split; [by apply Z.pow_pos_nonneg|]. exists (2 ^ (32 - s_cluster_bits sb)).
  split; [apply Z.pow_pos_nonneg; lia|]. rewrite <- Z.pow_add_r by lia. f_equal. lia.
Qed.
Lemma b2c_div sb b : sb_ok sb -> EXT4_B2C sb b = b / s_cluster_ratio sb.
Proof. intros [? ?]. unfold EXT4_B2C, s_cluster_ratio. by apply Z.shiftr_div_pow2. Qed.
Lemma cmask_spec sb b : sb_ok sb -> EXT4_LBLK_CMASK sb b = b / s_cluster_ratio sb * s_cluster_ratio sb.
Proof.
  intros [? ?]. unfold EXT4_LBLK_CMASK, s_cluster_ratio. rewrite Z.sub_1_r, <- Z.ones_equiv, Z.ldiff_ones_r by done.
  by rewrite Z.shiftl_mul_pow2, Z.shiftr_div_pow2 by done.
Qed.

(** The first and the last block of the cluster of [b]. *)
Definition clu_first (sb : es_sb) (b : Z) : Z := EXT4_LBLK_CMASK sb b.
Definition clu_last (sb : es_sb) (b : Z) : Z := u32 (EXT4_LBLK_CMASK sb b + s_cluster_ratio sb - 1).
Lemma clu_bounds sb b : sb_ok sb -> 0 <= b < 2 ^ 32 ->
  0 <= clu_first sb b <= b /\ b <= clu_last sb b < 2 ^ 32 /\ forall x, EXT4_B2C sb x = EXT4_B2C sb b <-> clu_first sb b <= x <= clu_last sb b.
Proof.
  intros Hsb Hb. destruct (cluster_ratio_pos sb Hsb) as (Hr & k & Hk & E). unfold clu_first, clu_last. rewrite !cmask_spec by done.
  assert (forall x, EXT4_B2C sb x = x / s_cluster_ratio sb) as Hc by (intros; by apply b2c_div).
  set (r := s_cluster_ratio sb) in *. clearbody r. rewrite E in *. pose proof (Z.mul_div_le b r Hr). pose proof (Z.mul_succ_div_gt b r Hr).
  assert (b / r < k) by (apply Z.div_lt_upper_bound; lia). assert (0 <= b / r) by (apply Z.div_pos; lia).
  assert (b / r * r + r <= r * k) by nia. rewrite u32_small by lia. split_and!; try lia.
  intros x. rewrite !Hc. split.
  - intros <-. pose proof (Z.mul_div_le x r Hr). pose proof (Z.mul_succ_div_gt x r Hr). lia.
  - intros ?. symmetry. apply (Z.div_unique _ _ _ (x - b / r * r)); lia.
Qed.

(** ** Delayed blocks *)

Definition delayed_at (l : list extent_status) (b : Z) : Prop := exists p, block_map l b = Some (EXTENT_STATUS_DELAYED, p).

Lemma delayed_type e : ext_ok e -> ext4_es_is_delayed e = true <-> ext4_es_type e = EXTENT_STATUS_DELAYED.
Proof. intros He. unfold EXTENT_STATUS_DELAYED. destruct (type_cases e He) as [H|[H|[H|H]]]; destruct H as (Ht & _ & _ & Hd); rewrite Ht, Hd; done. Qed.
Lemma scan_blocks l start last : list_ok l -> start <= last ->
  (exists e, e ∈ l /\ ext4_es_is_delayed e = true /\ meets start last e) <-> exists b, start <= b <= last /\ delayed_at l b.
Proof.
  intros Hok Hsl. assert (forall e, e ∈ l -> ext_ok e) as Hf by (intros; by eapply Forall_forall; [apply Hok|]). split.
  - intros (e & He & Hd & [? ?]). apply delayed_type in Hd; [|auto]. pose proof (eo_len e (Hf e He)). exists (Z.max start (es_lblk e)). split; [lia|].
    eexists. rewrite (holder_map l e) by (done || apply in_range_spec; lia). unfold content. rewrite Hd. reflexivity.
  - intros (b & Hb & p & (e & He & Hin & Hc)%block_map_Some). exists e. apply (f_equal fst) in Hc. cbn [content fst] in Hc.
    split_and!; [done|by apply delayed_type; auto|]. apply in_range_spec in Hin. split; lia.
Qed.

(** The range scanned when there is something to scan. *)
Lemma scan_delayed_ok need i start last lo hi : es_ok i -> (need = true -> start = lo /\ last = hi /\ 0 <= lo <= hi) -> (need = false -> hi < lo) ->
  exists r i', scan_delayed need i start last = Ok (r, i') /\ es_ok i' /\ nodes i' = nodes i /\ same_rest i i' /\
    (r = true <-> exists b, lo <= b <= hi /\ delayed_at (nodes i) b).
Proof.
  intros Hi Ht Hf. unfold scan_delayed. destruct need.
  - destruct (Ht eq_refl) as (-> & -> & ?). destruct (scan_range_spec i ext4_es_is_delayed lo hi Hi ltac:(done)) as (r & i' & -> & ? & ? & ? & Hr).
    exists r, i'. do 4 (split; [done|]). by rewrite Hr, scan_blocks by (apply (ek_list i Hi) || lia).
  - specialize (Hf eq_refl). exists false, i. do 4 (split; [done|]). split; [done|]. intros (b & ? & _). lia.
Qed.

Lemma set_pending_ok i p : es_ok i -> es_ok (set_pending i p).
Proof. by intros [[? [? ? ?]] ?]. Qed.

Lemma insert_pending_ok sb i b pr mem : es_ok i ->
  let r := __insert_pending sb i b pr mem in
  es_ok r.2 /\ nodes r.2 = nodes i /\ i_es_shrink_lblk r.2 = i_es_shrink_lblk i /\
  ((0 <= r.1.1 /\ i_pending r.2 = {[ EXT4_B2C sb b ]} ∪ i_pending i) \/ (r.1.1 < 0 /\ pr = false /\ mem = false /\ __get_pending i (EXT4_B2C sb b) = false)).
Proof.
  intros Hi. unfold __insert_pending, __get_pending. case_bool_decide as Hin.
  - split_and!; try done. left. split; [done|]. symmetry. by apply subseteq_union_1_L, singleton_subseteq_l.
  - destruct pr; [|destruct mem]; split_and!; try (done || by apply set_pending_ok); try (left; by split). by right.
Qed.

(** A delayed block of cluster [c] outside the range. *)
Definition cluster_delayed (sb : es_sb) (l : list extent_status) (lblk end_ c : Z) : Prop :=
  exists b, EXT4_B2C sb b = c /\ ~ lblk <= b <= end_ /\ delayed_at l b.
(** The pending reservations when those of the clusters at the ends are revised. *)
Definition revised (sb : es_sb) (i : es_info) (lblk end_ : Z) (p : gset Z) : Prop :=
  forall c, c ∈ p <-> if decide (c = EXT4_B2C sb lblk \/ c = EXT4_B2C sb end_) then cluster_delayed sb (nodes i) lblk end_ c else c ∈ i_pending i.

Lemma cluster_left sb l lblk end_ : sb_ok sb -> 0 <= lblk <= end_ -> end_ < 2 ^ 32 -> EXT4_B2C sb lblk <> EXT4_B2C sb end_ ->
  cluster_delayed sb l lblk end_ (EXT4_B2C sb lblk) <-> exists b, clu_first sb lblk <= b <= lblk - 1 /\ delayed_at l b.
Proof.
  intros Hsb Hr Hm Hne. destruct (clu_bounds sb lblk Hsb ltac:(lia)) as ([? ?] & [? ?] & Hc).
  assert (clu_last sb lblk < end_) as Hlt. { destruct (Z.lt_ge_cases (clu_last sb lblk) end_); [done|]. exfalso. apply Hne. symmetry. apply Hc. lia. }
  split.
  - intros (b & Hb & Hn & Hd). apply Hc in Hb. exists b. split; [lia|done].
  - intros (b & Hb & Hd). exists b. split_and!; [apply Hc; lia|lia|done].
Qed.
Lemma cluster_right sb l lblk end_ : sb_ok sb -> 0 <= lblk <= end_ -> end_ < 2 ^ 32 -> EXT4_B2C sb lblk <> EXT4_B2C sb end_ ->
  cluster_delayed sb l lblk end_ (EXT4_B2C sb end_) <-> exists b, end_ + 1 <= b <= clu_last sb end_ /\ delayed_at l b.
Proof.
  intros Hsb Hr Hm Hne. destruct (clu_bounds sb end_ Hsb ltac:(lia)) as ([? ?] & [? ?] & Hc).
  assert (lblk < clu_first sb end_) as Hlt. { destruct (Z.lt_ge_cases lblk (clu_first sb end_)); [done|]. exfalso. apply Hne. apply Hc. lia. }
  split.
  - intros (b & Hb & Hn & Hd). apply Hc in Hb. exists b. split; [lia|done].
  - intros (b & Hb & Hd). exists b. split_and!; [apply Hc; lia|lia|done].
Qed.
Lemma cluster_both sb l lblk end_ : sb_ok sb -> 0 <= lblk <= end_ -> end_ < 2 ^ 32 -> EXT4_B2C sb lblk = EXT4_B2C sb end_ ->
  cluster_delayed sb l lblk end_ (EXT4_B2C sb lblk) <->
  (exists b, clu_first sb lblk <= b <= lblk - 1 /\ delayed_at l b) \/ (exists b, end_ + 1 <= b <= clu_last sb end_ /\ delayed_at l b).
Proof.
  intros Hsb Hr Hm He. destruct (clu_bounds sb lblk Hsb ltac:(lia)) as ([? ?] & [? ?] & Hc). destruct (clu_bounds sb end_ Hsb ltac:(lia)) as ([? ?] & [? ?] & Hc').
  split.
  - intros (b & Hb & Hn & Hd). pose proof (proj1 (Hc b) Hb). rewrite He in Hb. apply Hc' in Hb. destruct (Z.lt_ge_cases b lblk); [left|right]; exists b; (split; [lia|done]).
  - intros [(b & Hb & Hd)|(b & Hb & Hd)]; exists b; (split_and!; [|lia|done]); [apply Hc; lia|rewrite He; apply Hc'; lia].
Qed.

(** The first cluster is pending if it has to be. *)
Definition first_ready (sb : es_sb) (i : es_info) (lblk : Z) : Prop :=
  (exists b, clu_first sb lblk <= b <= lblk - 1 /\ delayed_at (nodes i) b) -> EXT4_B2C sb lblk ∈ i_pending i.

(** What [__revise_pending] must do, or why it could not: with a reservation
    allocated before ([pr]) it fails only after it used it for the first
    cluster. *)
Definition revise_result (sb : es_sb) (i : es_info) (lblk end_ : Z) (pr mem : bool) (r : Z * bool * es_info) : Prop :=
  es_ok r.2 /\ nodes r.2 = nodes i /\ i_es_shrink_lblk r.2 = i_es_shrink_lblk i /\
  ((0 <= r.1.1 /\ revised sb i lblk end_ (i_pending r.2)) \/
   (r.1.1 < 0 /\ mem = false /\ (pr = true -> ~ first_ready sb i lblk /\ first_ready sb r.2 lblk))).

Lemma insert_pending_used sb i b mem : (__insert_pending sb i b true mem).1.2 = false -> EXT4_B2C sb b ∉ i_pending i.
Proof. unfold __insert_pending, __get_pending. by case_bool_decide. Qed.
Lemma insert_pending_failed sb i b pr mem : (__insert_pending sb i b pr mem).1.1 < 0 -> (__insert_pending sb i b pr mem).2 = i.
Proof. unfold __insert_pending. destruct (__get_pending _ _), pr, mem; done. Qed.

(** The last step in a cluster of its own. *)
Lemma revise_step sb i b pr mem (d : bool) : es_ok i ->
  let r := if d then __insert_pending sb i b pr mem else (0, pr, __remove_pending sb i b) in
  es_ok r.2 /\ nodes r.2 = nodes i /\ i_es_shrink_lblk r.2 = i_es_shrink_lblk i /\
  ((0 <= r.1.1 /\ forall c, c ∈ i_pending r.2 <-> if decide (c = EXT4_B2C sb b) then d = true else c ∈ i_pending i) \/ (r.1.1 < 0 /\ mem = false /\ pr = false /\ d = true)).
Proof.
  intros Hi. destruct d.
  - destruct (insert_pending_ok sb i b pr mem Hi) as (? & ? & ? & [[? Hp]|(? & ? & ? & _)]); split_and!; try done; [left|by right].
    split; [done|]. intros c. rewrite Hp, elem_of_union, elem_of_singleton. destruct (decide (c = EXT4_B2C sb b)); tauto.
  - split_and!; [by apply set_pending_ok|done..|]. left. split; [done|]. intros c. cbn.
    rewrite elem_of_difference, elem_of_singleton. destruct (decide (c = EXT4_B2C sb b)); [split; [tauto|done]|tauto].
Qed.

Lemma b2c_first sb b : sb_ok sb -> 0 <= b < 2 ^ 32 -> EXT4_B2C sb (EXT4_LBLK_CMASK sb b) = EXT4_B2C sb b.
Proof. intros Hsb Hb. destruct (clu_bounds sb b Hsb Hb) as (? & ? & Hc). apply Hc. unfold clu_first in *. lia. Qed.
Lemma b2c_last sb b : sb_ok sb -> 0 <= b < 2 ^ 32 -> EXT4_B2C sb (clu_last sb b) = EXT4_B2C sb b.
Proof. intros Hsb Hb. destruct (clu_bounds sb b Hsb Hb) as (? & ? & Hc). apply Hc. lia. Qed.

Lemma revised_one sb i lblk end_ (p : gset Z) (Q : Prop) : EXT4_B2C sb lblk = EXT4_B2C sb end_ ->
  (forall c, c ∈ p <-> if decide (c = EXT4_B2C sb lblk) then Q else c ∈ i_pending i) -> (Q <-> cluster_delayed sb (nodes i) lblk end_ (EXT4_B2C sb lblk)) ->
  revised sb i lblk end_ p.
Proof.
  intros He Hp HQ c. rewrite Hp, <- He. destruct (decide (c = EXT4_B2C sb lblk)) as [->|]; [rewrite decide_True by auto; done|].
  rewrite decide_False; [done|]. tauto.
Qed.
Lemma revised_two sb i lblk end_ (p q : gset Z) (Q R : Prop) : EXT4_B2C sb lblk <> EXT4_B2C sb end_ ->
  (forall c, c ∈ p <-> if decide (c = EXT4_B2C sb lblk) then Q else c ∈ i_pending i) -> (Q <-> cluster_delayed sb (nodes i) lblk end_ (EXT4_B2C sb lblk)) ->
  (forall c, c ∈ q <-> if decide (c = EXT4_B2C sb end_) then R else c ∈ p) -> (R <-> cluster_delayed sb (nodes i) lblk end_ (EXT4_B2C sb end_)) ->
  revised sb i lblk end_ q.
Proof.
  intros Hne Hp HQ Hq HR c. rewrite Hq. destruct (decide (c = EXT4_B2C sb end_)) as [->|]; [rewrite decide_True by auto; done|].
  rewrite Hp. destruct (decide (c = EXT4_B2C sb lblk)) as [->|]; [rewrite decide_True by auto; done|]. rewrite decide_False; [done|]. tauto.
Qed.

Lemma revise_ok sb i lblk len pr mem1 mem2 : es_ok i -> sb_ok sb -> 0 <= lblk -> 0 < len -> lblk + len <= EXT_MAX_BLOCKS ->
  exists r, __revise_pending sb i lblk len pr mem1 mem2 = Ok r /\ revise_result sb i lblk (lblk + len - 1) pr (mem1 && mem2) r.
Proof.
  intros Hi Hsb H0 Hlen Hmax. unfold EXT_MAX_BLOCKS in Hmax. unfold __revise_pending. rewrite (u32_small (lblk + len - 1)) by lia.
  destruct (Z.eqb_spec len 0); [lia|]. set (end_ := lblk + len - 1). fold (clu_first sb lblk). fold (clu_last sb end_).
  pose proof (clu_bounds sb lblk Hsb ltac:(lia)) as (Hf & _ & _). pose proof (clu_bounds sb end_ Hsb ltac:(lia)) as (_ & Hl & _).
  pose proof (b2c_first sb lblk Hsb ltac:(lia)) as Hbf. pose proof (b2c_last sb end_ Hsb ltac:(lia)) as Hbl. fold (clu_first sb lblk) in Hbf.
  destruct (scan_delayed_ok (negb (clu_first sb lblk =? lblk)) i (clu_first sb lblk) (u32 (lblk - 1)) (clu_first sb lblk) (lblk - 1) Hi) as (df & i1 & -> & Hi1 & Hn1 & [Hp1 Hs1] & Hdf).
  { intros Hx%negb_true_iff%Z.eqb_neq. rewrite u32_small by lia. lia. }
  { intros Hx%negb_false_iff%Z.eqb_eq. lia. }
  cbn [mbind outcome_bind fst snd].
  assert (forall j, es_ok j -> exists dl j', scan_delayed (negb (clu_last sb end_ =? end_)) j (u32 (end_ + 1)) (clu_last sb end_) = Ok (dl, j') /\
    es_ok j' /\ nodes j' = nodes j /\ same_rest j j' /\ (dl = true <-> exists b, end_ + 1 <= b <= clu_last sb end_ /\ delayed_at (nodes j) b)) as Hscan.
  { intros j Hj. apply scan_delayed_ok; [done|intros Hx%negb_true_iff%Z.eqb_neq; rewrite u32_small by lia; lia|intros Hx%negb_false_iff%Z.eqb_eq; lia]. }
  destruct (Z.eqb_spec (EXT4_B2C sb lblk) (EXT4_B2C sb end_)) as [He|Hne].
  - pose proof (cluster_both sb (nodes i) lblk end_ Hsb ltac:(lia) ltac:(lia) He) as Hcl. destruct df.
    + eexists; split; [done|]. destruct (revise_step sb i1 (clu_first sb lblk) pr mem1 true Hi1) as (? & ? & ? & Hr).
      split_and!; [done|congruence|congruence|]. destruct Hr as [[? Hr]|(? & -> & -> & _)]; [left; split; [done|]|by right].
      rewrite Hbf, Hp1 in Hr. apply (revised_one _ _ _ _ _ _ He Hr). rewrite Hcl. split; [|done]. intros _. left. by apply Hdf.
    + destruct (Hscan i1 Hi1) as (dl & i2 & -> & Hi2 & Hn2 & [Hp2 Hs2] & Hdl). cbn [mbind outcome_bind fst snd].
      destruct (revise_step sb i2 (clu_last sb end_) pr mem1 dl Hi2) as (? & ? & ? & Hr).
      exists (if dl then __insert_pending sb i2 (clu_last sb end_) pr mem1 else (0, pr, __remove_pending sb i2 (clu_last sb end_))). split; [by destruct dl|].
      set (r := if dl then __insert_pending _ _ _ _ _ else _) in *. rewrite Hn1 in Hdl.
      split_and!; [done|congruence|congruence|]. destruct Hr as [[? Hr]|(? & -> & -> & _)]; [left; split; [done|]|by right].
      rewrite Hbl, <- He, Hp2, Hp1 in Hr. apply (revised_one _ _ _ _ _ _ He Hr). rewrite Hcl, <- Hdl, <- Hdf. split; [by right|by intros [?|?]].
  - pose proof (cluster_left sb (nodes i) lblk end_ Hsb ltac:(lia) ltac:(lia) Hne) as Hcl.
    pose proof (cluster_right sb (nodes i) lblk end_ Hsb ltac:(lia) ltac:(lia) Hne) as Hcr.
    destruct (revise_step sb i1 (clu_first sb lblk) pr mem1 df Hi1) as (Hi2 & Hn2 & Hs2 & Hr). set (p := if df then _ else _) in *.
    destruct Hr as [[Hpos Hr]|(Hneg & -> & -> & _)]; [|destruct (Z.ltb_spec p.1.1 0); [|lia]; eexists; split; [done|]; split_and!; [done|congruence|congruence|by right]].
    destruct (Z.ltb_spec p.1.1 0); [lia|]. rewrite Hbf, Hp1 in Hr.
    destruct (Hscan p.2 Hi2) as (dl & i3 & -> & Hi3 & Hn3 & [Hp3 Hs3] & Hdl). cbn [mbind outcome_bind fst snd]. rewrite Hn2, Hn1 in Hdl.
    destruct (revise_step sb i3 (clu_last sb end_) p.1.2 mem2 dl Hi3) as (Hi4 & Hn4 & Hs4 & Hr'). rewrite Hbl, Hp3 in Hr'.
    assert (forall q : gset Z, (forall c, c ∈ q <-> if decide (c = EXT4_B2C sb end_) then dl = true else c ∈ i_pending p.2) -> revised sb i lblk end_ q) as Hrev.
    { intros q Hq. apply (revised_two sb i lblk end_ _ q (df = true) (dl = true) Hne Hr); [by rewrite Hdf, Hcl|exact Hq|by rewrite Hdl, Hcr]. }
    destruct dl; cbv iota in Hi4, Hn4, Hs4, Hr'.
    + set (q := __insert_pending sb i3 (clu_last sb end_) p.1.2 mem2) in *. destruct Hr' as [[? Hr']|(Hneg & -> & Hpr & _)].
      * destruct (Z.ltb_spec q.1.1 0); [lia|]. eexists; split; [done|]. unfold revise_result. cbn [fst snd]. split_and!; [done|congruence|congruence|]. left. split; [lia|]. by apply Hrev.
      * destruct (Z.ltb_spec q.1.1 0); [|lia]. eexists; split; [done|]. split_and!; [done|congruence|congruence|]. right. split_and!; [done|by rewrite andb_false_r|].
        intros ->. assert (i_pending q.2 = i_pending p.2) as Hq by (unfold q; rewrite insert_pending_failed by done; done). destruct df; [|done].
        apply insert_pending_used in Hpr. rewrite Hbf, Hp1 in Hpr. split.
        -- intros Hrd. apply Hpr, Hrd. by apply Hdf.
        -- intros _. rewrite Hq. apply Hr. by rewrite decide_True.
    + destruct Hr' as [[? Hr']|(_ & _ & _ & ?)]; [|done]. eexists; split; [done|]. unfold revise_result. cbn [fst snd] in *. split_and!; [done|congruence|congruence|]. left. split; [done|]. by apply Hrev.
Qed.

(** ** Storing an extent *)

(** Outside of [n] nothing changes, but that blocks that are not delayed may be
    forgotten. *)
Definition outside_kept (n : extent_status) (l l' : list extent_status) : Prop := forall b, in_range b n = false ->
  block_map l' b = block_map l b \/ (block_map l' b = None /\ ~ delayed_at l b).
(** And [n] is in the tree, or it could be left out. *)
Definition stored (n : extent_status) (l l' : list extent_status) : Prop :=
  outside_kept n l l' /\ forall b, in_range b n = true -> block_map l' b = Some (content n b) \/ (block_map l' b = None /\ ext4_es_is_delayed n = false).

Lemma outside_refl n l : outside_kept n l l.
Proof. intros b _. by left. Qed.
Lemma outside_trans n l1 l2 l3 : outside_kept n l1 l2 -> outside_kept n l2 l3 -> outside_kept n l1 l3.
Proof.
  intros H1 H2 b Hb. destruct (H1 b Hb) as [E1|[E1 Hd1]], (H2 b Hb) as [E2|[E2 Hd2]].
  - left. congruence.
  - right. split; [done|]. intros [p Hp]. apply Hd2. exists p. congruence.
  - right. split; [congruence|done].
  - by right.
Qed.

Lemma forgot_outside n l l' : forgot (es_lblk n) (es_lblk n + es_len n - 1) l l' -> outside_kept n l l'.
Proof.
  intros Hf b Hb. apply in_range_false in Hb. destruct (Hf b) as [H|[H Hd]]; [left|right].
  - rewrite H. destruct (Z.leb_spec (es_lblk n) b), (Z.leb_spec b (es_lblk n + es_len n - 1)); done || lia.
  - split; [done|]. intros [p Hp]. by eapply Hd.
Qed.
Lemma forgot_nothing i n l : forgot (es_lblk n) (es_lblk n + es_len n - 1) l (nodes i) -> nothing_in i (es_lblk n) (es_len n).
Proof.
  intros Hf b Hb. destruct (Hf b) as [H|[H _]]; [|done]. rewrite H. destruct (Z.leb_spec (es_lblk n) b), (Z.leb_spec b (es_lblk n + es_len n - 1)); done || lia.
Qed.

(** Removing the range and inserting, as every pass does. *)
Definition pass_core (sb : es_sb) (i : es_info) (n : extent_status) (reserved es1 split es2 new : bool) : Prop :=
  exists err rsv i1, __es_remove_extent sb i (es_lblk n) (es_lblk n + es_len n - 1) reserved es1 split = Ok (err, rsv, i1) /\ es_ok i1 /\
    ((err = - ENOMEM /\ es1 || split = false /\ rsv = None /\ nodes i1 = nodes i /\ i_pending i1 = i_pending i /\ delayed_at (nodes i) (es_lblk n)) \/
     (err = 0 /\ outside_kept n (nodes i) (nodes i1) /\ nothing_in i1 (es_lblk n) (es_len n) /\
      (s_cluster_ratio sb = 1 -> i_pending i1 = i_pending i /\ (reserved && s_delalloc sb = true -> default 0 rsv = s32 (delayed_in (es_lblk n) (es_lblk n + es_len n - 1) (nodes i)))) /\
      (delayed_in (es_lblk n) (es_lblk n + es_len n - 1) (nodes i) = 0 -> i_pending i1 = i_pending i) /\
      exists err2 i2, __es_insert_extent i1 n es2 new = Ok (err2, i2) /\ es_ok i2 /\ i_pending i2 = i_pending i1 /\
        ((err2 = 0 /\ (forall b, block_map (nodes i2) b = map_with i1 n b) /\
          (es1 || split = true -> forall b, block_map (nodes i2) b = map_with i n b)) \/
         (err2 = - ENOMEM /\ es2 || new = false /\ i2 = i1)))).

Lemma pass_core_ok sb i n reserved es1 split es2 new : es_ok i -> ext_ok n -> pass_core sb i n reserved es1 split es2 new.
Proof.
  intros Hi Hn. pose proof Hn as [? ? Hmax _ _ _].
  destruct (remove_ok sb i (es_lblk n) (es_lblk n + es_len n - 1) reserved es1 split Hi) as (err & rsv & i1 & Hr & Hres); [lia|lia|].
  exists err, rsv, i1. split; [done|]. destruct Hres as [(-> & (Hi1 & _ & Hcnt & Hquiet) & Hf & Hrem)|(-> & Hm & -> & Hi1 & Hn1 & [? _] & Hd)].
  2:{ split; [done|]. left. done. }
  split; [done|]. right. pose proof (forgot_nothing i1 n _ Hf) as Hno. split_and!; [done|by apply forgot_outside|done|done|done|].
  destruct (insert_ok i1 n es2 new (ek_tree i1 Hi1) Hn (nothing_apart i1 n Hi1 Hn Hno)) as [(i2 & -> & Hi2 & [? _] & Hmap)|[Hm ->]].
  - exists 0, i2. split_and!; try done. left. split_and!; try done. intros Hmem b. rewrite Hmap. unfold map_with. rewrite (Hrem Hmem b).
    destruct (in_range b n) eqn:Eb; [done|]. apply in_range_false in Eb.
    destruct (Z.leb_spec (es_lblk n) b), (Z.leb_spec b (es_lblk n + es_len n - 1)); done || lia.
  - exists (- ENOMEM), i1. split_and!; try done. by right.
Qed.

Lemma stored_insert n i i1 i2 : outside_kept n (nodes i) (nodes i1) -> (forall b, block_map (nodes i2) b = map_with i1 n b) -> stored n (nodes i) (nodes i2).
Proof.
  intros Ho Hm. unfold map_with in Hm. split; intros b Hb; rewrite Hm, Hb; [by apply Ho|by left].
Qed.
Lemma stored_left_out n i i1 : outside_kept n (nodes i) (nodes i1) -> nothing_in i1 (es_lblk n) (es_len n) -> ext4_es_is_delayed n = false -> stored n (nodes i) (nodes i1).
Proof. intros Ho Hno Hd. split; [done|]. intros b Hb%in_range_spec. right. split; [by apply Hno|done]. Qed.
Lemma stored_trans n l1 l2 l3 : outside_kept n l1 l2 -> stored n l2 l3 -> stored n l1 l3.
Proof. intros H1 [H2 H3]. split; [by apply (outside_trans _ _ l2)|done]. Qed.

(** ** [ext4_es_insert_extent] *)

(** The number of clusters a removal of the range of [n] gives back, where a
    cluster is a block. *)
Definition given_back (n : extent_status) (l : list extent_status) : list Z :=
  let k := s32 (delayed_in (es_lblk n) (es_lblk n + es_len n - 1) l) in if k =? 0 then [] else [k].

(** No delayed block in the range of [n]. *)
Definition clean (n : extent_status) (l : list extent_status) : Prop := forall b, in_range b n = true -> ~ delayed_at l b.

Lemma stored_clean n l l' : ext_ok n -> ext4_es_is_delayed n = false -> stored n l l' -> clean n l'.
Proof.
  intros Hn Hd [_ Hs] b Hb [p Hp]. destruct (Hs b Hb) as [H|[H _]]; [|congruence]. rewrite Hp in H. apply (inj Some), (f_equal fst) in H. cbn in H.
  symmetry in H. apply delayed_type in H; [congruence|done].
Qed.
Lemma clean_none_in n l : list_ok l -> clean n l -> delayed_in (es_lblk n) (es_lblk n + es_len n - 1) l = 0.
Proof.
  intros Hok Hcl. assert (forall e, e ∈ l -> delayed_blocks (es_lblk n) (es_lblk n + es_len n - 1) e = 0) as Hz.
  { intros e He. unfold delayed_blocks. destruct (ext4_es_is_delayed e) eqn:Ed; [|done]. unfold overlap.
    assert (ext_ok e) as Hoe by (eapply Forall_forall; [apply Hok|done]). pose proof (eo_len e Hoe).
    set (b := Z.max (es_lblk n) (es_lblk e)). destruct (Z.le_gt_cases (Z.min (es_lblk n + es_len n - 1 + 1) (es_lblk e + es_len e)) b); [lia|].
    exfalso. apply (Hcl b); [apply in_range_spec; lia|]. eexists. rewrite (holder_map l e) by (done || apply in_range_spec; lia).
    unfold content. by rewrite (delayed_is e Hoe Ed). }
  clear Hok Hcl. induction l as [|e l IH]; [done|].
  change (delayed_in ?a ?b (e :: l)) with (delayed_blocks a b e + delayed_in a b l). rewrite (Hz e) by left. apply IH. intros x Hx. apply Hz. by right.
Qed.
Lemma stored_outside n l l' b : stored n l l' -> in_range b n = false -> delayed_at l' b -> delayed_at l b.
Proof. intros [Ho _] Hb [p Hp]. destruct (Ho b Hb) as [H|[H _]]; [|congruence]. exists p. congruence. Qed.

(** One pass: it stores the extent, or memory to split a delayed extent was
    missing, or a pending reservation. *)
Inductive pass_result (sb : es_sb) (n : extent_status) (es1 split new pr : bool) (s s' : insert_state) : Prop :=
| pass_done : is_err1 s' = 0 -> 0 <= is_err3 s' -> stored n (nodes (is_inode s)) (nodes (is_inode s')) ->
    (es1 || split = true -> new = true -> forall b, block_map (nodes (is_inode s')) b = map_with (is_inode s) n b) ->
    (s_cluster_ratio sb = 1 -> s_delalloc sb = true -> resv_used s = 0 -> pending s = 0 ->
     is_charged s' = is_charged s ++ given_back n (nodes (is_inode s))) -> pass_result sb n es1 split new pr s s'
| pass_split : is_err1 s' <> 0 -> es1 || split = false -> delayed_at (nodes (is_inode s)) (es_lblk n) -> nodes (is_inode s') = nodes (is_inode s) ->
    is_err3 s' = is_err3 s ->
    (resv_used s = 0 -> pending s = 0 -> resv_used s' = 0 /\ pending s' = 0 /\ is_charged s' = is_charged s) -> pass_result sb n es1 split new pr s s'
| pass_pending : is_err1 s' = 0 -> is_err3 s' < 0 -> s_cluster_ratio sb <> 1 -> stored n (nodes (is_inode s)) (nodes (is_inode s')) ->
    (es1 || split = true -> new = true -> forall b, block_map (nodes (is_inode s')) b = map_with (is_inode s) n b) ->
    (pr = true -> first_ready sb (is_inode s') (es_lblk n) /\ (clean n (nodes (is_inode s)) -> ~ first_ready sb (is_inode s) (es_lblk n))) ->
    pass_result sb n es1 split new pr s s'.

Lemma s32_pad z : s32 (s32 z + 0) = s32 z.
Proof. by rewrite Z.add_0_r, s32_idem. Qed.

Section insert_extent.
Variables (sb : es_sb) (n : extent_status) (revise : bool).
Hypothesis Hn : ext_ok n.
Hypothesis Hd : ext4_es_is_delayed n = false.
Hypothesis Hrev : revise = true -> sb_ok sb /\ 1 < s_cluster_ratio sb.

(** What holds between the passes. *)
Record between (s : insert_state) : Prop := {
  be_inode : es_ok (is_inode s);
  be_err2 : is_err2 s = 0;
  be_err3 : is_err3 s < 0 -> revise = true
}.
Definition node_for_split (s : insert_state) : bool := is_es1 s || negb (is_err1 s =? 0).
Definition has_pending (s : insert_state) : bool :=
  is_pr s || ((negb (is_err1 s =? 0) || negb (is_err2 s =? 0)) || (is_err3 s <? 0)) && revise.
Let pass := insert_pass sb n (es_lblk n) (es_len n) (es_lblk n + es_len n - 1) revise.

Lemma insert_pass_ok m s : between s ->
  exists s', pass m s = Ok s' /\ between s' /\ pass_result sb n (node_for_split s) (m_split m) (m_new m) (has_pending s) s s'.
Proof.
  intros [Hi He2 He3]. unfold pass, insert_pass. fold (node_for_split s) (has_pending s). set (es1 := node_for_split s). set (es2 := is_es2 s || _). set (pr := has_pending s).
  destruct (pass_core_ok sb (is_inode s) n true es1 (m_split m) es2 (m_new m) Hi Hn) as (err & rsv & i1 & -> & Hi1 & Hres). cbn [mbind outcome_bind fst snd].
  destruct Hres as [(-> & Hm & -> & Hn1 & Hp1 & Hdl)|(-> & Ho & Hno & Hcnt & Hquiet & err2 & i2 & Hins & Hi2 & Hp2 & Hres)].
  { change (negb (- ENOMEM =? 0)) with true. cbv iota. eexists; split; [done|]. split; [by split|]. apply pass_split; try done. cbn. intros -> ->. done. }
  change (negb (0 =? 0)) with false. cbv iota. rewrite Hins. cbn [mbind outcome_bind fst snd].
  assert (ext4_es_must_keep n = false) as -> by done. cbn [negb andb]. rewrite andb_true_r.
  assert ((if err2 =? - ENOMEM then 0 else err2) = 0) as -> by (destruct Hres as [[-> _]|[-> _]]; done). cbn [negb]. change (0 =? 0) with true. cbn [negb]. cbv iota.
  set (rsv' := default (resv_used s) rsv).
  assert (stored n (nodes (is_inode s)) (nodes i2)) as Hst.
  { destruct Hres as [(_ & Hmap & _)|(_ & _ & ->)]; [by apply (stored_insert n _ i1)|by apply stored_left_out]. }
  assert (es1 || m_split m = true -> m_new m = true -> forall b, block_map (nodes i2) b = map_with (is_inode s) n b) as Hex.
  { intros Hs Hw. destruct Hres as [(_ & _ & Hx)|(_ & Hx & _)]; [by apply Hx|]. by rewrite Hw, orb_true_r in Hx. }
  destruct revise eqn:Er.
  - destruct (Hrev eq_refl) as (Hsb & Hratio). pose proof Hn as [? ? ? _ _ _].
    destruct (revise_ok sb i2 (es_lblk n) (es_len n) pr (m_pend1 m) (m_pend2 m) Hi2 Hsb) as (p & -> & Hip & Hnp & _ & Hp); [done..|]. cbn [mbind outcome_bind].
    destruct Hp as [[Hp _]|(Hp & _ & Hready)].
    + destruct (Z.ltb_spec p.1.1 0); [lia|]. eexists; split; [done|]. split; [by split|]. apply pass_done; cbn [pass_end is_err1 is_err3 is_inode is_charged]; rewrite ?Hnp; try done; lia.
    + destruct (Z.ltb_spec p.1.1 0); [|lia]. eexists; split; [done|]. split; [by split|].
      apply pass_pending; cbn [pass_end is_err1 is_err3 is_inode is_charged]; rewrite ?Hnp; try done; [lia|]. intros Hpr. destruct (Hready Hpr) as [Hnr Hr]. split; [done|].
      intros Hcl Hs. apply Hnr. intros (b & Hb & Hdb). rewrite Hp2, (Hquiet (clean_none_in n _ (ek_list _ Hi) Hcl)). apply Hs. exists b. split; [done|].
      apply (stored_outside n _ _ b Hst); [apply in_range_false; lia|done].
  - eexists; split; [done|]. split; [split; [done..|intros Hx; by apply He3 in Hx]|]. apply pass_done; try done; [cbn; destruct (Z.lt_ge_cases (is_err3 s) 0) as [Hx|?]; [by apply He3 in Hx|done]|]. intros Hr1 Hda Hr0 Hp0. cbn.
    destruct (Hcnt Hr1) as [_ Hc]. specialize (Hc Hda). unfold rsv'. rewrite Hr0, Hp0, Hc, !s32_pad. unfold given_back. cbv zeta. destruct (s32 _ =? 0); [by rewrite app_nil_r|done].
Qed.

(** How a pass that is the last one leaves the tree. *)
Definition insert_end (i : es_info) (full : Prop) (s' : insert_state) : Prop :=
  es_ok (is_inode s') /\ stored n (nodes i) (nodes (is_inode s')) /\ (full -> forall b, block_map (nodes (is_inode s')) b = map_with i n b).

Lemma insert_end_trans i i1 full s' : stored n (nodes i) (nodes i1) -> (full -> forall b, block_map (nodes i1) b = map_with i n b) -> insert_end i1 full s' -> insert_end i full s'.
Proof.
  intros [Ho _] Hm (? & Hs & Hx). split_and!; [done|by apply (stored_trans _ _ (nodes i1))|]. intros Hf b. rewrite (Hx Hf). unfold map_with at 1. rewrite (Hm Hf). unfold map_with. by destruct (in_range b n).
Qed.
Lemma pass_over s : is_err1 s = 0 -> is_err2 s = 0 -> 0 <= is_err3 s -> pass_failed s = false.
Proof. intros H1 H2 H3. unfold pass_failed. rewrite H1, H2. cbn. by apply Z.ltb_ge. Qed.
Lemma pass_again s : is_err3 s < 0 -> pass_failed s = true.
Proof. intros H3. unfold pass_failed. apply Z.ltb_lt in H3. by rewrite H3, orb_true_r. Qed.

(** With the range clean and the first cluster pending, a pass after a missing
    reservation is the last one. *)
Lemma last_insert_pass fuel mem s : between s -> is_err3 s < 0 -> clean n (nodes (is_inode s)) -> first_ready sb (is_inode s) (es_lblk n) ->
  exists s', insert_retry (S fuel) pass mem s = Ok s' /\ insert_end (is_inode s) (m_split (mem fuel) = true /\ m_new (mem fuel) = true) s'.
Proof.
  intros Hs He3 Hcl Hrd. cbn [insert_retry]. destruct (insert_pass_ok (mem fuel) s Hs) as (s' & -> & [Hi' He2' _] & Hres). cbn [mbind outcome_bind].
  assert (has_pending s = true) as Hpr.
  { unfold has_pending. rewrite (be_err3 s Hs He3). apply Z.ltb_lt in He3. by rewrite He3, orb_true_r, orb_true_r. }
  destruct Hres as [He1 He3' Hst Hex _|_ _ Hdl _ _ _|_ _ _ _ _ Hx].
  - rewrite pass_over by done. exists s'. unfold insert_end. split_and!; [done..|]. intros [Hsp Hnw]. apply Hex; [by rewrite Hsp, orb_true_r|done].
  - exfalso. apply (Hcl (es_lblk n)); [|done]. apply in_range_spec. pose proof (eo_len n Hn). lia.
  - exfalso. destruct (Hx Hpr) as [_ H]. by apply H.
Qed.

(** After a failed pass two are enough. *)
Lemma two_insert_passes mem s : between s -> is_err1 s <> 0 \/ (is_err3 s < 0 /\ clean n (nodes (is_inode s))) ->
  exists s', insert_retry 2 pass mem s = Ok s' /\ insert_end (is_inode s) (forall k, m_split (mem k) = true /\ m_new (mem k) = true) s' /\
    (s_cluster_ratio sb = 1 -> s_delalloc sb = true -> resv_used s = 0 -> pending s = 0 -> is_charged s' = is_charged s ++ given_back n (nodes (is_inode s))).
Proof.
  intros Hs Hor. assert (revise = true -> has_pending s = true) as Hpr.
  { intros Hr. unfold has_pending. rewrite Hr, andb_true_r. destruct Hor as [He1|[He3 _]].
    - destruct (Z.eqb_spec (is_err1 s) 0); [done|]. by rewrite orb_true_r.
    - apply Z.ltb_lt in He3. by rewrite He3, !orb_true_r. }
  change (insert_retry 2 pass mem s) with (s ← pass (mem 1%nat) s; if pass_failed s then insert_retry 1 pass mem s else Ok s).
  destruct (insert_pass_ok (mem 1%nat) s Hs) as (s1 & -> & Hs1 & Hres). cbn [mbind outcome_bind]. pose proof Hs1 as [Hi1 He2 He3].
  destruct Hres as [He1 He3' Hst Hex Hch|_ Hm Hdl _ _ _|He1 He3' Hratio Hst Hex Hrd].
  - rewrite pass_over by done. exists s1. split; [done|split; [|done]]. unfold insert_end. split_and!; [done..|]. intros Hf. destruct (Hf 1%nat) as [Hsp Hnw]. apply Hex; [by rewrite Hsp, orb_true_r|done].
  - exfalso. destruct Hor as [He1|[_ Hcl]].
    + unfold node_for_split in Hm. destruct (Z.eqb_spec (is_err1 s) 0); [done|]. by rewrite orb_true_r in Hm.
    + apply (Hcl (es_lblk n)); [|done]. apply in_range_spec. pose proof (eo_len n Hn). lia.
  - rewrite pass_again by done. destruct (Hrd (Hpr (He3 He3'))) as [Hready _].
    destruct (last_insert_pass 0 mem s1 Hs1 He3' (stored_clean n _ _ Hn Hd Hst) Hready) as (s2 & -> & Hend). exists s2. split; [done|split; [|by intros]].
    apply (insert_end_trans _ (is_inode s1)); [done| |].
    + intros Hf. destruct (Hf 1%nat) as [Hsp Hnw]. apply Hex; [by rewrite Hsp, orb_true_r|done].
    + destruct Hend as (? & ? & Hx). unfold insert_end. split_and!; [done..|]. intros Hf. by apply Hx.
Qed.

Lemma insert_retry_done mem i : es_ok i ->
  exists s, insert_retry 3 pass mem (first_pass i) = Ok s /\
    insert_end i (m_split (mem 2%nat) = true /\ m_new (mem 2%nat) = true /\ (s_cluster_ratio sb = 1 \/ forall k, m_split (mem k) = true /\ m_new (mem k) = true)) s /\
    (s_cluster_ratio sb = 1 -> s_delalloc sb = true -> is_charged s = given_back n (nodes i)).
Proof.
  intros Hi. assert (between (first_pass i)) as Hs by (by split).
  change (insert_retry 3 pass mem (first_pass i)) with (s ← pass (mem 2%nat) (first_pass i); if pass_failed s then insert_retry 2 pass mem s else Ok s).
  destruct (insert_pass_ok (mem 2%nat) (first_pass i) Hs) as (s1 & -> & Hs1 & Hres). cbn [mbind outcome_bind]. pose proof Hs1 as [Hi1 He2 He3].
  destruct Hres as [He1 He3' Hst Hex Hch|He1 Hm Hdl Hn1 He3' Hr|He1 He3' Hratio Hst Hex Hrd].
  - rewrite pass_over by done. exists s1. split; [done|split; [|by intros; apply Hch]]. unfold insert_end. split_and!; [done..|]. intros (Hsp & Hnw & _). apply Hex; [by rewrite Hsp|done].
  - assert (pass_failed s1 = true) as -> by (unfold pass_failed; by destruct (Z.eqb_spec (is_err1 s1) 0)). destruct (Hr eq_refl eq_refl) as (Hr1 & Hp1 & Hc1).
    destruct (two_insert_passes mem s1 Hs1 (or_introl He1)) as (s2 & -> & (Hi2 & Hst & _) & Hch). rewrite Hn1 in *. exists s2. split; [done|split].
    + unfold insert_end. split_and!; [done..|]. intros (Hsp & _). cbn in Hm. congruence.
    + intros E Hda. by rewrite (Hch E Hda Hr1 Hp1), Hc1.
  - rewrite pass_again by done. pose proof (stored_clean n _ _ Hn Hd Hst) as Hcl.
    destruct (two_insert_passes mem s1 Hs1 (or_intror (conj He3' Hcl))) as (s2 & -> & Hend & _). exists s2. split; [done|split; [|by intros]].
    apply (insert_end_trans _ (is_inode s1)); [done| |].
    + intros (Hsp & Hnw & _). apply Hex; [by rewrite Hsp, orb_true_r|done].
    + destruct Hend as (? & ? & Hx). unfold insert_end. split_and!; [done..|]. intros (_ & _ & [?|Hf]); [done|by apply Hx].
Qed.
End insert_extent.

(** ** [ext4_es_insert_delayed_extent] *)

Section delayed.
Variable sb : es_sb.
Variable n : extent_status.
Variables lclu_allocated end_allocated : bool.
Let end_ := es_lblk n + es_len n - 1.
Let pass := delayed_pass sb n (es_lblk n) end_ lclu_allocated end_allocated.

(** What a pass may use: what is left of the passes before, and what is
    allocated after a failure. *)
Definition has_es1 (s : delayed_state) : bool := ds_es1 s || negb (ds_err1 s =? 0).
Definition has_es2 (s : delayed_state) : bool := ds_es2 s || (negb (ds_err1 s =? 0) || negb (ds_err2 s =? 0)).
Definition has_pr (s : delayed_state) : bool := negb (ds_err1 s =? 0) || negb (ds_err2 s =? 0) || (ds_err3 s <? 0).
Definition has_prs (s : delayed_state) : bool :=
  (negb lclu_allocated || (ds_pr1 s || has_pr s && lclu_allocated)) && (negb end_allocated || (ds_pr2 s || has_pr s && end_allocated)).

(** The clusters of the ends are pending, if they are allocated. *)
Definition ends_pending (i : es_info) : Prop :=
  (lclu_allocated = true -> EXT4_B2C sb (es_lblk n) ∈ i_pending i) /\ (end_allocated = true -> EXT4_B2C sb end_ ∈ i_pending i).

Definition err3_ok (s : delayed_state) : Prop := ds_err3 s < 0 -> lclu_allocated || end_allocated = true.

Inductive delayed_end (s s' : delayed_state) : Prop :=
| dl_done : delayed_failed s' = false -> stored n (nodes (ds_inode s)) (nodes (ds_inode s')) -> ends_pending (ds_inode s') -> delayed_end s s'
| dl_err1 : ds_err1 s' <> 0 -> has_es1 s = false -> block_map (nodes (ds_inode s)) (es_lblk n) <> None -> delayed_end s s'
| dl_err2 : ds_err1 s' = 0 -> ds_err2 s' <> 0 -> has_es2 s = false -> nothing_in (ds_inode s') (es_lblk n) (es_len n) -> delayed_end s s'
| dl_err3 : ds_err1 s' = 0 -> ds_err2 s' = 0 -> ds_err3 s' < 0 -> has_prs s = false -> delayed_end s s'.

(** The pending reservations at the end of a pass. *)
Lemma pending_step i b pr mem (alloc : bool) e3 : es_ok i ->
  let r := if alloc then __insert_pending sb i b pr mem else (e3, pr, i) in
  es_ok r.2 /\ nodes r.2 = nodes i /\ (forall c, c ∈ i_pending i -> c ∈ i_pending r.2) /\
  ((alloc = true /\ 0 <= r.1.1 /\ EXT4_B2C sb b ∈ i_pending r.2) \/ (alloc = true /\ r.1.1 < 0 /\ pr = false) \/ (alloc = false /\ r = (e3, pr, i))).
Proof.
  intros Hi. destruct alloc; [|split_and!; auto].
  destruct (insert_pending_ok sb i b pr mem Hi) as (? & ? & _ & [[? Hp]|(? & ? & ? & _)]); split_and!; try done.
  - intros c. rewrite Hp. by apply elem_of_union_r.
  - left. rewrite Hp. split_and!; [done|done|by apply elem_of_union_l, elem_of_singleton].
  - unfold __insert_pending in *. destruct (__get_pending i _); [done|]. subst. done.
  - right. by left.
Qed.

Lemma delayed_pass_ok m s : ext_ok n -> es_ok (ds_inode s) -> err3_ok s ->
  exists s', pass m s = Ok s' /\ es_ok (ds_inode s') /\ err3_ok s' /\ outside_kept n (nodes (ds_inode s)) (nodes (ds_inode s')) /\
    delayed_end s s'.
Proof.
  intros Hn Hi He3. unfold pass, delayed_pass, end_. cbv zeta. fold (has_es1 s). fold (has_es2 s). fold (has_pr s).
  set (pr1 := ds_pr1 s || _). set (pr2 := ds_pr2 s || _).
  destruct (pass_core_ok sb (ds_inode s) n false (has_es1 s) (m_split m) (has_es2 s) (m_new m) Hi Hn) as (err & rsv & i1 & -> & Hi1 & Hres). cbn [mbind outcome_bind fst snd].
  destruct Hres as [(-> & Hm & _ & Hn1 & _ & Hd)|(-> & Ho & Hno & _ & _ & err2 & i2 & -> & Hi2 & _ & Hres)]; cbn [mbind outcome_bind fst snd].
  { change (negb (- ENOMEM =? 0)) with true. cbv iota. eexists; split; [done|]. split_and!; try done.
    - cbn. rewrite Hn1. apply outside_refl.
    - apply dl_err1; [done| |by destruct Hd as [p ->]]. by apply orb_false_iff in Hm as [? _]. }
  change (negb (0 =? 0)) with false. cbv iota. destruct Hres as [(-> & Hmap & _)|(-> & Hm & ->)].
  2:{ change (negb (- ENOMEM =? 0)) with true. cbv iota. eexists; split; [done|]. split_and!; try done. apply dl_err2; [done..| |done]. by apply orb_false_iff in Hm as [? _]. }
  change (negb (0 =? 0)) with false. cbv iota. pose proof (stored_insert n _ i1 i2 Ho Hmap) as [Ho2 Hst].
  destruct (pending_step i2 (es_lblk n) pr1 (m_pend1 m) lclu_allocated (ds_err3 s) Hi2) as (Hip & Hnp & Hsub & Hp). set (p := if lclu_allocated then _ else _) in *.
  assert (stored n (nodes (ds_inode s)) (nodes p.2)) as Hstp by (by rewrite Hnp).
  assert (forall r : Z * bool * es_info, es_ok r.2 -> nodes r.2 = nodes i2 -> (lclu_allocated || end_allocated = false -> 0 <= r.1.1) ->
    r.1.1 < 0 -> has_prs s = false -> forall q1 q2, let s' := DelayedState 0 0 r.1.1 false false q1 q2 r.2 in
    es_ok (ds_inode s') /\ err3_ok s' /\ outside_kept n (nodes (ds_inode s)) (nodes (ds_inode s')) /\ delayed_end s s') as Hfail.
  { intros r Hr Hnr Hr3 Hneg Hprs q1 q2 s'. split_and!; [done| |by cbn; rewrite Hnr|by apply dl_err3].
    intros _. destruct (lclu_allocated || end_allocated); [done|]. specialize (Hr3 eq_refl). lia. }
  assert ((lclu_allocated = true /\ p.1.1 < 0 /\ pr1 = false) \/
    (lclu_allocated && (p.1.1 <? 0) = false /\ (end_allocated = false -> 0 <= p.1.1) /\ (lclu_allocated = true -> EXT4_B2C sb (es_lblk n) ∈ i_pending p.2))) as [(Hl & Hneg & Hpr)|(Hcond & Hpos & Hin)].
  { destruct Hp as [(Hl & Hpos & Hin)|[?|(Hl & Hpe)]]; [right|by left|right]; rewrite Hl; (split_and!; [cbn; by try apply Z.ltb_ge| |done]); [done|].
    intros He. rewrite Hpe. cbn. destruct (Z.lt_ge_cases (ds_err3 s) 0) as [Hx|?]; [|done]. apply He3 in Hx. by rewrite Hl, He in Hx. }
  { rewrite Hl. cbn [andb]. destruct (Z.ltb_spec p.1.1 0); [|lia]. eexists; split; [done|]. apply Hfail; try done; [by rewrite Hl|].
    unfold has_prs. fold pr1. by rewrite Hl, Hpr. }
  rewrite Hcond. destruct (pending_step p.2 end_ pr2 (m_pend2 m) end_allocated p.1.1 Hip) as (Hiq & Hnq & Hsub2 & Hq). unfold end_ in *. set (q := if end_allocated then _ else _) in *.
  assert (stored n (nodes (ds_inode s)) (nodes q.2)) as Hstq by (by rewrite Hnq).
  assert (0 <= q.1.1 -> (end_allocated = true -> EXT4_B2C sb (es_lblk n + es_len n - 1) ∈ i_pending q.2) ->
    let s' := DelayedState 0 0 q.1.1 false false false false q.2 in
    es_ok (ds_inode s') /\ err3_ok s' /\ outside_kept n (nodes (ds_inode s)) (nodes (ds_inode s')) /\ delayed_end s s') as Hdone.
  { intros Hq0 Hq1 s'. split_and!; [done|intros Hx; cbn in Hx; lia|apply Hstq|].
    apply dl_done; [unfold delayed_failed; cbn; by apply Z.ltb_ge|done|]. split; [intros Hl; apply Hsub2; auto|done]. }
  destruct Hq as [(He & Hpos2 & Hin2)|[(He & Hneg2 & Hpr)|(He & Hqe)]]; rewrite He; cbn [andb].
  - destruct (Z.ltb_spec q.1.1 0); [lia|]. eexists; split; [done|]. by apply Hdone.
  - destruct (Z.ltb_spec q.1.1 0); [|lia]. eexists; split; [done|]. apply Hfail; try done; [congruence|by rewrite He, orb_true_r|].
    unfold has_prs. fold pr2. by rewrite He, Hpr, andb_false_r.
  - eexists; split; [done|]. apply Hdone; [rewrite Hqe; by apply Hpos|congruence].
Qed.

Lemma failed_pr s : delayed_failed s = true -> has_prs s = true.
Proof. unfold delayed_failed, has_prs, has_pr. intros ->. by destruct lclu_allocated, end_allocated; rewrite ?orb_true_r. Qed.

(** After a failure, and with nothing to split or a node for it, a pass is the
    last one if it has a node for the extent. *)
Lemma delayed_pass_last m s : ext_ok n -> es_ok (ds_inode s) -> err3_ok s -> delayed_failed s = true ->
  has_es2 s = true -> has_es1 s = true \/ nothing_in (ds_inode s) (es_lblk n) (es_len n) ->
  exists s', pass m s = Ok s' /\ es_ok (ds_inode s') /\ delayed_failed s' = false /\ stored n (nodes (ds_inode s)) (nodes (ds_inode s')) /\ ends_pending (ds_inode s').
Proof.
  intros Hn Hi H3 Hf H2 H1. destruct (delayed_pass_ok m s Hn Hi H3) as (s' & -> & Hi' & _ & _ & He). exists s'. split; [done|]. split; [done|].
  destruct He as [? ? ?|_ Hx Hd|_ _ Hx _|_ _ _ Hx]; [done|exfalso|congruence|by rewrite failed_pr in Hx].
  destruct H1 as [?|Hno]; [congruence|]. apply Hd, Hno. pose proof (eo_len n Hn). lia.
Qed.

Lemma err1_es s : ds_err1 s <> 0 -> delayed_failed s = true /\ has_es1 s = true /\ has_es2 s = true.
Proof. intros H. unfold delayed_failed, has_es1, has_es2. destruct (Z.eqb_spec (ds_err1 s) 0); [done|]. cbn. by rewrite !orb_true_r. Qed.
Lemma err2_es s : ds_err2 s <> 0 -> delayed_failed s = true /\ has_es2 s = true.
Proof. intros H. unfold delayed_failed, has_es2. destruct (Z.eqb_spec (ds_err2 s) 0); [done|]. cbn. by rewrite !orb_true_r. Qed.

(** After a failed pass two more are enough, after one that reserved all it
    needs a single one. *)
Definition finished (l0 : list extent_status) (r : outcome delayed_state) : Prop :=
  exists s', r = Ok s' /\ es_ok (ds_inode s') /\ stored n l0 (nodes (ds_inode s')) /\ ends_pending (ds_inode s').

Lemma delayed_last fuel mem s s' : ext_ok n -> es_ok (ds_inode s') -> err3_ok s' -> outside_kept n (nodes (ds_inode s)) (nodes (ds_inode s')) ->
  delayed_end s s' -> has_prs s = true ->
  finished (nodes (ds_inode s)) (if delayed_failed s' then delayed_retry (S fuel) pass mem s' else Ok s').
Proof.
  intros Hn Hi H3 Ho He Hp. destruct He as [Hd Hst Hend|H1 _ _|H1 H2 _ Hno|_ _ _ Hx]; [rewrite Hd; by exists s'|..|congruence].
  - destruct (err1_es s' H1) as (Hf & He1 & He2). rewrite Hf. cbn [delayed_retry].
    destruct (delayed_pass_last (mem fuel) s' Hn Hi H3 Hf He2 (or_introl He1)) as (s2 & -> & ? & Hd & ? & ?). cbn [mbind outcome_bind]. rewrite Hd.
    exists s2. split_and!; try done. by apply (stored_trans _ _ (nodes (ds_inode s'))).
  - destruct (err2_es s' H2) as (Hf & He2). rewrite Hf. cbn [delayed_retry].
    destruct (delayed_pass_last (mem fuel) s' Hn Hi H3 Hf He2 (or_intror Hno)) as (s2 & -> & ? & Hd & ? & ?). cbn [mbind outcome_bind]. rewrite Hd.
    exists s2. split_and!; try done. by apply (stored_trans _ _ (nodes (ds_inode s'))).
Qed.

Lemma delayed_retry_done mem i : ext_ok n -> es_ok i ->
  finished (nodes i) (delayed_retry 3 pass mem (DelayedState 0 0 0 false false false false i)).
Proof.
  intros Hn Hi. set (s0 := DelayedState 0 0 0 false false false false i). cbn [delayed_retry].
  destruct (delayed_pass_ok (mem 2%nat) s0 Hn Hi) as (s1 & -> & Hi1 & H31 & Ho1 & He1); [done|]. cbn [mbind outcome_bind].
  destruct (delayed_failed s1) eqn:Ef1.
  2:{ destruct He1 as [_ Hst Hend|H1 _ _|_ H2 _ _|_ _ H3 _]; [by exists s1|..]; exfalso.
      - destruct (err1_es s1 H1). congruence.
      - destruct (err2_es s1 H2). congruence.
      - unfold delayed_failed in Ef1. destruct (Z.ltb_spec (ds_err3 s1) 0); [by rewrite orb_true_r in Ef1|lia]. }
  destruct (delayed_pass_ok (mem 1%nat) s1 Hn Hi1 H31) as (s2 & -> & Hi2 & H32 & Ho2 & He2). cbn [mbind outcome_bind].
  destruct (delayed_last 0 mem s1 s2 Hn Hi2 H32 Ho2 He2 (failed_pr s1 Ef1)) as (s3 & Hr & ? & ? & ?). cbn [delayed_retry] in Hr. rewrite Hr.
  exists s3. split_and!; try done. by apply (stored_trans _ _ (nodes (ds_inode s1))).
Qed.
End delayed.

(** ** The shrinker *)

(** Blocks that are not delayed may be forgotten. *)
Definition dropped (l l' : list extent_status) : Prop := forall b, block_map l' b = block_map l b \/ (block_map l' b = None /\ ~ delayed_at l b).

Lemma dropped_same l l' : (forall b, block_map l' b = block_map l b) -> dropped l l'.
Proof. intros H b. left. apply H. Qed.
Lemma dropped_trans l1 l2 l3 : dropped l1 l2 -> dropped l2 l3 -> dropped l1 l3.
Proof.
  intros H1 H2 b. destruct (H1 b) as [E1|[E1 Hd1]], (H2 b) as [E2|[E2 Hd2]]; [left; congruence|right|right|by right].
  - split; [done|]. intros [p Hp]. apply Hd2. exists p. congruence.
  - split; [congruence|done].
Qed.

(** Taking out one node. *)
Lemma erase_map l1 e l2 b : list_ok (l1 ++ e :: l2) ->
  block_map (l1 ++ l2) b = if in_range b e then None else block_map (l1 ++ e :: l2) b.
Proof.
  intros Hok. destruct (in_range b e) eqn:Eb.
  - apply list_ok_mid in Hok as (_ & _ & _ & Ha & Hb & _). apply in_range_spec in Eb. unfold before in *.
    rewrite block_map_app, ends_before_map, starts_after_map; [done| |]; (eapply Forall_impl; [first [exact Ha|exact Hb]|]; intros x Hx; cbn in *; lia).
  - rewrite !block_map_app. cbn. by rewrite Eb.
Qed.
Lemma erase_dropped l1 e l2 : list_ok (l1 ++ e :: l2) -> ext4_es_must_keep e = false -> dropped (l1 ++ e :: l2) (l1 ++ l2).
Proof.
  intros Hok Hk b. rewrite (erase_map l1 e) by done. destruct (in_range b e) eqn:Eb; [right|by left]. split; [done|]. intros [p Hp].
  rewrite (holder_map _ e) in Hp; [|done|set_solver|done]. apply (inj Some), (f_equal fst) in Hp. cbn [content fst] in Hp.
  apply list_ok_mid in Hok as (_ & He & _). apply delayed_type in Hp; [|done]. unfold ext4_es_must_keep in Hk. congruence.
Qed.

(** The extents dropped are counted, and none is looked at without counting. *)
Definition scanned (c c' : scan) (l l' : list extent_status) : Prop :=
  nr_shrunk c' - nr_shrunk c = Z.of_nat (length l) - Z.of_nat (length l') /\ nr_shrunk c' - nr_shrunk c <= nr_to_scan c - nr_to_scan c' /\
  (0 <= nr_to_scan c -> 0 <= nr_to_scan c').
Lemma scanned_trans c1 c2 c3 l1 l2 l3 : scanned c1 c2 l1 l2 -> scanned c2 c3 l2 l3 -> scanned c1 c3 l1 l3.
Proof. unfold scanned. lia. Qed.
Definition shrunk (i : es_info) (c : scan) (r : outcome (Z * es_info * scan)) : Prop :=
  exists ret i' c', r = Ok (ret, i', c') /\ tree_ok i' /\ i_pending i' = i_pending i /\ dropped (nodes i) (nodes i') /\ scanned c c' (nodes i) (nodes i').

Lemma shrunk_step i i1 c c1 r : tree_ok i1 -> i_pending i1 = i_pending i -> dropped (nodes i) (nodes i1) -> scanned c c1 (nodes i) (nodes i1) ->
  shrunk i1 c1 r -> shrunk i c r.
Proof.
  intros H1 H2 H3 H4 (ret & i' & c' & -> & ? & ? & ? & ?). exists ret, i', c'. split_and!; try done; [congruence|by eapply dropped_trans|by eapply scanned_trans].
Qed.
Lemma shrunk_end i c ret b : tree_ok i -> shrunk i c (Ok (ret, set_shrink i b, c)).
Proof. intros Hi. exists ret, (set_shrink i b), c. split_and!; try done; [by destruct Hi as [? [? ? ?]]|by apply dropped_same|unfold scanned; change (nodes (set_shrink i b)) with (nodes i); lia]. Qed.

Lemma reclaim_loop_ok end_ l L i c : tree_ok i -> nodes i = L ++ l -> shrunk i c (reclaim_loop end_ l i c).
Proof.
  revert L i c. induction l as [|e l IH]; intros L i c Hi Hl; cbn [reclaim_loop]; [by apply shrunk_end|].
  destruct (Z.leb_spec (nr_to_scan c) 0); [by apply shrunk_end|]. destruct (end_ <? es_lblk e); [by apply shrunk_end|].
  pose proof (tk_list i Hi) as Hok. rewrite Hl in Hok. assert (nodes i = (L ++ [e]) ++ l) as Hl' by (by rewrite <- app_assoc).
  destruct (ext4_es_must_keep e) eqn:Ek; [|destruct (ext4_es_is_referenced e)].
  - apply (shrunk_step i i c (Scan (nr_to_scan c - 1) (nr_shrunk c))); [done|done|by apply dropped_same|unfold scanned; cbn; lia|]. by apply (IH (L ++ [e])).
  - destruct (list_ok_off _ _ _ Hok) as [Ho1 Ho2]. pose proof (set_node_mid i L e l ext4_es_clear_referenced Hl Ho1 Ho2) as Hn.
    apply (shrunk_step i (set_node i (es_lblk e) ext4_es_clear_referenced) c (Scan (nr_to_scan c - 1) (nr_shrunk c))).
    + split; rewrite Hn; [apply mid_same_ok; [apply same_cleared|done]|]. apply (mid_same_counts i _ _ e); try done; [by rewrite <- Hl; apply Hi|apply same_drop, same_cleared].
    + done.
    + apply dropped_same. intros b. rewrite Hn, Hl. apply mid_same_map, same_cleared.
    + rewrite Hn, Hl. unfold scanned. cbn. rewrite !length_app. cbn. lia.
    + apply (IH (L ++ [ext4_es_clear_referenced e])); [|by rewrite <- app_assoc].
      split; rewrite Hn; [apply mid_same_ok; [apply same_cleared|done]|]. apply (mid_same_counts i _ _ e); try done; [by rewrite <- Hl; apply Hi|apply same_drop, same_cleared].
  - destruct (erase_step i L e l Hi Hl) as (i1 & -> & Hi1 & Hn1 & _ & [Hp1 _]). cbn [mbind outcome_bind].
    apply (shrunk_step i i1 c (Scan (nr_to_scan c - 1) (nr_shrunk c + 1))); [done|done|rewrite Hl, Hn1; by apply erase_dropped| |by apply (IH L)].
    rewrite Hl, Hn1. unfold scanned. cbn. rewrite !length_app. cbn. lia.
Qed.

Lemma do_reclaim_ok i end_ c : tree_ok i -> shrunk i c (es_do_reclaim_extents i end_ c).
Proof.
  intros Hi. unfold es_do_reclaim_extents. rewrite es_tree_search_spec by apply Hi. cbn [mbind outcome_bind]. change (inorder (es_root i)) with (nodes i).
  destruct (first_from (i_es_shrink_lblk i) (nodes i)) as [e|] eqn:Ef; [|by apply shrunk_end].
  apply first_from_split in Ef as (l1 & l2 & Hl & _). pose proof (tk_list i Hi) as Hok. rewrite Hl in Hok. destruct (list_ok_off _ _ _ Hok) as [Ho _].
  rewrite Hl at 1. rewrite nodes_from_mid by done. by apply (reclaim_loop_ok end_ (e :: l2) l1).
Qed.

Lemma reclaim_ok i nr : es_ok i ->
  exists n left i', es_reclaim_extents i nr = Ok (n, left, i') /\ es_ok i' /\ i_pending i' = i_pending i /\ dropped (nodes i) (nodes i') /\
    n = Z.of_nat (length (nodes i)) - Z.of_nat (length (nodes i')) /\ n <= nr - left /\ (0 <= nr -> 0 <= left).
Proof.
  intros Hi. unfold es_reclaim_extents. destruct (i_es_shk_nr i =? 0); [exists 0, nr, i; split_and!; try done; try lia; by apply dropped_same|].
  assert (forall i' n c', tree_ok i' -> i_pending i' = i_pending i -> dropped (nodes i) (nodes i') -> scanned (Scan nr 0) c' (nodes i) (nodes i') ->
    exists k left i'', Ok (nr_shrunk c', nr_to_scan c', set_cache i' n) = Ok (k, left, i'') /\ (n = None -> es_ok i'') /\ i_pending i'' = i_pending i /\
      dropped (nodes i) (nodes i'') /\ k = Z.of_nat (length (nodes i)) - Z.of_nat (length (nodes i'')) /\ k <= nr - left /\ (0 <= nr -> 0 <= left)) as Hend.
  { intros i' n c' Ht Hp Hd (H1 & H2 & H3). cbn in *. eexists _, _, _. split; [done|]. rewrite nodes_set_cache. split_and!; try done; try lia.
    intros ->. split; [by destruct Ht as [? [? ? ?]]|done]. }
  destruct (do_reclaim_ok i EXT_MAX_BLOCKS (Scan nr 0) (ek_tree i Hi)) as (ret & i1 & c1 & -> & Hi1 & Hp1 & Hd1 & Hs1). cbn [mbind outcome_bind fst snd].
  destruct ((ret =? 0) && _).
  - destruct (do_reclaim_ok i1 (u32 (i_es_shrink_lblk i - 1)) c1 Hi1) as (ret2 & i2 & c2 & -> & Hi2 & Hp2 & Hd2 & Hs2). cbn [mbind outcome_bind fst snd].
    destruct (Hend i2 None c2) as (k & left & i' & Heq & Hx & Hrest); [done|congruence|by eapply dropped_trans|by eapply scanned_trans|]. exists k, left, i'. auto.
  - cbn [mbind outcome_bind fst snd]. destruct (Hend i1 None c1) as (k & left & i' & Heq & Hx & Hrest); [done..|]. exists k, left, i'. auto.
Qed.

(** Only the delayed extents. *)
Definition kept (l : list extent_status) : list extent_status := filter (fun e => ext4_es_must_keep e = true) l.

Lemma clear_loop_ok l L i : tree_ok i -> nodes i = L ++ l -> exists i', clear_loop l i = Ok i' /\ tree_ok i' /\ cache_es i' = cache_es i /\ i_pending i' = i_pending i /\
  nodes i' = L ++ kept l.
Proof.
  revert L i. induction l as [|e l IH]; intros L i Hi Hl; cbn [clear_loop]; [by exists i|]. unfold kept.
  destruct (ext4_es_must_keep e) eqn:Ek; cbn [negb].
  - rewrite filter_cons_True by done. destruct (IH (L ++ [e]) i Hi) as (i' & -> & ? & ? & ? & Hn); [by rewrite <- app_assoc|]. exists i'. rewrite <- app_assoc in Hn. by split_and!.
  - rewrite filter_cons_False by congruence. destruct (erase_step i L e l Hi Hl) as (i1 & -> & Hi1 & Hn1 & Hc1 & [Hp1 _]). cbn [mbind outcome_bind].
    destruct (IH L i1 Hi1 Hn1) as (i' & -> & ? & ? & ? & ?). exists i'. split_and!; try done; congruence.
Qed.
Lemma clear_ok i : es_ok i -> exists i', ext4_clear_inode_es i = Ok i' /\ es_ok i' /\ i_pending i' = i_pending i /\ nodes i' = kept (nodes i).
Proof.
  intros Hi. unfold ext4_clear_inode_es. destruct (clear_loop_ok (nodes i) [] (set_cache i None) (cache_none_ok i Hi) eq_refl) as (i' & Hr & Ht & Hc & Hp & Hn).
  exists i'. split_and!; try done. split; [done|]. by rewrite Hc.
Qed.

(** ** [ext4_es_remove_extent] *)

Lemma remove_call_ok sb i mem lblk len : es_ok i -> s_fc_replay sb = false -> 0 <= lblk -> 0 < len -> lblk + len <= EXT_MAX_BLOCKS ->
  exists n i', ext4_es_remove_extent sb i mem lblk len = Ok (n, i') /\ es_ok i' /\ forgot lblk (lblk + len - 1) (nodes i) (nodes i') /\
    (mem 1%nat = true -> removed lblk (lblk + len - 1) (nodes i) (nodes i')) /\
    (s_cluster_ratio sb = 1 -> s_delalloc sb = true -> n = s32 (delayed_in lblk (lblk + len - 1) (nodes i))).
Proof.
  intros Hi Hr H0 Hlen Hmax. unfold EXT_MAX_BLOCKS in *. unfold ext4_es_remove_extent. rewrite Hr. destruct (Z.eqb_spec len 0); [lia|]. rewrite u32_small by lia.
  set (end_ := lblk + len - 1). destruct (Z.ltb_spec end_ lblk); [lia|]. cbn [BUG_ON mbind outcome_bind remove_retry].
  destruct (remove_ok sb i lblk end_ true false (mem 1%nat) Hi) as (err & rsv & i1 & -> & Hres); [lia|unfold EXT_MAX_BLOCKS; lia|]. cbn [mbind outcome_bind fst snd].
  destruct Hres as [(-> & (Hi1 & _ & Hc & _) & Hf & Hrem)|(-> & Hm & -> & Hi1 & Hn1 & _)].
  { change (negb (0 =? 0)) with false. cbv iota. eexists _, i1. split_and!; try done. intros E Hd. destruct (Hc E) as [_ Hc']. rewrite <- Hc' by done. by destruct rsv. }
  change (negb (- ENOMEM =? 0)) with true. cbv iota.
  destruct (remove_ok sb i1 lblk end_ true true (mem 0%nat) Hi1) as (err & rsv & i2 & -> & Hres); [lia|unfold EXT_MAX_BLOCKS; lia|]. cbn [mbind outcome_bind fst snd].
  destruct Hres as [(-> & (Hi2 & _ & Hc & _) & Hf & Hrem)|(_ & Hx & _)]; [|done]. rewrite Hn1 in *.
  change (negb (0 =? 0)) with false. cbv iota. eexists _, i2. split_and!; try done; [by intros; apply Hrem|]. intros E Hd. destruct (Hc E) as [_ Hc']. rewrite <- Hc' by done. by destruct rsv.
Qed.

Lemma insert_call_ok sb i mem lblk len pblk status :
  let n := ext4_es_store_pblock_status lblk len pblk status in
  es_ok i -> s_fc_replay sb = false -> ext_ok n -> ext4_es_is_delayed n = false -> (1 < s_cluster_ratio sb -> sb_ok sb) ->
  exists charged i', ext4_es_insert_extent 3 sb i mem lblk len pblk status = Ok (charged, i') /\ es_ok i' /\ stored n (nodes i) (nodes i') /\
    (m_split (mem 2%nat) = true -> m_new (mem 2%nat) = true -> s_cluster_ratio sb = 1 \/ (forall k, m_split (mem k) = true /\ m_new (mem k) = true) ->
     forall b, block_map (nodes i') b = map_with i n b) /\
    (s_cluster_ratio sb = 1 -> s_delalloc sb = true -> charged = given_back n (nodes i)).
Proof.
  intros n Hi Hr Hn Hd Hsb. pose proof Hn as [H0 Hlen Hmax _ _ _]. cbn in H0, Hlen, Hmax. unfold EXT_MAX_BLOCKS in Hmax.
  unfold ext4_es_insert_extent. rewrite Hr, u32_small by lia. destruct (Z.eqb_spec len 0); [lia|]. destruct (Z.ltb_spec (lblk + len - 1) lblk); [lia|]. cbn [BUG_ON mbind outcome_bind].
  fold n. set (revise := _ && _ && _).
  destruct (insert_retry_done sb n revise Hn Hd) with (mem := mem) (i := i) as (s & Hs & (Hi' & Hst & Hex) & Hch); [|done|].
  { unfold revise. intros [[Hx%Z.ltb_lt _]%andb_true_iff _]%andb_true_iff. auto. }
  change (es_lblk n) with lblk in Hs. change (es_len n) with len in Hs. rewrite Hs. cbn [mbind outcome_bind]. eexists _, _. split_and!; auto.
Qed.

Lemma delayed_call_ok sb i mem lblk len lclu endc :
  let n := ext4_es_store_pblock_status lblk len (2 ^ 64 - 1) EXTENT_STATUS_DELAYED in
  es_ok i -> s_fc_replay sb = false -> 0 <= lblk -> 0 < len -> lblk + len <= EXT_MAX_BLOCKS ->
  exists i', ext4_es_insert_delayed_extent 3 sb i mem lblk len lclu endc = Ok i' /\ es_ok i' /\ stored n (nodes i) (nodes i') /\ ends_pending sb n lclu endc i'.
Proof.
  intros n Hi Hr H0 Hlen Hmax.
  destruct (new_ext_ok lblk len (2 ^ 64 - 1) EXTENT_STATUS_DELAYED H0 Hlen Hmax) as [Hn _]; [by right; right; left|by intros [?|?]|]. fold n in Hn.
  unfold EXT_MAX_BLOCKS in Hmax. unfold ext4_es_insert_delayed_extent. rewrite Hr, u32_small by lia. destruct (Z.eqb_spec len 0); [lia|]. fold n.
  destruct (delayed_retry_done sb n lclu endc mem i Hn Hi) as (s & Hs & ? & ? & ?). cbn [es_lblk es_len n ext4_es_store_pblock_status] in Hs. rewrite Hs. cbn [mbind outcome_bind]. eauto.
Qed.

(** ** Histories *)

(** The operations the rest of ext4 does on a tree, and what they are given. *)
Inductive es_op :=
| OpInsert (mem : nat -> es_mem) (lblk len pblk status : Z)
| OpInsertDelayed (mem : nat -> es_mem) (lblk len : Z) (lclu_allocated end_allocated : bool)
| OpCache (mem : bool) (lblk len pblk status : Z)
| OpRemove (mem : nat -> bool) (lblk len : Z)
| OpLookup (lblk : Z)
| OpScan (m : extent_status -> bool) (start last : Z)
| OpRemovePending (lblk : Z)
| OpReclaim (nr : Z)
| OpClear.

Definition run_op (sb : es_sb) (op : es_op) (i : es_info) : outcome es_info :=
  match op with
  | OpInsert mem lblk len pblk status => r ← ext4_es_insert_extent 3 sb i mem lblk len pblk status; Ok r.2
  | OpInsertDelayed mem lblk len lclu endc => ext4_es_insert_delayed_extent 3 sb i mem lblk len lclu endc
  | OpCache mem lblk len pblk status => ext4_es_cache_extent sb i mem lblk len pblk status
  | OpRemove mem lblk len => r ← ext4_es_remove_extent sb i mem lblk len; Ok r.2
  | OpLookup lblk => r ← ext4_es_lookup_extent sb i lblk; Ok r.2
  | OpScan m start last => r ← __es_scan_range i m start last; Ok r.2
  | OpRemovePending lblk => Ok (__remove_pending sb i lblk)
  | OpReclaim nr => r ← es_reclaim_extents i nr; Ok r.2
  | OpClear => ext4_clear_inode_es i
  end.

(** An extent as the callers hand it over: of one type, which is not delayed, and
    in the file and on the disk. *)
Definition op_ok (sb : es_sb) (op : es_op) : Prop :=
  match op with
  | OpInsert _ lblk len pblk status =>
      ext_ok (ext4_es_store_pblock_status lblk len pblk status) /\ ext4_es_is_delayed (ext4_es_store_pblock_status lblk len pblk status) = false
  | OpInsertDelayed _ lblk len _ _ | OpRemove _ lblk len => 0 <= lblk /\ 0 < len /\ lblk + len <= EXT_MAX_BLOCKS
  | OpCache _ lblk len pblk status => ext_ok (ext4_es_store_pblock_status lblk len pblk status)
  | OpScan _ start last => 0 <= start <= last
  | _ => True
  end.

Definition ext4_es_init_tree : es_info := EsInfo Leaf None 0 0 false 0 ∅.

Lemma init_tree_ok : es_ok ext4_es_init_tree.
Proof. split; [split; [apply list_ok_nil|done]|done]. Qed.

Lemma run_op_ok sb op i : sb_ok sb -> s_fc_replay sb = false -> es_ok i -> op_ok sb op -> exists i', run_op sb op i = Ok i' /\ es_ok i'.
Proof.
  intros Hsb Hr Hi. destruct op as [mem lblk len pblk st|mem lblk len lc ec|mem lblk len pblk st|mem lblk len|lblk|m start last|lblk|nr|]; cbn [op_ok run_op].
  - intros (Hn & Hd). destruct (insert_call_ok sb i mem lblk len pblk st Hi Hr Hn Hd) as (c & i' & -> & ? & _); [auto|]. by exists i'.
  - intros (? & ? & ?). destruct (delayed_call_ok sb i mem lblk len lc ec Hi Hr) as (i' & -> & ? & _); [done..|]. by exists i'.
  - intros Hn. destruct (cache_ok sb i mem _ Hi Hr Hn) as (i' & Hc & ? & _). exists i'. by split.
  - intros (? & ? & ?). destruct (remove_call_ok sb i mem lblk len Hi Hr) as (n & i' & -> & ? & _); [done..|]. by exists i'.
  - intros _. destruct (lookup_spec sb i lblk Hi Hr) as (r & i' & -> & ? & _). by exists i'.
  - intros ?. destruct (scan_range_spec i m start last Hi) as (r & i' & -> & ? & _); [done|]. by exists i'.
  - intros _. eexists; split; [done|]. by apply set_pending_ok.
  - intros _. destruct (reclaim_ok i nr Hi) as (n & left & i' & -> & ? & _). by exists i'.
  - intros _. destruct (clear_ok i Hi) as (i' & -> & ? & _). by exists i'.
Qed.

(** Whatever is done in whatever order, from the empty tree on. *)
Inductive es_reach (sb : es_sb) : es_info -> Prop :=
| reach_init : es_reach sb ext4_es_init_tree
| reach_step i op i' : es_reach sb i -> op_ok sb op -> run_op sb op i = Ok i' -> es_reach sb i'.

Lemma reach_ok sb i : sb_ok sb -> s_fc_replay sb = false -> es_reach sb i -> es_ok i.
Proof.
  intros Hsb Hr. induction 1 as [|i op i' _ IH Hop Hrun]; [apply init_tree_ok|]. destruct (run_op_ok sb op i Hsb Hr IH Hop) as (i2 & Hrun2 & ?). congruence.
Qed.

(** ** Properties *)

(** C24: [ext4_es_insert_extent] refines storing an extent in a map of blocks.
    Given an extent that is not delayed, it returns after three passes at most,
    whatever memory each of them finds, and keeps the tree well formed; every
    block of the extent is as the extent says, or forgotten for lack of memory;
    every other block is as before, or was not delayed and is forgotten.  Nothing
    is forgotten if the first pass has memory for extents where a cluster is a
    block, and if every pass has where it is not.  Where a cluster is a block, it
    gives back one reservation for each block of the range that was delayed. *)
Theorem es_insert_extent_stores (sb : es_sb) (i : es_info) (mem : nat -> es_mem) (lblk len pblk status : Z) :
  let n := ext4_es_store_pblock_status lblk len pblk status in
  es_ok i -> s_fc_replay sb = false -> ext_ok n -> ext4_es_is_delayed n = false -> (1 < s_cluster_ratio sb -> sb_ok sb) ->
  exists charged i', ext4_es_insert_extent 3 sb i mem lblk len pblk status = Ok (charged, i') /\ es_ok i' /\ stored n (nodes i) (nodes i') /\
    (m_split (mem 2%nat) = true -> m_new (mem 2%nat) = true -> s_cluster_ratio sb = 1 \/ (forall k, m_split (mem k) = true /\ m_new (mem k) = true) ->
     forall b, block_map (nodes i') b = map_with i n b) /\
    (s_cluster_ratio sb = 1 -> s_delalloc sb = true -> charged = given_back n (nodes i)).
Proof. apply insert_call_ok. Qed.

(** C26: [ext4_es_remove_extent] returns, after two passes at most, with no block
    of the range in the tree; every other block is as before, or was not delayed
    and is forgotten for lack of memory for a second node.  Where a cluster is a
    block it releases as many reservations as blocks of the range were
    delayed. *)
Theorem es_remove_extent_exact (sb : es_sb) (i : es_info) (mem : nat -> bool) (lblk len : Z) :
  es_ok i -> s_fc_replay sb = false -> 0 <= lblk -> 0 < len -> lblk + len <= EXT_MAX_BLOCKS ->
  exists n i', ext4_es_remove_extent sb i mem lblk len = Ok (n, i') /\ es_ok i' /\ forgot lblk (lblk + len - 1) (nodes i) (nodes i') /\
    (mem 1%nat = true -> removed lblk (lblk + len - 1) (nodes i) (nodes i')) /\
    (s_cluster_ratio sb = 1 -> s_delalloc sb = true -> n = s32 (delayed_in lblk (lblk + len - 1) (nodes i))).
Proof. apply remove_call_ok. Qed.

(** C27: [ext4_es_insert_delayed_extent] returns after three passes at most,
    whatever memory each of them finds: then every block of the range is
    delayed, no delayed block was lost, and the clusters of its ends are pending
    if they were allocated. *)
Theorem delayed_insert_completes (sb : es_sb) (i : es_info) (mem : nat -> es_mem) (lblk len : Z) (lclu_allocated end_allocated : bool) :
  let n := ext4_es_store_pblock_status lblk len (2 ^ 64 - 1) EXTENT_STATUS_DELAYED in
  es_ok i -> s_fc_replay sb = false -> 0 <= lblk -> 0 < len -> lblk + len <= EXT_MAX_BLOCKS ->
  exists i', ext4_es_insert_delayed_extent 3 sb i mem lblk len lclu_allocated end_allocated = Ok i' /\ es_ok i' /\
    (forall b, lblk <= b < lblk + len -> delayed_at (nodes i') b) /\ (forall b, delayed_at (nodes i) b -> delayed_at (nodes i') b) /\
    ends_pending sb n lclu_allocated end_allocated i'.
Proof.
  intros n Hi Hr H0 Hl Hm. destruct (delayed_call_ok sb i mem lblk len lclu_allocated end_allocated Hi Hr H0 Hl Hm) as (i' & Hc & Hi' & [Ho Hs] & He). fold n in Ho, Hs, He.
  assert (ext4_es_type n = EXTENT_STATUS_DELAYED) as Ht by (unfold n; by rewrite type_new).
  assert (forall b, in_range b n = true -> delayed_at (nodes i') b) as Hd.
  { intros b Hb. destruct (Hs b Hb) as [Hx|[_ Hx]]; [eexists; rewrite Hx; unfold content; by rewrite Ht|]. unfold ext4_es_is_delayed in Hx. by rewrite Ht in Hx. }
  exists i'. split_and!; [done|done|intros b Hb; apply Hd; by apply in_range_spec| |apply He..].
  intros b Hb. destruct (in_range b n) eqn:Eb; [by apply Hd|]. destruct (Ho b Eb) as [Hx|[_ Hx]]; [|done]. destruct Hb as [p Hp]. exists p. congruence.
Qed.

(** C25: The extent status tree is well typed in every history: whatever the
    operations do in whatever order, with whatever memory, the extents of the tree
    are of one type each, not empty, in the file, in order and disjoint, the
    cached node is one of the tree, and the counters and the list of the shrinker
    agree with them; and no operation hits a [BUG_ON] or loops. *)
Theorem es_histories_well_typed (sb : es_sb) (i : es_info) (op : es_op) :
  sb_ok sb -> s_fc_replay sb = false -> es_reach sb i -> op_ok sb op -> es_ok i /\ exists i', run_op sb op i = Ok i' /\ es_ok i'.
Proof. intros Hsb Hr Hi Hop. pose proof (reach_ok sb i Hsb Hr Hi) as Hok. split; [done|]. by apply run_op_ok. Qed.

(** The shrinker drops no delayed block of an inode: [es_reclaim_extents] returns, every
    block is as before or was not delayed and is forgotten, it returns the number
    of extents it dropped, and looks at no more than it was asked to;
    [ext4_clear_inode_es] leaves exactly the delayed extents. *)
Theorem reclaim_keeps_delayed (i : es_info) (nr : Z) :
  es_ok i ->
  (exists n left i', es_reclaim_extents i nr = Ok (n, left, i') /\ es_ok i' /\ i_pending i' = i_pending i /\ dropped (nodes i) (nodes i') /\
    n = Z.of_nat (length (nodes i)) - Z.of_nat (length (nodes i')) /\ n <= nr - left /\ (0 <= nr -> 0 <= left)) /\
  (exists i', ext4_clear_inode_es i = Ok i' /\ es_ok i' /\ i_pending i' = i_pending i /\ nodes i' = kept (nodes i)).
Proof. intros Hi. split; [by apply reclaim_ok|by apply clear_ok]. Qed.

(** [__revise_pending] makes the pending reservations right for the clusters
    at the ends of a range: with memory, each of the two is pending exactly when
    it has a delayed block outside of the range, and every other reservation is
    left alone; the tree does not change. *)
Theorem revise_pending_exact (sb : es_sb) (i : es_info) (lblk len : Z) (prealloc : bool) :
  es_ok i -> sb_ok sb -> 0 <= lblk -> 0 < len -> lblk + len <= EXT_MAX_BLOCKS ->
  exists ret pr i', __revise_pending sb i lblk len prealloc true true = Ok (ret, pr, i') /\ es_ok i' /\ nodes i' = nodes i /\ 0 <= ret /\
    forall c, c ∈ i_pending i' <->
      if decide (c = EXT4_B2C sb lblk \/ c = EXT4_B2C sb (lblk + len - 1)) then cluster_delayed sb (nodes i) lblk (lblk + len - 1) c else c ∈ i_pending i.
Proof.
  intros Hi Hsb H0 Hl Hm. destruct (revise_ok sb i lblk len prealloc true true Hi Hsb H0 Hl Hm) as ([[ret pr] i'] & Hr & ? & ? & _ & [[? Hp]|(_ & ? & _)]); [|done].
  exists ret, pr, i'. split_and!; done.
Qed.
End ops.

(** ** Witnesses *)

(** There is no memory in the first pass. *)
Definition no_mem : nat -> es_mem := fun _ => EsMem false false false false.

(** Clusters of 16 blocks. *)
Definition big_sb : es_sb := EsSb 4 true false.

Lemma es_insert_extent_stores_witness :
  let n := ext4_es_store_pblock_status 4 2 700 EXTENT_STATUS_WRITTEN in
  exists charged i', @ext4_es_insert_extent list_shape 3 big_sb demo_info no_mem 4 2 700 EXTENT_STATUS_WRITTEN = Ok (charged, i') /\ es_ok i' /\ stored n (nodes demo_info) (nodes i') /\
    (m_split (no_mem 2%nat) = true -> m_new (no_mem 2%nat) = true -> s_cluster_ratio big_sb = 1 \/ (forall k, m_split (no_mem k) = true /\ m_new (no_mem k) = true) ->
     forall b, block_map (nodes i') b = map_with demo_info n b) /\
    (s_cluster_ratio big_sb = 1 -> s_delalloc big_sb = true -> charged = given_back n (nodes demo_info)).
Proof.
  apply (@es_insert_extent_stores list_shape list_shape_ok); [apply demo_ok|reflexivity| |reflexivity|intros _; by compute].
  destruct (new_ext_ok 4 2 700 EXTENT_STATUS_WRITTEN) as [H _]; [by compute..|by left|by intros _; compute|exact H].
Defined.

Lemma es_remove_extent_exact_witness :
  exists n i', @ext4_es_remove_extent list_shape demo_sb demo_info (fun _ => false) 4 2 = Ok (n, i') /\ es_ok i' /\ forgot 4 (4 + 2 - 1) (nodes demo_info) (nodes i') /\
    (false = true -> removed 4 (4 + 2 - 1) (nodes demo_info) (nodes i')) /\
    (s_cluster_ratio demo_sb = 1 -> s_delalloc demo_sb = true -> n = s32 (delayed_in 4 (4 + 2 - 1) (nodes demo_info))).
Proof. apply (@es_remove_extent_exact list_shape list_shape_ok demo_sb demo_info (fun _ => false) 4 2); [apply demo_ok|reflexivity|by compute..]. Defined.

Lemma delayed_insert_completes_witness :
  let n := ext4_es_store_pblock_status 6 5 (2 ^ 64 - 1) EXTENT_STATUS_DELAYED in
  exists i', @ext4_es_insert_delayed_extent list_shape 3 demo_sb demo_info no_mem 6 5 true true = Ok i' /\ es_ok i' /\
    (forall b, 6 <= b < 6 + 5 -> delayed_at (nodes i') b) /\ (forall b, delayed_at (nodes demo_info) b -> delayed_at (nodes i') b) /\
    ends_pending demo_sb n true true i'.
Proof. apply (@delayed_insert_completes list_shape list_shape_ok); [apply demo_ok|reflexivity|by compute..]. Defined.

Lemma es_histories_well_typed_witness :
  let op := OpInsertDelayed no_mem 6 5 true true in
  es_ok ext4_es_init_tree /\ exists i', @run_op list_shape demo_sb op ext4_es_init_tree = Ok i' /\ es_ok i'.
Proof. apply (@es_histories_well_typed list_shape list_shape_ok); [by compute|reflexivity|apply reach_init|by compute]. Defined.

Lemma reclaim_keeps_delayed_witness :
  (exists n left i', @es_reclaim_extents list_shape demo_info 5 = Ok (n, left, i') /\ es_ok i' /\ i_pending i' = i_pending demo_info /\ dropped (nodes demo_info) (nodes i') /\
    n = Z.of_nat (length (nodes demo_info)) - Z.of_nat (length (nodes i')) /\ n <= 5 - left /\ (0 <= 5 -> 0 <= left)) /\
  (exists i', @ext4_clear_inode_es list_shape demo_info = Ok i' /\ es_ok i' /\ i_pending i' = i_pending demo_info /\ nodes i' = kept (nodes demo_info)).
Proof. apply (@reclaim_keeps_delayed list_shape list_shape_ok), demo_ok. Defined.

Lemma revise_pending_exact_witness :
  let sb := big_sb in
  exists ret pr i', __revise_pending sb demo_info 10 4 false true true = Ok (ret, pr, i') /\ es_ok i' /\ nodes i' = nodes demo_info /\ 0 <= ret /\
    forall c, c ∈ i_pending i' <->
      if decide (c = EXT4_B2C sb 10 \/ c = EXT4_B2C sb (10 + 4 - 1)) then cluster_delayed sb (nodes demo_info) 10 (10 + 4 - 1) c else c ∈ i_pending demo_info.
Proof. apply revise_pending_exact; [apply demo_ok|by compute..]. Defined.

(** With clusters of 16 blocks, an insertion over delayed blocks whose first pass
    has no memory passes the cluster it freed to [ext4_da_update_reserve_space]
    twice: the second pass finds nothing to remove, and [resv_used] still has the
    count of the first. *)
Lemma retry_charges_twice :
  let run mem :=
    i ← @ext4_es_insert_delayed_extent list_shape 3 big_sb ext4_es_init_tree no_mem 20 44 false false;
    r ← @ext4_es_insert_extent list_shape 3 big_sb i mem 20 21 700 EXTENT_STATUS_WRITTEN; Ok (r.1 : list Z) in
  run (fun _ => EsMem true true true true) = Ok [2] /\ run no_mem = Ok [1; 2].
Proof. split; vm_compute; reflexivity. Qed.
