(* ===== verification/ExtShrink.v ===== *)
(** The shrinker over all inodes ([__es_shrink], [extents_status.c]): the list of
    the inodes with extents that may be dropped, and the walk over it. *)

From stdpp Require Import sorting.
From S2P Require Import Prelude Pages Friend ExtStatus ExtInsert ExtRemove ExtOps.

(** An inode: its tree, whether its extents were put into the tree on request
    ([EXT4_STATE_EXT_PRECACHED]), and whether another thread has [i_es_lock]. *)
Record es_inode := EsInode { en_info : es_info; en_precached : bool; en_busy : bool }.
(** [s_es_list], and the inodes. *)
Record es_world := EsWorld { s_es_list : list Z; ew_inodes : gmap Z es_inode }.

Section shrink.
Context `{Hrb : RbTree}.

(** The tree of an inode after the shrinker was at it: [ext4_es_list_del] takes
    the inode off the list with its last extent that may be dropped. *)
Definition put_info (w : es_world) (c : Z) (n : es_inode) (i : es_info) : es_world :=
  EsWorld (if i_es_listed i then s_es_list w else filter (fun x => x <> c) (s_es_list w)) (<[c := EsInode i (en_precached n) (en_busy n)]> (ew_inodes w)).

Record shrink_state := ShrinkState { sh_world : es_world; sh_nr : Z; sh_shrunk : Z; sh_skipped : Z }.

(** The walk of [nr_to_walk] steps; true when the shrinker is done. *)
Fixpoint shrink_walk (nr_to_walk : nat) (retried : bool) (locked_ei : option Z) (s : shrink_state) : outcome (bool * shrink_state) :=
  match nr_to_walk with
  | O => Ok (false, s)
  | S nr_to_walk =>
      match s_es_list (sh_world s) with
      | [] => Ok (true, s)
      | c :: rest =>
          let w := EsWorld (rest ++ [c]) (ew_inodes (sh_world s)) in
          let skip := ShrinkState w (sh_nr s) (sh_shrunk s) (sh_skipped s + 1) in
          match ew_inodes w !! c with
          | None => Bug
          | Some n =>
              if negb retried && en_precached n then shrink_walk nr_to_walk retried locked_ei skip
              else if bool_decide (locked_ei = Some c) || en_busy n then shrink_walk nr_to_walk retried locked_ei skip
              else
                r ← es_reclaim_extents (en_info n) (sh_nr s);
                let s := ShrinkState (put_info w c n r.2) r.1.2 (sh_shrunk s + r.1.1) (sh_skipped s) in
                if sh_nr s <=? 0 then Ok (true, s) else shrink_walk nr_to_walk retried locked_ei s
          end
      end
  end.

(** The number of extents dropped; [locked_ei] is the inode the caller has
    locked. *)
Definition __es_shrink (w : es_world) (nr_to_scan : Z) (locked_ei : option Z) : outcome (Z * es_world) :=
  r ← shrink_walk (length (s_es_list w)) false locked_ei (ShrinkState w nr_to_scan 0 0);
  r ← (if negb (r.1 : bool) && (sh_shrunk r.2 =? 0) && negb (sh_skipped r.2 =? 0)
       then shrink_walk (length (s_es_list (sh_world r.2))) true locked_ei r.2 else Ok r);
  if (r.1 : bool) then Ok (sh_shrunk r.2, sh_world r.2)
  else
    match locked_ei with
    | Some c =>
        if sh_shrunk r.2 =? 0
        then
          match ew_inodes (sh_world r.2) !! c with
          | None => Bug
          | Some n => q ← es_reclaim_extents (en_info n) (sh_nr r.2); Ok (q.1.1, put_info (sh_world r.2) c n q.2)
          end
        else Ok (sh_shrunk r.2, sh_world r.2)
    | None => Ok (sh_shrunk r.2, sh_world r.2)
    end.

Context {Hrbok : RbTreeOk}.

(** Every tree is well formed, and the list has exactly the inodes with extents
    that may be dropped. *)
Record world_ok (w : es_world) : Prop := {
  wo_inodes : forall c n, ew_inodes w !! c = Some n -> es_ok (en_info n) /\ (c ∈ s_es_list w <-> i_es_listed (en_info n) = true);
  wo_list : forall c, c ∈ s_es_list w -> is_Some (ew_inodes w !! c)
}.

(** No inode loses a delayed block, or appears or goes. *)
Definition world_kept (w w' : es_world) : Prop := forall c,
  match ew_inodes w !! c, ew_inodes w' !! c with
  | Some n, Some n' => dropped (nodes (en_info n)) (nodes (en_info n'))
  | None, None => True
  | _, _ => False
  end.

Lemma world_kept_refl w l : world_kept w (EsWorld l (ew_inodes w)).
Proof. intros c. cbn. destruct (ew_inodes w !! c); [by apply dropped_same|done]. Qed.
Lemma world_kept_trans w1 w2 w3 : world_kept w1 w2 -> world_kept w2 w3 -> world_kept w1 w3.
Proof.
  intros H1 H2 c. specialize (H1 c). specialize (H2 c). destruct (ew_inodes w1 !! c), (ew_inodes w2 !! c), (ew_inodes w3 !! c); try done.
  by eapply dropped_trans.
Qed.

(** An inode that is not listed has nothing to drop. *)
Lemma reclaim_unlisted i nr : es_ok i -> i_es_listed i = false -> es_reclaim_extents i nr = Ok (0, nr, i).
Proof.
  intros [[_ [_ _ Hl]] _] Hf. rewrite Hf in Hl. unfold es_reclaim_extents. by destruct (i_es_shk_nr i =? 0).
Qed.

Lemma put_info_ok w c n nr : world_ok w -> ew_inodes w !! c = Some n ->
  exists k left i', es_reclaim_extents (en_info n) nr = Ok (k, left, i') /\ world_ok (put_info w c n i') /\ world_kept w (put_info w c n i').
Proof.
  intros [Hw Hl] Hn. destruct (Hw c n Hn) as [Hi Hin]. destruct (reclaim_ok (en_info n) nr Hi) as (k & left & i' & Hr & Hi' & _ & Hd & Hk & Hle & Hpos).
  assert (i_es_listed i' = true -> c ∈ s_es_list w) as Hlist.
  { intros Ht. apply Hin. destruct (i_es_listed (en_info n)) eqn:E; [done|]. rewrite (reclaim_unlisted _ nr Hi E) in Hr. injection Hr as _ _ <-. congruence. }
  exists k, left, i'. split; [done|].
  assert (forall x, x ∈ s_es_list (put_info w c n i') <-> x ∈ s_es_list w /\ (x = c -> i_es_listed i' = true)) as Hel.
  { intros x. unfold put_info. cbn. destruct (i_es_listed i') eqn:E; [by split; [|intros [? _]]|]. rewrite list_elem_of_filter.
    split; [intros [? ?]; split; [done|congruence]|]. intros [? Hx]. split; [|done]. intros ->. by specialize (Hx eq_refl). }
  split; [split|].
  - intros x m Hm. rewrite Hel. unfold put_info in Hm. cbn in Hm. destruct (decide (x = c)) as [->|Hne].
    + rewrite lookup_insert_eq in Hm. injection Hm as <-. cbn. split; [done|]. split; [intros [_ Hx]; by apply Hx|intros Ht; split; auto].
    + rewrite lookup_insert_ne in Hm by done. destruct (Hw x m Hm) as [? <-]. split; [done|]. split; [by intros [? _]|intros ?; by split].
  - intros x [Hx _]%Hel. unfold put_info. cbn. destruct (decide (x = c)) as [->|]; [rewrite lookup_insert_eq; eauto|]. rewrite lookup_insert_ne by done. auto.
  - intros x. unfold put_info. cbn. destruct (decide (x = c)) as [->|]; [by rewrite Hn, lookup_insert_eq|]. rewrite lookup_insert_ne by done.
    destruct (ew_inodes w !! x); [by apply dropped_same|done].
Qed.

Lemma rotate_ok w c rest : world_ok w -> s_es_list w = c :: rest -> world_ok (EsWorld (rest ++ [c]) (ew_inodes w)).
Proof.
  intros [Hw Hl] E. assert (forall x, x ∈ rest ++ [c] <-> x ∈ s_es_list w) as Hx by (intros x; rewrite E, elem_of_app, list_elem_of_singleton, elem_of_cons; tauto).
  split; cbn; [intros x n Hn|intros x]; rewrite Hx; auto.
Qed.

Lemma shrink_walk_ok k retried locked s : world_ok (sh_world s) ->
  exists done_ s', shrink_walk k retried locked s = Ok (done_, s') /\ world_ok (sh_world s') /\ world_kept (sh_world s) (sh_world s').
Proof.
  revert s. induction k as [|k IH]; intros s Hw; cbn [shrink_walk]; [eexists _, s; split_and!; [done|done|apply (world_kept_refl (sh_world s) (s_es_list (sh_world s)))]|].
  destruct (s_es_list (sh_world s)) as [|c rest] eqn:El; [eexists _, s; split_and!; [done|done|apply (world_kept_refl (sh_world s) (s_es_list (sh_world s)))]|].
  pose proof (rotate_ok _ c rest Hw El) as Hw1. pose proof (world_kept_refl (sh_world s) (rest ++ [c])) as Hk1. set (w1 := EsWorld (rest ++ [c]) _) in *.
  change (ew_inodes (sh_world s)) with (ew_inodes w1).
  destruct (wo_list w1 Hw1 c ltac:(cbn; set_solver)) as [n Hn]. rewrite Hn.
  assert (forall s1, sh_world s1 = w1 -> exists d s', shrink_walk k retried locked s1 = Ok (d, s') /\ world_ok (sh_world s') /\ world_kept (sh_world s) (sh_world s')) as Hskip.
  { intros s1 E. destruct (IH s1) as (d & s' & ? & ? & Hk'); [by rewrite E|]. exists d, s'. split_and!; try done. rewrite E in Hk'. by apply (world_kept_trans _ w1). }
  destruct (negb retried && en_precached n); [by apply Hskip|]. destruct (bool_decide (locked = Some c) || en_busy n); [by apply Hskip|].
  destruct (put_info_ok w1 c n (sh_nr s) Hw1 Hn) as (q & left & i' & -> & Hw2 & Hk2%(world_kept_trans _ _ _ Hk1)). cbn [mbind outcome_bind fst snd sh_nr].
  destruct (left <=? 0); [eexists _, _; split_and!; done|].
  destruct (IH (ShrinkState (put_info w1 c n i') left (sh_shrunk s + q) (sh_skipped s)) Hw2) as (d & s' & -> & ? & ?).
  exists d, s'. split_and!; try done. by eapply world_kept_trans.
Qed.

(** ** Properties *)

(** C28: The shrinker returns and loses no delayed block: in every run of
    [__es_shrink], whatever inodes are precached, busy or locked by the caller, the
    list of inodes and every tree stay well formed, no inode appears or goes, and
    a block of a file is known as before or was not delayed. *)
Theorem shrink_keeps_delayed (w : es_world) (nr_to_scan : Z) (locked_ei : option Z) :
  world_ok w -> (forall c, locked_ei = Some c -> is_Some (ew_inodes w !! c)) ->
  exists k w', __es_shrink w nr_to_scan locked_ei = Ok (k, w') /\ world_ok w' /\ world_kept w w'.
Proof.
  intros Hw Hlock. unfold __es_shrink.
  destruct (shrink_walk_ok (length (s_es_list w)) false locked_ei (ShrinkState w nr_to_scan 0 0) Hw) as (d & s & -> & Hs & Hk). cbn [mbind outcome_bind fst snd sh_world] in *.
  assert (exists d2 s2, (if negb d && (sh_shrunk s =? 0) && negb (sh_skipped s =? 0) then shrink_walk (length (s_es_list (sh_world s))) true locked_ei s else Ok (d, s)) = Ok (d2, s2) /\
    world_ok (sh_world s2) /\ world_kept w (sh_world s2)) as (d2 & s2 & -> & Hs2 & Hk2).
  { destruct (negb d && _ && _); [|by exists d, s]. destruct (shrink_walk_ok (length (s_es_list (sh_world s))) true locked_ei s Hs) as (d2 & s2 & -> & ? & ?).
    exists d2, s2. split_and!; try done. by eapply world_kept_trans. }
  cbn [mbind outcome_bind fst snd]. destruct d2; [by eexists _, _|]. destruct locked_ei as [c|]; [|by eexists _, _]. destruct (sh_shrunk s2 =? 0); [|by eexists _, _].
  destruct (Hlock c eq_refl) as [n0 Hn0]. pose proof (Hk2 c) as Hc. rewrite Hn0 in Hc. destruct (ew_inodes (sh_world s2) !! c) as [n|] eqn:En; [|done].
  destruct (put_info_ok _ c n (sh_nr s2) Hs2 En) as (q & left & i' & -> & ? & ?). cbn [mbind outcome_bind fst snd].
  eexists _, _. split_and!; [done|done|]. by eapply world_kept_trans.
Qed.
End shrink.

(** ** Witnesses *)

Definition demo_world : es_world := EsWorld [7] {[ 7 := EsInode demo_info true false; 8 := EsInode ext4_es_init_tree false false ]}.

Lemma demo_world_ok : world_ok demo_world.
Proof.
  split.
  - intros c n Hn. cbn [ew_inodes demo_world] in Hn. revert Hn. intros [[<- <-]|[_ [<- <-]%lookup_singleton_Some]]%lookup_insert_Some; cbn; (split; [first [apply demo_ok|apply init_tree_ok]|]);
      rewrite list_elem_of_singleton; by split.
  - intros c ->%list_elem_of_singleton. eexists. by apply lookup_insert_eq.
Qed.

Lemma shrink_keeps_delayed_witness :
  exists k w', @__es_shrink list_shape demo_world 3 (Some 8) = Ok (k, w') /\ world_ok w' /\ world_kept demo_world w'.
Proof.
  apply (@shrink_keeps_delayed list_shape list_shape_ok); [apply demo_world_ok|]. intros c [= <-]. eexists. vm_compute. reflexivity.
Defined.
