(* ===== verification/ExtRecover.v ===== *)
(** Recovering a friend file from the extents of its child, through the extent
    status tree: [scorw_rebuild_friend_file] puts the extents on the disk into the
    tree, with [ext4_es_cache_extent], and reads the tree. *)

From stdpp Require Import sorting.
From S2P Require Import Prelude Pages Friend ExtStatus ExtInsert ExtRemove ExtOps.

Section recover.
Context `{Hrb : RbTree}.

(** The extents of the inode, or of a leaf, go into the tree one by one; [mem]
    says whether there is memory for a node. *)
Definition precache (sb : es_sb) (mem : extent_status -> bool) (exs : list ext4_extent) (i : es_info) : outcome es_info :=
  for_each (scorw_ext_precache_depth0 0 exs) (fun es i => es_cache sb i (mem es) es) i.

Definition recover_from_disk (io : io_env) (sb : es_sb) (mem : extent_status -> bool) (exs : list ext4_extent) (i : es_info) (frnd : mapping) (child_copy_size : Z)
    : outcome (mapping * es_info) :=
  i ← precache sb mem exs i;
  m ← scorw_recover_friend_file io (nodes i) frnd child_copy_size; Ok (m, i).

Context {Hrbok : RbTreeOk}.

(** The extents of a file: in order, not empty, on the disk. *)
Fixpoint disk_ok (prev : Z) (exs : list ext4_extent) : Prop :=
  match exs with
  | [] => True
  | ex :: exs =>
      let e := ee_block ex + ext4_ext_get_actual_len ex in
      prev <= ee_block ex /\ 0 < ext4_ext_get_actual_len ex /\ e <= EXT_MAX_BLOCKS /\
      0 <= ee_start_hi ex < 2 ^ 16 /\ 0 <= ee_start_lo ex < 2 ^ 32 /\ disk_ok e exs
  end.
Definition disk_covers (exs : list ext4_extent) (b : Z) : bool :=
  existsb (fun ex => bool_decide (ee_block ex <= b < ee_block ex + ext4_ext_get_actual_len ex)) exs.

Lemma ext_pblock_bound ex : 0 <= ee_start_hi ex < 2 ^ 16 -> 0 <= ee_start_lo ex < 2 ^ 32 -> 0 <= ext4_ext_pblock ex < 2 ^ 48.
Proof.
  intros Hh Hl. unfold ext4_ext_pblock. rewrite Z.shiftl_shiftl, Z.shiftl_mul_pow2 by lia. change (2 ^ (31 + 1)) with (2 ^ 32).
  rewrite u64_small by lia. rewrite Z.lor_comm, <- (Z.shiftl_mul_pow2 _ 32) by lia.
  assert (Z.land (Z.shiftl (ee_start_hi ex) 32) (ee_start_lo ex) = 0) as Hd.
  { apply Z.bits_inj'. intros k Hk. rewrite Z.land_spec, Z.bits_0, Z.shiftl_spec by done. destruct (Z.lt_ge_cases k 32); [by rewrite Z.testbit_neg_r by lia|].
    rewrite <- (Z.mod_small (ee_start_lo ex) (2 ^ 32)), Z.mod_pow2_bits_high by lia. by rewrite andb_false_r. }
  rewrite <- Z.lxor_lor, <- Z.add_nocarry_lxor by done.
  rewrite Z.shiftl_mul_pow2 by lia. lia.
Qed.

(** What the tree must say of the extents on the disk: where they are, a block
    with data; elsewhere a hole or nothing. *)
Definition has_data (c : option (Z * Z)) : bool := match c with Some (t, _) => negb (t =? EXTENT_STATUS_HOLE) | None => false end.

Lemma es_has_data_type e : ext_ok e -> es_has_data e = negb (ext4_es_type e =? EXTENT_STATUS_HOLE).
Proof.
  intros He. unfold es_has_data, ext4_es_status. rewrite u32_small.
  2:{ pose proof (eo_range e He). rewrite Z.shiftr_div_pow2 by (by compute). unfold u64_range, ES_SHIFT in *. Z.to_euclidean_division_equations. lia. }
  assert (forall k, Z.land k ES_TYPE_MASK = k -> Z.land (Z.shiftr (es_pblk e) ES_SHIFT) k = Z.land (ext4_es_type e) k) as Hk.
  { intros k Hk. unfold ext4_es_type. rewrite <- Z.land_assoc, (Z.land_comm ES_TYPE_MASK), Hk. done. }
  rewrite !Hk by done. destruct (type_cases e He) as [H|[H|[H|H]]]; destruct H as (-> & _); done.
Qed.
Lemma has_data_content e b : ext_ok e -> has_data (Some (content e b)) = es_has_data e.
Proof. intros. by rewrite es_has_data_type. Qed.
Lemma covers_map l b : Forall ext_ok l -> StronglySorted before l -> es_covers l b = has_data (block_map l b).
Proof.
  intros Hf Hs. induction Hs as [|e l Hs IH Hb]; [done|]. apply Forall_cons in Hf as [He Hf]. cbn [es_covers existsb block_map]. fold (es_covers l b).
  rewrite IH by done. destruct (in_range b e) eqn:Eb.
  - rewrite has_data_content by done. pose proof Eb as Hin. apply in_range_spec in Hin. rewrite bool_decide_true, andb_true_r by done.
    rewrite (starts_after_map b l); [apply orb_false_r|]. eapply Forall_impl; [exact Hb|]. unfold before. intros x Hx. cbn in *. lia.
  - apply in_range_false in Eb. by rewrite bool_decide_false, andb_false_r by done.
Qed.

(** The extents handed to [ext4_es_cache_extent] are in order, and have data
    where the disk has. *)
Lemma precache_list prev exs : disk_ok prev exs -> 0 <= prev ->
  list_ok (scorw_ext_precache_depth0 prev exs) /\ Forall (fun e => prev <= es_lblk e) (scorw_ext_precache_depth0 prev exs) /\
  forall b, has_data (block_map (scorw_ext_precache_depth0 prev exs) b) = disk_covers exs b.
Proof.
  revert prev. induction exs as [|ex exs IH]; intros prev; cbn [scorw_ext_precache_depth0 disk_ok]; [intros _ _; split_and!; [apply list_ok_nil|constructor|done]|].
  intros (Hp & Hl & He & Hh & Hlo & Hd) H0. unfold EXT_MAX_BLOCKS in He. set (lblk := ee_block ex) in *. set (len := ext4_ext_get_actual_len ex) in *.
  rewrite !u32_small by lia. set (st := if ext4_ext_is_unwritten ex then _ else _).
  destruct (IH (lblk + len) Hd ltac:(lia)) as (Hok & Hfrom & Hcov). set (l := scorw_ext_precache_depth0 (lblk + len) exs) in *.
  pose proof (ext_pblock_bound ex Hh Hlo) as Hpb.
  destruct (new_ext_ok lblk len (ext4_ext_pblock ex) st) as [Hn Ht]; [lia|lia|unfold EXT_MAX_BLOCKS; lia|unfold st; destruct (ext4_ext_is_unwritten ex); set_solver|intros _; unfold ES_SHIFT; lia|].
  set (n := ext4_es_store_pblock_status lblk len (ext4_ext_pblock ex) st) in *.
  assert (list_ok (n :: l)) as Hok1 by (apply list_ok_cons; split_and!; done).
  assert (forall b, has_data (block_map (n :: l) b) = disk_covers (ex :: exs) b) as Hcov1.
  { intros b. cbn [block_map disk_covers existsb]. fold (disk_covers exs b). fold len lblk. destruct (in_range b n) eqn:Eb.
    - rewrite bool_decide_true by (apply in_range_spec in Eb; done). cbn [has_data content]. rewrite Ht. unfold st. by destruct (ext4_ext_is_unwritten ex).
    - rewrite bool_decide_false by (apply in_range_false in Eb; done). apply Hcov. }
  assert (Forall (fun e => prev <= es_lblk e) (n :: l)) as Hfrom1 by (constructor; [done|]; eapply Forall_impl; [exact Hfrom|]; intros x Hx; cbn in *; lia).
  destruct (negb (prev =? 0) && negb (prev =? lblk)) eqn:Eh; [|done].
  apply andb_true_iff in Eh as [_ Eh%negb_true_iff%Z.eqb_neq].
  destruct (new_ext_ok prev (lblk - prev) (2 ^ 64 - 1) EXTENT_STATUS_HOLE) as [Hhk Hht]; [lia|lia|unfold EXT_MAX_BLOCKS; lia|set_solver|by intros [?|?]|].
  set (h := ext4_es_store_pblock_status prev (lblk - prev) (2 ^ 64 - 1) EXTENT_STATUS_HOLE) in *. cbn [app]. split_and!.
  - apply list_ok_cons. split_and!; [done..|]. constructor; [unfold before; cbn; lia|]. eapply Forall_impl; [exact Hfrom|]. unfold before. intros x Hx. cbn in *. lia.
  - by constructor.
  - intros b. change (block_map (h :: n :: l) b) with (if in_range b h then Some (content h b) else block_map (n :: l) b). rewrite <- Hcov1. destruct (in_range b h) eqn:Eb; [|done].
    cbn [has_data content]. rewrite Hht. symmetry. rewrite (starts_after_map b (n :: l)); [done|]. apply in_range_spec in Eb. cbn in Eb.
    constructor; [cbn; lia|]. eapply Forall_impl; [exact Hfrom|]. intros x Hx. cbn in *. lia.
Qed.

(** With memory, extents the tree knows nothing of are all put into it. *)
Lemma cache_all sb mem l i : s_fc_replay sb = false -> (forall e, e ∈ l -> mem e = true) -> es_ok i -> list_ok l ->
  (forall b, block_map l b <> None -> block_map (nodes i) b = None) ->
  exists i', for_each l (fun es i => es_cache sb i (mem es) es) i = Ok i' /\ es_ok i' /\ forall b, block_map (nodes i') b = block_map l b ∪ block_map (nodes i) b.
Proof.
  intros Hr Hm. revert i. induction l as [|e l IH]; intros i Hi Hok Hno; cbn [for_each].
  { exists i. split_and!; [done|done|]. intros b. cbn. by rewrite (left_id_L None (∪)). }
  pose proof Hok as (He & Hl & Hb)%list_ok_cons. destruct (cache_ok sb i (mem e) e Hi Hr He) as (i1 & -> & Hi1 & _ & Hc). cbn [mbind outcome_bind].
  assert (nothing_in i (es_lblk e) (es_len e)) as Hn by (intros b Hrng; apply Hno; cbn; apply in_range_spec in Hrng; by rewrite Hrng).
  destruct Hc as [(_ & Hc & _)|[Hc _]]; [|done]. destruct (Hc (Hm e ltac:(left))) as (_ & _ & Hmap). unfold map_with in Hmap.
  destruct (IH ltac:(intros; apply Hm; by right) i1 Hi1 Hl) as (i' & -> & Hi' & Hmap').
  { intros b Hbl. rewrite Hmap. destruct (in_range b e) eqn:Eb.
    - exfalso. apply Hbl. apply in_range_spec in Eb. apply starts_after_map. eapply Forall_impl; [exact Hb|]. unfold before. intros x Hx. cbn in *. lia.
    - apply Hno. cbn. by rewrite Eb. }
  exists i'. split_and!; [done|done|]. intros b. rewrite Hmap', Hmap. cbn. destruct (in_range b e) eqn:Eb; [|done].
  rewrite (starts_after_map b l); [by destruct (block_map (nodes i) b)|]. apply in_range_spec in Eb. eapply Forall_impl; [exact Hb|]. unfold before. intros x Hx. cbn in *. lia.
Qed.

(** Without, the tree stays as it is. *)
Lemma cache_none sb l i : s_fc_replay sb = false -> es_ok i -> Forall ext_ok l -> nodes i = [] ->
  for_each l (fun es i => es_cache sb i false es) i = Ok i.
Proof.
  intros Hr Hi Hf Hn. induction Hf as [|e l He _ IH]; cbn [for_each]; [done|].
  assert (es_cache sb i false e = Ok i) as ->; [|done]. pose proof He as [? ? Hmx _ _ _]. unfold EXT_MAX_BLOCKS in Hmx.
  unfold es_cache. rewrite Hr, u32_small by lia. destruct (Z.eqb_spec (es_len e) 0); [done|]. destruct (Z.ltb_spec (es_lblk e + es_len e - 1) (es_lblk e)); [lia|].
  cbn [BUG_ON mbind outcome_bind]. rewrite es_tree_search_spec by apply Hi. change (inorder (es_root i)) with (nodes i). rewrite Hn. cbn [mbind outcome_bind].
  change (first_from (es_lblk e) []) with (@None extent_status). cbv iota. unfold __es_insert_extent.
  assert (es_root i = Leaf) as ->; [|done]. unfold nodes in Hn. destruct (es_root i) as [|l1 x r]; [done|]. cbn in Hn. by destruct (inorder l1).
Qed.

(** Recovery from the tree after the extents were handed to it. *)
Lemma recover_reads_tree sb mem exs i i' m sz : es_ok i' -> precache sb mem exs i = Ok i' ->
  friend_wf m -> 0 < sz < 2 ^ 58 -> i_size m = 0 \/ Z.shiftl (frnd_total_pages sz) PAGE_SHIFT <= i_size m ->
  exists m', recover_from_disk io_ok sb mem exs i m sz = Ok (m', i') /\
    forall b, 0 <= b -> b * PAGE_SIZE < sz -> friend_bit m' b = has_data (block_map (nodes i') b).
Proof.
  intros Hi Hp Hm Hsz Hsize. unfold recover_from_disk. rewrite Hp. cbn [mbind outcome_bind].
  pose proof (ek_list i' Hi) as [Hf Hs]. destruct (recover_friend_spec (nodes i') m sz Hm Hsz Hsize) as (m' & -> & Hb).
  { eapply Forall_impl; [exact Hf|]. intros e [? ? _ _ _ _]. lia. }
  cbn [mbind outcome_bind]. exists m'. split; [done|]. intros b H0 Hb0. rewrite Hb by done. by apply covers_map.
Qed.

(** ** Properties *)

(** Recovery makes the friend file agree with the disk.  When the tree of the
    child is empty, as it is before its extents are first read, and there is
    memory for its nodes, [scorw_rebuild_friend_file] returns, and afterwards a
    block of the child is marked as copied exactly when an extent on the disk
    covers it. *)
Theorem recovery_matches_disk (sb : es_sb) (mem : extent_status -> bool) (exs : list ext4_extent) (i : es_info) (m : mapping) (sz : Z) :
  es_ok i -> nodes i = [] -> s_fc_replay sb = false -> (forall e, e ∈ scorw_ext_precache_depth0 0 exs -> mem e = true) -> disk_ok 0 exs ->
  friend_wf m -> 0 < sz < 2 ^ 58 -> i_size m = 0 \/ Z.shiftl (frnd_total_pages sz) PAGE_SHIFT <= i_size m ->
  exists m' i', recover_from_disk io_ok sb mem exs i m sz = Ok (m', i') /\ es_ok i' /\
    forall b, 0 <= b -> b * PAGE_SIZE < sz -> friend_bit m' b = disk_covers exs b.
Proof.
  intros Hi Hn Hr Hmem Hd Hm Hsz Hsize. destruct (precache_list 0 exs Hd) as (Hok & _ & Hcov); [done|].
  destruct (cache_all sb mem _ i Hr Hmem Hi Hok) as (i' & Hp & Hi' & Hmap); [intros; by rewrite Hn|].
  destruct (recover_reads_tree sb mem exs i i' m sz Hi' Hp Hm Hsz Hsize) as (m' & Hrec & Hb). exists m', i'. split_and!; [done|done|].
  intros b H0 Hb0. rewrite Hb, Hmap, Hn, <- Hcov by done. cbn. by rewrite (right_id_L None (∪)).
Qed.

(** C23: Recovery does not notice that memory was short.  [ext4_es_cache_extent]
    drops an extent it has no node for, and reports nothing: when none can be
    had, [scorw_rebuild_friend_file] returns as if all was well, and leaves every
    block marked as not copied, also those the child has its own copy of. *)
Theorem recovery_forgets_without_memory (sb : es_sb) (exs : list ext4_extent) (i : es_info) (m : mapping) (sz : Z) :
  es_ok i -> nodes i = [] -> s_fc_replay sb = false -> disk_ok 0 exs ->
  friend_wf m -> 0 < sz < 2 ^ 58 -> i_size m = 0 \/ Z.shiftl (frnd_total_pages sz) PAGE_SHIFT <= i_size m ->
  exists m', recover_from_disk io_ok sb (fun _ => false) exs i m sz = Ok (m', i) /\
    forall b, 0 <= b -> b * PAGE_SIZE < sz -> friend_bit m' b = false.
Proof.
  intros Hi Hn Hr Hd Hm Hsz Hsize. destruct (precache_list 0 exs Hd) as ([Hf _] & _ & _); [done|].
  destruct (recover_reads_tree sb (fun _ => false) exs i i m sz Hi (cache_none sb _ i Hr Hi Hf Hn) Hm Hsz Hsize) as (m' & Hrec & Hb).
  exists m'. split; [done|]. intros b H0 Hb0. rewrite Hb by done. by rewrite Hn.
Qed.

(** An extent of which the tree already knows a part is not put into it: its
    other blocks stay marked as not copied. *)
Theorem recovery_skips_part_cached (sb : es_sb) (mem : extent_status -> bool) (ex : ext4_extent) (i : es_info) (m : mapping) (sz : Z) :
  es_ok i -> s_fc_replay sb = false -> disk_ok 0 [ex] -> ~ nothing_in i (ee_block ex) (ext4_ext_get_actual_len ex) ->
  friend_wf m -> 0 < sz < 2 ^ 58 -> i_size m = 0 \/ Z.shiftl (frnd_total_pages sz) PAGE_SHIFT <= i_size m ->
  exists m', recover_from_disk io_ok sb mem [ex] i m sz = Ok (m', i) /\
    forall b, 0 <= b -> b * PAGE_SIZE < sz -> block_map (nodes i) b = None -> friend_bit m' b = false.
Proof.
  intros Hi Hr Hd Hno Hm Hsz Hsize. destruct (precache_list 0 [ex] Hd) as ([Hf _] & _ & _); [done|].
  cbn [scorw_ext_precache_depth0 app negb andb] in Hf. change (0 =? 0) with true in Hf. cbn [negb andb app] in Hf. apply Forall_cons in Hf as [He _].
  assert (precache sb mem [ex] i = Ok i) as Hp.
  { unfold precache. cbn [scorw_ext_precache_depth0]. change (0 =? 0) with true. cbn [negb andb app for_each].
    destruct (cache_ok sb i (mem (ext4_es_store_pblock_status (ee_block ex) (ext4_ext_get_actual_len ex) (ext4_ext_pblock ex) (if ext4_ext_is_unwritten ex then EXTENT_STATUS_UNWRITTEN else EXTENT_STATUS_WRITTEN))) _ Hi Hr He)
      as (i' & -> & _ & _ & [[Hx _]|[_ ->]]); [done|done]. }
  destruct (recover_reads_tree sb mem [ex] i i m sz Hi Hp Hm Hsz Hsize) as (m' & Hrec & Hb).
  exists m'. split; [done|]. intros b H0 Hb0 Hnone. rewrite Hb by done. by rewrite Hnone.
Qed.
End recover.

(** ** Witnesses *)

(** Blocks 1 and 2 are written, 5 to 8 unwritten. *)
Definition demo_disk : list ext4_extent := [Ext4Extent 1 2 0 900; Ext4Extent 5 (2 ^ 15 + 4) 0 950].

Lemma recovery_matches_disk_witness :
  exists m' i', @recover_from_disk list_shape io_ok demo_sb (fun _ => true) demo_disk ext4_es_init_tree empty_friend 40960 = Ok (m', i') /\ es_ok i' /\
    forall b, 0 <= b -> b * PAGE_SIZE < 40960 -> friend_bit m' b = disk_covers demo_disk b.
Proof.
  apply (@recovery_matches_disk list_shape list_shape_ok); [apply init_tree_ok|reflexivity|reflexivity|by intros|by compute|apply empty_friend_wf|by compute|by left].
Defined.

Lemma recovery_forgets_without_memory_witness :
  exists m', @recover_from_disk list_shape io_ok demo_sb (fun _ => false) demo_disk ext4_es_init_tree empty_friend 40960 = Ok (m', ext4_es_init_tree) /\
    forall b, 0 <= b -> b * PAGE_SIZE < 40960 -> friend_bit m' b = false.
Proof.
  apply (@recovery_forgets_without_memory list_shape list_shape_ok); [apply init_tree_ok|reflexivity|reflexivity|by compute|apply empty_friend_wf|by compute|by left].
Defined.
