(* ===== verification/SysZone.v ===== *)
(** The system zones of a filesystem ([block_validity.c]): which blocks hold
    metadata and may not be blocks of a file, and the check of a block number
    that is read from the disk. *)

From stdpp Require Import sorting.
From S2P Require Import Prelude.

(** [struct ext4_system_zone]; the tree of [struct ext4_system_blocks]. *)
Record ext4_system_zone := SystemZone { z_start : Z; z_count : Z; z_ino : Z }.
Inductive zone_tree := ZLeaf | ZNode (l : zone_tree) (e : ext4_system_zone) (r : zone_tree).
Fixpoint zones (t : zone_tree) : list ext4_system_zone :=
  match t with ZLeaf => [] | ZNode l e r => zones l ++ e :: zones r end.

(** What the library of red-black trees makes of the nodes: a tree of any shape
    that has them in order. *)
Class ZoneTree := zone_shape : zone_tree -> list ext4_system_zone -> zone_tree.
Class ZoneTreeOk `{ZoneTree} := zone_shape_zones t l : zones (zone_shape t l) = l.

Definition can_merge (entry1 entry2 : ext4_system_zone) : bool :=
  (u64 (z_start entry1 + z_count entry1) =? z_start entry2) && (z_ino entry1 =? z_ino entry2).

(** The descent of [add_system_zone]: the nodes before and after the place it
    ends at, or nothing when it meets a zone that holds [start_blk]. *)
Fixpoint zone_walk (t : zone_tree) (start_blk : Z) (L R : list ext4_system_zone)
    : option (list ext4_system_zone * list ext4_system_zone) :=
  match t with
  | ZLeaf => Some (L, R)
  | ZNode l e r =>
      if start_blk <? z_start e then zone_walk l start_blk L (e :: zones r ++ R)
      else if u64 (z_start e + z_count e) <=? start_blk then zone_walk r start_blk (L ++ zones l ++ [e]) R
      else None
  end.

Definition EFSCORRUPTED : Z := 117.

(** The new node swallows its left, then its right neighbour. *)
Definition merge_left (L : list ext4_system_zone) (new_entry : ext4_system_zone) : list ext4_system_zone * ext4_system_zone :=
  match last L with
  | Some entry =>
      if can_merge entry new_entry then (removelast L, SystemZone (z_start entry) (u32 (z_count new_entry + z_count entry)) (z_ino new_entry))
      else (L, new_entry)
  | None => (L, new_entry)
  end.
Definition merge_right (new_entry : ext4_system_zone) (R : list ext4_system_zone) : ext4_system_zone * list ext4_system_zone :=
  match R with
  | entry :: R' =>
      if can_merge new_entry entry then (SystemZone (z_start new_entry) (u32 (z_count new_entry + z_count entry)) (z_ino new_entry), R')
      else (new_entry, R)
  | [] => (new_entry, R)
  end.

(** [add_system_zone]: the new node is linked where the descent ends, then
    merged; [mem] says whether there is memory for it. *)
Definition add_system_zone `{ZoneTree} (t : zone_tree) (start_blk count ino : Z) (mem : bool) : Z * zone_tree :=
  match zone_walk t start_blk [] [] with
  | None => (- EFSCORRUPTED, t)
  | Some (L, R) =>
      if negb mem then (- ENOMEM, t)
      else
        let '(L, new_entry) := merge_left L (SystemZone start_blk count ino) in
        let '(new_entry, R) := merge_right new_entry R in
        (0, zone_shape t (L ++ new_entry :: R))
  end.

(** What of the super block the check reads; [s_system_blks] is null unless the
    filesystem is mounted with block_validity. *)
Record zone_sb := ZoneSb { s_first_data_block : Z; s_blocks_count : Z; s_system_blks : option zone_tree }.

Definition ext4_release_system_zone (sb : zone_sb) : zone_sb := ZoneSb (s_first_data_block sb) (s_blocks_count sb) None.

(** The loop of [ext4_sb_block_valid]: the first zone it meets that the range
    runs into. *)
Fixpoint zone_lookup (t : zone_tree) (start_blk count : Z) : option ext4_system_zone :=
  match t with
  | ZLeaf => None
  | ZNode l e r =>
      if u64 (start_blk + count - 1) <? z_start e then zone_lookup l start_blk count
      else if u64 (z_start e + z_count e) <=? start_blk then zone_lookup r start_blk count
      else Some e
  end.

Definition ext4_sb_block_valid (sb : zone_sb) (inode : option Z) (start_blk count : Z) : bool :=
  if (start_blk <=? s_first_data_block sb) || (u64 (start_blk + count) <? start_blk) || (s_blocks_count sb <? u64 (start_blk + count)) then false
  else match s_system_blks sb with
  | None => true
  | Some root =>
      match zone_lookup root start_blk count with
      | None => true
      | Some entry => match inode with None => false | Some ino => z_ino entry =? ino end
      end
  end.
Definition ext4_inode_block_valid (sb : zone_sb) (ino start_blk count : Z) : bool := ext4_sb_block_valid sb (Some ino) start_blk count.

(** What [ext4_setup_system_zone] reads of a group of blocks: where it starts,
    how many blocks of base metadata it has, and its bitmaps and table. *)
Record group := Group { g_first : Z; g_meta : Z; g_block_bitmap : Z; g_inode_bitmap : Z; g_inode_table : Z }.

(** The calls of [add_system_zone] for one group. *)
Definition group_zones (s_itb_per_group : Z) (g : group) : list ext4_system_zone :=
  (if g_meta g =? 0 then [] else [SystemZone (g_first g) (g_meta g) 0]) ++
  [SystemZone (g_block_bitmap g) 1 0; SystemZone (g_inode_bitmap g) 1 0; SystemZone (g_inode_table g) s_itb_per_group 0].
(** One call after those before it, as long as they returned 0. *)
Definition add_next `{ZoneTree} (mem : Z -> bool) (r : Z * zone_tree) (z : ext4_system_zone) : Z * zone_tree :=
  if r.1 =? 0 then add_system_zone r.2 (z_start z) (z_count z) (z_ino z) (mem (z_start z)) else r.

Definition EXT4_ROOT_INO : Z := 2.

Section protect.
Context `{ZoneTree}.
(** The state that [ext4_map_blocks] works on, and the call: for the blocks from
    one on, so many at most, it returns how many are mapped (or 0, or an error)
    and [m_pblk]. *)
Variable W : Type.
Variable map_blocks : W -> Z -> Z -> outcome (Z * Z * W).

Fixpoint protect_loop (fuel : nat) (mem : Z -> bool) (ino i num : Z) (t : zone_tree) (w : W) : outcome (Z * zone_tree * W) :=
  if negb (i <? num) then Ok (0, t, w)
  else match fuel with
  | O => Hang
  | S fuel =>
      r ← map_blocks w i (num - i);
      let '(n, m_pblk, w) := r in
      if n <? 0 then Ok (n, t, w)
      else if n =? 0 then protect_loop fuel mem ino (u32 (i + 1)) num t w
      else
        let '(err, t) := add_system_zone t m_pblk n ino (mem m_pblk) in
        if err <? 0 then Ok (err, t, w) else protect_loop fuel mem ino (u32 (i + n)) num t w
  end.

(** [iget_err] is what [ext4_iget] returns when it fails, else 0. *)
Definition ext4_protect_reserved_inode (mem : Z -> bool) (s_inodes_count iget_err i_size s_blocksize_bits ino : Z) (t : zone_tree) (w : W)
    : outcome (Z * zone_tree * W) :=
  if (ino <? EXT4_ROOT_INO) || (s_inodes_count <? ino) then Ok (- EINVAL, t, w)
  else if negb (iget_err =? 0) then Ok (iget_err, t, w)
  else
    let num := u32 (Z.shiftr (i_size + 2 ^ s_blocksize_bits - 1) s_blocksize_bits) in
    protect_loop (Z.to_nat num) mem ino 0 num t w.

(** The tree is built before the super block gets to know it; [journal] is the
    call for the journal, on a filesystem that has one inside. *)
Definition ext4_setup_system_zone (mem : Z -> bool) (alloc : bool) (s_itb_per_group : Z) (groups : list group)
    (journal : option (zone_tree -> W -> outcome (Z * zone_tree * W))) (sb : zone_sb) (w : W) : outcome (Z * zone_sb * W) :=
  if negb alloc then Ok (- ENOMEM, sb, w)
  else
    let '(ret, t) := foldl (add_next mem) (0, ZLeaf) (groups ≫= group_zones s_itb_per_group) in
    if negb (ret =? 0) then Ok (ret, sb, w)
    else
      r ← (match journal with None => Ok (0, t, w) | Some protect => protect t w end);
      let '(ret, t, w) := r in
      if negb (ret =? 0) then Ok (ret, sb, w)
      else Ok (0, ZoneSb (s_first_data_block sb) (s_blocks_count sb) (Some t), w).
End protect.

(** * Lemmas *)

Record zone_ok (z : ext4_system_zone) : Prop := {
  zo_start : 0 <= z_start z;
  zo_count : 0 < z_count z < 2 ^ 32;
  zo_end : z_start z + z_count z < 2 ^ 64
}.
Definition zbefore (a b : ext4_system_zone) : Prop := z_start a + z_count a <= z_start b.
Definition zlist_ok (l : list ext4_system_zone) : Prop := Forall zone_ok l /\ StronglySorted zbefore l.
Definition in_zone (b : Z) (z : ext4_system_zone) : bool := (z_start z <=? b) && (b <? z_start z + z_count z).
(** Whose metadata a block is, and how many blocks are. *)
Fixpoint zone_at (l : list ext4_system_zone) (b : Z) : option Z :=
  match l with [] => None | z :: l => if in_zone b z then Some (z_ino z) else zone_at l b end.
Fixpoint zone_total (l : list ext4_system_zone) : Z := match l with [] => 0 | z :: l => z_count z + zone_total l end.

Lemma in_zone_spec b z : in_zone b z = true <-> z_start z <= b < z_start z + z_count z.
Proof. unfold in_zone. rewrite andb_true_iff, Z.leb_le, Z.ltb_lt. done. Qed.
Lemma in_zone_false b z : in_zone b z = false <-> ~ z_start z <= b < z_start z + z_count z.
Proof. rewrite <- in_zone_spec. by destruct (in_zone b z). Qed.
Lemma zone_end z : zone_ok z -> u64 (z_start z + z_count z) = z_start z + z_count z.
Proof. intros [? ? ?]. apply u64_small. lia. Qed.

Lemma zone_at_app l1 l2 b : zone_at (l1 ++ l2) b = zone_at l1 b ∪ zone_at l2 b.
Proof. induction l1 as [|z l1 IH]; cbn; [by rewrite (left_id_L None (∪))|]. destruct (in_zone b z); [by destruct (zone_at l2 b)|done]. Qed.
Lemma zone_total_app l1 l2 : zone_total (l1 ++ l2) = zone_total l1 + zone_total l2.
Proof. induction l1 as [|z l1 IH]; cbn; [done|]. lia. Qed.
Lemma zone_total_nonneg l : Forall zone_ok l -> 0 <= zone_total l.
Proof. induction 1 as [|z l [? ? ?] _ IH]; cbn; lia. Qed.
Lemma zlist_ok_app l1 l2 : zlist_ok (l1 ++ l2) <-> zlist_ok l1 /\ zlist_ok l2 /\ forall a b, a ∈ l1 -> b ∈ l2 -> zbefore a b.
Proof. unfold zlist_ok. rewrite Forall_app, StronglySorted_app. naive_solver. Qed.
Lemma zlist_ok_cons z l : zlist_ok (z :: l) <-> zone_ok z /\ zlist_ok l /\ Forall (zbefore z) l.
Proof. unfold zlist_ok. rewrite Forall_cons. split; [intros [[? ?] [? ?]%StronglySorted_inv]; auto|]. intros (? & [? ?] & ?). split; [done|]. by constructor. Qed.
Lemma zlist_ok_mid l1 z l2 : zlist_ok (l1 ++ z :: l2) <->
  zlist_ok l1 /\ zone_ok z /\ zlist_ok l2 /\ Forall (fun a => zbefore a z) l1 /\ Forall (zbefore z) l2 /\ (forall a b, a ∈ l1 -> b ∈ l2 -> zbefore a b).
Proof.
  rewrite zlist_ok_app, zlist_ok_cons, !Forall_forall. split.
  - intros (? & (? & ? & ?) & Hx). split_and!; auto; [intros a Ha; apply Hx; [done|left]|intros; apply Hx; [done|by right]].
  - intros (? & ? & ? & Ha & ? & ?). split_and!; auto. intros a b ? [->|?]%elem_of_cons; auto.
Qed.

(** A zone that is in the list answers for its blocks. *)
Lemma zone_at_mid l1 z l2 b : zlist_ok (l1 ++ z :: l2) -> in_zone b z = true -> zone_at (l1 ++ z :: l2) b = Some (z_ino z).
Proof.
  intros (_ & _ & _ & Ha & _ & _)%zlist_ok_mid Hb. rewrite zone_at_app. cbn. rewrite Hb.
  assert (zone_at l1 b = None) as ->; [|done]. apply in_zone_spec in Hb. induction Ha as [|a l1 Hab _ IH]; [done|]. cbn. rewrite IH.
  destruct (in_zone b a) eqn:E; [|done]. apply in_zone_spec in E. unfold zbefore in Hab. lia.
Qed.
Lemma zone_at_none l b : Forall (fun z => in_zone b z = false) l -> zone_at l b = None.
Proof. induction 1 as [|z l Hz _ IH]; [done|]. cbn. by rewrite Hz. Qed.

(** ** Where a descent ends *)

Lemma zone_walk_spec t s L R : zlist_ok (L ++ zones t ++ R) ->
  Forall (fun z => z_start z + z_count z <= s) L -> Forall (fun z => s < z_start z) R ->
  match zone_walk t s L R with
  | None => exists z, z ∈ zones t /\ in_zone s z = true
  | Some (L', R') => L ++ zones t ++ R = L' ++ R' /\ Forall (fun z => z_start z + z_count z <= s) L' /\ Forall (fun z => s < z_start z) R'
  end.
Proof.
  revert L R. induction t as [|l IHl e r IHr]; intros L R Hok HL HR; cbn [zone_walk zones] in *; [done|].
  rewrite <- !app_assoc in Hok. cbn [app] in Hok. rewrite app_assoc in Hok.
  pose proof Hok as (Hokl & He & _ & Ha & Hb & _)%zlist_ok_mid. rewrite zone_end by done.
  apply Forall_app in Ha as [_ Ha]. apply Forall_app in Hb as [Hb _]. destruct (Z.ltb_spec s (z_start e)).
  - specialize (IHl L (e :: zones r ++ R)). rewrite <- app_assoc in Hok. cbn [app] in *.
    destruct (zone_walk l s L (e :: zones r ++ R)) as [[L' R']|].
    + destruct IHl as (Heq & ? & ?); [done|done| |split_and!; [|done..]].
      { constructor; [done|]. apply Forall_app; split; [|done]. eapply Forall_impl; [exact Hb|]. unfold zbefore. destruct He. intros z Hz. cbn in Hz |- *. lia. }
      by rewrite <- app_assoc.
    + destruct IHl as (z & ? & ?); [done|done| |exists z; split; [set_solver|done]].
      constructor; [done|]. apply Forall_app; split; [|done]. eapply Forall_impl; [exact Hb|]. unfold zbefore. destruct He. intros z Hz. cbn in Hz |- *. lia.
  - destruct (Z.leb_spec (z_start e + z_count e) s).
    2:{ exists e. split; [set_solver|]. apply in_zone_spec. lia. }
    assert (Forall (fun z => z_start z + z_count z <= s) (L ++ zones l ++ [e])) as HL'.
    { rewrite !Forall_app. split_and!; [done| |by constructor]. eapply Forall_impl; [exact Ha|]. unfold zbefore. destruct He. intros z Hz. cbn in Hz |- *. lia. }
    assert (L ++ (zones l ++ e :: zones r) ++ R = (L ++ zones l ++ [e]) ++ zones r ++ R) as Heq by (rewrite <- !app_assoc; done).
    specialize (IHr (L ++ zones l ++ [e]) R). rewrite <- Heq in IHr. rewrite <- !app_assoc in Hok. cbn [app] in Hok.
    assert (zlist_ok (L ++ (zones l ++ e :: zones r) ++ R)) as Hok' by (rewrite <- !app_assoc; done).
    specialize (IHr Hok' HL' HR). destruct (zone_walk r s (L ++ zones l ++ [e]) R) as [[L' R']|]; [done|].
    destruct IHr as (z & ? & ?). exists z. split; [set_solver|done].
Qed.

(** ** Adding a zone *)

Lemma merge_zones l1 a b l2 : zlist_ok (l1 ++ a :: b :: l2) -> can_merge a b = true -> z_count a + z_count b < 2 ^ 32 ->
  let c := SystemZone (z_start a) (u32 (z_count a + z_count b)) (z_ino a) in
  zlist_ok (l1 ++ c :: l2) /\ (forall x, zone_at (l1 ++ c :: l2) x = zone_at (l1 ++ a :: b :: l2) x) /\ zone_total (l1 ++ c :: l2) = zone_total (l1 ++ a :: b :: l2).
Proof.
  intros Hok Hm Hs c. pose proof Hok as (H1 & Ha & Hrest & Ha1 & Hab & Hx)%zlist_ok_mid. apply zlist_ok_cons in Hrest as (Hb & H2 & Hb2).
  unfold can_merge in Hm. rewrite zone_end in Hm by done. apply andb_true_iff in Hm as [Hadj%Z.eqb_eq Hino%Z.eqb_eq].
  assert (u32 (z_count a + z_count b) = z_count a + z_count b) as Hc by (destruct Ha, Hb; apply u32_small; lia).
  assert (zone_ok c) as Hoc by (destruct Ha, Hb; split; unfold c; cbn [z_start z_count]; rewrite ?Hc; lia). unfold c. rewrite Hc. fold c. split_and!.
  - apply zlist_ok_mid. unfold c in Hoc. rewrite Hc in Hoc. split_and!; auto; [|intros p q ? ?; apply Hx; [done|by right]].
    eapply Forall_impl; [exact Hb2|]. unfold zbefore. intros z Hz. cbn in Hz |- *. lia.
  - intros x. rewrite !zone_at_app. f_equal. cbn. unfold in_zone. cbn [z_start z_count]. destruct Ha, Hb.
    rewrite Hino. destruct (Z.leb_spec (z_start a) x), (Z.ltb_spec x (z_start a + (z_count a + z_count b))), (Z.ltb_spec x (z_start a + z_count a)), (Z.leb_spec (z_start b) x), (Z.ltb_spec x (z_start b + z_count b)); cbn; done || lia.
  - rewrite !zone_total_app. cbn. lia.
Qed.

Lemma zone_total_two L a b R : zlist_ok (L ++ a :: b :: R) -> zone_total (L ++ a :: b :: R) < 2 ^ 32 -> z_count a + z_count b < 2 ^ 32.
Proof.
  intros [(HL & HR)%Forall_app _] Ht. rewrite zone_total_app in Ht. cbn in Ht. apply Forall_cons in HR as [_ [_ HR]%Forall_cons].
  pose proof (zone_total_nonneg _ HL). pose proof (zone_total_nonneg _ HR). lia.
Qed.
Definition merged_to (l l' : list ext4_system_zone) : Prop :=
  zlist_ok l' /\ (forall x, zone_at l' x = zone_at l x) /\ zone_total l' = zone_total l.
Lemma zone_merge_left_ok L n R : zlist_ok (L ++ n :: R) -> zone_total (L ++ n :: R) < 2 ^ 32 ->
  merged_to (L ++ n :: R) ((merge_left L n).1 ++ (merge_left L n).2 :: R).
Proof.
  intros Hok Ht. unfold merge_left. destruct (last L) as [e|] eqn:El; [|done]. apply last_Some in El as [L0 ->].
  destruct (can_merge e n) eqn:Hm; [|done]. rewrite removelast_last. cbn [fst snd]. rewrite <- app_assoc in Hok, Ht |- *. cbn [app] in *.
  destruct (merge_zones L0 e n R Hok Hm (zone_total_two _ _ _ _ Hok Ht)) as (? & ? & ?).
  rewrite Z.add_comm. unfold can_merge in Hm. apply andb_true_iff in Hm as [_ <-%Z.eqb_eq]. done.
Qed.
Lemma zone_merge_right_ok L n R : zlist_ok (L ++ n :: R) -> zone_total (L ++ n :: R) < 2 ^ 32 ->
  merged_to (L ++ n :: R) (L ++ (merge_right n R).1 :: (merge_right n R).2).
Proof.
  intros Hok Ht. unfold merge_right. destruct R as [|e R]; [done|]. destruct (can_merge n e) eqn:Hm; [|done].
  destruct (merge_zones L n e R Hok Hm (zone_total_two _ _ _ _ Hok Ht)) as (? & ? & ?). done.
Qed.

(** The new range and those of the tree have no block in common. *)
Definition zone_free (l : list ext4_system_zone) (n : ext4_system_zone) : Prop := forall b, in_zone b n = true -> zone_at l b = None.

Lemma zone_free_apart l n z : zlist_ok l -> zone_ok n -> zone_free l n -> z ∈ l -> zbefore z n \/ zbefore n z.
Proof.
  intros Hok [? ? ?] Hf (l1 & l2 & ->)%list_elem_of_split. unfold zbefore. pose proof Hok as (_ & [? ? ?] & _)%zlist_ok_mid.
  destruct (Z.le_gt_cases (z_start z + z_count z) (z_start n)); [by left|]. destruct (Z.le_gt_cases (z_start n + z_count n) (z_start z)); [by right|].
  exfalso. set (b := Z.max (z_start n) (z_start z)). specialize (Hf b). rewrite zone_at_mid in Hf by (done || apply in_zone_spec; lia).
  by discriminate Hf; apply in_zone_spec; lia.
Qed.

Section zones.
Context `{Hzt : ZoneTree} {Hztok : ZoneTreeOk}.

Lemma add_zone_ok t n : zlist_ok (zones t) -> zone_ok n -> zone_free (zones t) n -> zone_total (zones t) + z_count n < 2 ^ 32 ->
  exists t', add_system_zone t (z_start n) (z_count n) (z_ino n) true = (0, t') /\ zlist_ok (zones t') /\
    (forall b, zone_at (zones t') b = if in_zone b n then Some (z_ino n) else zone_at (zones t) b) /\
    zone_total (zones t') = zone_total (zones t) + z_count n.
Proof.
  intros Hok Hn Hf Ht. unfold add_system_zone. pose proof (zone_walk_spec t (z_start n) [] []) as Hw. rewrite app_nil_r in Hw. cbn [app] in Hw.
  destruct (zone_walk t (z_start n) [] []) as [[L R]|].
  2:{ destruct Hw as (z & Hz & Hb); [done|constructor..|]. exfalso. apply list_elem_of_split in Hz as (l1 & l2 & E).
      specialize (Hf (z_start n)). rewrite E, zone_at_mid in Hf; [|by rewrite <- E|done]. discriminate Hf. apply in_zone_spec. destruct Hn. lia. }
  destruct Hw as (E & HL & HR); [done|constructor..|]. cbn [negb]. replace (SystemZone (z_start n) (z_count n) (z_ino n)) with n by (by destruct n).
  assert (zlist_ok (L ++ n :: R)) as Hok1.
  { pose proof Hok as Hok0. rewrite E in Hok0. apply zlist_ok_app in Hok0 as (? & HR0 & ?). apply zlist_ok_mid. split_and!; auto.
    rewrite Forall_forall in HR |- *. intros z Hz. assert (z ∈ zones t) as Hz' by (rewrite E; set_solver).
    destruct (zone_free_apart _ n z Hok Hn Hf Hz') as [Hx|]; [|done]. specialize (HR z Hz). destruct HR0 as [HR0 _]. rewrite Forall_forall in HR0.
    destruct (HR0 z Hz). unfold zbefore in Hx. cbn in HR. lia. }
  assert (zone_total (L ++ n :: R) = zone_total (zones t) + z_count n) as Ht1 by (rewrite E, !zone_total_app; cbn; lia).
  pose proof (zone_merge_left_ok L n R Hok1 ltac:(lia)) as (Hok2 & Hat2 & Ht2). destruct (merge_left L n) as [L' n']. cbn [fst snd] in *.
  pose proof (zone_merge_right_ok L' n' R Hok2 ltac:(lia)) as (Hok3 & Hat3 & Ht3). destruct (merge_right n' R) as [n'' R']. cbn [fst snd] in *.
  eexists. split; [done|]. rewrite zone_shape_zones. split_and!; [done| |lia]. intros b. rewrite Hat3, Hat2, E, !zone_at_app. cbn.
  destruct (in_zone b n) eqn:Eb; [|done]. specialize (Hf b Eb). rewrite E, zone_at_app in Hf. apply union_None in Hf as [-> _]. done.
Qed.

(** ** The zones of all the groups *)

Definition apart (a b : ext4_system_zone) : Prop := zbefore a b \/ zbefore b a.
(** What the descriptors of the groups must say: zones apart from each other. *)
Definition disjoint_zones (l : list ext4_system_zone) : Prop := Forall zone_ok l /\ ForallOrdPairs apart l /\ zone_total l < 2 ^ 32.
Definition owner_of (l : list ext4_system_zone) (b i : Z) : Prop := exists z, z ∈ l /\ in_zone b z = true /\ z_ino z = i.

Lemma zone_at_elem l b i : zone_at l b = Some i -> exists z, z ∈ l /\ in_zone b z = true /\ z_ino z = i.
Proof.
  induction l as [|z l IH]; cbn; [done|]. destruct (in_zone b z) eqn:E; [intros [= <-]; exists z; split_and!; [left|done|done]|].
  intros (y & ? & ?)%IH. exists y. split; [by right|done].
Qed.

Lemma add_zones_ok l acc t : zlist_ok (zones t) -> Forall zone_ok l -> ForallOrdPairs apart l ->
  (forall a z, a ∈ acc -> z ∈ l -> apart a z) -> (forall b i, zone_at (zones t) b = Some i <-> owner_of acc b i) -> zone_total (zones t) + zone_total l < 2 ^ 32 ->
  exists t', foldl (add_next (fun _ => true)) (0, t) l = (0, t') /\ zlist_ok (zones t') /\ zone_total (zones t') = zone_total (zones t) + zone_total l /\
    forall b i, zone_at (zones t') b = Some i <-> owner_of (acc ++ l) b i.
Proof.
  revert acc t. induction l as [|n l IH]; intros acc t Hok Hf Hp Hacc Hat Ht; [rewrite app_nil_r; exists t; split_and!; cbn; done || lia|].
  apply Forall_cons in Hf as [Hn Hf]. inversion Hp as [|? ? Hnl Hp']; subst. cbn [zone_total] in Ht. pose proof (zone_total_nonneg l Hf).
  assert (forall a b, apart a n -> in_zone b a = true -> in_zone b n = true -> False) as Hcut.
  { intros a b [Hx|Hx] Ha%in_zone_spec Hb%in_zone_spec; unfold zbefore in Hx; lia. }
  destruct (add_zone_ok t n Hok Hn) as (t1 & E & Hok1 & Hat1 & Ht1); [|lia|].
  { intros b Hb. destruct (zone_at (zones t) b) as [i|] eqn:Eb; [|done]. apply Hat in Eb as (a & Ha & Hba & _). exfalso. eapply Hcut; [apply Hacc; [exact Ha|left]|done..]. }
  cbn [foldl]. unfold add_next at 2. cbn [fst snd]. rewrite Z.eqb_refl, E.
  destruct (IH (acc ++ [n]) t1) as (t' & E' & ? & ? & Hat'); auto; [| |lia|].
  - intros a z [Ha|Ha]%elem_of_app Hz; [apply Hacc; [done|by right]|]. apply list_elem_of_singleton in Ha as ->. rewrite Forall_forall in Hnl. auto.
  - intros b i. rewrite Hat1. destruct (in_zone b n) eqn:Eb.
    + split; [intros [= <-]; exists n; split; [set_solver|done]|]. intros (z & [Hz|Hz]%elem_of_app & Hbz & <-).
      * exfalso. eapply Hcut; [apply Hacc; [exact Hz|left]|done..].
      * by apply list_elem_of_singleton in Hz as ->.
    + rewrite Hat. split; intros (z & Hz & Hbz & <-); exists z; (split; [|done]); [set_solver|]. apply elem_of_app in Hz as [?|Hz]; [done|].
      apply list_elem_of_singleton in Hz as ->. congruence.
  - exists t'. split_and!; [done|done|cbn [zone_total]; lia|]. intros b i. rewrite Hat', <- app_assoc. done.
Qed.

(** ** The zones of an internal journal *)

Section journal.
Context (W : Type) (map_blocks : W -> Z -> Z -> outcome (Z * Z * W)) (I : W -> Prop) (M : Z -> option Z) (metadata : list ext4_system_zone) (ino num : Z).

(** [ext4_map_blocks] answers for the blocks of the journal as [M] says where
    they are. *)
Definition maps_as : Prop := forall w i len, I w -> 0 <= i -> 0 < len -> i + len <= num ->
  exists n p w', map_blocks w i len = Ok (n, p, w') /\ I w' /\ ((n = 0 /\ M i = None) \/ (0 < n <= len /\ forall k, 0 <= k < n -> M (i + k) = Some (p + k))).
(** The blocks of the journal are on the device, each its own and none of
    another zone. *)
Definition journal_apart : Prop :=
  (forall i b, 0 <= i < num -> M i = Some b -> 0 <= b < 2 ^ 63 /\ forall z, z ∈ metadata -> in_zone b z = false) /\
  (forall i j b, 0 <= i < num -> 0 <= j < num -> M i = Some b -> M j = Some b -> i = j) /\ zone_total metadata + num < 2 ^ 32.

(** The blocks of the groups, and the first [i] of the journal. *)
Definition owned_up_to (i b o : Z) : Prop := owner_of metadata b o \/ (o = ino /\ exists k, 0 <= k < i /\ M k = Some b).

Lemma protect_loop_ok fuel i t w : maps_as -> journal_apart -> Forall zone_ok metadata -> I w -> 0 <= i <= num -> num - i <= Z.of_nat fuel -> zlist_ok (zones t) ->
  (forall b o, zone_at (zones t) b = Some o <-> owned_up_to i b o) -> zone_total (zones t) <= zone_total metadata + i ->
  exists t' w', protect_loop W map_blocks fuel (fun _ => true) ino i num t w = Ok (0, t', w') /\ zlist_ok (zones t') /\
    forall b o, zone_at (zones t') b = Some o <-> owned_up_to num b o.
Proof.
  intros Hmap (Hj & Hinj & Htot) Hmeta. pose proof (zone_total_nonneg _ Hmeta). revert i t w. induction fuel as [|fuel IH]; intros i t w Hw Hi Hfu Hok Hat Ht; cbn [protect_loop].
  { destruct (Z.ltb_spec i num); [lia|]. replace i with num in Hat by lia. by exists t, w. }
  destruct (Z.ltb_spec i num); cbn [negb]; [|replace i with num in Hat by lia; by exists t, w].
  destruct (Hmap w i (num - i) Hw) as (n & p & w' & -> & Hw' & Hn); [lia..|]. cbn [mbind outcome_bind]. destruct (Z.ltb_spec n 0); [lia|].
  destruct Hn as [(-> & HM)|(Hn & HM)].
  - cbn. rewrite u32_small by lia. apply IH; [done|lia|lia|done| |lia]. intros b o. rewrite Hat. unfold owned_up_to. split; (intros [?|(-> & k & Hk & E)]; [by left|right; split; [done|]; exists k; split; [|done]]); [lia|].
    destruct (Z.eq_dec k i); [congruence|lia].
  - destruct (Z.eqb_spec n 0); [lia|]. set (z := SystemZone p n ino).
    assert (forall b, in_zone b z = true <-> p <= b < p + n) as Hz by (intros; apply in_zone_spec).
    assert (forall b, in_zone b z = true -> M (i + (b - p)) = Some b) as HMz by (intros b Hb%Hz; rewrite HM by lia; f_equal; lia).
    pose proof (HM 0 ltac:(lia)) as Hb0. pose proof (HM (n - 1) ltac:(lia)) as Hb1. apply Hj in Hb0 as [Hb0 _]; [|lia]. apply Hj in Hb1 as [Hb1 _]; [|lia].
    destruct (add_zone_ok t z Hok) as (t1 & E & Hok1 & Hat1 & Ht1); [by split; cbn; lia| |cbn; lia|].
    { intros b Hb. destruct (zone_at (zones t) b) as [o|] eqn:Eb; [|done]. exfalso. pose proof (HMz b Hb) as Hm. apply Hz in Hb. apply Hat in Eb as [(y & Hy & Hby & _)|(_ & k & Hk & Ek)].
      - destruct (Hj (i + (b - p)) b ltac:(lia) Hm) as [_ Hno]. rewrite (Hno y Hy) in Hby. done.
      - pose proof (Hinj k (i + (b - p)) b ltac:(lia) ltac:(lia) Ek Hm). lia. }
    cbn in E. rewrite E. change (0 <? 0) with false. cbv iota. rewrite u32_small by lia. apply IH; [done|lia|lia|done| |cbn in Ht1; lia].
    intros b o. rewrite Hat1. destruct (in_zone b z) eqn:Eb.
    + pose proof (HMz b Eb) as Hm. apply Hz in Eb. split.
      * intros [= <-]. right. split; [done|]. exists (i + (b - p)). split; [lia|done].
      * intros [(y & Hy & Hby & _)|(-> & _)]; [|done]. destruct (Hj (i + (b - p)) b ltac:(lia) Hm) as [_ Hno]. rewrite (Hno y Hy) in Hby. done.
    + rewrite Hat. unfold owned_up_to. split; (intros [?|(-> & k & Hk & Ek)]; [by left|right; split; [done|]; exists k; split; [|done]]); [lia|].
      destruct (Z.lt_ge_cases k i); [lia|]. exfalso. assert (M k = Some (p + (k - i))) as Hx by (replace k with (i + (k - i)) at 1 by lia; apply HM; lia).
      rewrite Ek in Hx. injection Hx as Hx. assert (in_zone b z = true) by (apply Hz; lia). congruence.
Qed.
End journal.

(** ** The check of a block number *)

(** The range and the zone have a block in common. *)
Definition runs_into (start_blk count : Z) (z : ext4_system_zone) : Prop := z_start z <= start_blk + count - 1 /\ start_blk < z_start z + z_count z.

Lemma zone_lookup_spec t start_blk count : zlist_ok (zones t) -> 0 <= start_blk -> 0 < count -> start_blk + count < 2 ^ 64 ->
  match zone_lookup t start_blk count with
  | Some z => z ∈ zones t /\ runs_into start_blk count z
  | None => Forall (fun z => ~ runs_into start_blk count z) (zones t)
  end.
Proof.
  intros Hok H0 Hc He. induction t as [|l IHl e r IHr]; cbn [zones zone_lookup] in *; [constructor|].
  apply zlist_ok_mid in Hok as (Hl & Hoe & Hr & Ha & Hb & _). rewrite zone_end, u64_small by (done || lia).
  specialize (IHl Hl). specialize (IHr Hr). rewrite Forall_forall in Ha, Hb. destruct Hl as [Hl _], Hr as [Hr _]. rewrite Forall_forall in Hl, Hr.
  destruct (Z.ltb_spec (start_blk + count - 1) (z_start e)).
  - destruct (zone_lookup l start_blk count); [destruct IHl; split; [set_solver|done]|].
    apply Forall_app; split; [done|]. constructor; [unfold runs_into; lia|]. apply Forall_forall. intros z Hz. specialize (Hb z Hz). destruct Hoe. unfold runs_into, zbefore in *. lia.
  - destruct (Z.leb_spec (z_start e + z_count e) start_blk); [|split; [set_solver|unfold runs_into; lia]].
    destruct (zone_lookup r start_blk count); [destruct IHr; split; [set_solver|done]|].
    apply Forall_app; split; [|constructor; [unfold runs_into; lia|done]]. apply Forall_forall. intros z Hz. specialize (Ha z Hz). destruct Hoe. unfold runs_into, zbefore in *. lia.
Qed.

Definition device_range (sb : zone_sb) (start_blk count : Z) : Prop := s_first_data_block sb < start_blk /\ start_blk + count <= s_blocks_count sb.

(** The zones of the super block, or none. *)
Definition sys_zones (sb : zone_sb) : list ext4_system_zone := from_option zones [] (s_system_blks sb).
Record zone_sb_ok (sb : zone_sb) : Prop := {
  zs_first : 0 <= s_first_data_block sb;
  zs_count : s_blocks_count sb < 2 ^ 63;
  zs_zones : zlist_ok (sys_zones sb)
}.

Lemma block_valid_spec sb ino start_blk count : zone_sb_ok sb -> 0 <= start_blk < 2 ^ 64 -> 0 < count < 2 ^ 32 ->
  (ext4_inode_block_valid sb ino start_blk count = true -> device_range sb start_blk count /\
     ((exists z, z ∈ sys_zones sb /\ runs_into start_blk count z /\ z_ino z = ino) \/ forall z, z ∈ sys_zones sb -> ~ runs_into start_blk count z)) /\
  (device_range sb start_blk count -> (forall z, z ∈ sys_zones sb -> runs_into start_blk count z -> z_ino z = ino) -> ext4_inode_block_valid sb ino start_blk count = true).
Proof.
  intros [Hf Hn Hz] Hs Hc. unfold ext4_inode_block_valid, ext4_sb_block_valid, device_range.
  assert ((start_blk <=? s_first_data_block sb) || (u64 (start_blk + count) <? start_blk) || (s_blocks_count sb <? u64 (start_blk + count)) = false <->
    s_first_data_block sb < start_blk /\ start_blk + count <= s_blocks_count sb) as Hg.
  { rewrite !orb_false_iff, Z.leb_gt, !Z.ltb_ge. destruct (Z.lt_ge_cases (start_blk + count) (2 ^ 64)); [rewrite u64_small by lia; lia|].
    assert (u64 (start_blk + count) = start_blk + count - 2 ^ 64) as -> by (wrap_lia). lia. }
  destruct (_ || _ || _).
  { split; [done|]. intros Hd%Hg. done. }
  destruct (proj1 Hg eq_refl) as [Hd1 Hd2]. unfold sys_zones in *. destruct (s_system_blks sb) as [t|]; cbn [from_option] in *.
  2:{ split; [|done]. intros _. split; [done|]. right. intros z Hz0. set_solver. }
  pose proof (zone_lookup_spec t start_blk count Hz) as Hl. destruct (zone_lookup t start_blk count) as [e|].
  - destruct Hl as [He Hr]; [lia..|]. rewrite Z.eqb_eq. split; [|auto]. intros Hi. split; [done|]. left. by exists e.
  - rewrite Forall_forall in Hl. split; [|done]. intros _. split; [done|]. right. intros z Hz0. apply Hl; [lia..|done].
Qed.
End zones.

(** * Properties *)

(** Adding a zone that is free of others: it is in the tree afterwards, whoever
    owned the other blocks still does, and the tree stays in order. *)
Theorem add_zone_exact `{ZoneTreeOk} (t : zone_tree) (n : ext4_system_zone) :
  zlist_ok (zones t) -> zone_ok n -> zone_free (zones t) n -> zone_total (zones t) + z_count n < 2 ^ 32 ->
  exists t', add_system_zone t (z_start n) (z_count n) (z_ino n) true = (0, t') /\ zlist_ok (zones t') /\
    (forall b, zone_at (zones t') b = if in_zone b n then Some (z_ino n) else zone_at (zones t) b).
Proof. intros H1 H2 H3 H4. destruct (add_zone_ok t n H1 H2 H3 H4) as (t' & ? & ? & ? & _). eauto. Qed.

(** Whose metadata a block is once the zones are set up. *)
Lemma setup_zones_ok `{ZoneTreeOk} W (map_blocks : W -> Z -> Z -> outcome (Z * Z * W)) I M (internal : bool) (s_itb_per_group : Z) groups s_inodes_count i_size bits jino sb w :
  let metadata := groups ≫= group_zones s_itb_per_group in
  let num := u32 (Z.shiftr (i_size + 2 ^ bits - 1) bits) in
  disjoint_zones metadata -> (internal = true -> EXT4_ROOT_INO <= jino <= s_inodes_count /\ I w /\ maps_as W map_blocks I M num /\ journal_apart M metadata num) ->
  exists t w', ext4_setup_system_zone W (fun _ => true) true s_itb_per_group groups
      (if internal then Some (ext4_protect_reserved_inode W map_blocks (fun _ => true) s_inodes_count 0 i_size bits jino) else None) sb w
    = Ok (0, ZoneSb (s_first_data_block sb) (s_blocks_count sb) (Some t), w') /\ zlist_ok (zones t) /\
    forall b o, zone_at (zones t) b = Some o <-> owner_of metadata b o \/ (o = jino /\ internal = true /\ exists k, 0 <= k < num /\ M k = Some b).
Proof.
  intros metadata num (Hf & Hp & Ht) Hj. unfold ext4_setup_system_zone. cbn [negb]. fold metadata.
  destruct (add_zones_ok metadata [] ZLeaf) as (t & -> & Hok & Htot & Hat); [split; constructor|done|done|set_solver| |done|].
  { intros b i. split; [done|]. intros (z & Hz & _). set_solver. }
  cbn [app] in Hat. change (negb (0 =? 0)) with false. cbv iota. destruct internal; cbn [mbind outcome_bind].
  2:{ exists t, w. split; [done|]. split; [done|]. intros b o. rewrite Hat. split; [by left|]. by intros [?|(_ & ? & _)]. }
  destruct (Hj eq_refl) as ([Hj1 Hj2] & Hw & Hmap & Hap). unfold ext4_protect_reserved_inode. rewrite (proj2 (Z.ltb_ge _ _) Hj1), (proj2 (Z.ltb_ge _ _) Hj2). cbn [orb negb]. change (negb (0 =? 0)) with false. cbv iota.
  fold num. assert (0 <= num) by (apply wrap_bound; lia).
  destruct (protect_loop_ok W map_blocks I M metadata jino num (Z.to_nat num) 0 t w Hmap Hap Hf Hw) as (t' & w' & -> & Hok' & Hat'); [lia|lia|done| |cbn in Htot; lia|].
  { intros b o. rewrite Hat. unfold owned_up_to. split; [by left|]. intros [?|(_ & k & ? & _)]; [done|lia]. }
  cbn. exists t', w'. split_and!; [done|done|]. intros b o. rewrite Hat'. unfold owned_up_to. tauto.
Qed.

(** The check answers by the zones the range runs into. *)
Lemma zones_checked `{ZoneTreeOk} sb t ino start_blk count (P : Z -> Z -> Prop) : zone_sb_ok sb -> s_system_blks sb = Some t ->
  (forall b o, zone_at (zones t) b = Some o <-> P b o) -> 0 <= start_blk < 2 ^ 64 -> 0 < count < 2 ^ 32 ->
  ((forall b, ~ P b ino) -> ext4_inode_block_valid sb ino start_blk count = true -> device_range sb start_blk count /\ forall b o, P b o -> ~ start_blk <= b < start_blk + count) /\
  (device_range sb start_blk count -> (forall b o, P b o -> o <> ino -> ~ start_blk <= b < start_blk + count) -> ext4_inode_block_valid sb ino start_blk count = true).
Proof.
  intros Hsb Et Hat Hs Hc. destruct (block_valid_spec sb ino start_blk count Hsb Hs Hc) as [Hv1 Hv2]. pose proof (zs_zones sb Hsb) as Hok. unfold sys_zones in *. rewrite Et in *. cbn [from_option] in *.
  assert (forall z b, z ∈ zones t -> in_zone b z = true -> P b (z_ino z)) as Hin.
  { intros z b (l1 & l2 & E)%list_elem_of_split Hb. apply Hat. rewrite E in Hok |- *. by apply zone_at_mid. }
  assert (forall z, z ∈ zones t -> runs_into start_blk count z -> exists b, start_blk <= b < start_blk + count /\ P b (z_ino z)) as Hruns.
  { intros z Hz Hr. pose proof Hz as (l1 & l2 & E)%list_elem_of_split. assert (zone_ok z) as [? ? ?] by (rewrite E in Hok; by apply zlist_ok_mid in Hok as (_ & ? & _)).
    unfold runs_into in Hr. exists (Z.max start_blk (z_start z)). split; [lia|]. apply Hin; [done|]. apply in_zone_spec. lia. }
  split.
  - intros Hno Hv. destruct (Hv1 Hv) as [Hd Hx]. split; [done|]. intros b o Ho Hr. apply Hat, zone_at_elem in Ho as (z & Hz & Hb & _). apply in_zone_spec in Hb.
    destruct Hx as [(x & Hx & Hrx & Ex)|Hx].
    + destruct (Hruns x Hx Hrx) as (y & _ & Hy). rewrite Ex in Hy. by apply (Hno y).
    + apply (Hx z Hz). unfold runs_into. lia.
  - intros Hd Hno. apply Hv2; [done|]. intros z Hz Hr. destruct (Hruns z Hz Hr) as (b & Hb & Ho). destruct (Z.eq_dec (z_ino z) ino); [done|]. exfalso. by apply (Hno b _ Ho).
Qed.

(** C22: After the zones were set up from group descriptors that are in order, and
    from the blocks of the journal if the file system has one inside, the check of
    a range of blocks for an inode other than the journal's answers yes exactly
    when the range is on the device and no block of it is metadata of a group or
    a block of the journal; for the journal it answers yes for every range on the
    device without metadata of a group.  The blocks of the journal are those
    [ext4_map_blocks] answers ([maps_as]), and none of them is metadata. *)
Theorem zone_check_exact `{ZoneTreeOk} W (map_blocks : W -> Z -> Z -> outcome (Z * Z * W)) (I : W -> Prop) (M : Z -> option Z) (internal : bool)
    (s_itb_per_group : Z) (groups : list group) (s_inodes_count i_size bits jino : Z) (sb : zone_sb) (w : W) :
  let metadata := groups ≫= group_zones s_itb_per_group in
  let num := u32 (Z.shiftr (i_size + 2 ^ bits - 1) bits) in
  let journal_block b := internal = true /\ exists k, 0 <= k < num /\ M k = Some b in
  disjoint_zones metadata -> (internal = true -> EXT4_ROOT_INO <= jino <= s_inodes_count /\ I w /\ maps_as W map_blocks I M num /\ journal_apart M metadata num) ->
  0 <= s_first_data_block sb -> s_blocks_count sb < 2 ^ 63 ->
  exists sb' w', ext4_setup_system_zone W (fun _ => true) true s_itb_per_group groups
      (if internal then Some (ext4_protect_reserved_inode W map_blocks (fun _ => true) s_inodes_count 0 i_size bits jino) else None) sb w = Ok (0, sb', w') /\
    forall ino start_blk count, 0 < ino -> 0 <= start_blk < 2 ^ 64 -> 0 < count < 2 ^ 32 ->
      (ino <> jino -> ext4_inode_block_valid sb' ino start_blk count = true <->
         device_range sb start_blk count /\ (forall z b, z ∈ metadata -> in_zone b z = true -> ~ start_blk <= b < start_blk + count) /\
         forall b, journal_block b -> ~ start_blk <= b < start_blk + count) /\
      (ino = jino -> device_range sb start_blk count -> (forall z b, z ∈ metadata -> in_zone b z = true -> ~ start_blk <= b < start_blk + count) ->
         ext4_inode_block_valid sb' ino start_blk count = true).
Proof.
  intros metadata num journal_block Hm Hj Hfirst Hb. destruct (setup_zones_ok W map_blocks I M internal s_itb_per_group groups s_inodes_count i_size bits jino sb w Hm Hj) as (t & w' & -> & Hok & Hat).
  fold metadata num in Hat. eexists _, w'. split; [done|]. set (sb' := ZoneSb _ _ _). intros ino start_blk count Hi Hs Hc.
  destruct (zones_checked sb' t ino start_blk count _ ltac:(by split) eq_refl Hat Hs Hc) as [Hv1 Hv2].
  assert (forall z, z ∈ metadata -> z_ino z = 0) as Hz.
  { intros z (g & Hy & _)%list_elem_of_bind. unfold group_zones in Hy. destruct (g_meta g =? 0); set_solver. }
  assert (forall b, owner_of metadata b ino -> False) as Hno by (intros b (z & Hzm & _ & Ez); rewrite (Hz z Hzm) in Ez; lia).
  split.
  - intros Hne. split.
    + intros Hv. destruct Hv1 as [Hd Hx]; [intros b [?|[? _]]; [by eapply Hno|done]|done|]. split_and!; [done|..].
      * intros z b Hzm Hbz. apply (Hx b (z_ino z)). left. by exists z.
      * intros b Hjb. apply (Hx b jino). by right.
    + intros (Hd & Hx & Hy). apply Hv2; [done|]. intros b o [(z & Hzm & Hbz & _)|(_ & Hjb)] _; [by apply (Hx z)|by apply Hy].
  - intros -> Hd Hx. apply Hv2; [done|]. intros b o [(z & Hzm & Hbz & _)|(-> & _)] Ho; [by apply (Hx z)|done].
Qed.

(** Only the first block of a new zone is looked for in the tree, so that a zone
    that starts before another and runs over it is taken, against the check for
    overlaps; the check of a block number then misses blocks of metadata. *)
Definition append_left : ZoneTree := fun t l =>
  match t, l with ZNode ZLeaf e ZLeaf, [a; b] => ZNode (ZNode ZLeaf a ZLeaf) b ZLeaf | _, _ => foldr (fun e r => ZNode ZLeaf e r) ZLeaf l end.
Lemma append_left_ok : @ZoneTreeOk append_left.
Proof.
  assert (forall l, zones (foldr (fun e r => ZNode ZLeaf e r) ZLeaf l) = l) as Hl by (induction l as [|e l IH]; cbn; [done|by rewrite IH]).
  intros t l. unfold zone_shape, append_left. destruct t as [|[|? ? ?] e [|? ? ?]]; try apply Hl. destruct l as [|a [|b [|c l]]]; done || apply Hl.
Qed.
Theorem overlap_missed :
  let '(err1, t1) := @add_system_zone append_left ZLeaf 10 10 0 true in
  let '(err2, t2) := @add_system_zone append_left t1 5 25 0 true in
  err1 = 0 /\ err2 = 0 /\ zone_at (zones t2) 25 = Some 0 /\ ext4_inode_block_valid (ZoneSb 0 1000 (Some t2)) 12 25 1 = true.
Proof. vm_compute. auto. Qed.

(** ** Witnesses *)

Definition demo_groups : list group := [Group 0 2 2 3 4; Group 100 0 101 102 103].
Lemma demo_metadata : disjoint_zones (demo_groups ≫= group_zones 8).
Proof.
  cbn. split_and!; [repeat constructor; cbn; lia| |by compute]. repeat constructor; unfold apart, zbefore; cbn; lia.
Qed.
Definition zone_list : ZoneTree := fun _ l => foldr (fun e r => ZNode ZLeaf e r) ZLeaf l.
Lemma zone_list_ok : @ZoneTreeOk zone_list.
Proof. intros t l. unfold zone_shape, zone_list. induction l as [|e l IH]; cbn; [done|by rewrite IH]. Qed.

(** A journal of two blocks, with a hole between them. *)
Definition demo_journal (i : Z) : option Z := if i =? 0 then Some 300 else if i =? 2 then Some 301 else None.
Definition demo_map (w : unit) (i len : Z) : outcome (Z * Z * unit) :=
  match demo_journal i with Some p => Ok (1, p, w) | None => Ok (0, 0, w) end.

Lemma demo_maps_as : maps_as unit demo_map (fun _ => True) demo_journal 3.
Proof.
  intros w i len _ Hi Hl He. unfold demo_map. destruct (demo_journal i) as [p|] eqn:E; eexists _, _, w; (split; [done|]); (split; [done|]); [right|by left].
  split; [lia|]. intros k Hk. replace k with 0 by lia. rewrite !Z.add_0_r. exact E.
Qed.
Lemma demo_journal_at i b : demo_journal i = Some b -> (i = 0 /\ b = 300) \/ (i = 2 /\ b = 301).
Proof. unfold demo_journal. destruct (Z.eqb_spec i 0); [intros [= <-]; auto|]. destruct (Z.eqb_spec i 2); [intros [= <-]; auto|done]. Qed.
Lemma demo_apart : journal_apart demo_journal (demo_groups ≫= group_zones 8) 3.
Proof.
  split_and!; [| |by compute].
  - intros i b _ Hb%demo_journal_at. split; [lia|]. intros z Hz. apply in_zone_false. cbn in Hz.
    repeat (apply elem_of_cons in Hz as [->|Hz]; [cbn; lia|]). by apply elem_of_nil in Hz.
  - intros i j b _ _ Hi%demo_journal_at Hj%demo_journal_at. lia.
Qed.

Lemma zone_check_exact_witness :
  exists sb', @ext4_setup_system_zone zone_list unit (fun _ => true) true 8 demo_groups
      (Some (@ext4_protect_reserved_inode zone_list unit demo_map (fun _ => true) 100 0 3072 10 8)) (ZoneSb 0 1000 None) tt = Ok (0, sb', tt) /\
    ext4_inode_block_valid sb' 12 301 1 <> true /\ ext4_inode_block_valid sb' 8 301 1 = true.
Proof.
  destruct (@zone_check_exact zone_list zone_list_ok unit demo_map (fun _ => True) demo_journal true 8 demo_groups 100 3072 10 8 (ZoneSb 0 1000 None) tt) as (sb' & [] & H1 & H2);
    [apply demo_metadata|intros _; split; [by compute|split; [done|split; [apply demo_maps_as|apply demo_apart]]]|cbn; lia|cbn; lia|].
  exists sb'. split; [exact H1|]. split.
  - intros Hv. destruct (H2 12 301 1 ltac:(lia) ltac:(lia) ltac:(lia)) as [Hx _]. destruct (proj1 (Hx ltac:(lia)) Hv) as (_ & _ & Hj).
    apply (Hj 301); [split; [done|]; exists 2; split; [by compute|done]|lia].
  - destruct (H2 8 301 1 ltac:(lia) ltac:(lia) ltac:(lia)) as [_ Hx]. apply Hx; [done|by compute|]. intros z b Hz Hb%in_zone_spec Hr. cbn in Hz.
    repeat (apply elem_of_cons in Hz as [->|Hz]; [cbn in Hb; lia|]). by apply elem_of_nil in Hz.
Defined.
