(* ===== verification/ExtTree.v ===== *)
(** The extent tree on the disk ([extents.c], [ext4_extents.h]): nodes of slots in
    the inode and in blocks, the checks of a node that was read, the binary
    searches, the descent to the extent of a block, and filling the extent status
    tree from leaves. *)

From stdpp Require Import sorting.
From S2P Require Import Prelude Friend ExtStatus ExtInsert ExtOps ExtRecover SysZone.

(** ** Nodes

    A node has a header and slots of twelve bytes, three words here, that are
    extents in a leaf and indexes above. *)
Record ext_slot := ExtSlot { sw0 : Z; sw1 : Z; sw2 : Z }.
Record ext4_extent_idx := ExtentIdx { ei_block : Z; ei_leaf_lo : Z; ei_leaf_hi : Z; ei_unused : Z }.
Definition slot_extent (s : ext_slot) : ext4_extent :=
  {| ee_block := sw0 s; ee_len := Z.land (sw1 s) 65535; ee_start_hi := Z.shiftr (sw1 s) 16; ee_start_lo := sw2 s |}.
Definition slot_idx (s : ext_slot) : ext4_extent_idx :=
  {| ei_block := sw0 s; ei_leaf_lo := sw1 s; ei_leaf_hi := Z.land (sw2 s) 65535; ei_unused := Z.shiftr (sw2 s) 16 |}.
Definition extent_slot (ex : ext4_extent) : ext_slot := ExtSlot (ee_block ex) (Z.lor (ee_len ex) (Z.shiftl (ee_start_hi ex) 16)) (ee_start_lo ex).
Definition idx_slot (ix : ext4_extent_idx) : ext_slot := ExtSlot (ei_block ix) (ei_leaf_lo ix) (Z.lor (ei_leaf_hi ix) (Z.shiftl (ei_unused ix) 16)).

Definition ext4_idx_pblock (ix : ext4_extent_idx) : Z := Z.lor (ei_leaf_lo ix) (u64 (Z.shiftl (Z.shiftl (ei_leaf_hi ix) 31) 1)).
Definition ext4_ext_store_pblock (ex : ext4_extent) (pb : Z) : ext4_extent :=
  {| ee_block := ee_block ex; ee_len := ee_len ex;
     ee_start_hi := Z.land (Z.shiftr (Z.shiftr pb 31) 1) 65535; ee_start_lo := Z.land pb (2 ^ 32 - 1) |}.
Definition ext4_idx_store_pblock (ix : ext4_extent_idx) (pb : Z) : ext4_extent_idx :=
  {| ei_block := ei_block ix; ei_leaf_lo := Z.land pb (2 ^ 32 - 1);
     ei_leaf_hi := Z.land (Z.shiftr (Z.shiftr pb 31) 1) 65535; ei_unused := ei_unused ix |}.
Definition ext4_ext_mark_unwritten (ex : ext4_extent) : outcome ext4_extent :=
  _ ← BUG_ON (Z.ldiff (ee_len ex) EXT_INIT_MAX_LEN =? 0);
  Ok {| ee_block := ee_block ex; ee_len := Z.lor (ee_len ex) EXT_INIT_MAX_LEN; ee_start_hi := ee_start_hi ex; ee_start_lo := ee_start_lo ex |}.
Definition ext4_ext_mark_initialized (ex : ext4_extent) : ext4_extent :=
  {| ee_block := ee_block ex; ee_len := ext4_ext_get_actual_len ex; ee_start_hi := ee_start_hi ex; ee_start_lo := ee_start_lo ex |}.

Record ext4_extent_header := ExtentHeader { eh_magic : Z; eh_entries : Z; eh_max : Z; eh_depth : Z; eh_generation : Z }.
(** [n_tail] is the word behind the slots. *)
Record ext_node := ExtNode { n_hdr : ext4_extent_header; n_slots : list ext_slot; n_tail : Z }.
Definition entries (n : ext_node) : Z := eh_entries (n_hdr n).
(** The slots in use. *)
Definition used (n : ext_node) : list ext_slot := take (Z.to_nat (entries n)) (n_slots n).
(** A slot by its number; beyond the last one is memory that is not the node's. *)
Definition slot_at (n : ext_node) (k : Z) : outcome ext_slot :=
  if k <? 0 then Bug else match n_slots n !! Z.to_nat k with Some s => Ok s | None => Bug end.

Definition EXT4_EXT_MAGIC : Z := 62218.
Definition EXT4_MAX_EXTENT_DEPTH : Z := 5.
Definition EFSBADCRC : Z := 74.
Definition EXT4_EX_NOCACHE : Z := 1073741824.
Definition EXT4_EX_FORCE_CACHE : Z := 536870912.
Definition has_flag (flags f : Z) : bool := negb (Z.land flags f =? 0).

(** What the tree needs of the filesystem: block size, whether metadata has
    checksums, the system zones, and the parameters of the extent status tree. *)
Record ext_sb := ExtSb { xs_blocksize : Z; xs_csum : bool; xs_zones : zone_sb; xs_es : es_sb }.

(** The inode, and the blocks of the disk as the buffer cache has them:
    [i_data] is the root, [i_verified] are the buffers that passed the check,
    [i_precached] is the state EXT4_STATE_EXT_PRECACHED. *)
Record ext_inode := ExtInode { i_ino : Z; i_data : ext_node; i_es : es_info; i_disk : Z -> ext_node; i_verified : gset Z; i_precached : bool }.
Definition set_es (i : ext_inode) (e : es_info) : ext_inode := ExtInode (i_ino i) (i_data i) e (i_disk i) (i_verified i) (i_precached i).
Definition set_verified (i : ext_inode) (b : Z) : ext_inode := ExtInode (i_ino i) (i_data i) (i_es i) (i_disk i) ({[ b ]} ∪ i_verified i) (i_precached i).
Definition set_precached (i : ext_inode) : ext_inode := ExtInode (i_ino i) (i_data i) (i_es i) (i_disk i) (i_verified i) true.
Definition ext_depth (i : ext_inode) : Z := eh_depth (n_hdr (i_data i)).

(** ** Checking a node *)

Definition ext4_ext_space_block (sb : ext_sb) : Z := (xs_blocksize sb - 12) / 12.
Definition ext4_ext_space_block_idx (sb : ext_sb) : Z := (xs_blocksize sb - 12) / 12.
Definition ext4_ext_space_root : Z := (60 - 12) / 12.
Definition ext4_ext_space_root_idx : Z := (60 - 12) / 12.
Definition ext4_ext_max_entries (sb : ext_sb) (i : ext_inode) (depth : Z) : Z :=
  if depth =? ext_depth i then if depth =? 0 then ext4_ext_space_root else ext4_ext_space_root_idx
  else if depth =? 0 then ext4_ext_space_block sb else ext4_ext_space_block_idx sb.

Definition ext4_valid_extent (sb : ext_sb) (i : ext_inode) (ext : ext4_extent) : bool :=
  let len := ext4_ext_get_actual_len ext in
  let lblock := ee_block ext in
  if u32 (lblock + len) <=? lblock then false else ext4_inode_block_valid (xs_zones sb) (i_ino i) (ext4_ext_pblock ext) len.
Definition ext4_valid_extent_idx (sb : ext_sb) (i : ext_inode) (ix : ext4_extent_idx) : bool :=
  ext4_inode_block_valid (xs_zones sb) (i_ino i) (ext4_idx_pblock ix) 1.

(** The loops of [ext4_valid_extent_entries]. *)
Fixpoint valid_leaf (sb : ext_sb) (i : ext_inode) (cur : Z) (l : list ext4_extent) : bool :=
  match l with
  | [] => true
  | ex :: l =>
      if negb (ext4_valid_extent sb i ex) then false
      else if ee_block ex <? cur then false
      else valid_leaf sb i (u32 (ee_block ex + ext4_ext_get_actual_len ex)) l
  end.
Fixpoint valid_index (sb : ext_sb) (i : ext_inode) (cur : Z) (l : list ext4_extent_idx) : bool :=
  match l with
  | [] => true
  | ix :: l =>
      if negb (ext4_valid_extent_idx sb i ix) then false
      else if ei_block ix <? cur then false
      else valid_index sb i (u32 (ei_block ix + 1)) l
  end.
Definition ext4_valid_extent_entries (sb : ext_sb) (i : ext_inode) (eh : ext_node) (lblk depth : Z) : bool :=
  match used eh with
  | [] => true
  | s :: _ =>
      if negb (depth =? ext_depth i) && negb (lblk =? sw0 s) then false
      else if depth =? 0 then valid_leaf sb i 0 (slot_extent <$> used eh)
      else valid_index sb i 0 (slot_idx <$> used eh)
  end.

Section tree.
Context `{Hrb : RbTree}.
Variable sb : ext_sb.
(** The checksum of the header and the slots that the header says there is room
    for ([ext4_chksum], with the seed of the inode). *)
Variable ext4_chksum : ext4_extent_header -> list ext_slot -> Z.

Definition ext4_extent_block_csum (eh : ext_node) : Z := ext4_chksum (n_hdr eh) (take (Z.to_nat (eh_max (n_hdr eh))) (n_slots eh)).
(** The checksum is stored behind the slots that the header says there is room
    for. *)
Definition find_ext4_extent_tail (eh : ext_node) : Z :=
  match n_slots eh !! Z.to_nat (eh_max (n_hdr eh)) with Some s => sw0 s | None => n_tail eh end.
Definition ext4_extent_block_csum_verify (eh : ext_node) : bool :=
  if negb (xs_csum sb) then true else find_ext4_extent_tail eh =? ext4_extent_block_csum eh.

Definition __ext4_ext_check (i : ext_inode) (eh : ext_node) (depth lblk : Z) : Z :=
  let h := n_hdr eh in
  if negb (eh_magic h =? EXT4_EXT_MAGIC) then - EFSCORRUPTED
  else if negb (eh_depth h =? depth) then - EFSCORRUPTED
  else if eh_max h =? 0 then - EFSCORRUPTED
  else if ext4_ext_max_entries sb i depth <? eh_max h then - EFSCORRUPTED
  else if eh_max h <? eh_entries h then - EFSCORRUPTED
  else if (eh_entries h =? 0) && (0 <? depth) then - EFSCORRUPTED
  else if negb (ext4_valid_extent_entries sb i eh lblk depth) then - EFSCORRUPTED
  else if 32 <? depth then - EFSCORRUPTED
  else if negb (ext_depth i =? depth) && negb (ext4_extent_block_csum_verify eh) then - EFSBADCRC
  else 0.
Definition ext4_ext_check_inode (i : ext_inode) : Z := __ext4_ext_check i (i_data i) (ext_depth i) 0.

(** ** Reading nodes *)

(** [ext4_cache_extents]; [mem] says whether there is memory for a node of the
    extent status tree. *)
Fixpoint cache_loop (mem : extent_status -> bool) (prev : Z) (exs : list ext4_extent) (e : es_info) : outcome es_info :=
  match exs with
  | [] => Ok e
  | ex :: exs =>
      let lblk := ee_block ex in
      let len := ext4_ext_get_actual_len ex in
      e ← (if negb (prev =? 0) && negb (prev =? lblk)
           then let h := ext4_es_store_pblock_status prev (u32 (lblk - prev)) (2 ^ 64 - 1) EXTENT_STATUS_HOLE in es_cache (xs_es sb) e (mem h) h
           else Ok e);
      let status := if ext4_ext_is_unwritten ex then EXTENT_STATUS_UNWRITTEN else EXTENT_STATUS_WRITTEN in
      let n := ext4_es_store_pblock_status lblk len (ext4_ext_pblock ex) status in
      e ← es_cache (xs_es sb) e (mem n) n;
      cache_loop mem (u32 (lblk + len)) exs e
  end.
Definition ext4_cache_extents (mem : extent_status -> bool) (i : ext_inode) (eh : ext_node) : outcome ext_inode :=
  e ← cache_loop mem 0 (slot_extent <$> used eh) (i_es i); Ok (set_es i e).

(** What the environment answers: memory for the extent status tree and for the
    path, and what reading a block returns, 0 or an error. *)
Record ext_env := ExtEnv { xe_mem : extent_status -> bool; xe_alloc : bool; xe_read : Z -> Z }.

Definition read_extent_tree_block (env : ext_env) (i : ext_inode) (idx : ext4_extent_idx) (depth flags : Z) : outcome ((Z + Z) * ext_inode) :=
  let pblk := ext4_idx_pblock idx in
  let err := xe_read env pblk in
  if err <? 0 then Ok (inl err, i)
  else if bool_decide (pblk ∈ i_verified i) && negb (has_flag flags EXT4_EX_FORCE_CACHE) then Ok (inr pblk, i)
  else
    let err := __ext4_ext_check i (i_disk i pblk) depth (ei_block idx) in
    if negb (err =? 0) then Ok (inl err, i)
    else
      let i := set_verified i pblk in
      i ← (if negb (has_flag flags EXT4_EX_NOCACHE) && (depth =? 0) then ext4_cache_extents (xe_mem env) i (i_disk i pblk) else Ok i);
      Ok (inr pblk, i).

(** ** Searching *)

(** The loop of both binary searches: [l] and [r] are numbers of slots. *)
Fixpoint binsearch_loop (fuel : nat) (eh : ext_node) (block l r : Z) : outcome Z :=
  if negb (l <=? r) then Ok l
  else match fuel with
  | O => Hang
  | S fuel =>
      let m := l + (r - l) / 2 in
      s ← slot_at eh m;
      if block <? sw0 s then binsearch_loop fuel eh block l (m - 1) else binsearch_loop fuel eh block (m + 1) r
  end.
Definition ext4_ext_binsearch_idx (eh : ext_node) (block : Z) : outcome Z :=
  l ← binsearch_loop (Z.to_nat (entries eh)) eh block 1 (entries eh - 1); Ok (l - 1).
Definition ext4_ext_binsearch (eh : ext_node) (block : Z) : outcome (option Z) :=
  if entries eh =? 0 then Ok None
  else l ← binsearch_loop (Z.to_nat (entries eh)) eh block 1 (entries eh - 1); Ok (Some (l - 1)).

(** An element of a path: the block of the node, or the inode, and the slot the
    path goes through, an extent or an index. *)
Record ext4_ext_path := ExtPath { p_block : Z; p_depth : Z; p_ext : option Z; p_idx : option Z; p_bh : option Z }.
(** [p_hdr]. *)
Definition node_of (i : ext_inode) (bh : option Z) : ext_node := match bh with None => i_data i | Some b => i_disk i b end.
Definition p_hdr (i : ext_inode) (p : ext4_ext_path) : ext_node := node_of i (p_bh p).

(** The walk of [ext4_find_extent] from a node at height [d] on. *)
Fixpoint find_walk (env : ext_env) (block flags : Z) (d : nat) (bh : option Z) (i : ext_inode) : outcome ((Z + list ext4_ext_path) * ext_inode) :=
  let eh := node_of i bh in
  match d with
  | O =>
      k ← ext4_ext_binsearch eh block;
      match k with
      | None => Ok (inr [ExtPath 0 0 None None bh], i)
      | Some k => s ← slot_at eh k; Ok (inr [ExtPath (ext4_ext_pblock (slot_extent s)) 0 (Some k) None bh], i)
      end
  | S d' =>
      k ← ext4_ext_binsearch_idx eh block;
      s ← slot_at eh k;
      let p := ExtPath (ext4_idx_pblock (slot_idx s)) (Z.of_nat d) None (Some k) bh in
      r ← read_extent_tree_block env i (slot_idx s) (Z.of_nat d') flags;
      let '(r, i) := r in
      match r with
      | inl err => Ok (inl err, i)
      | inr b =>
          r ← find_walk env block flags d' (Some b) i;
          Ok (match r.1 with inl err => inl err | inr path => inr (p :: path) end, r.2)
      end
  end.

(** [ext4_find_extent]; a path that is handed in, of this [p_maxdepth], is used
    again if it is long enough. *)
Definition ext4_find_extent (env : ext_env) (i : ext_inode) (block : Z) (maxdepth : option Z) (flags : Z) : outcome ((Z + list ext4_ext_path) * ext_inode) :=
  let depth := ext_depth i in
  if EXT4_MAX_EXTENT_DEPTH <? depth then Ok (inl (- EFSCORRUPTED), i)
  else if match maxdepth with Some m => m <? depth | None => true end && negb (xe_alloc env) then Ok (inl (- ENOMEM), i)
  else
    i ← (if negb (has_flag flags EXT4_EX_NOCACHE) && (depth =? 0) then ext4_cache_extents (xe_mem env) i (i_data i) else Ok i);
    find_walk env block flags (Z.to_nat depth) None i.

(** The slot after the one a path goes through, from the leaf up: the first
    block it is for. *)
Fixpoint next_up (i : ext_inode) (ups : list ext4_ext_path) : outcome Z :=
  match ups with
  | [] => Ok EXT_MAX_BLOCKS
  | p :: ups =>
      match p_idx p with
      | Some k => if negb (k =? entries (p_hdr i p) - 1) then s ← slot_at (p_hdr i p) (k + 1); Ok (sw0 s) else next_up i ups
      | None => Bug
      end
  end.
Definition ext4_ext_next_allocated_block (i : ext_inode) (path : list ext4_ext_path) : outcome Z :=
  match reverse path with
  | [] => Bug
  | p :: ups =>
      match p_ext p with
      | Some k => if negb (k =? entries (p_hdr i p) - 1) then s ← slot_at (p_hdr i p) (k + 1); Ok (sw0 s) else next_up i ups
      | None => next_up i ups
      end
  end.
Definition ext4_ext_next_leaf_block (i : ext_inode) (path : list ext4_ext_path) : outcome Z :=
  match reverse path with [] => Bug | _ :: ups => next_up i ups end.

(** The loop of [ext4_ext_precache]: [path] are the nodes from the one at hand up,
    each with the slot it goes on at. *)
Fixpoint precache_loop (fuel : nat) (env : ext_env) (depth : nat) (path : list (option Z * Z)) (i : ext_inode) : outcome (Z * ext_inode) :=
  match path with
  | [] => Ok (0, i)
  | (bh, k) :: up =>
      match fuel with
      | O => Hang
      | S fuel =>
          if (length up =? depth)%nat || (entries (node_of i bh) - 1 <? k) then precache_loop fuel env depth up i
          else
            s ← slot_at (node_of i bh) k;
            r ← read_extent_tree_block env i (slot_idx s) (Z.of_nat depth - Z.of_nat (length up) - 1) EXT4_EX_FORCE_CACHE;
            match r with
            | (inl err, i) => Ok (err, i)
            | (inr b, i) => precache_loop fuel env depth ((Some b, 0) :: (bh, k + 1) :: up) i
            end
      end
  end.
Definition ext4_ext_precache (fuel : nat) (env : ext_env) (i : ext_inode) : outcome (Z * ext_inode) :=
  if ext_depth i =? 0 then Ok (0, i)
  else if negb (xe_alloc env) then Ok (- ENOMEM, i)
  else
    let ret := ext4_ext_check_inode i in
    if negb (ret =? 0) then Ok (ret, i)
    else r ← precache_loop fuel env (Z.to_nat (ext_depth i)) [(None, 0)] i; Ok (r.1, set_precached r.2).
End tree.

(** * Lemmas *)

(** ** Extents in order *)

(** The extents [l] are between the blocks [lo] and [hi], in order, not empty, and
    on the disk. *)
Fixpoint exts_ok (lo : Z) (l : list ext4_extent) (hi : Z) : Prop :=
  match l with
  | [] => lo <= hi
  | ex :: l =>
      lo <= ee_block ex /\ 0 < ext4_ext_get_actual_len ex /\ 0 <= ee_start_hi ex < 2 ^ 16 /\ 0 <= ee_start_lo ex < 2 ^ 32 /\
      exts_ok (ee_block ex + ext4_ext_get_actual_len ex) l hi
  end.
Definition covers (ex : ext4_extent) (b : Z) : bool := (ee_block ex <=? b) && (b <? ee_block ex + ext4_ext_get_actual_len ex).
Definition ext_status (ex : ext4_extent) : Z := if ext4_ext_is_unwritten ex then EXTENT_STATUS_UNWRITTEN else EXTENT_STATUS_WRITTEN.
(** What the extents say of a block. *)
Fixpoint disk_map (l : list ext4_extent) (b : Z) : option (Z * Z) :=
  match l with
  | [] => None
  | ex :: l => if covers ex b then Some (ext_status ex, ext4_ext_pblock ex + (b - ee_block ex)) else disk_map l b
  end.

Lemma covers_spec ex b : covers ex b = true <-> ee_block ex <= b < ee_block ex + ext4_ext_get_actual_len ex.
Proof. unfold covers. rewrite andb_true_iff, Z.leb_le, Z.ltb_lt. done. Qed.
Lemma covers_false ex b : covers ex b = false <-> ~ ee_block ex <= b < ee_block ex + ext4_ext_get_actual_len ex.
Proof. rewrite <- covers_spec. by destruct (covers ex b). Qed.

Lemma exts_ok_le lo l hi : exts_ok lo l hi -> lo <= hi.
Proof. revert lo. induction l as [|ex l IH]; intros lo; cbn; [done|]. intros (? & ? & _ & _ & ?%IH). lia. Qed.
Lemma exts_ok_weaken lo lo' l hi hi' : exts_ok lo l hi -> lo' <= lo -> hi <= hi' -> exts_ok lo' l hi'.
Proof. revert lo lo'. induction l as [|ex l IH]; intros lo lo'; cbn; [lia|]. intros (? & ? & ? & ? & ?) ? ?. split_and!; try lia. eapply IH; [done|lia|done]. Qed.
Lemma exts_ok_app lo l1 l2 hi : exts_ok lo (l1 ++ l2) hi <-> exists mid, exts_ok lo l1 mid /\ exts_ok mid l2 hi.
Proof.
  revert lo. induction l1 as [|ex l1 IH]; intros lo; cbn [app exts_ok].
  - split; [intros H; exists lo; split; [lia|done]|]. intros (mid & ? & H). eapply exts_ok_weaken; [exact H|lia|lia].
  - rewrite IH. split; [intros (? & ? & ? & ? & mid & ? & ?); exists mid; split_and!; done || lia|]. intros (mid & H1 & H2). destruct H1 as (? & ? & ? & ? & ?). split_and!; try lia. by exists mid.
Qed.
Lemma exts_ok_elem lo l hi ex : exts_ok lo l hi -> ex ∈ l ->
  lo <= ee_block ex /\ 0 < ext4_ext_get_actual_len ex /\ ee_block ex + ext4_ext_get_actual_len ex <= hi /\ 0 <= ext4_ext_pblock ex < 2 ^ 48.
Proof.
  intros H (l1 & l2 & ->)%list_elem_of_split. apply exts_ok_app in H as (mid & H1%exts_ok_le & ? & ? & Hh & Hl & H2%exts_ok_le).
  pose proof (ext_pblock_bound ex Hh Hl). split_and!; lia.
Qed.
Lemma exts_ok_disk lo l hi : exts_ok lo l hi -> hi <= EXT_MAX_BLOCKS -> disk_ok lo l.
Proof.
  revert lo. induction l as [|ex l IH]; intros lo; cbn; [done|]. intros (? & ? & ? & ? & H) Hhi. split_and!; try lia; auto. apply exts_ok_le in H. lia.
Qed.

Lemma disk_map_app l1 l2 b : disk_map (l1 ++ l2) b = disk_map l1 b ∪ disk_map l2 b.
Proof. induction l1 as [|ex l1 IH]; cbn; [by rewrite (left_id_L None (∪))|]. destruct (covers ex b); [by destruct (disk_map l2 b)|done]. Qed.
Lemma disk_map_out lo l hi b : exts_ok lo l hi -> b < lo \/ hi <= b -> disk_map l b = None.
Proof.
  revert lo. induction l as [|ex l IH]; intros lo; cbn; [done|]. intros (? & ? & _ & _ & H) Hb. pose proof (exts_ok_le _ _ _ H).
  destruct (covers ex b) eqn:E; [apply covers_spec in E; lia|]. eapply IH; [done|lia].
Qed.
Lemma disk_map_mid lo l1 ex l2 hi b : exts_ok lo (l1 ++ ex :: l2) hi -> covers ex b = true ->
  disk_map (l1 ++ ex :: l2) b = Some (ext_status ex, ext4_ext_pblock ex + (b - ee_block ex)).
Proof.
  intros (mid & H1 & ? & _)%exts_ok_app Hb. rewrite disk_map_app, (disk_map_out lo l1 mid) by (done || right; apply covers_spec in Hb; lia).
  cbn. by rewrite Hb.
Qed.
Lemma disk_covers_map l b : disk_covers l b = bool_decide (is_Some (disk_map l b)).
Proof.
  induction l as [|ex l IH]; cbn [disk_covers existsb disk_map]; [done|]. fold (disk_covers l b). rewrite IH.
  destruct (covers ex b) eqn:E; [apply covers_spec in E|apply covers_false in E].
  - rewrite (bool_decide_true (_ <= b < _)) by lia. symmetry. apply bool_decide_true. by eexists.
  - by rewrite (bool_decide_false (_ <= b < _)) by lia.
Qed.

(** ** The extent status tree agrees with the disk *)

(** What the tree says of a block, if anything, is so on the disk; a delayed block
    is not on the disk. *)
Definition agrees (c : Z * Z) (d : option (Z * Z)) : Prop :=
  if (c.1 =? EXTENT_STATUS_WRITTEN) || (c.1 =? EXTENT_STATUS_UNWRITTEN) then d = Some c else d = None.
Definition coherent (M : Z -> option (Z * Z)) (e : es_info) : Prop := forall b c, block_map (nodes e) b = Some c -> agrees c (M b).

(** The same blocks are delayed. *)
Definition same_delayed (e e' : es_info) : Prop := forall b, delayed_at (nodes e') b <-> delayed_at (nodes e) b.
Lemma same_delayed_refl e : same_delayed e e.
Proof. intros b. reflexivity. Qed.
Lemma same_delayed_trans e1 e2 e3 : same_delayed e1 e2 -> same_delayed e2 e3 -> same_delayed e1 e3.
Proof. intros H1 H2 b. by rewrite (H2 b), (H1 b). Qed.

Lemma coherent_same M e e' : (forall b, block_map (nodes e') b = block_map (nodes e) b) -> coherent M e -> coherent M e'.
Proof. intros H Hc b c. rewrite H. apply Hc. Qed.

(** An extent that may be put into the tree: well formed, and so on the disk. *)
Definition true_extent (M : Z -> option (Z * Z)) (n : extent_status) : Prop :=
  ext_ok n /\ ext4_es_is_delayed n = false /\ forall b, in_range b n = true -> agrees (content n b) (M b).

Lemma mapped_extent_ok M lblk len pblk st : 0 <= lblk -> 0 < len -> lblk + len <= EXT_MAX_BLOCKS -> 0 <= pblk < 2 ^ 58 ->
  st = EXTENT_STATUS_WRITTEN \/ st = EXTENT_STATUS_UNWRITTEN ->
  (forall b, lblk <= b < lblk + len -> M b = Some (st, pblk + (b - lblk))) ->
  true_extent M (ext4_es_store_pblock_status lblk len pblk st).
Proof.
  intros H0 Hl He Hp Hst HM. destruct (new_ext_ok lblk len pblk st) as [Hn Ht]; [done..|destruct Hst as [-> | ->]; set_solver|intros _; unfold EXT_MAX_BLOCKS, ES_SHIFT in *; lia|].
  set (n := ext4_es_store_pblock_status lblk len pblk st) in *.
  assert (ext4_es_pblock n = pblk) as Hpb by (unfold n; rewrite pblock_new, Z.land_ones, Z.mod_small; [done|unfold ES_SHIFT; lia|by compute|destruct Hst as [-> | ->]; by compute]).
  split_and!; [done|unfold ext4_es_is_delayed; rewrite Ht; by destruct Hst as [-> | ->]|].
  intros b Hb%in_range_spec. unfold agrees, content, ext4_es_is_mapped, ext4_es_is_written, ext4_es_is_unwritten. rewrite Ht, Hpb.
  rewrite (HM b Hb). by destruct Hst as [-> | ->].
Qed.
Lemma hole_extent_ok M lblk len : 0 <= lblk -> 0 < len -> lblk + len <= EXT_MAX_BLOCKS -> (forall b, lblk <= b < lblk + len -> M b = None) ->
  true_extent M (ext4_es_store_pblock_status lblk len (2 ^ 64 - 1) EXTENT_STATUS_HOLE).
Proof.
  intros H0 Hl He HM. destruct (new_ext_ok lblk len (2 ^ 64 - 1) EXTENT_STATUS_HOLE) as [Hn Ht]; [done..|set_solver|by intros [?|?]|].
  split_and!; [done|unfold ext4_es_is_delayed; by rewrite Ht|]. intros b Hb%in_range_spec. unfold agrees, content. rewrite Ht. apply (HM b Hb).
Qed.

Section caching.
Context `{Hrb : RbTree} {Hrbok : RbTreeOk}.

Lemma cache_coherent M sb e mem n : es_ok e -> s_fc_replay sb = false -> coherent M e -> true_extent M n ->
  exists e', es_cache sb e mem n = Ok e' /\ es_ok e' /\ coherent M e' /\ same_delayed e e'.
Proof.
  intros He Hr Hc (Hn & Hd & Ht). destruct (cache_ok sb e mem n He Hr Hn) as (e' & -> & He' & _ & Hcase). exists e'. split; [done|]. split; [done|].
  assert (nothing_in e (es_lblk n) (es_len n) -> inserted e n e' -> coherent M e' /\ same_delayed e e') as Hins.
  { intros Hno (_ & _ & Hm). split; intros b.
    - intros c. rewrite Hm. unfold map_with. destruct (in_range b n) eqn:Eb; [intros E; apply (f_equal (from_option id (0, 0))) in E; cbn in E; subst c; exact (Ht b Eb)|exact (Hc b c)].
    - unfold delayed_at. rewrite Hm. unfold map_with. destruct (in_range b n) eqn:Eb; [|reflexivity]. split; intros [q Hq]; exfalso.
      + apply (f_equal (fst ∘ from_option id (0, 0))) in Hq. cbn in Hq. apply delayed_type in Hq; [|done]. congruence.
      + apply in_range_spec in Eb. rewrite (Hno b Eb) in Hq. discriminate Hq. }
  assert (coherent M e /\ same_delayed e e) as Hsame by (split; [exact Hc|apply same_delayed_refl]).
  destruct Hcase as [(Hn0 & Hy & Hno)|(_ & ->)]; [|exact Hsame]. destruct mem; [exact (Hins Hn0 (Hy eq_refl))|].
  destruct (Hno eq_refl) as [Hi| ->]; [exact (Hins Hn0 Hi)|exact Hsame].
Qed.

(** [ext4_cache_extents] caches the extents that recovery of a friend file caches
    for an inode without index nodes. *)
Lemma cache_loop_list sb mem prev exs e :
  cache_loop sb mem prev exs e = for_each (scorw_ext_precache_depth0 prev exs) (fun n e => es_cache (xs_es sb) e (mem n) n) e.
Proof.
  revert prev e. induction exs as [|ex exs IH]; intros prev e; [done|]. cbn [cache_loop scorw_ext_precache_depth0].
  destruct (negb (prev =? 0) && negb (prev =? ee_block ex)); cbn [app for_each mbind outcome_bind].
  - destruct (es_cache _ e _ _) as [e1| |]; [|done..]. cbn [mbind outcome_bind]. destruct (es_cache _ e1 _ _); [apply IH|done..].
  - destruct (es_cache _ e _ _); [apply IH|done..].
Qed.

(** What is cached of extents in order is so on the disk. *)
Lemma cached_true M lo exs hi prev : 0 <= lo -> hi <= EXT_MAX_BLOCKS -> exts_ok lo exs hi -> prev = 0 \/ prev = lo ->
  (forall b, lo <= b < hi -> M b = disk_map exs b) -> Forall (true_extent M) (scorw_ext_precache_depth0 prev exs).
Proof.
  intros H0 Hhi. revert lo prev H0. induction exs as [|ex exs IH]; intros lo prev H0 Hex Hp HM; cbn [scorw_ext_precache_depth0]; [constructor|].
  destruct (exts_ok_elem _ _ _ ex Hex) as (Hlo & Hl & Hend & Hpb); [left|]. unfold EXT_MAX_BLOCKS in Hhi.
  cbn [exts_ok] in Hex. destruct Hex as (_ & _ & _ & _ & Hex). set (len := ext4_ext_get_actual_len ex) in *. set (lblk := ee_block ex) in *.
  assert (forall b, lblk <= b < lblk + len -> M b = Some (ext_status ex, ext4_ext_pblock ex + (b - lblk))) as Hin.
  { intros b Hb. rewrite HM by lia. cbn. assert (covers ex b = true) as -> by (by apply covers_spec). done. }
  assert (forall b, lo <= b < lblk -> M b = None) as Hgap.
  { intros b Hb. rewrite HM by lia. cbn. assert (covers ex b = false) as -> by (apply covers_false; lia). eapply disk_map_out; [exact Hex|]. lia. }
  apply Forall_app; split; [|constructor].
  - destruct (Z.eqb_spec prev 0), (Z.eqb_spec prev lblk); cbn [negb andb]; [constructor..|]. constructor; [|constructor]. destruct Hp as [|<-]; [done|].
    rewrite u32_small by lia. apply hole_extent_ok; [lia|lia|unfold EXT_MAX_BLOCKS; lia|]. intros b Hb. apply Hgap. lia.
  - fold (ext_status ex). apply mapped_extent_ok; [lia|done|unfold EXT_MAX_BLOCKS; lia|lia|unfold ext_status; by destruct (ext4_ext_is_unwritten ex); auto|done].
  - rewrite u32_small by lia. apply (IH (lblk + len)); [lia|done|by right|]. intros b Hb. rewrite HM by lia. cbn.
    assert (covers ex b = false) as ->; [|done]. apply covers_false. fold lblk len. lia.
Qed.

Lemma cache_list_coherent M sb mem l e : es_ok e -> s_fc_replay sb = false -> coherent M e -> Forall (true_extent M) l ->
  exists e', for_each l (fun n e => es_cache sb e (mem n) n) e = Ok e' /\ es_ok e' /\ coherent M e' /\ same_delayed e e'.
Proof.
  intros He Hr Hc Hl. revert e He Hc. induction Hl as [|n l Hn _ IH]; intros e He Hc; cbn [for_each]; [exists e; split_and!; [done..|apply same_delayed_refl]|].
  destruct (cache_coherent M sb e (mem n) n He Hr Hc Hn) as (e1 & -> & ? & ? & Hd1). cbn [mbind outcome_bind].
  destruct (IH e1) as (e' & -> & ? & ? & Hd2); [done..|]. exists e'. split_and!; try done. by eapply same_delayed_trans.
Qed.
End caching.

(** ** Trees in order *)

Definition slot_ok (s : ext_slot) : Prop := 0 <= sw0 s < 2 ^ 32 /\ 0 <= sw1 s < 2 ^ 32 /\ 0 <= sw2 s < 2 ^ 32.
Definition child_of (s : ext_slot) : Z := ext4_idx_pblock (slot_idx s).

(** The block the slot after is for; [hi] behind the last. *)
Definition next_key (rest : list ext_slot) (hi : Z) : Z := match rest with s :: _ => sw0 s | [] => hi end.
(** The children of an index node are for the ranges their keys tell, the last one
    up to [hi], and start where their range does. *)
Fixpoint children_ok (sub : Z -> Z -> Z -> Prop) (lo : Z) (l : list ext_slot) (hi : Z) : Prop :=
  match l with
  | [] => True
  | s :: rest => lo <= sw0 s /\ sw0 s < next_key rest hi /\ sub (child_of s) (sw0 s) (next_key rest hi) /\ children_ok sub (next_key rest hi) rest hi
  end.
Definition starts_at (n : ext_node) (lo : Z) : Prop := exists s l, used n = s :: l /\ sw0 s = lo.
Definition slots_ok (n : ext_node) : Prop := 0 <= entries n <= Z.of_nat (length (n_slots n)) /\ Forall slot_ok (used n).
#[export] Instance slot_ok_dec s : Decision (slot_ok s).
Proof. unfold slot_ok. apply _. Defined.
#[export] Instance slots_ok_dec n : Decision (slots_ok n).
Proof. unfold slots_ok. apply _. Defined.

(** A node at height [d] whose extents are in [[lo, hi)]. *)
Fixpoint node_ok (disk : Z -> ext_node) (d : nat) (n : ext_node) (lo hi : Z) : Prop :=
  slots_ok n /\
  match d with
  | O => exts_ok lo (slot_extent <$> used n) hi
  | S d' => used n <> [] /\ children_ok (fun b lo hi => starts_at (disk b) lo /\ node_ok disk d' (disk b) lo hi) lo (used n) hi
  end.
Fixpoint tree_exts (disk : Z -> ext_node) (d : nat) (n : ext_node) : list ext4_extent :=
  match d with
  | O => slot_extent <$> used n
  | S d' => used n ≫= fun s => tree_exts disk d' (disk (child_of s))
  end.

(** The tree of an inode, and what it says of the blocks of the file. *)
Definition depth_of (i : ext_inode) : nat := Z.to_nat (ext_depth i).
Definition inode_exts (i : ext_inode) : list ext4_extent := tree_exts (i_disk i) (depth_of i) (i_data i).
Definition file_map (i : ext_inode) : Z -> option (Z * Z) := disk_map (inode_exts i).
Definition inode_ok (i : ext_inode) : Prop :=
  0 <= ext_depth i <= EXT4_MAX_EXTENT_DEPTH /\ node_ok (i_disk i) (depth_of i) (i_data i) 0 EXT_MAX_BLOCKS.
(** Only what is cached, and which buffers are verified, has changed; the delayed
    blocks are still the same. *)
Definition same_tree (i i' : ext_inode) : Prop := (i_ino i' = i_ino i /\ same_delayed (i_es i) (i_es i')) /\ i_data i' = i_data i /\ i_disk i' = i_disk i.

Lemma same_tree_refl i : same_tree i i.
Proof. split; [split; [done|apply same_delayed_refl]|done]. Qed.
#[export] Hint Resolve same_tree_refl same_delayed_refl : core.
Lemma same_tree_trans i1 i2 i3 : same_tree i1 i2 -> same_tree i2 i3 -> same_tree i1 i3.
Proof. intros ((? & ?) & ? & ?) ((? & ?) & ? & ?). split; [split; [congruence|by eapply same_delayed_trans]|]. split; congruence. Qed.
Lemma same_tree_map i i' : same_tree i i' -> file_map i' = file_map i /\ inode_exts i' = inode_exts i /\ (inode_ok i -> inode_ok i').
Proof. intros (_ & Hd & Hk). unfold file_map, inode_exts, inode_ok, depth_of, ext_depth. rewrite Hd, Hk. done. Qed.

Lemma used_length n : slots_ok n -> length (used n) = Z.to_nat (entries n).
Proof. intros [? _]. unfold used. rewrite length_take. lia. Qed.
Lemma used_slot n l1 s l2 : slots_ok n -> used n = l1 ++ s :: l2 -> slot_at n (Z.of_nat (length l1)) = Ok s.
Proof.
  intros Hn E. unfold slot_at. destruct (Z.ltb_spec (Z.of_nat (length l1)) 0); [lia|]. rewrite Nat2Z.id.
  assert (used n !! length l1 = Some s) as H1 by (rewrite E; by apply list_lookup_middle).
  unfold used in H1. apply lookup_take_Some in H1 as [-> _]. done.
Qed.
Lemma used_entries n l1 s l2 : slots_ok n -> used n = l1 ++ s :: l2 -> entries n = Z.of_nat (length l1) + 1 + Z.of_nat (length l2).
Proof. intros Hn E. pose proof (used_length n Hn) as Hl. rewrite E, length_app in Hl. cbn in Hl. destruct Hn as [? _]. lia. Qed.

(** ** The binary search *)

Definition keys_up (l : list ext_slot) : Prop := StronglySorted (fun a b => sw0 a < sw0 b) l.
Definition key_at (l : list ext_slot) (k : Z) : Z := from_option sw0 0 (l !! Z.to_nat k).

Lemma slot_used n k : slots_ok n -> 0 <= k < entries n -> exists s, slot_at n k = Ok s /\ used n !! Z.to_nat k = Some s.
Proof.
  intros Hn Hk. assert (is_Some (used n !! Z.to_nat k)) as [s Hs] by (apply lookup_lt_is_Some; rewrite used_length by done; lia).
  exists s. split; [|done]. unfold slot_at. destruct (Z.ltb_spec k 0); [lia|]. unfold used in Hs. by apply lookup_take_Some in Hs as [-> _].
Qed.
Lemma keys_lt l a b : keys_up l -> 0 <= a < b -> b < Z.of_nat (length l) -> key_at l a < key_at l b.
Proof.
  intros Hs Hab Hb. unfold key_at. destruct (lookup_lt_is_Some_2 l (Z.to_nat a)) as [x Hx]; [lia|]. destruct (lookup_lt_is_Some_2 l (Z.to_nat b)) as [y Hy]; [lia|].
  rewrite Hx, Hy. cbn. pose proof (take_drop_middle l _ _ Hx) as E. rewrite <- E in Hs. apply StronglySorted_app in Hs as (_ & _ & [_ Hs]%StronglySorted_inv).
  rewrite Forall_forall in Hs. apply Hs. apply (list_elem_of_lookup_2 _ (Z.to_nat b - S (Z.to_nat a))). rewrite lookup_drop, <- Hy. f_equal. lia.
Qed.

(** Where the search ends: the slots from 1 on that are at most [block] are those
    before [x]. *)
Definition search_end (n : ext_node) (block x : Z) : Prop :=
  (forall k, 1 <= k < x -> key_at (used n) k <= block) /\ (forall k, x <= k < entries n -> block < key_at (used n) k).

Lemma binsearch_loop_spec n block fuel l r : slots_ok n -> keys_up (used n) ->
  1 <= l -> l <= r + 1 -> r < entries n -> r - l + 1 <= Z.of_nat fuel ->
  (forall k, 1 <= k < l -> key_at (used n) k <= block) -> (forall k, r < k < entries n -> block < key_at (used n) k) ->
  exists x, binsearch_loop fuel n block l r = Ok x /\ l <= x <= r + 1 /\ search_end n block x.
Proof.
  intros Hn Hs. revert l r. induction fuel as [|fuel IH]; intros l r Hl1 Hlr Hr Hfuel Ha Hb; cbn [binsearch_loop].
  { destruct (Z.leb_spec l r); [lia|]. cbn [negb]. exists l. split; [done|]. split; [lia|]. split; [exact Ha|]. intros k Hk. apply Hb. lia. }
  destruct (Z.leb_spec l r); cbn [negb].
  2:{ exists l. split; [done|]. split; [lia|]. split; [exact Ha|]. intros k Hk. apply Hb. lia. }
  assert (l <= l + (r - l) / 2 <= r) as Hm by (Z.to_euclidean_division_equations; lia). set (m := l + (r - l) / 2) in *.
  destruct (slot_used n m Hn) as (s & -> & Hsm); [lia|]. cbn [mbind outcome_bind].
  assert (sw0 s = key_at (used n) m) as -> by (unfold key_at; by rewrite Hsm). pose proof (used_length n Hn) as Hlen.
  destruct (Z.ltb_spec block (key_at (used n) m)).
  - destruct (IH l (m - 1)) as (x & -> & Hx & He); try lia; [done| |exists x; split; [done|]; split; [lia|exact He]].
    intros k Hk. destruct (Z.eq_dec k m) as [->|]; [done|]. pose proof (keys_lt (used n) m k Hs). lia.
  - destruct (IH (m + 1) r) as (x & -> & Hx & He); try lia; [|done|exists x; split; [done|]; split; [lia|exact He]].
    intros k Hk. destruct (Z.eq_dec k m) as [->|]; [done|]. pose proof (keys_lt (used n) k m Hs). lia.
Qed.

(** The slot that is found, and those around it. *)
Record found_slot (n : ext_node) (block k : Z) (l1 : list ext_slot) (s : ext_slot) (l2 : list ext_slot) : Prop := {
  fs_used : used n = l1 ++ s :: l2;
  fs_num : k = Z.of_nat (length l1);
  fs_at : slot_at n k = Ok s;
  fs_le : l1 <> [] -> sw0 s <= block;
  fs_gt : Forall (fun s => block < sw0 s) l2
}.
Lemma search_found n block : slots_ok n -> keys_up (used n) -> used n <> [] ->
  exists x, binsearch_loop (Z.to_nat (entries n)) n block 1 (entries n - 1) = Ok x /\ exists l1 s l2, found_slot n block (x - 1) l1 s l2.
Proof.
  intros Hn Hs Hne. pose proof (used_length n Hn) as Hlen. assert (0 < entries n) by (destruct (used n); [done|cbn in Hlen; lia]).
  destruct (binsearch_loop_spec n block (Z.to_nat (entries n)) 1 (entries n - 1) Hn Hs) as (x & E & Hx & Ha & Hb); [lia..|]. exists x. split; [done|].
  destruct (slot_used n (x - 1) Hn) as (s & Hat & Hu); [lia|]. exists (take (Z.to_nat (x - 1)) (used n)), s, (drop (S (Z.to_nat (x - 1))) (used n)).
  split; [by rewrite take_drop_middle|rewrite length_take; lia|done| |].
  - intros Hne1. assert (sw0 s = key_at (used n) (x - 1)) as -> by (unfold key_at; by rewrite Hu). apply Ha.
    destruct (Z.eq_dec x 1) as [->|]; [by cbn in Hne1|lia].
  - apply Forall_lookup. intros j y Hy. rewrite lookup_drop in Hy. apply lookup_lt_Some in Hy as Hj.
    specialize (Hb (x + Z.of_nat j)). unfold key_at in Hb. replace (Z.to_nat (x + Z.of_nat j)) with (S (Z.to_nat (x - 1)) + j)%nat in Hb by lia.
    rewrite Hy in Hb. cbn in Hb. apply Hb. lia.
Qed.

Lemma children_keys sub lo l hi : children_ok sub lo l hi -> keys_up l /\ Forall (fun s => lo <= sw0 s < hi) l.
Proof.
  revert lo. induction l as [|s l IH]; intros lo; cbn; [split; constructor|]. intros (? & Hlt & _ & (Hs & Hf)%IH).
  assert (next_key l hi <= hi) by (destruct l as [|s' l']; cbn in *; [lia|apply Forall_cons in Hf as [? _]; lia]). split; constructor; [done| |lia|].
  - eapply Forall_impl; [exact Hf|]. cbn. intros; lia.
  - eapply Forall_impl; [exact Hf|]. cbn. intros; lia.
Qed.
Lemma leaf_keys lo l hi : exts_ok lo (slot_extent <$> l) hi -> keys_up l.
Proof.
  revert lo. induction l as [|s l IH]; intros lo; cbn [fmap list_fmap exts_ok]; [constructor|]. intros (_ & Hl & _ & _ & H). constructor; [by eapply IH|].
  apply Forall_forall. intros y Hy. destruct (exts_ok_elem _ _ _ (slot_extent y) H) as (? & _); [by apply list_elem_of_fmap_2|]. cbn in *. lia.
Qed.

(** ** What a tree in order holds *)

Lemma children_split sub lo p s q hi : children_ok sub lo (p ++ s :: q) hi ->
  children_ok sub lo p (sw0 s) /\ lo <= sw0 s /\ sw0 s < next_key q hi /\ sub (child_of s) (sw0 s) (next_key q hi) /\ children_ok sub (next_key q hi) q hi.
Proof.
  revert lo. induction p as [|a p IH]; intros lo; cbn [app children_ok]; [intros (? & ? & ? & ?); done|].
  intros (? & Hlt & Hsub & (? & ? & ? & ? & ?)%IH).
  assert (next_key (p ++ s :: q) hi = next_key p (sw0 s)) as E by (by destruct p). rewrite E in *. split_and!; try done. lia.
Qed.
Lemma children_exts (sub : Z -> Z -> Z -> Prop) (f : ext_slot -> list ext4_extent) lo l hi :
  (forall s lo hi, sub (child_of s) lo hi -> exts_ok lo (f s) hi) -> lo <= hi -> children_ok sub lo l hi -> exts_ok lo (l ≫= f) hi.
Proof.
  intros Hf. revert lo. induction l as [|s l IH]; intros lo Hle; [done|]. cbn [children_ok]. intros (? & ? & Hsub & Hc).
  change ((s :: l) ≫= f) with (f s ++ (l ≫= f)). apply exts_ok_app. exists (next_key l hi). split; [eapply exts_ok_weaken; [by apply Hf|lia|lia]|].
  apply IH; [|done]. destruct l as [|s' l']; cbn; [lia|]. cbn in Hc. destruct (children_keys sub (sw0 s') (s' :: l') hi Hc) as [_ [? _]%Forall_cons]. lia.
Qed.

Section in_order.
Variable disk : Z -> ext_node.

Lemma node_slots d n lo hi : node_ok disk d n lo hi -> slots_ok n.
Proof. destruct d; by intros [? _]. Qed.
Lemma node_keys d n lo hi : node_ok disk d n lo hi -> keys_up (used n).
Proof. destruct d; cbn; [intros [_ ?]; by eapply leaf_keys|intros (_ & _ & Hc)]. by apply children_keys in Hc as [? _]. Qed.
Lemma node_exts d n lo hi : node_ok disk d n lo hi -> exts_ok lo (tree_exts disk d n) hi.
Proof.
  revert n lo hi. induction d as [|d IH]; intros n lo hi; cbn [node_ok tree_exts]; [by intros [_ ?]|]. intros (_ & Hne & Hc).
  eapply children_exts; [|by (destruct (used n); [done|destruct (children_keys _ _ _ _ Hc) as [_ [? _]%Forall_cons]; lia])|exact Hc].
  cbn. intros s lo' hi' [_ ?]. by apply IH.
Qed.
Lemma node_first d n lo hi s l : node_ok disk d n lo hi -> used n = s :: l -> exists e l', tree_exts disk d n = e :: l' /\ ee_block e = sw0 s.
Proof.
  revert n lo hi s l. induction d as [|d IH]; intros n lo hi s l; cbn [node_ok tree_exts]; intros H E; rewrite E in *; [by eexists _, _|].
  destruct H as (_ & _ & Hc). cbn [children_ok] in Hc. destruct Hc as (_ & _ & ((s' & l' & Eu & Es) & Hn) & _).
  destruct (IH _ _ _ _ _ Hn Eu) as (e & l1 & E1 & Ee). change ((s :: l) ≫= ?f) with (f s ++ (l ≫= f)). cbv beta. rewrite E1. eexists _, _. split; [done|]. congruence.
Qed.
(** The first extents of the children that follow. *)
Lemma rest_first d lo l hi : children_ok (fun b lo hi => starts_at (disk b) lo /\ node_ok disk d (disk b) lo hi) lo l hi ->
  match l with [] => True | s :: _ => exists e l', l ≫= (fun s => tree_exts disk d (disk (child_of s))) = e :: l' /\ ee_block e = sw0 s end.
Proof.
  destruct l as [|s l]; [done|]. cbn [children_ok]. intros (_ & _ & ((s' & l' & Eu & Es) & Hn) & _).
  destruct (node_first _ _ _ _ _ _ Hn Eu) as (e & l1 & E1 & Ee). change ((s :: l) ≫= ?f) with (f s ++ (l ≫= f)). cbv beta. rewrite E1. eexists _, _. split; [done|]. congruence.
Qed.
End in_order.

(** The extents [exts] of a part of the tree of [i], for the blocks of
    [[lo, hi)]. *)
Definition part (i : ext_inode) (lo : Z) (exts : list ext4_extent) (hi : Z) : Prop :=
  exists l1 l2, inode_exts i = l1 ++ exts ++ l2 /\ 0 <= lo /\ hi <= EXT_MAX_BLOCKS /\ exts_ok 0 l1 lo /\ exts_ok hi l2 EXT_MAX_BLOCKS.

Lemma part_map i lo exts hi b : part i lo exts hi -> exts_ok lo exts hi -> lo <= b < hi -> file_map i b = disk_map exts b.
Proof.
  intros (l1 & l2 & E & _ & _ & H1 & H2) Hx Hb. unfold file_map. rewrite E, !disk_map_app, (disk_map_out 0 l1 lo) by (done || lia).
  rewrite (disk_map_out hi l2 EXT_MAX_BLOCKS) by (done || lia). rewrite (left_id_L None (∪)). apply (right_id_L None (∪)).
Qed.
Lemma part_same i i' lo exts hi : same_tree i i' -> part i lo exts hi -> part i' lo exts hi.
Proof. intros H. unfold part. by destruct (same_tree_map i i' H) as (_ & -> & _). Qed.
Lemma part_root i : inode_ok i -> part i 0 (inode_exts i) EXT_MAX_BLOCKS.
Proof. intros _. exists [], []. rewrite app_nil_r. split_and!; done. Qed.
Lemma part_child i d n lo hi p s q : node_ok (i_disk i) (S d) n lo hi -> used n = p ++ s :: q -> part i lo (tree_exts (i_disk i) (S d) n) hi ->
  part i (sw0 s) (tree_exts (i_disk i) d (i_disk i (child_of s))) (next_key q hi).
Proof.
  intros (_ & _ & Hc) E (l1 & l2 & El & H0 & Hm & H1 & H2). rewrite E in Hc. cbn [tree_exts] in El. rewrite E, bind_app in El.
  set (f := fun s => _) in El. change ((s :: q) ≫= f) with (f s ++ (q ≫= f)) in El.
  apply children_split in Hc as (Hp & Hlo & Hlt & _ & Hq). exists (l1 ++ (p ≫= f)), ((q ≫= f) ++ l2).
  assert (next_key q hi <= hi) as Hnk by (destruct q as [|s' q']; cbn; [done|]; destruct (children_keys _ _ _ _ Hq) as [_ [? _]%Forall_cons]; lia).
  set (sub := fun b lo hi => _) in Hp, Hq.
  assert (forall s lo hi, sub (child_of s) lo hi -> exts_ok lo (f s) hi) as Hf by (intros ? ? ? [_ ?]; by apply node_exts).
  split_and!; [rewrite El, <- !app_assoc; done|lia|lia| |].
  - apply exts_ok_app. exists lo. split; [done|]. apply (children_exts sub); [exact Hf|lia|exact Hp].
  - apply exts_ok_app. exists hi. split; [|done]. apply (children_exts sub); [exact Hf|lia|exact Hq].
Qed.

(** ** Reading a node *)

Lemma check_keep sb chk i i' n d l : i_ino i' = i_ino i -> i_data i' = i_data i -> __ext4_ext_check sb chk i' n d l = __ext4_ext_check sb chk i n d l.
Proof.
  intros Hi Hd. assert (ext_depth i' = ext_depth i) as He by (unfold ext_depth; by rewrite Hd).
  assert (forall c l, valid_leaf sb i' c l = valid_leaf sb i c l) as H1.
  { intros c l0. revert c. induction l0 as [|x l0 IH]; intros c; cbn; [done|]. by rewrite IH; unfold ext4_valid_extent; rewrite Hi. }
  assert (forall c l, valid_index sb i' c l = valid_index sb i c l) as H2.
  { intros c l0. revert c. induction l0 as [|x l0 IH]; intros c; cbn; [done|]. by rewrite IH; unfold ext4_valid_extent_idx; rewrite Hi. }
  unfold __ext4_ext_check, ext4_valid_extent_entries, ext4_ext_max_entries. rewrite He. destruct (used n); [done|]. by rewrite H1, H2.
Qed.
Lemma check_same sb chk i i' n d l : same_tree i i' -> __ext4_ext_check sb chk i' n d l = __ext4_ext_check sb chk i n d l.
Proof. intros ((Hi & _) & Hd & _). by apply check_keep. Qed.
Lemma check_neg sb chk i n d l : __ext4_ext_check sb chk i n d l <> 0 -> __ext4_ext_check sb chk i n d l < 0.
Proof. unfold __ext4_ext_check, EFSCORRUPTED, EFSBADCRC. repeat case_match; lia. Qed.

(** What is cached is well formed and so on the disk. *)
Definition good (i : ext_inode) : Prop := es_ok (i_es i) /\ coherent (file_map i) (i_es i).

Section walk.
Context `{Hrb : RbTree} {Hrbok : RbTreeOk}.
Variable sb : ext_sb.
Variable ext4_chksum : ext4_extent_header -> list ext_slot -> Z.
Hypothesis Hreplay : s_fc_replay (xs_es sb) = false.
Variable env : ext_env.

Lemma good_verified i b : good i -> good (set_verified i b).
Proof. done. Qed.

Lemma cache_extents_ok i n lo hi : good i -> node_ok (i_disk i) 0 n lo hi -> part i lo (tree_exts (i_disk i) 0 n) hi ->
  exists i', ext4_cache_extents sb (xe_mem env) i n = Ok i' /\ good i' /\ same_tree i i'.
Proof.
  intros [He Hc] Hn Hp. pose proof (node_exts _ _ _ _ _ Hn) as Hx. cbn [tree_exts] in *. unfold ext4_cache_extents. rewrite cache_loop_list.
  pose proof Hp as (_ & _ & _ & H0 & Hhi & _).
  destruct (cache_list_coherent (file_map i) (xs_es sb) (xe_mem env) (scorw_ext_precache_depth0 0 (slot_extent <$> used n)) (i_es i)) as (e & -> & ? & ? & ?); try done.
  { apply (cached_true _ lo _ hi); try done; [by left|]. intros b Hb. by apply (part_map i lo _ hi). }
  cbn [mbind outcome_bind]. by exists (set_es i e).
Qed.

(** The block of an index can be read, and passes the check. *)
Definition node_readable (i : ext_inode) (s : ext_slot) (d : nat) : Prop :=
  0 <= xe_read env (child_of s) /\ __ext4_ext_check sb ext4_chksum i (i_disk i (child_of s)) (Z.of_nat d) (sw0 s) = 0.
Fixpoint readable (i : ext_inode) (d : nat) (n : ext_node) : Prop :=
  match d with O => True | S d' => Forall (fun s => node_readable i s d' /\ readable i d' (i_disk i (child_of s))) (used n) end.

Lemma readable_keep i i' d n : i_ino i' = i_ino i -> i_data i' = i_data i -> i_disk i' = i_disk i -> readable i d n -> readable i' d n.
Proof.
  intros Hi Hd Hk. revert n. induction d as [|d IH]; intros n; cbn; [done|]. intros H. eapply Forall_impl; [exact H|]. intros s [[? Hc] ?].
  unfold node_readable. rewrite Hk, (check_keep sb ext4_chksum i i') by done. auto.
Qed.
Lemma readable_same i i' d n : same_tree i i' -> readable i d n -> readable i' d n.
Proof. intros ((Hi & _) & Hd & Hk). by apply readable_keep. Qed.

Lemma read_ok i s d hi flags : good i -> node_ok (i_disk i) d (i_disk i (child_of s)) (sw0 s) hi ->
  part i (sw0 s) (tree_exts (i_disk i) d (i_disk i (child_of s))) hi ->
  exists r i', read_extent_tree_block sb ext4_chksum env i (slot_idx s) (Z.of_nat d) flags = Ok (r, i') /\ good i' /\ same_tree i i' /\
    (r = inr (child_of s) \/ exists err, r = inl err /\ err < 0 /\ ~ node_readable i s d).
Proof.
  intros Hg Hn Hp. unfold read_extent_tree_block. fold (child_of s). destruct (Z.ltb_spec (xe_read env (child_of s)) 0).
  { eexists _, i. split_and!; try done. right. eexists. split_and!; [done|done|]. intros [? _]. lia. }
  destruct (_ && _); [eexists _, i; split_and!; try done; by left|]. change (ei_block (slot_idx s)) with (sw0 s).
  destruct (Z.eqb_spec (__ext4_ext_check sb ext4_chksum i (i_disk i (child_of s)) (Z.of_nat d) (sw0 s)) 0) as [Hchk|Hchk]; cbn [negb].
  2:{ eexists _, i. split_and!; try done. right. eexists. split_and!; [done|by apply check_neg|]. by intros [_ ?]. }
  destruct (Z.eqb_spec (Z.of_nat d) 0) as [Hd|]; [|rewrite andb_false_r; cbn [mbind outcome_bind]; eexists _, _; split_and!; try done; by left].
  assert (d = 0%nat) as -> by lia. destruct (negb _); cbn [andb mbind outcome_bind]; [|eexists _, _; split_and!; try done; by left].
  change (i_disk (set_verified i (child_of s))) with (i_disk i).
  destruct (cache_extents_ok (set_verified i (child_of s)) (i_disk i (child_of s)) (sw0 s) hi) as (i' & -> & ? & ?); [done..|].
  eexists _, i'. split_and!; try done. by left.
Qed.

(** ** The descent *)

(** [next_up] with another default. *)
Fixpoint next_up_from (i : ext_inode) (ups : list ext4_ext_path) (dflt : outcome Z) : outcome Z :=
  match ups with
  | [] => dflt
  | p :: ups =>
      match p_idx p with
      | Some k => if negb (k =? entries (p_hdr i p) - 1) then s ← slot_at (p_hdr i p) (k + 1); Ok (sw0 s) else next_up_from i ups dflt
      | None => Bug
      end
  end.
Definition next_from (i : ext_inode) (path : list ext4_ext_path) (dflt : outcome Z) : outcome Z :=
  match reverse path with
  | [] => Bug
  | p :: ups =>
      match p_ext p with
      | Some k => if negb (k =? entries (p_hdr i p) - 1) then s ← slot_at (p_hdr i p) (k + 1); Ok (sw0 s) else next_up_from i ups dflt
      | None => next_up_from i ups dflt
      end
  end.
Lemma next_up_default i ups : next_up i ups = next_up_from i ups (Ok EXT_MAX_BLOCKS).
Proof. induction ups as [|p ups IH]; cbn; [done|]. by rewrite IH. Qed.
Lemma next_default i path : ext4_ext_next_allocated_block i path = next_from i path (Ok EXT_MAX_BLOCKS).
Proof. unfold ext4_ext_next_allocated_block, next_from. destruct (reverse path); [done|]. by rewrite next_up_default. Qed.
Lemma next_up_snoc i ups p dflt : next_up_from i (ups ++ [p]) dflt = next_up_from i ups (next_up_from i [p] dflt).
Proof. induction ups as [|q ups IH]; [done|]. cbn [app next_up_from]. by rewrite IH. Qed.
Lemma next_from_cons i p path dflt : path <> [] -> next_from i (p :: path) dflt = next_from i path (next_up_from i [p] dflt).
Proof.
  intros Hne. unfold next_from. rewrite reverse_cons. destruct (reverse path) as [|q ups] eqn:E; [|cbn [app]; by rewrite next_up_snoc].
  apply (f_equal reverse) in E. rewrite reverse_involutive in E. done.
Qed.
Lemma next_from_same i i' path dflt : same_tree i i' -> next_from i' path dflt = next_from i path dflt.
Proof.
  intros (_ & Hd & Hk). assert (forall p, p_hdr i' p = p_hdr i p) as Hp by (intros p; unfold p_hdr, node_of; by rewrite Hd, Hk).
  assert (forall ups, next_up_from i' ups dflt = next_up_from i ups dflt) as Hu by (induction ups as [|p ups IH]; cbn; [done|]; by rewrite Hp, IH).
  unfold next_from. destruct (reverse path) as [|p ups]; [done|]. by rewrite Hp, Hu.
Qed.

(** A path to where [block] is, or would be, among [exts]: the extent before it, or
    the first; the extents behind are all after [block], and the first of them is
    what the path tells as the next one. *)
Inductive path_to (i : ext_inode) (exts : list ext4_extent) (block : Z) (path : list ext4_ext_path) : option (Z * ext4_extent) -> Prop :=
| path_none leaf : path = [leaf] -> p_ext leaf = None -> exts = [] -> path_to i exts block path None
| path_some ups leaf k s l1 l2 :
    path = ups ++ [leaf] -> p_ext leaf = Some k -> slot_at (p_hdr i leaf) k = Ok s -> exts = l1 ++ slot_extent s :: l2 ->
    (l1 <> [] -> sw0 s <= block) -> Forall (fun e => block < ee_block e) l2 ->
    (forall dflt, next_from i path dflt = match l2 with e :: _ => Ok (ee_block e) | [] => dflt end) ->
    path_to i exts block path (Some (k, slot_extent s)).

Lemma path_to_same i i' exts block path r : same_tree i i' -> path_to i' exts block path r -> path_to i exts block path r.
Proof.
  intros Hs [leaf ? ? ?|ups leaf k s l1 l2 ? ? Hat ? ? ? Hn]; [by eapply path_none|]. eapply path_some; try done.
  - destruct Hs as (_ & Hd & Hk). unfold p_hdr, node_of in *. by rewrite Hd, Hk in Hat.
  - intros dflt. by rewrite <- Hn, (next_from_same i i').
Qed.

Lemma leaf_walk i bh block flags lo hi : node_ok (i_disk i) 0 (node_of i bh) lo hi ->
  exists path r, find_walk sb ext4_chksum env block flags 0 bh i = Ok (inr path, i) /\ length path = 1%nat /\
    path_to i (tree_exts (i_disk i) 0 (node_of i bh)) block path r /\ from_option p_depth 0 (head path) = 0.
Proof.
  intros Hn. pose proof (node_slots _ _ _ _ _ Hn) as Hs. pose proof (used_length _ Hs) as Hl. cbn [find_walk tree_exts]. set (n := node_of i bh) in *.
  unfold ext4_ext_binsearch. destruct (Z.eqb_spec (entries n) 0) as [E0|E0].
  - cbn [mbind outcome_bind]. eexists _, None. split_and!; [done..| |done]. eapply path_none; [done..|]. destruct (used n); [done|cbn in Hl; lia].
  - destruct (search_found n block Hs) as (x & -> & l1 & s & l2 & [Eu Ek Hat Hle Hgt]); [by eapply node_keys|intros E; rewrite E in Hl; destruct Hs; cbn in Hl; lia|].
    cbn [mbind outcome_bind]. rewrite Hat. cbn [mbind outcome_bind]. eexists _, (Some (x - 1, slot_extent s)). split_and!; [done..| |done].
    eapply (path_some _ _ _ _ [] _ _ _ (slot_extent <$> l1) (slot_extent <$> l2)); [done..|by rewrite Eu, fmap_app|by intros H; apply Hle; intros ->| |].
    + apply Forall_fmap. eapply Forall_impl; [exact Hgt|done].
    + intros dflt. unfold next_from. cbn. unfold p_hdr. cbn. fold n. rewrite (used_entries n l1 s l2 Hs Eu). rewrite Ek. destruct l2 as [|s2 l2].
      * destruct (Z.eqb_spec (Z.of_nat (length l1)) (Z.of_nat (length l1) + 1 + Z.of_nat (length (@nil ext_slot)) - 1)); [done|cbn in *; lia].
      * destruct (Z.eqb_spec (Z.of_nat (length l1)) (Z.of_nat (length l1) + 1 + Z.of_nat (length (s2 :: l2)) - 1)); [cbn in *; lia|].
        cbn [negb]. rewrite (app_assoc l1 [s] (s2 :: l2)) in Eu || (replace (l1 ++ s :: s2 :: l2) with ((l1 ++ [s]) ++ s2 :: l2) in Eu by (by rewrite <- app_assoc)).
        pose proof (used_slot n (l1 ++ [s]) s2 l2 Hs Eu) as Ha. rewrite length_app in Ha. cbn [length] in Ha. rewrite Nat2Z.inj_add in Ha. change (Z.of_nat 1) with 1 in Ha. by rewrite Ha.
Qed.

(** Through an index node: what the path tells is put together from the child's. *)
Lemma index_path i d n bh lo hi block k l1 s l2 path r pb dp :
  node_of i bh = n -> node_ok (i_disk i) (S d) n lo hi -> found_slot n block k l1 s l2 -> path <> [] ->
  path_to i (tree_exts (i_disk i) d (i_disk i (child_of s))) block path r ->
  path_to i (tree_exts (i_disk i) (S d) n) block (ExtPath pb dp None (Some k) bh :: path) r.
Proof.
  intros Hbh Hn [Eu Ek Hat Hle Hgt] Hne Hpath. pose proof (node_slots _ _ _ _ _ Hn) as Hs. pose proof Hn as (_ & _ & Hc). rewrite Eu in Hc.
  apply children_split in Hc as (_ & _ & Hlt & [Hst Hnc] & Hq). destruct Hst as (s0 & l0 & Eu0 & Es0).
  destruct (node_first _ _ _ _ _ _ _ Hnc Eu0) as (e0 & t0 & Et0 & Ee0).
  destruct Hpath as [leaf _ _ Hnil|ups leaf kk ss a1 a2 -> Hpe Hsa Hex Hle1 Hgt1 Hnext]; [congruence|].
  cbn [tree_exts]. rewrite Eu, bind_app. set (f := fun s => tree_exts _ _ _). change ((s :: l2) ≫= f) with (f s ++ (l2 ≫= f)). unfold f at 2. rewrite Hex.
  eapply (path_some _ _ _ _ (ExtPath pb dp None (Some k) bh :: ups) leaf kk ss ((l1 ≫= f) ++ a1) (a2 ++ (l2 ≫= f))); try done.
  - by rewrite <- !app_assoc.
  - intros Hne'. destruct a1 as [|x a1]; [|by apply Hle1]. rewrite Hex in Et0. cbn in Et0. injection Et0 as Ee _. rewrite <- Ee in Ee0. cbn in Ee0. rewrite Ee0, Es0.
    apply Hle. intros ->. by apply Hne'.
  - apply Forall_app; split; [done|]. destruct l2 as [|s2 l2]; [constructor|]. apply Forall_forall. intros x Hx.
    assert (exts_ok (next_key (s2 :: l2) hi) ((s2 :: l2) ≫= f) hi) as Hok.
    { destruct (children_keys _ _ _ _ Hq) as [_ [Hk _]%Forall_cons]. eapply (children_exts (fun b lo hi => starts_at (i_disk i b) lo /\ node_ok (i_disk i) d (i_disk i b) lo hi)); [|lia|exact Hq].
      intros ? ? ? [_ ?]. by apply node_exts. }
    destruct (exts_ok_elem _ _ _ x Hok Hx) as (Hx1 & _). cbn [next_key] in Hx1. apply Forall_cons in Hgt as [? _]. lia.
  - intros dflt. change (?p :: ups ++ [leaf]) with (p :: (ups ++ [leaf])). rewrite next_from_cons by (by destruct ups). rewrite Hnext. destruct a2 as [|e a2]; [|done].
    cbn [app next_up_from p_idx]. unfold p_hdr. cbn [p_bh]. rewrite Hbh, (used_entries n l1 s l2 Hs Eu), Ek. pose proof (rest_first _ _ _ _ _ Hq) as Hrf. destruct l2 as [|s2 l2].
    + destruct (Z.eqb_spec (Z.of_nat (length l1)) (Z.of_nat (length l1) + 1 + Z.of_nat (length (@nil ext_slot)) - 1)); [done|cbn in *; lia].
    + destruct Hrf as (e & t & Et & Ee). fold f in Et. rewrite Et, Ee.
      destruct (Z.eqb_spec (Z.of_nat (length l1)) (Z.of_nat (length l1) + 1 + Z.of_nat (length (s2 :: l2)) - 1)); [cbn in *; lia|].
      cbn [negb]. replace (l1 ++ s :: s2 :: l2) with ((l1 ++ [s]) ++ s2 :: l2) in Eu by (by rewrite <- app_assoc).
      pose proof (used_slot n (l1 ++ [s]) s2 l2 Hs Eu) as Ha. rewrite length_app in Ha. cbn [length] in Ha. rewrite Nat2Z.inj_add in Ha. change (Z.of_nat 1) with 1 in Ha. by rewrite Ha.
Qed.

(** The result of a walk: an error only if a node could not be read. *)
Definition walk_result (i : ext_inode) (d : nat) (n : ext_node) (block : Z) (res : Z + list ext4_ext_path) : Prop :=
  match res with
  | inl err => err < 0 /\ ~ readable i d n
  | inr path => length path = S d /\ from_option p_depth 0 (head path) = Z.of_nat d /\ exists r, path_to i (tree_exts (i_disk i) d n) block path r
  end.
Lemma find_walk_ok d bh i block flags lo hi : good i -> node_ok (i_disk i) d (node_of i bh) lo hi -> part i lo (tree_exts (i_disk i) d (node_of i bh)) hi ->
  exists res i', find_walk sb ext4_chksum env block flags d bh i = Ok (res, i') /\ good i' /\ same_tree i i' /\ walk_result i d (node_of i bh) block res.
Proof.
  revert bh i lo hi. induction d as [|d IH]; intros bh i lo hi Hg Hn Hp.
  { destruct (leaf_walk i bh block flags lo hi Hn) as (path & r & -> & ? & ? & ?). eexists _, i. split; [done|]. split; [done|]. split; [done|]. split; [done|]. split; [done|]. by exists r. }
  cbn [find_walk]. remember (node_of i bh) as n eqn:En. pose proof (node_slots _ _ _ _ _ Hn) as Hs. pose proof Hn as (_ & Hne & Hc).
  unfold ext4_ext_binsearch_idx. destruct (search_found n block Hs) as (x & -> & l1 & s & l2 & Hf); [by eapply node_keys|done|].
  cbn [mbind outcome_bind]. rewrite (fs_at _ _ _ _ _ _ Hf). cbn [mbind outcome_bind]. pose proof (fs_used _ _ _ _ _ _ Hf) as Eu. rewrite Eu in Hc.
  apply children_split in Hc as (_ & _ & _ & [_ Hnc] & _). pose proof (part_child i d n lo hi l1 s l2 Hn Eu Hp) as Hpc.
  destruct (read_ok i s d _ flags Hg Hnc Hpc) as (r & i1 & -> & Hg1 & Hs1 & Hr). cbn [mbind outcome_bind].
  destruct Hr as [->|(err & -> & Herr & Hnr)].
  2:{ eexists _, i1. split; [done|]. split; [done|]. split; [done|]. split; [done|]. cbn. rewrite Eu. intros Hrd. apply Forall_app in Hrd as [_ [[? _] _]%Forall_cons]. done. }
  pose proof Hs1 as (_ & _ & Hk1). destruct (IH (Some (child_of s)) i1 (sw0 s) (next_key l2 hi)) as (res & i2 & -> & Hg2 & Hs2 & Hres); [done|cbn; by rewrite Hk1|cbn; rewrite Hk1; by apply (part_same i)|].
  cbn [mbind outcome_bind fst snd]. eexists _, i2. split_and!; [done|done|by eapply same_tree_trans|]. cbn [node_of] in Hres. rewrite Hk1 in Hres. destruct res as [err|path]; cbn [walk_result] in *.
  - destruct Hres as [? Hnr]. split; [done|]. cbn. rewrite Eu. intros Hrd. apply Forall_app in Hrd as [_ [[_ ?] _]%Forall_cons]. apply Hnr. by apply (readable_same i).
  - destruct Hres as (Hlen & _ & r & Hpath). rewrite Hk1 in Hpath. cbn [length]. split_and!; [by rewrite Hlen|done|]. exists r.
    eapply index_path; try done; [by destruct path|]. by apply (path_to_same i i1).
Qed.

(** [ext4_find_extent] finds where a block is, or would be. *)
Lemma find_extent_ok i block maxdepth flags : good i -> inode_ok i ->
  exists res i', ext4_find_extent sb ext4_chksum env i block maxdepth flags = Ok (res, i') /\ good i' /\ same_tree i i' /\
    match res with
    | inl err => err < 0 /\ (xe_alloc env = true -> ~ readable i (depth_of i) (i_data i))
    | inr path => length path = S (depth_of i) /\ from_option p_depth 0 (head path) = ext_depth i /\ exists r, path_to i (inode_exts i) block path r
    end.
Proof.
  intros Hg Hi. pose proof Hi as [Hd Hn]. unfold ext4_find_extent. destruct (Z.ltb_spec EXT4_MAX_EXTENT_DEPTH (ext_depth i)); [lia|].
  destruct (_ && negb (xe_alloc env)) eqn:Ea.
  { eexists _, i. split; [done|]. split; [done|]. split; [done|]. split; [done|]. intros Hy. rewrite Hy, andb_false_r in Ea. done. }
  assert (exists i1, (if negb (has_flag flags EXT4_EX_NOCACHE) && (ext_depth i =? 0) then ext4_cache_extents sb (xe_mem env) i (i_data i) else Ok i) = Ok i1 /\ good i1 /\ same_tree i i1) as (i1 & -> & Hg1 & Hs1).
  { destruct (negb (has_flag flags EXT4_EX_NOCACHE) && (ext_depth i =? 0)) eqn:E; [|by exists i]. apply andb_true_iff in E as [_ E%Z.eqb_eq]. unfold depth_of in Hn. rewrite E in Hn.
    apply (cache_extents_ok i (i_data i) 0 EXT_MAX_BLOCKS); [done..|]. pose proof (part_root i Hi) as Hp. unfold inode_exts, depth_of in Hp. by rewrite E in Hp. }
  cbn [mbind outcome_bind]. fold (depth_of i). pose proof Hs1 as (_ & Hd1 & Hk1).
  destruct (find_walk_ok (depth_of i) None i1 block flags 0 EXT_MAX_BLOCKS) as (res & i2 & -> & Hg2 & Hs2 & Hres); [done|cbn; by rewrite Hd1, Hk1|cbn; rewrite Hd1, Hk1; apply (part_same i); [done|by apply part_root]|].
  eexists _, i2. split_and!; [done|done|by eapply same_tree_trans|]. cbn [node_of] in Hres. rewrite Hd1 in Hres. destruct res as [err|path]; cbn [walk_result] in Hres.
  - destruct Hres as [? Hnr]. split; [done|]. intros _ Hr. apply Hnr. by apply (readable_same i).
  - destruct Hres as (? & Hh & r & Hpath). split_and!; [done|unfold depth_of in Hh; rewrite Z2Nat.id in Hh by lia; done|]. exists r.
    apply (path_to_same i i1); [done|]. rewrite Hk1 in Hpath. done.
Qed.
End walk.

(** ** A tree of height one

    Two leaves: blocks 0 to 2 are written, 5 and 6 unwritten, 10 to 13 written. *)
Definition pad (n : nat) (l : list ext_slot) : list ext_slot := l ++ replicate (n - length l) (ExtSlot 0 0 0).
Definition demo_node (depth max : Z) (l : list ext_slot) : ext_node :=
  ExtNode (ExtentHeader EXT4_EXT_MAGIC (Z.of_nat (length l)) max depth 0) (pad (Z.to_nat max) l) 0.
Definition demo_leaf1 : ext_node := demo_node 0 340 [extent_slot (Ext4Extent 0 3 0 1000); extent_slot (Ext4Extent 5 32770 0 1100)].
Definition demo_leaf2 : ext_node := demo_node 0 340 [extent_slot (Ext4Extent 10 4 1 1200)].
Definition demo_root : ext_node := demo_node 1 4 [idx_slot (ExtentIdx 0 300 0 0); idx_slot (ExtentIdx 10 301 0 0)].
Definition demo_blocks (b : Z) : ext_node := if b =? 300 then demo_leaf1 else if b =? 301 then demo_leaf2 else demo_node 0 340 [].
Definition demo_inode : ext_inode := ExtInode 12 demo_root ext4_es_init_tree demo_blocks ∅ false.
Definition demo_ext_sb : ext_sb := ExtSb 4096 true (ZoneSb 0 (2 ^ 40) None) demo_sb.
Definition demo_env : ext_env := ExtEnv (fun _ => true) true (fun _ => 0).
Definition demo_chksum : ext4_extent_header -> list ext_slot -> Z := fun _ _ => 0.

Lemma demo_inode_ok : inode_ok demo_inode.
Proof.
  split; [by compute|]. assert (slots_ok demo_leaf1 /\ slots_ok demo_leaf2 /\ slots_ok demo_root) as (H1 & H2 & H3).
  { split_and!; apply (bool_decide_unpack _); by vm_compute. }
  assert (forall n b lo hi, demo_blocks b = n -> slots_ok n -> starts_at n lo -> exts_ok lo (slot_extent <$> used n) hi -> starts_at (demo_blocks b) lo /\ node_ok demo_blocks 0 (demo_blocks b) lo hi) as Hl.
  { intros n b lo hi -> ? ? ?. done. }
  split; [exact H3|]. split; [by vm_compute|]. change (used (i_data demo_inode)) with [idx_slot (ExtentIdx 0 300 0 0); idx_slot (ExtentIdx 10 301 0 0)].
  cbn [children_ok]. split; [by vm_compute|]. split; [by vm_compute|]. split; [|split; [by vm_compute|split; [by vm_compute|split; [|exact I]]]].
  - apply (Hl demo_leaf1); [done|exact H1|by eexists _, _|]. vm_compute. intuition congruence.
  - apply (Hl demo_leaf2); [done|exact H2|by eexists _, _|]. vm_compute. intuition congruence.
Qed.
Lemma demo_tree_readable : readable demo_ext_sb demo_chksum demo_env demo_inode (depth_of demo_inode) (i_data demo_inode).
Proof. repeat constructor; by vm_compute. Qed.

(** * Properties *)

(** C21: Looking for a block in the tree on the disk: when the nodes can be read,
    [ext4_find_extent] returns a path from the root to a leaf, whatever the height,
    and the slot of the leaf it goes through is the last extent of the file that
    starts at the block or before it (the first extent if all start after it).
    What [ext4_ext_next_allocated_block] tells of the path is where the next extent
    of the file starts, in whatever leaf that is. *)
Theorem find_extent_exact `{RbTreeOk} (sb : ext_sb) (chk : ext4_extent_header -> list ext_slot -> Z) (env : ext_env) (i : ext_inode) (block : Z) (maxdepth : option Z) (flags : Z) :
  s_fc_replay (xs_es sb) = false -> good i -> inode_ok i -> xe_alloc env = true -> readable sb chk env i (depth_of i) (i_data i) ->
  exists path i', ext4_find_extent sb chk env i block maxdepth flags = Ok (inr path, i') /\ good i' /\ same_tree i i' /\ length path = S (depth_of i) /\
    (inode_exts i = [] \/
     exists ups leaf k s l1 l2, path = ups ++ [leaf] /\ p_ext leaf = Some k /\ slot_at (p_hdr i' leaf) k = Ok s /\
       inode_exts i = l1 ++ slot_extent s :: l2 /\ (l1 <> [] -> ee_block (slot_extent s) <= block) /\ Forall (fun e => block < ee_block e) l2 /\
       ext4_ext_next_allocated_block i' path = Ok (match l2 with e :: _ => ee_block e | [] => EXT_MAX_BLOCKS end)).
Proof.
  intros Hr Hg Hi Ha Hrd. destruct (find_extent_ok sb chk Hr env i block maxdepth flags Hg Hi) as (res & i' & E & Hg' & Hs & Hres).
  destruct res as [err|path]; [by destruct Hres as [_ []]|]. destruct Hres as (Hlen & _ & r & Hpath). exists path, i'. do 4 (split; [done|]).
  destruct Hpath as [leaf _ _ He|ups leaf k s l1 l2 Ep Hk Hat Hx Hle Hgt Hn]; [by left|]. right. exists ups, leaf, k, s, l1, l2.
  split; [done|]. split; [done|]. split; [by destruct Hs as (_ & Hd & Hdk); unfold p_hdr, node_of in *; rewrite Hd, Hdk|]. do 3 (split; [done|]).
  rewrite next_default, (next_from_same i i'), Hn by done. by destruct l2.
Qed.

Lemma find_extent_exact_witness :
  exists path i', @ext4_find_extent list_shape demo_ext_sb demo_chksum demo_env demo_inode 8 None 0 = Ok (inr path, i') /\ good i' /\ same_tree demo_inode i' /\ length path = S (depth_of demo_inode) /\
    (inode_exts demo_inode = [] \/
     exists ups leaf k s l1 l2, path = ups ++ [leaf] /\ p_ext leaf = Some k /\ slot_at (p_hdr i' leaf) k = Ok s /\
       inode_exts demo_inode = l1 ++ slot_extent s :: l2 /\ (l1 <> [] -> ee_block (slot_extent s) <= 8) /\ Forall (fun e => 8 < ee_block e) l2 /\
       ext4_ext_next_allocated_block i' path = Ok (match l2 with e :: _ => ee_block e | [] => EXT_MAX_BLOCKS end)).
Proof.
  apply (@find_extent_exact list_shape list_shape_ok); [reflexivity|split; [apply init_tree_ok|intros b c E; discriminate E]|apply demo_inode_ok|reflexivity|apply demo_tree_readable].
Defined.
