(* ===== verification/ExtPrecache.v ===== *)
(** Reading all the leaves of a file ([ext4_ext_precache]): the walk over the
    index nodes ends, and what it leaves in the extent status tree; the recovery
    of a friend file over a tree of any height. *)

From S2P Require Import Prelude Pages Friend ExtStatus ExtInsert ExtOps ExtRecover SysZone ExtTree.

Section precaching.
Context `{Hrb : RbTree}.
Variable sb : ext_sb.
Variable ext4_chksum : ext4_extent_header -> list ext_slot -> Z.

(** [scorw_recover_friend_file] from the disk: a child without index nodes is
    cached by the layer, another one by [ext4_ext_precache], whose result is not
    looked at. *)
Definition recover_child (fuel : nat) (io : io_env) (env : ext_env) (i : ext_inode) (frnd : mapping) (child_copy_size : Z) : outcome (mapping * ext_inode) :=
  i ← (if ext_depth i =? 0
       then e ← precache (xs_es sb) (xe_mem env) (slot_extent <$> used (i_data i)) (i_es i); Ok (set_es i e)
       else r ← ext4_ext_precache sb ext4_chksum fuel env i; Ok r.2);
  m ← scorw_recover_friend_file io (nodes (i_es i)) frnd child_copy_size; Ok (m, i).

(** The steps of the walk below a node: one to leave every node, one to read it. *)
Fixpoint walk_cost (disk : Z -> ext_node) (d : nat) (n : ext_node) : nat :=
  match d with
  | O => 1
  | S d' => S (sum_list_with (fun s => S (walk_cost disk d' (disk (child_of s)))) (used n))
  end.
Definition inode_cost (i : ext_inode) : nat := walk_cost (i_disk i) (depth_of i) (i_data i).

(** ** What is cached of a leaf *)

Context {Hrbok : RbTreeOk}.
Hypothesis Hreplay : s_fc_replay (xs_es sb) = false.

(** Where the tree knew nothing of [[lo, hi)], it knows all the blocks with data
    afterwards; it has not changed elsewhere. *)
Definition filled (M : Z -> option (Z * Z)) (lo hi : Z) (e e' : es_info) : Prop :=
  (forall b, lo <= b < hi -> block_map (nodes e) b = None) ->
  (forall b, ~ lo <= b < hi -> block_map (nodes e') b = block_map (nodes e) b) /\
  (forall b, lo <= b < hi -> is_Some (M b) -> is_Some (block_map (nodes e') b)).

Lemma filled_nothing M lo hi e : (forall b, lo <= b < hi -> M b = None) -> filled M lo hi e e.
Proof. intros HM _. split; [done|]. intros b Hb. rewrite HM by done. by intros []. Qed.
Lemma filled_more M lo mid hi e1 e2 e3 : lo <= mid <= hi -> filled M lo mid e1 e2 -> filled M mid hi e2 e3 -> filled M lo hi e1 e3.
Proof.
  intros Hm H1 H2 Hno. destruct H1 as [Ho1 Hi1]; [intros b Hb; apply Hno; lia|].
  destruct H2 as [Ho2 Hi2]; [intros b Hb; rewrite Ho1 by lia; apply Hno; lia|]. split.
  - intros b Hb. rewrite Ho2, Ho1 by lia. done.
  - intros b Hb Hs. destruct (Z.lt_ge_cases b mid); [rewrite Ho2 by lia; apply Hi1; [lia|done]|apply Hi2; [lia|done]].
Qed.
Lemma filled_wider M lo lo' hi hi' e e' : lo' <= lo -> lo <= hi -> hi <= hi' -> (forall b, lo' <= b < hi' -> ~ lo <= b < hi -> M b = None) -> filled M lo hi e e' -> filled M lo' hi' e e'.
Proof.
  intros H1 H2 H3 HM Hf Hno. destruct Hf as [Ho Hi]; [intros b Hb; apply Hno; lia|]. split; [intros b Hb; apply Ho; lia|].
  intros b Hb Hs. destruct (decide (lo <= b < hi)); [by apply Hi|]. rewrite HM in Hs by done. by destruct Hs.
Qed.

Lemma precache_within prev lo exs hi : 0 <= lo -> hi <= EXT_MAX_BLOCKS -> exts_ok lo exs hi -> prev = 0 \/ prev = lo ->
  Forall (fun e => lo <= es_lblk e /\ es_lblk e + es_len e <= hi) (scorw_ext_precache_depth0 prev exs).
Proof.
  intros H0 Hhi. revert lo prev H0. induction exs as [|ex exs IH]; intros lo prev H0 Hex Hp; cbn [scorw_ext_precache_depth0]; [constructor|].
  destruct (exts_ok_elem _ _ _ ex Hex) as (Hlo & Hl & Hend & _); [left|]. unfold EXT_MAX_BLOCKS in Hhi.
  cbn [exts_ok] in Hex. destruct Hex as (_ & _ & _ & _ & Hex). rewrite !u32_small by lia. apply Forall_app; split; [|constructor].
  - destruct (Z.eqb_spec prev 0), (Z.eqb_spec prev (ee_block ex)); cbn [negb andb]; [constructor..|]. constructor; [|constructor]. destruct Hp as [|<-]; [done|]. cbn. lia.
  - cbn. lia.
  - eapply Forall_impl; [apply (IH (ee_block ex + ext4_ext_get_actual_len ex)); [lia|done|by right]|]. cbn. intros. lia.
Qed.

(** With memory, all of a leaf is cached. *)
Lemma leaf_filled env i n lo hi : (forall e, xe_mem env e = true) -> good i -> node_ok (i_disk i) 0 n lo hi -> part i lo (tree_exts (i_disk i) 0 n) hi ->
  forall i', ext4_cache_extents sb (xe_mem env) i n = Ok i' -> filled (file_map i) lo hi (i_es i) (i_es i').
Proof.
  intros Hmem Hg Hn Hp i' E.
  pose proof (node_exts _ _ _ _ _ Hn) as Hx. cbn [tree_exts] in *. set (exs := slot_extent <$> used n) in *. pose proof Hp as (_ & _ & _ & H0 & Hhi & _).
  intros Hno. pose proof (exts_ok_disk _ _ _ Hx Hhi) as Hd. destruct (precache_list 0 exs) as (Hok & _ & Hcov); [|done|].
  { clear - Hd H0. destruct exs as [|ex exs]; [done|]. cbn in *. destruct Hd as (? & Hd). split; [lia|done]. }
  pose proof (precache_within 0 lo exs hi H0 Hhi Hx) as Hw. specialize (Hw ltac:(by left)).
  assert (forall b, block_map (scorw_ext_precache_depth0 0 exs) b <> None -> lo <= b < hi) as Hin.
  { intros b Hb. destruct (block_map (scorw_ext_precache_depth0 0 exs) b) as [c|] eqn:Eb; [|done]. apply block_map_Some in Eb as (x & Hx1 & Hx2%in_range_spec & _).
    rewrite Forall_forall in Hw. specialize (Hw x Hx1). cbn in Hw. lia. }
  unfold ext4_cache_extents in E. rewrite cache_loop_list in E.
  destruct (cache_all (xs_es sb) (xe_mem env) (scorw_ext_precache_depth0 0 exs) (i_es i) Hreplay) as (e' & Ee & _ & Hmap); [by intros|apply Hg|done|by intros b Hb%Hin; apply Hno|].
  fold exs in E. rewrite Ee in E. cbn [mbind outcome_bind] in E. injection E as <-. cbn [set_es i_es]. split.
  - intros b Hb. rewrite Hmap. destruct (block_map (scorw_ext_precache_depth0 0 exs) b) eqn:Eb; [exfalso; apply Hb, Hin; by rewrite Eb|]. apply (left_id_L None (∪)).
  - intros b Hb Hs1. rewrite (part_map i lo exs hi) in Hs1 by done. rewrite Hmap. specialize (Hcov b). rewrite disk_covers_map, bool_decide_true in Hcov by done.
    destruct (block_map (scorw_ext_precache_depth0 0 exs) b) as [c|]; [|done]. by destruct (block_map (nodes (i_es i)) b); eexists.
Qed.

(** ** The walk *)

Variable env : ext_env.
Definition full_memory : Prop := forall e, xe_mem env e = true.

(** Reading a node with EXT4_EX_FORCE_CACHE: a leaf is cached, also when its buffer
    was verified before. *)
Lemma read_force i s d hi : good i -> node_ok (i_disk i) d (i_disk i (child_of s)) (sw0 s) hi ->
  part i (sw0 s) (tree_exts (i_disk i) d (i_disk i (child_of s))) hi ->
  exists r i', read_extent_tree_block sb ext4_chksum env i (slot_idx s) (Z.of_nat d) EXT4_EX_FORCE_CACHE = Ok (r, i') /\ good i' /\ same_tree i i' /\
    ((exists err, r = inl err /\ err < 0 /\ ~ node_readable sb ext4_chksum env i s d) \/
     (r = inr (child_of s) /\ (d <> 0%nat -> i_es i' = i_es i) /\ (d = 0%nat -> full_memory -> filled (file_map i) (sw0 s) hi (i_es i) (i_es i')))).
Proof.
  intros Hg Hn Hp. destruct (read_ok sb ext4_chksum Hreplay env i s d hi EXT4_EX_FORCE_CACHE Hg Hn Hp) as (r & i' & E & Hg' & Hs & Hr).
  exists r, i'. split; [done|]. split; [done|]. split; [done|]. destruct Hr as [->|?]; [right|by left]. split; [done|]. clear Hg' Hs. revert E.
  unfold read_extent_tree_block. fold (child_of s). destruct (_ <? 0); [done|]. change (has_flag EXT4_EX_FORCE_CACHE EXT4_EX_FORCE_CACHE) with true.
  rewrite andb_false_r. destruct (negb (_ =? 0)); [done|]. change (has_flag EXT4_EX_FORCE_CACHE EXT4_EX_NOCACHE) with false. cbn [negb andb].
  destruct (Z.eqb_spec (Z.of_nat d) 0).
  - assert (d = 0%nat) as -> by lia. intros E. split; [done|]. intros _ Hmem. change (i_disk (set_verified i (child_of s))) with (i_disk i) in E.
    apply bind_Ok_inv in E as (i1 & E1 & E). injection E as <-. by eapply (leaf_filled env (set_verified i (child_of s))).
  - intros [= <-]. by split; [|intros ->].
Qed.

(** The walk from a stack on either fails at a node that cannot be read, or goes
    on above, having cached what is below. *)
Definition walked (depth cost fuel : nat) (st up : list (option Z * Z)) (i : ext_inode) (R : Prop) (Fill : ext_inode -> Prop) : Prop :=
  (exists err i', precache_loop sb ext4_chksum (cost + fuel) env depth st i = Ok (err, i') /\ err < 0 /\ good i' /\ same_tree i i' /\ ~ R) \/
  (exists i', precache_loop sb ext4_chksum (cost + fuel) env depth st i = precache_loop sb ext4_chksum fuel env depth up i' /\ good i' /\ same_tree i i' /\ (full_memory -> Fill i')).

Definition node_walked (d depth : nat) : Prop := forall bh i lo hi up fuel, good i -> node_ok (i_disk i) d (node_of i bh) lo hi -> starts_at (node_of i bh) lo ->
  part i lo (tree_exts (i_disk i) d (node_of i bh)) hi -> (length up + d = depth)%nat ->
  walked depth (walk_cost (i_disk i) d (node_of i bh)) fuel ((bh, 0) :: up) up i (readable sb ext4_chksum env i d (node_of i bh))
    (fun i' => if decide (d = 0%nat) then i_es i' = i_es i else filled (file_map i) lo hi (i_es i) (i_es i')).

Lemma slots_walked d depth : node_walked d depth -> forall rem pre bh i lo hi up fuel, good i -> node_ok (i_disk i) (S d) (node_of i bh) lo hi -> used (node_of i bh) = pre ++ rem ->
  part i lo (tree_exts (i_disk i) (S d) (node_of i bh)) hi -> (length up + S d = depth)%nat ->
  walked depth (S (sum_list_with (fun s => S (walk_cost (i_disk i) d (i_disk i (child_of s)))) rem)) fuel ((bh, Z.of_nat (length pre)) :: up) up i
    (Forall (fun s => node_readable sb ext4_chksum env i s d /\ readable sb ext4_chksum env i d (i_disk i (child_of s))) rem)
    (fun i' => filled (file_map i) (next_key rem hi) hi (i_es i) (i_es i')).
Proof.
  intros Hd rem. induction rem as [|s rem IH]; intros pre bh i lo hi up fuel Hg Hn Eu Hp Hup; pose proof (node_slots _ _ _ _ _ Hn) as Hs.
  - right. exists i. cbn [sum_list_with plus precache_loop next_key]. assert ((length up =? depth)%nat = false) as -> by (apply Nat.eqb_neq; lia).
    pose proof (used_length _ Hs) as Hl. rewrite Eu, app_nil_r in Hl. destruct Hs as [? _]. destruct (Z.ltb_spec (entries (node_of i bh) - 1) (Z.of_nat (length pre))); [|lia].
    cbn [orb]. split; [done|]. split; [done|]. split; [done|]. intros _. apply filled_nothing. intros; lia.
  - pose proof Hn as (_ & _ & Hc). rewrite Eu in Hc. apply children_split in Hc as (_ & _ & Hlt & [Hst Hnc] & Hq).
    pose proof (part_child i d _ lo hi pre s rem Hn Eu Hp) as Hpc. unfold walked. cbn [sum_list_with]. set (c1 := walk_cost _ _ _). set (c2 := sum_list_with _ _).
    replace (S (S c1 + c2) + fuel)%nat with (S (c1 + (S c2 + fuel))) by lia. cbn [precache_loop]. assert ((length up =? depth)%nat = false) as -> by (apply Nat.eqb_neq; lia).
    destruct (Z.ltb_spec (entries (node_of i bh) - 1) (Z.of_nat (length pre))); [rewrite (used_entries _ _ _ _ Hs Eu) in *; lia|]. cbn [orb].
    rewrite (used_slot _ _ _ _ Hs Eu). cbn [mbind outcome_bind]. replace (Z.of_nat depth - Z.of_nat (length up) - 1) with (Z.of_nat d) by lia.
    destruct (read_force i s d (next_key rem hi) Hg Hnc Hpc) as (r & i1 & -> & Hg1 & Hs1 & Hr). cbn [mbind outcome_bind]. pose proof Hs1 as (_ & Hd1 & Hk1).
    destruct Hr as [(err & -> & Herr & Hnr)|(-> & Hes & Hfill)]. { left. exists err, i1. do 4 (split; [done|]). by intros [[? _] _]%Forall_cons. }
    assert (file_map i1 = file_map i) as HM by apply (same_tree_map i i1 Hs1).
    destruct (Hd (Some (child_of s)) i1 (sw0 s) (next_key rem hi) ((bh, Z.of_nat (length pre) + 1) :: up) (S c2 + fuel)%nat) as [(err & i2 & E & Herr & Hg2 & Hs2 & Hnr)|(i2 & E & Hg2 & Hs2 & Hf2)];
      [done|cbn; by rewrite Hk1|cbn; by rewrite Hk1|cbn; rewrite Hk1; by apply (part_same i)|cbn; lia| |]; cbn [node_of] in E; rewrite Hk1 in E; fold c1 in E; rewrite E.
    + left. exists err, i2. do 3 (split; [done|]). split; [by eapply same_tree_trans|]. intros [[_ Hx] _]%Forall_cons. apply Hnr. cbn [node_of]. rewrite Hk1. by apply (readable_same _ _ _ i).
    + assert (same_tree i i2) as Hs12 by (by eapply same_tree_trans). pose proof Hs12 as (_ & Hd2 & Hk2).
      assert (node_of i2 bh = node_of i bh) as Hbh by (unfold node_of; by rewrite Hd2, Hk2).
      destruct (IH (pre ++ [s]) bh i2 lo hi up fuel) as [(err & i3 & E3 & Herr & Hg3 & Hs3 & Hnr)|(i3 & E3 & Hg3 & Hs3 & Hf3)];
        [done|by rewrite Hk2, Hbh|rewrite Hbh, Eu; by rewrite <- app_assoc|rewrite Hk2, Hbh; by apply (part_same i)|done| |];
        rewrite length_app, Nat2Z.inj_add in E3; cbn [length] in E3; change (Z.of_nat 1) with 1 in E3; rewrite Hk2 in E3; fold c2 in E3; rewrite E3.
      * left. exists err, i3. do 3 (split; [done|]). split; [by eapply same_tree_trans|]. intros [_ Hx]%Forall_cons. apply Hnr. rewrite Hk2.
        eapply Forall_impl; [exact Hx|]. intros x [[? Hc] ?]. unfold node_readable. rewrite Hk2, (check_same sb ext4_chksum i i2) by done. split; [done|]. by apply (readable_same _ _ _ i).
      * right. exists i3. do 2 (split; [done|]). split; [by eapply same_tree_trans|]. intros Hmem. cbn [next_key].
        destruct (same_tree_map i i2 Hs12) as (HM2 & _). specialize (Hf3 Hmem). rewrite HM2 in Hf3. apply (filled_more _ _ (next_key rem hi) _ _ (i_es i2)); [|clear Hf3|exact Hf3].
        { destruct rem as [|s' rem]; cbn [next_key]; [cbn in Hlt; lia|]. destruct (children_keys _ _ _ _ Hq) as [_ [? _]%Forall_cons]. cbn in *. lia. }
        specialize (Hf2 Hmem). rewrite HM in Hf2. destruct (decide (d = 0%nat)) as [Ed|Ed]; [rewrite Hf2; by apply Hfill|by rewrite <- (Hes Ed)].
Qed.

Lemma nodes_walked d depth : node_walked d depth.
Proof.
  induction d as [|d IH]; intros bh i lo hi up fuel Hg Hn Hst Hp Hup.
  - right. exists i. cbn [walk_cost plus precache_loop]. assert ((length up =? depth)%nat = true) as -> by (apply Nat.eqb_eq; lia). cbn [orb]. done.
  - destruct (slots_walked d depth IH (used (node_of i bh)) [] bh i lo hi up fuel) as [H|(i' & E & ? & ? & Hf)]; [done..|by left|]. right. exists i'.
    do 3 (split; [done|]). intros Hmem. destruct (decide _); [done|]. destruct Hst as (s & l & Eu & Es). specialize (Hf Hmem). rewrite Eu in Hf. cbn [next_key] in Hf. by rewrite Es in Hf.
Qed.

Lemma node_from_first disk d n lo hi : node_ok disk (S d) n lo hi -> node_ok disk (S d) n (next_key (used n) hi) hi.
Proof. intros (Hs & Hne & Hc). split; [done|]. split; [done|]. destruct (used n) as [|s l]; [done|]. cbn [children_ok next_key] in *. destruct Hc as (_ & ? & ? & ?). done. Qed.

(** [ext4_ext_precache] returns, and with a tree that can be read and memory it
    caches every block with data. *)
Lemma precache_walked i : inode_ok i -> good i -> ext_depth i <> 0 -> walked (depth_of i) (inode_cost i) 0 [(None, 0)] [] i
  (readable sb ext4_chksum env i (depth_of i) (i_data i)) (fun i' => filled (file_map i) 0 EXT_MAX_BLOCKS (i_es i) (i_es i')).
Proof.
  intros Hi Hg Hne. pose proof Hi as [Hd Hn]. pose proof (part_root i Hi) as Hp. unfold inode_exts, inode_cost in *. destruct (depth_of i) as [|d] eqn:Ed; [unfold depth_of in Ed; lia|].
  destruct (slots_walked d (S d) (nodes_walked d (S d)) (used (i_data i)) [] None i 0 EXT_MAX_BLOCKS [] 0) as [H|(i' & E & ? & ? & Hf)]; [done..|by left|].
  right. exists i'. do 3 (split; [done|]). intros Hmem. specialize (Hf Hmem). pose proof (node_exts _ _ _ _ _ (node_from_first _ _ _ _ _ Hn)) as Hx.
  pose proof (exts_ok_le _ _ _ Hx). eapply filled_wider; [|done|done| |exact Hf].
  { destruct Hn as (_ & Hu & Hc). destruct (used (i_data i)) as [|s l]; [done|]. cbn. destruct (children_keys _ _ _ _ Hc) as [_ [? _]%Forall_cons]. lia. }
  intros b Hb Hout. unfold file_map, inode_exts. rewrite Ed. eapply disk_map_out; [exact Hx|]. lia.
Qed.

Lemma precache_call i : inode_ok i -> good i -> ext_depth i <> 0 ->
  exists ret i', ext4_ext_precache sb ext4_chksum (inode_cost i) env i = Ok (ret, i') /\ ret <= 0 /\ good i' /\ same_tree i i' /\
    (xe_alloc env = true -> ext4_ext_check_inode sb ext4_chksum i = 0 -> readable sb ext4_chksum env i (depth_of i) (i_data i) ->
      ret = 0 /\ (full_memory -> filled (file_map i) 0 EXT_MAX_BLOCKS (i_es i) (i_es i'))).
Proof.
  intros Hi Hg Hne. unfold ext4_ext_precache. rewrite (proj2 (Z.eqb_neq _ _) Hne). destruct (xe_alloc env); cbn [negb].
  2:{ eexists _, i. split; [done|]. split; [unfold ENOMEM; lia|]. split; [done|]. split; [done|]. done. }
  destruct (Z.eqb_spec (ext4_ext_check_inode sb ext4_chksum i) 0) as [Hchk|Hchk]; cbn [negb].
  2:{ eexists _, i. split; [done|]. split; [apply check_neg in Hchk; unfold ext4_ext_check_inode; lia|]. split; [done|]. split; [done|]. done. }
  fold (depth_of i). replace (inode_cost i) with (inode_cost i + 0)%nat by lia.
  destruct (precache_walked i Hi Hg Hne) as [(err & i' & -> & ? & ? & ? & ?)|(i' & -> & ? & ? & Hf)]; cbn [mbind outcome_bind fst snd precache_loop].
  - eexists _, _. split; [done|]. split; [lia|]. split; [done|]. split; [done|]. done.
  - eexists _, _. split; [done|]. split; [lia|]. split; [done|]. split; [done|]. done.
Qed.

(** Recovery reads what is cached. *)
Lemma recover_bits i m sz : es_ok (i_es i) -> friend_wf m -> 0 < sz < 2 ^ 58 -> i_size m = 0 \/ Z.shiftl (frnd_total_pages sz) PAGE_SHIFT <= i_size m ->
  exists m', scorw_recover_friend_file io_ok (nodes (i_es i)) m sz = Ok m' /\ forall b, 0 <= b -> b * PAGE_SIZE < sz -> friend_bit m' b = has_data (block_map (nodes (i_es i)) b).
Proof.
  intros Hi Hm Hsz Hsize. pose proof (ek_list _ Hi) as [Hf Hs]. destruct (recover_friend_spec (nodes (i_es i)) m sz Hm Hsz Hsize) as (m' & -> & Hb).
  { eapply Forall_impl; [exact Hf|]. intros e [? ? _ _ _ _]. lia. }
  exists m'. split; [done|]. intros b H0 Hb0. rewrite Hb by done. by apply covers_map.
Qed.

Lemma block_types e b c : es_ok e -> block_map (nodes e) b = Some c ->
  c.1 = EXTENT_STATUS_WRITTEN \/ c.1 = EXTENT_STATUS_UNWRITTEN \/ c.1 = EXTENT_STATUS_DELAYED \/ c.1 = EXTENT_STATUS_HOLE.
Proof.
  intros He (x & Hx & _ & ->)%block_map_Some. assert (ext_ok x) as Hox by (eapply Forall_forall; [apply (ek_list e He)|exact Hx]).
  destruct (type_cases x Hox) as [H|[H|[H|H]]]; destruct H as (H & _); unfold content; cbn [fst]; rewrite H; auto.
Qed.
(** Without delayed blocks the tree says of a block that there is data exactly
    when it is on the disk, if it knows all that are. *)
Lemma has_data_map M e b : es_ok e -> coherent M e -> ~ delayed_at (nodes e) b -> (is_Some (M b) -> is_Some (block_map (nodes e) b)) ->
  has_data (block_map (nodes e) b) = bool_decide (is_Some (M b)).
Proof.
  intros He Hc Hnd Hknow. destruct (block_map (nodes e) b) as [[t q]|] eqn:E.
  2:{ symmetry. apply bool_decide_false. intros [? Hx]%Hknow. done. }
  pose proof (block_types e b _ He E) as Ht. cbn [fst] in Ht. specialize (Hc b _ E). unfold agrees in Hc. cbn [fst] in Hc. cbn [has_data].
  destruct Ht as [->|[->|[->| ->]]]; change (_ || _) with true in Hc || change (_ || _) with false in Hc; cbv iota in Hc; rewrite Hc; symmetry.
  - apply bool_decide_true. by eexists.
  - apply bool_decide_true. by eexists.
  - destruct Hnd. by exists q.
  - apply bool_decide_false. by intros [? ?].
Qed.
End precaching.

(** ** Properties *)

(** C20: Recovery makes the friend file agree with the disk, whatever the height
    of the extent tree.  When the extent status tree of the child is empty, as it
    is before its extents are first read, there is memory, and the nodes can be
    read and pass their checks, then the walk over the tree ends, and afterwards a
    block of the child is marked as copied exactly when an extent on the disk
    covers it. *)
Theorem recovery_reads_whole_tree `{RbTreeOk} (sb : ext_sb) (ext4_chksum : ext4_extent_header -> list ext_slot -> Z) (env : ext_env) (i : ext_inode) (m : mapping) (sz : Z) :
  s_fc_replay (xs_es sb) = false -> inode_ok i -> es_ok (i_es i) -> nodes (i_es i) = [] ->
  (forall e, xe_mem env e = true) -> xe_alloc env = true -> ext4_ext_check_inode sb ext4_chksum i = 0 -> readable sb ext4_chksum env i (depth_of i) (i_data i) ->
  friend_wf m -> 0 < sz <= EXT_MAX_BLOCKS * PAGE_SIZE -> i_size m = 0 \/ Z.shiftl (frnd_total_pages sz) PAGE_SHIFT <= i_size m ->
  exists m' i', recover_child sb ext4_chksum (inode_cost i) io_ok env i m sz = Ok (m', i') /\ es_ok (i_es i') /\
    forall b, 0 <= b -> b * PAGE_SIZE < sz -> friend_bit m' b = bool_decide (is_Some (file_map i b)).
Proof.
  intros Hr Hi He Hno Hmem Hal Hchk Hrd Hm Hsz Hsize. assert (good i) as Hg by (split; [done|intros b c; by rewrite Hno]). unfold recover_child.
  assert (exists i', (if ext_depth i =? 0 then e ← precache (xs_es sb) (xe_mem env) (slot_extent <$> used (i_data i)) (i_es i); Ok (set_es i e)
    else r ← ext4_ext_precache sb ext4_chksum (inode_cost i) env i; Ok r.2) = Ok i' /\ good i' /\ same_tree i i' /\ filled (file_map i) 0 EXT_MAX_BLOCKS (i_es i) (i_es i')) as (i' & -> & [He' Hc'] & Hs & Hf).
  { destruct (Z.eqb_spec (ext_depth i) 0) as [Ed|Ed].
    - pose proof (proj2 Hi) as Hn. unfold depth_of in Hn. rewrite Ed in Hn. pose proof (part_root i Hi) as Hp. unfold inode_exts, depth_of in Hp. rewrite Ed in Hp.
      destruct (cache_extents_ok sb Hr env i (i_data i) 0 EXT_MAX_BLOCKS Hg Hn Hp) as (i' & E & ? & ?). exists i'. unfold ext4_cache_extents in E. rewrite cache_loop_list in E.
      unfold precache. split; [exact E|]. split; [done|]. split; [done|]. eapply (leaf_filled sb Hr env i (i_data i)); try done. unfold ext4_cache_extents. by rewrite cache_loop_list.
    - destruct (precache_call sb ext4_chksum Hr env i Hi Hg Ed) as (ret & i' & -> & _ & ? & ? & Hx). destruct Hx as [_ Hfill]; [done..|]. cbn [mbind outcome_bind]. exists i'. auto. }
  cbn [mbind outcome_bind]. destruct (recover_bits i' m sz He') as (m' & -> & Hb); [done|unfold EXT_MAX_BLOCKS, PAGE_SIZE in Hsz; lia|done|]. cbn [mbind outcome_bind]. exists m', i'. split; [done|]. split; [done|].
  destruct Hf as [_ Hf]; [intros b _; by rewrite Hno|]. destruct Hs as ((_ & Hnd) & Hd & Hk).
  assert (file_map i' = file_map i) as HM by (unfold file_map, inode_exts, depth_of, ext_depth; by rewrite Hd, Hk). rewrite HM in Hc'.
  intros b Hb1 Hb0. rewrite Hb by done. apply has_data_map; [done|done|intros [q Hq]%(proj1 (Hnd b)); by rewrite Hno in Hq|]. intros HMb. apply Hf; [|done].
  unfold PAGE_SIZE, EXT_MAX_BLOCKS in *. lia.
Qed.

(** What [ext4_ext_precache] returns is dropped: when it fails before it has
    cached anything, because there is no memory for the path, or the root or the
    first node below cannot be read, recovery returns as if all was well and
    leaves every block marked as not copied. *)
Theorem recovery_ignores_failed_precache `{RbTreeOk} (sb : ext_sb) (ext4_chksum : ext4_extent_header -> list ext_slot -> Z) (env : ext_env) (i : ext_inode) (m : mapping) (sz : Z) :
  inode_ok i -> es_ok (i_es i) -> nodes (i_es i) = [] -> ext_depth i <> 0 ->
  xe_alloc env = false \/ ext4_ext_check_inode sb ext4_chksum i <> 0 \/ (exists s l, used (i_data i) = s :: l /\ xe_read env (child_of s) < 0) ->
  friend_wf m -> 0 < sz <= EXT_MAX_BLOCKS * PAGE_SIZE -> i_size m = 0 \/ Z.shiftl (frnd_total_pages sz) PAGE_SHIFT <= i_size m ->
  exists m' i', recover_child sb ext4_chksum (inode_cost i) io_ok env i m sz = Ok (m', i') /\ forall b, 0 <= b -> b * PAGE_SIZE < sz -> friend_bit m' b = false.
Proof.
  intros Hi He Hno Hne Hfail Hm Hsz Hsize. unfold recover_child. rewrite (proj2 (Z.eqb_neq _ _) Hne).
  assert (exists ret i', ext4_ext_precache sb ext4_chksum (inode_cost i) env i = Ok (ret, i') /\ i_es i' = i_es i) as (ret & i' & -> & Ees).
  { unfold ext4_ext_precache. rewrite (proj2 (Z.eqb_neq _ _) Hne). destruct (xe_alloc env); cbn [negb]; [|by eexists _, _].
    destruct (Z.eqb_spec (ext4_ext_check_inode sb ext4_chksum i) 0); cbn [negb]; [|by eexists _, _]. destruct Hfail as [|[|(s & l & Eu & Hrd)]]; [done..|].
    pose proof Hi as [Hd Hn]. assert (exists d, depth_of i = S d) as [d Ed] by (unfold depth_of; exists (Nat.pred (Z.to_nat (ext_depth i))); lia).
    rewrite Ed in Hn. pose proof (node_slots _ _ _ _ _ Hn) as Hs. unfold inode_cost. fold (depth_of i). rewrite Ed. cbn [walk_cost precache_loop length Nat.eqb node_of].
    destruct (Z.ltb_spec (entries (i_data i) - 1) 0); [rewrite (used_entries _ [] s l Hs Eu) in *; cbn in *; lia|]. cbn [orb].
    pose proof (used_slot _ [] s l Hs Eu) as Hat. cbn [length] in Hat. change (Z.of_nat 0) with 0 in Hat. rewrite Hat. cbn [mbind outcome_bind]. unfold read_extent_tree_block. fold (child_of s).
    destruct (Z.ltb_spec (xe_read env (child_of s)) 0); [|lia]. cbn [mbind outcome_bind]. by eexists _, _. }
  cbn [mbind outcome_bind snd]. rewrite Ees. destruct (recover_bits i m sz He) as (m' & -> & Hb); [done|unfold EXT_MAX_BLOCKS, PAGE_SIZE in Hsz; lia|done|]. cbn [mbind outcome_bind]. eexists _, _. split; [done|].
  intros b Hb1 Hb0. rewrite Hb by done. by rewrite Hno.
Qed.

(** ** Witnesses *)

Lemma recovery_reads_whole_tree_witness :
  exists m' i', @recover_child list_shape demo_ext_sb demo_chksum (inode_cost demo_inode) io_ok demo_env demo_inode empty_friend 40960 = Ok (m', i') /\ es_ok (i_es i') /\
    forall b, 0 <= b -> b * PAGE_SIZE < 40960 -> friend_bit m' b = bool_decide (is_Some (file_map demo_inode b)).
Proof.
  apply (@recovery_reads_whole_tree list_shape list_shape_ok); [reflexivity|apply demo_inode_ok|apply init_tree_ok|reflexivity|intros; reflexivity|reflexivity|vm_compute; reflexivity
    |apply demo_tree_readable|apply empty_friend_wf|vm_compute; split; [reflexivity|discriminate]|by left].
Defined.
Lemma recovery_ignores_failed_precache_witness :
  exists m' i', @recover_child list_shape demo_ext_sb demo_chksum (inode_cost demo_inode) io_ok (ExtEnv (fun _ => true) true (fun _ => - EIO)) demo_inode empty_friend 40960 = Ok (m', i') /\
    forall b, 0 <= b -> b * PAGE_SIZE < 40960 -> friend_bit m' b = false.
Proof.
  apply (@recovery_ignores_failed_precache list_shape list_shape_ok); [apply demo_inode_ok|apply init_tree_ok|reflexivity|discriminate|right; right; eexists _, _; split; [reflexivity|vm_compute; reflexivity]
    |apply empty_friend_wf|vm_compute; split; [reflexivity|discriminate]|by left].
Defined.
