(* ===== verification/ExtMap.v ===== *)
(** Mapping blocks without allocating ([ext4_ext_map_blocks] in [extents.c],
    [ext4_map_query_blocks] and [ext4_map_blocks] in [inode.c]): from the extent
    status tree if it knows the block, else from the tree on the disk, which fills
    the former. *)

From stdpp Require Import sorting.
From S2P Require Import Prelude Friend ExtStatus ExtInsert ExtRemove ExtOps ExtRecover SysZone ExtTree ExtPrecache.

Record ext4_map_blocks_t := MapBlocksT { m_pblk : Z; m_lblk : Z; m_len : Z; m_flags : Z }.
Definition set_m_pblk (m : ext4_map_blocks_t) (p : Z) := MapBlocksT p (m_lblk m) (m_len m) (m_flags m).
Definition set_m_len (m : ext4_map_blocks_t) (l : Z) := MapBlocksT (m_pblk m) (m_lblk m) l (m_flags m).
Definition set_m_flags (m : ext4_map_blocks_t) (f : Z) := MapBlocksT (m_pblk m) (m_lblk m) (m_len m) f.

(** The flags of a mapping are bits of the state of a buffer head. *)
Definition EXT4_MAP_NEW : Z := 2 ^ 5.
Definition EXT4_MAP_MAPPED : Z := 2 ^ 4.
Definition EXT4_MAP_UNWRITTEN : Z := 2 ^ 11.
Definition EXT4_MAP_DELAYED : Z := 2 ^ 8.
Definition EXT4_GET_BLOCKS_CREATE : Z := 1.
Definition EXT4_GET_BLOCKS_CONVERT_UNWRITTEN : Z := 256.
Definition EXT4_GET_BLOCKS_CACHED_NOWAIT : Z := 2048.
Definition INT_MAX : Z := 2 ^ 31 - 1.

(** The macro [in_range] of the kernel, on 32-bit values. *)
Definition in_range32 (val start len : Z) : bool := u32 (val - start) <? len.

(** What the environment answers in a call: the answers for the tree, memory for
    the extent status tree, and whether the inode is the journal. *)
Record map_env := MapEnv { me_tree : ext_env; me_mem : nat -> es_mem; me_journal : bool }.

Section map.
Context `{Hrb : RbTree}.
Variable sb : ext_sb.
Variable ext4_chksum : ext4_extent_header -> list ext_slot -> Z.

(** [path[depth].p_ext], and the extent it points to. *)
Definition path_leaf (i : ext_inode) (path : list ext4_ext_path) : outcome ext4_ext_path :=
  match path !! depth_of i with Some p => Ok p | None => Bug end.
Definition leaf_extent (i : ext_inode) (p : ext4_ext_path) : outcome (option ext4_extent) :=
  match p_ext p with None => Ok None | Some k => s ← slot_at (p_hdr i p) k; Ok (Some (slot_extent s)) end.

(** The length of the hole from [lblk] on, and where it starts as far as that is
    known. *)
Definition ext4_ext_find_hole (i : ext_inode) (path : list ext4_ext_path) (lblk : Z) : outcome (Z * Z) :=
  p ← path_leaf i path;
  ex ← leaf_extent i p;
  match ex with
  | None => Ok (EXT_MAX_BLOCKS, 0)
  | Some ex =>
      let ee_end := u32 (ee_block ex + ext4_ext_get_actual_len ex) in
      if lblk <? ee_block ex then Ok (u32 (ee_block ex - lblk), lblk)
      else if ee_end <=? lblk then
        next ← ext4_ext_next_allocated_block i path;
        _ ← BUG_ON (next =? ee_end);
        Ok (u32 (next - ee_end), ee_end)
      else Bug
  end.

Definition ext4_es_find_extent_range (e : es_info) (matching_fn : extent_status -> bool) (lblk end_ : Z) : outcome (option extent_status * es_info) :=
  if s_fc_replay (xs_es sb) then Ok (None, e) else __es_find_extent_range e matching_fn lblk end_.

(** The loop of [ext4_ext_determine_insert_hole]: whether there is a hole to put
    into the extent status tree, where it starts, and its length; if not, the
    length is that of the delayed extent from [lblk] on. *)
Fixpoint hole_loop (fuel : nat) (e : es_info) (lblk hole_start len : Z) : outcome (bool * Z * Z * es_info) :=
  match fuel with
  | O => Hang
  | S fuel =>
      r ← ext4_es_find_extent_range e ext4_es_is_delayed hole_start (u32 (hole_start + len - 1));
      match r with
      | (None, e) => Ok (true, hole_start, len, e)
      | (Some es, e) =>
          if es_len es =? 0 then Ok (true, hole_start, len, e)
          else if u32 (es_lblk es + es_len es) <=? lblk then hole_loop fuel e lblk lblk (u32 (len - u32 (lblk - hole_start)))
          else if in_range32 lblk (es_lblk es) (es_len es) then Ok (false, hole_start, u32 (es_lblk es + es_len es - lblk), e)
          else Ok (true, hole_start, Z.min (u32 (es_lblk es - hole_start)) len, e)
      end
  end.

Definition ext4_ext_determine_insert_hole (mem : nat -> es_mem) (i : ext_inode) (path : list ext4_ext_path) (lblk : Z) : outcome (Z * ext_inode) :=
  h ← ext4_ext_find_hole i path lblk;
  let '(len, hole_start) := h in
  r ← hole_loop 2 (i_es i) lblk hole_start len;
  let '(insert_hole, hole_start, len, e) := r in
  if negb insert_hole then Ok (len, set_es i e)
  else
    r ← ext4_es_insert_extent 3 (xs_es sb) e mem hole_start len (2 ^ 64 - 1) EXTENT_STATUS_HOLE;
    Ok (if negb (hole_start =? lblk) then u32 (len - u32 (lblk - hole_start)) else len, set_es i r.2).

(** [ext4_ext_map_blocks] without flags, that is, up to where blocks would be
    allocated; of [ext4_ext_handle_unwritten_extents] that is the plain lookup. *)
Definition ext4_ext_map_blocks (env : map_env) (i : ext_inode) (map : ext4_map_blocks_t) : outcome (Z * ext4_map_blocks_t * ext_inode) :=
  r ← ext4_find_extent sb ext4_chksum (me_tree env) i (m_lblk map) None 0;
  match r with
  | (inl err, i) => Ok (err, map, i)
  | (inr path, i) =>
      p ← path_leaf i path;
      ex ← leaf_extent i p;
      let hole :=
        r ← ext4_ext_determine_insert_hole (me_mem env) i path (m_lblk map);
        let '(len, i) := r in
        Ok (0, set_m_len (set_m_pblk map 0) (Z.min (m_len map) len), i) in
      match ex with
      | None => if negb (ext_depth i =? 0) then Ok (- EFSCORRUPTED, map, i) else hole
      | Some ex =>
          let ee_len := ext4_ext_get_actual_len ex in
          if in_range32 (m_lblk map) (ee_block ex) ee_len then
            let newblock := u64 (m_lblk map - ee_block ex + ext4_ext_pblock ex) in
            let allocated := u32 (ee_len - (m_lblk map - ee_block ex)) in
            let flag := if negb (ext4_ext_is_unwritten ex) then EXT4_MAP_MAPPED else EXT4_MAP_UNWRITTEN in
            let allocated := Z.min allocated (m_len map) in
            Ok (allocated, MapBlocksT newblock (m_lblk map) allocated (Z.lor (m_flags map) flag), i)
          else hole
      end
  end.

Definition ext4_map_query_blocks (env : map_env) (i : ext_inode) (map : ext4_map_blocks_t) : outcome (Z * ext4_map_blocks_t * ext_inode) :=
  r ← ext4_ext_map_blocks env i map;
  let '(retval, map, i) := r in
  if retval <=? 0 then Ok (retval, map, i)
  else
    let status := if has_flag (m_flags map) EXT4_MAP_UNWRITTEN then EXTENT_STATUS_UNWRITTEN else EXTENT_STATUS_WRITTEN in
    r ← ext4_es_insert_extent 3 (xs_es sb) (i_es i) (me_mem env) (m_lblk map) (m_len map) (m_pblk map) status;
    Ok (retval, map, set_es i r.2).

Definition check_block_validity (env : map_env) (i : ext_inode) (map : ext4_map_blocks_t) : Z :=
  if me_journal env then 0
  else if negb (ext4_inode_block_valid (xs_zones sb) (i_ino i) (m_pblk map) (m_len map)) then - EFSCORRUPTED
  else 0.

(** What a hit in the extent status tree makes of the mapping. *)
Definition map_from_es (map : ext4_map_blocks_t) (es : extent_status) : outcome (Z * ext4_map_blocks_t) :=
  let retval := u32 (es_len es - (m_lblk map - es_lblk es)) in
  let retval := if m_len map <? retval then m_len map else retval in
  if ext4_es_is_written es || ext4_es_is_unwritten es then
    Ok (s32 retval, MapBlocksT (u64 (ext4_es_pblock es + m_lblk map - es_lblk es)) (m_lblk map) retval
      (Z.lor (m_flags map) (if ext4_es_is_written es then EXT4_MAP_MAPPED else EXT4_MAP_UNWRITTEN)))
  else if ext4_es_is_delayed es || ext4_es_is_hole es then
    Ok (0, MapBlocksT 0 (m_lblk map) retval (Z.lor (m_flags map) (if ext4_es_is_delayed es then EXT4_MAP_DELAYED else 0)))
  else Bug.

(** What follows the label [found]. *)
Definition finish_lookup (env : map_env) (flags retval : Z) (map : ext4_map_blocks_t) (i : ext_inode) : outcome (option Z * ext4_map_blocks_t * ext_inode) :=
  let mapped := (0 <? retval) && has_flag (m_flags map) EXT4_MAP_MAPPED in
  let ret := if mapped then check_block_validity env i map else 0 in
  if negb (ret =? 0) then Ok (Some ret, map, i)
  else if negb (has_flag flags EXT4_GET_BLOCKS_CREATE) then Ok (Some retval, map, i)
  else if mapped && negb (has_flag flags EXT4_GET_BLOCKS_CONVERT_UNWRITTEN) then Ok (Some retval, map, i)
  else Ok (None, map, i).

(** The part of [ext4_map_blocks] up to the decision to allocate: [None] says to
    go on with [ext4_map_create_blocks]. *)
Definition ext4_map_blocks (env : map_env) (i : ext_inode) (map : ext4_map_blocks_t) (flags : Z) : outcome (option Z * ext4_map_blocks_t * ext_inode) :=
  let map := set_m_flags map 0 in
  let map := if INT_MAX <? m_len map then set_m_len map INT_MAX else map in
  if EXT_MAX_BLOCKS <=? m_lblk map then Ok (Some (- EFSCORRUPTED), map, i)
  else
    r ← (if negb (s_fc_replay (xs_es sb)) then ext4_es_lookup_extent (xs_es sb) (i_es i) (m_lblk map) else Ok (None, i_es i));
    let i := set_es i r.2 in
    let nowait := has_flag flags EXT4_GET_BLOCKS_CACHED_NOWAIT in
    match r.1 with
    | None => if nowait then Ok (Some 0, map, i) else q ← ext4_map_query_blocks env i map; let '(retval, map, i) := q in finish_lookup env flags retval map i
    | Some (es, _) => q ← map_from_es map es; if nowait then Ok (Some q.1, q.2, i) else finish_lookup env flags q.1 q.2 i
    end.
End map.

(** * Lemmas *)

Section mapping.
Context `{Hrb : RbTree} {Hrbok : RbTreeOk}.
Variable sb : ext_sb.
Variable ext4_chksum : ext4_extent_header -> list ext_slot -> Z.
Variable env : map_env.
Hypothesis Hreplay : s_fc_replay (xs_es sb) = false.
(** The size of a cluster, where it is not a block. *)
Hypothesis Hpend : 1 < s_cluster_ratio (xs_es sb) -> sb_ok (xs_es sb).

(** ** Putting a true extent into the tree *)

Lemma insert_true M e lblk len pblk st : es_ok e -> coherent M e -> true_extent M (ext4_es_store_pblock_status lblk len pblk st) ->
  (forall b, lblk <= b < lblk + len -> ~ delayed_at (nodes e) b) ->
  exists c e', ext4_es_insert_extent 3 (xs_es sb) e (me_mem env) lblk len pblk st = Ok (c, e') /\ es_ok e' /\ coherent M e' /\ same_delayed e e'.
Proof.
  intros He Hc (Hn & Hd & Ht) Hno. set (n := ext4_es_store_pblock_status lblk len pblk st) in *.
  destruct (insert_call_ok (xs_es sb) e (me_mem env) lblk len pblk st He Hreplay Hn Hd Hpend) as (c & e' & -> & He' & [Hout Hin] & _). fold n in Hout, Hin.
  exists c, e'. split; [done|]. split; [done|].
  assert (forall b, in_range b n = true -> ~ delayed_at (nodes e') b) as Hnd.
  { intros b Hb [q Hq]. destruct (Hin b Hb) as [E|[E _]]; rewrite E in Hq; [|discriminate Hq]. apply (f_equal (fst ∘ from_option id (0, 0))) in Hq. cbn in Hq.
    apply delayed_type in Hq; [|done]. congruence. }
  split.
  - intros b c' Hb. destruct (in_range b n) eqn:Eb.
    + destruct (Hin b Eb) as [E|[E _]]; rewrite E in Hb; [|discriminate Hb]. apply (f_equal (from_option id (0, 0))) in Hb. cbn in Hb. subst c'. exact (Ht b Eb).
    + destruct (Hout b Eb) as [E|[E _]]; rewrite E in Hb; [exact (Hc b c' Hb)|discriminate Hb].
  - intros b. destruct (in_range b n) eqn:Eb.
    + split; intros H; exfalso; [exact (Hnd b Eb H)|]. apply in_range_spec in Eb. exact (Hno b Eb H).
    + unfold delayed_at. destruct (Hout b Eb) as [-> |[-> Hx]]; [reflexivity|]. split; [intros [? E]; discriminate E|intros H; destruct (Hx H)].
Qed.

(** ** The first delayed extent of a range *)

Lemma find_match_first m end_ l e a : StronglySorted before l -> Forall ext_ok l -> m e = false -> find_match m end_ l e = Some a -> m a = true ->
  forall x, x ∈ l -> m x = true -> es_lblk a <= es_lblk x.
Proof.
  intros Hs Hf. revert e. induction Hs as [|y l Hs IH Hy]; intros e He; cbn [find_match]; [intros E Ha; apply (f_equal (from_option id e)) in E; cbn in E; congruence|].
  apply Forall_cons in Hf as [Hoy Hf]. destruct (end_ <? es_lblk y); [done|]. destruct (m y) eqn:Ey.
  - intros E _ x [->|Hx]%elem_of_cons _; apply (f_equal (from_option es_lblk 0)) in E; cbn in E; [lia|]. rewrite Forall_forall in Hy. specialize (Hy x Hx). apply before_lt in Hy; [lia|done].
  - intros E Ha x [->|Hx]%elem_of_cons Hm; [congruence|]. by eapply (IH Hf y).
Qed.
Lemma find_range_first i m start end_ e i' : es_ok i -> __es_find_extent_range i m start end_ = Ok (Some e, i') ->
  forall x, x ∈ nodes i -> m x = true -> start < es_lblk x + es_len x -> es_lblk e <= es_lblk x.
Proof.
  intros Hi. unfold __es_find_extent_range.
  assert (match cached i start with Some es => Ok (Some es) | None => __es_tree_search (es_root i) start end = Ok (first_from start (nodes i))) as ->.
  { destruct (cached i start) eqn:Ec; [by rewrite (cached_first i start _ Hi Ec)|]. apply es_tree_search_spec, Hi. }
  cbn [mbind outcome_bind]. pose proof (ek_list i Hi) as Hok. destruct (first_from start (nodes i)) as [e0|] eqn:Ef; cbn [mbind option_bind]; [|done].
  apply first_from_split in Ef as (l1 & l2 & Hl & H1 & He). rewrite Hl in Hok. pose proof (list_ok_off _ _ _ Hok) as [Ho _].
  apply list_ok_mid in Hok as (_ & Hoe & [Hf2 Hs2] & _ & Hb & _).
  assert (forall x, x ∈ nodes i -> start < es_lblk x + es_len x -> x = e0 \/ x ∈ l2) as Hin.
  { intros x. rewrite Hl, elem_of_app, elem_of_cons. intros [Hx|?] ?; [|tauto]. unfold ends_before in H1. rewrite Forall_forall in H1. specialize (H1 x Hx). cbn in H1. lia. }
  rewrite Forall_forall in Hb. destruct (m e0) eqn:Em.
  - rewrite Em. intros E x Hx _ Hs. apply (f_equal (fun o => match o with Ok (Some e, _) => es_lblk e | _ => 0 end)) in E. cbn in E.
    destruct (Hin x Hx Hs) as [->|Hx2]; [lia|]. specialize (Hb x Hx2). apply before_lt in Hb; [lia|done].
  - rewrite Hl at 1. rewrite nodes_from_mid by done. cbn [tail]. destruct (find_match m end_ l2 e0) as [a|] eqn:Efm; [|done]. destruct (m a) eqn:Ea; [|done].
    intros E x Hx Hm Hs. apply (f_equal (fun o => match o with Ok (Some e, _) => es_lblk e | _ => 0 end)) in E. cbn in E.
    destruct (Hin x Hx Hs) as [->|Hx2]; [congruence|]. pose proof (find_match_first m end_ l2 e0 a Hs2 Hf2 Em Efm Ea x Hx2 Hm). lia.
Qed.

Lemma delayed_block e b : es_ok e -> delayed_at (nodes e) b <-> exists x, x ∈ nodes e /\ in_range b x = true /\ ext4_es_is_delayed x = true.
Proof.
  intros He. split.
  - intros [q Hq]. apply block_map_Some in Hq as (x & Hx & Hb & Ec). exists x. split_and!; [done..|]. apply (f_equal fst) in Ec. cbn in Ec.
    apply delayed_type; [|done]. eapply Forall_forall; [apply (ek_list e He)|done].
  - intros (x & Hx & Hb & Hd). exists (content x b).2. rewrite (holder_map _ x b (ek_list e He) Hx Hb). apply delayed_type in Hd; [|eapply Forall_forall; [apply (ek_list e He)|done]].
    unfold content. cbn [fst snd]. by rewrite Hd.
Qed.

Lemma find_delayed e start last : es_ok e -> start <= last ->
  exists r e', ext4_es_find_extent_range sb e ext4_es_is_delayed start last = Ok (r, e') /\ es_ok e' /\ nodes e' = nodes e /\
    match r with
    | None => forall b, start <= b <= last -> ~ delayed_at (nodes e) b
    | Some x => x ∈ nodes e /\ ext_ok x /\ ext4_es_is_delayed x = true /\ start < es_lblk x + es_len x /\ forall b, start <= b < es_lblk x -> ~ delayed_at (nodes e) b
    end.
Proof.
  intros He Hse. unfold ext4_es_find_extent_range. rewrite Hreplay.
  destruct (find_range_spec e ext4_es_is_delayed start last He Hse) as (r & e' & E & He' & Hn & _ & Hr). exists r, e'. do 3 (split; [done|]). destruct r as [x|].
  - destruct Hr as (Hx & Hm & Hs & _). split; [done|]. split; [eapply Forall_forall; [apply (ek_list e He)|done]|]. do 2 (split; [done|]).
    intros b Hb (y & Hy & Hby%in_range_spec & Hdy)%delayed_block; [|done]. pose proof (find_range_first _ _ _ _ _ _ He E y Hy Hdy ltac:(lia)). lia.
  - intros b Hb (y & Hy & Hby%in_range_spec & Hdy)%delayed_block; [|done]. rewrite (Hr y Hy) in Hdy; [done|]. split; lia.
Qed.

(** ** The hole around a block *)

(** What the loop answers for a hole [[hs, hs + len)] around [b]. *)
Definition hole_answer (e : es_info) (b hs len : Z) (r : bool * Z * Z * es_info) : Prop :=
  let '(ins, hs', len', e') := r in
  es_ok e' /\ nodes e' = nodes e /\
  if ins then hs <= hs' <= b /\ b < hs' + len' <= hs + len /\ forall x, hs' <= x < hs' + len' -> ~ delayed_at (nodes e) x
  else 0 < len' /\ b + len' <= EXT_MAX_BLOCKS /\ forall x, b <= x < b + len' -> delayed_at (nodes e) x.

Lemma in_range32_spec b s l : 0 <= b < 2 ^ 32 -> 0 <= s -> 0 <= l -> s + l <= 2 ^ 32 -> in_range32 b s l = true <-> s <= b < s + l.
Proof.
  intros. unfold in_range32. rewrite Z.ltb_lt. destruct (Z.le_gt_cases s b); [rewrite u32_small by lia; lia|].
  assert (u32 (b - s) = b - s + 2 ^ 32) as -> by (rewrite <- (Z.mod_small (b - s + 2 ^ 32) (2 ^ 32)) by lia; unfold u32, wrap; rewrite <- (Z.mod_add (b - s) 1) by lia; f_equal; lia). lia.
Qed.

(** One turn: it is over unless a delayed extent ends before [b]. *)
Lemma hole_turn fuel e b hs len : es_ok e -> 0 <= hs <= b -> b < hs + len -> hs + len <= EXT_MAX_BLOCKS ->
  (exists r, hole_loop sb (S fuel) e b hs len = Ok r /\ hole_answer e b hs len r) \/
  (hs <> b /\ exists e1, hole_loop sb (S fuel) e b hs len = hole_loop sb fuel e1 b b (hs + len - b) /\ es_ok e1 /\ nodes e1 = nodes e).
Proof.
  intros He Hhs Hb Hmax. unfold EXT_MAX_BLOCKS in Hmax. cbn [hole_loop]. rewrite (u32_small (hs + len - 1)) by lia.
  destruct (find_delayed e hs (hs + len - 1) He) as (r & e' & -> & He' & Hn & Hr); [lia|]. cbn [mbind outcome_bind]. destruct r as [x|].
  2:{ left. eexists. split; [done|]. split; [done|]. split; [done|]. split; [lia|]. split; [lia|]. intros y Hy. apply Hr. lia. }
  destruct Hr as (Hx & [Hx0 Hxl Hxe _ _ _] & Hd & Hs & Hfirst). unfold EXT_MAX_BLOCKS in Hxe. destruct (Z.eqb_spec (es_len x) 0); [lia|].
  rewrite (u32_small (es_lblk x + es_len x)) by lia. destruct (Z.leb_spec (es_lblk x + es_len x) b).
  { right. split; [lia|]. exists e'. rewrite (u32_small (b - hs)), u32_small by lia. by replace (len - (b - hs)) with (hs + len - b) by lia. }
  left. destruct (in_range32 b (es_lblk x) (es_len x)) eqn:Er.
  - apply in_range32_spec in Er; [|lia..]. eexists. split; [done|]. rewrite u32_small by lia. split; [done|]. split; [done|]. split; [lia|]. split; [unfold EXT_MAX_BLOCKS; lia|].
    intros y Hy. apply delayed_block; [done|]. exists x. split_and!; [done| |done]. apply in_range_spec. lia.
  - apply not_true_iff_false in Er. rewrite in_range32_spec in Er by lia. eexists. split; [done|]. rewrite u32_small by lia. split; [done|]. split; [done|].
    split; [lia|]. split; [lia|]. intros y Hy. apply Hfirst. lia.
Qed.
Lemma hole_loop_ok e b hs len : es_ok e -> 0 <= hs <= b -> b < hs + len -> hs + len <= EXT_MAX_BLOCKS ->
  exists r, hole_loop sb 2 e b hs len = Ok r /\ hole_answer e b hs len r.
Proof.
  intros He Hhs Hb Hmax. destruct (hole_turn 1 e b hs len He Hhs Hb Hmax) as [?|(Hne & e1 & E & He1 & Hn1)]; [done|]. rewrite E.
  destruct (hole_turn 0 e1 b b (hs + len - b) He1) as [(r & -> & Hr)|[? _]]; [lia..| |done]. exists r. split; [done|]. destruct r as [[[ins hs'] len'] e2]. unfold hole_answer in *.
  rewrite Hn1 in Hr. destruct Hr as (? & ? & Hr). split; [done|]. split; [done|]. destruct ins; [|done]. destruct Hr as (? & ? & Hr). split; [lia|]. split; [lia|]. done.
Qed.

Lemma path_to_keeps i i' exts block path r : same_tree i i' -> path_to i exts block path r -> path_to i' exts block path r.
Proof.
  intros Hs [leaf ? ? ?|ups leaf k s l1 l2 ? ? Hat ? ? ? Hn]; [by eapply path_none|]. eapply path_some; try done.
  - destruct Hs as (_ & Hd & Hk). unfold p_hdr, node_of in *. by rewrite Hd, Hk.
  - intros dflt. by rewrite (next_from_same i i'), Hn.
Qed.
Lemma leaf_of i exts b path r : path_to i exts b path r -> length path = S (depth_of i) ->
  exists p, path_leaf i path = Ok p /\ leaf_extent i p = Ok (snd <$> r).
Proof.
  intros [leaf -> Hp _|ups leaf k s l1 l2 -> Hp Hat _ _ _ _] Hlen; unfold path_leaf, leaf_extent.
  - exists leaf. cbn in Hlen. injection Hlen as <-. cbn. by rewrite Hp.
  - exists leaf. rewrite length_app in Hlen. cbn in Hlen. assert (depth_of i = length ups) as -> by lia. rewrite list_lookup_middle by done. by rewrite Hp, Hat.
Qed.

(** Between the extents before and those behind there is nothing. *)
Lemma gap_none l1 l2 a c x : exts_ok 0 l1 a -> exts_ok c l2 EXT_MAX_BLOCKS -> a <= x < c -> disk_map (l1 ++ l2) x = None.
Proof.
  intros H1 H2 Hx. rewrite disk_map_app, (disk_map_out 0 l1 a) by (done || lia). rewrite (disk_map_out c l2 EXT_MAX_BLOCKS) by (done || lia). done.
Qed.
Lemma rest_ok lo l hi : exts_ok lo l hi -> exts_ok (match l with e :: _ => ee_block e | [] => hi end) l hi.
Proof. destruct l as [|e l]; cbn; [lia|]. intros (? & ? & ? & ? & ?). split_and!; try lia. done. Qed.

Lemma find_hole_ok i b path r : inode_ok i -> path_to i (inode_exts i) b path r -> length path = S (depth_of i) -> 0 <= b < EXT_MAX_BLOCKS ->
  (forall k ex, r = Some (k, ex) -> covers ex b = false) ->
  exists len hs, ext4_ext_find_hole i path b = Ok (len, hs) /\ 0 <= hs <= b /\ b < hs + len /\ hs + len <= EXT_MAX_BLOCKS /\ forall x, hs <= x < hs + len -> file_map i x = None.
Proof.
  intros Hi Hp Hlen Hb Hcov. unfold ext4_ext_find_hole. destruct (leaf_of _ _ _ _ _ Hp Hlen) as (p & -> & Hex). cbn [mbind outcome_bind]. rewrite Hex. cbn [mbind outcome_bind].
  pose proof (node_exts _ _ _ _ _ (proj2 Hi)) as Hx. fold (inode_exts i) in Hx. unfold file_map.
  destruct Hp as [leaf _ _ He|ups leaf k s l1 l2 _ _ _ He Hle Hgt Hn]; cbn [fmap option_fmap option_map snd].
  { eexists _, _. split; [done|]. unfold EXT_MAX_BLOCKS in *. do 3 (split; [lia|]). intros x _. by rewrite He. }
  specialize (Hcov k _ eq_refl). apply covers_false in Hcov. set (ex := slot_extent s) in *. rewrite He in *.
  pose proof Hx as (mid & H1 & Hx2)%exts_ok_app. pose proof Hx2 as (Hm & Hl & _ & _ & H2). pose proof (exts_ok_le _ _ _ H1). pose proof (exts_ok_le _ _ _ H2).
  unfold EXT_MAX_BLOCKS in *. rewrite (u32_small (ee_block ex + _)) by lia. set (e := ee_block ex + ext4_ext_get_actual_len ex) in *.
  destruct (Z.ltb_spec b (ee_block ex)).
  - assert (l1 = []) as -> by (destruct l1; [done|]; assert (sw0 s <= b) by (by apply Hle); change (ee_block ex) with (sw0 s) in *; lia).
    eexists _, _. split; [done|]. rewrite u32_small by lia. do 3 (split; [lia|]). intros x Hxr. apply (gap_none [] _ 0 (ee_block ex)); [done| |lia]. apply (rest_ok mid _ _ Hx2).
  - destruct (Z.leb_spec e b); [|lia]. rewrite next_default, Hn. set (nx := match l2 with e :: _ => ee_block e | [] => EXT_MAX_BLOCKS end).
    assert (match l2 with e :: _ => Ok (ee_block e) | [] => Ok EXT_MAX_BLOCKS end = Ok nx) as -> by (by destruct l2). cbn [mbind outcome_bind].
    assert (b < nx <= 4294967295) as Hnx.
    { unfold nx. destruct l2 as [|y l2]; [unfold EXT_MAX_BLOCKS; lia|]. apply Forall_cons in Hgt as [? _]. destruct (exts_ok_elem _ _ _ y H2) as (_ & ? & ? & _); [by left|]. lia. }
    destruct (Z.eqb_spec nx e); [lia|]. cbn [BUG_ON mbind outcome_bind]. eexists _, _. split; [done|]. rewrite u32_small by lia. do 3 (split; [lia|]).
    intros x Hxr. change (l1 ++ ex :: l2) with (l1 ++ [ex] ++ l2). rewrite app_assoc. apply (gap_none _ _ e nx); [|apply (rest_ok e _ _ H2)|lia].
    apply exts_ok_app. exists mid. split; [done|]. cbn [exts_ok]. destruct Hx2 as (? & ? & ? & ? & _). repeat (split; [done|]). done.
Qed.

(** ** The hole is put into the tree *)

Definition good_step (i i' : ext_inode) : Prop := good i' /\ same_tree i i'.

Lemma same_nodes e e' : nodes e' = nodes e -> same_delayed e e' /\ forall M, coherent M e -> coherent M e'.
Proof. intros E. unfold same_delayed, coherent. rewrite E. split; [reflexivity|intros M H; exact H]. Qed.

Lemma set_es_step i e : es_ok e -> coherent (file_map i) e -> same_delayed (i_es i) e -> good_step i (set_es i e).
Proof. intros He Hc Hd. split; [by split|]. by split. Qed.

Lemma insert_hole_ok i b path r : good i -> inode_ok i -> path_to i (inode_exts i) b path r -> length path = S (depth_of i) -> 0 <= b < EXT_MAX_BLOCKS ->
  (forall k ex, r = Some (k, ex) -> covers ex b = false) ->
  exists len i', ext4_ext_determine_insert_hole sb (me_mem env) i path b = Ok (len, i') /\ good_step i i' /\ 0 < len /\ b + len <= EXT_MAX_BLOCKS /\
    forall x, b <= x < b + len -> file_map i x = None.
Proof.
  intros [He Hc] Hi Hp Hlen Hb Hcov. unfold ext4_ext_determine_insert_hole. destruct (find_hole_ok i b path r Hi Hp Hlen Hb Hcov) as (len & hs & -> & Hhs & Hbl & Hmax & Hnone).
  cbn [mbind outcome_bind]. destruct (hole_loop_ok (i_es i) b hs len He Hhs Hbl Hmax) as ([[[ins hs'] len'] e'] & -> & He' & Hn & Hans). cbn [mbind outcome_bind].
  destruct (same_nodes _ _ Hn) as (Hsd & Hco). unfold EXT_MAX_BLOCKS in *. destruct ins; cbn [negb].
  - destruct Hans as (H1 & H2 & Hnod). assert (true_extent (file_map i) (ext4_es_store_pblock_status hs' len' (2 ^ 64 - 1) EXTENT_STATUS_HOLE)) as Ht.
    { apply hole_extent_ok; [lia|lia|unfold EXT_MAX_BLOCKS; lia|]. intros x Hx. apply Hnone. lia. }
    destruct (insert_true (file_map i) e' hs' len' _ _ He' (Hco _ Hc) Ht) as (c & e2 & -> & He2 & Hc2 & Hsd2); [by intros x Hx; rewrite Hn; apply Hnod|]. cbn [mbind outcome_bind snd].
    assert ((if negb (hs' =? b) then u32 (len' - u32 (b - hs')) else len') = hs' + len' - b) as ->.
    { destruct (Z.eqb_spec hs' b); cbn [negb]; [lia|]. rewrite (u32_small (b - hs')), u32_small by lia. lia. }
    eexists _, _. split; [done|]. split; [apply set_es_step; [done..|intros x; by rewrite (Hsd2 x), (Hsd x)]|]. split; [lia|]. split; [lia|]. intros x Hx. apply Hnone. lia.
  - destruct Hans as (H1 & H2 & Hdel). eexists _, _. split; [done|]. split; [apply set_es_step; [done|by apply Hco|done]|]. split; [lia|]. split; [done|].
    intros x Hx. destruct (Hdel x Hx) as [q Hq]. apply (Hc x _ Hq).
Qed.

Lemma good_step_refl i : good i -> good_step i i.
Proof. by split. Qed.
Lemma good_step_trans i1 i2 i3 : good_step i1 i2 -> good_step i2 i3 -> good_step i1 i3.
Proof. intros [_ ?] [? ?]. split; [done|by eapply same_tree_trans]. Qed.

(** ** The answers of a lookup *)

(** The answer about the [len] blocks from [b] on is so on the disk. *)
Inductive answer (i : ext_inode) (b len : Z) (map : ext4_map_blocks_t) : Z -> Prop :=
| answer_error err : err < 0 -> answer i b len map err
| answer_mapped n st : 0 < n <= len -> m_len map = n ->
    m_flags map = (if st =? EXTENT_STATUS_WRITTEN then EXT4_MAP_MAPPED else EXT4_MAP_UNWRITTEN) ->
    st = EXTENT_STATUS_WRITTEN \/ st = EXTENT_STATUS_UNWRITTEN ->
    (forall x, b <= x < b + n -> file_map i x = Some (st, m_pblk map + (x - b))) -> answer i b len map n
| answer_hole : 0 < m_len map <= len -> m_pblk map = 0 -> (forall x, b <= x < b + m_len map -> file_map i x = None) -> answer i b len map 0.

Lemma answer_same i i' b len map r : same_tree i i' -> answer i' b len map r -> answer i b len map r.
Proof.
  intros H. destruct (same_tree_map i i' H) as (E & _). intros [err ?|n st ? ? ? ? Hm|? ? Hm]; [by apply answer_error|eapply answer_mapped; try done|apply answer_hole; try done]; by rewrite <- E.
Qed.

Lemma ext_map_ok i map : good i -> inode_ok i -> 0 <= m_lblk map < EXT_MAX_BLOCKS -> 0 < m_len map < 2 ^ 32 -> m_flags map = 0 ->
  exists r map' i', ext4_ext_map_blocks sb ext4_chksum env i map = Ok (r, map', i') /\ good_step i i' /\ m_lblk map' = m_lblk map /\
    answer i (m_lblk map) (m_len map) map' r /\
    (xe_alloc (me_tree env) = true -> readable sb ext4_chksum (me_tree env) i (depth_of i) (i_data i) -> 0 <= r).
Proof.
  intros Hg Hi Hb Hl Hf. unfold ext4_ext_map_blocks. set (b := m_lblk map) in *.
  destruct (find_extent_ok sb ext4_chksum Hreplay (me_tree env) i b None 0 Hg Hi) as (res & i1 & -> & Hg1 & Hs1 & Hres). cbn [mbind outcome_bind].
  destruct res as [err|path].
  { destruct Hres as [? Hno]. exists err, map, i1. split; [done|]. split; [done|]. split; [done|]. split; [by apply answer_error|]. intros Ha Hr. by destruct (Hno Ha). }
  destruct Hres as (Hlen & _ & r & Hp). destruct (same_tree_map i i1 Hs1) as (HM & HX & Hi1). specialize (Hi1 Hi). apply (path_to_keeps i i1) in Hp; [|done]. rewrite <- HX in Hp.
  assert (depth_of i1 = depth_of i) as Hdep by (unfold depth_of, ext_depth; by destruct Hs1 as (_ & -> & _)). rewrite <- Hdep in Hlen.
  destruct (leaf_of _ _ _ _ _ Hp Hlen) as (p & -> & Hex). cbn [mbind outcome_bind]. rewrite Hex. cbn [mbind outcome_bind].
  assert ((forall k ex, r = Some (k, ex) -> covers ex b = false) -> exists r0 map' i', (r ← ext4_ext_determine_insert_hole sb (me_mem env) i1 path b;
      let '(len, i) := r in Ok (0, set_m_len (set_m_pblk map 0) (Z.min (m_len map) len), i)) = Ok (r0, map', i') /\ good_step i i' /\ m_lblk map' = b /\ answer i b (m_len map) map' r0 /\
      (xe_alloc (me_tree env) = true -> readable sb ext4_chksum (me_tree env) i (depth_of i) (i_data i) -> 0 <= r0)) as Hhole.
  { intros Hcov. destruct (insert_hole_ok i1 b path r Hg1 Hi1 Hp Hlen Hb Hcov) as (len & i2 & -> & Hstep & Hpos & Hmax & Hnone). cbn [mbind outcome_bind].
    eexists _, _, i2. split; [done|]. split; [by eapply good_step_trans|]. split; [done|]. split; [|lia]. apply answer_hole; cbn; [lia|done|]. intros x Hx. rewrite <- HM. apply Hnone. lia. }
  pose proof (node_exts _ _ _ _ _ (proj2 Hi)) as Hx. fold (inode_exts i) in Hx. rewrite <- HX in Hx.
  destruct Hp as [leaf -> _ He|ups leaf k s l1 l2 _ _ _ He Hle Hgt Hn]; cbn [fmap option_fmap option_map snd].
  { assert (ext_depth i1 = 0) as -> by (cbn in Hlen; unfold depth_of in Hlen; destruct Hi1 as [[? _] _]; lia). cbn [Z.eqb negb]. by apply Hhole. }
  set (ex := slot_extent s) in *. rewrite He in Hx. destruct (exts_ok_elem _ _ _ ex Hx) as (H0 & Hel & Hend & Hpb); [apply elem_of_app; right; left|]. unfold EXT_MAX_BLOCKS in *.
  destruct (in_range32 b (ee_block ex) (ext4_ext_get_actual_len ex)) eqn:Er.
  2:{ apply Hhole. intros k' ex' E. injection E as <- <-. apply not_true_iff_false. intros Hc%covers_spec. apply not_true_iff_false in Er. apply Er. apply in_range32_spec; lia. }
  apply in_range32_spec in Er; [|lia..]. rewrite (u32_small (_ - _)) by lia. rewrite u64_small by lia. eexists _, _, i1. split; [done|]. split; [done|]. split; [done|]. split; [|lia].
  apply (answer_mapped i b (m_len map) _ _ (ext_status ex)); cbn [m_len m_flags m_pblk].
  - lia.
  - done.
  - rewrite Hf. unfold ext_status. by destruct (ext4_ext_is_unwritten ex).
  - unfold ext_status. destruct (ext4_ext_is_unwritten ex); auto.
  - intros x Hxr. rewrite <- HM. unfold file_map. rewrite He, (disk_map_mid 0 l1 ex l2 EXT_MAX_BLOCKS) by (done || apply covers_spec; lia). do 2 f_equal. lia.
Qed.

Lemma file_map_bound i x st p : inode_ok i -> file_map i x = Some (st, p) -> 0 <= p < 2 ^ 58.
Proof.
  intros [_ Hn] E. pose proof (node_exts _ _ _ _ _ Hn) as Hx. fold (inode_exts i) in Hx. unfold file_map in E.
  assert (exists ex, ex ∈ inode_exts i /\ covers ex x = true /\ p = ext4_ext_pblock ex + (x - ee_block ex)) as (ex & Hin & Hc%covers_spec & ->).
  { clear - E. induction (inode_exts i) as [|ex l IH]; [done|]. cbn in E. destruct (covers ex x) eqn:Ec.
    - apply (f_equal (from_option snd 0)) in E. cbn in E. exists ex. split; [left|]. split; [done|]. by symmetry.
    - destruct (IH E) as (y & ? & ?). exists y. split; [by right|done]. }
  destruct (exts_ok_elem _ _ _ ex Hx Hin) as (? & ? & ? & ?). unfold EXT_MAX_BLOCKS in *. lia.
Qed.

Lemma query_ok i map : good i -> inode_ok i -> 0 <= m_lblk map < EXT_MAX_BLOCKS -> 0 < m_len map < 2 ^ 32 -> m_flags map = 0 ->
  exists r map' i', ext4_map_query_blocks sb ext4_chksum env i map = Ok (r, map', i') /\ good_step i i' /\ m_lblk map' = m_lblk map /\
    answer i (m_lblk map) (m_len map) map' r /\
    (xe_alloc (me_tree env) = true -> readable sb ext4_chksum (me_tree env) i (depth_of i) (i_data i) -> 0 <= r).
Proof.
  intros Hg Hi Hb Hl Hf. unfold ext4_map_query_blocks. destruct (ext_map_ok i map Hg Hi Hb Hl Hf) as (r & map' & i1 & -> & Hst & Hlb & Hans & Hr). cbn [mbind outcome_bind].
  destruct (Z.leb_spec r 0); [by exists r, map', i1|]. destruct Hans as [err ?|n st Hn Hlen Hflags Hst2 HM|? ? ?]; [lia| |lia].
  assert ((if has_flag (m_flags map') EXT4_MAP_UNWRITTEN then EXTENT_STATUS_UNWRITTEN else EXTENT_STATUS_WRITTEN) = st) as -> by (rewrite Hflags; by destruct Hst2 as [-> | ->]).
  pose proof Hst as [[He1 Hc1] Hs1]. destruct (same_tree_map i i1 Hs1) as (HM1 & HX1 & _). rewrite Hlb, Hlen.
  assert (forall x, m_lblk map <= x < m_lblk map + n -> x < EXT_MAX_BLOCKS) as Hmax.
  { intros x Hx. destruct (Z.lt_ge_cases x EXT_MAX_BLOCKS); [done|]. specialize (HM x Hx). unfold file_map in HM. rewrite (disk_map_out 0 _ EXT_MAX_BLOCKS) in HM; [discriminate HM|apply (node_exts _ _ _ _ _ (proj2 Hi))|by right]. }
  assert (true_extent (file_map i1) (ext4_es_store_pblock_status (m_lblk map) n (m_pblk map') st)) as Ht.
  { specialize (Hmax (m_lblk map + n - 1)). apply mapped_extent_ok; [lia|lia|lia| |done|intros x Hx; rewrite HM1; by apply HM].
    apply (file_map_bound i (m_lblk map) st); [done|]. rewrite HM by lia. do 2 f_equal. lia. }
  destruct (insert_true (file_map i1) (i_es i1) _ _ _ _ He1 Hc1 Ht) as (c & e2 & -> & He2 & Hc2 & Hd2).
  { intros x Hx [q Hq]. specialize (Hc1 x _ Hq). rewrite HM1, HM in Hc1 by done. discriminate Hc1. }
  cbn [mbind outcome_bind snd]. eexists n, map', _. split; [done|]. split; [eapply good_step_trans; [exact Hst|by apply set_es_step]|]. split; [done|]. split; [|done].
  eapply answer_mapped; [|exact Hlen|exact Hflags|done|done]. lia.
Qed.

(** A hit in the extent status tree. *)
Lemma hit_ok i map es : es_ok (i_es i) -> coherent (file_map i) (i_es i) -> es ∈ nodes (i_es i) -> in_range (m_lblk map) es = true ->
  0 < m_len map <= INT_MAX -> m_flags map = 0 ->
  exists r map', map_from_es map es = Ok (r, map') /\ m_lblk map' = m_lblk map /\ answer i (m_lblk map) (m_len map) map' r /\ 0 <= r.
Proof.
  intros He Hc Hes Hin Hlen Hf. pose proof (ek_list _ He) as Hok. assert (ext_ok es) as Hoe by (eapply Forall_forall; [apply Hok|done]). pose proof Hoe as [H0 Hl Hend Hrg _ Hpb].
  pose proof Hin as Hb%in_range_spec. unfold EXT_MAX_BLOCKS in Hend. unfold INT_MAX in Hlen. set (b := m_lblk map) in *.
  assert (forall x, b <= x < es_lblk es + es_len es -> agrees (content es x) (file_map i x)) as Hag.
  { intros x Hx. apply (Hc x). apply holder_map; [done|done|]. apply in_range_spec. lia. }
  unfold map_from_es. fold b. rewrite u32_small by lia. set (n := es_len es - (b - es_lblk es)).
  set (m := if m_len map <? n then m_len map else n). assert (0 < m <= m_len map /\ b + m <= es_lblk es + es_len es) as [Hm Hmb] by (unfold m, n; destruct (Z.ltb_spec (m_len map) (es_len es - (b - es_lblk es))); lia).
  assert (s32 m = m) as -> by (unfold s32, swrap; rewrite Z.mod_small; lia).
  assert (forall t, ext4_es_type es = t -> t = EXTENT_STATUS_WRITTEN \/ t = EXTENT_STATUS_UNWRITTEN -> ext4_es_is_mapped es = true ->
    forall x, b <= x < b + m -> file_map i x = Some (t, u64 (ext4_es_pblock es + b - es_lblk es) + (x - b))) as Hmapped.
  { intros t Ht Hor Hmp x Hx. specialize (Hag x ltac:(lia)). unfold agrees, content in Hag. rewrite Ht, Hmp in Hag. cbn [fst] in Hag. specialize (Hpb Hmp).
    assert (0 <= ext4_es_pblock es) as Hp0 by (unfold ext4_es_pblock; apply Z.land_nonneg; right; by compute).
    assert (u64 (ext4_es_pblock es + b - es_lblk es) = ext4_es_pblock es + b - es_lblk es) as -> by (apply u64_small; unfold ES_SHIFT in Hpb; lia).
    replace (ext4_es_pblock es + b - es_lblk es + (x - b)) with (ext4_es_pblock es + (x - es_lblk es)) by lia. by destruct Hor as [-> | ->]. }
  assert (forall t, ext4_es_type es = t -> t = EXTENT_STATUS_DELAYED \/ t = EXTENT_STATUS_HOLE -> forall x, b <= x < b + m -> file_map i x = None) as Hhole.
  { intros t Ht Hor x Hx. specialize (Hag x ltac:(lia)). unfold agrees, content in Hag. rewrite Ht in Hag. cbn [fst] in Hag. by destruct Hor as [-> | ->]. }
  clearbody n m. destruct (type_cases es Hoe) as [H|[H|[H|H]]]; destruct H as (Ht & Hm1 & Hh & Hd).
  - assert (ext4_es_is_written es = true) as -> by (unfold ext4_es_is_written; by rewrite Ht). cbn [orb]. eexists _, _. split; [reflexivity|]. split; [reflexivity|]. split; [|lia].
    apply (answer_mapped _ _ _ _ _ EXTENT_STATUS_WRITTEN); cbn [m_len m_flags m_pblk]; [done|done|by rewrite Hf|by left|]. apply (Hmapped _ Ht); [by left|done].
  - assert (ext4_es_is_written es = false) as -> by (unfold ext4_es_is_written; by rewrite Ht). assert (ext4_es_is_unwritten es = true) as -> by (unfold ext4_es_is_unwritten; by rewrite Ht).
    cbn [orb]. eexists _, _. split; [reflexivity|]. split; [reflexivity|]. split; [|lia].
    apply (answer_mapped _ _ _ _ _ EXTENT_STATUS_UNWRITTEN); cbn [m_len m_flags m_pblk]; [done|done|by rewrite Hf|by right|]. apply (Hmapped _ Ht); [by right|done].
  - assert (ext4_es_is_written es = false) as -> by (unfold ext4_es_is_written; by rewrite Ht). assert (ext4_es_is_unwritten es = false) as -> by (unfold ext4_es_is_unwritten; by rewrite Ht).
    rewrite Hd. cbn [orb]. eexists _, _. split; [reflexivity|]. split; [reflexivity|]. split; [|lia]. apply answer_hole; cbn [m_len m_pblk]; [done|done|]. apply (Hhole _ Ht). by left.
  - assert (ext4_es_is_written es = false) as -> by (unfold ext4_es_is_written; by rewrite Ht). assert (ext4_es_is_unwritten es = false) as -> by (unfold ext4_es_is_unwritten; by rewrite Ht).
    rewrite Hd, Hh. cbn [orb]. eexists _, _. split; [reflexivity|]. split; [reflexivity|]. split; [|lia]. apply answer_hole; cbn [m_len m_pblk]; [done|done|]. apply (Hhole _ Ht). by right.
Qed.

(** What follows [found] gives the answer back, or an error if the blocks may not
    be blocks of a file. *)
Lemma finish_ok flags r map i b len : has_flag flags EXT4_GET_BLOCKS_CREATE = false -> answer i b len map r ->
  exists r', finish_lookup sb env flags r map i = Ok (Some r', map, i) /\ (r' = r \/ 0 < r /\ r' < 0 /\ check_block_validity sb env i map <> 0).
Proof.
  intros Hc Ha. unfold finish_lookup. rewrite Hc. set (mapped := (0 <? r) && _). destruct mapped eqn:Em; cbn [negb].
  - apply andb_true_iff in Em as [Hr%Z.ltb_lt _]. destruct (Z.eqb_spec (check_block_validity sb env i map) 0) as [E|E]; cbn [negb]; [exists r; auto|]. exists (check_block_validity sb env i map). split; [done|]. right. split; [done|]. split; [|done].
    revert E. unfold check_block_validity, EFSCORRUPTED. destruct (me_journal env); [done|]. destruct (negb _); [lia|done].
  - exists r. cbn. auto.
Qed.

(** Before the check that the blocks may be blocks of a file the answer is [r0]. *)
Lemma map_blocks_full i map flags : good i -> inode_ok i -> 0 <= m_lblk map < EXT_MAX_BLOCKS -> 0 < m_len map < 2 ^ 32 ->
  has_flag flags EXT4_GET_BLOCKS_CREATE = false -> has_flag flags EXT4_GET_BLOCKS_CACHED_NOWAIT = false ->
  exists r0 r map' i', ext4_map_blocks sb ext4_chksum env i map flags = Ok (Some r, map', i') /\ good_step i i' /\ m_lblk map' = m_lblk map /\
    answer i (m_lblk map) (m_len map) map' r0 /\ (xe_alloc (me_tree env) = true -> readable sb ext4_chksum (me_tree env) i (depth_of i) (i_data i) -> 0 <= r0) /\
    (r = r0 \/ 0 < r0 /\ r < 0 /\ check_block_validity sb env i map' <> 0).
Proof.
  intros Hg Hi Hb Hl Hcr Hnw. unfold ext4_map_blocks. set (map1 := if INT_MAX <? _ then _ else _).
  assert (m_lblk map1 = m_lblk map /\ m_flags map1 = 0 /\ 0 < m_len map1 <= INT_MAX /\ m_len map1 <= m_len map) as (Hlb & Hf & Hlen & Hle).
  { unfold map1, INT_MAX. cbn [set_m_flags m_len]. destruct (Z.ltb_spec (2 ^ 31 - 1) (m_len map)); cbn; lia. }
  rewrite Hlb. destruct (Z.leb_spec EXT_MAX_BLOCKS (m_lblk map)); [lia|]. rewrite Hreplay. cbn [negb]. pose proof Hg as [He Hc].
  destruct (lookup_spec (xs_es sb) (i_es i) (m_lblk map) He Hreplay) as (r & e' & -> & He' & Hsame & Hr). cbn [mbind outcome_bind fst snd]. rewrite Hnw.
  assert (good_step i (set_es i e')) as Hst by (apply set_es_step; [done|by apply (coherent_same _ (i_es i))|intros x; unfold delayed_at; by rewrite Hsame]).
  assert (forall r map' i', good_step i i' -> m_lblk map' = m_lblk map -> answer i (m_lblk map) (m_len map1) map' r -> (xe_alloc (me_tree env) = true -> readable sb ext4_chksum (me_tree env) i (depth_of i) (i_data i) -> 0 <= r) ->
    exists r0 r' map'' i'', finish_lookup sb env flags r map' i' = Ok (Some r', map'', i'') /\ good_step i i'' /\ m_lblk map'' = m_lblk map /\ answer i (m_lblk map) (m_len map) map'' r0 /\
    (xe_alloc (me_tree env) = true -> readable sb ext4_chksum (me_tree env) i (depth_of i) (i_data i) -> 0 <= r0) /\ (r' = r0 \/ 0 < r0 /\ r' < 0 /\ check_block_validity sb env i map'' <> 0)) as Hfin.
  { intros r0 map' i' Hst' Hlb' Ha Hr0. assert (answer i' (m_lblk map) (m_len map1) map' r0) as Ha'.
    { destruct (same_tree_map i i' (proj2 Hst')) as (EM & _). destruct Ha as [err ?|n st ? ? ? ? HM|? ? HM]; [by apply answer_error|eapply answer_mapped; try done|apply answer_hole; try done]; by rewrite EM. }
    destruct (finish_ok flags r0 map' i' _ _ Hcr Ha') as (r' & -> & Hkeep). exists r0, r', map', i'. split; [done|]. split; [done|]. split; [done|]. split; [|split; [done|]].
    - destruct Ha as [err ?|n st ? ? ? ? HM|? ? HM]; [by apply answer_error|eapply answer_mapped; try done; lia|apply answer_hole; try done; lia].
    - revert Hkeep. unfold check_block_validity. by destruct Hst' as [_ ((-> & _) & _)]. }
  destruct r as [[es nx]|].
  - destruct Hr as (Hes & Hin & _). rewrite <- Hlb in Hin. destruct (hit_ok i map1 es He Hc Hes Hin Hlen Hf) as (r & map' & -> & Hlb' & Ha & H0). cbn [mbind outcome_bind fst snd].
    rewrite Hlb in Hlb', Ha. apply Hfin; auto.
  - rewrite <- Hlb in Hb. destruct (same_tree_map i (set_es i e') (proj2 Hst)) as (_ & _ & Hi'). unfold INT_MAX in Hlen.
    destruct (query_ok (set_es i e') map1 (proj1 Hst) (Hi' Hi) Hb) as (r & map' & i2 & -> & Hst2 & Hlb2 & Ha & H0); [lia|done|]. cbn [mbind outcome_bind].
    rewrite Hlb in Hlb2, Ha. apply Hfin; [by eapply good_step_trans|done|by apply (answer_same i (set_es i e')); [apply Hst|]|].
    intros Hal Hrd. apply H0; [done|]. by apply (readable_same sb ext4_chksum (me_tree env) i); [apply Hst|].
Qed.
Lemma map_blocks_ok i map flags : good i -> inode_ok i -> 0 <= m_lblk map < EXT_MAX_BLOCKS -> 0 < m_len map < 2 ^ 32 ->
  has_flag flags EXT4_GET_BLOCKS_CREATE = false -> has_flag flags EXT4_GET_BLOCKS_CACHED_NOWAIT = false ->
  exists r map' i', ext4_map_blocks sb ext4_chksum env i map flags = Ok (Some r, map', i') /\ good_step i i' /\ m_lblk map' = m_lblk map /\
    answer i (m_lblk map) (m_len map) map' r /\
    (xe_alloc (me_tree env) = true -> readable sb ext4_chksum (me_tree env) i (depth_of i) (i_data i) -> check_block_validity sb env i map' = 0 -> 0 <= r).
Proof.
  intros Hg Hi Hb Hl Hcr Hnw. destruct (map_blocks_full i map flags Hg Hi Hb Hl Hcr Hnw) as (r0 & r & map' & i' & E & Hst & Hlb & Ha & H0 & Hr). exists r, map', i'. split; [done|]. split; [done|]. split; [done|].
  destruct Hr as [->|(? & ? & ?)]; [by split; [|auto]|]. split; [by apply answer_error|done].
Qed.
End mapping.

(** ** Histories

    What may happen to the caches of a file whose extents on the disk stay: blocks
    are looked up, all leaves are read, the shrinker takes extents, blocks without
    extents become delayed, and ranges are dropped. *)
Inductive cache_op :=
| CMap (env : map_env) (map : ext4_map_blocks_t) (flags : Z)
| CPrecache (env : ext_env)
| CReclaim (nr : Z)
| CDelay (mem : nat -> es_mem) (lblk len : Z) (lclu_allocated end_allocated : bool)
| CForget (mem : nat -> bool) (lblk len : Z).

Section history.
Context `{Hrb : RbTree} {Hrbok : RbTreeOk}.
Variable sb : ext_sb.
Variable ext4_chksum : ext4_extent_header -> list ext_slot -> Z.

Definition run_cache_op (op : cache_op) (i : ext_inode) : outcome ext_inode :=
  match op with
  | CMap env map flags => r ← ext4_map_blocks sb ext4_chksum env i map flags; Ok r.2
  | CPrecache env => r ← ext4_ext_precache sb ext4_chksum (inode_cost i) env i; Ok r.2
  | CReclaim nr => r ← es_reclaim_extents (i_es i) nr; Ok (set_es i r.2)
  | CDelay mem lblk len lc ec => e ← ext4_es_insert_delayed_extent 3 (xs_es sb) (i_es i) mem lblk len lc ec; Ok (set_es i e)
  | CForget mem lblk len => r ← ext4_es_remove_extent (xs_es sb) (i_es i) mem lblk len; Ok (set_es i r.2)
  end.
Definition cache_op_ok (op : cache_op) (i : ext_inode) : Prop :=
  match op with
  | CMap env map flags => 0 <= m_lblk map < EXT_MAX_BLOCKS /\ 0 < m_len map < 2 ^ 32 /\ has_flag flags EXT4_GET_BLOCKS_CREATE = false /\ has_flag flags EXT4_GET_BLOCKS_CACHED_NOWAIT = false /\
      (1 < s_cluster_ratio (xs_es sb) -> sb_ok (xs_es sb))
  | CPrecache _ | CReclaim _ => True
  | CDelay _ lblk len _ _ => 0 <= lblk /\ 0 < len /\ lblk + len <= EXT_MAX_BLOCKS /\ forall b, lblk <= b < lblk + len -> file_map i b = None
  | CForget _ lblk len => 0 <= lblk /\ 0 < len /\ lblk + len <= EXT_MAX_BLOCKS
  end.
(** The extents on the disk are as before. *)
Definition same_disk (i i' : ext_inode) : Prop := i_ino i' = i_ino i /\ i_data i' = i_data i /\ i_disk i' = i_disk i.

Lemma same_disk_map i i' : same_disk i i' -> file_map i' = file_map i /\ (inode_ok i -> inode_ok i').
Proof. intros (_ & Hd & Hk). unfold file_map, inode_exts, inode_ok, depth_of, ext_depth. by rewrite Hd, Hk. Qed.

(** Fewer blocks are known. *)
Lemma coherent_less M e e' : (forall b, block_map (nodes e') b = block_map (nodes e) b \/ block_map (nodes e') b = None) -> coherent M e -> coherent M e'.
Proof. intros Hl Hc b c Hb. destruct (Hl b) as [E|E]; rewrite E in Hb; [exact (Hc b c Hb)|discriminate Hb]. Qed.

Lemma run_cache_ok op i : s_fc_replay (xs_es sb) = false -> good i -> inode_ok i -> cache_op_ok op i ->
  exists i', run_cache_op op i = Ok i' /\ good i' /\ same_disk i i'.
Proof.
  intros Hr Hg Hi. pose proof Hg as [He Hc]. destruct op as [env map flags|env|nr|mem lblk len lc ec|mem lblk len]; cbn [cache_op_ok run_cache_op].
  - intros (Hb & Hl & Hcr & Hnw & Hp). destruct (map_blocks_ok sb ext4_chksum env Hr Hp i map flags Hg Hi Hb Hl Hcr Hnw) as (r & map' & i' & -> & [? ((? & _) & ? & ?)] & _). by exists i'.
  - intros _. destruct (Z.eq_dec (ext_depth i) 0) as [E|E].
    + unfold ext4_ext_precache. rewrite E. cbn. by exists i.
    + destruct (precache_call sb ext4_chksum Hr env i Hi Hg E) as (ret & i' & -> & _ & ? & ((? & _) & ? & ?) & _). by exists i'.
  - intros _. destruct (reclaim_ok (i_es i) nr He) as (n & left & e' & -> & He' & _ & Hd & _). cbn [mbind outcome_bind snd]. eexists. split; [done|]. split; [|done]. split; [done|].
    eapply coherent_less; [|exact Hc]. intros b. destruct (Hd b) as [?|[? _]]; auto.
  - intros (H0 & Hl & Hm & Hno). destruct (delayed_call_ok (xs_es sb) (i_es i) mem lblk len lc ec He Hr H0 Hl Hm) as (e' & -> & He' & [Hout Hin] & _). cbn [mbind outcome_bind].
    eexists. split; [done|]. split; [|done]. split; [done|]. intros b c Hb. set (n := ext4_es_store_pblock_status _ _ _ _) in *. destruct (in_range b n) eqn:Eb.
    + destruct (Hin b Eb) as [E|[E _]]; cbn [set_es i_es] in Hb; rewrite E in Hb; [|discriminate Hb]. apply (f_equal (from_option fst 0)) in Hb. cbn in Hb.
      change (agrees c (file_map i b)). apply in_range_spec in Eb. rewrite (Hno b Eb). unfold agrees. rewrite <- Hb.
      destruct (new_ext_ok lblk len (2 ^ 64 - 1) EXTENT_STATUS_DELAYED H0 Hl Hm) as [_ Ht]; [by right; right; left|by intros [?|?]|]. fold n in Ht. by rewrite Ht.
    + cbn [set_es i_es] in Hb. destruct (Hout b Eb) as [E|[E _]]; rewrite E in Hb; [exact (Hc b c Hb)|discriminate Hb].
  - intros (H0 & Hl & Hm). destruct (remove_call_ok (xs_es sb) (i_es i) mem lblk len He Hr H0 Hl Hm) as (n & e' & -> & He' & Hf & _). cbn [mbind outcome_bind snd].
    eexists. split; [done|]. split; [|done]. split; [done|]. eapply coherent_less; [|exact Hc]. intros b. destruct (Hf b) as [E|[E _]]; [|auto]. cbn [set_es i_es]. rewrite E. destruct (_ && _); auto.
Qed.

Inductive cache_reach (i0 : ext_inode) : ext_inode -> Prop :=
| cache_start : nodes (i_es i0) = [] -> es_ok (i_es i0) -> cache_reach i0 i0
| cache_next i op i' : cache_reach i0 i -> cache_op_ok op i -> run_cache_op op i = Ok i' -> cache_reach i0 i'.

Lemma cache_reach_ok i0 i : s_fc_replay (xs_es sb) = false -> inode_ok i0 -> cache_reach i0 i -> good i /\ same_disk i0 i.
Proof.
  intros Hr Hi. induction 1 as [Hn He|i op i' _ [Hg Hs] Hop E].
  - split; [|done]. split; [done|]. intros b c. rewrite Hn. intros Hb. discriminate Hb.
  - destruct (run_cache_ok op i Hr Hg (proj2 (same_disk_map _ _ Hs) Hi) Hop) as (i2 & E2 & Hg2 & Hs2). rewrite E in E2. injection E2 as ->. split; [done|].
    destruct Hs as (? & ? & ?), Hs2 as (? & ? & ?). split; [congruence|]. split; congruence.
Qed.
End history.

(** * Properties *)

(** C19: What a lookup of blocks answers is what the extents on the disk say,
    whatever was cached before.  From an empty extent status tree on, through any
    history of lookups, of reading all leaves, of the shrinker, of blocks without
    extents that become delayed and of ranges that are dropped, [ext4_map_blocks]
    without allocation returns, and either reports an error, or blocks that are all
    mapped as the extents say, written or unwritten and where they are, or the
    length of a hole in which no block has an extent; it makes at least one block
    of progress, leaves the same blocks delayed, and reports no error when the nodes
    can be read and the blocks may be blocks of a file. *)
Theorem map_blocks_exact `{RbTreeOk} (sb : ext_sb) (chk : ext4_extent_header -> list ext_slot -> Z) (env : map_env) (i0 i : ext_inode) (map : ext4_map_blocks_t) (flags : Z) :
  s_fc_replay (xs_es sb) = false -> inode_ok i0 -> cache_reach sb chk i0 i -> cache_op_ok sb (CMap env map flags) i ->
  exists r map' i', ext4_map_blocks sb chk env i map flags = Ok (Some r, map', i') /\ same_delayed (i_es i) (i_es i') /\ answer i0 (m_lblk map) (m_len map) map' r /\
    (xe_alloc (me_tree env) = true -> readable sb chk (me_tree env) i (depth_of i) (i_data i) -> check_block_validity sb env i map' = 0 -> 0 <= r).
Proof.
  intros Hr Hi0 Hreach (Hb & Hl & Hcr & Hnw & Hp). destruct (cache_reach_ok sb chk i0 i Hr Hi0 Hreach) as [Hg Hs]. destruct (same_disk_map _ _ Hs) as [EM Hi].
  destruct (map_blocks_ok sb chk env Hr Hp i map flags Hg (Hi Hi0) Hb Hl Hcr Hnw) as (r & map' & i' & E & [_ ((_ & Hd) & _)] & _ & Ha & H0r).
  exists r, map', i'. split; [done|]. split; [done|]. split; [|done].
  destruct Ha as [err ?|n st ? ? ? ? HM|? ? HM]; [by apply answer_error|eapply answer_mapped; try done|apply answer_hole; try done]; by rewrite <- EM.
Qed.

(** A block past the largest file is refused. *)
Theorem map_blocks_past_end `{RbTree} (sb : ext_sb) (chk : ext4_extent_header -> list ext_slot -> Z) (env : map_env) (i : ext_inode) (map : ext4_map_blocks_t) (flags : Z) :
  EXT_MAX_BLOCKS <= m_lblk map -> exists map', ext4_map_blocks sb chk env i map flags = Ok (Some (- EFSCORRUPTED), map', i).
Proof.
  intros Hb. unfold ext4_map_blocks. set (map1 := if _ <? _ then _ else _). exists map1. assert (m_lblk map1 = m_lblk map) as -> by (unfold map1; by destruct (_ <? _)).
  destruct (Z.leb_spec EXT_MAX_BLOCKS (m_lblk map)); [done|lia].
Qed.

(** The checks of the nodes do not compare a leaf with the index behind it: a tree
    all of whose nodes pass, but in which an extent of one leaf runs over the key of
    the next, hides the blocks behind it.  Here block 15 is in the extent of blocks
    0 to 19, and the lookup answers that it is in a hole. *)
Definition overlap_leaf1 : ext_node := demo_node 0 340 [extent_slot (Ext4Extent 0 20 0 1000)].
Definition overlap_blocks (b : Z) : ext_node := if b =? 300 then overlap_leaf1 else if b =? 301 then demo_leaf2 else demo_node 0 340 [].
Definition overlap_inode : ext_inode := ExtInode 12 demo_root ext4_es_init_tree overlap_blocks ∅ false.
Definition plenty : nat -> es_mem := fun _ => EsMem true true true true.
Theorem overlap_passes_checks :
  ext4_ext_check_inode demo_ext_sb demo_chksum overlap_inode = 0 /\ readable demo_ext_sb demo_chksum demo_env overlap_inode 1 (i_data overlap_inode) /\
  file_map overlap_inode 15 = Some (EXTENT_STATUS_WRITTEN, 1015) /\
  exists map' i', @ext4_map_blocks list_shape demo_ext_sb demo_chksum (MapEnv demo_env plenty false) overlap_inode (MapBlocksT 0 15 1 0) 0 = Ok (Some 0, map', i').
Proof.
  split; [by vm_compute|]. split; [repeat constructor; by vm_compute|]. split; [by vm_compute|]. eexists _, _. vm_compute. reflexivity.
Qed.

(** ** Witnesses *)

Lemma map_blocks_exact_witness :
  exists r map' i', @ext4_map_blocks list_shape demo_ext_sb demo_chksum (MapEnv demo_env plenty false) demo_inode (MapBlocksT 0 11 8 0) 0 = Ok (Some r, map', i') /\
    same_delayed (i_es demo_inode) (i_es i') /\ answer demo_inode 11 8 map' r /\
    (xe_alloc demo_env = true -> readable demo_ext_sb demo_chksum demo_env demo_inode (depth_of demo_inode) (i_data demo_inode) ->
     check_block_validity demo_ext_sb (MapEnv demo_env plenty false) demo_inode map' = 0 -> 0 <= r).
Proof.
  apply (@map_blocks_exact list_shape list_shape_ok); [reflexivity|apply demo_inode_ok|apply cache_start; [reflexivity|apply init_tree_ok]|].
  split; [by vm_compute|]. split; [by vm_compute|]. split; [reflexivity|]. split; [reflexivity|]. by vm_compute.
Defined.
