(* ===== verification/ExtLeaf.v ===== *)
(** Changing the slots of a node of the extent tree: writing, moving and counting
    slots, and merging extents that continue each other. *)

From S2P Require Import Prelude Friend ExtStatus ExtTree.

(** ** Slots *)

Definition set_entries (n : ext_node) (e : Z) : ext_node :=
  let h := n_hdr n in ExtNode (ExtentHeader (eh_magic h) e (eh_max h) (eh_depth h) (eh_generation h)) (n_slots n) (n_tail n).
Definition set_slots (n : ext_node) (l : list ext_slot) : ext_node := ExtNode (n_hdr n) l (n_tail n).

Definition put_slot (n : ext_node) (k : Z) (s : ext_slot) : outcome ext_node :=
  if (0 <=? k) && (k <? Z.of_nat (length (n_slots n))) then Ok (set_slots n (<[Z.to_nat k := s]> (n_slots n))) else Bug.

(** [memmove] of [len] slots from [src] to [dst]. *)
Definition move_slots (n : ext_node) (dst src len : Z) : outcome ext_node :=
  if (0 <=? dst) && (0 <=? src) && (0 <=? len) && (dst + len <=? Z.of_nat (length (n_slots n))) && (src + len <=? Z.of_nat (length (n_slots n))) then
    let l := n_slots n in
    Ok (set_slots n (take (Z.to_nat dst) l ++ take (Z.to_nat len) (drop (Z.to_nat src) l) ++ drop (Z.to_nat (dst + len)) l))
  else Bug.

(** ** Merging *)

Definition EXT_UNWRITTEN_MAX_LEN : Z := EXT_INIT_MAX_LEN - 1.

Definition ext4_can_extents_be_merged (ex1 ex2 : ext4_extent) : bool :=
  let len1 := ext4_ext_get_actual_len ex1 in
  let len2 := ext4_ext_get_actual_len ex2 in
  if negb (Bool.eqb (ext4_ext_is_unwritten ex1) (ext4_ext_is_unwritten ex2)) then false
  else if negb (u32 (ee_block ex1 + len1) =? ee_block ex2) then false
  else if EXT_INIT_MAX_LEN <? len1 + len2 then false
  else if ext4_ext_is_unwritten ex1 && (EXT_UNWRITTEN_MAX_LEN <? len1 + len2) then false
  else ext4_ext_pblock ex1 + len1 =? ext4_ext_pblock ex2.

Definition set_len (ex : ext4_extent) (len : Z) : ext4_extent :=
  {| ee_block := ee_block ex; ee_len := u16 len; ee_start_hi := ee_start_hi ex; ee_start_lo := ee_start_lo ex |}.
Definition set_block (ex : ext4_extent) (b : Z) : ext4_extent :=
  {| ee_block := b; ee_len := ee_len ex; ee_start_hi := ee_start_hi ex; ee_start_lo := ee_start_lo ex |}.

(** The length of two extents, which are unwritten or not as [ex] is. *)
Definition join_len (ex : ext4_extent) (len : Z) (unwritten : bool) : outcome ext4_extent :=
  if unwritten then ext4_ext_mark_unwritten (set_len ex len) else Ok (set_len ex len).

(** The loop of [ext4_ext_try_to_merge_right] at the slot [k]: whether extents were
    merged, and the node. *)
Fixpoint merge_loop (fuel : nat) (n : ext_node) (k : Z) (merge_done : bool) : outcome (bool * ext_node) :=
  if negb (k <? entries n - 1) then Ok (merge_done, n)
  else match fuel with
  | O => Hang
  | S fuel =>
      s1 ← slot_at n k;
      s2 ← slot_at n (k + 1);
      let ex1 := slot_extent s1 in
      let ex2 := slot_extent s2 in
      if negb (ext4_can_extents_be_merged ex1 ex2) then Ok (merge_done, n)
      else
        ex ← join_len ex1 (ext4_ext_get_actual_len ex1 + ext4_ext_get_actual_len ex2) (ext4_ext_is_unwritten ex1);
        n ← put_slot n k (extent_slot ex);
        n ← (if k + 1 <? entries n - 1 then move_slots n (k + 1) (k + 2) (entries n - k - 2) else Ok n);
        merge_loop fuel (set_entries n (u16 (entries n - 1))) k true
  end.
Definition ext4_ext_try_to_merge_right (n : ext_node) (k : Z) : outcome (bool * ext_node) :=
  merge_loop (Z.to_nat (entries n)) n k false.

(** The part of [ext4_ext_try_to_merge] that is about the leaf. *)
Definition merge_neighbours (n : ext_node) (k : Z) : outcome ext_node :=
  r ← (if 0 <? k then ext4_ext_try_to_merge_right n (k - 1) else Ok (false, n));
  if negb r.1 then r ← ext4_ext_try_to_merge_right r.2 k; Ok r.2 else Ok r.2.

(** * Lemmas *)

(** What changes of slots keep of a node. *)
Definition same_kind (n n' : ext_node) : Prop :=
  eh_magic (n_hdr n') = eh_magic (n_hdr n) /\ eh_max (n_hdr n') = eh_max (n_hdr n) /\ eh_depth (n_hdr n') = eh_depth (n_hdr n) /\
  length (n_slots n') = length (n_slots n).

Lemma same_kind_refl n : same_kind n n.
Proof. done. Qed.
Lemma same_kind_trans n1 n2 n3 : same_kind n1 n2 -> same_kind n2 n3 -> same_kind n1 n3.
Proof. intros (? & ? & ? & ?) (? & ? & ? & ?). split_and!; congruence. Qed.
#[export] Hint Resolve same_kind_refl : core.

(** Slots that are a part of the node: [used] is a prefix of them. *)
Lemma used_prefix n l : used n = l -> 0 <= entries n <= Z.of_nat (length (n_slots n)) -> exists rest, n_slots n = l ++ rest /\ entries n = Z.of_nat (length l).
Proof.
  intros <- He. exists (drop (Z.to_nat (entries n)) (n_slots n)). unfold used. rewrite take_drop, length_take. split; [done|lia].
Qed.
Lemma used_intro n l rest : n_slots n = l ++ rest -> entries n = Z.of_nat (length l) -> used n = l /\ 0 <= entries n <= Z.of_nat (length (n_slots n)).
Proof. intros E He. unfold used. rewrite E, He, Nat2Z.id, take_app_length, length_app. split; [done|lia]. Qed.
Lemma slots_ok_intro n l rest : n_slots n = l ++ rest -> entries n = Z.of_nat (length l) -> Forall slot_ok l -> slots_ok n /\ used n = l.
Proof. intros E He Hl. destruct (used_intro n l rest E He) as [Hu Hb]. split; [split; [done|by rewrite Hu]|done]. Qed.

(** Writing a slot, taking one out, and putting one in. *)
Lemma put_slot_eq n l1 x r s' : n_slots n = l1 ++ x :: r ->
  exists n', put_slot n (Z.of_nat (length l1)) s' = Ok n' /\ n_slots n' = l1 ++ s' :: r /\ same_kind n n' /\ entries n' = entries n.
Proof.
  intros Es. unfold put_slot. rewrite Es, length_app, Nat2Z.id. cbn [length]. rewrite (proj2 (Z.leb_le _ _)), (proj2 (Z.ltb_lt _ _)) by lia. cbn [andb].
  eexists. split; [done|]. rewrite insert_app_r_alt, Nat.sub_diag by lia. cbn [list_insert insert]. unfold same_kind. split_and!; try done. cbn. by rewrite Es, !length_app.
Qed.
Lemma put_used n l1 s l2 s' : slots_ok n -> used n = l1 ++ s :: l2 -> slot_ok s' ->
  exists n', put_slot n (Z.of_nat (length l1)) s' = Ok n' /\ slots_ok n' /\ used n' = l1 ++ s' :: l2 /\ same_kind n n' /\ entries n' = entries n.
Proof.
  intros [Hb Hok] Eu Hs'. destruct (used_prefix n _ Eu Hb) as (rest & Es & Ee). rewrite <- app_assoc in Es. rewrite Eu in Hok. apply Forall_app in Hok as [? [_ ?]%Forall_cons].
  destruct (put_slot_eq n l1 s (l2 ++ rest) s' Es) as (n' & E & En & Hk & He). exists n'.
  destruct (slots_ok_intro n' (l1 ++ s' :: l2) rest) as [? ?]; [by rewrite <- app_assoc|rewrite He, Ee, !length_app; done|by apply Forall_app_2; [|constructor]|]. by split_and!.
Qed.

(** Moving slots, as lists. *)
Lemma move_slots_eq n dst src len a b c l : n_slots n = l ->
  0 <= dst -> 0 <= src -> 0 <= len -> dst + len <= Z.of_nat (length l) -> src + len <= Z.of_nat (length l) ->
  take (Z.to_nat dst) l = a -> take (Z.to_nat len) (drop (Z.to_nat src) l) = b -> drop (Z.to_nat (dst + len)) l = c ->
  exists n', move_slots n dst src len = Ok n' /\ n_slots n' = a ++ b ++ c /\ same_kind n n' /\ entries n' = entries n.
Proof.
  intros <- ? ? ? ? ? <- <- <-. unfold move_slots. rewrite !(proj2 (Z.leb_le _ _)) by lia. cbn [andb]. eexists. split; [done|]. split; [done|]. split; [|done].
  unfold same_kind. split_and!; try done. cbn [n_slots set_slots]. rewrite !length_app, !length_take, !length_drop. lia.
Qed.
Lemma take_drop_parts {A} (l1 l2 l3 : list A) (k m : nat) : k = length l1 -> m = length l2 -> take k (l1 ++ l2 ++ l3) = l1 /\ take m (drop k (l1 ++ l2 ++ l3)) = l2 /\ drop (k + m) (l1 ++ l2 ++ l3) = l3.
Proof. intros -> ->. rewrite take_app_length, drop_app_length, take_app_length, <- drop_drop, drop_app_length, drop_app_length. done. Qed.

(** The slots behind the slot [k] move down by one. *)
Lemma drop_used n l1 s l2 : slots_ok n -> used n = l1 ++ s :: l2 ->
  exists n' rest, move_slots n (Z.of_nat (length l1)) (Z.of_nat (length l1) + 1) (Z.of_nat (length l2)) = Ok n' /\
    n_slots n' = l1 ++ l2 ++ rest /\ (0 < length rest)%nat /\ same_kind n n' /\ entries n' = entries n.
Proof.
  intros [Hb _] Eu. destruct (used_prefix n _ Eu Hb) as (rest & Es & Ee). rewrite <- app_assoc in Es. cbn [app] in Es. rewrite length_app in Ee. cbn [length] in Ee.
  destruct (take_drop_parts l1 (take (length l2) (s :: l2)) (drop (length l2) (s :: l2) ++ rest) (length l1) (length l2)) as (E1 & _ & E3); [done|rewrite length_take; cbn; lia|].
  rewrite (app_assoc (take _ _)), take_drop in E1, E3.
  destruct (take_drop_parts (l1 ++ [s]) l2 rest (length l1 + 1) (length l2)) as (_ & E2 & _); [by rewrite length_app|done|]. rewrite <- app_assoc in E2. cbn [app] in E2, E1, E3.
  destruct (move_slots_eq n (Z.of_nat (length l1)) (Z.of_nat (length l1) + 1) (Z.of_nat (length l2)) l1 l2 (drop (length l2) (s :: l2) ++ rest) _ Es) as (n' & E & En & Hk & He); try lia.
  1,2: rewrite length_app; cbn [length]; rewrite length_app; lia.
  - by rewrite Nat2Z.id.
  - rewrite Nat2Z.id. by replace (Z.to_nat (Z.of_nat (length l1) + 1)) with (length l1 + 1)%nat by lia.
  - by replace (Z.to_nat (Z.of_nat (length l1) + Z.of_nat (length l2))) with (length l1 + length l2)%nat by lia.
  - exists n', (drop (length l2) (s :: l2) ++ rest). split_and!; try done. rewrite length_app, length_drop. cbn. lia.
Qed.
Lemma remove_used n l1 s l2 : slots_ok n -> used n = l1 ++ s :: l2 ->
  exists n', move_slots n (Z.of_nat (length l1)) (Z.of_nat (length l1) + 1) (Z.of_nat (length l2)) = Ok n' /\ entries n' = entries n /\
    slots_ok (set_entries n' (entries n - 1)) /\ used (set_entries n' (entries n - 1)) = l1 ++ l2 /\ same_kind n n'.
Proof.
  intros Hs Eu. pose proof (used_entries n l1 s l2 Hs Eu) as He. destruct (drop_used n l1 s l2 Hs Eu) as (n' & rest & E & En & _ & Hk & He'). exists n'. split; [done|]. split; [done|].
  destruct Hs as [_ Hok]. rewrite Eu in Hok. apply Forall_app in Hok as [? [_ ?]%Forall_cons].
  destruct (slots_ok_intro (set_entries n' (entries n - 1)) (l1 ++ l2) rest); [by rewrite <- app_assoc|rewrite length_app; cbn; lia|by apply Forall_app|done].
Qed.

(** The slots from [k] on move up by one, and a slot is put there. *)
Lemma insert_used n l1 l2 s' : slots_ok n -> used n = l1 ++ l2 -> entries n < Z.of_nat (length (n_slots n)) -> slot_ok s' ->
  exists n1 n2, (if 0 <? Z.of_nat (length l2) then move_slots n (Z.of_nat (length l1) + 1) (Z.of_nat (length l1)) (Z.of_nat (length l2)) else Ok n) = Ok n1 /\ entries n1 = entries n /\
    put_slot (set_entries n1 (entries n + 1)) (Z.of_nat (length l1)) s' = Ok n2 /\
    slots_ok n2 /\ used n2 = l1 ++ s' :: l2 /\ same_kind n n2 /\ entries n2 = entries n + 1.
Proof.
  intros [Hb Hok] Eu Hroom Hs'. destruct (used_prefix n _ Eu Hb) as (rest & Es & Ee). rewrite Eu in Hok. apply Forall_app in Hok as [Hl1 Hl2]. rewrite <- app_assoc in Es.
  rewrite length_app in Ee. destruct rest as [|y rest]; [rewrite app_nil_r in Es; rewrite Es, length_app in Hroom; lia|].
  assert (exists n1 x rest', (if 0 <? Z.of_nat (length l2) then move_slots n (Z.of_nat (length l1) + 1) (Z.of_nat (length l1)) (Z.of_nat (length l2)) else Ok n) = Ok n1 /\
    n_slots n1 = l1 ++ x :: l2 ++ rest' /\ same_kind n n1 /\ entries n1 = entries n) as (n1 & x & rest' & -> & Es1 & Hk1 & He1).
  { destruct l2 as [|a l2]; [by exists n, y, rest|]. destruct (Z.ltb_spec 0 (Z.of_nat (length (a :: l2)))); [|cbn in *; lia].
    destruct (take_drop_parts l1 (a :: l2) (y :: rest) (length l1) (length (a :: l2))) as (_ & E2 & _); [done..|].
    destruct (take_drop_parts (l1 ++ [a]) (l2 ++ [y]) rest (length l1 + 1) (length (a :: l2))) as (E1 & _ & E3); [by rewrite length_app|rewrite length_app; cbn; lia|].
    assert ((l1 ++ [a]) ++ (l2 ++ [y]) ++ rest = l1 ++ (a :: l2) ++ y :: rest) as Ex by (by rewrite <- !app_assoc). rewrite Ex in E1, E3.
    destruct (move_slots_eq n (Z.of_nat (length l1) + 1) (Z.of_nat (length l1)) (Z.of_nat (length (a :: l2))) (l1 ++ [a]) (a :: l2) rest _ Es) as (n' & E & En & ? & ?); try lia.
    1,2: rewrite !length_app; cbn; lia.
    - by replace (Z.to_nat (Z.of_nat (length l1) + 1)) with (length l1 + 1)%nat by lia.
    - by rewrite !Nat2Z.id.
    - by replace (Z.to_nat (Z.of_nat (length l1) + 1 + Z.of_nat (length (a :: l2)))) with (length l1 + 1 + length (a :: l2))%nat by lia.
    - exists n', a, rest. split_and!; try done. rewrite En, <- app_assoc. done. }
  destruct (put_slot_eq (set_entries n1 (entries n + 1)) l1 x (l2 ++ rest') s' Es1) as (n2 & E2 & En2 & Hk2 & He2). cbn [n_slots set_entries] in *. exists n1, n2.
  destruct (slots_ok_intro n2 (l1 ++ s' :: l2) rest') as [? ?]; [by rewrite <- app_assoc|rewrite He2; cbn; rewrite length_app; cbn; lia|by apply Forall_app_2; [|constructor]|].
  split_and!; try done. by apply (same_kind_trans _ n1).
Qed.
