(* ===== verification/ExtEdit.v ===== *)
(** Changing the extent tree on the disk: the state and its monad, journal access
    to nodes, correcting and removing indexes, and removing blocks from a leaf and
    from the tree ([ext4_ext_remove_space]). *)

From S2P Require Import Prelude Friend ExtStatus ExtInsert ExtRemove ExtOps SysZone ExtTree ExtLeaf.

(** ** State *)

(** A call of [ext4_free_blocks]. *)
Record free_call := FreeCall { f_block : Z; f_count : Z; f_flags : Z }.

Inductive partial_state := initial | tofree | nofree.
Record partial_cluster := PartialCluster { pclu : Z; pc_lblk : Z; pc_state : partial_state }.
#[export] Instance partial_state_eq_dec : EqDecision partial_state.
Proof. solve_decision. Defined.

(** The inode with its nodes; the calls of [ext4_free_blocks] so far; what the
    allocator will answer, an error or a block; what asking for journal credits will
    answer; the partial cluster; the clusters reserved again. *)
Record edit_state := EditState {
  x_inode : ext_inode; x_freed : list free_call; x_new : list (Z + Z); x_credits : list Z; x_partial : partial_cluster; x_reserved : Z
}.
Definition set_inode (s : edit_state) (i : ext_inode) : edit_state := EditState i (x_freed s) (x_new s) (x_credits s) (x_partial s) (x_reserved s).
Definition set_partial (s : edit_state) (p : partial_cluster) : edit_state := EditState (x_inode s) (x_freed s) (x_new s) (x_credits s) p (x_reserved s).
Definition add_freed (s : edit_state) (f : free_call) : edit_state := EditState (x_inode s) (x_freed s ++ [f]) (x_new s) (x_credits s) (x_partial s) (x_reserved s).

(** What the journal and the block layer answer, by block, 0 or an error; whether
    the journal extends a handle; the flags for freeing data blocks of this kind of
    file; memory for the extent status tree. *)
Record edit_env := EditEnv {
  ed_tree : ext_env; ed_access : Z -> Z; ed_create : Z -> Z; ed_dirty : option Z -> Z; ed_getblk : Z -> bool; ed_start : Z; ed_extend : Z;
  ed_flags : Z; ed_zeroout : Z -> Z -> Z; ed_mem : nat -> es_mem
}.

(** Code that may return an error. *)
Definition edit (A : Type) : Type := edit_state -> outcome ((Z + A) * edit_state).
#[export] Instance edit_ret : MRet edit := fun A a s => Ok (inr a, s).
#[export] Instance edit_bind : MBind edit := fun A B f m s =>
  match m s with Ok (inr a, s') => f a s' | Ok (inl e, s') => Ok (inl e, s') | Bug => Bug | Hang => Hang end.
Definition lift {A} (o : outcome A) : edit A := fun s => match o with Ok a => Ok (inr a, s) | Bug => Bug | Hang => Hang end.
Definition fail {A} (e : Z) : edit A := fun s => Ok (inl e, s).
Definition check (e : Z) : edit unit := if e =? 0 then mret tt else fail e.
Definition try {A} (m : edit A) : edit (Z + A) := fun s => match m s with Ok (r, s') => Ok (inr r, s') | Bug => Bug | Hang => Hang end.
Definition gets {A} (f : edit_state -> A) : edit A := fun s => Ok (inr (f s), s).
Definition modify (f : edit_state -> edit_state) : edit unit := fun s => Ok (inr tt, f s).
(** Code on the inode that returns an error or a result. *)
Definition on_inode {A} (f : ext_inode -> outcome ((Z + A) * ext_inode)) : edit A :=
  fun s => match f (x_inode s) with Ok (r, i) => Ok (r, set_inode s i) | Bug => Bug | Hang => Hang end.

Definition EAGAIN : Z := 11.
Definition EXT4_FREE_BLOCKS_METADATA : Z := 1.
Definition EXT4_FREE_BLOCKS_FORGET : Z := 2.
Definition EXT4_FREE_BLOCKS_NOFREE_FIRST_CLUSTER : Z := 16.
Definition EXT4_FREE_BLOCKS_NOFREE_LAST_CLUSTER : Z := 32.
Definition EXT4_FREE_BLOCKS_RERESERVE_CLUSTER : Z := 64.
Definition EXT4_EX_NOFAIL : Z := 268435456.

(** ** Nodes *)

Definition set_node_of (i : ext_inode) (bh : option Z) (n : ext_node) : ext_inode :=
  match bh with
  | None => ExtInode (i_ino i) n (i_es i) (i_disk i) (i_verified i) (i_precached i)
  | Some b => ExtInode (i_ino i) (i_data i) (i_es i) (fun b' => if b' =? b then n else i_disk i b') (i_verified i) (i_precached i)
  end.
Definition clear_verified (i : ext_inode) (b : Z) : ext_inode :=
  ExtInode (i_ino i) (i_data i) (i_es i) (i_disk i) (i_verified i ∖ {[ b ]}) (i_precached i).

Definition get_node (bh : option Z) : edit ext_node := gets (fun s => node_of (x_inode s) bh).
Definition put_node (bh : option Z) (n : ext_node) : edit unit := modify (fun s => set_inode s (set_node_of (x_inode s) bh n)).
Definition get_slot (bh : option Z) (k : Z) : edit ext_slot := n ← get_node bh; lift (slot_at n k).
Definition clear_buffer_verified (bh : option Z) : edit unit :=
  match bh with None => mret tt | Some b => modify (fun s => set_inode s (clear_verified (x_inode s) b)) end.
Definition set_buffer_verified (bh : option Z) : edit unit :=
  match bh with None => mret tt | Some b => modify (fun s => set_inode s (set_verified (x_inode s) b)) end.
Definition ext4_free_blocks (block count flags : Z) : edit unit := modify (fun s => add_freed s (FreeCall block count flags)).

Section edit.
Context `{Hrb : RbTree}.
Variable sb : ext_sb.
Variable ext4_chksum : ext4_extent_header -> list ext_slot -> Z.
Variable env : edit_env.

(** The checksum is written behind the slots there is room for. *)
Definition ext4_extent_block_csum_set (n : ext_node) : ext_node :=
  if negb (xs_csum sb) then n
  else
    let c := ext4_extent_block_csum ext4_chksum n in
    let k := Z.to_nat (eh_max (n_hdr n)) in
    match n_slots n !! k with
    | Some s => set_slots n (<[k := ExtSlot c (sw1 s) (sw2 s)]> (n_slots n))
    | None => ExtNode (n_hdr n) (n_slots n) c
    end.

Definition ext4_ext_get_access (bh : option Z) : edit unit :=
  match bh with
  | None => mret tt
  | Some b => check (ed_access env b) ≫= fun _ => clear_buffer_verified bh
  end.
Definition __ext4_ext_dirty (bh : option Z) : edit unit :=
  match bh with
  | None => check (ed_dirty env None)
  | Some b =>
    n ← get_node bh;
    put_node bh (ext4_extent_block_csum_set n) ≫= fun _ =>
    check (ed_dirty env bh) ≫= fun _ => set_buffer_verified bh
  end.

(** ** Indexes

    A path is a list from the leaf up to the root. *)

Definition p_slot (p : ext4_ext_path) : edit Z := match p_idx p with Some k => mret k | None => lift Bug end.
(** [p_idx->ei_block] and its assignment. *)
Definition get_key (p : ext4_ext_path) : edit Z := k ← p_slot p; s ← get_slot (p_bh p) k; mret (sw0 s).
Definition set_key (p : ext4_ext_path) (border : Z) : edit unit :=
  k ← p_slot p; n ← get_node (p_bh p); s ← lift (slot_at n k); n ← lift (put_slot n k (ExtSlot border (sw1 s) (sw2 s))); put_node (p_bh p) n.
Definition first_index (p : ext4_ext_path) : bool := bool_decide (p_idx p = Some 0).

Definition write_key (p : ext4_ext_path) (border : Z) : edit unit :=
  ext4_ext_get_access (p_bh p) ≫= fun _ => set_key p border ≫= fun _ => __ext4_ext_dirty (p_bh p).
Fixpoint clear_all (ps : list ext4_ext_path) : edit unit :=
  match ps with [] => mret tt | p :: ps => clear_buffer_verified (p_bh p) ≫= fun _ => clear_all ps end.

(** The indexes above [q] are changed as long as they are for the same first block;
    [below] are those changed so far. *)
Fixpoint indexes_up (key : ext4_ext_path -> edit Z) (below : list ext4_ext_path) (q : ext4_ext_path) (ups : list ext4_ext_path) : edit unit :=
  match ups with
  | [] => mret tt
  | r :: ups =>
    if negb (first_index q) then mret tt
    else
      res ← try (border ← key q; write_key r border);
      match res with
      | inl err => clear_all below ≫= fun _ => fail err
      | inr _ => indexes_up key (r :: below) r ups
      end
  end.

Definition ext4_ext_correct_indexes (path : list ext4_ext_path) : edit unit :=
  match path with
  | [] => lift Bug
  | p :: ups =>
    match p_ext p, ups with
    | None, _ => fail (- EFSCORRUPTED)
    | Some _, [] => mret tt
    | Some k, q :: ups =>
      if negb (k =? 0) then mret tt
      else
        s ← get_slot (p_bh p) k;
        write_key q (sw0 s) ≫= fun _ => indexes_up (fun _ => mret (sw0 s)) [q] q ups
    end
  end.

(** [ups] are the nodes above the one that is empty. *)
Definition ext4_ext_rm_idx (ups : list ext4_ext_path) : edit unit :=
  match ups with
  | [] => lift Bug
  | q :: ups =>
    k ← p_slot q;
    n ← get_node (p_bh q);
    s ← lift (slot_at n k);
    let leaf := ext4_idx_pblock (slot_idx s) in
    if entries n =? 0 then fail (- EFSCORRUPTED)
    else
      ext4_ext_get_access (p_bh q) ≫= fun _ =>
      n ← (if negb (k =? entries n - 1) then lift (move_slots n k (k + 1) (entries n - 1 - k)) else mret n);
      put_node (p_bh q) (set_entries n (u16 (entries n - 1))) ≫= fun _ =>
      __ext4_ext_dirty (p_bh q) ≫= fun _ =>
      ext4_free_blocks leaf 1 (Z.lor EXT4_FREE_BLOCKS_METADATA EXT4_FREE_BLOCKS_FORGET) ≫= fun _ =>
      indexes_up get_key [q] q ups
  end.

(** ** Removing blocks from a leaf *)

Definition EXT4_C2B (clu : Z) : Z := Z.shiftl clu (s_cluster_bits (xs_es sb)).
Definition EXT4_PBLK_CMASK (pblk : Z) : Z := Z.ldiff pblk (s_cluster_ratio (xs_es sb) - 1).
Definition bigalloc : bool := 1 <? s_cluster_ratio (xs_es sb).

Definition ext4_rereserve_cluster (lblk : Z) : edit unit :=
  modify (fun s => let i := x_inode s in
    EditState (set_es i (__remove_pending (xs_es sb) (i_es i) lblk)) (x_freed s) (x_new s) (x_credits s) (x_partial s) (x_reserved s + 1)).

(** A cluster is freed; if it has a delayed block it stays reserved. *)
Definition free_cluster (block lblk : Z) : edit unit :=
  i ← gets x_inode;
  let pending := ext4_is_pending (xs_es sb) (i_es i) lblk in
  ext4_free_blocks block (s_cluster_ratio (xs_es sb)) (if pending then Z.lor (ed_flags env) EXT4_FREE_BLOCKS_RERESERVE_CLUSTER else ed_flags env) ≫= fun _ =>
  if pending then ext4_rereserve_cluster lblk else mret tt.
Definition free_partial : edit unit := p ← gets x_partial; free_cluster (EXT4_C2B (pclu p)) (pc_lblk p).
Definition put_partial (p : partial_cluster) : edit unit := modify (fun s => set_partial s p).
Definition reset_partial : edit unit := p ← gets x_partial; put_partial (PartialCluster (pclu p) (pc_lblk p) initial).

Definition ext4_remove_blocks (ex : ext4_extent) (from to : Z) : edit unit :=
  let ee_len := ext4_ext_get_actual_len ex in
  let last_pblk := ext4_ext_pblock ex + ee_len - 1 in
  let B2C := EXT4_B2C (xs_es sb) in
  if (from <? ee_block ex) || negb (to =? u32 (ee_block ex + ee_len - 1)) then mret tt
  else
    p ← gets x_partial;
    (if bool_decide (pc_state p <> initial) && negb (pclu p =? B2C last_pblk) then
       (if bool_decide (pc_state p = tofree) then free_partial else mret tt) ≫= fun _ => reset_partial
     else mret tt) ≫= fun _ =>
    let num := u32 (ee_block ex + ee_len - from) in
    let pblk := ext4_ext_pblock ex + ee_len - num in
    p ← gets x_partial;
    (if negb (EXT4_LBLK_COFF (xs_es sb) to =? s_cluster_ratio (xs_es sb) - 1) && (from <=? EXT4_LBLK_CMASK (xs_es sb) to) && bool_decide (pc_state p <> nofree) then
       free_cluster (EXT4_PBLK_CMASK last_pblk) to ≫= fun _ => reset_partial
     else mret tt) ≫= fun _ =>
    ext4_free_blocks pblk num (Z.lor (Z.lor (ed_flags env) EXT4_FREE_BLOCKS_NOFREE_LAST_CLUSTER) EXT4_FREE_BLOCKS_NOFREE_FIRST_CLUSTER) ≫= fun _ =>
    p ← gets x_partial;
    (if bool_decide (pc_state p <> initial) && negb (pclu p =? B2C pblk) then reset_partial else mret tt) ≫= fun _ =>
    p ← gets x_partial;
    if negb (EXT4_LBLK_COFF (xs_es sb) from =? 0) && (num =? ee_len) then
      if bool_decide (pc_state p = initial) then put_partial (PartialCluster (B2C pblk) from tofree) else mret tt
    else reset_partial.

(** What [ext4_datasem_ensure_credits] returns. *)
Definition ensure_credits : edit Z := fun s =>
  match x_credits s with
  | [] => Ok (inr 0, s)
  | c :: cs => Ok (inr c, EditState (x_inode s) (x_freed s) (x_new s) cs (x_partial s) (x_reserved s))
  end.

(** The extent of the slot [k] of the leaf, of which the blocks from [a] on are
    removed: shortened, or taken out. *)
Definition cut_extent (n : ext_node) (k num end_ : Z) (ex : ext4_extent) : outcome ext_node :=
  let unwritten := ext4_ext_is_unwritten ex in
  let ex := if num =? 0 then ext4_ext_store_pblock ex 0 else ex in
  ex ← join_len ex num (unwritten && negb (num =? 0));
  n ← put_slot n k (extent_slot ex);
  if num =? 0 then
    n ← (if negb (end_ =? EXT_MAX_BLOCKS - 1) then
           n ← move_slots n k (k + 1) (entries n - 1 - k);
           put_slot n (entries n - 1) (ExtSlot 0 0 0)
         else Ok n);
    Ok (set_entries n (u16 (entries n - 1)))
  else Ok n.

(** The loop of [ext4_ext_rm_leaf] at the slot [k]: where it stops, whether the
    first extent was changed, and [p_ext]. *)
Fixpoint rm_leaf_loop (fuel : nat) (bh : option Z) (start end_ k : Z) (correct_index : bool) (p_ext : option Z) : edit (Z * bool * option Z) :=
  n ← get_node bh;
  if k <? 0 then mret (k, correct_index, p_ext)
  else
    s ← lift (slot_at n k);
    let ex := slot_extent s in
    let ex_ee_block := ee_block ex in
    let ex_ee_len := ext4_ext_get_actual_len ex in
    if negb (start <? u32 (ex_ee_block + ex_ee_len)) then mret (k, correct_index, p_ext)
    else match fuel with
    | O => lift Hang
    | S fuel =>
      let last := u32 (ex_ee_block + ex_ee_len - 1) in
      let a := Z.max ex_ee_block start in
      let b := Z.min last end_ in
      if end_ <? ex_ee_block then
        (if bigalloc then p ← gets x_partial; put_partial (PartialCluster (EXT4_B2C (xs_es sb) (ext4_ext_pblock ex)) (pc_lblk p) nofree) else mret tt) ≫= fun _ =>
        rm_leaf_loop fuel bh start end_ (k - 1) correct_index (Some k)
      else if negb (b =? last) then fail (- EFSCORRUPTED)
      else
        let num := a - ex_ee_block in
        c ← ensure_credits;
        check (if 0 <? c then - EAGAIN else c) ≫= fun _ =>
        ext4_ext_get_access bh ≫= fun _ =>
        ext4_remove_blocks ex a b ≫= fun _ =>
        n ← get_node bh;
        n ← lift (cut_extent n k num end_ ex);
        put_node bh n ≫= fun _ =>
        __ext4_ext_dirty bh ≫= fun _ =>
        rm_leaf_loop fuel bh start end_ (k - 1) (correct_index || (k =? 0)) (Some k)
    end.

Definition ext4_ext_rm_leaf (path : list ext4_ext_path) (start end_ : Z) : edit unit :=
  match path with
  | [] => lift Bug
  | p :: ups =>
    n ← get_node (p_bh p);
    r ← rm_leaf_loop (S (Z.to_nat (entries n))) (p_bh p) start end_ (match p_ext p with Some k => k | None => entries n - 1 end) false (p_ext p);
    let '(k, correct_index, ext) := r in
    n ← get_node (p_bh p);
    res ← try (if correct_index && negb (entries n =? 0) then ext4_ext_correct_indexes (ExtPath (p_block p) (p_depth p) ext (p_idx p) (p_bh p) :: ups) else mret tt);
    pc ← gets x_partial;
    (if bool_decide (pc_state pc = tofree) && (0 <=? k) then
       s ← get_slot (p_bh p) k;
       let ex := slot_extent s in
       let pblk := ext4_ext_pblock ex + ext4_ext_get_actual_len ex - 1 in
       (if negb (pclu pc =? EXT4_B2C (xs_es sb) pblk) then free_partial else mret tt) ≫= fun _ => reset_partial
     else mret tt) ≫= fun _ =>
    match res with
    | inl err => fail err
    | inr _ =>
      n ← get_node (p_bh p);
      if (entries n =? 0) && bool_decide (p_bh p <> None) then ext4_ext_rm_idx ups else mret tt
    end
  end.
End edit.
