(* ===== verification/ExtSplit.v ===== *)
(** Inserting into the extent tree on the disk: merging, new leaves and indexes,
    growing the tree, [ext4_ext_insert_extent], and splitting an extent. *)

From S2P Require Import Prelude Friend ExtStatus ExtInsert ExtRemove ExtOps SysZone ExtTree ExtLeaf ExtEdit.

Definition ENOSPC : Z := 28.
Definition EDQUOT : Z := 122.
Definition EXT4_GET_BLOCKS_PRE_IO : Z := 8.
Definition EXT4_GET_BLOCKS_METADATA_NOFAIL : Z := 32.
Definition EXT4_EXT_MAY_ZEROOUT : Z := 1.
Definition EXT4_EXT_MARK_UNWRIT1 : Z := 2.
Definition EXT4_EXT_MARK_UNWRIT2 : Z := 4.
Definition EXT4_EXT_DATA_VALID1 : Z := 8.
Definition EXT4_EXT_DATA_VALID2 : Z := 16.

Section split.
Context `{Hrb : RbTree}.
Variable sb : ext_sb.
Variable ext4_chksum : ext4_extent_header -> list ext_slot -> Z.
Variable env : edit_env.
Notation dirty := (__ext4_ext_dirty sb ext4_chksum env).
Notation access := (ext4_ext_get_access env).

(** [ext4_find_extent], with the path from the leaf up. *)
Definition find_extent (block : Z) (maxdepth : option Z) (flags : Z) : edit (list ext4_ext_path) :=
  on_inode (fun i => r ← ext4_find_extent sb ext4_chksum (ed_tree env) i block maxdepth flags; Ok (match r.1 with inl e => inl e | inr p => inr (reverse p) end, r.2)).

Definition set_p_ext (p : ext4_ext_path) (k : option Z) : ext4_ext_path := ExtPath (p_block p) (p_depth p) k (p_idx p) (p_bh p).
Definition set_first_ext (path : list ext4_ext_path) (k : option Z) : list ext4_ext_path := match path with [] => [] | p :: ups => set_p_ext p k :: ups end.

(** ** Merging *)

(** The extents of the only leaf go to the inode, if there is space. *)
Definition ext4_ext_try_to_merge_up (path : list ext4_ext_path) : edit (list ext4_ext_path) :=
  match path with
  | [leaf; root] =>
    n ← get_node (p_bh leaf);
    r ← get_node (p_bh root);
    if negb (entries r =? 1) || (ext4_ext_space_root <? entries n) then mret path
    else if negb (ed_extend env =? 0) then mret path
    else
      k ← p_slot root;
      s ← lift (slot_at r k);
      let h := n_hdr n in
      let slots := take (Z.to_nat (entries n)) (n_slots n) ++ drop (Z.to_nat (entries n)) (n_slots r) in
      put_node (p_bh root) (ExtNode (ExtentHeader (eh_magic h) (eh_entries h) ext4_ext_space_root (eh_depth h) (eh_generation h)) slots (n_tail r)) ≫= fun _ =>
      ext4_free_blocks (ext4_idx_pblock (slot_idx s)) 1 (Z.lor EXT4_FREE_BLOCKS_METADATA EXT4_FREE_BLOCKS_FORGET) ≫= fun _ =>
      mret [ExtPath (p_block root) 0 (p_ext leaf) (p_idx root) (p_bh root)]
  | _ => mret path
  end.
Definition ext4_ext_try_to_merge (path : list ext4_ext_path) (k : Z) : edit (list ext4_ext_path) :=
  match path with
  | [] => lift Bug
  | p :: _ =>
    n ← get_node (p_bh p);
    n ← lift (merge_neighbours n k);
    put_node (p_bh p) n ≫= fun _ => ext4_ext_try_to_merge_up path
  end.

(** ** New nodes *)

(** An index for [logical] in the node of [curp], before or after the one its path
    goes through. *)
Definition ext4_ext_insert_index (curp : ext4_ext_path) (logical ptr : Z) : edit unit :=
  access (p_bh curp) ≫= fun _ =>
  k ← p_slot curp;
  n ← get_node (p_bh curp);
  s ← lift (slot_at n k);
  if logical =? sw0 s then fail (- EFSCORRUPTED)
  else if eh_max (n_hdr n) <=? entries n then fail (- EFSCORRUPTED)
  else
    let ix := if sw0 s <? logical then k + 1 else k in
    if eh_max (n_hdr n) - 1 <? ix then fail (- EFSCORRUPTED)
    else
      let len := entries n - ix in
      lift (BUG_ON (len <? 0)) ≫= fun _ =>
      n' ← (if 0 <? len then lift (move_slots n (ix + 1) ix len) else mret n);
      old ← lift (slot_at n' ix);
      n' ← lift (put_slot (set_entries n' (u16 (entries n + 1))) ix
             (idx_slot (ext4_idx_store_pblock {| ei_block := logical; ei_leaf_lo := ei_leaf_lo (slot_idx old); ei_leaf_hi := ei_leaf_hi (slot_idx old); ei_unused := ei_unused (slot_idx old) |} ptr)));
      put_node (p_bh curp) n' ≫= fun _ =>
      if entries n' - 1 <? ix then fail (- EFSCORRUPTED) else dirty (p_bh curp).

(** [ext4_new_meta_blocks]. *)
Definition ext4_ext_new_meta_block : edit Z := fun s =>
  match x_new s with
  | [] => Ok (inl (- ENOSPC), s)
  | r :: rs => Ok (r, EditState (x_inode s) (x_freed s) rs (x_credits s) (x_partial s) (x_reserved s))
  end.
(** So many blocks, the last one first, and the error if there are not enough. *)
Fixpoint new_blocks (n : nat) (ablocks : list Z) : edit (list Z * Z) :=
  match n with
  | O => mret (ablocks, 0)
  | S n => r ← try ext4_ext_new_meta_block; match r with inl err => mret (ablocks, err) | inr b => new_blocks n (b :: ablocks) end
  end.

Definition new_node (depth : Z) (l : list ext_slot) : ext_node :=
  let size := Z.to_nat (ext4_ext_space_block sb) in
  ExtNode (ExtentHeader EXT4_EXT_MAGIC (Z.of_nat (length l)) (ext4_ext_space_block sb) depth 0) (l ++ replicate (size - length l) (ExtSlot 0 0 0)) 0.
(** The slots of a full node behind [k]. *)
Definition slots_behind (n : ext_node) (k : Z) : list ext_slot :=
  take (Z.to_nat (eh_max (n_hdr n) - 1 - k)) (drop (Z.to_nat (k + 1)) (n_slots n)).
(** The node keeps the slots up to [k]. *)
Definition keep_slots (bh : option Z) (moved : list ext_slot) : edit unit :=
  match moved with
  | [] => mret tt
  | _ => access bh ≫= fun _ => n ← get_node bh; put_node bh (set_entries n (u16 (entries n - Z.of_nat (length moved)))) ≫= fun _ => dirty bh
  end.

(** The new leaf. *)
Definition split_leaf (p : ext4_ext_path) (k newblock : Z) : edit unit :=
  n ← get_node (p_bh p);
  let moved := slots_behind n k in
  (if negb (ed_getblk env newblock) then fail (- ENOMEM) else mret tt) ≫= fun _ =>
  check (ed_create env newblock) ≫= fun _ =>
  (if negb (entries n =? eh_max (n_hdr n)) then fail (- EFSCORRUPTED) else mret tt) ≫= fun _ =>
  put_node (Some newblock) (ext4_extent_block_csum_set sb ext4_chksum (new_node 0 moved)) ≫= fun _ =>
  check (ed_dirty env (Some newblock)) ≫= fun _ =>
  keep_slots (p_bh p) moved.
(** A new index node at height [h], with an index for [oldblock] in front of what is
    behind the path. *)
Definition split_index (p : ext4_ext_path) (h border oldblock newblock : Z) : edit unit :=
  k ← p_slot p;
  n ← get_node (p_bh p);
  let moved := slots_behind n k in
  let fidx := idx_slot (ext4_idx_store_pblock {| ei_block := border; ei_leaf_lo := 0; ei_leaf_hi := 0; ei_unused := 0 |} oldblock) in
  (if negb (ed_getblk env newblock) then fail (- ENOMEM) else mret tt) ≫= fun _ =>
  check (ed_create env newblock) ≫= fun _ =>
  (if negb (entries n =? eh_max (n_hdr n)) then fail (- EFSCORRUPTED) else mret tt) ≫= fun _ =>
  put_node (Some newblock) (ext4_extent_block_csum_set sb ext4_chksum (new_node h (fidx :: moved))) ≫= fun _ =>
  check (ed_dirty env (Some newblock)) ≫= fun _ =>
  keep_slots (p_bh p) moved.
(** The index nodes from height [h] on get new right halves, as long as there are
    new blocks; the last one gets an index. *)
Fixpoint split_up (h border oldblock : Z) (ablocks : list Z) (ups : list ext4_ext_path) : edit unit :=
  match ups with
  | [] => lift Bug
  | q :: ups =>
    match ablocks with
    | [] => ext4_ext_insert_index q border oldblock
    | newblock :: ablocks => split_index q h border oldblock newblock ≫= fun _ => split_up (h + 1) border newblock ablocks ups
    end
  end.

Fixpoint free_all (l : list Z) : edit unit :=
  match l with [] => mret tt | b :: l => ext4_free_blocks b 1 EXT4_FREE_BLOCKS_METADATA ≫= fun _ => free_all l end.

(** [ext4_ext_split] at the node that is [levels] above the leaf. *)
Definition ext4_ext_split (path : list ext4_ext_path) (newext : ext4_extent) (levels : nat) : edit unit :=
  match path with
  | [] => lift Bug
  | p :: ups =>
    k ← (match p_ext p with Some k => mret k | None => lift Bug end);
    n ← get_node (p_bh p);
    if eh_max (n_hdr n) - 1 <? k then fail (- EFSCORRUPTED)
    else
      border ← (if negb (k =? eh_max (n_hdr n) - 1) then s ← lift (slot_at n (k + 1)); mret (sw0 s) else mret (ee_block newext));
      if negb (xe_alloc (ed_tree env)) then fail (- ENOMEM)
      else
        r ← new_blocks levels [];
        let '(ablocks, err) := r in
        res ← try (
          check err ≫= fun _ =>
          match ablocks with
          | [] => lift Bug
          | leaf :: rest =>
            (if leaf =? 0 then fail (- EFSCORRUPTED) else mret tt) ≫= fun _ =>
            split_leaf p k leaf ≫= fun _ => split_up 1 border leaf rest ups
          end);
        match res with
        | inl err => free_all (reverse ablocks) ≫= fun _ => fail err
        | inr _ => mret tt
        end
  end.

(** [ext4_ext_grow_indepth]: the root becomes a block of its own under a new root. *)
Definition ext4_ext_grow_indepth : edit unit :=
  newblock ← ext4_ext_new_meta_block;
  if negb (ed_getblk env newblock) then fail (- ENOMEM)
  else
    check (ed_create env newblock) ≫= fun _ =>
    n ← get_node None;
    let h := n_hdr n in
    let size := Z.to_nat (ext4_ext_space_block sb) in
    let max := if negb (eh_depth h =? 0) then ext4_ext_space_block_idx sb else ext4_ext_space_block sb in
    put_node (Some newblock) (ext4_extent_block_csum_set sb ext4_chksum
      (ExtNode (ExtentHeader EXT4_EXT_MAGIC (eh_entries h) max (eh_depth h) (eh_generation h)) (n_slots n ++ replicate (size - length (n_slots n)) (ExtSlot 0 0 0)) 0)) ≫= fun _ =>
    set_buffer_verified (Some newblock) ≫= fun _ =>
    check (ed_dirty env (Some newblock)) ≫= fun _ =>
    s ← lift (slot_at n 0);
    n' ← lift (put_slot n 0 (idx_slot (ext4_idx_store_pblock (slot_idx s) newblock)));
    put_node None (ExtNode (ExtentHeader (eh_magic h) 1 (if eh_depth h =? 0 then ext4_ext_space_root_idx else eh_max h) (u16 (eh_depth h + 1)) (eh_generation h)) (n_slots n') (n_tail n')) ≫= fun _ =>
    check (ed_dirty env None).

Definition has_free_index (p : ext4_ext_path) : edit bool := n ← get_node (p_bh p); mret (entries n <? eh_max (n_hdr n)).
(** The lowest node with a free slot, counted from the leaf up. *)
Fixpoint free_level (levels : nat) (p : ext4_ext_path) (ups : list ext4_ext_path) : edit (option nat) :=
  b ← has_free_index p;
  if b : bool then mret (Some levels) else match ups with [] => mret None | q :: ups => free_level (S levels) q ups end.

Fixpoint create_loop (fuel : nat) (maxdepth : Z) (path : list ext4_ext_path) (newext : ext4_extent) (gb_flags : Z) : edit (list ext4_ext_path) :=
  match fuel, path with
  | O, _ => lift Hang
  | _, [] => lift Bug
  | S fuel, p :: ups =>
    l ← free_level 0 p ups;
    match l with
    | Some levels => ext4_ext_split path newext levels ≫= fun _ => find_extent (ee_block newext) (Some maxdepth) gb_flags
    | None =>
      ext4_ext_grow_indepth ≫= fun _ =>
      path ← find_extent (ee_block newext) (Some maxdepth) gb_flags;
      match path with
      | [] => lift Bug
      | p :: _ => n ← get_node (p_bh p); if entries n =? eh_max (n_hdr n) then create_loop fuel maxdepth path newext gb_flags else mret path
      end
    end
  end.
(** The path is one that [ext4_find_extent] has allocated. *)
Definition ext4_ext_create_new_leaf (path : list ext4_ext_path) (newext : ext4_extent) (gb_flags : Z) : edit (list ext4_ext_path) :=
  create_loop 2 (Z.of_nat (length path)) path newext gb_flags.

(** ** Inserting an extent *)

(** The slot next to which the extent may go, and whether it may be appended there. *)
Definition near_slot (n : ext_node) (k : Z) (newext : ext4_extent) : outcome (Z * bool) :=
  s ← slot_at n k;
  let ex := slot_extent s in
  if (k <? entries n - 1) && (u32 (ee_block ex + ext4_ext_get_actual_len ex) <? ee_block newext) then Ok (k + 1, false)
  else if (0 <? k) && (u32 (ee_block newext + ext4_ext_get_actual_len newext) <? ee_block ex) then Ok (k - 1, true)
  else Ok (k, true).
(** The extent is made a part of one next to it. *)
Definition join_near (p : ext4_ext_path) (k : Z) (newext : ext4_extent) : edit (option Z) :=
  n ← get_node (p_bh p);
  r ← lift (near_slot n k newext);
  let '(k, append) := r in
  s ← lift (slot_at n k);
  let ex := slot_extent s in
  let len := ext4_ext_get_actual_len ex + ext4_ext_get_actual_len newext in
  let join ex := ex ← lift (join_len ex len (ext4_ext_is_unwritten ex)); n ← lift (put_slot n k (extent_slot ex)); put_node (p_bh p) n ≫= fun _ => mret (Some k) in
  if append && ext4_can_extents_be_merged ex newext then access (p_bh p) ≫= fun _ => join ex
  else if ext4_can_extents_be_merged newext ex then access (p_bh p) ≫= fun _ => join (ext4_ext_store_pblock (set_block ex (ee_block newext)) (ext4_ext_pblock newext))
  else mret None.

(** A path to a leaf with a free slot. *)
Definition leaf_with_space (path : list ext4_ext_path) (newext : ext4_extent) (gb_flags : Z) : edit (list ext4_ext_path) :=
  match path with
  | [] => lift Bug
  | p :: _ =>
    n ← get_node (p_bh p);
    if entries n <? eh_max (n_hdr n) then mret path
    else
      fex ← lift (slot_at n (entries n - 1));
      i ← gets x_inode;
      next ← (if sw0 fex <? ee_block newext then lift (ext4_ext_next_leaf_block i (reverse path)) else mret EXT_MAX_BLOCKS);
      npath ← (if negb (next =? EXT_MAX_BLOCKS) then find_extent next None gb_flags else mret []);
      match npath with
      | [] => ext4_ext_create_new_leaf path newext gb_flags
      | q :: _ =>
        lift (BUG_ON (negb (length npath =? length path)%nat)) ≫= fun _ =>
        n ← get_node (p_bh q);
        if entries n <? eh_max (n_hdr n) then mret npath else ext4_ext_create_new_leaf path newext gb_flags
      end
  end.

(** From the label [has_space]: the path, with the slot of the new extent. *)
Definition insert_slot (path : list ext4_ext_path) (newext : ext4_extent) : edit (Z * list ext4_ext_path) :=
  match path with
  | [] => lift Bug
  | p :: _ =>
    access (p_bh p) ≫= fun _ =>
    n ← get_node (p_bh p);
    nearex ← (match p_ext p with
              | None => mret 0
              | Some k =>
                s ← lift (slot_at n k);
                if sw0 s <? ee_block newext then mret (k + 1) else lift (BUG_ON (ee_block newext =? sw0 s)) ≫= fun _ => mret k
              end);
    let len := entries n - nearex in
    n' ← (if bool_decide (p_ext p <> None) && (0 <? len) then lift (move_slots n (nearex + 1) nearex len) else mret n);
    let new := ext4_ext_store_pblock {| ee_block := ee_block newext; ee_len := ee_len newext; ee_start_hi := 0; ee_start_lo := 0 |} (ext4_ext_pblock newext) in
    n' ← lift (put_slot (set_entries n' (u16 (entries n + 1))) nearex (extent_slot new));
    put_node (p_bh p) n' ≫= fun _ => mret (nearex, set_first_ext path (Some nearex))
  end.

Definition ext4_ext_insert_extent (path : list ext4_ext_path) (newext : ext4_extent) (gb_flags : Z) : edit (list ext4_ext_path) :=
  if ext4_ext_get_actual_len newext =? 0 then fail (- EFSCORRUPTED)
  else
    let pre_io := has_flag gb_flags EXT4_GET_BLOCKS_PRE_IO in
    match path with
    | [] => lift Bug
    | p :: _ =>
      joined ← (match p_ext p with Some k => if pre_io then mret None else join_near p k newext | None => mret None end);
      r ← (match joined with
           | Some k => mret (k, path)
           | None => path ← leaf_with_space path newext gb_flags; insert_slot path newext
           end);
      let '(nearex, path) := r in
      path ← (if negb pre_io then ext4_ext_try_to_merge path nearex else mret path);
      ext4_ext_correct_indexes sb ext4_chksum env path ≫= fun _ =>
      match path with [] => lift Bug | p :: _ => dirty (p_bh p) ≫= fun _ => mret path end
    end.

(** ** Splitting an extent *)

(** [ext4_zeroout_es]. *)
Definition ext4_zeroout_es (ex : ext4_extent) : edit unit := fun s =>
  let len := ext4_ext_get_actual_len ex in
  if len =? 0 then Ok (inr tt, s)
  else
    r ← ext4_es_insert_extent 3 (xs_es sb) (i_es (x_inode s)) (ed_mem env) (ee_block ex) len (ext4_ext_pblock ex) EXTENT_STATUS_WRITTEN;
    Ok (inr tt, set_inode s (set_es (x_inode s) r.2)).

(** [ex2] could not be inserted: the extent is zeroed if that may be, or gets its
    length back. *)
Definition split_failed (ee_len : Z) (orig_ex ex2 : ext4_extent) (split_flag flags err : Z) : edit (list ext4_ext_path) :=
  path ← find_extent (ee_block orig_ex) None (Z.lor flags EXT4_EX_NOFAIL);
  match path with
  | [] => lift Bug
  | p :: _ =>
    k ← (match p_ext p with Some k => mret k | None => lift Bug end);
    let fix_extent_len err :=
      n ← get_node (p_bh p);
      s ← lift (slot_at n k);
      n ← lift (put_slot n k (extent_slot (set_len (slot_extent s) (Friend.ee_len orig_ex))));
      put_node (p_bh p) n ≫= fun _ => try (dirty (p_bh p)) ≫= fun _ => fail err in
    if has_flag split_flag EXT4_EXT_MAY_ZEROOUT then
      s ← get_slot (p_bh p) k;
      let ex := slot_extent s in
      let zero := if has_flag split_flag (Z.lor EXT4_EXT_DATA_VALID1 EXT4_EXT_DATA_VALID2) then if has_flag split_flag EXT4_EXT_DATA_VALID1 then ex2 else ex else orig_ex in
      let zero_ex := ext4_ext_store_pblock (set_len zero (ext4_ext_get_actual_len zero)) (ext4_ext_pblock zero) in
      let err := ed_zeroout env (ext4_ext_pblock zero) (ext4_ext_get_actual_len zero) in
      if err =? 0 then
        n ← get_node (p_bh p);
        n ← lift (put_slot n k (extent_slot (set_len ex ee_len)));
        put_node (p_bh p) n ≫= fun _ =>
        path ← ext4_ext_try_to_merge path k;
        match path with [] => lift Bug | p :: _ => dirty (p_bh p) ≫= fun _ => ext4_zeroout_es zero_ex ≫= fun _ => mret path end
      else fix_extent_len err
    else fix_extent_len err
  end.

Definition ext4_split_extent_at (path : list ext4_ext_path) (split split_flag flags : Z) : edit (list ext4_ext_path) :=
  lift (BUG_ON (Z.land split_flag (Z.lor EXT4_EXT_DATA_VALID1 EXT4_EXT_DATA_VALID2) =? Z.lor EXT4_EXT_DATA_VALID1 EXT4_EXT_DATA_VALID2)) ≫= fun _ =>
  match path with
  | [] => lift Bug
  | p :: _ =>
    k ← (match p_ext p with Some k => mret k | None => lift Bug end);
    n ← get_node (p_bh p);
    s ← lift (slot_at n k);
    let ex := slot_extent s in
    let ee_len := ext4_ext_get_actual_len ex in
    let newblock := split - ee_block ex + ext4_ext_pblock ex in
    lift (BUG_ON ((split <? ee_block ex) || (u32 (ee_block ex + ee_len) <=? split))) ≫= fun _ =>
    lift (BUG_ON (negb (ext4_ext_is_unwritten ex) && has_flag split_flag (Z.lor EXT4_EXT_MAY_ZEROOUT (Z.lor EXT4_EXT_MARK_UNWRIT1 EXT4_EXT_MARK_UNWRIT2)))) ≫= fun _ =>
    access (p_bh p) ≫= fun _ =>
    if split =? ee_block ex then
      ex ← (if has_flag split_flag EXT4_EXT_MARK_UNWRIT2 then lift (ext4_ext_mark_unwritten ex) else mret (ext4_ext_mark_initialized ex));
      n ← lift (put_slot n k (extent_slot ex));
      put_node (p_bh p) n ≫= fun _ =>
      path ← (if negb (has_flag flags EXT4_GET_BLOCKS_PRE_IO) then ext4_ext_try_to_merge path k else mret path);
      match path with [] => lift Bug | p :: _ => dirty (p_bh p) ≫= fun _ => mret path end
    else
      ex1 ← lift (join_len ex (split - ee_block ex) (has_flag split_flag EXT4_EXT_MARK_UNWRIT1));
      n ← lift (put_slot n k (extent_slot ex1));
      put_node (p_bh p) n ≫= fun _ =>
      res ← try (dirty (p_bh p));
      match res with
      | inl err =>
        n ← get_node (p_bh p);
        n ← lift (put_slot n k (extent_slot (set_len ex1 (Friend.ee_len ex))));
        put_node (p_bh p) n ≫= fun _ => try (dirty (p_bh p)) ≫= fun _ => fail err
      | inr _ =>
        ex2 ← lift (join_len (ext4_ext_store_pblock (set_block ex split) newblock) (ee_len - (split - ee_block ex)) (has_flag split_flag EXT4_EXT_MARK_UNWRIT2));
        res ← try (ext4_ext_insert_extent path ex2 flags);
        match res with
        | inr path => mret path
        | inl err =>
          if negb (err =? - ENOSPC) && negb (err =? - EDQUOT) && negb (err =? - ENOMEM) then fail err
          else split_failed ee_len ex ex2 split_flag flags err
        end
      end
  end.

(** Splitting keeps whether the extent is unwritten. *)
Definition ext4_force_split_extent_at (path : list ext4_ext_path) (lblk : Z) (nofail : bool) : edit (list ext4_ext_path) :=
  match path with
  | [] => lift Bug
  | p :: _ =>
    k ← (match p_ext p with Some k => mret k | None => lift Bug end);
    s ← get_slot (p_bh p) k;
    let unwritten := ext4_ext_is_unwritten (slot_extent s) in
    let flags := Z.lor EXT4_EX_NOCACHE EXT4_GET_BLOCKS_PRE_IO in
    let flags := if nofail then Z.lor flags (Z.lor EXT4_GET_BLOCKS_METADATA_NOFAIL EXT4_EX_NOFAIL) else flags in
    ext4_split_extent_at path lblk (if unwritten then Z.lor EXT4_EXT_MARK_UNWRIT1 EXT4_EXT_MARK_UNWRIT2 else 0) flags
  end.
End split.
