(* ===== verification/ExtSpace.v ===== *)
(** Removing a range of blocks from a file: [ext4_ext_remove_space]. *)

From S2P Require Import Prelude Friend ExtStatus ExtInsert ExtRemove ExtOps SysZone ExtTree ExtLeaf ExtEdit ExtSplit.

Section space.
Context `{Hrb : RbTree}.
Variable sb : ext_sb.
Variable ext4_chksum : ext4_extent_header -> list ext_slot -> Z.
Variable env : edit_env.

(** ** The next extent *)

(** Down the first indexes to a leaf. *)
Fixpoint leftmost (d : nat) (ix : ext4_extent_idx) : edit ext_slot :=
  b ← on_inode (fun i => read_extent_tree_block sb ext4_chksum (ed_tree env) i ix (Z.of_nat d) 0);
  s ← get_slot (Some b) 0;
  match d with O => mret s | S d => leftmost d (slot_idx s) end.
(** The first index to the right, and the leaf under it; [h] is the height. *)
Fixpoint right_index (h : nat) (ups : list ext4_ext_path) : edit (option ext_slot) :=
  match ups with
  | [] => mret None
  | q :: ups =>
    k ← p_slot q;
    n ← get_node (p_bh q);
    if negb (k =? entries n - 1) then s ← lift (slot_at n (k + 1)); s ← leftmost h (slot_idx s); mret (Some s)
    else right_index (S h) ups
  end.
(** [ext4_ext_search_right]: the extent to the right, if there is one; its first
    block and physical block are the other results. *)
Definition ext4_ext_search_right (path : list ext4_ext_path) (logical : Z) : edit (option ext4_extent) :=
  match path with
  | [] => fail (- EFSCORRUPTED)
  | p :: ups =>
    match p_ext p with
    | None => match ups with [] => mret None | _ => lift Bug end
    | Some k =>
      n ← get_node (p_bh p);
      s ← lift (slot_at n k);
      let ex := slot_extent s in
      if logical <? ee_block ex then
        if negb (k =? 0) then fail (- EFSCORRUPTED)
        else if forallb first_index ups then mret (Some (slot_extent s)) else fail (- EFSCORRUPTED)
      else if logical <? u32 (ee_block ex + ext4_ext_get_actual_len ex) then fail (- EFSCORRUPTED)
      else if negb (k =? entries n - 1) then s ← lift (slot_at n (k + 1)); mret (Some (slot_extent s))
      else r ← right_index 0 ups; mret (slot_extent <$> r)
    end
  end.

(** ** The walk *)

(** Whether the index the path is at has to be looked at. *)
Definition ext4_ext_more_to_rm (p : ext4_ext_path) : edit bool :=
  k ← p_slot p;
  n ← get_node (p_bh p);
  mret (negb ((k <? 0) || (entries n =? p_block p))).

Definition set_p_idx (p : ext4_ext_path) (k block : Z) : ext4_ext_path := ExtPath block (p_depth p) (p_ext p) (Some k) (p_bh p).

(** The loop of [ext4_ext_remove_space]: [stk] are the nodes from the one at hand up
    to the root. *)
Fixpoint rm_loop (fuel : nat) (depth : nat) (start end_ : Z) (stk : list ext4_ext_path) : edit unit :=
  match stk with
  | [] => mret tt
  | p :: ups =>
    match fuel with
    | O => lift Hang
    | S fuel =>
      if (length ups =? depth)%nat then ext4_ext_rm_leaf sb ext4_chksum env stk start end_ ≫= fun _ => rm_loop fuel depth start end_ ups
      else
        n ← get_node (p_bh p);
        let p := match p_idx p with None => set_p_idx p (entries n - 1) (entries n + 1) | Some k => set_p_idx p (k - 1) (p_block p) end in
        more ← ext4_ext_more_to_rm p;
        if more : bool then
          k ← p_slot p;
          s ← lift (slot_at n k);
          b ← on_inode (fun i => read_extent_tree_block sb ext4_chksum (ed_tree env) i (slot_idx s) (Z.of_nat (depth - length ups - 1)) EXT4_EX_NOCACHE);
          rm_loop fuel depth start end_ (ExtPath 0 0 None None (Some b) :: set_p_idx p k (entries n) :: ups)
        else
          (if (entries n =? 0) && negb (length ups =? 0)%nat then ext4_ext_rm_idx sb ext4_chksum env ups else mret tt) ≫= fun _ =>
          rm_loop fuel depth start end_ ups
    end
  end.

(** ** The split at the end of the range *)

(** The path to the leaf of the last block, with its extent cut behind the range;
    none if the file has no extents. *)
Definition find_end (start end_ : Z) : edit (option (list ext4_ext_path)) :=
  path ← find_extent sb ext4_chksum env end_ None (Z.lor EXT4_EX_NOCACHE EXT4_EX_NOFAIL);
  match path with
  | [] => lift Bug
  | p :: ups =>
    match p_ext p with
    | None => match ups with [] => mret None | _ => fail (- EFSCORRUPTED) end
    | Some k =>
      s ← get_slot (p_bh p) k;
      let ex := slot_extent s in
      let ex_end := u32 (ee_block ex + ext4_ext_get_actual_len ex - 1) in
      if (ee_block ex <=? end_) && (end_ <? ex_end) then
        (if bigalloc sb then pc ← gets x_partial; put_partial (PartialCluster (EXT4_B2C (xs_es sb) (ext4_ext_pblock ex + end_ - ee_block ex + 1)) (pc_lblk pc) nofree) else mret tt) ≫= fun _ =>
        path ← ext4_force_split_extent_at sb ext4_chksum env path (u32 (end_ + 1)) true;
        mret (Some path)
      else
        pc ← gets x_partial;
        (if bigalloc sb && (ex_end <=? end_) && bool_decide (pc_state pc = initial) then
           r ← ext4_ext_search_right path (u32 (ex_end + 1));
           match r with
           | Some ex => let pblk := ext4_ext_pblock ex in if pblk =? 0 then mret tt else put_partial (PartialCluster (EXT4_B2C (xs_es sb) pblk) (pc_lblk pc) nofree)
           | None => mret tt
           end
         else mret tt) ≫= fun _ =>
        mret (Some path)
    end
  end.

(** Level [k] of a path that was found, with [p_block] as the walk wants it; the one
    of the root is left as it is. *)
Fixpoint init_levels (ups : list ext4_ext_path) : edit (list ext4_ext_path) :=
  match ups with
  | [] => mret []
  | [root] => mret [root]
  | q :: ups =>
    n ← get_node (p_bh q);
    ups ← init_levels ups;
    mret (ExtPath (entries n + 1) (p_depth q) (p_ext q) (p_idx q) (p_bh q) :: ups)
  end.

(** More than the steps of a walk over the tree as it is. *)
Fixpoint walk_cost (disk : Z -> ext_node) (d : nat) (n : ext_node) : nat :=
  match d with
  | O => 1
  | S d => (1 + foldr (fun s c => 1 + walk_cost disk d (disk (child_of s)) + c) 0 (used n))%nat
  end.

(** An empty root becomes a leaf again. *)
Definition reset_root : edit unit :=
  n ← get_node None;
  let h := n_hdr n in
  put_node None (ExtNode (ExtentHeader (eh_magic h) (eh_entries h) ext4_ext_space_root 0 (eh_generation h)) (n_slots n) (n_tail n)) ≫= fun _ =>
  __ext4_ext_dirty sb ext4_chksum env None.

(** From the label [again] to [out]. *)
Definition remove_pass (start end_ : Z) : edit unit :=
  r ← (if end_ <? EXT_MAX_BLOCKS - 1 then
         r ← find_end start end_; mret (Some r)
       else mret None);
  match r with
  | Some None => mret tt
  | _ =>
    i ← gets x_inode;
    let depth := Z.to_nat (ext_depth i) in
    stk ← (match r with
           | Some (Some (p :: ups)) => ups ← init_levels ups; mret (p :: ups)
           | _ => if negb (xe_alloc (ed_tree env)) then fail (- ENOMEM)
                  else if negb (__ext4_ext_check sb ext4_chksum i (i_data i) (ext_depth i) 0 =? 0) then fail (- EFSCORRUPTED)
                  else mret [ExtPath 0 (ext_depth i) None None None]
           end);
    i ← gets x_inode;
    res ← try (rm_loop (2 * walk_cost (i_disk i) depth (i_data i) + 2)%nat depth start end_ stk);
    pc ← gets x_partial;
    (match res with
     | inr _ => if bool_decide (pc_state pc = tofree) then free_partial sb env ≫= fun _ => reset_partial else mret tt
     | inl _ => mret tt
     end) ≫= fun _ =>
    n ← get_node None;
    if entries n =? 0 then reset_root
    else match res with inl err => fail err | inr _ => mret tt end
  end.

Fixpoint remove_rounds (fuel : nat) (start end_ : Z) : edit unit :=
  match fuel with
  | O => lift Hang
  | S fuel =>
    res ← try (remove_pass start end_);
    match res with
    | inl err => if err =? - EAGAIN then remove_rounds fuel start end_ else fail err
    | inr _ => mret tt
    end
  end.
(** Another round starts only when the journal has answered that it restarted. *)
Definition ext4_ext_remove_space (start end_ : Z) : edit unit :=
  modify (fun s => set_partial s (PartialCluster 0 0 initial)) ≫= fun _ =>
  if negb (ed_start env =? 0) then fail (ed_start env)
  else cs ← gets x_credits; remove_rounds (S (length cs)) start end_.
End space.
