(* ===== verification/ExtCheck.v ===== *)
(** What the check of a node says, and that a changed node passes it again: parts of
    ranges that are valid, slots that were written, and the checksum. *)

From S2P Require Import Prelude Friend ExtStatus ExtInsert ExtRecover SysZone ExtTree ExtLeaf ExtEdit.

(** ** Extents and their slots *)

Definition ext_fits (ex : ext4_extent) : Prop :=
  0 <= ee_block ex < 2 ^ 32 /\ 0 <= ee_len ex < 2 ^ 16 /\ 0 <= ee_start_hi ex < 2 ^ 16 /\ 0 <= ee_start_lo ex < 2 ^ 32.

Lemma land_high a b w : 0 <= w -> 0 <= a < 2 ^ w -> Z.land a (Z.shiftl b w) = 0.
Proof.
  intros Hw Ha. apply Z.bits_inj'. intros n Hn. rewrite Z.land_spec, Z.bits_0. destruct (Z.lt_ge_cases n w).
  - by rewrite (Z.shiftl_spec_low _ _ n), andb_false_r.
  - assert (Z.testbit a n = false) as ->; [|done]. destruct (Z.eq_dec a 0) as [->|]; [apply Z.bits_0|].
    apply Z.bits_above_log2; [lia|]. apply (Z.lt_le_trans _ w); [apply Z.log2_lt_pow2; lia|done].
Qed.
Lemma lor_add a b w : 0 <= w -> 0 <= a < 2 ^ w -> Z.lor a (Z.shiftl b w) = a + b * 2 ^ w.
Proof. intros Hw Ha. pose proof (Z.add_lor_land a (Z.shiftl b w)) as E. rewrite land_high, Z.shiftl_mul_pow2 in E by done. rewrite Z.shiftl_mul_pow2 by done. lia. Qed.
Lemma pack_16 a b : 0 <= a < 2 ^ 16 -> Z.lor a (Z.shiftl b 16) = a + b * 2 ^ 16.
Proof. by apply lor_add. Qed.
Lemma slot_parts a b : 0 <= a < 2 ^ 16 -> 0 <= b < 2 ^ 16 ->
  Z.land (Z.lor a (Z.shiftl b 16)) 65535 = a /\ Z.shiftr (Z.lor a (Z.shiftl b 16)) 16 = b /\ 0 <= Z.lor a (Z.shiftl b 16) < 2 ^ 32.
Proof.
  intros Ha Hb. rewrite pack_16 by done. change 65535 with (Z.ones 16). rewrite Z.land_ones, Z.shiftr_div_pow2 by lia.
  split_and!; Z.to_euclidean_division_equations; lia.
Qed.
Lemma word_parts w : 0 <= w < 2 ^ 32 -> 0 <= Z.land w 65535 < 2 ^ 16 /\ 0 <= Z.shiftr w 16 < 2 ^ 16 /\ Z.lor (Z.land w 65535) (Z.shiftl (Z.shiftr w 16) 16) = w.
Proof.
  intros Hw. assert (0 <= Z.land w 65535 < 2 ^ 16 /\ 0 <= Z.shiftr w 16 < 2 ^ 16) as [? ?].
  { change 65535 with (Z.ones 16). rewrite Z.land_ones, Z.shiftr_div_pow2 by lia. Z.to_euclidean_division_equations; lia. }
  split_and!; try lia. rewrite pack_16 by lia. change 65535 with (Z.ones 16). rewrite Z.land_ones, Z.shiftr_div_pow2 by lia. Z.to_euclidean_division_equations; lia.
Qed.

Lemma extent_slot_ok ex : ext_fits ex -> slot_ok (extent_slot ex) /\ slot_extent (extent_slot ex) = ex.
Proof.
  intros (? & ? & ? & ?). destruct (slot_parts (ee_len ex) (ee_start_hi ex)) as (E1 & E2 & ?); [done..|]. split; [unfold slot_ok; cbn; lia|].
  destruct ex. unfold slot_extent, extent_slot. cbn in *. by rewrite E1, E2.
Qed.
Lemma slot_extent_ok s : slot_ok s -> ext_fits (slot_extent s) /\ extent_slot (slot_extent s) = s.
Proof.
  intros (? & Hw & ?). destruct (word_parts (sw1 s) Hw) as (? & ? & E). split; [unfold ext_fits; cbn; lia|]. destruct s. unfold slot_extent, extent_slot. cbn in *. by rewrite E.
Qed.

(** A length that keeps whether the extent is unwritten. *)
Definition short (ex : ext4_extent) (len : Z) : ext4_extent :=
  {| ee_block := ee_block ex; ee_len := if ext4_ext_is_unwritten ex then len + EXT_INIT_MAX_LEN else len; ee_start_hi := ee_start_hi ex; ee_start_lo := ee_start_lo ex |}.

Lemma actual_len_bound ex : ext_fits ex -> 0 <= ext4_ext_get_actual_len ex <= EXT_INIT_MAX_LEN /\ (ext4_ext_is_unwritten ex = true -> ext4_ext_get_actual_len ex < EXT_INIT_MAX_LEN).
Proof.
  intros (_ & ? & _). unfold ext4_ext_get_actual_len, ext4_ext_is_unwritten, EXT_INIT_MAX_LEN in *. destruct (Z.leb_spec (ee_len ex) (2 ^ 15)), (Z.ltb_spec (2 ^ 15) (ee_len ex)); lia.
Qed.
(** A length there is for an extent of this kind. *)
Definition len_fits (ex : ext4_extent) (len : Z) : Prop := 0 < len <= EXT_INIT_MAX_LEN /\ (ext4_ext_is_unwritten ex = true -> len < EXT_INIT_MAX_LEN).
Lemma len_fits_less ex len : ext_fits ex -> 0 < len <= ext4_ext_get_actual_len ex -> len_fits ex len.
Proof. intros Hf Hl. destruct (actual_len_bound ex Hf) as [Hb Hu]. split; [lia|]. intros H. specialize (Hu H). lia. Qed.
Lemma resize_spec ex len : ext_fits ex -> len_fits ex len ->
  ext_fits (short ex len) /\ ext4_ext_get_actual_len (short ex len) = len /\ ext4_ext_is_unwritten (short ex len) = ext4_ext_is_unwritten ex /\
  ext4_ext_pblock (short ex len) = ext4_ext_pblock ex /\ ext_status (short ex len) = ext_status ex.
Proof.
  intros (? & ? & ? & ?) [Hl Hu]. unfold EXT_INIT_MAX_LEN in *.
  assert (ext4_ext_is_unwritten (short ex len) = ext4_ext_is_unwritten ex) as Eu.
  { unfold short, ext4_ext_is_unwritten at 1, EXT_INIT_MAX_LEN. cbn. destruct (ext4_ext_is_unwritten ex); [apply Z.ltb_lt; lia|apply Z.ltb_ge; lia]. }
  assert (ext4_ext_get_actual_len (short ex len) = len) as El.
  { unfold ext4_ext_get_actual_len, short, EXT_INIT_MAX_LEN. cbn. destruct (ext4_ext_is_unwritten ex); [specialize (Hu eq_refl)|].
    - destruct (Z.leb_spec (len + 2 ^ 15) (2 ^ 15)); lia.
    - destruct (Z.leb_spec len (2 ^ 15)); lia. }
  split_and!; try done.
  - unfold ext_fits, short, EXT_INIT_MAX_LEN. cbn. destruct (ext4_ext_is_unwritten ex); [specialize (Hu eq_refl)|]; split_and!; lia.
  - unfold ext_status. by rewrite Eu.
Qed.
Lemma short_spec ex len : ext_fits ex -> 0 < len <= ext4_ext_get_actual_len ex ->
  ext_fits (short ex len) /\ ext4_ext_get_actual_len (short ex len) = len /\ ext4_ext_is_unwritten (short ex len) = ext4_ext_is_unwritten ex /\
  ext4_ext_pblock (short ex len) = ext4_ext_pblock ex /\ ext_status (short ex len) = ext_status ex.
Proof. intros Hf Hl. apply resize_spec; [done|by apply len_fits_less]. Qed.
Lemma lor_high len : 0 <= len < 2 ^ 15 -> Z.lor len (2 ^ 15) = len + 2 ^ 15 /\ Z.ldiff len (2 ^ 15) = len.
Proof.
  intros H. change (2 ^ 15) with (Z.shiftl 1 15) at 1 3. split; [rewrite lor_add by done; lia|].
  pose proof (Z.lor_ldiff_and len (Z.shiftl 1 15)) as E. rewrite land_high in E by done. by rewrite Z.lor_0_r in E.
Qed.
(** Writing the new length, and the mark again. *)
Lemma join_len_resize ex len : len_fits ex len -> join_len ex len (ext4_ext_is_unwritten ex) = Ok (short ex len).
Proof.
  intros [Hl Hu]. unfold join_len, short, set_len, EXT_INIT_MAX_LEN in *. assert (u16 len = len) as -> by (apply wrap_small; lia).
  destruct (ext4_ext_is_unwritten ex); [|done]. specialize (Hu eq_refl). unfold ext4_ext_mark_unwritten, EXT_INIT_MAX_LEN. cbn [ee_len ee_block ee_start_hi ee_start_lo].
  destruct (lor_high len) as [-> ->]; [lia|]. destruct (Z.eqb_spec len 0); [lia|]. done.
Qed.
Lemma join_len_short ex len : ext_fits ex -> 0 < len <= ext4_ext_get_actual_len ex -> join_len ex len (ext4_ext_is_unwritten ex) = Ok (short ex len).
Proof. intros Hf Hl. by apply join_len_resize, len_fits_less. Qed.

(** ** Parts of a range *)

Definition own_zones (zs : zone_sb) (ino : Z) : Prop := zone_sb_ok zs /\ forall z, z ∈ sys_zones zs -> z_ino z <> ino.
Lemma valid_part zs ino p n p' n' : own_zones zs ino -> 0 <= p -> 0 < n < 2 ^ 32 -> p + n <= 2 ^ 64 ->
  ext4_inode_block_valid zs ino p n = true -> p <= p' -> 0 < n' -> p' + n' <= p + n -> ext4_inode_block_valid zs ino p' n' = true.
Proof.
  intros [Hz Ho] Hp Hn He Hv Hp' Hn' He'. destruct (@block_valid_spec zone_list zone_list_ok zs ino p n Hz) as [H1 _]; [lia..|]. destruct (H1 Hv) as [Hd Hx].
  destruct (@block_valid_spec zone_list zone_list_ok zs ino p' n' Hz) as [_ H2]; [lia..|]. unfold device_range in *. apply H2; [lia|]. intros z Hzz Hr. exfalso.
  destruct Hx as [(y & Hy & _ & E)|Hx]; [by apply (Ho y)|]. apply (Hx z Hzz). unfold runs_into in *. lia.
Qed.

Section check.
Variable sb : ext_sb.
Variable ext4_chksum : ext4_extent_header -> list ext_slot -> Z.
Notation node_check := (__ext4_ext_check sb ext4_chksum).

(** ** The loops of the check *)

Definition ext_valid (ino : Z) (ex : ext4_extent) : Prop := ext4_inode_block_valid (xs_zones sb) ino (ext4_ext_pblock ex) (ext4_ext_get_actual_len ex) = true.
Definition idx_valid (ino : Z) (s : ext_slot) : Prop := ext4_inode_block_valid (xs_zones sb) ino (child_of s) 1 = true.

Lemma valid_leaf_elim i cur l : valid_leaf sb i cur l = true -> Forall (ext_valid (i_ino i)) l.
Proof.
  revert cur. induction l as [|ex l IH]; intros cur; cbn; [constructor|]. destruct (ext4_valid_extent sb i ex) eqn:E; [|done]. cbn.
  destruct (_ <? cur); [done|]. intros H. constructor; [|by eapply IH]. unfold ext4_valid_extent in E. by destruct (_ <=? _).
Qed.
Lemma valid_leaf_intro i cur lo l hi : 0 <= lo -> hi <= EXT_MAX_BLOCKS -> cur <= lo -> exts_ok lo l hi -> Forall (ext_valid (i_ino i)) l -> valid_leaf sb i cur l = true.
Proof.
  intros H0 Hh. revert cur lo H0. induction l as [|ex l IH]; intros cur lo H0 Hc Hx Hv; [done|]. apply Forall_cons in Hv as [Hv Hl].
  pose proof (exts_ok_elem _ _ _ ex Hx ltac:(left)) as (Hlo & Hlen & He & _). cbn [exts_ok] in Hx. destruct Hx as (_ & _ & _ & _ & Hx). unfold EXT_MAX_BLOCKS in Hh.
  assert (u32 (ee_block ex + ext4_ext_get_actual_len ex) = ee_block ex + ext4_ext_get_actual_len ex) as Eu by (apply u32_small; lia).
  cbn [valid_leaf]. assert (ext4_valid_extent sb i ex = true) as ->.
  { unfold ext4_valid_extent. rewrite Eu. destruct (Z.leb_spec (ee_block ex + ext4_ext_get_actual_len ex) (ee_block ex)); [lia|exact Hv]. }
  cbn [negb]. destruct (Z.ltb_spec (ee_block ex) cur); [lia|]. rewrite Eu. apply (IH _ (ee_block ex + ext4_ext_get_actual_len ex)); [lia|lia|done..].
Qed.
Lemma valid_index_elim i cur l : valid_index sb i cur (slot_idx <$> l) = true -> Forall (idx_valid (i_ino i)) l.
Proof.
  revert cur. induction l as [|s l IH]; intros cur; cbn [fmap list_fmap valid_index]; [constructor|]. destruct (ext4_valid_extent_idx sb i (slot_idx s)) eqn:E; [|done]. cbn [negb].
  destruct (_ <? cur); [done|]. intros H. constructor; [exact E|by eapply IH].
Qed.
Lemma valid_index_intro i cur l : keys_up l -> Forall (fun s => 0 <= sw0 s < EXT_MAX_BLOCKS) l -> Forall (fun s => cur <= sw0 s) l -> Forall (idx_valid (i_ino i)) l ->
  valid_index sb i cur (slot_idx <$> l) = true.
Proof.
  intros Hk. revert cur. induction Hk as [|s l Hk IH Hs]; intros cur Hb Hc Hv; [done|]. apply Forall_cons in Hb as [Hb Hbl]. apply Forall_cons in Hc as [Hc _]. apply Forall_cons in Hv as [Hv Hvl].
  cbn [fmap list_fmap valid_index]. unfold ext4_valid_extent_idx at 1. change (ext4_idx_pblock (slot_idx s)) with (child_of s). rewrite Hv. cbn [negb]. change (ei_block (slot_idx s)) with (sw0 s).
  destruct (Z.ltb_spec (sw0 s) cur); [lia|]. unfold EXT_MAX_BLOCKS in *. rewrite u32_small by lia. apply IH; [done| |done]. eapply Forall_impl; [exact Hs|]. cbn. intros; lia.
Qed.

(** ** The check of a node

    All but that an index node is not empty. *)
Record sound (i : ext_inode) (n : ext_node) (d : nat) (key : Z) : Prop := {
  ps_magic : eh_magic (n_hdr n) = EXT4_EXT_MAGIC;
  ps_depth : eh_depth (n_hdr n) = Z.of_nat d;
  ps_max : 0 < eh_max (n_hdr n) <= ext4_ext_max_entries sb i (Z.of_nat d);
  ps_fit : entries n <= eh_max (n_hdr n);
  ps_first : Z.of_nat d <> ext_depth i -> from_option sw0 key (head (used n)) = key;
  ps_valid : if decide (d = 0%nat) then valid_leaf sb i 0 (slot_extent <$> used n) = true else valid_index sb i 0 (slot_idx <$> used n) = true;
  ps_low : (d <= 32)%nat;
  ps_csum : Z.of_nat d <> ext_depth i -> ext4_extent_block_csum_verify sb ext4_chksum n = true
}.

Lemma passes_iff i n d key : slots_ok n -> node_check i n (Z.of_nat d) key = 0 <-> sound i n d key /\ (used n = [] -> d = 0%nat).
Proof.
  intros Hs. assert (used n = [] <-> entries n = 0) as Hu.
  { pose proof (used_length n Hs). destruct Hs as [? _]. destruct (used n); cbn in *; split; intros; try done; lia. }
  assert (ext4_valid_extent_entries sb i n key (Z.of_nat d) = true <->
    (Z.of_nat d <> ext_depth i -> from_option sw0 key (head (used n)) = key) /\
    if decide (d = 0%nat) then valid_leaf sb i 0 (slot_extent <$> used n) = true else valid_index sb i 0 (slot_idx <$> used n) = true) as Hv.
  { unfold ext4_valid_extent_entries. destruct (used n) as [|s l]; [by destruct (decide _)|]. cbn [head from_option].
    destruct (Z.eqb_spec (Z.of_nat d) (ext_depth i)), (Z.eqb_spec key (sw0 s)), (Z.eqb_spec (Z.of_nat d) 0), (decide (d = 0%nat)); cbn [negb andb]; intuition (congruence || lia). }
  unfold __ext4_ext_check. destruct Hs as [Hb _]. split.
  - intros H. repeat (case_match; [done|]). rewrite ?andb_false_iff, ?negb_false_iff, ?Z.eqb_eq, ?Z.ltb_ge, ?Z.eqb_neq in *. destruct Hv as [Hv _]. destruct Hv as [? ?]; [done|]. fold (entries n) in *.
    split; [|intros E%Hu; lia]. split; try done; try lia.
    + intros Hd. match goal with H : _ \/ ext4_extent_block_csum_verify _ _ _ = true |- _ => destruct H; [lia|done] end.
  - intros [[H1 H2 H3 H4 H6 H7 H8 H9] H5]. rewrite H1, H2, !Z.eqb_refl. cbn [negb]. fold (entries n).
    destruct (Z.eqb_spec (eh_max (n_hdr n)) 0); [lia|]. destruct (Z.ltb_spec (ext4_ext_max_entries sb i (Z.of_nat d)) (eh_max (n_hdr n))); [lia|].
    destruct (Z.ltb_spec (eh_max (n_hdr n)) (entries n)); [lia|].
    assert ((entries n =? 0) && (0 <? Z.of_nat d) = false) as ->.
    { destruct (Z.eqb_spec (entries n) 0) as [E|]; [|done]. rewrite (H5 (proj2 Hu E)). done. }
    rewrite (proj2 Hv) by done. cbn [negb]. destruct (Z.ltb_spec 32 (Z.of_nat d)); [lia|].
    destruct (Z.eqb_spec (ext_depth i) (Z.of_nat d)); [done|]. by rewrite H9.
Qed.

(** ** The checksum *)

Notation csum_set := (ext4_extent_block_csum_set sb ext4_chksum).
Lemma csum_set_spec n : n_hdr (csum_set n) = n_hdr n /\ length (n_slots (csum_set n)) = length (n_slots n) /\
  take (Z.to_nat (eh_max (n_hdr n))) (n_slots (csum_set n)) = take (Z.to_nat (eh_max (n_hdr n))) (n_slots n) /\
  ext4_extent_block_csum_verify sb ext4_chksum (csum_set n) = true.
Proof.
  unfold ext4_extent_block_csum_set, ext4_extent_block_csum_verify. destruct (xs_csum sb); cbn [negb]; [|done].
  unfold find_ext4_extent_tail, ext4_extent_block_csum. set (k := Z.to_nat (eh_max (n_hdr n))). destruct (n_slots n !! k) as [s|] eqn:E; cbn [n_hdr n_slots n_tail set_slots]; fold k.
  - rewrite length_insert, list_lookup_insert_eq by (by eapply lookup_lt_Some). cbn [sw0]. rewrite take_insert_ge by lia. rewrite Z.eqb_refl. done.
  - rewrite E, Z.eqb_refl. done.
Qed.
(** A node as it is written: one in a block has a new checksum. *)
Definition sealed (bh : option Z) (n : ext_node) : ext_node := match bh with None => n | Some _ => csum_set n end.
Lemma sealed_spec bh n : entries n <= eh_max (n_hdr n) -> same_kind n (sealed bh n) /\ entries (sealed bh n) = entries n /\ used (sealed bh n) = used n /\ (slots_ok n -> slots_ok (sealed bh n)).
Proof.
  intros He. destruct bh as [b|]; [|by split_and!]. destruct (csum_set_spec n) as (Eh & El & Et & _).
  assert (entries (csum_set n) = entries n) as Ee by (unfold entries; by rewrite Eh).
  assert (used (csum_set n) = used n) as Eu.
  { unfold used. rewrite Ee. replace (Z.to_nat (entries n)) with (Z.to_nat (entries n) `min` Z.to_nat (eh_max (n_hdr n)))%nat by lia. by rewrite <- !take_take, Et. }
  cbn [sealed]. unfold same_kind, slots_ok. rewrite Eh, El, Ee, Eu. done.
Qed.
Lemma sealed_slot bh n k s : slots_ok n -> entries n <= eh_max (n_hdr n) -> 0 <= k < entries n -> slot_at n k = Ok s -> slot_at (sealed bh n) k = Ok s.
Proof.
  intros Hs He Hk Hat. destruct (sealed_spec bh n He) as (_ & Ee & Eu & Hs'). destruct (slot_used n k Hs Hk) as (s1 & H1 & H2).
  destruct (slot_used (sealed bh n) k (Hs' Hs)) as (s2 & H3 & H4); [by rewrite Ee|]. rewrite Eu in H4. congruence.
Qed.

(** A node that was changed and written passes. *)
Lemma sound_change i n n' d key key' : sound i n d key -> same_kind n n' -> entries n' <= eh_max (n_hdr n') ->
  (Z.of_nat d <> ext_depth i -> ext4_extent_block_csum_verify sb ext4_chksum n' = true) -> (Z.of_nat d <> ext_depth i -> from_option sw0 key' (head (used n')) = key') ->
  (if decide (d = 0%nat) then valid_leaf sb i 0 (slot_extent <$> used n') = true else valid_index sb i 0 (slot_idx <$> used n') = true) ->
  sound i n' d key'.
Proof. intros [H1 H2 H3 H4 H6 H7 H8 H9] (K1 & K2 & K3 & K4) He Hc Hf Hv. split; rewrite ?K1, ?K3; try done. by rewrite K2. Qed.
Lemma sound_again i n n' bh d key key' : sound i n d key -> same_kind n n' -> entries n' <= eh_max (n_hdr n') ->
  (Z.of_nat d <> ext_depth i -> bh <> None) -> (Z.of_nat d <> ext_depth i -> from_option sw0 key' (head (used n')) = key') ->
  (if decide (d = 0%nat) then valid_leaf sb i 0 (slot_extent <$> used n') = true else valid_index sb i 0 (slot_idx <$> used n') = true) ->
  sound i (sealed bh n') d key'.
Proof.
  intros Hp Hk He Hbh Hf Hv. destruct (sealed_spec bh n' He) as (Hk' & Ee & Eu & _). eapply sound_change; [exact Hp|by eapply same_kind_trans|destruct Hk' as (_ & -> & _); by rewrite Ee| |by rewrite Eu|by rewrite Eu].
  intros Hd. destruct bh as [b|]; [|by destruct (Hbh Hd)]. apply csum_set_spec.
Qed.
Lemma sound_same i i' n d key : i_ino i' = i_ino i -> ext_depth i' = ext_depth i -> sound i n d key -> sound i' n d key.
Proof.
  intros Ei Ed [H1 H2 H3 H4 H6 H7 H8 H9]. unfold ext4_ext_max_entries in *. split; unfold ext4_ext_max_entries; rewrite ?Ed; try done.
  destruct (decide _).
  - rewrite <- H7. generalize 0. generalize (slot_extent <$> used n). intros l. induction l as [|ex l IH]; intros c; cbn; [done|]. unfold ext4_valid_extent. by rewrite Ei, IH.
  - rewrite <- H7. generalize 0. generalize (slot_idx <$> used n). intros l. induction l as [|ix l IH]; intros c; cbn; [done|]. unfold ext4_valid_extent_idx. by rewrite Ei, IH.
Qed.
End check.
