(* ===== verification/ExtStep.v ===== *)
(** What the operations on nodes and the removal of blocks from a leaf do when the
    journal and the block layer answer that all went well. *)

From S2P Require Import Prelude Friend ExtStatus ExtInsert ExtRemove ExtOps ExtRecover SysZone ExtTree ExtLeaf ExtEdit ExtCheck.

(** ** Running code *)

Lemma bind_ok {A B} (m : edit A) (f : A -> edit B) s a s' : m s = Ok (inr a, s') -> (m ≫= f) s = f a s'.
Proof. intros E. unfold mbind, edit_bind. by rewrite E. Qed.
Lemma lift_ok {A B} (o : outcome A) (f : A -> edit B) s a : o = Ok a -> (lift o ≫= f) s = f a s.
Proof. by intros ->. Qed.
Lemma gets_ok {A B} (g : edit_state -> A) (f : A -> edit B) s : (gets g ≫= f) s = f (g s) s.
Proof. done. Qed.
Lemma ret_ok {A B} (a : A) (f : A -> edit B) s : (mret a ≫= f) s = f a s.
Proof. done. Qed.
Lemma try_ok {A B} (m : edit A) (f : Z + A -> edit B) s a s' : m s = Ok (inr a, s') -> (try m ≫= f) s = f (inr a) s'.
Proof. intros E. apply bind_ok. unfold try. by rewrite E. Qed.

Definition heap (s : edit_state) (bh : option Z) : ext_node := node_of (x_inode s) bh.

Lemma get_node_ok {B} bh (f : ext_node -> edit B) s : (get_node bh ≫= f) s = f (heap s bh) s.
Proof. done. Qed.

Lemma get_slot_ok bh k s sl : slot_at (heap s bh) k = Ok sl -> get_slot bh k s = Ok (inr sl, s).
Proof. intros E. unfold get_slot. rewrite get_node_ok. unfold lift. by rewrite E. Qed.

(** What is not a node, or a call of [ext4_free_blocks], stays. *)
Record side (s s' : edit_state) : Prop := {
  sd_ino : i_ino (x_inode s') = i_ino (x_inode s);
  sd_es : i_es (x_inode s') = i_es (x_inode s);
  sd_depth : ext_depth (x_inode s') = ext_depth (x_inode s);
  sd_new : x_new s' = x_new s;
  sd_credits : x_credits s' = x_credits s;
  sd_partial : x_partial s' = x_partial s;
  sd_reserved : x_reserved s' = x_reserved s
}.
(** Only the nodes [U] change, and [calls] free blocks. *)
Record moved (U : list (option Z)) (calls : list free_call) (s s' : edit_state) : Prop := {
  mv_side : side s s';
  mv_freed : x_freed s' = x_freed s ++ calls;
  mv_other : forall b, b ∉ U -> heap s' b = heap s b
}.

Lemma side_refl s : side s s.
Proof. by split. Qed.
Lemma side_trans s1 s2 s3 : side s1 s2 -> side s2 s3 -> side s1 s3.
Proof. intros [] []. split; congruence. Qed.
Lemma moved_refl s : moved [] [] s s.
Proof. split; [apply side_refl|by rewrite app_nil_r|done]. Qed.
Lemma moved_trans U1 U2 c1 c2 s1 s2 s3 : moved U1 c1 s1 s2 -> moved U2 c2 s2 s3 -> moved (U1 ++ U2) (c1 ++ c2) s1 s3.
Proof.
  intros [] []. split; [by eapply side_trans|by rewrite app_assoc; congruence|]. intros b Hb. rewrite elem_of_app in Hb. rewrite mv_other1 by auto. apply mv_other0. auto.
Qed.
Lemma moved_weaken U U' c s s' : moved U c s s' -> U ⊆ U' -> moved U' c s s'.
Proof. intros [] HU. split; [done..|]. intros b Hb. apply mv_other0. set_solver. Qed.
(** Steps on the same node. *)
Lemma moved_on U c1 c2 s1 s2 s3 : moved U c1 s1 s2 -> moved U c2 s2 s3 -> moved U (c1 ++ c2) s1 s3.
Proof. intros H1 H2. eapply moved_weaken; [by eapply moved_trans|set_solver]. Qed.
Lemma moved_keep U c s1 s2 s3 : moved U c s1 s2 -> moved U [] s2 s3 -> moved U c s1 s3.
Proof. intros H1 H2. rewrite <- (app_nil_r c). by eapply moved_on. Qed.
Lemma moved_start U c s1 s2 s3 : moved U [] s1 s2 -> moved U c s2 s3 -> moved U c s1 s3.
Proof. intros H1 H2. change c with ([] ++ c). by eapply moved_on. Qed.
Lemma moved_nil U s s' : moved [] [] s s' -> moved U [] s s'.
Proof. intros H. eapply moved_weaken; [done|set_solver]. Qed.

(** All answers of the environment are good ones. *)
Record quiet (env : edit_env) : Prop := {
  qt_access : forall b, ed_access env b = 0;
  qt_create : forall b, ed_create env b = 0;
  qt_dirty : forall b, ed_dirty env b = 0;
  qt_getblk : forall b, ed_getblk env b = true;
  qt_start : ed_start env = 0;
  qt_alloc : xe_alloc (ed_tree env) = true;
  qt_read : forall b, 0 <= xe_read (ed_tree env) b
}.

Lemma put_ok bh n s : eh_depth (n_hdr n) = eh_depth (n_hdr (heap s bh)) -> exists s', put_node bh n s = Ok (inr tt, s') /\ heap s' bh = n /\ moved [bh] [] s s'.
Proof.
  intros Hd. eexists. split; [done|]. destruct bh as [b|]; cbn; (split; [by rewrite ?Z.eqb_refl|]); (split; [by split|by rewrite app_nil_r|]).
  - intros [b'|] Hb; cbn; [|done]. destruct (Z.eqb_spec b' b) as [->|]; [set_solver|done].
  - intros [b'|] Hb; cbn; [done|set_solver].
Qed.

Section step.
Variable sb : ext_sb.
Variable ext4_chksum : ext4_extent_header -> list ext_slot -> Z.
Variable env : edit_env.
Hypothesis Hq : quiet env.

Lemma access_ok bh s : exists s', ext4_ext_get_access env bh s = Ok (inr tt, s') /\ moved [] [] s s'.
Proof.
  destruct bh as [b|]; cbn; [|exists s; split; [done|apply moved_refl]]. unfold check. rewrite (qt_access _ Hq). cbn. eexists. split; [done|].
  split; [by split|by rewrite app_nil_r|]. by intros [b'|].
Qed.
Lemma dirty_ok bh s : exists s', __ext4_ext_dirty sb ext4_chksum env bh s = Ok (inr tt, s') /\ heap s' bh = sealed sb ext4_chksum bh (heap s bh) /\ moved [bh] [] s s'.
Proof.
  destruct bh as [b|]; cbn [__ext4_ext_dirty].
  - change (get_node (Some b)) with (gets (fun s => heap s (Some b))). set (n := ext4_extent_block_csum_set sb ext4_chksum (heap s (Some b))).
    destruct (put_ok (Some b) n s) as (s1 & E & Hn & Hm); [unfold n; by destruct (csum_set_spec sb ext4_chksum (heap s (Some b))) as (-> & _)|].
    exists (set_inode s1 (set_verified (x_inode s1) b)). split; [|split; [exact Hn|]].
    + change ((put_node (Some b) n ≫= fun _ => check (ed_dirty env (Some b)) ≫= fun _ => set_buffer_verified (Some b)) s = Ok (inr tt, set_inode s1 (set_verified (x_inode s1) b))).
      rewrite (bind_ok _ _ _ _ _ E). unfold check. rewrite (qt_dirty _ Hq). done.
    + eapply moved_keep; [exact Hm|]. split; [by split|by rewrite app_nil_r|]. by intros [b'|].
  - unfold check. rewrite (qt_dirty _ Hq). exists s. split_and!; [done|done|apply moved_nil, moved_refl].
Qed.
End step.
