(* ===== verification/ExtCut.v ===== *)
(** Cutting a range of blocks out of extents, and out of a leaf: what the loop of
    [ext4_ext_rm_leaf] leaves and frees. *)

From S2P Require Import Prelude Friend ExtStatus ExtInsert ExtRemove ExtOps ExtRecover SysZone ExtTree ExtLeaf ExtEdit ExtCheck ExtStep.

(** ** Lists of extents *)

Notation ext_len := ext4_ext_get_actual_len.
Definition ext_end (ex : ext4_extent) : Z := ee_block ex + ext_len ex.
(** The extent has no block of the range. *)
Definition outside (start end_ : Z) (ex : ext4_extent) : bool := (end_ <? ee_block ex) || (ext_end ex <=? start).
(** What is left of an extent that does not go on behind the range. *)
Definition cut1 (start end_ : Z) (ex : ext4_extent) : list ext4_extent :=
  if outside start end_ ex then [ex] else if ee_block ex <? start then [short ex (start - ee_block ex)] else [].
Definition cut (start end_ : Z) (l : list ext4_extent) : list ext4_extent := l ≫= cut1 start end_.
(** Its blocks on the disk that are freed. *)
Definition gone1 (start end_ : Z) (ex : ext4_extent) : list Z :=
  if outside start end_ ex then [] else let a := Z.max (ee_block ex) start in zseq (ext4_ext_pblock ex + (a - ee_block ex)) (Z.to_nat (ext_end ex - a)).
Definition gone (start end_ : Z) (l : list ext4_extent) : list Z := l ≫= gone1 start end_.
(** No extent goes on behind the range. *)
Definition ends_in (end_ : Z) (ex : ext4_extent) : Prop := end_ < ee_block ex \/ ext_end ex <= end_ + 1.

Lemma cut_app start end_ l1 l2 : cut start end_ (l1 ++ l2) = cut start end_ l1 ++ cut start end_ l2.
Proof. apply bind_app. Qed.
Lemma gone_app start end_ l1 l2 : gone start end_ (l1 ++ l2) = gone start end_ l1 ++ gone start end_ l2.
Proof. apply bind_app. Qed.
Lemma cut_outside start end_ l : Forall (fun ex => outside start end_ ex = true) l -> cut start end_ l = l /\ gone start end_ l = [].
Proof.
  induction 1 as [|ex l Hex _ [IH1 IH2]]; [done|]. change (ex :: l) with ([ex] ++ l). rewrite cut_app, gone_app, IH1, IH2. unfold cut, gone, cut1, gone1. cbn. by rewrite Hex.
Qed.
Lemma outside_low start end_ lo l hi : exts_ok lo l hi -> hi <= start -> Forall (fun ex => outside start end_ ex = true) l.
Proof.
  intros H Hh. apply Forall_forall. intros ex Hx. destruct (exts_ok_elem _ _ _ _ H Hx) as (_ & _ & He & _). unfold outside, ext_end. apply orb_true_iff. right. apply Z.leb_le. lia.
Qed.
Lemma outside_high start end_ lo l hi : exts_ok lo l hi -> end_ < lo -> Forall (fun ex => outside start end_ ex = true) l.
Proof.
  intros H Hh. apply Forall_forall. intros ex Hx. destruct (exts_ok_elem _ _ _ _ H Hx) as (Hl & _). unfold outside. apply orb_true_iff. left. apply Z.ltb_lt. lia.
Qed.
Lemma cut_inside start end_ lo l hi : exts_ok lo l hi -> start <= lo -> Forall (fun e => ext_end e <= end_ + 1) l -> cut start end_ l = [].
Proof.
  revert lo. induction l as [|ex l IH]; intros lo; [done|]. cbn [exts_ok]. intros (? & ? & _ & _ & Hl) Hs [He Hel]%Forall_cons.
  change (ex :: l) with ([ex] ++ l). rewrite cut_app, (IH (ee_block ex + ext_len ex)) by (done || lia). unfold cut, cut1, outside, ext_end in *. cbn.
  destruct (Z.ltb_spec end_ (ee_block ex)); [lia|]. destruct (Z.leb_spec (ee_block ex + ext_len ex) start); [lia|]. destruct (Z.ltb_spec (ee_block ex) start); [lia|done].
Qed.

(** In order, and in the same range. *)
Lemma cut1_cases start end_ ex : ext_fits ex -> 0 < ext_len ex -> start <= end_ ->
  cut1 start end_ ex = [ex] \/ cut1 start end_ ex = [] \/ (ee_block ex < start < ext_end ex /\ cut1 start end_ ex = [short ex (start - ee_block ex)]).
Proof.
  intros Hf Hl Hse. unfold cut1, outside. destruct (Z.ltb_spec end_ (ee_block ex)), (Z.leb_spec (ext_end ex) start); cbn [orb]; auto.
  destruct (Z.ltb_spec (ee_block ex) start); auto.
Qed.
Lemma cut_ok start end_ lo l hi : start <= end_ -> Forall ext_fits l -> exts_ok lo l hi -> exts_ok lo (cut start end_ l) hi.
Proof.
  intros Hse Hf. revert lo. induction Hf as [|ex l Hex _ IH]; intros lo; [done|]. cbn [exts_ok]. intros (? & Hl & ? & ? & H%IH).
  change (ex :: l) with ([ex] ++ l). rewrite cut_app. apply exts_ok_app. exists (ee_block ex + ext_len ex). split; [|done]. unfold cut. cbn. rewrite app_nil_r.
  destruct (cut1_cases start end_ ex Hex Hl Hse) as [-> |[-> |[Hb ->]]]; [cbn; lia|cbn; lia|].
  destruct (short_spec ex (start - ee_block ex) Hex) as (_ & El & _); [unfold ext_end in *; lia|]. cbn [exts_ok]. rewrite El. cbn. unfold ext_end in *. lia.
Qed.

(** What the extents say of a block afterwards. *)
Lemma cut_map start end_ lo l hi b : start <= end_ -> Forall ext_fits l -> exts_ok lo l hi -> Forall (ends_in end_) l ->
  disk_map (cut start end_ l) b = if decide (start <= b <= end_) then None else disk_map l b.
Proof.
  intros Hse Hf. revert lo. induction Hf as [|ex l Hex _ IH]; intros lo; [by destruct (decide _)|]. cbn [exts_ok]. intros (? & Hl & _ & _ & Hx) [He Hel]%Forall_cons.
  change (ex :: l) with ([ex] ++ l). rewrite cut_app, !disk_map_app, (IH (ee_block ex + ext_len ex)) by done.
  assert (disk_map (cut start end_ [ex]) b = if decide (start <= b <= end_) then None else disk_map [ex] b) as ->; [|by destruct (decide _)].
  clear IH Hel. unfold ends_in in He. unfold cut, cut1, outside, ext_end in *. cbn [mbind list_bind]. rewrite app_nil_r. destruct (Z.ltb_spec end_ (ee_block ex)), (Z.leb_spec (ee_block ex + ext_len ex) start); cbn [orb].
  1-3: destruct (decide _); [|done]; cbn; destruct (covers ex b) eqn:E; [apply covers_spec in E; lia|done].
  destruct (Z.ltb_spec (ee_block ex) start).
  - destruct (short_spec ex (start - ee_block ex) Hex) as (_ & El & _ & Ep & Es); [lia|]. cbn [disk_map]. unfold covers. rewrite El, Ep, Es. cbn [ee_block short].
    destruct (decide _), (Z.leb_spec (ee_block ex) b), (Z.ltb_spec b (ee_block ex + (start - ee_block ex))), (Z.ltb_spec b (ee_block ex + ext_len ex)); cbn [andb]; done || lia.
  - cbn. destruct (decide _); [done|]. destruct (covers ex b) eqn:E; [apply covers_spec in E; lia|done].
Qed.

(** The blocks on the disk that the blocks [l] of a file are mapped to. *)
Definition pblocks (M : Z -> option (Z * Z)) (l : list Z) : list Z := omap (fun b => snd <$> M b) l.

Lemma pblocks_app M l1 l2 : pblocks M (l1 ++ l2) = pblocks M l1 ++ pblocks M l2.
Proof. apply omap_app. Qed.
Lemma pblocks_ext M M' a n : (forall b, a <= b < a + Z.of_nat n -> M b = M' b) -> pblocks M (zseq a n) = pblocks M' (zseq a n).
Proof. revert a. induction n as [|n IH]; intros a H; [done|]. rewrite zseq_S. unfold pblocks in *. cbn [omap list_omap]. rewrite (H a) by lia. by rewrite IH by (intros; apply H; lia). Qed.
Lemma pblocks_none M a n : (forall b, a <= b < a + Z.of_nat n -> M b = None) -> pblocks M (zseq a n) = [].
Proof. intros H. rewrite (pblocks_ext M (fun _ => None)) by done. clear H. revert a. induction n as [|n IH]; intros a; [done|]. rewrite zseq_S. apply IH. Qed.
Lemma pblocks_run M a n p k : (forall b, a <= b < a + Z.of_nat n -> snd <$> M b = Some (p + (b - k))) -> pblocks M (zseq a n) = zseq (p + (a - k)) n.
Proof.
  revert a. induction n as [|n IH]; intros a H; [done|]. rewrite !zseq_S. unfold pblocks in *. cbn [omap list_omap]. rewrite (H a) by lia. rewrite IH by (intros; apply H; lia). do 2 f_equal. lia.
Qed.

(** What is freed is what the range was mapped to. *)
Lemma gone_mapped start end_ lo l hi : start <= end_ -> exts_ok lo l hi -> Forall (ends_in end_) l -> gone start end_ l = pblocks (disk_map l) (zrange start end_).
Proof.
  intros Hse. revert lo. induction l as [|ex l IH]; intros lo Hx He; [symmetry; by apply pblocks_none|]. apply Forall_cons in He as [He Hel]. cbn [exts_ok] in Hx. destruct Hx as (_ & Hl & _ & _ & Hx).
  specialize (IH _ Hx Hel). change (ex :: l) with ([ex] ++ l) at 1. rewrite gone_app, IH. unfold gone. cbn [mbind list_bind]. rewrite app_nil_r. unfold gone1, outside, ends_in, ext_end, zrange in *.
  assert (forall b, b < ee_block ex \/ ee_block ex + ext_len ex <= b -> disk_map (ex :: l) b = disk_map l b) as Hout by (intros b Hb; cbn [disk_map]; destruct (covers ex b) eqn:E; [apply covers_spec in E; lia|done]).
  destruct ((_ <? _) || _) eqn:E; [apply orb_true_iff in E as [E%Z.ltb_lt|E%Z.leb_le]; cbn [app]; symmetry; apply pblocks_ext; intros; apply Hout; lia|]. apply orb_false_iff in E as [E1%Z.ltb_ge E2%Z.leb_gt].
  destruct He as [?|He]; [lia|]. set (a := Z.max (ee_block ex) start). set (e := ee_block ex + ext_len ex) in *.
  replace (Z.to_nat (end_ - start + 1)) with (Z.to_nat (a - start) + (Z.to_nat (e - a) + Z.to_nat (end_ - e + 1)))%nat by lia. rewrite !zseq_app, !pblocks_app.
  replace (start + Z.of_nat (Z.to_nat (a - start))) with a by lia. replace (a + Z.of_nat (Z.to_nat (e - a))) with e by lia.
  assert (forall b, b < e -> disk_map l b = None) as Hlow by (intros b Hb; eapply disk_map_out; [exact Hx|by left]).
  rewrite (pblocks_none (disk_map l) start) by (intros; apply Hlow; lia). rewrite (pblocks_none (disk_map l) a) by (intros; apply Hlow; lia).
  rewrite (pblocks_none (disk_map (ex :: l)) start) by (intros; rewrite Hout by lia; apply Hlow; lia). cbn [app].
  rewrite (pblocks_run _ a _ (ext4_ext_pblock ex) (ee_block ex)); [f_equal; symmetry; apply pblocks_ext; intros; apply Hout; lia|].
  intros b Hb. cbn [disk_map]. destruct (covers ex b) eqn:E; [done|]. assert (covers ex b = true) by (apply covers_spec; lia). congruence.
Qed.

(** The blocks on the disk of mapped blocks are the blocks of the extents. *)
Definition ext_blocks (ex : ext4_extent) : list Z := zseq (ext4_ext_pblock ex) (Z.to_nat (ext_len ex)).
Lemma cut_blocks start end_ ex : ext_fits ex -> 0 < ext_len ex -> start <= end_ -> ext_blocks ex = (cut1 start end_ ex ≫= ext_blocks) ++ gone1 start end_ ex.
Proof.
  intros Hf Hl Hse. unfold cut1, gone1, outside, ext_end, ext_blocks. destruct ((_ <? _) || _) eqn:E; [cbn; by rewrite !app_nil_r|]. apply orb_false_iff in E as [E1%Z.ltb_ge E2%Z.leb_gt].
  destruct (Z.ltb_spec (ee_block ex) start).
  - destruct (short_spec ex (start - ee_block ex) Hf) as (_ & El & _ & Ep & _); [lia|]. cbn [mbind list_bind]. rewrite app_nil_r, El, Ep, Z.max_r by lia.
    replace (Z.to_nat (ext_len ex)) with (Z.to_nat (start - ee_block ex) + Z.to_nat (ee_block ex + ext_len ex - start))%nat by lia. rewrite zseq_app. do 2 f_equal. lia.
  - cbn. rewrite Z.max_l by lia. f_equal; f_equal; lia.
Qed.

(** The blocks that calls free. *)
Definition call_blocks (f : free_call) : list Z := zseq (f_block f) (Z.to_nat (f_count f)).
Definition freed_blocks (l : list free_call) : list Z := l ≫= call_blocks.
Lemma freed_app l1 l2 : freed_blocks (l1 ++ l2) = freed_blocks l1 ++ freed_blocks l2.
Proof. apply bind_app. Qed.

(** ** The slot of an extent *)

Lemma extents_of l : Forall slot_ok l -> Forall ext_fits (slot_extent <$> l).
Proof. intros H. apply Forall_fmap. eapply Forall_impl; [exact H|]. intros s Hs. by apply slot_extent_ok. Qed.

Lemma cut_short n P x Q num end_ : slots_ok n -> used n = P ++ x :: Q -> 0 < num <= ext_len (slot_extent x) ->
  exists n', cut_extent n (Z.of_nat (length P)) num end_ (slot_extent x) = Ok n' /\ slots_ok n' /\ used n' = P ++ extent_slot (short (slot_extent x) num) :: Q /\ same_kind n n' /\ entries n' = entries n.
Proof.
  intros Hs Eu Hn. pose proof Hs as [_ Hok]. rewrite Eu in Hok. apply Forall_app in Hok as [_ [Hx _]%Forall_cons]. destruct (slot_extent_ok x Hx) as [Hf _].
  destruct (short_spec (slot_extent x) num Hf Hn) as (Hf' & _). destruct (extent_slot_ok _ Hf') as [Hs' _].
  unfold cut_extent. destruct (Z.eqb_spec num 0); [lia|]. cbn [negb]. rewrite andb_true_r, join_len_short by done. cbn [mbind outcome_bind].
  destruct (put_used n P x Q _ Hs Eu Hs') as (n' & -> & ? & ? & ? & ?). by exists n'.
Qed.
Lemma cut_whole n P x Q end_ : slots_ok n -> entries n < 2 ^ 16 -> used n = P ++ x :: Q -> end_ <> EXT_MAX_BLOCKS - 1 \/ Q = [] ->
  exists n', cut_extent n (Z.of_nat (length P)) 0 end_ (slot_extent x) = Ok n' /\ slots_ok n' /\ used n' = P ++ Q /\ same_kind n n' /\ entries n' = entries n - 1.
Proof.
  intros Hs H16 Eu HQ. pose proof Hs as [Hb Hok]. rewrite Eu in Hok. apply Forall_app in Hok as [HP [Hx HQs]%Forall_cons]. pose proof (used_entries n P x Q Hs Eu) as He.
  unfold cut_extent. cbn [Z.eqb negb]. rewrite andb_false_r. unfold join_len. cbn [mbind outcome_bind].
  set (ex := set_len _ 0). assert (slot_ok (extent_slot ex)) as Hg.
  { apply extent_slot_ok. destruct (slot_extent_ok x Hx) as [(? & _) _]. split; [done|]. by repeat split. }
  destruct (put_used n P x Q _ Hs Eu Hg) as (n1 & -> & Hs1 & Eu1 & Hk1 & He1). cbn [mbind outcome_bind]. rewrite He1.
  destruct (Z.eqb_spec end_ (EXT_MAX_BLOCKS - 1)) as [E|E]; cbn [negb].
  - destruct HQ as [?| ->]; [done|]. cbn [mbind outcome_bind]. eexists. split; [done|].
    assert (u16 (entries n1 - 1) = entries n - 1) as -> by (rewrite He1; apply wrap_small; cbn in He; lia).
    destruct (used_prefix n1 _ Eu1) as (rest & Es & _); [by destruct Hs1|]. rewrite <- app_assoc in Es.
    destruct (slots_ok_intro (set_entries n1 (entries n - 1)) P (extent_slot ex :: rest)) as [? Hu]; [done|cbn in *; lia|done|]. rewrite app_nil_r. split; [done|]. split; [done|]. split; [exact Hk1|done].
  - destruct (drop_used n1 P (extent_slot ex) Q Hs1 Eu1) as (n2 & rest & E2 & Es2 & Hr & Hk2 & He2).
    replace (entries n - 1 - Z.of_nat (length P)) with (Z.of_nat (length Q)) by lia. rewrite E2. cbn [mbind outcome_bind].
    destruct rest as [|y rest]; [cbn in Hr; lia|]. destruct (put_slot_eq n2 (P ++ Q) y rest (ExtSlot 0 0 0)) as (n3 & E3 & Es3 & Hk3 & He3); [by rewrite Es2, <- app_assoc|].
    rewrite length_app in E3. replace (entries n2 - 1) with (Z.of_nat (length P + length Q)) by lia. rewrite E3. cbn [mbind outcome_bind]. eexists. split; [done|].
    assert (u16 (entries n3 - 1) = entries n - 1) as -> by (rewrite He3, He2, He1; apply wrap_small; lia).
    destruct (slots_ok_intro (set_entries n3 (entries n - 1)) (P ++ Q) (ExtSlot 0 0 0 :: rest)) as [? Hu]; [done|cbn; rewrite length_app; lia|by apply Forall_app|].
    split; [done|]. split; [done|]. split; [|done]. eapply same_kind_trans; [exact Hk1|]. eapply same_kind_trans; [exact Hk2|exact Hk3].
Qed.

(** ** The loop over a leaf *)

Section leaf.
Context `{Hrb : RbTree}.
Variable sb : ext_sb.
Variable ext4_chksum : ext4_extent_header -> list ext_slot -> Z.
Variable env : edit_env.
Hypothesis Hq : quiet env.
Hypothesis Hbits : s_cluster_bits (xs_es sb) = 0.

Lemma ratio_one : s_cluster_ratio (xs_es sb) = 1.
Proof. unfold s_cluster_ratio. by rewrite Hbits. Qed.
Lemma not_bigalloc : bigalloc sb = false.
Proof. unfold bigalloc. by rewrite ratio_one. Qed.

(** No cluster is freed in part, and the journal does not restart. *)
Definition plain (s : edit_state) : Prop := pc_state (x_partial s) = initial /\ x_credits s = [].
Lemma plain_side s s' : side s s' -> plain s -> plain s'.
Proof. intros [] []. split; congruence. Qed.

Lemma reset_ok s : plain s -> reset_partial s = Ok (inr tt, s).
Proof. intros [Hp _]. unfold reset_partial, gets, put_partial, modify, mbind, edit_bind. rewrite <- Hp. do 2 f_equal. by destruct s as [? ? ? ? [] ?]. Qed.
Lemma remove_blocks_ok ex from s : plain s -> ext_fits ex -> 0 < ext_len ex -> ext_end ex <= EXT_MAX_BLOCKS -> ee_block ex <= from < ext_end ex ->
  exists s' c, ext4_remove_blocks sb env ex from (ext_end ex - 1) s = Ok (inr tt, s') /\ moved [] [c] s s' /\ call_blocks c = zseq (ext4_ext_pblock ex + (from - ee_block ex)) (Z.to_nat (ext_end ex - from)).
Proof.
  intros Hp Hf Hl He Hfrom. unfold ext4_remove_blocks, ext_end, EXT_MAX_BLOCKS in *. destruct Hf as (? & _). rewrite u32_small by lia.
  destruct (Z.ltb_spec from (ee_block ex)); [lia|]. rewrite Z.eqb_refl. cbn [orb negb].
  assert (forall t, plain t -> bool_decide (pc_state (x_partial t) <> initial) = false) as Hpc by (intros t [Ht _]; rewrite Ht; apply bool_decide_eq_false; by intros []).
  unfold EXT4_LBLK_COFF. rewrite ratio_one. change (1 - 1) with 0. rewrite !Z.land_0_r. cbn [Z.eqb negb andb]. rewrite !gets_ok, Hpc by done. cbn [andb]. rewrite ret_ok, gets_ok, ret_ok.
  rewrite u32_small by lia. match goal with |- context [ext4_free_blocks ?a ?b ?f] => set (c := FreeCall a b f) end. set (s1 := add_freed s c). assert (plain s1) as Hp1 by (by destruct Hp).
  rewrite (bind_ok _ _ s tt s1) by done. rewrite gets_ok, Hpc by done. cbn [andb]. rewrite ret_ok, gets_ok, (reset_ok s1 Hp1).
  exists s1, c. split; [done|]. split; [split; [by split|done|done]|]. unfold call_blocks, c. cbn [f_block f_count]. f_equal; lia.
Qed.
Lemma credits_ok s : plain s -> ensure_credits s = Ok (inr 0, s).
Proof. intros [_ Hc]. unfold ensure_credits. by rewrite Hc. Qed.

(** The slot that is looked at, from the right. *)
Lemma leaf_stop fuel bh start end_ P Q ci pe s : slots_ok (heap s bh) -> used (heap s bh) = P ++ Q -> 0 <= start ->
  Forall (fun x => 0 <= ext_end (slot_extent x) <= start) P -> start < 2 ^ 32 ->
  rm_leaf_loop sb ext4_chksum env fuel bh start end_ (Z.of_nat (length P) - 1) ci pe s = Ok (inr (Z.of_nat (length P) - 1, ci, pe), s).
Proof.
  intros Hs Eu H0 HP H32. destruct fuel as [|fuel].
  all: cbn [rm_leaf_loop]; rewrite get_node_ok; destruct (Z.ltb_spec (Z.of_nat (length P) - 1) 0); [done|].
  all: destruct P as [|x P _] using rev_ind; [cbn in *; lia|]; apply Forall_app in HP as [_ [Hx _]%Forall_cons]; unfold ext_end in Hx.
  all: rewrite <- app_assoc in Eu; cbn [app] in Eu; pose proof (used_slot _ P x Q Hs Eu) as Hat; rewrite length_app, Nat2Z.inj_add, Z.add_simpl_r.
  all: erewrite lift_ok by exact Hat; rewrite u32_small by lia; destruct (Z.ltb_spec start (ee_block (slot_extent x) + ext_len (slot_extent x))); [lia|done].
Qed.

(** The result of the loop: the leaf, the calls, and whether the first slot changed
    ([p_ext] is at it then). *)
Record leaf_cut (bh : option Z) (start end_ : Z) (P Q : list ext_slot) (ci : bool) (s s' : edit_state) (ci' : bool) (pe' : option Z) (calls : list free_call) : Prop := {
  lc_slots : slots_ok (heap s' bh);
  lc_kind : same_kind (heap s bh) (heap s' bh);
  lc_fit : entries (heap s' bh) <= entries (heap s bh);
  lc_exts : slot_extent <$> used (heap s' bh) = cut start end_ (slot_extent <$> P) ++ (slot_extent <$> Q);
  lc_moved : moved [bh] calls s s';
  lc_csum : bh <> None -> ext4_extent_block_csum_verify sb ext4_chksum (heap s bh) = true -> ext4_extent_block_csum_verify sb ext4_chksum (heap s' bh) = true;
  lc_freed : freed_blocks calls ≡ₚ gone start end_ (slot_extent <$> P);
  lc_first : (ci' = ci /\ head (used (heap s' bh)) = head (used (heap s bh))) \/ (ci' = true /\ pe' = Some 0)
}.

Lemma leaf_cut_nothing bh start end_ P Q ci pe s : slots_ok (heap s bh) -> used (heap s bh) = P ++ Q ->
  Forall (fun ex => outside start end_ ex = true) (slot_extent <$> P) -> leaf_cut bh start end_ P Q ci s s ci pe [].
Proof.
  intros Hs Eu Ho. destruct (cut_outside start end_ _ Ho) as [E1 E2]. split; try done; [by rewrite Eu, fmap_app, E1|apply moved_nil, moved_refl|by rewrite E2|by left].
Qed.

(** One extent is shortened or taken out. *)
Lemma leaf_step fuel bh start end_ P x Q ci pe s : plain s -> slots_ok (heap s bh) -> used (heap s bh) = P ++ x :: Q ->
  entries (heap s bh) <= eh_max (n_hdr (heap s bh)) < 2 ^ 16 -> 0 < ext_len (slot_extent x) -> ext_end (slot_extent x) <= EXT_MAX_BLOCKS ->
  outside start end_ (slot_extent x) = false -> ends_in end_ (slot_extent x) -> start <= end_ ->
  ee_block (slot_extent x) < start \/ end_ <> EXT_MAX_BLOCKS - 1 \/ Q = [] ->
  exists s' c, rm_leaf_loop sb ext4_chksum env (S fuel) bh start end_ (Z.of_nat (length P)) ci pe s =
      rm_leaf_loop sb ext4_chksum env fuel bh start end_ (Z.of_nat (length P) - 1) (ci || (Z.of_nat (length P) =? 0)) (Some (Z.of_nat (length P))) s' /\
    moved [bh] [c] s s' /\ call_blocks c = gone1 start end_ (slot_extent x) /\ slots_ok (heap s' bh) /\ same_kind (heap s bh) (heap s' bh) /\
    used (heap s' bh) = P ++ (extent_slot <$> cut1 start end_ (slot_extent x)) ++ Q /\ entries (heap s' bh) <= entries (heap s bh) /\
    (bh <> None -> ext4_extent_block_csum_verify sb ext4_chksum (heap s' bh) = true).
Proof.
  intros Hp Hs Eu Hfit Hl Hend Ho He Hse HQ. pose proof Hs as [_ Hok]. rewrite Eu in Hok. apply Forall_app in Hok as [_ [Hx _]%Forall_cons]. destruct (slot_extent_ok x Hx) as [Hf _].
  pose proof (used_slot _ P x Q Hs Eu) as Hat. set (n := heap s bh) in *. set (ex := slot_extent x) in *. pose proof Ho as Ho'. unfold outside in Ho. apply orb_false_iff in Ho as [Ho1 Ho2%Z.leb_gt]. pose proof Hf as (Hb & _).
  unfold ends_in, ext_end in *. apply Z.ltb_ge in Ho1 as Ho3. destruct He as [|He]; [lia|]. unfold EXT_MAX_BLOCKS in Hend.
  cbn [rm_leaf_loop]. rewrite get_node_ok. fold n. destruct (Z.ltb_spec (Z.of_nat (length P)) 0); [lia|]. erewrite lift_ok by exact Hat. fold ex. rewrite !u32_small by lia.
  destruct (Z.ltb_spec start (ee_block ex + ext_len ex)); [|lia]. cbn [negb]. rewrite Ho1, Z.min_l by lia. rewrite Z.eqb_refl. cbn [negb].
  rewrite (bind_ok _ _ _ _ _ (credits_ok s Hp)). cbn [Z.ltb Z.compare]. rewrite (bind_ok _ _ s tt s) by done.
  destruct (access_ok env Hq bh s) as (s1 & E1 & M1). rewrite (bind_ok _ _ _ _ _ E1). assert (plain s1) as Hp1 by (eapply plain_side; [apply M1|done]).
  destruct (remove_blocks_ok ex (Z.max (ee_block ex) start) s1 Hp1 Hf Hl) as (s2 & c & E2 & M2 & Hc); [unfold ext_end, EXT_MAX_BLOCKS; lia|unfold ext_end; lia|]. unfold ext_end in E2.
  rewrite (bind_ok _ _ _ _ _ E2). rewrite get_node_ok. assert (heap s2 bh = n) as Hn2 by (rewrite (mv_other _ _ _ _ M2), (mv_other _ _ _ _ M1); [done|set_solver..]). rewrite Hn2.
  assert (exists n', cut_extent n (Z.of_nat (length P)) (Z.max (ee_block ex) start - ee_block ex) end_ ex = Ok n' /\ slots_ok n' /\ used n' = P ++ (extent_slot <$> cut1 start end_ ex) ++ Q /\ same_kind n n' /\ entries n' <= entries n) as (n' & E3 & Hs' & Eu' & Hk & Hle).
  { unfold cut1. rewrite Ho'. destruct (Z.ltb_spec (ee_block ex) start).
    - rewrite Z.max_r by lia. destruct (cut_short n P x Q (start - ee_block ex) end_ Hs Eu) as (n' & ? & ? & ? & ? & ?); [fold ex; lia|]. exists n'. split_and!; done || lia.
    - rewrite Z.max_l, Z.sub_diag by lia. destruct (cut_whole n P x Q end_ Hs ltac:(lia) Eu) as (n' & ? & ? & ? & ? & ?); [destruct HQ as [|[|]]; auto; lia|]. exists n'. split_and!; done || lia. }
  erewrite lift_ok by exact E3. destruct (put_ok bh n' s2) as (s3 & E4 & Hn3 & M3); [rewrite Hn2; apply Hk|]. rewrite (bind_ok _ _ _ _ _ E4).
  destruct (dirty_ok sb ext4_chksum env Hq bh s3) as (s4 & E5 & Hn4 & M4). rewrite (bind_ok _ _ _ _ _ E5). exists s4, c. split; [done|]. rewrite Hn3 in Hn4.
  destruct (sealed_spec sb ext4_chksum bh n') as (Hk' & He' & Hu' & Hs4); [destruct Hk as (_ & -> & _); lia|]. rewrite Hn4, Hu', He'. split_and!; auto.
  - eapply moved_keep; [|exact M4]. eapply moved_keep; [|exact M3]. eapply moved_start; [apply moved_nil, M1|]. eapply moved_weaken; [exact M2|set_solver].
  - unfold gone1. rewrite Ho'. exact Hc.
  - by eapply same_kind_trans.
  - destruct bh; [intros _; apply csum_set_spec|done].
Qed.

(** Going on behind a step at the last slot of the range. *)
Lemma leaf_cut_after bh start end_ P P' x Q Q' ci s s1 s' ci' pe' c calls :
  leaf_cut bh start end_ P' Q' (ci || (Z.of_nat (length P) =? 0)) s1 s' ci' pe' calls -> (P = [] -> P' = [] /\ pe' = Some 0) ->
  used (heap s bh) = P ++ x :: Q -> used (heap s1 bh) = P' ++ Q' -> (P <> [] -> exists p t, P = p :: t /\ head (P' ++ Q') = Some p) ->
  cut start end_ (slot_extent <$> P') ++ (slot_extent <$> Q') = cut start end_ (slot_extent <$> P ++ [x]) ++ (slot_extent <$> Q) ->
  moved [bh] c s s1 -> freed_blocks c ++ gone start end_ (slot_extent <$> P') ≡ₚ gone start end_ (slot_extent <$> P ++ [x]) ->
  same_kind (heap s bh) (heap s1 bh) -> entries (heap s1 bh) <= entries (heap s bh) -> (bh <> None -> ext4_extent_block_csum_verify sb ext4_chksum (heap s1 bh) = true) ->
  leaf_cut bh start end_ (P ++ [x]) Q ci s s' ci' pe' (c ++ calls).
Proof.
  intros [H1 H2 H3 H4 H5 Hcs H6 H7] Hnil Eu Eu1 Hhd Ecut Hm Hg Hk He Hcs1. split; try done.
  - by eapply same_kind_trans.
  - lia.
  - by rewrite H4.
  - by eapply moved_on.
  - auto.
  - by rewrite freed_app, H6.
  - destruct P as [|p P].
    + right. destruct (Hnil eq_refl) as [-> ->]. split; [|done]. cbn in H7. rewrite orb_true_r in H7. by destruct H7 as [[-> _]|[-> _]].
    + destruct H7 as [[-> Eh]|H7]; [|by right]. left. split; [cbn; by rewrite orb_false_r|]. rewrite Eh, Eu1, Eu. destruct (Hhd ltac:(done)) as (? & ? & [= -> ->] & ->). done.
Qed.

Lemma leaf_loop bh start end_ P : 0 <= start <= end_ -> start < 2 ^ 32 ->
  forall fuel Q ci pe s lo hi, plain s -> slots_ok (heap s bh) -> used (heap s bh) = P ++ Q ->
  entries (heap s bh) <= eh_max (n_hdr (heap s bh)) < 2 ^ 16 -> 0 <= lo -> hi <= EXT_MAX_BLOCKS -> exts_ok lo (slot_extent <$> P) hi ->
  Forall (ends_in end_) (slot_extent <$> P) -> end_ <> EXT_MAX_BLOCKS - 1 \/ Q = [] -> (length P <= fuel)%nat ->
  exists s' k' ci' pe' calls, rm_leaf_loop sb ext4_chksum env fuel bh start end_ (Z.of_nat (length P) - 1) ci pe s = Ok (inr (k', ci', pe'), s') /\
    leaf_cut bh start end_ P Q ci s s' ci' pe' calls /\ (P = [] -> pe' = pe).
Proof.
  intros Hse H32. induction P as [|x P IH] using rev_ind; intros fuel Q ci pe s lo hi Hp Hs Eu Hfit H0 Hh Hx Hin HQ Hf.
  { exists s. eexists _, ci, pe, []. split; [apply leaf_stop with Q; done || lia || constructor|]. split; [by apply leaf_cut_nothing|done]. }
  rewrite fmap_app in Hx, Hin. cbn [fmap list_fmap] in Hx, Hin. apply exts_ok_app in Hx as (mid & HxP & Hxx). apply Forall_app in Hin as [HinP [Hinx _]%Forall_cons].
  cbn [exts_ok] in Hxx. pose proof Hxx as Hxx0. destruct Hxx as (Hmid & Hlen & _ & _ & Hhi). change (ee_block (slot_extent x) + ext_len (slot_extent x)) with (ext_end (slot_extent x)) in Hhi.
  rewrite <- app_assoc in Eu. cbn [app] in Eu. pose proof (exts_ok_le _ _ _ HxP) as Hle.
  assert (Forall (fun y => 0 <= ext_end (slot_extent y) <= mid) P) as HPend.
  { apply Forall_forall. intros y Hy. destruct (exts_ok_elem _ _ _ (slot_extent y) HxP) as (? & ? & ? & _); [by apply list_elem_of_fmap_2|]. unfold ext_end. lia. }
  rewrite length_app in Hf |- *. cbn [length] in Hf |- *. rewrite Nat2Z.inj_add. change (Z.of_nat 1) with 1. rewrite Z.add_simpl_r.
  destruct fuel as [|fuel]; [lia|].
  destruct (Z.le_gt_cases (ext_end (slot_extent x)) start) as [Hlow|Hhigh].
  { exists s. eexists _, ci, pe, []. split; [|split; [apply leaf_cut_nothing; [done|by rewrite <- app_assoc|]|by intros [_ [=]]%app_nil]].
    - replace (Z.of_nat (length P)) with (Z.of_nat (length (P ++ [x])) - 1) by (rewrite length_app; cbn; lia). apply leaf_stop with Q; try done; try lia; [by rewrite <- app_assoc|].
      apply Forall_app; split; [|constructor; [unfold ext_end in *; lia|done]]. eapply Forall_impl; [exact HPend|]. cbn. unfold ext_end in *. intros; lia.
    - rewrite fmap_app. apply (outside_low _ _ lo _ (ext_end (slot_extent x))); [|done]. apply exts_ok_app. exists mid. split; [done|]. cbn [fmap list_fmap exts_ok]. unfold ext_end. lia. }
  destruct (outside start end_ (slot_extent x)) eqn:Ho.
  - (* behind the range *)
    assert (end_ < ee_block (slot_extent x)) as Hend by (unfold outside in Ho; destruct (Z.ltb_spec end_ (ee_block (slot_extent x))); [done|]; cbn in Ho; apply Z.leb_le in Ho; lia).
    destruct (IH fuel (x :: Q) ci (Some (Z.of_nat (length P))) s lo mid) as (s' & k' & ci' & pe' & calls & E & Hc & Hn); try done; try (unfold ext_end, EXT_MAX_BLOCKS in *; lia).
    exists s', k', ci', pe', calls. split; [|split; [|by intros [_ [=]]%app_nil]].
    + cbn [rm_leaf_loop]. rewrite get_node_ok. destruct (Z.ltb_spec (Z.of_nat (length P)) 0); [lia|]. erewrite lift_ok by (by eapply used_slot).
      unfold ext_end in *. unfold EXT_MAX_BLOCKS in Hh. rewrite !u32_small by lia. destruct (Z.ltb_spec start (ee_block (slot_extent x) + ext_len (slot_extent x))); [|lia]. cbn [negb].
      destruct (Z.ltb_spec end_ (ee_block (slot_extent x))); [|lia]. rewrite not_bigalloc. rewrite (bind_ok _ _ s tt s) by done. exact E.
    + destruct Hc as [? ? ? H4 ? ? H6 ?]. destruct (cut_outside start end_ [slot_extent x]) as [E1 E2]; [by repeat constructor|].
      split; try done; rewrite fmap_app; cbn [fmap list_fmap]; rewrite ?cut_app, ?gone_app, ?E1, ?E2, ?app_nil_r, <- ?app_assoc; done.
  - destruct (leaf_step fuel bh start end_ P x Q ci pe s) as (s1 & c & E & M & Hcb & Hs1 & Hk1 & Eu1 & He1 & Hcs1); try done; [lia|lia|destruct HQ; auto|].
    assert (plain s1) as Hp1 by (eapply plain_side; [apply M|done]). rewrite E. unfold cut1 in Eu1. rewrite Ho in Eu1.
    assert (freed_blocks [c] = gone start end_ [slot_extent x]) as Hg by (cbn; by rewrite Hcb).
    destruct (Z.ltb_spec (ee_block (slot_extent x)) start) as [Hb|Hb]; cbn [fmap list_fmap app] in Eu1.
    + exists s1. eexists _, _, _, ([c] ++ []). split; [eapply leaf_stop; try done; try lia; eapply Forall_impl; [exact HPend|]; cbn; intros; lia|]. split; [|by intros [_ [=]]%app_nil].
      assert (cut start end_ [slot_extent x] = [short (slot_extent x) (start - ee_block (slot_extent x))]) as Ex by (unfold cut, cut1; cbn [mbind list_bind]; rewrite app_nil_r, Ho; destruct (Z.ltb_spec (ee_block (slot_extent x)) start); [done|lia]).
      assert (Forall (fun ex => outside start end_ ex = true) (slot_extent <$> P)) as HoP by (eapply outside_low; [exact HxP|lia]).
      destruct (cut_outside start end_ _ HoP) as [EP EG]. destruct (extent_slot_ok (short (slot_extent x) (start - ee_block (slot_extent x)))) as [_ Eback].
      { apply short_spec; [|unfold ext_end in *; lia]. apply slot_extent_ok. pose proof Hs as [_ Hok]. rewrite Eu in Hok. by apply Forall_app in Hok as [_ [? _]%Forall_cons]. }
      eapply (leaf_cut_after bh start end_ P P x Q); [by apply (leaf_cut_nothing _ _ _ P (extent_slot (short (slot_extent x) (start - ee_block (slot_extent x))) :: Q))| |exact Eu|exact Eu1| | |exact M| |done|done|done].
      * intros ->. done.
      * intros Hne. destruct P as [|p t]; [done|]. by exists p, t.
      * rewrite fmap_app, cut_app. cbn [fmap list_fmap]. rewrite Ex, EP, Eback, <- app_assoc. done.
      * rewrite fmap_app, gone_app. cbn [fmap list_fmap]. by rewrite Hg, EG, app_nil_r.
    + destruct (IH fuel Q (ci || (Z.of_nat (length P) =? 0)) (Some (Z.of_nat (length P))) s1 lo mid) as (s' & k' & ci' & pe' & calls & E' & Hc & Hn); try done; try lia.
      { destruct Hk1 as (_ & -> & _). lia. }
      exists s', k', ci', pe', ([c] ++ calls). split; [exact E'|]. split; [|by intros [_ [=]]%app_nil].
      assert (cut start end_ [slot_extent x] = []) as Ex by (unfold cut, cut1; cbn [mbind list_bind]; rewrite app_nil_r, Ho; destruct (Z.ltb_spec (ee_block (slot_extent x)) start); [lia|done]).
      eapply (leaf_cut_after bh start end_ P P x Q); [exact Hc| |exact Eu|exact Eu1| | |exact M| |done|done|done].
      * intros ->. split; [done|]. by rewrite Hn.
      * intros Hne. destruct P as [|p t]; [done|]. by exists p, t.
      * rewrite fmap_app, cut_app. cbn [fmap list_fmap]. by rewrite Ex, app_nil_r.
      * rewrite fmap_app, gone_app. cbn [fmap list_fmap]. rewrite Hg. apply Permutation_app_comm.
Qed.
End leaf.
