(* ===== verification/ExtZip.v ===== *)
(** The shape of a tree on the disk with the blocks it takes, the part of a tree
    around a node as a list of frames, and changing keys on the way up. *)

From stdpp Require Import sorting.
From S2P Require Import Prelude Friend ExtStatus ExtInsert ExtRemove ExtOps ExtRecover SysZone ExtTree ExtLeaf ExtEdit ExtCheck ExtStep ExtCut.

(** ** Shapes *)

(** The slots there is room for in the inode, or in a block. *)
Definition sized (sb : ext_sb) (bh : option Z) (n : ext_node) : Prop :=
  Z.of_nat (length (n_slots n)) = match bh with None => ext4_ext_space_root | Some _ => ext4_ext_space_block sb end.

(** Parts of a tree that follow each other from [lo] to [hi], each with the blocks
    it takes and its extents. *)
Inductive forest (sub : ext_slot -> Z -> list Z -> list ext4_extent -> Prop) : Z -> list ext_slot -> Z -> list Z -> list ext4_extent -> Prop :=
| forest_nil lo hi : lo <= hi -> forest sub lo [] hi [] []
| forest_cons lo sl mid l hi B1 E1 B2 E2 : lo <= sw0 sl -> sub sl mid B1 E1 -> forest sub mid l hi B2 E2 -> forest sub lo (sl :: l) hi (B1 ++ B2) (E1 ++ E2).

Section shape.
Variable sb : ext_sb.
Variable ext4_chksum : ext4_extent_header -> list ext_slot -> Z.

Definition fine (s : edit_state) (bh : option Z) (d : nat) (key : Z) : Prop :=
  slots_ok (heap s bh) /\ sized sb bh (heap s bh) /\ sound sb ext4_chksum (x_inode s) (heap s bh) d key.

(** The tree below a node at height [d] for the blocks from [lo] to [hi]: the blocks
    of the nodes under it, and the extents. *)
Fixpoint node_tree (s : edit_state) (d : nat) (bh : option Z) (lo hi : Z) (B : list Z) (E : list ext4_extent) : Prop :=
  fine s bh d lo /\
  match d with
  | O => B = [] /\ E = slot_extent <$> used (heap s bh) /\ exts_ok lo E hi
  | S d' =>
      forest (fun sl hi B E => exists B', B = child_of sl :: B' /\ Z.of_nat d' <> ext_depth (x_inode s) /\ used (heap s (Some (child_of sl))) <> [] /\
        node_tree s d' (Some (child_of sl)) (sw0 sl) hi B' E) lo (used (heap s bh)) hi B E
  end.
Definition subtree (s : edit_state) (d : nat) (sl : ext_slot) (hi : Z) (B : list Z) (E : list ext4_extent) : Prop :=
  exists B', B = child_of sl :: B' /\ Z.of_nat d <> ext_depth (x_inode s) /\ used (heap s (Some (child_of sl))) <> [] /\ node_tree s d (Some (child_of sl)) (sw0 sl) hi B' E.

Lemma forest_impl (sub sub' : ext_slot -> Z -> list Z -> list ext4_extent -> Prop) lo l hi B E :
  (forall sl hi B' E', B' ⊆ B -> sub sl hi B' E' -> sub' sl hi B' E') -> forest sub lo l hi B E -> forest sub' lo l hi B E.
Proof.
  intros Hi H. induction H as [|lo sl mid l hi B1 E1 B2 E2 ? Hs Hf IH]; [by constructor|]. apply (forest_cons _ _ _ mid); [done|apply Hi; [set_solver|done]|].
  apply IH. intros. apply Hi; [set_solver|done].
Qed.
Lemma forest_app sub lo l1 mid l2 hi B1 E1 B2 E2 : forest sub lo l1 mid B1 E1 -> forest sub mid l2 hi B2 E2 -> forest sub lo (l1 ++ l2) hi (B1 ++ B2) (E1 ++ E2).
Proof.
  intros H. revert l2 hi B2 E2. induction H as [lo mid Hle|lo sl mid l hi B1 E1 B2 E2 ? Hs Hf IH]; intros l2 hi' B3 E3 H2.
  - cbn. inversion H2; subst; [constructor; lia|]. eapply forest_cons; try done. lia.
  - rewrite <- !app_assoc. cbn [app]. by eapply forest_cons; [| |apply IH].
Qed.
Lemma forest_split sub lo l1 l2 hi B E : forest sub lo (l1 ++ l2) hi B E ->
  exists mid B1 E1 B2 E2, B = B1 ++ B2 /\ E = E1 ++ E2 /\ forest sub lo l1 mid B1 E1 /\ forest sub mid l2 hi B2 E2.
Proof.
  revert lo B E. induction l1 as [|sl l1 IH]; intros lo B E H; cbn [app] in H.
  - exists lo, [], [], B, E. split_and!; try done. by constructor.
  - inversion H as [|? ? mid ? ? B1 E1 B2 E2 Hlo Hs Hf]; subst. destruct (IH _ _ _ Hf) as (mid' & B3 & E3 & B4 & E4 & -> & -> & H1 & H2).
    exists mid', (B1 ++ B3), (E1 ++ E3), B4, E4. split_and!; [by rewrite app_assoc..| |done]. by eapply forest_cons.
Qed.
Lemma forest_one_inv sub lo sl hi B E : forest sub lo [sl] hi B E -> exists mid, lo <= sw0 sl /\ sub sl mid B E /\ mid <= hi.
Proof. intros H. inversion H as [|? ? mid ? ? B1 E1 B2 E2 ? ? Hf]; subst. inversion Hf; subst. rewrite !app_nil_r. by exists mid. Qed.

Lemma forest_nil_inv sub lo hi B E : forest sub lo [] hi B E -> B = [] /\ E = [] /\ lo <= hi.
Proof. intros H. by inversion H. Qed.

Section in_state.
Variable s : edit_state.

Lemma node_tree_S d bh lo hi B E : node_tree s (S d) bh lo hi B E <-> fine s bh (S d) lo /\ forest (subtree s d) lo (used (heap s bh)) hi B E.
Proof. done. Qed.

(** The extents are in order, and where the node says. *)
Lemma forest_exts sub lo l hi B E : (forall sl hi B E, sub sl hi B E -> exts_ok (sw0 sl) E hi) -> forest sub lo l hi B E -> exts_ok lo E hi.
Proof.
  intros Hs H. induction H as [|lo sl mid l hi B1 E1 B2 E2 ? H1 _ IH]; [done|]. apply exts_ok_app. exists mid. split; [|done]. eapply exts_ok_weaken; [by eapply Hs|done|lia].
Qed.
Lemma node_tree_exts d bh lo hi B E : node_tree s d bh lo hi B E -> exts_ok lo E hi.
Proof.
  revert bh lo hi B E. induction d as [|d IH]; intros bh lo hi B E [_ H]; [by destruct H as (_ & _ & ?)|].
  eapply forest_exts; [|exact H]. cbn. intros sl hi' B' E' (? & _ & _ & _ & Hn). by eapply IH.
Qed.
Lemma subtree_exts d sl hi B E : subtree s d sl hi B E -> exts_ok (sw0 sl) E hi.
Proof. intros (? & _ & _ & _ & H). by eapply node_tree_exts. Qed.

(** The first extent starts where the node does. *)
Lemma fine_first bh d lo sl l : fine s bh d lo -> Z.of_nat d <> ext_depth (x_inode s) -> used (heap s bh) = sl :: l -> sw0 sl = lo.
Proof. intros (_ & _ & H) Hd E. pose proof (ps_first _ _ _ _ _ _ H Hd) as Hf. by rewrite E in Hf. Qed.
Lemma node_tree_first d bh lo hi B E sl l : node_tree s d bh lo hi B E -> used (heap s bh) = sl :: l -> exists e E', E = e :: E' /\ ee_block e = sw0 sl.
Proof.
  revert bh lo hi B E sl l. induction d as [|d IH]; intros bh lo hi B E sl l [_ H] Eu.
  - destruct H as (_ & -> & _). rewrite Eu. by eexists _, _.
  - rewrite Eu in H. inversion H as [|? ? mid ? ? B1 E1 B2 E2 ? (B' & _ & Hd & Hne & Hn) _]; subst.
    destruct (used (heap s (Some (child_of sl)))) as [|sl' l'] eqn:Eu'; [done|]. destruct (IH _ _ _ _ _ _ _ Hn Eu') as (e & E' & -> & Ee).
    exists e, (E' ++ E2). split; [done|]. rewrite Ee. destruct d; (destruct Hn as [Hfine _]; by eapply fine_first).
Qed.
Lemma subtree_first d sl hi B E : subtree s d sl hi B E -> exists e E', E = e :: E' /\ ee_block e = sw0 sl.
Proof.
  intros (B' & _ & Hd & Hne & Hn). destruct (used _) as [|sl' l'] eqn:Eu; [done|]. destruct (node_tree_first _ _ _ _ _ _ _ _ Hn Eu) as (e & E' & -> & Ee).
  exists e, E'. split; [done|]. rewrite Ee. destruct d; (destruct Hn as [Hfine _]; by eapply fine_first).
Qed.
Lemma subtree_lt d sl hi B E : subtree s d sl hi B E -> sw0 sl < hi.
Proof.
  intros H. destruct (subtree_first _ _ _ _ _ H) as (e & E' & -> & Ee). pose proof (subtree_exts _ _ _ _ _ H) as Hx.
  destruct (exts_ok_elem _ _ _ e Hx) as (? & ? & ? & _); [left|]. lia.
Qed.
Lemma node_tree_weaken d bh lo hi hi' B E : node_tree s d bh lo hi B E -> hi <= hi' -> node_tree s d bh lo hi' B E.
Proof.
  revert bh lo hi hi' B E. induction d as [|d IH]; intros bh lo hi hi' B E [Hf H] Hhi; (split; [done|]).
  - destruct H as (? & ? & Hx). split_and!; [done..|]. by eapply exts_ok_weaken.
  - clear Hf. revert hi' Hhi. induction H as [|lo sl mid l hi B1 E1 B2 E2 ? Hs Hf IHf]; intros hi' Hhi; [constructor; lia|].
    eapply forest_cons; [done|exact Hs|]. by apply IHf.
Qed.
Lemma forest_weaken d lo lo' l hi hi' B E : forest (subtree s d) lo l hi B E -> lo' <= lo -> hi <= hi' -> forest (subtree s d) lo' l hi' B E.
Proof.
  intros H. revert lo' hi'. induction H as [|lo sl mid l hi B1 E1 B2 E2 ? Hs Hf IHf]; intros lo' hi' Hlo Hhi; [constructor; lia|].
  eapply forest_cons; [lia|exact Hs|]. apply IHf; [lia|done].
Qed.
Lemma forest_le d lo l hi B E : forest (subtree s d) lo l hi B E -> lo <= hi.
Proof. induction 1 as [|lo sl mid l hi B1 E1 B2 E2 ? Hs Hf IH]; [done|]. pose proof (subtree_lt _ _ _ _ _ Hs). lia. Qed.
(** The keys of an index node. *)
Lemma forest_keys d lo l hi B E : forest (subtree s d) lo l hi B E -> keys_up l /\ Forall (fun sl => lo <= sw0 sl < hi) l.
Proof.
  induction 1 as [|lo sl mid l hi B1 E1 B2 E2 ? Hs Hf [IH1 IH2]]; [split; constructor|]. pose proof (subtree_lt _ _ _ _ _ Hs). pose proof (forest_le _ _ _ _ _ _ Hf).
  split; constructor; [done| |lia|]; (eapply Forall_impl; [exact IH2|]; cbn; intros; lia).
Qed.
End in_state.

(** ** The part of a tree around a node *)

(** A node above, with the slot the path goes through, and the blocks and extents of
    the children on both sides of it. *)
Record frame := Frame {
  fr_bh : option Z; fr_left : list ext_slot; fr_slot : ext_slot; fr_right : list ext_slot;
  fr_BL : list Z; fr_EL : list ext4_extent; fr_BR : list Z; fr_ER : list ext4_extent
}.
(** The blocks of all nodes but those under the one the frames are around, and the
    extents on both sides. *)
Fixpoint zblocks (fs : list frame) : list Z := match fs with [] => [] | f :: fs => child_of (fr_slot f) :: fr_BL f ++ fr_BR f ++ zblocks fs end.
Fixpoint zleft (fs : list frame) : list ext4_extent := match fs with [] => [] | f :: fs => zleft fs ++ fr_EL f end.
Fixpoint zright (fs : list frame) : list ext4_extent := match fs with [] => [] | f :: fs => fr_ER f ++ zright fs end.
(** The frames [fs] from the parent of a node up to the root: the node is [bh], at
    height [h], for the blocks from [lo] to [hi]. *)
Inductive zip (s : edit_state) : list frame -> nat -> option Z -> Z -> Z -> Prop :=
| zip_root h lo : Z.of_nat h = ext_depth (x_inode s) -> 0 <= lo -> zip s [] h None lo EXT_MAX_BLOCKS
| zip_frame f fs h LO HI hi :
    zip s fs (S h) (fr_bh f) LO HI -> fine s (fr_bh f) (S h) LO -> used (heap s (fr_bh f)) = fr_left f ++ fr_slot f :: fr_right f ->
    forest (subtree s h) LO (fr_left f) (sw0 (fr_slot f)) (fr_BL f) (fr_EL f) -> forest (subtree s h) hi (fr_right f) HI (fr_BR f) (fr_ER f) -> sw0 (fr_slot f) < hi ->
    zip s (f :: fs) h (Some (child_of (fr_slot f))) (sw0 (fr_slot f)) hi.

(** Frames in which only keys of the slots differ. *)
Definition same_slot (a b : ext_slot) : Prop := sw1 a = sw1 b /\ sw2 a = sw2 b.
Definition same_frame (f f' : frame) : Prop := fr_bh f' = fr_bh f /\ fr_left f' = fr_left f /\ fr_right f' = fr_right f /\ same_slot (fr_slot f) (fr_slot f') /\
  fr_BL f' = fr_BL f /\ fr_EL f' = fr_EL f /\ fr_BR f' = fr_BR f /\ fr_ER f' = fr_ER f.
Definition same_frames : list frame -> list frame -> Prop := Forall2 same_frame.

Lemma same_frames_refl fs : same_frames fs fs.
Proof. induction fs; constructor; [|done]. done. Qed.
Lemma same_child a b : same_slot a b -> child_of b = child_of a.
Proof. intros [H1 H2]. unfold child_of, ext4_idx_pblock, slot_idx. cbn. by rewrite H1, H2. Qed.

Lemma same_frames_blocks fs fs' : same_frames fs fs' -> zblocks fs' = zblocks fs /\ zleft fs' = zleft fs /\ zright fs' = zright fs /\ fr_bh <$> fs' = fr_bh <$> fs.
Proof.
  induction 1 as [|f f' fs fs' (E1 & _ & _ & Es & E2 & E3 & E4 & E5) _ (I1 & I2 & I3 & I4)]; [done|]. cbn. rewrite (same_child _ _ Es). split_and!; congruence.
Qed.
Lemma same_frames_trans fs1 fs2 fs3 : same_frames fs1 fs2 -> same_frames fs2 fs3 -> same_frames fs1 fs3.
Proof.
  intros H. revert fs3. induction H as [|f f' fs fs' Hf _ IH]; intros fs3 Hx; inversion Hx as [|? f3 ? ? Hf3]; subst; constructor; [|by apply IH].
  unfold same_frame, same_slot in *. intuition congruence.
Qed.

(** The stack of the walk goes through the frames. *)
Definition on_frame (f : frame) (p : ext4_ext_path) : Prop := p_bh p = fr_bh f /\ p_idx p = Some (Z.of_nat (length (fr_left f))).
Definition stack_of (fs : list frame) (ups : list ext4_ext_path) : Prop := Forall2 on_frame fs ups.
Lemma stack_same fs fs' ups : same_frames fs fs' -> stack_of fs ups -> stack_of fs' ups.
Proof.
  intros H. revert ups. induction H as [|f f' fs fs' (H1 & H2 & _) _ IH]; intros ups Hs; inversion Hs as [|? p ? ups' [Hp1 Hp2] Hr]; subst; constructor; [|by apply IH].
  split; [congruence|by rewrite H2].
Qed.

(** ** What is not touched *)

Lemma fine_keep s s' bh d lo : side s s' -> heap s' bh = heap s bh -> fine s bh d lo -> fine s' bh d lo.
Proof. intros Hs Hh (H1 & H2 & H3). unfold fine. rewrite Hh. split_and!; [done..|]. eapply sound_same; [apply Hs|apply Hs|done]. Qed.
Lemma node_tree_keep s s' d bh lo hi B E : side s s' -> heap s' bh = heap s bh -> (forall b, b ∈ B -> heap s' (Some b) = heap s (Some b)) -> node_tree s d bh lo hi B E -> node_tree s' d bh lo hi B E.
Proof.
  intros Hs. revert bh lo hi B E. induction d as [|d IH]; intros bh lo hi B E Hh HB [Hf H]; (split; [by eapply fine_keep|]); rewrite Hh; [done|].
  eapply forest_impl; [|exact H]. intros sl hi' B' E' HBB (B'' & -> & Hd & Hne & Hn). exists B''.
  assert (heap s' (Some (child_of sl)) = heap s (Some (child_of sl))) as Hc by (apply HB, HBB; left). rewrite Hc, (sd_depth _ _ Hs).
  split_and!; [done..|]. apply IH; [done|by intros b Hb; apply HB, HBB; right|done].
Qed.
Lemma subtree_keep s s' d sl hi B E : side s s' -> (forall b, b ∈ B -> heap s' (Some b) = heap s (Some b)) -> subtree s d sl hi B E -> subtree s' d sl hi B E.
Proof.
  intros Hs HB (B' & -> & Hd & Hne & Hn). exists B'. assert (heap s' (Some (child_of sl)) = heap s (Some (child_of sl))) as Hc by (apply HB; left). rewrite Hc, (sd_depth _ _ Hs).
  split_and!; [done..|]. eapply node_tree_keep; [done|done|by intros b Hb; apply HB; right|done].
Qed.
Lemma forest_keep s s' d lo l hi B E : side s s' -> (forall b, b ∈ B -> heap s' (Some b) = heap s (Some b)) -> forest (subtree s d) lo l hi B E -> forest (subtree s' d) lo l hi B E.
Proof. intros Hs HB. apply forest_impl. intros sl hi' B' E' HBB. apply subtree_keep; [done|]. intros b Hb. by apply HB, HBB. Qed.

(** The node itself is not a part of what is around it. *)
Lemma zip_bh s fs h bh lo hi : zip s fs h bh lo hi -> match bh with Some b => b ∈ zblocks fs | None => fs = [] /\ Z.of_nat h = ext_depth (x_inode s) end.
Proof. intros H. inversion H; subst; [done|left]. Qed.
Lemma zip_keep s s' fs h bh lo hi : side s s' -> NoDup (zblocks fs) -> (forall b, b <> bh -> (b = None \/ exists c, b = Some c /\ c ∈ zblocks fs) -> heap s' b = heap s b) ->
  zip s fs h bh lo hi -> zip s' fs h bh lo hi.
Proof.
  intros Hs Hnd Hk H. induction H as [h lo Hd H0|f fs h LO HI hi H IH Hf Hu HL HR Hle]; [constructor; [by rewrite (sd_depth _ _ Hs)|done]|]. cbn [zblocks] in *.
  apply NoDup_cons in Hnd as [Hn Hnd]. apply NoDup_app in Hnd as (_ & _ & Hnd). apply NoDup_app in Hnd as (_ & _ & HndB). set (b0 := child_of (fr_slot f)) in *.
  assert (heap s' (fr_bh f) = heap s (fr_bh f)) as Hh.
  { pose proof (zip_bh _ _ _ _ _ _ H) as Hb. apply Hk.
    - intros E. rewrite E in Hb. set_solver.
    - destruct (fr_bh f) as [b|]; [right; exists b; split; [done|set_solver]|by left]. }
  apply zip_frame with LO HI.
  - apply IH; [done|]. intros b Hb Hin. apply Hk; [|set_solver]. intros ->. destruct Hin as [?|(c & [= <-] & Hc)]; [done|set_solver].
  - by eapply fine_keep.
  - by rewrite Hh.
  - eapply forest_keep; [done| |exact HL]. intros b Hb. apply Hk; [intros [= ->]; set_solver|right; exists b; split; [done|set_solver]].
  - eapply forest_keep; [done| |exact HR]. intros b Hb. apply Hk; [intros [= ->]; set_solver|right; exists b; split; [done|set_solver]].
  - done.
Qed.

Lemma zip_frames s fs h bh lo hi : zip s fs h bh lo hi -> Forall (fun b => b = None \/ exists c, b = Some c /\ c ∈ zblocks fs) (fr_bh <$> fs).
Proof.
  induction 1 as [|f fs h LO HI hi H IH]; [constructor|]. cbn [fmap list_fmap zblocks]. constructor.
  - pose proof (zip_bh _ _ _ _ _ _ H) as Hb. destruct (fr_bh f) as [b|]; [right; exists b; split; [done|set_solver]|by left].
  - eapply Forall_impl; [exact IH|]. intros b [?|(c & ? & ?)]; [by left|right; exists c; split; [done|set_solver]].
Qed.
Lemma zip_notin s fs h bh lo hi : zip s fs h bh lo hi -> NoDup (zblocks fs) -> bh ∉ (fr_bh <$> fs).
Proof.
  intros H Hnd Hin. inversion H as [|f fs' ? LO HI ? H']; subst; [set_solver|]. cbn [fmap list_fmap zblocks] in *. apply NoDup_cons in Hnd as [Hn _].
  pose proof (zip_bh _ _ _ _ _ _ H') as Hb. pose proof (zip_frames _ _ _ _ _ _ H') as Hf. rewrite Forall_forall in Hf.
  apply elem_of_cons in Hin as [E|Hin]; [rewrite <- E in Hb; set_solver|]. destruct (Hf _ Hin) as [?|(c & [= <-] & ?)]; [done|set_solver].
Qed.
(** The range of a node is a part of that of the file. *)
Lemma zip_bounds s fs h bh lo hi : zip s fs h bh lo hi -> 0 <= lo /\ hi <= EXT_MAX_BLOCKS /\ (bh = None <-> Z.of_nat h = ext_depth (x_inode s)) /\ Z.of_nat h + Z.of_nat (length fs) = ext_depth (x_inode s).
Proof.
  induction 1 as [|f fs h LO HI hi H (H0 & H1 & H2 & H3) Hf Hu HL HR Hle]; [split_and!; done || (intros; cbn; lia)|].
  pose proof (forest_le _ _ _ _ _ _ _ HL). pose proof (forest_le _ _ _ _ _ _ _ HR). cbn [length]. split_and!; try done; try lia. split; [done|]. intros; exfalso; lia.
Qed.

(** ** Changing keys *)

Lemma idx_valid_same ino a b : same_slot a b -> idx_valid sb ino a -> idx_valid sb ino b.
Proof. intros H. unfold idx_valid. by rewrite (same_child _ _ H). Qed.
(** An index node with other slots in order is fine again. *)
Lemma fine_index s s' bh d lo lo' n' : fine s bh (S d) lo -> side s s' -> heap s' bh = sealed sb ext4_chksum bh n' -> same_kind (heap s bh) n' -> slots_ok n' -> entries n' <= entries (heap s bh) \/ entries n' <= eh_max (n_hdr n') ->
  keys_up (used n') -> Forall (fun sl => 0 <= sw0 sl < EXT_MAX_BLOCKS) (used n') -> Forall (idx_valid sb (i_ino (x_inode s))) (used n') ->
  (bh = None <-> Z.of_nat (S d) = ext_depth (x_inode s)) -> (bh <> None -> from_option sw0 lo' (head (used n')) = lo') -> fine s' bh (S d) lo'.
Proof.
  intros (Hs & Hz & Hp) Hside Hh Hk Hs' He Hku Hkb Hv Hroot Hfirst. pose proof Hk as (_ & K2 & _ & K4). pose proof (ps_fit _ _ _ _ _ _ Hp). assert (entries n' <= eh_max (n_hdr n')) as He' by lia.
  destruct (sealed_spec sb ext4_chksum bh n' He') as ((S1 & S2 & S3 & S4) & Ee & Eu & Hss). unfold fine. rewrite Hh. split; [auto|]. split; [unfold sized in *; congruence|].
  eapply sound_same; [apply Hside|apply Hside|]. eapply sound_again; [exact Hp|exact Hk|done| | |].
  - intros Hd ->. apply Hd. by apply Hroot.
  - intros Hd. apply Hfirst. intros ->. apply Hd. by apply Hroot.
  - apply valid_index_intro; [done|done| |done]. eapply Forall_impl; [exact Hkb|]. cbn. intros; lia.
Qed.
Lemma fine_valid s bh d lo : fine s bh (S d) lo -> Forall (idx_valid sb (i_ino (x_inode s))) (used (heap s bh)).
Proof. intros (_ & _ & Hp). pose proof (ps_valid _ _ _ _ _ _ Hp) as Hv. destruct (decide _); [done|]. by eapply valid_index_elim. Qed.

Section keys.
Variable env : edit_env.
Hypothesis Hq : quiet env.

Lemma write_key_ok f p K s : on_frame f p -> slots_ok (heap s (fr_bh f)) -> used (heap s (fr_bh f)) = fr_left f ++ fr_slot f :: fr_right f -> 0 <= K < 2 ^ 32 ->
  exists s' n', write_key sb ext4_chksum env p K s = Ok (inr tt, s') /\ moved [fr_bh f] [] s s' /\ heap s' (fr_bh f) = sealed sb ext4_chksum (fr_bh f) n' /\
    slots_ok n' /\ used n' = fr_left f ++ ExtSlot K (sw1 (fr_slot f)) (sw2 (fr_slot f)) :: fr_right f /\ same_kind (heap s (fr_bh f)) n' /\ entries n' = entries (heap s (fr_bh f)).
Proof.
  intros [Hb Hi] Hs Hu HK. unfold write_key. rewrite Hb. destruct (access_ok env Hq (fr_bh f) s) as (s1 & E1 & M1). rewrite (bind_ok _ _ _ _ _ E1).
  assert (heap s1 (fr_bh f) = heap s (fr_bh f)) as Hh1 by (apply (mv_other _ _ _ _ M1); set_solver).
  pose proof Hs as [_ Hok]. rewrite Hu in Hok. apply Forall_app in Hok as [_ [(_ & ? & ?) _]%Forall_cons].
  destruct (put_used (heap s (fr_bh f)) _ _ _ (ExtSlot K (sw1 (fr_slot f)) (sw2 (fr_slot f))) Hs Hu) as (n' & E2 & Hs' & Hu' & Hk & He); [unfold slot_ok; cbn; lia|].
  destruct (put_ok (fr_bh f) n' s1) as (s2 & E3 & Hh2 & M2); [rewrite Hh1; apply Hk|].
  assert (set_key p K s1 = Ok (inr tt, s2)) as E4.
  { unfold set_key, p_slot. rewrite Hi, ret_ok, Hb, get_node_ok, Hh1. erewrite lift_ok by (by eapply used_slot). erewrite lift_ok by exact E2. exact E3. }
  rewrite (bind_ok _ _ _ _ _ E4). destruct (dirty_ok sb ext4_chksum env Hq (fr_bh f) s2) as (s3 & E5 & Hh3 & M3). exists s3, n'. split; [exact E5|]. rewrite Hh2 in Hh3. split_and!; try done.
  eapply moved_keep; [|exact M3]. eapply moved_start; [apply moved_nil, M1|done].
Qed.

(** The keys of a node around one of its slots. *)
Lemma around_keys s h lo HI hi f K BL EL BR ER : forest (subtree s h) lo (fr_left f) K BL EL -> forest (subtree s h) hi (fr_right f) HI BR ER -> K < hi ->
  keys_up (fr_left f ++ ExtSlot K (sw1 (fr_slot f)) (sw2 (fr_slot f)) :: fr_right f) /\ Forall (fun sl => lo <= sw0 sl < HI) (fr_left f ++ ExtSlot K (sw1 (fr_slot f)) (sw2 (fr_slot f)) :: fr_right f).
Proof.
  intros HL HR HK. destruct (forest_keys _ _ _ _ _ _ _ HL) as [H1 H2]. destruct (forest_keys _ _ _ _ _ _ _ HR) as [H3 H4]. pose proof (forest_le _ _ _ _ _ _ _ HL). pose proof (forest_le _ _ _ _ _ _ _ HR).
  rewrite Forall_forall in H2, H4. split.
  - apply StronglySorted_app. split_and!; [| done|constructor; [done|]].
    + intros x y Hx [-> |Hy]%elem_of_cons; [cbn; by apply H2|]. specialize (H2 x Hx). specialize (H4 y Hy). lia.
    + apply Forall_forall. intros y Hy. specialize (H4 y Hy). cbn. lia.
  - apply Forall_app. split; [|constructor; [cbn; lia|]]; apply Forall_forall; intros y Hy; [specialize (H2 y Hy)|specialize (H4 y Hy)]; lia.
Qed.
(** A frame whose key has changed, around what has changed above it. *)
Lemma zip_rekeyed f fs fs2 K s s1 s2 n' h LO lo2 HI hi :
  zip s fs (S h) (fr_bh f) LO HI -> fine s (fr_bh f) (S h) LO -> used (heap s (fr_bh f)) = fr_left f ++ fr_slot f :: fr_right f ->
  forest (subtree s h) LO (fr_left f) (sw0 (fr_slot f)) (fr_BL f) (fr_EL f) -> forest (subtree s h) hi (fr_right f) HI (fr_BR f) (fr_ER f) -> fr_left f = [] \/ sw0 (fr_slot f) <= K -> 0 <= K < hi ->
  NoDup (zblocks (f :: fs)) -> moved [fr_bh f] [] s s1 -> heap s1 (fr_bh f) = sealed sb ext4_chksum (fr_bh f) n' -> slots_ok n' ->
  used n' = fr_left f ++ ExtSlot K (sw1 (fr_slot f)) (sw2 (fr_slot f)) :: fr_right f -> same_kind (heap s (fr_bh f)) n' -> entries n' = entries (heap s (fr_bh f)) ->
  moved (fr_bh <$> fs) [] s1 s2 -> zip s2 fs2 (S h) (fr_bh f) lo2 HI -> lo2 = (if Z.of_nat (length (fr_left f)) =? 0 then K else LO) ->
  zip s2 (Frame (fr_bh f) (fr_left f) (ExtSlot K (sw1 (fr_slot f)) (sw2 (fr_slot f))) (fr_right f) (fr_BL f) (fr_EL f) (fr_BR f) (fr_ER f) :: fs2) h (Some (child_of (fr_slot f))) K hi.
Proof.
  intros H Hf Hu HL HR HK0 HK Hnd M1 Hh1 Hs1 Hu1 Hk1 He1 M2 Hz2 ->. set (sl' := ExtSlot _ _ _) in *. pose proof (zip_bounds _ _ _ _ _ _ H) as (HLO & HHI & Hroot & _).
  cbn [zblocks] in Hnd. apply NoDup_cons in Hnd as [Hnc Hnd]. apply NoDup_app in Hnd as (HndL & HdL & Hnd). apply NoDup_app in Hnd as (HndR & HdR & HndB).
  pose proof (zip_notin _ _ _ _ _ _ H HndB) as Hnotin. pose proof (zip_frames _ _ _ _ _ _ H) as Hfr. rewrite Forall_forall in Hfr. pose proof (zip_bh _ _ _ _ _ _ H) as Hbh.
  assert (forall b, b ∈ fr_BL f \/ b ∈ fr_BR f -> heap s2 (Some b) = heap s (Some b)) as Hsib.
  { intros b Hb. assert (b ∉ zblocks fs) as HnB by (destruct Hb; [intros HB; apply (HdL b); set_solver|by apply HdR]).
    rewrite (mv_other _ _ _ _ M2), (mv_other _ _ _ _ M1); [done|intros [E|?]%elem_of_cons; [rewrite <- E in Hbh; done|set_solver]|]. intros Hin. destruct (Hfr _ Hin) as [?|(c & [= <-] & ?)]; done. }
  assert (side s s2) as Hside by (eapply side_trans; [apply M1|apply M2]).
  assert (heap s2 (fr_bh f) = sealed sb ext4_chksum (fr_bh f) n') as Hh2 by (by rewrite (mv_other _ _ _ _ M2)).
  pose proof (forest_le _ _ _ _ _ _ _ HL). pose proof (forest_le _ _ _ _ _ _ _ HR). pose proof Hf as (_ & _ & Hp). pose proof (ps_fit _ _ _ _ _ _ Hp) as Hfit.
  destruct (sealed_spec sb ext4_chksum (fr_bh f) n') as (_ & _ & Hu2 & _); [destruct Hk1 as (_ & -> & _); lia|].
  set (lo2 := if _ =? 0 then _ else _) in *.
  assert (forest (subtree s h) lo2 (fr_left f) K (fr_BL f) (fr_EL f)) as HL'.
  { unfold lo2. destruct (fr_left f) as [|sl0 l0] eqn:El; [|eapply forest_weaken; [exact HL|by destruct (Z.eqb_spec (Z.of_nat (length (sl0 :: l0))) 0)|by destruct HK0]]. apply forest_nil_inv in HL as (-> & -> & ?). by constructor. }
  apply (zip_frame s2 (Frame (fr_bh f) (fr_left f) sl' (fr_right f) (fr_BL f) (fr_EL f) (fr_BR f) (fr_ER f)) fs2 h lo2 HI); cbn [fr_bh fr_left fr_slot fr_right fr_BL fr_EL fr_BR fr_ER].
  - exact Hz2.
  - destruct (around_keys s h lo2 HI hi f K _ _ _ _ HL' HR) as [Hku Hkb]; [lia|].
    eapply (fine_index s s2 _ h LO lo2 n'); try done; rewrite ?Hu1; [lia|done|eapply Forall_impl; [exact Hkb|]; cbn; unfold lo2; intros; destruct (_ =? 0); lia| |].
    + pose proof (fine_valid _ _ _ _ Hf) as Hv. rewrite Hu in Hv. apply Forall_app in Hv as [Hv1 [Hv2 Hv3]%Forall_cons]. apply Forall_app; split; [done|]. constructor; [|done]. by eapply idx_valid_same; [|exact Hv2].
    + intros Hne. unfold lo2. destruct (fr_left f) as [|sl0 l0] eqn:El; [done|]. destruct (Z.eqb_spec (Z.of_nat (length (sl0 :: l0))) 0); [done|]. cbn. eapply fine_first; [exact Hf|intros E; by apply Hne, Hroot|by rewrite Hu].
  - by rewrite Hh2, Hu2.
  - eapply forest_keep; [exact Hside| |exact HL']. auto.
  - eapply forest_keep; [exact Hside| |exact HR]. auto.
  - cbn. lia.
Qed.

(** The keys on the way up, as long as the path goes through the first slots. *)
Definition reads_key (key : ext4_ext_path -> edit Z) (K : Z) : Prop :=
  forall q s k sl, p_idx q = Some k -> slot_at (heap s (p_bh q)) k = Ok sl -> sw0 sl = K -> key q s = Ok (inr K, s).
(** A first block for a node: not before the range of the node, or the node is on the
    left of the tree. *)
Definition lowers (fs : list frame) (lo K : Z) : Prop := lo <= K \/ (Forall (fun f => fr_left f = []) fs /\ 0 <= K).
Lemma indexes_up_ok key K : reads_key key K -> forall fs s h bh lo hi ups q kq below,
  zip s fs h bh lo hi -> stack_of fs ups -> NoDup (zblocks fs) -> p_idx q = Some kq -> (kq = 0 -> fs <> [] -> key q s = Ok (inr K, s)) -> lowers fs lo K -> K < hi ->
  exists s' fs' lo', indexes_up sb ext4_chksum env key below q ups s = Ok (inr tt, s') /\ moved (fr_bh <$> fs) [] s s' /\ same_frames fs fs' /\
    zip s' fs' h bh lo' hi /\ lo' = if kq =? 0 then K else lo.
Proof.
  intros Hkey fs. induction fs as [|f fs IH]; intros s h bh lo hi ups q kq below H Hst Hnd Hi Hkq HK0 HK.
  { inversion Hst; subst. inversion H; subst. exists s, [], (if kq =? 0 then K else lo). split_and!; try done; [apply moved_refl|constructor|]. constructor; [done|]. destruct HK0 as [?|[_ ?]]; destruct (kq =? 0); lia. }
  inversion Hst as [|? r ? ups' Hr Hst']; subst. cbn [indexes_up]. unfold first_index. rewrite Hi. destruct (Z.eqb_spec kq 0) as [->|Hk0].
  2:{ rewrite bool_decide_false by congruence. cbn [negb]. exists s, (f :: fs), lo. split_and!; [done|apply moved_nil, moved_refl|apply same_frames_refl|done|done]. }
  rewrite bool_decide_true by done. cbn [negb]. inversion H as [|? ? ? LO HI ? H0 Hf Hu HL HR Hle]; subst.
  pose proof Hf as (Hs & _). pose proof (zip_bounds _ _ _ _ _ _ H) as (? & ? & _). pose proof (zip_bounds _ _ _ _ _ _ H0) as (? & ? & _).
  assert (0 <= K < hi) as HKh by (destruct HK0 as [?|[_ ?]]; lia). assert (0 <= K < 2 ^ 32) as HKb by (unfold EXT_MAX_BLOCKS in *; lia).
  assert (fr_left f = [] \/ sw0 (fr_slot f) <= K) as HKf by (destruct HK0 as [?|[[? _]%Forall_cons _]]; auto).
  destruct (write_key_ok f r K s) as (s1 & n' & E1 & M1 & Hh1 & Hs1 & Hu1 & Hk1 & He1); try done.
  assert ((border ← key q; write_key sb ext4_chksum env r border) s = Ok (inr tt, s1)) as E1' by (rewrite (bind_ok _ _ _ _ _ (Hkq eq_refl ltac:(done))); exact E1).
  rewrite (try_ok _ _ _ _ _ E1'). pose proof Hnd as Hnd0. cbn [zblocks] in Hnd0. apply NoDup_cons in Hnd0 as [_ Hnd0]. apply NoDup_app in Hnd0 as (_ & _ & Hnd0). apply NoDup_app in Hnd0 as (_ & _ & HndB).
  assert (zip s1 fs (S h) (fr_bh f) LO HI) as Hz1.
  { eapply zip_keep; [apply M1|done| |exact H0]. intros b Hb _. apply (mv_other _ _ _ _ M1). set_solver. }
  destruct Hr as [Hr1 Hr2]. pose proof (forest_le _ _ _ _ _ _ _ HL). pose proof (forest_le _ _ _ _ _ _ _ HR).
  assert (entries n' <= eh_max (n_hdr n')) as Hfit by (destruct Hf as (_ & _ & Hp); destruct Hk1 as (_ & -> & _); rewrite He1; by destruct Hp).
  destruct (sealed_spec sb ext4_chksum (fr_bh f) n' Hfit) as (_ & _ & Hu2 & Hs2).
  destruct (IH s1 (S h) (fr_bh f) LO HI ups' r (Z.of_nat (length (fr_left f))) (r :: below)) as (s2 & fs2 & lo2 & E2 & M2 & Hsf & Hz2 & Elo); try done; [|destruct HK0 as [?|[[_ ?]%Forall_cons ?]]; [left; lia|by right]|lia|].
  { intros _ _. eapply Hkey; [exact Hr2|rewrite Hr1, Hh1; eapply used_slot; [by apply Hs2|by rewrite Hu2, Hu1]|done]. }
  exists s2. eexists (_ :: fs2), K. split; [exact E2|]. split; [|split; [|split; [apply (zip_rekeyed f fs fs2 K s s1 s2 n' h LO lo2 HI hi); try done|done]]].
  - cbn [fmap list_fmap]. apply (moved_on _ [] [] s s1 s2); (eapply moved_weaken; [eassumption|set_solver]).
  - constructor; [|done]. by repeat split.
Qed.

Lemma get_key_reads K : reads_key get_key K.
Proof. intros q s k sl Hi Hat <-. unfold get_key, p_slot. rewrite Hi, ret_ok. by rewrite (bind_ok _ _ _ _ _ (get_slot_ok _ _ _ _ Hat)). Qed.
Lemma mret_reads K : reads_key (fun _ => mret K) K.
Proof. done. Qed.

(** [ext4_ext_correct_indexes] when the first extent of a leaf has changed. *)
Lemma correct_indexes_ok p ups K sl fs s h lo hi : zip s fs h (p_bh p) lo hi -> stack_of fs ups -> NoDup (zblocks fs) -> p_ext p = Some 0 ->
  slot_at (heap s (p_bh p)) 0 = Ok sl -> sw0 sl = K -> lowers fs lo K -> K < hi ->
  exists s' fs', ext4_ext_correct_indexes sb ext4_chksum env (p :: ups) s = Ok (inr tt, s') /\ moved (fr_bh <$> fs) [] s s' /\ same_frames fs fs' /\ zip s' fs' h (p_bh p) K hi.
Proof.
  intros H Hst Hnd He Hat HK Hlo Hhi. set (p0 := ExtPath 0 0 None (Some 0) (p_bh p)).
  destruct (indexes_up_ok (fun _ => mret K) K (mret_reads K) fs s h (p_bh p) lo hi ups p0 0 []) as (s' & fs' & lo' & E & M & Hsf & Hz & ->); try done.
  exists s', fs'. split; [|done]. unfold ext4_ext_correct_indexes. rewrite He. destruct ups as [|q ups]; [done|]. cbn [Z.eqb negb].
  rewrite (bind_ok _ _ _ _ _ (get_slot_ok _ _ _ _ Hat)). rewrite HK. cbn [indexes_up] in E. assert (first_index p0 = true) as Hfi by (by apply bool_decide_true). rewrite Hfi in E. cbn [negb] in E.
  destruct (write_key sb ext4_chksum env q K s) as [[[e|[]] s1]| |] eqn:Ew; unfold mbind, edit_bind, try in E |- *; cbn [mret edit_ret] in E |- *; rewrite Ew in E |- *; cbn in E; done.
Qed.

(** The first key of what is left around a slot; the old one if nothing is. *)
Definition gap_key (f : frame) : Z := match fr_left f, fr_right f with [], r :: _ => sw0 r | _, _ => sw0 (fr_slot f) end.
Lemma gap_forest s h LO HI hi f BL EL BR ER : forest (subtree s h) LO (fr_left f) (sw0 (fr_slot f)) BL EL -> forest (subtree s h) hi (fr_right f) HI BR ER -> sw0 (fr_slot f) < hi ->
  LO <= gap_key f < HI /\ let lo' := if Z.of_nat (length (fr_left f)) =? 0 then gap_key f else LO in
  exists mid, forest (subtree s h) lo' (fr_left f) mid BL EL /\ forest (subtree s h) mid (fr_right f) HI BR ER.
Proof.
  intros HL HR Hlt. pose proof (forest_le _ _ _ _ _ _ _ HL). pose proof (forest_le _ _ _ _ _ _ _ HR). unfold gap_key. destruct (fr_left f) as [|sl l] eqn:El; cbn [length].
  - change (Z.of_nat 0 =? 0) with true. cbv iota zeta. inversion HL; subst. destruct (fr_right f) as [|r l] eqn:Er.
    + inversion HR; subst. split; [lia|]. exists (sw0 (fr_slot f)). split; apply forest_nil; lia.
    + destruct (forest_keys _ _ _ _ _ _ _ HR) as [_ [? _]%Forall_cons]. split; [lia|]. exists (sw0 r). split; [apply forest_nil; lia|]. inversion HR; subst. by eapply forest_cons.
  - destruct (Z.eqb_spec (Z.of_nat (S (length l))) 0); [lia|]. split; [lia|]. exists (sw0 (fr_slot f)). split; [done|]. eapply forest_weaken; [exact HR|lia|lia].
Qed.

(** The slot is taken out of the node; slot 0 has the first key of what is left, or
    is still the old one. *)
Lemma take_slot n f : slots_ok n -> used n = fr_left f ++ fr_slot f :: fr_right f -> entries n < 2 ^ 16 ->
  let k := Z.of_nat (length (fr_left f)) in
  exists n1, (if negb (k =? entries n - 1) then move_slots n k (k + 1) (entries n - 1 - k) else Ok n) = Ok n1 /\
    let n2 := set_entries n1 (u16 (entries n1 - 1)) in
    slots_ok n2 /\ used n2 = fr_left f ++ fr_right f /\ same_kind n n2 /\ entries n2 = entries n - 1 /\ (k = 0 -> exists sl, n_slots n2 !! 0%nat = Some sl /\ sw0 sl = gap_key f).
Proof.
  intros Hs Eu H16 k. pose proof (used_entries n _ _ _ Hs Eu) as He. pose proof Hs as [Hb Hok]. rewrite Eu in Hok. apply Forall_app in Hok as [HL [_ HR]%Forall_cons].
  assert (forall n1, entries n1 = entries n -> u16 (entries n1 - 1) = entries n - 1) as Hu16 by (intros n1 ->; apply wrap_small; lia).
  destruct (fr_right f) as [|r R] eqn:ER.
  - exists n. destruct (Z.eqb_spec k (entries n - 1)); [|cbn in He; lia]. cbn [negb]. split; [done|]. rewrite (Hu16 n eq_refl). destruct (used_prefix n _ Eu Hb) as (rest & Es & _). rewrite <- app_assoc in Es.
    destruct (slots_ok_intro (set_entries n (entries n - 1)) (fr_left f) (fr_slot f :: rest)) as [? Hu]; [done|cbn in *; lia|done|]. rewrite app_nil_r. split_and!; [done|done|by split_and!|done|].
    intros Hk0. unfold gap_key. assert (fr_left f = []) as EL by (destruct (fr_left f); [done|cbn in *; lia]). rewrite ER, EL. exists (fr_slot f). split; [|done]. cbn [set_entries n_slots]. by rewrite Es, EL.
  - destruct (remove_used n _ _ _ Hs Eu) as (n1 & E & He1 & Hs1 & Hu1 & Hk1). exists n1. destruct (Z.eqb_spec k (entries n - 1)); [cbn in He; lia|]. cbn [negb].
    replace (entries n - 1 - k) with (Z.of_nat (length (r :: R))) by lia. split; [exact E|]. rewrite (Hu16 n1 He1). split_and!; [done|done|exact Hk1|done|].
    intros Hk0. assert (fr_left f = []) as EL by (destruct (fr_left f); [done|cbn in *; lia]). unfold gap_key. rewrite ER, EL in *. cbn [app] in Hu1. exists r. split; [|done].
    assert (used (set_entries n1 (entries n - 1)) !! 0%nat = Some r) as H0 by (by rewrite Hu1). unfold used in H0. by apply lookup_take_Some in H0 as [? _].
Qed.

Hypothesis Hbs : xs_blocksize sb <= 65536.
Lemma sound_small i n d key : sound sb ext4_chksum i n d key -> entries n <= eh_max (n_hdr n) < 2 ^ 16 /\ 0 < eh_max (n_hdr n).
Proof.
  intros [_ _ H1 H2 _ _ _ _]. split; [|lia]. split; [done|]. apply (Z.le_lt_trans _ (ext4_ext_max_entries sb i (Z.of_nat d))); [lia|].
  unfold ext4_ext_max_entries, ext4_ext_space_root, ext4_ext_space_root_idx, ext4_ext_space_block, ext4_ext_space_block_idx. destruct (_ =? _), (_ =? _); Z.to_euclidean_division_equations; lia.
Qed.

(** [ext4_ext_rm_idx]: the slot of the frame goes, and its block is freed. *)
Lemma rm_idx_node f q ups s h LO : fine s (fr_bh f) (S h) LO -> used (heap s (fr_bh f)) = fr_left f ++ fr_slot f :: fr_right f -> on_frame f q ->
  exists s3 c n2, ext4_ext_rm_idx sb ext4_chksum env (q :: ups) s = indexes_up sb ext4_chksum env get_key [q] q ups s3 /\
    moved [fr_bh f] [c] s s3 /\ call_blocks c = [child_of (fr_slot f)] /\ heap s3 (fr_bh f) = sealed sb ext4_chksum (fr_bh f) n2 /\ slots_ok n2 /\ used n2 = fr_left f ++ fr_right f /\
    same_kind (heap s (fr_bh f)) n2 /\ entries n2 = entries (heap s (fr_bh f)) - 1 /\ (Z.of_nat (length (fr_left f)) = 0 -> get_key q s3 = Ok (inr (gap_key f), s3)).
Proof.
  intros (Hs & Hz & Hp) Hu [Hb Hi]. destruct (sound_small _ _ _ _ Hp) as [[Hfit H16] Hpos]. destruct (take_slot _ f Hs Hu ltac:(lia)) as (n1 & E1 & Hs2 & Hu2 & Hk2 & He2 & Hk0).
  set (n := heap s (fr_bh f)) in *. set (n2 := set_entries n1 _) in *. pose proof (used_entries n _ _ _ Hs Hu) as He.
  unfold ext4_ext_rm_idx, p_slot. rewrite Hi, ret_ok, Hb, get_node_ok. fold n. erewrite lift_ok by (by eapply used_slot). destruct (Z.eqb_spec (entries n) 0); [lia|].
  destruct (access_ok env Hq (fr_bh f) s) as (s1 & A1 & M1). rewrite (bind_ok _ _ _ _ _ A1).
  assert ((if negb (Z.of_nat (length (fr_left f)) =? entries n - 1) then lift (move_slots n (Z.of_nat (length (fr_left f))) (Z.of_nat (length (fr_left f)) + 1) (entries n - 1 - Z.of_nat (length (fr_left f)))) else mret n) s1 = Ok (inr n1, s1)) as E1'.
  { destruct (negb _); [unfold lift; by rewrite E1|]. injection E1 as ->. done. }
  rewrite (bind_ok _ _ _ _ _ E1'). fold n2. destruct (put_ok (fr_bh f) n2 s1) as (s2 & A2 & Hh2 & M2); [rewrite (mv_other _ _ _ _ M1) by set_solver; apply Hk2|]. rewrite (bind_ok _ _ _ _ _ A2).
  destruct (dirty_ok sb ext4_chksum env Hq (fr_bh f) s2) as (s3 & A3 & Hh3 & M3). rewrite (bind_ok _ _ _ _ _ A3). rewrite Hh2 in Hh3.
  set (c := FreeCall (child_of (fr_slot f)) 1 (Z.lor EXT4_FREE_BLOCKS_METADATA EXT4_FREE_BLOCKS_FORGET)). exists (add_freed s3 c), c, n2.
  assert (heap (add_freed s3 c) (fr_bh f) = sealed sb ext4_chksum (fr_bh f) n2) as Hh by exact Hh3.
  split; [|split; [|split; [|split; [exact Hh|split; [exact Hs2|split; [exact Hu2|split; [exact Hk2|split; [exact He2|]]]]]]]].
  - rewrite (bind_ok _ _ s3 tt (add_freed s3 c)) by done. done.
  - change [c] with ([] ++ [] ++ [] ++ [c]). eapply moved_on; [apply moved_nil, M1|]. eapply moved_on; [exact M2|]. eapply moved_on; [exact M3|]. split; [by split|done|done].
  - unfold call_blocks, c. cbn [f_block f_count]. change (Z.to_nat 1) with 1%nat. rewrite zseq_S. done.
  - intros H0. destruct (Hk0 H0) as (sl & Hsl & Esl). eapply get_key_reads; [exact Hi|rewrite Hb, Hh, H0|exact Esl].
    unfold slot_at. change (0 <? 0) with false. change (Z.to_nat 0) with 0%nat. cbv iota. assert (n_slots (sealed sb ext4_chksum (fr_bh f) n2) !! 0%nat = Some sl) as ->; [|done].
    destruct (fr_bh f) as [b|]; [|done]. cbn [sealed]. destruct (csum_set_spec sb ext4_chksum n2) as (_ & _ & Et & _).
    assert (0 < Z.to_nat (eh_max (n_hdr n2)))%nat by (destruct Hk2 as (_ & -> & _); lia). rewrite <- (lookup_take_lt _ (Z.to_nat (eh_max (n_hdr n2)))), Et, lookup_take_lt by done. done.
Qed.
End keys.
End shape.
