(* ===== verification/ExtCursor.v ===== *)
(** The walk of [ext4_ext_remove_space] at an index node: what is to the left of
    where it is, and what is to the right; going up, and taking a child out. *)

From stdpp Require Import sorting.
From S2P Require Import Prelude Friend ExtStatus ExtInsert ExtRemove ExtOps ExtRecover SysZone ExtTree ExtLeaf ExtEdit ExtCheck ExtStep ExtCut ExtZip.

Section cursor.
Context `{Hrb : RbTree}.
Variable sb : ext_sb.
Variable ext4_chksum : ext4_extent_header -> list ext_slot -> Z.
Variable env : edit_env.
Hypothesis Hq : quiet env.
Hypothesis Hbs : xs_blocksize sb <= 65536.
Notation zip := (zip sb ext4_chksum).
Notation fine := (fine sb ext4_chksum).
Notation node_tree := (node_tree sb ext4_chksum).
Notation subtree := (subtree sb ext4_chksum).

(** A node at height [d + 1] with the frames [fs] above it: the children [L] on the
    left have the blocks [BL] and the extents [EL]; those on the right [BR] and
    [ER]. *)
Inductive cursor (s : edit_state) (fs : list frame) (d : nat) (bh : option Z) (L R : list ext_slot) (BL : list Z) (EL : list ext4_extent) (BR : list Z) (ER : list ext4_extent) : Prop :=
| Cursor lo mid hi : zip s fs (S d) bh lo hi -> fine s bh (S d) lo -> used (heap s bh) = L ++ R ->
    forest (subtree s d) lo L mid BL EL -> forest (subtree s d) mid R hi BR ER -> cursor s fs d bh L R BL EL BR ER.
(** A node at height [d] with the blocks [B] under it and the extents [E]. *)
Inductive whole (s : edit_state) (fs : list frame) (d : nat) (bh : option Z) (B : list Z) (E : list ext4_extent) : Prop :=
| Whole lo hi : zip s fs d bh lo hi -> node_tree s d bh lo hi B E -> whole s fs d bh B E.

(** Everything to the left of the end, or to the right. *)
Lemma cursor_right s fs d bh L R BL EL BR ER : cursor s fs d bh L R BL EL BR ER -> cursor s fs d bh [] (L ++ R) [] [] (BL ++ BR) (EL ++ ER).
Proof. intros [lo mid hi Hz Hf Hu HL HR]. apply Cursor with lo lo hi; [done|done|done|by apply forest_nil|by eapply forest_app]. Qed.
Lemma cursor_whole s fs d bh R BR ER : cursor s fs d bh [] R [] [] BR ER -> whole s fs (S d) bh BR ER.
Proof. intros [lo mid hi Hz Hf Hu HL HR]. eapply Whole; [exact Hz|]. split; [done|]. rewrite Hu. apply forest_nil_inv in HL as (_ & _ & ?). by eapply forest_weaken. Qed.
Lemma whole_cursor s fs d bh B E : whole s fs (S d) bh B E -> cursor s fs d bh (used (heap s bh)) [] B E [] [].
Proof. intros [lo hi Hz [Hf H]]. eapply Cursor; [exact Hz|done|by rewrite app_nil_r|exact H|]. apply forest_nil. lia. Qed.

(** Going down to the last child on the left. *)
Lemma cursor_down s fs d bh L sl R BL EL BR ER : cursor s fs d bh (L ++ [sl]) R BL EL BR ER ->
  exists BL' B EL' E hi, BL = BL' ++ child_of sl :: B /\ EL = EL' ++ E /\ subtree s d sl hi (child_of sl :: B) E /\
    whole s (Frame bh L sl R BL' EL' BR ER :: fs) d (Some (child_of sl)) B E /\
    Forall (fun e => ext_end e <= sw0 sl) EL' /\ (exists e E', E = e :: E' /\ ee_block e = sw0 sl) /\ used (heap s (Some (child_of sl))) <> [].
Proof.
  intros [lo mid hi Hz Hf Hu HL HR]. apply forest_split in HL as (m & B1 & E1 & B2 & E2 & -> & -> & HL & Hone). apply forest_one_inv in Hone as (m' & Hm & Hsub & Hm').
  pose proof (subtree_first _ _ _ _ _ _ _ _ Hsub) as Hfirst. pose proof (subtree_lt _ _ _ _ _ _ _ _ Hsub) as Hlt. pose proof Hsub as (B & -> & Hd & Hne & Hn).
  exists B1, B, E1, E2, m'. split_and!; try done.
  - eapply Whole with (lo := sw0 sl) (hi := mid); [|by eapply node_tree_weaken]. apply (zip_frame sb ext4_chksum s (Frame bh L sl R B1 E1 BR ER) fs d lo hi); cbn [fr_bh fr_left fr_slot fr_right fr_BL fr_EL fr_BR fr_ER]; [done|done|by rewrite Hu, <- app_assoc| |done|lia].
    by eapply forest_weaken.
  - apply Forall_forall. intros e He. assert (exts_ok lo E1 m) as Hx by (eapply forest_exts; [|exact HL]; intros; by eapply subtree_exts). destruct (exts_ok_elem _ _ _ e Hx He) as (_ & _ & ? & _). unfold ext_end. lia.
Qed.
(** Going up from a node that is not empty. *)
Lemma whole_up s f fs d bh B E : whole s (f :: fs) d bh B E -> used (heap s bh) <> [] ->
  bh = Some (child_of (fr_slot f)) /\ cursor s fs d (fr_bh f) (fr_left f) (fr_slot f :: fr_right f) (fr_BL f) (fr_EL f) (child_of (fr_slot f) :: B ++ fr_BR f) (E ++ fr_ER f).
Proof.
  intros [lo hi Hz Hn] Hne. inversion Hz as [|? ? ? LO HI ? Hz0 Hf Hu HL HR Hlt]; subst. split; [done|].
  pose proof (zip_bounds _ _ _ _ _ _ _ _ Hz) as (_ & _ & Hroot & _). eapply Cursor; [exact Hz0|done|done|exact HL|].
  change (child_of (fr_slot f) :: B ++ fr_BR f) with ((child_of (fr_slot f) :: B) ++ fr_BR f). eapply forest_cons; [lia| |exact HR]. exists B. split_and!; try done. intros E1. apply Hroot in E1. done.
Qed.

(** ** Taking the child out *)

Lemma rm_idx_ok s f fs ups d bh B E : whole s (f :: fs) d bh B E -> stack_of (f :: fs) ups -> NoDup (zblocks (f :: fs)) ->
  exists s' fs' c, ext4_ext_rm_idx sb ext4_chksum env ups s = Ok (inr tt, s') /\ moved (fr_bh <$> f :: fs) [c] s s' /\ call_blocks c = [child_of (fr_slot f)] /\
    same_frames fs fs' /\ cursor s' fs' d (fr_bh f) (fr_left f) (fr_right f) (fr_BL f) (fr_EL f) (fr_BR f) (fr_ER f).
Proof.
  intros [lo hi Hz _] Hst Hnd. inversion Hst as [|? q ? ups' Hq1 Hst']; subst. inversion Hz as [|? ? ? LO HI ? Hz0 Hf Hu HL HR Hlt]; subst.
  destruct (rm_idx_node sb ext4_chksum env Hq Hbs f q ups' s d LO Hf Hu Hq1) as (s1 & c & n2 & E1 & M1 & Hc & Hh1 & Hs2 & Hu2 & Hk2 & He2 & Hkey).
  pose proof Hnd as Hnd'. cbn [zblocks] in Hnd'. apply NoDup_cons in Hnd' as [_ Hnd']. apply NoDup_app in Hnd' as (_ & HdL & Hnd'). apply NoDup_app in Hnd' as (_ & HdR & HndB).
  destruct (gap_forest sb ext4_chksum s d LO HI hi f _ _ _ _ HL HR Hlt) as (HK & mid & HL' & HR'). set (lo' := if _ =? 0 then _ else _) in *.
  assert (zip s1 fs (S d) (fr_bh f) LO HI) as Hz1 by (eapply zip_keep; [apply M1|done| |exact Hz0]; intros b Hb _; apply (mv_other _ _ _ _ M1); set_solver).
  destruct (indexes_up_ok sb ext4_chksum env Hq get_key (gap_key f) (get_key_reads _) fs s1 (S d) (fr_bh f) LO HI ups' q (Z.of_nat (length (fr_left f))) [q])
    as (s2 & fs2 & lo2 & E2 & M2 & Hsf & Hz2 & Elo2); [done|done|done|apply Hq1|by intros ? _; apply Hkey|left; apply HK|apply HK|]. fold lo' in Elo2. subst lo2.
  pose proof (zip_notin _ _ _ _ _ _ _ _ Hz0 HndB) as Hnotin. pose proof (zip_frames _ _ _ _ _ _ _ _ Hz0) as Hfr. rewrite Forall_forall in Hfr. pose proof (zip_bh _ _ _ _ _ _ _ _ Hz0) as Hbh.
  assert (side s s2) as Hside by (eapply side_trans; [apply M1|apply M2]).
  assert (forall b, b ∈ fr_BL f \/ b ∈ fr_BR f -> heap s2 (Some b) = heap s (Some b)) as Hsib.
  { intros b Hb. assert (b ∉ zblocks fs) as HnB by (destruct Hb; [intros HB; apply (HdL b); set_solver|by apply HdR]).
    rewrite (mv_other _ _ _ _ M2), (mv_other _ _ _ _ M1); [done|intros Hin%list_elem_of_singleton; rewrite <- Hin in Hbh; done|]. intros Hin. destruct (Hfr _ Hin) as [?|(x & [= <-] & ?)]; done. }
  assert (heap s2 (fr_bh f) = sealed sb ext4_chksum (fr_bh f) n2) as Hh2 by (by rewrite (mv_other _ _ _ _ M2)). pose proof Hf as (_ & _ & Hp). pose proof (ps_fit _ _ _ _ _ _ Hp) as Hfit.
  destruct (sealed_spec sb ext4_chksum (fr_bh f) n2) as (_ & _ & Hu3 & _); [destruct Hk2 as (_ & -> & _); lia|].
  exists s2, fs2, c. split; [by rewrite E1|]. split; [|split; [done|split; [done|]]].
  { cbn [fmap list_fmap]. apply (moved_keep _ _ _ s1); (eapply moved_weaken; [eassumption|set_solver]). }
  apply Cursor with lo' mid HI; [exact Hz2| |by rewrite Hh2, Hu3, Hu2|eapply forest_keep; [exact Hside| |exact HL']; auto|eapply forest_keep; [exact Hside| |exact HR']; auto].
  pose proof (forest_app _ _ _ _ _ _ _ _ _ _ HL' HR') as Hall. destruct (forest_keys _ _ _ _ _ _ _ _ _ Hall) as [Hku Hkb]. pose proof (zip_bounds _ _ _ _ _ _ _ _ Hz0) as (? & ? & Hroot & _).
  eapply (fine_index sb ext4_chksum s s2 _ d LO lo' n2); try done; rewrite ?Hu2; [lia|done|eapply Forall_impl; [exact Hkb|]; cbn; unfold lo'; intros; destruct (_ =? 0); lia| |].
  - pose proof (fine_valid _ _ _ _ _ _ Hf) as Hv. rewrite Hu in Hv. apply Forall_app in Hv as [Hv1 [_ Hv3]%Forall_cons]. by apply Forall_app.
  - intros Hne. unfold lo', gap_key. destruct (fr_left f) as [|sl0 l0] eqn:El; [by destruct (fr_right f)|]. destruct (Z.eqb_spec (Z.of_nat (length (sl0 :: l0))) 0); [done|]. cbn.
    eapply fine_first; [exact Hf|intros E0; by apply Hne, Hroot|by rewrite Hu].
Qed.

(** ** Reading a child *)

Lemma read_quiet s d sl hi B E flags : subtree s d sl hi B E -> has_flag flags EXT4_EX_NOCACHE = true ->
  exists i, read_extent_tree_block sb ext4_chksum (ed_tree env) (x_inode s) (slot_idx sl) (Z.of_nat d) flags = Ok (inr (child_of sl), i) /\ moved [] [] s (set_inode s i).
Proof.
  intros (B' & _ & Hd & Hne & Hn) Hfl. assert (fine s (Some (child_of sl)) d (sw0 sl)) as (Hs & _ & Hp) by (by destruct d, Hn).
  unfold read_extent_tree_block. change (ext4_idx_pblock (slot_idx sl)) with (child_of sl). destruct (Z.ltb_spec (xe_read (ed_tree env) (child_of sl)) 0) as [Hr|_]; [pose proof (qt_read _ Hq (child_of sl)); lia|].
  destruct (bool_decide _ && _); [exists (x_inode s); split; [done|]; split; [by split|by rewrite app_nil_r|done]|].
  change (i_disk (x_inode s) (child_of sl)) with (heap s (Some (child_of sl))). change (ei_block (slot_idx sl)) with (sw0 sl).
  assert (__ext4_ext_check sb ext4_chksum (x_inode s) (heap s (Some (child_of sl))) (Z.of_nat d) (sw0 sl) = 0) as -> by (apply passes_iff; [done|split; [done|by intros ?]]).
  rewrite Hfl. cbn. eexists. split; [done|]. split; [by split|by rewrite app_nil_r|]. by intros [b|].
Qed.
Lemma read_child s d sl hi B E : subtree s d sl hi B E ->
  exists s', on_inode (fun i => read_extent_tree_block sb ext4_chksum (ed_tree env) i (slot_idx sl) (Z.of_nat d) EXT4_EX_NOCACHE) s = Ok (inr (child_of sl), s') /\ moved [] [] s s'.
Proof. intros H. destruct (read_quiet s d sl hi B E EXT4_EX_NOCACHE H eq_refl) as (i & E1 & M). exists (set_inode s i). split; [|done]. unfold on_inode. by rewrite E1. Qed.

(** ** A leaf *)

Hypothesis Hbits : s_cluster_bits (xs_es sb) = 0.
Variable start end_ : Z.
Hypothesis Hse : 0 <= start <= end_.

Lemma cut_valid ino lo l hi : own_zones (xs_zones sb) ino -> Forall ext_fits l -> exts_ok lo l hi -> Forall (ext_valid sb ino) l -> Forall (ext_valid sb ino) (cut start end_ l).
Proof.
  intros Ho. revert lo. induction l as [|ex l IH]; intros lo Hf Hx Hv; [constructor|]. apply Forall_cons in Hf as [Hf Hfl]. apply Forall_cons in Hv as [Hv Hvl].
  destruct (exts_ok_elem _ _ _ ex Hx) as (_ & Hl & _ & Hp); [left|]. cbn [exts_ok] in Hx. destruct Hx as (_ & _ & _ & _ & Hx). pose proof (actual_len_bound ex Hf) as [Hb _].
  change (ex :: l) with ([ex] ++ l). rewrite cut_app. apply Forall_app; split; [|by eapply IH]. unfold cut. cbn [mbind list_bind]. rewrite app_nil_r.
  destruct (cut1_cases start end_ ex Hf Hl) as [-> |[-> |[Hc ->]]]; [lia|by constructor|constructor|]. constructor; [|constructor]. destruct (short_spec ex (start - ee_block ex) Hf) as (_ & El & _ & Ep & _); [unfold ext_end in *; lia|].
  unfold ext_valid in *. rewrite El, Ep. eapply valid_part; [done| | | |exact Hv| | |]; unfold EXT_INIT_MAX_LEN, ext_end in *; lia.
Qed.
(** In order from where the first extent starts. *)
Lemma exts_first lo l hi e l' : exts_ok lo l hi -> l = e :: l' -> exts_ok (ee_block e) l hi /\ lo <= ee_block e < hi.
Proof. intros H ->. pose proof (exts_ok_elem _ _ _ e H ltac:(left)) as (? & ? & ? & _). cbn [exts_ok] in *. destruct H as (? & ? & ? & ? & ?). split_and!; lia || done. Qed.

Lemma leaf_fine s s1 bh lo hi E P Q ci ci' pe calls K : fine s bh 0 lo -> E = slot_extent <$> used (heap s bh) -> exts_ok lo E hi -> 0 <= lo -> hi <= EXT_MAX_BLOCKS ->
  own_zones (xs_zones sb) (i_ino (x_inode s)) -> leaf_cut sb ext4_chksum bh start end_ P Q ci s s1 ci' pe calls -> used (heap s bh) = P ++ Q ->
  Forall (fun ex => outside start end_ ex = true) (slot_extent <$> Q) -> (bh = None <-> 0 = ext_depth (x_inode s)) -> (bh <> None -> from_option sw0 K (head (used (heap s1 bh))) = K) ->
  fine s1 bh 0 K /\ slot_extent <$> used (heap s1 bh) = cut start end_ E /\ exts_ok lo (cut start end_ E) hi.
Proof.
  intros (Hs & Hz & Hp) -> Hx H0 Hh Ho Hc Hu HQ Hroot Hfirst. pose proof (lc_kind _ _ _ _ _ _ _ _ _ _ _ _ _ Hc) as Hk. pose proof (lc_fit _ _ _ _ _ _ _ _ _ _ _ _ _ Hc) as Hle. pose proof (lc_moved _ _ _ _ _ _ _ _ _ _ _ _ _ Hc) as M.
  pose proof Hs as [_ Hok]. pose proof (extents_of _ Hok) as Hf. pose proof (ps_fit _ _ _ _ _ _ Hp) as Hfit.
  assert (slot_extent <$> used (heap s1 bh) = cut start end_ (slot_extent <$> used (heap s bh))) as Ex.
  { rewrite (lc_exts _ _ _ _ _ _ _ _ _ _ _ _ _ Hc), Hu, fmap_app, cut_app. by destruct (cut_outside _ _ _ HQ) as [-> _]. }
  assert (exts_ok lo (cut start end_ (slot_extent <$> used (heap s bh))) hi) as Hx' by (apply cut_ok; [lia|done..]).
  split; [|done]. split; [apply Hc|]. split; [unfold sized in *; destruct Hk as (_ & K2 & _ & K4); congruence|].
  eapply sound_same; [apply M|apply M|]. eapply sound_change; [exact Hp|exact Hk|destruct Hk as (_ & -> & _); lia| | |].
  - intros Hd. apply Hc; [by rewrite Hroot|by apply Hp].
  - intros Hd. apply Hfirst. by rewrite Hroot.
  - cbn [decide]. destruct (decide _); [|done]. rewrite Ex. eapply valid_leaf_intro; [exact H0|exact Hh|lia|exact Hx'|]. eapply cut_valid; [done|done|exact Hx|].
    pose proof (ps_valid _ _ _ _ _ _ Hp) as Hv. destruct (decide _); [|done]. by eapply valid_leaf_elim.
Qed.

(** The keys above the leaf follow its first extent. *)
Lemma leaf_keys_ok s s1 fs p ups E P Q lo hi ci pe calls : zip s1 fs 0 (p_bh p) lo hi -> stack_of fs ups -> NoDup (zblocks fs) ->
  fine s (p_bh p) 0 lo -> E = slot_extent <$> used (heap s (p_bh p)) -> exts_ok lo E hi -> own_zones (xs_zones sb) (i_ino (x_inode s)) ->
  leaf_cut sb ext4_chksum (p_bh p) start end_ P Q false s s1 ci pe calls -> used (heap s (p_bh p)) = P ++ Q -> Forall (fun ex => outside start end_ ex = true) (slot_extent <$> Q) ->
  exists s2 fs2, (if ci && negb (entries (heap s1 (p_bh p)) =? 0) then ext4_ext_correct_indexes sb ext4_chksum env (ExtPath (p_block p) (p_depth p) pe (p_idx p) (p_bh p) :: ups) else mret tt) s1 = Ok (inr tt, s2) /\
    moved (fr_bh <$> fs) [] s1 s2 /\ same_frames fs fs2 /\ whole s2 fs2 0 (p_bh p) [] (cut start end_ E).
Proof.
  intros Hz Hst Hnd Hfine HE Hx Ho Hc Hu HQ. pose proof (zip_bounds _ _ _ _ _ _ _ _ Hz) as (H0 & Hh & Hroot & _). pose proof (lc_moved _ _ _ _ _ _ _ _ _ _ _ _ _ Hc) as M. rewrite (sd_depth _ _ (mv_side _ _ _ _ M)) in Hroot.
  pose proof (lc_slots _ _ _ _ _ _ _ _ _ _ _ _ _ Hc) as Hs1. pose proof (used_length _ Hs1) as Hlen.
  destruct (ci && negb (entries (heap s1 (p_bh p)) =? 0)) eqn:Eci.
  - apply andb_true_iff in Eci as [-> Ene%negb_true_iff%Z.eqb_neq]. destruct (used (heap s1 (p_bh p))) as [|sl l] eqn:Eu; [cbn in Hlen; destruct Hs1; lia|].
    destruct (lc_first _ _ _ _ _ _ _ _ _ _ _ _ _ Hc) as [[? _]|[_ ->]]; [done|].
    destruct (leaf_fine s s1 (p_bh p) lo hi E P Q false true (Some 0) calls (sw0 sl)) as (Hf1 & Ex & Hx1); try done; [by intros _; rewrite Eu|]. rewrite Eu in Ex. cbn [fmap list_fmap] in Ex. symmetry in Ex.
    destruct (exts_first _ _ _ _ _ Hx1 Ex) as (Hx2 & HK). change (ee_block (slot_extent sl)) with (sw0 sl) in *.
    destruct (correct_indexes_ok sb ext4_chksum env Hq (ExtPath (p_block p) (p_depth p) (Some 0) (p_idx p) (p_bh p)) ups (sw0 sl) sl fs s1 0 lo hi) as (s2 & fs2 & E2 & M2 & Hsf & Hz2); try done; [exact (used_slot _ [] sl l Hs1 Eu)|left; apply HK|apply HK|].
    cbn [p_bh] in *. exists s2, fs2. split; [exact E2|]. split; [done|]. split; [done|]. apply Whole with (sw0 sl) hi; [exact Hz2|]. pose proof (zip_notin _ _ _ _ _ _ _ _ Hz Hnd) as Hni.
    assert (heap s2 (p_bh p) = heap s1 (p_bh p)) as Hh2 by (by apply (mv_other _ _ _ _ M2)). split; [eapply fine_keep; [apply M2|exact Hh2|exact Hf1]|]. rewrite Hh2, Eu, Ex. split_and!; [done|done|]. by rewrite <- Ex.
  - exists s1, fs. split; [done|]. split; [apply moved_nil, moved_refl|]. split; [apply same_frames_refl|]. apply Whole with lo hi; [exact Hz|].
    destruct (leaf_fine s s1 (p_bh p) lo hi E P Q false ci pe calls lo) as (Hf1 & Ex & Hx1); try done.
    { intros Hne. destruct (lc_first _ _ _ _ _ _ _ _ _ _ _ _ _ Hc) as [[_ ->]|[-> _]].
      - destruct Hfine as (_ & _ & Hsound). apply (ps_first _ _ _ _ _ _ Hsound). intros Hd. by apply Hne, Hroot.
      - cbn in Eci. apply negb_false_iff, Z.eqb_eq in Eci. rewrite Eci in Hlen. by destruct (used (heap s1 (p_bh p))). }
Qed.

Lemma rm_leaf_ok s fs p ups E P Q : whole s fs 0 (p_bh p) [] E -> stack_of fs ups -> NoDup (zblocks fs) -> plain s -> own_zones (xs_zones sb) (i_ino (x_inode s)) ->
  used (heap s (p_bh p)) = P ++ Q -> p_ext p = Some (Z.of_nat (length P) - 1) \/ (p_ext p = None /\ Q = []) -> Forall (ends_in end_) (slot_extent <$> P) ->
  Forall (fun ex => outside start end_ ex = true) (slot_extent <$> Q) -> end_ <> EXT_MAX_BLOCKS - 1 \/ Q = [] -> start < 2 ^ 32 ->
  exists s2 fs2 calls, ext4_ext_rm_leaf sb ext4_chksum env (p :: ups) start end_ s =
      (if bool_decide (cut start end_ E = []) && bool_decide (p_bh p <> None) then ext4_ext_rm_idx sb ext4_chksum env ups else mret tt) s2 /\
    whole s2 fs2 0 (p_bh p) [] (cut start end_ E) /\ moved (p_bh p :: (fr_bh <$> fs)) calls s s2 /\ freed_blocks calls ≡ₚ gone start end_ E /\ same_frames fs fs2 /\
    (used (heap s2 (p_bh p)) = [] <-> cut start end_ E = []).
Proof.
  intros [lo hi Hz (Hfine & _ & HE & Hx)] Hst Hnd Hp Ho Hu Hpe HP HQ Hend H32. pose proof Hfine as (Hs & _ & Hsound). destruct (sound_small sb ext4_chksum Hbs _ _ _ _ Hsound) as [Hfit _].
  pose proof (zip_bounds _ _ _ _ _ _ _ _ Hz) as (H0 & Hh & Hroot & _). pose proof (used_length _ Hs) as Hlen. rewrite Hu, length_app in Hlen. destruct Hs as [Hb Hok].
  assert (exts_ok lo (slot_extent <$> P) hi) as HxP.
  { rewrite HE, Hu, fmap_app in Hx. apply exts_ok_app in Hx as (m & H1 & H2). eapply exts_ok_weaken; [exact H1|lia|by eapply exts_ok_le]. }
  destruct (leaf_loop sb ext4_chksum env Hq Hbits (p_bh p) start end_ P Hse H32 (S (Z.to_nat (entries (heap s (p_bh p))))) Q false (p_ext p) s lo hi) as (s1 & k & ci & pe & calls & E1 & Hc & _); try done; [lia|].
  assert (gone start end_ E = gone start end_ (slot_extent <$> P)) as Hg.
  { rewrite HE, Hu, fmap_app, gone_app. destruct (cut_outside _ _ _ HQ) as [_ ->]. by rewrite app_nil_r. }
  pose proof (lc_moved _ _ _ _ _ _ _ _ _ _ _ _ _ Hc) as M1.
  unfold ext4_ext_rm_leaf. rewrite get_node_ok.
  assert (match p_ext p with Some k => k | None => entries (heap s (p_bh p)) - 1 end = Z.of_nat (length P) - 1) as -> by (destruct Hpe as [-> |[-> ->]]; [done|cbn in Hlen; lia]).
  rewrite (bind_ok _ _ _ _ _ E1). rewrite get_node_ok.
  assert (zip s1 fs 0 (p_bh p) lo hi) as Hz1 by (eapply zip_keep; [apply M1|done| |exact Hz]; intros b Hb' _; apply (mv_other _ _ _ _ M1); set_solver).
  assert (plain s1) as Hp1 by (eapply plain_side; [apply M1|done]).
  destruct (leaf_keys_ok s s1 fs p ups E P Q lo hi ci pe calls) as (s2 & fs2 & E2 & M2 & Hsf & Hw); try done.
  rewrite (try_ok _ _ _ _ _ E2), gets_ok. assert (plain s2) as [Hp2 _] by (eapply plain_side; [apply M2|done]). rewrite Hp2. rewrite (bool_decide_false (initial = tofree)) by done. cbn [andb]. rewrite ret_ok, get_node_ok.
  assert (used (heap s2 (p_bh p)) = [] <-> cut start end_ E = []) as Hiff by (destruct Hw as [? ? _ (_ & _ & -> & _)]; split; [intros ->; done|by intros ?%fmap_nil_inv]).
  exists s2, fs2, calls. split; [|split; [done|split; [|split; [by rewrite Hg; apply Hc|done]]]].
  - destruct Hw as [? ? _ ((Hs2 & _) & _)]. pose proof (used_length _ Hs2) as Hl2. assert ((entries (heap s2 (p_bh p)) =? 0) = bool_decide (cut start end_ E = [])) as ->; [|done].
    destruct (Z.eqb_spec (entries (heap s2 (p_bh p))) 0) as [E0|E0]; symmetry; [apply bool_decide_true, Hiff; rewrite E0 in Hl2; by destruct (used (heap s2 (p_bh p)))|].
    apply bool_decide_false. intros Hn%Hiff. rewrite Hn in Hl2. cbn in Hl2. destruct Hs2. lia.
  - eapply moved_keep; [eapply moved_weaken; [exact M1|set_solver]|eapply moved_weaken; [exact M2|set_solver]].
Qed.
End cursor.
