(* ===== verification/ExtWalk.v ===== *)
(** The walk of [ext4_ext_remove_space]: visiting a child takes the range out of it,
    and the children further left are visited as long as something goes. *)

From stdpp Require Import sorting.
From S2P Require Import Prelude Friend ExtStatus ExtInsert ExtRemove ExtOps ExtRecover SysZone ExtTree ExtLeaf ExtEdit ExtSplit ExtSpace ExtCheck ExtStep ExtCut ExtZip ExtCursor.

(** ** Blocks before and after

    Of the blocks [B0] of nodes, [B1] are left; those that went, and the blocks [g]
    of data, were freed. *)
Definition accounts (s s' : edit_state) (B0 B1 g : list Z) : Prop :=
  side s s' /\ exists calls M, x_freed s' = x_freed s ++ calls /\ B0 ≡ₚ B1 ++ M /\ freed_blocks calls ≡ₚ g ++ M.

Lemma accounts_moved U calls s s' B g : moved U calls s s' -> freed_blocks calls ≡ₚ g -> accounts s s' B B g.
Proof. intros [Hs Hf _] Hg. split; [done|]. exists calls, []. rewrite !app_nil_r. done. Qed.
Lemma accounts_refl s B : accounts s s B B [].
Proof. eapply accounts_moved; [apply moved_refl|done]. Qed.
Lemma accounts_trans s1 s2 s3 B0 B1 B2 g1 g2 : accounts s1 s2 B0 B1 g1 -> accounts s2 s3 B1 B2 g2 -> accounts s1 s3 B0 B2 (g1 ++ g2).
Proof.
  intros [Hs1 (c1 & M1 & F1 & P1 & Q1)] [Hs2 (c2 & M2 & F2 & P2 & Q2)]. split; [by eapply side_trans|]. exists (c1 ++ c2), (M2 ++ M1).
  rewrite F2, F1, app_assoc, freed_app. split_and!; [done|by rewrite P1, P2, app_assoc|]. rewrite Q1, Q2. solve_Permutation.
Qed.
(** Blocks beside, and in another order. *)
Lemma accounts_frame s s' B0 B1 g X : accounts s s' B0 B1 g -> accounts s s' (X ++ B0) (X ++ B1) g.
Proof. intros [Hs (c & M & F & P & Q)]. split; [done|]. exists c, M. split_and!; [done|by rewrite P, app_assoc|done]. Qed.
Lemma accounts_perm s s' B0 B0' B1 B1' g g' : accounts s s' B0 B1 g -> B0 ≡ₚ B0' -> B1 ≡ₚ B1' -> g ≡ₚ g' -> accounts s s' B0' B1' g'.
Proof. intros [Hs (c & M & F & P & Q)] H0 H1 Hg. split; [done|]. exists c, M. split_and!; [done|by rewrite <- H0, P, H1|by rewrite Q, Hg]. Qed.
Lemma accounts_nodup s s' B0 B1 g : accounts s s' B0 B1 g -> NoDup B0 -> NoDup B1.
Proof. intros [_ (c & M & _ & P & _)] H. rewrite P in H. by apply NoDup_app in H as [? _]. Qed.

Section walk.
Context `{Hrb : RbTree}.
Variable sb : ext_sb.
Variable ext4_chksum : ext4_extent_header -> list ext_slot -> Z.
Variable env : edit_env.
Hypothesis Hq : quiet env.
Hypothesis Hbs : xs_blocksize sb <= 65536.
Hypothesis Hbits : s_cluster_bits (xs_es sb) = 0.
Variables start end_ : Z.
Hypothesis Hse : 0 <= start <= end_.
Hypothesis H32 : start < 2 ^ 32.
Variable depth : nat.
Notation zip := (zip sb ext4_chksum).
Notation fine := (fine sb ext4_chksum).
Notation node_tree := (node_tree sb ext4_chksum).
Notation subtree := (subtree sb ext4_chksum).
Notation whole := (whole sb ext4_chksum).
Notation cursor := (cursor sb ext4_chksum).
Notation rm_loop := (rm_loop sb ext4_chksum env).
Notation rm_idx := (ext4_ext_rm_idx sb ext4_chksum env).

(** What does not change during the walk. *)
Record steady (s : edit_state) : Prop := {
  sy_depth : ext_depth (x_inode s) = Z.of_nat depth;
  sy_plain : plain s;
  sy_zones : own_zones (xs_zones sb) (i_ino (x_inode s))
}.
Lemma steady_side s s' : side s s' -> steady s -> steady s'.
Proof. intros Hs [H1 H2 H3]. split; [by rewrite (sd_depth _ _ Hs)|by eapply plain_side|by rewrite (sd_ino _ _ Hs)]. Qed.

(** Leaving a child: it stays, or it is taken out. *)
Lemma child_left_ok s f fs d b B E ups : whole s (f :: fs) d (Some b) B E -> stack_of (f :: fs) ups -> NoDup (zblocks (f :: fs)) -> (used (heap s (Some b)) = [] <-> E = []) -> (E = [] -> B = []) ->
  exists s' fs' C BC, (if bool_decide (E = []) then rm_idx ups else mret tt) s = Ok (inr tt, s') /\ same_frames fs fs' /\
    cursor s' fs' d (fr_bh f) (fr_left f) (C ++ fr_right f) (fr_BL f) (fr_EL f) (BC ++ fr_BR f) (E ++ fr_ER f) /\ (E = [] <-> C = []) /\ (length C <= 1)%nat /\
    accounts s s' (child_of (fr_slot f) :: B) BC [].
Proof.
  intros Hw Hst Hnd Hu HB. destruct (decide (E = [])) as [->|HE].
  - rewrite bool_decide_true by done. destruct (rm_idx_ok sb ext4_chksum env Hq Hbs s f fs ups d _ _ _ Hw Hst Hnd) as (s' & fs' & c & E1 & M & Hc & Hsf & Hcur).
    exists s', fs', [], []. rewrite (HB eq_refl). split_and!; try done; [cbn; lia|]. split; [apply M|]. exists [c], [child_of (fr_slot f)]. split_and!; [apply M|done|cbn; by rewrite Hc].
  - rewrite bool_decide_false by done. destruct (whole_up _ _ _ _ _ _ _ _ _ Hw) as [_ Hcur]; [by rewrite Hu|].
    exists s, fs, [fr_slot f], (child_of (fr_slot f) :: B). split_and!; [done|apply same_frames_refl|done|done|cbn; lia|apply accounts_refl].
Qed.

(** A visit of the child of the frame [f] whose extents all end in the range. *)
Definition visit_ok (d : nat) : Prop := forall s f fs b B E ups,
  whole s (f :: fs) d (Some b) B E -> used (heap s (Some b)) <> [] -> stack_of (f :: fs) ups -> NoDup (zblocks (f :: fs) ++ B) -> steady s -> Forall (fun e => ext_end e <= end_ + 1) E ->
  exists n s' fs' C BC, (n <= 1 + 2 * length B)%nat /\
    (forall fuel, rm_loop (n + fuel) depth start end_ (ExtPath 0 0 None None (Some b) :: ups) s = rm_loop fuel depth start end_ ups s') /\ same_frames fs fs' /\
    cursor s' fs' d (fr_bh f) (fr_left f) (C ++ fr_right f) (fr_BL f) (fr_EL f) (BC ++ fr_BR f) (cut start end_ E ++ fr_ER f) /\ (cut start end_ E = [] <-> C = []) /\ (length C <= 1)%nat /\
    accounts s s' (child_of (fr_slot f) :: B) BC (gone start end_ E).

Lemma zip_length s fs d bh lo hi : steady s -> zip s fs d bh lo hi -> (d + length fs = depth)%nat.
Proof. intros [H _ _] Hz. pose proof (zip_bounds _ _ _ _ _ _ _ _ Hz) as (_ & _ & _ & Hh). lia. Qed.
Lemma stack_length fs ups : stack_of fs ups -> length ups = length fs.
Proof. intros H. symmetry. by eapply Forall2_length. Qed.

(** A leaf: what is done at it, and leaving it. *)
Lemma leaf_visit s f fs p ups E P Q : whole s (f :: fs) 0 (p_bh p) [] E -> stack_of (f :: fs) ups -> NoDup (zblocks (f :: fs)) -> steady s ->
  used (heap s (p_bh p)) = P ++ Q -> p_ext p = Some (Z.of_nat (length P) - 1) \/ (p_ext p = None /\ Q = []) -> Forall (ends_in end_) (slot_extent <$> P) ->
  Forall (fun ex => outside start end_ ex = true) (slot_extent <$> Q) -> end_ <> EXT_MAX_BLOCKS - 1 \/ Q = [] ->
  exists s' fs' C BC, (forall fuel, rm_loop (1 + fuel) depth start end_ (p :: ups) s = rm_loop fuel depth start end_ ups s') /\ same_frames fs fs' /\
    cursor s' fs' 0 (fr_bh f) (fr_left f) (C ++ fr_right f) (fr_BL f) (fr_EL f) (BC ++ fr_BR f) (cut start end_ E ++ fr_ER f) /\ (cut start end_ E = [] <-> C = []) /\ (length C <= 1)%nat /\
    accounts s s' [child_of (fr_slot f)] BC (gone start end_ E).
Proof.
  intros Hw Hst Hnd Hsy Hu Hpe HP HQ Hend. pose proof Hw as [lo hi Hz _]. pose proof (zip_length _ _ _ _ _ _ Hsy Hz) as Hlen.
  destruct (rm_leaf_ok sb ext4_chksum env Hq Hbs Hbits start end_ Hse s (f :: fs) p ups E P Q) as (s1 & fs1 & calls & E1 & Hw1 & M1 & Hfr & Hsf & Hiff); try done; [apply Hsy..|].
  inversion Hsf as [|? f1 ? fs1' Hf1 Hsf1]; subst. pose proof (stack_same _ _ _ Hsf Hst) as Hst1. destruct (same_frames_blocks _ _ Hsf) as (Eb & _).
  assert (p_bh p = Some (child_of (fr_slot f))) as Hb by (by inversion Hz).
  rewrite Hb in Hw1, E1, Hiff. destruct (child_left_ok s1 f1 fs1' 0 _ _ _ ups Hw1 Hst1) as (s' & fs' & C & BC & E2 & Hsf2 & Hcur & HC & HlC & Hac); [by rewrite Eb|done|done|].
  destruct Hf1 as (F1 & F2 & F3 & F4 & F5 & F6 & F7 & F8). rewrite F1, F2, F3, F5, F6, F7, F8 in Hcur. rewrite (same_child _ _ F4) in Hac.
  exists s', fs', C, BC. split; [|split; [by eapply same_frames_trans|split; [done|split; [done|split; [done|]]]]].
  - intros fuel. cbn [Nat.add ExtSpace.rm_loop]. rewrite (stack_length _ _ Hst). cbn [length] in *. destruct (Nat.eqb_spec (S (length fs)) depth); [|lia].
    rewrite (bind_ok _ _ s tt s'); [done|]. rewrite E1. rewrite (bool_decide_true (Some _ <> None)) by done. by rewrite andb_true_r.
  - eapply accounts_perm; [eapply accounts_trans; [eapply accounts_moved; [exact M1|exact Hfr]|exact Hac]|done|done|by rewrite app_nil_r].
Qed.
Lemma visit_leaf : visit_ok 0.
Proof.
  intros s f fs b B E ups Hw Hne Hst Hnd Hsy HE. pose proof Hw as [lo hi Hz (_ & -> & Ex & _)]. rewrite app_nil_r in Hnd.
  destruct (leaf_visit s f fs (ExtPath 0 0 None None (Some b)) ups E (used (heap s (Some b))) []) as (s' & fs' & C & BC & Hrun & H); try done; [by rewrite app_nil_r|by right| |by right|].
  - rewrite <- Ex. eapply Forall_impl; [exact HE|]. intros e He. by right.
  - exists 1%nat, s', fs', C, BC. split; [lia|]. split; [exact Hrun|exact H].
Qed.

(** ** At an index node *)

(** The element of the stack for the next child, with [p_block]. *)
Definition next_of (n : ext_node) (p : ext4_ext_path) : ext4_ext_path :=
  match p_idx p with None => set_p_idx p (entries n - 1) (entries n + 1) | Some k => set_p_idx p (k - 1) (p_block p) end.
(** What is done when a node is left. *)
Definition finish (fuel : nat) (bh : option Z) (ups : list ext4_ext_path) : edit unit :=
  fun s => ((if (entries (heap s bh) =? 0) && negb (length ups =? 0)%nat then rm_idx ups else mret tt) ≫= fun _ => rm_loop fuel depth start end_ ups) s.

Lemma index_stop fuel p ups s k : length ups <> depth -> p_idx (next_of (heap s (p_bh p)) p) = Some k -> k < 0 \/ p_block (next_of (heap s (p_bh p)) p) = entries (heap s (p_bh p)) ->
  rm_loop (S fuel) depth start end_ (p :: ups) s = finish fuel (p_bh p) ups s.
Proof.
  intros Hl Hk Hstop. cbn [ExtSpace.rm_loop]. destruct (Nat.eqb_spec (length ups) depth); [done|]. rewrite get_node_ok. fold (next_of (heap s (p_bh p)) p). set (nd := heap s (p_bh p)) in *. set (q := next_of nd p) in *.
  assert (p_bh q = p_bh p) as Hb by (unfold q, next_of; by destruct (p_idx p)).
  assert (ext4_ext_more_to_rm q s = Ok (inr false, s)) as E.
  { unfold ext4_ext_more_to_rm, p_slot. rewrite Hk, ret_ok, Hb, get_node_ok. fold nd. replace (negb _) with false; [done|]. symmetry. apply negb_false_iff, orb_true_iff. rewrite Z.ltb_lt, Z.eqb_eq. destruct Hstop; [by left|right; congruence]. }
  rewrite (bind_ok _ _ _ _ _ E). unfold finish. fold nd. done.
Qed.

Lemma index_enter p ups s fs d L sl R BL EL BR ER : cursor s fs d (p_bh p) (L ++ [sl]) R BL EL BR ER -> steady s -> stack_of fs ups ->
  p_idx (next_of (heap s (p_bh p)) p) = Some (Z.of_nat (length L)) -> p_block (next_of (heap s (p_bh p)) p) <> entries (heap s (p_bh p)) ->
  exists s1, (forall fuel, rm_loop (S fuel) depth start end_ (p :: ups) s =
      rm_loop fuel depth start end_ (ExtPath 0 0 None None (Some (child_of sl)) :: set_p_idx (next_of (heap s (p_bh p)) p) (Z.of_nat (length L)) (entries (heap s (p_bh p))) :: ups) s1) /\ moved [] [] s s1.
Proof.
  intros Hc Hsy Hst Hk Hgo. destruct (cursor_down _ _ _ _ _ _ _ _ _ _ _ _ _ Hc) as (BL' & B & EL' & E & hi' & _ & _ & Hsub & _). destruct Hc as [lo mid hi Hz Hf Hu _ _].
  pose proof (zip_length _ _ _ _ _ _ Hsy Hz) as Hlen. pose proof Hf as (Hs & _). rewrite <- app_assoc in Hu. cbn [app] in Hu.
  destruct (read_child sb ext4_chksum env Hq s d sl _ _ _ Hsub) as (s1 & E2 & M). exists s1. split; [|done]. intros fuel.
  cbn [ExtSpace.rm_loop]. rewrite (stack_length _ _ Hst). destruct (Nat.eqb_spec (length fs) depth); [lia|]. rewrite get_node_ok. fold (next_of (heap s (p_bh p)) p). set (nd := heap s (p_bh p)) in *. set (q := next_of nd p) in *.
  assert (p_bh q = p_bh p) as Hb by (unfold q, next_of; by destruct (p_idx p)).
  assert (ext4_ext_more_to_rm q s = Ok (inr true, s)) as E1.
  { unfold ext4_ext_more_to_rm, p_slot. rewrite Hk, ret_ok, Hb, get_node_ok. fold nd. replace (negb _) with true; [done|]. symmetry. apply negb_true_iff, orb_false_iff. rewrite Z.ltb_ge, Z.eqb_neq. split; [lia|congruence]. }
  rewrite (bind_ok _ _ _ _ _ E1). unfold p_slot. rewrite Hk, ret_ok. erewrite lift_ok by (by eapply used_slot).
  replace (Z.of_nat (depth - length fs - 1)) with (Z.of_nat d) by lia. by rewrite (bind_ok _ _ _ _ _ E2).
Qed.

(** A state in which the nodes are the same. *)
Lemma whole_keep s s1 fs d bh B E : moved [] [] s s1 -> NoDup (zblocks fs) -> whole s fs d bh B E -> whole s1 fs d bh B E.
Proof using Type.
  clear Hse H32 Hq Hbs Hbits. clear env start end_.
  intros M Hnd [lo hi Hz Hn]. assert (forall b, heap s1 b = heap s b) as Hh by (intros b; apply (mv_other _ _ _ _ M); set_solver). apply Whole with lo hi.
  - eapply zip_keep; [apply M|done|auto|exact Hz].
  - eapply node_tree_keep; [apply M|auto|auto|exact Hn].
Qed.


(** When the last child that was visited stays, the ones before it have nothing in
    the range. *)
Lemma kept_low EL E k : Forall (fun e => ext_end e <= k) EL -> (exists e E', E = e :: E' /\ ee_block e = k) -> (exists lo hi, exts_ok lo E hi) -> Forall (fun e => ext_end e <= end_ + 1) E ->
  cut start end_ E <> [] -> cut start end_ EL = EL /\ gone start end_ EL = [].
Proof.
  intros HL (e & E' & -> & Hk) (lo & hi & Hx) HE Hne. apply cut_outside. destruct (Z.le_gt_cases start k) as [Hs|Hs].
  - exfalso. apply Hne. destruct (exts_first _ _ _ _ _ Hx eq_refl) as [Hx' _]. eapply cut_inside; [exact Hx'|lia|done].
  - eapply Forall_impl; [exact HL|]. cbn. intros x Hxk. unfold outside. apply orb_true_iff. right. apply Z.leb_le. lia.
Qed.

Record loop_done (s s' : edit_state) (fs fs' : list frame) (d : nat) (bh : option Z) (EL : list ext4_extent) (BL BR : list Z) (ER : list ext4_extent) (R' : list ext_slot) (BR' : list Z) : Prop := {
  ld_frames : same_frames fs fs';
  ld_cursor : cursor s' fs' d bh [] R' [] [] BR' (cut start end_ EL ++ ER);
  ld_accounts : accounts s s' (BL ++ BR) BR' (gone start end_ EL)
}.

(** After a visit that took the child out, or left it. *)
Lemma visit_nodup fs BL BR c B BC s s1 g : NoDup (zblocks fs ++ (BL ++ c :: B) ++ BR) -> accounts s s1 (c :: B) BC g -> NoDup (zblocks fs ++ BL ++ BC ++ BR).
Proof.
  intros Hnd Hac. eapply accounts_nodup; [eapply (accounts_perm _ _ _ _ _ _ _ _ (accounts_frame _ _ _ _ _ (zblocks fs ++ BL ++ BR) Hac)); [reflexivity| |reflexivity]|]; [solve_Permutation|].
  eapply NoDup_Permutation_proper; [|exact Hnd]. solve_Permutation.
Qed.

(** The last child has been visited, and the loop goes on, or stops. *)
Lemma visit_account s s2 BL' BL c B BC BR E : accounts s s2 (c :: B) BC (gone start end_ E) -> BL = BL' ++ c :: B -> accounts s s2 (BL ++ BR) (BL' ++ BC ++ BR) (gone start end_ E).
Proof. intros H ->. eapply accounts_perm; [exact (accounts_frame _ _ _ _ _ (BL' ++ BR) H)| | |done]; solve_Permutation. Qed.

Lemma index_loop d : visit_ok d -> forall L s fs R BL EL BR ER p ups, cursor s fs d (p_bh p) L R BL EL BR ER -> stack_of fs ups -> NoDup (zblocks fs ++ BL ++ BR) -> steady s ->
  p_idx (next_of (heap s (p_bh p)) p) = Some (Z.of_nat (length L) - 1) -> p_block (next_of (heap s (p_bh p)) p) <> entries (heap s (p_bh p)) -> Forall (fun e => ext_end e <= end_ + 1) EL ->
  exists n s' fs' R' BR', (n <= 1 + 2 * length BL)%nat /\ (forall fuel, rm_loop (n + fuel) depth start end_ (p :: ups) s = finish fuel (p_bh p) ups s') /\
    loop_done s s' fs fs' d (p_bh p) EL BL BR ER R' BR'.
Proof.
  intros Hvisit L. induction L as [|sl L IH] using rev_ind; intros s fs R BL EL BR ER p ups Hc Hst Hnd Hsy Hk Hgo HE.
  - exists 1%nat, s, fs, R, BR. pose proof Hc as [lo mid hi Hz _ _ HL _]. apply forest_nil_inv in HL as (-> & -> & _). split; [lia|]. split; [|split; [apply same_frames_refl|done|apply accounts_refl]].
    intros fuel. eapply index_stop; [rewrite (stack_length _ _ Hst); pose proof (zip_length _ _ _ _ _ _ Hsy Hz); lia|exact Hk|left; cbn; lia].
  - rewrite length_app in Hk. cbn [length] in Hk. replace (Z.of_nat (length L + 1) - 1) with (Z.of_nat (length L)) in Hk by lia.
    destruct (index_enter p ups s fs d L sl R BL EL BR ER Hc Hsy Hst Hk Hgo) as (s1 & Hrun & M).
    destruct (cursor_down _ _ _ _ _ _ _ _ _ _ _ _ _ Hc) as (BL' & B & EL' & E & hi' & -> & -> & Hsub & Hw & Hlow & Hfirst & Hne).
    apply Forall_app in HE as [HEL HE]. set (nd := heap s (p_bh p)) in *. set (q := set_p_idx (next_of nd p) (Z.of_nat (length L)) (entries nd)) in *. set (f := Frame (p_bh p) L sl R BL' EL' BR ER) in *.
    assert (forall b, heap s1 b = heap s b) as Hh1 by (intros b; apply (mv_other _ _ _ _ M); set_solver).
    assert (p_bh q = p_bh p) as Hqb by (unfold q, next_of; by destruct (p_idx p)).
    assert (NoDup (zblocks (f :: fs) ++ B)) as HndF by (eapply NoDup_Permutation_proper; [|exact Hnd]; cbn; solve_Permutation).
    assert (stack_of (f :: fs) (q :: ups)) as HstF by (constructor; done).
    assert (steady s1) as Hsy1 by (eapply steady_side; [apply M|done]).
    destruct (Hvisit s1 f fs (child_of sl) B E (q :: ups)) as (n1 & s2 & fs2 & C & BC & Hn1 & Hrun1 & Hsf & Hcur & HC & HlC & Hac); try done; [eapply whole_keep; [done| |done]; by apply NoDup_app in HndF as [? _]|by rewrite Hh1|].
    cbn [fr_bh fr_left fr_slot fr_right fr_BL fr_EL fr_BR fr_ER f] in Hcur, Hac. rewrite <- Hqb in Hcur. destruct (same_frames_blocks _ _ Hsf) as (Ezb & _).
    pose proof (accounts_perm _ _ _ _ _ _ _ _ (accounts_trans _ _ _ _ _ _ _ _ (accounts_moved _ _ _ _ (child_of sl :: B) [] M ltac:(done)) Hac) ltac:(reflexivity) ltac:(reflexivity) ltac:(reflexivity)) as Hac1. cbn [app] in Hac1.
    assert (steady s2) as Hsy2 by (eapply steady_side; [apply Hac|done]). pose proof (visit_nodup _ _ _ _ _ _ _ _ _ Hnd Hac1) as Hnd2.
    pose proof Hcur as [lo2 mid2 hi2 Hz2 (Hs2 & _) Hu2 _ _]. pose proof (used_length _ Hs2) as Hl2. rewrite Hu2, !length_app in Hl2. assert (0 <= entries (heap s2 (p_bh q))) by (destruct Hs2; lia).
    pose proof Hc as [lo mid hi _ (Hs & _) Hu _ _]. pose proof (used_length _ Hs) as Hl. rewrite Hu, !length_app in Hl. cbn [length] in Hl. fold nd in Hl. assert (0 <= entries nd) by (destruct Hs; lia).
    assert (next_of (heap s2 (p_bh q)) q = set_p_idx q (Z.of_nat (length L) - 1) (entries nd)) as Hnx by done.
    pose proof (visit_account s s2 BL' _ _ B BC BR E Hac1 eq_refl) as Hac2. destruct C as [|c [|]]; [|destruct (kept_low EL' E (sw0 sl)) as [EcL EgL]; try done|cbn in HlC; lia].
    + destruct (IH s2 fs2 R BL' EL' (BC ++ BR) (cut start end_ E ++ ER) q ups) as (n2 & s3 & fs3 & R' & BR' & Hn2 & Hrun2 & [Hsf3 Hcur3 Hac3]); try done; [by eapply stack_same; [|exact Hst]|by rewrite Ezb|rewrite Hnx; cbn [set_p_idx p_block length] in *; lia|].
      exists (S (n1 + n2)), s3, fs3, R', BR'. rewrite length_app. cbn [length]. split; [lia|]. split; [|split].
      * intros fuel. change (S (n1 + n2) + fuel)%nat with (S (n1 + n2 + fuel)). rewrite Hrun. rewrite <- Nat.add_assoc, Hrun1, Hrun2. by rewrite Hqb.
      * by eapply same_frames_trans.
      * by rewrite cut_app, <- app_assoc, <- Hqb.
      * eapply accounts_perm; [exact (accounts_trans _ _ _ _ _ _ _ _ Hac2 Hac3)|done|done|]. rewrite gone_app. apply Permutation_app_comm.
    + destruct Hsub as (? & _ & _ & _ & Hsub). eexists _, _. by eapply node_tree_exts.
    + intros Hce. by apply HC in Hce.
    + exists (S (n1 + 1)), s2, fs2, (L ++ [c] ++ R), (BL' ++ BC ++ BR). rewrite length_app. cbn [length]. split; [lia|]. split; [|split].
      * intros fuel. change (S (n1 + 1) + fuel)%nat with (S (n1 + 1 + fuel)). rewrite Hrun. rewrite <- Nat.add_assoc, Hrun1. change (1 + fuel)%nat with (S fuel). rewrite <- Hqb.
        eapply index_stop; [rewrite (stack_length _ _ Hst); pose proof (zip_length _ _ _ _ _ _ Hsy2 Hz2); pose proof (Forall2_length _ _ _ Hsf); lia|by rewrite Hnx|]. right. rewrite Hnx. cbn [set_p_idx p_block length] in *. lia.
      * done.
      * rewrite cut_app, EcL, <- app_assoc, <- Hqb. by apply cursor_right.
      * rewrite gone_app, EgL. done.
Qed.

(** ** Any height *)

(** Leaving an index node when the loop at it is over. *)
Lemma loop_end_ok s f fs d p ups R B E : cursor s (f :: fs) d (p_bh p) [] R [] [] B E -> stack_of (f :: fs) ups -> NoDup (zblocks (f :: fs)) ->
  exists s' fs' C BC, (forall fuel, finish fuel (p_bh p) ups s = rm_loop fuel depth start end_ ups s') /\ same_frames fs fs' /\
    cursor s' fs' (S d) (fr_bh f) (fr_left f) (C ++ fr_right f) (fr_BL f) (fr_EL f) (BC ++ fr_BR f) (E ++ fr_ER f) /\ (E = [] <-> C = []) /\ (length C <= 1)%nat /\
    accounts s s' (child_of (fr_slot f) :: B) BC [].
Proof.
  intros Hc Hst Hnd. pose proof Hc as [lo mid hi Hz (Hs & _) Hu HL HR]. cbn [app] in Hu. pose proof (used_length _ Hs) as Hl.
  assert (used (heap s (p_bh p)) = [] <-> E = []) as Hiff.
  { rewrite Hu. split; [intros HR0; rewrite HR0 in HR; by apply forest_nil_inv in HR as (_ & -> & _)|intros HE0; rewrite HE0 in HR]. destruct R as [|sl R]; [done|]. inversion HR as [|? ? m ? ? B1 E1 B2 E2 ? Hsub]; subst.
    destruct (subtree_first _ _ _ _ _ _ _ _ Hsub) as (e & E' & -> & _). done. }
  assert (E = [] -> B = []) as HB by (intros HE; apply Hiff in HE; rewrite Hu in HE; rewrite HE in HR; by apply forest_nil_inv in HR as (-> & _)).
  assert (p_bh p = Some (child_of (fr_slot f))) as Hb by (by inversion Hz). pose proof (cursor_whole _ _ _ _ _ _ _ _ _ Hc) as Hw. rewrite Hb in Hw, Hiff, Hu, Hl, Hs |- *.
  destruct (child_left_ok s f fs (S d) _ B E ups Hw Hst Hnd Hiff HB) as (s' & fs' & C & BC & E1 & H). exists s', fs', C, BC. split; [|exact H]. intros fuel. unfold finish.
  inversion Hst as [|? q ? ups' ? ?]; subst. change (length (q :: ups') =? 0)%nat with false. cbn [negb]. rewrite andb_true_r.
  replace (entries (heap s (Some (child_of (fr_slot f)))) =? 0) with (bool_decide (E = [])); [by rewrite (bind_ok _ _ _ _ _ E1)|].
  destruct (Z.eqb_spec (entries (heap s (Some (child_of (fr_slot f))))) 0) as [E0|E0].
  - apply bool_decide_true, Hiff. rewrite E0 in Hl. by destruct (used _).
  - apply bool_decide_false. intros Hn%Hiff. rewrite Hn in Hl. cbn [length] in Hl. destruct Hs. lia.
Qed.

Lemma visit_index d : visit_ok d -> visit_ok (S d).
Proof.
  intros Hvisit s f fs b B E ups Hw Hne Hst Hnd Hsy HE. set (p := ExtPath 0 0 None None (Some b)). change (Some b) with (p_bh p) in Hw, Hne.
  pose proof (whole_cursor _ _ _ _ _ _ _ _ Hw) as Hc. pose proof Hc as [lo mid hi Hz (Hs & _) Hu _ _]. pose proof (used_length _ Hs) as Hl. assert (0 <= entries (heap s (p_bh p))) by (destruct Hs; lia).
  destruct (index_loop d Hvisit (used (heap s (p_bh p))) s (f :: fs) [] B E [] [] p ups) as (n & s1 & fs1 & R' & BR' & Hn & Hrun & [Hsf Hcur Hac]); try done.
  { by rewrite app_nil_r. }
  { cbn [next_of p_idx p set_p_idx]. f_equal. lia. }
  { cbn [next_of p_idx p_block p set_p_idx]. lia. }
  inversion Hsf as [|? f1 ? fs1' Hf1 Hsf1]; subst. pose proof (stack_same _ _ _ Hsf Hst) as Hst1. destruct (same_frames_blocks _ _ Hsf) as (Eb & _). rewrite app_nil_r in Hcur, Hac.
  destruct (loop_end_ok s1 f1 fs1' d p ups R' BR' (cut start end_ E) Hcur Hst1) as (s2 & fs2 & C & BC & Hfin & Hsf2 & Hcur2 & HC & HlC & Hac2); [rewrite Eb; by apply NoDup_app in Hnd as [? _]|].
  destruct Hf1 as (F1 & F2 & F3 & F4 & F5 & F6 & F7 & F8). rewrite F1, F2, F3, F5, F6, F7, F8 in Hcur2. rewrite (same_child _ _ F4) in Hac2.
  exists n, s2, fs2, C, BC. split; [done|]. split; [intros fuel; rewrite Hrun; apply Hfin|]. split; [by eapply same_frames_trans|]. split; [done|]. split; [done|]. split; [done|].
  eapply accounts_perm; [exact (accounts_trans _ _ _ _ _ _ _ _ (accounts_frame _ _ _ _ _ [child_of (fr_slot f)] Hac) Hac2)|done|done|by rewrite app_nil_r].
Qed.
Lemma visit_all d : visit_ok d.
Proof. induction d as [|d IH]; [apply visit_leaf|by apply visit_index]. Qed.

(** ** Up to the root *)

(** The elements of a path that was found do not stop the loop. *)
Definition goes_on (f : frame) (p : ext4_ext_path) : Prop := Z.of_nat (length (fr_left f) + 1 + length (fr_right f)) < p_block p.

Lemma goes_on_same fs fs' ups : same_frames fs fs' -> Forall2 goes_on fs ups -> Forall2 goes_on fs' ups.
Proof.
  intros H. revert ups. induction H as [|f f' fs fs' (_ & E1 & E2 & _) _ IH]; intros ups Hg; inversion Hg; subst; constructor; [|by apply IH]. unfold goes_on. by rewrite E1, E2.
Qed.

Lemma climb ups : forall fs s d L R BL EL BR ER p, cursor s fs d (p_bh p) L R BL EL BR ER -> stack_of fs ups -> Forall2 goes_on fs ups -> NoDup (zblocks fs ++ BL ++ BR) -> steady s ->
  p_idx (next_of (heap s (p_bh p)) p) = Some (Z.of_nat (length L) - 1) -> p_block (next_of (heap s (p_bh p)) p) <> entries (heap s (p_bh p)) -> Forall (fun e => ext_end e <= end_ + 1) (zleft fs ++ EL) ->
  exists n s' d' B', (n <= 2 * (length (zblocks fs ++ BL) + 1))%nat /\ (forall fuel, rm_loop (n + fuel) depth start end_ (p :: ups) s = Ok (inr tt, s')) /\
    whole s' [] d' None B' (cut start end_ (zleft fs ++ EL) ++ ER ++ zright fs) /\ accounts s s' (zblocks fs ++ BL ++ BR) B' (gone start end_ (zleft fs ++ EL)).
Proof.
  induction ups as [|q ups IH]; intros fs s d L R BL EL BR ER p Hc Hst Hgo Hnd Hsy Hk Hb HE; apply Forall_app in HE as [HZ HEL].
  all: destruct (index_loop d (visit_all d) L s _ R BL EL BR ER p _ Hc Hst Hnd Hsy Hk Hb HEL) as (n & s1 & fs1 & R' & BR' & Hn & Hrun & [Hsf Hcur Hac]).
  - inversion Hst; subst. inversion Hsf; subst. cbn [zleft zright zblocks app]. rewrite app_nil_r. exists n, s1, (S d), BR'. split; [lia|].
    pose proof (cursor_whole _ _ _ _ _ _ _ _ _ Hcur) as Hw. assert (p_bh p = None) as Hpb by (destruct Hc as [? ? ? Hz _ _ _ _]; by inversion Hz). rewrite Hpb in Hw. split; [|split; [exact Hw|exact Hac]].
    intros fuel. rewrite Hrun. unfold finish. cbn [length Nat.eqb negb]. rewrite andb_false_r. by destruct fuel.
  - inversion Hst as [|f ? fs0 ? Hq1 Hst']; subst. inversion Hsf as [|? f1 ? fs1' Hf1 Hsf1]; subst. inversion Hgo as [|? ? ? ? Hg1 Hgo']; subst. pose proof (stack_same _ _ _ Hsf Hst) as Hst1.
    destruct (same_frames_blocks _ _ Hsf) as (Eb & _). destruct (loop_end_ok s1 f1 fs1' d p (q :: ups) R' BR' _ Hcur Hst1) as (s2 & fs2 & C & BC & Hfin & Hsf2 & Hcur2 & HC & HlC & Hac2); [rewrite Eb; by apply NoDup_app in Hnd as [? _]|].
    destruct Hf1 as (F1 & F2 & F3 & F4 & F5 & F6 & F7 & F8). rewrite F1, F2, F3, F5, F6, F7, F8 in Hcur2. rewrite (same_child _ _ F4) in Hac2.
    pose proof (same_frames_trans _ _ _ Hsf1 Hsf2) as Hsf3. destruct (same_frames_blocks _ _ Hsf3) as (Eb3 & El3 & Er3 & _).
    assert (accounts s s2 (zblocks (f :: fs0) ++ BL ++ BR) (zblocks fs0 ++ fr_BL f ++ BC ++ fr_BR f) (gone start end_ EL)) as Hac3.
    { eapply accounts_perm; [eapply accounts_trans; [exact (accounts_frame _ _ _ _ _ (zblocks (f :: fs0)) Hac)|
        eapply accounts_perm; [exact (accounts_frame _ _ _ _ _ (fr_BL f ++ fr_BR f ++ zblocks fs0) Hac2)|cbn [zblocks]; solve_Permutation|reflexivity|reflexivity]]|done|solve_Permutation|by rewrite app_nil_r]. }
    assert (steady s2) as Hsy2 by (eapply steady_side; [apply Hac3|done]). destruct Hq1 as [Hqb Hqi]. rewrite <- Hqb in Hcur2.
    pose proof Hcur2 as [lo2 mid2 hi2 Hz2 (Hs2 & _) Hu2 _ _]. pose proof (used_length _ Hs2) as Hl2. rewrite Hu2, !length_app in Hl2. unfold goes_on in Hg1. rewrite !length_app in *. cbn [length] in *.
    destruct (IH fs2 s2 (S d) (fr_left f) (C ++ fr_right f) (fr_BL f) (fr_EL f) (BC ++ fr_BR f) _ q Hcur2) as (n2 & s3 & d' & B' & Hn2 & Hrun2 & Hw3 & Hac4); [by eapply stack_same|by eapply goes_on_same|rewrite Eb3; by eapply accounts_nodup|done| | |by rewrite El3|].
    { unfold next_of. by rewrite Hqi. }
    { unfold next_of. rewrite Hqi. cbn [set_p_idx p_block]. destruct Hs2. lia. }
    rewrite El3, Er3, Eb3 in *. exists (n + n2)%nat, s3, d', B'. cbn [zleft zright zblocks] in *. split; [|split; [|split]].
    + rewrite !length_app in *. cbn [length]. rewrite !length_app. lia.
    + intros fuel. rewrite <- Nat.add_assoc, Hrun, Hfin. apply Hrun2.
    + rewrite (cut_app _ _ (_ ++ _) EL), <- !app_assoc. rewrite <- !app_assoc in Hw3. exact Hw3.
    + eapply accounts_perm; [exact (accounts_trans _ _ _ _ _ _ _ _ Hac3 Hac4)|done|done|]. rewrite (gone_app _ _ (_ ++ _) EL). apply Permutation_app_comm.
Qed.
End walk.
