(* ===== verification/ExtGood.v ===== *)
(** Trees that are in order, pass their checks and take every block once, as the
    shapes of the walk. *)

From stdpp Require Import sorting.
From S2P Require Import Prelude Friend ExtStatus ExtInsert ExtRemove ExtOps ExtRecover SysZone ExtTree ExtLeaf ExtEdit ExtCheck ExtStep ExtCut ExtZip.

(** The blocks of the nodes under a node, and of the tree of an inode. *)
Fixpoint node_blocks (disk : Z -> ext_node) (d : nat) (n : ext_node) : list Z :=
  match d with
  | O => []
  | S d' => used n ≫= fun sl => child_of sl :: node_blocks disk d' (disk (child_of sl))
  end.
Definition tree_blocks (i : ext_inode) : list Z := node_blocks (i_disk i) (depth_of i) (i_data i).

(** The leaves, and that the ones with an extent that goes on behind the block [end_]
    have a free slot. *)
Fixpoint node_leaves (disk : Z -> ext_node) (d : nat) (n : ext_node) : list ext_node :=
  match d with
  | O => [n]
  | S d' => used n ≫= fun sl => node_leaves disk d' (disk (child_of sl))
  end.
Definition tree_leaves (i : ext_inode) : list ext_node := node_leaves (i_disk i) (depth_of i) (i_data i).
Definition leaf_room (end_ : Z) (n : ext_node) : Prop := entries n < eh_max (n_hdr n) \/ Forall (ends_in end_) (slot_extent <$> used n).

Lemma leaves_ext disk disk' d n : (forall b, disk b = disk' b) -> node_leaves disk d n = node_leaves disk' d n.
Proof. intros H. revert n. induction d as [|d IH]; intros n; [done|]. cbn [node_leaves]. apply list_bind_ext; [|done]. intros sl. by rewrite H, IH. Qed.

(** In order, checked, of the right size, and every block is of one node. *)
Record good_tree (sb : ext_sb) (chk : ext4_extent_header -> list ext_slot -> Z) (env : ext_env) (i : ext_inode) : Prop := {
  gt_ok : inode_ok i;
  gt_root : ext4_ext_check_inode sb chk i = 0;
  gt_nodes : readable sb chk env i (depth_of i) (i_data i);
  gt_room : sized sb None (i_data i) /\ Forall (fun b => sized sb (Some b) (i_disk i b)) (tree_blocks i);
  gt_once : NoDup (tree_blocks i)
}.

Section good.
Variable sb : ext_sb.
Variable ext4_chksum : ext4_extent_header -> list ext_slot -> Z.
Notation fine := (fine sb ext4_chksum).
Notation node_tree := (node_tree sb ext4_chksum).
Notation subtree := (subtree sb ext4_chksum).

(** What a shape says of blocks and extents. *)
Lemma node_tree_data s d bh lo hi B E : node_tree s d bh lo hi B E -> B = node_blocks (i_disk (x_inode s)) d (heap s bh) /\ E = tree_exts (i_disk (x_inode s)) d (heap s bh).
Proof.
  revert bh lo hi B E. induction d as [|d IH]; intros bh lo hi B E [_ H]; [by destruct H as (-> & -> & _)|]. cbn [node_blocks tree_exts].
  induction H as [|lo sl mid l hi B1 E1 B2 E2 _ (B' & -> & _ & _ & Hn) _ [IHB IHE]]; [done|]. destruct (IH _ _ _ _ _ Hn) as [-> ->]. split.
  - change ((sl :: l) ≫= ?f) with (f sl ++ (l ≫= f)). by rewrite IHB.
  - change ((sl :: l) ≫= ?f) with (f sl ++ (l ≫= f)). by rewrite IHE.
Qed.

Lemma node_tree_fits s d bh lo hi B E : node_tree s d bh lo hi B E -> Forall ext_fits E.
Proof.
  revert bh lo hi B E. induction d as [|d IH]; intros bh lo hi B E [Hf H]; [destruct H as (_ & -> & _); apply extents_of, Hf|].
  clear Hf. induction H as [|lo sl mid l hi B1 E1 B2 E2 _ (B' & _ & _ & _ & Hn) _ IHf]; [constructor|]. apply Forall_app. split; [by eapply IH|done].
Qed.

Lemma node_tree_valid s d bh lo hi B E : node_tree s d bh lo hi B E -> Forall (ext_valid sb (i_ino (x_inode s))) E.
Proof.
  revert bh lo hi B E. induction d as [|d IH]; intros bh lo hi B E [Hf H].
  - destruct H as (_ & -> & _). destruct Hf as (_ & _ & Hp). pose proof (ps_valid _ _ _ _ _ _ Hp) as Hv. destruct (decide _); [|done]. by eapply valid_leaf_elim.
  - clear Hf. induction H as [|lo sl mid l hi B1 E1 B2 E2 _ (B' & _ & _ & _ & Hn) _ IHf]; [constructor|]. apply Forall_app. split; [by eapply IH|done].
Qed.
(** From order and checks to a shape. *)
Lemma tree_shape env s d bh lo hi : node_ok (i_disk (x_inode s)) d (heap s bh) lo hi -> fine s bh d lo -> readable sb ext4_chksum env (x_inode s) d (heap s bh) ->
  Z.of_nat d <= ext_depth (x_inode s) -> lo <= hi -> Forall (fun b => sized sb (Some b) (heap s (Some b))) (node_blocks (i_disk (x_inode s)) d (heap s bh)) ->
  exists B E, node_tree s d bh lo hi B E.
Proof.
  revert bh lo hi. induction d as [|d IH]; intros bh lo hi Hn Hf Hr Hd Hlo Hz; [by exists [], (slot_extent <$> used (heap s bh)); destruct Hn|].
  cbn [node_ok readable node_blocks] in Hn, Hr, Hz. destruct Hn as (_ & _ & Hc). cbn [ExtZip.node_tree].
  assert (exists B E, forest (subtree s d) lo (used (heap s bh)) hi B E) as (B & E & H); [|exists B, E; split; [done|exact H]].
  clear Hf. revert lo Hc Hlo. revert Hr Hz. generalize (used (heap s bh)). intros l. induction l as [|sl l IHl]; intros Hr Hz lo Hc Hlo; [by exists [], []; constructor|].
  cbn [children_ok] in Hc. destruct Hc as (Hle & Hlt & ((sl' & l' & Eu & Es) & Hno) & Hc). apply Forall_cons in Hr as [[[_ Hck] Hr] Hrl].
  change ((sl :: l) ≫= ?f) with (f sl ++ (l ≫= f)) in Hz. apply Forall_app in Hz as [[Hz1 Hz]%Forall_cons Hzl]. change (i_disk (x_inode s) (child_of sl)) with (heap s (Some (child_of sl))) in *.
  assert (fine s (Some (child_of sl)) d (sw0 sl)) as Hf1 by (pose proof (node_slots _ _ _ _ _ Hno) as Hs; split; [done|]; split; [done|]; by apply passes_iff).
  destruct (IH (Some (child_of sl)) (sw0 sl) (next_key l hi)) as (B1 & E1 & H1); try done; [lia|lia|].
  assert (next_key l hi <= hi) as Hnk by (destruct l; [done|]; destruct (children_keys _ _ _ _ Hc) as [_ [? _]%Forall_cons]; cbn; lia).
  destruct (IHl Hrl Hzl (next_key l hi) Hc Hnk) as (B2 & E2 & H2). exists ((child_of sl :: B1) ++ B2), (E1 ++ E2). eapply forest_cons; [exact Hle| |exact H2].
  exists B1. split_and!; [done|lia|by rewrite Eu|done].
Qed.

Lemma node_ok_weaken disk d n lo hi hi' : node_ok disk d n lo hi -> hi <= hi' -> node_ok disk d n lo hi'.
Proof.
  revert n lo hi hi'. induction d as [|d IH]; intros n lo hi hi' H Hhi; cbn [node_ok] in *; [destruct H; split; [done|by eapply exts_ok_weaken]|].
  destruct H as (? & ? & Hc). split_and!; [done..|]. clear -IH Hc Hhi. revert lo Hc. induction (used n) as [|sl l IHl]; intros lo; [done|]. cbn [children_ok]. intros (? & Hlt & [Hst Hn] & Hc).
  destruct l as [|sl' l']; cbn [next_key] in *; (split_and!; [done|lia|done|by eapply IH|]); [done|]. by apply IHl.
Qed.
Lemma node_ok_lo disk d n lo lo' hi : node_ok disk d n lo hi -> lo' <= lo -> node_ok disk d n lo' hi.
Proof.
  intros H Hlo. destruct d as [|d]; cbn [node_ok] in *; [destruct H; split; [done|eapply exts_ok_weaken; [done|lia|done]]|].
  destruct H as (? & ? & Hc). split_and!; [done..|]. destruct (used n) as [|sl l]; [done|]. cbn [children_ok] in *. destruct Hc as (? & Hc). split; [lia|exact Hc].
Qed.
(** From a shape back to order and checks. *)
Lemma shape_tree env s d bh lo hi B E : (forall b, 0 <= xe_read env b) -> node_tree s d bh lo hi B E -> (d <> 0%nat -> used (heap s bh) <> []) ->
  node_ok (i_disk (x_inode s)) d (heap s bh) lo hi /\ readable sb ext4_chksum env (x_inode s) d (heap s bh) /\ Forall (fun b => sized sb (Some b) (heap s (Some b))) B.
Proof.
  intros Hread. revert bh lo hi B E. induction d as [|d IH]; intros bh lo hi B E [Hf H] Hne.
  - destruct H as (-> & -> & Hx). split; [|done]. split; [apply Hf|done].
  - cbn [node_ok readable]. assert (children_ok (fun b lo hi => starts_at (i_disk (x_inode s) b) lo /\ node_ok (i_disk (x_inode s)) d (i_disk (x_inode s) b) lo hi) lo (used (heap s bh)) hi /\
      Forall (fun sl => node_readable sb ext4_chksum env (x_inode s) sl d /\ readable sb ext4_chksum env (x_inode s) d (i_disk (x_inode s) (child_of sl))) (used (heap s bh)) /\
      Forall (fun b => sized sb (Some b) (heap s (Some b))) B) as (H1 & H2 & H3); [|split_and!; try done; [apply Hf|by apply Hne]].
    clear Hf Hne. induction H as [|lo sl mid l hi B1 E1 B2 E2 Hle (B' & -> & Hd & Hne & Hn) Hfr (IH1 & IH2 & IH3)]; [split_and!; constructor|].
    assert (mid <= next_key l hi) as Hnk by (inversion Hfr; subst; cbn; lia).
    assert (fine s (Some (child_of sl)) d (sw0 sl)) as Hf by (by destruct d, Hn). pose proof Hf as (Hs & Hz & Hp).
    destruct (IH (Some (child_of sl)) (sw0 sl) mid B' E1 Hn) as (H1 & H2 & H3); [done|]. change (i_disk (x_inode s) (child_of sl)) with (heap s (Some (child_of sl))) in *.
    assert (sw0 sl < mid) as Hlt by (eapply (subtree_lt sb ext4_chksum s d sl mid (child_of sl :: B') E1); by exists B').
    cbn [children_ok]. split; [split_and!; [done|lia| | |]|split].
    + destruct (used (heap s (Some (child_of sl)))) as [|sl' l'] eqn:Eu; [done|]. exists sl', l'. split; [exact Eu|]. by eapply fine_first.
    + by eapply node_ok_weaken.
    + destruct l as [|sl' l']; [done|]. cbn [children_ok next_key] in *. destruct IH1 as (? & ? & [? ?] & ?). by split_and!.
    + constructor; [|done]. split; [|done]. split; [apply Hread|]. apply passes_iff; [done|]. split; [done|]. by intros ?.
    + apply Forall_app; split; [by constructor|done].
Qed.
End good.
