(* ===== verification/ExtFind.v ===== *)
(** The path to a block, as frames around the leaf. *)

From stdpp Require Import sorting.
From S2P Require Import Prelude Friend ExtStatus ExtInsert ExtRemove ExtOps ExtRecover SysZone ExtTree ExtLeaf ExtEdit ExtSplit ExtSpace ExtCheck ExtStep ExtCut ExtZip ExtCursor ExtGood.

Section find.
Context `{Hrb : RbTree}.
Variable sb : ext_sb.
Variable ext4_chksum : ext4_extent_header -> list ext_slot -> Z.
Variable env : edit_env.
Hypothesis Hq : quiet env.
Notation zip := (zip sb ext4_chksum).
Notation fine := (fine sb ext4_chksum).
Notation node_tree := (node_tree sb ext4_chksum).
Notation subtree := (subtree sb ext4_chksum).

(** The element of a path for a frame: [p_block] is the block of the child. *)
Definition found_frame (f : frame) (p : ext4_ext_path) : Prop := on_frame f p /\ p_block p = child_of (fr_slot f).

(** The frames [fs] around the leaf of the path [path] (from the leaf up) to [block]:
    all extents before the leaf end before the block, those behind are after it. *)
Record path_at (s : edit_state) (block : Z) (fs : list frame) (p : ext4_ext_path) (lo hi : Z) (E : list ext4_extent) : Prop := {
  pa_zip : zip s fs 0 (p_bh p) lo hi;
  pa_leaf : node_tree s 0 (p_bh p) lo hi [] E;
  pa_left : Forall (fun e => ext_end e <= block) (zleft fs);
  pa_right : Forall (fun e => block < ee_block e) (zright fs);
  pa_full : fs <> [] -> used (heap s (p_bh p)) <> [];
  pa_slot : (p_ext p = None /\ used (heap s (p_bh p)) = []) \/
    exists l1 sl l2, used (heap s (p_bh p)) = l1 ++ sl :: l2 /\ p_ext p = Some (Z.of_nat (length l1)) /\ (l1 <> [] -> sw0 sl <= block) /\ Forall (fun sl => block < sw0 sl) l2
}.

Lemma moved_set s i i' : moved [] [] s (set_inode s i) -> moved [] [] (set_inode s i) (set_inode (set_inode s i) i') -> moved [] [] s (set_inode s i').
Proof. intros M1 M2. by apply (moved_on _ [] [] _ _ _ M1 M2). Qed.

(** Siblings before and behind the child that the search goes to. *)
Lemma siblings s d lo l1 sl l2 hi B E block : forest (subtree s d) lo (l1 ++ sl :: l2) hi B E -> (l1 <> [] -> sw0 sl <= block) -> Forall (fun sl => block < sw0 sl) l2 ->
  exists mid B1 E1 Bn En B2 E2, forest (subtree s d) lo l1 (sw0 sl) B1 E1 /\ subtree s d sl mid (child_of sl :: Bn) En /\ forest (subtree s d) mid l2 hi B2 E2 /\
    B = B1 ++ (child_of sl :: Bn) ++ B2 /\ E = E1 ++ En ++ E2 /\ lo <= sw0 sl /\ Forall (fun e => ext_end e <= block) E1 /\ Forall (fun e => block < ee_block e) E2.
Proof.
  intros H Hle Hgt. apply forest_split in H as (m & B1 & E1 & Bx & Ex & -> & -> & H1 & Hx). inversion Hx as [|? ? mid ? ? Bs En B2 E2 Hm Hs H2]; subst. pose proof Hs as (Bn & -> & _).
  exists mid, B1, E1, Bn, En, B2, E2. pose proof (forest_le _ _ _ _ _ _ _ _ _ H1). split_and!; try done; [by eapply forest_weaken|lia| |].
  - destruct l1 as [|x l1]; [apply forest_nil_inv in H1 as (_ & -> & _); constructor|]. specialize (Hle ltac:(done)). assert (exts_ok lo E1 m) as Hok by (eapply forest_exts; [|exact H1]; intros; by eapply subtree_exts).
    apply Forall_forall. intros e He. destruct (exts_ok_elem _ _ _ e Hok He) as (_ & _ & ? & _). unfold ext_end. lia.
  - destruct l2 as [|x l2]; [apply forest_nil_inv in H2 as (_ & -> & _); constructor|]. apply Forall_cons in Hgt as [Hgt _]. inversion H2 as [|? ? m2 ? ? ? ? ? ? ? Hsx Hf2]; subst.
    assert (exts_ok (sw0 x) (E0 ++ E3) hi) as Hok.
    { apply exts_ok_app. exists m2. split; [by eapply subtree_exts|]. eapply forest_exts; [|exact Hf2]. intros; by eapply subtree_exts. }
    apply Forall_forall. intros e He. destruct (exts_ok_elem _ _ _ e Hok He) as (? & _). lia.
Qed.

(** ** The walk down *)

(** Where a leaf is searched. *)
Lemma leaf_at s fs bh lo hi E block : zip s fs 0 bh lo hi -> node_tree s 0 bh lo hi [] E -> Forall (fun e => ext_end e <= block) (zleft fs) -> Forall (fun e => block < ee_block e) (zright fs) ->
  (fs <> [] -> used (heap s bh) <> []) -> forall flags, exists p, find_walk sb ext4_chksum (ed_tree env) block flags 0 bh (x_inode s) = Ok (inr [p], x_inode s) /\ p_bh p = bh /\ path_at s block fs p lo hi E.
Proof.
  intros Hz Hn HL HR Hfull flags. pose proof Hn as ((Hs & _) & _ & _ & Hx). pose proof (used_length _ Hs) as Hl. cbn [find_walk]. change (node_of (x_inode s) bh) with (heap s bh). set (n := heap s bh) in *. unfold ext4_ext_binsearch.
  destruct (Z.eqb_spec (entries n) 0) as [E0|E0].
  - assert (used n = []) as Hu by (rewrite E0 in Hl; by destruct (used n)). cbn [mbind outcome_bind]. eexists. split; [done|]. split; [done|]. split; try done. by left.
  - destruct (search_found n block Hs) as (x & -> & l1 & sl & l2 & [Eu Ek Hat Hle Hgt]).
    { destruct Hn as (_ & _ & HE & Hx'). rewrite HE in Hx'. by eapply leaf_keys. }
    { intros Hu. rewrite Hu in Hl. destruct Hs. cbn in Hl. lia. }
    cbn [mbind outcome_bind]. rewrite Hat. cbn [mbind outcome_bind]. eexists. split; [done|]. split; [done|]. split; try done. right. exists l1, sl, l2. split_and!; [done|by rewrite Ek|done|done].
Qed.

(** The path from a node to the leaf of a block, from the leaf up. *)
Definition descends (s s' : edit_state) (block : Z) (fs : list frame) (B : list Z) (E : list ext4_extent) (up : list ext4_ext_path) : Prop :=
  exists p ups fsn lo hi El, up = p :: ups /\ path_at s' block (fsn ++ fs) p lo hi El /\ Forall2 found_frame fsn ups /\ moved [] [] s s' /\
    zblocks (fsn ++ fs) ≡ₚ zblocks fs ++ B /\ zleft (fsn ++ fs) ++ El ++ zright (fsn ++ fs) = zleft fs ++ E ++ zright fs.

Lemma find_down block flags d : has_flag flags EXT4_EX_NOCACHE = true -> forall s fs bh lo hi B E, zip s fs d bh lo hi -> node_tree s d bh lo hi B E -> NoDup (zblocks fs ++ B) -> (d <> 0%nat \/ fs <> [] -> used (heap s bh) <> []) ->
  Forall (fun e => ext_end e <= block) (zleft fs) -> Forall (fun e => block < ee_block e) (zright fs) ->
  exists path i', find_walk sb ext4_chksum (ed_tree env) block flags d bh (x_inode s) = Ok (inr path, i') /\ descends s (set_inode s i') block fs B E (reverse path).
Proof.
  intros Hfl. induction d as [|d IH]; intros s fs bh lo hi B E Hz Hn Hnd Hne HL HR.
  - assert (B = []) as -> by (by destruct Hn as (_ & -> & _)). destruct (leaf_at s fs bh lo hi E block Hz Hn HL HR ltac:(auto) flags) as (p & -> & Hb & Hp). exists [p], (x_inode s). split; [done|].
    rewrite <- (reverse_involutive [p]). assert (set_inode s (x_inode s) = s) as -> by (by destruct s). exists p, [], [], lo, hi, E. cbn [app]. rewrite app_nil_r. split_and!; try done. apply moved_refl.
  - pose proof Hn as (Hf & HF). change (forest (subtree s d) lo (used (heap s bh)) hi B E) in HF. pose proof Hf as (Hs & _). destruct (forest_keys _ _ _ _ _ _ _ _ _ HF) as [Hku _]. specialize (Hne ltac:(by left)).
    destruct (search_found (heap s bh) block Hs Hku Hne) as (x & Ex & l1 & sl & l2 & [Eu Ek Hat Hle Hgt]). rewrite Eu in HF.
    destruct (siblings s d lo l1 sl l2 hi B E block HF Hle Hgt) as (mid & B1 & E1 & Bn & En & B2 & E2 & H1 & Hsub & H2 & -> & -> & Hlo & HE1 & HE2).
    pose proof (subtree_lt _ _ _ _ _ _ _ _ Hsub) as Hlt. set (f := Frame bh l1 sl l2 B1 E1 B2 E2).
    destruct (read_quiet sb ext4_chksum env Hq s d sl mid _ _ flags Hsub Hfl) as (i1 & Er & M1). set (s1 := set_inode s i1) in *.
    assert (zip s (f :: fs) d (Some (child_of sl)) (sw0 sl) mid) as Hz1 by (by apply (zip_frame sb ext4_chksum s f fs d lo hi)).
    assert (NoDup (zblocks (f :: fs) ++ Bn)) as Hnd1 by (eapply NoDup_Permutation_proper; [|exact Hnd]; cbn [zblocks f fr_slot fr_BL fr_BR]; solve_Permutation).
    pose proof Hsub as (B' & [= ->] & _ & Hne1 & Hn1). assert (forall b, heap s1 b = heap s b) as Hh1 by (intros b; apply (mv_other _ _ _ _ M1); set_solver).
    destruct (IH s1 (f :: fs) (Some (child_of sl)) (sw0 sl) mid B' En) as (path & i2 & Ew & p & ups & fsn & lo' & hi' & El & Eup & Hp & Hfr & M2 & HB & HE).
    + eapply zip_keep; [apply M1|by apply NoDup_app in Hnd1 as [? _]|auto|exact Hz1].
    + eapply node_tree_keep; [apply M1|auto|auto|exact Hn1].
    + exact Hnd1.
    + intros _. by rewrite Hh1.
    + cbn [zleft f fr_EL]. by apply Forall_app.
    + cbn [zright f fr_ER]. by apply Forall_app.
    + cbn [find_walk]. change (node_of (x_inode s) bh) with (heap s bh). unfold ext4_ext_binsearch_idx. rewrite Ex. cbn [mbind outcome_bind]. rewrite Hat. cbn [mbind outcome_bind]. rewrite Er. cbn [mbind outcome_bind].
      change i1 with (x_inode s1). rewrite Ew. cbn [mbind outcome_bind fst snd]. eexists _, i2. split; [done|]. rewrite reverse_cons, Eup. cbn [app].
      change (set_inode s1 i2) with (set_inode s i2) in *. eexists p, (ups ++ [_]), (fsn ++ [f]), lo', hi', El. rewrite <- (app_assoc fsn [f] fs). cbn [app]. split; [done|]. split; [exact Hp|]. split; [|split; [by apply (moved_on _ [] [] _ _ _ M1 M2)|split]].
      * apply Forall2_app; [exact Hfr|]. constructor; [|constructor]. split; [|done]. split; [done|]. cbn. f_equal. lia.
      * rewrite HB. cbn [zblocks f fr_slot fr_BL fr_BR]. solve_Permutation.
      * rewrite HE. cbn [zleft zright f fr_EL fr_ER]. by rewrite <- !app_assoc.
Qed.

(** [ext4_find_extent] on a tree that can be read. *)
Lemma find_extent_at s block flags B E : has_flag flags EXT4_EX_NOCACHE = true -> whole sb ext4_chksum s [] (Z.to_nat (ext_depth (x_inode s))) None B E -> ext_depth (x_inode s) <= EXT4_MAX_EXTENT_DEPTH ->
  NoDup B -> (0 < ext_depth (x_inode s) -> used (heap s None) <> []) ->
  exists s' up, find_extent sb ext4_chksum env block None flags s = Ok (inr up, s') /\ descends s s' block [] B E up.
Proof.
  intros Hfl [lo hi Hz Hn] Hd Hnd Hne. pose proof (qt_alloc _ Hq) as Ha.
  destruct (find_down block flags _ Hfl s [] None lo hi B E Hz Hn) as (path & i' & Ew & H); try done; [intros [?|?]; [apply Hne; lia|done]|by constructor..|].
  exists (set_inode s i'), (reverse path). split; [|exact H]. unfold find_extent, on_inode, ext4_find_extent. destruct (Z.ltb_spec EXT4_MAX_EXTENT_DEPTH (ext_depth (x_inode s))); [lia|].
  rewrite Ha, Hfl. cbn [negb andb mbind outcome_bind]. rewrite Ew. done.
Qed.
End find.
