(* ===== verification/ExtPart.v ===== *)
(** Splitting an extent in a leaf with a free slot ([ext4_force_split_extent_at]):
    two extents that map the same blocks, and nothing else. *)

From stdpp Require Import sorting.
From S2P Require Import Prelude Friend ExtStatus ExtInsert ExtRemove ExtOps ExtRecover SysZone ExtTree ExtLeaf ExtEdit ExtSplit ExtCheck ExtStep ExtCut ExtZip ExtCursor.

(** ** Storing a block *)

Lemma pblock_sum ex : ext_fits ex -> ext4_ext_pblock ex = ee_start_lo ex + ee_start_hi ex * 2 ^ 32.
Proof. intros (_ & _ & Hh & Hl). unfold ext4_ext_pblock. rewrite Z.shiftl_shiftl by lia. change (31 + 1) with 32. unfold u64. rewrite wrap_small by (rewrite Z.shiftl_mul_pow2; lia). by apply lor_add. Qed.
Lemma store_parts pb : 0 <= pb < 2 ^ 48 -> Z.land (Z.shiftr (Z.shiftr pb 31) 1) 65535 = pb / 2 ^ 32 /\ Z.land pb (2 ^ 32 - 1) = pb mod 2 ^ 32 /\ 0 <= pb / 2 ^ 32 < 2 ^ 16 /\ 0 <= pb mod 2 ^ 32 < 2 ^ 32.
Proof.
  intros Hp. rewrite Z.shiftr_shiftr by lia. change (31 + 1) with 32. change 65535 with (Z.ones 16). change (2 ^ 32 - 1) with (Z.ones 32). rewrite !Z.land_ones, Z.shiftr_div_pow2 by lia.
  split_and!; Z.to_euclidean_division_equations; lia.
Qed.
Lemma store_pblock_spec ex pb : ext_fits ex -> 0 <= pb < 2 ^ 48 -> ext_fits (ext4_ext_store_pblock ex pb) /\ ext4_ext_pblock (ext4_ext_store_pblock ex pb) = pb.
Proof.
  intros (H1 & H2 & _ & _) Hp. destruct (store_parts pb Hp) as (E1 & E2 & ? & ?). assert (ext_fits (ext4_ext_store_pblock ex pb)) as Hf.
  { unfold ext_fits, ext4_ext_store_pblock. cbn [ee_block ee_len ee_start_hi ee_start_lo]. by rewrite E1, E2. }
  split; [done|]. rewrite pblock_sum by done. unfold ext4_ext_store_pblock. cbn [ee_start_lo ee_start_hi]. rewrite E1, E2. Z.to_euclidean_division_equations; lia.
Qed.
Lemma store_again ex h l : ext_fits ex -> ext4_ext_store_pblock {| ee_block := ee_block ex; ee_len := ee_len ex; ee_start_hi := h; ee_start_lo := l |} (ext4_ext_pblock ex) = ex.
Proof.
  intros Hf. pose proof (pblock_sum ex Hf) as Ep. destruct Hf as (_ & _ & Hh & Hl). destruct (store_parts (ext4_ext_pblock ex)) as (E1 & E2 & _); [rewrite Ep; lia|].
  destruct ex as [b n hi lo]. unfold ext4_ext_store_pblock. cbn [ee_block ee_len ee_start_hi ee_start_lo] in *. rewrite E1, E2, Ep. f_equal; Z.to_euclidean_division_equations; lia.
Qed.

(** ** The two parts *)

(** The part of an extent from [len] blocks on. *)
Definition rest_ext (ex : ext4_extent) (len : Z) : ext4_extent :=
  short (ext4_ext_store_pblock (set_block ex (ee_block ex + len)) (ext4_ext_pblock ex + len)) (ext_len ex - len).
Lemma rest_spec ex len : ext_fits ex -> 0 < len < ext_len ex -> ext_end ex <= EXT_MAX_BLOCKS -> ext4_ext_pblock ex + ext_len ex <= 2 ^ 48 ->
  ext_fits (rest_ext ex len) /\ ee_block (rest_ext ex len) = ee_block ex + len /\ ext_len (rest_ext ex len) = ext_len ex - len /\ ext_end (rest_ext ex len) = ext_end ex /\
  ext4_ext_is_unwritten (rest_ext ex len) = ext4_ext_is_unwritten ex /\ ext4_ext_pblock (rest_ext ex len) = ext4_ext_pblock ex + len /\ ext_status (rest_ext ex len) = ext_status ex /\
  join_len (ext4_ext_store_pblock (set_block ex (ee_block ex + len)) (ext4_ext_pblock ex + len)) (ext_len ex - len) (ext4_ext_is_unwritten ex) = Ok (rest_ext ex len).
Proof.
  intros Hf Hl He Hp. pose proof (pblock_sum ex Hf) as Ep. pose proof Hf as (H1 & H2 & H3 & H4). unfold ext_end, EXT_MAX_BLOCKS in *.
  assert (ext_fits (set_block ex (ee_block ex + len))) as Hfb by (unfold ext_fits; cbn; split_and!; lia).
  destruct (store_pblock_spec (set_block ex (ee_block ex + len)) (ext4_ext_pblock ex + len) Hfb) as [Hfs Eps]; [lia|]. unfold rest_ext. set (e := ext4_ext_store_pblock _ _) in *.
  assert (ext_len e = ext_len ex) as El by done. assert (ext4_ext_is_unwritten e = ext4_ext_is_unwritten ex /\ ext_status e = ext_status ex) as [Eu Es] by done.
  destruct (short_spec e (ext_len ex - len) Hfs) as (S1 & S2 & S3 & S4 & S5); [lia|].
  split_and!; try done; [cbn [short ee_block e ext4_ext_store_pblock set_block]; rewrite S2; lia|congruence..|]. rewrite <- Eu. apply join_len_short; [done|lia].
Qed.
(** Both parts, for one extent of a list in order. *)
Definition halves (ex : ext4_extent) (len : Z) : list ext4_extent := [short ex len; rest_ext ex len].
Lemma halves_ok lo l1 ex l2 hi len : ext_fits ex -> 0 < len < ext_len ex -> hi <= EXT_MAX_BLOCKS -> ext4_ext_pblock ex + ext_len ex <= 2 ^ 48 -> exts_ok lo (l1 ++ ex :: l2) hi ->
  exts_ok lo (l1 ++ halves ex len ++ l2) hi /\ forall b, disk_map (l1 ++ halves ex len ++ l2) b = disk_map (l1 ++ ex :: l2) b.
Proof.
  intros Hf Hl Hh Hp Hx. destruct (exts_ok_elem _ _ _ ex Hx) as (_ & _ & He & _); [apply elem_of_app; right; left|]. fold (ext_end ex) in He. destruct (rest_spec ex len Hf Hl) as (R1 & R2 & R3 & R4 & _ & R6 & R7 & _); [lia|done|].
  destruct (short_spec ex len Hf) as (S1 & S2 & _ & S4 & S5); [lia|]. apply exts_ok_app in Hx as (m & H1 & H2). split.
  - apply exts_ok_app. exists m. split; [done|]. cbn [exts_ok halves app] in *. rewrite S2, R2, R3. cbn [short ee_block]. destruct H2 as (? & ? & ? & ? & H2). destruct R1 as (? & ? & ? & ?).
    destruct S1 as (? & ? & ? & ?). split_and!; try lia; try done. by replace (ee_block ex + len + (ext_len ex - len)) with (ee_block ex + ext_len ex) by lia.
  - intros b. change (ex :: l2) with ([ex] ++ l2). rewrite !disk_map_app. do 2 f_equal. unfold halves. cbn [disk_map]. unfold covers. rewrite S2, S4, S5, R2, R3, R6, R7. cbn [short ee_block].
    destruct (Z.leb_spec (ee_block ex) b), (Z.ltb_spec b (ee_block ex + len)), (Z.leb_spec (ee_block ex + len) b), (Z.ltb_spec b (ee_block ex + len + (ext_len ex - len))), (Z.ltb_spec b (ee_block ex + ext_len ex)); cbn [andb]; try lia; try done; do 2 f_equal; lia.
Qed.

Section part.
Context `{Hrb : RbTree}.
Variable sb : ext_sb.
Variable ext4_chksum : ext4_extent_header -> list ext_slot -> Z.
Variable env : edit_env.
Hypothesis Hq : quiet env.
Hypothesis Hbs : xs_blocksize sb <= 65536.
Notation zip := (zip sb ext4_chksum).
Notation fine := (fine sb ext4_chksum).
Notation node_tree := (node_tree sb ext4_chksum).

(** The flags of a forced split. *)
Definition force_flags : Z := Z.lor (Z.lor EXT4_EX_NOCACHE EXT4_GET_BLOCKS_PRE_IO) (Z.lor EXT4_GET_BLOCKS_METADATA_NOFAIL EXT4_EX_NOFAIL).

(** ** The new extent behind the old one *)

Lemma insert_slot_ok s p ups P x Q ex : slots_ok (heap s (p_bh p)) -> used (heap s (p_bh p)) = P ++ x :: Q -> p_ext p = Some (Z.of_nat (length P)) ->
  entries (heap s (p_bh p)) < Z.of_nat (length (n_slots (heap s (p_bh p)))) -> entries (heap s (p_bh p)) + 1 < 2 ^ 16 -> ext_fits ex -> sw0 x < ee_block ex ->
  exists s' n', insert_slot env (p :: ups) ex s = Ok (inr (Z.of_nat (length P) + 1, set_p_ext p (Some (Z.of_nat (length P) + 1)) :: ups), s') /\ moved [p_bh p] [] s s' /\ heap s' (p_bh p) = n' /\
    slots_ok n' /\ used n' = P ++ x :: extent_slot ex :: Q /\ same_kind (heap s (p_bh p)) n' /\ entries n' = entries (heap s (p_bh p)) + 1.
Proof.
  intros Hs Hu Hp Hroom H16 Hf Hlt. set (n := heap s (p_bh p)) in *. pose proof (used_entries n _ _ _ Hs Hu) as He. destruct (access_ok env Hq (p_bh p) s) as (s1 & A1 & M1).
  assert (heap s1 (p_bh p) = n) as Hh1 by (apply (mv_other _ _ _ _ M1); set_solver). destruct (extent_slot_ok ex Hf) as [Hso _].
  destruct (insert_used n (P ++ [x]) Q (extent_slot ex) Hs) as (n1 & n2 & E1 & He1 & E2 & Hs2 & Hu2 & Hk2 & He2); [by rewrite <- app_assoc|done|done|].
  rewrite length_app in E1, E2. cbn [length] in E1, E2. rewrite Nat2Z.inj_add in E1, E2. change (Z.of_nat 1) with 1 in E1, E2. rewrite <- app_assoc in Hu2. cbn [app] in Hu2.
  destruct (put_ok (p_bh p) n2 s1) as (s2 & A2 & Hh2 & M2); [rewrite Hh1; apply Hk2|]. exists s2, n2. split; [|split; [eapply moved_start; [apply moved_nil, M1|exact M2]|done]].
  unfold insert_slot. rewrite (bind_ok _ _ _ _ _ A1), get_node_ok, Hh1, Hp.
  assert ((s ← lift (slot_at n (Z.of_nat (length P))); if sw0 s <? ee_block ex then mret (Z.of_nat (length P) + 1) else lift (BUG_ON (ee_block ex =? sw0 s)) ≫= fun _ => mret (Z.of_nat (length P))) s1 = Ok (inr (Z.of_nat (length P) + 1), s1)) as A3.
  { erewrite lift_ok by (by eapply used_slot). by rewrite (proj2 (Z.ltb_lt _ _)). }
  rewrite (bind_ok _ _ _ _ _ A3). rewrite bool_decide_true by done. cbn [andb]. replace (entries n - (Z.of_nat (length P) + 1)) with (Z.of_nat (length Q)) by lia.
  assert ((if 0 <? Z.of_nat (length Q) then lift (move_slots n (Z.of_nat (length P) + 1 + 1) (Z.of_nat (length P) + 1) (Z.of_nat (length Q))) else mret n) s1 = Ok (inr n1, s1)) as A4.
  { destruct (_ <? _); [unfold lift; by rewrite E1|]. injection E1 as ->. done. }
  rewrite (bind_ok _ _ _ _ _ A4). unfold u16. rewrite wrap_small by lia. rewrite store_again by done. erewrite lift_ok by exact E2. rewrite (bind_ok _ _ _ _ _ A2). done.
Qed.

(** [ext4_ext_insert_extent] of the second part. *)
Lemma insert_part_ok s p ups P x Q ex : slots_ok (heap s (p_bh p)) -> used (heap s (p_bh p)) = P ++ x :: Q -> p_ext p = Some (Z.of_nat (length P)) ->
  entries (heap s (p_bh p)) < eh_max (n_hdr (heap s (p_bh p))) -> eh_max (n_hdr (heap s (p_bh p))) <= Z.of_nat (length (n_slots (heap s (p_bh p)))) -> eh_max (n_hdr (heap s (p_bh p))) < 2 ^ 16 ->
  ext_fits ex -> 0 < ext_len ex -> sw0 x < ee_block ex ->
  exists s' n', ext4_ext_insert_extent sb ext4_chksum env (p :: ups) ex force_flags s = Ok (inr (set_p_ext p (Some (Z.of_nat (length P) + 1)) :: ups), s') /\ moved [p_bh p] [] s s' /\
    heap s' (p_bh p) = sealed sb ext4_chksum (p_bh p) n' /\ slots_ok n' /\ used n' = P ++ x :: extent_slot ex :: Q /\ same_kind (heap s (p_bh p)) n' /\ entries n' = entries (heap s (p_bh p)) + 1.
Proof.
  intros Hs Hu Hp Hroom Hlen H16 Hf Hl Hlt. destruct (insert_slot_ok s p ups P x Q ex) as (s1 & n' & A1 & M1 & Hh1 & H1 & H2 & H3 & H4); try done; [lia..|].
  destruct (dirty_ok sb ext4_chksum env Hq (p_bh p) s1) as (s2 & A2 & Hh2 & M2). rewrite Hh1 in Hh2. exists s2, n'. split; [|split; [by eapply moved_keep|done]].
  unfold ext4_ext_insert_extent. destruct (Z.eqb_spec (ext_len ex) 0); [lia|]. change (has_flag force_flags EXT4_GET_BLOCKS_PRE_IO) with true. rewrite Hp. cbv iota zeta. rewrite ret_ok. cbv iota.
  assert ((path ← leaf_with_space sb ext4_chksum env (p :: ups) ex force_flags; insert_slot env path ex) s = Ok (inr (Z.of_nat (length P) + 1, set_p_ext p (Some (Z.of_nat (length P) + 1)) :: ups), s1)) as A3.
  { assert (leaf_with_space sb ext4_chksum env (p :: ups) ex force_flags s = Ok (inr (p :: ups), s)) as A4; [|by rewrite (bind_ok _ _ _ _ _ A4)].
    unfold leaf_with_space. rewrite get_node_ok. by rewrite (proj2 (Z.ltb_lt _ _)). }
  rewrite (bind_ok _ _ _ _ _ A3). cbv iota. cbn [negb]. rewrite ret_ok.
  assert (ext4_ext_correct_indexes sb ext4_chksum env (set_p_ext p (Some (Z.of_nat (length P) + 1)) :: ups) s1 = Ok (inr tt, s1)) as A5.
  { unfold ext4_ext_correct_indexes. cbn [set_p_ext p_ext]. destruct ups as [|q ups]; [done|]. destruct (Z.eqb_spec (Z.of_nat (length P) + 1) 0); [lia|done]. }
  rewrite (bind_ok _ _ _ _ _ A5). cbn [set_p_ext p_bh]. rewrite (bind_ok _ _ _ _ _ A2). done.
Qed.

(** ** The split *)

Lemma force_split_ok s p ups P sl Q len : slots_ok (heap s (p_bh p)) -> used (heap s (p_bh p)) = P ++ sl :: Q -> p_ext p = Some (Z.of_nat (length P)) ->
  entries (heap s (p_bh p)) < eh_max (n_hdr (heap s (p_bh p))) -> eh_max (n_hdr (heap s (p_bh p))) <= Z.of_nat (length (n_slots (heap s (p_bh p)))) -> eh_max (n_hdr (heap s (p_bh p))) < 2 ^ 16 ->
  let ex := slot_extent sl in 0 < len < ext_len ex -> ext_end ex <= EXT_MAX_BLOCKS -> ext4_ext_pblock ex + ext_len ex <= 2 ^ 48 ->
  exists s' n', ext4_force_split_extent_at sb ext4_chksum env (p :: ups) (ee_block ex + len) true s = Ok (inr (set_p_ext p (Some (Z.of_nat (length P) + 1)) :: ups), s') /\ moved [p_bh p] [] s s' /\
    heap s' (p_bh p) = sealed sb ext4_chksum (p_bh p) n' /\ slots_ok n' /\ used n' = P ++ extent_slot (short ex len) :: extent_slot (rest_ext ex len) :: Q /\
    same_kind (heap s (p_bh p)) n' /\ entries n' = entries (heap s (p_bh p)) + 1.
Proof.
  intros Hs Hu Hp Hroom Hlen H16 ex Hl He Hb. set (n := heap s (p_bh p)) in *. pose proof (used_slot _ _ _ _ Hs Hu) as Hat. pose proof Hs as [_ Hok]. rewrite Hu in Hok. apply Forall_app in Hok as [_ [Hok _]%Forall_cons].
  destruct (slot_extent_ok sl Hok) as [Hf Hsl]. fold ex in Hf, Hsl. destruct (short_spec ex len Hf) as (S1 & _); [lia|]. destruct (rest_spec ex len Hf Hl He Hb) as (R1 & R2 & R3 & _ & _ & _ & _ & R8). destruct (extent_slot_ok _ S1) as [So _].
  destruct (access_ok env Hq (p_bh p) s) as (s1 & A1 & M1). destruct (put_used n P sl Q (extent_slot (short ex len)) Hs Hu So) as (n1 & E1 & Hs1 & Hu1 & Hk1 & He1).
  assert (heap s1 (p_bh p) = n) as Hh1 by (apply (mv_other _ _ _ _ M1); set_solver). destruct (put_ok (p_bh p) n1 s1) as (s2 & A2 & Hh2 & M2); [rewrite Hh1; apply Hk1|].
  destruct (dirty_ok sb ext4_chksum env Hq (p_bh p) s2) as (s3 & A3 & Hh3 & M3). rewrite Hh2 in Hh3. pose proof Hk1 as (_ & K2 & _ & K4).
  destruct (sealed_spec sb ext4_chksum (p_bh p) n1) as ((S2 & S3 & S4 & S5) & Se & Su & Ss); [rewrite K2; lia|].
  destruct (insert_part_ok s3 p ups P (extent_slot (short ex len)) Q (rest_ext ex len)) as (s4 & n2 & A4 & M4 & Hh4 & I1 & I2 & I3 & I4); try done.
  { rewrite Hh3. auto. } { by rewrite Hh3, Su. } { rewrite Hh3, Se, S3, K2, He1. done. } { rewrite Hh3, S3, S5, K2, K4. done. } { rewrite Hh3, S3, K2. done. } { lia. } { rewrite R2. cbn. lia. }
  exists s4, n2. split; [|split; [|split; [done|split; [done|split; [done|split]]]]].
  - unfold ext4_force_split_extent_at. rewrite Hp, ret_ok. rewrite (bind_ok _ _ _ _ _ (get_slot_ok _ _ _ _ Hat)). fold ex. cbv zeta. change (Z.lor (Z.lor EXT4_EX_NOCACHE EXT4_GET_BLOCKS_PRE_IO) _) with force_flags.
    unfold ext4_split_extent_at. set (sf := if ext4_ext_is_unwritten ex then Z.lor EXT4_EXT_MARK_UNWRIT1 EXT4_EXT_MARK_UNWRIT2 else 0).
    assert (has_flag sf EXT4_EXT_MARK_UNWRIT1 = ext4_ext_is_unwritten ex /\ has_flag sf EXT4_EXT_MARK_UNWRIT2 = ext4_ext_is_unwritten ex /\
      Z.land sf (Z.lor EXT4_EXT_DATA_VALID1 EXT4_EXT_DATA_VALID2) = 0 /\ negb (ext4_ext_is_unwritten ex) && has_flag sf (Z.lor EXT4_EXT_MAY_ZEROOUT (Z.lor EXT4_EXT_MARK_UNWRIT1 EXT4_EXT_MARK_UNWRIT2)) = false) as (F1 & F2 & F3 & F4) by (unfold sf; by destruct (ext4_ext_is_unwritten ex)).
    rewrite F3. erewrite lift_ok by done. rewrite Hp, ret_ok, get_node_ok. erewrite lift_ok by exact Hat. fold ex. unfold ext_end, EXT_MAX_BLOCKS in *. pose proof Hf as (Hf1 & _).
    assert ((ee_block ex + len <? ee_block ex) || (u32 (ee_block ex + ext_len ex) <=? ee_block ex + len) = false) as ->.
    { apply orb_false_iff. rewrite Z.ltb_ge, Z.leb_gt. unfold u32. rewrite wrap_small by lia. lia. }
    erewrite lift_ok by done. rewrite F4. erewrite lift_ok by done. rewrite (bind_ok _ _ _ _ _ A1). destruct (Z.eqb_spec (ee_block ex + len) (ee_block ex)); [lia|]. rewrite F1, F2.
    replace (ee_block ex + len - ee_block ex) with len by lia. erewrite lift_ok by (apply join_len_short; [exact Hf|lia]). erewrite lift_ok by exact E1.
    rewrite (bind_ok _ _ _ _ _ A2), (try_ok _ _ _ _ _ A3). replace (len + ext4_ext_pblock ex) with (ext4_ext_pblock ex + len) by lia. erewrite lift_ok by exact R8. rewrite (try_ok _ _ _ _ _ A4). done.
  - eapply moved_start; [apply moved_nil, M1|]. eapply moved_keep; [|exact M4]. eapply moved_keep; [exact M2|exact M3].
  - eapply same_kind_trans; [exact Hk1|]. eapply same_kind_trans; [|exact I3]. rewrite Hh3. by split_and!.
  - rewrite I4, Hh3, Se, He1. done.
Qed.

(** ** In the tree *)

Hypothesis Hcount : s_blocks_count (xs_zones sb) <= 2 ^ 48.

Lemma valid_bound ino ex : own_zones (xs_zones sb) ino -> ext_fits ex -> 0 < ext_len ex -> ext_valid sb ino ex -> ext4_ext_pblock ex + ext_len ex <= 2 ^ 48.
Proof.
  intros [Hz _] Hf Hl Hv. destruct (actual_len_bound ex Hf) as [Hb _]. pose proof (pblock_sum ex Hf) as Ep. destruct Hf as (_ & _ & ? & ?). unfold EXT_INIT_MAX_LEN in *.
  destruct (@block_valid_spec zone_list zone_list_ok (xs_zones sb) ino (ext4_ext_pblock ex) (ext_len ex) Hz) as [H1 _]; [lia..|]. destruct (H1 Hv) as [[_ ?] _]. lia.
Qed.
(** What the check of a leaf says of its extents. *)
Lemma fine_exts s bh lo : fine s bh 0 lo -> Forall (ext_valid sb (i_ino (x_inode s))) (slot_extent <$> used (heap s bh)) /\ Forall ext_fits (slot_extent <$> used (heap s bh)).
Proof.
  intros ([_ Hok] & _ & Hp). split; [|by apply extents_of]. pose proof (ps_valid _ _ _ _ _ _ Hp) as Hv. destruct (decide _); [|done]. by eapply valid_leaf_elim.
Qed.
Lemma halves_valid ino ex len : own_zones (xs_zones sb) ino -> ext_fits ex -> 0 < len < ext_len ex -> ext_end ex <= EXT_MAX_BLOCKS -> ext_valid sb ino ex -> Forall (ext_valid sb ino) (halves ex len).
Proof.
  intros Ho Hf Hl He Hv. pose proof (valid_bound ino ex Ho Hf ltac:(lia) Hv) as Hb. destruct (rest_spec ex len Hf Hl He Hb) as (_ & _ & R3 & _ & _ & R6 & _). destruct (short_spec ex len Hf) as (_ & S2 & _ & S4 & _); [lia|].
  destruct (actual_len_bound ex Hf) as [Hm _]. pose proof (pblock_sum ex Hf) as Ep. destruct Hf as (_ & _ & ? & ?). unfold EXT_INIT_MAX_LEN in *.
  unfold halves, ext_valid in *. repeat constructor; rewrite ?S2, ?S4, ?R3, ?R6; (eapply valid_part; [done| | | |exact Hv| | |]; lia).
Qed.

Lemma part_tree_ok s fs p ups lo hi P sl Q len : zip s fs 0 (p_bh p) lo hi -> NoDup (zblocks fs) -> own_zones (xs_zones sb) (i_ino (x_inode s)) ->
  node_tree s 0 (p_bh p) lo hi [] ((slot_extent <$> P) ++ slot_extent sl :: (slot_extent <$> Q)) -> used (heap s (p_bh p)) = P ++ sl :: Q -> p_ext p = Some (Z.of_nat (length P)) ->
  entries (heap s (p_bh p)) < eh_max (n_hdr (heap s (p_bh p))) -> 0 < len < ext_len (slot_extent sl) ->
  exists s', ext4_force_split_extent_at sb ext4_chksum env (p :: ups) (ee_block (slot_extent sl) + len) true s = Ok (inr (set_p_ext p (Some (Z.of_nat (length P) + 1)) :: ups), s') /\ moved [p_bh p] [] s s' /\
    zip s' fs 0 (p_bh p) lo hi /\ node_tree s' 0 (p_bh p) lo hi [] ((slot_extent <$> P) ++ halves (slot_extent sl) len ++ (slot_extent <$> Q)) /\
    used (heap s' (p_bh p)) = P ++ (extent_slot <$> halves (slot_extent sl) len) ++ Q.
Proof.
  intros Hz Hnd Ho (Hfine & _ & _ & Hx) Hu Hp Hroom Hl. pose proof Hfine as (Hs & Hsz & Hsound). destruct (fine_exts s (p_bh p) lo Hfine) as [Hv Hf]. destruct (sound_small sb ext4_chksum Hbs _ _ _ _ Hsound) as [[Hfit H16] _].
  pose proof (zip_bounds _ _ _ _ _ _ _ _ Hz) as (H0 & Hh & Hroot & _). rewrite Hu, fmap_app in Hv, Hf. cbn [fmap list_fmap] in Hv, Hf. set (ex := slot_extent sl) in *.
  pose proof Hv as [Hv1 [Hv2 Hv3]%Forall_cons]%Forall_app. pose proof Hf as [_ [Hf2 _]%Forall_cons]%Forall_app. destruct (exts_ok_elem _ _ _ ex Hx) as (_ & _ & He & _); [apply elem_of_app; right; left|]. fold (ext_end ex) in He.
  pose proof (valid_bound _ ex Ho Hf2 ltac:(lia) Hv2) as Hb. destruct (halves_ok lo _ ex _ hi len Hf2 Hl Hh Hb Hx) as [Hx' _].
  assert (eh_max (n_hdr (heap s (p_bh p))) <= Z.of_nat (length (n_slots (heap s (p_bh p))))) as Hmax.
  { unfold sized in Hsz. rewrite Hsz. pose proof (ps_max _ _ _ _ _ _ Hsound) as [_ Hm]. unfold ext4_ext_max_entries in Hm. change (Z.of_nat 0) with 0 in *. change (0 =? 0) with true in Hm. cbv iota in Hm.
    destruct (p_bh p) as [b|]; destruct (Z.eqb_spec 0 (ext_depth (x_inode s))) as [E|E]; try done; exfalso; [by apply Hroot in E|by apply E, Hroot]. }
  assert (ext_end ex <= EXT_MAX_BLOCKS) as He2 by lia.
  destruct (force_split_ok s p ups P sl Q len Hs Hu Hp Hroom Hmax H16 Hl He2 Hb) as (s' & n' & E1 & M & Hh' & Hs' & Hu' & Hk & He'). fold ex in E1, Hu'. exists s'. split; [exact E1|]. split; [exact M|].
  pose proof Hk as (_ & K2 & _ & K4). assert (entries n' <= eh_max (n_hdr n')) as Hfit' by (rewrite K2; lia). destruct (sealed_spec sb ext4_chksum (p_bh p) n' Hfit') as (Sk & Se & Su & Ss).
  assert (slot_extent <$> used n' = (slot_extent <$> P) ++ halves ex len ++ (slot_extent <$> Q)) as Ex.
  { rewrite Hu', fmap_app. cbn [fmap list_fmap halves app]. destruct (rest_spec ex len Hf2 Hl ltac:(lia) Hb) as (R1 & _). destruct (short_spec ex len Hf2) as (S1 & _); [lia|].
    rewrite (proj2 (extent_slot_ok _ S1)), (proj2 (extent_slot_ok _ R1)). done. }
  split; [eapply zip_keep; [apply M|done| |exact Hz]; intros b Hb' _; apply (mv_other _ _ _ _ M); set_solver|]. split; [|by rewrite Hh', Su, Hu'].
  assert (slot_extent <$> used (heap s' (p_bh p)) = (slot_extent <$> P) ++ halves ex len ++ (slot_extent <$> Q)) as Ex2 by (by rewrite Hh', Su).
  split; [|by split_and!]. unfold ExtZip.fine. rewrite Hh'. split; [auto|]. split; [unfold sized in *; destruct Sk as (_ & _ & _ & Sk4); congruence|].
  eapply sound_same; [apply M|apply M|]. eapply sound_again; [exact Hsound|exact Hk|done|intros Hd E0; apply Hd; by apply Hroot| |].
  - intros Hd. pose proof (ps_first _ _ _ _ _ _ Hsound Hd) as Hfirst. rewrite Hu in Hfirst. rewrite Hu'. by destruct P.
  - destruct (decide _); [|done]. rewrite Ex. eapply valid_leaf_intro; [exact H0|exact Hh|lia|exact Hx'|]. apply Forall_app; split; [done|]. apply Forall_app; split; [|done]. apply halves_valid; done.
Qed.
End part.
