(* ===== verification/ExtPunch.v ===== *)
(** [ext4_ext_remove_space] on a tree that is in order: exactly the blocks of the
    range are gone, and freed, and so are the blocks of the nodes that went. *)

From stdpp Require Import sorting.
From S2P Require Import Prelude Friend ExtStatus ExtInsert ExtRemove ExtOps ExtRecover SysZone ExtTree ExtLeaf ExtEdit ExtSplit ExtSpace ExtCheck ExtStep ExtCut ExtZip ExtCursor ExtWalk ExtGood ExtFind ExtPart.

(** The bound of the walk counts the blocks of the tree. *)
Lemma walk_cost_blocks disk d n : walk_cost disk d n = (1 + 2 * length (node_blocks disk d n))%nat.
Proof.
  revert n. induction d as [|d IH]; intros n; [done|]. cbn [walk_cost node_blocks]. f_equal. induction (used n) as [|sl l IHl]; [done|]. cbn [foldr]. rewrite IH, IHl.
  change ((sl :: l) ≫= ?f) with (f sl ++ (l ≫= f)). rewrite length_app. cbn [length]. lia.
Qed.

Section punch.
Context `{Hrb : RbTree}.
Variable sb : ext_sb.
Variable ext4_chksum : ext4_extent_header -> list ext_slot -> Z.
Variable env : edit_env.
Hypothesis Hq : quiet env.
Hypothesis Hbs : xs_blocksize sb <= 65536.
Hypothesis Hbits : s_cluster_bits (xs_es sb) = 0.
Hypothesis Hratio : bigalloc sb = false.
Hypothesis Hcount : s_blocks_count (xs_zones sb) <= 2 ^ 48.
Notation zip := (zip sb ext4_chksum).
Notation fine := (fine sb ext4_chksum).
Notation node_tree := (node_tree sb ext4_chksum).
Notation whole := (whole sb ext4_chksum).
Notation cursor := (cursor sb ext4_chksum).
Notation good_tree := (good_tree sb ext4_chksum (ed_tree env)).

(** ** The tree of an inode, as a shape *)

Lemma good_whole s : good_tree (x_inode s) -> whole s [] (depth_of (x_inode s)) None (tree_blocks (x_inode s)) (inode_exts (x_inode s)).
Proof.
  intros [[Hd Hn] Hroot Hread [Hz HZ] _]. assert (Z.of_nat (depth_of (x_inode s)) = ext_depth (x_inode s)) as Ed by (unfold depth_of; lia).
  pose proof (node_slots _ _ _ _ _ Hn) as Hs. assert (fine s None (depth_of (x_inode s)) 0) as Hf.
  { split; [exact Hs|]. split; [exact Hz|]. unfold ext4_ext_check_inode in Hroot. rewrite <- Ed in Hroot. apply passes_iff in Hroot as [? _]; [done|exact Hs]. }
  destruct (tree_shape sb ext4_chksum (ed_tree env) s (depth_of (x_inode s)) None 0 EXT_MAX_BLOCKS Hn Hf Hread) as (B & E & H); [lia|done|exact HZ|].
  destruct (node_tree_data _ _ _ _ _ _ _ _ _ H) as [-> ->]. apply Whole with 0 EXT_MAX_BLOCKS; [by constructor|exact H].
Qed.
Lemma whole_good s d B E : whole s [] d None B E -> NoDup B -> Z.of_nat d = ext_depth (x_inode s) -> Z.of_nat d <= EXT4_MAX_EXTENT_DEPTH -> (d <> 0%nat -> used (heap s None) <> []) ->
  good_tree (x_inode s) /\ tree_blocks (x_inode s) = B /\ inode_exts (x_inode s) = E.
Proof.
  intros [lo hi Hz Hn] Hnd Ed Hmax Hne. assert (depth_of (x_inode s) = d) as Edd by (unfold depth_of; lia). destruct (node_tree_data _ _ _ _ _ _ _ _ _ Hn) as [EB EE].
  unfold tree_blocks, inode_exts. rewrite Edd. split; [|by rewrite EB, EE]. pose proof (zip_bounds _ _ _ _ _ _ _ _ Hz) as (H0 & Hh & _).
  destruct (shape_tree sb ext4_chksum (ed_tree env) s d None lo hi B E (qt_read _ Hq) Hn Hne) as (H1 & H2 & H3). assert (fine s None d lo) as (Hs & Hsz & Hp) by (by destruct d, Hn).
  split.
  - split; [lia|]. rewrite Edd. eapply node_ok_lo; [by eapply node_ok_weaken|done].
  - unfold ext4_ext_check_inode. rewrite <- Ed. apply passes_iff; [done|]. split; [|intros Hu; destruct d; [done|by destruct Hne]].
    destruct Hp. split; try done.
  - by rewrite Edd.
  - split; [done|]. unfold tree_blocks. rewrite Edd. change (node_blocks (i_disk (x_inode s)) d (i_data (x_inode s))) with (node_blocks (i_disk (x_inode s)) d (heap s None)). by rewrite <- EB.
  - unfold tree_blocks. rewrite Edd. change (i_data (x_inode s)) with (heap s None). by rewrite <- EB.
Qed.

(** ** The stack for a path that was found *)

Lemma init_levels_ok s fs h bh lo hi : zip s fs h bh lo hi -> forall ups, Forall2 found_frame fs ups -> Forall (fun b => ext4_ext_space_root < b) (zblocks fs) ->
  exists ups', init_levels ups s = Ok (inr ups', s) /\ stack_of fs ups' /\ Forall2 goes_on fs ups'.
Proof.
  induction 1 as [h lo Hd H0|f fs h LO HI hi H IH (Hs & Hz & Hp) Hu HL HR Hlt]; intros ups Hst HB.
  { inversion Hst; subst. exists []. split; [done|]. split; constructor. }
  inversion Hst as [|? q ? ups0 [[Hqb Hqi] Hqp] Hst']; subst. cbn [zblocks] in HB. apply Forall_cons in HB as [Hb HB]. pose proof (used_length _ Hs) as Hl. rewrite Hu, length_app in Hl. cbn [length] in Hl.
  inversion Hst' as [|f2 q2 fs2 ups2 Hq2 Hst2]; subst.
  - exists [q]. split; [done|]. split; (constructor; [|constructor]); [done|]. assert (fr_bh f = None) as Ebh by (by inversion H). unfold goes_on. rewrite Hqp. rewrite Ebh in *. unfold sized in Hz. destruct Hs. lia.
  - destruct (IH (q2 :: ups2) Hst') as (ups' & E1 & S1 & G1); [by apply Forall_app in HB as [_ [_ ?]%Forall_app]|].
    eexists (_ :: ups'). split; [|split; [constructor; [|exact S1]|constructor; [|exact G1]]].
    + change (init_levels (q :: q2 :: ups2)) with (n ← get_node (p_bh q); ups ← init_levels (q2 :: ups2); mret (ExtPath (entries n + 1) (p_depth q) (p_ext q) (p_idx q) (p_bh q) :: ups)).
      rewrite get_node_ok, (bind_ok _ _ _ _ _ E1). done.
    + done.
    + unfold goes_on. cbn [p_block]. rewrite Hqb. destruct Hs. lia.
Qed.

(** ** The walk *)

Variables start end_ : Z.
Hypothesis Hse : 0 <= start <= end_.
Hypothesis H32 : start < 2 ^ 32.
Notation rm_loop := (rm_loop sb ext4_chksum env).

(** A walk from a leaf that was found. *)
Lemma walk_leaf depth s fs p ups E P Q : whole s fs 0 (p_bh p) [] E -> stack_of fs ups -> Forall2 goes_on fs ups -> NoDup (zblocks fs) -> steady sb depth s ->
  used (heap s (p_bh p)) = P ++ Q -> p_ext p = Some (Z.of_nat (length P) - 1) \/ (p_ext p = None /\ Q = []) -> Forall (ends_in end_) (slot_extent <$> P) ->
  Forall (fun ex => outside start end_ ex = true) (slot_extent <$> Q) -> end_ <> EXT_MAX_BLOCKS - 1 \/ Q = [] -> Forall (fun e => ext_end e <= end_ + 1) (zleft fs) ->
  exists n s' d' B', (n <= 2 * length (zblocks fs) + 4)%nat /\ (forall fuel, rm_loop (n + fuel) depth start end_ (p :: ups) s = Ok (inr tt, s')) /\
    whole s' [] d' None B' (cut start end_ (zleft fs) ++ cut start end_ E ++ zright fs) /\ accounts s s' (zblocks fs) B' (gone start end_ (zleft fs) ++ gone start end_ E).
Proof.
  intros Hw Hst Hgo Hnd Hsy Hu Hpe HP HQ Hend HZ. pose proof Hw as [lo hi Hz _]. destruct fs as [|f fs].
  - inversion Hst; subst. inversion Hz as [? ? Hd _ Hb|]; subst. pose proof (sy_depth _ _ _ Hsy) as Hsd.
    destruct (rm_leaf_ok sb ext4_chksum env Hq Hbs Hbits start end_ Hse s [] p [] E P Q) as (s2 & fs2 & calls & E1 & Hw2 & M & Hfr & Hsf & _); try done; [apply Hsy..|].
    inversion Hsf; subst. rewrite <- H in Hw2, E1. exists 1%nat, s2, 0%nat, []. split; [cbn; lia|]. split; [|split].
    + intros fuel. cbn [Nat.add ExtSpace.rm_loop length]. destruct (Nat.eqb_spec 0 depth); [|lia]. rewrite (bind_ok _ _ s tt s2); [by destruct fuel|]. rewrite E1. rewrite (bool_decide_false (None <> None)) by auto. by rewrite andb_false_r.
    + cbn [zleft zright app]. by rewrite app_nil_r.
    + by eapply accounts_moved.
  - inversion Hst as [|? q ? ups' [Hqb Hqi] Hst']; subst. inversion Hgo as [|? ? ? ? Hg Hgo']; subst. apply Forall_app in HZ as [HZ1 HZ2].
    destruct (leaf_visit sb ext4_chksum env Hq Hbs Hbits start end_ Hse H32 depth s f fs p (q :: ups') E P Q) as (s1 & fs1 & C & BC & Hrun & Hsf & Hcur & HC & HlC & Hac); try done.
    destruct (same_frames_blocks _ _ Hsf) as (Eb & El & Er & _). rewrite <- Hqb in Hcur. pose proof Hcur as [lo2 mid2 hi2 Hz2 (Hs2 & _) Hu2 _ _]. pose proof (used_length _ Hs2) as Hl2. rewrite Hu2, !length_app in Hl2. unfold goes_on in Hg.
    assert (accounts s s1 (zblocks (f :: fs)) (zblocks fs ++ fr_BL f ++ BC ++ fr_BR f) (gone start end_ E)) as Hac1.
    { eapply accounts_perm; [exact (accounts_frame _ _ _ _ _ (fr_BL f ++ fr_BR f ++ zblocks fs) Hac)|cbn [zblocks]; solve_Permutation|solve_Permutation|done]. }
    destruct (climb sb ext4_chksum env Hq Hbs Hbits start end_ Hse H32 depth ups' fs1 s1 0 (fr_left f) (C ++ fr_right f) (fr_BL f) (fr_EL f) (BC ++ fr_BR f) _ q Hcur) as (n & s2 & d' & B' & Hn & Hrun2 & Hw2 & Hac2).
    + by eapply stack_same.
    + by eapply goes_on_same.
    + rewrite Eb. by eapply accounts_nodup.
    + eapply steady_side; [apply Hac1|done].
    + unfold next_of. by rewrite Hqi.
    + unfold next_of. rewrite Hqi. cbn [set_p_idx p_block]. destruct Hs2. lia.
    + rewrite El. by apply Forall_app.
    + rewrite Eb, El, Er in *. exists (1 + n)%nat, s2, d', B'. split; [cbn [zblocks length]; rewrite !length_app in *; lia|]. split; [intros fuel; rewrite <- Nat.add_assoc, Hrun; apply Hrun2|]. cbn [zleft zright]. split.
      * rewrite <- !app_assoc in Hw2. exact Hw2.
      * eapply accounts_perm; [exact (accounts_trans _ _ _ _ _ _ _ _ Hac1 Hac2)|done|done|apply Permutation_app_comm].
Qed.

(** A walk from the root, over everything. *)
Lemma walk_root depth s B E : whole s [] depth None B E -> NoDup B -> steady sb depth s -> Forall (fun e => ext_end e <= end_ + 1) E ->
  exists n s' d' B', (n <= 2 * length B + 4)%nat /\ (forall fuel, rm_loop (n + fuel) depth start end_ [ExtPath 0 (Z.of_nat depth) None None None] s = Ok (inr tt, s')) /\
    whole s' [] d' None B' (cut start end_ E) /\ accounts s s' B B' (gone start end_ E).
Proof.
  intros Hw Hnd Hsy HE. set (p := ExtPath 0 (Z.of_nat depth) None None None). change None with (p_bh p) in Hw. destruct depth as [|d].
  - pose proof Hw as [lo hi _ (_ & -> & Ex & _)]. rewrite Ex in HE.
    destruct (walk_leaf 0 s [] p [] E (used (heap s (p_bh p))) []) as (n & s' & d' & B' & Hn & Hrun & Hw' & Hac); try done; try (by constructor); first [by rewrite app_nil_r|by right|idtac].
    + eapply Forall_impl; [exact HE|]. intros e He. by right.
    + cbn [zleft zright app] in Hw'. rewrite app_nil_r in Hw'. exists n, s', d', B'. split; [done|]. split; [exact Hrun|]. by split.
  - pose proof (whole_cursor _ _ _ _ _ _ _ _ Hw) as Hc. pose proof Hc as [lo mid hi Hz (Hs & _) _ _ _]. pose proof (used_length _ Hs) as Hl.
    destruct (climb sb ext4_chksum env Hq Hbs Hbits start end_ Hse H32 (S d) [] [] s d (used (heap s (p_bh p))) [] B E [] [] p Hc) as (n & s' & d' & B' & Hn & Hrun & Hw' & Hac); try done; try (by constructor); try (by rewrite app_nil_r).
    + cbn [next_of p_idx p set_p_idx]. f_equal. destruct Hs. lia.
    + cbn [next_of p_idx p_block p set_p_idx]. lia.
    + cbn [zleft zright zblocks app] in *. rewrite !app_nil_r in *. exists n, s', d', B'. split; [lia|]. split; [exact Hrun|]. by split.
Qed.

(** ** One pass *)

(** What is the case afterwards: [g] are the blocks of data that were freed. *)
Record removed (s s' : edit_state) (E : list ext4_extent) (g : list Z) : Prop := {
  rv_good : good_tree (x_inode s');
  rv_exts : inode_exts (x_inode s') = E;
  rv_ino : i_ino (x_inode s') = i_ino (x_inode s);
  rv_es : i_es (x_inode s') = i_es (x_inode s);
  rv_credits : x_credits s' = x_credits s;
  rv_freed : exists calls M, x_freed s' = x_freed s ++ calls /\ tree_blocks (x_inode s) ≡ₚ tree_blocks (x_inode s') ++ M /\ freed_blocks calls ≡ₚ g ++ M
}.

(** An empty root is a leaf again. *)
Lemma reset_root_ok s d B E : whole s [] d None B E -> used (heap s None) = [] ->
  exists s', reset_root sb ext4_chksum env s = Ok (inr tt, s') /\ good_tree (x_inode s') /\ tree_blocks (x_inode s') = [] /\ inode_exts (x_inode s') = [] /\
    i_ino (x_inode s') = i_ino (x_inode s) /\ i_es (x_inode s') = i_es (x_inode s) /\ x_freed s' = x_freed s /\ x_credits s' = x_credits s.
Proof.
  intros [lo hi Hz Hn] Hu. assert (fine s None d lo) as (Hs & Hsz & Hp) by (by destruct d, Hn). pose proof (used_length _ Hs) as Hl. rewrite Hu in Hl. cbn [length] in Hl.
  assert (entries (heap s None) = 0) as He by (destruct Hs; lia). set (n := heap s None) in *.
  set (n' := ExtNode (ExtentHeader (eh_magic (n_hdr n)) (eh_entries (n_hdr n)) ext4_ext_space_root 0 (eh_generation (n_hdr n))) (n_slots n) (n_tail n)). set (s' := set_inode s (set_node_of (x_inode s) None n')).
  assert (used n' = []) as Hu' by (unfold used; change (entries n') with (entries n); by rewrite He). assert (slots_ok n') as Hs' by (split; [exact (proj1 Hs)|by rewrite Hu']).
  assert (whole s' [] 0 None [] []) as Hw.
  { apply Whole with 0 EXT_MAX_BLOCKS; [by constructor|]. split; [|split; [done|split; [change (heap s' None) with n'; by rewrite Hu'|done]]].
    split; [exact Hs'|]. split; [exact Hsz|]. change (heap s' None) with n'. split; try done.
    - exact (ps_magic _ _ _ _ _ _ Hp).
    - change (entries n') with (entries n). rewrite He. done.
    - rewrite Hu'. done.
    - lia. }
  exists s'. split.
  - unfold reset_root. rewrite get_node_ok. rewrite (bind_ok _ _ s tt s') by done. unfold __ext4_ext_dirty, check. by rewrite (qt_dirty _ Hq).
  - destruct (whole_good s' 0 [] [] Hw) as (H1 & H2 & H3); try done. constructor.
Qed.

(** After the walk. *)
Lemma pass_end depth s s2 d B B' E g : whole s2 [] d None B' E -> accounts s s2 B B' g -> NoDup B -> steady sb depth s -> Z.of_nat depth <= EXT4_MAX_EXTENT_DEPTH -> B = tree_blocks (x_inode s) ->
  exists s', (n ← get_node None; if entries n =? 0 then reset_root sb ext4_chksum env else mret tt) s2 = Ok (inr tt, s') /\ removed s s' E g.
Proof.
  intros Hw Hac Hnd Hsy Hd ->. pose proof (accounts_nodup _ _ _ _ _ Hac Hnd) as Hnd'. destruct Hac as [Hside (calls & M & Hf & HB & Hg)]. rewrite get_node_ok.
  pose proof Hw as [lo hi Hz Hn]. assert (fine s2 None d lo) as (Hs & _) by (by destruct d, Hn). pose proof (used_length _ Hs) as Hl. destruct (node_tree_data _ _ _ _ _ _ _ _ _ Hn) as [EB EE].
  destruct (Z.eqb_spec (entries (heap s2 None)) 0) as [E0|E0].
  - assert (used (heap s2 None) = []) as Hu by (rewrite E0 in Hl; by destruct (used _)). destruct (reset_root_ok s2 d B' E Hw Hu) as (s' & E1 & Hg' & HB' & HE' & H1 & H2 & H3 & H4). exists s'. split; [exact E1|].
    assert (B' = [] /\ E = []) as [-> ->] by (rewrite EB, EE; destruct d; cbn [node_blocks tree_exts]; by rewrite Hu).
    split; [done|done|by rewrite H1, (sd_ino _ _ Hside)|by rewrite H2, (sd_es _ _ Hside)|by rewrite H4, (sd_credits _ _ Hside)|]. exists calls, M. rewrite HB'. split_and!; [congruence|done|done].
  - exists s2. split; [done|]. pose proof (zip_bounds _ _ _ _ _ _ _ _ Hz) as (_ & _ & [Hdep _] & _). specialize (Hdep eq_refl). pose proof (sd_depth _ _ Hside) as Hds. rewrite (sy_depth _ _ _ Hsy) in Hds.
    destruct (whole_good s2 d B' E Hw) as (H1 & H2 & H3); [done|done|lia|intros _ Hu; rewrite Hu in Hl; cbn [length] in Hl; destruct Hs; lia|].
    split; [done|done|by rewrite (sd_ino _ _ Hside)|by rewrite (sd_es _ _ Hside)|by rewrite (sd_credits _ _ Hside)|]. exists calls, M. rewrite H2. done.
Qed.

(** ** Where the range ends *)

(** A leaf with the path to it, when no extent goes on behind the range: the walk
    starts behind the extents [P]. *)
Record ready (s : edit_state) (fs : list frame) (p : ext4_ext_path) (lo hi : Z) (El : list ext4_extent) (P Q : list ext_slot) : Prop := {
  rd_zip : zip s fs 0 (p_bh p) lo hi;
  rd_leaf : node_tree s 0 (p_bh p) lo hi [] El;
  rd_used : used (heap s (p_bh p)) = P ++ Q;
  rd_ext : p_ext p = Some (Z.of_nat (length P) - 1);
  rd_full : P <> [];
  rd_P : Forall (ends_in end_) (slot_extent <$> P);
  rd_Q : Forall (fun e => end_ < ee_block e) (slot_extent <$> Q);
  rd_left : Forall (fun e => ext_end e <= end_ + 1) (zleft fs);
  rd_right : Forall (fun e => end_ < ee_block e) (zright fs)
}.
Lemma ready_ends s fs p lo hi El P Q : ready s fs p lo hi El P Q -> Forall (ends_in end_) (zleft fs ++ El ++ zright fs).
Proof.
  intros [_ (_ & _ & HE & _) Hu _ _ HP HQ HL HR]. rewrite HE, Hu, fmap_app. repeat (apply Forall_app; split); try done; (eapply Forall_impl; [eassumption|]); intros e He; [by right|by left..].
Qed.

(** The leaf that was found, around the extent the path goes to. *)
Record parts (s : edit_state) (p : ext4_ext_path) (El : list ext4_extent) (P : list ext_slot) (sl : ext_slot) (Q : list ext_slot) : Prop := {
  pt_used : used (heap s (p_bh p)) = P ++ sl :: Q;
  pt_ext : p_ext p = Some (Z.of_nat (length P));
  pt_at : slot_at (heap s (p_bh p)) (Z.of_nat (length P)) = Ok sl;
  pt_exts : El = (slot_extent <$> P) ++ slot_extent sl :: (slot_extent <$> Q);
  pt_P : Forall (ends_in end_) (slot_extent <$> P);
  pt_Q : Forall (fun e => end_ < ee_block e) (slot_extent <$> Q);
  pt_end : 0 < ext_end (slot_extent sl) <= EXT_MAX_BLOCKS
}.
Lemma path_parts s fs p lo hi El : path_at sb ext4_chksum s end_ fs p lo hi El -> used (heap s (p_bh p)) <> [] -> exists P sl Q, parts s p El P sl Q.
Proof.
  intros [Hz Hn _ _ _ [[_ Hu]|(P & sl & Q & Hu & Hp & Hle & HQ)]] Hne; [done|]. destruct Hn as ((Hs & _) & _ & HE & Hx). exists P, sl, Q. rewrite Hu, fmap_app in HE. cbn [fmap list_fmap] in HE.
  pose proof (zip_bounds _ _ _ _ _ _ _ _ Hz) as (H0 & Hh & _). destruct (exts_ok_elem _ _ _ (slot_extent sl) Hx) as (? & ? & ? & _); [rewrite HE; apply elem_of_app; right; left|].
  split; try done; [by eapply used_slot| |by apply Forall_fmap|unfold ext_end; lia].
  rewrite HE in Hx. apply exts_ok_app in Hx as (m & Hx1 & Hx2). cbn [exts_ok] in Hx2. apply Forall_forall. intros e He. right. destruct (exts_ok_elem _ _ _ e Hx1 He) as (_ & _ & ? & _).
  assert (sw0 sl <= end_) by (apply Hle; intros ->; by apply elem_of_nil in He). change (ee_block (slot_extent sl)) with (sw0 sl) in *. unfold ext_end. lia.
Qed.
Lemma found_beside s fs p lo hi El : path_at sb ext4_chksum s end_ fs p lo hi El -> Forall (fun e => ext_end e <= end_ + 1) (zleft fs) /\ Forall (fun e => end_ < ee_block e) (zright fs).
Proof. intros [_ _ HL HR _ _]. split; [|done]. eapply Forall_impl; [exact HL|]. cbn. lia. Qed.

(** No extent goes on behind the range. *)
Lemma ready_found s fs p lo hi El P sl Q : path_at sb ext4_chksum s end_ fs p lo hi El -> parts s p El P sl Q -> ends_in end_ (slot_extent sl) -> ready s fs p lo hi El (P ++ [sl]) Q.
Proof.
  intros Hp [Hu Hk _ Ex HP HQ _] He. destruct (found_beside _ _ _ _ _ _ Hp) as [HL HR]. pose proof Hp as [Hz Hn _ _ _ _]. split; try done.
  - by rewrite <- app_assoc.
  - rewrite Hk, length_app. cbn [length]. f_equal. lia.
  - by destruct P.
  - rewrite fmap_app. apply Forall_app. split; [done|]. by constructor.
Qed.

(** The extent that goes on behind the range is cut in two; its leaf has room. *)
Lemma ready_split s fs p ups lo hi El P sl Q : path_at sb ext4_chksum s end_ fs p lo hi El -> parts s p El P sl Q -> ~ ends_in end_ (slot_extent sl) -> NoDup (zblocks fs) ->
  own_zones (xs_zones sb) (i_ino (x_inode s)) -> entries (heap s (p_bh p)) < eh_max (n_hdr (heap s (p_bh p))) ->
  exists s' p' El' P', ext4_force_split_extent_at sb ext4_chksum env (p :: ups) (end_ + 1) true s = Ok (inr (p' :: ups), s') /\ moved [p_bh p] [] s s' /\ ready s' fs p' lo hi El' P' Q /\
    forall b, disk_map (zleft fs ++ El' ++ zright fs) b = disk_map (zleft fs ++ El ++ zright fs) b.
Proof.
  intros Hp [Hu Hk _ Ex HP HQ Hend] He Hnd Ho Hroom. destruct (found_beside _ _ _ _ _ _ Hp) as [HL HR]. pose proof Hp as [Hz Hn _ _ _ _]. set (ex := slot_extent sl) in *. unfold ends_in in He. set (len := end_ + 1 - ee_block ex).
  assert (0 < len < ext_len ex) as Hl by (unfold len, ext_end in *; lia). rewrite Ex in Hn. destruct (part_tree_ok sb ext4_chksum env Hq Hbs Hcount s fs p ups lo hi P sl Q len) as (s' & E1 & M & Hz' & Hn' & Hu'); try done. fold ex in E1, Hn', Hu'.
  replace (ee_block ex + len) with (end_ + 1) in E1 by (unfold len; lia). pose proof Hn as (Hfine & _ & _ & Hx). destruct (fine_exts sb ext4_chksum s _ _ Hfine) as [Hv Hf]. rewrite Hu, fmap_app in Hv, Hf. cbn [fmap list_fmap] in Hv, Hf.
  apply Forall_app in Hv as [_ [Hv _]%Forall_cons]. apply Forall_app in Hf as [_ [Hf _]%Forall_cons]. fold ex in Hv, Hf. pose proof (valid_bound sb Hcount _ ex Ho Hf ltac:(lia) Hv) as Hb. pose proof (zip_bounds _ _ _ _ _ _ _ _ Hz) as (_ & Hh & _).
  destruct (halves_ok lo _ ex _ hi len Hf Hl Hh Hb Hx) as [_ HM]. destruct (rest_spec ex len Hf Hl ltac:(lia) Hb) as (R1 & R2 & _). destruct (short_spec ex len Hf) as (S1 & S2 & _); [lia|].
  exists s', (set_p_ext p (Some (Z.of_nat (length P) + 1))), ((slot_extent <$> P) ++ halves ex len ++ (slot_extent <$> Q)), (P ++ (extent_slot <$> halves ex len)).
  split; [exact E1|]. split; [exact M|]. split; [split; try done; cbn [set_p_ext p_bh p_ext]|].
  - by rewrite <- app_assoc.
  - rewrite length_app. cbn. f_equal. lia.
  - by destruct P.
  - rewrite fmap_app. apply Forall_app. split; [done|]. cbn [fmap list_fmap halves]. rewrite (proj2 (extent_slot_ok _ S1)), (proj2 (extent_slot_ok _ R1)). apply Forall_cons. split; [right; unfold ext_end; rewrite S2; cbn [short ee_block]; unfold len; lia|]. apply Forall_cons. split; [left; rewrite R2; unfold len; lia|done].
  - intros b. rewrite Ex, !disk_map_app. do 2 f_equal. specialize (HM b). by rewrite !disk_map_app in HM.
Qed.

(** The leaf of a path is one of the leaves of the tree. *)
Lemma zip_leaves s fs h bh lo hi n : zip s fs h bh lo hi -> n ∈ node_leaves (i_disk (x_inode s)) h (heap s bh) -> n ∈ node_leaves (i_disk (x_inode s)) (h + length fs) (heap s None).
Proof.
  intros H. revert n. induction H as [h lo _ _|f fs h LO HI hi H IH _ Hu _ _ _]; intros n Hn; [by rewrite Nat.add_0_r|]. cbn [length]. rewrite Nat.add_succ_r. apply (IH n). cbn [node_leaves]. rewrite Hu.
  apply list_elem_of_bind. exists (fr_slot f). split; [exact Hn|]. apply elem_of_app. right. left.
Qed.
(** From a leaf back to the whole tree. *)
Lemma whole_root s fs d bh B E : whole s fs d bh B E -> (fs <> [] -> used (heap s bh) <> []) -> exists B', B' ≡ₚ zblocks fs ++ B /\ whole s [] (d + length fs) None B' (zleft fs ++ E ++ zright fs).
Proof.
  revert d bh B E. induction fs as [|f fs IH]; intros d bh B E Hw Hne.
  - exists B. split; [done|]. cbn [length zleft zright app]. rewrite Nat.add_0_r, app_nil_r. destruct Hw as [lo hi Hz Hn]. inversion Hz; subst. by apply Whole with lo EXT_MAX_BLOCKS.
  - destruct (whole_up _ _ _ _ _ _ _ _ _ Hw (Hne ltac:(done))) as [_ Hc]. pose proof (cursor_whole _ _ _ _ _ _ _ _ _ (cursor_right _ _ _ _ _ _ _ _ _ _ _ _ Hc)) as Hw'.
    destruct (IH _ _ _ _ Hw') as (B' & HB & Hr). { intros _. destruct Hc as [? ? ? _ _ -> _ _]. by destruct (fr_left f). }
    exists B'. split; [rewrite HB; cbn [zblocks]; solve_Permutation|]. cbn [length zleft zright]. rewrite Nat.add_succ_r. by rewrite <- !app_assoc in *.
Qed.

(** What a split of an extent leaves of the list of extents. *)
Record resplit (E E1 : list ext4_extent) : Prop := {
  rs_ends : Forall (ends_in end_) E1;
  rs_map : forall b, disk_map E1 b = disk_map E b;
  rs_ok : exts_ok 0 E1 EXT_MAX_BLOCKS;
  rs_fits : Forall ext_fits E1
}.
Lemma whole_exts s d B E : whole s [] d None B E -> exts_ok 0 E EXT_MAX_BLOCKS /\ Forall ext_fits E.
Proof.
  intros [lo hi Hz Hn]. pose proof (zip_bounds _ _ _ _ _ _ _ _ Hz) as (H0 & Hh & _). split; [|by eapply node_tree_fits]. eapply exts_ok_weaken; [by eapply node_tree_exts|done|done].
Qed.
Lemma ready_resplit s fs p lo hi El P Q E : ready s fs p lo hi El P Q -> (forall b, disk_map (zleft fs ++ El ++ zright fs) b = disk_map E b) -> resplit E (zleft fs ++ El ++ zright fs).
Proof.
  intros Hr HM. pose proof (ready_ends _ _ _ _ _ _ _ _ Hr) as He. destruct Hr as [Hz Hn Hu _ Hfull _ _ _ _].
  destruct (whole_root s fs 0 (p_bh p) [] El) as (B1 & _ & Hw); [by apply Whole with lo hi|intros _ Hx; rewrite Hx in Hu; by destruct P|]. destruct (whole_exts _ _ _ _ Hw). by split.
Qed.
(** [find_end] gets ready for the walk, or there is nothing. *)
Inductive end_result (s s1 : edit_state) (B : list Z) (E : list ext4_extent) : option (list ext4_ext_path) -> Prop :=
| end_none : moved [] [] s s1 -> E = [] -> end_result s s1 B E None
| end_ready p ups fs lo hi El P Q : ready s1 fs p lo hi El P Q -> Forall2 found_frame fs ups -> zblocks fs ≡ₚ B -> accounts s s1 B B [] -> resplit E (zleft fs ++ El ++ zright fs) ->
    end_result s s1 B E (Some (p :: ups)).

Lemma find_end_ok s B E : whole s [] (Z.to_nat (ext_depth (x_inode s))) None B E -> 0 <= ext_depth (x_inode s) <= EXT4_MAX_EXTENT_DEPTH -> NoDup B -> (0 < ext_depth (x_inode s) -> used (heap s None) <> []) ->
  own_zones (xs_zones sb) (i_ino (x_inode s)) -> Forall (leaf_room end_) (tree_leaves (x_inode s)) -> end_ < EXT_MAX_BLOCKS - 1 ->
  exists s1 r, find_end sb ext4_chksum env start end_ s = Ok (inr r, s1) /\ end_result s s1 B E r.
Proof.
  intros Hw Hd Hnd Hne Ho Hroom Hlt. destruct (find_extent_at sb ext4_chksum env Hq s end_ (Z.lor EXT4_EX_NOCACHE EXT4_EX_NOFAIL) B E) as (s1 & up & Ef & p & ups & fs & lo & hi & El & -> & Hp & Hfr & M & HB & HEl); try done; [lia|].
  rewrite app_nil_r in Hp, HB, HEl. cbn [zblocks zleft zright app] in HB, HEl. rewrite app_nil_r in HEl. unfold find_end. rewrite (bind_ok _ _ _ _ _ Ef).
  assert (accounts s s1 B B []) as Hac by (eapply (accounts_moved [] []); [exact M|done]). assert (NoDup (zblocks fs)) as Hnd1 by (by rewrite HB).
  destruct (decide (used (heap s1 (p_bh p)) = [])) as [Hu|Hu].
  - pose proof Hp as [_ Hn _ _ Hfull Hslot]. destruct fs as [|f fs]; [|by destruct (Hfull ltac:(done))]. inversion Hfr; subst ups. destruct Hslot as [[-> _]|(l1 & sl & l2 & Hx & _)]; [|rewrite Hu in Hx; by destruct l1].
    exists s1, None. split; [done|]. constructor; [done|]. destruct Hn as (_ & _ & -> & _). rewrite Hu in HEl. exact (eq_sym HEl).
  - destruct (path_parts _ _ _ _ _ _ Hp Hu) as (P & sl & Q & Hpt). pose proof Hpt as [Eu -> Hat Ex HP HQ Hend]. rewrite (bind_ok _ _ _ _ _ (get_slot_ok _ _ _ _ Hat)).
    assert (u32 (ee_block (slot_extent sl) + ext_len (slot_extent sl) - 1) = ext_end (slot_extent sl) - 1) as -> by (unfold u32; rewrite wrap_small; unfold ext_end, EXT_MAX_BLOCKS in *; lia).
    destruct ((ee_block (slot_extent sl) <=? end_) && (end_ <? ext_end (slot_extent sl) - 1)) eqn:Ec.
    + apply andb_true_iff in Ec as [E1%Z.leb_le E2%Z.ltb_lt]. rewrite Hratio, ret_ok. assert (~ ends_in end_ (slot_extent sl)) as Hx by (intros [?|?]; lia).
      destruct (ready_split s1 fs p ups lo hi El P sl Q Hp Hpt Hx Hnd1) as (s2 & p' & El' & P' & Es & M2 & Hr & HM); [by rewrite (sd_ino _ _ (mv_side _ _ _ _ M))| |].
      { pose proof Hp as [Hz _ _ _ _ _]. pose proof (zip_leaves s1 fs 0 (p_bh p) lo hi (heap s1 (p_bh p)) Hz ltac:(by left)) as Hin. pose proof (zip_bounds _ _ _ _ _ _ _ _ Hz) as (_ & _ & _ & Hdep).
        rewrite (sd_depth _ _ (mv_side _ _ _ _ M)) in Hdep. unfold tree_leaves, depth_of in Hroom. replace (0 + length fs)%nat with (Z.to_nat (ext_depth (x_inode s))) in Hin by lia.
        rewrite (leaves_ext (i_disk (x_inode s1)) (i_disk (x_inode s))) in Hin by (intros b; apply (mv_other _ _ _ _ M (Some b)); set_solver).
        rewrite (mv_other _ _ _ _ M None) in Hin by set_solver. rewrite Forall_forall in Hroom. destruct (Hroom _ Hin) as [?|Hf]; [done|]. exfalso. apply Hx. rewrite Forall_forall in Hf. apply Hf. rewrite Eu.
        apply list_elem_of_fmap_2, elem_of_app. right. left. }
      exists s2, (Some (p' :: ups)). split; [unfold u32; rewrite wrap_small by (unfold EXT_MAX_BLOCKS in *; lia); by rewrite (bind_ok _ _ _ _ _ Es)|].
      apply (end_ready s s2 B E p' ups fs lo hi El' P' Q); try done; [eapply (accounts_trans _ _ _ _ _ _ [] []); [exact Hac|by eapply accounts_moved]|]. eapply ready_resplit; [exact Hr|]. intros b. by rewrite HM, HEl.
    + exists s1, (Some (p :: ups)). rewrite Hratio. split; [done|]. pose proof (ready_found s1 fs p lo hi El P sl Q Hp Hpt) as Hr.
      assert (ends_in end_ (slot_extent sl)) as Hx by (apply andb_false_iff in Ec as [?%Z.leb_gt|?%Z.ltb_ge]; [by left|right; lia]). specialize (Hr Hx).
      apply (end_ready s s1 B E p ups fs lo hi El (P ++ [sl]) Q); try done. eapply ready_resplit; [exact Hr|]. by rewrite HEl.
Qed.

(** ** The whole pass *)

(** What is asked of the tree for a pass. *)
Record removable (s : edit_state) : Prop := {
  rm_tree : good_tree (x_inode s);
  rm_zones : own_zones (xs_zones sb) (i_ino (x_inode s));
  rm_high : Forall (fun b => ext4_ext_space_root < b) (tree_blocks (x_inode s));
  rm_room : Forall (leaf_room end_) (tree_leaves (x_inode s))
}.

Lemma removable_steady s : removable s -> plain s -> steady sb (depth_of (x_inode s)) s.
Proof. intros [[[Hd _] _ _ _ _] Hz _ _] Hp. split; [unfold depth_of; lia|done|done]. Qed.
Lemma removable_root s : removable s -> 0 < ext_depth (x_inode s) -> used (heap s None) <> [].
Proof. intros [[[Hd Hn] _ _ _ _] _ _ _] H. destruct (depth_of (x_inode s)) eqn:E; [unfold depth_of in E; lia|]. by destruct Hn as (_ & ? & _). Qed.

(** The pass when the range ends before the last block. *)
Lemma pass_found s1 p ups fs lo hi El P Q depth : ready s1 fs p lo hi El P Q -> Forall2 found_frame fs ups -> NoDup (zblocks fs) -> Forall (fun b => ext4_ext_space_root < b) (zblocks fs) ->
  steady sb depth s1 -> end_ < EXT_MAX_BLOCKS - 1 ->
  exists ups', init_levels ups s1 = Ok (inr ups', s1) /\ exists n s' d' B', (n <= 2 * length (zblocks fs) + 4)%nat /\ (forall fuel, rm_loop (n + fuel) depth start end_ (p :: ups') s1 = Ok (inr tt, s')) /\
    whole s' [] d' None B' (cut start end_ (zleft fs ++ El ++ zright fs)) /\ accounts s1 s' (zblocks fs) B' (gone start end_ (zleft fs ++ El ++ zright fs)).
Proof.
  intros [Hz Hn Hu Hpe _ HP HQ HL HR] Hfr Hnd HB Hsy Hend. destruct (init_levels_ok s1 fs 0 (p_bh p) lo hi Hz ups Hfr HB) as (ups' & Ei & Hst & Hgo). exists ups'. split; [exact Ei|].
  assert (forall l, Forall (fun e => end_ < ee_block e) l -> Forall (fun ex => outside start end_ ex = true) l) as Hout by (intros l Hl; eapply Forall_impl; [exact Hl|]; cbn; intros e He; unfold outside; by rewrite (proj2 (Z.ltb_lt _ _))).
  destruct (walk_leaf depth s1 fs p ups' El P Q) as (n & s' & d' & B' & Hle & Hrun & Hw & Hac); try done; [by apply Whole with lo hi|by left|by apply Hout|left; lia|].
  exists n, s', d', B'. split; [done|]. split; [exact Hrun|]. destruct (cut_outside _ _ _ (Hout _ HR)) as [E1 E2]. rewrite !cut_app, !gone_app, E1, E2, app_nil_r. by split.
Qed.

(** From the walk to the end of the pass. *)
Definition pass_rest (depth : nat) (stk : list ext4_ext_path) : edit unit :=
  i ← gets x_inode;
  res ← try (rm_loop (2 * walk_cost (i_disk i) depth (i_data i) + 2)%nat depth start end_ stk);
  pc ← gets x_partial;
  (match res with
   | inr _ => if bool_decide (pc_state pc = tofree) then free_partial sb env ≫= fun _ => reset_partial else mret tt
   | inl _ => mret tt
   end) ≫= fun _ =>
  n ← get_node None;
  if entries n =? 0 then reset_root sb ext4_chksum env
  else match res with inl err => fail err | inr _ => mret tt end.

Lemma pass_rest_ok s s1 depth stk B B1 B' E1 E' g n s2 d' : steady sb depth s -> accounts s s1 B B [] -> whole s1 [] depth None B1 E1 -> B1 ≡ₚ B -> (n <= 2 * length B + 4)%nat ->
  (forall fuel, rm_loop (n + fuel) depth start end_ stk s1 = Ok (inr tt, s2)) -> whole s2 [] d' None B' E' -> accounts s1 s2 B B' g -> NoDup B -> Z.of_nat depth <= EXT4_MAX_EXTENT_DEPTH -> B = tree_blocks (x_inode s) ->
  exists s', pass_rest depth stk s1 = Ok (inr tt, s') /\ removed s s' E' g.
Proof.
  intros Hsy Hac1 [lo hi _ Hn1] HB1 Hle Hrun Hw2 Hac Hnd Hd HB. pose proof (accounts_trans _ _ _ _ _ _ _ _ Hac1 Hac) as Hac2. destruct (pass_end depth s s2 d' B B' E' g) as (s' & E2 & Hrm); try done. exists s'. split; [|done].
  destruct (node_tree_data _ _ _ _ _ _ _ _ _ Hn1) as [EB _]. change (heap s1 None) with (i_data (x_inode s1)) in EB.
  unfold pass_rest. rewrite gets_ok. rewrite (try_ok _ _ _ tt s2); [|rewrite walk_cost_blocks, <- EB, HB1; replace (2 * (1 + 2 * length B) + 2)%nat with (n + (2 * (1 + 2 * length B) + 2 - n))%nat by lia; apply Hrun].
  rewrite gets_ok. destruct (plain_side s s2) as [Hp2 _]; [apply Hac2|apply Hsy|]. rewrite Hp2. rewrite (bool_decide_false (initial = tofree)) by done. rewrite ret_ok. exact E2.
Qed.

(** A pass that finds no extents. *)
Lemma pass_nothing s s1 B : removable s -> whole s [] (depth_of (x_inode s)) None B [] -> B = tree_blocks (x_inode s) -> moved [] [] s s1 -> removed s s1 [] [].
Proof.
  intros Hr Hw -> M. pose proof (removable_root s Hr) as Hne. pose proof Hr as [[[Hd _] _ _ _ Hnd] _ _ _]. assert (Z.of_nat (depth_of (x_inode s)) = ext_depth (x_inode s)) as Edep by (unfold depth_of; lia).
  assert (whole s1 [] (depth_of (x_inode s)) None (tree_blocks (x_inode s)) []) as Hw1 by (eapply whole_keep; [exact M|constructor|exact Hw]).
  pose proof (mv_side _ _ _ _ M) as Hside. assert (forall b, heap s1 b = heap s b) as Hh by (intros b; apply (mv_other _ _ _ _ M); set_solver).
  destruct (whole_good s1 _ _ _ Hw1) as (G1 & G2 & G3); [done|by rewrite (sd_depth _ _ Hside)|lia|intros Hdn; rewrite Hh; apply Hne; lia|].
  split; [done|done|apply Hside|apply Hside|apply Hside|]. exists [], []. rewrite (mv_freed _ _ _ _ M), G2, !app_nil_r. done.
Qed.

(** What a pass does to the extents. *)
Definition pass_result (s s' : edit_state) : Prop :=
  exists E1, resplit (inode_exts (x_inode s)) E1 /\ removed s s' (cut start end_ E1) (gone start end_ E1).

(** The pass to the last block there may be. *)
Lemma pass_last s : removable s -> plain s -> EXT_MAX_BLOCKS - 1 <= end_ -> exists s', pass_rest (depth_of (x_inode s)) [ExtPath 0 (Z.of_nat (depth_of (x_inode s))) None None None] s = Ok (inr tt, s') /\ pass_result s s'.
Proof.
  intros Hr Hp Hge. pose proof (removable_steady s Hr Hp) as Hsy. pose proof Hr as [Hg _ _ _]. pose proof (good_whole s Hg) as Hw. pose proof Hg as [[Hd _] _ _ _ Hnd].
  assert (Forall (fun e => ext_end e <= end_ + 1) (inode_exts (x_inode s))) as He.
  { destruct Hw as [lo hi Hz0 Hn]. pose proof (zip_bounds _ _ _ _ _ _ _ _ Hz0) as (_ & Hh & _). apply Forall_forall. intros e He. destruct (exts_ok_elem _ _ _ e (node_tree_exts _ _ _ _ _ _ _ _ _ Hn) He) as (_ & _ & ? & _). unfold ext_end. lia. }
  destruct (walk_root _ s _ _ Hw Hnd Hsy He) as (n & s2 & d' & B' & Hle & Hrun & Hw2 & Hac).
  destruct (pass_rest_ok s s _ [ExtPath 0 (Z.of_nat (depth_of (x_inode s))) None None None] _ _ _ _ _ _ n s2 d' Hsy (accounts_refl _ _) Hw ltac:(done) Hle Hrun Hw2 Hac Hnd) as (s' & E & H); [unfold depth_of; lia|done|].
  exists s'. split; [exact E|]. exists (inode_exts (x_inode s)). split; [|done]. destruct (whole_exts _ _ _ _ Hw). split; try done. eapply Forall_impl; [exact He|]. intros e ?. by right.
Qed.

Lemma pass_ok s : removable s -> plain s -> exists s', remove_pass sb ext4_chksum env start end_ s = Ok (inr tt, s') /\ pass_result s s'.
Proof.
  intros Hr Hp. pose proof (removable_steady s Hr Hp) as Hsy. pose proof (removable_root s Hr) as Hne. pose proof Hr as [Hg Hz HB HE]. pose proof (good_whole s Hg) as Hw. pose proof Hg as [[Hd _] Hroot _ _ Hnd].
  assert (Z.of_nat (depth_of (x_inode s)) = ext_depth (x_inode s)) as Edep by (unfold depth_of; lia). unfold remove_pass. destruct (Z.ltb_spec end_ (EXT_MAX_BLOCKS - 1)) as [Hlt|Hge].
  - destruct (find_end_ok s _ _ Hw Hd Hnd Hne Hz HE Hlt) as (s1 & r & Ef & Hres). rewrite (bind_ok _ _ s (Some r) s1) by (by rewrite (bind_ok _ _ _ _ _ Ef)).
    destruct Hres as [M HE0|p ups fs lo hi El P Q Hrd Hfr HBf Hac1 Hsp].
    + exists s1. split; [done|]. exists []. rewrite HE0 in *. split; [by split; try constructor|]. by apply (pass_nothing s s1 _ Hr Hw).
    + assert (steady sb (depth_of (x_inode s)) s1) as Hsy1 by (eapply steady_side; [apply Hac1|done]). rewrite <- HBf in Hnd, HB.
      destruct (pass_found s1 p ups fs lo hi El P Q _ Hrd Hfr Hnd HB Hsy1 Hlt) as (ups' & Ei & n & s2 & d' & B' & Hle & Hrun & Hw2 & Hac). rewrite HBf in Hle, Hnd.
      rewrite gets_ok. rewrite (bind_ok _ _ s1 (p :: ups') s1); [|by rewrite (bind_ok _ _ _ _ _ Ei)]. replace (Z.to_nat (ext_depth (x_inode s1))) with (depth_of (x_inode s)) by (rewrite (sy_depth _ _ _ Hsy1); lia).
      pose proof Hrd as [Hz1 Hn1 Hu1 _ Hfull _ _ _ _]. destruct (whole_root s1 fs 0 (p_bh p) [] El) as (B1 & HB1 & Hw1); [by apply Whole with lo hi|intros _ Hx; rewrite Hx in Hu1; by destruct P|].
      pose proof (zip_length sb ext4_chksum _ _ _ _ _ _ _ Hsy1 Hz1) as Elen. rewrite Elen in Hw1. rewrite app_nil_r in HB1.
      destruct (pass_rest_ok s s1 (depth_of (x_inode s)) (p :: ups') _ B1 B' _ _ (gone start end_ (zleft fs ++ El ++ zright fs)) n s2 d' Hsy Hac1 Hw1 ltac:(by rewrite HB1, HBf) Hle Hrun Hw2) as (s' & E2 & Hrm); [by eapply accounts_perm|done|lia|done|].
      exists s'. split; [exact E2|]. by exists (zleft fs ++ El ++ zright fs).
  - rewrite ret_ok, gets_ok. destruct (pass_last s Hr Hp Hge) as (s' & E & H). exists s'. split; [|done].
    rewrite (qt_alloc _ Hq). cbn [negb]. unfold ext4_ext_check_inode in Hroot. rewrite Hroot. change (negb (0 =? 0)) with false. cbv iota. rewrite ret_ok, <- Edep. replace (Z.to_nat (Z.of_nat (depth_of (x_inode s)))) with (depth_of (x_inode s)) by lia. exact E.
Qed.

(** [ext4_ext_remove_space] as a whole. *)
Lemma remove_space_ok s : removable s -> x_credits s = [] -> exists s', ext4_ext_remove_space sb ext4_chksum env start end_ s = Ok (inr tt, s') /\ pass_result s s'.
Proof.
  intros Hr Hc. set (s0 := set_partial s (PartialCluster 0 0 initial)). destruct (pass_ok s0) as (s' & E & E1 & Hsp & [H1 H2 H3 H4 H5 H6]); [by destruct Hr|done|].
  exists s'. split; [|by exists E1]. unfold ext4_ext_remove_space. rewrite (bind_ok _ _ s tt s0) by done. rewrite (qt_start _ Hq). change (negb (0 =? 0)) with false. cbv iota. rewrite gets_ok. cbn [remove_rounds].
  by rewrite (try_ok _ _ _ _ _ E).
Qed.
End punch.

(** ** The promise *)

(** A file system without clusters, with blocks of at most 64k that 48 bits count, on
    which the inode has no blocks of system zones. *)
Record plain_fs (sb : ext_sb) (ino : Z) : Prop := {
  pf_blocksize : xs_blocksize sb <= 65536;
  pf_count : s_blocks_count (xs_zones sb) <= 2 ^ 48;
  pf_bits : s_cluster_bits (xs_es sb) = 0;
  pf_ratio : s_cluster_ratio (xs_es sb) <= 1;
  pf_zones : own_zones (xs_zones sb) ino
}.

(** Everything but the blocks from [start] to [end_] is as it was. *)
Record punched (sb : ext_sb) (chk : ext4_extent_header -> list ext_slot -> Z) (env : ext_env) (start end_ : Z) (s s' : edit_state) : Prop := {
  pu_map : forall b, file_map (x_inode s') b = if decide (start <= b <= end_) then None else file_map (x_inode s) b;
  pu_good : good_tree sb chk env (x_inode s');
  pu_ino : i_ino (x_inode s') = i_ino (x_inode s);
  pu_es : i_es (x_inode s') = i_es (x_inode s);
  pu_credits : x_credits s' = x_credits s;
  pu_freed : exists calls nodes, x_freed s' = x_freed s ++ calls /\ tree_blocks (x_inode s) ≡ₚ tree_blocks (x_inode s') ++ nodes /\
    freed_blocks calls ≡ₚ pblocks (file_map (x_inode s)) (zrange start end_) ++ nodes
}.
Lemma remove_space_punched `{Hrb : RbTree} sb chk env start end_ s :
  quiet env -> plain_fs sb (i_ino (x_inode s)) -> good_tree sb chk (ed_tree env) (x_inode s) -> Forall (fun b => ext4_ext_space_root < b) (tree_blocks (x_inode s)) -> x_credits s = [] ->
  0 <= start <= end_ -> end_ < 2 ^ 32 -> Forall (leaf_room end_) (tree_leaves (x_inode s)) ->
  exists s', ext4_ext_remove_space sb chk env start end_ s = Ok (inr tt, s') /\ punched sb chk (ed_tree env) start end_ s s'.
Proof.
  intros Hq [Hbs Hcount Hbits Hratio Hz] Hg Hhigh Hc Hse H32 Hroom.
  destruct (remove_space_ok sb chk env Hq Hbs Hbits ltac:(by apply Z.ltb_ge) Hcount start end_ Hse ltac:(lia) s) as (s' & E & E1 & [Hends HM Hx Hf] & [G1 G2 G3 G4 G5 (calls & M & F1 & F2 & F3)]); [by split|done|].
  exists s'. split; [exact E|]. split; [intros b; unfold file_map; rewrite G2, (cut_map start end_ 0 _ EXT_MAX_BLOCKS), HM by (done || lia); done|done|done|done|done|]. exists calls, M. split_and!; try done.
  rewrite F3, (gone_mapped start end_ 0 _ EXT_MAX_BLOCKS) by (done || lia). unfold file_map, zrange. by rewrite (pblocks_ext _ (disk_map (inode_exts (x_inode s)))).
Qed.

(** C14: Punching a hole, and truncation. On a tree of any height that is in order,
    passes its checks and takes every block once, when the journal and the block
    layer answer well and a leaf with an extent that goes on behind the range has a
    free slot for the rest of it, [ext4_ext_remove_space] returns 0: the blocks of the
    range are mapped to nothing and all others as they were, the tree is in order and
    passes its checks again (keys, lengths and checksums), the extent status tree is
    as it was, and what was freed is what the range was mapped to and the blocks of
    the nodes that are no longer in the tree, each once. *)
Theorem remove_space_exact `{Hrb : RbTree} sb chk env start end_ s :
  quiet env -> plain_fs sb (i_ino (x_inode s)) -> good_tree sb chk (ed_tree env) (x_inode s) -> Forall (fun b => ext4_ext_space_root < b) (tree_blocks (x_inode s)) -> x_credits s = [] ->
  0 <= start <= end_ -> end_ < 2 ^ 32 -> Forall (leaf_room end_) (tree_leaves (x_inode s)) ->
  exists s' calls nodes, ext4_ext_remove_space sb chk env start end_ s = Ok (inr tt, s') /\
    (forall b, file_map (x_inode s') b = if decide (start <= b <= end_) then None else file_map (x_inode s) b) /\
    good_tree sb chk (ed_tree env) (x_inode s') /\ i_es (x_inode s') = i_es (x_inode s) /\
    x_freed s' = x_freed s ++ calls /\ tree_blocks (x_inode s) ≡ₚ tree_blocks (x_inode s') ++ nodes /\
    freed_blocks calls ≡ₚ pblocks (file_map (x_inode s)) (zrange start end_) ++ nodes.
Proof.
  intros Hq Hfs Hg Hhigh Hc Hse H32 Hroom. destruct (remove_space_punched sb chk env start end_ s) as (s' & E & [H1 H2 _ H4 _ (calls & nodes & F1 & F2 & F3)]); try done. by exists s', calls, nodes.
Qed.

(** The demo file, with a journal and a block layer that answer well. *)
Definition demo_edit_env : edit_env := EditEnv demo_env (fun _ => 0) (fun _ => 0) (fun _ => 0) (fun _ => true) 0 0 0 (fun _ _ => 0) (fun _ => EsMem true true true true).
Definition demo_edit_state : edit_state := EditState demo_inode [] [] [] (PartialCluster 0 0 initial) 0.
Lemma demo_edit_quiet : quiet demo_edit_env.
Proof. by split. Qed.
Lemma demo_plain_fs : plain_fs demo_ext_sb 12.
Proof. split; [by compute..|]. split; [split; [by compute..|split; constructor]|]. intros z Hz. inversion Hz. Qed.
Lemma demo_good_tree : good_tree demo_ext_sb demo_chksum demo_env demo_inode.
Proof.
  split; [apply demo_inode_ok|by vm_compute|apply demo_tree_readable| |].
  - split; [by vm_compute|]. change (tree_blocks demo_inode) with [300; 301]. repeat constructor; by vm_compute.
  - change (tree_blocks demo_inode) with [300; 301]. repeat constructor; set_solver.
Qed.
Lemma remove_space_exact_witness :
  exists s' calls nodes, @ext4_ext_remove_space list_shape demo_ext_sb demo_chksum demo_edit_env 1 1 demo_edit_state = Ok (inr tt, s') /\
    (forall b, file_map (x_inode s') b = if decide (1 <= b <= 1) then None else file_map demo_inode b) /\
    good_tree demo_ext_sb demo_chksum demo_env (x_inode s') /\ i_es (x_inode s') = i_es demo_inode /\
    x_freed s' = [] ++ calls /\ tree_blocks demo_inode ≡ₚ tree_blocks (x_inode s') ++ nodes /\
    freed_blocks calls ≡ₚ pblocks (file_map demo_inode) (zrange 1 1) ++ nodes.
Proof.
  apply (@remove_space_exact list_shape demo_ext_sb demo_chksum demo_edit_env 1 1 demo_edit_state); [apply demo_edit_quiet|apply demo_plain_fs|apply demo_good_tree| |reflexivity|lia|lia|].
  - change (tree_blocks (x_inode demo_edit_state)) with [300; 301]. repeat constructor.
  - change (tree_leaves (x_inode demo_edit_state)) with [demo_leaf1; demo_leaf2]. repeat constructor.
Defined.
