(* ===== verification/HolePunch.v ===== *)
(** Punching blocks out of a parent ([scorw_punch_hole_range] of [corw_sparse.c]) on
    the extent tree and the extent status tree. *)

From stdpp Require Import sorting.
From S2P Require Import Prelude GC Friend ExtStatus ExtInsert ExtRemove ExtOps ExtRecover SysZone ExtTree ExtMap ExtLeaf ExtEdit ExtSplit ExtSpace ExtCheck ExtStep ExtCut ExtZip ExtCursor ExtGood ExtPunch.

Section hole.
Context `{Hrb : RbTree}.
Variable sb : ext_sb.
Variable ext4_chksum : ext4_extent_header -> list ext_slot -> Z.
Variable env : edit_env.
(** Memory for the extent status tree in a removal. *)
Variable rmem : nat -> bool.

(** A lookup without allocation; the file is not the journal. *)
Definition map_env_of : map_env := MapEnv (ed_tree env) (ed_mem env) false.
Definition map_call (map : ext4_map_blocks_t) : edit (Z * ext4_map_blocks_t) := fun s =>
  r ← ext4_map_blocks sb ext4_chksum map_env_of (x_inode s) map 0;
  let '(ret, map, i) := r in
  match ret with Some ret => Ok (inr (ret, map), set_inode s i) | None => Bug end.
Definition es_forget (lblk len : Z) : edit unit := fun s =>
  r ← ext4_es_remove_extent (xs_es sb) (i_es (x_inode s)) rmem lblk len;
  Ok (inr tt, set_inode s (set_es (x_inode s) r.2)).
Definition es_hole (lblk len : Z) : edit unit := fun s =>
  r ← ext4_es_insert_extent 3 (xs_es sb) (i_es (x_inode s)) (ed_mem env) lblk len (2 ^ 64 - 1) EXTENT_STATUS_HOLE;
  Ok (inr tt, set_inode s (set_es (x_inode s) r.2)).

(** One block after the other that is written is removed, with the blocks behind it
    that are mapped with it; holes, and blocks that are unwritten, are skipped.  The
    file has extents.  [map] is not initialised before the first lookup. *)
Fixpoint punch_extents (fuel : nat) (map : ext4_map_blocks_t) (cur end_ : Z) : edit unit :=
  if negb (cur <? end_) then mret tt
  else match fuel with
  | O => lift Hang
  | S fuel =>
      r ← map_call (MapBlocksT (m_pblk map) cur (u32 (end_ - cur)) (m_flags map));
      let '(ret, map) := r in
      if ret <? 0 then mret tt
      else if (ret =? 0) || negb (has_flag (m_flags map) EXT4_MAP_MAPPED) then
        punch_extents fuel map (u32 (cur + if m_len map =? 0 then 1 else m_len map)) end_
      else
        es_forget cur (m_len map) ≫= fun _ =>
        res ← try (ext4_ext_remove_space sb ext4_chksum env cur (u32 (cur + m_len map - 1)));
        match res with
        | inr _ => es_hole cur (m_len map) ≫= fun _ => punch_extents fuel map (u32 (cur + m_len map)) end_
        | inl _ => mret tt
        end
  end.
Definition punch_hole_range (map : ext4_map_blocks_t) (start_lblk len_blks : Z) : edit unit :=
  punch_extents (Z.to_nat len_blks) map start_lblk (u32 (start_lblk + len_blks)).
End hole.

(** * Lemmas *)

Lemma disk_map_elem l b st p : disk_map l b = Some (st, p) -> exists ex, ex ∈ l /\ covers ex b = true /\ p = ext4_ext_pblock ex + (b - ee_block ex) /\ st = ext_status ex.
Proof.
  induction l as [|ex l IH]; [done|]. cbn [disk_map]. destruct (covers ex b) eqn:E; [intros [= <- <-]; exists ex; split; [left|done]|].
  intros (e & ? & ?)%IH. exists e. split; [by right|done].
Qed.

Section valid.
Variable sb : ext_sb.

(** Blocks each of which is in a range that is valid. *)
Lemma range_valid ino p n : own_zones (xs_zones sb) ino -> 0 <= p < 2 ^ 64 -> 0 < n < 2 ^ 32 ->
  (forall x, p <= x < p + n -> exists ex, ext_valid sb ino ex /\ ext_fits ex /\ ext4_ext_pblock ex <= x < ext4_ext_pblock ex + ext_len ex) -> ext4_inode_block_valid (xs_zones sb) ino p n = true.
Proof.
  intros [Hz Ho] Hp Hn Hall. destruct (@block_valid_spec zone_list zone_list_ok (xs_zones sb) ino p n Hz Hp Hn) as [_ H].
  assert (forall x, p <= x < p + n -> s_first_data_block (xs_zones sb) < x /\ x < s_blocks_count (xs_zones sb) /\ forall z, z ∈ sys_zones (xs_zones sb) -> ~ (z_start z <= x < z_start z + z_count z)) as Hx.
  { intros x Hx. destruct (Hall x Hx) as (ex & Hv & Hf & Hxe). destruct (actual_len_bound ex Hf) as [Hb _]. pose proof (ExtPart.pblock_sum ex Hf) as Ep. destruct Hf as (_ & _ & ? & ?). unfold EXT_INIT_MAX_LEN in *.
    destruct (@block_valid_spec zone_list zone_list_ok (xs_zones sb) ino (ext4_ext_pblock ex) (ext_len ex) Hz) as [HV _]; [lia..|]. destruct (HV Hv) as [[Hd1 Hd2] Hzz]. split; [lia|]. split; [lia|]. intros z Hzi Hin.
    destruct Hzz as [(y & Hy & _ & E)|Hzz]; [by apply (Ho y)|]. apply (Hzz z Hzi). unfold runs_into. lia. }
  apply H.
  - destruct (Hx p) as (? & _ & _); [lia|]. destruct (Hx (p + n - 1)) as (_ & ? & _); [lia|]. unfold device_range. lia.
  - intros z Hzi [Hr1 Hr2]. exfalso. pose proof (zs_zones _ Hz) as [Hzo _]. rewrite Forall_forall in Hzo. specialize (Hzo z Hzi). destruct (Hx (Z.max p (z_start z))) as (_ & _ & Hn'); [lia|]. apply (Hn' z Hzi). destruct Hzo. lia.
Qed.
End valid.

Section punch.
Context `{Hrb : RbTree} {Hrbok : RbTreeOk}.
Variable sb : ext_sb.
Variable ext4_chksum : ext4_extent_header -> list ext_slot -> Z.
Variable env : edit_env.
Variable rmem : nat -> bool.
Hypothesis Hq : quiet env.
Hypothesis Hreplay : s_fc_replay (xs_es sb) = false.
Notation good_tree := (good_tree sb ext4_chksum (ed_tree env)).

(** ** Trees that differ in what is cached *)

Lemma good_tree_keep i i' : i_ino i' = i_ino i -> i_data i' = i_data i -> i_disk i' = i_disk i -> good_tree i -> good_tree i'.
Proof.
  intros Ei Ed Ek [Hok Hroot Hread [Hz HZ] Hnd]. assert (depth_of i' = depth_of i) as Edep by (unfold depth_of, ext_depth; by rewrite Ed).
  assert (tree_blocks i' = tree_blocks i) as EB by (unfold tree_blocks; by rewrite Edep, Ed, Ek). split; rewrite ?EB, ?Ed, ?Edep, ?Ek; try done.
  - unfold inode_ok in *. unfold depth_of, ext_depth in *. by rewrite Ed, Ek.
  - unfold ext4_ext_check_inode in *. rewrite (check_keep sb ext4_chksum i i') by done. unfold ext_depth in *. by rewrite Ed.
  - by apply (readable_keep sb ext4_chksum (ed_tree env) i).
Qed.

(** Both the tree and what is cached of it are in order. *)
Record sane (s : edit_state) : Prop := {
  sn_good : good (x_inode s);
  sn_tree : good_tree (x_inode s);
  sn_high : Forall (fun b => ext4_ext_space_root < b) (tree_blocks (x_inode s));
  sn_fs : plain_fs sb (i_ino (x_inode s));
  sn_credits : x_credits s = []
}.
Lemma sane_step s i' : sane s -> good_step (x_inode s) i' -> sane (set_inode s i') /\ file_map i' = file_map (x_inode s) /\ tree_leaves i' = tree_leaves (x_inode s).
Proof.
  intros [H1 H2 H3 H4 H5] [Hg Hs]. pose proof Hs as ((Ei & _) & Ed & Ek). assert (depth_of i' = depth_of (x_inode s)) as Edep by (unfold depth_of, ext_depth; by rewrite Ed).
  split; [|split; [by apply (same_tree_map _ i' Hs)|unfold tree_leaves; by rewrite Edep, Ed, Ek]]. split; [done|by apply (good_tree_keep (x_inode s))| |cbn; by rewrite Ei|done]. unfold tree_blocks in *. cbn. by rewrite Edep, Ed, Ek.
Qed.

(** ** The lookup *)

Lemma mapped_valid s p n st b : sane s -> 0 <= p -> 0 < n < 2 ^ 31 -> (forall x, b <= x < b + n -> file_map (x_inode s) x = Some (st, p + (x - b))) ->
  check_block_validity sb (map_env_of env) (x_inode s) (MapBlocksT p b n 0) = 0.
Proof.
  intros [_ Ht _ [_ _ _ _ Hz] _] Hp Hn HM. pose proof (good_whole sb ext4_chksum env s Ht) as [lo hi _ Hw]. pose proof (node_tree_valid _ _ _ _ _ _ _ _ _ Hw) as Hv. pose proof (node_tree_fits _ _ _ _ _ _ _ _ _ Hw) as Hf.
  rewrite Forall_forall in Hv, Hf. unfold check_block_validity. cbn [map_env_of me_journal m_pblk m_len]. rewrite (range_valid sb (i_ino (x_inode s)) p n Hz); [done| |lia|].
  - assert (0 <= p < 2 ^ 58) by (apply (file_map_bound (x_inode s) b st); [apply Ht|rewrite HM by lia; do 2 f_equal; lia]). lia.
  - intros x Hx. destruct (disk_map_elem _ _ _ _ (HM (b + (x - p)) ltac:(lia))) as (ex & Hex & Hc & E & _). exists ex. split; [by apply Hv|]. split; [by apply Hf|]. apply covers_spec in Hc. lia.
Qed.

Lemma lookup_ok s map : sane s -> 0 <= m_lblk map < EXT_MAX_BLOCKS -> 0 < m_len map < 2 ^ 31 ->
  exists r map' s', map_call sb ext4_chksum env map s = Ok (inr (r, map'), s') /\ sane s' /\ good_step (x_inode s) (x_inode s') /\ x_freed s' = x_freed s /\
    answer (x_inode s) (m_lblk map) (m_len map) map' r /\ 0 <= r.
Proof.
  intros Hs Hb Hl. pose proof Hs as [Hg Ht _ [_ _ _ Hra _] _]. assert (1 < s_cluster_ratio (xs_es sb) -> sb_ok (xs_es sb)) as Hpend by lia.
  destruct (map_blocks_full sb ext4_chksum (map_env_of env) Hreplay Hpend (x_inode s) map 0 Hg (gt_ok _ _ _ _ Ht) Hb ltac:(lia) eq_refl eq_refl) as (r0 & r & map' & i' & E & Hst & Hlb & Ha & H0 & Hr).
  specialize (H0 (qt_alloc _ Hq) (gt_nodes _ _ _ _ Ht)). destruct (sane_step s i' Hs Hst) as (Hs' & _ & _). exists r, map', (set_inode s i'). split; [unfold map_call; by rewrite E|]. split; [done|]. split; [done|]. split; [done|].
  destruct Hr as [->|(Hr0 & _ & Hck)]; [done|]. exfalso. destruct Ha as [err ?|n st Hn Hln _ _ HM|? ? _]; [lia| |lia]. apply Hck. rewrite <- (mapped_valid s (m_pblk map') n st (m_lblk map) Hs); [unfold check_block_validity; cbn [m_pblk m_len]; by rewrite Hln| |lia|exact HM].
  assert (0 <= m_pblk map' < 2 ^ 58); [|lia]. apply (file_map_bound (x_inode s) (m_lblk map) st); [apply Ht|]. rewrite HM by lia. do 2 f_equal. lia.
Qed.

(** ** One block *)

(** The block is not known to the extent status tree. *)
Lemma forget_ok s b : sane s -> 0 <= b < EXT_MAX_BLOCKS -> exists e, es_forget sb rmem b 1 s = Ok (inr tt, set_inode s (set_es (x_inode s) e)) /\ es_ok e /\ coherent (file_map (x_inode s)) e /\
  block_map (nodes e) b = None.
Proof.
  intros [[He Hc] _ _ _ _] Hb. destruct (remove_call_ok (xs_es sb) (i_es (x_inode s)) rmem b 1 He Hreplay) as (n & e & E & He' & Hf & _); [lia..|]. exists e. split; [unfold es_forget; by rewrite E|]. split; [done|]. split.
  - eapply coherent_less; [|exact Hc]. intros x. destruct (Hf x) as [->|[-> _]]; [|auto]. destruct (_ && _); auto.
  - destruct (Hf b) as [->|[-> _]]; [|done]. rewrite !(proj2 (Z.leb_le _ _)) by lia. done.
Qed.
Lemma hole_ok s b : es_ok (i_es (x_inode s)) -> coherent (file_map (x_inode s)) (i_es (x_inode s)) -> s_cluster_ratio (xs_es sb) <= 1 -> block_map (nodes (i_es (x_inode s))) b = None -> file_map (x_inode s) b = None -> 0 <= b < EXT_MAX_BLOCKS ->
  exists e, es_hole sb env b 1 s = Ok (inr tt, set_inode s (set_es (x_inode s) e)) /\ es_ok e /\ coherent (file_map (x_inode s)) e.
Proof.
  intros He Hc Hra Hno HM Hb. assert (1 < s_cluster_ratio (xs_es sb) -> sb_ok (xs_es sb)) as Hpend by lia.
  destruct (insert_true sb (map_env_of env) Hreplay Hpend (file_map (x_inode s)) (i_es (x_inode s)) b 1 (2 ^ 64 - 1) EXTENT_STATUS_HOLE He Hc) as (c & e & E & He' & Hc' & _).
  - apply hole_extent_ok; [lia..|]. intros x Hx. by replace x with b by lia.
  - intros x Hx [q Hq']. replace x with b in Hq' by lia. congruence.
  - exists e. split; [|done]. unfold es_hole. change (ed_mem env) with (me_mem (map_env_of env)). by rewrite E.
Qed.

Definition written_at (M : Z -> option (Z * Z)) (b : Z) : bool := bool_decide (from_option fst 0 (M b) = EXTENT_STATUS_WRITTEN).
(** Afterwards a written block is a hole, and freed; nothing else changes. *)
Record hole_at (s s' : edit_state) (b : Z) : Prop := {
  ha_sane : sane s';
  ha_map : forall x, file_map (x_inode s') x = if decide (x = b) then (if written_at (file_map (x_inode s)) b then None else file_map (x_inode s) b) else file_map (x_inode s) x;
  ha_freed : exists calls nodes, x_freed s' = x_freed s ++ calls /\ tree_blocks (x_inode s) ≡ₚ tree_blocks (x_inode s') ++ nodes /\
    freed_blocks calls ≡ₚ (if written_at (file_map (x_inode s)) b then pblocks (file_map (x_inode s)) [b] else []) ++ nodes
}.

(** Taking out the block that was found. *)
Lemma take_out_ok s b : sane s -> 0 <= b < EXT_MAX_BLOCKS -> Forall (leaf_room b) (tree_leaves (x_inode s)) -> written_at (file_map (x_inode s)) b = true ->
  exists s1 s2 s', es_forget sb rmem b 1 s = Ok (inr tt, s1) /\ ext4_ext_remove_space sb ext4_chksum env b b s1 = Ok (inr tt, s2) /\ es_hole sb env b 1 s2 = Ok (inr tt, s') /\ hole_at s s' b.
Proof.
  intros Hs Hb Hroom Hw. destruct (forget_ok s b Hs Hb) as (e & E1 & He & Hc & Hno). pose proof Hs as [_ Ht Hh Hf Hcr]. set (s1 := set_inode s (set_es (x_inode s) e)) in *. unfold EXT_MAX_BLOCKS in Hb.
  destruct (remove_space_punched sb ext4_chksum env b b s1) as (s2 & E2 & [P1 P2 P3 P4 P5 (calls & M & F1 & F2 & F3)]); try done; [by apply (good_tree_keep (x_inode s))|lia..|]. change (file_map (x_inode s1)) with (file_map (x_inode s)) in *. change (i_es (x_inode s1)) with e in *.
  assert (coherent (file_map (x_inode s2)) e) as Hc2 by (intros x c Hx; rewrite P1; destruct (decide (b <= x <= b)); [exfalso; replace x with b in Hx by lia; congruence|by apply Hc]).
  destruct (hole_ok s2 b) as (e' & E3 & He' & Hc3); [by rewrite P4..|apply Hf|by rewrite P4|rewrite P1; destruct (decide _); [done|lia]|unfold EXT_MAX_BLOCKS; lia|].
  exists s1, s2, (set_inode s2 (set_es (x_inode s2) e')). split; [exact E1|]. split; [exact E2|]. split; [exact E3|].
  assert (sane s2) as [_ T1 T2 T3 T4].
  { split; [split; by rewrite P4|done| |by rewrite P3|by rewrite P5]. change (tree_blocks (x_inode s1)) with (tree_blocks (x_inode s)) in F2. rewrite F2 in Hh. by apply Forall_app in Hh as [? _]. }
  split; [split; try done; by apply (good_tree_keep (x_inode s2))| |].
  - intros x. change (file_map (x_inode (set_inode s2 (set_es (x_inode s2) e')))) with (file_map (x_inode s2)). rewrite P1, Hw. destruct (decide (b <= x <= b)), (decide (x = b)); try lia; done.
  - exists calls, M. rewrite Hw. split_and!; try done. rewrite F3. unfold zrange. replace (Z.to_nat (b - b + 1)) with 1%nat by lia. rewrite zseq_S. done.
Qed.

(** A state that differs in what is cached. *)
Lemma hole_at_step s s1 s' b : good_step (x_inode s) (x_inode s1) -> x_freed s1 = x_freed s -> hole_at s1 s' b -> hole_at s s' b.
Proof.
  intros [_ Hs] Hf [H1 H2 H3]. pose proof Hs as (_ & Ed & Ek). assert (file_map (x_inode s1) = file_map (x_inode s)) as HM by (by apply same_tree_map).
  assert (tree_blocks (x_inode s1) = tree_blocks (x_inode s)) as HB by (unfold tree_blocks, depth_of, ext_depth; by rewrite Ed, Ek). rewrite HM, Hf, ?HB in *. by split.
Qed.
(** A block that is not written stays as it is. *)
Lemma hole_at_skip s s1 b : sane s1 -> good_step (x_inode s) (x_inode s1) -> x_freed s1 = x_freed s -> written_at (file_map (x_inode s)) b = false -> hole_at s s1 b.
Proof.
  intros Hs Hst Hf Hw. apply (hole_at_step s s1 s1 b Hst Hf). assert (file_map (x_inode s1) = file_map (x_inode s)) as HM by (apply same_tree_map, Hst). split; [done| |].
  - intros x. rewrite HM, Hw. by destruct (decide (x = b)) as [->|].
  - rewrite HM, Hw. exists [], []. by rewrite !app_nil_r.
Qed.

Lemma punch_one s map b : sane s -> 0 <= b < EXT_MAX_BLOCKS -> Forall (leaf_room b) (tree_leaves (x_inode s)) ->
  exists s', punch_hole_range sb ext4_chksum env rmem map b 1 s = Ok (inr tt, s') /\ hole_at s s' b.
Proof.
  intros Hs Hb Hroom. unfold EXT_MAX_BLOCKS in Hb. destruct (lookup_ok s (MapBlocksT (m_pblk map) b 1 (m_flags map)) Hs) as (r & map' & s1 & E1 & Hs1 & Hst & Hf & Ha & Hr); [cbn; unfold EXT_MAX_BLOCKS; lia|cbn; lia|]. cbn [m_lblk m_len] in Ha.
  unfold punch_hole_range. change (Z.to_nat 1) with 1%nat. rewrite u32_small by lia. cbn [punch_extents]. rewrite (proj2 (Z.ltb_lt b (b + 1))) by lia. cbn [negb]. replace (b + 1 - b) with 1 by lia. rewrite u32_small by lia.
  rewrite (bind_ok _ _ _ _ _ E1). destruct (Z.ltb_spec r 0); [lia|]. pose proof Hst as [_ Htr]. assert (file_map (x_inode s1) = file_map (x_inode s)) as HM1 by (by apply same_tree_map).
  assert (forall s2, (if negb (b + 1 <? b + 1) then mret tt else lift Hang : edit unit) s2 = Ok (inr tt, s2)) as Hend by (intros s2; by rewrite Z.ltb_irrefl).
  destruct Ha as [err ?|n st Hn Hln Hfl Hst2 HM|Hln Hp HM]; [lia| |].
  - assert (n = 1) as -> by lia. destruct (Z.eqb_spec 1 0); [lia|]. cbn [orb]. rewrite Hln, Hfl. specialize (HM b ltac:(lia)). destruct Hst2 as [-> | ->].
    + change (has_flag (if EXTENT_STATUS_WRITTEN =? EXTENT_STATUS_WRITTEN then EXT4_MAP_MAPPED else EXT4_MAP_UNWRITTEN) EXT4_MAP_MAPPED) with true. cbn [negb]. replace (b + 1 - 1) with b by lia. rewrite (u32_small b), (u32_small (b + 1)) by lia.
      assert (tree_leaves (x_inode s1) = tree_leaves (x_inode s)) as HL by (pose proof Htr as (_ & Ed & Ek); unfold tree_leaves, depth_of, ext_depth; by rewrite Ed, Ek).
      destruct (take_out_ok s1 b Hs1) as (s2 & s3 & s4 & E2 & E3 & E4 & Hh); [unfold EXT_MAX_BLOCKS; lia|by rewrite HL|unfold written_at; rewrite HM1, HM; by apply bool_decide_true|]. exists s4. split; [|by eapply hole_at_step].
      rewrite (bind_ok _ _ _ _ _ E2), (try_ok _ _ _ _ _ E3), (bind_ok _ _ _ _ _ E4). rewrite Z.ltb_irrefl. done.
    + change (has_flag (if EXTENT_STATUS_UNWRITTEN =? EXTENT_STATUS_WRITTEN then EXT4_MAP_MAPPED else EXT4_MAP_UNWRITTEN) EXT4_MAP_MAPPED) with false. cbn [negb Z.eqb]. rewrite u32_small by lia. rewrite Z.ltb_irrefl.
      exists s1. split; [done|]. apply hole_at_skip; try done. unfold written_at. rewrite HM. done.
  - change (0 =? 0) with true. cbn [orb]. assert (m_len map' = 1) as -> by lia. change (1 =? 0) with false. cbv iota. rewrite u32_small by lia. rewrite Z.ltb_irrefl. exists s1. split; [done|]. apply hole_at_skip; try done. unfold written_at. by rewrite HM by lia.
Qed.

(** ** One block after the other *)

(** The blocks [ps] have been punched, in this order; where an extent was split, its
    leaf had a free slot. *)
Inductive punches (s0 : edit_state) : list Z -> edit_state -> Prop :=
| punches_none : punches s0 [] s0
| punches_more ps s map b s' : punches s0 ps s -> 0 <= b < EXT_MAX_BLOCKS -> Forall (leaf_room b) (tree_leaves (x_inode s)) ->
    punch_hole_range sb ext4_chksum env rmem map b 1 s = Ok (inr tt, s') -> punches s0 (ps ++ [b]) s'.

(** The mapping of a file of which the blocks [ps] are punched. *)
Definition without (M : Z -> option (Z * Z)) (ps : list Z) (b : Z) : option (Z * Z) := if bool_decide (b ∈ ps) && written_at M b then None else M b.
(** The blocks on the disk of written blocks. *)
Definition written_blocks (M : Z -> option (Z * Z)) (ps : list Z) : list Z := pblocks (fun b => if written_at M b then M b else None) ps.

Lemma written_without M ps b : written_at (without M ps) b = negb (bool_decide (b ∈ ps)) && written_at M b.
Proof. unfold written_at at 1, without. destruct (bool_decide (b ∈ ps)); [|done]. destruct (written_at M b) eqn:E; [done|]. exact E. Qed.

Lemma punches_ok s0 ps s : sane s0 -> punches s0 ps s -> sane s /\ (forall b, file_map (x_inode s) b = without (file_map (x_inode s0)) ps b) /\ Forall (fun b => 0 <= b < EXT_MAX_BLOCKS) ps /\
  (NoDup ps -> exists calls nodes, x_freed s = x_freed s0 ++ calls /\ tree_blocks (x_inode s0) ≡ₚ tree_blocks (x_inode s) ++ nodes /\ freed_blocks calls ≡ₚ written_blocks (file_map (x_inode s0)) ps ++ nodes).
Proof.
  intros Hs0. induction 1 as [|ps s map b s' Hp (Hs & HM & Hr & Hf) Hb Hroom E].
  { split; [done|]. split; [done|]. split; [constructor|]. intros _. exists [], []. by rewrite !app_nil_r. }
  destruct (punch_one s map b Hs Hb Hroom) as (s2 & E2 & [H1 H2 (calls2 & nodes2 & F1 & F2 & F3)]). rewrite E in E2. injection E2 as <-. set (M := file_map (x_inode s0)) in *.
  assert (written_at (file_map (x_inode s)) b = negb (bool_decide (b ∈ ps)) && written_at M b) as Hw by (rewrite <- written_without; unfold written_at; by rewrite HM).
  split; [done|]. split; [|split; [by apply Forall_app; split; [|constructor]|]].
  - intros x. rewrite H2, Hw, !HM. unfold without. destruct (decide (x = b)) as [->|Hx].
    + rewrite (bool_decide_true (b ∈ ps ++ [b])) by set_solver. destruct (bool_decide (b ∈ ps)); [done|]. by destruct (written_at M b).
    + assert (bool_decide (x ∈ ps ++ [b]) = bool_decide (x ∈ ps)) as -> by (apply bool_decide_ext; set_solver). done.
  - intros Hnd. apply NoDup_app in Hnd as (Hnd & Hni & _). destruct (Hf Hnd) as (calls & nodes & G1 & G2 & G3). assert (b ∉ ps) as Hbp by (intros Hin; apply (Hni b Hin); left).
    rewrite (bool_decide_false (b ∈ ps)) in Hw by done. cbn [negb andb] in Hw. exists (calls ++ calls2), (nodes2 ++ nodes). split; [by rewrite F1, G1, app_assoc|]. split; [by rewrite G2, F2, app_assoc|].
    rewrite freed_app, G3, F3, Hw. unfold written_blocks. rewrite pblocks_app.
    assert ((if written_at M b then pblocks (file_map (x_inode s)) [b] else []) = pblocks (fun x => if written_at M x then M x else None) [b]) as ->; [|solve_Permutation].
    unfold pblocks. cbn [omap list_omap]. destruct (written_at M b); [|done]. rewrite HM. unfold without. by rewrite (bool_decide_false (b ∈ ps)).
Qed.
End punch.

(** * Properties *)

(** A set of blocks stands for the written blocks of a file. *)
Definition stands_for (bs : gset Z) (i : ext_inode) : Prop := forall b, b ∈ bs <-> written_at (file_map i) b = true.

(** C15: The hole punch of garbage collection, which [scorw_gc_blocks] works on as a set of
    mapped blocks, on the extent tree and the extent status tree.  After any blocks
    have been punched, one by one, each while its leaf had a free slot where an extent
    had to be split, that set without them is what the abstract punch
    returns and stands for the written blocks of the file: those blocks are holes,
    unwritten blocks and all others are mapped as before, both trees are in order and
    agree, and what was freed is what the punched blocks were mapped to and the blocks
    of nodes that went, each once.  A further punch returns, whatever is cached, if the
    leaf has a free slot where an extent must be split. *)
Theorem gc_punch_refines `{RbTreeOk} `{GC.MapBlocksOk} sb chk env rmem s0 ps s bs :
  quiet env -> s_fc_replay (xs_es sb) = false -> sane sb chk env s0 -> punches sb chk env rmem s0 ps s -> stands_for bs (x_inode s0) ->
  (exists bs', for_each ps (fun p b => GC.scorw_punch_hole_range b (u32 p) 1) bs = Ok bs' /\ stands_for bs' (x_inode s)) /\
  sane sb chk env s /\ (forall b, file_map (x_inode s) b = without (file_map (x_inode s0)) ps b) /\
  (NoDup ps -> exists calls nodes, x_freed s = x_freed s0 ++ calls /\ tree_blocks (x_inode s0) ≡ₚ tree_blocks (x_inode s) ++ nodes /\
    freed_blocks calls ≡ₚ written_blocks (file_map (x_inode s0)) ps ++ nodes) /\
  forall map b, 0 <= b < EXT_MAX_BLOCKS -> Forall (leaf_room b) (tree_leaves (x_inode s)) ->
    exists s', punch_hole_range sb chk env rmem map b 1 s = Ok (inr tt, s') /\ punches sb chk env rmem s0 (ps ++ [b]) s'.
Proof.
  intros Hq Hr Hs0 Hp Hbs. destruct (punches_ok sb chk env rmem Hq Hr s0 ps s Hs0 Hp) as (Hs & HM & Hps & Hf). split; [|split; [done|split; [done|split; [done|]]]].
  - rewrite GC.punch_all_spec by (eapply Forall_impl; [exact Hps|]; cbn; unfold EXT_MAX_BLOCKS; intros; lia). eexists. split; [done|]. intros b. rewrite elem_of_difference, elem_of_list_to_set, (Hbs b).
    unfold written_at at 2. rewrite HM. fold (written_at (without (file_map (x_inode s0)) ps) b). rewrite written_without. destruct (bool_decide_reflect (b ∈ ps)); cbn; intuition congruence.
  - intros map b Hb Hroom. destruct (punch_one sb chk env rmem Hq Hr s map b Hs Hb Hroom) as (s' & E & _). exists s'. split; [done|]. by eapply punches_more.
Qed.

(** ** A witness: block 1 of the demo file *)

Lemma demo_sane : sane demo_ext_sb demo_chksum demo_edit_env demo_edit_state.
Proof.
  split; [|apply demo_good_tree| |apply demo_plain_fs|done].
  - split; [apply init_tree_ok|]. intros b c E. discriminate E.
  - change (tree_blocks (x_inode demo_edit_state)) with [300; 301]. repeat constructor.
Qed.
Lemma demo_stands_for : stands_for {[0; 1; 2; 10; 11; 12; 13]} demo_inode.
Proof.
  intros b. assert (inode_exts demo_inode = [Ext4Extent 0 3 0 1000; Ext4Extent 5 32770 0 1100; Ext4Extent 10 4 1 1200]) as E by (by vm_compute). unfold written_at, file_map. rewrite E, bool_decide_eq_true. cbn [disk_map].
  unfold covers, ext4_ext_get_actual_len, EXT_INIT_MAX_LEN. cbn [ee_block ee_len]. change (3 <=? 2 ^ 15) with true. change (32770 <=? 2 ^ 15) with false. change (4 <=? 2 ^ 15) with true. cbv iota.
  rewrite !elem_of_union, !elem_of_singleton. destruct (Z.leb_spec 0 b), (Z.ltb_spec b (0 + 3)), (Z.leb_spec 5 b), (Z.ltb_spec b (5 + (32770 - 2 ^ 15))), (Z.leb_spec 10 b), (Z.ltb_spec b (10 + 4)); cbn [andb]; try lia; cbn; (split; [intros; lia || done|intros Hx; lia || discriminate Hx]).
Qed.
Lemma gc_punch_refines_witness :
  exists s, @punches list_shape demo_ext_sb demo_chksum demo_edit_env (fun _ => true) demo_edit_state [1] s /\
    (exists bs', @for_each Z _ [1] (fun p b => @GC.scorw_punch_hole_range GC.one_by_one b (u32 p) 1) {[0; 1; 2; 10; 11; 12; 13]} = Ok bs' /\ stands_for bs' (x_inode s)) /\
    sane demo_ext_sb demo_chksum demo_edit_env s /\ (forall b, file_map (x_inode s) b = without (file_map demo_inode) [1] b).
Proof.
  destruct (@punch_one list_shape list_shape_ok demo_ext_sb demo_chksum demo_edit_env (fun _ => true) demo_edit_quiet eq_refl demo_edit_state (MapBlocksT 0 0 0 0) 1 demo_sane) as (s & E & _); [done| |].
  { change (tree_leaves (x_inode demo_edit_state)) with [demo_leaf1; demo_leaf2]. repeat constructor. }
  assert (@punches list_shape demo_ext_sb demo_chksum demo_edit_env (fun _ => true) demo_edit_state [1] s) as Hp.
  { refine (@punches_more list_shape demo_ext_sb demo_chksum demo_edit_env (fun _ => true) demo_edit_state [] demo_edit_state (MapBlocksT 0 0 0 0) 1 s _ _ _ E); [apply punches_none|split; reflexivity || discriminate|].
    change (tree_leaves (x_inode demo_edit_state)) with [demo_leaf1; demo_leaf2]. repeat constructor. }
  exists s. split; [exact Hp|]. destruct (@gc_punch_refines list_shape list_shape_ok GC.one_by_one GC.one_by_one_ok demo_ext_sb demo_chksum demo_edit_env (fun _ => true) demo_edit_state [1] s {[0; 1; 2; 10; 11; 12; 13]}
    demo_edit_quiet eq_refl demo_sane Hp demo_stands_for) as (H1 & H2 & H3 & _).
  split; [exact H1|]. split; [exact H2|exact H3].
Defined.
