(* ===== verification/ExtAlloc.v ===== *)
(** Allocating blocks for a file and converting unwritten extents: the rest of
    [ext4_ext_map_blocks] in [extents.c], [ext4_map_create_blocks] and all of
    [ext4_map_blocks] in [inode.c]. *)

From S2P Require Import Prelude Friend ExtStatus ExtInsert ExtRemove ExtOps SysZone ExtTree ExtMap ExtLeaf ExtEdit ExtSplit ExtSpace.

Definition EXT4_GET_BLOCKS_UNWRIT_EXT : Z := 2.
Definition EXT4_GET_BLOCKS_DELALLOC_RESERVE : Z := 4.
Definition EXT4_GET_BLOCKS_CONVERT : Z := 16.
Definition EXT4_GET_BLOCKS_NO_NORMALIZE : Z := 64.
Definition EXT4_GET_BLOCKS_ZERO : Z := 512.
Definition EXT4_GET_BLOCKS_IO_SUBMIT : Z := 1024.
Definition EXT4_GET_BLOCKS_IO_CONVERT_EXT : Z := Z.lor EXT4_GET_BLOCKS_CONVERT (Z.lor EXT4_GET_BLOCKS_UNWRIT_EXT EXT4_GET_BLOCKS_CREATE).
Definition EXT4_MAP_BOUNDARY : Z := 2 ^ 9.
Definition EXT4_MAP_FLAGS : Z := Z.lor EXT4_MAP_NEW (Z.lor EXT4_MAP_MAPPED (Z.lor EXT4_MAP_UNWRITTEN (Z.lor EXT4_MAP_BOUNDARY EXT4_MAP_DELAYED))).
Definition EXT4_MB_HINT_DATA : Z := 32.
Definition EXT4_MB_HINT_NOPREALLOC : Z := 64.
Definition EXT4_MB_DELALLOC_RESERVED : Z := 1024.
Definition EXT4_MB_USE_RESERVED : Z := 8192.
Definition EXT4_FREE_BLOCKS_NO_QUOT_UPDATE : Z := 8.

(** [struct ext4_allocation_request]; the neighbours are as far as there are any. *)
Record alloc_request := AllocRequest {
  ar_logical : Z; ar_goal : Z; ar_len : Z; ar_lleft : Z; ar_pleft : Z; ar_lright : Z; ar_pright : Z; ar_flags : Z
}.

(** The journal and the block layer; [s_blocksize_bits], [i_disksize] and
    [s_extent_max_zeroout_kb]; [ext4_inode_to_goal_block]; whether the file is a
    regular one, and the journal; what [ext4_mb_new_blocks] answers, with what the
    error was before: the block or 0, the clusters, and the error; whether data is
    written before the transaction ends, and what putting a range on that list
    returns. *)
Record alloc_env := AllocEnv {
  ae_edit : edit_env; ae_bits : Z; ae_disksize : Z; ae_zeroout_kb : Z; ae_goal : Z; ae_regular : bool; ae_journal : bool;
  ae_new : alloc_request -> Z -> Z * Z * Z; ae_order : bool; ae_add : bool -> Z -> Z -> Z
}.

Section alloc.
Context `{Hrb : RbTree}.
Variable sb : ext_sb.
Variable ext4_chksum : ext4_extent_header -> list ext_slot -> Z.
Variable aenv : alloc_env.
Notation env := (ae_edit aenv).
Notation dirty := (__ext4_ext_dirty sb ext4_chksum env).
Notation access := (ext4_ext_get_access env).
Notation find_extent := (find_extent sb ext4_chksum env).

(** A path that is used again. *)
Definition find_again (path : list ext4_ext_path) (block flags : Z) : edit (list ext4_ext_path) := find_extent block (Some (Z.of_nat (length path))) flags.
(** The leaf of a path, its slot and extent; the code does not expect none. *)
Definition at_leaf (path : list ext4_ext_path) : edit (ext4_ext_path * Z * ext4_extent) :=
  match path with
  | [] => lift Bug
  | p :: _ => k ← (match p_ext p with Some k => mret k | None => lift Bug end); s ← get_slot (p_bh p) k; mret (p, k, slot_extent s)
  end.
(** As [at_leaf], where the code returns an error. *)
Definition leaf_or_fail (path : list ext4_ext_path) : edit unit :=
  match path with [] => lift Bug | p :: _ => match p_ext p with Some _ => mret tt | None => fail (- EFSCORRUPTED) end end.

(** ** Converting *)

(** [ext4_split_extent]: the path, and [allocated]. *)
Definition ext4_split_extent (path : list ext4_ext_path) (lblk len split_flag flags : Z) : edit (list ext4_ext_path * Z) :=
  r ← at_leaf path;
  let '(_, _, ex) := r in
  let ee_block := Friend.ee_block ex in
  let ee_len := ext4_ext_get_actual_len ex in
  let unwritten := ext4_ext_is_unwritten ex in
  let end_ := u32 (lblk + len) in
  let ee_end := u32 (ee_block + ee_len) in
  r ← (if end_ <? ee_end then
         let split_flag1 := Z.land split_flag EXT4_EXT_MAY_ZEROOUT in
         let split_flag1 := if unwritten then Z.lor split_flag1 (Z.lor EXT4_EXT_MARK_UNWRIT1 EXT4_EXT_MARK_UNWRIT2) else split_flag1 in
         let split_flag1 := if has_flag split_flag EXT4_EXT_DATA_VALID2 then Z.lor split_flag1 EXT4_EXT_DATA_VALID1 else split_flag1 in
         path ← ext4_split_extent_at sb ext4_chksum env path end_ split_flag1 (Z.lor flags EXT4_GET_BLOCKS_PRE_IO);
         path ← find_again path lblk flags;
         leaf_or_fail path ≫= fun _ =>
         r ← at_leaf path; mret (path, ext4_ext_is_unwritten r.2)
       else mret (path, unwritten));
  let '(path, unwritten) := (r : list ext4_ext_path * bool) in
  path ← (if ee_block <=? lblk then
            let split_flag1 := Z.land split_flag EXT4_EXT_DATA_VALID2 in
            let split_flag1 := if unwritten then Z.lor (Z.lor split_flag1 EXT4_EXT_MARK_UNWRIT1) (Z.land split_flag (Z.lor EXT4_EXT_MAY_ZEROOUT EXT4_EXT_MARK_UNWRIT2)) else split_flag1 in
            ext4_split_extent_at sb ext4_chksum env path lblk split_flag1 flags
          else mret path);
  mret (path, if ee_end <? end_ then u32 (ee_len - (lblk - ee_block)) else len).

(** The first block behind the file, or behind the blocks at hand. *)
Definition eof_block (lblk len : Z) : Z := Z.max (u32 (Z.shiftr (ae_disksize aenv + xs_blocksize sb - 1) (ae_bits aenv))) (u32 (lblk + len)).

(** Some blocks at the start of an extent become the end of the one before, or those
    at its end become the start of the next one; the slot of that one. *)
Definition give_left (p : ext4_ext_path) (k len : Z) (ex : ext4_extent) : edit (option Z) :=
  s ← get_slot (p_bh p) (k - 1);
  let abut := slot_extent s in
  let prev_len := ext4_ext_get_actual_len abut in
  if negb (ext4_ext_is_unwritten abut) && (u32 (ee_block abut + prev_len) =? ee_block ex) && (ext4_ext_pblock abut + prev_len =? ext4_ext_pblock ex) && (prev_len <? u64 (EXT_INIT_MAX_LEN - len)) then
    access (p_bh p) ≫= fun _ =>
    n ← get_node (p_bh p);
    ex' ← lift (join_len (ext4_ext_store_pblock (set_block ex (u32 (ee_block ex + len))) (ext4_ext_pblock ex + len)) (ext4_ext_get_actual_len ex - len) true);
    n ← lift (put_slot n k (extent_slot ex'));
    n ← lift (put_slot n (k - 1) (extent_slot (set_len abut (prev_len + len))));
    put_node (p_bh p) n ≫= fun _ => mret (Some (k - 1))
  else mret None.
Definition give_right (p : ext4_ext_path) (k len : Z) (ex : ext4_extent) : edit (option Z) :=
  s ← get_slot (p_bh p) (k + 1);
  let abut := slot_extent s in
  let next_len := ext4_ext_get_actual_len abut in
  let ee_len := ext4_ext_get_actual_len ex in
  if negb (ext4_ext_is_unwritten abut) && (u32 (ee_block ex + ee_len) =? ee_block abut) && (ext4_ext_pblock ex + ee_len =? ext4_ext_pblock abut) && (next_len <? u64 (EXT_INIT_MAX_LEN - len)) then
    access (p_bh p) ≫= fun _ =>
    n ← get_node (p_bh p);
    let abut' := ext4_ext_store_pblock (set_block abut (u32 (ee_block abut - len))) (ext4_ext_pblock abut - len) in
    ex' ← lift (join_len ex (ee_len - len) true);
    n ← lift (put_slot n k (extent_slot ex'));
    n ← lift (put_slot n (k + 1) (extent_slot (set_len abut' (next_len + len))));
    put_node (p_bh p) n ≫= fun _ => mret (Some (k + 1))
  else mret None.

(** The range that is split off, which grows by what is zeroed before and behind it,
    and the two ranges that are zeroed; [allocated]. *)
Record zero_plan := ZeroPlan { zp_lblk : Z; zp_len : Z; zp_ex1 : ext4_extent; zp_ex2 : ext4_extent; zp_allocated : Z }.
Definition no_extent : ext4_extent := {| ee_block := 0; ee_len := 0; ee_start_hi := 0; ee_start_lo := 0 |}.
Definition zero_range (block len pblk : Z) : ext4_extent := ext4_ext_store_pblock {| ee_block := block; ee_len := u16 len; ee_start_hi := 0; ee_start_lo := 0 |} pblk.
Definition ext4_ext_zeroout (ex : ext4_extent) : Z := ed_zeroout env (ext4_ext_pblock ex) (ext4_ext_get_actual_len ex).
Definition plan_zeroout (lblk len allocated max_zeroout : Z) (ex : ext4_extent) : zero_plan :=
  let ee_block := Friend.ee_block ex in
  let none := ZeroPlan lblk len no_extent no_extent allocated in
  if (max_zeroout =? 0) || (allocated <=? len) then none
  else
    let ex1 := if allocated <=? max_zeroout then zero_range (u32 (lblk + len)) (allocated - len) (u64 (ext4_ext_pblock ex + lblk + len - ee_block)) else no_extent in
    let err := if allocated <=? max_zeroout then ext4_ext_zeroout ex1 else 0 in
    let p := ZeroPlan lblk (if allocated <=? max_zeroout then allocated else len) ex1 no_extent allocated in
    if negb (err =? 0) then ZeroPlan lblk len ex1 no_extent allocated
    else if u32 (lblk - ee_block + zp_len p) <? max_zeroout then
      let ex2 := if negb (lblk =? ee_block) then zero_range ee_block (lblk - ee_block) (ext4_ext_pblock ex) else no_extent in
      let err := if negb (lblk =? ee_block) then ext4_ext_zeroout ex2 else 0 in
      if negb (err =? 0) then ZeroPlan lblk (zp_len p) ex1 ex2 allocated
      else ZeroPlan ee_block (u32 (zp_len p + (lblk - ee_block))) ex1 ex2 len
    else p.

(** [ext4_ext_convert_to_initialized]: the path, and [allocated]. *)
Definition ext4_ext_convert_to_initialized (path : list ext4_ext_path) (lblk len flags : Z) : edit (list ext4_ext_path * Z) :=
  r ← at_leaf path;
  let '(p, k, ex) := r in
  let ee_block := Friend.ee_block ex in
  let ee_len := ext4_ext_get_actual_len ex in
  lift (BUG_ON (negb (ext4_ext_is_unwritten ex))) ≫= fun _ =>
  lift (BUG_ON (negb (in_range32 lblk ee_block ee_len))) ≫= fun _ =>
  n ← get_node (p_bh p);
  given ← (if (lblk =? ee_block) && (len <? ee_len) && (0 <? k) then give_left p k len ex
           else if (u32 (lblk + len) =? u32 (ee_block + ee_len)) && (len <? ee_len) && (k <? entries n - 1) then give_right p k len ex
           else mret None);
  match (if len =? 0 then None else given) with
  | Some k' => dirty (p_bh p) ≫= fun _ => mret (set_first_ext path (Some k'), len)
  | None =>
    let allocated := u32 (ee_len - (lblk - ee_block)) in
    let zero := u32 (ee_block + ee_len) <=? eof_block lblk len in
    let max_zeroout := if zero then Z.shiftr (ae_zeroout_kb aenv) (ae_bits aenv - 10) else 0 in
    let plan := plan_zeroout lblk len allocated max_zeroout ex in
    r ← ext4_split_extent path (zp_lblk plan) (zp_len plan) (Z.lor EXT4_EXT_DATA_VALID2 (if zero then EXT4_EXT_MAY_ZEROOUT else 0)) flags;
    ext4_zeroout_es sb env (zp_ex1 plan) ≫= fun _ =>
    ext4_zeroout_es sb env (zp_ex2 plan) ≫= fun _ =>
    mret (r.1, zp_allocated plan)
  end.

Definition ext4_split_convert_extents (path : list ext4_ext_path) (lblk len flags : Z) : edit (list ext4_ext_path * Z) :=
  r ← at_leaf path;
  let ex := r.2 in
  let split_flag :=
    if has_flag flags EXT4_GET_BLOCKS_CONVERT_UNWRITTEN then EXT4_EXT_DATA_VALID1
    else if has_flag flags EXT4_GET_BLOCKS_CONVERT then
      Z.lor (if u32 (ee_block ex + ext4_ext_get_actual_len ex) <=? eof_block lblk len then EXT4_EXT_MAY_ZEROOUT else 0) (Z.lor EXT4_EXT_MARK_UNWRIT2 EXT4_EXT_DATA_VALID2)
    else 0 in
  ext4_split_extent path lblk len split_flag (Z.lor flags EXT4_GET_BLOCKS_PRE_IO).

(** The path to an extent that is the range and no more. *)
Definition split_to (path : list ext4_ext_path) (lblk len flags : Z) : edit (list ext4_ext_path) :=
  r ← at_leaf path;
  let ex := r.2 in
  if negb (ee_block ex =? lblk) || (len <? ext4_ext_get_actual_len ex) then
    r ← ext4_split_convert_extents path lblk len flags; find_again r.1 lblk 0
  else mret path.
(** The extent is marked, and merged. *)
Definition mark_extent (path : list ext4_ext_path) (mark : ext4_extent -> outcome ext4_extent) : edit (list ext4_ext_path) :=
  match path with
  | [] => lift Bug
  | p :: _ =>
    access (p_bh p) ≫= fun _ =>
    r ← at_leaf path;
    let '(_, k, ex) := r in
    ex ← lift (mark ex);
    n ← get_node (p_bh p);
    n ← lift (put_slot n k (extent_slot ex));
    put_node (p_bh p) n ≫= fun _ =>
    path ← ext4_ext_try_to_merge env path k;
    match path with [] => lift Bug | p :: _ => dirty (p_bh p) ≫= fun _ => mret path end
  end.

Definition ext4_convert_unwritten_extents_endio (path : list ext4_ext_path) (lblk len : Z) : edit (list ext4_ext_path) :=
  path ← split_to path lblk len EXT4_GET_BLOCKS_CONVERT;
  mark_extent path (fun ex => Ok (ext4_ext_mark_initialized ex)).

(** The length of the range has been limited before. *)
Definition limit_unwritten (map : ext4_map_blocks_t) : ext4_map_blocks_t := if EXT_UNWRITTEN_MAX_LEN <? m_len map then set_m_len map (EXT_UNWRITTEN_MAX_LEN / 2) else map.
Definition convert_initialized_extent (path : list ext4_ext_path) (map : ext4_map_blocks_t) (allocated : Z) : edit (Z * ext4_map_blocks_t) :=
  path ← split_to path (m_lblk map) (m_len map) EXT4_GET_BLOCKS_CONVERT_UNWRITTEN;
  leaf_or_fail path ≫= fun _ =>
  mark_extent path ext4_ext_mark_unwritten ≫= fun _ =>
  let allocated := Z.min allocated (m_len map) in
  mret (allocated, set_m_len (set_m_flags map (Z.lor (m_flags map) EXT4_MAP_UNWRITTEN)) allocated).

(** [ext4_ext_handle_unwritten_extents]: [allocated], and the mapping. *)
Definition ext4_ext_handle_unwritten_extents (path : list ext4_ext_path) (map : ext4_map_blocks_t) (flags allocated newblock : Z) : edit (Z * ext4_map_blocks_t) :=
  let flags := Z.lor flags EXT4_GET_BLOCKS_METADATA_NOFAIL in
  let out flag allocated := let allocated := Z.min allocated (m_len map) in mret (allocated, MapBlocksT newblock (m_lblk map) allocated (Z.lor (m_flags map) flag)) in
  if has_flag flags EXT4_GET_BLOCKS_PRE_IO then
    r ← ext4_split_convert_extents path (m_lblk map) (m_len map) (Z.lor flags EXT4_GET_BLOCKS_CONVERT);
    if r.2 =? 0 then fail (- EFSCORRUPTED) else out (Z.lor EXT4_MAP_UNWRITTEN (Z.lor EXT4_MAP_NEW EXT4_MAP_MAPPED)) r.2
  else if has_flag flags EXT4_GET_BLOCKS_CONVERT then
    ext4_convert_unwritten_extents_endio path (m_lblk map) (m_len map) ≫= fun _ => out EXT4_MAP_MAPPED allocated
  else if has_flag flags EXT4_GET_BLOCKS_UNWRIT_EXT then out (Z.lor EXT4_MAP_UNWRITTEN EXT4_MAP_MAPPED) allocated
  else if negb (has_flag flags EXT4_GET_BLOCKS_CREATE) then out EXT4_MAP_UNWRITTEN allocated
  else
    r ← ext4_ext_convert_to_initialized path (m_lblk map) (m_len map) flags;
    if r.2 =? 0 then fail (- EFSCORRUPTED) else out (Z.lor EXT4_MAP_NEW EXT4_MAP_MAPPED) r.2.

(** ** Where to allocate *)

(** [ext4_ext_search_left]: the last block to the left with its physical block. *)
Definition ext4_ext_search_left (path : list ext4_ext_path) (logical : Z) : edit (Z * Z) :=
  match path with
  | [] => fail (- EFSCORRUPTED)
  | p :: ups =>
    match p_ext p with
    | None => match ups with [] => mret (logical, 0) | _ => lift Bug end
    | Some k =>
      s ← get_slot (p_bh p) k;
      let ex := slot_extent s in
      let ee_len := ext4_ext_get_actual_len ex in
      if logical <? ee_block ex then
        if negb (k =? 0) then fail (- EFSCORRUPTED)
        else if forallb first_index ups then mret (logical, 0) else fail (- EFSCORRUPTED)
      else if logical <? u32 (ee_block ex + ee_len) then fail (- EFSCORRUPTED)
      else mret (u32 (ee_block ex + ee_len - 1), ext4_ext_pblock ex + ee_len - 1)
    end
  end.

Definition next_allocated (path : list ext4_ext_path) : edit Z := i ← gets x_inode; lift (ext4_ext_next_allocated_block i (reverse path)).

(** [get_implied_cluster_alloc]: the mapping, if the extent is in the cluster. *)
Definition get_implied_cluster_alloc (map : ext4_map_blocks_t) (ex : ext4_extent) (path : list ext4_ext_path) : edit (option ext4_map_blocks_t) :=
  let B2C := EXT4_B2C (xs_es sb) in
  let c_offset := EXT4_LBLK_COFF (xs_es sb) (m_lblk map) in
  let ee_len := ext4_ext_get_actual_len ex in
  let ex_cluster_start := B2C (ee_block ex) in
  let ex_cluster_end := B2C (u32 (ee_block ex + ee_len - 1)) in
  let rr_cluster_start := B2C (m_lblk map) in
  if (rr_cluster_start =? ex_cluster_end) || (rr_cluster_start =? ex_cluster_start) then
    let ee_start := if rr_cluster_start =? ex_cluster_end then ext4_ext_pblock ex + ee_len - 1 else ext4_ext_pblock ex in
    let len := Z.min (m_len map) (s_cluster_ratio (xs_es sb) - c_offset) in
    let len := if m_lblk map <? ee_block ex then Z.min len (ee_block ex - m_lblk map) else len in
    len ← (if ee_block ex <? m_lblk map then next ← next_allocated path; mret (Z.min len (u32 (next - m_lblk map))) else mret len);
    mret (Some (MapBlocksT (EXT4_PBLK_CMASK sb ee_start + c_offset) (m_lblk map) len (m_flags map)))
  else mret None.

(** [ext4_ext_check_overlap]: whether the length of the new extent had to be cut,
    and the extent. *)
Definition ext4_ext_check_overlap (newext : ext4_extent) (path : list ext4_ext_path) : edit (Z * ext4_extent) :=
  match path with
  | [] => lift Bug
  | p :: _ =>
    match p_ext p with
    | None => mret (0, newext)
    | Some k =>
      let b1 := ee_block newext in
      let len1 := ext4_ext_get_actual_len newext in
      s ← get_slot (p_bh p) k;
      let b2 := EXT4_LBLK_CMASK (xs_es sb) (sw0 s) in
      b2 ← (if b2 <? b1 then b2 ← next_allocated path; mret (if b2 =? EXT_MAX_BLOCKS then None else Some (EXT4_LBLK_CMASK (xs_es sb) b2)) else mret (Some b2));
      match b2 with
      | None => mret (0, newext)
      | Some b2 =>
        let wraps := u32 (b1 + len1) <? b1 in
        let len1 := if wraps then u32 (EXT_MAX_BLOCKS - b1) else len1 in
        let newext := if wraps then set_len newext len1 else newext in
        if b2 <? u32 (b1 + len1) then mret (1, set_len newext (b2 - b1)) else mret (if wraps then 1 else 0, newext)
      end
    end
  end.

Definition ext4_ext_find_goal (path : list ext4_ext_path) (block : Z) : edit Z :=
  match path with
  | [] => mret (ae_goal aenv)
  | p :: _ =>
    match p_ext p with
    | Some k =>
      s ← get_slot (p_bh p) k;
      let ex := slot_extent s in
      mret (u64 (ext4_ext_pblock ex + (block - ee_block ex)))
    | None => mret (match p_bh p with Some b => b | None => ae_goal aenv end)
    end
  end.

(** ** Mapping with allocation *)

Definition map_result : Type := Z * ext4_map_blocks_t.
(** [err ? err : allocated]. *)
Definition err_or (err allocated : Z) : Z := if err =? 0 then allocated else err.
Definition done_with (map : ext4_map_blocks_t) (err allocated : Z) : edit map_result := mret (err_or err allocated, map).
(** What fails is returned with the mapping as it is. *)
Definition or_error {A} (map : ext4_map_blocks_t) (m : edit A) (f : A -> edit map_result) : edit map_result :=
  r ← try m; match r with inl err => mret (err, map) | inr a => f a end.

(** From the label [got_allocated_blocks]: [len] blocks from [newblock] on, of which
    so many clusters have just been allocated; [err] is what is left in the variable. *)
Definition insert_blocks (path : list ext4_ext_path) (map : ext4_map_blocks_t) (flags newblock offset len clusters err : Z) : edit map_result :=
  let pblk := newblock + offset in
  let newex := ext4_ext_store_pblock {| ee_block := m_lblk map; ee_len := u16 len; ee_start_hi := 0; ee_start_lo := 0 |} pblk in
  let unwritten := has_flag flags EXT4_GET_BLOCKS_UNWRIT_EXT in
  newex ← (if unwritten then lift (ext4_ext_mark_unwritten newex) else mret newex);
  let map := if unwritten then set_m_flags map (Z.lor (m_flags map) EXT4_MAP_UNWRITTEN) else map in
  res ← try (ext4_ext_insert_extent sb ext4_chksum env path newex flags);
  match res with
  | inl err =>
    (if clusters =? 0 then mret tt
     else ext4_free_blocks newblock (EXT4_C2B sb clusters) (if has_flag flags EXT4_GET_BLOCKS_DELALLOC_RESERVE then EXT4_FREE_BLOCKS_NO_QUOT_UPDATE else 0)) ≫= fun _ =>
    mret (err, map)
  | inr _ => done_with (MapBlocksT pblk (m_lblk map) len (Z.lor (m_flags map) (Z.lor EXT4_MAP_NEW EXT4_MAP_MAPPED))) err len
  end.

(** From the comment on the maximum length of an extent: the neighbours are known. *)
Definition allocate_blocks (path : list ext4_ext_path) (map : ext4_map_blocks_t) (flags : Z) (left right : Z * Z) : edit map_result :=
  let unwritten := has_flag flags EXT4_GET_BLOCKS_UNWRIT_EXT in
  let map :=
    if (EXT_INIT_MAX_LEN <? m_len map) && negb unwritten then set_m_len map EXT_INIT_MAX_LEN
    else if (EXT_UNWRITTEN_MAX_LEN <? m_len map) && unwritten then set_m_len map EXT_UNWRITTEN_MAX_LEN
    else map in
  r ← ext4_ext_check_overlap {| ee_block := m_lblk map; ee_len := u16 (m_len map); ee_start_hi := 0; ee_start_lo := 0 |} path;
  let '(err, newex) := r in
  let allocated := if negb (err =? 0) then ext4_ext_get_actual_len newex else m_len map in
  goal ← ext4_ext_find_goal path (m_lblk map);
  let offset := EXT4_LBLK_COFF (xs_es sb) (m_lblk map) in
  let ar := AllocRequest (m_lblk map - offset) (u64 (goal - offset)) (Z.shiftr (u32 (u32 (offset + allocated) + s_cluster_ratio (xs_es sb) - 1)) (s_cluster_bits (xs_es sb)))
    left.1 left.2 right.1 right.2
    (Z.lor (if ae_regular aenv then EXT4_MB_HINT_DATA else 0)
      (Z.lor (if has_flag flags EXT4_GET_BLOCKS_NO_NORMALIZE then EXT4_MB_HINT_NOPREALLOC else 0)
        (Z.lor (if has_flag flags EXT4_GET_BLOCKS_DELALLOC_RESERVE then EXT4_MB_DELALLOC_RESERVED else 0)
          (if has_flag flags EXT4_GET_BLOCKS_METADATA_NOFAIL then EXT4_MB_USE_RESERVED else 0)))) in
  let '(newblock, clusters, err) := ae_new aenv ar err in
  if newblock =? 0 then done_with map err allocated
  else insert_blocks path map flags newblock offset (Z.min (u32 (EXT4_C2B sb clusters - offset)) allocated) clusters err.

(** From the comment on block allocation. *)
Definition find_and_allocate (path : list ext4_ext_path) (map : ext4_map_blocks_t) (flags : Z) (ex : option ext4_extent) : edit map_result :=
  implied ← (match ex with
             | Some ex => if EXT4_LBLK_COFF (xs_es sb) (m_lblk map) =? 0 then mret None else get_implied_cluster_alloc map ex path
             | None => mret None
             end);
  match implied with
  | Some map => insert_blocks path map flags (m_pblk map) 0 (m_len map) 0 0
  | None =>
    or_error map (ext4_ext_search_left path (m_lblk map)) (fun left =>
    or_error map (ext4_ext_search_right sb ext4_chksum env path (m_lblk map)) (fun right =>
      implied ← (match right with Some ex2 => if bigalloc sb then get_implied_cluster_alloc map ex2 path else mret None | None => mret None end);
      match implied with
      | Some map => insert_blocks path map flags (m_pblk map) 0 (m_len map) 0 0
      | None => allocate_blocks path map flags left (match right with Some ex2 => (ee_block ex2, ext4_ext_pblock ex2) | None => (m_lblk map, 0) end)
      end))
  end.

(** A block that is in no extent. *)
Definition ext_map_hole (path : list ext4_ext_path) (map : ext4_map_blocks_t) (flags : Z) (ex : option ext4_extent) : edit map_result :=
  if negb (has_flag flags EXT4_GET_BLOCKS_CREATE) then fun s =>
    r ← ext4_ext_determine_insert_hole sb (ed_mem env) (x_inode s) (reverse path) (m_lblk map);
    Ok (inr (0, set_m_len (set_m_pblk map 0) (Z.min (m_len map) r.1)), set_inode s r.2)
  else find_and_allocate path map flags ex.

(** [ext4_ext_map_blocks], with any flags. *)
Definition ext_map_blocks (map : ext4_map_blocks_t) (flags : Z) : edit map_result :=
  or_error map (find_extent (m_lblk map) None 0) (fun path =>
    match path with
    | [] => lift Bug
    | p :: _ =>
      i ← gets x_inode;
      ex ← lift (leaf_extent i p);
      match ex with
      | None => if negb (ext_depth i =? 0) then mret (- EFSCORRUPTED, map) else ext_map_hole path map flags None
      | Some ex =>
        let ee_len := ext4_ext_get_actual_len ex in
        if in_range32 (m_lblk map) (ee_block ex) ee_len then
          let newblock := u64 (m_lblk map - ee_block ex + ext4_ext_pblock ex) in
          let allocated := u32 (ee_len - (m_lblk map - ee_block ex)) in
          if negb (ext4_ext_is_unwritten ex) && has_flag flags EXT4_GET_BLOCKS_CONVERT_UNWRITTEN then
            let map := limit_unwritten map in or_error map (convert_initialized_extent path map allocated) mret
          else if negb (ext4_ext_is_unwritten ex) then
            let allocated := Z.min allocated (m_len map) in
            mret (allocated, MapBlocksT newblock (m_lblk map) allocated (Z.lor (m_flags map) EXT4_MAP_MAPPED))
          else or_error map (ext4_ext_handle_unwritten_extents path map flags allocated newblock) mret
        else ext_map_hole path map flags (Some ex)
      end
    end).

(** Whether the extent status tree has the block as written. *)
Definition es_says_written (lblk : Z) : edit bool := fun s =>
  r ← ext4_es_lookup_extent (xs_es sb) (i_es (x_inode s)) lblk;
  Ok (inr (match r.1 with Some (es, _) => ext4_es_is_written es | None => false end), set_inode s (set_es (x_inode s) r.2)).
Definition cache_blocks (map : ext4_map_blocks_t) : edit unit := fun s =>
  let status := if has_flag (m_flags map) EXT4_MAP_UNWRITTEN then EXTENT_STATUS_UNWRITTEN else EXTENT_STATUS_WRITTEN in
  r ← ext4_es_insert_extent 3 (xs_es sb) (i_es (x_inode s)) (ed_mem env) (m_lblk map) (m_len map) (m_pblk map) status;
  Ok (inr tt, set_inode s (set_es (x_inode s) r.2)).

(** [ext4_map_create_blocks], for a file with extents. *)
Definition ext4_map_create_blocks (map : ext4_map_blocks_t) (flags : Z) : edit map_result :=
  let flags := if has_flag (m_flags map) EXT4_MAP_DELAYED then Z.lor flags EXT4_GET_BLOCKS_DELALLOC_RESERVE else flags in
  let map := set_m_flags map (Z.ldiff (m_flags map) EXT4_MAP_FLAGS) in
  r ← ext_map_blocks map flags;
  let '(retval, map) := r in
  if retval <=? 0 then mret (retval, map)
  else
    let err := if has_flag flags EXT4_GET_BLOCKS_ZERO && has_flag (m_flags map) EXT4_MAP_MAPPED && has_flag (m_flags map) EXT4_MAP_NEW
               then ed_zeroout env (m_pblk map) (m_len map) else 0 in
    if negb (err =? 0) then mret (err, map)
    else
      zeroed ← (if has_flag flags EXT4_GET_BLOCKS_PRE_IO then es_says_written (m_lblk map) else mret false);
      if zeroed : bool then mret (retval, map) else cache_blocks map ≫= fun _ => mret (retval, map).

Definition map_env_from : map_env := MapEnv (ed_tree env) (ed_mem env) (ae_journal aenv).

(** What [ext4_map_blocks] does when blocks have been allocated. *)
Definition finish_create (flags retval : Z) (map : ext4_map_blocks_t) : edit map_result :=
  i ← gets x_inode;
  let mapped := (0 <? retval) && has_flag (m_flags map) EXT4_MAP_MAPPED in
  let ret := if mapped then check_block_validity sb map_env_from i map else 0 in
  if negb (ret =? 0) then mret (ret, map)
  else
    let ordered := mapped && has_flag (m_flags map) EXT4_MAP_NEW && negb (has_flag (m_flags map) EXT4_MAP_UNWRITTEN) && negb (has_flag flags EXT4_GET_BLOCKS_ZERO) && ae_order aenv in
    let ret := if ordered then ae_add aenv (has_flag flags EXT4_GET_BLOCKS_IO_SUBMIT) (Z.shiftl (m_lblk map) (ae_bits aenv)) (Z.shiftl (m_len map) (ae_bits aenv)) else 0 in
    if negb (ret =? 0) then mret (ret, map) else mret (retval, map).

(** All of [ext4_map_blocks]. *)
Definition map_blocks (map : ext4_map_blocks_t) (flags : Z) : edit map_result := fun s =>
  r ← ExtMap.ext4_map_blocks sb ext4_chksum map_env_from (x_inode s) map flags;
  let '(ret, map, i) := r in
  match ret with
  | Some ret => Ok (inr (ret, map), set_inode s i)
  | None => (r ← ext4_map_create_blocks map flags; finish_create flags r.1 r.2) (set_inode s i)
  end.

(** The loop of [ext4_convert_unwritten_extents]; [dirtied], [started] and [stopped] are what making
    the inode dirty and starting and stopping a handle answer, turn by turn, 0 or an
    error; with a handle of the caller the latter are 0. *)
Fixpoint convert_loop (fuel : nat) (dirtied started stopped : nat -> Z) (turn : nat) (map : ext4_map_blocks_t) (max_blocks ret : Z) : edit Z :=
  if negb ((0 <=? ret) && (ret <? max_blocks)) then mret (if 0 <? ret then 0 else ret)
  else match fuel with
  | O => lift Hang
  | S fuel =>
    let max_blocks := u32 (max_blocks - ret) in
    let map := MapBlocksT (m_pblk map) (u32 (m_lblk map + ret)) max_blocks (m_flags map) in
    if negb (started turn =? 0) then mret (started turn)
    else
      r ← map_blocks map EXT4_GET_BLOCKS_IO_CONVERT_EXT;
      let '(ret, map) := r in
      let ret2 := if negb (stopped turn =? 0) then stopped turn else dirtied turn in
      if (ret <=? 0) || negb (ret2 =? 0) then mret (if 0 <? ret then ret2 else ret)
      else convert_loop fuel dirtied started stopped (S turn) map max_blocks ret
  end.
Definition ext4_convert_unwritten_extents (dirtied started stopped : nat -> Z) (offset len : Z) (map : ext4_map_blocks_t) : edit Z :=
  let b := ae_bits aenv in
  let lblk := u32 (Z.shiftr offset b) in
  let max_blocks := u32 (Z.shiftr (u64 (len + offset + 2 ^ b - 1)) b - Z.shiftr offset b) in
  convert_loop (Z.to_nat max_blocks) dirtied started stopped 0 (MapBlocksT (m_pblk map) lblk (m_len map) (m_flags map)) max_blocks 0.
End alloc.
