(* ===== verification/ExtZero.v ===== *)
(** A failed zeroing in [ext4_ext_convert_to_initialized] of [extents.c]: the
    blocks that could not be zeroed stay unwritten in the extent tree, and the
    extent status tree has them as written. *)

From S2P Require Import Prelude Friend ExtStatus ExtInsert ExtRemove ExtOps SysZone ExtTree ExtMap ExtLeaf ExtEdit ExtSplit ExtSpace ExtPunch ExtAlloc.

(** The demo file, whose blocks 5 and 6 are allocated and unwritten, on a device that
    fails to write zeros. *)
Definition no_zero_env : edit_env := EditEnv demo_env (fun _ => 0) (fun _ => 0) (fun _ => 0) (fun _ => true) 0 0 0 (fun _ _ => - EIO) (fun _ => EsMem true true true true).
Definition no_zero_alloc : alloc_env := AllocEnv no_zero_env 12 40960 32 77 true false (fun ar err => (500, ar_len ar, 0)) false (fun _ _ _ => 0).
Definition state_of (i : ext_inode) : edit_state := EditState i [] [] [] (PartialCluster 0 0 initial) 0.
Definition map_one (i : ext_inode) (b flags : Z) := @map_blocks list_shape demo_ext_sb demo_chksum no_zero_alloc (MapBlocksT 0 b 1 0) flags (state_of i).

(** A write of block 5 succeeds: the code tries to zero block 6 too, and falls back
    to splitting the extent. Block 6 is unwritten in the extent tree before and
    after; but a read that follows is told that it is written, and where, so it
    shows what the disk held before. With an empty extent status tree the same read
    is told that the block is unwritten. The comment at the end of the function says
    that nothing is recorded after a failure. *)
Theorem failed_zeroing_exposes_stale_block :
  exists map s s1 s2, map_one demo_inode 5 EXT4_GET_BLOCKS_CREATE = Ok (inr (1, map), s) /\ has_flag (m_flags map) EXT4_MAP_MAPPED = true /\
    file_map demo_inode 6 = Some (EXTENT_STATUS_UNWRITTEN, 1101) /\ file_map (x_inode s) 6 = Some (EXTENT_STATUS_UNWRITTEN, 1101) /\
    map_one (x_inode s) 6 0 = Ok (inr (1, MapBlocksT 1101 6 1 EXT4_MAP_MAPPED), s1) /\
    map_one (set_es (x_inode s) ext4_es_init_tree) 6 0 = Ok (inr (1, MapBlocksT 1101 6 1 EXT4_MAP_UNWRITTEN), s2).
Proof.
  eexists _, _, _, _. split; [vm_compute; reflexivity|]. split; [vm_compute; reflexivity|]. split; [vm_compute; reflexivity|].
  split; [vm_compute; reflexivity|]. split; vm_compute; reflexivity.
Qed.
