(* ===== verification/Bytes.v ===== *)
(** Byte buffers: reading and writing integers at an offset, [memcpy], [memmove]
    and [memset] on a buffer given as the list of its bytes, with the lemmas on
    which bytes a write changes. *)

From S2P Require Import Prelude Pages Log.

(** ** Operations *)

(** The [n] bytes of [b] from offset [o]. *)
Definition slice (b : list Z) (o n : Z) : list Z := take (Z.to_nat n) (drop (Z.to_nat o) b).

(** [memcpy(b + o, l, length l)]. *)
Definition splice (b : list Z) (o : Z) (l : list Z) : list Z :=
  take (Z.to_nat o) b ++ l ++ drop (Z.to_nat o + length l) b.

Definition memmove (b : list Z) (dst src n : Z) : list Z := splice b dst (slice b src n).
Definition zeros (n : Z) : list Z := replicate (Z.to_nat n) 0.

(** A little-endian integer of [n] bytes at offset [o]. *)
Definition rd (b : list Z) (o n : Z) : Z := le_value (slice b o n).
Definition wr (b : list Z) (o n v : Z) : list Z := splice b o (le_bytes (Z.to_nat n) v).

(** [len b] as an integer. *)
Definition zlen (b : list Z) : Z := Z.of_nat (length b).

(** ** Lengths and lookups *)

Lemma zlen_nonneg b : 0 <= zlen b.
Proof. unfold zlen. lia. Qed.

Lemma zlen_zeros n : 0 <= n -> zlen (zeros n) = n.
Proof. unfold zlen, zeros. rewrite length_replicate. lia. Qed.

Lemma zlen_le_bytes n v : 0 <= n -> zlen (le_bytes (Z.to_nat n) v) = n.
Proof. unfold zlen. rewrite length_le_bytes. lia. Qed.

Lemma zlen_app a b : zlen (a ++ b) = zlen a + zlen b.
Proof. unfold zlen. rewrite length_app. lia. Qed.

Lemma zlen_slice b o n : 0 <= o -> 0 <= n -> o + n <= zlen b -> zlen (slice b o n) = n.
Proof. unfold zlen, slice. intros. rewrite length_take, length_drop. lia. Qed.

Lemma lookup_slice b o n i : 0 <= o -> 0 <= n -> slice b o n !! i = if decide (Z.of_nat i < n) then b !! (Z.to_nat o + i)%nat else None.
Proof.
  intros Ho Hn. unfold slice. case_decide.
  - rewrite lookup_take_lt by lia. apply lookup_drop.
  - apply lookup_take_ge. lia.
Qed.

Lemma zlen_splice b o l : 0 <= o -> o + zlen l <= zlen b -> zlen (splice b o l) = zlen b.
Proof. unfold zlen, splice. intros. rewrite !length_app, length_take, length_drop. lia. Qed.

Lemma lookup_splice b o l i : 0 <= o -> o + zlen l <= zlen b ->
  splice b o l !! i = if decide (o <= Z.of_nat i < o + zlen l) then l !! (i - Z.to_nat o)%nat else b !! i.
Proof.
  unfold zlen, splice. intros Ho Hl. destruct (decide (i < Z.to_nat o)%nat) as [Hi|Hi].
  - rewrite decide_False by lia. rewrite lookup_app_l by (rewrite length_take; lia). by apply lookup_take_lt.
  - rewrite lookup_app_r by (rewrite length_take; lia). rewrite length_take, Nat.min_l by lia. case_decide.
    + by rewrite lookup_app_l by lia.
    + rewrite lookup_app_r by lia. rewrite lookup_drop. f_equal. lia.
Qed.

(** Buffers that agree on a range have the same slices of it. *)
Lemma slice_eq b b' o o' n : 0 <= o -> 0 <= o' -> 0 <= n ->
  (forall i, 0 <= i < n -> b !! Z.to_nat (o + i) = b' !! Z.to_nat (o' + i)) -> slice b o n = slice b' o' n.
Proof.
  intros Ho Ho' Hn H. apply list_eq. intros i. rewrite !lookup_slice by done. case_decide; [|done].
  specialize (H (Z.of_nat i)). rewrite !Z2Nat.inj_add, Nat2Z.id in H by lia. apply H. lia.
Qed.

(** ** A write and the slices of the result *)

Lemma slice_splice_ne b o l o' n : 0 <= o -> o + zlen l <= zlen b -> 0 <= o' -> 0 <= n -> o' + n <= o \/ o + zlen l <= o' ->
  slice (splice b o l) o' n = slice b o' n.
Proof. intros. apply slice_eq; [done..|]. intros i Hi. rewrite lookup_splice by done. by rewrite decide_False by lia. Qed.

Lemma slice_splice_in b o l o' n : 0 <= o -> o + zlen l <= zlen b -> o <= o' -> 0 <= n -> o' + n <= o + zlen l ->
  slice (splice b o l) o' n = slice l (o' - o) n.
Proof.
  intros. apply slice_eq; [lia..|]. intros i Hi. rewrite lookup_splice by done. rewrite decide_True by lia. f_equal. lia.
Qed.

Lemma slice_full l : slice l 0 (zlen l) = l.
Proof. unfold slice, zlen. rewrite Nat2Z.id. apply take_ge. done. Qed.

Lemma slice_splice_eq b o l : 0 <= o -> o + zlen l <= zlen b -> slice (splice b o l) o (zlen l) = l.
Proof.
  intros. pose proof (zlen_nonneg l). rewrite slice_splice_in by lia. rewrite Z.sub_diag. apply slice_full.
Qed.

Lemma slice_slice b o n o' n' : 0 <= o -> 0 <= o' -> 0 <= n' -> o' + n' <= n -> slice (slice b o n) o' n' = slice b (o + o') n'.
Proof.
  intros. apply slice_eq; [lia..|]. intros i Hi. rewrite lookup_slice by lia. rewrite decide_True by lia. f_equal. lia.
Qed.

Lemma slice_app b o n m : 0 <= o -> 0 <= n -> 0 <= m -> slice b o (n + m) = slice b o n ++ slice b (o + n) m.
Proof.
  intros. unfold slice. rewrite !Z2Nat.inj_add, <- drop_drop by lia. by rewrite take_take_drop.
Qed.

Lemma slice_app_l a b o n : 0 <= o -> 0 <= n -> o + n <= zlen a -> slice (a ++ b) o n = slice a o n.
Proof.
  unfold zlen. intros. apply slice_eq; [done..|]. intros i Hi. apply lookup_app_l. lia.
Qed.

Lemma slice_zeros o n m : 0 <= o -> 0 <= n -> o + n <= m -> slice (zeros m) o n = zeros n.
Proof.
  intros. apply list_eq. intros i. rewrite lookup_slice by done. unfold zeros. case_decide.
  - rewrite !lookup_replicate_2 by lia. done.
  - symmetry. apply lookup_replicate_None. lia.
Qed.

(** A slice that moved. *)
Lemma slice_memmove_in b dst src n o' n' : 0 <= dst -> 0 <= src -> 0 <= n -> dst + n <= zlen b -> src + n <= zlen b ->
  dst <= o' -> 0 <= n' -> o' + n' <= dst + n -> slice (memmove b dst src n) o' n' = slice b (src + (o' - dst)) n'.
Proof.
  intros. unfold memmove. rewrite slice_splice_in by (rewrite ?zlen_slice by lia; lia). apply slice_slice; lia.
Qed.

Lemma slice_memmove_ne b dst src n o' n' : 0 <= dst -> 0 <= src -> 0 <= n -> dst + n <= zlen b -> src + n <= zlen b ->
  0 <= o' -> 0 <= n' -> o' + n' <= dst \/ dst + n <= o' -> slice (memmove b dst src n) o' n' = slice b o' n'.
Proof. intros. unfold memmove. apply slice_splice_ne; try done; rewrite zlen_slice by lia; lia. Qed.

Lemma zlen_memmove b dst src n : 0 <= dst -> 0 <= src -> 0 <= n -> dst + n <= zlen b -> src + n <= zlen b ->
  zlen (memmove b dst src n) = zlen b.
Proof. intros. unfold memmove. apply zlen_splice; [done|]. rewrite zlen_slice by lia. lia. Qed.

(** ** Integers *)

Lemma rd_slice b b' o o' n : slice b o n = slice b' o' n -> rd b o n = rd b' o' n.
Proof. unfold rd. congruence. Qed.

Lemma zlen_wr b o n v : 0 <= o -> 0 <= n -> o + n <= zlen b -> zlen (wr b o n v) = zlen b.
Proof. intros. unfold wr. apply zlen_splice; [done|]. by rewrite zlen_le_bytes. Qed.

Lemma slice_wr_ne b o n v o' n' : 0 <= o -> 0 <= n -> o + n <= zlen b -> 0 <= o' -> 0 <= n' -> o' + n' <= o \/ o + n <= o' ->
  slice (wr b o n v) o' n' = slice b o' n'.
Proof. intros. unfold wr. apply slice_splice_ne; try done; rewrite zlen_le_bytes by done; lia. Qed.

Lemma rd_wr b o n v : 0 <= o -> 0 <= n -> o + n <= zlen b -> 0 <= v < 256 ^ n -> rd (wr b o n v) o n = v.
Proof.
  intros Ho Hn Hb Hv. unfold rd, wr. rewrite <- (zlen_le_bytes n v) at 2 by done.
  rewrite slice_splice_eq by (rewrite ?zlen_le_bytes; done). apply le_value_bytes. by rewrite Z2Nat.id.
Qed.

Lemma rd_wr_ne b o n v o' n' : 0 <= o -> 0 <= n -> o + n <= zlen b -> 0 <= o' -> 0 <= n' -> o' + n' <= o \/ o + n <= o' ->
  rd (wr b o n v) o' n' = rd b o' n'.
Proof. intros. apply rd_slice. by apply slice_wr_ne. Qed.

Lemma rd_zero b o n : slice b o n = zeros n -> rd b o n = 0.
Proof.
  unfold rd, zeros. intros ->. induction (Z.to_nat n) as [|k IH]; [done|]. cbn [replicate le_value]. rewrite IH. lia.
Qed.

Lemma rd_bound b o n : Forall byte_ok b -> 0 <= n -> 0 <= rd b o n < 256 ^ n.
Proof.
  intros Hb Hn. unfold rd. assert (Forall byte_ok (slice b o n)) as Hs by (by apply Forall_take, Forall_drop).
  assert (length (slice b o n) <= Z.to_nat n)%nat as Hl by (unfold slice; rewrite length_take; lia).
  assert (forall l, Forall byte_ok l -> 0 <= le_value l < 256 ^ Z.of_nat (length l)) as Hle.
  { induction 1 as [|x l Hx _ IH]; [done|]. unfold byte_ok in Hx. cbn [le_value length]. rewrite Nat2Z.inj_succ, Z.pow_succ_r by lia. lia. }
  specialize (Hle _ Hs). split; [lia|]. eapply Z.lt_le_trans; [apply Hle|]. apply Z.pow_le_mono_r; lia.
Qed.

(** The bytes stay bytes. *)
Lemma splice_ok b o l : Forall byte_ok b -> Forall byte_ok l -> Forall byte_ok (splice b o l).
Proof. intros. unfold splice. rewrite !Forall_app. split_and!; auto using Forall_take, Forall_drop. Qed.

Lemma slice_ok b o n : Forall byte_ok b -> Forall byte_ok (slice b o n).
Proof. intros. by apply Forall_take, Forall_drop. Qed.

Lemma wr_ok b o n v : Forall byte_ok b -> Forall byte_ok (wr b o n v).
Proof. intros. apply splice_ok; [done|apply le_bytes_ok]. Qed.

Lemma memmove_ok b dst src n : Forall byte_ok b -> Forall byte_ok (memmove b dst src n).
Proof. intros. apply splice_ok; [done|by apply slice_ok]. Qed.

Lemma zeros_ok n : Forall byte_ok (zeros n).
Proof. apply Forall_replicate. unfold byte_ok. lia. Qed.

#[export] Hint Resolve splice_ok slice_ok wr_ok memmove_ok zeros_ok le_bytes_ok zlen_nonneg : scorw.
#[export] Hint Rewrite zlen_zeros zlen_le_bytes zlen_app using (first [lia | apply zlen_nonneg]) : len.
