(* ===== verification/XattrLayout.v ===== *)
(** How [xattr.c] lays attributes out in a buffer: in the body of an inode, or in
    a block of its own.  Entries with their names grow from the front and end
    with a word of zeros; values are put from the back.  Checks of a buffer, the
    search for an entry, hashes, and [ext4_xattr_set_entry], which adds, replaces
    or removes an attribute in place.

    A buffer is the list of its bytes from [base] to [end]; pointers into it are
    offsets from [base].  In the body of an inode the first entry is at offset 0;
    in a block it follows the header of 32 bytes. *)

From S2P Require Import Prelude Pages Friend Log Xattr Bytes.

Definition EFSCORRUPTED : Z := 117.
Definition EFSBADCRC : Z := 74.
Definition ENOSPC : Z := 28.
Definition EEXIST : Z := 17.

(** ** Entries *)

Definition EXT4_XATTR_MAGIC : Z := 0xEA020000.
Definition EXT4_XATTR_ROUND : Z := 3.
Definition EXT4_XATTR_SIZE_MAX : Z := Z.shiftl 1 24.
Definition sizeof_entry : Z := 16.
Definition sizeof_header : Z := 32.

(** Space of an entry with its name, and of a value; the latter in the integers
    of [w] bits of the type of [n]. *)
Definition EXT4_XATTR_LEN (name_len : Z) : Z := Z.land (name_len + EXT4_XATTR_ROUND + sizeof_entry) (Z.lnot EXT4_XATTR_ROUND).
Definition EXT4_XATTR_SIZE (w n : Z) : Z := wrap w (Z.land (n + EXT4_XATTR_ROUND) (Z.lnot EXT4_XATTR_ROUND)).

(** The fields of the [struct ext4_xattr_entry] at offset [e]. *)
Definition e_name_len (b : list Z) (e : Z) : Z := rd b e 1.
Definition e_name_index (b : list Z) (e : Z) : Z := rd b (e + 1) 1.
Definition e_value_offs (b : list Z) (e : Z) : Z := rd b (e + 2) 2.
Definition e_value_inum (b : list Z) (e : Z) : Z := rd b (e + 4) 4.
Definition e_value_size (b : list Z) (e : Z) : Z := rd b (e + 8) 4.
Definition e_hash (b : list Z) (e : Z) : Z := rd b (e + 12) 4.
Definition e_name (b : list Z) (e : Z) : list Z := slice b (e + 16) (e_name_len b e).

Definition set_e_value_offs (b : list Z) (e v : Z) : list Z := wr b (e + 2) 2 v.
Definition set_e_value_inum (b : list Z) (e v : Z) : list Z := wr b (e + 4) 4 v.
Definition set_e_value_size (b : list Z) (e v : Z) : list Z := wr b (e + 8) 4 v.
Definition set_e_hash (b : list Z) (e v : Z) : list Z := wr b (e + 12) 4 v.

Definition EXT4_XATTR_NEXT (b : list Z) (e : Z) : Z := e + EXT4_XATTR_LEN (e_name_len b e).
Definition IS_LAST_ENTRY (b : list Z) (e : Z) : bool := rd b e 4 =? 0.

(** The fields of the [struct ext4_xattr_header] of a block. *)
Definition h_magic (b : list Z) : Z := rd b 0 4.
Definition h_refcount (b : list Z) : Z := rd b 4 4.
Definition h_blocks (b : list Z) : Z := rd b 8 4.
Definition h_hash (b : list Z) : Z := rd b 12 4.
Definition h_checksum (b : list Z) : Z := rd b 16 4.
Definition BFIRST : Z := sizeof_header.

(** Walks over the entries take this much fuel: every entry has four bytes or more. *)
Definition walk_fuel (b : list Z) : nat := S (length b).

(** ** Checks *)

(** What the checks use of the superblock. *)
Record xattr_sb := XattrSb { has_ea_inode : bool; first_ino : Z; inodes_count : Z; has_metadata_csum : bool; csum_seed : Z }.

Definition EXT4_ROOT_INO : Z := 2.
Definition ext4_valid_inum (sb : xattr_sb) (ino : Z) : bool :=
  (ino =? EXT4_ROOT_INO) || ((first_ino sb <=? ino) && (ino <=? inodes_count sb)).

Fixpoint strnlen (l : list Z) : Z :=
  match l with [] => 0 | c :: l' => if c =? 0 then 0 else 1 + strnlen l' end.

(** The end of the names; none where a name is out of bounds or has a zero in it. *)
Fixpoint check_names (fuel : nat) (b : list Z) (e : Z) : outcome (option Z) :=
  match fuel with
  | O => Hang
  | S k =>
    if IS_LAST_ENTRY b e then Ok (Some e)
    else let next := EXT4_XATTR_NEXT b e in
         if zlen b <=? next then Ok None
         else if negb (strnlen (e_name b e) =? e_name_len b e) then Ok None
         else check_names k b next
  end.

(** Whether the values are where values may be; [e] is the end of the names. *)
Fixpoint check_values (fuel : nat) (sb : xattr_sb) (b : list Z) (e entry : Z) : outcome bool :=
  match fuel with
  | O => Hang
  | S k =>
    if IS_LAST_ENTRY b entry then Ok true
    else let size := e_value_size b entry in
         let ea_ino := e_value_inum b entry in
         if negb (has_ea_inode sb) && negb (ea_ino =? 0) then Ok false
         else if negb (ea_ino =? 0) && ((ea_ino =? EXT4_ROOT_INO) || negb (ext4_valid_inum sb ea_ino)) then Ok false
         else if EXT4_XATTR_SIZE_MAX <? size then Ok false
         else let offs := e_value_offs b entry in
              if negb (size =? 0) && (ea_ino =? 0) &&
                 ((zlen b <? offs) || (offs <? e + 4) || (zlen b - offs <? size) || (zlen b - offs <? EXT4_XATTR_SIZE 32 size))
              then Ok false
              else check_values k sb b e (EXT4_XATTR_NEXT b entry)
  end.

(** The part of [check_xattrs] that is about entries. *)
Definition check_entries (sb : xattr_sb) (b : list Z) (first : Z) : outcome Z :=
  e ← check_names (walk_fuel b) b first;
  match e with
  | None => Ok (- EFSCORRUPTED)
  | Some e => ok ← check_values (walk_fuel b) sb b e first; Ok (if ok : bool then 0 else - EFSCORRUPTED)
  end.

(** [ext4_chksum] is an argument. *)
Definition ext4_xattr_block_csum (ext4_chksum : Z -> list Z -> Z) (sb : xattr_sb) (block_nr : Z) (b : list Z) : Z :=
  let csum := ext4_chksum (csum_seed sb) (le_bytes 8 block_nr) in
  let csum := ext4_chksum csum (slice b 0 16) in
  let csum := ext4_chksum csum (zeros 4) in
  u32 (ext4_chksum csum (slice b 20 (zlen b - 20))).
Definition ext4_xattr_block_csum_verify (ext4_chksum : Z -> list Z -> Z) (sb : xattr_sb) (block_nr : Z) (b : list Z) : bool :=
  negb (has_metadata_csum sb) || (h_checksum b =? ext4_xattr_block_csum ext4_chksum sb block_nr b).
Definition ext4_xattr_block_csum_set (ext4_chksum : Z -> list Z -> Z) (sb : xattr_sb) (block_nr : Z) (b : list Z) : list Z :=
  if has_metadata_csum sb then wr b 16 4 (ext4_xattr_block_csum ext4_chksum sb block_nr b) else b.

(** [check_xattrs] of a block; [verified] is the flag of its buffer. *)
Definition ext4_xattr_check_block (ext4_chksum : Z -> list Z -> Z) (sb : xattr_sb) (verified : bool) (block_nr : Z) (b : list Z) : outcome Z :=
  if negb (h_magic b =? EXT4_XATTR_MAGIC) || negb (h_blocks b =? 1) then Ok (- EFSCORRUPTED)
  else if verified then Ok 0
  else if negb (ext4_xattr_block_csum_verify ext4_chksum sb block_nr b) then Ok (- EFSBADCRC)
  else check_entries sb b BFIRST.

(** [check_xattrs] of the body of an inode, whose magic number is in front of the
    buffer. *)
Definition xattr_check_inode (sb : xattr_sb) (magic : Z) (b : list Z) : outcome Z :=
  if zlen b + 4 <? 8 then Ok (- EFSCORRUPTED)
  else if negb (magic =? EXT4_XATTR_MAGIC) then Ok (- EFSCORRUPTED)
  else check_entries sb b 0.

(** ** Search *)

(** The sign of [memcmp] on lists of one length. *)
Fixpoint memcmp (l1 l2 : list Z) : Z :=
  match l1, l2 with
  | a :: l1', c :: l2' => if a =? c then memcmp l1' l2' else a - c
  | _, _ => 0
  end.

(** The order of entries in a block: index, length of the name, name. *)
Definition name_cmp (name_index : Z) (name : list Z) (index : Z) (name' : list Z) : Z :=
  let cmp := name_index - index in
  let cmp := if cmp =? 0 then zlen name - zlen name' else cmp in
  if cmp =? 0 then memcmp name name' else cmp.

Fixpoint find_loop (fuel : nat) (b : list Z) (entry cmp name_index : Z) (name : list Z) (sorted : bool) : outcome (Z * Z) :=
  match fuel with
  | O => Hang
  | S k =>
    if IS_LAST_ENTRY b entry then Ok (if cmp =? 0 then 0 else - ENODATA, entry)
    else let next := EXT4_XATTR_NEXT b entry in
         if zlen b <=? next then Ok (- EFSCORRUPTED, entry)
         else let cmp := name_cmp name_index name (e_name_index b entry) (e_name b entry) in
              if (cmp <=? 0) && (sorted || (cmp =? 0)) then Ok (if cmp =? 0 then 0 else - ENODATA, entry)
              else find_loop k b next cmp name_index name sorted
  end.

(** The return value and the entry found, or where the entry would go. *)
Definition xattr_find_entry (b : list Z) (pentry name_index : Z) (name : list Z) (sorted : bool) : outcome (Z * Z) :=
  find_loop (walk_fuel b) b pentry 1 name_index name sorted.

(** ** Hashes *)

Definition hash_step (shift hash x : Z) : Z :=
  u32 (Z.lxor (Z.lxor (u32 (Z.shiftl hash shift)) (Z.shiftr hash (32 - shift))) x).
Definition NAME_HASH_SHIFT : Z := 5.
Definition VALUE_HASH_SHIFT : Z := 16.
Definition BLOCK_HASH_SHIFT : Z := 16.

(** The words of a value that is padded to a multiple of four bytes. *)
Definition words (v : list Z) : list Z := (fun k => rd v (4 * k) 4) <$> zseq 0 (Z.to_nat (zlen v / 4)).

Definition ext4_xattr_hash_entry (name : list Z) (value : list Z) : Z :=
  foldl (hash_step VALUE_HASH_SHIFT) (foldl (hash_step NAME_HASH_SHIFT) 0 name) value.

Fixpoint rehash_loop (fuel : nat) (b : list Z) (here hash : Z) : outcome Z :=
  match fuel with
  | O => Hang
  | S k =>
    if IS_LAST_ENTRY b here then Ok hash
    else if e_hash b here =? 0 then Ok 0
    else rehash_loop k b (EXT4_XATTR_NEXT b here) (hash_step BLOCK_HASH_SHIFT hash (e_hash b here))
  end.
Definition ext4_xattr_rehash (b : list Z) : outcome (list Z) :=
  hash ← rehash_loop (walk_fuel b) b BFIRST 0; Ok (wr b 12 4 hash).

(** ** Changing an entry *)

(** A value: so many zeros ([EXT4_ZERO_XATTR_VALUE]), or bytes. *)
Inductive xattr_value :=
| ZeroValue (len : Z)
| Value (bs : list Z).
Definition value_len (v : xattr_value) : Z := match v with ZeroValue n => n | Value bs => zlen bs end.
Definition value_bytes (v : xattr_value) : list Z := match v with ZeroValue n => zeros n | Value bs => bs end.

(** [struct ext4_xattr_info]; no value to remove the attribute. *)
Record ext4_xattr_info := XattrInfo { xi_name_index : Z; xi_name : list Z; xi_value : option xattr_value; xi_in_inode : bool }.

(** [struct ext4_xattr_search] on a buffer. *)
Record ext4_xattr_search := XattrSearch { s_first : Z; s_here : Z; s_not_found : bool }.

(** What [ext4_xattr_set_entry] asks of others: the file system has external
    values, the size of a block, the number and the hash of the inode that holds
    the new value, the result of releasing the inode of an old one, and of finding
    inline data again. *)
Record entry_env := EntryEnv {
  en_ea_inode : bool; en_blocksize : Z; en_new_ino : Z; en_new_hash : Z;
  en_drop_old : Z -> Z; en_inline : Z
}.
Definition EXT4_XATTR_BLOCK_RESERVE (blocksize : Z) : Z := Z.min (blocksize / 8) 1024.

(** [last] and [min_offs]; none where the entries run out of the buffer. *)
Fixpoint min_offs_loop (fuel : nat) (b : list Z) (last min_offs : Z) : outcome (option (Z * Z)) :=
  match fuel with
  | O => Hang
  | S k =>
    if IS_LAST_ENTRY b last then Ok (Some (last, min_offs))
    else let next := EXT4_XATTR_NEXT b last in
         if zlen b <=? next then Ok None
         else min_offs_loop k b next
                (if (e_value_inum b last =? 0) && negb (e_value_size b last =? 0) && (e_value_offs b last <? min_offs)
                 then e_value_offs b last else min_offs)
  end.

(** The offsets of the values in front of the removed one move up by its size. *)
Fixpoint shift_loop (fuel : nat) (b : list Z) (last offs old_size : Z) : outcome (Z * list Z) :=
  match fuel with
  | O => Hang
  | S k =>
    if IS_LAST_ENTRY b last then Ok (last, b)
    else let o := e_value_offs b last in
         let b := if (e_value_inum b last =? 0) && negb (e_value_size b last =? 0) && (o <? offs)
                  then set_e_value_offs b last (u16 (o + old_size)) else b in
         shift_loop k b (EXT4_XATTR_NEXT b last) offs old_size
  end.

(** A value with its padding, at offset [o]. *)
Definition put_value (b : list Z) (o : Z) (v : xattr_value) (new_size : Z) : list Z :=
  match v with
  | ZeroValue _ => splice b o (zeros new_size)
  | Value bs => splice (splice b o bs) (o + zlen bs) (zeros (new_size - zlen bs))
  end.

Definition remove_value (b : list Z) (first here min_offs old_size : Z) : outcome (Z * list Z) :=
  let offs := e_value_offs b here in
  let b := memmove b (min_offs + old_size) min_offs (offs - min_offs) in
  let b := splice b min_offs (zeros old_size) in
  shift_loop (walk_fuel b) b first offs old_size.

Definition remove_name (b : list Z) (here last : Z) (name : list Z) : list Z :=
  let size := EXT4_XATTR_LEN (zlen name) in
  let last := last - size in
  let b := memmove b here (here + size) (last - here + 4) in
  splice b last (zeros size).

Definition insert_name (b : list Z) (here last name_index : Z) (name : list Z) : list Z :=
  let size := EXT4_XATTR_LEN (zlen name) in
  let b := memmove b (here + size) here (last - here + 4) in
  let b := splice b here (zeros size) in
  let b := wr b (here + 1) 1 name_index in
  let b := wr b here 1 (u8 (zlen name)) in
  splice b (here + 16) name.

Definition reset_value (b : list Z) (here : Z) : list Z :=
  set_e_value_size (set_e_value_offs (set_e_value_inum b here 0) here 0) here 0.

(** The new value of the entry [here], below the others. *)
Definition insert_value (env : entry_env) (b : list Z) (here min_offs new_size : Z) (v : xattr_value) (in_inode : bool) : list Z :=
  let b :=
    if in_inode then set_e_value_inum b here (en_new_ino env)
    else if value_len v =? 0 then b
    else put_value (set_e_value_offs b here (u16 (min_offs - new_size))) (min_offs - new_size) v new_size in
  set_e_value_size b here (u32 (value_len v)).

(** From the label [update_hash]. *)
Definition update_hash (env : entry_env) (b : list Z) (here new_size : Z) (i : ext4_xattr_info) (is_block : bool) : outcome (list Z) :=
  let b :=
    match xi_value i with
    | None => b
    | Some _ =>
      set_e_hash b here
        (if xi_in_inode i then ext4_xattr_hash_entry (e_name b here) [en_new_hash env]
         else if is_block then ext4_xattr_hash_entry (e_name b here) (words (slice b (e_value_offs b here) (4 * (new_size / 4))))
         else 0)
    end in
  if is_block then ext4_xattr_rehash b else Ok b.

(** From the point where nothing fails any more, with [min_offs] and [last] of the
    buffer. *)
Definition change_entry (env : entry_env) (b : list Z) (i : ext4_xattr_info) (s : ext4_xattr_search) (is_block : bool)
    (min_offs last old_size new_size : Z) : outcome (Z * list Z) :=
  let here := s_here s in
  '(min_offs, last, b) ←
    (if negb (s_not_found s) && negb (e_value_size b here =? 0) && (e_value_inum b here =? 0) then
       '(last, b) ← remove_value b (s_first s) here min_offs old_size; Ok (min_offs + old_size, last, b)
     else Ok (min_offs, last, b));
  match xi_value i with
  | None =>
    let b := remove_name b here last (xi_name i) in
    if negb is_block && negb (en_inline env =? 0) then Ok (en_inline env, b)
    else b ← update_hash env b here new_size i is_block; Ok (0, b)
  | Some v =>
    let b := if s_not_found s then insert_name b here last (xi_name_index i) (xi_name i) else reset_value b here in
    let b := insert_value env b here min_offs new_size v (xi_in_inode i) in
    b ← update_hash env b here new_size i is_block; Ok (0, b)
  end.

(** The values of one padded size are exchanged in place. *)
Definition replace_value (env : entry_env) (b : list Z) (here new_size : Z) (i : ext4_xattr_info) (is_block : bool) : outcome (Z * list Z) :=
  let offs := e_value_offs b here in
  let b := match xi_value i with Some v => put_value (set_e_value_size b here (u32 (value_len v))) offs v new_size | None => b end in
  b ← update_hash env b here new_size i is_block; Ok (0, b).

(** Whether there is too little space; [min_offs] is the lowest value and [last]
    the end of the entries. *)
Definition no_space (env : entry_env) (i : ext4_xattr_info) (s : ext4_xattr_search) (is_block : bool) (min_offs last old_size new_size : Z) : bool :=
  match xi_value i with
  | None => false
  | Some _ =>
    let len := EXT4_XATTR_LEN (zlen (xi_name i)) in
    let free := u64 (min_offs - last - 4) in
    let free := if s_not_found s then free else u64 (free + len + old_size) in
    (free <? u64 (len + new_size)) ||
    (en_ea_inode env && negb (new_size =? 0) && is_block &&
     (u64 (min_offs + old_size - new_size) <? EXT4_XATTR_BLOCK_RESERVE (en_blocksize env)))
  end.

(** [ext4_xattr_set_entry]: the return value and the buffer. *)
Definition ext4_xattr_set_entry (env : entry_env) (i : ext4_xattr_info) (s : ext4_xattr_search) (b : list Z) (is_block : bool) : outcome (Z * list Z) :=
  let here := s_here s in
  let old_size := if negb (s_not_found s) && (e_value_inum b here =? 0) then EXT4_XATTR_SIZE 32 (e_value_size b here) else 0 in
  let new_size := match xi_value i with Some v => if xi_in_inode i then 0 else EXT4_XATTR_SIZE 64 (value_len v) | None => 0 end in
  if negb (new_size =? 0) && (new_size =? old_size) then replace_value env b here new_size i is_block
  else
    r ← min_offs_loop (walk_fuel b) b (s_first s) (zlen b);
    match r with
    | None => Ok (- EFSCORRUPTED, b)
    | Some (last, min_offs) =>
      if no_space env i s is_block min_offs last old_size new_size then Ok (- ENOSPC, b)
      else
        let ret := if negb (s_not_found s) && negb (e_value_inum b here =? 0) then en_drop_old env (e_value_inum b here) else 0 in
        if negb (ret =? 0) then Ok (ret, b)
        else change_entry env b i s is_block min_offs last old_size new_size
    end.

(** ** What a buffer means *)

(** An entry as its fields. *)
Record xent := XEnt { x_index : Z; x_name : list Z; x_offs : Z; x_inum : Z; x_size : Z; x_hash : Z }.

Definition ent (b : list Z) (e : Z) : xent :=
  XEnt (e_name_index b e) (e_name b e) (e_value_offs b e) (e_value_inum b e) (e_value_size b e) (e_hash b e).

Definition pad4 (n : Z) : Z := 4 * ((n + 3) / 4).
Definition xlen (x : xent) : Z := 16 + pad4 (zlen (x_name x)).
Definition vpad (x : xent) : Z := pad4 (x_size x).
Definition key (x : xent) : Z * list Z := (x_index x, x_name x).
Definition live (x : xent) : bool := negb (x_size x =? 0).

Fixpoint tot (xs : list xent) : Z := match xs with [] => 0 | x :: xs' => xlen x + tot xs' end.

(** The entries of [b] from offset [o] are [xs], each with its whole name. *)
Fixpoint seg (b : list Z) (o : Z) (xs : list xent) : Prop :=
  match xs with [] => True | x :: xs' => (ent b o = x /\ e_name_len b o = zlen (x_name x)) /\ seg b (o + xlen x) xs' end.

(** An entry that is not the end, with a name and no external value. *)
Record ent_ok (x : xent) : Prop := {
  eo_index : 0 < x_index x < 256;
  eo_name_len : zlen (x_name x) < 256;
  eo_name : Forall (fun c => 0 < c < 256) (x_name x);
  eo_offs : 0 <= x_offs x < 65536;
  eo_inum : x_inum x = 0;
  eo_size : 0 <= x_size x <= 65536
}.

(** Values do not overlap, and are between [lo] and [hi]. *)
Definition disj (x y : xent) : Prop :=
  live x = true -> live y = true -> x_offs x + vpad x <= x_offs y \/ x_offs y + vpad y <= x_offs x.
Definition within (lo hi : Z) (x : xent) : Prop := x_offs x <= hi /\ (live x = true -> lo <= x_offs x /\ x_offs x + vpad x <= hi).
Fixpoint apart (xs : list xent) : Prop := match xs with [] => True | x :: xs' => Forall (disj x) xs' /\ apart xs' end.

Definition val (b : list Z) (x : xent) : list Z := slice b (x_offs x) (x_size x).

(** The entries of a buffer from offset [o] on. *)
Fixpoint entries (fuel : nat) (b : list Z) (o : Z) : list xent :=
  match fuel with
  | O => []
  | S k => if IS_LAST_ENTRY b o then [] else ent b o :: entries k b (EXT4_XATTR_NEXT b o)
  end.

(** The names of a buffer whose first entry is at [first]. *)
Record names_ok (b : list Z) (first : Z) (xs : list xent) : Prop := {
  no_first : 0 <= first;
  no_bytes : Forall byte_ok b;
  no_small : zlen b <= 65536;
  no_seg : seg b first xs;
  no_ents : Forall ent_ok xs;
  no_last : rd b (first + tot xs) 4 = 0;
  no_fits : first + tot xs + 4 <= zlen b
}.

(** The values of [xs] are in [[lo, hi)]. *)
Definition vals_ok (lo hi : Z) (xs : list xent) : Prop := Forall (within lo hi) xs /\ apart xs.

(** The space of the values, and what is left. *)
Fixpoint vsum (xs : list xent) : Z := match xs with [] => 0 | x :: xs' => vpad x + vsum xs' end.
Definition room (b : list Z) (first : Z) (xs : list xent) : Z := zlen b - first - (tot xs + 4) - vsum xs.

(** A sound buffer: the values fill its end without gaps. *)
Record region (b : list Z) (first : Z) (xs : list xent) : Prop := {
  rg_names : names_ok b first xs;
  rg_vals : vals_ok (zlen b - vsum xs) (zlen b) xs;
  rg_room : 0 <= room b first xs;
  rg_keys : NoDup (key <$> xs)
}.

(** The attributes of a buffer, in order and as a map. *)
Definition pairs (b : list Z) (xs : list xent) : list (Z * list Z * list Z) := (fun x => (key x, val b x)) <$> xs.
Definition attrs (b : list Z) (xs : list xent) : gmap (Z * list Z) (list Z) := list_to_map (pairs b xs).
