(* ===== verification/XattrStore.v ===== *)
(** Where [xattr.c] keeps the attributes of an inode: in its body, and in a block
    that inodes with the same attributes share.  Reading an attribute, changing the
    body, changing the block (in place when it has one user, else in a copy), the
    search of the cache for an identical block, reference counts of blocks, and
    [ext4_xattr_set_handle].

    Values stored in inodes of their own ([ext4_xattr_inode_lookup_create] and the
    like) are an argument. *)

From Stdlib Require Import Sorting.Sorted.
From S2P Require Import Prelude Pages Friend Log Xattr Bytes XattrLayout.

(** ** State *)

(** What of an inode attributes use: the bytes of its body from the first entry to
    its end, the magic number in front of them, the flags [EXT4_STATE_XATTR] and
    [EXT4_STATE_NEW], the attribute block (0 for none). *)
Record xinode := XInode {
  i_extra_isize : Z;
  body : list Z;
  body_magic : Z;
  state_xattr : bool;
  state_new : bool;
  i_file_acl : Z
}.

Definition set_body (ino : xinode) (b : list Z) (magic : Z) (state : bool) : xinode :=
  XInode (i_extra_isize ino) b magic state (state_new ino) (i_file_acl ino).
Definition set_file_acl (ino : xinode) (blk : Z) : xinode :=
  XInode (i_extra_isize ino) (body ino) (body_magic ino) (state_xattr ino) (state_new ino) blk.

(** The attribute blocks of the file system, by number. *)
Abbreviation blocks := (gmap Z (list Z)).

(** The calls of the journal that can fail. *)
Inductive jcall := WriteAccess (blk : Z) | ReleaseAccess (blk : Z) | CreateAccess (blk : Z) | DirtyBlock (blk : Z) | ReserveInode | DirtyInode.

(** What others answer: the checksum, failed reads, buffers known to be checked,
    the journal and its credits, memory and quota, the allocator (a negative
    error or a block), whether a buffer of a block could be had, whether the cache
    entry of the block is in use, what the cache holds for a hash each time it is
    asked, and about values outside. *)
Record xenv := XEnv {
  xe_sb : xattr_sb;
  inode_size : Z;
  xe_blocksize : Z;
  ext4_chksum : Z -> list Z -> Z;
  forced_shutdown : bool;
  inode_loc_err : Z;
  bread_err : Z -> Z;
  buffer_verified : Z -> bool;
  handle_valid : bool;
  credits_short : bool;
  journal_err : jcall -> Z;
  kmem : bool;
  dquot_err : Z;
  new_meta_block : Z + Z;
  getblk : bool;
  cache_in_use : bool;
  cached : list (list Z);
  ea_read : Z -> Z -> Z + list Z;
  ea_create : list Z -> Z + (Z * Z);
  ea_iget_err : Z -> Z;
  xe_drop_old : Z -> Z;
  xe_inline : Z
}.

Definition EXT4_GOOD_OLD_INODE_SIZE : Z := 128.
Definition EXT4_INODE_HAS_XATTR_SPACE (env : xenv) (ino : xinode) : bool :=
  negb (i_extra_isize ino =? 0) && (EXT4_GOOD_OLD_INODE_SIZE + i_extra_isize ino + 4 + 4 <=? inode_size env).

Definition block_of (env : xenv) (bl : blocks) (blk : Z) : list Z := default (zeros (xe_blocksize env)) (bl !! blk).

(** ** Reading *)

(** Once the entry is found: the return value and the bytes copied. *)
Definition get_entry (env : xenv) (b : list Z) (entry buffer_size : Z) : Z * list Z :=
  let size := e_value_size b entry in
  if EXT4_XATTR_SIZE_MAX <? size then (- ERANGE, [])
  else if buffer_size <? size then (- ERANGE, [])
  else if negb (e_value_inum b entry =? 0) then
    match ea_read env (e_value_inum b entry) size with
    | inl err => (err, [])
    | inr v => (size, v)
    end
  else let offset := e_value_offs b entry in
       if zlen b <? offset + size then (- ERANGE, []) else (size, slice b offset size).

Definition ext4_xattr_block_get (env : xenv) (bl : blocks) (ino : xinode) (name_index : Z) (name : list Z) (buffer_size : Z) : outcome (Z * list Z) :=
  if i_file_acl ino =? 0 then Ok (- ENODATA, [])
  else let err := bread_err env (i_file_acl ino) in
  if negb (err =? 0) then Ok (err, [])
  else let b := block_of env bl (i_file_acl ino) in
  err ← ext4_xattr_check_block (ext4_chksum env) (xe_sb env) (buffer_verified env (i_file_acl ino)) (i_file_acl ino) b;
  if negb (err =? 0) then Ok (err, [])
  else
    '(err, entry) ← xattr_find_entry b BFIRST name_index name true;
    if negb (err =? 0) then Ok (err, []) else Ok (get_entry env b entry buffer_size).

Definition ext4_xattr_ibody_get (env : xenv) (ino : xinode) (name_index : Z) (name : list Z) (buffer_size : Z) : outcome (Z * list Z) :=
  if negb (state_xattr ino) then Ok (- ENODATA, [])
  else if negb (inode_loc_err env =? 0) then Ok (inode_loc_err env, [])
  else
    err ← xattr_check_inode (xe_sb env) (body_magic ino) (body ino);
    if negb (err =? 0) then Ok (err, [])
    else
      '(err, entry) ← xattr_find_entry (body ino) 0 name_index name false;
      if negb (err =? 0) then Ok (err, []) else Ok (get_entry env (body ino) entry buffer_size).

(** With a buffer to read into. *)
Definition ext4_xattr_get_stored (env : xenv) (bl : blocks) (ino : xinode) (name_index : Z) (name : list Z) (buffer_size : Z) : outcome (Z * list Z) :=
  if forced_shutdown env then Ok (- EIO, [])
  else if 255 <? zlen name then Ok (- ERANGE, [])
  else
    r ← ext4_xattr_ibody_get env ino name_index name buffer_size;
    if r.1 =? - ENODATA then ext4_xattr_block_get env bl ino name_index name buffer_size else Ok r.

(** ** Changing the body of the inode *)

(** [ext4_xattr_ibody_find]: an error, or the search. *)
Definition ext4_xattr_ibody_find (env : xenv) (ino : xinode) (i : ext4_xattr_info) : outcome (Z * ext4_xattr_search) :=
  let s := XattrSearch 0 0 true in
  if negb (EXT4_INODE_HAS_XATTR_SPACE env ino) then Ok (0, s)
  else if state_xattr ino then
    err ← xattr_check_inode (xe_sb env) (body_magic ino) (body ino);
    if negb (err =? 0) then Ok (err, s)
    else
      '(err, here) ← xattr_find_entry (body ino) 0 (xi_name_index i) (xi_name i) false;
      if negb (err =? 0) && negb (err =? - ENODATA) then Ok (err, s)
      else Ok (0, XattrSearch 0 here (negb (err =? 0)))
  else Ok (0, s).

(** What [ext4_xattr_set_entry] is given of the environment, with the inode made
    for the new value. *)
Definition to_entry_env (env : xenv) (ea : Z * Z) : entry_env :=
  EntryEnv (has_ea_inode (xe_sb env)) (xe_blocksize env) ea.1 ea.2 (xe_drop_old env) (xe_inline env).

(** The inode for a value that is stored outside: an error, or its number and hash. *)
Definition prepare_ea (env : xenv) (i : ext4_xattr_info) : Z + (Z * Z) :=
  match xi_value i with
  | Some v => if xi_in_inode i then ea_create env (value_bytes v) else inr (0, 0)
  | None => inr (0, 0)
  end.

Definition ext4_xattr_ibody_set (env : xenv) (ino : xinode) (i : ext4_xattr_info) (s : ext4_xattr_search) : outcome (Z * xinode) :=
  if negb (EXT4_INODE_HAS_XATTR_SPACE env ino) then Ok (- ENOSPC, ino)
  else match prepare_ea env i with
  | inl err => Ok (err, ino)
  | inr ea =>
    '(err, b) ← ext4_xattr_set_entry (to_entry_env env ea) i s (body ino) false;
    if negb (err =? 0) then Ok (err, set_body ino b (body_magic ino) (state_xattr ino))
    else if negb (IS_LAST_ENTRY b (s_first s)) then Ok (0, set_body ino b EXT4_XATTR_MAGIC true)
    else Ok (0, set_body ino b 0 false)
  end.

(** ** Blocks *)

Definition EXT4_XATTR_REFCOUNT_MAX : Z := 1024.
Definition set_h_refcount (b : list Z) (v : Z) : list Z := wr b 4 4 v.
Definition csum_set (env : xenv) (blk : Z) (b : list Z) : list Z := ext4_xattr_block_csum_set (ext4_chksum env) (xe_sb env) blk b.

(** [ext4_xattr_cmp]: 0 if the blocks are equal. *)
Fixpoint cmp_loop (fuel : nat) (b1 b2 : list Z) (e1 e2 : Z) : outcome Z :=
  match fuel with
  | O => Hang
  | S k =>
    if IS_LAST_ENTRY b1 e1 then Ok (if IS_LAST_ENTRY b2 e2 then 0 else 1)
    else if IS_LAST_ENTRY b2 e2 then Ok 1
    else if negb (e_hash b1 e1 =? e_hash b2 e2) || negb (e_name_index b1 e1 =? e_name_index b2 e2) ||
            negb (e_name_len b1 e1 =? e_name_len b2 e2) || negb (e_value_size b1 e1 =? e_value_size b2 e2) ||
            negb (e_value_inum b1 e1 =? e_value_inum b2 e2) || negb (memcmp (e_name b1 e1) (e_name b2 e2) =? 0) then Ok 1
    else if (e_value_inum b1 e1 =? 0) &&
            negb (memcmp (slice b1 (e_value_offs b1 e1) (e_value_size b1 e1)) (slice b2 (e_value_offs b2 e2) (e_value_size b1 e1)) =? 0) then Ok 1
    else cmp_loop k b1 b2 (EXT4_XATTR_NEXT b1 e1) (EXT4_XATTR_NEXT b2 e2)
  end.
Definition ext4_xattr_cmp (b1 b2 : list Z) : outcome Z := cmp_loop (walk_fuel b1) b1 b2 BFIRST BFIRST.

(** [ext4_xattr_block_cache_find] with what the cache holds for the hash: an error,
    or an identical block if there is one. *)
Fixpoint cache_find_loop (env : xenv) (bl : blocks) (b : list Z) (ce : list Z) : outcome (Z + option Z) :=
  match ce with
  | [] => Ok (inr None)
  | blk :: ce' =>
    if negb (bread_err env blk =? 0) then Ok (inl (bread_err env blk))
    else c ← ext4_xattr_cmp b (block_of env bl blk);
         if c =? 0 then Ok (inr (Some blk)) else cache_find_loop env bl b ce'
  end.
Definition ext4_xattr_block_cache_find (env : xenv) (bl : blocks) (b : list Z) (ce : list Z) : outcome (Z + option Z) :=
  if h_hash b =? 0 then Ok (inr None) else cache_find_loop env bl b ce.

(** [ext4_xattr_release_block]; errors are only reported. *)
Definition ext4_xattr_release_block (env : xenv) (bl : blocks) (blk : Z) : blocks :=
  if negb (journal_err env (ReleaseAccess blk) =? 0) then bl
  else let b := block_of env bl blk in
       let ref := h_refcount b in
       if ref =? 1 then delete blk bl
       else <[blk := csum_set env blk (set_h_refcount b (u32 (ref - 1)))]> bl.

(** [struct ext4_xattr_block_find]: the block, if there is one, and the search. *)
Record block_find := BlockFind { bs_bh : option Z; bs_s : ext4_xattr_search }.

Definition ext4_xattr_block_find (env : xenv) (bl : blocks) (ino : xinode) (i : ext4_xattr_info) : outcome (Z * block_find) :=
  let none := BlockFind None (XattrSearch 0 0 true) in
  let blk := i_file_acl ino in
  if blk =? 0 then Ok (0, none)
  else if negb (bread_err env blk =? 0) then Ok (bread_err env blk, none)
  else
    let b := block_of env bl blk in
    err ← ext4_xattr_check_block (ext4_chksum env) (xe_sb env) (buffer_verified env blk) blk b;
    if negb (err =? 0) then Ok (err, none)
    else
      '(err, here) ← xattr_find_entry b BFIRST (xi_name_index i) (xi_name i) true;
      if negb (err =? 0) && negb (err =? - ENODATA) then Ok (err, none)
      else Ok (0, BlockFind (Some blk) (XattrSearch BFIRST here (negb (err =? 0)))).

(** The new block becomes the block of the inode, and the old one is released. *)
Definition install_block (env : xenv) (bl : blocks) (ino : xinode) (old new : option Z) : Z * blocks * xinode :=
  let ino := set_file_acl ino (default 0 new) in
  match old with
  | Some o => if bool_decide (new = Some o) then (0, bl, ino) else (0, ext4_xattr_release_block env bl o, ino)
  | None => (0, bl, ino)
  end.

(** A block for the contents [b] from the allocator. *)
Definition allocate_block (env : xenv) (bl : blocks) (ino : xinode) (old : option Z) (b : list Z) : Z * blocks * xinode :=
  match new_meta_block env with
  | inl err => (err, bl, ino)
  | inr blk =>
    if negb (getblk env) then (- ENOMEM, bl, ino)
    else if negb (journal_err env (CreateAccess blk) =? 0) then (- EIO, bl, ino)
    else let bl := <[blk := csum_set env blk b]> bl in
         if negb (journal_err env (DirtyBlock blk) =? 0) then (journal_err env (DirtyBlock blk), bl, ino)
         else install_block env bl ino old (Some blk)
  end.

(** From the label [inserted], with the contents [b] that the inode is to have;
    [in_place] if they are already in its block. *)
Fixpoint inserted (rounds : list (list Z)) (env : xenv) (bl : blocks) (ino : xinode) (old : option Z) (b : list Z) (in_place : bool) : outcome (Z * blocks * xinode) :=
  if IS_LAST_ENTRY b BFIRST then Ok (install_block env bl ino old None)
  else
    r ← ext4_xattr_block_cache_find env bl b (match rounds with [] => [] | ce :: _ => ce end);
    match r with
    | inl err => Ok (err, bl, ino)
    | inr (Some blk) =>
      if bool_decide (old = Some blk) then Ok (install_block env bl ino old (Some blk))
      else if negb (dquot_err env =? 0) then Ok (dquot_err env, bl, ino)
      else if negb (journal_err env (WriteAccess blk) =? 0) then Ok (journal_err env (WriteAccess blk), bl, ino)
      else
        let nb := block_of env bl blk in
        let ref := u32 (h_refcount nb + 1) in
        if EXT4_XATTR_REFCOUNT_MAX <? ref then
          match rounds with [] => Hang | _ :: rounds' => inserted rounds' env bl ino old b in_place end
        else
          let bl := <[blk := csum_set env blk (set_h_refcount nb ref)]> bl in
          if negb (journal_err env (DirtyBlock blk) =? 0) then Ok (journal_err env (DirtyBlock blk), bl, ino)
          else Ok (install_block env bl ino old (Some blk))
    | inr None =>
      if in_place then Ok (install_block env bl ino old old) else Ok (allocate_block env bl ino old b)
    end.

(** The buffer a new block is made in. *)
Definition fresh_block (env : xenv) : list Z :=
  let b := zeros (xe_blocksize env) in
  set_h_refcount (wr (wr b 0 4 EXT4_XATTR_MAGIC) 8 4 1) 1.

Definition set_in_copy (env : xenv) (bl : blocks) (ino : xinode) (i : ext4_xattr_info) (old : option Z) (s : ext4_xattr_search) (b : list Z) (ea : Z * Z) : outcome (Z * blocks * xinode) :=
  '(err, b) ← ext4_xattr_set_entry (to_entry_env env ea) i s b true;
  if negb (err =? 0) then Ok (err, bl, ino) else inserted (cached env) env bl ino old b false.

Definition ext4_xattr_block_set (env : xenv) (bl : blocks) (ino : xinode) (i : ext4_xattr_info) (bs : block_find) : outcome (Z * blocks * xinode) :=
  match prepare_ea env i with
  | inl err => Ok (err, bl, ino)
  | inr ea =>
    match bs_bh bs with
    | Some blk =>
      if negb (journal_err env (WriteAccess blk) =? 0) then Ok (journal_err env (WriteAccess blk), bl, ino)
      else
        let b := block_of env bl blk in
        let s := bs_s bs in
        if (h_refcount b =? 1) && negb (cache_in_use env) then
          '(err, b) ← ext4_xattr_set_entry (to_entry_env env ea) i s b true;
          let b := csum_set env blk b in
          let bl := <[blk := b]> bl in
          if negb (err =? 0) then Ok (err, bl, ino)
          else if negb (journal_err env (DirtyBlock blk) =? 0) then Ok (journal_err env (DirtyBlock blk), bl, ino)
          else inserted (cached env) env bl ino (Some blk) b true
        else if negb (kmem env) then Ok (- ENOMEM, bl, ino)
        else
          let b := set_h_refcount b 1 in
          let here := s_here s in
          if negb (s_not_found s) && negb (e_value_inum b here =? 0) then
            if negb (ea_iget_err env (e_value_inum b here) =? 0) then Ok (ea_iget_err env (e_value_inum b here), bl, ino)
            else set_in_copy env bl ino i (Some blk) s (set_e_value_size (set_e_value_inum b here 0) here 0) ea
          else set_in_copy env bl ino i (Some blk) s b ea
    | None =>
      if negb (kmem env) then Ok (- ENOMEM, bl, ino)
      else set_in_copy env bl ino i None (XattrSearch BFIRST BFIRST (s_not_found (bs_s bs))) (fresh_block env) ea
    end
  end.

(** ** Setting an attribute *)

(** Of the entry of a search: whether it has the value already. *)
Definition ext4_xattr_value_same (b : list Z) (s : ext4_xattr_search) (value : list Z) : bool :=
  if negb (e_value_inum b (s_here s) =? 0) then false
  else if negb (e_value_size b (s_here s) =? zlen value) then false
  else memcmp (slice b (e_value_offs b (s_here s)) (zlen value)) value =? 0.

(** From the label [retry_inode]: body first, then block; where the value went to
    one, it is removed from the other.  Also whether neither has the space for it,
    so that an inode of its own may be tried. *)
Definition set_somewhere (env : xenv) (bl : blocks) (ino : xinode) (i : ext4_xattr_info) (si : ext4_xattr_search) (bs : block_find) :
    outcome (Z * blocks * xinode * block_find * bool) :=
  let remove := XattrInfo (xi_name_index i) (xi_name i) None (xi_in_inode i) in
  '(err, ino) ← ext4_xattr_ibody_set env ino i si;
  if (err =? 0) && negb (s_not_found (bs_s bs)) then
    '(err, bl, ino) ← ext4_xattr_block_set env bl ino remove bs; Ok (err, bl, ino, bs, false)
  else if err =? - ENOSPC then
    '(err, bs) ← (if negb (i_file_acl ino =? 0) && bool_decide (bs_bh bs = None) then ext4_xattr_block_find env bl ino i else Ok (0, bs));
    if negb (err =? 0) then Ok (err, bl, ino, bs, false)
    else
      '(err, bl, ino) ← ext4_xattr_block_set env bl ino i bs;
      if (err =? 0) && negb (s_not_found si) then
        '(err, ino) ← ext4_xattr_ibody_set env ino remove si; Ok (err, bl, ino, bs, false)
      else Ok (err, bl, ino, bs, err =? - ENOSPC)
  else Ok (err, bl, ino, bs, false).

Definition EXT4_XATTR_MIN_LARGE_EA_SIZE (b : Z) : Z := b - EXT4_XATTR_LEN 3 - sizeof_header - 4.

(** Storing a value, in an inode of its own only where it does not fit otherwise or
    is large. *)
Definition set_value (env : xenv) (bl : blocks) (ino : xinode) (i : ext4_xattr_info) (si : ext4_xattr_search) (bs : block_find) (value : list Z) : outcome (Z * blocks * xinode) :=
  if negb (s_not_found si) && ext4_xattr_value_same (body ino) si value then Ok (0, bl, ino)
  else if negb (s_not_found (bs_s bs)) && ext4_xattr_value_same (block_of env bl (i_file_acl ino)) (bs_s bs) value then Ok (0, bl, ino)
  else
    let large := has_ea_inode (xe_sb env) && (EXT4_XATTR_MIN_LARGE_EA_SIZE (xe_blocksize env) <? EXT4_XATTR_SIZE 64 (zlen value)) in
    '(err, bl, ino, bs, again) ← set_somewhere env bl ino (XattrInfo (xi_name_index i) (xi_name i) (xi_value i) large) si bs;
    if again && has_ea_inode (xe_sb env) && negb (zlen value =? 0) && negb large then
      '(err, bl, ino, _, _) ← set_somewhere env bl ino (XattrInfo (xi_name_index i) (xi_name i) (xi_value i) true) si bs; Ok (err, bl, ino)
    else Ok (err, bl, ino).

(** [ext4_xattr_get_block]: the error of reading and checking the block. *)
Definition ext4_xattr_get_block (env : xenv) (bl : blocks) (ino : xinode) : outcome Z :=
  let blk := i_file_acl ino in
  if blk =? 0 then Ok 0
  else if negb (bread_err env blk =? 0) then Ok (bread_err env blk)
  else ext4_xattr_check_block (ext4_chksum env) (xe_sb env) (buffer_verified env blk) blk (block_of env bl blk).

(** [ext4_xattr_set_handle] with the flags [XATTR_CREATE] and [XATTR_REPLACE]: the
    return value, the blocks and the inode. *)
Definition ext4_xattr_set_handle (env : xenv) (bl : blocks) (ino : xinode) (name_index : Z) (name : list Z) (value : option (list Z)) (create replace : bool) :
    outcome (Z * blocks * xinode) :=
  let i := XattrInfo name_index name (Value <$> value) false in
  if 255 <? zlen name then Ok (- ERANGE, bl, ino)
  else
    err ← (if handle_valid env then ext4_xattr_get_block env bl ino else Ok 0);
    if negb (err =? 0) then Ok (err, bl, ino)
    else if handle_valid env && credits_short env then Ok (- ENOSPC, bl, ino)
    else if negb (journal_err env ReserveInode =? 0) then Ok (journal_err env ReserveInode, bl, ino)
    else
      let ino := if state_new ino then XInode (i_extra_isize ino) (zeros (zlen (body ino))) 0 (state_xattr ino) false (i_file_acl ino) else ino in
      '(err, si) ← ext4_xattr_ibody_find env ino i;
      if negb (err =? 0) then Ok (err, bl, ino)
      else
        '(err, bs) ← (if s_not_found si then ext4_xattr_block_find env bl ino i else Ok (0, BlockFind None (XattrSearch 0 0 true)));
        if negb (err =? 0) then Ok (err, bl, ino)
        else
          let absent := s_not_found si && s_not_found (bs_s bs) in
          if absent && replace then Ok (- ENODATA, bl, ino)
          else if absent && bool_decide (value = None) then Ok (0, bl, ino)
          else if negb absent && create then Ok (- EEXIST, bl, ino)
          else
            '(err, bl, ino) ←
              match value with
              | None =>
                if negb (s_not_found si) then '(err, ino) ← ext4_xattr_ibody_set env ino i si; Ok (err, bl, ino)
                else ext4_xattr_block_set env bl ino i bs
              | Some v => set_value env bl ino i si bs v
              end;
            if negb (err =? 0) then Ok (err, bl, ino) else Ok (journal_err env DirtyInode, bl, ino).

(** ** What the store means *)

Definition map_of (b : list Z) (first : Z) : gmap (Z * list Z) (list Z) := attrs b (entries (walk_fuel b) b first).
Definition body_attrs (ino : xinode) : gmap (Z * list Z) (list Z) := if state_xattr ino then map_of (body ino) 0 else ∅.
Definition block_attrs (env : xenv) (bl : blocks) (blk : Z) : gmap (Z * list Z) (list Z) :=
  if blk =? 0 then ∅ else map_of (block_of env bl blk) BFIRST.

(** The attributes of an inode; what is in the body is found first. *)
Definition xattr_map (env : xenv) (bl : blocks) (ino : xinode) : gmap (Z * list Z) (list Z) :=
  body_attrs ino ∪ block_attrs env bl (i_file_acl ino).

(** A sound body with the entries [xs], or none. *)
Definition body_ok (env : xenv) (ino : xinode) (xs : list xent) : Prop :=
  (EXT4_INODE_HAS_XATTR_SPACE env ino = true /\ region (body ino) 0 xs /\ state_xattr ino = bool_decide (xs <> []) /\
     (state_xattr ino = true -> body_magic ino = EXT4_XATTR_MAGIC)) \/
  (EXT4_INODE_HAS_XATTR_SPACE env ino = false /\ state_xattr ino = false /\ xs = []).

(** The order [key_lt] of the entries of a block. *)
Definition key_lt (k k' : Z * list Z) : Prop := name_cmp k.1 k.2 k'.1 k'.2 < 0.

(** Contents for a block: sound and sorted, with a sound header. *)
Record contents_ok (env : xenv) (b : list Z) (ys : list xent) : Prop := {
  co_size : zlen b = xe_blocksize env;
  co_region : region b BFIRST ys;
  co_sorted : StronglySorted key_lt (key <$> ys);
  co_magic : h_magic b = EXT4_XATTR_MAGIC;
  co_blocks : h_blocks b = 1
}.

(** A sound block with [n] users. *)
Record block_ok (env : xenv) (blk : Z) (b : list Z) (ys : list xent) (n : Z) : Prop := {
  bk_contents : contents_ok env b ys;
  bk_count : h_refcount b = n;
  bk_bound : 1 <= n <= EXT4_XATTR_REFCOUNT_MAX;
  bk_csum : ext4_xattr_block_csum_verify (ext4_chksum env) (xe_sb env) blk b = true
}.

(** The blocks in use, with their numbers of users. *)
Record blocks_ok (env : xenv) (rf : Z -> Z) (bl : blocks) : Prop := {
  bs_ok : forall blk b, bl !! blk = Some b -> blk <> 0 /\ exists ys, block_ok env blk b ys (rf blk);
  bs_used : forall blk, 0 < rf blk -> is_Some (bl !! blk);
  bs_nonneg : forall blk, 0 <= rf blk
}.

(** The users of a block where [users] counts other inodes. *)
Definition refs (users : Z -> Z) (acl blk : Z) : Z := users blk + (if (blk =? acl) && negb (acl =? 0) then 1 else 0).

(** A sound store: the body of the inode, and the blocks as the inode and the
    other [users] have them. *)
Definition store_sound (env : xenv) (users : Z -> Z) (bl : blocks) (ino : xinode) : Prop :=
  (exists xs, body_ok env ino xs) /\ (state_new ino = true -> state_xattr ino = false) /\ blocks_ok env (refs users (i_file_acl ino)) bl /\ (forall blk, 0 <= users blk).
(** No attribute is both in the body and in the block. *)
Definition attrs_apart (env : xenv) (bl : blocks) (ino : xinode) : Prop := body_attrs ino ##ₘ block_attrs env bl (i_file_acl ino).

(** Journal, memory, reads and quota do not fail, values are not stored outside,
    the allocator gives a block that is free, and the cache knows blocks in use. *)
Record quiet (env : xenv) (bl : blocks) : Prop := {
  qt_ea : has_ea_inode (xe_sb env) = false;
  qt_journal : forall c, journal_err env c = 0;
  qt_bread : forall blk, bread_err env blk = 0;
  qt_loc : inode_loc_err env = 0;
  qt_kmem : kmem env = true;
  qt_dquot : dquot_err env = 0;
  qt_getblk : getblk env = true;
  qt_credits : credits_short env = false;
  qt_inline : xe_inline env = 0;
  qt_new : match new_meta_block env with inl err => err < 0 | inr blk => blk <> 0 /\ bl !! blk = None end;
  qt_cached : forall ce blk, ce ∈ cached env -> blk ∈ ce -> is_Some (bl !! blk);
  qt_blocksize : BFIRST + 4 <= xe_blocksize env <= 65536
}.
