(* ===== verification/XattrEntry.v ===== *)
(** Proofs on the layout of [XattrLayout]: what the walks over the entries
    return, and how each step of [ext4_xattr_set_entry] changes the entries and
    the values of a buffer. *)

From S2P Require Import Prelude Pages Friend Log Xattr Bytes XattrLayout XattrStore.

(** ** Sizes *)

Lemma land_pad x : Z.land x (Z.lnot 3) = 4 * (x / 4).
Proof.
  rewrite <- Z.ldiff_land. change 3 with (Z.ones 2). rewrite Z.ldiff_ones_r by lia.
  rewrite Z.shiftl_mul_pow2, Z.shiftr_div_pow2 by lia. change (2 ^ 2) with 4. lia.
Qed.

Lemma pad4_bounds n : 0 <= n -> n <= pad4 n < n + 4 /\ 0 <= pad4 n /\ pad4 n mod 4 = 0.
Proof. unfold pad4. intros. Z.to_euclidean_division_equations. lia. Qed.

Lemma pad4_0 : pad4 0 = 0.
Proof. done. Qed.

Lemma LEN_pad n : EXT4_XATTR_LEN n = 16 + pad4 n.
Proof.
  unfold EXT4_XATTR_LEN, EXT4_XATTR_ROUND, sizeof_entry, pad4. rewrite land_pad. Z.to_euclidean_division_equations. lia.
Qed.

Lemma SIZE_pad w n : 0 <= n -> 0 <= w -> n + 4 <= 2 ^ w -> EXT4_XATTR_SIZE w n = pad4 n.
Proof.
  intros. unfold EXT4_XATTR_SIZE, EXT4_XATTR_ROUND. rewrite land_pad. pose proof (pad4_bounds n). unfold pad4 in *.
  apply wrap_small. lia.
Qed.

Lemma xlen_bounds x : 16 <= xlen x.
Proof. unfold xlen. pose proof (pad4_bounds _ (zlen_nonneg (x_name x))). lia. Qed.

Lemma tot_nonneg xs : 0 <= tot xs.
Proof. induction xs as [|x xs IH]; cbn [tot]; [lia|]. pose proof (xlen_bounds x). lia. Qed.

Lemma tot_length xs : 16 * Z.of_nat (length xs) <= tot xs.
Proof. induction xs as [|x xs IH]; cbn [tot length]; [lia|]. pose proof (xlen_bounds x). lia. Qed.

Lemma tot_app xs ys : tot (xs ++ ys) = tot xs + tot ys.
Proof. induction xs as [|x xs IH]; cbn [tot app]; lia. Qed.

(** ** Entries and slices *)

(** Parts of equal slices are equal. *)
Lemma slice_sub b b' o o' n j k : slice b o n = slice b' o' n -> 0 <= o -> 0 <= o' -> 0 <= j -> 0 <= k -> j + k <= n ->
  slice b (o + j) k = slice b' (o' + j) k.
Proof. intros E ? ? ? ? ?. by rewrite <- (slice_slice b o n), <- (slice_slice b' o' n), E by lia. Qed.

Lemma rd_sub b b' o o' n j k : slice b o n = slice b' o' n -> 0 <= o -> 0 <= o' -> 0 <= j -> 0 <= k -> j + k <= n ->
  rd b (o + j) k = rd b' (o' + j) k.
Proof. intros. apply rd_slice. by eapply slice_sub. Qed.

(** An entry is a function of its header and name. *)
Lemma ent_slice b b' o o' n : slice b o n = slice b' o' n -> 0 <= o -> 0 <= o' -> 0 <= e_name_len b o -> 16 + e_name_len b o <= n ->
  ent b o = ent b' o'.
Proof.
  intros E Ho Ho' Hl Hn.
  assert (e_name_len b o = e_name_len b' o') as El.
  { unfold e_name_len. rewrite <- (Z.add_0_r o), <- (Z.add_0_r o'). apply (rd_sub _ _ _ _ n); lia || done. }
  unfold ent, e_name_index, e_name, e_value_offs, e_value_inum, e_value_size, e_hash. rewrite <- El.
  f_equal; [apply (rd_sub _ _ _ _ n); lia || done|apply (slice_sub _ _ _ _ n); lia || done|apply (rd_sub _ _ _ _ n); lia || done..].
Qed.

Lemma name_len_bound b o : Forall byte_ok b -> 0 <= e_name_len b o < 256.
Proof. intros. unfold e_name_len. pose proof (rd_bound b o 1 H). lia. Qed.

(** The name of an entry that is in the buffer has the length the entry says. *)
Lemma ent_name_len b o : Forall byte_ok b -> 0 <= o -> o + 16 + e_name_len b o <= zlen b -> zlen (x_name (ent b o)) = e_name_len b o.
Proof. intros Hb Ho Hl. pose proof (name_len_bound b o Hb). cbn. unfold e_name. apply zlen_slice; lia. Qed.

Lemma rd_app b o n m : 0 <= o -> 0 <= n -> 0 <= m -> o + n <= zlen b -> rd b o (n + m) = rd b o n + 256 ^ n * rd b (o + n) m.
Proof.
  intros. unfold rd. rewrite slice_app, le_value_app by lia. do 2 f_equal.
  pose proof (zlen_slice b o n ltac:(lia) ltac:(lia) ltac:(lia)) as Hz. unfold zlen in Hz. by rewrite Hz.
Qed.

(** An entry with an index is not the end. *)
Lemma not_last b o : Forall byte_ok b -> 0 <= o -> o + 4 <= zlen b -> 0 < e_name_index b o -> IS_LAST_ENTRY b o = false.
Proof.
  intros Hb Ho Hl Hi. unfold IS_LAST_ENTRY, e_name_index in *. apply Z.eqb_neq.
  change (rd b o 4) with (rd b o (1 + (1 + 2))). rewrite rd_app, (rd_app b (o + 1) 1 2) by lia.
  pose proof (rd_bound b o 1 Hb). pose proof (rd_bound b (o + 1 + 1) 2 Hb). change (256 ^ 1) with 256 in *. lia.
Qed.

(** ** Segments *)

(** [b'] differs from [b] only in [[lo, hi)]. *)
Record only (lo hi : Z) (b b' : list Z) : Prop := {
  on_len : zlen b' = zlen b;
  on_bytes : Forall byte_ok b -> Forall byte_ok b';
  on_same : forall o n, 0 <= o -> 0 <= n -> o + n <= lo \/ hi <= o -> slice b' o n = slice b o n
}.

Lemma only_refl lo hi b : only lo hi b b.
Proof. by split. Qed.

Lemma only_trans lo hi b1 b2 b3 : only lo hi b1 b2 -> only lo hi b2 b3 -> only lo hi b1 b3.
Proof. intros [L1 B1 S1] [L2 B2 S2]. split; [congruence|auto|]. intros o n ? ? ?. rewrite S2, S1 by done. done. Qed.

Lemma only_mono lo hi lo' hi' b b' : lo' <= lo -> hi <= hi' -> only lo hi b b' -> only lo' hi' b b'.
Proof. intros ? ? [L B S]. split; [done..|]. intros o n ? ? ?. apply S; lia. Qed.

Lemma only_splice b o l n : zlen l = n -> 0 <= o -> o + n <= zlen b -> Forall byte_ok l -> only o (o + n) b (splice b o l).
Proof.
  intros <- Ho Hl Hok. split; [by apply zlen_splice|intros; by apply splice_ok|].
  intros o' n ? ? ?. by apply slice_splice_ne.
Qed.

Lemma only_wr b o n v : 0 <= n -> 0 <= o -> o + n <= zlen b -> only o (o + n) b (wr b o n v).
Proof. intros. unfold wr. apply only_splice; [by apply zlen_le_bytes|lia|lia|apply le_bytes_ok]. Qed.

Lemma only_memmove b dst src n : 0 <= dst -> 0 <= src -> 0 <= n -> dst + n <= zlen b -> src + n <= zlen b -> Forall byte_ok b ->
  only dst (dst + n) b (memmove b dst src n).
Proof. intros. unfold memmove. apply only_splice; [by apply zlen_slice|lia|lia|by apply slice_ok]. Qed.

Lemma only_rd lo hi b b' o n : only lo hi b b' -> 0 <= o -> 0 <= n -> o + n <= lo \/ hi <= o -> rd b' o n = rd b o n.
Proof. intros O ? ? ?. apply rd_slice. by apply (on_same _ _ _ _ O). Qed.

Lemma seg_app b o xs ys : seg b o (xs ++ ys) <-> seg b o xs /\ seg b (o + tot xs) ys.
Proof.
  revert o. induction xs as [|x xs IH]; intros o; cbn [seg app tot]; [rewrite Z.add_0_r; split; [by split|by intros [_ ?]]|].
  rewrite IH. replace (o + xlen x + tot xs) with (o + (xlen x + tot xs)) by lia. tauto.
Qed.

(** A segment is a function of its bytes. *)
Lemma seg_slice b b' o o' xs : slice b o (tot xs) = slice b' o' (tot xs) -> Forall byte_ok b -> 0 <= o -> 0 <= o' -> o + tot xs <= zlen b ->
  seg b o xs -> seg b' o' xs.
Proof.
  revert o o'. induction xs as [|x xs IH]; intros o o' E Hb Ho Ho' Hl; cbn [seg tot] in *; [done|]. intros [Ex Hs].
  pose proof (tot_nonneg xs). pose proof (xlen_bounds x). pose proof (name_len_bound b o Hb) as Hn.
  destruct Ex as [Ex En]. pose proof (pad4_bounds _ (zlen_nonneg (x_name x))) as Hp. unfold xlen in *.
  assert (ent b' o' = x) as Ex' by (rewrite <- Ex; symmetry; apply (ent_slice _ _ _ _ _ E); lia).
  split; [split; [done|]|].
  - rewrite <- En. unfold e_name_len. rewrite <- (Z.add_0_r o), <- (Z.add_0_r o'). symmetry. apply (rd_sub _ _ _ _ _ _ _ E); lia.
  - apply (IH (o + (16 + pad4 (zlen (x_name x))))); [apply (slice_sub _ _ _ _ _ _ _ E); lia|done|lia|lia|lia|done].
Qed.

Lemma seg_only lo hi b b' o xs : only lo hi b b' -> Forall byte_ok b -> 0 <= o -> o + tot xs <= zlen b -> o + tot xs <= lo \/ hi <= o ->
  seg b o xs -> seg b' o xs.
Proof. intros O Hb Ho Hl Hd. apply seg_slice; [|done..]. symmetry. apply (on_same _ _ _ _ O); [done|apply tot_nonneg|done]. Qed.

(** The next entry. *)
Lemma seg_next b o x xs : seg b o (x :: xs) -> EXT4_XATTR_NEXT b o = o + xlen x.
Proof. intros [[_ En] _]. unfold EXT4_XATTR_NEXT, xlen. by rewrite LEN_pad, En. Qed.

(** ** Walks *)

Lemma names_last b o : names_ok b o [] -> IS_LAST_ENTRY b o = true.
Proof. intros N. pose proof (no_last _ _ _ N) as H. cbn [tot] in H. rewrite Z.add_0_r in H. unfold IS_LAST_ENTRY. by rewrite H. Qed.

Lemma names_head b o x xs : names_ok b o (x :: xs) ->
  IS_LAST_ENTRY b o = false /\ EXT4_XATTR_NEXT b o = o + xlen x /\ ent b o = x /\ (zlen b <=? o + xlen x) = false /\ ent_ok x.
Proof.
  intros N. destruct (no_seg _ _ _ N) as [[Ex En] Hs]. pose proof (no_ents _ _ _ N) as [Hx Hxs]%Forall_cons.
  pose proof (no_fits _ _ _ N) as Hf. pose proof (no_first _ _ _ N). cbn [tot] in Hf. pose proof (tot_nonneg xs). pose proof (xlen_bounds x).
  split_and!; [|by eapply seg_next|done|lia|done].
  apply not_last; [apply N|done|lia|]. pose proof (eo_index _ Hx) as Hi. rewrite <- Ex in Hi. apply Hi.
Qed.

Lemma names_tail b o x xs : names_ok b o (x :: xs) -> names_ok b (o + xlen x) xs.
Proof.
  intros [? ? ? [_ ?] [_ ?]%Forall_cons Hl Hf]. cbn [tot] in *. pose proof (xlen_bounds x).
  split; try done; [lia|by replace (o + xlen x + tot xs) with (o + (xlen x + tot xs)) by lia|lia].
Qed.

Lemma names_fuel b o xs : names_ok b o xs -> (length xs < walk_fuel b)%nat.
Proof. intros N. pose proof (no_fits _ _ _ N). pose proof (no_first _ _ _ N). pose proof (tot_length xs). unfold walk_fuel, zlen in *. lia. Qed.

(** Where an entry is, in the middle of a buffer. *)
Lemma names_app b o l r : names_ok b o (l ++ r) -> names_ok b (o + tot l) r.
Proof.
  revert o. induction l as [|x l IH]; intros o N; cbn [app tot] in *; [by rewrite Z.add_0_r|].
  replace (o + (xlen x + tot l)) with (o + xlen x + tot l) by lia. by apply IH, names_tail.
Qed.

Definition minoffs (m : Z) (xs : list xent) : Z := foldl (fun m x => if live x && (x_offs x <? m) then x_offs x else m) m xs.

Lemma min_offs_loop_spec fuel b o xs m : names_ok b o xs -> (length xs < fuel)%nat ->
  min_offs_loop fuel b o m = Ok (Some (o + tot xs, minoffs m xs)).
Proof.
  revert fuel o m. induction xs as [|x xs IH]; intros [|k] o m N Hk; cbn [length] in Hk; try lia; cbn [min_offs_loop].
  - rewrite (names_last _ _ N). cbn [tot]. by rewrite Z.add_0_r.
  - destruct (names_head _ _ _ _ N) as (-> & -> & Ex & -> & Hx). rewrite (IH k) by (apply names_tail in N; done || lia).
    cbn [tot minoffs foldl]. do 3 f_equal; [lia|]. fold (minoffs m xs). f_equal.
    change (e_value_inum b o) with (x_inum (ent b o)). change (e_value_size b o) with (x_size (ent b o)). change (e_value_offs b o) with (x_offs (ent b o)).
    rewrite Ex, (eo_inum _ Hx). done.
Qed.

Lemma minoffs_le m xs : minoffs m xs <= m.
Proof.
  revert m. induction xs as [|x xs IH]; intros m; cbn; [lia|]. fold (minoffs m xs). etrans; [apply IH|]. destruct (live x); cbn [andb]; case_bools; lia.
Qed.

Lemma minoffs_lb m xs x : x ∈ xs -> live x = true -> minoffs m xs <= x_offs x.
Proof.
  revert m. induction xs as [|y xs IH]; intros m Hx Hl; [by apply elem_of_nil in Hx|]. apply elem_of_cons in Hx as [-> | Hx]; [|by apply IH].
  cbn. rewrite Hl. cbn [andb]. etrans; [apply minoffs_le|]. case_bools; lia.
Qed.

Lemma minoffs_ge lo m xs : lo <= m -> Forall (within lo m) xs -> lo <= minoffs m xs.
Proof.
  intros Hm Hw. assert (forall m', lo <= m' -> lo <= minoffs m' xs) as Hall; [|by apply Hall]. induction Hw as [|x xs Hx Hxs IH]; intros m' Hm'; [done|].
  cbn. apply IH. destruct (live x) eqn:E; cbn [andb]; [|done]. destruct (proj2 Hx E). case_bools; lia.
Qed.

Lemma rehash_loop_spec fuel b o xs h : names_ok b o xs -> (length xs < fuel)%nat -> 0 <= h < 2 ^ 32 ->
  exists h', rehash_loop fuel b o h = Ok h' /\ 0 <= h' < 2 ^ 32.
Proof.
  revert fuel o h. induction xs as [|x xs IH]; intros [|k] o h N Hk Hh; cbn [length] in Hk; try lia; cbn [rehash_loop].
  - rewrite (names_last _ _ N). by exists h.
  - destruct (names_head _ _ _ _ N) as (-> & -> & Ex & _ & Hx). case_match; [exists 0; split; [done|lia]|].
    apply IH; [by apply names_tail|lia|]. apply wrap_bound. lia.
Qed.

(** The offset moved by [remove_value]. *)
Definition set_offs (x : xent) (o : Z) : xent := XEnt (x_index x) (x_name x) o (x_inum x) (x_size x) (x_hash x).
Definition shifted (offs old : Z) (x : xent) : xent := if live x && (x_offs x <? offs) then set_offs x (u16 (x_offs x + old)) else x.

Lemma ent_set_offs b o v : Forall byte_ok b -> 0 <= o -> o + 16 + e_name_len b o <= zlen b -> 0 <= v < 65536 ->
  ent (set_e_value_offs b o v) o = set_offs (ent b o) v /\ e_name_len (set_e_value_offs b o v) o = e_name_len b o.
Proof.
  intros Hb Ho Hl Hv. pose proof (name_len_bound b o Hb). unfold set_e_value_offs.
  assert (e_name_len (wr b (o + 2) 2 v) o = e_name_len b o) as En by (apply rd_wr_ne; lia). split; [|done].
  unfold ent, set_offs, e_name_index, e_name, e_value_offs, e_value_inum, e_value_size, e_hash. rewrite En.
  cbn [x_index x_name x_inum x_size x_hash]. rewrite rd_wr, !rd_wr_ne, slice_wr_ne by (try lia; done). done.
Qed.

Lemma shifted_xlen offs old x : xlen (shifted offs old x) = xlen x.
Proof. unfold shifted. by case_match. Qed.
Lemma shifted_tot offs old xs : tot (shifted offs old <$> xs) = tot xs.
Proof. induction xs as [|x xs IH]; [done|]. cbn [fmap list_fmap tot]. rewrite shifted_xlen. by f_equal. Qed.
Lemma shifted_ok offs old x : ent_ok x -> ent_ok (shifted offs old x).
Proof. intros []. unfold shifted. case_match; [|done]. split; cbn; try done. pose proof (wrap_bound 16 (x_offs x + old)). unfold u16. lia. Qed.
#[export] Hint Resolve shifted_ok : scorw.

(** Writing inside an entry keeps the rest of the names. *)
Lemma names_cons b o x xs : 0 <= o -> ent b o = x -> e_name_len b o = zlen (x_name x) -> ent_ok x -> names_ok b (o + xlen x) xs -> names_ok b o (x :: xs).
Proof.
  intros Ho Ex En Hx [? ? ? ? ? Hl Hf]. pose proof (xlen_bounds x). split; try done; cbn [tot seg]; [by constructor|..].
  - by replace (o + (xlen x + tot xs)) with (o + xlen x + tot xs) by lia.
  - lia.
Qed.

Lemma names_only lo hi b b' o xs : only lo hi b b' -> o + tot xs + 4 <= lo \/ hi <= o -> names_ok b o xs -> names_ok b' o xs.
Proof.
  intros O Hd [? ? ? ? ? Hl Hf]. pose proof (tot_nonneg xs). pose proof (on_len _ _ _ _ O) as Hz. split; try done.
  - by apply (on_bytes _ _ _ _ O).
  - lia.
  - eapply seg_only; [apply O|done|done|lia|lia|done].
  - rewrite (only_rd _ _ _ _ _ _ O); [done|lia..].
  - lia.
Qed.

Lemma shift_loop_spec fuel b o xs offs old : names_ok b o xs -> (length xs < fuel)%nat ->
  exists b', shift_loop fuel b o offs old = Ok (o + tot xs, b') /\ names_ok b' o (shifted offs old <$> xs) /\ only o (o + tot xs) b b'.
Proof.
  revert fuel b o. induction xs as [|x xs IH]; intros [|k] b o N Hk; cbn [length] in Hk; try lia; cbn [shift_loop].
  - rewrite (names_last _ _ N). cbn [tot]. rewrite Z.add_0_r. exists b. split_and!; [done|done|apply only_refl].
  - destruct (names_head _ _ _ _ N) as (-> & Hnx & Ex & _ & Hx). destruct (no_seg _ _ _ N) as [[_ En] _].
    pose proof (no_fits _ _ _ N) as Hf. pose proof (no_first _ _ _ N) as Ho. pose proof (no_bytes _ _ _ N) as Hb. cbn [tot] in Hf. pose proof (tot_nonneg xs).
    pose proof (pad4_bounds _ (zlen_nonneg (x_name x))) as Hp.
    set (b1 := if _ && _ && _ then _ else b).
    assert (only o (o + xlen x) b b1 /\ ent b1 o = shifted offs old x /\ e_name_len b1 o = zlen (x_name x)) as (O1 & E1 & L1).
    { subst b1. change (e_value_inum b o) with (x_inum (ent b o)). change (e_value_size b o) with (x_size (ent b o)). change (e_value_offs b o) with (x_offs (ent b o)).
      rewrite Ex, (eo_inum _ Hx). unfold shifted, live. cbn [Z.eqb andb].
      destruct (negb _ && _) eqn:E; [|split_and!; [apply only_refl|done|done]].
      destruct (ent_set_offs b o (u16 (x_offs x + old))) as [Es El]; [done|done|unfold xlen in *; lia|apply wrap_bound; lia|].
      rewrite Es, El, Ex. split_and!; [|done|done]. eapply only_mono; [..|apply only_wr]; unfold xlen in *; lia. }
    assert (EXT4_XATTR_NEXT b1 o = o + xlen x) as -> by (unfold EXT4_XATTR_NEXT, xlen; by rewrite LEN_pad, L1).
    destruct (IH k b1 (o + xlen x)) as (b2 & -> & N2 & O2); [|lia|].
    { eapply names_only; [exact O1|lia|by apply names_tail]. }
    pose proof (on_len _ _ _ _ O1) as Hz. pose proof (shifted_xlen offs old x) as Hsx.
    assert (seg b2 o [shifted offs old x]) as [[E2 L2] _].
    { eapply seg_only; [exact O2|by apply (on_bytes _ _ _ _ O1)|done|cbn [tot]; lia|cbn [tot]; lia|].
      split; [|done]. split; [done|]. rewrite L1. unfold shifted. by case_match. }
    exists b2. split_and!; [do 2 f_equal; cbn [tot]; lia| |].
    + apply names_cons; [done..|by auto with scorw|by rewrite Hsx].
    + apply (only_trans _ _ _ b1); [eapply only_mono; [..|exact O1]|eapply only_mono; [..|exact O2]]; cbn [tot]; pose proof (xlen_bounds x); lia.
Qed.

(** ** The checks pass on a sound buffer *)

Lemma strnlen_full l : Forall (fun c => 0 < c < 256) l -> strnlen l = zlen l.
Proof.
  unfold zlen. induction 1 as [|c l Hc _ IH]; [done|]. cbn [strnlen length]. rewrite (proj2 (Z.eqb_neq c 0)) by lia. lia.
Qed.

Lemma check_names_spec fuel b o xs : names_ok b o xs -> (length xs < fuel)%nat -> check_names fuel b o = Ok (Some (o + tot xs)).
Proof.
  revert fuel o. induction xs as [|x xs IH]; intros [|k] o N Hk; cbn [length] in Hk; try lia; cbn [check_names].
  - rewrite (names_last _ _ N). cbn [tot]. by rewrite Z.add_0_r.
  - destruct (names_head _ _ _ _ N) as (-> & -> & Ex & -> & Hx). destruct (no_seg _ _ _ N) as [[_ En] _].
    change (e_name b o) with (x_name (ent b o)). rewrite Ex, En, strnlen_full, Z.eqb_refl by apply Hx. cbn [negb].
    rewrite (IH k) by (apply names_tail in N; done || lia). cbn [tot]. do 2 f_equal. lia.
Qed.

Lemma vals_ok_bounds lo hi xs x : vals_ok lo hi xs -> x ∈ xs -> live x = true -> lo <= x_offs x /\ x_offs x + vpad x <= hi.
Proof. intros [Hw _] Hx. rewrite Forall_forall in Hw. by apply Hw. Qed.

Lemma check_values_spec sb fuel b o xs e : names_ok b o xs -> (length xs < fuel)%nat -> Forall (within (e + 4) (zlen b)) xs ->
  check_values fuel sb b e o = Ok true.
Proof.
  revert fuel o. induction xs as [|x xs IH]; intros [|k] o N Hk Hw; cbn [length] in Hk; try lia; cbn [check_values].
  - by rewrite (names_last _ _ N).
  - destruct (names_head _ _ _ _ N) as (-> & -> & Ex & _ & Hx). apply Forall_cons in Hw as [Hw Hws]. pose proof (no_small _ _ _ N).
    change (e_value_inum b o) with (x_inum (ent b o)). change (e_value_size b o) with (x_size (ent b o)). change (e_value_offs b o) with (x_offs (ent b o)).
    rewrite Ex, (eo_inum _ Hx). cbn [Z.eqb negb andb]. rewrite andb_false_r. pose proof (eo_size _ Hx).
    rewrite (proj2 (Z.ltb_ge EXT4_XATTR_SIZE_MAX _)) by (unfold EXT4_XATTR_SIZE_MAX; change (Z.shiftl 1 24) with 16777216; lia).
    rewrite andb_true_r. fold (live x). destruct (live x) eqn:El; cbn [andb]; [|apply IH; [by apply names_tail|lia|done]].
    destruct (proj2 Hw El) as [H1 H2]. unfold vpad in H2. pose proof (pad4_bounds (x_size x)). pose proof (eo_offs _ Hx).
    rewrite SIZE_pad by lia. rewrite (proj2 (Z.ltb_ge (zlen b) _)), !(proj2 (Z.ltb_ge _ _)) by lia. cbn [orb].
    apply IH; [by apply names_tail|lia|done].
Qed.

Lemma check_entries_spec sb b first xs : region b first xs -> check_entries sb b first = Ok 0.
Proof.
  intros [N [Hw _] Hr _]. unfold room in Hr. assert (Forall (within (first + tot xs + 4) (zlen b)) xs) as Hw'.
  { eapply Forall_impl; [exact Hw|]. intros x [Hh Hx]. split; [done|]. intros El. destruct (Hx El). lia. }
  unfold check_entries. rewrite (check_names_spec _ _ _ _ N (names_fuel _ _ _ N)). cbn [mbind outcome_bind].
  by rewrite (check_values_spec sb _ _ _ _ (first + tot xs) N (names_fuel _ _ _ N)).
Qed.

(** ** The order of names, and the search *)

Lemma memcmp_refl l : memcmp l l = 0.
Proof. induction l as [|a l IH]; [done|]. cbn. by rewrite Z.eqb_refl. Qed.

Lemma memcmp_0 l1 l2 : length l1 = length l2 -> memcmp l1 l2 = 0 -> l1 = l2.
Proof.
  revert l2. induction l1 as [|a l1 IH]; intros [|c l2] Hl; try done. cbn in *. case_bools; [|lia]. intros. subst. f_equal. apply IH; [lia|done].
Qed.

Lemma memcmp_antisym l1 l2 : memcmp l2 l1 = - memcmp l1 l2.
Proof. revert l2. induction l1 as [|a l1 IH]; intros [|c l2]; try done. cbn. rewrite (Z.eqb_sym c a). case_bools; [apply IH|lia]. Qed.

Lemma memcmp_trans l1 l2 l3 : memcmp l1 l2 < 0 -> memcmp l2 l3 < 0 -> memcmp l1 l3 < 0.
Proof.
  revert l2 l3. induction l1 as [|a l1 IH]; intros [|c l2] [|d l3]; cbn; try lia.
  destruct (Z.eqb_spec a c), (Z.eqb_spec c d), (Z.eqb_spec a d); try lia. eauto.
Qed.

Definition key_list (k : Z * list Z) : list Z := k.1 :: zlen k.2 :: k.2.

Lemma name_cmp_memcmp k k' : name_cmp k.1 k.2 k'.1 k'.2 = memcmp (key_list k) (key_list k').
Proof.
  unfold name_cmp, key_list. cbn [memcmp]. destruct (Z.eqb_spec k.1 k'.1) as [->|H1].
  - rewrite Z.sub_diag. cbn [Z.eqb]. destruct (Z.eqb_spec (zlen k.2) (zlen k'.2)) as [->|H2].
    + by rewrite Z.sub_diag.
    + by rewrite (proj2 (Z.eqb_neq (zlen k.2 - _) 0)) by lia.
  - rewrite (proj2 (Z.eqb_neq (k.1 - _) 0)) by lia. by rewrite (proj2 (Z.eqb_neq (k.1 - _) 0)) by lia.
Qed.

Lemma name_cmp_0 k k' : name_cmp k.1 k.2 k'.1 k'.2 = 0 <-> k = k'.
Proof.
  rewrite name_cmp_memcmp. split; [|intros ->; apply memcmp_refl]. intros H. destruct k as [i n], k' as [i' n'].
  unfold key_list in H. cbn [memcmp fst snd] in H. destruct (Z.eqb_spec i i'), (Z.eqb_spec (zlen n) (zlen n')); try lia. unfold zlen in *. f_equal; [done|]. apply memcmp_0; [lia|done].
Qed.

#[export] Instance key_lt_trans : Transitive key_lt.
Proof. intros k1 k2 k3. unfold key_lt. rewrite !name_cmp_memcmp. apply memcmp_trans. Qed.

Lemma key_lt_gt k k' : key_lt k k' <-> 0 < name_cmp k'.1 k'.2 k.1 k.2.
Proof. unfold key_lt. rewrite !name_cmp_memcmp, (memcmp_antisym (key_list k')). lia. Qed.

(** The search stops at the entry asked for; else at the end or, in a sorted
    buffer, at the first entry that comes after it. *)
Definition found_at (sorted : bool) (k : Z * list Z) (l r : list xent) (ret : Z) : Prop :=
  (ret = 0 /\ exists x r', r = x :: r' /\ key x = k) \/
  (ret = - ENODATA /\ (if sorted then match r with [] => True | x :: _ => key_lt k (key x) end else r = [])).

Lemma find_loop_spec fuel b o xs cmp k sorted : names_ok b o xs -> (length xs < fuel)%nat -> cmp <> 0 ->
  exists l r ret, find_loop fuel b o cmp k.1 k.2 sorted = Ok (ret, o + tot l) /\ xs = l ++ r /\
    Forall (fun x => if sorted then key_lt (key x) k else key x <> k) l /\ found_at sorted k l r ret.
Proof.
  revert fuel o cmp. induction xs as [|x xs IH]; intros [|n] o cmp N Hk Hc; cbn [length] in Hk; try lia; cbn [find_loop].
  - rewrite (names_last _ _ N), (proj2 (Z.eqb_neq cmp 0)) by done. exists [], [], (- ENODATA). cbn [tot]. rewrite Z.add_0_r.
    split_and!; [done..|constructor|]. right. by destruct sorted.
  - destruct (names_head _ _ _ _ N) as (-> & Hnx & Ex & Hlt & Hx). rewrite Hnx, Hlt.
    change (e_name_index b o) with (x_index (ent b o)). change (e_name b o) with (x_name (ent b o)). rewrite Ex.
    change (x_index x) with (key x).1. change (x_name x) with (key x).2. pose proof (name_cmp_0 k (key x)) as H0. pose proof (key_lt_gt (key x) k) as Hg.
    set (c := name_cmp k.1 k.2 (key x).1 (key x).2) in *. destruct ((c <=? 0) && (sorted || (c =? 0))) eqn:E.
    + apply andb_prop in E as [E1 E2]. exists [], (x :: xs), (if c =? 0 then 0 else - ENODATA). cbn [tot]. rewrite Z.add_0_r.
      split_and!; [done..|constructor|]. destruct (Z.eqb_spec c 0) as [E0|E0]; [left; split; [done|]; exists x, xs; split; [done|]; symmetry; by apply H0|].
      right. split; [done|]. destruct sorted; [|done]. unfold key_lt. fold c. lia.
    + destruct (IH n (o + xlen x) c) as (l & r & ret & -> & -> & Hl & Hr); [by apply names_tail|lia| |].
      { intros E0. rewrite E0 in E. by destruct sorted. }
      exists (x :: l), r, ret. cbn [tot app]. split_and!; [do 2 f_equal; lia|done|constructor; [|done]|done].
      destruct sorted.
      * apply Hg. cbn [orb] in E. rewrite andb_true_r in E. lia.
      * intros Hkx. rewrite (proj2 H0) in E by done. done.
Qed.

(** ** Values apart *)

Lemma disj_sym x y : disj x y -> disj y x.
Proof. unfold disj. intros H Hy Hx. destruct (H Hx Hy); auto. Qed.

Lemma apart_middle l x r : apart (l ++ x :: r) <-> Forall (disj x) (l ++ r) /\ apart (l ++ r).
Proof.
  induction l as [|y l IH]; cbn [app apart]; [done|]. rewrite IH, !Forall_app, !Forall_cons, Forall_app.
  split; intros; destruct_and?; split_and!; try done; by apply disj_sym.
Qed.

Lemma vals_middle lo hi l x r : vals_ok lo hi (l ++ x :: r) <-> within lo hi x /\ Forall (disj x) (l ++ r) /\ vals_ok lo hi (l ++ r).
Proof. unfold vals_ok. rewrite apart_middle, !Forall_app, Forall_cons. tauto. Qed.

Lemma vals_weaken lo lo' hi xs : lo' <= lo -> vals_ok lo hi xs -> vals_ok lo' hi xs.
Proof. intros Hl [Hw Ha]. split; [|done]. eapply Forall_impl; [exact Hw|]. intros x [Hh Hx]. split; [done|]. intros El. destruct (Hx El). lia. Qed.

(** The lowest value bounds them all. *)
Lemma vals_minoffs lo hi xs : vals_ok lo hi xs -> vals_ok (minoffs hi xs) hi xs.
Proof.
  intros [Hw Ha]. split; [|done]. apply Forall_forall. intros x Hx. rewrite Forall_forall in Hw. destruct (Hw x Hx) as [Hh Hl]. split; [done|]. intros El. destruct (Hl El).
  split; [by apply minoffs_lb|done].
Qed.

(** A value that is not there is nowhere. *)
Lemma vals_dead lo hi l x r : live x = false -> x_offs x <= hi -> vals_ok lo hi (l ++ r) -> vals_ok lo hi (l ++ x :: r).
Proof.
  intros El Hh Hv. rewrite vals_middle. split_and!; [split; [done|]|apply Forall_forall; intros y _|done]; intros E; congruence.
Qed.

(** A map on entries that keeps values inside and apart. *)
Lemma apart_fmap f xs : (forall x y, x ∈ xs -> y ∈ xs -> disj x y -> disj (f x) (f y)) -> apart xs -> apart (f <$> xs).
Proof.
  induction xs as [|x xs IH]; intros Hf; [done|]. intros [Hx Ha]. split.
  - apply Forall_fmap, Forall_forall. intros y Hy. apply Hf; [left|by right|]. rewrite Forall_forall in Hx. by apply Hx.
  - apply IH; [|done]. intros y z Hy Hz. apply Hf; by right.
Qed.

Lemma vpad_live x : ent_ok x -> live x = true -> 4 <= vpad x /\ x_size x <= vpad x.
Proof.
  intros Hx El. unfold live, vpad in *. pose proof (eo_size _ Hx). pose proof (pad4_bounds (x_size x)).
  assert (x_size x <> 0) by (intros E; rewrite E in El; done). Z.to_euclidean_division_equations. lia.
Qed.

(** ** Removing a value *)

Section remove.
Context (b : list Z) (first : Z) (l : list xent) (x : xent) (r : list xent) (m : Z).
Context (N : names_ok b first (l ++ x :: r)) (V : vals_ok m (zlen b) (l ++ x :: r)) (Hm : first + tot (l ++ x :: r) + 4 <= m) (El : live x = true).
Notation offs := (x_offs x).
Notation old := (vpad x).

Let Hx : within m (zlen b) x /\ Forall (disj x) (l ++ r) /\ vals_ok m (zlen b) (l ++ r).
Proof. by apply vals_middle. Qed.

Let Hok y : y ∈ l ++ r -> ent_ok y.
Proof.
  intros Hy. pose proof (no_ents _ _ _ N) as Hall. rewrite Forall_forall in Hall. apply Hall.
  apply elem_of_app in Hy as [Hy|Hy]; apply elem_of_app; [by left|right; by right].
Qed.

Let Hokx : ent_ok x.
Proof. pose proof (no_ents _ _ _ N) as Hall. by apply Forall_app in Hall as [_ [? _]%Forall_cons]. Qed.

(** Where the values end up. *)
Lemma shifted_cases y : y ∈ l ++ r -> live y = true ->
  m <= x_offs y /\
  ((x_offs y + vpad y <= offs /\ x_offs (shifted offs old y) = x_offs y + old) \/
   (offs + old <= x_offs y /\ x_offs y + vpad y <= zlen b /\ shifted offs old y = y)).
Proof.
  intros Hy Ely. destruct Hx as (Hwx & Hd & Hv). destruct (vals_ok_bounds _ _ _ _ Hv Hy Ely) as [H1 H2]. destruct (proj2 Hwx El) as [H3 H4].
  rewrite Forall_forall in Hd. specialize (Hd _ Hy El Ely). destruct (vpad_live x Hokx El). destruct (vpad_live y (Hok y Hy) Ely).
  pose proof (no_small _ _ _ N). pose proof (no_first _ _ _ N). pose proof (tot_nonneg (l ++ x :: r)).
  split; [done|]. unfold shifted. rewrite Ely. cbn [andb]. destruct Hd as [Hd|Hd].
  - right. rewrite (proj2 (Z.ltb_ge _ _)) by lia. done.
  - left. rewrite (proj2 (Z.ltb_lt _ _)) by lia. split; [done|]. cbn [x_offs set_offs]. apply wrap_small. lia.
Qed.

Lemma shifted_live y : live (shifted offs old y) = live y /\ vpad (shifted offs old y) = vpad y /\ x_size (shifted offs old y) = x_size y /\ key (shifted offs old y) = key y.
Proof. unfold shifted. by case_match. Qed.

Lemma shifted_vals : vals_ok (m + old) (zlen b) (shifted offs old <$> (l ++ r)).
Proof.
  destruct Hx as (Hwx & _ & [Hw Ha]). destruct (proj2 Hwx El) as [H3 H4]. split.
  - apply Forall_fmap, Forall_forall. intros y Hy. cbn. destruct (shifted_live y) as (E1 & E2 & _). rewrite Forall_forall in Hw. destruct (Hw y Hy) as [Hh _].
    unfold within. rewrite E1, E2. destruct (live y) eqn:Ely; [|split; [unfold shifted; by rewrite Ely|done]].
    pose proof (vpad_live y (Hok y Hy) Ely). destruct (shifted_cases y Hy Ely) as [Y0 [[Y1 ->]|(Y1 & Y2 & ->)]]; (split; [|intros _]; lia).
  - apply apart_fmap; [|done]. intros y z Hy Hz Hd. unfold disj in *. destruct (shifted_live y) as (-> & -> & _), (shifted_live z) as (-> & -> & _). intros Ey Ez.
    specialize (Hd Ey Ez). destruct (shifted_cases y Hy Ey) as [_ [[Y1 ->]|(Y1 & _ & ->)]], (shifted_cases z Hz Ez) as [_ [[Z1 ->]|(Z1 & _ & ->)]]; lia.
Qed.

Lemma remove_value_spec : exists b', remove_value b first (first + tot l) m old = Ok (first + tot (l ++ x :: r), b') /\
  names_ok b' first (shifted offs old <$> (l ++ x :: r)) /\ only first (zlen b) b b' /\ (forall y, y ∈ l ++ r -> val b' (shifted offs old y) = val b y).
Proof.
  destruct Hx as (Hwx & _ & Hv). destruct (proj2 Hwx El) as [H3 H4]. destruct (vpad_live x Hokx El) as [Hp _]. pose proof (no_bytes _ _ _ N) as Hb.
  pose proof (no_first _ _ _ N) as Hf. pose proof (tot_nonneg (l ++ x :: r)) as Ht.
  unfold remove_value. change (e_value_offs b (first + tot l)) with (x_offs (ent b (first + tot l))).
  destruct (names_head _ _ _ _ (names_app _ _ _ _ N)) as (_ & _ & -> & _ & _).
  set (b1 := memmove b _ _ _). set (b2 := splice b1 _ _).
  assert (only (m + old) (offs + old) b b1) as O1 by (replace (offs + old) with (m + old + (offs - m)) by lia; apply only_memmove; lia || done).
  assert (only m (m + old) b1 b2) as O2 by (apply only_splice; [apply zlen_zeros; lia|lia|rewrite (on_len _ _ _ _ O1); lia|apply zeros_ok]).
  assert (only m (offs + old) b b2) as O12 by (eapply only_trans; eapply only_mono; [..|exact O1| | |exact O2]; lia).
  assert (names_ok b2 first (l ++ x :: r)) as N2 by (eapply names_only; [exact O12|lia|done]).
  destruct (shift_loop_spec (walk_fuel b2) b2 first (l ++ x :: r) offs old N2 (names_fuel _ _ _ N2)) as (b3 & -> & N3 & O3).
  exists b3. split_and!; [done|done| |].
  - apply (only_trans _ _ _ b2); (eapply only_mono; [..|eassumption]); lia.
  - intros y Hy. unfold val. destruct (shifted_live y) as (_ & _ & -> & _). destruct (live y) eqn:Ely.
    2:{ unfold live in Ely. apply negb_false_iff, Z.eqb_eq in Ely. by rewrite Ely. }
    destruct (vpad_live y (Hok y Hy) Ely) as [Y1 Y2]. pose proof (eo_size _ (Hok y Hy)) as Y3.
    destruct (shifted_cases y Hy Ely) as [Y4 [[Y5 ->]|(Y5 & Y6 & ->)]].
    + rewrite (on_same _ _ _ _ O3), (on_same _ _ _ _ O2) by lia. unfold b1. rewrite slice_memmove_in by lia. f_equal. lia.
    + by rewrite (on_same _ _ _ _ O3), (on_same _ _ _ _ O12) by lia.
Qed.
End remove.

(** ** Fields *)

Definition set_size (x : xent) (v : Z) : xent := XEnt (x_index x) (x_name x) (x_offs x) (x_inum x) v (x_hash x).
Definition set_hash (x : xent) (v : Z) : xent := XEnt (x_index x) (x_name x) (x_offs x) (x_inum x) (x_size x) v.
Definition no_value (x : xent) : xent := XEnt (x_index x) (x_name x) 0 0 0 (x_hash x).

(** An entry and its name are in the buffer. *)
Definition here_ok (b : list Z) (o : Z) (x : xent) : Prop :=
  Forall byte_ok b /\ 0 <= o /\ o + xlen x <= zlen b /\ ent b o = x /\ e_name_len b o = zlen (x_name x).

Lemma names_here b o l x r : names_ok b o (l ++ x :: r) -> here_ok b (o + tot l) x.
Proof.
  intros N%names_app. destruct (no_seg _ _ _ N) as [[? ?] _]. pose proof (no_fits _ _ _ N) as Hf. cbn [tot] in Hf. pose proof (tot_nonneg r).
  unfold here_ok. split_and!; try done; [apply N|apply N|lia].
Qed.

(** Writing one field of an entry. *)
Lemma here_wr b o x j n v x' : here_ok b o x -> 1 <= j -> 0 <= n -> j + n <= 16 ->
  x' = XEnt (rd (wr b (o + j) n v) (o + 1) 1) (x_name x) (rd (wr b (o + j) n v) (o + 2) 2) (rd (wr b (o + j) n v) (o + 4) 4)
         (rd (wr b (o + j) n v) (o + 8) 4) (rd (wr b (o + j) n v) (o + 12) 4) ->
  here_ok (wr b (o + j) n v) o x' /\ only o (o + 16) b (wr b (o + j) n v).
Proof.
  intros (Hb & Ho & Hl & Ex & En) Hj Hn Hjn Ex'. pose proof (zlen_nonneg (x_name x)). pose proof (pad4_bounds _ (zlen_nonneg (x_name x))) as Hp. unfold xlen in *.
  assert (only (o + j) (o + j + n) b (wr b (o + j) n v)) as O by (apply only_wr; lia).
  assert (e_name_len (wr b (o + j) n v) o = zlen (x_name x)) as En2 by (rewrite <- En; apply (only_rd _ _ _ _ _ _ O); lia).
  split; [|eapply only_mono; [..|exact O]; lia]. subst x'. unfold here_ok, xlen. cbn [x_name]. rewrite (on_len _ _ _ _ O). split_and!; try done.
  - by apply wr_ok.
  - unfold ent. f_equal; [|done..]. unfold e_name. rewrite En2, (on_same _ _ _ _ O) by lia. rewrite <- En. trans (x_name (ent b o)); [done|by rewrite Ex].
Qed.

Lemma here_set_offs b o x v : here_ok b o x -> 0 <= v < 65536 -> here_ok (set_e_value_offs b o v) o (set_offs x v) /\ only o (o + 16) b (set_e_value_offs b o v).
Proof.
  intros H Hv. pose proof H as (Hb & Ho & Hl & Ex & _). pose proof (xlen_bounds x). apply (here_wr _ _ x); [done|lia..|].
  rewrite rd_wr, !rd_wr_ne by lia. rewrite <- Ex. done.
Qed.

Lemma here_set_size b o x v : here_ok b o x -> 0 <= v < 2 ^ 32 -> here_ok (set_e_value_size b o v) o (set_size x v) /\ only o (o + 16) b (set_e_value_size b o v).
Proof.
  intros H Hv. pose proof H as (Hb & Ho & Hl & Ex & _). pose proof (xlen_bounds x). apply (here_wr _ _ x); [done|lia..|].
  rewrite rd_wr, !rd_wr_ne by lia. rewrite <- Ex. done.
Qed.

Lemma here_set_hash b o x v : here_ok b o x -> 0 <= v < 2 ^ 32 -> here_ok (set_e_hash b o v) o (set_hash x v) /\ only o (o + 16) b (set_e_hash b o v).
Proof.
  intros H Hv. pose proof H as (Hb & Ho & Hl & Ex & _). pose proof (xlen_bounds x). apply (here_wr _ _ x); [done|lia..|].
  rewrite rd_wr, !rd_wr_ne by lia. rewrite <- Ex. done.
Qed.

Lemma here_set_inum b o x : here_ok b o x -> x_inum x = 0 -> here_ok (set_e_value_inum b o 0) o x /\ only o (o + 16) b (set_e_value_inum b o 0).
Proof.
  intros H Hv. pose proof H as (Hb & Ho & Hl & Ex & _). pose proof (xlen_bounds x). apply (here_wr _ _ x); [done|lia..|].
  rewrite rd_wr, !rd_wr_ne by lia. rewrite <- Hv. rewrite <- Ex. done.
Qed.

Lemma here_reset b o x : here_ok b o x -> x_inum x = 0 -> here_ok (reset_value b o) o (no_value x) /\ only o (o + 16) b (reset_value b o).
Proof.
  intros H Hi. destruct (here_set_inum _ _ _ H Hi) as [H1 O1]. destruct (here_set_offs _ _ _ 0 H1) as [H2 O2]; [lia|].
  destruct (here_set_size _ _ _ 0 H2) as [H3 O3]; [lia|]. unfold reset_value. split; [|by eapply only_trans, only_trans].
  replace (no_value x) with (set_size (set_offs x 0) 0); [done|]. unfold no_value, set_size, set_offs. cbn. by rewrite Hi.
Qed.

(** The names after a write inside the header of one entry. *)
Lemma names_update b b' o l x x' r : names_ok b o (l ++ x :: r) -> only (o + tot l) (o + tot l + 16) b b' -> here_ok b' (o + tot l) x' ->
  x_name x' = x_name x -> ent_ok x' -> names_ok b' o (l ++ x' :: r).
Proof.
  intros N O (Hb & Ho & Hl & Ex & En) Hn Hx'. assert (xlen x' = xlen x) as Hxl by (unfold xlen; by rewrite Hn).
  pose proof (tot_app l (x :: r)) as Ht. pose proof (tot_app l (x' :: r)) as Ht'. cbn [tot] in Ht, Ht'. rewrite Hxl in Ht'.
  pose proof (tot_nonneg l). pose proof (tot_nonneg r). pose proof (xlen_bounds x).
  destruct N as [Nf Nb Ns Ng Ne Nl Nfit]. pose proof (on_len _ _ _ _ O) as Hz. rewrite seg_app in Ng. destruct Ng as [Ng1 [_ Ng2]].
  split; [done|done|lia| | |rewrite (only_rd _ _ _ _ _ _ O) by lia; by rewrite Ht', <- Ht|lia].
  - rewrite seg_app. split; [eapply seg_only; [exact O|done|done|lia|lia|done]|]. split; [done|]. rewrite Hxl. eapply seg_only; [exact O|done|lia..|done].
  - apply Forall_app in Ne as [? [_ ?]%Forall_cons]. apply Forall_app. split; [done|by constructor].
Qed.

(** ** Names *)

Lemma remove_name_spec b o l x r : names_ok b o (l ++ x :: r) ->
  names_ok (remove_name b (o + tot l) (o + tot (l ++ x :: r)) (x_name x)) o (l ++ r) /\
  only (o + tot l) (o + tot (l ++ x :: r) + 4) b (remove_name b (o + tot l) (o + tot (l ++ x :: r)) (x_name x)).
Proof.
  intros N. pose proof N as [Nf Nb Ns Ng Ne Nl Nfit]. unfold remove_name. rewrite LEN_pad. fold (xlen x).
  rewrite seg_app in Ng. destruct Ng as [Ng1 [_ Ng2]]. rewrite tot_app in *. cbn [tot] in *.
  pose proof (tot_nonneg l). pose proof (tot_nonneg r). pose proof (xlen_bounds x).
  set (here := o + tot l) in *. replace (o + (tot l + (xlen x + tot r)) - xlen x) with (here + tot r) by lia.
  set (b1 := memmove b _ _ _). assert (only here (here + tot r + 4) b b1) as O1.
  { replace (here + tot r + 4) with (here + (here + tot r - here + 4)) by lia. apply only_memmove; lia || done. }
  set (b2 := splice b1 _ _). assert (only (here + tot r) (here + tot r + xlen x) b1 b2) as O2.
  { apply only_splice; [apply zlen_zeros; lia|lia|rewrite (on_len _ _ _ _ O1); lia|apply zeros_ok]. }
  assert (only here (o + (tot l + (xlen x + tot r)) + 4) b b2) as O by (apply (only_trans _ _ _ b1); eapply only_mono; [..|exact O1| | |exact O2]; lia).
  split; [|done]. pose proof (on_len _ _ _ _ O) as Hz. split; [done|by apply (on_bytes _ _ _ _ O)|lia| | | |rewrite tot_app; lia].
  - rewrite seg_app. split; [eapply seg_only; [exact O|done|done|lia|lia|done]|]. fold here.
    eapply seg_slice; [|exact Nb|..|exact Ng2]; [|lia|lia|lia]. rewrite (on_same _ _ _ _ O2) by lia. unfold b1. rewrite slice_memmove_in by lia. f_equal. lia.
  - apply Forall_app in Ne as [? [_ ?]%Forall_cons]. by apply Forall_app.
  - rewrite tot_app. replace (o + (tot l + tot r)) with (here + tot r) by lia. apply rd_zero.
    rewrite <- (slice_zeros 0 4 (xlen x)) by lia. unfold b2. rewrite slice_splice_in; [by rewrite Z.sub_diag|lia|..]; rewrite ?zlen_zeros, ?(on_len _ _ _ _ O1) by lia; lia.
Qed.

Definition new_ent (index : Z) (name : list Z) : xent := XEnt index name 0 0 0 0.

Lemma zero_part b o n j k : 0 <= o -> o + n <= zlen b -> 0 <= j -> 0 <= k -> j + k <= n -> rd (splice b o (zeros n)) (o + j) k = 0.
Proof.
  intros. apply rd_zero. rewrite slice_splice_in by (rewrite ?zlen_zeros by lia; lia). replace (o + j - o) with j by lia. by apply slice_zeros.
Qed.

(** Filling in a zeroed entry. *)
Lemma fill_entry b o index name : Forall byte_ok b -> 0 <= o -> ent_ok (new_ent index name) -> o + xlen (new_ent index name) <= zlen b ->
  here_ok (splice (wr (wr (splice b o (zeros (xlen (new_ent index name)))) (o + 1) 1 index) o 1 (u8 (zlen name))) (o + 16) name) o (new_ent index name) /\
  only o (o + xlen (new_ent index name)) b (splice (wr (wr (splice b o (zeros (xlen (new_ent index name)))) (o + 1) 1 index) o 1 (u8 (zlen name))) (o + 16) name).
Proof.
  intros Hb Ho [Hi Hnl Hn _ _ _]. cbn [x_index x_name new_ent] in *. set (n := xlen _). intros Hl. pose proof (zlen_nonneg name) as Hz. pose proof (pad4_bounds _ Hz).
  assert (n = 16 + pad4 (zlen name)) as En by done. assert (Forall byte_ok name) as Hnb by (eapply Forall_impl; [exact Hn|]; unfold byte_ok; cbn; lia).
  set (b0 := splice b o (zeros n)). assert (only o (o + n) b b0) as O0 by (apply only_splice; [apply zlen_zeros; lia|lia|lia|apply zeros_ok]). pose proof (on_len _ _ _ _ O0) as L0.
  set (b1 := wr b0 (o + 1) 1 index). assert (only (o + 1) (o + 1 + 1) b0 b1) as O1 by (apply only_wr; lia). pose proof (on_len _ _ _ _ O1) as L1.
  assert (u8 (zlen name) = zlen name) as -> by (apply wrap_small; lia). set (b2 := wr b1 o 1 (zlen name)). assert (only o (o + 1) b1 b2) as O2 by (apply only_wr; lia). pose proof (on_len _ _ _ _ O2) as L2.
  set (b3 := splice b2 (o + 16) name). assert (only (o + 16) (o + 16 + zlen name) b2 b3) as O3 by (apply only_splice; done || lia). pose proof (on_len _ _ _ _ O3) as L3.
  assert (forall j k, 2 <= j -> 0 <= k -> j + k <= 16 -> rd b3 (o + j) k = 0) as Hzero.
  { intros j k ? ? ?. rewrite (only_rd _ _ _ _ _ _ O3), (only_rd _ _ _ _ _ _ O2), (only_rd _ _ _ _ _ _ O1) by lia. apply zero_part; lia. }
  assert (e_name_len b3 o = zlen name) as Enl by (unfold e_name_len; rewrite (only_rd _ _ _ _ _ _ O3) by lia; apply rd_wr; lia).
  split.
  - unfold here_ok. split_and!; [|lia|fold n; lia| |done].
    + by apply (on_bytes _ _ _ _ O3), (on_bytes _ _ _ _ O2), (on_bytes _ _ _ _ O1), (on_bytes _ _ _ _ O0).
    + unfold ent, new_ent, e_name_index, e_name, e_value_offs, e_value_inum, e_value_size. rewrite Enl, (Hzero 2 2), (Hzero 4 4), (Hzero 8 4) by lia. f_equal; [| |apply (Hzero 12 4); lia].
      * rewrite (only_rd _ _ _ _ _ _ O3), (only_rd _ _ _ _ _ _ O2) by lia. apply rd_wr; lia.
      * apply slice_splice_eq; lia.
  - apply (only_trans _ _ _ b0); [done|]. apply (only_trans _ _ _ b1); [|apply (only_trans _ _ _ b2)]; eapply only_mono; [..|exact O1| | |exact O2| | |exact O3]; lia.
Qed.

Lemma insert_name_spec b o l r index name : names_ok b o (l ++ r) -> ent_ok (new_ent index name) ->
  o + tot (l ++ r) + xlen (new_ent index name) + 4 <= zlen b ->
  names_ok (insert_name b (o + tot l) (o + tot (l ++ r)) index name) o (l ++ new_ent index name :: r) /\
  only (o + tot l) (o + tot (l ++ r) + xlen (new_ent index name) + 4) b (insert_name b (o + tot l) (o + tot (l ++ r)) index name).
Proof.
  intros [Nf Nb Ns Ng Ne Nl Nfit] Hx Hroom. unfold insert_name. rewrite LEN_pad. change (16 + pad4 (zlen name)) with (xlen (new_ent index name)).
  rewrite seg_app in Ng. destruct Ng as [Ng1 Ng2]. rewrite tot_app in *. pose proof (tot_nonneg l). pose proof (tot_nonneg r). pose proof (xlen_bounds (new_ent index name)).
  set (n := xlen _) in *. set (here := o + tot l) in *. replace (o + (tot l + tot r)) with (here + tot r) in * by lia.
  set (b1 := memmove b _ _ _). assert (only (here + n) (here + tot r + n + 4) b b1) as O1.
  { replace (here + tot r + n + 4) with (here + n + (here + tot r - here + 4)) by lia. apply only_memmove; lia || done. }
  pose proof (on_len _ _ _ _ O1) as L1. destruct (fill_entry b1 here index name) as [H2 O2]; [by apply (on_bytes _ _ _ _ O1)|lia|done|fold n; lia|].
  fold n in H2, O2. set (b2 := splice (wr _ _ _ _) _ _) in *.
  assert (only here (here + tot r + n + 4) b b2) as O by (apply (only_trans _ _ _ b1); eapply only_mono; [..|exact O1| | |exact O2]; lia).
  split; [|done]. pose proof (on_len _ _ _ _ O) as Hz. destruct H2 as (Hb2 & _ & _ & Ex & En).
  assert (slice b2 (here + n) (tot r + 4) = slice b here (tot r + 4)) as Hs.
  { rewrite (on_same _ _ _ _ O2) by lia. unfold b1. rewrite slice_memmove_in by lia. f_equal. lia. }
  split; [done|done|lia| | | |rewrite tot_app; cbn [tot]; fold n; lia].
  - rewrite seg_app. split; [eapply seg_only; [exact O|done|done|lia|lia|done]|]. fold here. split; [done|]. fold n.
    eapply seg_slice; [|exact Nb|..|exact Ng2]; [|lia..].
    rewrite <- (Z.add_0_r (here + n)), <- (Z.add_0_r here) at 1. symmetry. apply (slice_sub _ _ _ _ _ _ _ Hs); lia.
  - apply Forall_app in Ne as [? ?]. apply Forall_app. split; [done|by constructor].
  - rewrite tot_app. cbn [tot]. fold n. replace (o + (tot l + (n + tot r))) with (here + n + tot r) by lia. rewrite <- Nl. apply (rd_sub _ _ _ _ _ _ _ Hs); lia.
Qed.

(** ** The new value *)

Lemma put_value_spec b o v n : Forall byte_ok (value_bytes v) -> 0 <= value_len v <= n -> 0 <= o -> o + n <= zlen b ->
  only o (o + n) b (put_value b o v n) /\ slice (put_value b o v n) o (value_len v) = value_bytes v.
Proof.
  intros Hv Hn Ho Hl. destruct v as [k|bs]; cbn [put_value value_bytes value_len] in *.
  - split; [apply only_splice; [apply zlen_zeros; lia|lia|lia|apply zeros_ok]|].
    rewrite slice_splice_in by (rewrite ?zlen_zeros by lia; lia). rewrite Z.sub_diag. apply slice_zeros; lia.
  - assert (only o (o + zlen bs) b (splice b o bs)) as O1 by (apply only_splice; done || lia). pose proof (on_len _ _ _ _ O1) as L1.
    assert (only (o + zlen bs) (o + zlen bs + (n - zlen bs)) (splice b o bs) (splice (splice b o bs) (o + zlen bs) (zeros (n - zlen bs)))) as O2.
    { apply only_splice; [apply zlen_zeros; lia|lia|lia|apply zeros_ok]. }
    split; [eapply only_trans; eapply only_mono; [..|exact O1| | |exact O2]; lia|].
    rewrite (on_same _ _ _ _ O2) by lia. apply slice_splice_eq; lia.
Qed.

(** A value as the theorems take it: bytes, in what a region holds. *)
Definition value_ok (v : xattr_value) : Prop := 0 <= value_len v /\ Forall byte_ok (value_bytes v).

Lemma SIZE_new v : 0 <= value_len v <= 65536 -> EXT4_XATTR_SIZE 64 (value_len v) = pad4 (value_len v).
Proof. intros. apply SIZE_pad; lia. Qed.

(** An entry is untouched by a write elsewhere. *)
Lemma here_only lo hi b b' o x : only lo hi b b' -> o + xlen x <= lo \/ hi <= o -> here_ok b o x -> here_ok b' o x.
Proof.
  intros O Hd (Hb & Ho & Hl & Ex & En). assert (seg b' o [x]) as [[Ex' En'] _] by (eapply seg_only; [exact O|done|done|cbn [tot]; lia|cbn [tot]; lia|done]).
  pose proof (on_len _ _ _ _ O). unfold here_ok. split_and!; try done; [by apply (on_bytes _ _ _ _ O)|lia].
Qed.

Lemma insert_value_spec env b o l x r m v : names_ok b o (l ++ x :: r) -> value_ok v -> x_offs x = 0 -> x_size x = 0 ->
  vals_ok m (zlen b) (l ++ r) -> m <= zlen b -> o + tot (l ++ x :: r) + 4 <= m - pad4 (value_len v) ->
  exists x' : xent, let b' := insert_value env b (o + tot l) m (pad4 (value_len v)) v false in
    names_ok b' o (l ++ x' :: r) /\ vals_ok (m - pad4 (value_len v)) (zlen b) (l ++ x' :: r) /\ val b' x' = value_bytes v /\
    (forall y, y ∈ l ++ r -> val b' y = val b y) /\ key x' = key x /\ x_size x' = value_len v /\ only (o + tot l) (zlen b) b b'.
Proof.
  intros N [Hv0 Hvb] Ho0 Hs0 V Hm Hroom. pose proof (names_here _ _ _ _ _ N) as H. pose proof (no_ents _ _ _ N) as Hall. apply Forall_app in Hall as [Hl [Hx Hr]%Forall_cons].
  pose proof (no_first _ _ _ N). pose proof (tot_nonneg (l ++ x :: r)). pose proof (no_small _ _ _ N). pose proof (pad4_bounds _ Hv0) as Hp.
  rewrite tot_app in Hroom. cbn [tot] in Hroom. pose proof (tot_nonneg l). pose proof (tot_nonneg r). pose proof (xlen_bounds x).
  set (n := pad4 (value_len v)) in *. set (here := o + tot l) in *.
  assert (forall y, y ∈ l ++ r -> ent_ok y) as Hok by (intros y Hy; apply elem_of_app in Hy; rewrite Forall_forall in Hl, Hr; destruct Hy; auto).
  assert (forall b' y, only here (here + 16) b b' \/ only (m - n) m b b' -> y ∈ l ++ r -> val b' y = val b y) as Hval.
  { intros b' y O Hy. unfold val. destruct (live y) eqn:Ely.
    2:{ unfold live in Ely. apply negb_false_iff, Z.eqb_eq in Ely. by rewrite Ely. }
    destruct (vals_ok_bounds _ _ _ _ V Hy Ely). pose proof (eo_size _ (Hok y Hy)). destruct O as [O|O]; apply (on_same _ _ _ _ O); lia. }
  unfold insert_value. destruct (Z.eqb_spec (value_len v) 0) as [E0|E0].
  - exists x. cbn zeta. rewrite E0. destruct (here_set_size _ _ _ (u32 0) H) as [I1 O1]; [done|].
    assert (set_size x (u32 0) = x) as Ex by (destruct x; cbn in *; by subst). rewrite Ex in I1.
    assert (value_bytes v = []) as -> by (destruct v as [k|[|? ?]]; cbn in *; [by rewrite E0|done|done]).
    split_and!; [by eapply names_update|..].
    + apply vals_dead; [unfold live; by rewrite Hs0|lia|]. eapply vals_weaken; [|done]. lia.
    + unfold val. by rewrite Hs0.
    + intros y Hy. apply Hval; auto.
    + done.
    + done.
    + eapply only_mono; [..|exact O1]; lia.
  - assert (u16 (m - n) = m - n) as -> by (apply wrap_small; lia). assert (u32 (value_len v) = value_len v) as -> by (apply wrap_small; lia).
    destruct (here_set_offs _ _ _ (m - n) H) as [I1 O1]; [lia|]. set (b1 := set_e_value_offs _ _ _) in *. pose proof (on_len _ _ _ _ O1) as L1.
    destruct (put_value_spec b1 (m - n) v n) as [O2 Hput]; [done|lia|lia|lia|]. set (b2 := put_value _ _ _ _) in *. pose proof (on_len _ _ _ _ O2) as L2.
    assert (here_ok b2 here (set_offs x (m - n))) as I2 by (eapply here_only; [exact O2|unfold xlen in *; cbn [x_name set_offs]; lia|done]).
    destruct (here_set_size _ _ _ (value_len v) I2) as [I3 O3]; [lia|]. set (b3 := set_e_value_size _ _ _) in *. set (x' := set_size _ _) in *.
    assert (ent_ok x') as Hx' by (destruct Hx; split; cbn; try done; lia).
    assert (live x' = true) as El' by (unfold live; cbn; by apply negb_true_iff, Z.eqb_neq).
    exists x'. cbn zeta. split_and!.
    + assert (names_ok b1 o (l ++ set_offs x (m - n) :: r)) as N1 by (eapply names_update; [exact N|exact O1|done|done|destruct Hx; split; cbn; try done; lia]).
      assert (names_ok b2 o (l ++ set_offs x (m - n) :: r)) as N2 by (eapply names_only; [exact O2|rewrite tot_app; cbn [tot]; unfold xlen in *; cbn [x_name set_offs]; lia|done]).
      eapply names_update; [exact N2|exact O3|done|done|done].
    + apply vals_middle. split_and!; [unfold within, vpad; cbn; fold n; lia| |eapply vals_weaken; [|done]; lia].
      apply Forall_forall. intros y Hy _ Ely. destruct (vals_ok_bounds _ _ _ _ V Hy Ely). left. unfold vpad. cbn. fold n. lia.
    + unfold val. cbn [x_offs x_size x' set_size set_offs]. rewrite (on_same _ _ _ _ O3) by lia. done.
    + intros y Hy. trans (val b1 y); [|by apply Hval; auto].
      destruct (live y) eqn:Ely; [|unfold live in Ely; apply negb_false_iff, Z.eqb_eq in Ely; unfold val; by rewrite Ely].
      destruct (vals_ok_bounds _ _ _ _ V Hy Ely). pose proof (eo_size _ (Hok y Hy)). unfold val. by rewrite (on_same _ _ _ _ O3), (on_same _ _ _ _ O2) by lia.
    + done.
    + done.
    + apply (only_trans _ _ _ b1); [|apply (only_trans _ _ _ b2)]; eapply only_mono; [..|exact O1| | |exact O2| | |exact O3]; lia.
Qed.

(** ** Values without gaps *)

(** The bytes of the values. *)
Definition cells_of (x : xent) : gset Z := list_to_set (zseq (x_offs x) (Z.to_nat (vpad x))).
Definition cells (xs : list xent) : gset Z := foldr (fun x s => cells_of x ∪ s) ∅ xs.

Lemma elem_of_cells_of c x : c ∈ cells_of x <-> x_offs x <= c < x_offs x + Z.of_nat (Z.to_nat (vpad x)).
Proof. unfold cells_of. by rewrite elem_of_list_to_set, elem_of_zseq. Qed.

Lemma elem_of_cells c xs : c ∈ cells xs <-> exists x, x ∈ xs /\ c ∈ cells_of x.
Proof.
  induction xs as [|x xs IH]; cbn [cells foldr]; [set_solver|]. fold (cells xs). rewrite elem_of_union, IH. set_solver.
Qed.

Lemma size_zseq a n : size (list_to_set (zseq a n) : gset Z) = n.
Proof.
  rewrite size_list_to_set; [apply length_zseq|]. unfold zseq. apply NoDup_fmap_2; [intros i j; lia|apply NoDup_seq].
Qed.

Lemma vpad_nonneg x : ent_ok x -> 0 <= vpad x.
Proof. intros Hx. pose proof (eo_size _ Hx) as Hs. pose proof (pad4_bounds (x_size x)). unfold vpad. lia. Qed.

Lemma vpad_dead x : live x = false -> vpad x = 0.
Proof. unfold live, vpad. intros ->%negb_false_iff%Z.eqb_eq. done. Qed.

Lemma vsum_app xs ys : vsum (xs ++ ys) = vsum xs + vsum ys.
Proof. induction xs as [|x xs IH]; cbn [vsum app]; lia. Qed.

Lemma vsum_nonneg xs : Forall ent_ok xs -> 0 <= vsum xs.
Proof. induction 1 as [|x xs Hx _ IH]; cbn [vsum]; [lia|]. pose proof (vpad_nonneg x Hx). lia. Qed.

(** Values that do not overlap take their sum. *)
Lemma size_cells xs : Forall ent_ok xs -> apart xs -> Z.of_nat (size (cells xs)) = vsum xs.
Proof.
  induction 1 as [|x xs Hx Hxs IH]; intros Ha; [done|]. destruct Ha as [Hd Ha]. cbn [cells foldr vsum]. fold (cells xs).
  pose proof (vpad_nonneg x Hx). rewrite size_union; [rewrite Nat2Z.inj_add, IH by done; unfold cells_of; rewrite size_zseq; lia|].
  intros c Hc1%elem_of_cells_of (y & Hy & Hc2%elem_of_cells_of)%elem_of_cells. rewrite Forall_forall in Hd, Hxs.
  pose proof (vpad_nonneg y (Hxs y Hy)). destruct (live x) eqn:Ex; [|rewrite (vpad_dead x) in Hc1 by done; lia].
  destruct (live y) eqn:Ey; [|rewrite (vpad_dead y) in Hc2 by done; lia]. destruct (Hd y Hy Ex Ey); lia.
Qed.

Lemma vsum_le lo hi xs : Forall ent_ok xs -> vals_ok lo hi xs -> lo <= hi -> vsum xs <= hi - lo.
Proof.
  intros Hok [Hw Ha] Hl. rewrite <- size_cells by done. rewrite <- (Z2Nat.id (hi - lo)) by lia. rewrite <- (size_zseq lo (Z.to_nat (hi - lo))).
  apply inj_le, subseteq_size. intros c (x & Hx & Hc%elem_of_cells_of)%elem_of_cells. rewrite elem_of_list_to_set, elem_of_zseq.
  rewrite Forall_forall in Hw, Hok. pose proof (vpad_nonneg x (Hok x Hx)). destruct (live x) eqn:El; [|rewrite (vpad_dead x) in Hc by done; lia].
  destruct (proj2 (Hw x Hx) El). lia.
Qed.

(** So the lowest value starts where the free space ends. *)
Lemma region_minoffs b first xs : region b first xs -> minoffs (zlen b) xs = zlen b - vsum xs.
Proof.
  intros [N V Hr _]. pose proof (no_ents _ _ _ N) as Hok. pose proof (vsum_nonneg xs Hok). pose proof (minoffs_le (zlen b) xs).
  pose proof (vsum_le _ _ _ Hok (vals_minoffs _ _ _ V) ltac:(lia)).
  pose proof (minoffs_ge (zlen b - vsum xs) (zlen b) xs ltac:(lia) (proj1 V)). lia.
Qed.
