(* ===== verification/XattrSetEntry.v ===== *)
(** [ext4_xattr_set_entry] on a sound buffer: it refuses exactly what does not
    fit, and otherwise leaves a sound buffer with the one attribute changed. *)

From S2P Require Import Prelude Pages Friend Log Xattr Bytes XattrLayout XattrStore XattrEntry.

(** What stays of the bytes in front of the first entry: all but the hash of a
    block. *)
Definition kept (first : Z) (b b' : list Z) : Prop :=
  zlen b' = zlen b /\ forall o n, 0 <= o -> 0 <= n -> o + n <= first -> o + n <= 12 \/ 16 <= o -> slice b' o n = slice b o n.

Lemma kept_refl first b : kept first b b.
Proof. done. Qed.

Lemma kept_trans first b1 b2 b3 : kept first b1 b2 -> kept first b2 b3 -> kept first b1 b3.
Proof. intros [L1 K1] [L2 K2]. split; [congruence|]. intros o n ????. by rewrite K2, K1. Qed.

Lemma only_kept first lo hi b b' : only lo hi b b' -> first <= lo -> kept first b b'.
Proof. intros O Hl. split; [by apply (on_len _ _ _ _ O)|]. intros o n ????. apply (on_same _ _ _ _ O); lia. Qed.

(** ** Hashes *)

Lemma hash_step_bound s h x : 0 <= hash_step s h x < 2 ^ 32.
Proof. apply wrap_bound. lia. Qed.

Lemma hash_fold_bound s l h : 0 <= h < 2 ^ 32 -> 0 <= foldl (hash_step s) h l < 2 ^ 32.
Proof. revert h. induction l as [|x l IH]; intros h Hh; [done|]. cbn. apply IH, hash_step_bound. Qed.

Lemma hash_entry_bound name value : 0 <= ext4_xattr_hash_entry name value < 2 ^ 32.
Proof. unfold ext4_xattr_hash_entry. by apply hash_fold_bound, hash_fold_bound. Qed.

Lemma rehash_spec b xs : names_ok b BFIRST xs -> exists b', ext4_xattr_rehash b = Ok b' /\ only 12 16 b b'.
Proof.
  intros N. unfold ext4_xattr_rehash. destruct (rehash_loop_spec (walk_fuel b) b BFIRST xs 0 N (names_fuel _ _ _ N)) as (h & -> & Hh); [done|].
  eexists. split; [done|]. pose proof (no_fits _ _ _ N) as Hf. unfold BFIRST, sizeof_header in Hf. pose proof (tot_nonneg xs). change 16 with (12 + 4). apply only_wr; lia.
Qed.

(** What a change of hashes leaves: the names, the values, the header. *)
Definition rehashed (first : Z) (xs : list xent) (b b' : list Z) : Prop :=
  names_ok b' first xs /\ kept first b b' /\ forall o n, first + tot xs + 4 <= o -> 0 <= n -> slice b' o n = slice b o n.

Lemma rehash_block b first xs (is_block : bool) : names_ok b first xs -> (is_block = true -> first = BFIRST) ->
  exists b', (if is_block then ext4_xattr_rehash b else Ok b) = Ok b' /\ rehashed first xs b b'.
Proof.
  intros N Hf. destruct is_block; [|exists b; by split]. rewrite (Hf eq_refl) in *.
  destruct (rehash_spec b xs N) as (b' & -> & O). exists b'. split; [done|]. unfold rehashed. pose proof (tot_nonneg xs). unfold BFIRST, sizeof_header in *. split_and!.
  - eapply names_only; [exact O|lia|done].
  - split; [by apply (on_len _ _ _ _ O)|]. intros o n ????. apply (on_same _ _ _ _ O); lia.
  - intros o n ??. apply (on_same _ _ _ _ O); lia.
Qed.

Lemma update_hash_spec env b first l x r n i v (is_block : bool) : names_ok b first (l ++ x :: r) -> xi_value i = Some v -> xi_in_inode i = false ->
  (is_block = true -> first = BFIRST) ->
  exists b' h, update_hash env b (first + tot l) n i is_block = Ok b' /\ rehashed first (l ++ set_hash x h :: r) b b'.
Proof.
  intros N Hv Hin Hfb. unfold update_hash. rewrite Hv, Hin. set (h := if is_block then _ else 0). cbv zeta.
  assert (0 <= h < 2 ^ 32) as Hh by (subst h; destruct is_block; [apply hash_entry_bound|done]).
  pose proof (names_here _ _ _ _ _ N) as H. destruct (here_set_hash _ _ _ h H Hh) as [I1 O1]. set (b1 := set_e_hash _ _ _) in *.
  pose proof (no_ents _ _ _ N) as Hall. apply Forall_app in Hall as [_ [Hx _]%Forall_cons].
  assert (names_ok b1 first (l ++ set_hash x h :: r)) as N1 by (eapply names_update; [exact N|exact O1|done|done|by destruct Hx]).
  destruct (rehash_block b1 first _ is_block N1 Hfb) as (b2 & -> & N2 & K2 & S2). exists b2, h. split; [done|].
  pose proof (tot_nonneg l). pose proof (tot_nonneg r). pose proof (xlen_bounds (set_hash x h)). split_and!; [done| |].
  - eapply kept_trans; [|exact K2]. eapply only_kept; [exact O1|lia].
  - intros o m Ho Hm. pose proof (no_first _ _ _ N). rewrite S2 by done. rewrite tot_app in Ho. cbn [tot] in Ho. apply (on_same _ _ _ _ O1); lia.
Qed.

(** ** Entries and values together *)

Lemma pairs_app b xs ys : pairs b (xs ++ ys) = pairs b xs ++ pairs b ys.
Proof. apply fmap_app. Qed.

Lemma pairs_ext b b' f xs : (forall x, x ∈ xs -> key (f x) = key x /\ val b' (f x) = val b x) -> pairs b' (f <$> xs) = pairs b xs.
Proof.
  intros H. unfold pairs. rewrite <- list_fmap_compose. apply list_fmap_ext. intros i x Hx%list_elem_of_lookup_2. cbn.
  destruct (H x Hx) as [-> ->]. done.
Qed.

Lemma pairs_same b b' xs : (forall x, x ∈ xs -> val b' x = val b x) -> pairs b' xs = pairs b xs.
Proof. intros H. rewrite <- (list_fmap_id xs) at 1. apply pairs_ext. auto. Qed.

Lemma pairs_keys b xs : (pairs b xs).*1 = key <$> xs.
Proof. unfold pairs. rewrite <- list_fmap_compose. by apply list_fmap_ext. Qed.

(** Values above the names are as the names are changed. *)
Lemma val_same lo hi b b' xs x : vals_ok lo hi xs -> x ∈ xs -> ent_ok x -> (forall o n, lo <= o -> 0 <= n -> slice b' o n = slice b o n) -> val b' x = val b x.
Proof.
  intros V Hx Ho H. unfold val. destruct (live x) eqn:El.
  - destruct (vals_ok_bounds _ _ _ _ V Hx El). pose proof (eo_size _ Ho). apply H; lia.
  - unfold live in El. apply negb_false_iff, Z.eqb_eq in El. by rewrite El.
Qed.

(** What is left of an entry whose value is taken out. *)
Lemma take_out b first l x r : region b first (l ++ x :: r) ->
  exists b1 l1 r1 x1,
    (if negb (e_value_size b (first + tot l) =? 0) && (e_value_inum b (first + tot l) =? 0)
     then '(last, b') ← remove_value b first (first + tot l) (zlen b - vsum (l ++ x :: r)) (vpad x); Ok (zlen b - vsum (l ++ x :: r) + vpad x, last, b')
     else Ok (zlen b - vsum (l ++ x :: r), first + tot (l ++ x :: r), b)) = Ok (zlen b - vsum (l ++ r), first + tot (l ++ x :: r), b1) /\
    names_ok b1 first (l1 ++ x1 :: r1) /\ vals_ok (zlen b - vsum (l ++ r)) (zlen b) (l1 ++ r1) /\
    pairs b1 l1 = pairs b l /\ pairs b1 r1 = pairs b r /\ tot l1 = tot l /\ tot r1 = tot r /\ vsum l1 = vsum l /\ vsum r1 = vsum r /\
    key x1 = key x /\ x_inum x1 = 0 /\ only first (zlen b) b b1.
Proof.
  intros R. pose proof R as [N V Hr _]. destruct (names_head _ _ _ _ (names_app _ _ _ _ N)) as (_ & _ & Ex & _ & Hx).
  change (e_value_size b (first + tot l)) with (x_size (ent b (first + tot l))). change (e_value_inum b (first + tot l)) with (x_inum (ent b (first + tot l))).
  rewrite Ex, (eo_inum _ Hx). cbn [Z.eqb andb]. rewrite andb_true_r. fold (live x).
  assert (vsum (l ++ x :: r) = vpad x + vsum (l ++ r)) as Es by (rewrite !vsum_app; cbn [vsum]; lia). unfold room in Hr.
  destruct (live x) eqn:El.
  - destruct (remove_value_spec b first l x r (zlen b - vsum (l ++ x :: r)) N V) as (b1 & -> & N1 & O1 & Hv); [lia|done|].
    set (f := shifted (x_offs x) (vpad x)) in *. exists b1, (f <$> l), (f <$> r), x. cbn [mbind outcome_bind].
    assert (forall y, key (f y) = key y /\ vpad (f y) = vpad y) as Hf by (intros y; destruct (shifted_live x y) as (_ & ? & _ & ?); done).
    assert (forall ys, vsum (f <$> ys) = vsum ys) as Hvs by (induction ys as [|y ys IH]; [done|]; cbn [fmap list_fmap vsum]; rewrite (proj2 (Hf y)); by f_equal).
    assert (f x = x) as Efx by (unfold f, shifted; by rewrite Z.ltb_irrefl, andb_false_r).
    split_and!; try done; rewrite ?Hvs; try done.
    + by replace (zlen b - vsum (l ++ x :: r) + vpad x) with (zlen b - vsum (l ++ r)) by lia.
    + by rewrite fmap_app, fmap_cons, Efx in N1.
    + replace (zlen b - vsum (l ++ r)) with (zlen b - vsum (l ++ x :: r) + vpad x) by lia. rewrite <- fmap_app. apply (shifted_vals b first); done || lia.
    + apply pairs_ext. intros y Hy. split; [apply Hf|]. apply Hv, elem_of_app. by left.
    + apply pairs_ext. intros y Hy. split; [apply Hf|]. apply Hv, elem_of_app. by right.
    + apply shifted_tot.
    + apply shifted_tot.
    + apply Hx.
  - exists b, l, r, x. rewrite (vpad_dead x El) in Es. replace (vsum (l ++ x :: r)) with (vsum (l ++ r)) in * by lia.
    apply vals_middle in V as (_ & _ & V). split_and!; first [done|apply Hx|apply only_refl].
Qed.

(** A sound buffer but for the names being different. *)
Definition packed (b : list Z) (first : Z) (xs : list xent) : Prop :=
  names_ok b first xs /\ vals_ok (zlen b - vsum xs) (zlen b) xs /\ 0 <= room b first xs.

Lemma packed_region b first xs : packed b first xs -> NoDup (pairs b xs).*1 -> region b first xs.
Proof. intros (? & ? & ?) Hk. rewrite pairs_keys in Hk. by split. Qed.

Lemma region_packed b first xs : region b first xs -> packed b first xs.
Proof. intros []. done. Qed.

Lemma rehashed_zlen first xs b b' : rehashed first xs b b' -> zlen b' = zlen b.
Proof. intros (_ & [Hz _] & _). done. Qed.

(** Changing hashes keeps what the buffer means. *)
Lemma rehashed_pairs first xs ys b b' : rehashed first xs b b' -> vals_ok (first + tot xs + 4) (zlen b) ys -> Forall ent_ok ys -> pairs b' ys = pairs b ys.
Proof.
  intros (_ & _ & Hs) V Ho. apply pairs_same. intros x Hx. rewrite Forall_forall in Ho. eapply val_same; eauto.
Qed.

Lemma vals_set_hash lo hi l x h r : vals_ok lo hi (l ++ set_hash x h :: r) <-> vals_ok lo hi (l ++ x :: r).
Proof. by rewrite !vals_middle. Qed.

Lemma rehashed_packed b b' first l x h r : rehashed first (l ++ set_hash x h :: r) b b' -> packed b first (l ++ x :: r) ->
  packed b' first (l ++ set_hash x h :: r) /\ pairs b' (l ++ set_hash x h :: r) = pairs b (l ++ x :: r).
Proof.
  intros Hre (N & V & Hr). pose proof (rehashed_zlen _ _ _ _ Hre) as Hz. unfold packed, room in *. rewrite Hz.
  assert (vsum (l ++ set_hash x h :: r) = vsum (l ++ x :: r)) as -> by by rewrite !vsum_app.
  assert (tot (l ++ set_hash x h :: r) = tot (l ++ x :: r)) as Et by by rewrite !tot_app. rewrite Et. split.
  - split_and!; [apply Hre|by apply vals_set_hash|lia].
  - rewrite (rehashed_pairs _ _ _ _ _ Hre), !pairs_app; [done| |apply Hre]. apply vals_set_hash. rewrite Et.
    eapply vals_weaken; [|exact V]. lia.
Qed.

Lemma store_value env i v b first l x r (is_block : bool) :
  xi_value i = Some v -> xi_in_inode i = false -> value_ok v -> (is_block = true -> first = BFIRST) ->
  names_ok b first (l ++ x :: r) -> x_offs x = 0 -> x_size x = 0 -> vals_ok (zlen b - vsum (l ++ r)) (zlen b) (l ++ r) ->
  first + tot (l ++ x :: r) + 4 <= zlen b - vsum (l ++ r) - pad4 (value_len v) ->
  exists b' xs',
    update_hash env (insert_value env b (first + tot l) (zlen b - vsum (l ++ r)) (pad4 (value_len v)) v (xi_in_inode i)) (first + tot l) (pad4 (value_len v)) i is_block = Ok b' /\
    packed b' first xs' /\ pairs b' xs' = pairs b l ++ [(key x, value_bytes v)] ++ pairs b r /\ kept first b b'.
Proof.
  intros Hv Hin Hvo Hfb N Ho Hs V Hroom. pose proof (no_ents _ _ _ N) as Hall. apply Forall_app in Hall as [Hl [Hx Hr]%Forall_cons].
  assert (0 <= vsum (l ++ r)) as Hvs by (apply vsum_nonneg; by apply Forall_app).
  destruct (insert_value_spec env b first l x r (zlen b - vsum (l ++ r)) v) as (x' & N1 & V1 & Ev & Hsame & Ek & Es & O1); [done..|lia|lia|].
  rewrite Hin. set (b1 := insert_value _ _ _ _ _ _ _) in *. pose proof (on_len _ _ _ _ O1) as Hz.
  assert (packed b1 first (l ++ x' :: r)) as P1.
  { assert (vsum (l ++ x' :: r) = vsum (l ++ r) + pad4 (value_len v)) as Esum by (rewrite !vsum_app; cbn [vsum]; unfold vpad; rewrite Es; lia).
    assert (xlen x' = xlen x) as Exl by (unfold xlen; by injection Ek as _ ->). rewrite tot_app in Hroom. cbn [tot] in Hroom.
    unfold packed, room. rewrite Hz, Esum, tot_app. cbn [tot]. rewrite Exl. split_and!; [done| |lia].
    by replace (zlen b - (vsum (l ++ r) + pad4 (value_len v))) with (zlen b - vsum (l ++ r) - pad4 (value_len v)) by lia. }
  destruct (update_hash_spec env b1 first l x' r (pad4 (value_len v)) i v is_block N1 Hv Hin Hfb) as (b2 & h & -> & Hre).
  destruct (rehashed_packed _ _ _ _ _ _ _ Hre P1) as [P2 Ep]. exists b2, (l ++ set_hash x' h :: r). split_and!; [done|done| |].
  - rewrite Ep, pairs_app. change (pairs b1 (x' :: r)) with ((key x', val b1 x') :: pairs b1 r). rewrite Ek, Ev. cbn [app].
    f_equal; [|f_equal]; apply pairs_same; intros y Hy; apply Hsame, elem_of_app; auto.
  - eapply kept_trans; [|apply Hre]. eapply only_kept; [exact O1|]. pose proof (tot_nonneg l). lia.
Qed.

(** ** The whole operation *)

Lemma attrs_eq b xs kvs : pairs b xs = kvs -> attrs b xs = list_to_map kvs.
Proof. unfold attrs. by intros ->. Qed.

(** Space for the value of an entry, or for a new entry with its value. *)
Definition need (x : option xent) (k : Z * list Z) (v : xattr_value) : Z :=
  match x with Some x => pad4 (value_len v) - vpad x | None => xlen (new_ent k.1 k.2) + pad4 (value_len v) end.

(** The space kept for names in a block where values may be outside. *)
Definition reserved (env : entry_env) (b : list Z) (xs : list xent) (x : option xent) (v : xattr_value) (is_block : bool) : bool :=
  en_ea_inode env && is_block && negb (value_len v =? 0) && negb (pad4 (value_len v) =? from_option vpad 0 x) &&
  (zlen b - vsum xs + from_option vpad 0 x - pad4 (value_len v) <? EXT4_XATTR_BLOCK_RESERVE (en_blocksize env)).

(** A buffer after the attribute [k] was set to [v], or removed. *)
Definition entry_done (first : Z) (b : list Z) (l r : list xent) (k : Z * list Z) (v : option xattr_value) (b' : list Z) : Prop :=
  exists xs', region b' first xs' /\ kept first b b' /\
    pairs b' xs' = pairs b l ++ (match v with Some v => [(k, value_bytes v)] | None => [] end) ++ pairs b r.

(** What the caller of [ext4_xattr_set_entry] promises. *)
Record set_call (i : ext4_xattr_info) (s : ext4_xattr_search) (b : list Z) (is_block : bool) (l : list xent) (x : option xent) (r : list xent) : Prop := {
  sc_region : region b (s_first s) (l ++ option_list x ++ r);
  sc_here : s_here s = s_first s + tot l;
  sc_found : match x with Some x => s_not_found s = false /\ key x = (xi_name_index i, xi_name i)
                        | None => s_not_found s = true /\ xi_value i <> None /\ (xi_name_index i, xi_name i) ∉ key <$> (l ++ r) end;
  sc_inode : xi_in_inode i = false;
  sc_name : ent_ok (new_ent (xi_name_index i) (xi_name i));
  sc_value : match xi_value i with Some v => value_ok v /\ value_len v <= EXT4_XATTR_SIZE_MAX | None => True end;
  sc_block : is_block = true -> s_first s = BFIRST
}.

Section call.
Context (env : entry_env) (i : ext4_xattr_info) (s : ext4_xattr_search) (b : list Z) (is_block : bool) (l r : list xent).
Notation first := (s_first s).
Notation k := (xi_name_index i, xi_name i).

Lemma done_intro (b' : list Z) xs' v : packed b' first xs' -> kept first b b' ->
  pairs b' xs' = pairs b l ++ (match v with Some v => [(k, value_bytes v)] | None => [] end) ++ pairs b r ->
  NoDup (key <$> (l ++ r)) -> k ∉ key <$> (l ++ r) -> entry_done first b l r k v b'.
Proof.
  intros P K E Hnd Hk. exists xs'. split_and!; [|done|done]. apply packed_region; [done|]. rewrite E, !fmap_app, !pairs_keys.
  rewrite fmap_app in Hnd, Hk. destruct v as [v|]; [|done]. cbn [fmap list_fmap app fst].
  rewrite <- Permutation_middle. by constructor.
Qed.

(** What [set_call] says of an entry that was found. *)
Lemma call_found x : set_call i s b is_block l (Some x) r ->
  region b first (l ++ x :: r) /\ key x = k /\ NoDup (key <$> (l ++ r)) /\ k ∉ key <$> (l ++ r) /\ ent_ok x.
Proof.
  intros [R _ [_ Hk] _ _ _ _]. change (l ++ option_list (Some x) ++ r) with (l ++ x :: r) in R. pose proof (rg_keys _ _ _ R) as Hnd.
  rewrite fmap_app, fmap_cons, <- Permutation_middle, <- fmap_app in Hnd. apply NoDup_cons in Hnd as [Hni Hnd]. rewrite Hk in Hni.
  split_and!; try done. pose proof (no_ents _ _ _ (rg_names _ _ _ R)) as Hall. by apply Forall_app in Hall as [_ [? _]%Forall_cons].
Qed.

(** A value of the same padded size. *)
Lemma replace_value_spec x v : set_call i s b is_block l (Some x) r -> xi_value i = Some v -> pad4 (value_len v) = vpad x -> vpad x <> 0 ->
  exists b', replace_value env b (s_here s) (pad4 (value_len v)) i is_block = Ok (0, b') /\ entry_done first b l r k (xi_value i) b'.
Proof.
  intros C Hv Hp Hnz. destruct (call_found x C) as (R & Hk & Hnd & Hnk & Hx). pose proof R as [N V Hr _]. destruct C as [_ Hh _ Hin _ Hvo Hfb].
  rewrite Hv in Hvo. destruct Hvo as [[Hv0 Hvb] _]. assert (live x = true) as El by (destruct (live x) eqn:E; [done|by rewrite vpad_dead in Hnz]).
  assert (x ∈ l ++ x :: r) as Hin' by (apply elem_of_app; right; by left). destruct (vals_ok_bounds _ _ _ _ V Hin' El) as [Hlo Hhi].
  pose proof (no_small _ _ _ N). pose proof (pad4_bounds _ Hv0). unfold room in Hr. pose proof (no_first _ _ _ N). pose proof (tot_nonneg (l ++ x :: r)) as Ht.
  assert (Forall ent_ok (l ++ r)) as Hok by (pose proof (no_ents _ _ _ N) as Hall; apply Forall_app in Hall as [? [_ ?]%Forall_cons]; by apply Forall_app).
  unfold replace_value. rewrite Hv, Hh. change (e_value_offs b (first + tot l)) with (x_offs (ent b (first + tot l))).
  pose proof (names_here _ _ _ _ _ N) as H'. pose proof H' as (_ & _ & _ & -> & _).
  assert (u32 (value_len v) = value_len v) as -> by (apply wrap_small; lia).
  destruct (here_set_size _ _ _ (value_len v) H') as [I1 O1]; [lia|]. set (b1 := set_e_value_size _ _ _) in *. pose proof (on_len _ _ _ _ O1) as L1.
  assert (names_ok b1 first (l ++ set_size x (value_len v) :: r)) as N1 by (eapply names_update; [exact N|exact O1|done|done|destruct Hx; by split; cbn; try done; lia]).
  destruct (put_value_spec b1 (x_offs x) v (pad4 (value_len v))) as [O2 Hput]; [done|lia|lia|lia|]. set (b2 := put_value _ _ _ _) in *. pose proof (on_len _ _ _ _ O2) as L2.
  assert (tot (l ++ set_size x (value_len v) :: r) = tot (l ++ x :: r)) as Et by by rewrite !tot_app.
  assert (vsum (l ++ set_size x (value_len v) :: r) = vsum (l ++ x :: r)) as Es by (rewrite !vsum_app; cbn [vsum]; unfold vpad at 1; cbn [x_size set_size]; lia).
  assert (names_ok b2 first (l ++ set_size x (value_len v) :: r)) as N2 by (eapply names_only; [exact O2|lia|done]).
  pose proof V as (Hwx & Hd & V')%vals_middle.
  assert (packed b2 first (l ++ set_size x (value_len v) :: r)) as P2.
  { unfold packed, room. rewrite L2, L1, Es, Et. split_and!; [done| |lia]. apply vals_middle. split_and!; [| |done].
    - unfold within, vpad. cbn [x_offs x_size set_size]. lia.
    - apply Forall_forall. intros y Hy _ Ely. rewrite Forall_forall in Hd. specialize (Hd y Hy El Ely). unfold vpad at 1. cbn [x_offs x_size set_size]. lia. }
  assert (forall y, y ∈ l ++ r -> val b2 y = val b y) as Hval.
  { intros y Hy. unfold val. destruct (live y) eqn:Ely; [|unfold live in Ely; apply negb_false_iff, Z.eqb_eq in Ely; by rewrite Ely].
    destruct (vals_ok_bounds _ _ _ _ V' Hy Ely). rewrite Forall_forall in Hd, Hok. destruct (vpad_live y (Hok y Hy) Ely) as [_ ?]. pose proof (eo_size _ (Hok y Hy)).
    pose proof (vsum_nonneg (l ++ r)) as Hvs. rewrite tot_app in Ht, Hr. cbn [tot] in Hr, Ht. pose proof (tot_nonneg l). pose proof (tot_nonneg r). pose proof (xlen_bounds x).
    rewrite !vsum_app in *. cbn [vsum] in *. destruct (Hd y Hy El Ely); rewrite (on_same _ _ _ _ O2), (on_same _ _ _ _ O1) by lia; done. }
  destruct (update_hash_spec env b2 first l _ r (pad4 (value_len v)) i v is_block N2 Hv Hin Hfb) as (b3 & h & -> & Hre).
  destruct (rehashed_packed _ _ _ _ _ _ _ Hre P2) as [P3 Ep]. exists b3. split; [done|]. eapply done_intro; [exact P3| | |done|done].
  - eapply kept_trans; [|apply Hre]. eapply kept_trans; [eapply only_kept; [exact O1|]|eapply only_kept; [exact O2|]]; pose proof (tot_nonneg l); lia.
  - rewrite Ep, pairs_app. cbn [app]. f_equal; [apply pairs_same; intros y Hy; apply Hval, elem_of_app; auto|].
    change (pairs b2 (set_size x (value_len v) :: r)) with ((key x, slice b2 (x_offs x) (value_len v)) :: pairs b2 r). rewrite Hput, Hk.
    f_equal. apply pairs_same; intros y Hy; apply Hval, elem_of_app; auto.
Qed.

(** The three cases of [change_entry]. *)
Lemma found_inum x : set_call i s b is_block l (Some x) r -> e_value_inum b (s_here s) = 0 /\ e_value_size b (s_here s) = x_size x.
Proof.
  intros C. destruct (call_found x C) as (R & _ & _ & _ & Hx). destruct (names_here _ _ _ _ _ (rg_names _ _ _ R)) as (_ & _ & _ & Ex & _).
  destruct C as [_ -> _ _ _ _ _]. change (x_inum (ent b (first + tot l)) = 0 /\ x_size (ent b (first + tot l)) = x_size x). rewrite Ex. split; [apply Hx|done].
Qed.

Lemma remove_found x : set_call i s b is_block l (Some x) r -> xi_value i = None -> en_inline env = 0 ->
  exists b', change_entry env b i s is_block (zlen b - vsum (l ++ x :: r)) (first + tot (l ++ x :: r)) (vpad x) 0 = Ok (0, b') /\
    entry_done first b l r k (xi_value i) b'.
Proof.
  intros C Hv Hil. destruct (call_found x C) as (R & Hk & Hnd & Hnk & Hx). pose proof C as [_ Hh [Hnf _] Hin _ _ Hfb].
  destruct (take_out b first l x r R) as (b1 & l1 & r1 & x1 & E & N1 & V1 & Pl & Pr & Tl & Tr & Sl & Sr & Kx & _ & O1).
  unfold change_entry. rewrite Hnf, Hh. cbn [negb andb]. rewrite E, Hv, Hil. cbn [negb andb mbind outcome_bind Z.eqb]. rewrite andb_false_r.
  assert (tot (l1 ++ x1 :: r1) = tot (l ++ x :: r)) as Et by (rewrite !tot_app; cbn [tot]; rewrite Tl, Tr; unfold xlen; by injection Kx as _ ->).
  pose proof (remove_name_spec _ _ _ _ _ N1) as [N2 O2]. rewrite Tl, Et in N2, O2. assert (x_name x1 = xi_name i) as En by (rewrite Hk in Kx; by injection Kx).
  rewrite En in N2, O2. set (b2 := remove_name _ _ _ _) in *. pose proof (on_len _ _ _ _ O1) as L1. pose proof (on_len _ _ _ _ O2) as L2.
  unfold update_hash. rewrite Hv. destruct (rehash_block b2 first _ is_block N2 Hfb) as (b3 & -> & Hre). cbn [mbind outcome_bind].
  pose proof (rg_room _ _ _ R) as Hr. unfold room in Hr. pose proof (rehashed_zlen _ _ _ _ Hre) as L3.
  assert (vsum (l ++ x :: r) = vpad x + vsum (l ++ r)) as Es by (rewrite !vsum_app; cbn [vsum]; lia). pose proof (vpad_nonneg x Hx).
  assert (tot (l ++ x :: r) = tot (l ++ r) + xlen x) as Et' by (rewrite !tot_app; cbn [tot]; lia). pose proof (xlen_bounds x).
  assert (tot (l1 ++ r1) = tot (l ++ r)) as Etr by (by rewrite !tot_app, Tl, Tr). assert (vsum (l1 ++ r1) = vsum (l ++ r)) as Esr by (by rewrite !vsum_app, Sl, Sr).
  pose proof (no_ents _ _ _ N2) as Hok. exists b3. split; [done|].
  apply (done_intro b3 (l1 ++ r1)); [| | |done|done].
  - unfold packed, room. rewrite L3, L2, L1, Etr, Esr. split_and!; [apply Hre|done|lia].
  - eapply kept_trans; [eapply only_kept; [exact O1|done]|]. eapply kept_trans; [eapply only_kept; [exact O2|]|apply Hre]. pose proof (tot_nonneg l); lia.
  - rewrite (rehashed_pairs _ _ (l1 ++ r1) _ _ Hre), pairs_app, <- Pl, <- Pr; [|rewrite L2, L1, Etr; eapply vals_weaken; [|exact V1]; lia|done].
    cbn [app]. rewrite Forall_forall in Hok. f_equal; apply pairs_same; intros y Hy; (eapply (val_same _ _ b1 b2); [exact V1|apply elem_of_app; eauto|apply Hok, elem_of_app; eauto|]);
      intros o n Ho Hn; apply (on_same _ _ _ _ O2); pose proof (no_first _ _ _ N1); pose proof (tot_nonneg (l ++ r)); lia.
Qed.

Lemma set_found x v : set_call i s b is_block l (Some x) r -> xi_value i = Some v ->
  need (Some x) k v <= room b first (l ++ x :: r) ->
  exists b', change_entry env b i s is_block (zlen b - vsum (l ++ x :: r)) (first + tot (l ++ x :: r)) (vpad x) (pad4 (value_len v)) = Ok (0, b') /\
    entry_done first b l r k (xi_value i) b'.
Proof.
  intros C Hv Hneed. destruct (call_found x C) as (R & Hk & Hnd & Hnk & Hx). pose proof C as [_ Hh [Hnf _] Hin _ Hvo Hfb].
  destruct (take_out b first l x r R) as (b1 & l1 & r1 & x1 & E & N1 & V1 & Pl & Pr & Tl & Tr & Sl & Sr & Kx & Hi & O1).
  unfold change_entry. rewrite Hnf, Hh. cbn [negb andb]. rewrite E, Hv. cbn [mbind outcome_bind]. rewrite Hv in Hvo. destruct Hvo as [Hvo _].
  assert (vsum (l ++ x :: r) = vpad x + vsum (l ++ r)) as Es by (rewrite !vsum_app; cbn [vsum]; lia). pose proof (vpad_nonneg x Hx).
  assert (vsum (l1 ++ r1) = vsum (l ++ r)) as Esr by (by rewrite !vsum_app, Sl, Sr).
  pose proof (names_here _ _ _ _ _ N1) as H1. destruct (here_reset _ _ _ H1 Hi) as [H2 O2]. rewrite <- Tl. set (b2 := reset_value _ _) in *.
  pose proof (on_len _ _ _ _ O1) as L1. pose proof (on_len _ _ _ _ O2) as L2. pose proof (no_ents _ _ _ N1) as Hall. apply Forall_app in Hall as [Hl1 [Hx1 Hr1]%Forall_cons].
  assert (names_ok b2 first (l1 ++ no_value x1 :: r1)) as N2 by (eapply names_update; [exact N1|exact O2|done|done|by destruct Hx1; split; cbn; try done; lia]).
  assert (tot (l1 ++ no_value x1 :: r1) = tot (l ++ x :: r)) as Et by (rewrite !tot_app; cbn [tot]; rewrite Tl, Tr; unfold xlen; cbn [x_name no_value]; by injection Kx as _ ->).
  unfold need in Hneed. unfold room in Hneed.
  destruct (store_value env i v b2 first l1 (no_value x1) r1 is_block) as (b3 & xs' & E3 & P3 & Ep & K3); try done.
  { by rewrite L2, L1, Esr. }
  { rewrite Et, L2, L1, Esr. lia. }
  rewrite L2, L1, Esr in E3. rewrite E3. exists b3. split; [done|]. apply (done_intro b3 xs'); [done| | |done|done].
  - eapply kept_trans; [eapply only_kept; [exact O1|done]|]. eapply kept_trans; [eapply only_kept; [exact O2|]|exact K3]. pose proof (tot_nonneg l1); lia.
  - rewrite Ep. assert (key (no_value x1) = k) as -> by (by rewrite <- Hk, <- Kx). rewrite <- Pl, <- Pr.
    assert (forall y, y ∈ l1 ++ r1 -> val b2 y = val b1 y) as Hval.
    { intros y Hy. eapply (val_same _ _ b1 b2); [exact V1|exact Hy| |].
      - apply elem_of_app in Hy. rewrite Forall_forall in Hl1, Hr1. destruct Hy; auto.
      - intros o n Ho Hn. pose proof (tot_nonneg r1). pose proof (xlen_bounds x1). pose proof (no_first _ _ _ N1). rewrite tot_app in Et. cbn [tot] in Et.
        change (xlen (no_value x1)) with (xlen x1) in Et. pose proof (pad4_bounds (value_len v) (proj1 Hvo)). pose proof (tot_nonneg l1). apply (on_same _ _ _ _ O2); lia. }
    f_equal; [|f_equal]; apply pairs_same; intros y Hy; apply Hval, elem_of_app; auto.
Qed.

Lemma set_new v : set_call i s b is_block l None r -> xi_value i = Some v -> need None k v <= room b first (l ++ r) ->
  exists b', change_entry env b i s is_block (zlen b - vsum (l ++ r)) (first + tot (l ++ r)) 0 (pad4 (value_len v)) = Ok (0, b') /\
    entry_done first b l r k (xi_value i) b'.
Proof.
  intros [R Hh (Hnf & _ & Hnk) Hin Hname Hvo Hfb] Hv Hneed. change (l ++ option_list None ++ r) with (l ++ r) in R. pose proof R as [N V Hr Hnd].
  unfold change_entry. rewrite Hnf, Hh, Hv. cbn [negb andb mbind outcome_bind]. rewrite Hv in Hvo. destruct Hvo as [Hvo _].
  unfold need, room in *. cbn [fst snd] in Hneed. pose proof (pad4_bounds (value_len v) (proj1 Hvo)). pose proof (no_ents _ _ _ N) as Hall. pose proof (vsum_nonneg _ Hall).
  destruct (insert_name_spec b first l r (xi_name_index i) (xi_name i)) as [N2 O2]; [done..|lia|]. set (b2 := insert_name _ _ _ _ _) in *. pose proof (on_len _ _ _ _ O2) as L2.
  assert (tot (l ++ new_ent (xi_name_index i) (xi_name i) :: r) = tot (l ++ r) + xlen (new_ent (xi_name_index i) (xi_name i))) as Et by (rewrite !tot_app; cbn [tot]; lia).
  destruct (store_value env i v b2 first l (new_ent (xi_name_index i) (xi_name i)) r is_block) as (b3 & xs' & E3 & P3 & Ep & K3); try done.
  { by rewrite L2. }
  { rewrite Et, L2. lia. }
  rewrite L2 in E3. rewrite E3. exists b3. split; [done|]. apply (done_intro b3 xs'); [done| | |done|done].
  - eapply kept_trans; [eapply only_kept; [exact O2|]|exact K3]. pose proof (tot_nonneg l); lia.
  - rewrite Ep. change (key (new_ent (xi_name_index i) (xi_name i))) with k.
    assert (forall y, y ∈ l ++ r -> val b2 y = val b y) as Hval.
    { intros y Hy. rewrite Forall_forall in Hall. eapply (val_same _ _ b b2); [exact V|exact Hy|by apply Hall|].
      intros o n Ho Hn. pose proof (no_first _ _ _ N). pose proof (tot_nonneg (l ++ r)). apply (on_same _ _ _ _ O2); lia. }
    f_equal; [|f_equal]; apply pairs_same; intros y Hy; apply Hval, elem_of_app; auto.
Qed.

(** ** The whole operation *)

Lemma sizes x : set_call i s b is_block l x r ->
  (if negb (s_not_found s) && (e_value_inum b (s_here s) =? 0) then EXT4_XATTR_SIZE 32 (e_value_size b (s_here s)) else 0) = from_option vpad 0 x.
Proof.
  intros C. destruct x as [x|]; [|destruct C as [_ _ [-> _] _ _ _ _]; done]. destruct (found_inum x C) as [-> ->]. destruct (call_found x C) as (_ & _ & _ & _ & Hx).
  destruct C as [_ _ [-> _] _ _ _ _]. cbn [negb andb Z.eqb from_option]. pose proof (eo_size _ Hx). apply SIZE_pad; lia.
Qed.

(** Whether the call is refused. *)
Definition refused (x : option xent) : bool :=
  match xi_value i with
  | Some v => (room b first (l ++ option_list x ++ r) <? need x k v) || reserved env b (l ++ option_list x ++ r) x v is_block
  | None => false
  end.

Lemma no_space_spec x v : set_call i s b is_block l x r -> xi_value i = Some v ->
  negb (pad4 (value_len v) =? 0) && (pad4 (value_len v) =? from_option vpad 0 x) = false ->
  no_space env i s is_block (zlen b - vsum (l ++ option_list x ++ r)) (first + tot (l ++ option_list x ++ r)) (from_option vpad 0 x) (pad4 (value_len v)) = refused x.
Proof.
  intros C Hv Hfast. pose proof C as [R _ _ _ Hname Hvo _]. pose proof R as [N _ Hr _]. unfold no_space, refused, reserved. rewrite Hv in *. destruct Hvo as [[Hv0 _] Hmax].
  pose proof (pad4_bounds _ Hv0) as Hp. change EXT4_XATTR_SIZE_MAX with 16777216 in Hmax. pose proof (no_small _ _ _ N). pose proof (no_first _ _ _ N). pose proof (tot_nonneg (l ++ option_list x ++ r)).
  pose proof (vsum_nonneg _ (no_ents _ _ _ N)) as Hvs. unfold room in *. rewrite LEN_pad. set (xs := l ++ option_list x ++ r) in *.
  assert (0 <= from_option vpad 0 x <= vsum xs) as Hold.
  { pose proof (no_ents _ _ _ N) as Hall. subst xs. destruct x as [x|]; cbn [from_option] in *; [|lia]. change (option_list (Some x) ++ r) with (x :: r) in *. apply Forall_app in Hall as [Hl [Hx Hr']%Forall_cons].
    rewrite vsum_app. cbn [vsum app]. pose proof (vsum_nonneg _ Hl). pose proof (vsum_nonneg _ Hr'). pose proof (vpad_nonneg _ Hx). lia. }
  assert (pad4 (value_len v) = 0 <-> value_len v = 0) as Hz by (split; [lia|intros ->; done]).
  pose proof (pad4_bounds _ (zlen_nonneg (xi_name i))) as Hpn. pose proof (eo_name_len _ Hname) as Hnl. cbn [x_name new_ent] in Hnl.
  assert (u64 (zlen b - vsum xs - (first + tot xs) - 4) = zlen b - first - (tot xs + 4) - vsum xs) as -> by (rewrite u64_small; lia).
  assert (u64 (16 + pad4 (zlen (xi_name i)) + pad4 (value_len v)) = 16 + pad4 (zlen (xi_name i)) + pad4 (value_len v)) as -> by (apply u64_small; lia).
  assert ((if s_not_found s then zlen b - first - (tot xs + 4) - vsum xs else u64 (zlen b - first - (tot xs + 4) - vsum xs + (16 + pad4 (zlen (xi_name i))) + from_option vpad 0 x)) <?
          16 + pad4 (zlen (xi_name i)) + pad4 (value_len v) = (zlen b - first - (tot xs + 4) - vsum xs <? need x k v)) as ->.
  { destruct C as [_ _ Hnf _ _ _ _]. unfold need. destruct x as [x|]; cbn [from_option] in *; destruct Hnf as [-> _]; [rewrite u64_small by lia|].
    - destruct (Z.ltb_spec (zlen b - first - (tot xs + 4) - vsum xs) (pad4 (value_len v) - vpad x)); case_bools; lia.
    - done. }
  destruct (Z.ltb_spec (zlen b - first - (tot xs + 4) - vsum xs) (need x k v)) as [Hlt|Hge]; [done|]. cbn [orb].
  assert (u64 (zlen b - vsum xs + from_option vpad 0 x - pad4 (value_len v)) = zlen b - vsum xs + from_option vpad 0 x - pad4 (value_len v)) as ->.
  { apply u64_small. unfold need in Hge. destruct x as [x|]; cbn [from_option] in *; unfold xlen in *; cbn [x_name new_ent fst snd] in *; lia. }
  destruct (Z.eqb_spec (pad4 (value_len v)) 0) as [E0|E0], (Z.eqb_spec (value_len v) 0) as [E1|E1]; try lia; cbn [negb andb] in *.
  rewrite Hfast. by destruct (en_ea_inode env), is_block.
Qed.

Lemma set_entry_spec x : set_call i s b is_block l x r -> (xi_value i = None -> is_Some x) -> en_inline env = 0 ->
  exists ret b', ext4_xattr_set_entry env i s b is_block = Ok (ret, b') /\
    (if refused x then ret = - ENOSPC /\ b' = b else ret = 0 /\ entry_done first b l r k (xi_value i) b').
Proof.
  intros C Hsome Hil. pose proof C as [R _ _ Hin _ Hvo _]. pose proof R as [N V Hr _]. unfold ext4_xattr_set_entry. rewrite (sizes x C), Hin.
  set (new_size := match xi_value i with Some v => _ | None => 0 end). rewrite (min_offs_loop_spec _ _ _ _ _ N (names_fuel _ _ _ N)), (region_minoffs _ _ _ R). cbn [mbind outcome_bind].
  destruct (xi_value i) as [v|] eqn:Hv; cycle 1.
  - destruct (Hsome eq_refl) as [y ->]. change (option_list (Some y) ++ r) with (y :: r) in *. cbn [from_option]. subst new_size. cbn [Z.eqb negb andb]. unfold no_space, refused. rewrite Hv.
    destruct (found_inum y C) as [-> _]. rewrite andb_false_r. cbn [Z.eqb negb]. destruct (remove_found y C Hv Hil) as (b' & -> & Hd). rewrite Hv in Hd. eauto.
  - assert (new_size = pad4 (value_len v)) as -> by (subst new_size; destruct Hvo as [[? _] Hm]; change EXT4_XATTR_SIZE_MAX with 16777216 in Hm; apply SIZE_pad; lia).
    destruct (negb (pad4 (value_len v) =? 0) && (pad4 (value_len v) =? from_option vpad 0 x)) eqn:Hfast.
    + apply andb_prop in Hfast as [Hnz%negb_true_iff%Z.eqb_neq Heq%Z.eqb_eq]. destruct x as [x|]; cbn [from_option] in Heq; [|lia].
      destruct (replace_value_spec x v C Hv Heq) as (b' & -> & Hd); [lia|]. rewrite Hv in Hd. exists 0, b'. split; [done|].
      assert (refused (Some x) = false) as ->; [|done]. unfold refused, reserved, need. rewrite Hv, Heq. cbn [from_option]. rewrite Z.eqb_refl, Z.sub_diag. cbn [negb].
      rewrite andb_false_r, orb_false_r. lia.
    + rewrite (no_space_spec x v C Hv Hfast). destruct (refused x) eqn:Hrf; [eauto|]. unfold refused in Hrf. rewrite Hv in Hrf. apply orb_false_iff in Hrf as [Hge%Z.ltb_ge _].
      destruct x as [x|].
      * destruct (found_inum x C) as [-> _]. rewrite andb_false_r. cbn [Z.eqb negb from_option]. destruct (set_found x v C Hv Hge) as (b' & E & Hd). rewrite Hv in Hd.
        exists 0, b'. split; [exact E|split; [done|exact Hd]].
      * pose proof C as [_ _ [Hnf _] _ _ _ _]. rewrite Hnf. cbn [negb andb Z.eqb from_option]. destruct (set_new v C Hv Hge) as (b' & E & Hd). rewrite Hv in Hd.
        exists 0, b'. split; [exact E|split; [done|exact Hd]].
Qed.
End call.
