(* ===== verification/XattrShare.v ===== *)
(** Proofs on attribute blocks and their users: writes to the header, comparison of
    blocks, release, and a change of the block of one inode, which keeps the
    attributes of the others that share it. *)

From Stdlib Require Import Sorting.Sorted.
From S2P Require Import Prelude Pages Friend Log Xattr Bytes XattrLayout XattrStore XattrEntry XattrSetEntry.

(** ** Reading the entries *)

Lemma entries_spec fuel b o xs : names_ok b o xs -> (length xs < fuel)%nat -> entries fuel b o = xs.
Proof.
  revert fuel o. induction xs as [|x xs IH]; intros [|k] o N Hk; cbn [length] in Hk; try lia; cbn [entries].
  - by rewrite (names_last _ _ N).
  - destruct (names_head _ _ _ _ N) as (-> & -> & -> & _). f_equal. apply IH; [by apply names_tail|lia].
Qed.

Lemma map_of_region b first xs : region b first xs -> map_of b first = attrs b xs.
Proof. intros R. unfold map_of. by rewrite (entries_spec _ _ _ xs) by apply R || apply (names_fuel _ first), R. Qed.

(** ** Writes to the header *)

Lemma header_region lo hi b b' ys : only lo hi b b' -> hi <= BFIRST -> region b BFIRST ys -> region b' BFIRST ys /\ pairs b' ys = pairs b ys.
Proof.
  intros O Hh [N V Hr Hk]. pose proof (on_len _ _ _ _ O) as Hz. unfold room in Hr. pose proof (tot_nonneg ys). unfold BFIRST, sizeof_header in *. split.
  - split; [eapply names_only; [exact O|lia|done]|by rewrite Hz|unfold room; by rewrite Hz|done].
  - apply pairs_same. intros x Hx. pose proof (no_ents _ _ _ N) as Hok. rewrite Forall_forall in Hok. eapply val_same; [exact V|done|by apply Hok|].
    intros o n Ho Hn. apply (on_same _ _ _ _ O); lia.
Qed.

Lemma kept_rd first b b' o n : kept first b b' -> 0 <= o -> 0 <= n -> o + n <= first -> o + n <= 12 \/ 16 <= o -> rd b' o n = rd b o n.
Proof. intros [_ K] ????. apply rd_slice. by apply K. Qed.

(** Contents stay sound where only the count, the hash or the checksum change. *)
Lemma contents_only env lo hi b b' ys : only lo hi b b' -> 4 <= lo -> hi <= 8 \/ 12 <= lo /\ hi <= BFIRST -> contents_ok env b ys ->
  contents_ok env b' ys /\ pairs b' ys = pairs b ys.
Proof.
  intros O Hlo Hhi [Hs R Hso Hm Hb]. unfold BFIRST, sizeof_header in Hhi. destruct (header_region _ _ _ _ _ O ltac:(unfold BFIRST, sizeof_header; lia) R) as [R' E].
  split; [|done]. split; [by rewrite (on_len _ _ _ _ O)|done|done|..].
  - unfold h_magic in *. by rewrite (only_rd _ _ _ _ _ _ O) by lia.
  - unfold h_blocks in *. rewrite (only_rd _ _ _ _ _ _ O); [done|lia..].
Qed.

Lemma contents_len env b ys : contents_ok env b ys -> BFIRST + 4 <= zlen b.
Proof. intros [_ [N _ _ _] _ _ _]. pose proof (no_fits _ _ _ N). pose proof (tot_nonneg ys). lia. Qed.

Lemma count_only b n : BFIRST + 4 <= zlen b -> only 4 8 b (set_h_refcount b n).
Proof. unfold BFIRST, sizeof_header. intros. change 8 with (4 + 4). apply only_wr; lia. Qed.

Lemma count_set b n : BFIRST + 4 <= zlen b -> 0 <= n < 2 ^ 32 -> h_refcount (set_h_refcount b n) = n.
Proof. unfold BFIRST, sizeof_header. intros. apply rd_wr; lia. Qed.

Lemma csum_only env blk b : BFIRST + 4 <= zlen b -> only 16 20 b (csum_set env blk b).
Proof.
  unfold BFIRST, sizeof_header. intros. unfold csum_set, ext4_xattr_block_csum_set. case_match; [|apply only_refl].
  change 20 with (16 + 4) at 1. apply only_wr; lia.
Qed.

(** A checksum that was set verifies: it does not cover itself. *)
Lemma csum_verify env blk b : BFIRST + 4 <= zlen b -> ext4_xattr_block_csum_verify (ext4_chksum env) (xe_sb env) blk (csum_set env blk b) = true.
Proof.
  intros Hl. pose proof (csum_only env blk b Hl) as O. pose proof (on_len _ _ _ _ O) as Hz. unfold BFIRST, sizeof_header in Hl. revert O Hz.
  unfold csum_set, ext4_xattr_block_csum_verify, ext4_xattr_block_csum_set. destruct (has_metadata_csum (xe_sb env)); [|done]. intros O Hz. cbn [negb orb].
  apply Z.eqb_eq. unfold h_checksum. rewrite rd_wr; [|lia..|apply wrap_bound; lia].
  unfold ext4_xattr_block_csum at 1 2. rewrite Hz, !(on_same _ _ _ _ O) by lia. done.
Qed.

(** A block with its count and checksum set. *)
Lemma block_ok_set env blk b ys n : contents_ok env b ys -> 1 <= n <= EXT4_XATTR_REFCOUNT_MAX ->
  block_ok env blk (csum_set env blk (set_h_refcount b n)) ys n /\ pairs (csum_set env blk (set_h_refcount b n)) ys = pairs b ys.
Proof.
  intros C Hn. pose proof (contents_len _ _ _ C) as Hl. pose proof (count_only b n Hl) as O1. pose proof (on_len _ _ _ _ O1) as L1.
  pose proof (csum_only env blk (set_h_refcount b n) ltac:(lia)) as O2. unfold BFIRST, sizeof_header in Hl.
  destruct (contents_only env _ _ _ _ ys O1) as [C1 E1]; [lia|lia|done|]. destruct (contents_only env _ _ _ _ ys O2) as [C2 E2]; [lia|unfold BFIRST, sizeof_header; lia|done|].
  split; [|congruence]. unfold EXT4_XATTR_REFCOUNT_MAX in Hn. split; [done| |done|apply csum_verify; unfold BFIRST, sizeof_header; lia].
  unfold h_refcount. rewrite (only_rd _ _ _ _ _ _ O2) by lia. apply rd_wr; lia.
Qed.

Lemma block_ok_csum env blk b ys n : contents_ok env b ys -> h_refcount b = n -> 1 <= n <= EXT4_XATTR_REFCOUNT_MAX ->
  block_ok env blk (csum_set env blk b) ys n /\ pairs (csum_set env blk b) ys = pairs b ys.
Proof.
  intros C Hc Hn. pose proof (contents_len _ _ _ C) as Hl. pose proof (csum_only env blk b Hl) as O.
  destruct (contents_only env _ _ _ _ ys O) as [C' E]; [lia|unfold BFIRST, sizeof_header; lia|done|]. split; [|done].
  split; [done| |done|by apply csum_verify]. unfold h_refcount in *. by rewrite (only_rd _ _ _ _ _ _ O) by lia.
Qed.

(** ** Comparison *)

Lemma memcmp_slice b1 b2 o1 o2 n : 0 <= o1 -> 0 <= o2 -> 0 <= n -> o1 + n <= zlen b1 -> o2 + n <= zlen b2 ->
  memcmp (slice b1 o1 n) (slice b2 o2 n) = 0 -> slice b1 o1 n = slice b2 o2 n.
Proof.
  intros. apply memcmp_0; [|done]. pose proof (zlen_slice b1 o1 n) as Z1. pose proof (zlen_slice b2 o2 n) as Z2. unfold zlen in *. lia.
Qed.

Lemma val_in_buffer b first xs x : region b first xs -> x ∈ xs -> live x = true -> 0 <= x_offs x /\ x_offs x + x_size x <= zlen b.
Proof.
  intros [N V _ _] Hx El. destruct (vals_ok_bounds _ _ _ _ V Hx El). pose proof (no_ents _ _ _ N) as Hok. rewrite Forall_forall in Hok.
  destruct (vpad_live x (Hok x Hx) El). pose proof (eo_offs _ (Hok x Hx)). lia.
Qed.

Lemma cmp_loop_spec fuel b1 b2 o1 o2 xs ys : names_ok b1 o1 xs -> names_ok b2 o2 ys -> (length xs < fuel)%nat ->
  (forall x, x ∈ xs -> live x = true -> 0 <= x_offs x /\ x_offs x + x_size x <= zlen b1) ->
  (forall y, y ∈ ys -> live y = true -> 0 <= x_offs y /\ x_offs y + x_size y <= zlen b2) ->
  exists r, cmp_loop fuel b1 b2 o1 o2 = Ok r /\ (r = 0 -> pairs b1 xs = pairs b2 ys).
Proof.
  revert fuel o1 o2 ys. induction xs as [|x xs IH]; intros [|k] o1 o2 ys N1 N2 Hk Hv1 Hv2; cbn [length] in Hk; try lia; cbn [cmp_loop].
  - rewrite (names_last _ _ N1). destruct ys as [|y ys]; [rewrite (names_last _ _ N2); by exists 0|].
    destruct (names_head _ _ _ _ N2) as (-> & _). by exists 1.
  - destruct (names_head _ _ _ _ N1) as (-> & -> & Ex & _ & Hx). destruct ys as [|y ys]; [rewrite (names_last _ _ N2); by exists 1|].
    destruct (names_head _ _ _ _ N2) as (-> & -> & Ey & _ & Hy). destruct (no_seg _ _ _ N1) as [[_ Lx] _]. destruct (no_seg _ _ _ N2) as [[_ Ly] _].
    change (e_hash b1 o1) with (x_hash (ent b1 o1)). change (e_name_index b1 o1) with (x_index (ent b1 o1)). change (e_value_size b1 o1) with (x_size (ent b1 o1)).
    change (e_value_inum b1 o1) with (x_inum (ent b1 o1)). change (e_name b1 o1) with (x_name (ent b1 o1)). change (e_value_offs b1 o1) with (x_offs (ent b1 o1)).
    change (e_hash b2 o2) with (x_hash (ent b2 o2)). change (e_name_index b2 o2) with (x_index (ent b2 o2)). change (e_value_size b2 o2) with (x_size (ent b2 o2)).
    change (e_value_inum b2 o2) with (x_inum (ent b2 o2)). change (e_name b2 o2) with (x_name (ent b2 o2)). change (e_value_offs b2 o2) with (x_offs (ent b2 o2)).
    rewrite Lx, Ly, Ex, Ey. destruct (_ || _) eqn:E1; [by exists 1|]. repeat (apply orb_false_iff in E1 as [E1 ?]).
    repeat match goal with H : negb _ = false |- _ => apply negb_false_iff, Z.eqb_eq in H end.
    assert (x_name x = x_name y) as En by (apply memcmp_0; [unfold zlen in *; lia|done]).
    rewrite (eo_inum _ Hx). cbn [Z.eqb andb]. destruct (memcmp (slice b1 _ _) _ =? 0) eqn:E2; [|by exists 1]. cbn [negb].
    destruct (IH k (o1 + xlen x) (o2 + xlen y) ys) as (r & -> & Hr); [by apply names_tail|by apply names_tail|lia|intros z Hz; apply Hv1; by right|intros z Hz; apply Hv2; by right|].
    exists r. split; [done|]. intros E0. specialize (Hr E0). unfold pairs in *. rewrite !fmap_cons, Hr. do 2 f_equal.
    + unfold key. congruence.
    + unfold val. replace (x_size y) with (x_size x) by done. destruct (live x) eqn:El; [|unfold live in El; apply negb_false_iff, Z.eqb_eq in El; by rewrite El].
      assert (live y = true) as Ely by (unfold live in *; congruence). destruct (Hv1 x) as [? ?]; [left|done|]. destruct (Hv2 y) as [? ?]; [left|done|].
      pose proof (eo_size _ Hx). apply memcmp_slice; [lia..|]. by apply Z.eqb_eq.
Qed.

Lemma cmp_spec b1 b2 xs ys : region b1 BFIRST xs -> region b2 BFIRST ys -> exists r, ext4_xattr_cmp b1 b2 = Ok r /\ (r = 0 -> pairs b1 xs = pairs b2 ys).
Proof.
  intros R1 R2. apply cmp_loop_spec; [apply R1|apply R2|eapply names_fuel, R1|intros x; by eapply val_in_buffer|intros x; by eapply val_in_buffer].
Qed.

(** ** Blocks and their users *)

Lemma block_attrs_ok env bl blk b ys n : bl !! blk = Some b -> block_ok env blk b ys n -> blk <> 0 -> block_attrs env bl blk = attrs b ys.
Proof.
  intros Hb Hok Hnz. unfold block_attrs, block_of. rewrite (proj2 (Z.eqb_neq blk 0)), Hb by done. apply map_of_region, Hok.
Qed.

Lemma block_attrs_insert_ne env bl blk b blk' : blk' <> blk -> block_attrs env (<[blk := b]> bl) blk' = block_attrs env bl blk'.
Proof. intros. unfold block_attrs, block_of. by rewrite lookup_insert_ne. Qed.

Lemma block_attrs_delete_ne env bl blk blk' : blk' <> blk -> block_attrs env (delete blk bl) blk' = block_attrs env bl blk'.
Proof. intros. unfold block_attrs, block_of. by rewrite lookup_delete_ne. Qed.

Lemma block_attrs_insert env bl blk b ys n : block_ok env blk b ys n -> blk <> 0 -> block_attrs env (<[blk := b]> bl) blk = attrs b ys.
Proof. intros. eapply block_attrs_ok; [apply lookup_insert_eq|done|done]. Qed.

Lemma blocks_get env rf bl blk : blocks_ok env rf bl -> is_Some (bl !! blk) ->
  blk <> 0 /\ exists ys, block_ok env blk (block_of env bl blk) ys (rf blk) /\ block_attrs env bl blk = attrs (block_of env bl blk) ys.
Proof.
  intros B [b Hb]. destruct (bs_ok _ _ _ B blk b Hb) as (Hnz & ys & Hok). split; [done|]. exists ys. unfold block_of. rewrite Hb. split; [done|].
  cbn [default from_option id]. by eapply block_attrs_ok.
Qed.

Lemma blocks_rf env rf rf' bl : (forall blk, rf' blk = rf blk) -> blocks_ok env rf bl -> blocks_ok env rf' bl.
Proof.
  intros E [Ho Hu Hn]. split; [|intros blk; rewrite E; apply Hu|intros blk; rewrite E; apply Hn].
  intros blk b Hb. destruct (Ho blk b Hb) as (? & ys & ?). split; [done|]. exists ys. by rewrite E.
Qed.

(** A block with new contents or a new count. *)
Lemma blocks_insert env rf rf' bl blk b ys : blocks_ok env rf bl -> block_ok env blk b ys (rf' blk) -> blk <> 0 -> (forall j, j <> blk -> rf' j = rf j) ->
  blocks_ok env rf' (<[blk := b]> bl).
Proof.
  intros [Ho Hu Hn] Hb Hnz Hj. split.
  - intros j c. destruct (decide (j = blk)) as [->|Hne]; [rewrite lookup_insert_eq; intros [= <-]; eauto|]. rewrite lookup_insert_ne, Hj by done. apply Ho.
  - intros j Hpos. destruct (decide (j = blk)) as [->|Hne]; [rewrite lookup_insert_eq; eauto|]. rewrite lookup_insert_ne by done. rewrite Hj in Hpos by done. auto.
  - intros j. destruct (decide (j = blk)) as [->|Hne]; [destruct (bk_bound _ _ _ _ _ Hb); lia|rewrite Hj by done; auto].
Qed.

(** Releasing a block: one user less, and the others see what they saw. *)
Lemma release_block_spec env rf rf' bl blk : blocks_ok env rf bl -> (forall c, journal_err env c = 0) -> is_Some (bl !! blk) ->
  rf' blk = rf blk - 1 -> (forall j, j <> blk -> rf' j = rf j) ->
  blocks_ok env rf' (ext4_xattr_release_block env bl blk) /\
  forall j, 0 < rf' j -> block_attrs env (ext4_xattr_release_block env bl blk) j = block_attrs env bl j.
Proof.
  intros B Hj Hs Hrf Hne. unfold ext4_xattr_release_block. rewrite Hj. cbn [Z.eqb negb]. destruct (blocks_get _ _ _ _ B Hs) as (Hnz & ys & Hok & Ha).
  pose proof (bk_bound _ _ _ _ _ Hok) as Hbd. unfold EXT4_XATTR_REFCOUNT_MAX in Hbd. rewrite (bk_count _ _ _ _ _ Hok). destruct (Z.eqb_spec (rf blk) 1) as [E1|E1].
  - split.
    + split.
      * intros j c Hc. destruct (decide (j = blk)) as [->|Hn]; [by rewrite lookup_delete_eq in Hc|]. rewrite lookup_delete_ne in Hc by done. rewrite Hne by done. by apply B.
      * intros j Hpos. destruct (decide (j = blk)) as [->|Hn]; [lia|]. rewrite lookup_delete_ne by done. rewrite Hne in Hpos by done. by apply B.
      * intros j. destruct (decide (j = blk)) as [->|Hn]; [lia|rewrite Hne by done; apply B].
    + intros j Hpos. apply block_attrs_delete_ne. intros ->. lia.
  - assert (u32 (rf blk - 1) = rf' blk) as -> by (rewrite u32_small; lia).
    destruct (block_ok_set env blk _ ys (rf' blk) (bk_contents _ _ _ _ _ Hok)) as [Hok' E]; [unfold EXT4_XATTR_REFCOUNT_MAX; lia|]. split.
    + eapply blocks_insert; [exact B|exact Hok'|done|done].
    + intros j Hpos. destruct (decide (j = blk)) as [->|Hn]; [|by apply block_attrs_insert_ne].
      rewrite (block_attrs_insert _ _ _ _ _ _ Hok' Hnz), Ha. unfold attrs. by rewrite E.
Qed.

(** The other users of blocks see the same attributes. *)
Definition others_kept (env : xenv) (users : Z -> Z) (bl bl' : blocks) : Prop :=
  forall blk, 0 < users blk -> block_attrs env bl' blk = block_attrs env bl blk.

Lemma refs_other users acl blk : blk <> acl -> refs users acl blk = users blk.
Proof. intros. unfold refs. rewrite (proj2 (Z.eqb_neq blk acl)) by done. cbn [andb]. lia. Qed.
Lemma refs_own users acl : acl <> 0 -> refs users acl acl = users acl + 1.
Proof. intros. unfold refs. by rewrite Z.eqb_refl, (proj2 (Z.eqb_neq acl 0)) by done. Qed.
Lemma refs_none users blk : refs users 0 blk = users blk.
Proof. unfold refs. rewrite andb_false_r. lia. Qed.

(** [old] as an option. *)
Definition acl_block (acl : Z) : option Z := if acl =? 0 then None else Some acl.

Section blocks.
Context (env : xenv) (users : Z -> Z) (Hu : forall blk, 0 <= users blk) (Hj : forall c, journal_err env c = 0).

(** The blocks count the inode both at its old and its new block. *)
Lemma install_spec bl ino new : let acl := i_file_acl ino in let acl' := default 0 new in
  blocks_ok env (fun blk => refs users acl blk + (if (blk =? acl') && negb (acl' =? 0) && negb (acl' =? acl) then 1 else 0)) bl ->
  exists bl', install_block env bl ino (acl_block acl) new = (0, bl', set_file_acl ino acl') /\
    blocks_ok env (refs users acl') bl' /\ others_kept env users bl bl' /\ block_attrs env bl' acl' = block_attrs env bl acl'.
Proof.
  intros acl acl' B. unfold install_block, acl_block. fold acl'. destruct (Z.eqb_spec acl 0) as [E0|E0].
  - exists bl. split_and!; [done| |by intros blk _|done]. eapply blocks_rf; [|exact B].
    intros blk. cbn. rewrite E0, refs_none. unfold refs. destruct (acl' =? 0) eqn:Ea; cbn [negb]; rewrite ?andb_false_r, ?andb_true_r; lia.
  - assert (new = Some acl <-> acl' = acl) as Hna by (unfold acl'; destruct new; cbn; split; congruence). case_bool_decide as Hn.
    + apply Hna in Hn. exists bl. split_and!; [done| |by intros blk _|done]. eapply blocks_rf; [|exact B].
      intros blk. cbn. rewrite Hn, Z.eqb_refl. cbn [negb]. rewrite andb_false_r. lia.
    + assert (acl' <> acl) as Hne by tauto. eexists. split; [done|].
      destruct (release_block_spec env _ (refs users acl') bl acl B Hj) as [B' Hk].
      * apply (bs_used _ _ _ B). cbn. rewrite refs_own by done. pose proof (Hu acl). case_match; lia.
      * cbn. rewrite refs_own, refs_other, (proj2 (Z.eqb_neq acl acl')) by done. cbn [andb]. lia.
      * intros j Hjn. cbn. rewrite (refs_other _ acl) by done. unfold refs. rewrite (proj2 (Z.eqb_neq acl' acl)) by done. by rewrite andb_true_r.
      * split_and!; [done| |].
        -- intros blk Hpos. apply Hk. unfold refs. case_match; lia.
        -- destruct (Z.eq_dec acl' 0) as [->|Hz]; [done|]. apply Hk. rewrite refs_own by done. pose proof (Hu acl'). lia.
Qed.

Lemma cache_find_spec rf bl b ys ce : (forall blk, bread_err env blk = 0) -> blocks_ok env rf bl -> region b BFIRST ys -> (forall blk, blk ∈ ce -> is_Some (bl !! blk)) ->
  exists r, ext4_xattr_block_cache_find env bl b ce = Ok (inr r) /\
    forall blk, r = Some blk -> is_Some (bl !! blk) /\ block_attrs env bl blk = attrs b ys.
Proof.
  intros Hbr B R Hce. unfold ext4_xattr_block_cache_find. destruct (h_hash b =? 0); [by exists None|].
  induction ce as [|blk ce IH]; cbn [cache_find_loop]; [by exists None|]. rewrite Hbr. cbn [Z.eqb negb].
  assert (is_Some (bl !! blk)) as Hs by (apply Hce; by left). destruct (blocks_get _ _ _ _ B Hs) as (Hnz & zs & Hok & Ha).
  destruct (cmp_spec b (block_of env bl blk) ys zs R) as (c & -> & Hc); [apply Hok|]. cbn [mbind outcome_bind].
  destruct (Z.eqb_spec c 0) as [E|E].
  - exists (Some blk). split; [done|]. intros ? [= <-]. split; [done|]. rewrite Ha. unfold attrs. by rewrite (Hc E).
  - apply IH. intros j Hjc. apply Hce. by right.
Qed.

Lemma old_used bl acl : blocks_ok env (refs users acl) bl -> acl <> 0 -> is_Some (bl !! acl).
Proof. intros B Hnz. apply (bs_used _ _ _ B). rewrite refs_own by done. pose proof (Hu acl). lia. Qed.

(** Installing a block that the inode or others have already. *)
Lemma install_same bl ino : blocks_ok env (refs users (i_file_acl ino)) bl ->
  install_block env bl ino (acl_block (i_file_acl ino)) (acl_block (i_file_acl ino)) = (0, bl, set_file_acl ino (i_file_acl ino)).
Proof. intros B. unfold install_block, acl_block. destruct (Z.eqb_spec (i_file_acl ino) 0) as [->|E]; [done|]. by rewrite bool_decide_true. Qed.

(** The outcome of giving an inode contents with the entries [ys]. *)
Definition block_given (bl : blocks) (ino : xinode) (m : gmap (Z * list Z) (list Z)) (in_place : bool) (r : outcome (Z * blocks * xinode)) : Prop :=
  exists err bl' acl', r = Ok (err, bl', set_file_acl ino acl') /\ blocks_ok env (refs users acl') bl' /\ others_kept env users bl bl' /\
    ((err = 0 /\ block_attrs env bl' acl' = m) \/ (new_meta_block env = inl err /\ in_place = false /\ bl' = bl /\ acl' = i_file_acl ino)).

(** One more user of a block, which the inode then takes. *)
Lemma join_spec bl ino blk n b ys in_place : blocks_ok env (refs users (i_file_acl ino)) bl -> blk <> i_file_acl ino -> blk <> 0 ->
  block_ok env blk b ys (users blk + 1) -> (0 < users blk -> block_attrs env bl blk = attrs b ys) ->
  n = attrs b ys ->
  block_given bl ino n in_place (Ok (install_block env (<[blk := b]> bl) ino (acl_block (i_file_acl ino)) (Some blk))).
Proof.
  intros B Hne Hnz Hok Hsame ->. destruct (install_spec (<[blk := b]> bl) ino (Some blk)) as (bl' & E & B' & Hk & Ha); cbn [default from_option id] in *.
  - eapply (blocks_insert _ _ _ _ blk); [exact B| |done|].
    + cbn. rewrite Z.eqb_refl, (proj2 (Z.eqb_neq blk 0)), (proj2 (Z.eqb_neq blk (i_file_acl ino))), refs_other by done. exact Hok.
    + intros j Hjn. cbn. rewrite (proj2 (Z.eqb_neq j blk)) by done. cbn [andb]. lia.
  - exists 0, bl', blk. rewrite E. split_and!; [done|done| |left; split; [done|]].
    + intros j Hpos. rewrite (Hk j Hpos). destruct (decide (j = blk)) as [->|Hjn]; [|by apply block_attrs_insert_ne].
      rewrite (Hsame Hpos). by eapply block_attrs_insert.
    + rewrite Ha. by eapply block_attrs_insert.
Qed.

Section inserted.
Context (bl : blocks) (ino : xinode) (b : list Z) (ys : list xent) (in_place : bool).
Context (Hbr : forall blk, bread_err env blk = 0) (Hq : dquot_err env = 0) (Hg : getblk env = true)
  (Hnew : match new_meta_block env with inl err => err < 0 | inr blk => blk <> 0 /\ bl !! blk = None end)
  (B : blocks_ok env (refs users (i_file_acl ino)) bl) (C : contents_ok env b ys) (Hc1 : h_refcount b = 1)
  (Hin : in_place = true -> i_file_acl ino <> 0 /\ bl !! i_file_acl ino = Some b).
Notation given := (block_given bl ino (attrs b ys) in_place).
Notation old := (acl_block (i_file_acl ino)).

Lemma keep_spec : i_file_acl ino <> 0 -> block_attrs env bl (i_file_acl ino) = attrs b ys -> given (Ok (install_block env bl ino old old)).
Proof. intros Hnz Ha. rewrite install_same by done. exists 0, bl, (i_file_acl ino). split_and!; [done|done|by intros ? _|by left]. Qed.

Lemma allocate_spec : in_place = false -> given (Ok (allocate_block env bl ino old b)).
Proof.
  intros Hip. unfold allocate_block. destruct (new_meta_block env) as [err|blk] eqn:En.
  - exists err, bl, (i_file_acl ino). split_and!; [by destruct ino|done|by intros ? _|by right].
  - destruct Hnew as [Hnz Hfree]. rewrite Hg, !Hj. cbn [negb Z.eqb].
    assert (users blk = 0) as Hu0.
    { pose proof (Hu blk). destruct (Z.eq_dec (users blk) 0) as [|Hn]; [done|]. destruct (bs_used _ _ _ B blk) as [c Hcb]; [|congruence]. unfold refs. case_match; lia. }
    assert (blk <> i_file_acl ino) as Hne by (intros ->; destruct (old_used bl _ B Hnz); congruence).
    destruct (block_ok_csum env blk b ys 1 C Hc1) as [Hok E]; [unfold EXT4_XATTR_REFCOUNT_MAX; lia|].
    eapply (join_spec bl ino blk _ _ ys); [done|done|done|by rewrite Hu0|lia|]. unfold attrs. by rewrite E.
Qed.

Lemma share_spec blk : is_Some (bl !! blk) -> block_attrs env bl blk = attrs b ys -> blk <> i_file_acl ino ->
  h_refcount (block_of env bl blk) < EXT4_XATTR_REFCOUNT_MAX ->
  given (Ok (install_block env (<[blk := csum_set env blk (set_h_refcount (block_of env bl blk) (u32 (h_refcount (block_of env bl blk) + 1)))]> bl) ino old (Some blk))).
Proof.
  intros Hs Ha Hne Hmax. destruct (blocks_get _ _ _ _ B Hs) as (Hnz & zs & Hok & Ha'). rewrite refs_other in Hok by done.
  pose proof (bk_count _ _ _ _ _ Hok) as Hcn. pose proof (bk_bound _ _ _ _ _ Hok) as Hbd. rewrite Hcn in *. unfold EXT4_XATTR_REFCOUNT_MAX in *.
  rewrite u32_small by lia. destruct (block_ok_set env blk _ zs (users blk + 1) (bk_contents _ _ _ _ _ Hok)) as [Hok' E]; [unfold EXT4_XATTR_REFCOUNT_MAX; lia|].
  assert (attrs (csum_set env blk (set_h_refcount (block_of env bl blk) (users blk + 1))) zs = attrs (block_of env bl blk) zs) as Ea by (unfold attrs; by rewrite E).
  eapply (join_spec bl ino blk _ _ zs); [done|done|done|done|intros _|]; rewrite Ea; congruence.
Qed.

Lemma in_place_spec : in_place = true -> given (Ok (install_block env bl ino old old)).
Proof.
  intros Hip. destruct (Hin Hip) as [Hnz Hb]. apply keep_spec; [done|]. unfold block_attrs, block_of. rewrite (proj2 (Z.eqb_neq _ 0)), Hb by done.
  apply map_of_region, C.
Qed.

Lemma not_found_spec : given (if in_place then Ok (install_block env bl ino old old) else Ok (allocate_block env bl ino old b)).
Proof. pose proof in_place_spec as H1. pose proof allocate_spec as H2. revert H1 H2. case in_place; auto. Qed.

Lemma inserted_empty : ys = [] -> given (Ok (install_block env bl ino old None)).
Proof.
  intros ->. destruct (install_spec bl ino None) as (bl' & E & B' & Hk & _).
  { eapply blocks_rf; [|exact B]. intros blk. cbn. rewrite andb_false_r. cbn [andb]. lia. }
  exists 0, bl', 0. rewrite E. split_and!; [done|done|done|by left].
Qed.

Lemma last_empty : IS_LAST_ENTRY b BFIRST = bool_decide (ys = []).
Proof.
  pose proof (rg_names _ _ _ (co_region _ _ _ C)) as N. destruct ys as [|y ys']; [by rewrite (names_last _ _ N)|]. by destruct (names_head _ _ _ _ N) as (-> & _).
Qed.

Lemma inserted_spec rounds : (forall ce blk, ce ∈ rounds -> blk ∈ ce -> is_Some (bl !! blk)) -> given (inserted rounds env bl ino old b in_place).
Proof.
  pose proof (co_region _ _ _ C) as R. induction rounds as [|ce rounds IH]; intros Hr; cbn [inserted]; rewrite last_empty; (case_bool_decide as Ey; [by apply inserted_empty|]).
  - assert (ext4_xattr_block_cache_find env bl b [] = Ok (inr None)) as -> by (unfold ext4_xattr_block_cache_find; cbn [cache_find_loop]; by destruct (h_hash b =? 0)).
    cbn [mbind outcome_bind]. apply not_found_spec.
  - destruct (cache_find_spec _ bl b _ ce Hbr B R) as ([blk|] & -> & Hfind); [intros blk; apply Hr; by left| |apply not_found_spec].
    cbn [mbind outcome_bind]. destruct (Hfind blk eq_refl) as [Hs Ha]. destruct (blocks_get _ _ _ _ B Hs) as (Hnz & zs & Hok & _).
    rewrite Hq, !Hj. cbn [negb Z.eqb]. case_bool_decide as Ho.
    + assert (blk = i_file_acl ino) as -> by (unfold acl_block in Ho; case_match; by simplify_eq). rewrite <- Ho. by apply keep_spec.
    + assert (blk <> i_file_acl ino) as Hne by (intros ->; apply Ho; unfold acl_block; by rewrite (proj2 (Z.eqb_neq _ 0))).
      pose proof (bk_bound _ _ _ _ _ Hok) as Hbd. pose proof (bk_count _ _ _ _ _ Hok) as Hcn.
      destruct (Z.ltb_spec EXT4_XATTR_REFCOUNT_MAX (u32 (h_refcount (block_of env bl blk) + 1))) as [Hlt|Hge].
      * apply IH. intros ce' j Hce. apply Hr. by right.
      * apply share_spec; [done|done|done|]. unfold EXT4_XATTR_REFCOUNT_MAX in *. rewrite u32_small in Hge by lia. lia.
Qed.
End inserted.
End blocks.
