(* ===== verification/XattrBlockSet.v ===== *)
(** Proofs on changing the attributes of one inode in its block and in its body:
    what [ext4_xattr_block_set] and [ext4_xattr_ibody_set] do to the map of
    attributes, and what they leave. *)

From Stdlib Require Import Sorting.Sorted.
From S2P Require Import Prelude Pages Friend Log Xattr Bytes XattrLayout XattrStore XattrEntry XattrSetEntry XattrShare.

(** ** Searches *)

(** A search for [k] among the entries [xs], which it splits. *)
Record searched (sorted : bool) (k : Z * list Z) (s : ext4_xattr_search) (first : Z) (xs l : list xent) (x : option xent) (r : list xent) : Prop := {
  se_split : xs = l ++ option_list x ++ r;
  se_first : s_first s = first;
  se_here : s_here s = first + tot l;
  se_found : match x with Some x => s_not_found s = false /\ key x = k | None => s_not_found s = true /\ k ∉ key <$> xs end;
  se_sorted : sorted = true -> StronglySorted key_lt ((key <$> l) ++ k :: (key <$> r))
}.

Lemma sorted_insert (k : Z * list Z) l r : StronglySorted key_lt (l ++ r) -> Forall (fun k' => key_lt k' k) l -> Forall (key_lt k) r -> StronglySorted key_lt (l ++ k :: r).
Proof.
  induction l as [|a l IH]; cbn [app]; intros Hs Hl Hr.
  - by constructor.
  - apply StronglySorted_inv in Hs as [Hs Ha]. apply Forall_cons in Hl as [Hak Hl]. constructor; [by apply IH|].
    apply Forall_app in Ha as [? ?]. apply Forall_app. split; [done|by constructor].
Qed.

Lemma sorted_remove (k : Z * list Z) l r : StronglySorted key_lt (l ++ k :: r) -> StronglySorted key_lt (l ++ r).
Proof.
  induction l as [|a l IH]; cbn [app]; intros Hs; apply StronglySorted_inv in Hs as [Hs Ha]; [done|].
  constructor; [by apply IH|]. apply Forall_app in Ha as [? [_ ?]%Forall_cons]. by apply Forall_app.
Qed.

Lemma sorted_suffix (l r : list (Z * list Z)) : StronglySorted key_lt (l ++ r) -> StronglySorted key_lt r.
Proof. induction l as [|a l IH]; [done|]. intros [Hs _]%StronglySorted_inv. by apply IH. Qed.

Lemma key_lt_irrefl k : ~ key_lt k k.
Proof. unfold key_lt. rewrite name_cmp_memcmp, memcmp_refl. lia. Qed.

(** In a sorted list, what starts after [k] is all after [k]. *)
Lemma sorted_after k z (l r : list (Z * list Z)) : StronglySorted key_lt (l ++ z :: r) -> key_lt k z -> Forall (key_lt k) (z :: r).
Proof.
  intros [_ Hz]%sorted_suffix%StronglySorted_inv Hk. constructor; [done|]. eapply Forall_impl; [exact Hz|]. intros y Hy. by eapply key_lt_trans.
Qed.

(** A search that fails proves the key absent. *)
Lemma absent_spec (sorted : bool) k l r : (sorted = true -> StronglySorted key_lt (key <$> (l ++ r))) ->
  Forall (fun x => if sorted then key_lt (key x) k else key x <> k) l ->
  (if sorted then match r with [] => True | x :: _ => key_lt k (key x) end else r = []) ->
  k ∉ key <$> (l ++ r) /\ (sorted = true -> StronglySorted key_lt ((key <$> l) ++ k :: (key <$> r))).
Proof.
  rewrite fmap_app. intros Hs Hl Hr. destruct sorted; cycle 1.
  - subst r. rewrite app_nil_r. split; [|done]. intros (y & -> & Hy)%list_elem_of_fmap. rewrite Forall_forall in Hl. by apply (Hl y Hy).
  - specialize (Hs eq_refl). assert (Forall (key_lt k) (key <$> r)) as Hafter by (destruct r as [|z r]; [constructor|by eapply sorted_after]).
    assert (Forall (fun k' => key_lt k' k) (key <$> l)) as Hbefore by by apply Forall_fmap.
    split; [|intros _; by apply sorted_insert]. rewrite Forall_forall in Hafter, Hbefore.
    intros [Hin|Hin]%elem_of_app; [apply (key_lt_irrefl k), Hbefore|apply (key_lt_irrefl k), Hafter]; done.
Qed.

Lemma find_spec b first xs k (sorted : bool) : region b first xs -> (sorted = true -> StronglySorted key_lt (key <$> xs)) ->
  exists ret here l x r, xattr_find_entry b first k.1 k.2 sorted = Ok (ret, here) /\ (ret = 0 \/ ret = - ENODATA) /\
    searched sorted k (XattrSearch first here (negb (ret =? 0))) first xs l x r.
Proof.
  intros [N _ _ _] Hs. destruct (find_loop_spec (walk_fuel b) b first xs 1 k sorted N (names_fuel _ _ _ N)) as (l & r & ret & E & Exs & Hl & Hr); [done|].
  exists ret, (first + tot l). unfold xattr_find_entry. rewrite E. rewrite Exs in Hs. destruct Hr as [(-> & x & r' & -> & Hx)|(-> & Hr)].
  - exists l, (Some x), r'. split_and!; [done|by left|]. split; try done. intros Hso. specialize (Hs Hso). by rewrite fmap_app, fmap_cons, Hx in Hs.
  - exists l, None, r. split_and!; [done|by right|]. destruct (absent_spec sorted k l r Hs Hl Hr) as [Hk Hso]. rewrite <- Exs in Hk. by split.
Qed.

(** ** Maps *)

(** Setting or removing an attribute of a map. *)
Definition put (k : Z * list Z) (v : option (list Z)) (m : gmap (Z * list Z) (list Z)) : gmap (Z * list Z) (list Z) :=
  match v with Some bs => <[k := bs]> m | None => delete k m end.

Lemma list_to_map_put (k : Z * list Z) (v : option (list Z)) (old : option (list Z)) pl pr :
  k ∉ pl.*1 -> k ∉ pr.*1 ->
  (list_to_map (pl ++ (match v with Some bs => [(k, bs)] | None => [] end) ++ pr) : gmap (Z * list Z) (list Z)) =
  put k v (list_to_map (pl ++ (match old with Some bs => [(k, bs)] | None => [] end) ++ pr)).
Proof.
  intros Hl Hr. rewrite !list_to_map_app. apply map_eq. intros j. unfold put.
  assert ((list_to_map pl : gmap (Z * list Z) (list Z)) !! k = None) as El by by apply not_elem_of_list_to_map.
  assert ((list_to_map pr : gmap (Z * list Z) (list Z)) !! k = None) as Er by by apply not_elem_of_list_to_map.
  destruct v as [v|], old as [o|]; cbn [list_to_map foldr fmap fst snd]; destruct (decide (j = k)) as [->|Hne];
    rewrite ?lookup_insert_eq, ?lookup_delete_eq, ?(lookup_insert_ne _ k j), ?(lookup_delete_ne _ k j), ?lookup_union, ?El, ?Er by done;
    rewrite ?lookup_insert_eq, ?(lookup_insert_ne _ k j), ?lookup_empty, ?Er by done; try done.
Qed.

(** What a search says of the keys on both sides. *)
Lemma searched_fresh sorted k s first b xs l x r : region b first xs -> searched sorted k s first xs l x r ->
  k ∉ key <$> l /\ k ∉ key <$> r /\
  pairs b xs = pairs b l ++ (match val b <$> x with Some bs => [(k, bs)] | None => [] end) ++ pairs b r.
Proof.
  intros R [-> _ _ Hx _]. pose proof (rg_keys _ _ _ R) as Hnd. rewrite !pairs_app. destruct x as [x|].
  - destruct Hx as [_ Hk]. change (option_list (Some x) ++ r) with (x :: r) in Hnd. rewrite fmap_app, fmap_cons in Hnd. apply NoDup_app in Hnd as (_ & Hd & [Hr _]%NoDup_cons).
    rewrite Hk in *. split_and!; [intros Hin; apply (Hd k Hin); by left|done|]. unfold pairs at 2. cbn. by rewrite Hk.
  - destruct Hx as [_ Hk]. change (option_list None ++ r) with r in *. rewrite fmap_app in Hk. split_and!; [intros Hin; by apply Hk, elem_of_app; left|intros Hin; by apply Hk, elem_of_app; right|done].
Qed.

Lemma done_attrs sorted k s first b xs l x r v b' : region b first xs -> searched sorted k s first xs l x r -> entry_done first b l r k v b' ->
  exists xs', region b' first xs' /\ kept first b b' /\ attrs b' xs' = put k (value_bytes <$> v) (attrs b xs) /\
    (sorted = true -> StronglySorted key_lt (key <$> xs')).
Proof.
  intros R S (xs' & R' & K & E). destruct (searched_fresh _ _ _ _ _ _ _ _ _ R S) as (Hl & Hr & Ep). exists xs'. split_and!; [done|done| |].
  - unfold attrs. rewrite Ep, <- list_to_map_put by by rewrite pairs_keys. rewrite E. by destruct v.
  - intros Hs. apply (f_equal (fmap fst)) in E. rewrite !fmap_app, !pairs_keys in E. rewrite E. pose proof (se_sorted _ _ _ _ _ _ _ _ S Hs) as Hso.
    destruct v; [done|]. cbn [fmap list_fmap app]. by eapply sorted_remove.
Qed.

(** ** A block *)

(** A search of the block of an inode. *)
Definition block_searched (env : xenv) (bl : blocks) (acl : Z) (k : Z * list Z) (bs : block_find) : Prop :=
  (acl = 0 /\ bs = BlockFind None (XattrSearch 0 0 true)) \/
  (acl <> 0 /\ bs_bh bs = Some acl /\ exists ys l x r, contents_ok env (block_of env bl acl) ys /\ searched true k (bs_s bs) BFIRST ys l x r).

(** What the callers pass. *)
Record info_ok (i : ext4_xattr_info) : Prop := {
  io_inode : xi_in_inode i = false;
  io_name : ent_ok (new_ent (xi_name_index i) (xi_name i));
  io_value : match xi_value i with Some v => value_ok v /\ value_len v <= EXT4_XATTR_SIZE_MAX | None => True end
}.

Lemma contents_kept env b b' ys ys' : contents_ok env b ys -> kept BFIRST b b' -> region b' BFIRST ys' -> StronglySorted key_lt (key <$> ys') ->
  contents_ok env b' ys' /\ h_refcount b' = h_refcount b.
Proof.
  intros [Hs _ _ Hm Hb] K R' Hso. unfold h_magic, h_blocks, h_refcount in *. pose proof K as [Hz _]. unfold BFIRST, sizeof_header in *.
  split; [split; unfold h_magic, h_blocks; try done|]; rewrite ?Hz, ?(kept_rd _ _ _ _ _ K) by lia; done.
Qed.

(** The entry is changed, or the call is refused. *)
Lemma set_contents env ea i k s b ys l x r : xe_inline env = 0 -> info_ok i -> k = (xi_name_index i, xi_name i) -> contents_ok env b ys -> searched true k s BFIRST ys l x r ->
  (xi_value i = None -> is_Some x) ->
  (ext4_xattr_set_entry (to_entry_env env ea) i s b true = Ok (- ENOSPC, b) /\ xi_value i <> None) \/
  (exists b' ys', ext4_xattr_set_entry (to_entry_env env ea) i s b true = Ok (0, b') /\ contents_ok env b' ys' /\ h_refcount b' = h_refcount b /\
     attrs b' ys' = put k (value_bytes <$> xi_value i) (attrs b ys)).
Proof.
  intros Hil [Hin Hname Hv] Hk C S Hsome. pose proof (co_region _ _ _ C) as R. pose proof S as [Hsp Hfi Hhe Hfo _].
  assert (set_call i s b true l x r) as Hcall.
  { split; [by rewrite Hfi, <- Hsp|by rewrite Hfi|..]; try done. destruct x as [x|]; [by rewrite <- Hk|]. destruct Hfo as [Hnf Hnk]. rewrite <- Hk. split_and!; [done| |].
    - intros E. by destruct (Hsome E).
    - rewrite Hsp in Hnk. done. }
  destruct (set_entry_spec (to_entry_env env ea) i s b true l r x Hcall Hsome Hil) as (ret & b' & E & Hres). destruct (refused _ _ _ _ _ _ _ x) eqn:Hrf.
  - left. destruct Hres as [-> ->]. split; [done|]. intros Ev. unfold refused in Hrf. by rewrite Ev in Hrf.
  - right. destruct Hres as [-> Hd]. rewrite Hfi, <- Hk in Hd. destruct (done_attrs _ _ _ _ _ _ _ _ _ _ _ R S Hd) as (ys' & R' & K & Ea & Hso).
    destruct (contents_kept env b b' ys ys' C K R' (Hso eq_refl)) as [C' Hc]. by exists b', ys'.
Qed.

(** A buffer for a new block is sound and empty. *)
Lemma fresh_ok env : BFIRST + 4 <= xe_blocksize env <= 65536 -> contents_ok env (fresh_block env) [] /\ h_refcount (fresh_block env) = 1.
Proof.
  unfold BFIRST, sizeof_header. intros Hs. unfold fresh_block, set_h_refcount. set (b0 := zeros _). assert (zlen b0 = xe_blocksize env) as L0 by (apply zlen_zeros; lia).
  set (b1 := wr b0 0 4 _). assert (only 0 (0 + 4) b0 b1) as O1 by (apply only_wr; lia). pose proof (on_len _ _ _ _ O1) as L1.
  set (b2 := wr b1 8 4 1). assert (only 8 (8 + 4) b1 b2) as O2 by (apply only_wr; lia). pose proof (on_len _ _ _ _ O2) as L2.
  set (b3 := wr b2 4 4 1). assert (only 4 (4 + 4) b2 b3) as O3 by (apply only_wr; lia). pose proof (on_len _ _ _ _ O3) as L3.
  assert (only 0 12 b0 b3) as O by (apply (only_trans _ _ _ b1); [|apply (only_trans _ _ _ b2)]; eapply only_mono; [..|exact O1| | |exact O2| | |exact O3]; lia).
  split; [split|apply rd_wr; lia].
  - lia.
  - split; [split|..]; cbn [tot vsum seg]; unfold BFIRST, sizeof_header; try done; try lia; try by constructor.
    + apply (on_bytes _ _ _ _ O), zeros_ok.
    + rewrite (only_rd _ _ _ _ _ _ O) by lia. apply rd_zero. apply slice_zeros; lia.
    + unfold room. cbn [tot vsum]. lia.
  - constructor.
  - unfold h_magic. rewrite (only_rd _ _ _ _ _ _ O3), (only_rd _ _ _ _ _ _ O2) by lia. apply rd_wr; unfold EXT4_XATTR_MAGIC; lia.
  - unfold h_blocks. rewrite (only_rd _ _ _ _ _ _ O3) by lia. apply rd_wr; lia.
Qed.

(** The outcome of changing an attribute in the block of an inode. *)
Definition block_changed (env : xenv) (users : Z -> Z) (bl : blocks) (ino : xinode) (k : Z * list Z) (v : option (list Z)) (r : outcome (Z * blocks * xinode)) : Prop :=
  exists err bl' acl', r = Ok (err, bl', set_file_acl ino acl') /\ blocks_ok env (refs users acl') bl' /\ others_kept env users bl bl' /\
    ((err = 0 /\ block_attrs env bl' acl' = put k v (block_attrs env bl (i_file_acl ino))) \/
     (err < 0 /\ acl' = i_file_acl ino /\ block_attrs env bl' acl' = block_attrs env bl (i_file_acl ino) /\
      (err = - ENOSPC \/ new_meta_block env = inl err) /\ (v = None -> new_meta_block env = inl err))).

(** No value of a sound block is outside. *)
Lemma no_inum env b ys k s l x r : contents_ok env b ys -> searched true k s BFIRST ys l x r -> negb (s_not_found s) && negb (e_value_inum b (s_here s) =? 0) = false.
Proof.
  intros [_ [N _ _ _] _ _ _] [-> _ -> Hx _]. destruct x as [x|]; [|by destruct Hx as [-> _]]. change (option_list (Some x) ++ r) with (x :: r) in N.
  destruct (names_here _ _ _ _ _ N) as (_ & _ & _ & Ex & _). pose proof (no_ents _ _ _ N) as Hall. apply Forall_app in Hall as [_ [Hok _]%Forall_cons].
  change (e_value_inum b (BFIRST + tot l)) with (x_inum (ent b (BFIRST + tot l))). rewrite Ex, (eo_inum _ Hok). by rewrite andb_false_r.
Qed.

Lemma prepare_none env i : info_ok i -> prepare_ea env i = inr (0, 0).
Proof. intros I. unfold prepare_ea. rewrite (io_inode _ I). by destruct (xi_value i). Qed.

Section set.
Context (env : xenv) (users : Z -> Z) (bl : blocks) (ino : xinode) (i : ext4_xattr_info) (bs : block_find).
Notation acl := (i_file_acl ino).
Notation k := (xi_name_index i, xi_name i).
Notation v := (value_bytes <$> xi_value i).
Context (Hu : forall blk, 0 <= users blk) (Q : quiet env bl) (B : blocks_ok env (refs users acl) bl) (I : info_ok i)
  (S : block_searched env bl acl k bs) (Hsome : xi_value i = None -> s_not_found (bs_s bs) = false).

Lemma set_file_acl_same : set_file_acl ino acl = ino.
Proof. by destruct ino. Qed.

(** From changed contents to the block that has them. *)
Lemma given_changed bl1 b' ys' in_place r : others_kept env users bl bl1 ->
  attrs b' ys' = put k v (block_attrs env bl acl) ->
  (in_place = false -> bl1 = bl) ->
  block_given env users bl1 ino (attrs b' ys') in_place r -> block_changed env users bl ino k v r.
Proof.
  intros Hk1 Ea Hip (err & bl' & acl' & -> & B' & Hk & Hres). exists err, bl', acl'. split_and!; [done|done| |].
  - intros blk Hpos. by rewrite (Hk blk Hpos), (Hk1 blk Hpos).
  - destruct Hres as [[-> Hm]|(En & Hf & -> & ->)]; [left; split; [done|congruence]|right]. rewrite (Hip Hf).
    pose proof (qt_new _ _ Q) as Hn. rewrite En in Hn. split_and!; auto.
Qed.

Lemma set_in_copy_spec old s b ys l x r : contents_ok env b ys -> h_refcount b = 1 -> searched true k s BFIRST ys l x r -> attrs b ys = block_attrs env bl acl ->
  old = acl_block acl -> (xi_value i = None -> is_Some x) ->
  block_changed env users bl ino k v (set_in_copy env bl ino i old s b (0, 0)).
Proof.
  intros C Hc Sx Ea -> Hx. unfold set_in_copy. destruct (set_contents env (0, 0) i k s b ys l x r (qt_inline _ _ Q) I eq_refl C Sx Hx) as [[-> Hv]|(b' & ys' & -> & C' & Hc' & Ea')]; cbn [mbind outcome_bind].
  - cbn [Z.eqb negb ENOSPC Z.opp]. exists (- ENOSPC), bl, acl. rewrite set_file_acl_same. split_and!; [done|done|by intros ? _|right]. unfold ENOSPC.
    split_and!; try done; [by left|]. by destruct (xi_value i).
  - cbn [Z.eqb negb]. eapply (given_changed bl b' ys' false); [by intros ? _|congruence|done|].
    apply inserted_spec; try apply Q; try done; congruence.
Qed.

(** The only user of a block changes it in place. *)
Lemma in_place_set_spec ys l x r b : acl <> 0 -> bl !! acl = Some b -> block_ok env acl b ys (refs users acl acl) -> h_refcount b = 1 ->
  searched true k (bs_s bs) BFIRST ys l x r -> (xi_value i = None -> is_Some x) ->
  block_changed env users bl ino k v
    ('(err, b') ← ext4_xattr_set_entry (to_entry_env env (0, 0)) i (bs_s bs) b true;
     let b' := csum_set env acl b' in
     let bl := <[acl := b']> bl in
     if negb (err =? 0) then Ok (err, bl, ino)
     else if negb (journal_err env (DirtyBlock acl) =? 0) then Ok (journal_err env (DirtyBlock acl), bl, ino)
     else inserted (cached env) env bl ino (Some acl) b' true).
Proof.
  intros Hnz Hb Hok Hc1 Sx Hx. pose proof (bk_contents _ _ _ _ _ Hok) as C. pose proof (bk_count _ _ _ _ _ Hok) as Hcn. rewrite Hc1, refs_own in Hcn by done.
  assert (users acl = 0) as Hu0 by lia. assert (block_attrs env bl acl = attrs b ys) as Ea by by eapply block_attrs_ok.
  assert (forall b' ys', contents_ok env b' ys' -> h_refcount b' = 1 -> let bl' := <[acl := csum_set env acl b']> bl in
    blocks_ok env (refs users acl) bl' /\ others_kept env users bl bl' /\ block_ok env acl (csum_set env acl b') ys' 1 /\ attrs (csum_set env acl b') ys' = attrs b' ys') as Hput.
  { intros b' ys' C' Hc'. destruct (block_ok_csum env acl b' ys' 1 C' Hc') as [Hok' E]; [unfold EXT4_XATTR_REFCOUNT_MAX; lia|]. split_and!; [|intros j Hpos; apply block_attrs_insert_ne; intros ->; lia|done|].
    - eapply blocks_insert; [exact B| |done|done]. rewrite refs_own, Hu0 by done. exact Hok'.
    - unfold attrs. by rewrite E. }
  destruct (set_contents env (0, 0) i k (bs_s bs) b ys l x r (qt_inline _ _ Q) I eq_refl C Sx Hx) as [[-> Hv]|(b' & ys' & -> & C' & Hc' & Ea')]; cbn [mbind outcome_bind]; cbv zeta.
  - destruct (Hput b ys C Hc1) as (B' & Hk & Hok' & Ea'). exists (- ENOSPC), (<[acl := csum_set env acl b]> bl), acl. rewrite set_file_acl_same. unfold ENOSPC. cbn [Z.eqb negb Z.opp].
    split_and!; [done|done|done|right]. split_and!; try done; [|by left|by destruct (xi_value i)]. rewrite (block_attrs_insert _ _ _ _ _ _ Hok' Hnz). congruence.
  - rewrite Hc1 in Hc'. destruct (Hput b' ys' C' Hc') as (B' & Hk & Hok' & Ecs). cbn [Z.eqb negb]. rewrite (qt_journal _ _ Q). cbn [Z.eqb negb].
    assert (Some acl = acl_block acl) as -> by (unfold acl_block; by rewrite (proj2 (Z.eqb_neq acl 0))).
    assert (bl !! acl = None -> False) as Hin by (rewrite Hb; done).
    eapply (given_changed (<[acl := csum_set env acl b']> bl) (csum_set env acl b') ys' true); [done|rewrite Ecs, Ea; exact Ea'|done|].
    apply inserted_spec; try done; try apply Q; [|apply (bk_contents _ _ _ _ _ Hok')|apply (bk_count _ _ _ _ _ Hok')|by rewrite lookup_insert_eq|].
    + pose proof (qt_new _ _ Q) as Hn. destruct (new_meta_block env) as [?|blk]; [done|]. destruct Hn as [? Hn]. split; [done|]. rewrite lookup_insert_ne; [done|]. intros E. apply Hin. by rewrite E.
    + intros ce blk H1 H2. pose proof (qt_cached _ _ Q ce blk H1 H2). destruct (decide (blk = acl)) as [->|?]; [by rewrite lookup_insert_eq|by rewrite lookup_insert_ne].
Qed.

Lemma block_set_spec : block_changed env users bl ino k v (ext4_xattr_block_set env bl ino i bs).
Proof.
  unfold ext4_xattr_block_set. rewrite (prepare_none env i I). destruct S as [[Ha Eb]|(Hnz & Eb & ys & l & x & r & C & Sx)].
  - rewrite Eb. cbn [bs_bh bs_s s_not_found]. rewrite (qt_kmem _ _ Q). cbn [negb]. destruct (fresh_ok env (qt_blocksize _ _ Q)) as [C Hc].
    assert (xi_value i <> None) as Hv by (intros E; pose proof (Hsome E) as E'; by rewrite Eb in E').
    eapply (set_in_copy_spec None _ _ [] [] None []); [done|done| | | |done].
    + split; try done; [split; [done|apply not_elem_of_nil]|intros _; repeat constructor].
    + rewrite Ha. done.
    + by rewrite Ha.
  - rewrite Eb, (qt_journal _ _ Q). cbn [Z.eqb negb]. pose proof (old_used env users Hu bl acl B Hnz) as [b Hb]. assert (block_of env bl acl = b) as Eb' by (unfold block_of; by rewrite Hb). rewrite Eb' in *.
    assert (xi_value i = None -> is_Some x) as Hx.
    { intros Hv. pose proof (Hsome Hv). destruct x as [x|]; [done|]. destruct (se_found _ _ _ _ _ _ _ _ Sx). congruence. }
    assert (block_ok env acl b ys (refs users acl acl)) as Hok by (destruct (bs_ok _ _ _ B _ _ Hb) as (_ & zs & []); by split).
    destruct (Z.eqb_spec (h_refcount b) 1) as [E1|E1]; cbn [andb]; [destruct (cache_in_use env); cbn [negb]|].
    2:{ by eapply in_place_set_spec. }
    all: rewrite (qt_kmem _ _ Q); cbn [negb]; destruct (contents_only env 4 8 b (set_h_refcount b 1) ys) as [C1 Ep]; [apply count_only; by eapply contents_len|lia|lia|done|].
    all: assert (negb (s_not_found (bs_s bs)) && negb (e_value_inum (set_h_refcount b 1) (s_here (bs_s bs)) =? 0) = false) as -> by (by eapply no_inum).
    all: eapply set_in_copy_spec; [exact C1|apply count_set; [by eapply contents_len|lia]|exact Sx| |unfold acl_block; by rewrite (proj2 (Z.eqb_neq acl 0))|done].
    all: rewrite (block_attrs_ok _ _ _ _ _ _ Hb Hok Hnz); unfold attrs; by rewrite Ep.
Qed.
End set.

(** ** Finding *)

Lemma searched_lookup sorted k s first b xs l x r : region b first xs -> searched sorted k s first xs l x r -> attrs b xs !! k = val b <$> x.
Proof.
  intros R Sx. destruct (searched_fresh _ _ _ _ _ _ _ _ _ R Sx) as (Hl & Hr & Ep). unfold attrs. rewrite Ep, !list_to_map_app.
  assert ((list_to_map (pairs b l) : gmap (Z * list Z) (list Z)) !! k = None) as El by (apply not_elem_of_list_to_map; by rewrite pairs_keys).
  assert ((list_to_map (pairs b r) : gmap (Z * list Z) (list Z)) !! k = None) as Er by (apply not_elem_of_list_to_map; by rewrite pairs_keys).
  rewrite !lookup_union, El, Er. destruct x as [x|]; cbn [fmap option_fmap option_map]; [cbn; by rewrite lookup_insert_eq|cbn; by rewrite lookup_empty].
Qed.

Lemma searched_absent sorted k s first b xs l x r : region b first xs -> searched sorted k s first xs l x r -> s_not_found s = bool_decide (attrs b xs !! k = None).
Proof.
  intros R Sx. rewrite (searched_lookup _ _ _ _ _ _ _ _ _ R Sx). destruct x as [x|]; destruct (se_found _ _ _ _ _ _ _ _ Sx) as [-> _].
  - by rewrite bool_decide_false.
  - by rewrite bool_decide_true.
Qed.

Lemma check_block_spec env verified blk b ys n : block_ok env blk b ys n -> ext4_xattr_check_block (ext4_chksum env) (xe_sb env) verified blk b = Ok 0.
Proof.
  intros [[_ R _ Hm Hb] _ _ Hc]. unfold ext4_xattr_check_block. rewrite Hm, Hb, Hc, !Z.eqb_refl. cbn [negb orb]. destruct verified; [done|].
  by eapply check_entries_spec.
Qed.

Lemma block_find_spec env users bl ino i : (forall blk, 0 <= users blk) -> (forall blk, bread_err env blk = 0) -> blocks_ok env (refs users (i_file_acl ino)) bl ->
  let k := (xi_name_index i, xi_name i) in
  exists bs, ext4_xattr_block_find env bl ino i = Ok (0, bs) /\ block_searched env bl (i_file_acl ino) k bs /\
    s_not_found (bs_s bs) = bool_decide (block_attrs env bl (i_file_acl ino) !! k = None) /\ (bs_bh bs = None <-> i_file_acl ino = 0).
Proof.
  intros Hu Hbr B k. unfold ext4_xattr_block_find. destruct (Z.eqb_spec (i_file_acl ino) 0) as [E0|E0].
  - eexists. split; [done|]. split; [left; split; done|]. split; [|done]. unfold block_attrs. by rewrite E0, bool_decide_true.
  - rewrite Hbr. cbn [Z.eqb negb]. destruct (blocks_get _ _ _ _ B (old_used env users Hu bl _ B E0)) as (_ & ys & Hok & Ha).
    rewrite (check_block_spec _ _ _ _ _ _ Hok). cbn [mbind outcome_bind Z.eqb negb]. pose proof (bk_contents _ _ _ _ _ Hok) as C. pose proof (co_region _ _ _ C) as R.
    destruct (find_spec _ _ _ k true R (fun _ => co_sorted _ _ _ C)) as (ret & here & l & x & r & E & Hret & Sx). cbn [fst snd k] in E. rewrite E. cbn [mbind outcome_bind].
    assert (negb (ret =? 0) && negb (ret =? - ENODATA) = false) as -> by (by destruct Hret as [-> | ->]).
    eexists. split; [done|]. cbn [bs_bh bs_s]. split_and!; [right; split_and!; [done|done|by exists ys, l, x, r]| |done].
    rewrite Ha. by eapply searched_absent.
Qed.

(** A search of the body. *)
Definition body_searched (env : xenv) (ino : xinode) (xs : list xent) (k : Z * list Z) (s : ext4_xattr_search) : Prop :=
  if EXT4_INODE_HAS_XATTR_SPACE env ino then exists l x r, searched false k s 0 xs l x r else s_not_found s = true.

Lemma body_attrs_ok env ino xs : body_ok env ino xs -> body_attrs ino = (if EXT4_INODE_HAS_XATTR_SPACE env ino then attrs (body ino) xs else ∅).
Proof.
  intros [(-> & R & Hst & _)|(-> & Hst & _)]; unfold body_attrs; rewrite Hst; [|done]. case_bool_decide as Hx; [by apply map_of_region|].
  by rewrite Hx.
Qed.

Lemma body_find_spec env ino xs i : body_ok env ino xs -> let k := (xi_name_index i, xi_name i) in
  exists s, ext4_xattr_ibody_find env ino i = Ok (0, s) /\ body_searched env ino xs k s /\ s_not_found s = bool_decide (body_attrs ino !! k = None).
Proof.
  intros Hok k. rewrite (body_attrs_ok _ _ _ Hok). unfold ext4_xattr_ibody_find, body_searched.
  destruct Hok as [(Hsp & R & Hst & Hm)|(Hsp & Hst & ->)]; rewrite Hsp; cbn [negb]; [|eexists; split_and!; [done|done|by rewrite bool_decide_true]].
  destruct (state_xattr ino) eqn:Est.
  - unfold xattr_check_inode. rewrite (Hm eq_refl), Z.eqb_refl. pose proof (no_fits _ _ _ (rg_names _ _ _ R)). pose proof (tot_nonneg xs).
    rewrite (proj2 (Z.ltb_ge _ 8)) by lia. cbn [negb]. rewrite (check_entries_spec _ _ _ _ R). cbn [mbind outcome_bind Z.eqb negb].
    destruct (find_spec _ _ _ k false R) as (ret & here & l & x & r & E & Hret & Sx); [done|]. cbn [fst snd k] in E. rewrite E. cbn [mbind outcome_bind].
    assert (negb (ret =? 0) && negb (ret =? - ENODATA) = false) as -> by (by destruct Hret as [-> | ->]).
    eexists. split_and!; [done|by exists l, x, r|]. by eapply searched_absent.
  - symmetry in Hst. apply bool_decide_eq_false in Hst. assert (xs = []) as -> by (destruct xs; [done|by destruct Hst]).
    eexists. split_and!; [done| |by rewrite bool_decide_true]. exists [], None, []. split; try done. split; [done|apply not_elem_of_nil].
Qed.

(** ** Changing the body *)

Lemma body_set_spec env ino xs i s : xe_inline env = 0 -> info_ok i -> body_ok env ino xs -> body_searched env ino xs (xi_name_index i, xi_name i) s ->
  (xi_value i = None -> s_not_found s = false) ->
  exists err ino', ext4_xattr_ibody_set env ino i s = Ok (err, ino') /\ i_file_acl ino' = i_file_acl ino /\ state_new ino' = state_new ino /\
    ((err = 0 /\ (exists xs', body_ok env ino' xs') /\ body_attrs ino' = put (xi_name_index i, xi_name i) (value_bytes <$> xi_value i) (body_attrs ino)) \/
     (err = - ENOSPC /\ ino' = ino /\ xi_value i <> None)).
Proof.
  intros Hil I Hok Hse Hsome. set (k := (xi_name_index i, xi_name i)) in *. rewrite (body_attrs_ok _ _ _ Hok). unfold ext4_xattr_ibody_set, body_searched in *.
  destruct Hok as [(Hsp & R & Hst & Hm)|(Hsp & Hst & ->)]; rewrite Hsp in *; cbn [negb]; cycle 1.
  { exists (- ENOSPC), ino. split_and!; [done|done|done|right]. split_and!; [done|done|]. intros E. specialize (Hsome E). congruence. }
  destruct Hse as (l & x & r & Sx). rewrite (prepare_none env i I). pose proof Sx as [Hspl Hfi Hhe Hfo _]. destruct I as [Hin Hname Hv].
  assert (xi_value i = None -> is_Some x) as Hx by (intros E; specialize (Hsome E); destruct x; [done|by destruct Hfo; congruence]).
  assert (set_call i s (body ino) false l x r) as Hcall.
  { split; [by rewrite Hfi, <- Hspl|by rewrite Hfi|..]; try done. destruct x as [x|]; [done|]. destruct Hfo as [Hnf Hnk]. rewrite Hspl in Hnk. split_and!; [done| |done].
    intros E. by destruct (Hx E). }
  destruct (set_entry_spec (to_entry_env env (0, 0)) i s (body ino) false l r x Hcall Hx Hil) as (ret & b' & -> & Hres). cbn [mbind outcome_bind].
  destruct (refused _ _ _ _ _ _ _ x) eqn:Hrf.
  - destruct Hres as [-> ->]. exists (- ENOSPC), ino. cbn [ENOSPC Z.opp Z.eqb negb]. split_and!; [by destruct ino|done|done|right]. split_and!; [done|done|].
    intros E. unfold refused in Hrf. by rewrite E in Hrf.
  - destruct Hres as [-> Hd]. rewrite Hfi in *. destruct (done_attrs _ _ _ _ _ _ _ _ _ _ _ R Sx Hd) as (xs' & R' & _ & Ea & _). cbn [Z.eqb negb].
    assert (forall m st, st = bool_decide (xs' <> []) -> (st = true -> m = EXT4_XATTR_MAGIC) -> body_ok env (set_body ino b' m st) xs') as Hok' by (intros m st H1 H2; left; done).
    assert (IS_LAST_ENTRY b' 0 = bool_decide (xs' = [])) as ->.
    { pose proof (rg_names _ _ _ R') as N. destruct xs' as [|y ys]; [by rewrite (names_last _ _ N)|]. by destruct (names_head _ _ _ _ N) as (-> & _). }
    destruct (decide (xs' = [])) as [He|He]; [rewrite (bool_decide_true (xs' = [])) by done|rewrite (bool_decide_false (xs' = [])) by done]; cbn [negb].
    + assert (body_ok env (set_body ino b' 0 false) xs') as Hok2 by (apply Hok'; [by rewrite bool_decide_false by auto|done]).
      eexists 0, _. split; [reflexivity|split; [reflexivity|split; [reflexivity|left; split; [reflexivity|split; [by exists xs'|]]]]]. rewrite (body_attrs_ok _ _ _ Hok2).
      change (EXT4_INODE_HAS_XATTR_SPACE env (set_body ino b' 0 false)) with (EXT4_INODE_HAS_XATTR_SPACE env ino). by rewrite Hsp.
    + assert (body_ok env (set_body ino b' EXT4_XATTR_MAGIC true) xs') as Hok2 by (apply Hok'; [by rewrite bool_decide_true|done]).
      eexists 0, _. split; [reflexivity|split; [reflexivity|split; [reflexivity|left; split; [reflexivity|split; [by exists xs'|]]]]]. rewrite (body_attrs_ok _ _ _ Hok2).
      change (EXT4_INODE_HAS_XATTR_SPACE env (set_body ino b' EXT4_XATTR_MAGIC true)) with (EXT4_INODE_HAS_XATTR_SPACE env ino). by rewrite Hsp.
Qed.
