(* ===== verification/XattrHandle.v ===== *)
(** Reading and setting attributes of an inode that is one of many: what
    [ext4_xattr_get] and [ext4_xattr_set_handle] do to the map of attributes, and
    that they implement the attributes as [Xattr] has them. *)

From Stdlib Require Import Sorting.Sorted.
From stdpp Require Import strings.
From S2P Require Import Prelude Pages Friend Log Xattr Bytes XattrLayout XattrStore XattrEntry XattrSetEntry XattrShare XattrBlockSet.

(** ** Reading *)

(** The value of an entry, for a caller with so much room. *)
Definition answer (v : option (list Z)) (buffer_size : Z) : Z * list Z :=
  match v with
  | None => (- ENODATA, [])
  | Some v => if buffer_size <? zlen v then (- ERANGE, []) else (zlen v, v)
  end.

Lemma entry_in_buffer b first xs x : region b first xs -> x ∈ xs -> 0 <= x_offs x /\ 0 <= x_size x /\ x_offs x + x_size x <= zlen b.
Proof.
  intros R Hx. pose proof R as [N [Hw _] _ _]. pose proof (no_ents _ _ _ N) as Hok. rewrite Forall_forall in Hok, Hw.
  pose proof (eo_offs _ (Hok x Hx)). pose proof (eo_size _ (Hok x Hx)). destruct (live x) eqn:El; [destruct (val_in_buffer _ _ _ _ R Hx El); lia|].
  destruct (Hw x Hx) as [Hh _]. unfold live in El. apply negb_false_iff, Z.eqb_eq in El. lia.
Qed.

Lemma val_len b first xs x : region b first xs -> x ∈ xs -> zlen (val b x) = x_size x.
Proof. intros R Hx. destruct (entry_in_buffer _ _ _ _ R Hx) as (? & ? & ?). apply zlen_slice; lia. Qed.

Lemma get_entry_spec env b first l x r n : region b first (l ++ x :: r) -> get_entry env b (first + tot l) n = answer (Some (val b x)) n.
Proof.
  intros R. assert (x ∈ l ++ x :: r) as Hin by (apply elem_of_app; right; by left). destruct (names_here _ _ _ _ _ (rg_names _ _ _ R)) as (_ & _ & _ & Ex & _).
  destruct (entry_in_buffer _ _ _ _ R Hin) as (? & ? & ?). pose proof (no_small _ _ _ (rg_names _ _ _ R)).
  pose proof (no_ents _ _ _ (rg_names _ _ _ R)) as Hall. rewrite Forall_forall in Hall. unfold get_entry, answer. rewrite (val_len _ _ _ _ R Hin).
  change (e_value_size b (first + tot l)) with (x_size (ent b (first + tot l))). change (e_value_inum b (first + tot l)) with (x_inum (ent b (first + tot l))).
  change (e_value_offs b (first + tot l)) with (x_offs (ent b (first + tot l))). rewrite Ex, (eo_inum _ (Hall x Hin)).
  rewrite (proj2 (Z.ltb_ge EXT4_XATTR_SIZE_MAX _)) by (unfold EXT4_XATTR_SIZE_MAX; change (Z.shiftl 1 24) with 16777216; lia).
  cbn [Z.eqb negb]. by rewrite (proj2 (Z.ltb_ge (zlen b) _)) by lia.
Qed.

(** A search and what it finds, as a value. *)
Lemma find_get env sorted b first xs k n : region b first xs -> (sorted = true -> StronglySorted key_lt (key <$> xs)) ->
  ('(err, entry) ← xattr_find_entry b first k.1 k.2 sorted; if negb (err =? 0) then Ok (err, []) else Ok (get_entry env b entry n)) = Ok (answer (attrs b xs !! k) n).
Proof.
  intros R Hs. destruct (find_spec _ _ _ k sorted R Hs) as (ret & here & l & x & r & -> & Hret & Sx). cbn [mbind outcome_bind].
  rewrite (searched_lookup _ _ _ _ _ _ _ _ _ R Sx). destruct Sx as [-> _ Hh Hx _]. cbn [s_here s_not_found] in *. destruct x as [x|]; destruct Hx as [Hnf _].
  - apply negb_false_iff, Z.eqb_eq in Hnf. subst ret here. cbn [Z.eqb negb fmap option_fmap option_map]. by rewrite (get_entry_spec env b first l x r n R).
  - rewrite Hnf. apply negb_true_iff, Z.eqb_neq in Hnf. by destruct Hret as [-> | ->].
Qed.

(** Every attribute value is shorter than a buffer. *)
Lemma answer_nodata v n : (answer v n).1 = - ENODATA -> v = None.
Proof.
  destruct v as [v|]; [|done]. cbn. pose proof (zlen_nonneg v). case_match; cbn; unfold ERANGE, ENODATA; lia.
Qed.

Lemma body_get_spec env ino xs k n : body_ok env ino xs -> inode_loc_err env = 0 ->
  ext4_xattr_ibody_get env ino k.1 k.2 n = Ok (answer (body_attrs ino !! k) n).
Proof.
  intros Hok Hloc. rewrite (body_attrs_ok _ _ _ Hok). unfold ext4_xattr_ibody_get. rewrite Hloc.
  destruct Hok as [(-> & R & Hst & Hm)|(-> & -> & ->)]; [|cbn; by rewrite lookup_empty]. destruct (state_xattr ino) eqn:Est; cbn [negb Z.eqb].
  - unfold xattr_check_inode. rewrite (Hm eq_refl), Z.eqb_refl. pose proof (no_fits _ _ _ (rg_names _ _ _ R)). pose proof (tot_nonneg xs).
    rewrite (proj2 (Z.ltb_ge _ 8)) by lia. cbn [negb]. rewrite (check_entries_spec _ _ _ _ R). cbn [mbind outcome_bind Z.eqb negb].
    by rewrite (find_get env false _ _ xs).
  - assert (xs = []) as -> by (symmetry in Hst; by case_bool_decide). cbn. by rewrite lookup_empty.
Qed.

Lemma block_get_spec env users bl ino k n : (forall blk, 0 <= users blk) -> blocks_ok env (refs users (i_file_acl ino)) bl -> (forall blk, bread_err env blk = 0) ->
  ext4_xattr_block_get env bl ino k.1 k.2 n = Ok (answer (block_attrs env bl (i_file_acl ino) !! k) n).
Proof.
  intros Hu B Hbr. unfold ext4_xattr_block_get. destruct (Z.eqb_spec (i_file_acl ino) 0) as [E0|E0].
  - unfold block_attrs. rewrite E0. cbn. by rewrite lookup_empty.
  - rewrite Hbr. cbn [Z.eqb negb]. destruct (blocks_get _ _ _ _ B (old_used env users Hu bl _ B E0)) as (_ & ys & Hok & ->).
    rewrite (check_block_spec _ _ _ _ _ _ Hok). cbn [mbind outcome_bind Z.eqb negb]. pose proof (bk_contents _ _ _ _ _ Hok) as C.
    by rewrite (find_get env true _ _ ys k n (co_region _ _ _ C) (fun _ => co_sorted _ _ _ C)).
Qed.

(** Body first, then the block. *)
Lemma store_get env users bl ino (k : Z * list Z) n : store_sound env users bl ino -> inode_loc_err env = 0 -> (forall blk, bread_err env blk = 0) ->
  (r ← ext4_xattr_ibody_get env ino k.1 k.2 n; if r.1 =? - ENODATA then ext4_xattr_block_get env bl ino k.1 k.2 n else Ok r) = Ok (answer (xattr_map env bl ino !! k) n).
Proof.
  intros ((xs & Hb) & _ & B & Hu) Hloc Hbr. rewrite (body_get_spec env ino xs k n Hb Hloc). cbn [mbind outcome_bind].
  unfold xattr_map. rewrite lookup_union. destruct (body_attrs ino !! k) as [v|] eqn:E.
  - assert ((answer (Some v) n).1 =? - ENODATA = false) as -> by (apply Z.eqb_neq; intros Ea; by apply answer_nodata in Ea). by rewrite union_Some_l.
  - cbn [answer fst Z.eqb]. rewrite Z.eqb_refl, (left_id_L None _). by apply (block_get_spec env users).
Qed.

(** ** Setting *)

(** The change in the body or in the block is the change of their union. *)
Lemma put_union_l (k : Z * list Z) (v : option (list Z)) (m1 m2 : gmap (Z * list Z) (list Z)) : (v = None -> m2 !! k = None) -> put k v m1 ∪ m2 = put k v (m1 ∪ m2).
Proof.
  intros H2. destruct v as [v|]; cbn [put]; [by rewrite insert_union_l|]. rewrite delete_union. rewrite (delete_id m2); auto.
Qed.
Lemma put_union_r (k : Z * list Z) (v : option (list Z)) (m1 m2 : gmap (Z * list Z) (list Z)) : m1 !! k = None -> m1 ∪ put k v m2 = put k v (m1 ∪ m2).
Proof.
  intros H1. destruct v as [v|]; cbn [put]; [by rewrite insert_union_r|]. rewrite delete_union. by rewrite (delete_id m1).
Qed.
Lemma put_move (k : Z * list Z) (v : list Z) (m1 m2 : gmap (Z * list Z) (list Z)) : put k (Some v) m1 ∪ put k None m2 = put k (Some v) (m1 ∪ m2).
Proof.
  cbn [put]. apply map_eq. intros j. rewrite lookup_union. destruct (decide (j = k)) as [->|Hne].
  - by rewrite !lookup_insert_eq, lookup_delete_eq.
  - by rewrite !(lookup_insert_ne _ k j), lookup_delete_ne, lookup_union.
Qed.

Lemma put_move_r (k : Z * list Z) (v : list Z) (m1 m2 : gmap (Z * list Z) (list Z)) : put k None m1 ∪ put k (Some v) m2 = put k (Some v) (m1 ∪ m2).
Proof.
  cbn [put]. apply map_eq. intros j. rewrite lookup_union. destruct (decide (j = k)) as [->|Hne].
  - by rewrite !lookup_insert_eq, lookup_delete_eq.
  - by rewrite !(lookup_insert_ne _ k j), lookup_delete_ne, lookup_union.
Qed.

Lemma put_disjoint (k : Z * list Z) (v : option (list Z)) (m1 m2 : gmap (Z * list Z) (list Z)) : m1 ##ₘ m2 -> m2 !! k = None -> put k v m1 ##ₘ m2.
Proof. intros Hd H2. destruct v as [v|]; cbn [put]; [by apply map_disjoint_insert_l_2|by apply map_disjoint_delete_l]. Qed.

Section handle.
Context (env : xenv) (users : Z -> Z) (bl : blocks) (ino : xinode) (k : Z * list Z).
Context (Q : quiet env bl) (Hname : ent_ok (new_ent k.1 k.2)) (Hstore : store_sound env users bl ino).
Notation mb := (body_attrs ino).
Notation mk := (block_attrs env bl (i_file_acl ino)).

(** The outcome of setting an attribute to [v].  It is done, though removing it from
    the body leaves what the block has of it; or refused for lack of space without
    an effect; or, when no block can be had to take the attribute out of a shared
    one, refused after the new value was put in the body. *)
Inductive set_outcome (v : option (list Z)) (err : Z) (bl' : blocks) (ino' : xinode) : Prop :=
| set_done : err = 0 -> (attrs_apart env bl ino \/ v <> None -> xattr_map env bl' ino' = put k v (xattr_map env bl ino)) ->
    (attrs_apart env bl ino -> attrs_apart env bl' ino') -> set_outcome v err bl' ino'
| set_refused : err < 0 -> err = - ENOSPC \/ new_meta_block env = inl err -> xattr_map env bl' ino' = xattr_map env bl ino ->
    (attrs_apart env bl ino -> attrs_apart env bl' ino') -> set_outcome v err bl' ino'
| set_kept_old : err < 0 -> new_meta_block env = inl err -> v <> None -> mk !! k <> None -> xattr_map env bl' ino' = put k v (xattr_map env bl ino) ->
    set_outcome v err bl' ino'.
Definition stored (v : option (list Z)) (r : outcome (Z * blocks * xinode)) : Prop :=
  exists err bl' ino', r = Ok (err, bl', ino') /\ store_sound env users bl' ino' /\ others_kept env users bl bl' /\ set_outcome v err bl' ino'.

Lemma unchanged_stored v : put k v (xattr_map env bl ino) = xattr_map env bl ino -> stored v (Ok (0, bl, ino)).
Proof. intros E. exists 0, bl, ino. split_and!; [done|done|by intros ? _|by apply set_done]. Qed.

Context (Hnew : state_new ino = false).

Lemma users_nonneg : forall blk, 0 <= users blk.
Proof. apply Hstore. Qed.
Lemma store_blocks : blocks_ok env (refs users (i_file_acl ino)) bl.
Proof. apply Hstore. Qed.

(** A new body and a new block make a new store. *)
Lemma store_intro bl' ino' xs : body_ok env ino' xs -> state_new ino' = false -> blocks_ok env (refs users (i_file_acl ino')) bl' -> store_sound env users bl' ino'.
Proof. intros Hb Hn B. split_and!; [by exists xs|by rewrite Hn|done|apply users_nonneg]. Qed.

Lemma body_ok_acl ino' xs acl' : body_ok env ino' xs -> body_ok env (set_file_acl ino' acl') xs.
Proof. done. Qed.

(** The body is changed, and what is in the block is not the attribute. *)
Lemma body_only v ino' xs' : body_ok env ino' xs' -> state_new ino' = false -> i_file_acl ino' = i_file_acl ino ->
  body_attrs ino' = put k v mb -> (attrs_apart env bl ino -> mk !! k = None) -> stored v (Ok (0, bl, ino')).
Proof.
  intros Hb Hn Hacl Ea Hk. exists 0, bl, ino'. split_and!; [done| |by intros ? _|apply set_done; [done|..]].
  - eapply store_intro; [done|done|rewrite Hacl; apply store_blocks].
  - intros Hor. unfold xattr_map. rewrite Ea, put_union_l; [by rewrite Hacl|]. rewrite Hacl. intros ->. apply Hk. by destruct Hor.
  - intros Hd. unfold attrs_apart. rewrite Ea. apply put_disjoint; rewrite Hacl; [done|by apply Hk].
Qed.

(** The block is changed after the body. *)
Lemma block_after v v2 ino' xs' r : body_ok env ino' xs' -> state_new ino' = false -> i_file_acl ino' = i_file_acl ino ->
  (forall m, m = put k v2 mk -> body_attrs ino' ∪ m = put k v (mb ∪ mk) /\ (mb ##ₘ mk -> body_attrs ino' ##ₘ m)) ->
  (body_attrs ino' = mb \/ v2 = None /\ v <> None /\ mk !! k <> None /\ body_attrs ino' = put k v mb) ->
  block_changed env users bl ino' k v2 r -> stored v r.
Proof.
  intros Hb Hn Hacl Hput Hfail (err & bl' & acl' & -> & B' & Hk & Hres). exists err, bl', (set_file_acl ino' acl'). rewrite Hacl in Hres. split_and!; [done| |done|].
  - eapply (store_intro _ _ xs'); [by apply body_ok_acl|done|done].
  - destruct Hres as [[-> Ha]|(Hneg & -> & Ha & Herr & Hv2)].
    + destruct (Hput _ Ha) as [Hm Hd]. by apply set_done; [done|intros _; unfold xattr_map; cbn|].
    + destruct Hfail as [Eb|(Ev & Hv & Hmk & Eb)].
      * apply set_refused; [done|done|unfold xattr_map|unfold attrs_apart]; cbn; change (body_attrs (set_file_acl ino' _)) with (body_attrs ino'); by rewrite Eb, Ha.
      * apply set_kept_old; [done|by apply Hv2|done|done|]. unfold xattr_map. cbn. change (body_attrs (set_file_acl ino' _)) with (body_attrs ino'). rewrite Eb, Ha.
        apply put_union_l. by intros ->.
Qed.

Section value.
Context (i : ext4_xattr_info) (nv : xattr_value) (xs : list xent) (si : ext4_xattr_search).
Context (I : info_ok i) (Ek : (xi_name_index i, xi_name i) = k) (Ev : xi_value i = Some nv) (Hb : body_ok env ino xs) (Hsi : body_searched env ino xs k si)
  (Hnf : s_not_found si = bool_decide (mb !! k = None)).
Notation v := (Some (value_bytes nv)).
Notation remove := (XattrInfo (xi_name_index i) (xi_name i) None (xi_in_inode i)).

Lemma removal_info_ok : info_ok remove.
Proof. destruct I. by split. Qed.

(** A search of the block, or none because the attribute is in the body. *)
Definition bs_known (bs : block_find) : Prop :=
  (bs = BlockFind None (XattrSearch 0 0 true) /\ s_not_found si = false) \/
  (block_searched env bl (i_file_acl ino) k bs /\ s_not_found (bs_s bs) = bool_decide (mk !! k = None) /\ (bs_bh bs = None <-> i_file_acl ino = 0) /\ s_not_found si = true).

(** The body has room. *)
Lemma in_body bs ino' xs' : bs_known bs -> body_ok env ino' xs' -> state_new ino' = false -> i_file_acl ino' = i_file_acl ino -> body_attrs ino' = put k v mb ->
  stored v (if negb (s_not_found (bs_s bs)) then ext4_xattr_block_set env bl ino' remove bs else Ok (0, bl, ino')).
Proof.
  intros Hbs Hb' Hn Hacl Ea. destruct Hbs as [[-> Hin]|(Hse & Hbnf & _)].
  - cbn [bs_s s_not_found negb]. eapply body_only; try done. intros Hd. rewrite Hnf in Hin. apply bool_decide_eq_false in Hin. destruct (mb !! k) as [w|] eqn:Ew; [|by destruct Hin].
    destruct (mk !! k) as [w'|] eqn:Ew'; [|done]. exfalso. by eapply map_disjoint_spec.
  - rewrite Hbnf. case_bool_decide as Hk; cbn [negb]; [by eapply body_only|].
    assert (block_changed env users bl ino' k None (ext4_xattr_block_set env bl ino' remove bs)) as Hch.
    { rewrite <- Ek. apply (block_set_spec env users bl ino' remove bs); [apply users_nonneg|done|rewrite Hacl; apply store_blocks|apply removal_info_ok|cbn; by rewrite Ek, Hacl|].
      by intros _. }
    eapply block_after; [exact Hb'|done|done| |by right|exact Hch]. intros m ->. rewrite Ea. split; [apply put_move|]. intros Hd.
    cbn [put]. apply map_disjoint_insert_l_2; [by rewrite lookup_delete_eq|]. by apply map_disjoint_delete_r.
Qed.

(** The body has no room. *)
Lemma in_block bs : block_searched env bl (i_file_acl ino) k bs -> s_not_found (bs_s bs) = bool_decide (mk !! k = None) ->
  stored v ('(err, bl, ino) ← ext4_xattr_block_set env bl ino i bs;
            if (err =? 0) && negb (s_not_found si) then '(err, ino) ← ext4_xattr_ibody_set env ino remove si; Ok (err, bl, ino) else Ok (err, bl, ino)).
Proof.
  intros Hse Hbnf.
  assert (block_changed env users bl ino k v (ext4_xattr_block_set env bl ino i bs)) as (err & bl' & acl' & -> & B' & Hk & Hres).
  { pose proof (block_set_spec env users bl ino i bs) as Hch. rewrite Ek, Ev in Hch. apply Hch; try done; [apply users_nonneg|apply store_blocks]. }
  cbn [mbind outcome_bind]. rewrite Hnf. destruct Hres as [[-> Ha]|(Hneg & -> & Ha & Herr & _)].
  - cbn [Z.eqb andb]. destruct (decide (mb !! k = None)) as [Hmb|Hmb]; [rewrite (bool_decide_true _ Hmb)|rewrite (bool_decide_false _ Hmb)]; cbn [negb].
    + exists 0, bl', (set_file_acl ino acl'). split_and!; [done| |done|apply set_done; [done|..]].
      * by eapply (store_intro _ _ xs).
      * intros _. unfold xattr_map. cbn. rewrite Ha. change (<[k := value_bytes nv]> mk) with (put k v mk). by rewrite put_union_r.
      * intros Hd. unfold attrs_apart. cbn. rewrite Ha. by apply map_disjoint_insert_r_2.
    + destruct (body_set_spec env (set_file_acl ino acl') xs remove si (qt_inline _ _ Q) removal_info_ok) as (err & ino' & -> & Hacl & Hsn & Hbres); [done|cbn; by rewrite Ek|intros _; by rewrite Hnf, (bool_decide_false _ Hmb)|].
      destruct Hbres as [(-> & (xs' & Hb') & Hba)|(_ & _ & Hc)]; [|done]. cbn [mbind outcome_bind]. change (body_attrs (set_file_acl ino acl')) with mb in Hba. cbn [xi_name_index xi_name xi_value fmap option_fmap option_map] in Hba. rewrite Ek in Hba.
      cbn [i_file_acl set_file_acl] in Hacl. exists 0, bl', ino'. split_and!; [done| |done|apply set_done; [done|..]].
      * eapply (store_intro _ _ xs'); [done|by rewrite Hsn|by rewrite Hacl].
      * intros _. unfold xattr_map. rewrite Hacl, Hba, Ha. apply put_move_r.
      * intros Hd. unfold attrs_apart. rewrite Hacl, Hba, Ha. cbn [put]. apply map_disjoint_insert_r_2; [by rewrite lookup_delete_eq|]. by apply map_disjoint_delete_l.
  - rewrite (proj2 (Z.eqb_neq err 0)) by lia. cbn [andb]. exists err, bl', (set_file_acl ino (i_file_acl ino)). split_and!; [done| |done|apply set_refused; [done|done|..]].
    + by eapply (store_intro _ _ xs).
    + unfold xattr_map. cbn. by rewrite Ha.
    + intros Hd. unfold attrs_apart. cbn. by rewrite Ha.
Qed.

Lemma stored_Ok v' r : stored v' r -> exists err bl' ino', r = Ok (err, bl', ino') /\ stored v' (Ok (err, bl', ino')).
Proof. intros S. pose proof S as (err & bl' & ino' & -> & _). by exists err, bl', ino'. Qed.

Lemma set_somewhere_spec bs : bs_known bs ->
  exists err bl' ino' bs' again, set_somewhere env bl ino i si bs = Ok (err, bl', ino', bs', again) /\ stored v (Ok (err, bl', ino')).
Proof.
  intros Hbs. unfold set_somewhere. assert (body_searched env ino xs (xi_name_index i, xi_name i) si) as Hsi' by by rewrite Ek.
  destruct (body_set_spec env ino xs i si (qt_inline _ _ Q) I Hb Hsi') as (err & ino' & -> & Hacl & Hsn & Hres); [by rewrite Ev|]. cbn [mbind outcome_bind].
  destruct Hres as [(-> & (xs' & Hb') & Ha)|(-> & -> & _)].
  - rewrite Ek, Ev in Ha. assert (state_new ino' = false) as Hn' by congruence. pose proof (in_body bs ino' xs' Hbs Hb' Hn' Hacl Ha) as St. cbn [Z.eqb andb].
    destruct (stored_Ok _ _ St) as (e & b1 & i1 & E & St1). exists e, b1, i1, bs, false. split; [|done]. destruct (negb (s_not_found (bs_s bs))); [by rewrite E|by injection E as <- <- <-].
  - cbn [ENOSPC Z.opp Z.eqb andb]. rewrite Z.eqb_refl.
    assert (exists bs', (if negb (i_file_acl ino =? 0) && bool_decide (bs_bh bs = None) then ext4_xattr_block_find env bl ino i else Ok (0, bs)) = Ok (0, bs') /\
      block_searched env bl (i_file_acl ino) k bs' /\ s_not_found (bs_s bs') = bool_decide (mk !! k = None)) as (bs' & -> & Hse & Hbnf).
    { destruct (block_find_spec env users bl ino i users_nonneg (qt_bread _ _ Q) store_blocks) as (bs' & E & Hse & Hbnf & _). rewrite Ek in *.
      destruct (Z.eqb_spec (i_file_acl ino) 0) as [E0|E0]; cbn [negb andb].
      - exists bs. split; [done|]. destruct Hbs as [[-> _]|(? & ? & _)]; [|done]. split; [by left|]. unfold block_attrs. by rewrite E0, bool_decide_true.
      - destruct (decide (bs_bh bs = None)) as [Hbh|Hbh]; [rewrite bool_decide_true by done; by exists bs'|rewrite bool_decide_false by done]. exists bs. split; [done|]. destruct Hbs as [[-> _]|(? & ? & _)]; [by destruct Hbh|done]. }
    cbn [mbind outcome_bind Z.eqb negb]. destruct (stored_Ok _ _ (in_block bs' Hse Hbnf)) as (e & b1 & i1 & E & St1). exists e, b1, i1, bs'.
    destruct (ext4_xattr_block_set env bl ino i bs') as [[[e' b2] i2]| |]; try discriminate E. cbn [mbind outcome_bind] in *.
    destruct ((e' =? 0) && negb (s_not_found si)); [|injection E as <- <- <-; by eexists].
    destruct (ext4_xattr_ibody_set env i2 remove si) as [[e2 i3]| |]; try discriminate E. cbn [mbind outcome_bind] in *. injection E as <- <- <-. by eexists.
Qed.

(** An entry that has the value already. *)
Lemma value_same_spec b first ys s sorted w : region b first ys -> (exists l x r, searched sorted k s first ys l x r) -> s_not_found s = false ->
  ext4_xattr_value_same b s w = true -> attrs b ys !! k = Some w.
Proof.
  intros R (l & x & r & Sx) Hnf0 E. rewrite (searched_lookup _ _ _ _ _ _ _ _ _ R Sx). pose proof Sx as [Hsp _ Hh Hx _]. destruct x as [x|]; [|destruct Hx; congruence].
  change (l ++ option_list (Some x) ++ r) with (l ++ x :: r) in Hsp. subst ys. assert (x ∈ l ++ x :: r) as Hin by (apply elem_of_app; right; by left).
  destruct (names_here _ _ _ _ _ (rg_names _ _ _ R)) as (_ & _ & _ & Ex & _). destruct (entry_in_buffer _ _ _ _ R Hin) as (? & ? & ?).
  unfold ext4_xattr_value_same in E. rewrite Hh in E. change (e_value_inum b (first + tot l)) with (x_inum (ent b (first + tot l))) in E.
  change (e_value_size b (first + tot l)) with (x_size (ent b (first + tot l))) in E. change (e_value_offs b (first + tot l)) with (x_offs (ent b (first + tot l))) in E. rewrite Ex in E.
  destruct (negb (x_inum x =? 0)); [done|]. destruct (Z.eqb_spec (x_size x) (zlen w)) as [Es|Es]; [|done]. cbn [negb] in E. apply Z.eqb_eq in E.
  cbn [fmap option_fmap option_map]. f_equal. unfold val. rewrite Es. apply memcmp_0; [|done]. pose proof (zlen_slice b (x_offs x) (zlen w)). unfold zlen in *. lia.
Qed.
End value.

Lemma put_same w : xattr_map env bl ino !! k = Some w -> put k (Some w) (xattr_map env bl ino) = xattr_map env bl ino.
Proof. intros E. cbn [put]. by apply insert_id. Qed.

Lemma set_value_spec i w xs si bs : info_ok i -> (xi_name_index i, xi_name i) = k -> xi_value i = Some (Value w) -> body_ok env ino xs -> body_searched env ino xs k si ->
  s_not_found si = bool_decide (mb !! k = None) -> bs_known si bs ->
  stored (Some w) (set_value env bl ino i si bs w).
Proof.
  intros I Ek Ev Hb Hsi Hnf Hbs. unfold set_value. rewrite (qt_ea _ _ Q). cbn [andb].
  destruct (negb (s_not_found si) && ext4_xattr_value_same (body ino) si w) eqn:E1.
  { apply andb_prop in E1 as [Hf%negb_true_iff Hsame]. apply unchanged_stored, put_same. unfold xattr_map. rewrite lookup_union, (body_attrs_ok _ _ _ Hb). unfold body_searched in Hsi.
    destruct Hb as [(Hsp & R & _)|(Hsp & _)]; rewrite Hsp in *; [|congruence]. rewrite (value_same_spec _ _ _ _ _ _ R Hsi Hf Hsame). by rewrite union_Some_l. }
  destruct (negb (s_not_found (bs_s bs)) && _) eqn:E2.
  { apply andb_prop in E2 as [Hf%negb_true_iff Hsame]. apply unchanged_stored, put_same. destruct Hbs as [[-> _]|(Hse & _ & _ & Hno)]; [done|].
    destruct Hse as [[_ ->]|(Hnz & _ & ys & l & x & r & C & Sx)]; [done|].
    assert (mk !! k = Some w) as Ew.
    { unfold block_attrs. rewrite (proj2 (Z.eqb_neq _ 0)) by done. rewrite (map_of_region _ _ _ (co_region _ _ _ C)). eapply value_same_spec; [apply C|by exists l, x, r|done|done]. }
    rewrite Hnf in Hno. apply bool_decide_eq_true in Hno. unfold xattr_map. by rewrite lookup_union, Ew, Hno. }
  assert (info_ok (XattrInfo (xi_name_index i) (xi_name i) (xi_value i) false)) as I' by (by destruct I).
  destruct (set_somewhere_spec (XattrInfo (xi_name_index i) (xi_name i) (xi_value i) false) (Value w) xs si I' Ek Ev Hb Hsi Hnf bs Hbs) as (e & b1 & i1 & bs1 & again & -> & St).
  cbn [mbind outcome_bind]. rewrite andb_false_r. cbn [andb]. exact St.
Qed.
End handle.

(** The inode once [EXT4_STATE_NEW] is dealt with. *)
Definition settled (ino : xinode) : xinode :=
  if state_new ino then XInode (i_extra_isize ino) (zeros (zlen (body ino))) 0 (state_xattr ino) false (i_file_acl ino) else ino.

Lemma region_zeros n : 4 <= n <= 65536 -> region (zeros n) 0 [].
Proof.
  intros Hn. pose proof (zlen_zeros n ltac:(lia)) as Hz.
  split; [split|..]; cbn [tot vsum seg]; try done; try lia; try by constructor.
  - apply zeros_ok.
  - apply rd_zero. apply slice_zeros; lia.
  - unfold room. cbn [tot vsum]. lia.
Qed.

Lemma settled_ok env users bl ino : store_sound env users bl ino ->
  store_sound env users bl (settled ino) /\ body_attrs (settled ino) = body_attrs ino /\ xattr_map env bl (settled ino) = xattr_map env bl ino /\ state_new (settled ino) = false /\ i_file_acl (settled ino) = i_file_acl ino.
Proof.
  intros S. unfold settled. destruct (state_new ino) eqn:En; [|done]. destruct S as ((xs & Hb) & Hnew & B & Hu). specialize (Hnew En).
  set (ino0 := XInode _ _ _ _ _ _). assert (body_attrs ino0 = body_attrs ino) as Ea by (unfold body_attrs; cbn; by rewrite Hnew).
  split_and!; [|done|unfold xattr_map; by rewrite Ea|done|done]. split_and!; [|done|done|done]. exists [].
  destruct Hb as [(Hsp & R & _)|(Hsp & _ & _)]; [left|by right]. split_and!; [done| |cbn; by rewrite Hnew|cbn; by rewrite Hnew].
  pose proof (no_fits _ _ _ (rg_names _ _ _ R)). pose proof (no_small _ _ _ (rg_names _ _ _ R)). pose proof (tot_nonneg xs). apply region_zeros. lia.
Qed.

Lemma get_block_spec env users bl ino : store_sound env users bl ino -> (forall blk, bread_err env blk = 0) -> ext4_xattr_get_block env bl ino = Ok 0.
Proof.
  intros (_ & _ & B & Hu) Hbr. unfold ext4_xattr_get_block. destruct (Z.eqb_spec (i_file_acl ino) 0) as [E0|E0]; [done|]. rewrite Hbr. cbn [Z.eqb negb].
  destruct (blocks_get _ _ _ _ B (old_used env users Hu bl _ B E0)) as (_ & ys & Hok & _). by eapply check_block_spec.
Qed.

(** The attribute is in the body, in the block, or in neither. *)
Lemma absent_map env bl ino k :
  bool_decide (xattr_map env bl ino !! k = None) = bool_decide (body_attrs ino !! k = None) && bool_decide (block_attrs env bl (i_file_acl ino) !! k = None).
Proof.
  unfold xattr_map. rewrite lookup_union. destruct (body_attrs ino !! k), (block_attrs env bl (i_file_acl ino) !! k); done.
Qed.

Section set_handle.
Context (env : xenv) (users : Z -> Z) (bl : blocks) (ino : xinode) (name_index : Z) (name : list Z) (value : option (list Z)).
Notation k := (name_index, name).
Notation i := (XattrInfo name_index name (Value <$> value) false).
Context (Q : quiet env bl) (Hname : ent_ok (new_ent name_index name)) (Hstore : store_sound env users bl ino) (Hnew : state_new ino = false)
  (Hval : forall v, value = Some v -> Forall byte_ok v /\ zlen v <= EXT4_XATTR_SIZE_MAX).

Lemma info_intro : info_ok i.
Proof.
  split; [done|done|]. cbn. destruct value as [v|]; [|done]. cbn. destruct (Hval v eq_refl). split; [|done]. split; [apply zlen_nonneg|done].
Qed.

(** Removing the attribute from where it is. *)
Lemma remove_spec xs si bs : value = None -> body_ok env ino xs -> body_searched env ino xs k si -> s_not_found si = bool_decide (body_attrs ino !! k = None) ->
  (s_not_found si = true -> block_searched env bl (i_file_acl ino) k bs /\ s_not_found (bs_s bs) = bool_decide (block_attrs env bl (i_file_acl ino) !! k = None)) ->
  s_not_found si && s_not_found (bs_s bs) = false ->
  stored env users bl ino k None (if negb (s_not_found si) then '(err, ino') ← ext4_xattr_ibody_set env ino i si; Ok (err, bl, ino') else ext4_xattr_block_set env bl ino i bs).
Proof.
  intros Ev Hb Hsi Hnf Hbs Hab. pose proof info_intro as I. rewrite Ev in *. destruct (s_not_found si) eqn:Esi; cbn [negb andb] in *.
  - destruct (Hbs eq_refl) as [Hse Hbnf]. symmetry in Hnf. apply bool_decide_eq_true in Hnf.
    eapply (block_after env users bl ino k Hstore None None ino xs); try done; [|by left|].
    + intros m ->. split; [by apply put_union_r|]. intros Hd. cbn [put]. by apply map_disjoint_delete_r.
    + pose proof Hstore as (_ & _ & B & Hu). exact (block_set_spec env users bl ino (XattrInfo name_index name (Value <$> None) false) bs Hu Q B I Hse (fun _ => Hab)).
  - destruct (body_set_spec env ino xs (XattrInfo name_index name (Value <$> None) false) si (qt_inline _ _ Q) I Hb Hsi) as (err & ino' & -> & Hacl & Hsn & Hres); [done|].
    destruct Hres as [(-> & (xs' & Hb') & Ha)|(_ & _ & Hc)]; [|done]. cbn [mbind outcome_bind].
    symmetry in Hnf. apply bool_decide_eq_false in Hnf. eapply body_only; try done; [congruence|]. intros Hd.
    destruct (body_attrs ino !! k) as [w|] eqn:Ew; [|by destruct Hnf]. destruct (block_attrs env bl (i_file_acl ino) !! k) as [w'|] eqn:Ew'; [|done].
    exfalso. by eapply map_disjoint_spec.
Qed.

(** The searches of [ext4_xattr_set_handle]. *)
Lemma searches_spec xs : body_ok env ino xs -> exists si bs,
  ext4_xattr_ibody_find env ino i = Ok (0, si) /\
  (if s_not_found si then ext4_xattr_block_find env bl ino i else Ok (0, BlockFind None (XattrSearch 0 0 true))) = Ok (0, bs) /\
  body_searched env ino xs k si /\ s_not_found si = bool_decide (body_attrs ino !! k = None) /\ bs_known env bl ino k si bs /\
  (s_not_found si = true -> block_searched env bl (i_file_acl ino) k bs /\ s_not_found (bs_s bs) = bool_decide (block_attrs env bl (i_file_acl ino) !! k = None)) /\
  s_not_found si && s_not_found (bs_s bs) = bool_decide (xattr_map env bl ino !! k = None).
Proof.
  intros Hb. destruct (body_find_spec env ino xs i Hb) as (si & E & Hsi & Hnf). cbn [xi_name_index xi_name] in Hsi, Hnf. rewrite (absent_map env bl ino k).
  destruct (s_not_found si) eqn:Esi.
  - destruct (block_find_spec env users bl ino i (users_nonneg env users bl ino Hstore) (qt_bread _ _ Q) (store_blocks env users bl ino Hstore)) as (bs & Eb & Hse & Hbnf & Hbh).
    cbn [xi_name_index xi_name] in Hse, Hbnf. exists si, bs. rewrite Esi, <- Hnf. split_and!; try done; by right.
  - exists si, (BlockFind None (XattrSearch 0 0 true)). rewrite Esi, <- Hnf. split_and!; try done. by left.
Qed.
End set_handle.

(** Of the inode only its attributes matter. *)
Lemma outcome_of ino1 ino2 env bl k v err bl' ino' : body_attrs ino1 = body_attrs ino2 -> i_file_acl ino1 = i_file_acl ino2 ->
  set_outcome env bl ino1 k v err bl' ino' -> set_outcome env bl ino2 k v err bl' ino'.
Proof.
  intros Ea Hacl. assert (attrs_apart env bl ino1 = attrs_apart env bl ino2) as Eap by (unfold attrs_apart; by rewrite Ea, Hacl).
  assert (xattr_map env bl ino1 = xattr_map env bl ino2) as Em by (unfold xattr_map; by rewrite Ea, Hacl).
  intros [? Hm Hd|? ? Hm Hd|? ? ? Hk Hm]; rewrite ?Eap, ?Em, ?Hacl in *; [by apply set_done|by apply set_refused|by apply set_kept_old].
Qed.

(** [ext4_xattr_set_handle] on an inode among others, whatever the allocator of
    blocks answers. *)
Lemma store_set (env : xenv) (users : Z -> Z) (bl : blocks) (ino : xinode) (name_index : Z) (name : list Z) (value : option (list Z)) (create replace : bool) :
  quiet env bl -> ent_ok (new_ent name_index name) -> store_sound env users bl ino ->
  (forall v, value = Some v -> Forall byte_ok v /\ zlen v <= EXT4_XATTR_SIZE_MAX) ->
  let absent := bool_decide (xattr_map env bl ino !! (name_index, name) = None) in
  exists err bl' ino', ext4_xattr_set_handle env bl ino name_index name value create replace = Ok (err, bl', ino') /\
    store_sound env users bl' ino' /\ others_kept env users bl bl' /\
    if absent && replace then err = - ENODATA /\ xattr_map env bl' ino' = xattr_map env bl ino /\ (attrs_apart env bl ino -> attrs_apart env bl' ino')
    else if absent && bool_decide (value = None) then err = 0 /\ xattr_map env bl' ino' = xattr_map env bl ino /\ (attrs_apart env bl ino -> attrs_apart env bl' ino')
    else if negb absent && create then err = - EEXIST /\ xattr_map env bl' ino' = xattr_map env bl ino /\ (attrs_apart env bl ino -> attrs_apart env bl' ino')
    else set_outcome env bl ino (name_index, name) value err bl' ino'.
Proof.
  intros Q Hname Hstore Hval absent. unfold ext4_xattr_set_handle. pose proof (eo_name_len _ Hname) as Hnl. cbn [x_name new_ent] in Hnl.
  rewrite (proj2 (Z.ltb_ge 255 _)) by lia. rewrite (get_block_spec env users bl ino Hstore (qt_bread _ _ Q)).
  assert ((if handle_valid env then Ok 0 else Ok 0) = Ok 0) as -> by by destruct (handle_valid env). cbn [mbind outcome_bind Z.eqb negb].
  rewrite (qt_credits _ _ Q), andb_false_r, (qt_journal _ _ Q). cbn [Z.eqb negb]. fold (settled ino).
  destruct (settled_ok env users bl ino Hstore) as (Hst & Ea & Em & Hnew & Hacl). set (ino0 := settled ino) in *.
  assert (forall err bl' ino' (c1 c2 c3 : bool),
    (if c1 then err = - ENODATA /\ xattr_map env bl' ino' = xattr_map env bl ino0 /\ (attrs_apart env bl ino0 -> attrs_apart env bl' ino')
     else if c2 then err = 0 /\ xattr_map env bl' ino' = xattr_map env bl ino0 /\ (attrs_apart env bl ino0 -> attrs_apart env bl' ino')
     else if c3 then err = - EEXIST /\ xattr_map env bl' ino' = xattr_map env bl ino0 /\ (attrs_apart env bl ino0 -> attrs_apart env bl' ino')
     else set_outcome env bl ino0 (name_index, name) value err bl' ino') ->
    if c1 then err = - ENODATA /\ xattr_map env bl' ino' = xattr_map env bl ino /\ (attrs_apart env bl ino -> attrs_apart env bl' ino')
    else if c2 then err = 0 /\ xattr_map env bl' ino' = xattr_map env bl ino /\ (attrs_apart env bl ino -> attrs_apart env bl' ino')
    else if c3 then err = - EEXIST /\ xattr_map env bl' ino' = xattr_map env bl ino /\ (attrs_apart env bl ino -> attrs_apart env bl' ino')
    else set_outcome env bl ino (name_index, name) value err bl' ino') as Hback.
  { intros err bl' ino' c1 c2 c3. assert (attrs_apart env bl ino0 = attrs_apart env bl ino) as -> by (unfold attrs_apart; by rewrite Ea, Hacl). rewrite Em.
    destruct c1; [done|]. destruct c2; [done|]. destruct c3; [done|]. by apply (outcome_of ino0). }
  subst absent. rewrite <- Em. clearbody ino0. pose proof Hst as ((xs & Hb) & _).
  destruct (searches_spec env users bl ino0 name_index name value Q Hst xs Hb) as (si & bs & -> & E & Hsi & Hnf & Hbs & Hse & Hab). cbn [mbind outcome_bind Z.eqb negb]. rewrite E. cbn [mbind outcome_bind Z.eqb negb]. cbv zeta. rewrite Hab.
  set (absent := bool_decide (xattr_map env bl ino0 !! _ = None)) in *. rewrite <- Em in Hback.
  destruct (absent && replace); [exists (- ENODATA), bl, ino0; split; [done|]; split; [done|]; split; [by intros ? _|by apply (Hback _ _ _ true true true)]|].
  destruct (absent && bool_decide (value = None)) eqn:Eab; [exists 0, bl, ino0; split; [done|]; split; [done|]; split; [by intros ? _|by apply (Hback _ _ _ false true true)]|].
  destruct (negb absent && create); [exists (- EEXIST), bl, ino0; split; [done|]; split; [done|]; split; [by intros ? _|by apply (Hback _ _ _ false false true)]|].
  assert (stored env users bl ino0 (name_index, name) value match value with
    | None => if negb (s_not_found si) then '(err, ino') ← ext4_xattr_ibody_set env ino0 (XattrInfo name_index name (Value <$> value) false) si; Ok (err, bl, ino')
              else ext4_xattr_block_set env bl ino0 (XattrInfo name_index name (Value <$> value) false) bs
    | Some v => set_value env bl ino0 (XattrInfo name_index name (Value <$> value) false) si bs v end) as St.
  { destruct value as [v|] eqn:Ev.
    - apply (set_value_spec env users bl ino0 (name_index, name) Q Hst Hnew (XattrInfo name_index name (Value <$> Some v) false) v xs); try done. by apply info_intro.
    - apply (remove_spec env users bl ino0 name_index name None Q Hname Hst Hnew Hval xs); try done.
      rewrite Hab. rewrite (bool_decide_true (None = None)), andb_true_r in Eab by done. exact Eab. }
  destruct St as (err & bl' & ino' & -> & Hst' & Hk & Hres). cbn [mbind outcome_bind]. rewrite (qt_journal _ _ Q).
  assert ((if negb (err =? 0) then Ok (err, bl', ino') else Ok (0, bl', ino')) = Ok (err, bl', ino')) as E' by (by destruct (Z.eqb_spec err 0) as [->|]).
  exists err, bl', ino'. split; [exact E'|]. split; [done|]. split; [done|]. by apply (Hback _ _ _ false false false).
Qed.

(** ** Properties *)

(** C18: Searching a sound buffer of attributes and then setting or removing one with
    [ext4_xattr_set_entry], as for the body of an inode or for a block: the search
    answers whether the attribute is there; a value is refused with [-ENOSPC], the
    buffer untouched, exactly when the free space is less than what the new entry or
    the longer value needs (or the reserve of a block would be used); else the buffer
    is sound again, as long as before, and the attributes in it are the old ones
    changed at this name alone. *)
Theorem set_entry_exact (env : entry_env) (i : ext4_xattr_info) (b : list Z) (xs : list xent) (is_block : bool) :
  let first := if is_block then BFIRST else 0 in
  let k := (xi_name_index i, xi_name i) in
  region b first xs -> (is_block = true -> StronglySorted key_lt (key <$> xs)) -> info_ok i -> en_inline env = 0 ->
  exists err here l x r, xattr_find_entry b first (xi_name_index i) (xi_name i) is_block = Ok (err, here) /\
    xs = l ++ option_list x ++ r /\ err = (if x then 0 else - ENODATA) /\ attrs b xs !! k = val b <$> x /\
    let s := XattrSearch first here (negb (err =? 0)) in
    ((xi_value i = None -> is_Some x) ->
     exists ret b', ext4_xattr_set_entry env i s b is_block = Ok (ret, b') /\
       match xi_value i with
       | Some v => (room b first xs <? need x k v) || reserved env b xs x v is_block
       | None => false
       end = bool_decide (ret = - ENOSPC) /\
       (ret = - ENOSPC /\ b' = b \/
        ret = 0 /\ zlen b' = zlen b /\ exists xs', region b' first xs' /\ attrs b' xs' = put k (value_bytes <$> xi_value i) (attrs b xs))).
Proof.
  intros first k R Hs [Hin Hname Hv] Hil. destruct (find_spec b first xs k is_block R Hs) as (err & here & l & x & r & E & Herr & S).
  exists err, here, l, x, r. pose proof S as [Hspl Hfi Hhe Hfo _]. cbn [s_first s_here s_not_found] in *.
  assert (err = if x then 0 else - ENODATA) as Hx by (destruct Herr as [-> | ->], x; cbn in Hfo; destruct Hfo; try done).
  split_and!; [exact E|exact Hspl|exact Hx| |].
  - destruct (searched_fresh _ _ _ _ _ _ _ _ _ R S) as (Hl & Hr & Ep). unfold attrs. rewrite Ep. rewrite <- (pairs_keys b) in Hl, Hr.
    rewrite (list_to_map_put k (val b <$> x) None _ _ Hl Hr). destruct x as [x|]; cbn [put fmap option_fmap option_map]; [apply lookup_insert_eq|apply lookup_delete_eq].
  - intros Hsome. set (s := XattrSearch _ _ _) in *.
    assert (set_call i s b is_block l x r) as C.
    { split; [by rewrite <- Hspl|done|..]; try done; [|by intros ->]. destruct x as [x|]; [done|]. destruct Hfo as [Hnf Hnk]. rewrite Hspl in Hnk. split_and!; [done| |done].
      intros Ev. by destruct (Hsome Ev). }
    destruct (set_entry_spec env i s b is_block l r x C Hsome Hil) as (ret & b' & -> & Hres). exists ret, b'. split; [done|]. unfold refused in Hres. rewrite Hspl.
    change (s_first s) with first in Hres. destruct (match xi_value i with Some v => _ | None => false end).
    + destruct Hres as [-> ->]. split; [done|by left].
    + destruct Hres as [-> Hd]. destruct (done_attrs _ _ _ _ _ _ _ _ _ _ _ R S Hd) as (xs' & R' & [Hz _] & Ea & _). split; [done|]. right. split_and!; [done|done|].
      exists xs'. by rewrite <- Hspl.
Qed.

Lemma set_entry_exact_witness :
  let i := XattrInfo 1 [102] (Some (Value [1; 2; 3; 4; 5])) false in
  exists b' xs', ext4_xattr_set_entry (EntryEnv false 1024 0 0 (fun _ => 0) 0) i (XattrSearch 0 0 true) (zeros 92) false = Ok (0, b') /\
    region b' 0 xs' /\ attrs b' xs' = {[ (1, [102]) := [1; 2; 3; 4; 5] ]}.
Proof.
  intros i. destruct (set_entry_exact (EntryEnv false 1024 0 0 (fun _ => 0) 0) i (zeros 92) [] false) as (err & here & l & x & r & E & Hsp & Herr & _ & H).
  - apply region_zeros. lia.
  - discriminate.
  - split; [reflexivity|split|split]; try (vm_compute; discriminate); try (vm_compute; split; congruence).
    + vm_compute. repeat constructor.
    + repeat constructor; vm_compute; congruence.
  - reflexivity.
  - vm_compute in E. injection E as <- <-. destruct l; [|discriminate]. destruct x; [discriminate|]. destruct r; [|discriminate].
    destruct H as (ret & b' & E & Hb & Hres); [discriminate|]. destruct Hres as [[-> _]|(-> & _ & xs' & R & Ea)]; [vm_compute in Hb; discriminate|].
    exists b', xs'. exact (conj E (conj R Ea)).
Defined.
