(* ===== verification/XattrFs.v ===== *)
(** A file system of inodes whose attributes are kept by [XattrStore], as a
    refinement of the attributes as [Xattr] has them: a map from names to values
    for every inode, on which the accessors of the layer are defined.  That inodes
    share attribute blocks is not seen. *)

From Stdlib Require Import Sorting.Sorted.
From stdpp Require Import strings.
From S2P Require Import Prelude Pages Friend Log Xattr Bytes XattrLayout XattrStore XattrEntry XattrSetEntry XattrShare XattrBlockSet XattrHandle.

(** ** State *)

Record xfs := Xfs { inodes : gmap Z xinode; fs_blocks : blocks }.

(** How many inodes have the block [blk]. *)
Definition total (ns : gmap Z xinode) (blk : Z) : Z :=
  if blk =? 0 then 0 else Z.of_nat (size (filter (fun p => i_file_acl p.2 = blk) ns)).

(** Sound inodes and blocks, every block with the count of its inodes. *)
Record fs_sound (env : xenv) (fs : xfs) : Prop := {
  fo_inodes : forall i ino, inodes fs !! i = Some ino -> (exists xs, body_ok env ino xs) /\ (state_new ino = true -> state_xattr ino = false);
  fo_blocks : blocks_ok env (total (inodes fs)) (fs_blocks fs)
}.
(** And no attribute of an inode is both in its body and in its block. *)
Definition fs_apart (env : xenv) (fs : xfs) : Prop := forall i ino, inodes fs !! i = Some ino -> attrs_apart env (fs_blocks fs) ino.
Definition fs_ok (env : xenv) (fs : xfs) : Prop := fs_sound env fs /\ fs_apart env fs.

(** [ext4_xattr_set_handle] on the inode [i] of the file system. *)
Definition fs_set (env : xenv) (fs : xfs) (i name_index : Z) (name : list Z) (value : option (list Z)) (create replace : bool) : outcome (Z * xfs) :=
  match inodes fs !! i with
  | None => Bug
  | Some ino =>
    '(err, bl, ino) ← ext4_xattr_set_handle env (fs_blocks fs) ino name_index name value create replace;
    Ok (err, Xfs (<[i := ino]> (inodes fs)) bl)
  end.

Definition fs_get (env : xenv) (fs : xfs) (i name_index : Z) (name : list Z) (buffer_size : Z) : outcome (Z * list Z) :=
  match inodes fs !! i with
  | None => Bug
  | Some ino => ext4_xattr_get_stored env (fs_blocks fs) ino name_index name buffer_size
  end.

(** The characters of a name. *)
Fixpoint chars (s : string) : list Z :=
  match s with EmptyString => [] | String c s' => Z.of_N (Ascii.N_of_ascii c) :: chars s' end.
Definition name_ok (s : string) : Prop := Forall (fun c => c <> 0) (chars s).
Definition EXT4_XATTR_INDEX_USER : Z := 1.

(** The inode [i] has the attributes [m] under the index the layer uses. *)
Definition holds (env : xenv) (fs : xfs) (i : Z) (m : xattrs) : Prop :=
  exists ino, inodes fs !! i = Some ino /\ forall name, xattr_map env (fs_blocks fs) ino !! (EXT4_XATTR_INDEX_USER, chars name) = m !! name.

(** ** Counting *)

(** The other users of a block, as [i] sees them. *)
Definition others (ns : gmap Z xinode) (i : Z) : Z -> Z := total (delete i ns).

Lemma total_insert ns i ino blk : ns !! i = None -> total (<[i := ino]> ns) blk = refs (total ns) (i_file_acl ino) blk.
Proof.
  intros Hi. unfold total, refs. destruct (Z.eqb_spec blk 0) as [->|Hb].
  - destruct (Z.eqb_spec 0 (i_file_acl ino)) as [<-|]; done.
  - rewrite map_filter_insert. cbn [snd]. destruct (Z.eqb_spec blk (i_file_acl ino)) as [E|E].
    + rewrite decide_True by done. rewrite map_size_insert_None by (apply map_lookup_filter_None_2; by left).
      rewrite (proj2 (Z.eqb_neq _ 0)) by congruence. cbn [negb andb]. lia.
    + rewrite decide_False by done. cbn [andb]. rewrite map_filter_delete_not by (intros ? Hs; congruence). lia.
Qed.

Lemma total_nonneg ns blk : 0 <= total ns blk.
Proof. unfold total. case_match; lia. Qed.

Lemma total_split ns i ino blk : ns !! i = Some ino -> total ns blk = refs (others ns i) (i_file_acl ino) blk.
Proof. intros Hi. unfold others. rewrite <- (insert_delete_id ns i ino) at 1 by done. apply total_insert, lookup_delete_eq. Qed.

Lemma others_pos ns i j ino : ns !! j = Some ino -> j <> i -> i_file_acl ino <> 0 -> 0 < others ns i (i_file_acl ino).
Proof.
  intros Hj Hne Hnz. unfold others. assert (delete i ns !! j = Some ino) as Hd by by rewrite lookup_delete_ne.
  rewrite (total_split _ j ino) by done. rewrite refs_own by done. pose proof (total_nonneg (delete j (delete i ns)) (i_file_acl ino)). unfold others. lia.
Qed.

(** An inode of a sound file system among the others. *)
Lemma fs_store env fs i ino : fs_sound env fs -> inodes fs !! i = Some ino -> store_sound env (others (inodes fs) i) (fs_blocks fs) ino.
Proof.
  intros F Hi. destruct (fo_inodes _ _ F i ino Hi) as (? & ?). split_and!; try done.
  - eapply blocks_rf; [|apply (fo_blocks _ _ F)]. intros blk. cbn. symmetry. by apply total_split.
  - intros blk. apply total_nonneg.
Qed.

(** The file system after a step of the inode [i]. *)
Lemma fs_step env fs i ino ino' bl' : fs_sound env fs -> inodes fs !! i = Some ino ->
  store_sound env (others (inodes fs) i) bl' ino' -> others_kept env (others (inodes fs) i) (fs_blocks fs) bl' ->
  fs_sound env (Xfs (<[i := ino']> (inodes fs)) bl') /\
  (fs_apart env fs -> attrs_apart env bl' ino' -> fs_apart env (Xfs (<[i := ino']> (inodes fs)) bl')) /\
  forall j inoj, j <> i -> inodes fs !! j = Some inoj -> xattr_map env bl' inoj = xattr_map env (fs_blocks fs) inoj.
Proof.
  intros F Hi (Hb & Hn & B & _) Hk.
  assert (forall j inoj, j <> i -> inodes fs !! j = Some inoj -> block_attrs env bl' (i_file_acl inoj) = block_attrs env (fs_blocks fs) (i_file_acl inoj)) as Hsame.
  { intros j inoj Hne Hj. destruct (Z.eq_dec (i_file_acl inoj) 0) as [E|E]; [unfold block_attrs; by rewrite E|]. apply Hk. by apply (others_pos _ _ j). }
  split; [|split; [|intros j inoj Hne Hj; unfold xattr_map; by rewrite (Hsame j)]]; [split; cbn [inodes fs_blocks]|].
  - intros j inoj. destruct (decide (j = i)) as [->|Hne]; [rewrite lookup_insert_eq; by intros [= <-]|]. rewrite lookup_insert_ne by done. apply (fo_inodes _ _ F).
  - eapply blocks_rf; [|exact B]. intros blk. rewrite <- (insert_delete_eq (inodes fs)). apply total_insert, lookup_delete_eq.
  - intros Hap Hi' j inoj. cbn [inodes fs_blocks]. destruct (decide (j = i)) as [->|Hne]; [rewrite lookup_insert_eq; by intros [= <-]|]. rewrite lookup_insert_ne by done. intros Hj.
    unfold attrs_apart. rewrite (Hsame j) by done. by apply (Hap j).
Qed.

(** ** Names *)

Lemma chars_inj s t : chars s = chars t -> s = t.
Proof.
  revert t. induction s as [|c s IH]; intros [|d t]; cbn; try done. intros [= Hc%N2Z.inj Hs]. f_equal; [|by apply IH].
  rewrite <- (Ascii.ascii_N_embedding c), <- (Ascii.ascii_N_embedding d). by f_equal.
Qed.

Lemma chars_length s : zlen (chars s) = Z.of_nat (String.length s).
Proof. unfold zlen. f_equal. induction s as [|c s IH]; cbn; [done|]. by f_equal. Qed.

Lemma chars_ent s : name_ok s -> (String.length s <= 255)%nat -> ent_ok (new_ent EXT4_XATTR_INDEX_USER (chars s)).
Proof.
  intros Hok Hl. split; cbn [x_index x_name x_offs x_inum x_size new_ent]; try done; [rewrite chars_length; lia|].
  unfold name_ok in Hok. induction s as [|c s IH]; [constructor|]. cbn [chars] in *. apply Forall_cons in Hok as [Hc Hok]. constructor; [|apply IH; [done|cbn in Hl; lia]].
  pose proof (Ascii.N_ascii_bounded c). lia.
Qed.

Lemma key_ne s t : s <> t -> (EXT4_XATTR_INDEX_USER, chars s) <> (EXT4_XATTR_INDEX_USER, chars t).
Proof. intros H [= Hc]. by apply H, chars_inj. Qed.

Lemma insert_chars (mx : gmap (Z * list Z) (list Z)) (m : xattrs) name v : (forall s, mx !! (EXT4_XATTR_INDEX_USER, chars s) = m !! s) ->
  forall s, <[(EXT4_XATTR_INDEX_USER, chars name) := v]> mx !! (EXT4_XATTR_INDEX_USER, chars s) = <[name := v]> m !! s.
Proof.
  intros Hm s. destruct (decide (name = s)) as [->|Hne]; [by rewrite !lookup_insert_eq|]. rewrite !lookup_insert_ne by (try done; by apply key_ne). apply Hm.
Qed.

(** A map that was put at one name is the map of [Xattr] put there. *)
Lemma holds_put (mx mx' : gmap (Z * list Z) (list Z)) (m : xattrs) ok name value :
  (forall s, mx !! (EXT4_XATTR_INDEX_USER, chars s) = m !! s) -> mx' = (if ok : bool then put (EXT4_XATTR_INDEX_USER, chars name) value mx else mx) ->
  forall s, mx' !! (EXT4_XATTR_INDEX_USER, chars s) = ext4_xattr_set (fun _ => ok) m name value !! s.
Proof.
  intros Hm -> s. unfold ext4_xattr_set. destruct ok; [|done]. destruct (decide (s = name)) as [->|Hne].
  - destruct value; cbn [put]; by rewrite ?lookup_insert_eq, ?lookup_delete_eq.
  - assert (name <> s) as Hk by done. apply key_ne in Hk. destruct value; cbn [put]; [rewrite !lookup_insert_ne by done|rewrite !lookup_delete_ne by done]; apply Hm.
Qed.

(** Without flags: the change is made, or there is no effect; it is made though the
    call fails when there is no block to take the attribute out of a shared one. *)
Definition kept_old_value (env : xenv) (bl : blocks) (ino : xinode) (k : Z * list Z) (value : option (list Z)) (err : Z) : Prop :=
  err < 0 /\ new_meta_block env = inl err /\ value <> None /\ block_attrs env bl (i_file_acl ino) !! k <> None.

Lemma store_put env users bl ino name_index name value : quiet env bl -> ent_ok (new_ent name_index name) -> store_sound env users bl ino -> attrs_apart env bl ino ->
  (forall v, value = Some v -> Forall byte_ok v /\ zlen v <= EXT4_XATTR_SIZE_MAX) ->
  exists err bl' ino' made, ext4_xattr_set_handle env bl ino name_index name value false false = Ok (err, bl', ino') /\
    store_sound env users bl' ino' /\ others_kept env users bl bl' /\
    xattr_map env bl' ino' = (if made : bool then put (name_index, name) value (xattr_map env bl ino) else xattr_map env bl ino) /\
    ((made = (err =? 0) /\ attrs_apart env bl' ino') \/ (made = true /\ kept_old_value env bl ino (name_index, name) value err)).
Proof.
  intros Q Hname St Hap Hval. destruct (store_set env users bl ino name_index name value false false Q Hname St Hval) as (err & bl' & ino' & E & St' & Hk & Hres).
  rewrite andb_false_r in Hres. destruct (bool_decide (xattr_map env bl ino !! (name_index, name) = None) && _) eqn:Eab.
  - destruct Hres as (-> & Em & Hd). exists 0, bl', ino', true. split_and!; [done..| |by left; auto]. rewrite Em.
    apply andb_prop in Eab as [Hab%bool_decide_eq_true Hv%bool_decide_eq_true]. subst value. cbn [put]. by rewrite delete_id.
  - rewrite andb_false_r in Hres. destruct Hres as [-> Hm Hd|Hneg _ Hm Hd|Hneg Hnew Hv Hmk Hm].
    + exists 0, bl', ino', true. split_and!; [done..|by auto|by left; auto].
    + exists err, bl', ino', false. split_and!; [done..|]. left. rewrite (proj2 (Z.eqb_neq err 0)) by lia. auto.
    + exists err, bl', ino', true. split_and!; [done..|]. right. by split_and!.
Qed.

(** ** Histories *)

(** Environments of one file system: what is on the disk means the same. *)
Definition agree (env env' : xenv) : Prop :=
  xe_sb env' = xe_sb env /\ inode_size env' = inode_size env /\ xe_blocksize env' = xe_blocksize env /\ ext4_chksum env' = ext4_chksum env.

Lemma agree_block_ok env env' blk b ys n : agree env env' -> block_ok env blk b ys n -> block_ok env' blk b ys n.
Proof. intros (E1 & _ & E3 & E4) [[] ? ? ?]. split; [split|..]; rewrite ?E1, ?E3, ?E4; done. Qed.

Lemma agree_block_attrs env env' bl blk : agree env env' -> block_attrs env' bl blk = block_attrs env bl blk.
Proof. intros (_ & _ & E3 & _). unfold block_attrs, block_of. by rewrite E3. Qed.

Lemma agree_fs_apart env env' fs : agree env env' -> fs_apart env fs -> fs_apart env' fs.
Proof. intros A Hap i ino Hi. unfold attrs_apart. rewrite (agree_block_attrs env) by done. by apply (Hap i). Qed.

Lemma agree_fs_sound env env' fs : agree env env' -> fs_sound env fs -> fs_sound env' fs.
Proof.
  intros A [Hi [Ho Hu Hn]]. split; [|split; [|done|done]].
  - intros i ino E. destruct (Hi i ino E) as ((xs & Hb) & ?). split; [|done]. exists xs.
    destruct A as (_ & E2 & _). unfold body_ok, EXT4_INODE_HAS_XATTR_SPACE in *. by rewrite E2.
  - intros blk b Hb. destruct (Ho blk b Hb) as (? & ys & ?). split; [done|]. exists ys. by eapply agree_block_ok.
Qed.

(** An inode without attributes, new or not. *)
Definition blank (env : xenv) (ino : xinode) : Prop :=
  state_xattr ino = false /\ i_file_acl ino = 0 /\ (EXT4_INODE_HAS_XATTR_SPACE env ino = true -> exists n, 4 <= n <= 65536 /\ body ino = zeros n).

(** The states reached from blank inodes by setting and removing attributes, whatever
    the allocator answers; [lucky] when it never failed for an attribute that was in
    a block. *)
Inductive fs_reach (env0 : xenv) (lucky : bool) : xfs -> Prop :=
| reach_blank ns : (forall i ino, ns !! i = Some ino -> blank env0 ino) -> fs_reach env0 lucky (Xfs ns ∅)
| reach_set env fs i ino name_index name value create replace err fs' : fs_reach env0 lucky fs -> agree env0 env -> quiet env (fs_blocks fs) ->
    inodes fs !! i = Some ino -> ent_ok (new_ent name_index name) -> (forall v, value = Some v -> Forall byte_ok v /\ zlen v <= EXT4_XATTR_SIZE_MAX) ->
    (lucky = true -> block_attrs env (fs_blocks fs) (i_file_acl ino) !! (name_index, name) = None \/ exists blk, new_meta_block env = inr blk) ->
    fs_set env fs i name_index name value create replace = Ok (err, fs') -> fs_reach env0 lucky fs'.

Lemma blank_ok env0 ns : (forall i ino, ns !! i = Some ino -> blank env0 ino) -> fs_ok env0 (Xfs ns ∅).
Proof.
  intros Hns. assert (forall blk, total ns blk = 0) as Ht.
  { intros blk. unfold total. destruct (Z.eqb_spec blk 0) as [|Hb]; [done|]. assert (filter (fun p : Z * xinode => i_file_acl p.2 = blk) ns = ∅) as ->; [|by rewrite map_size_empty]. apply map_eq. intros i.
    rewrite lookup_empty, map_lookup_filter_None. right. intros ino Hi E. destruct (Hns i ino Hi) as (_ & H0 & _). cbn in E. congruence. }
  split; [split; cbn [inodes fs_blocks]|].
  - intros i ino Hi. destruct (Hns i ino Hi) as (Hst & H0 & Hsp). split; [|done]. exists [].
    destruct (EXT4_INODE_HAS_XATTR_SPACE env0 ino) eqn:E; [left|by right]. destruct (Hsp eq_refl) as (n & Hn & ->). split_and!; [done|by apply region_zeros|done|by rewrite Hst].
  - split; [done|intros blk Hp; rewrite Ht in Hp; lia|intros blk; by rewrite Ht].
  - intros i ino Hi. destruct (Hns i ino Hi) as (Hst & _). unfold attrs_apart, body_attrs. rewrite Hst. apply map_disjoint_empty_l.
Qed.

Lemma set_ok env fs i ino name_index name value create replace : fs_sound env fs -> quiet env (fs_blocks fs) -> inodes fs !! i = Some ino -> ent_ok (new_ent name_index name) ->
  (forall v, value = Some v -> Forall byte_ok v /\ zlen v <= EXT4_XATTR_SIZE_MAX) ->
  exists err fs', fs_set env fs i name_index name value create replace = Ok (err, fs') /\ fs_sound env fs' /\
    (fs_apart env fs -> block_attrs env (fs_blocks fs) (i_file_acl ino) !! (name_index, name) = None \/ (exists blk, new_meta_block env = inr blk) -> fs_apart env fs').
Proof.
  intros F Q Hi Hname Hval. unfold fs_set. rewrite Hi.
  destruct (store_set env _ _ ino name_index name value create replace Q Hname (fs_store env fs i ino F Hi) Hval) as (err & bl' & ino' & -> & St' & Hk & Hres). cbn [mbind outcome_bind].
  destruct (fs_step env fs i ino ino' bl' F Hi St' Hk) as (F' & Hap & _). exists err, (Xfs (<[i := ino']> (inodes fs)) bl'). split_and!; [done|done|].
  intros Ha Hsafe. apply Hap; [done|]. pose proof (Ha i ino Hi). repeat case_match; [by apply Hres..|]. destruct Hres as [_ _ Hd|_ _ _ Hd|_ Hnew _ Hmk _]; [by apply Hd..|].
  exfalso. destruct Hsafe as [?|[blk Hb]]; [done|congruence].
Qed.

Lemma fs_reach_ok env0 lucky fs : fs_reach env0 lucky fs -> fs_sound env0 fs /\ (lucky = true -> fs_apart env0 fs).
Proof.
  induction 1 as [ns Hns|env fs i ino name_index name value create replace err fs' _ [IH IHa] A Q Hi Hname Hval Hsafe E]; [by destruct (blank_ok env0 ns Hns)|].
  destruct (set_ok env fs i ino name_index name value create replace) as (err' & fs2 & E' & F' & Ha); try done; [by eapply agree_fs_sound|].
  rewrite E in E'. injection E' as <- <-. assert (agree env env0) as A' by (destruct A as (? & ? & ? & ?); by split_and!). split; [by eapply agree_fs_sound|].
  intros Hl. eapply agree_fs_apart; [exact A'|]. apply Ha; [|by apply Hsafe]. eapply agree_fs_apart; [exact A|]. by apply IHa.
Qed.

(** ** A run *)

Definition demo_sb : xattr_sb := XattrSb false 11 1000 true 7.
Definition demo_sum (seed : Z) (bs : list Z) : Z := foldl (fun s c => (s * 31 + c) mod 2 ^ 32) seed bs.

(** An environment where only the allocator, whose answer is [new], may fail. *)
Definition demo_env (new : Z + Z) (cache : list (list Z)) : xenv :=
  XEnv demo_sb 256 1024 demo_sum false 0 (fun _ => 0) (fun _ => false) true false (fun _ => 0) true 0 new true false cache
    (fun _ _ => inl (- EIO)) (fun _ => inl (- EIO)) (fun _ => 0) (fun _ => 0) 0.

Definition demo_fs : xfs := Xfs (<[1 := XInode 32 (zeros 92) 0 false true 0]> (<[2 := XInode 32 (zeros 92) 0 false true 0]> ∅)) ∅.

(** A step of a run: the inode, the answers of the allocator and of the cache, the
    attribute and its value. *)
Record demo_op := DemoOp { do_inode : Z; do_new : Z + Z; do_cache : list (list Z); do_name : string; do_value : option (list Z) }.

Definition demo_step (fs : xfs) (op : demo_op) : Z * xfs :=
  match fs_set (demo_env (do_new op) (do_cache op)) fs (do_inode op) EXT4_XATTR_INDEX_USER (chars (do_name op)) (do_value op) false false with
  | Ok r => r
  | _ => (1, fs)
  end.

Definition demo_safe (fs : xfs) (op : demo_op) : bool :=
  let env := demo_env (do_new op) (do_cache op) in
  let value := default [] (do_value op) in
  match do_new op with inl err => bool_decide (err < 0) | inr blk => bool_decide (blk <> 0 /\ fs_blocks fs !! blk = None) end &&
  bool_decide (Forall (Forall (fun blk => is_Some (fs_blocks fs !! blk))) (do_cache op)) &&
  bool_decide (Forall (fun c => 0 < c < 256) (chars (do_name op)) /\ zlen (chars (do_name op)) < 256) &&
  bool_decide (Forall (fun c => 0 <= c < 256) value /\ zlen value <= EXT4_XATTR_SIZE_MAX) &&
  match inodes fs !! do_inode op with
  | Some ino => bool_decide (block_attrs env (fs_blocks fs) (i_file_acl ino) !! (EXT4_XATTR_INDEX_USER, chars (do_name op)) = None) ||
                match do_new op with inl _ => false | inr _ => true end
  | None => false
  end && ((demo_step fs op).1 <=? 0).

Fixpoint demo_run (fs : xfs) (ops : list demo_op) : option xfs :=
  match ops with
  | [] => Some fs
  | op :: ops' => if demo_safe fs op then demo_run (demo_step fs op).2 ops' else None
  end.

Lemma demo_quiet fs op : demo_safe fs op = true -> quiet (demo_env (do_new op) (do_cache op)) (fs_blocks fs).
Proof.
  unfold demo_safe. intros [[[[[Hnew Hc%bool_decide_eq_true]%andb_prop _]%andb_prop _]%andb_prop _]%andb_prop _]%andb_prop.
  split; try done; [cbn [new_meta_block demo_env]; by destruct (do_new op); apply bool_decide_eq_true in Hnew|]. cbn [cached demo_env]. intros ce blk Hce. rewrite Forall_forall in Hc. specialize (Hc ce Hce). rewrite Forall_forall in Hc. apply Hc.
Qed.

Lemma demo_reach fs op : demo_safe fs op = true -> fs_reach (demo_env (inr 7) []) true fs -> fs_reach (demo_env (inr 7) []) true (demo_step fs op).2.
Proof.
  intros H R. pose proof (demo_quiet fs op H) as Q. revert H. unfold demo_safe.
  intros [[[[_ [Hn Hl]%bool_decide_eq_true]%andb_prop [Hv Hvl]%bool_decide_eq_true]%andb_prop Hsafe]%andb_prop Hret]%andb_prop.
  destruct (inodes fs !! do_inode op) as [ino|] eqn:Hi; [|done]. unfold demo_step in *. destruct (fs_set _ fs _ _ _ _ _ _) as [[err fs']| |] eqn:E; [|done..].
  eapply reach_set; [exact R| |exact Q|exact Hi| | | |exact E]; [done|by split|by intros v Ev; rewrite Ev in *|].
  intros _. apply orb_prop in Hsafe as [Ha%bool_decide_eq_true|Ha]; [by left|right]. cbn [new_meta_block demo_env]. destruct (do_new op); [done|by eexists].
Qed.

Lemma demo_run_reach ops : forall fs fs', demo_run fs ops = Some fs' -> fs_reach (demo_env (inr 7) []) true fs -> fs_reach (demo_env (inr 7) []) true fs'.
Proof.
  induction ops as [|op ops IH]; intros fs fs'; cbn [demo_run]; [by intros [= <-]|]. destruct (demo_safe fs op) eqn:E; [|done]. intros H R. eapply IH; [exact H|by apply demo_reach].
Qed.

Lemma demo_blank : fs_reach (demo_env (inr 7) []) true demo_fs.
Proof.
  apply reach_blank. intros i ino [[<- <-]|[_ [[<- <-]|[_ H]]%lookup_insert_Some]]%lookup_insert_Some; [| |by rewrite lookup_empty in H]; split_and!; try done; intros _; by exists 92.
Qed.

(** Two inodes with the same three attributes, that share the block 7. *)
Definition demo_ops : list demo_op :=
  [DemoOp 1 (inr 7) [] "f" (Some (zeros 60)); DemoOp 1 (inr 7) [] "k" (Some (le_bytes 8 5)); DemoOp 1 (inr 8) [] "z" (Some (le_bytes 8 6));
   DemoOp 2 (inr 8) [] "f" (Some (zeros 60)); DemoOp 2 (inr 8) [[7]] "k" (Some (le_bytes 8 5)); DemoOp 2 (inr 9) [[7]] "z" (Some (le_bytes 8 6))].
Definition demo_shared : xfs := default demo_fs (demo_run demo_fs demo_ops).

Lemma demo_shared_ran : demo_run demo_fs demo_ops = Some demo_shared.
Proof. vm_compute. reflexivity. Qed.

Lemma demo_shared_ok : fs_ok (demo_env (inr 9) []) demo_shared.
Proof.
  destruct (fs_reach_ok (demo_env (inr 7) []) true demo_shared) as [F Ha]; [eapply demo_run_reach; [exact demo_shared_ran|exact demo_blank]|].
  split; [by eapply agree_fs_sound; [|exact F]|by eapply agree_fs_apart; [|apply Ha]].
Qed.

Lemma demo_count : h_refcount <$> (fs_blocks demo_shared !! 7) = Some 2.
Proof. vm_compute. reflexivity. Qed.

(** Both inodes hold what the run has set. *)
Lemma demo_maps : Forall (fun i => xattr_map (demo_env (inr 9) []) (fs_blocks demo_shared) <$> (inodes demo_shared !! i) = Some
  (<[(EXT4_XATTR_INDEX_USER, chars "f") := zeros 60]> (<[(EXT4_XATTR_INDEX_USER, chars "k") := le_bytes 8 5]> (<[(EXT4_XATTR_INDEX_USER, chars "z") := le_bytes 8 6]> ∅)))) [1; 2].
Proof. apply Forall_cons; split; [vm_compute; reflexivity|]. apply Forall_singleton. vm_compute. reflexivity. Qed.

Lemma demo_holds i : i ∈ [1; 2] -> holds (demo_env (inr 9) []) demo_shared i (<["f" := zeros 60]> (<["k" := le_bytes 8 5]> (<["z" := le_bytes 8 6]> ∅))).
Proof.
  intros Hi. pose proof (proj1 (Forall_forall _ _) demo_maps i Hi) as H. cbv beta in H. apply fmap_Some in H as (ino & E & Em). exists ino. split; [done|].
  rewrite <- Em. by do 3 apply insert_chars.
Qed.

(** ** Properties *)

(** C16: The attributes of the layer, a map from names to values for every inode, are
    implemented by bodies and shared blocks, where the journal, memory and reading
    do not fail and values are not stored in inodes of their own: reading returns
    what [ext4_xattr_get] of [Xattr] returns for the map, and setting or removing an
    attribute of one inode returns, makes the change of [ext4_xattr_set] there to
    its map if it returns 0 and none if it returns an error, and no change for any
    other inode, whoever shares its block.  There is one exception: setting an
    attribute that is in a block, when no block can be allocated, may return the
    error of the allocator and yet make the change; the file system is then sound
    but for the old value, which is still in the block. *)
Theorem store_refines (env : xenv) (fs : xfs) (i : Z) (m : xattrs) (name : string) :
  fs_ok env fs -> quiet env (fs_blocks fs) -> forced_shutdown env = false -> holds env fs i m -> name_ok name -> (String.length name <= 255)%nat ->
  (forall n : nat, fs_get env fs i EXT4_XATTR_INDEX_USER (chars name) (Z.of_nat n) = Ok (ext4_xattr_get m name n)) /\
  forall value, (forall v, value = Some v -> Forall byte_ok v /\ zlen v <= EXT4_XATTR_SIZE_MAX) ->
    exists err fs' made, fs_set env fs i EXT4_XATTR_INDEX_USER (chars name) value false false = Ok (err, fs') /\
      holds env fs' i (ext4_xattr_set (fun _ => made) m name value) /\
      (forall j m', j <> i -> holds env fs j m' -> holds env fs' j m') /\
      ((made = (err =? 0) /\ fs_ok env fs') \/
       (made = true /\ fs_sound env fs' /\ exists ino, inodes fs !! i = Some ino /\
          kept_old_value env (fs_blocks fs) ino (EXT4_XATTR_INDEX_USER, chars name) value err)).
Proof.
  intros [F Hap] Q Hsh (ino & Hi & Hm) Hok Hl. pose proof (fs_store env fs i ino F Hi) as St. split.
  - intros n. unfold fs_get. rewrite Hi. unfold ext4_xattr_get_stored, ext4_xattr_get. rewrite Hsh, chars_length.
    rewrite (proj2 (Z.ltb_ge 255 _)), (proj2 (Nat.ltb_ge 255 _)) by lia. rewrite <- Hm.
    pose proof (store_get env _ _ ino (EXT4_XATTR_INDEX_USER, chars name) (Z.of_nat n) (fs_store env fs i ino F Hi) (qt_loc _ _ Q) (qt_bread _ _ Q)) as E. cbn [fst snd] in E. rewrite E.
    unfold answer. destruct (xattr_map _ _ _ !! _) as [v|]; [|done]. unfold zlen. destruct (Nat.ltb_spec n (length v)), (Z.ltb_spec (Z.of_nat n) (Z.of_nat (length v))); done || lia.
  - intros value Hval. unfold fs_set. rewrite Hi. pose proof (chars_ent name Hok Hl) as Hname.
    destruct (store_put env _ _ ino EXT4_XATTR_INDEX_USER (chars name) value Q Hname St (Hap i ino Hi) Hval) as (err & bl' & ino' & made & -> & St' & Hk & Hmap & Hres). cbn [mbind outcome_bind].
    destruct (fs_step env fs i ino ino' bl' F Hi St' Hk) as (F' & Hap' & Hsame). exists err, (Xfs (<[i := ino']> (inodes fs)) bl'), made. split_and!; [done| | |].
    + exists ino'. cbn [inodes fs_blocks]. rewrite lookup_insert_eq. split; [done|]. by eapply holds_put.
    + intros j m' Hne (inoj & Hj & Hmj). exists inoj. cbn [inodes fs_blocks]. rewrite lookup_insert_ne by done. split; [done|]. intros name'. by rewrite (Hsame j).
    + destruct Hres as [[-> Ha]|[-> Hold]]; [left|right]; [split; [done|split; [done|by apply Hap']]|]. split_and!; [done|done|by exists ino].
Qed.

Lemma store_refines_witness : exists err fs',
  fs_set (demo_env (inr 9) []) demo_shared 1 EXT4_XATTR_INDEX_USER (chars "k") (Some (le_bytes 8 9)) false false = Ok (err, fs') /\
  holds (demo_env (inr 9) []) fs' 2 (<["f" := zeros 60]> (<["k" := le_bytes 8 5]> (<["z" := le_bytes 8 6]> ∅))).
Proof.
  destruct (store_refines (demo_env (inr 9) []) demo_shared 1 (<["f" := zeros 60]> (<["k" := le_bytes 8 5]> (<["z" := le_bytes 8 6]> ∅))) "k") as [_ H].
  - apply demo_shared_ok.
  - apply (demo_quiet demo_shared (DemoOp 1 (inr 9) [] "k" (Some (le_bytes 8 9)))). vm_compute. reflexivity.
  - reflexivity.
  - apply demo_holds. by left.
  - repeat constructor; done.
  - cbn. lia.
  - destruct (H (Some (le_bytes 8 9))) as (err & fs' & made & E & _ & Hj & _).
    + intros v [= <-]. split; [|vm_compute; discriminate]. repeat constructor; discriminate.
    + exists err, fs'. split; [exact E|]. apply Hj; [discriminate|]. apply demo_holds. right. by left.
Defined.

(** C17: In every state reached from inodes without attributes by setting and removing
    attributes, whatever was shared, copied and freed on the way and whenever no block
    could be allocated (the journal, memory and reads do not fail, and values are not
    stored in inodes of their own): the count in the header of a block is the number of
    inodes that have it, between one and [EXT4_XATTR_REFCOUNT_MAX],
    [ext4_xattr_check_block] accepts every block, its checksum included, and every
    inode that names a block has one.  If the allocator never failed for an
    attribute that was in a block, then no attribute is both in the body of an inode
    and in its block. *)
Theorem block_counts_exact (env : xenv) (lucky : bool) (fs : xfs) : fs_reach env lucky fs ->
  (forall blk b, fs_blocks fs !! blk = Some b ->
     h_refcount b = Z.of_nat (size (filter (fun p : Z * xinode => i_file_acl p.2 = blk) (inodes fs))) /\ 1 <= h_refcount b <= EXT4_XATTR_REFCOUNT_MAX /\
     forall verified, ext4_xattr_check_block (ext4_chksum env) (xe_sb env) verified blk b = Ok 0) /\
  forall i ino, inodes fs !! i = Some ino ->
    (i_file_acl ino <> 0 -> is_Some (fs_blocks fs !! i_file_acl ino)) /\ (lucky = true -> body_attrs ino ##ₘ block_attrs env (fs_blocks fs) (i_file_acl ino)).
Proof.
  intros [R Hap]%fs_reach_ok. pose proof (fo_blocks _ _ R) as [Hok Hused _]. split.
  - intros blk b Hb. destruct (Hok blk b Hb) as (Hnz & ys & Hbk). pose proof (bk_count _ _ _ _ _ Hbk) as Hc. pose proof (bk_bound _ _ _ _ _ Hbk) as Hn.
    split_and!; [|lia|lia|]; [|intros verified; by eapply check_block_spec]. rewrite Hc. unfold total. by rewrite (proj2 (Z.eqb_neq blk 0)).
  - intros i ino Hi. split; [|intros Hl; by apply (Hap Hl i)]. intros Hnz. apply Hused.
    rewrite (total_split _ i ino) by done. rewrite refs_own by done. pose proof (total_nonneg (delete i (inodes fs)) (i_file_acl ino)). unfold others. lia.
Qed.

Lemma block_counts_exact_witness : exists b, fs_blocks demo_shared !! 7 = Some b /\ h_refcount b = 2 /\
  size (filter (fun p : Z * xinode => i_file_acl p.2 = 7) (inodes demo_shared)) = 2%nat.
Proof.
  destruct (block_counts_exact (demo_env (inr 7) []) true demo_shared) as [H _]; [eapply demo_run_reach; [exact demo_shared_ran|exact demo_blank]|].
  destruct (proj1 (fmap_Some _ _ _) demo_count) as (b & E & _).
  assert (size (filter (fun p : Z * xinode => i_file_acl p.2 = 7) (inodes demo_shared)) = 2%nat) as Hs by (vm_compute; reflexivity).
  destruct (H 7 b E) as (Hc & _). exists b. rewrite Hc, Hs. exact (conj E (conj eq_refl eq_refl)).
Defined.

(** Setting an attribute that is in a block shared with another inode, when there is
    room in the body and the block cannot be copied: the call returns [-ENOSPC], yet
    the new value is read from then on, since it was put in the body before the
    attribute had to be removed from the block.  And removing the attribute, a call
    that succeeds, brings the old value back. *)
Theorem failed_set_takes_effect : exists env fs fs1 fs2,
  fs_reach (demo_env (inr 7) []) true fs /\ agree (demo_env (inr 7) []) env /\
  fs_get env fs 1 EXT4_XATTR_INDEX_USER (chars "k") 100 = Ok (8, le_bytes 8 5) /\
  fs_set env fs 1 EXT4_XATTR_INDEX_USER (chars "k") (Some (le_bytes 8 9)) false false = Ok (- ENOSPC, fs1) /\
  fs_get env fs1 1 EXT4_XATTR_INDEX_USER (chars "k") 100 = Ok (8, le_bytes 8 9) /\
  fs_set env fs1 1 EXT4_XATTR_INDEX_USER (chars "k") None false false = Ok (0, fs2) /\
  fs_get env fs2 1 EXT4_XATTR_INDEX_USER (chars "k") 100 = Ok (8, le_bytes 8 5).
Proof.
  exists (demo_env (inl (- ENOSPC)) []), (default demo_fs (demo_run demo_fs (demo_ops ++ [DemoOp 1 (inr 9) [] "f" None]))).
  do 2 eexists. split_and!; [|done|vm_compute; reflexivity..].
  apply (demo_run_reach (demo_ops ++ [DemoOp 1 (inr 9) [] "f" None]) demo_fs); [|exact demo_blank]. vm_compute. reflexivity.
Qed.
